(* ===== verification/_CoqProject ===== *)
-Q . S2P
Prelude.v
Dtype.v
Half.v
Device.v
Heap.v
Runtime.v
Init.v
Tensor.v
TensorSpec.v
TensorProps.v
Json.v
JsonSpec.v
MappedFile.v
Safetensors.v
SafetensorsSpec.v
SafetensorsRound.v
Gguf.v
GgufSpec.v
GgufRound.v
TraceDag.v
TraceContext.v
TraceOps.v
TracePlan.v
TraceCache.v
TraceCacheSpec.v
TraceSpec.v
TraceRefine.v
TraceContextSpec.v
TracePlanSpec.v
RowNormKernel.v
OpWrap.v
Ops.v
OpsSpatial.v
OpsAttention.v
OpsQuantAudio.v
CpuRegister.v
OpsSpec.v
Ptx.v
PtxSpec.v
PtxDiv.v
PtxChain.v
PtxChainSpec.v
PtxMemory.v
PtxKernel.v
PtxBody.v
PtxGrid.v
PtxThread.v
PtxLoop.v
PtxConcurrent.v
PtxLaunch.v
PtxKernelSpec.v
CpuBuf.v
CpuExample.v
CpuMove.v
CpuMoveSpec.v
CpuPadSpec.v
CpuRows.v
CpuRowsSpec.v
CpuTopK.v
CpuTopKSpec.v
ThreadPool.v
ThreadPoolSpec.v
ThreadPoolInv.v
ThreadPoolProps.v
Float32.v
Autodiff.v
TraceMeaning.v
AutodiffEmit.v
AutodiffPlain.v
AutodiffSweep.v
AutodiffAdjoint.v
AutodiffBackward.v
AutodiffPrune.v
AutodiffGrad.v
AutodiffLower.v
AutodiffCanon.v
AutodiffAccuracy.v
DiskCache.v
DiskCacheSpec.v
DiskCacheAtomic.v
