(* ===== verification/Prelude.v ===== *)
(** * brotensor: a verification library

    brotensor is a tensor library in C++: one [Tensor] type over CPU, CUDA,
    Metal and Vulkan backends, some 270 operations dispatched to the backend
    of their operands, readers for the file formats weights come in, and a
    tracing JIT that records a chain of operations and fuses it into one kernel.
    This library models its core and proves what makes it correct. All paths
    are under src/, the root of the repository.

    ** The program and the files

    A tensor names a device; [dispatch.cpp] keeps, per device, a table of
    operations ([OpsVTable]) and a table of memory functions ([AllocVTable]).
    [tensor.cpp] reaches memory through the second, the public operations of
    [ops*.cpp] reach kernels through the first, and [init.cpp] decides which
    backends exist and which device is the default. While a thread traces, the
    operations of [jit/trace_ops.cpp] record nodes instead of computing, and
    the tensors they return are symbolic: they are known to the tracer by
    their address, so that a tensor's move and destruction call back into it.

    - Prelude.v (this file): bytes, outcomes ([res]: return, throw, undefined
      behaviour), stateful computations ([st]), machine integers, decimal text,
      slices, bit fields.
    - Dtype.v, Half.v: element types, storage sizes, fp16 and bf16 conversions
      (src/tensor.cpp, include/brotensor/tensor.h).
    - Device.v: devices and their names.
    - Heap.v: memory, the interface [LawfulAlloc] a backend's allocator
      promises to tensors, and src/cpu/alloc.cpp as its instance.
    - Runtime.v: the registry and operand dispatch of src/dispatch.cpp and
      include/brotensor/detail/dispatch.h. Init.v: src/init.cpp.
    - Tensor.v: src/tensor.cpp on an object store and a heap, operation by
      operation; TensorSpec.v: the ownership invariant [wf] and its
      preservation; TensorProps.v: the properties, proved against
      [LawfulAlloc] only.
    - Json.v, JsonSpec.v: include/brotensor/json.h. MappedFile.v: the mapping
      code safetensors.cpp and gguf.cpp share. Safetensors.v,
      SafetensorsSpec.v, SafetensorsRound.v: src/safetensors.cpp. Gguf.v,
      GgufSpec.v, GgufRound.v: src/gguf.cpp.
    - TraceDag.v, TraceContext.v: src/jit/trace_dag.cpp over the objects of
      Tensor.v; TraceOps.v: the recording branches of src/jit/trace_ops.cpp;
      TracePlan.v: src/jit/trace_plan.cpp; TraceCache.v:
      src/jit/trace_cache.cpp, sequentially and as interleaved atomic steps.
      TraceSpec.v, TraceRefine.v, TraceContextSpec.v, TracePlanSpec.v,
      TraceCacheSpec.v: their properties.
    - OpWrap.v: the steps every public wrapper is made of and the contract
      [obeys]; Ops.v, OpsSpatial.v, OpsAttention.v, OpsQuantAudio.v: the
      wrappers of src/ops.cpp, src/ops_spatial.cpp, src/ops_attention.cpp and
      src/ops_quant_audio.cpp; CpuRegister.v: include/brotensor/detail/op_table.h
      with the registrars of src/cpu; OpsSpec.v: all wrappers together.
    - Ptx.v, PtxSpec.v: the PTX instructions the CUDA emitters write, their
      text, a register machine for them, and the emitters' state. PtxDiv.v:
      division by a constant (src/jit/ptx_emit_detail.h); PtxChain.v,
      PtxChainSpec.v: the chain of lane operations; PtxMemory.v: loads and
      stores. PtxKernel.v: src/jit/ptx_emit_elementwise.cpp and the launch of
      src/jit/trace_compiler_cuda.cpp; PtxBody.v, PtxGrid.v, PtxThread.v,
      PtxLoop.v, PtxConcurrent.v, PtxLaunch.v, PtxKernelSpec.v: one lane, the
      grid, one thread, its loop, all threads in any order, the launch.
    - Float32.v: binary32 on bit patterns. Autodiff.v: src/jit/trace_autodiff.cpp,
      the lowering of a trace and its backward graph. TraceMeaning.v: the value
      of a graph in the reals; AutodiffEmit.v, AutodiffPlain.v: reasoning about
      emitted nodes; AutodiffSweep.v, AutodiffAdjoint.v, AutodiffBackward.v,
      AutodiffPrune.v, AutodiffGrad.v: the sweep, its
      invariant, the steps around it, the pruning, the derivatives, the
      properties; AutodiffLower.v, AutodiffCanon.v, AutodiffAccuracy.v: the
      lowered operations, the lowering, its error.
    - DiskCache.v: src/jit/kernel_disk_cache.cpp; DiskCacheSpec.v:
      checksums, what calls leave alone, the properties;
      DiskCacheAtomic.v: concurrent writers as steps on the files.
    - CpuBuf.v, CpuExample.v: a heap of bytes seen as arrays, and the states of
      the examples. CpuMove.v, CpuMoveSpec.v, CpuPadSpec.v: the kernels of
      src/cpu that move data (transpose, slice, window, spatial_merge, pad2d,
      unfold, concat); CpuRows.v, CpuRowsSpec.v: gather_rows.cpp,
      embedding.cpp, kv_cache.cpp; CpuTopK.v, CpuTopKSpec.v: top_k.cpp.
    - ThreadPool.v: src/cpu/thread_pool.cpp as a machine of threads;
      ThreadPoolSpec.v, ThreadPoolInv.v, ThreadPoolProps.v: what parallel_for
      means, the invariant, the properties.

    Functions keep their names; a name Rocq does not allow, or that a class
    shares with another, lives in a Module named for the class ([T] for Tensor,
    [Ctx] for TraceContext, [F] for a file class, [W] for the writer, [Dev] for
    Device). A reference or pointer to a tensor is an address of the object
    store, because moves, destruction and the tracer depend on identity.

    ** What the theorems show

    - Memory: a client that only calls [Tensor] operations never reaches
      undefined behaviour and never leaks or frees twice, with any lawful
      backends; copies are deep, migration and host access round-trip, resize
      within capacity keeps the buffer, [at] is bounds-checked.
    - Numbers: sizes are exact until they overflow; fp16 and bf16 conversions
      round to nearest, ties to even, and widening is exact.
    - Dispatch: the operands' common device decides, disagreement throws;
      every public wrapper of the common shape refuses without touching a
      tensor or calls the slot of its own name with all its tensors checked;
      the CPU table holds, slot by slot, the implementation of that name (some
      of which the documentation says it leaves null).
    - Start-up: whichever probes succeed, the default device is registered;
      device scopes restore.
    - Files: every byte of a tensor a reader hands out lies in the mapping; the
      readers return or throw on every input (a safetensors header that nests
      2^31 brackets, which overflows [skip_value]'s counter, excepted); what
      [write_file] writes is read back, once the flush of its close brings the
      bytes to the disk; a client of the safetensors file class leaks no mapping
      and no descriptor but descriptor 0; the GGUF reader reads what an encoder of the format
      writes; the JSON parser accepts every document of the grammar with the
      value the grammar gives it, and no text makes it recurse beyond its limit.
    - Tracing: recording, liveness and one fused kernel leave the memory the
      direct run leaves, for operands the trace describes; the end of a trace
      leaves, also when it throws, no symbolic tensor, an idle context and empty
      tables; plans stay in bounds; the cache is a map with exact counters, and
      under threads a hit is a handle some thread inserted for that hash.
    - Code generation: division by a constant divides; a chain of operations
      leaves in every lane what the trace means; the elementwise kernel, launched
      as the code launches it, with its threads in any order, leaves the memory
      the plan's reading of the trace leaves.
    - Differentiation: the backward graph computes the derivative within the
      error of the slopes it emits, and forward and reverse accumulation of
      those slopes agree on every supported graph; the lowering
      yields operations the emitters have a form for, with the values of the
      graph up to stated errors, the logarithm's included.
    - Kernel cache on disk: what is stored is loaded, through any other calls; a
      changed byte or a torn write never reaches a caller, with any number of
      writers; a write that succeeds stores exactly its data, one that fails
      leaves the target; a native kernel is compiled once per key as long as the
      calls with that key ask for its entry name.
    - CPU kernels: transposes, merges and paddings are inverted by their
      counterparts; the backward kernels are the adjoints of the forward ones;
      top-k selects what its order says, on either path.
    - Thread pool: every run of a parallel_for ends, each index is called once,
      nothing races, no callback outlives its call.
    - What does not hold is stated as a theorem too: the theorems of kind
      error show, on the definitions, a store that is lost, a stale view, a
      name the safetensors writer loses and a flush whose failure it ignores,
      a counter a header overflows, a kernel another entry name evicts from the
      cache, a resize that leaves its shape behind, and an operand a wrapper
      does not check.

    ** Fuel and bounds

    Loops that are not structural take fuel and yield [Undef] without it. The
    JSON and safetensors parsers start with as much as the input's length
    allows them to use and are shown never to run out; the JSON parser also
    counts the stack frames of its nested calls, of which 257 are enough; the worklist of [TraceDAG::backward] is given
    one turn per operand of the graph ([mark_fuel]), which is shown to be enough;
    [log2_exact] and the loops of [magic_u32] are given the width of the integer;
    the tiling loops of TracePlan.v halve or double a number below 256. Integers
    are [Z]: unsigned arithmetic wraps ([u8] to [u64]), signed arithmetic that
    would overflow is [Undef] where the code does it unchecked. The thread pool
    and the running threads of a kernel are step relations, which need no fuel;
    the theorems on them bound every run or follow it to its end.

    ** What is a parameter

    The operating system (open, fstat, mmap), [malloc], the C library's
    handling of decimal underflow, backend probes, backend kernels and their
    addresses, the float unit of the GPU, float addition in the CPU kernels
    that only move and add, the external compiler library and the loader of
    shared objects; each with the documented behaviour that is relied on
    as a named hypothesis, and an instance of it in the witness.

    ** Not modelled

    The numeric kernels of src/cpu other than those named above, and those of
    src/cuda, src/metal and src/vulkan (floating-point loops and GPU code: their
    result is a matter of rounding error, not of a specification the source
    states). Of src/jit, the compilers that call a driver, an assembler or an
    external compiler library (trace_compiler_*.cpp but for the launch of the
    elementwise kernel, the SPIR-V emitters), the row-normalisation emitter,
    trace_eager.cpp, and [verify_backward_trace_dag], which hands
    the lowered graphs to an external prover. Of the PTX: what [ptxas] makes of
    it, such as a contraction it may choose. Of the thread pool: [instance],
    thread creation, and exceptions out of a callback; its atomics are taken in
    one total order and its waits without spurious wake-ups. Values of traces are
    real numbers, without rounding, and row normalisations have none. The script
    bindings of src/api; the Windows branch of the file mapping; the upload
    functions of the two file formats; the mutexes and atomics of src/init.cpp
    (one thread's view is given).
*)
From Stdlib Require Export ZArith Lia Strings.Byte.
From stdpp Require Export base list gmap numbers option strings.
#[global] Open Scope Z_scope.

(** ** Bytes and byte strings

    A C++ [char] or [uint8_t] is a [byte]; a [std::string], a memory range or
    the contents of a file is a list of them. *)

Abbreviation str := (list byte).

(** A string literal of the source. *)
Definition lit (s : string) : str := String.list_byte_of_string s.

(** The value of a byte as an unsigned integer, and the byte a narrowing
    conversion produces. *)
Definition bz (b : byte) : Z := Z.of_N (Byte.to_N b).
Definition zb (z : Z) : byte :=
  match Byte.of_N (Z.to_N (z mod 256)) with Some b => b | None => x00 end.

Definition beq (a b : byte) : bool := Byte.eqb a b.

#[global] Instance byte_eq_decision : EqDecision byte := Byte.byte_eq_dec.

#[global] Program Instance byte_countable : Countable byte :=
  inj_countable Byte.to_N Byte.of_N Byte.of_to_N.

Create HintDb brt.

Declare Scope brt_scope.
Delimit Scope brt_scope with brt.
Open Scope brt_scope.
Infix "=b" := beq (at level 70, no associativity) : brt_scope.

Lemma beq_spec a b : reflect (a = b) (a =b b).
Proof.
  unfold beq. destruct (Byte.eqb a b) eqn:E; constructor.
  - by apply Byte.byte_dec_bl.
  - intros ->. rewrite Byte.byte_dec_lb in E; done.
Qed.

Lemma beq_refl a : (a =b a) = true.
Proof. by destruct (beq_spec a a). Qed.

Lemma beq_true a b : (a =b b) = true <-> a = b.
Proof. by destruct (beq_spec a b). Qed.

Lemma beq_false a b : (a =b b) = false <-> a <> b.
Proof. by destruct (beq_spec a b). Qed.

Lemma bz_range b : 0 <= bz b < 256.
Proof. unfold bz. pose proof (Byte.to_N_bounded b). lia. Qed.

Lemma zb_bz b : zb (bz b) = b.
Proof.
  unfold zb. pose proof (bz_range b). rewrite Z.mod_small by lia.
  unfold bz. rewrite N2Z.id, Byte.of_to_N. done.
Qed.

Lemma bz_zb_mod z : bz (zb z) = z mod 256.
Proof.
  unfold zb, bz. pose proof (Z.mod_pos_bound z 256 ltac:(lia)).
  destruct (Byte.of_N (Z.to_N (z mod 256))) as [b|] eqn:E.
  - apply Byte.to_of_N in E. rewrite E. lia.
  - apply Byte.of_N_None_iff in E. lia.
Qed.

Lemma bz_zb z : 0 <= z < 256 -> bz (zb z) = z.
Proof. intros. rewrite bz_zb_mod. by apply Z.mod_small. Qed.

Lemma bz_inj a b : bz a = bz b -> a = b.
Proof. intros H. rewrite <- (zb_bz a), <- (zb_bz b). by f_equal. Qed.

#[global] Instance str_eq_decision : EqDecision str := _.

(** [a == b] on [std::string]. *)
Definition str_eqb (a b : str) : bool := bool_decide (a = b).

Lemma str_eqb_spec a b : reflect (a = b) (str_eqb a b).
Proof. unfold str_eqb. destruct (bool_decide_reflect (a = b)); by constructor. Qed.

(** ** Outcomes

    A C++ function returns, throws a [std::runtime_error] with a message, or
    has no defined behaviour left (undefined behaviour, or [std::terminate]
    from a [noexcept] function). The last is a value of its own, so that its
    absence is a theorem and not an assumption. *)

Inductive res (A : Type) : Type :=
  | Ret (a : A)
  | Throw (msg : str)
  | Undef.
Arguments Ret {A} a.
Arguments Throw {A} msg.
Arguments Undef {A}.

#[global] Instance res_ret : MRet res := fun A a => Ret a.
#[global] Instance res_bind : MBind res := fun A B f m =>
  match m with Ret a => f a | Throw e => Throw e | Undef => Undef end.

(** The code that must not be reached is not. *)
Definition defined {A} (r : res A) : Prop :=
  match r with Undef => False | _ => True end.

(** The result of a call, if it returned. *)
Definition returned {A} (r : res A) (P : A -> Prop) : Prop :=
  match r with Ret a => P a | _ => True end.

(** Stateful code threads a state that survives a throw: what a function did
    before it threw is visible to whoever catches. *)
Definition st (S A : Type) : Type := S -> res A * S.

#[global] Instance st_ret {S} : MRet (st S) := fun A a s => (Ret a, s).
#[global] Instance st_bind {S} : MBind (st S) := fun A B f m s =>
  match m s with
  | (Ret a, s') => f a s'
  | (Throw e, s') => (Throw e, s')
  | (Undef, s') => (Undef, s')
  end.

Lemma st_bind_ret {S A B} (m : st S A) (f : A -> st S B) s a s' :
  m s = (Ret a, s') -> (m ≫= f) s = f a s'.
Proof. intros H. unfold mbind, st_bind. by rewrite H. Qed.

Lemma st_bind_throw {S A B} (m : st S A) (f : A -> st S B) s e s' :
  m s = (Throw e, s') -> (m ≫= f) s = (Throw e, s').
Proof. intros H. unfold mbind, st_bind. by rewrite H. Qed.

Definition st_get {S} : st S S := fun s => (Ret s, s).
Definition st_gets {S A} (f : S -> A) : st S A := fun s => (Ret (f s), s).
Definition st_mod {S} (f : S -> S) : st S unit := fun s => (Ret tt, f s).
Definition st_throw {S A} (e : str) : st S A := fun s => (Throw e, s).
Definition st_undef {S A} : st S A := fun s => (Undef, s).
Definition st_lift {S A} (r : res A) : st S A := fun s => (r, s).

(** [if (c) throw ...;] *)
Definition throw_if (c : bool) (e : str) : res unit := if c then Throw e else Ret tt.
Definition st_throw_if {S} (c : bool) (e : str) : st S unit :=
  if c then st_throw e else mret tt.

(** The rest of a block after a local with a destructor: the destructor runs
    on the way out, whether the body returns or throws, and may not throw. *)
Definition with_dtor {S A} (body : st S A) (dtor : st S unit) : st S A := fun s =>
  match body s with
  | (Undef, s') => (Undef, s')
  | (r, s') =>
      match dtor s' with
      | (Ret _, s'') => (r, s'')
      | (_, s'') => (Undef, s'')
      end
  end.

Lemma throw_if_ret c e u : throw_if c e = Ret u -> c = false.
Proof. by destruct c. Qed.

(** Case analysis on the first unresolved step of a computation in a
    hypothesis, keeping the equation. *)
Ltac step_in H :=
  match type of H with
  | context [ match ?x with _ => _ end ] =>
      lazymatch x with
      | context [ match _ with _ => _ end ] => fail
      | _ => let E := fresh "E" in destruct x eqn:E
      end
  end.


(** Reduce boolean facts to propositions. *)
Ltac bool_facts :=
  repeat match goal with
  | H : (_ && _)%bool = true |- _ => apply andb_true_iff in H as [? ?]
  | H : (_ || _)%bool = false |- _ => apply orb_false_iff in H as [? ?]
  | H : negb _ = true |- _ => apply negb_true_iff in H
  | H : negb _ = false |- _ => apply negb_false_iff in H
  | H : (_ <? _) = true |- _ => apply Z.ltb_lt in H
  | H : (_ <? _) = false |- _ => apply Z.ltb_ge in H
  | H : (_ <=? _) = true |- _ => apply Z.leb_le in H
  | H : (_ <=? _) = false |- _ => apply Z.leb_gt in H
  | H : (_ =? _) = true |- _ => apply Z.eqb_eq in H
  | H : (_ =? _) = false |- _ => apply Z.eqb_neq in H
  | H : (_ =b _) = true |- _ => apply beq_true in H
  | H : (_ =b _) = false |- _ => apply beq_false in H
  end.

(** ** Machine integers *)

Definition INT_MAX : Z := 2147483647.
Definition INT_MIN : Z := -2147483648.
Definition INT64_MAX : Z := 9223372036854775807.
Definition UINT64_MAX : Z := 18446744073709551615.
Definition SIZE_MAX : Z := UINT64_MAX.

(** [static_cast<uint8_t / uint16_t / uint32_t / uint64_t / std::size_t>]. *)
Definition u8 (z : Z) : Z := z mod 2 ^ 8.
Definition u16 (z : Z) : Z := z mod 2 ^ 16.
Definition u32 (z : Z) : Z := z mod 2 ^ 32.
Definition u64 (z : Z) : Z := z mod 2 ^ 64.

(** The two's-complement reading of the low [w] bits. *)
Definition to_signed (w : Z) (z : Z) : Z :=
  let m := z mod 2 ^ w in if m <? 2 ^ (w - 1) then m else m - 2 ^ w.
Definition i32 (z : Z) : Z := to_signed 32 z.
Definition i64 (z : Z) : Z := to_signed 64 z.

Definition is_int (z : Z) : Prop := INT_MIN <= z <= INT_MAX.
Definition is_size (z : Z) : Prop := 0 <= z <= SIZE_MAX.

Lemma u64_id z : 0 <= z <= UINT64_MAX -> u64 z = z.
Proof. unfold u64, UINT64_MAX. intros. apply Z.mod_small. lia. Qed.

Lemma u64_range z : 0 <= u64 z <= UINT64_MAX.
Proof. unfold u64, UINT64_MAX. pose proof (Z.mod_pos_bound z (2 ^ 64)). lia. Qed.

Lemma u32_id z : 0 <= z < 2 ^ 32 -> u32 z = z.
Proof. apply Z.mod_small. Qed.

Lemma u32_range z : 0 <= u32 z < 2 ^ 32.
Proof. apply Z.mod_pos_bound. lia. Qed.

Lemma i64_id z : - 2 ^ 63 <= z < 2 ^ 63 -> i64 z = z.
Proof.
  unfold i64, to_signed. intros. destruct (Z.ltb_spec (z mod 2 ^ 64) (2 ^ (64 - 1))).
  - destruct (Z_lt_ge_dec z 0) as [Hn|Hn].
    + rewrite <- (Z.mod_add z 1), Z.mod_small in *; lia.
    + rewrite Z.mod_small; lia.
  - destruct (Z_lt_ge_dec z 0) as [Hn|Hn].
    + rewrite <- (Z.mod_add z 1), Z.mod_small in *; lia.
    + rewrite Z.mod_small in *; lia.
Qed.

(** ** Decimal output: [std::to_string] of an integer *)

Definition digit (d : Z) : byte := zb (48 + d).

Fixpoint dec_digits (fuel : nat) (n : Z) (acc : str) : str :=
  match fuel with
  | O => acc
  | S f => if n <? 10 then digit n :: acc
           else dec_digits f (n / 10) (digit (n mod 10) :: acc)
  end.

(** One digit per decimal place: the bit length is more than enough. *)
Definition to_dec (n : Z) : str := dec_digits (S (Z.to_nat (Z.log2 n))) n [].

Definition to_string (n : Z) : str :=
  if n <? 0 then "-"%byte :: to_dec (- n) else to_dec n.

(** ** Little-endian integers *)

Fixpoint le_bytes (n : nat) (z : Z) : str :=
  match n with
  | O => []
  | S k => zb z :: le_bytes k (z / 256)
  end.

Fixpoint le_int (bs : str) : Z :=
  match bs with
  | [] => 0
  | b :: r => bz b + 256 * le_int r
  end.

Lemma length_le_bytes n z : length (le_bytes n z) = n.
Proof. revert z. induction n; intros; simpl; auto. Qed.

Lemma le_int_range bs : 0 <= le_int bs < 256 ^ Z.of_nat (length bs).
Proof.
  induction bs as [|b bs IH]; [done|].
  cbn [le_int length]. pose proof (bz_range b).
  rewrite Nat2Z.inj_succ, Z.pow_succ_r by lia. lia.
Qed.

Lemma le_int_bytes n z : 0 <= z < 256 ^ Z.of_nat n -> le_int (le_bytes n z) = z.
Proof.
  revert z. induction n as [|n IH]; intros z Hz; [simpl in *; lia|].
  rewrite Nat2Z.inj_succ, Z.pow_succ_r in Hz by lia.
  cbn [le_bytes le_int]. rewrite bz_zb_mod, IH.
  - pose proof (Z.div_mod z 256). lia.
  - split; [apply Z.div_pos; lia|apply Z.div_lt_upper_bound; lia].
Qed.

(** ** Sub-ranges of a list at integer offsets *)

Definition zlen {A} (l : list A) : Z := Z.of_nat (length l).

Definition slice {A} (off len : Z) (l : list A) : list A :=
  take (Z.to_nat len) (drop (Z.to_nat off) l).

Lemma zlen_nonneg {A} (l : list A) : 0 <= zlen l.
Proof. unfold zlen. lia. Qed.

Lemma zlen_app {A} (l k : list A) : zlen (l ++ k) = zlen l + zlen k.
Proof. unfold zlen. rewrite length_app. lia. Qed.

Lemma zlen_cons {A} (x : A) l : zlen (x :: l) = 1 + zlen l.
Proof. unfold zlen. cbn [length]. lia. Qed.

Lemma zlen_le_bytes n z : zlen (le_bytes n z) = Z.of_nat n.
Proof. unfold zlen. by rewrite length_le_bytes. Qed.

Lemma zlen_slice {A} off len (l : list A) :
  0 <= off -> 0 <= len -> off + len <= zlen l -> zlen (slice off len l) = len.
Proof. unfold slice, zlen. intros. rewrite length_take, length_drop. lia. Qed.

Lemma slice_app_l {A} off len (l k : list A) :
  0 <= off -> 0 <= len -> off + len <= zlen l -> slice off len (l ++ k) = slice off len l.
Proof.
  unfold slice, zlen. intros. rewrite drop_app_le by lia.
  rewrite take_app_le; [done|]. rewrite length_drop. lia.
Qed.

Lemma slice_app_r {A} off len (l k : list A) :
  zlen l <= off -> slice off len (l ++ k) = slice (off - zlen l) len k.
Proof.
  unfold slice, zlen. intros. rewrite drop_app_ge by lia. do 2 f_equal. lia.
Qed.

Lemma slice_all {A} (l : list A) : slice 0 (zlen l) l = l.
Proof. unfold slice, zlen. rewrite Nat2Z.id. simpl. apply take_ge. lia. Qed.

Lemma slice_app_first {A} (l k : list A) : slice 0 (zlen l) (l ++ k) = l.
Proof. unfold slice, zlen. rewrite Nat2Z.id. rewrite drop_0. by rewrite take_app_length. Qed.

(** ** Bit fields *)

Lemma land_pow2 a n : 0 <= n -> Z.land a (2 ^ n) = (a / 2 ^ n) mod 2 * 2 ^ n.
Proof.
  intros Hn. rewrite <- (Z.shiftl_mul_pow2 _ n), <- Z.shiftr_div_pow2 by lia.
  rewrite <- (Z.pow_1_r 2) at 2. rewrite <- (Z.land_ones _ 1) by lia.
  apply Z.bits_inj'. intros i Hi. rewrite Z.land_spec, Z.pow2_bits_eqb by lia.
  rewrite Z.shiftl_spec by lia. destruct (Z.eqb_spec n i) as [<-|Hne].
  - rewrite Z.sub_diag, Z.land_spec, Z.shiftr_spec by lia. rewrite Z.add_0_l. by destruct (Z.testbit a n).
  - rewrite andb_false_r. symmetry. destruct (Z.ltb_spec (i - n) 0).
    + apply Z.testbit_neg_r. lia.
    + rewrite Z.land_spec, Z.ones_spec_high by lia. apply andb_false_r.
Qed.

Lemma testbit_high b n i : 0 <= n <= i -> 0 <= b < 2 ^ n -> Z.testbit b i = false.
Proof.
  intros Hi Hb. rewrite <- (Z.mod_small b (2 ^ n)) by lia. apply Z.mod_pow2_bits_high. lia.
Qed.

Lemma land_mul_pow2_low k n b : 0 <= n -> 0 <= b < 2 ^ n -> Z.land (k * 2 ^ n) b = 0.
Proof.
  intros Hn Hb. apply Z.bits_inj'. intros i Hi.
  rewrite Z.land_spec, Z.bits_0, <- Z.shiftl_mul_pow2, Z.shiftl_spec by lia.
  destruct (Z.ltb_spec i n).
  - by rewrite Z.testbit_neg_r by lia.
  - by rewrite (testbit_high b n), andb_false_r by lia.
Qed.

(** [hi | lo] where [lo] fits below the bits of [hi] is their sum. *)
Lemma lor_low k n b : 0 <= n -> 0 <= b < 2 ^ n -> Z.lor (k * 2 ^ n) b = k * 2 ^ n + b.
Proof.
  intros Hn Hb. pose proof (Z.add_lor_land (k * 2 ^ n) b) as H.
  rewrite land_mul_pow2_low in H by done. lia.
Qed.

Lemma land_mask a n : 0 <= n -> Z.land a (2 ^ n - 1) = a mod 2 ^ n.
Proof. intros. rewrite <- Z.land_ones by done. by rewrite Z.ones_equiv, Z.sub_1_r. Qed.

Lemma lor_lt_pow2 a b n : 0 <= n -> 0 <= a < 2 ^ n -> 0 <= b < 2 ^ n -> 0 <= Z.lor a b < 2 ^ n.
Proof.
  intros Hn Ha Hb. assert (0 <= Z.lor a b) by (apply Z.lor_nonneg; lia). split; [done|].
  destruct (Z.eq_dec (Z.lor a b) 0) as [->|]; [apply Z.pow_pos_nonneg; lia|].
  apply Z.log2_lt_pow2; [lia|]. rewrite Z.log2_lor by lia.
  assert (Hl : forall c, 0 <= c < 2 ^ n -> Z.log2 c < n \/ c = 0).
  { intros c Hc. destruct (Z.eq_dec c 0); [by right|left; apply Z.log2_lt_pow2; lia]. }
  assert (0 < n) by (destruct (Z.eq_dec n 0) as [->|]; [|lia];
    replace a with 0 in * by lia; replace b with 0 in * by lia; done).
  destruct (Hl a Ha) as [?| ->]; destruct (Hl b Hb) as [?| ->]; cbn [Z.log2]; lia.
Qed.

(** ** Decimal input *)

Definition is_digit (b : byte) : bool := (48 <=? bz b) && (bz b <=? 57).

(** The value of a string of digits, after [acc]. *)
Definition digits_val (acc : Z) (s : str) : Z := foldl (fun a b => a * 10 + (bz b - 48)) acc s.

(** The longest prefix of digits, and the rest. *)
Fixpoint split_digits (s : str) : str * str :=
  match s with
  | b :: r => if is_digit b then let '(d, t) := split_digits r in (b :: d, t) else ([], s)
  | [] => ([], [])
  end.

Lemma digit_spec d : 0 <= d < 10 -> is_digit (digit d) = true /\ bz (digit d) - 48 = d.
Proof.
  intros H. unfold is_digit, digit. rewrite bz_zb by lia.
  split; [|lia]. apply andb_true_iff. rewrite !Z.leb_le. lia.
Qed.

Lemma dec_digits_spec fuel n acc :
  0 <= n < 10 ^ Z.of_nat fuel ->
  exists ds, dec_digits fuel n acc = ds ++ acc /\ Forall (fun b => is_digit b = true) ds /\
    (fuel <> O -> ds <> []) /\ forall a, digits_val a ds = a * 10 ^ zlen ds + n.
Proof.
  revert n acc. induction fuel as [|f IH]; intros n acc Hn.
  - exists []. replace n with 0 by lia. repeat split; [constructor|done|].
    intros a. change (a = a * 1 + 0). lia.
  - cbn [dec_digits]. destruct (Z.ltb_spec n 10) as [Hs|Hs].
    + destruct (digit_spec n) as [H1 H2]; [lia|]. exists [digit n]. repeat split; [by repeat constructor|done|].
      intros a. change (a * 10 + (bz (digit n) - 48) = a * 10 + n). lia.
    + rewrite Nat2Z.inj_succ, Z.pow_succ_r in Hn by lia.
      destruct (digit_spec (n mod 10)) as [H1 H2]; [apply Z.mod_pos_bound; lia|].
      destruct (IH (n / 10) (digit (n mod 10) :: acc)) as (ds & E & Hd & _ & Hv).
      { split; [apply Z.div_pos; lia|apply Z.div_lt_upper_bound; lia]. }
      exists (ds ++ [digit (n mod 10)]). rewrite E, <- app_assoc. repeat split.
      * apply Forall_app. split; [done|by repeat constructor].
      * by destruct ds.
      * intros a. unfold digits_val in *. rewrite foldl_app, Hv. cbn [foldl]. rewrite H2.
        unfold zlen. rewrite length_app, Nat2Z.inj_add. cbn [length].
        rewrite Z.pow_add_r by lia. pose proof (Z.div_mod n 10 ltac:(lia)). lia.
Qed.

(** Decimal output is read back by the usual digit loop. *)
Lemma to_dec_spec n : 0 <= n ->
  Forall (fun b => is_digit b = true) (to_dec n) /\ to_dec n <> [] /\ digits_val 0 (to_dec n) = n.
Proof.
  intros Hn. unfold to_dec.
  destruct (dec_digits_spec (S (Z.to_nat (Z.log2 n))) n []) as (ds & -> & Hd & Hne & Hv).
  { split; [done|]. rewrite Nat2Z.inj_succ, Z2Nat.id by apply Z.log2_nonneg.
    destruct (Z.eq_dec n 0) as [->|]; [done|].
    pose proof (Z.log2_spec n ltac:(lia)). pose proof (Z.log2_nonneg n).
    assert (2 ^ Z.succ (Z.log2 n) <= 10 ^ Z.succ (Z.log2 n)) by (apply Z.pow_le_mono_l; lia). lia. }
  rewrite app_nil_r. repeat split; [done|by apply Hne|]. by rewrite Hv.
Qed.

Lemma split_digits_app ds r :
  Forall (fun b => is_digit b = true) ds ->
  match r with b :: _ => is_digit b = false | [] => True end ->
  split_digits (ds ++ r) = (ds, r).
Proof.
  intros Hd Hr. induction Hd as [|b ds Hb _ IH]; cbn.
  - destruct r as [|b r]; [done|]. cbn. by rewrite Hr.
  - by rewrite Hb, IH.
Qed.

Lemma digits_val_mono s a : 0 <= a -> Forall (fun b => is_digit b = true) s -> a <= digits_val a s.
Proof.
  intros Ha Hs. revert a Ha. unfold digits_val. induction Hs as [|b s Hb _ IH]; intros a Ha; cbn; [lia|].
  unfold is_digit in Hb. bool_facts. specialize (IH (a * 10 + (bz b - 48))). lia.
Qed.
