(* ===== verification/Dtype.v ===== *)
(** * Element types and storage sizes

    [enum class Dtype] of include/brotensor/tensor.h and the sizing functions
    of src/tensor.cpp. Sizes of quantised types are per block: 32 elements for
    the legacy quants, 256 for the K-quants. *)
From S2P Require Import Prelude.

Inductive Dtype : Type :=
  | FP32 | FP16 | INT8 | INT32 | BF16 | F64 | FP8_E4M3
  | Q4_0 | Q4_1 | Q5_0 | Q5_1 | Q8_0 | Q8_1
  | Q2_K | Q3_K | Q4_K | Q5_K | Q6_K | Q8_K.

#[global] Instance Dtype_eq_decision : EqDecision Dtype.
Proof. solve_decision. Defined.

(** The enumerators' integer values; [TraceDAG::compute_hash] reads them. *)
Definition Dtype_value (dt : Dtype) : Z :=
  match dt with
  | FP32 => 0 | FP16 => 1 | INT8 => 2 | INT32 => 3 | BF16 => 4 | F64 => 5
  | FP8_E4M3 => 6
  | Q4_0 => 10 | Q4_1 => 11 | Q5_0 => 12 | Q5_1 => 13 | Q8_0 => 14 | Q8_1 => 15
  | Q2_K => 20 | Q3_K => 21 | Q4_K => 22 | Q5_K => 23 | Q6_K => 24 | Q8_K => 25
  end.

Definition dtype_eqb (a b : Dtype) : bool := bool_decide (a = b).

Definition dtype_size_bytes (dt : Dtype) : Z :=
  match dt with
  | FP32 => 4
  | FP16 => 2
  | BF16 => 2
  | INT8 => 1
  | FP8_E4M3 => 1
  | INT32 => 4
  | F64 => 8
  | Q4_0 | Q4_1 | Q5_0 | Q5_1 | Q8_0 | Q8_1
  | Q2_K | Q3_K | Q4_K | Q5_K | Q6_K | Q8_K => 0
  end.

Definition dtype_is_quant (dt : Dtype) : bool :=
  match dt with
  | Q4_0 | Q4_1 | Q5_0 | Q5_1 | Q8_0 | Q8_1
  | Q2_K | Q3_K | Q4_K | Q5_K | Q6_K | Q8_K => true
  | _ => false
  end.

Definition dtype_name (dt : Dtype) : str :=
  match dt with
  | FP32 => lit "FP32"
  | FP16 => lit "FP16"
  | BF16 => lit "BF16"
  | INT8 => lit "INT8"
  | INT32 => lit "INT32"
  | F64 => lit "F64"
  | FP8_E4M3 => lit "FP8_E4M3"
  | Q4_0 => lit "Q4_0"
  | Q4_1 => lit "Q4_1"
  | Q5_0 => lit "Q5_0"
  | Q5_1 => lit "Q5_1"
  | Q8_0 => lit "Q8_0"
  | Q8_1 => lit "Q8_1"
  | Q2_K => lit "Q2_K"
  | Q3_K => lit "Q3_K"
  | Q4_K => lit "Q4_K"
  | Q5_K => lit "Q5_K"
  | Q6_K => lit "Q6_K"
  | Q8_K => lit "Q8_K"
  end.

Definition dtype_block_size (dt : Dtype) : Z :=
  match dt with
  | Q4_0 | Q4_1 | Q5_0 | Q5_1 | Q8_0 | Q8_1 => 32
  | Q2_K | Q3_K | Q4_K | Q5_K | Q6_K | Q8_K => 256
  | _ => 1
  end.

Definition dtype_block_bytes (dt : Dtype) : Z :=
  match dt with
  | Q4_0 => 18
  | Q4_1 => 20
  | Q5_0 => 22
  | Q5_1 => 24
  | Q8_0 => 34
  | Q8_1 => 36
  | Q2_K => 82
  | Q3_K => 110
  | Q4_K => 144
  | Q5_K => 176
  | Q6_K => 210
  | Q8_K => 292
  | _ => dtype_size_bytes dt
  end.

(** [std::size_t dtype_storage_bytes(Dtype d, std::int64_t numel)]. The
    products are of [std::size_t]: they wrap. *)
Definition dtype_storage_bytes (d : Dtype) (numel : Z) : res Z :=
  if numel <? 0 then Throw (lit "brotensor: dtype_storage_bytes: negative numel")
  else if negb (dtype_is_quant d) then
    Ret (u64 (u64 numel * u64 (dtype_size_bytes d)))
  else
    let bs := dtype_block_size d in
    let bb := dtype_block_bytes d in
    if negb (numel mod bs =? 0) then
      Throw (lit "brotensor: dtype_storage_bytes: numel not a multiple of block size")
    else Ret (u64 (u64 numel / u64 bs * u64 bb)).

(** ** What the sizes are *)

Lemma dtype_block_size_pos dt : 1 <= dtype_block_size dt.
Proof. destruct dt; cbn; lia. Qed.

Lemma dtype_block_bytes_pos dt : 1 <= dtype_block_bytes dt.
Proof. destruct dt; cbn; lia. Qed.

Lemma dtype_size_quant dt : dtype_size_bytes dt = 0 <-> dtype_is_quant dt = true.
Proof. destruct dt; cbn; split; done. Qed.

Lemma dtype_block_size_nonquant dt : dtype_is_quant dt = false -> dtype_block_size dt = 1.
Proof. by destruct dt. Qed.

Lemma dtype_block_bytes_nonquant dt :
  dtype_is_quant dt = false -> dtype_block_bytes dt = dtype_size_bytes dt.
Proof. by destruct dt. Qed.

#[export] Hint Resolve dtype_block_size_pos dtype_block_bytes_pos : brt.

(** The size without the wrap-around: whole blocks, each of its bytes. *)
Definition storage_spec (d : Dtype) (numel : Z) : Z :=
  numel / dtype_block_size d * dtype_block_bytes d.

(** Every type but the 8-byte carrier stays below [2^64] for any element count
    two [int] dimensions can make. *)
Lemma storage_spec_bound d numel :
  d <> F64 -> 0 <= numel <= INT_MAX * INT_MAX -> 0 <= storage_spec d numel <= SIZE_MAX.
Proof.
  unfold storage_spec, INT_MAX, SIZE_MAX, UINT64_MAX. intros Hd Hn.
  destruct d; try done; cbn [dtype_block_size dtype_block_bytes dtype_size_bytes];
    Z.div_mod_to_equations; lia.
Qed.

Lemma storage_spec_nonneg d numel : 0 <= numel -> 0 <= storage_spec d numel.
Proof.
  intros. unfold storage_spec. pose proof (dtype_block_size_pos d).
  pose proof (dtype_block_bytes_pos d).
  assert (0 <= numel / dtype_block_size d) by (apply Z.div_pos; lia). nia.
Qed.

Lemma dtype_storage_bytes_wrapped d numel :
  0 <= numel <= INT64_MAX -> numel mod dtype_block_size d = 0 ->
  dtype_storage_bytes d numel = Ret (u64 (storage_spec d numel)).
Proof.
  intros Hn Hm. unfold dtype_storage_bytes, storage_spec.
  destruct (Z.ltb_spec numel 0); [lia|].
  rewrite (u64_id numel) by (unfold INT64_MAX, UINT64_MAX in *; lia).
  destruct (dtype_is_quant d) eqn:Q; cbn [negb].
  - rewrite Hm. cbn [Z.eqb negb].
    do 3 f_equal; destruct d; try discriminate Q; reflexivity.
  - rewrite dtype_block_size_nonquant, dtype_block_bytes_nonquant, Z.div_1_r by done.
    do 3 f_equal. by destruct d.
Qed.

(** For every element count two [int] dimensions can make, the storage size
    of a type other than F64 is the exact number of bytes of its whole blocks,
    and a count that is not a whole number of blocks is refused; the
    [std::size_t] arithmetic never wraps. *)
Theorem dtype_storage_bytes_exact d numel :
  d <> F64 -> 0 <= numel <= INT_MAX * INT_MAX ->
  dtype_storage_bytes d numel =
    if numel mod dtype_block_size d =? 0
    then Ret (numel / dtype_block_size d * dtype_block_bytes d)
    else Throw (lit "brotensor: dtype_storage_bytes: numel not a multiple of block size").
Proof.
  intros Hd Hn. destruct (Z.eqb_spec (numel mod dtype_block_size d) 0) as [E|E].
  - rewrite dtype_storage_bytes_wrapped by (unfold INT64_MAX, INT_MAX in *; done || lia).
    rewrite u64_id; [done|]. by apply storage_spec_bound.
  - unfold dtype_storage_bytes. destruct (Z.ltb_spec numel 0); [lia|].
    destruct (dtype_is_quant d) eqn:Q; cbn [negb].
    + apply Z.eqb_neq in E. by rewrite E.
    + rewrite dtype_block_size_nonquant, Z.mod_1_r in E by done. done.
Qed.

Lemma dtype_storage_bytes_exact_witness :
  dtype_storage_bytes Q4_K 512 = Ret 288 /\
  dtype_storage_bytes FP32 (INT_MAX * INT_MAX) = Ret (4 * (INT_MAX * INT_MAX)).
Proof.
  split.
  - rewrite (dtype_storage_bytes_exact Q4_K 512); [reflexivity|discriminate|unfold INT_MAX; lia].
  - rewrite (dtype_storage_bytes_exact FP32 (INT_MAX * INT_MAX));
      [reflexivity|discriminate|unfold INT_MAX; lia].
Defined.

(** The 8-byte carrier can wrap: an F64 shape with two [int] dimensions
    exists whose computed byte count is smaller than its element count. *)
Theorem dtype_storage_bytes_f64_wraps :
  exists rows cols, 0 < rows <= INT_MAX /\ 0 < cols <= INT_MAX /\
    exists n, dtype_storage_bytes F64 (rows * cols) = Ret n /\ n < rows * cols.
Proof.
  exists 2147483647, 1073741825. unfold INT_MAX. split; [lia|]. split; [lia|].
  eexists. split; [reflexivity|]. reflexivity.
Qed.
