(* ===== verification/Half.v ===== *)
(** * 16-bit and 8-bit floating-point conversions

    The host-side conversions of src/tensor.cpp. A [float] is its 32-bit
    pattern, a [uint16_t] half its 16-bit pattern: the code works on the bits,
    and so does the model. [Half.mag16] and [Half.mag32] give the patterns
    their value, as an integer multiple of [2^-149]. *)
From S2P Require Import Prelude.

Module Half.

(** [uint16_t fp32_to_fp16_bits(float v)], [x] the bits of [v]. *)
Definition fp32_to_fp16_bits (x : Z) : Z :=
  let sign := Z.land (Z.shiftr x 16) 0x8000 in
  let exp := Z.land (Z.shiftr x 23) 0xFF - 127 + 15 in
  let mant := Z.land x 0x7FFFFF in
  if Z.land (Z.shiftr x 23) 0xFF =? 0xFF then
    let out := u16 (Z.lor sign 0x7C00) in
    if negb (mant =? 0) then Z.lor out 0x0200 else out
  else if exp >=? 0x1F then u16 (Z.lor sign 0x7C00)
  else if exp <=? 0 then
    if exp <? -10 then u16 sign
    else
      let mant := Z.lor mant 0x800000 in
      let shift := 14 - exp in
      let round := u32 (Z.shiftl 1 (shift - 1) - 1 + Z.land (Z.shiftr mant shift) 1) in
      let r := Z.shiftr (u32 (mant + round)) shift in
      u16 (Z.lor sign r)
  else
    let lsb := Z.land (Z.shiftr mant 13) 1 in
    let round := u32 (0x1000 + lsb - 1) in
    let r_mant := Z.shiftr (u32 (mant + round)) 13 in
    let r_exp := exp in
    if negb (Z.land r_mant 0x400 =? 0) then
      let r_mant := 0 in
      let r_exp := r_exp + 1 in
      if r_exp >=? 0x1F then u16 (Z.lor sign 0x7C00)
      else u16 (Z.lor (Z.lor sign (Z.shiftl r_exp 10)) r_mant)
    else u16 (Z.lor (Z.lor sign (Z.shiftl r_exp 10)) r_mant).

(** [while ((mant & 0x400u) == 0) { mant <<= 1; exp -= 1; }] on [uint32_t];
    [normalize_done] shows that ten rounds are enough. *)
Fixpoint normalize (fuel : nat) (exp mant : Z) : Z * Z :=
  match fuel with
  | O => (exp, mant)
  | S f => if Z.land mant 0x400 =? 0
           then normalize f (u32 (exp - 1)) (u32 (Z.shiftl mant 1))
           else (exp, mant)
  end.

(** [float fp16_bits_to_fp32(uint16_t bits)]. *)
Definition fp16_bits_to_fp32 (bits : Z) : Z :=
  let sign := u32 (Z.shiftl (Z.land bits 0x8000) 16) in
  let exp := Z.land (Z.shiftr bits 10) 0x1F in
  let mant := Z.land bits 0x3FF in
  if exp =? 0 then
    if mant =? 0 then sign
    else
      let '(exp, mant) := normalize 10 exp mant in
      let mant := Z.land mant 0x3FF in
      let e := Z.land (u32 (exp + (127 - 15) + 1)) 0xFF in
      u32 (Z.lor (Z.lor sign (Z.shiftl e 23)) (Z.shiftl mant 13))
  else if exp =? 0x1F then
    u32 (Z.lor (Z.lor sign 0x7F800000) (Z.shiftl mant 13))
  else
    let e := exp + (127 - 15) in
    u32 (Z.lor (Z.lor sign (Z.shiftl e 23)) (Z.shiftl mant 13)).

(** [uint16_t fp32_to_bf16_bits(float v)]. *)
Definition fp32_to_bf16_bits (x : Z) : Z :=
  if (Z.land (Z.shiftr x 23) 0xFF =? 0xFF) && negb (Z.land x 0x7FFFFF =? 0)
  then u16 (Z.lor (Z.shiftr x 16) 0x0040)
  else
    let rounding_bias := 0x7FFF + Z.land (Z.shiftr x 16) 1 in
    let x := u32 (x + rounding_bias) in
    u16 (Z.shiftr x 16).

(** [float bf16_bits_to_fp32(uint16_t bits)]. *)
Definition bf16_bits_to_fp32 (bits : Z) : Z := u32 (Z.shiftl bits 16).

(** ** The fields of a pattern *)

Definition is_nan16 (h : Z) : bool :=
  (Z.land (Z.shiftr h 10) 0x1F =? 0x1F) && negb (Z.land h 0x3FF =? 0).
Definition is_nan_bf16 (h : Z) : bool :=
  (Z.land (Z.shiftr h 7) 0xFF =? 0xFF) && negb (Z.land h 0x7F =? 0).

Definition sign32 (x : Z) : Z := x / 2 ^ 31.
Definition exp32 (x : Z) : Z := x / 2 ^ 23 mod 256.
Definition mant32 (x : Z) : Z := x mod 2 ^ 23.

Lemma fields32 x : 0 <= x < 2 ^ 32 ->
  x = sign32 x * 2 ^ 31 + exp32 x * 2 ^ 23 + mant32 x /\
  0 <= sign32 x < 2 /\ 0 <= exp32 x < 256 /\ 0 <= mant32 x < 2 ^ 23.
Proof. unfold sign32, exp32, mant32. intros. Z.div_mod_to_equations. lia. Qed.

Lemma mod31 x : 0 <= x < 2 ^ 32 -> x mod 2 ^ 31 = exp32 x * 2 ^ 23 + mant32 x.
Proof. unfold exp32, mant32. intros. Z.div_mod_to_equations. lia. Qed.

Lemma exp32_bits x : Z.land (Z.shiftr x 23) 0xFF = exp32 x.
Proof. unfold exp32. rewrite Z.shiftr_div_pow2 by lia. apply (land_mask _ 8). lia. Qed.

Lemma mant32_bits x : Z.land x 0x7FFFFF = mant32 x.
Proof. apply (land_mask _ 23). lia. Qed.

Lemma sign32_bits x : 0 <= x < 2 ^ 32 -> Z.land (Z.shiftr x 16) 0x8000 = sign32 x * 2 ^ 15.
Proof.
  intros Hx. rewrite Z.shiftr_div_pow2 by lia. rewrite (land_pow2 _ 15) by lia.
  unfold sign32. Z.div_mod_to_equations. lia.
Qed.

(** Round half to even at bit [k]. *)
Definition rne (m k : Z) : Z := (m + (2 ^ (k - 1) - 1 + m / 2 ^ k mod 2)) / 2 ^ k.

Lemma rne_spec m k : 0 <= m -> 1 <= k ->
  let q := m / 2 ^ k in let r := m mod 2 ^ k in
  rne m k = if (2 * r <? 2 ^ k) || ((2 * r =? 2 ^ k) && Z.even q) then q else q + 1.
Proof.
  intros Hm Hk q r. unfold rne. fold q.
  assert (Hp : 2 ^ k = 2 * 2 ^ (k - 1)) by (rewrite <- Z.pow_succ_r by lia; f_equal; lia).
  assert (0 < 2 ^ (k - 1)) by (apply Z.pow_pos_nonneg; lia).
  assert (Hm' : m = q * 2 ^ k + r) by (unfold q, r; pose proof (Z.div_mod m (2 ^ k)); lia).
  assert (0 <= r < 2 ^ k) by (apply Z.mod_pos_bound; lia).
  rewrite Hm' at 1.
  replace (q * 2 ^ k + r + (2 ^ (k - 1) - 1 + q mod 2))
    with ((r + 2 ^ (k - 1) - 1 + q mod 2) + q * 2 ^ k) by lia.
  rewrite Z.div_add by lia. rewrite Zmod_even.
  set (h := 2 ^ (k - 1)) in *. destruct (Z.even q);
  (destruct (Z.ltb_spec (2 * r) (2 ^ k)); destruct (Z.eqb_spec (2 * r) (2 ^ k)); cbn [orb andb];
   try lia;
   first [ rewrite Z.div_small by lia; lia
         | rewrite <- (Z.div_unique _ (2 ^ k) 1 (r - h - 1)) by lia; lia
         | rewrite <- (Z.div_unique _ (2 ^ k) 1 (r - h)) by lia; lia ]).
Qed.

Lemma rne_exact m k : 0 <= m -> 1 <= k -> rne (m * 2 ^ k) k = m.
Proof.
  intros. assert (0 < 2 ^ k) by (apply Z.pow_pos_nonneg; lia).
  rewrite rne_spec by nia. cbv zeta. rewrite Z.mod_mul, Z.div_mul by lia.
  by destruct (Z.ltb_spec (2 * 0) (2 ^ k)); [|lia].
Qed.

Lemma rne_range m k : 0 <= m -> 1 <= k -> m / 2 ^ k <= rne m k <= m / 2 ^ k + 1.
Proof. intros. rewrite rne_spec by done. cbv zeta. destruct (_ || _); lia. Qed.

(** What the encoder computes, on the fields. *)
Definition code16 (E M : Z) : Z :=
  if E =? 255 then (if M =? 0 then 0x7C00 else 0x7E00)
  else if 143 <=? E then 0x7C00
  else if E <=? 112 then (if E <? 102 then 0 else rne (2 ^ 23 + M) (126 - E))
  else (E - 112) * 2 ^ 10 + rne M 13.

Lemma rne_bits m k : 0 <= m < 2 ^ 24 -> 1 <= k <= 24 ->
  Z.shiftr (u32 (m + u32 (Z.shiftl 1 (k - 1) - 1 + Z.land (Z.shiftr m k) 1))) k = rne m k.
Proof.
  intros Hm Hk. rewrite (land_mask _ 1) by lia. change (2 ^ 1) with 2.
  rewrite !Z.shiftr_div_pow2, Z.shiftl_mul_pow2, Z.mul_1_l by lia.
  assert (1 <= 2 ^ (k - 1) <= 2 ^ 23)
    by (split; [change 1 with (2 ^ 0)|]; apply Z.pow_le_mono_r; lia).
  pose proof (Z.mod_pos_bound (m / 2 ^ k) 2 ltac:(lia)).
  rewrite (u32_id (2 ^ (k - 1) - 1 + _)) by lia. rewrite u32_id by lia. done.
Qed.

Lemma code16_range E M : 0 <= E < 256 -> 0 <= M < 2 ^ 23 -> 0 <= code16 E M < 2 ^ 15.
Proof.
  intros HE HM. unfold code16.
  destruct (Z.eqb_spec E 255); [destruct (M =? 0); lia|].
  destruct (Z.leb_spec 143 E); [lia|]. destruct (Z.leb_spec E 112).
  - destruct (Z.ltb_spec E 102); [lia|].
    pose proof (rne_range (2 ^ 23 + M) (126 - E)) as Hr.
    assert (2 ^ 14 <= 2 ^ (126 - E)) by (apply Z.pow_le_mono_r; lia).
    assert (0 <= (2 ^ 23 + M) / 2 ^ (126 - E) <= 2 ^ 24 / 2 ^ 14).
    { split; [apply Z.div_pos; lia|]. transitivity ((2 ^ 23 + M) / 2 ^ 14);
        [apply Z.div_le_compat_l|apply Z.div_le_mono]; lia. }
    change (2 ^ 24 / 2 ^ 14) with 1024 in *. lia.
  - pose proof (rne_range M 13 ltac:(lia) ltac:(lia)).
    assert (0 <= M / 2 ^ 13 <= 1023) by (Z.div_mod_to_equations; lia). lia.
Qed.

(** The encoder on any pattern: the sign, and the magnitude's code. *)
Lemma fp32_to_fp16_fields x : 0 <= x < 2 ^ 32 ->
  fp32_to_fp16_bits x = sign32 x * 2 ^ 15 + code16 (exp32 x) (mant32 x).
Proof.
  intros Hx. destruct (fields32 x Hx) as (_ & Hs & HE & HM).
  pose proof (code16_range _ _ HE HM) as Hc.
  assert (Hfin : forall c, 0 <= c < 2 ^ 15 -> u16 (Z.lor (sign32 x * 2 ^ 15) c) = sign32 x * 2 ^ 15 + c).
  { intros c Hcc. rewrite lor_low by lia. apply Z.mod_small. lia. }
  unfold fp32_to_fp16_bits. cbv zeta. rewrite exp32_bits, mant32_bits, sign32_bits by done.
  unfold code16 in *. destruct (Z.eqb_spec (exp32 x) 255) as [EE|EE].
  { destruct (Z.eqb_spec (mant32 x) 0); cbn [negb]; rewrite Hfin by lia; [done|].
    replace (sign32 x * 2 ^ 15 + 31744) with ((sign32 x * 64 + 62) * 2 ^ 9 + 0) by lia.
    rewrite Z.add_0_r. assert (sign32 x = 0 \/ sign32 x = 1) as [->| ->] by lia; reflexivity. }
  rewrite Z.geb_leb. destruct (Z.leb_spec 143 (exp32 x)); destruct (Z.leb_spec 31 (exp32 x - 127 + 15)); try lia.
  { by rewrite Hfin. }
  destruct (Z.leb_spec (exp32 x) 112); destruct (Z.leb_spec (exp32 x - 127 + 15) 0); try lia.
  - destruct (Z.ltb_spec (exp32 x) 102); destruct (Z.ltb_spec (exp32 x - 127 + 15) (-10)); try lia.
    + rewrite <- (Hfin 0) by lia. by rewrite Z.lor_0_r.
    + replace (14 - (exp32 x - 127 + 15)) with (126 - exp32 x) by lia.
      assert (Hm : Z.lor (mant32 x) 0x800000 = 2 ^ 23 + mant32 x)
        by (rewrite Z.lor_comm; exact (lor_low 1 23 (mant32 x) ltac:(lia) HM)).
      rewrite Hm, rne_bits by lia. by rewrite Hfin.
  - replace (0x1000 + Z.land (Z.shiftr (mant32 x) 13) 1 - 1)
      with (Z.shiftl 1 (13 - 1) - 1 + Z.land (Z.shiftr (mant32 x) 13) 1)
      by (change (Z.shiftl 1 (13 - 1)) with 4096; ring).
    rewrite rne_bits by lia.
    pose proof (rne_range (mant32 x) 13 ltac:(lia) ltac:(lia)).
    assert (0 <= mant32 x / 2 ^ 13 <= 1023) by (Z.div_mod_to_equations; lia).
    set (r := rne (mant32 x) 13) in *. replace (exp32 x - 127 + 15) with (exp32 x - 112) by lia.
    change 0x400 with (2 ^ 10). rewrite land_pow2 by lia.
    assert (Hsh : forall e, Z.shiftl e 10 = e * 2 ^ 10) by (intros; by apply Z.shiftl_mul_pow2).
    destruct (Z.eqb_spec (r / 2 ^ 10 mod 2 * 2 ^ 10) 0) as [Hr|Hr]; cbn [negb].
    + assert (r < 2 ^ 10) by (Z.div_mod_to_equations; lia).
      rewrite <- Z.lor_assoc, Hsh, (lor_low _ 10) by lia. apply Hfin. lia.
    + assert (r = 2 ^ 10) by (Z.div_mod_to_equations; lia). rewrite Z.geb_leb.
      destruct (Z.leb_spec 31 (exp32 x - 112 + 1)); [rewrite Hfin by lia; lia|].
      rewrite Z.lor_0_r, Hsh, Hfin by lia. lia.
Qed.

(** ** Values and rounding *)

(** The magnitude a code stands for in a format of [p] mantissa bits, in units
    of [2^-149] (the smallest positive [float]); [base] is the exponent of the
    format's smallest positive value in that unit. The code of infinity gets
    the value where the next binade would start: IEEE rounding overflows to
    infinity exactly when that would be the nearest. *)
Definition mag (p base c : Z) : Z :=
  if c <? 2 ^ p then c * 2 ^ base else (2 ^ p + c mod 2 ^ p) * 2 ^ (c / 2 ^ p - 1 + base).
Definition ulp (p base c : Z) : Z := if c <? 2 ^ p then 2 ^ base else 2 ^ (c / 2 ^ p - 1 + base).

Abbreviation mag16 := (mag 10 125).
Abbreviation mag_bf16 := (mag 7 16).
Definition mag32 (x : Z) : Z := mag 23 0 (x mod 2 ^ 31).

Section Magnitudes.
Context (p base : Z) (Hp : 0 <= p) (Hb : 0 <= base).

Lemma mag_quot_pos c : 2 ^ p <= c -> 1 <= c / 2 ^ p.
Proof.
  intros. assert (0 < 2 ^ p) by (apply Z.pow_pos_nonneg; lia).
  apply Z.div_le_lower_bound; lia.
Qed.

Lemma ulp_pos c : 0 <= c -> 0 < ulp p base c.
Proof.
  intros. unfold ulp. destruct (Z.ltb_spec c (2 ^ p)); apply Z.pow_pos_nonneg; try lia.
  pose proof (mag_quot_pos c). lia.
Qed.

Lemma mag_succ c : 0 <= c -> mag p base (c + 1) = mag p base c + ulp p base c.
Proof.
  intros Hc. assert (HP : 0 < 2 ^ p) by (apply Z.pow_pos_nonneg; lia).
  unfold mag, ulp. set (P := 2 ^ p) in *.
  destruct (Z.ltb_spec c P); destruct (Z.ltb_spec (c + 1) P); try lia.
  - replace c with (P - 1) by lia. replace (P - 1 + 1) with P by lia.
    rewrite Z.mod_same, Z.div_same by lia. replace (1 - 1 + base) with base by lia. lia.
  - assert (1 <= c / P) by (by apply mag_quot_pos).
    pose proof (Z.div_mod c P ltac:(lia)). pose proof (Z.mod_pos_bound c P ltac:(lia)).
    destruct (Z.eq_dec (c mod P) (P - 1)) as [E|E].
    + assert ((c + 1) / P = c / P + 1) as -> by (symmetry; apply Z.div_unique with 0; lia).
      assert ((c + 1) mod P = 0) as -> by (symmetry; apply Z.mod_unique with (c / P + 1); lia).
      rewrite E. replace (c / P + 1 - 1 + base) with (Z.succ (c / P - 1 + base)) by lia.
      rewrite Z.pow_succ_r by lia. lia.
    + assert ((c + 1) / P = c / P) as -> by (symmetry; apply Z.div_unique with (c mod P + 1); lia).
      assert ((c + 1) mod P = c mod P + 1) as -> by (symmetry; apply Z.mod_unique with (c / P); lia).
      lia.
Qed.

Lemma mag_lt c d : 0 <= c < d -> mag p base c < mag p base d.
Proof.
  intros [Hc Hd]. replace d with (c + 1 + (d - c - 1)) by lia.
  apply natlike_ind with (x := d - c - 1); [| |lia].
  - rewrite Z.add_0_r, mag_succ by done. pose proof (ulp_pos c Hc). lia.
  - intros x Hx IH. replace (c + 1 + Z.succ x) with (c + 1 + x + 1) by lia.
    rewrite mag_succ by lia. pose proof (ulp_pos (c + 1 + x) ltac:(lia)). lia.
Qed.

Lemma mag_mono c d : 0 <= c <= d -> mag p base c <= mag p base d.
Proof.
  intros. destruct (Z.eq_dec c d) as [->|]; [done|]. pose proof (mag_lt c d). lia.
Qed.

Lemma mag_inj c d : 0 <= c -> 0 <= d -> mag p base c = mag p base d -> c = d.
Proof.
  intros. destruct (Z.lt_trichotomy c d) as [Hlt|[?|Hlt]]; [|done|].
  - pose proof (mag_lt c d ltac:(lia)). lia.
  - pose proof (mag_lt d c ltac:(lia)). lia.
Qed.
End Magnitudes.

(** [r] is the code nearest to [v], the even one of two. *)
Definition nearest_even (f : Z -> Z) (v r : Z) : Prop :=
  0 <= r /\ forall c, 0 <= c ->
    Z.abs (v - f r) <= Z.abs (v - f c) /\
    (Z.abs (v - f r) = Z.abs (v - f c) -> c = r \/ Z.even r = true).

(** Rounding at bit [k] of a code whose unit is [2^k] units of the mantissa. *)
Lemma rne_nearest p base v c0 u m k :
  0 <= p -> 0 <= base -> 0 <= c0 -> 0 <= m -> 1 <= k -> 0 < u ->
  Z.even c0 = Z.even (m / 2 ^ k) ->
  v = mag p base c0 + m mod 2 ^ k * u -> ulp p base c0 = 2 ^ k * u ->
  nearest_even (mag p base) v (c0 - m / 2 ^ k + rne m k).
Proof.
  intros Hp Hb Hc Hm Hk Hu Hev Hv Hulp.
  pose proof (mag_succ p base Hp Hb c0 Hc) as Hs. rewrite Hulp in Hs.
  rewrite rne_spec by done. cbv zeta.
  assert (0 < 2 ^ k) by (apply Z.pow_pos_nonneg; lia).
  pose proof (Z.mod_pos_bound m (2 ^ k) ltac:(lia)).
  rewrite <- Hev. set (q := m / 2 ^ k) in *. set (r := m mod 2 ^ k) in *.
  assert (Hsplit : forall c, 0 <= c -> c <= c0 /\ mag p base c <= mag p base c0 /\ (c <> c0 -> mag p base c < mag p base c0) \/
    c0 + 1 <= c /\ mag p base (c0 + 1) <= mag p base c /\ (c <> c0 + 1 -> mag p base (c0 + 1) < mag p base c)).
  { intros c Hc'. destruct (Z_le_gt_dec c c0); [left|right]; repeat split; try lia;
      try (apply mag_mono; lia); intros; apply mag_lt; lia. }
  assert (Hodd : Z.even (c0 + 1) = negb (Z.even c0)) by (rewrite Z.add_1_r, Z.even_succ; by rewrite <- Z.negb_even).
  assert (Hd : 0 <= r * u < 2 ^ k * u) by nia.
  assert (Hcase : (2 * r < 2 ^ k -> 2 * (r * u) < 2 ^ k * u) /\
    (2 * r = 2 ^ k -> 2 * (r * u) = 2 ^ k * u) /\
    (2 ^ k < 2 * r -> 2 ^ k * u < 2 * (r * u))) by (repeat split; nia).
  set (d := r * u) in *. set (g := 2 ^ k * u) in *. clearbody d g. destruct Hcase as (H1 & H2 & H3).
  assert (Hq0 : c0 - q + q = c0) by lia. assert (Hq1 : c0 - q + (q + 1) = c0 + 1) by lia.
  destruct (Z.ltb_spec (2 * r) (2 ^ k)); [|destruct (Z.eqb_spec (2 * r) (2 ^ k)); [destruct (Z.even c0) eqn:Ev|]];
    cbn [orb andb]; (split; [lia|]); intros c Hc';
    rewrite ?Hq0, ?Hq1, ?Hodd, ?Ev; cbn [negb]; destruct (Hsplit c Hc') as [(?&?&?)|(?&?&?)]; split; try lia; intros;
    first [ by right | left; lia ].
Qed.

Lemma mag32_fields x : 0 <= x < 2 ^ 32 ->
  mag32 x = if exp32 x =? 0 then mant32 x else (2 ^ 23 + mant32 x) * 2 ^ (exp32 x - 1).
Proof.
  intros Hx. unfold mag32, mag.
  assert (He : x mod 2 ^ 31 / 2 ^ 23 = exp32 x) by (unfold exp32; Z.div_mod_to_equations; lia).
  assert (Hm : (x mod 2 ^ 31) mod 2 ^ 23 = mant32 x) by (unfold mant32; Z.div_mod_to_equations; lia).
  rewrite He, Hm. pose proof (Z.div_mod (x mod 2 ^ 31) (2 ^ 23) ltac:(lia)) as Hdm.
  rewrite He, Hm in Hdm. destruct (fields32 x Hx) as (_ & _ & HE & HM).
  destruct (Z.ltb_spec (x mod 2 ^ 31) (2 ^ 23)); destruct (Z.eqb_spec (exp32 x) 0); try lia.
  by replace (exp32 x - 1 + 0) with (exp32 x - 1) by lia.
Qed.

Lemma code16_nearest x : 0 <= x < 2 ^ 32 -> exp32 x <> 255 ->
  code16 (exp32 x) (mant32 x) <= 0x7C00 /\
  forall c, 0 <= c <= 0x7C00 ->
    Z.abs (mag32 x - mag16 (code16 (exp32 x) (mant32 x))) <= Z.abs (mag32 x - mag16 c) /\
    (Z.abs (mag32 x - mag16 (code16 (exp32 x) (mant32 x))) = Z.abs (mag32 x - mag16 c) ->
     c = code16 (exp32 x) (mant32 x) \/ Z.even (code16 (exp32 x) (mant32 x)) = true).
Proof.
  intros Hx HE. pose proof (fields32 x Hx) as (_ & _ & HEr & HM).
  rewrite mag32_fields by done. unfold code16. set (E := exp32 x) in *. set (M := mant32 x) in *.
  destruct (Z.eqb_spec E 255); [done|].
  destruct (Z.leb_spec 143 E).
  { (* at least 2^16: infinity *)
    split; [lia|]. destruct (Z.eqb_spec E 0); [lia|]. intros c Hc.
    assert (2 ^ 142 <= 2 ^ (E - 1)) by (apply Z.pow_le_mono_r; lia).
    assert (mag16 0x7C00 <= (2 ^ 23 + M) * 2 ^ (E - 1)) by (change (mag16 0x7C00) with (2 ^ 23 * 2 ^ 142); nia).
    pose proof (mag_mono 10 125 ltac:(lia) ltac:(lia) c 0x7C00 ltac:(lia)). split; [lia|by right]. }
  destruct (Z.leb_spec E 112); [destruct (Z.ltb_spec E 102)|].
  - (* below half of the smallest half *)
    split; [lia|]. intros c Hc. change (mag16 0) with 0.
    assert (0 <= (if E =? 0 then M else (2 ^ 23 + M) * 2 ^ (E - 1)) < 2 ^ 124).
    { destruct (Z.eqb_spec E 0); [lia|].
      assert (1 <= 2 ^ (E - 1) <= 2 ^ 100)
        by (split; [change 1 with (2 ^ 0)|]; apply Z.pow_le_mono_r; lia). nia. }
    split; [|by right].
    destruct (Z.eq_dec c 0) as [->|]; [change (mag16 0) with 0; lia|].
    pose proof (mag_mono 10 125 ltac:(lia) ltac:(lia) 1 c ltac:(lia)) as Hm1. change (mag16 1) with (2 ^ 125) in Hm1. lia.
  - (* subnormal result *)
    destruct (Z.eqb_spec E 0); [lia|].
    set (m := 2 ^ 23 + M). set (k := 126 - E).
    assert (2 ^ 14 <= 2 ^ k) by (apply Z.pow_le_mono_r; lia).
    assert (0 <= m / 2 ^ k < 1024).
    { split; [apply Z.div_pos; lia|]. apply Z.div_lt_upper_bound; lia. }
    pose proof (rne_range m k ltac:(lia) ltac:(lia)).
    assert (Hp : 2 ^ 125 = 2 ^ k * 2 ^ (E - 1))
      by (rewrite <- Z.pow_add_r by lia; f_equal; lia).
    assert (0 < 2 ^ (E - 1)) by (apply Z.pow_pos_nonneg; lia).
    destruct (rne_nearest 10 125 (m * 2 ^ (E - 1)) (m / 2 ^ k) (2 ^ (E - 1)) m k) as [_ Hn]; try lia; try done.
    + unfold mag. change (2 ^ 10) with 1024. destruct (Z.ltb_spec (m / 2 ^ k) 1024); [|lia]. rewrite Hp.
      rewrite (Z.div_mod m (2 ^ k)) at 1 by lia. ring.
    + unfold ulp. change (2 ^ 10) with 1024. destruct (Z.ltb_spec (m / 2 ^ k) 1024); lia.
    + replace (m / 2 ^ k - m / 2 ^ k + rne m k) with (rne m k) in Hn by lia.
      split; [lia|]. intros c Hc. apply Hn. lia.
  - (* normal result *)
    destruct (Z.eqb_spec E 0); [lia|].
    pose proof (rne_range M 13 ltac:(lia) ltac:(lia)).
    assert (0 <= M / 2 ^ 13 <= 1023) by (Z.div_mod_to_equations; lia).
    set (c0 := (E - 112) * 2 ^ 10 + M / 2 ^ 13).
    assert (Hc0 : c0 / 1024 = E - 112 /\ c0 mod 1024 = M / 2 ^ 13)
      by (unfold c0; split; Z.div_mod_to_equations; lia).
    destruct Hc0 as [Hd Hmod].
    assert (Hp : 2 ^ (E - 112 - 1 + 125) = 2 ^ 13 * 2 ^ (E - 1))
      by (rewrite <- Z.pow_add_r by lia; f_equal; lia).
    assert (0 < 2 ^ (E - 1)) by (apply Z.pow_pos_nonneg; lia).
    destruct (rne_nearest 10 125 ((2 ^ 23 + M) * 2 ^ (E - 1)) c0 (2 ^ (E - 1)) M 13) as [_ Hn]; try lia.
    + unfold c0. rewrite Z.add_comm, (Z.mul_comm (E - 112)). change (2 ^ 10) with (2 * 512).
      rewrite <- Z.mul_assoc. apply Z.even_add_mul_2.
    + unfold mag. change (2 ^ 10) with 1024. destruct (Z.ltb_spec c0 1024); [lia|]. rewrite Hd, Hmod, Hp.
      rewrite (Z.div_mod M (2 ^ 13)) at 1 by lia. ring.
    + unfold ulp. change (2 ^ 10) with 1024. destruct (Z.ltb_spec c0 1024); [lia|]. by rewrite Hd.
    + replace (c0 - M / 2 ^ 13 + rne M 13) with ((E - 112) * 2 ^ 10 + rne M 13) in Hn by (unfold c0; lia).
      split; [lia|]. intros c Hc. apply Hn. lia.
Qed.

(** C30: the narrowing conversion rounds correctly. It keeps the sign of every
    [float]; an infinity becomes the infinity and a not-a-number the quiet one; a
    finite [float] becomes the half nearest in magnitude (ties to the even code),
    for normal and subnormal results alike and with overflow to infinity exactly
    where IEEE 754 has it. *)
Theorem fp32_to_fp16_nearest x : 0 <= x < 2 ^ 32 ->
  let r := fp32_to_fp16_bits x mod 2 ^ 15 in
  fp32_to_fp16_bits x / 2 ^ 15 = sign32 x /\
  (exp32 x = 255 -> r = if mant32 x =? 0 then 0x7C00 else 0x7E00) /\
  (exp32 x <> 255 -> r <= 0x7C00 /\ forall c, 0 <= c <= 0x7C00 ->
    Z.abs (mag32 x - mag16 r) <= Z.abs (mag32 x - mag16 c) /\
    (Z.abs (mag32 x - mag16 r) = Z.abs (mag32 x - mag16 c) -> c = r \/ Z.even r = true)).
Proof.
  intros Hx. pose proof (fields32 x Hx) as (_ & Hs & HEr & HM).
  pose proof (code16_range _ _ HEr HM). cbv zeta. rewrite fp32_to_fp16_fields by done.
  rewrite Z.div_add_l, (Z.div_small (code16 _ _)), Z.add_0_r by lia.
  rewrite Z.add_comm, Z.mod_add, Z.mod_small by lia. split; [done|]. split.
  - unfold code16. by intros ->.
  - by apply code16_nearest.
Qed.

Lemma fp32_to_fp16_nearest_witness :
  fp32_to_fp16_bits 0x3F801000 = 0x3C00 /\
  Z.abs (mag32 0x3F801000 - mag16 0x3C00) <= Z.abs (mag32 0x3F801000 - mag16 0x3C01) /\
  fp32_to_fp16_bits 0xFF800000 mod 2 ^ 15 = 0x7C00.
Proof.
  split; [reflexivity|]. split.
  - destruct (fp32_to_fp16_nearest 0x3F801000 ltac:(lia)) as (_ & _ & H).
    exact (proj1 (proj2 (H ltac:(discriminate)) 0x3C01 ltac:(lia))).
  - destruct (fp32_to_fp16_nearest 0xFF800000 ltac:(lia)) as (_ & H & _). exact (H eq_refl).
Defined.

(** ** Widening *)

Fixpoint all_below (n : nat) (k : Z) (P : Z -> bool) : bool :=
  match n with
  | O => P k
  | S n => all_below n k P && all_below n (k + 2 ^ Z.of_nat n) P
  end.

Lemma all_below_spec n k P :
  all_below n k P = true -> forall i, k <= i < k + 2 ^ Z.of_nat n -> P i = true.
Proof.
  revert k. induction n as [|n IH]; intros k H i Hi.
  - replace i with k by (simpl in Hi; lia). exact H.
  - cbn [all_below] in H. apply andb_true_iff in H as [H1 H2].
    rewrite Nat2Z.inj_succ, Z.pow_succ_r in Hi by lia.
    destruct (Z_lt_ge_dec i (k + 2 ^ Z.of_nat n)).
    + apply (IH k); [done|lia].
    + apply (IH (k + 2 ^ Z.of_nat n)); [done|lia].
Qed.

(** Ten rounds of the loop always reach a mantissa with its top bit set. *)
Lemma normalize_done m : 1 <= m < 1024 -> Z.land (normalize 10 0 m).2 0x400 <> 0.
Proof.
  intros Hm.
  assert (H : all_below 10 0 (fun m => (m =? 0) || negb (Z.land (normalize 10 0 m).2 0x400 =? 0)) = true)
    by (vm_compute; reflexivity).
  pose proof (all_below_spec _ _ _ H m ltac:(lia)) as Hx.
  apply orb_true_iff in Hx as [Hx|Hx]; bool_facts; lia.
Qed.

Definition exp16 (h : Z) : Z := h / 2 ^ 10 mod 32.
Definition mant16 (h : Z) : Z := h mod 2 ^ 10.

(** What widening has to preserve: the sign, and the value or the NaN payload. *)
Definition widened (h x : Z) : Prop :=
  0 <= x < 2 ^ 32 /\ sign32 x = h / 2 ^ 15 /\
  if exp16 h =? 31 then exp32 x = 255 /\ mant32 x = mant16 h * 2 ^ 13
  else exp32 x <> 255 /\ mag32 x = mag16 (h mod 2 ^ 15).

Definition widened_subnormal (h : Z) : bool :=
  let x := fp16_bits_to_fp32 h in
  (0 <=? x) && (x <? 2 ^ 32) && (sign32 x =? h / 2 ^ 15) && (exp32 x <? 255) &&
  (mag32 x =? mag16 (h mod 2 ^ 15)).

Lemma fields32_of s E M : 0 <= s < 2 -> 0 <= E < 256 -> 0 <= M < 2 ^ 23 ->
  let x := s * 2 ^ 31 + E * 2 ^ 23 + M in
  0 <= x < 2 ^ 32 /\ sign32 x = s /\ exp32 x = E /\ mant32 x = M.
Proof.
  cbv zeta. intros. unfold sign32, exp32, mant32.
  repeat split; try lia; Z.div_mod_to_equations; lia.
Qed.

Lemma lor_fields s E M : 0 <= s < 2 -> 0 <= E < 256 -> 0 <= M < 2 ^ 23 ->
  u32 (Z.lor (Z.lor (s * 2 ^ 31) (E * 2 ^ 23)) M) = s * 2 ^ 31 + E * 2 ^ 23 + M.
Proof.
  intros. rewrite (lor_low _ 31) by lia.
  replace (s * 2 ^ 31 + E * 2 ^ 23) with ((s * 2 ^ 8 + E) * 2 ^ 23) by lia.
  rewrite (lor_low _ 23) by lia. apply u32_id. lia.
Qed.

Lemma fp16_widened h : 0 <= h < 2 ^ 16 -> widened h (fp16_bits_to_fp32 h).
Proof.
  intros Hh. destruct (Z.eq_dec (exp16 h) 0) as [E0|E0].
  - (* subnormals and zeros, of both signs: by evaluation *)
    assert (H0 : all_below 10 0 widened_subnormal = true) by (vm_compute; reflexivity).
    assert (H1 : all_below 10 (2 ^ 15) widened_subnormal = true) by (vm_compute; reflexivity).
    assert (Hw : widened_subnormal h = true).
    { unfold exp16 in E0. destruct (Z_lt_ge_dec h (2 ^ 15)).
      - apply (all_below_spec _ _ _ H0). clear H0 H1. Z.div_mod_to_equations. lia.
      - apply (all_below_spec _ _ _ H1). clear H0 H1. Z.div_mod_to_equations. lia. }
    clear H0 H1.
    unfold widened_subnormal in Hw. unfold widened. rewrite E0. cbn [Z.eqb].
    bool_facts. repeat split; lia.
  - assert (Hs : 0 <= h / 2 ^ 15 < 2) by (Z.div_mod_to_equations; lia).
    assert (He : 0 <= exp16 h < 32) by (apply Z.mod_pos_bound; lia).
    assert (Hm : 0 <= mant16 h < 2 ^ 10) by (apply Z.mod_pos_bound; lia).
    assert (Hb : fp16_bits_to_fp32 h =
      h / 2 ^ 15 * 2 ^ 31 + (if exp16 h =? 31 then 255 else exp16 h + 112) * 2 ^ 23 + mant16 h * 2 ^ 13).
    { unfold fp16_bits_to_fp32. cbv zeta.
      assert (Z.land (Z.shiftr h 10) 0x1F = exp16 h) as ->
        by (rewrite Z.shiftr_div_pow2 by lia; apply (land_mask _ 5); lia).
      assert (Z.land h 0x3FF = mant16 h) as -> by (apply (land_mask _ 10); lia).
      assert (u32 (Z.shiftl (Z.land h 0x8000) 16) = h / 2 ^ 15 * 2 ^ 31) as ->.
      { rewrite (land_pow2 _ 15), Z.mod_small, Z.shiftl_mul_pow2 by lia. rewrite u32_id; lia. }
      destruct (Z.eqb_spec (exp16 h) 0); [done|].
      rewrite (Z.shiftl_mul_pow2 _ 13), (Z.shiftl_mul_pow2 _ 23) by lia.
      destruct (Z.eqb_spec (exp16 h) 31);
        [change 0x7F800000 with (255 * 2 ^ 23)|]; rewrite lor_fields by lia; lia. }
    destruct (fields32_of (h / 2 ^ 15) (if exp16 h =? 31 then 255 else exp16 h + 112) (mant16 h * 2 ^ 13))
      as (Hr & Hsx & Hex & Hmx); [lia|destruct (_ =? _); lia|lia|].
    rewrite <- Hb in *. unfold widened. split; [done|]. split; [done|].
    destruct (Z.eqb_spec (exp16 h) 31); [by rewrite Hex|]. split; [lia|].
    rewrite mag32_fields, Hex, Hmx by done. destruct (Z.eqb_spec (exp16 h + 112) 0); [lia|].
    unfold mag. destruct (Z.ltb_spec (h mod 2 ^ 15) (2 ^ 10)).
    { unfold exp16 in E0. Z.div_mod_to_equations. lia. }
    assert (h mod 2 ^ 15 / 2 ^ 10 = exp16 h) as -> by (unfold exp16; Z.div_mod_to_equations; lia).
    assert ((h mod 2 ^ 15) mod 2 ^ 10 = mant16 h) as -> by (unfold mant16; Z.div_mod_to_equations; lia).
    replace (exp16 h - 1 + 125) with (13 + (exp16 h + 112 - 1)) by lia.
    rewrite Z.pow_add_r by lia. ring.
Qed.

(** C31: widening a half to [float] and narrowing it back gives the same bits,
    for each of the 65536 patterns; a NaN stays a NaN of the same sign, with
    the canonical quiet payload. *)
Theorem fp16_roundtrip h :
  0 <= h < 2 ^ 16 ->
  fp32_to_fp16_bits (fp16_bits_to_fp32 h) =
    if (exp16 h =? 31) && negb (mant16 h =? 0) then h / 2 ^ 15 * 2 ^ 15 + 0x7E00 else h.
Proof.
  intros Hh. destruct (fp16_widened h Hh) as (Hx & Hs & Hv).
  set (x := fp16_bits_to_fp32 h) in *.
  rewrite fp32_to_fp16_fields, Hs by done.
  assert (Hd : h = h / 2 ^ 15 * 2 ^ 15 + h mod 2 ^ 15) by (pose proof (Z.div_mod h (2 ^ 15)); lia).
  pose proof (Z.mod_pos_bound h (2 ^ 15) ltac:(lia)).
  destruct (Z.eqb_spec (exp16 h) 31) as [E|E]; cbn [andb].
  - destruct Hv as [He Hm]. unfold code16. rewrite He, Hm. cbn [Z.eqb Pos.eqb].
    destruct (Z.eqb_spec (mant16 h) 0) as [Hz|]; cbn [negb].
    + rewrite Hz. change (0 * 2 ^ 13 =? 0) with true. cbv iota.
      enough (h mod 2 ^ 15 = 31 * 2 ^ 10 + mant16 h) by lia.
      unfold exp16, mant16 in *. Z.div_mod_to_equations. lia.
    + destruct (Z.eqb_spec (mant16 h * 2 ^ 13) 0); lia.
  - destruct Hv as [He Hm]. destruct (code16_nearest x Hx He) as [Hle Hn].
    assert (h mod 2 ^ 15 <= 0x7C00) by (unfold exp16 in E; Z.div_mod_to_equations; lia).
    destruct (Hn (h mod 2 ^ 15)) as [Hn1 _]; [lia|]. rewrite Hm, Z.sub_diag in Hn1.
    pose proof (fields32 x Hx) as (_ & _ & HEr & HM). pose proof (code16_range _ _ HEr HM).
    enough (code16 (exp32 x) (mant32 x) = h mod 2 ^ 15) by lia.
    apply (mag_inj 10 125); try lia.
Qed.

Lemma fp16_roundtrip_witness : fp32_to_fp16_bits (fp16_bits_to_fp32 0x8001) = 0x8001.
Proof. rewrite (fp16_roundtrip 0x8001); [reflexivity|lia]. Defined.

(** ** bfloat16 *)

Lemma fp32_to_bf16_fields x : 0 <= x < 2 ^ 32 ->
  fp32_to_bf16_bits x =
    if (exp32 x =? 255) && negb (mant32 x =? 0)
    then Z.lor (x / 2 ^ 16) 0x40
    else sign32 x * 2 ^ 15 + rne (x mod 2 ^ 31) 16.
Proof.
  intros Hx. unfold fp32_to_bf16_bits. cbv zeta.
  rewrite exp32_bits, mant32_bits, Z.shiftr_div_pow2 by lia.
  destruct (fields32 x Hx) as (Hf & Hs & HE & HM).
  destruct ((exp32 x =? 255) && negb (mant32 x =? 0)) eqn:N.
  - rewrite Z.lor_comm. unfold u16. apply Z.mod_small.
    assert (0 <= x / 2 ^ 16 < 2 ^ 16) by (Z.div_mod_to_equations; lia).
    apply lor_lt_pow2; lia.
  - assert (Hfin : exp32 x < 255 \/ mant32 x = 0).
    { apply andb_false_iff in N as [N|N]; bool_facts; lia. }
    rewrite (land_mask _ 1) by lia. change (2 ^ 1) with 2.
    assert (0 <= x / 2 ^ 16 mod 2 < 2) by (apply Z.mod_pos_bound; lia).
    rewrite (u32_id (x + _)) by lia. rewrite Z.shiftr_div_pow2 by lia.
    unfold rne. change (2 ^ (16 - 1) - 1) with 0x7FFF.
    assert (x mod 2 ^ 31 / 2 ^ 16 mod 2 = x / 2 ^ 16 mod 2) as -> by (Z.div_mod_to_equations; lia).
    rewrite <- Z.div_add_l by lia. unfold u16. rewrite Z.mod_small; unfold sign32.
    + f_equal. Z.div_mod_to_equations. lia.
    + split; [apply Z.div_pos; lia|]. apply Z.div_lt_upper_bound; lia.
Qed.

Lemma bf16_nearest x : 0 <= x < 2 ^ 32 -> exp32 x <> 255 ->
  nearest_even mag_bf16 (mag32 x) (rne (x mod 2 ^ 31) 16).
Proof.
  intros Hx HE. set (m := x mod 2 ^ 31).
  assert (Hm : 0 <= m < 2 ^ 31) by (apply Z.mod_pos_bound; lia).
  pose proof (fields32 x Hx) as (_ & _ & HEr & HM).
  assert (Hq : m / 2 ^ 16 / 2 ^ 7 = exp32 x) by (unfold exp32, m; Z.div_mod_to_equations; lia).
  assert (Hr : (m / 2 ^ 16) mod 2 ^ 7 = mant32 x / 2 ^ 16) by (unfold mant32, m; Z.div_mod_to_equations; lia).
  assert (Hl : m mod 2 ^ 16 = mant32 x mod 2 ^ 16) by (unfold mant32, m; Z.div_mod_to_equations; lia).
  assert (Hlt : (m / 2 ^ 16 <? 2 ^ 7) = (exp32 x =? 0)).
  { rewrite <- Hq. clear -Hm. apply eq_true_iff_eq. rewrite Z.ltb_lt, Z.eqb_eq.
    assert (0 <= m / 2 ^ 16) by (apply Z.div_pos; lia). set (y := m / 2 ^ 16) in *.
    clearbody y. Z.div_mod_to_equations. lia. }
  replace (rne m 16) with (m / 2 ^ 16 - m / 2 ^ 16 + rne m 16) by lia.
  apply (rne_nearest 7 16 _ (m / 2 ^ 16) (if exp32 x =? 0 then 1 else 2 ^ (exp32 x - 1)));
    try lia; try done; try (by apply Z.div_pos; lia).
  - destruct (Z.eqb_spec (exp32 x) 0); [lia|]. apply Z.pow_pos_nonneg; lia.
  - rewrite mag32_fields by done. unfold mag. rewrite Hlt, Hq, Hr, Hl.
    pose proof (Z.div_mod (mant32 x) (2 ^ 16) ltac:(lia)).
    destruct (Z.eqb_spec (exp32 x) 0).
    + pose proof (Z.div_mod (m / 2 ^ 16) (2 ^ 7) ltac:(lia)) as Hd. rewrite Hq, Hr in Hd. lia.
    + rewrite Z.pow_add_r by lia. nia.
  - unfold ulp. rewrite Hlt, Hq. destruct (Z.eqb_spec (exp32 x) 0); [lia|].
    rewrite Z.pow_add_r by lia. lia.
Qed.

(** A not-a-number keeps its upper payload and gets the quiet bit. *)
Lemma bf16_quiet x : 0 <= x < 2 ^ 32 -> exp32 x = 255 ->
  exists n, Z.lor (x / 2 ^ 16) 0x40 = (sign32 x * 2 ^ 8 + 255) * 2 ^ 7 + n /\ 0 < n /\ n < 2 ^ 7.
Proof.
  intros Hx HE. destruct (fields32 x Hx) as (Hf & Hs & _ & HM). exists (Z.lor (mant32 x / 2 ^ 16) 0x40).
  assert (Hq : x / 2 ^ 16 = (sign32 x * 2 ^ 8 + 255) * 2 ^ 7 + mant32 x / 2 ^ 16)
    by (rewrite Hf at 1; Z.div_mod_to_equations; lia).
  assert (Hn : 0 <= mant32 x / 2 ^ 16 < 2 ^ 7) by (Z.div_mod_to_equations; lia).
  set (n := mant32 x / 2 ^ 16) in *.
  pose proof (lor_lt_pow2 n 0x40 7 ltac:(lia) Hn ltac:(lia)) as Hb.
  split; [rewrite Hq, <- (lor_low _ 7 n), <- Z.lor_assoc, (lor_low _ 7) by lia; done|].
  assert (Z.lor n 0x40 <> 0); [|lia].
  intros E. assert (Z.testbit (Z.lor n 0x40) 6 = true) as Ht by (rewrite Z.lor_spec; apply orb_true_r).
  by rewrite E in Ht.
Qed.

(** What is not one is rounded to a code no larger than the infinity's. *)
Lemma bf16_code_range x : 0 <= x < 2 ^ 32 -> (exp32 x =? 255) && negb (mant32 x =? 0) = false ->
  0 <= rne (x mod 2 ^ 31) 16 <= 0x7F80.
Proof.
  intros Hx N. destruct (fields32 x Hx) as (_ & _ & HE & HM). rewrite mod31 by done.
  apply andb_false_iff in N as [N|N]; bool_facts.
  - pose proof (rne_range (exp32 x * 2 ^ 23 + mant32 x) 16 ltac:(lia) ltac:(lia)).
    Z.div_mod_to_equations. lia.
  - assert (mant32 x = 0) as -> by lia. replace (exp32 x * 2 ^ 23 + 0) with (exp32 x * 2 ^ 7 * 2 ^ 16) by lia.
    rewrite rne_exact by lia. lia.
Qed.

(** C39: narrowing a [float] to bfloat16, for every bit pattern. The sign is
    kept; an infinity becomes the infinity and a not-a-number stays one
    (rounding would carry it into an infinity); a finite [float] becomes the
    bfloat16 nearest in magnitude, the even one of two, subnormals and the
    overflow to infinity included. *)
Theorem fp32_to_bf16_correct x : 0 <= x < 2 ^ 32 ->
  let r := fp32_to_bf16_bits x mod 2 ^ 15 in
  fp32_to_bf16_bits x / 2 ^ 15 = sign32 x /\
  (exp32 x = 255 -> if mant32 x =? 0 then r = 0x7F80 else 0x7F80 < r) /\
  (exp32 x <> 255 -> r <= 0x7F80 /\ forall c, 0 <= c <= 0x7F80 ->
    Z.abs (mag32 x - mag_bf16 r) <= Z.abs (mag32 x - mag_bf16 c) /\
    (Z.abs (mag32 x - mag_bf16 r) = Z.abs (mag32 x - mag_bf16 c) -> c = r \/ Z.even r = true)).
Proof.
  intros Hx. cbv zeta. rewrite fp32_to_bf16_fields by done.
  destruct (fields32 x Hx) as (Hf & Hs & HE & HM).
  destruct ((exp32 x =? 255) && negb (mant32 x =? 0)) eqn:N.
  - bool_facts. destruct (bf16_quiet x Hx ltac:(lia)) as (n & -> & Hn & Hlt).
    destruct (Z.eqb_spec (mant32 x) 0); [lia|].
    repeat split; intros; try done; Z.div_mod_to_equations; lia.
  - destruct (bf16_code_range x Hx N) as [H0 H1]. set (q := rne (x mod 2 ^ 31) 16) in *.
    rewrite Z.div_add_l, Z.div_small, Z.add_0_r by lia.
    rewrite (Z.add_comm (sign32 x * _)), Z_mod_plus_full, (Z.mod_small q) by lia. split; [done|]. split.
    + intros E. destruct (Z.eqb_spec (mant32 x) 0) as [M|M]; [|by rewrite E in N].
      unfold q. rewrite mod31 by done. rewrite E, M. by vm_compute.
    + intros E. split; [done|]. intros c Hc. apply (bf16_nearest x Hx E). lia.
Qed.

(** A tie between two bfloat16 values, and the infinity. *)
Lemma fp32_to_bf16_correct_witness :
  (fp32_to_bf16_bits 0xBF818000 mod 2 ^ 15 = 0x3F82 /\
   forall c, 0 <= c <= 0x7F80 -> Z.abs (mag32 0xBF818000 - mag_bf16 0x3F82) <= Z.abs (mag32 0xBF818000 - mag_bf16 c)) /\
  fp32_to_bf16_bits 0xFF800000 mod 2 ^ 15 = 0x7F80.
Proof.
  split; [split; [reflexivity|]|].
  - intros c Hc. exact (proj1 (proj2 (proj2 (proj2 (fp32_to_bf16_correct 0xBF818000 ltac:(lia))) ltac:(discriminate)) c Hc)).
  - exact (proj1 (proj2 (fp32_to_bf16_correct 0xFF800000 ltac:(lia))) eq_refl).
Defined.
End Half.
