(* ===== verification/Device.v ===== *)
(** * Devices

    [DeviceType], [Device] and their names (include/brotensor/tensor.h and
    src/tensor.cpp). *)
From S2P Require Import Prelude.

Inductive DeviceType : Type := CPU | CUDA | Metal | VULKAN.

#[global] Instance DeviceType_eq_decision : EqDecision DeviceType.
Proof. solve_decision. Defined.

(** The enumerators' integer values (3 was a backend that has been removed). *)
Definition DeviceType_value (t : DeviceType) : Z :=
  match t with CPU => 0 | CUDA => 1 | Metal => 2 | VULKAN => 4 end.

Record Device : Type := mkDevice { dev_type : DeviceType; dev_index : Z }.

#[global] Instance Device_eq_decision : EqDecision Device.
Proof. solve_decision. Defined.

Module Dev.
Definition cpu : Device := mkDevice CPU 0.
Definition cuda (idx : Z) : Device := mkDevice CUDA idx.
Definition metal (idx : Z) : Device := mkDevice Metal idx.
Definition vulkan (idx : Z) : Device := mkDevice VULKAN idx.

(** [Device::CPU], [Device::CUDA], [Device::Metal], [Device::VULKAN]. *)
Definition CPU0 : Device := mkDevice CPU 0.
Definition CUDA0 : Device := mkDevice CUDA 0.
Definition Metal0 : Device := mkDevice Metal 0.
Definition VULKAN0 : Device := mkDevice VULKAN 0.

Definition is_type (t : DeviceType) (d : Device) : bool := bool_decide (dev_type d = t).
Definition is_cpu := is_type CPU.
Definition is_cuda := is_type CUDA.
Definition is_metal := is_type Metal.
Definition is_vulkan := is_type VULKAN.
Definition is_gpu (d : Device) : bool := negb (is_cpu d).

(** [operator==] and [operator<]. *)
Definition eqb (a b : Device) : bool :=
  bool_decide (dev_type a = dev_type b) && (dev_index a =? dev_index b).
Definition ltb (a b : Device) : bool :=
  if bool_decide (dev_type a <> dev_type b)
  then DeviceType_value (dev_type a) <? DeviceType_value (dev_type b)
  else dev_index a <? dev_index b.
End Dev.

(** [device_name]: the type, and the index when it is not 0. *)
Definition device_name (d : Device) : str :=
  if Dev.is_cpu d then lit "CPU"
  else if Dev.is_cuda d then
    if dev_index d =? 0 then lit "CUDA" else lit "CUDA:" ++ to_string (dev_index d)
  else if Dev.is_metal d then
    if dev_index d =? 0 then lit "Metal" else lit "Metal:" ++ to_string (dev_index d)
  else if Dev.is_vulkan d then
    if dev_index d =? 0 then lit "vulkan" else lit "vulkan:" ++ to_string (dev_index d)
  else lit "?".

(** [std::hash<Device>]. *)
Definition device_hash (d : Device) : Z :=
  Z.lor (u64 (Z.shiftl (DeviceType_value (dev_type d)) 16)) (Z.land (u64 (dev_index d)) 0xFFFF).

Lemma eqb_spec a b : reflect (a = b) (Dev.eqb a b).
Proof.
  unfold Dev.eqb. destruct a as [ta ia], b as [tb ib]; cbn.
  destruct (bool_decide_reflect (ta = tb)); destruct (Z.eqb_spec ia ib); cbn;
    constructor; congruence.
Qed.

Lemma is_type_spec t d : reflect (dev_type d = t) (Dev.is_type t d).
Proof. unfold Dev.is_type. destruct (bool_decide_reflect (dev_type d = t)); by constructor. Qed.

Lemma DeviceType_value_inj t u : DeviceType_value t = DeviceType_value u -> t = u.
Proof. by destruct t, u. Qed.

(** [operator<] is the lexicographic order on (type, index), hence a strict
    total order, as ordered containers of devices need. *)
Lemma ltb_spec a b : Dev.ltb a b = true <->
  DeviceType_value (dev_type a) < DeviceType_value (dev_type b) \/
  (dev_type a = dev_type b /\ dev_index a < dev_index b).
Proof.
  unfold Dev.ltb. case_bool_decide as H; rewrite Z.ltb_lt; split.
  - by left.
  - intros [?|[? ?]]; [done|congruence].
  - intros ?. right. split; [|done]. by destruct (decide (dev_type a = dev_type b)).
  - intros [?|[? ?]]; [|done]. destruct (decide (dev_type a = dev_type b)) as [E|]; [|done].
    rewrite E in *. lia.
Qed.

Lemma ltb_irrefl a : Dev.ltb a a = false.
Proof. apply not_true_is_false. rewrite ltb_spec. lia. Qed.

Lemma ltb_trans a b c : Dev.ltb a b = true -> Dev.ltb b c = true -> Dev.ltb a c = true.
Proof. rewrite !ltb_spec. intros [?|[-> ?]] [?|[<- ?]]; first [left; lia|right; split; [done|lia]]. Qed.

Lemma ltb_total a b : a = b \/ Dev.ltb a b = true \/ Dev.ltb b a = true.
Proof.
  rewrite !ltb_spec. destruct a as [ta ia], b as [tb ib]; cbn.
  destruct (Z.lt_trichotomy (DeviceType_value ta) (DeviceType_value tb)) as [?|[->%DeviceType_value_inj|?]]; auto.
  destruct (Z.lt_trichotomy ia ib) as [?|[->|?]]; auto.
Qed.
