(* ===== verification/Heap.v ===== *)
(** * Memory and the allocator interface

    Memory is a finite map from blocks to their bytes, each block tagged with
    the device it lives on; a pointer is a block and an offset. The accesses of
    this file are undefined outside a live block, between overlapping regions
    and, for host code, on device memory.

    [AllocVTable] is the table of include/brotensor/detail/dispatch.h through
    which [Tensor] reaches a backend. [LawfulAlloc] states what a backend
    promises to [Tensor]; the CPU backend of src/cpu/alloc.cpp is an instance
    (over [malloc], which the C library gives). *)
From S2P Require Import Prelude Device.

Record block : Type := mkBlock { blk_dev : Device; blk_bytes : str }.
Abbreviation heap := (gmap positive block).

Definition ptr : Type := option (positive * Z).
Abbreviation nullptr := (None : ptr).
Definition is_null (p : ptr) : bool := match p with None => true | Some _ => false end.
Definition ptr_add (p : ptr) (n : Z) : ptr :=
  match p with Some (b, o) => Some (b, o + n) | None => None end.

#[global] Instance ptr_eq_decision : EqDecision ptr := _.

(** ** Accesses *)

Definition in_block (blk : block) (off n : Z) : bool :=
  (0 <=? off) && (0 <=? n) && (off + n <=? zlen (blk_bytes blk)).

Definition load_bytes (h : heap) (p : ptr) (n : Z) : option str :=
  match p with
  | None => None
  | Some (b, off) =>
      blk ← h !! b;
      if in_block blk off n then Some (slice off n (blk_bytes blk)) else None
  end.

Definition splice (off : Z) (new old : str) : str :=
  take (Z.to_nat off) old ++ new ++ drop (Z.to_nat off + length new) old.

Definition store_bytes (h : heap) (p : ptr) (data : str) : option heap :=
  match p with
  | None => None
  | Some (b, off) =>
      blk ← h !! b;
      if in_block blk off (zlen data)
      then Some (<[b := mkBlock (blk_dev blk) (splice off data (blk_bytes blk))]> h)
      else None
  end.

(** The device a pointer points into. *)
Definition ptr_dev (h : heap) (p : ptr) : option Device :=
  match p with None => None | Some (b, _) => blk_dev <$> h !! b end.

Definition ptr_on (t : DeviceType) (h : heap) (p : ptr) : bool :=
  match ptr_dev h p with Some d => Dev.is_type t d | None => false end.

Definition overlaps (p q : ptr) (n : Z) : bool :=
  match p, q with
  | Some (b, o), Some (b', o') => bool_decide (b = b') && (o <? o' + n) && (o' <? o + n)
  | _, _ => false
  end.

(** A copy between two live, disjoint ranges on the given kinds of device. *)
Definition copy_on (td ts : DeviceType) (dst src : ptr) (n : Z) : st heap unit :=
  fun h =>
    if ptr_on td h dst && ptr_on ts h src && negb (overlaps dst src n) then
      match load_bytes h src n with
      | Some data =>
          match store_bytes h dst data with
          | Some h' => (Ret tt, h')
          | None => (Undef, h)
          end
      | None => (Undef, h)
      end
    else (Undef, h).

(** [std::memcpy] and [std::memset] of the host. *)
Definition memcpy : ptr -> ptr -> Z -> st heap unit := copy_on CPU CPU.

Definition zero_on (t : DeviceType) (dst : ptr) (n : Z) : st heap unit :=
  fun h =>
    if ptr_on t h dst then
      match store_bytes h dst (replicate (Z.to_nat n) x00) with
      | Some h' => (Ret tt, h')
      | None => (Undef, h)
      end
    else (Undef, h).

(** ** The allocator table *)

Record AllocVTable : Type := mkAllocVTable {
  vt_alloc : Z -> Z -> st heap ptr;
  vt_free : ptr -> Z -> st heap unit;
  vt_memcpy_h2d : ptr -> ptr -> Z -> Z -> st heap unit;
  vt_memcpy_d2h : ptr -> ptr -> Z -> Z -> st heap unit;
  vt_memcpy_d2d : ptr -> ptr -> Z -> Z -> st heap unit;
  vt_memcpy_peer : option (ptr -> Z -> ptr -> Z -> Z -> st heap unit);
  vt_memset_zero : ptr -> Z -> Z -> st heap unit;
  vt_sync : Z -> st heap unit;
  vt_mem_info : option (Z -> option (Z * Z));
  vt_mem_trim : option (Z -> Z -> bool);
  vt_device_name : option (Z -> option str);
  vt_idle : option (Z -> st heap bool)
}.

(** A fresh block of [n] bytes on device type [t]; its contents are whatever
    the allocator left there. *)
Definition alloc_result (t : DeviceType) (n : Z) (h : heap) (r : res ptr * heap) : Prop :=
  match r with
  | (Ret p, h') => exists b d bytes, p = Some (b, 0) /\ h !! b = None /\ dev_type d = t /\
                     zlen bytes = n /\ h' = <[b := mkBlock d bytes]> h
  | (Throw _, h') => h' = h
  | (Undef, _) => False
  end.

(** What a backend of type [t] promises about its table. *)
Class LawfulAlloc (t : DeviceType) (vt : AllocVTable) : Prop := {
  law_alloc : forall n idx h, 0 < n -> alloc_result t n h (vt_alloc vt n idx h);
  law_free : forall b blk idx h, h !! b = Some blk -> dev_type (blk_dev blk) = t ->
    vt_free vt (Some (b, 0)) idx h = (Ret tt, delete b h);
  law_h2d : forall dst src n idx h, 0 < n ->
    defined (copy_on t CPU dst src n h).1 ->
    vt_memcpy_h2d vt dst src n idx h = copy_on t CPU dst src n h;
  law_d2h : forall dst src n idx h, 0 < n ->
    defined (copy_on CPU t dst src n h).1 ->
    vt_memcpy_d2h vt dst src n idx h = copy_on CPU t dst src n h;
  law_d2d : forall dst src n idx h, 0 < n ->
    defined (copy_on t t dst src n h).1 ->
    vt_memcpy_d2d vt dst src n idx h = copy_on t t dst src n h;
  law_peer : forall f dst i src j n h, vt_memcpy_peer vt = Some f -> 0 < n ->
    defined (copy_on t t dst src n h).1 ->
    f dst i src j n h = copy_on t t dst src n h;
  law_zero : forall dst n idx h, 0 < n -> defined (zero_on t dst n h).1 ->
    vt_memset_zero vt dst n idx h = zero_on t dst n h
}.

(** ** Lemmas on accesses *)

Lemma in_block_true blk off n :
  in_block blk off n = true <-> 0 <= off /\ 0 <= n /\ off + n <= zlen (blk_bytes blk).
Proof. unfold in_block. rewrite !andb_true_iff, !Z.leb_le. tauto. Qed.

Lemma length_splice off new old :
  0 <= off -> off + zlen new <= zlen old -> zlen (splice off new old) = zlen old.
Proof.
  unfold splice, zlen. intros. rewrite !length_app, length_take, length_drop. lia.
Qed.

Lemma slice_splice off new old :
  0 <= off -> off + zlen new <= zlen old -> slice off (zlen new) (splice off new old) = new.
Proof.
  unfold splice, zlen, slice. intros. rewrite drop_app_length'; [|rewrite length_take; lia].
  rewrite Nat2Z.id. by rewrite take_app_length.
Qed.

Lemma splice_all new old : zlen new = zlen old -> splice 0 new old = new.
Proof.
  unfold splice, zlen. intros. cbn. rewrite drop_ge by lia. by rewrite app_nil_r.
Qed.

Lemma load_full h b blk n :
  h !! b = Some blk -> 0 <= n <= zlen (blk_bytes blk) ->
  load_bytes h (Some (b, 0)) n = Some (slice 0 n (blk_bytes blk)).
Proof.
  intros Hb Hn. cbn. rewrite Hb. cbn. rewrite (proj2 (in_block_true blk 0 n)); [done|lia].
Qed.

Lemma store_at h b blk off data :
  h !! b = Some blk -> 0 <= off -> off + zlen data <= zlen (blk_bytes blk) ->
  store_bytes h (Some (b, off)) data =
    Some (<[b := mkBlock (blk_dev blk) (splice off data (blk_bytes blk))]> h).
Proof.
  intros Hb Ho Hn. cbn. rewrite Hb. cbn. rewrite (proj2 (in_block_true blk off (zlen data))); [done|].
  pose proof (zlen_nonneg data). lia.
Qed.

(** The copy every transfer of [Tensor] makes: [n] bytes from a live range to
    the start of another block. *)
Lemma copy_on_ok td ts h bd blkd bs os blks n :
  h !! bd = Some blkd -> dev_type (blk_dev blkd) = td ->
  h !! bs = Some blks -> dev_type (blk_dev blks) = ts ->
  bd <> bs -> 0 <= n <= zlen (blk_bytes blkd) -> 0 <= os -> os + n <= zlen (blk_bytes blks) ->
  copy_on td ts (Some (bd, 0)) (Some (bs, os)) n h =
    (Ret tt, <[bd := mkBlock (blk_dev blkd)
                 (splice 0 (slice os n (blk_bytes blks)) (blk_bytes blkd))]> h).
Proof.
  intros Hd Htd Hs Hts Hne Hn Hos Hn'. unfold copy_on, ptr_on, ptr_dev. rewrite Hd, Hs. cbn.
  unfold Dev.is_type. rewrite Htd, Hts, !bool_decide_eq_true_2 by done.
  rewrite (bool_decide_eq_false_2 (bd = bs)) by done. cbn.
  rewrite Hs. cbn. rewrite (proj2 (in_block_true blks os n)) by lia.
  cbn. rewrite Hd. cbn. rewrite zlen_slice by lia.
  by rewrite (proj2 (in_block_true blkd 0 n)) by lia.
Qed.

Lemma zero_on_ok t h b blk n :
  h !! b = Some blk -> dev_type (blk_dev blk) = t -> 0 <= n <= zlen (blk_bytes blk) ->
  zero_on t (Some (b, 0)) n h =
    (Ret tt, <[b := mkBlock (blk_dev blk) (splice 0 (replicate (Z.to_nat n) x00) (blk_bytes blk))]> h).
Proof.
  intros Hb Ht Hn. unfold zero_on, ptr_on, ptr_dev. rewrite Hb. cbn.
  unfold Dev.is_type. rewrite Ht, bool_decide_eq_true_2 by done. rewrite Hb. cbn.
  rewrite (proj2 (in_block_true _ _ _)); [done|].
  unfold zlen in *. rewrite length_replicate. lia.
Qed.

(** ** The CPU backend's table (src/cpu/alloc.cpp)

    [malloc] gives a block that was not live, with bytes the caller may not
    rely on, or fails; [free] takes back what it gave. *)
Module CpuAlloc.
Section Malloc.
Context (malloc : heap -> Z -> option (positive * str)).

Definition std_free (p : ptr) : st heap unit := fun h =>
  match p with
  | None => (Ret tt, h)
  | Some (b, off) =>
      match h !! b with
      | Some blk => if (off =? 0) && Dev.is_cpu (blk_dev blk) then (Ret tt, delete b h) else (Undef, h)
      | None => (Undef, h)
      end
  end.

Definition cpu_alloc (bytes : Z) (_ : Z) : st heap ptr := fun h =>
  if bytes =? 0 then (Ret nullptr, h)
  else match malloc h bytes with
       | None => (Throw (lit "std::bad_alloc"), h)
       | Some (b, junk) => (Ret (Some (b, 0)), <[b := mkBlock Dev.CPU0 junk]> h)
       end.

Definition cpu_free (p : ptr) (_ : Z) : st heap unit :=
  if is_null p then mret tt else std_free p.

Definition cpu_memcpy_h2d (dst src : ptr) (n : Z) (_ : Z) : st heap unit :=
  if n =? 0 then mret tt else memcpy dst src n.
Definition cpu_memcpy_d2h (dst src : ptr) (n : Z) (_ : Z) : st heap unit :=
  if n =? 0 then mret tt else memcpy dst src n.
Definition cpu_memcpy_d2d (dst src : ptr) (n : Z) (_ : Z) : st heap unit :=
  if n =? 0 then mret tt else memcpy dst src n.
Definition cpu_memcpy_peer (dst : ptr) (_ : Z) (src : ptr) (_ : Z) (n : Z) : st heap unit :=
  if n =? 0 then mret tt else memcpy dst src n.
Definition cpu_memset_zero (dst : ptr) (n : Z) (_ : Z) : st heap unit :=
  if n =? 0 then mret tt else zero_on CPU dst n.
Definition cpu_sync (_ : Z) : st heap unit := mret tt.

Definition cpu_alloc_table : AllocVTable := {|
  vt_alloc := cpu_alloc;
  vt_free := cpu_free;
  vt_memcpy_h2d := cpu_memcpy_h2d;
  vt_memcpy_d2h := cpu_memcpy_d2h;
  vt_memcpy_d2d := cpu_memcpy_d2d;
  vt_memcpy_peer := Some cpu_memcpy_peer;
  vt_memset_zero := cpu_memset_zero;
  vt_sync := cpu_sync;
  vt_mem_info := None;
  vt_mem_trim := None;
  vt_device_name := None;
  vt_idle := None
|}.

Context (malloc_spec : forall h n b junk, 0 < n ->
  malloc h n = Some (b, junk) -> h !! b = None /\ zlen junk = n).

(** The CPU table keeps the promises [Tensor] relies on. *)
#[export] Instance cpu_lawful : LawfulAlloc CPU cpu_alloc_table.
Proof.
  split; cbn.
  - intros n idx h Hn. unfold cpu_alloc. destruct (Z.eqb_spec n 0); [lia|].
    destruct (malloc h n) as [[b junk]|] eqn:E; [|done].
    destruct (malloc_spec _ _ _ _ Hn E) as [Hb Hj]. exists b, Dev.CPU0, junk. by repeat split.
  - intros b blk idx h Hb Ht. unfold cpu_free, std_free. cbn. rewrite Hb.
    unfold Dev.is_cpu, Dev.is_type. by rewrite bool_decide_eq_true_2.
  - intros dst src n idx h Hn _. unfold cpu_memcpy_h2d. by destruct (Z.eqb_spec n 0); [lia|].
  - intros dst src n idx h Hn _. unfold cpu_memcpy_d2h. by destruct (Z.eqb_spec n 0); [lia|].
  - intros dst src n idx h Hn _. unfold cpu_memcpy_d2d. by destruct (Z.eqb_spec n 0); [lia|].
  - intros f dst i src j n h [= <-] Hn _. unfold cpu_memcpy_peer. by destruct (Z.eqb_spec n 0); [lia|].
  - intros dst n idx h Hn _. unfold cpu_memset_zero. by destruct (Z.eqb_spec n 0); [lia|].
Qed.
End Malloc.

(** A [malloc] that satisfies its specification, for examples: the first free
    address, and zero bytes. *)
Definition first_free (h : heap) (n : Z) : option (positive * str) :=
  Some (fresh (dom h), replicate (Z.to_nat n) x00).

Lemma first_free_spec h n b junk :
  0 < n -> first_free h n = Some (b, junk) -> h !! b = None /\ zlen junk = n.
Proof.
  intros Hn [= <- <-]. split.
  - apply not_elem_of_dom. apply is_fresh.
  - unfold zlen. rewrite length_replicate. lia.
Qed.
End CpuAlloc.

(** A table that does what the interface says on the heap itself: what stands
    for a GPU backend in examples. *)
Module IdealAlloc.
Definition table (t : DeviceType) : AllocVTable := {|
  vt_alloc n idx h :=
    let b := fresh (dom h) in
    (Ret (Some (b, 0)), <[b := mkBlock (mkDevice t idx) (replicate (Z.to_nat n) x00)]> h);
  vt_free p _ h := (Ret tt, match p with Some (b, _) => delete b h | None => h end);
  vt_memcpy_h2d dst src n _ := copy_on t CPU dst src n;
  vt_memcpy_d2h dst src n _ := copy_on CPU t dst src n;
  vt_memcpy_d2d dst src n _ := copy_on t t dst src n;
  vt_memcpy_peer := Some (fun dst _ src _ n => copy_on t t dst src n);
  vt_memset_zero dst n _ := zero_on t dst n;
  vt_sync _ h := (Ret tt, h);
  vt_mem_info := None; vt_mem_trim := None; vt_device_name := None; vt_idle := None
|}.

#[export] Instance lawful t : LawfulAlloc t (table t).
Proof.
  split; cbn; try done.
  - intros n idx h Hn. exists (fresh (dom h)), (mkDevice t idx), (replicate (Z.to_nat n) x00). repeat split.
    + apply not_elem_of_dom. apply is_fresh.
    + unfold zlen. rewrite length_replicate. lia.
  - by intros f dst i src j n h [= <-].
Qed.
End IdealAlloc.
