(* ===== verification/Runtime.v ===== *)
(** * Backend registry, dispatch and the default device

    src/dispatch.cpp (registry, alias resolution, operand dispatch, dimension
    guards) and src/init.cpp (initialisation, default device, [DeviceScope]).

    The process-wide and thread-local variables of both files are the fields
    of [runtime]. A [Tensor] operand of dispatch is seen through what dispatch
    reads of it: whether it owns storage, its device and its shape. *)
From S2P Require Import Prelude Dtype Device Heap.

(** A table of op function pointers: null slots are [None], others the address
    of the implementation. *)
Definition OpsVTable : Type := str -> option positive.

Record Slot : Type := mkSlot { slot_ops : OpsVTable; slot_alloc : AllocVTable }.

(** The registry ([slots()], [g_cuda_device_count], [g_vulkan_device_count])
    and the state of src/init.cpp. A slot is [None] until registered. *)
Record runtime : Type := mkRuntime {
  rt_slots : DeviceType -> option Slot;
  rt_cuda_count : Z;
  rt_vulkan_count : Z;
  rt_init_done : bool;
  rt_default : Device;
  rt_default_set : bool;
  rt_scope_override : option Device;
  rt_scope_had_prev : list bool
}.

Section Setters.
Context (rt : runtime).
Definition with_slots f := mkRuntime f (rt_cuda_count rt) (rt_vulkan_count rt)
  (rt_init_done rt) (rt_default rt) (rt_default_set rt) (rt_scope_override rt) (rt_scope_had_prev rt).
Definition with_counts c v := mkRuntime (rt_slots rt) c v
  (rt_init_done rt) (rt_default rt) (rt_default_set rt) (rt_scope_override rt) (rt_scope_had_prev rt).
Definition with_init_done b := mkRuntime (rt_slots rt) (rt_cuda_count rt) (rt_vulkan_count rt)
  b (rt_default rt) (rt_default_set rt) (rt_scope_override rt) (rt_scope_had_prev rt).
Definition with_default d := mkRuntime (rt_slots rt) (rt_cuda_count rt) (rt_vulkan_count rt)
  (rt_init_done rt) d true (rt_scope_override rt) (rt_scope_had_prev rt).
Definition with_scope o l := mkRuntime (rt_slots rt) (rt_cuda_count rt) (rt_vulkan_count rt)
  (rt_init_done rt) (rt_default rt) (rt_default_set rt) o l.
End Setters.

Module Registry.

Definition slot_registered (rt : runtime) (t : DeviceType) : bool :=
  match rt_slots rt t with Some _ => true | None => false end.

Definition set_cuda_device_count (count : Z) (rt : runtime) : runtime :=
  with_counts rt count (rt_vulkan_count rt).
Definition set_vulkan_device_count (count : Z) (rt : runtime) : runtime :=
  with_counts rt (rt_cuda_count rt) count.

Definition cuda_device_count (rt : runtime) : Z := rt_cuda_count rt.
Definition vulkan_device_count (rt : runtime) : Z := rt_vulkan_count rt.

(** Registering a device twice replaces its tables. *)
Definition register_backend (dt : DeviceType) (ops : OpsVTable) (alloc : AllocVTable)
    (rt : runtime) : runtime :=
  with_slots rt (fun t => if decide (t = dt) then Some (mkSlot ops alloc) else rt_slots rt t).

Definition is_registered (rt : runtime) (d : Device) : bool :=
  if Dev.is_cpu d then slot_registered rt CPU
  else if Dev.is_cuda d then
    if negb (slot_registered rt CUDA) then false
    else
      let count := cuda_device_count rt in
      let count := if count <=? 0 then 1 else count in
      (dev_index d >=? 0) && (dev_index d <? count)
  else if Dev.is_metal d then
    slot_registered rt Metal && (dev_index d =? 0)
  else if Dev.is_vulkan d then
    if negb (slot_registered rt VULKAN) then false
    else (dev_index d >=? 0) && (dev_index d <? vulkan_device_count rt)
  else false.

(** [pick_default_from_available] and [default_device] of src/init.cpp. *)
Definition pick_default_from_available (rt : runtime) : Device :=
  if is_registered rt Dev.CUDA0 then Dev.CUDA0
  else if is_registered rt Dev.Metal0 then Dev.Metal0
  else if is_registered rt Dev.VULKAN0 then Dev.VULKAN0
  else Dev.CPU0.

Definition default_device (rt : runtime) : Device :=
  match rt_scope_override rt with
  | Some d => d
  | None => if negb (rt_default_set rt) then pick_default_from_available rt else rt_default rt
  end.

(** [Device::CUDA] names the GPU that is there when there is no CUDA backend. *)
Definition resolve_device_alias (rt : runtime) (d : Device) : Device :=
  if Dev.is_cuda d && negb (slot_registered rt CUDA) then
    let metal := slot_registered rt Metal in
    let vulkan := slot_registered rt VULKAN in
    if metal && vulkan && Dev.is_vulkan (default_device rt) then Dev.vulkan (dev_index d)
    else if metal then Dev.Metal0
    else if vulkan then Dev.vulkan (dev_index d)
    else d
  else d.

Definition throw_unregistered {A} (d : Device) : res A :=
  Throw (lit "brotensor: backend " ++ device_name d ++ lit " not registered").

Definition slot_for (rt : runtime) (d : Device) : res Slot :=
  let d := resolve_device_alias rt d in
  match rt_slots rt (dev_type d) with
  | None => throw_unregistered d
  | Some s => Ret s
  end.

Definition ops_for (rt : runtime) (d : Device) : res OpsVTable :=
  s ← slot_for rt d; mret (slot_ops s).

Definition alloc_for (rt : runtime) (d : Device) : res AllocVTable :=
  s ← slot_for rt d; mret (slot_alloc s).

(** ** The alias *)

Lemma resolve_not_cuda rt d : dev_type d <> CUDA -> resolve_device_alias rt d = d.
Proof.
  intros H. unfold resolve_device_alias, Dev.is_cuda, Dev.is_type.
  by rewrite bool_decide_eq_false_2.
Qed.

Lemma resolve_cuda_registered rt d : slot_registered rt CUDA = true -> resolve_device_alias rt d = d.
Proof. intros H. unfold resolve_device_alias. by rewrite H, andb_false_r. Qed.

Lemma resolve_cases rt d :
  resolve_device_alias rt d = d \/
  (slot_registered rt CUDA = false /\ dev_type d = CUDA /\
   slot_registered rt (dev_type (resolve_device_alias rt d)) = true /\
   (resolve_device_alias rt d = Dev.Metal0 \/
    resolve_device_alias rt d = Dev.vulkan (dev_index d))).
Proof.
  unfold resolve_device_alias. change (Dev.is_cuda d) with (Dev.is_type CUDA d).
  destruct (is_type_spec CUDA d) as [Hd|]; [|by left].
  destruct (slot_registered rt CUDA) eqn:C; [by left|]. cbn [negb andb].
  destruct (slot_registered rt Metal) eqn:M; destruct (slot_registered rt VULKAN) eqn:V; cbn [andb];
    try destruct (Dev.is_vulkan _); first [by left | right; repeat split; try done; first [by left | by right]].
Qed.

Lemma resolve_idemp rt d :
  resolve_device_alias rt (resolve_device_alias rt d) = resolve_device_alias rt d.
Proof.
  destruct (resolve_cases rt d) as [E|(_ & _ & _ & [-> | ->])]; [by rewrite !E| |];
    by apply resolve_not_cuda.
Qed.

(** The [Device::CUDA] alias is settled in one step: resolving twice is
    resolving once; it is the identity on every device but an unregistered
    CUDA one, and then names a registered backend unless no GPU is there. *)
Theorem resolve_device_alias_settled rt d :
  let r := resolve_device_alias rt d in
  resolve_device_alias rt r = r /\
  (dev_type d <> CUDA \/ slot_registered rt CUDA = true -> r = d) /\
  (r <> d -> dev_type r <> CUDA /\ dev_type r <> CPU /\ slot_registered rt (dev_type r) = true) /\
  (dev_type d = CUDA -> slot_registered rt Metal = true \/ slot_registered rt VULKAN = true ->
   slot_registered rt (dev_type r) = true).
Proof.
  cbv zeta. split; [apply resolve_idemp|].
  destruct (resolve_cases rt d) as [E|(HC & Hd & Hr & Hcase)].
  - rewrite !E. split; [done|]. split; [by intros []|]. intros Ht Hg.
    destruct (slot_registered rt CUDA) eqn:C; [congruence|].
    unfold resolve_device_alias, Dev.is_cuda, Dev.is_type in E.
    rewrite bool_decide_eq_true_2, C in E by done. cbn [andb negb] in E.
    apply (f_equal dev_type) in E. rewrite Ht in E. exfalso.
    destruct (slot_registered rt Metal), (slot_registered rt VULKAN), Hg; try done;
      cbn [andb] in E; destruct (Dev.is_vulkan (default_device rt)); done.
  - set (r := resolve_device_alias rt d) in *.
    assert (Hnc : dev_type r <> CUDA /\ dev_type r <> CPU) by (destruct Hcase as [-> | ->]; done).
    repeat split; try apply Hnc; try done. intros [?|?]; [done|congruence].
Qed.
End Registry.

(** ** Operand dispatch (src/dispatch.cpp, src/ops.cpp) *)
Module Dispatch.
Import Registry.

(** What dispatch reads of a [Tensor]: [data != nullptr], device, dtype, shape. *)
Record operand : Type := mkOperand {
  op_committed : bool;
  op_device : Device;
  op_dtype : Dtype;
  op_rows : Z;
  op_cols : Z
}.

(** A [const Tensor*] operand; optional operands may be null. *)
Abbreviation operands := (list (option operand)).

Definition kMaxOperands : Z := 32.

Definition committed (t : operand) : bool := op_committed t.

Definition throw_device_mismatch {A} (resolved : Device) (idx : Z) (got : Device) : res A :=
  Throw (lit "brotensor: dispatch: operand " ++ to_string idx ++ lit " is on " ++ device_name got ++
         lit " but the op resolved to " ++ device_name resolved).

(** The device of the first committed operand. *)
Fixpoint first_committed (ts : operands) : option Device :=
  match ts with
  | [] => None
  | Some t :: r => if committed t then Some (op_device t) else first_committed r
  | None :: r => first_committed r
  end.

(** The verification loop, [idx] the index of the head. *)
Fixpoint check_agree (dev : Device) (idx : Z) (ts : operands) : res unit :=
  match ts with
  | [] => mret tt
  | Some t :: r =>
      if committed t && negb (Dev.eqb (op_device t) dev)
      then throw_device_mismatch dev idx (op_device t)
      else check_agree dev (idx + 1) r
  | None :: r => check_agree dev (idx + 1) r
  end.

(** [dispatch_v]: with no committed operand, operand 0's tag if it is there. *)
Definition dispatch_v (rt : runtime) (ts : operands) : res OpsVTable :=
  let dev := match first_committed ts with
             | Some d => d
             | None => match ts with Some t :: _ => op_device t | _ => Dev.CPU0 end
             end in
  _ ← check_agree dev 0 ts;
  ops_for rt dev.

Fixpoint first_nonnull (ts : operands) : option Device :=
  match ts with
  | [] => None
  | Some t :: _ => Some (op_device t)
  | None :: r => first_nonnull r
  end.

(** [resolve_over]: with no committed operand, the first non-null one's tag. *)
Definition resolve_over (rt : runtime) (ts : operands) : res OpsVTable :=
  let dev := match first_committed ts with
             | Some d => d
             | None => default Dev.CPU0 (first_nonnull ts)
             end in
  _ ← check_agree dev 0 ts;
  ops_for rt dev.

Definition throw_too_many_operands {A} (n : Z) : res A :=
  Throw (lit "brotensor: dispatch: operand count " ++ to_string n ++
         lit " exceeds the fixed dispatch buffer (" ++ to_string kMaxOperands ++ lit ")").

(** [dispatch(a, b, ...)] and the two [dispatch_with_opts]. *)
Definition dispatch (rt : runtime) (ts : list operand) : res OpsVTable :=
  dispatch_v rt (map Some ts).

Definition dispatch_with_opts1 (rt : runtime) (a : operand) (opts : operands) : res OpsVTable :=
  let count := 1 + zlen opts in
  if count >? kMaxOperands then throw_too_many_operands count
  else resolve_over rt (Some a :: opts).

Definition dispatch_with_opts2 (rt : runtime) (a b : operand) (opts : operands) : res OpsVTable :=
  let count := 2 + zlen opts in
  if count >? kMaxOperands then throw_too_many_operands count
  else resolve_over rt (Some a :: Some b :: opts).

(** [adopt_output]: pin an uncommitted output. *)
Definition adopt_output (rt : runtime) (t : operand) (d : Device) : operand :=
  if negb (op_committed t)
  then mkOperand (op_committed t) (resolve_device_alias rt d) (op_dtype t) (op_rows t) (op_cols t)
  else t.

Definition throw_not_implemented {A} (op_name : str) (d : Device) : res A :=
  Throw (lit "brotensor: " ++ op_name ++ lit ": not implemented on " ++ device_name d).

(** The public wrapper of an op, [linear_forward] of src/ops.cpp: the operands
    in dispatch order, the outputs among them by position. It looks up the
    slot of the resolved table, pins the outputs to the device of the first
    operand, and yields the implementation with the operands it is called on. *)
Definition op_wrapper (rt : runtime) (name : str) (ts : list operand) (outs : list nat)
    : res (positive * list operand) :=
  match ts with
  | [] => Undef
  | w :: _ =>
      v ← dispatch rt ts;
      match v name with
      | None => throw_not_implemented name (op_device w)
      | Some f =>
          mret (f, foldl (fun l i => alter (fun t => adopt_output rt t (op_device w)) i l) ts outs)
      end
  end.

Definition linear_forward (rt : runtime) (W b x y : operand) :=
  op_wrapper rt (lit "linear_forward") [W; b; x; y] [3%nat].

Definition throw_empty_parts {A} (op : str) : res A :=
  Throw (lit "brotensor: " ++ op ++ lit ": parts must be non-empty").

(** [vtable_from_parts]: every non-null part, committed or not, has to be on
    the first part's device. *)
Fixpoint parts_agree (op : str) (d : Device) (i : Z) (parts : operands) : res unit :=
  match parts with
  | [] => mret tt
  | Some t :: r =>
      if negb (Dev.eqb (op_device t) d)
      then Throw (lit "brotensor: " ++ op ++ lit ": parts[" ++ to_string i ++ lit "] on different device")
      else parts_agree op d (i + 1) r
  | None :: r => parts_agree op d (i + 1) r
  end.

Definition vtable_from_parts (rt : runtime) (parts : operands) (op : str) : res OpsVTable :=
  match parts with
  | [] => throw_empty_parts op
  | None :: _ => throw_empty_parts op
  | Some p :: r => _ ← parts_agree op (op_device p) 1 r; ops_for rt (op_device p)
  end.

(** *** Dimension guards

    The products are of [int64_t]: one that leaves its range is undefined. *)
Definition mul64 (a b : Z) : res Z :=
  let p := a * b in if (- 2 ^ 63 <=? p) && (p <? 2 ^ 63) then Ret p else Undef.

Definition dims_msg (op name : str) (bad : bool) (dims : str) (expected : str) (rows cols : Z) : str :=
  lit "brotensor: " ++ op ++
  if bad then lit ": non-positive spatial dimensions (" ++ dims ++ lit ") for " ++ name ++
       lit " (rows=" ++ to_string rows ++ lit ", cols=" ++ to_string cols ++ lit ")"
  else lit ": shape mismatch for " ++ name ++ lit ": expected (" ++ expected ++
       lit "), got (rows=" ++ to_string rows ++ lit ", cols=" ++ to_string cols ++ lit ")".

Definition throw_spatial_1d_error (op name : str) (N C L rows cols : Z) : res unit :=
  let bad := (N <=? 0) || (C <=? 0) || (L <=? 0) in
  let dims := lit "N=" ++ to_string N ++ lit ", C=" ++ to_string C ++ lit ", L=" ++ to_string L in
  if bad then Throw (dims_msg op name bad dims [] rows cols)
  else
    e ← mul64 C L;
    Throw (dims_msg op name bad dims
      (lit "N=" ++ to_string N ++ lit ", C*L=" ++ to_string C ++ lit "*" ++ to_string L ++
       lit "=" ++ to_string e) rows cols).

Definition throw_spatial_2d_error (op name : str) (N C H W rows cols : Z) : res unit :=
  let bad := (N <=? 0) || (C <=? 0) || (H <=? 0) || (W <=? 0) in
  let dims := lit "N=" ++ to_string N ++ lit ", C=" ++ to_string C ++ lit ", H=" ++ to_string H ++
              lit ", W=" ++ to_string W in
  if bad then Throw (dims_msg op name bad dims [] rows cols)
  else
    e ← mul64 C H; e ← mul64 e W;
    Throw (dims_msg op name bad dims
      (lit "N=" ++ to_string N ++ lit ", C*H*W=" ++ to_string C ++ lit "*" ++ to_string H ++ lit "*" ++
       to_string W ++ lit "=" ++ to_string e) rows cols).

Definition throw_spatial_3d_error (op name : str) (N C T H W rows cols : Z) : res unit :=
  let bad := (N <=? 0) || (C <=? 0) || (T <=? 0) || (H <=? 0) || (W <=? 0) in
  let dims := lit "N=" ++ to_string N ++ lit ", C=" ++ to_string C ++ lit ", T=" ++ to_string T ++
              lit ", H=" ++ to_string H ++ lit ", W=" ++ to_string W in
  if bad then Throw (dims_msg op name bad dims [] rows cols)
  else
    e ← mul64 C T; e ← mul64 e H; e ← mul64 e W;
    Throw (dims_msg op name bad dims
      (lit "N=" ++ to_string N ++ lit ", C*T*H*W=" ++ to_string C ++ lit "*" ++ to_string T ++ lit "*" ++
       to_string H ++ lit "*" ++ to_string W ++ lit "=" ++ to_string e) rows cols).

Definition throw_quant_cols_error (op name : str) (dt : Dtype) (rows cols : Z) : res unit :=
  Throw (lit "brotensor: " ++ op ++ lit ": block-quant tensor " ++ name ++ lit " (" ++ dtype_name dt ++
         lit ", rows=" ++ to_string rows ++ lit ", cols=" ++ to_string cols ++
         lit ") requires positive rows and cols with cols a multiple of block size (" ++
         to_string (dtype_block_size dt) ++ lit ")").

Definition check_spatial_1d (op : str) (t : operand) (name : str) (N C L : Z) : res unit :=
  let fail := throw_spatial_1d_error op name N C L (op_rows t) (op_cols t) in
  if (N <=? 0) || (C <=? 0) || (L <=? 0) then fail
  else
    a ← mul64 (op_rows t) (op_cols t);
    b ← mul64 N C; b ← mul64 b L;
    if negb (a =? b) then fail else mret tt.

Definition check_spatial_2d (op : str) (t : operand) (name : str) (N C H W : Z) : res unit :=
  let fail := throw_spatial_2d_error op name N C H W (op_rows t) (op_cols t) in
  if (N <=? 0) || (C <=? 0) || (H <=? 0) || (W <=? 0) then fail
  else
    a ← mul64 (op_rows t) (op_cols t);
    b ← mul64 N C; b ← mul64 b H; b ← mul64 b W;
    if negb (a =? b) then fail else mret tt.

Definition check_spatial_3d (op : str) (t : operand) (name : str) (N C T H W : Z) : res unit :=
  let fail := throw_spatial_3d_error op name N C T H W (op_rows t) (op_cols t) in
  if (N <=? 0) || (C <=? 0) || (T <=? 0) || (H <=? 0) || (W <=? 0) then fail
  else
    a ← mul64 (op_rows t) (op_cols t);
    b ← mul64 N C; b ← mul64 b T; b ← mul64 b H; b ← mul64 b W;
    if negb (a =? b) then fail else mret tt.

Definition check_quant_cols (op : str) (t : operand) (name : str) : res unit :=
  if dtype_is_quant (op_dtype t) then
    let bs := dtype_block_size (op_dtype t) in
    if (op_rows t <=? 0) || (op_cols t <=? 0) || negb (Z.rem (op_cols t) bs =? 0)
    then throw_quant_cols_error op name (op_dtype t) (op_rows t) (op_cols t)
    else mret tt
  else mret tt.

(** ** What dispatch guarantees *)

Definition agree (dev : Device) (ts : operands) : Prop :=
  forall i t, ts !! i = Some (Some t) -> committed t = true -> op_device t = dev.

(** The first operand that disagrees. *)
Definition first_mismatch (dev : Device) (ts : operands) (i : nat) (t : operand) : Prop :=
  ts !! i = Some (Some t) /\ committed t = true /\ op_device t <> dev /\ agree dev (take i ts).

Definition mismatch_msg (dev : Device) (idx : Z) (got : Device) : str :=
  lit "brotensor: dispatch: operand " ++ to_string idx ++ lit " is on " ++ device_name got ++
  lit " but the op resolved to " ++ device_name dev.

Lemma agree_cons dev o ts :
  agree dev (o :: ts) <-> (forall t, o = Some t -> committed t = true -> op_device t = dev) /\ agree dev ts.
Proof.
  unfold agree. split.
  - intros H. split; [intros t -> Ht; by apply (H 0%nat)|intros i t Hi; by apply (H (S i))].
  - intros [H1 H2] [|i] t; cbn; [by intros [= ->]; apply H1|apply H2].
Qed.

Lemma check_agree_spec dev k ts :
  match check_agree dev k ts with
  | Ret _ => agree dev ts
  | Throw m => exists i t, first_mismatch dev ts i t /\ m = mismatch_msg dev (k + Z.of_nat i) (op_device t)
  | Undef => False
  end.
Proof.
  revert k. induction ts as [|[t|] ts IH]; intros k; cbn [check_agree].
  - by intros i t.
  - destruct (committed t && negb (Dev.eqb (op_device t) dev)) eqn:E.
    + apply andb_true_iff in E as [Hc Hd]. destruct (eqb_spec (op_device t) dev); [done|].
      exists 0%nat, t. repeat split; try done. by rewrite Z.add_0_r.
    + assert (Hh : committed t = true -> op_device t = dev).
      { intros Hc. rewrite Hc in E. cbn in E. by destruct (eqb_spec (op_device t) dev). }
      specialize (IH (k + 1)). destruct (check_agree dev (k + 1) ts) as [u|m|]; [| |done].
      * apply agree_cons. split; [by intros ? [= <-]|done].
      * destruct IH as (i & u & (Hi & Hc & Hd & Ha) & ->). exists (S i), u. repeat split; try done.
        -- cbn. apply agree_cons. split; [by intros ? [= <-]|done].
        -- f_equal. lia.
  - specialize (IH (k + 1)). destruct (check_agree dev (k + 1) ts) as [u|m|]; [| |done].
    * apply agree_cons. by split.
    * destruct IH as (i & u & (Hi & Hc & Hd & Ha) & ->). exists (S i), u. repeat split; try done.
      -- cbn. apply agree_cons. by split.
      -- f_equal. lia.
Qed.

Lemma first_committed_in ts d : first_committed ts = Some d ->
  exists i t, ts !! i = Some (Some t) /\ committed t = true /\ op_device t = d.
Proof.
  induction ts as [|[t|] ts IH]; cbn; [done| |].
  - destruct (committed t) eqn:C; [intros [= <-]; by exists 0%nat, t|].
    intros (i & u & H)%IH. by exists (S i), u.
  - intros (i & u & H)%IH. by exists (S i), u.
Qed.

Lemma first_committed_none ts : first_committed ts = None ->
  forall i t, ts !! i = Some (Some t) -> committed t = false.
Proof.
  induction ts as [|[t|] ts IH]; cbn; [done| |].
  - destruct (committed t) eqn:C; [done|]. intros H [|i] u; cbn; [by intros [= <-]|by apply IH].
  - intros H [|i] u; cbn; [done|by apply IH].
Qed.

(** The device a dispatch call resolves to. *)
Definition resolved (ts : list operand) : Device :=
  match first_committed (map Some ts) with
  | Some d => d
  | None => match ts with t :: _ => op_device t | [] => Dev.CPU0 end
  end.

Lemma dispatch_v_eq rt ts :
  dispatch rt ts = (_ ← check_agree (resolved ts) 0 (map Some ts); ops_for rt (resolved ts)).
Proof. unfold dispatch, dispatch_v, resolved. by destruct ts. Qed.

(** C34: operand dispatch picks one device and never mixes two. It returns the
    table registered for a device on which every committed operand lives (the
    first committed operand's, or operand 0's tag when none is committed);
    otherwise it reports the first operand that lives elsewhere, by its index,
    or that the backend is not registered. *)
Theorem dispatch_correct rt t0 ts :
  match dispatch rt (t0 :: ts) with
  | Ret v =>
      exists dev, ops_for rt dev = Ret v /\
        (forall t, t ∈ t0 :: ts -> committed t = true -> op_device t = dev) /\
        ((exists t, t ∈ t0 :: ts /\ committed t = true /\ op_device t = dev) \/
         ((forall t, t ∈ t0 :: ts -> committed t = false) /\ dev = op_device t0))
  | Throw m =>
      (exists i t, first_mismatch (resolved (t0 :: ts)) (map Some (t0 :: ts)) i t /\
         m = mismatch_msg (resolved (t0 :: ts)) (Z.of_nat i) (op_device t)) \/
      (agree (resolved (t0 :: ts)) (map Some (t0 :: ts)) /\
       ops_for rt (resolved (t0 :: ts)) = Throw m)
  | Undef => False
  end.
Proof.
  rewrite dispatch_v_eq. pose proof (check_agree_spec (resolved (t0 :: ts)) 0 (map Some (t0 :: ts))) as H.
  destruct (check_agree _ _ _) as [u|m|]; cbn; [|by left|done].
  destruct (ops_for rt (resolved (t0 :: ts))) as [v|m|] eqn:E; [|by right|].
  - exists (resolved (t0 :: ts)). split; [done|]. split.
    + intros t Ht Hc. apply list_elem_of_lookup in Ht as [i Hi]. apply (H i); [|done].
      rewrite list_lookup_fmap, Hi. done.
    + unfold resolved in *. destruct (first_committed (map Some (t0 :: ts))) as [d|] eqn:F.
      * left. apply first_committed_in in F as (i & t & Hi & Hc & Hd). exists t.
        rewrite list_lookup_fmap in Hi. destruct ((t0 :: ts) !! i) eqn:L; [|done].
        injection Hi as ->. split; [|done]. apply list_elem_of_lookup. by exists i.
      * right. split; [|done]. intros t Ht. apply list_elem_of_lookup in Ht as [i Hi].
        apply (first_committed_none _ F i). by rewrite list_lookup_fmap, Hi.
  - unfold ops_for, slot_for in E. by destruct (rt_slots rt _).
Qed.

(** The dispatch path for ops with optional operands is the plain one: on
    at most 32 operands, the first of them required, it resolves the same
    device, reports the same mismatch and returns the same table; beyond 32 it
    refuses instead of dropping operands. *)
Theorem dispatch_with_opts_equiv rt a opts :
  dispatch_with_opts1 rt a opts =
    (if 32 <? 1 + zlen opts then throw_too_many_operands (1 + zlen opts)
     else dispatch_v rt (Some a :: opts)) /\
  forall b, dispatch_with_opts2 rt a b opts =
    (if 32 <? 2 + zlen opts then throw_too_many_operands (2 + zlen opts)
     else dispatch_v rt (Some a :: Some b :: opts)).
Proof.
  unfold dispatch_with_opts1, dispatch_with_opts2, kMaxOperands.
  split; [|intros b]; rewrite Z.gtb_ltb; by destruct (32 <? _).
Qed.

(** *** The op wrapper *)

Definition adopt_all (rt : runtime) (d : Device) (ts : list operand) (outs : list nat) : list operand :=
  foldl (fun l i => alter (fun t => adopt_output rt t d) i l) ts outs.

Lemma adopt_output_idemp rt d t : adopt_output rt (adopt_output rt t d) d = adopt_output rt t d.
Proof. unfold adopt_output. by destruct (op_committed t) eqn:C; cbn; rewrite ?C; cbn. Qed.

Lemma adopt_all_lookup rt d outs ts i :
  adopt_all rt d ts outs !! i =
    if decide (i ∈ outs) then (fun t => adopt_output rt t d) <$> ts !! i else ts !! i.
Proof.
  revert ts. induction outs as [|o outs IH]; intros ts; [done|].
  unfold adopt_all in *. cbn [foldl]. rewrite IH, list_lookup_alter.
  destruct (decide (o = i)) as [->|Hoi].
  - rewrite (decide_True (P := i ∈ i :: outs)) by by left.
    case_decide; [|done]. destruct (ts !! i) as [t|]; [|done]. cbn. by rewrite adopt_output_idemp.
  - destruct (decide (i ∈ outs)).
    + by rewrite decide_True by by right.
    + rewrite decide_False; [done|]. by intros [->|?]%elem_of_cons.
Qed.

Lemma dispatch_committed rt w ts : committed w = true ->
  match dispatch rt (w :: ts) with
  | Ret v => ops_for rt (op_device w) = Ret v /\
      forall t, t ∈ w :: ts -> committed t = true -> op_device t = op_device w
  | Throw _ => True
  | Undef => False
  end.
Proof.
  intros Hw. rewrite dispatch_v_eq.
  assert (resolved (w :: ts) = op_device w) as -> by (unfold resolved; cbn; by rewrite Hw).
  pose proof (check_agree_spec (op_device w) 0 (map Some (w :: ts))) as H.
  destruct (check_agree _ _ _) as [u|m|]; cbn [mbind res_bind]; [|done|done].
  destruct (ops_for rt (op_device w)) as [v|m|] eqn:E; [|done|].
  - split; [done|]. intros t Ht Hc. apply list_elem_of_lookup in Ht as [i Hi].
    apply (H i); [|done]. by rewrite list_lookup_fmap, Hi.
  - unfold ops_for, slot_for in E. by destruct (rt_slots rt _).
Qed.

Lemma length_adopt_all rt d outs ts : length (adopt_all rt d ts outs) = length ts.
Proof.
  revert ts. unfold adopt_all. induction outs as [|o outs IH]; intros ts; [done|].
  cbn [foldl]. by rewrite IH, length_alter.
Qed.

(** The public wrapper of an op calls the implementation its resolved
    backend registered, on operands that all allocate there: with the first
    operand committed, every output's device resolves to the same backend, a
    committed operand and every non-output is passed unchanged, and a null slot
    is an error that names the op. *)
Theorem op_wrapper_correct rt name w ts outs :
  committed w = true ->
  match op_wrapper rt name (w :: ts) outs with
  | Ret (f, args) =>
      (exists v, ops_for rt (op_device w) = Ret v /\ v name = Some f) /\
      length args = length (w :: ts) /\
      (forall i t, args !! i = Some t -> i ∈ outs ->
         resolve_device_alias rt (op_device t) = resolve_device_alias rt (op_device w)) /\
      (forall i t, (w :: ts) !! i = Some t -> i ∉ outs \/ committed t = true -> args !! i = Some t)
  | Throw m =>
      m = lit "brotensor: " ++ name ++ lit ": not implemented on " ++ device_name (op_device w) \/
      dispatch rt (w :: ts) = Throw m
  | Undef => False
  end.
Proof.
  intros Hw. cbn [op_wrapper]. pose proof (dispatch_committed rt w ts Hw) as Hd.
  destruct (dispatch rt (w :: ts)) as [v|m|]; cbn [mbind res_bind]; [|by right|done].
  destruct Hd as (Hops & Hag).
  destruct (v name) as [f|] eqn:Hf; cbn; [|by left].
  change (foldl _ (w :: ts) outs) with (adopt_all rt (op_device w) (w :: ts) outs).
  split; [by exists v|]. split; [|split].
  - by rewrite length_adopt_all.
  - intros i t Hi Ho. rewrite adopt_all_lookup, decide_True in Hi by done.
    apply fmap_Some in Hi as (u & Hu & ->). unfold adopt_output.
    destruct (op_committed u) eqn:C; cbn.
    + f_equal. apply Hag; [|done]. apply list_elem_of_lookup. by exists i.
    + apply resolve_idemp.
  - intros i t Hi Hor. rewrite adopt_all_lookup. case_decide as Ho; [|done].
    rewrite Hi. cbn. f_equal. unfold adopt_output. destruct Hor as [?|C]; [done|].
    unfold committed in C. by rewrite C.
Qed.

(** A runtime with an op on two backends, for examples. *)
Definition ex_ops (f : positive) : OpsVTable :=
  fun name => if str_eqb name (lit "linear_forward") then Some f else None.
Definition ex_rt : runtime := mkRuntime
  (fun t => match t with
            | CPU => Some (mkSlot (ex_ops 1) (IdealAlloc.table CPU))
            | Metal => Some (mkSlot (ex_ops 2) (IdealAlloc.table Metal))
            | _ => None
            end) 0 0 true Dev.CPU0 true None [].
Definition ex_tensor (c : bool) (d : Device) : operand := mkOperand c d FP32 1 1.

Lemma op_wrapper_correct_witness :
  let W := ex_tensor true Dev.CUDA0 in let x := ex_tensor true Dev.CUDA0 in
  let y := ex_tensor false Dev.CPU0 in
  linear_forward ex_rt W x x y = Ret (2%positive, [W; x; x; ex_tensor false Dev.Metal0]) /\
  exists v, ops_for ex_rt Dev.CUDA0 = Ret v /\ v (lit "linear_forward") = Some 2%positive.
Proof.
  split; [reflexivity|].
  destruct (op_wrapper_correct ex_rt (lit "linear_forward") (ex_tensor true Dev.CUDA0)
    [ex_tensor true Dev.CUDA0; ex_tensor true Dev.CUDA0; ex_tensor false Dev.CPU0] [3%nat] eq_refl)
    as ((v & Hv) & _). by exists v.
Defined.

(** The wrapper pins outputs to its first operand's device, which is the
    resolved device only when that operand is committed: with an uncommitted
    first operand tagged CPU and the others on a GPU, the GPU's implementation
    is called with an output pinned to the CPU. *)
Theorem op_wrapper_uncommitted_first :
  exists rt W b x y f args,
    committed W = false /\ committed b = true /\ committed x = true /\ committed y = false /\
    op_device b = Dev.Metal0 /\ op_device x = Dev.Metal0 /\
    linear_forward rt W b x y = Ret (f, args) /\
    (exists v, ops_for rt Dev.Metal0 = Ret v /\ v (lit "linear_forward") = Some f) /\
    exists y', args !! 3%nat = Some y' /\ op_device y' = Dev.CPU0.
Proof.
  exists ex_rt, (ex_tensor false Dev.CPU0), (ex_tensor true Dev.Metal0), (ex_tensor true Dev.Metal0),
    (ex_tensor false Dev.Metal0).
  eexists _, _. repeat split; try reflexivity; eexists; split; reflexivity.
Qed.

(** *** The dimension guards *)

Lemma mul64_ok a b : - 2 ^ 63 <= a * b < 2 ^ 63 -> mul64 a b = Ret (a * b).
Proof. intros H. unfold mul64. by rewrite (proj2 (Z.leb_le _ _)), (proj2 (Z.ltb_lt _ _)) by lia. Qed.

Lemma int_product r c : is_int r -> is_int c -> - 2 ^ 63 <= r * c < 2 ^ 63.
Proof. unfold is_int, INT_MIN, INT_MAX. nia. Qed.

(** One factor of a product of positive factors in range. *)
Lemma pos_factor_range a b : 0 < a -> 0 < b -> a * b < 2 ^ 63 -> - 2 ^ 63 <= a < 2 ^ 63.
Proof. nia. Qed.

Lemma le0_false z : 0 < z -> (z <=? 0) = false.
Proof. intros. apply Z.leb_gt. lia. Qed.

(** On positive dimensions whose product fits in 64 bits, the spatial
    guards pass exactly the tensors with that many elements, whatever the row
    split, and throw on every other, with no overflow on the way; on a
    non-positive dimension they always throw. *)
Theorem check_spatial_exact op t name :
  is_int (op_rows t) -> is_int (op_cols t) ->
  (forall N C L, 0 < N -> 0 < C -> 0 < L -> N * C * L < 2 ^ 63 ->
     if op_rows t * op_cols t =? N * C * L then check_spatial_1d op t name N C L = Ret tt
     else exists m, check_spatial_1d op t name N C L = Throw m) /\
  (forall N C H W, 0 < N -> 0 < C -> 0 < H -> 0 < W -> N * C * H * W < 2 ^ 63 ->
     if op_rows t * op_cols t =? N * C * H * W then check_spatial_2d op t name N C H W = Ret tt
     else exists m, check_spatial_2d op t name N C H W = Throw m) /\
  (forall N C T H W, 0 < N -> 0 < C -> 0 < T -> 0 < H -> 0 < W -> N * C * T * H * W < 2 ^ 63 ->
     if op_rows t * op_cols t =? N * C * T * H * W then check_spatial_3d op t name N C T H W = Ret tt
     else exists m, check_spatial_3d op t name N C T H W = Throw m) /\
  (forall N C H W, N <= 0 \/ C <= 0 \/ H <= 0 \/ W <= 0 ->
     exists m, check_spatial_2d op t name N C H W = Throw m).
Proof.
  intros Hr Hc. pose proof (int_product _ _ Hr Hc) as Hp. split; [|split; [|split]].
  - intros N C L HN HC HL Hb. unfold check_spatial_1d, throw_spatial_1d_error. rewrite !le0_false by done.
    cbn [orb]. rewrite !mul64_ok by nia. cbn [mbind res_bind]. rewrite !mul64_ok by nia. cbn [mbind res_bind].
    destruct (Z.eqb_spec (op_rows t * op_cols t) (N * C * L)); cbn; eauto.
  - intros N C H W HN HC HH HW Hb.
    assert (N * C * H < 2 ^ 63) by nia. assert (N * C < 2 ^ 63) by nia.
    assert (C * H * W < 2 ^ 63) by (replace (N * C * H * W) with (N * (C * H * W)) in Hb by ring; nia).
    assert (C * H < 2 ^ 63) by nia.
    unfold check_spatial_2d, throw_spatial_2d_error. rewrite !le0_false by done. cbn [orb].
    rewrite !(mul64_ok _ _) by nia. cbn [mbind res_bind]. rewrite !mul64_ok by nia. cbn [mbind res_bind].
    rewrite !mul64_ok by nia. cbn [mbind res_bind].
    destruct (Z.eqb_spec (op_rows t * op_cols t) (N * C * H * W)); cbn; eauto.
  - intros N C T H W HN HC HT HH HW Hb.
    assert (N * C * T * H < 2 ^ 63) by nia. assert (N * C * T < 2 ^ 63) by nia. assert (N * C < 2 ^ 63) by nia.
    assert (C * T * H * W < 2 ^ 63) by (replace (N * C * T * H * W) with (N * (C * T * H * W)) in Hb by ring; nia).
    assert (C * T * H < 2 ^ 63) by nia. assert (C * T < 2 ^ 63) by nia.
    unfold check_spatial_3d, throw_spatial_3d_error. rewrite !le0_false by done. cbn [orb].
    rewrite !(mul64_ok _ _) by nia. cbn [mbind res_bind]. rewrite !mul64_ok by nia. cbn [mbind res_bind].
    rewrite !mul64_ok by nia. cbn [mbind res_bind]. rewrite !mul64_ok by nia. cbn [mbind res_bind].
    destruct (Z.eqb_spec (op_rows t * op_cols t) (N * C * T * H * W)); cbn; eauto.
  - intros N C H W Hd. unfold check_spatial_2d, throw_spatial_2d_error.
    destruct ((N <=? 0) || (C <=? 0) || (H <=? 0) || (W <=? 0)) eqn:E; [by eauto|].
    bool_facts. lia.
Qed.

Lemma check_spatial_exact_witness :
  let t := mkOperand true Dev.CPU0 FP32 2 60 in
  check_spatial_2d (lit "conv2d") t (lit "X") 2 3 4 5 = Ret tt /\
  exists m, check_spatial_2d (lit "conv2d") t (lit "X") 2 3 4 6 = Throw m.
Proof.
  intros t.
  destruct (check_spatial_exact (lit "conv2d") t (lit "X")) as (_ & H & _);
    [unfold is_int, INT_MIN, INT_MAX; cbn; lia..|].
  split; [apply (H 2 3 4 5); lia|apply (H 2 3 4 6); lia].
Defined.

(** The guard's own arithmetic is not guarded: for dimensions whose
    product leaves 64 bits the multiplication overflows before any error can
    be reported. *)
Theorem check_spatial_2d_overflows op t name :
  is_int (op_rows t) -> is_int (op_cols t) ->
  check_spatial_2d op t name 65536 65536 65536 65536 = Undef.
Proof.
  intros Hr Hc. unfold check_spatial_2d. rewrite !le0_false by lia. cbn [orb].
  rewrite (mul64_ok (op_rows t) (op_cols t)) by (by apply int_product). reflexivity.
Qed.

Lemma check_spatial_2d_overflows_witness :
  check_spatial_2d (lit "conv2d") (ex_tensor true Dev.CPU0) (lit "X") 65536 65536 65536 65536 = Undef.
Proof. apply check_spatial_2d_overflows; unfold is_int, INT_MIN, INT_MAX; cbn; lia. Defined.
End Dispatch.
