(* ===== verification/Init.v ===== *)
(** * Initialisation, the default device and device scopes

    src/init.cpp over the registry of Runtime.v. One thread's view: the
    process-wide variables and that thread's [thread_local] ones. The backend
    probes (src/cuda/init.cu, src/metal/init.mm, src/vulkan/register.cpp, one
    per backend compiled in) are parameters: computations on the runtime that
    may throw. *)
From S2P Require Import Prelude Dtype Device Heap Runtime.
Import Registry.

(** ** The environment variable *)

(** [std::atoi]: white space, a sign, digits; a value outside [int] is
    undefined. *)
Definition is_space (b : byte) : bool := (bz b =? 32) || ((9 <=? bz b) && (bz b <=? 13)).

Fixpoint skip_space (s : str) : str :=
  match s with
  | b :: r => if is_space b then skip_space r else s
  | [] => []
  end.

Definition atoi (s : str) : res Z :=
  let '(neg, s) :=
    match skip_space s with
    | b :: r => if b =b "-"%byte then (true, r) else if b =b "+"%byte then (false, r) else (false, b :: r)
    | [] => (false, [])
    end in
  let v := digits_val 0 (split_digits s).1 in
  let v := if neg : bool then - v else v in
  if (INT_MIN <=? v) && (v <=? INT_MAX) then Ret v else Undef.

(** The ASCII lower-casing loop of [parse_env_device]. *)
Definition lower_byte (c : byte) : byte :=
  if (65 <=? bz c) && (bz c <=? 90) then zb (bz c + 32) else c.

(** [s.rfind(p, 0) == 0]. *)
Fixpoint starts_with (p s : str) : bool :=
  match p, s with
  | [], _ => true
  | a :: p', b :: s' => (a =b b) && starts_with p' s'
  | _ :: _, [] => false
  end.

(** The loop over the two Vulkan prefixes. *)
Fixpoint parse_vulkan_prefix (pfx : list str) (s : str) : res (option Device) :=
  match pfx with
  | [] => Ret None
  | p :: r =>
      if str_eqb s p then Ret (Some (Dev.vulkan 0))
      else if starts_with (p ++ lit ":") s
      then i ← atoi (drop (length p + 1) s); Ret (Some (Dev.vulkan i))
      else parse_vulkan_prefix r s
  end.

(** [parse_env_device]: [env] is what [getenv] gives. *)
Definition parse_env_device (env : option str) : res (option Device) :=
  match env with
  | None => Ret None
  | Some e =>
      let s := map lower_byte e in
      if str_eqb s (lit "cpu") then Ret (Some Dev.cpu)
      else if str_eqb s (lit "cuda") || str_eqb s (lit "cuda:0") then Ret (Some (Dev.cuda 0))
      else if starts_with (lit "cuda:") s then i ← atoi (drop 5 s); Ret (Some (Dev.cuda i))
      else
        v ← parse_vulkan_prefix [lit "vulkan"; lit "vk"] s;
        match v with
        | Some d => Ret (Some d)
        | None =>
            if str_eqb s (lit "metal") || str_eqb s (lit "metal:0") then Ret (Some (Dev.metal 0))
            else if starts_with (lit "metal:") s then i ← atoi (drop 6 s); Ret (Some (Dev.metal i))
            else Ret None
        end
  end.

(** ** Initialisation *)

(** [try { probe(); } catch (...) {}] *)
Definition swallow {S} (m : st S unit) : st S unit := fun s =>
  match m s with
  | (Throw _, s') => (Ret tt, s')
  | r => r
  end.

Fixpoint run_probes (probes : list (st runtime unit)) : st runtime unit :=
  match probes with
  | [] => mret tt
  | p :: r => _ ← swallow p; run_probes r
  end.

Definition init (probes : list (st runtime unit)) (env : option str) : st runtime unit :=
  done_ ← st_gets rt_init_done;
  if done_ : bool then mret tt
  else
    _ ← run_probes probes;
    set_ ← st_gets rt_default_set;
    _ ← (if negb set_ then
           e ← st_lift (parse_env_device env);
           rt ← st_get;
           match e with
           | Some envd =>
               let want := resolve_device_alias rt envd in
               if is_registered rt want then st_mod (fun rt => with_default rt want)
               else st_mod (fun rt => with_default rt (pick_default_from_available rt))
           | None => st_mod (fun rt => with_default rt (pick_default_from_available rt))
           end
         else mret tt);
    st_mod (fun rt => with_init_done rt true).

(** [compute_dtype(Device)] and [compute_dtype()]. *)
Definition compute_dtype (d : Device) : Dtype := if Dev.is_cpu d then FP32 else FP16.
Definition compute_dtype_default (rt : runtime) : Dtype := compute_dtype (default_device rt).

Definition not_available {A} (what : string) (d : Device) : res A :=
  Throw (lit "brotensor: " ++ lit what ++ lit ": backend " ++ device_name d ++ lit " is not available").

Definition set_default_device (d : Device) : st runtime unit :=
  rt ← st_get;
  let d := resolve_device_alias rt d in
  if negb (is_registered rt d) then st_lift (not_available "set_default_device" d)
  else st_mod (fun rt => with_default rt d).

Fixpoint seqZ_from (i : Z) (n : nat) : list Z :=
  match n with O => [] | S k => i :: seqZ_from (i + 1) k end.

Definition available_devices (rt : runtime) : list Device :=
  (if is_registered rt Dev.CPU0 then [Dev.CPU0] else []) ++
  (if is_registered rt Dev.CUDA0 then
     let count := cuda_device_count rt in
     let count := if count <=? 0 then 1 else count in
     map Dev.cuda (seqZ_from 0 (Z.to_nat count))
   else []) ++
  (if is_registered rt Dev.Metal0 then [Dev.Metal0] else []) ++
  List.filter (is_registered rt) (map Dev.vulkan (seqZ_from 0 (Z.to_nat (vulkan_device_count rt)))).

Definition is_available (rt : runtime) (d : Device) : bool := is_registered rt d.

(** ** [DeviceScope]

    The constructor yields the object, whose only member is [prev_]. *)
Definition DeviceScope_ctor (d : Device) : st runtime Device :=
  rt ← st_get;
  let d := resolve_device_alias rt d in
  if negb (is_registered rt d) then st_lift (not_available "DeviceScope" d)
  else
    match rt_scope_override rt with
    | Some p =>
        _ ← st_mod (fun rt => with_scope rt (Some d) (true :: rt_scope_had_prev rt));
        mret p
    | None =>
        _ ← st_mod (fun rt => with_scope rt (Some d) (false :: rt_scope_had_prev rt));
        mret Dev.CPU0
    end.

Definition DeviceScope_dtor (prev_ : Device) : st runtime unit :=
  st_mod (fun rt =>
    let had := match rt_scope_had_prev rt with [] => false | h :: _ => h end in
    with_scope rt (if had : bool then Some prev_ else None) (tl (rt_scope_had_prev rt))).

(** A block with a [DeviceScope] local: the destructor runs on the way out of
    the block, whether the body returns or throws. *)
Definition in_scope {A} (d : Device) (body : st runtime A) : st runtime A :=
  prev_ ← DeviceScope_ctor d;
  with_dtor body (DeviceScope_dtor prev_).

(** ** Synchronisation and memory queries *)

Definition sync (rt : runtime) (d : Device) : st heap unit :=
  let d := resolve_device_alias rt d in
  if negb (is_registered rt d) then st_lift (not_available "sync" d)
  else t ← st_lift (alloc_for rt d); vt_sync t (dev_index d).

Fixpoint sync_each (rt : runtime) (ds : list Device) : st heap unit :=
  match ds with
  | [] => mret tt
  | d :: r => t ← st_lift (alloc_for rt d); _ ← vt_sync t (dev_index d); sync_each rt r
  end.

Definition sync_all (rt : runtime) : st heap unit := sync_each rt (available_devices rt).

Definition idle (rt : runtime) (d : Device) : st heap bool :=
  let d := resolve_device_alias rt d in
  if negb (is_registered rt d) then mret true
  else
    t ← st_lift (alloc_for rt d);
    match vt_idle t with
    | Some f => f (dev_index d)
    | None => _ ← vt_sync t (dev_index d); mret true
    end.

(** The out-parameters are the result of a [true]. *)
Definition device_mem_info (rt : runtime) (d : Device) : res (option (Z * Z)) :=
  let d := resolve_device_alias rt d in
  if negb (is_registered rt d) then mret None
  else
    t ← alloc_for rt d;
    match vt_mem_info t with None => mret None | Some fn => mret (fn (dev_index d)) end.

Definition device_mem_trim (rt : runtime) (d : Device) (keep_bytes : Z) : res bool :=
  let d := resolve_device_alias rt d in
  if negb (is_registered rt d) then mret false
  else
    t ← alloc_for rt d;
    match vt_mem_trim t with None => mret false | Some fn => mret (fn keep_bytes (dev_index d)) end.

Definition device_product_name (rt : runtime) (d : Device) : res str :=
  let d := resolve_device_alias rt d in
  if negb (is_registered rt d) then mret []
  else
    t ← alloc_for rt d;
    match vt_device_name t with
    | None => mret []
    | Some fn => mret (default [] (fn (dev_index d)))
    end.

(** ** The environment variable names every device *)

Lemma starts_with_app p r : starts_with p (p ++ r) = true.
Proof. induction p as [|a p IH]; cbn; [done|]. by rewrite beq_refl. Qed.

Lemma lower_byte_id c : negb ((65 <=? bz c) && (bz c <=? 90)) = true -> lower_byte c = c.
Proof. unfold lower_byte. intros ->%negb_true_iff. done. Qed.

Lemma lower_digits s : Forall (fun b => is_digit b = true) s -> map lower_byte s = s.
Proof.
  induction 1 as [|b s Hb _ IH]; cbn; [done|]. rewrite IH, lower_byte_id; [done|].
  unfold is_digit in Hb. bool_facts. apply negb_true_iff, andb_false_iff. rewrite !Z.leb_gt. lia.
Qed.

Lemma lower_to_string i : map lower_byte (to_string i) = to_string i.
Proof.
  unfold to_string. destruct (Z.ltb_spec i 0); cbn [map]; rewrite lower_digits; try done;
    apply to_dec_spec; lia.
Qed.

Lemma digit_not_space b : is_digit b = true -> is_space b = false.
Proof.
  unfold is_digit, is_space. intros H. bool_facts. apply orb_false_iff. split; [lia|].
  apply andb_false_iff. rewrite !Z.leb_gt. lia.
Qed.

Lemma split_digits_all s : Forall (fun b => is_digit b = true) s -> split_digits s = (s, []).
Proof. intros H. rewrite <- (app_nil_r s) at 1. by apply split_digits_app. Qed.

(** [atoi] reads back what [to_string] prints. *)
Lemma atoi_to_string i : is_int i -> atoi (to_string i) = Ret i.
Proof.
  unfold is_int, to_string, INT_MIN, INT_MAX. intros Hi. destruct (Z.ltb_spec i 0) as [Hn|Hn].
  - destruct (to_dec_spec (- i)) as (Hd & _ & Hv); [lia|]. unfold atoi.
    change (skip_space ("-"%byte :: to_dec (- i))) with ("-"%byte :: to_dec (- i)).
    cbv iota. rewrite beq_refl, split_digits_all by done. cbn [fst]. rewrite Hv, Z.opp_involutive.
    unfold INT_MIN, INT_MAX. by rewrite !(proj2 (Z.leb_le _ _)) by lia.
  - destruct (to_dec_spec i) as (Hd & Hne & Hv); [lia|]. unfold atoi.
    destruct (to_dec i) as [|b r] eqn:E; [done|]. pose proof (Forall_inv Hd) as Hb.
    cbn [skip_space]. rewrite (digit_not_space b) by done.
    assert ((b =b "-"%byte) = false) as ->.
    { apply beq_false. intros ->. done. }
    assert ((b =b "+"%byte) = false) as ->.
    { apply beq_false. intros ->. done. }
    rewrite split_digits_all by done. cbn [fst]. rewrite Hv.
    unfold INT_MIN, INT_MAX. by rewrite !(proj2 (Z.leb_le _ _)) by lia.
Qed.

Lemma to_string_zero i : is_int i -> to_string i = lit "0" -> i = 0.
Proof.
  intros Hi H. pose proof (atoi_to_string i Hi) as A. rewrite H in A.
  change (Ret 0 = Ret i) in A. congruence.
Qed.

Lemma lower_byte_idemp c : lower_byte (lower_byte c) = lower_byte c.
Proof.
  destruct ((65 <=? bz c) && (bz c <=? 90)) eqn:E.
  - apply lower_byte_id. unfold lower_byte. rewrite E. bool_facts.
    rewrite bz_zb by (pose proof (bz_range c); lia).
    apply negb_true_iff, andb_false_iff. rewrite !Z.leb_gt. lia.
  - assert (lower_byte c = c) as H by (unfold lower_byte; by rewrite E). by rewrite !H.
Qed.

Lemma parse_env_lower s : parse_env_device (Some (map lower_byte s)) = parse_env_device (Some s).
Proof.
  unfold parse_env_device. rewrite map_map.
  by rewrite (map_ext (fun c => lower_byte (lower_byte c)) lower_byte lower_byte_idemp).
Qed.

(** A literal that the tested string is not. *)
Ltac str_ne :=
  match goal with
  | |- context [str_eqb ?a ?b] =>
      destruct (str_eqb_spec a b) as [?Heq|_]; [exfalso; first [discriminate | injection Heq; done]|]
  end.

Ltac parse_env_tac t Ht :=
  unfold parse_env_device, parse_vulkan_prefix; rewrite map_app, Ht;
  match goal with |- context [map lower_byte (lit ?l)] => change (map lower_byte (lit l)) with (lit l) end;
  repeat str_ne; first [reflexivity | cbn -[atoi]; rewrite drop_0; destruct (atoi t); reflexivity].

Section Prefixes.
Context (t : str) (Ht : map lower_byte t = t) (Hne : t <> []) (H0 : t <> lit "0").

Lemma parse_env_cuda : parse_env_device (Some (lit "cuda:" ++ t)) = (i ← atoi t; Ret (Some (Dev.cuda i))).
Proof. parse_env_tac t Ht. Qed.
Lemma parse_env_vulkan : parse_env_device (Some (lit "vulkan:" ++ t)) = (i ← atoi t; Ret (Some (Dev.vulkan i))).
Proof. parse_env_tac t Ht. Qed.
Lemma parse_env_metal : parse_env_device (Some (lit "metal:" ++ t)) = (i ← atoi t; Ret (Some (Dev.metal i))).
Proof. parse_env_tac t Ht. Qed.
End Prefixes.

(** The environment variable BROTENSOR_DEFAULT_DEVICE accepts the name
    [device_name] prints for any device (any [int] index; the CPU has only
    index 0), in capitals or not: the name is parsed back to the device. *)
Theorem parse_env_device_name d :
  is_int (dev_index d) -> (dev_type d = CPU -> dev_index d = 0) ->
  parse_env_device (Some (device_name d)) = Ret (Some d) /\
  parse_env_device (Some (map lower_byte (device_name d))) = Ret (Some d).
Proof.
  intros Hi Hc. rewrite <- parse_env_lower.
  cut (parse_env_device (Some (map lower_byte (device_name d))) = Ret (Some d)); [done|].
  all: destruct d as [ty i]; cbn [dev_type dev_index] in *.
  all: assert (Ht := lower_to_string i).
  all: assert (H0 : i <> 0 -> to_string i <> lit "0") by eauto using to_string_zero.
  all: destruct ty; [by rewrite Hc|..]; unfold device_name; cbn -[to_string lit parse_env_device map].
  all: destruct (Z.eqb_spec i 0) as [->|Hne]; [done|].
  all: unfold Dev.is_cpu, Dev.is_cuda, Dev.is_metal, Dev.is_vulkan, Dev.is_type.
  all: cbn [dev_type]; repeat case_bool_decide; try done; rewrite map_app, Ht.
  all: first [ change (map lower_byte (lit "CUDA:")) with (lit "cuda:"); rewrite parse_env_cuda by auto
             | change (map lower_byte (lit "Metal:")) with (lit "metal:"); rewrite parse_env_metal by auto
             | change (map lower_byte (lit "vulkan:")) with (lit "vulkan:"); rewrite parse_env_vulkan by auto ].
  all: by rewrite atoi_to_string.
Qed.

Lemma parse_env_device_name_witness :
  parse_env_device (Some (lit "CUDA:-3")) = Ret (Some (Dev.cuda (-3))).
Proof.
  apply (parse_env_device_name (Dev.cuda (-3))); [unfold is_int, INT_MIN, INT_MAX; cbn; lia|done].
Defined.

(** ** The device list *)

Lemma seqZ_from_in i n k : k ∈ seqZ_from i n <-> i <= k < i + Z.of_nat n.
Proof.
  revert i. induction n as [|n IH]; intros i; cbn [seqZ_from].
  - split; [by intros ?%elem_of_nil|lia].
  - rewrite elem_of_cons, IH. lia.
Qed.

Lemma seqZ_from_nodup i n : NoDup (seqZ_from i n).
Proof.
  revert i. induction n as [|n IH]; intros i; cbn [seqZ_from]; constructor; [|done].
  rewrite seqZ_from_in. lia.
Qed.

Lemma is_registered_slot rt d : is_registered rt d = true -> slot_registered rt (dev_type d) = true.
Proof.
  unfold is_registered, Dev.is_cpu, Dev.is_cuda, Dev.is_metal, Dev.is_vulkan, Dev.is_type.
  destruct d as [[] i]; cbn [dev_type]; repeat case_bool_decide; try done;
    destruct (slot_registered rt _); done.
Qed.

Lemma range_test i n : (i >=? 0) && (i <? n) = true <-> 0 <= i < n.
Proof. rewrite andb_true_iff, Z.geb_le, Z.ltb_lt. tauto. Qed.

Lemma is_registered_cuda rt i : is_registered rt (Dev.cuda i) = true <->
  slot_registered rt CUDA = true /\ 0 <= i < (if rt_cuda_count rt <=? 0 then 1 else rt_cuda_count rt).
Proof.
  rewrite <- range_test. change (is_registered rt (Dev.cuda i)) with
    (if negb (slot_registered rt CUDA) then false
     else (i >=? 0) && (i <? (if rt_cuda_count rt <=? 0 then 1 else rt_cuda_count rt))).
  destruct (slot_registered rt CUDA); cbn [negb]; intuition discriminate.
Qed.

Lemma is_registered_vulkan rt i : is_registered rt (Dev.vulkan i) = true <->
  slot_registered rt VULKAN = true /\ 0 <= i < rt_vulkan_count rt.
Proof.
  rewrite <- range_test. change (is_registered rt (Dev.vulkan i)) with
    (if negb (slot_registered rt VULKAN) then false else (i >=? 0) && (i <? rt_vulkan_count rt)).
  destruct (slot_registered rt VULKAN); cbn [negb]; intuition discriminate.
Qed.

Lemma is_registered_metal rt i : is_registered rt (Dev.metal i) = true <->
  slot_registered rt Metal = true /\ i = 0.
Proof.
  change (is_registered rt (Dev.metal i)) with (slot_registered rt Metal && (i =? 0)).
  by rewrite andb_true_iff, Z.eqb_eq.
Qed.

Lemma available_parts rt d : d ∈ available_devices rt <->
  (is_registered rt Dev.CPU0 = true /\ d = Dev.CPU0) \/
  (exists i, is_registered rt (Dev.cuda i) = true /\ d = Dev.cuda i) \/
  (is_registered rt Dev.Metal0 = true /\ d = Dev.Metal0) \/
  (exists i, is_registered rt (Dev.vulkan i) = true /\ d = Dev.vulkan i).
Proof.
  unfold available_devices. rewrite !elem_of_app.
  assert (H1 : forall (b : bool) (x : Device), d ∈ (if b then [x] else []) <-> b = true /\ d = x).
  { intros [] x; rewrite ?list_elem_of_singleton, ?elem_of_nil; intuition discriminate. }
  rewrite !H1. apply or_iff_compat_l.
  assert (H2 : d ∈ (if is_registered rt Dev.CUDA0 then
     map Dev.cuda (seqZ_from 0 (Z.to_nat (if cuda_device_count rt <=? 0 then 1 else cuda_device_count rt)))
     else []) <-> exists i, is_registered rt (Dev.cuda i) = true /\ d = Dev.cuda i).
  { assert (Hc : is_registered rt Dev.CUDA0 = true <-> slot_registered rt CUDA = true).
    { change Dev.CUDA0 with (Dev.cuda 0). rewrite is_registered_cuda. destruct (Z.leb_spec (rt_cuda_count rt) 0); intuition lia. }
    destruct (is_registered rt Dev.CUDA0).
    - rewrite list_elem_of_fmap. split; intros (i & H); exists i.
      + destruct H as [-> H%seqZ_from_in]. split; [|done]. apply is_registered_cuda.
        split; [by apply Hc|]. unfold cuda_device_count in H. revert H. destruct (Z.leb_spec (rt_cuda_count rt) 0); intros; lia.
      + destruct H as [H%is_registered_cuda ->]. split; [done|]. apply seqZ_from_in.
        unfold cuda_device_count. destruct (Z.leb_spec (rt_cuda_count rt) 0); lia.
    - rewrite elem_of_nil. split; [done|]. intros (i & [H _]%is_registered_cuda & _). by apply Hc in H. }
  cbv zeta. rewrite H2. apply or_iff_compat_l, or_iff_compat_l.
  rewrite list_elem_of_In, filter_In, <- list_elem_of_In, list_elem_of_fmap.
  split.
  - intros [(i & -> & Hi) Hr]. by exists i.
  - intros (i & Hr & ->). split; [|done]. exists i. split; [done|]. apply seqZ_from_in.
    apply is_registered_vulkan in Hr. unfold vulkan_device_count. lia.
Qed.

Lemma NoDup_app_disj {A} (P : A -> Prop) (l k : list A) :
  NoDup l -> NoDup k -> (forall x, x ∈ l -> P x) -> (forall x, x ∈ k -> ~ P x) -> NoDup (l ++ k).
Proof. intros Hl Hk H1 H2. apply NoDup_app. split; [done|]. split; [|done]. intros x Hx Hx'. by apply (H2 x), H1. Qed.

Lemma NoDup_numbered (mk : Z -> Device) n : (forall i j, mk i = mk j -> i = j) -> NoDup (map mk (seqZ_from 0 n)).
Proof. intros Hinj. apply NoDup_fmap_2; [done|apply seqZ_from_nodup]. Qed.

Lemma numbered_type (mk : Z -> Device) t n x :
  (forall i, dev_type (mk i) = t) -> x ∈ map mk (seqZ_from 0 n) -> dev_type x = t.
Proof. by intros Ht (i & -> & _)%list_elem_of_fmap. Qed.

Lemma NoDup_cond (b : bool) (d : Device) l : NoDup l -> (forall x, x ∈ l -> dev_type x <> dev_type d) ->
  NoDup ((if b then [d] else []) ++ l).
Proof.
  intros Hl Hd. destruct b; [|done]. apply NoDup_cons. split; [|done]. intros Hin. by apply (Hd d).
Qed.

Lemma available_nodup rt : NoDup (available_devices rt).
Proof.
  unfold available_devices. cbv zeta.
  set (n := Z.to_nat (vulkan_device_count rt)). set (m := Z.to_nat (if _ : bool then 1 else _)).
  assert (Hv : forall x, x ∈ List.filter (is_registered rt) (map Dev.vulkan (seqZ_from 0 n)) -> dev_type x = VULKAN).
  { intros x [Hx _]%list_elem_of_In%filter_In. apply (numbered_type Dev.vulkan VULKAN n); [done|].
    by apply list_elem_of_In. }
  assert (Hc : forall x b, x ∈ (if b : bool then map Dev.cuda (seqZ_from 0 m) else []) -> dev_type x = CUDA).
  { intros x [] Hx; [|by apply elem_of_nil in Hx]. by apply (numbered_type Dev.cuda CUDA m). }
  assert (Hm : forall x (b : bool), x ∈ (if b then [Dev.Metal0] else []) -> dev_type x = Metal).
  { intros x [] Hx; [by apply list_elem_of_singleton in Hx as ->|by apply elem_of_nil in Hx]. }
  apply NoDup_cond.
  - apply (NoDup_app_disj (fun x => dev_type x = CUDA)).
    + case_match; [|constructor]. apply NoDup_numbered. by intros i j [= ->].
    + apply NoDup_cond; [|by intros x ->%Hv].
      apply NoDup_ListNoDup, List.NoDup_filter, NoDup_ListNoDup, NoDup_numbered. by intros i j [= ->].
    + intros x Hx. by apply Hc in Hx.
    + intros x [Hx%Hm|Hx%Hv]%elem_of_app; congruence.
  - intros x [Hx%Hc|[Hx%Hm|Hx%Hv]%elem_of_app]%elem_of_app; by rewrite Hx.
Qed.

(** The device list is exact: a device is listed if and only if it is
    registered (the CPU under its index 0), no device is listed twice, and the
    list agrees with [is_available]. *)
Theorem available_devices_exact rt :
  (forall d, d ∈ available_devices rt <->
     is_available rt d = true /\ (dev_type d = CPU -> d = Dev.CPU0)) /\
  NoDup (available_devices rt).
Proof.
  split.
  - intros d. rewrite available_parts. unfold is_available. split.
    + intros [[? ->]|[(i & ? & ->)|[[? ->]|(i & ? & ->)]]]; by split.
    + intros [Hr Hc]. destruct d as [[] i]; cbn in Hc.
      * left. rewrite Hc in * by done. done.
      * right. left. by exists i.
      * right. right. left. pose proof Hr as Hm. apply is_registered_metal in Hm as [_ ->]. done.
      * right. right. right. by exists i.
  - apply available_nodup.
Qed.

(** ** Scopes restore the default device *)

(** A computation that leaves the scope variables as it found them, however
    it ends. *)
Definition balanced {A} (m : st runtime A) : Prop :=
  forall rt, match m rt with
             | (Undef, _) => True
             | (_, rt') => rt_scope_override rt' = rt_scope_override rt /\
                           rt_scope_had_prev rt' = rt_scope_had_prev rt
             end.

(** The entered scope's runtime. *)
Definition scoped (rt : runtime) (d : Device) : runtime :=
  with_scope rt (Some d) (bool_decide (is_Some (rt_scope_override rt)) :: rt_scope_had_prev rt).

Lemma ctor_registered rt d : is_registered rt (resolve_device_alias rt d) = true ->
  DeviceScope_ctor d rt =
    (Ret (default Dev.CPU0 (rt_scope_override rt)), scoped rt (resolve_device_alias rt d)).
Proof.
  intros H. unfold DeviceScope_ctor, scoped, mbind, st_bind, st_get. rewrite H. cbn [negb].
  by destruct (rt_scope_override rt).
Qed.

Lemma ctor_unregistered rt d : is_registered rt (resolve_device_alias rt d) = false ->
  DeviceScope_ctor d rt = (not_available "DeviceScope" (resolve_device_alias rt d), rt).
Proof. intros H. unfold DeviceScope_ctor, mbind, st_bind, st_get. by rewrite H. Qed.

(** The destructor of the innermost scope. *)
Lemma dtor_scoped rt rt' d :
  rt_scope_override rt' = rt_scope_override (scoped rt d) ->
  rt_scope_had_prev rt' = rt_scope_had_prev (scoped rt d) ->
  DeviceScope_dtor (default Dev.CPU0 (rt_scope_override rt)) rt' =
    (Ret tt, with_scope rt' (rt_scope_override rt) (rt_scope_had_prev rt)).
Proof.
  intros _ H. unfold DeviceScope_dtor, st_mod. rewrite H. cbn.
  by destruct (rt_scope_override rt).
Qed.

(** A [DeviceScope] is well bracketed. On an unregistered device its
    constructor throws and changes nothing. On a registered one the body runs
    with that device as the default, and when the body returns or throws the
    override and the scope stack are again what they were before the scope,
    everything else is as the body left it, and the body's outcome is kept. *)
Theorem device_scope_restores {A} d (body : st runtime A) rt :
  balanced body ->
  let d' := resolve_device_alias rt d in
  if is_registered rt d' then
    default_device (scoped rt d') = d' /\
    match body (scoped rt d') with
    | (Undef, rt1) => in_scope d body rt = (Undef, rt1)
    | (r, rt1) => in_scope d body rt =
        (r, with_scope rt1 (rt_scope_override rt) (rt_scope_had_prev rt))
    end
  else in_scope d body rt = (not_available "DeviceScope" d', rt).
Proof.
  intros Hb. cbv zeta. destruct (is_registered rt (resolve_device_alias rt d)) eqn:E.
  - split; [done|]. unfold in_scope, mbind, st_bind. rewrite (ctor_registered rt d E). unfold with_dtor.
    specialize (Hb (scoped rt (resolve_device_alias rt d))).
    destruct (body (scoped rt (resolve_device_alias rt d))) as [[a|m|] rt1]; [| |done];
      destruct Hb as [H1 H2]; by rewrite (dtor_scoped rt rt1 _ H1 H2).
  - unfold in_scope, mbind, st_bind. by rewrite (ctor_unregistered rt d E).
Qed.

Lemma device_scope_restores_witness :
  let rt := mkRuntime (fun t => match t with CPU => Some (mkSlot (fun _ => None) (IdealAlloc.table CPU)) | _ => None end)
              0 0 true Dev.CPU0 true None [] in
  in_scope Dev.cpu (st_throw (lit "x") : st runtime unit) rt = (Throw (lit "x"), rt).
Proof.
  intros rt. apply (device_scope_restores Dev.cpu (st_throw (lit "x")) rt). by intros s.
Defined.

(** ** The default device is always one that is there *)

Definition registry_le (rt rt' : runtime) : Prop :=
  forall d, is_registered rt d = true -> is_registered rt' d = true.

(** What a probe does: register what it finds, or throw; it touches nothing of
    src/init.cpp. *)
Definition probe_ok (p : st runtime unit) : Prop :=
  forall rt, defined (p rt).1 /\ registry_le rt (p rt).2 /\
    let rt' := (p rt).2 in
    rt_init_done rt' = rt_init_done rt /\
    rt_default rt' = rt_default rt /\ rt_default_set rt' = rt_default_set rt /\
    rt_scope_override rt' = rt_scope_override rt /\ rt_scope_had_prev rt' = rt_scope_had_prev rt.

Section Reach.
Context (probes : list (st runtime unit)) (env : option str).

(** A thread's state: the runtime and the [prev_] of its live scopes,
    innermost first. *)
Inductive step : runtime * list Device -> runtime * list Device -> Prop :=
  | step_register rt l t ops alloc : step (rt, l) (register_backend t ops alloc rt, l)
  | step_init rt l : step (rt, l) ((init probes env rt).2, l)
  | step_set_default rt l d : step (rt, l) ((set_default_device d rt).2, l)
  | step_enter rt l d p rt' : DeviceScope_ctor d rt = (Ret p, rt') -> step (rt, l) (rt', p :: l)
  | step_enter_throws rt l d m rt' : DeviceScope_ctor d rt = (Throw m, rt') -> step (rt, l) (rt', l)
  | step_exit rt l p : step (rt, p :: l) ((DeviceScope_dtor p rt).2, l).

(** The program starts with the CPU backend registered (src/cpu/register.cpp
    is a static initialiser) and nothing chosen. *)
Definition initial (s : runtime * list Device) : Prop :=
  slot_registered s.1 CPU = true /\ rt_init_done s.1 = false /\ rt_default_set s.1 = false /\
  rt_scope_override s.1 = None /\ rt_scope_had_prev s.1 = [] /\ s.2 = [].

Definition inv_ok (s : runtime * list Device) : Prop :=
  let rt := s.1 in
  slot_registered rt CPU = true /\
  (rt_default_set rt = true -> is_registered rt (rt_default rt) = true) /\
  (forall d, rt_scope_override rt = Some d -> is_registered rt d = true) /\
  length (rt_scope_had_prev rt) = length s.2 /\
  (forall i p, s.2 !! i = Some p -> rt_scope_had_prev rt !! i = Some true -> is_registered rt p = true).

Lemma registry_le_refl rt : registry_le rt rt.
Proof. by intros d. Qed.

Lemma registry_le_cpu rt rt' : registry_le rt rt' -> slot_registered rt CPU = true -> slot_registered rt' CPU = true.
Proof. intros H Hc. apply (H Dev.CPU0). done. Qed.

Lemma inv_mono rt rt' l : registry_le rt rt' ->
  rt_default rt' = rt_default rt -> rt_default_set rt' = rt_default_set rt ->
  rt_scope_override rt' = rt_scope_override rt -> rt_scope_had_prev rt' = rt_scope_had_prev rt ->
  inv_ok (rt, l) -> inv_ok (rt', l).
Proof.
  intros Hle E1 E2 E3 E4 (Hc & Hd & Ho & Hl & Hs). unfold inv_ok. cbn in *. rewrite E1, E2, E3, E4.
  repeat split; eauto using registry_le_cpu.
Qed.

Lemma register_le rt t ops alloc : registry_le rt (register_backend t ops alloc rt).
Proof.
  intros d. destruct d as [[] i]; cbn [register_backend]; unfold registry_le.
  - unfold is_registered, slot_registered. cbn. by case_decide.
  - change (mkDevice CUDA i) with (Dev.cuda i). rewrite !is_registered_cuda.
    unfold slot_registered. cbn -[Z.leb]. by case_decide; intros [? ?].
  - change (mkDevice Metal i) with (Dev.metal i). rewrite !is_registered_metal.
    unfold slot_registered. cbn. by case_decide; intros [? ?].
  - change (mkDevice VULKAN i) with (Dev.vulkan i). rewrite !is_registered_vulkan.
    unfold slot_registered. cbn. by case_decide; intros [? ?].
Qed.

Lemma pick_registered rt : slot_registered rt CPU = true ->
  is_registered rt (pick_default_from_available rt) = true.
Proof. intros Hc. unfold pick_default_from_available. by repeat case_match. Qed.

Lemma with_default_ok rt l d : is_registered rt d = true -> inv_ok (rt, l) -> inv_ok (with_default rt d, l).
Proof. intros Hd (Hc & _ & Ho & Hl & Hs). by repeat split. Qed.

Lemma run_probes_ok rt : Forall probe_ok probes ->
  exists rt', run_probes probes rt = (Ret tt, rt') /\ registry_le rt rt' /\
    rt_init_done rt' = rt_init_done rt /\ rt_default rt' = rt_default rt /\
    rt_default_set rt' = rt_default_set rt /\
    rt_scope_override rt' = rt_scope_override rt /\ rt_scope_had_prev rt' = rt_scope_had_prev rt.
Proof.
  intros Hp. revert rt. induction Hp as [|p ps Hp _ IH]; intros rt.
  { exists rt. split; [done|]. split; [apply registry_le_refl|done]. }
  destruct (Hp rt) as (Hdef & Hle & H1 & H2 & H3 & H4 & H5).
  cbn [run_probes]. unfold mbind, st_bind, swallow.
  destruct (p rt) as [[u|m|] rt1]; cbn in *; [| |done];
    destruct (IH rt1) as (rt2 & -> & Hle2 & K1 & K2 & K3 & K4 & K5);
    exists rt2; repeat split; try congruence; intros d Hd; by apply Hle2, Hle.
Qed.

Lemma init_ok rt l : Forall probe_ok probes -> inv_ok (rt, l) -> inv_ok ((init probes env rt).2, l).
Proof.
  intros Hp Hi. unfold init, mbind, st_bind, st_gets, st_get, st_lift, st_mod.
  destruct (rt_init_done rt); [done|].
  destruct (run_probes_ok rt Hp) as (rt1 & -> & Hle & E0 & E1 & E2 & E3 & E4).
  assert (Hi1 : inv_ok (rt1, l)) by by eapply inv_mono.
  assert (Hpick := with_default_ok rt1 l _ (pick_registered rt1 (proj1 Hi1)) Hi1).
  assert (Hfin : forall rt2, inv_ok (rt2, l) -> inv_ok (with_init_done rt2 true, l)) by done.
  destruct (rt_default_set rt1); cbn [negb]; [by apply Hfin|].
  destruct (parse_env_device env) as [[e|]|m|]; cbn; try done.
  destruct (is_registered rt1 (resolve_device_alias rt1 e)) eqn:E; cbn; [|done].
  by apply Hfin, (with_default_ok rt1).
Qed.

Lemma step_ok s s' : Forall probe_ok probes -> step s s' -> inv_ok s -> inv_ok s'.
Proof.
  intros Hp Hs Hi. destruct Hs as [rt l t ops alloc|rt l|rt l d|rt l d p rt' H|rt l d m rt' H|rt l p].
  - apply (inv_mono rt); try done. apply register_le.
  - by apply init_ok.
  - unfold set_default_device, mbind, st_bind, st_get.
    destruct (is_registered rt (resolve_device_alias rt d)) eqn:E; cbn; [by apply with_default_ok|done].
  - destruct (is_registered rt (resolve_device_alias rt d)) eqn:E; [|by rewrite ctor_unregistered in H].
    rewrite ctor_registered in H by done. injection H as <- <-.
    destruct Hi as (Hc & Hd & Ho & Hl & Hst). unfold inv_ok; cbn in *. repeat split; try done.
    + by intros ? [= <-].
    + by rewrite Hl.
    + intros [|i] p; cbn; [|apply Hst]. intros [= <-] [= Hb].
      apply bool_decide_eq_true in Hb as [x Hx]. rewrite Hx. by apply Ho.
  - destruct (is_registered rt (resolve_device_alias rt d)) eqn:E; [by rewrite ctor_registered in H|].
    rewrite ctor_unregistered in H by done. by injection H as <- <-.
  - destruct Hi as (Hc & Hd & Ho & Hl & Hst). unfold inv_ok, DeviceScope_dtor, st_mod; cbn in *.
    destruct (rt_scope_had_prev rt) as [|h hs] eqn:Eh; [done|]. repeat split; try done.
    + intros d. destruct h; [|done]. intros [= <-]. by apply (Hst 0%nat).
    + cbn in *. lia.
    + intros i q Hq Hq'. by apply (Hst (S i)).
Qed.

Lemma reach_ok s0 s : Forall probe_ok probes -> initial s0 -> rtc step s0 s -> inv_ok s.
Proof.
  intros Hp H0 Hr. revert H0. assert (inv_ok s0 -> inv_ok s) as H.
  { induction Hr; [done|]. eauto using step_ok. }
  intros (Hc & _ & Hs & Ho & Hh & Hl). apply H. unfold inv_ok. rewrite Hs, Ho, Hh, Hl.
  by repeat split.
Qed.
End Reach.


(** A machine with one Vulkan device and the variable set to a CUDA one. *)
Definition ex_slot (t : DeviceType) : Slot := mkSlot (fun _ => None) (IdealAlloc.table t).
Definition ex_start : runtime :=
  mkRuntime (fun t => match t with CPU => Some (ex_slot CPU) | _ => None end) 0 0 false Dev.CPU0 false None [].
Definition ex_probe : st runtime unit := fun rt =>
  (Ret tt, register_backend VULKAN (fun _ => None) (IdealAlloc.table VULKAN)
             (set_vulkan_device_count (Z.max 1 (rt_vulkan_count rt)) rt)).

Lemma ex_probe_ok : probe_ok ex_probe.
Proof.
  intros rt. split; [done|]. split; [|done]. intros d Hd. apply register_le.
  destruct d as [[] i]; try done. revert Hd.
  change (mkDevice VULKAN i) with (Dev.vulkan i). rewrite !is_registered_vulkan. cbn. intros [Hs ?].
  split; [done|lia].
Qed.

