(* ===== verification/Tensor.v ===== *)
(** * Tensors

    src/tensor.cpp and the [Tensor] struct of include/brotensor/tensor.h: the
    lifetime of tensor objects (construction, move, copy, destruction), the
    factories, migration between devices, [resize] and the host accessors.

    [Tensor] objects live at addresses of an object store; an operation takes
    the address of [*this], of its operands and of the object it initialises
    (a factory's result is built in place). The registry does not change while
    tensor code runs and is a parameter, and so is [malloc], which the
    temporary host buffers come from. *)
From S2P Require Import Prelude Dtype Device Heap Runtime.
Import Registry.

Record Tensor : Type := mkTensor {
  t_data : ptr;
  t_rows : Z;
  t_cols : Z;
  t_dtype : Dtype;
  t_device : Device;
  t_jit_slot : Z;
  t_owns : bool;
  t_cap_bytes : Z
}.

(** The default member initialisers. *)
Definition Tensor_default : Tensor := mkTensor nullptr 0 0 FP32 Dev.CPU0 (-1) false 0.

Definition set_storage (t : Tensor) (p : ptr) (owns : bool) (cap : Z) : Tensor :=
  mkTensor p (t_rows t) (t_cols t) (t_dtype t) (t_device t) (t_jit_slot t) owns cap.
Definition set_shape (t : Tensor) (r c : Z) (dt : Dtype) : Tensor :=
  mkTensor (t_data t) r c dt (t_device t) (t_jit_slot t) (t_owns t) (t_cap_bytes t).
Definition set_device (t : Tensor) (d : Device) : Tensor :=
  mkTensor (t_data t) (t_rows t) (t_cols t) (t_dtype t) d (t_jit_slot t) (t_owns t) (t_cap_bytes t).
Definition set_slot (t : Tensor) (s : Z) : Tensor :=
  mkTensor (t_data t) (t_rows t) (t_cols t) (t_dtype t) (t_device t) s (t_owns t) (t_cap_bytes t).

(** The heap, the live [Tensor] objects, the allocation counters, and the
    tracer's side of [jit_slot]: whether the retarget hook is installed and
    its slot table (src/jit/trace_dag.cpp). *)
Record world : Type := mkWorld {
  w_heap : heap;
  w_objs : gmap positive Tensor;
  w_alloc_count : Z;
  w_alloc_bytes : Z;
  w_hook : bool;
  w_slots : gmap Z positive
}.

Section WorldSetters.
Context (w : world).
Definition with_heap h := mkWorld h (w_objs w) (w_alloc_count w) (w_alloc_bytes w) (w_hook w) (w_slots w).
Definition with_objs o := mkWorld (w_heap w) o (w_alloc_count w) (w_alloc_bytes w) (w_hook w) (w_slots w).
Definition with_stats c b := mkWorld (w_heap w) (w_objs w) c b (w_hook w) (w_slots w).
Definition with_slots_table s := mkWorld (w_heap w) (w_objs w) (w_alloc_count w) (w_alloc_bytes w) (w_hook w) s.
End WorldSetters.

Abbreviation M := (st world).

(** A computation on memory, run inside the world. *)
Definition on_heap {A} (m : st heap A) : M A := fun w =>
  let '(r, h) := m (w_heap w) in (r, with_heap w h).

(** A throw out of a [noexcept] function terminates the program. *)
Definition noexcept {A} (m : M A) : M A := fun w =>
  match m w with (Throw _, w') => (Undef, w') | r => r end.

(** Unwinding: the object built so far is destroyed and the throw goes on. *)
Definition unwinding {A} (m : M A) (cleanup : M unit) : M A := fun w =>
  match m w with
  | (Throw e, w') => match cleanup w' with (Ret _, w'') => (Throw e, w'') | (_, w'') => (Undef, w'') end
  | r => r
  end.

(** Access to a live object, and the start of a lifetime. *)
Definition obj (id : positive) : M Tensor := fun w =>
  match w_objs w !! id with Some t => (Ret t, w) | None => (Undef, w) end.
Definition put (id : positive) (t : Tensor) : M unit := fun w =>
  match w_objs w !! id with
  | Some _ => (Ret tt, with_objs w (<[id := t]> (w_objs w)))
  | None => (Undef, w)
  end.
Definition new_obj (id : positive) (t : Tensor) : M unit := fun w =>
  match w_objs w !! id with
  | Some _ => (Undef, w)
  | None => (Ret tt, with_objs w (<[id := t]> (w_objs w)))
  end.
Definition drop_obj (id : positive) : M unit := fun w =>
  match w_objs w !! id with
  | Some _ => (Ret tt, with_objs w (delete id (w_objs w)))
  | None => (Undef, w)
  end.

(** [TraceContext::retarget]: a stale entry is left alone. *)
Definition retarget (slot : Z) (from : positive) (to : option positive) : M unit := fun w =>
  (Ret tt,
   match w_slots w !! slot with
   | Some it =>
       if bool_decide (it = from) then
         match to with
         | Some q => with_slots_table w (<[slot := q]> (w_slots w))
         | None => with_slots_table w (delete slot (w_slots w))
         end
       else w
   | None => w
   end).

(** [if (detail::jit_slot_retarget) detail::jit_slot_retarget(...)]. *)
Definition call_hook (slot : Z) (from : positive) (to : option positive) : M unit := fun w =>
  if w_hook w then retarget slot from to w else (Ret tt, w).

Definition brt (m : str) : str := lit "brotensor: " ++ m.

(** ** Checks *)

Definition check_host (t : Tensor) (who : str) : res unit :=
  throw_if (negb (Dev.eqb (t_device t) Dev.CPU0))
    (brt (who ++ lit ": tensor is on " ++ device_name (t_device t) ++ lit ", not CPU")).

Definition check_dims (r c : Z) (who : str) : res unit :=
  throw_if ((r <? 0) || (c <? 0)) (brt (who ++ lit ": negative dimension")).

Definition check_quant_cols (dt : Dtype) (c : Z) (who : str) : res unit :=
  if negb (dtype_is_quant dt) || (c <=? 0) then mret tt
  else
    let bs := dtype_block_size dt in
    throw_if (negb (c mod bs =? 0))
      (brt (who ++ lit ": " ++ dtype_name dt ++ lit " cols (" ++ to_string c ++
            lit ") is not a multiple of block size (" ++ to_string bs ++ lit ")")).

Definition check_dtype (t : Tensor) (expected : Dtype) (who : str) : res unit :=
  throw_if (negb (dtype_eqb (t_dtype t) expected)) (brt (who ++ lit ": dtype mismatch")).

Definition symbolic_msg (who : str) : str :=
  brt (who ++ lit ": this Tensor is a traced intermediate, not a tensor. It stands for a node of the trace being recorded between begin_trace() and end_trace(), owns no memory, and has no contents to read or copy — two Tensors cannot both become the one buffer end_trace() allocates for it. Use it in the expression, move it, or store() it into a buffer you already own.").

Definition check_not_symbolic (t : Tensor) (who : str) : res unit :=
  throw_if (t_jit_slot t >=? 0) (symbolic_msg who).

(** [Tensor::bytes] and [Tensor::row_bytes]. *)
Definition bytes (t : Tensor) : res Z :=
  _ ← check_dims (t_rows t) (t_cols t) (lit "bytes");
  _ ← (if (t_rows t >? 0) && (t_cols t >? 0) then check_quant_cols (t_dtype t) (t_cols t) (lit "Tensor::bytes")
       else mret tt);
  dtype_storage_bytes (t_dtype t) (t_rows t * t_cols t).

Definition row_bytes (t : Tensor) : res Z :=
  _ ← check_dims (t_rows t) (t_cols t) (lit "row_bytes");
  _ ← check_quant_cols (t_dtype t) (t_cols t) (lit "Tensor::row_bytes");
  dtype_storage_bytes (t_dtype t) (t_cols t).

Module T.
Section Ops.
Context (rt : runtime) (malloc : heap -> Z -> option (positive * str)).

(** ** The backend *)

Definition backend_alloc (d : Device) (n : Z) : M ptr :=
  if n =? 0 then mret nullptr
  else
    _ ← st_mod (fun w => with_stats w (u64 (w_alloc_count w + 1)) (u64 (w_alloc_bytes w + n)));
    vt ← st_lift (alloc_for rt d);
    on_heap (vt_alloc vt n (dev_index d)).

Definition backend_free (d : Device) (p : ptr) : M unit :=
  if is_null p then mret tt
  else vt ← st_lift (alloc_for rt d); on_heap (vt_free vt p (dev_index d)).

Definition backend_zero (d : Device) (p : ptr) (n : Z) : M unit :=
  if (n =? 0) || is_null p then mret tt
  else vt ← st_lift (alloc_for rt d); on_heap (vt_memset_zero vt p n (dev_index d)).

Definition h2d (d : Device) (dst src : ptr) (n : Z) : M unit :=
  vt ← st_lift (alloc_for rt d); on_heap (vt_memcpy_h2d vt dst src n (dev_index d)).
Definition d2h (d : Device) (dst src : ptr) (n : Z) : M unit :=
  vt ← st_lift (alloc_for rt d); on_heap (vt_memcpy_d2h vt dst src n (dev_index d)).
Definition d2d (d : Device) (dst src : ptr) (n : Z) : M unit :=
  vt ← st_lift (alloc_for rt d); on_heap (vt_memcpy_d2d vt dst src n (dev_index d)).

(** ** Lifetime *)

Definition release_ (this : positive) : M unit :=
  t ← obj this;
  _ ← (if t_owns t && negb (is_null (t_data t)) then backend_free (t_device t) (t_data t) else mret tt);
  t ← obj this;
  put this (set_storage t nullptr false 0).

Definition dtor (this : positive) : M unit := noexcept (
  t ← obj this;
  _ ← (if t_jit_slot t >=? 0 then call_hook (t_jit_slot t) this None else mret tt);
  _ ← release_ this;
  drop_obj this).

(** What both moves leave in the source, before its slot is cleared. *)
Definition moved_from (o : Tensor) : Tensor := set_shape (set_storage o nullptr false 0) 0 0 (t_dtype o).

Definition move_ctor (this o : positive) : M unit := noexcept (
  src ← obj o;
  _ ← new_obj this src;
  _ ← put o (moved_from src);
  if t_jit_slot src >=? 0 then
    src' ← obj o;
    _ ← put o (set_slot src' (-1));
    call_hook (t_jit_slot src) o (Some this)
  else mret tt).

Definition move_assign (this o : positive) : M unit := noexcept (
  if decide (this = o) then mret tt
  else
    t ← obj this;
    _ ← (if t_jit_slot t >=? 0 then call_hook (t_jit_slot t) this None else mret tt);
    _ ← put this (set_slot t (-1));
    _ ← release_ this;
    src ← obj o;
    _ ← put this (set_slot src (-1));
    _ ← put o (moved_from src);
    if t_jit_slot src >=? 0 then
      _ ← put this src;
      src' ← obj o;
      _ ← put o (set_slot src' (-1));
      call_hook (t_jit_slot src) o (Some this)
    else mret tt).

(** ** Factories *)

Definition empty_on (this : positive) (d : Device) (r c : Z) (dt : Dtype) : M unit :=
  _ ← st_lift (check_dims r c (lit "empty_on"));
  _ ← st_lift (check_quant_cols dt c (lit "Tensor::empty_on"));
  let d := resolve_device_alias rt d in
  let t := set_shape (set_device Tensor_default d) r c dt in
  _ ← new_obj this t;
  unwinding
    (n ← st_lift (bytes t);
     p ← backend_alloc d n;
     _ ← put this (set_storage t p (negb (is_null p)) 0);
     cap ← (if negb (is_null p) then st_lift (bytes t) else mret 0);
     put this (set_storage t p (negb (is_null p)) cap))
    (dtor this).

Definition zeros_on (this : positive) (d : Device) (r c : Z) (dt : Dtype) : M unit :=
  _ ← empty_on this d r c dt;
  unwinding (t ← obj this; n ← st_lift (bytes t); backend_zero d (t_data t) n) (dtor this).

Definition empty (this : positive) (r c : Z) (dt : Dtype) : M unit :=
  empty_on this (default_device rt) r c dt.
Definition zeros (this : positive) (r c : Z) (dt : Dtype) : M unit :=
  zeros_on this (default_device rt) r c dt.
Definition mat (this : positive) (r c : Z) : M unit := zeros_on this Dev.CPU0 r c FP32.
Definition vec (this : positive) (n : Z) : M unit := zeros_on this Dev.CPU0 n 1 FP32.

(** The copy from a host buffer into the new tensor. *)
Definition host_fill (d : Device) (dst src : ptr) (n : Z) : M unit :=
  if Dev.eqb d Dev.CPU0 then on_heap (memcpy dst src n) else h2d d dst src n.

Definition from_host_typed (this : positive) (d : Device) (src : ptr) (r c : Z) (dt : Dtype) : M unit :=
  _ ← empty_on this d r c dt;
  unwinding
    (t ← obj this;
     n ← st_lift (bytes t);
     if n =? 0 then mret tt else host_fill d (t_data t) src n)
    (dtor this).

Definition from_host_on this d src r c := from_host_typed this d src r c FP32.
Definition from_host_fp16_on this d src r c := from_host_typed this d src r c FP16.
Definition from_host_bf16_on this d src r c := from_host_typed this d src r c BF16.

Definition from_host_int8_on (this : positive) (d : Device) (src : ptr) (r c : Z) : M unit :=
  _ ← empty_on this d r c INT8;
  unwinding
    (t ← obj this;
     n ← st_lift (bytes t);
     if n =? 0 then mret tt else host_fill d (t_data t) src n)
    (dtor this).

Definition from_raw_bytes_on (this : positive) (target : Device) (src : ptr) (r c : Z) (dt : Dtype)
    (nbytes : Z) : M unit :=
  _ ← empty_on this target r c dt;
  unwinding
    (t ← obj this;
     n ← st_lift (bytes t);
     if negb (n =? nbytes) then
       st_throw (brt (lit "from_raw_bytes_on: nbytes does not match tensor size"))
     else if nbytes =? 0 then mret tt else host_fill target (t_data t) src nbytes)
    (dtor this).

Definition from_host this src r c := from_host_on this (default_device rt) src r c.
Definition from_host_fp16 this src r c := from_host_fp16_on this (default_device rt) src r c.
Definition from_host_bf16 this src r c := from_host_bf16_on this (default_device rt) src r c.
Definition from_host_int8 this src r c := from_host_int8_on this (default_device rt) src r c.

Definition view (this : positive) (d : Device) (data : ptr) (r c : Z) (dt : Dtype) : M unit :=
  _ ← st_lift (check_dims r c (lit "view"));
  _ ← st_lift (check_quant_cols dt c (lit "Tensor::view"));
  let d := resolve_device_alias rt d in
  new_obj this (set_storage (set_shape (set_device Tensor_default d) r c dt) data false 0).

(** ** Migration *)

Definition clone (this o : positive) : M unit :=
  s ← obj o;
  _ ← st_lift (check_not_symbolic s (lit "clone"));
  _ ← empty_on this (t_device s) (t_rows s) (t_cols s) (t_dtype s);
  unwinding
    (t ← obj this;
     n ← st_lift (bytes s);
     if (n =? 0) || is_null (t_data s) then mret tt
     else if Dev.eqb (t_device s) Dev.CPU0 then on_heap (memcpy (t_data t) (t_data s) n)
     else d2d (t_device s) (t_data t) (t_data s) n)
    (dtor this).

(** A [std::unique_ptr<unsigned char[]>] of [n] bytes for the rest of the
    block. *)
Definition with_staging {A} (n : Z) (body : ptr -> M A) : M A := fun w =>
  match malloc (w_heap w) n with
  | None => (Throw (lit "std::bad_alloc"), w)
  | Some (b, junk) =>
      with_dtor (body (Some (b, 0))) (on_heap (CpuAlloc.std_free (Some (b, 0))))
        (with_heap w (<[b := mkBlock Dev.CPU0 junk]> (w_heap w)))
  end.

Definition bounce (src_d dst_d : Device) (dst src : ptr) (n : Z) : M unit :=
  with_staging n (fun staging =>
    _ ← d2h src_d staging src n;
    h2d dst_d dst staging n).

Definition to (this o : positive) (target : Device) : M unit :=
  s ← obj o;
  _ ← st_lift (check_not_symbolic s (lit "to"));
  if Dev.eqb target (t_device s) then clone this o
  else
    _ ← empty_on this target (t_rows s) (t_cols s) (t_dtype s);
    unwinding
      (t ← obj this;
       n ← st_lift (bytes s);
       if (n =? 0) || is_null (t_data s) then mret tt
       else if Dev.is_cpu (t_device s) then h2d target (t_data t) (t_data s) n
       else if Dev.is_cpu target then d2h (t_device s) (t_data t) (t_data s) n
       else if bool_decide (dev_type (t_device s) = dev_type target) then
         vt ← st_lift (alloc_for rt target);
         match vt_memcpy_peer vt with
         | Some peer_fn =>
             on_heap (peer_fn (t_data t) (dev_index target) (t_data s) (dev_index (t_device s)) n)
         | None => bounce (t_device s) target (t_data t) (t_data s) n
         end
       else bounce (t_device s) target (t_data t) (t_data s) n)
      (dtor this).

(** ** Copies

    [*this = o.clone()]: the clone is a temporary, moved from and destroyed. *)
Definition assign_clone (this o : positive) : M unit := fun w =>
  let tmp := fresh ({[this; o]} ∪ dom (w_objs w)) in
  (_ ← clone tmp o; with_dtor (move_assign this tmp) (dtor tmp)) w.

(** A constructor that throws ends with no object; its members need no
    destructor. *)
Definition copy_ctor (this o : positive) : M unit :=
  _ ← new_obj this Tensor_default;
  unwinding
    (s ← obj o;
     _ ← st_lift (check_not_symbolic s (lit "copy"));
     assign_clone this o)
    (drop_obj this).

Definition copy_assign (this o : positive) : M unit :=
  if decide (this = o) then mret tt
  else
    s ← obj o;
    _ ← st_lift (check_not_symbolic s (lit "copy"));
    assign_clone this o.

(** ** Mutators *)

Definition zero (this : positive) : M unit :=
  t ← obj this; n ← st_lift (bytes t); backend_zero (t_device t) (t_data t) n.

Definition resize (this : positive) (r c : Z) (dt : Dtype) : M unit :=
  t ← obj this;
  _ ← st_lift (check_not_symbolic t (lit "resize"));
  _ ← st_lift (check_dims r c (lit "resize"));
  _ ← st_lift (check_quant_cols dt c (lit "Tensor::resize"));
  if (r =? t_rows t) && (c =? t_cols t) && dtype_eqb dt (t_dtype t) && negb (is_null (t_data t)) then mret tt
  else
    new_bytes ← st_lift (dtype_storage_bytes dt (r * c));
    if negb (t_owns t) && negb (is_null (t_data t)) then
      st_throw (brt (lit "resize: cannot reshape a non-owning view; allocate a fresh tensor or re-view() with the new shape"))
    else
      _ ← (if (new_bytes >? t_cap_bytes t) || negb (t_owns t) then
             _ ← release_ this;
             t ← obj this;
             let d := resolve_device_alias rt (t_device t) in
             _ ← put this (set_device t d);
             p ← backend_alloc d new_bytes;
             t ← obj this;
             put this (set_storage t p (negb (is_null p)) (if negb (is_null p) then new_bytes else 0))
           else mret tt);
      t ← obj this;
      put this (set_shape t r c dt).

(** ** Host accessors: a typed pointer, after the checks *)

Definition host_ptr (who : str) (dt : option Dtype) (this : positive) : M ptr :=
  t ← obj this;
  _ ← st_lift (check_host t who);
  _ ← st_lift (match dt with Some dt => check_dtype t dt who | None => mret tt end);
  mret (t_data t).

Definition host_f32_mut := host_ptr (lit "host_f32_mut") (Some FP32).
Definition host_f32 := host_ptr (lit "host_f32") (Some FP32).
Definition host_fp16_mut := host_ptr (lit "host_fp16_mut") (Some FP16).
Definition host_fp16 := host_ptr (lit "host_fp16") (Some FP16).
Definition host_bf16_mut := host_ptr (lit "host_bf16_mut") (Some BF16).
Definition host_bf16 := host_ptr (lit "host_bf16") (Some BF16).
Definition host_raw_mut := host_ptr (lit "host_raw_mut") None.
Definition host_raw := host_ptr (lit "host_raw") None.

(** The element's address, and the bits of the float there. *)
Definition at_ref (this : positive) (r c : Z) : M ptr :=
  t ← obj this;
  _ ← st_lift (check_host t (lit "at"));
  _ ← st_lift (check_dtype t FP32 (lit "at"));
  if (r <? 0) || (r >=? t_rows t) || (c <? 0) || (c >=? t_cols t) then
    st_throw (brt (lit "at: index out of range"))
  else mret (ptr_add (t_data t) (u64 (u64 (u64 r * u64 (t_cols t)) + u64 c) * 4)).

Definition load_f32 (p : ptr) : M Z := fun w =>
  match load_bytes (w_heap w) p 4 with Some bs => (Ret (le_int bs), w) | None => (Undef, w) end.

Definition at_val (this : positive) (r c : Z) : M Z := p ← at_ref this r c; load_f32 p.

(** ** Host round trip *)

Definition host_read (t : Tensor) (dst : ptr) (n : Z) : M unit :=
  if Dev.is_cpu (t_device t) then on_heap (memcpy dst (t_data t) n)
  else d2h (t_device t) dst (t_data t) n.

(** The elements of [k] bytes in a buffer. *)
Fixpoint elements (fuel : nat) (k : nat) (bs : str) : list Z :=
  match fuel with
  | O => []
  | S f => le_int (take k bs) :: elements f k (drop k bs)
  end.

(** [std::vector<T> out(count)] with [T] of [k] bytes; what it holds when it
    is returned. *)
Definition host_vector (this : positive) (dt : Dtype) (k : Z) (msg : str) : M (list Z) :=
  t ← obj this;
  if negb (dtype_eqb (t_dtype t) dt) then st_throw msg
  else
    let count := u64 (u64 (t_rows t) * u64 (t_cols t)) in
    if count >? INT64_MAX / k then st_throw (lit "cannot create std::vector larger than max_size()")
    else if count =? 0 then
      n ← st_lift (bytes t);
      _ ← (if n =? 0 then mret tt else host_read t nullptr n);
      mret []
    else
      with_staging (count * k) (fun out =>
        _ ← on_heap (zero_on CPU out (count * k));
        n ← st_lift (bytes t);
        _ ← (if n =? 0 then mret tt else host_read t out n);
        w ← st_get;
        match load_bytes (w_heap w) out (count * k) with
        | Some bs => mret (elements (Z.to_nat count) (Z.to_nat k) bs)
        | None => st_undef
        end).

Definition to_host_vector this :=
  host_vector this FP32 4 (brt (lit "to_host_vector: dtype not FP32")).
Definition to_host_vector_fp16 this :=
  host_vector this FP16 2 (brt (lit "to_host_vector_fp16: dtype not FP16")).
Definition to_host_vector_bf16 this :=
  host_vector this BF16 2 (brt (lit "to_host_vector_bf16: dtype not BF16")).

Definition copy_to_host_typed (dt : Dtype) (msg : str) (this : positive) (dst : ptr) : M unit :=
  t ← obj this;
  if negb (dtype_eqb (t_dtype t) dt) then st_throw msg
  else
    n ← st_lift (bytes t);
    if n =? 0 then mret tt else host_read t dst n.

Definition copy_to_host := copy_to_host_typed FP32 (brt (lit "copy_to_host: dtype not FP32")).
Definition copy_to_host_fp16 := copy_to_host_typed FP16 (brt (lit "copy_to_host_fp16: dtype not FP16")).
Definition copy_to_host_bf16 := copy_to_host_typed BF16 (brt (lit "copy_to_host_bf16: dtype not BF16")).

Definition copy_from_host_raw (this : positive) (src : ptr) (nbytes : Z) : M unit :=
  t ← obj this;
  n ← st_lift (bytes t);
  if nbytes >? n then st_throw (brt (lit "copy_from_host_raw: nbytes exceeds the tensor's size"))
  else if nbytes =? 0 then mret tt
  else if Dev.is_cpu (t_device t) then on_heap (memcpy (t_data t) src nbytes)
  else h2d (t_device t) (t_data t) src nbytes.

Definition copy_to_host_raw (this : positive) (dst : ptr) (nbytes : Z) : M unit :=
  t ← obj this;
  n ← st_lift (bytes t);
  if nbytes >? n then st_throw (brt (lit "copy_to_host_raw: nbytes exceeds the tensor's size"))
  else if nbytes =? 0 then mret tt
  else host_read t dst nbytes.

Definition alloc_stats : M (Z * Z) := st_gets (fun w => (w_alloc_count w, w_alloc_bytes w)).
End Ops.
End T.
