(* ===== verification/TensorSpec.v ===== *)
(** * Tensors: ownership and contents

    What Tensor.v's operations do to memory. [wf] is the ownership invariant:
    every owning tensor has a live block of its own, on its device and at least
    as large as its shape needs, and every block of the heap is owned by exactly
    one tensor or belongs to the client. The theorems are proved against
    [LawfulAlloc], the promise every registered backend makes. *)
From S2P Require Import Prelude Dtype Device Heap Runtime Tensor.
Import Registry.

(** ** A weakest precondition

    [wpw m w Q E]: from [w], [m] returns in a state that satisfies [Q] or throws
    in one that satisfies [E]; it has no undefined behaviour. *)
Definition wpw {A} (m : M A) (w : world) (Q : A -> world -> Prop) (E : world -> Prop) : Prop :=
  match m w with
  | (Ret a, w') => Q a w'
  | (Throw _, w') => E w'
  | (Undef, _) => False
  end.

Lemma wpw_mono {A} (m : M A) w (Q Q' : A -> world -> Prop) (E E' : world -> Prop) :
  wpw m w Q E -> (forall a w', Q a w' -> Q' a w') -> (forall w', E w' -> E' w') -> wpw m w Q' E'.
Proof. unfold wpw. destruct (m w) as [[a|e|] w']; auto. Qed.

Lemma wpw_bind {A B} (m : M A) (f : A -> M B) w Q E :
  wpw m w (fun a w' => wpw (f a) w' Q E) E -> wpw (m ≫= f) w Q E.
Proof. unfold wpw, mbind, st_bind. by destruct (m w) as [[a|e|] w']. Qed.

Lemma wpw_unwinding {A} (m : M A) cleanup w (Q : A -> world -> Prop) (E : world -> Prop) :
  wpw m w Q (fun w' => wpw cleanup w' (fun _ => E) (fun _ => False)) -> wpw (unwinding m cleanup) w Q E.
Proof.
  unfold wpw, unwinding. destruct (m w) as [[a|e|] w']; try done.
  by destruct (cleanup w') as [[]].
Qed.

(** ** Shapes *)

Lemma check_dims_ret r c who : 0 <= r -> 0 <= c -> check_dims r c who = Ret tt.
Proof. intros. unfold check_dims. by rewrite !(proj2 (Z.ltb_ge _ _)) by lia. Qed.

Lemma check_dims_inv r c who u : check_dims r c who = Ret u -> 0 <= r /\ 0 <= c.
Proof. intros H%throw_if_ret. bool_facts. lia. Qed.

Lemma check_quant_inv dt c who u : check_quant_cols dt c who = Ret u ->
  dtype_is_quant dt = false \/ c <= 0 \/ c mod dtype_block_size dt = 0.
Proof.
  unfold check_quant_cols. destruct (dtype_is_quant dt); [|by left]. cbn [negb orb].
  destruct (Z.leb_spec c 0); [by right; left|]. intros E%throw_if_ret. bool_facts. by right; right.
Qed.

Lemma check_quant_ret dt c who :
  dtype_is_quant dt = false \/ c <= 0 \/ c mod dtype_block_size dt = 0 -> check_quant_cols dt c who = Ret tt.
Proof.
  unfold check_quant_cols. intros H. destruct (dtype_is_quant dt); [|done]. cbn [negb orb].
  destruct (Z.leb_spec c 0); [done|]. destruct H as [?|[?|H]]; [done|lia|]. by rewrite H.
Qed.

Lemma check_quant_defined dt c who : check_quant_cols dt c who = Ret tt \/ exists m, check_quant_cols dt c who = Throw m.
Proof. unfold check_quant_cols, throw_if. repeat case_match; eauto. Qed.

(** A shape the factories accept has a size. *)
Lemma storage_ret dt r c : 0 <= r -> 0 <= c ->
  dtype_is_quant dt = false \/ c <= 0 \/ c mod dtype_block_size dt = 0 ->
  exists n, dtype_storage_bytes dt (r * c) = Ret n /\ 0 <= n <= SIZE_MAX.
Proof.
  intros Hr Hc Hq. unfold dtype_storage_bytes. destruct (Z.ltb_spec (r * c) 0); [nia|].
  destruct (dtype_is_quant dt) eqn:Q; cbn [negb]; [|eexists; split; [done|apply u64_range]].
  destruct (Z.eqb_spec ((r * c) mod dtype_block_size dt) 0) as [|Hne]; cbn [negb].
  { eexists. split; [done|apply u64_range]. }
  exfalso. apply Hne. pose proof (dtype_block_size_pos dt).
  destruct Hq as [?|[?|Hq]]; [done|by replace c with 0 by lia; rewrite Z.mul_0_r, Z.mod_0_l by lia|].
  by rewrite Z.mul_mod, Hq, Z.mul_0_r, Z.mod_0_l by lia.
Qed.

Definition shape_ok (t : Tensor) : Prop :=
  0 <= t_rows t /\ 0 <= t_cols t /\
  (dtype_is_quant (t_dtype t) = false \/ t_cols t <= 0 \/ t_rows t <= 0 \/ t_cols t mod dtype_block_size (t_dtype t) = 0).

Definition size_of (t : Tensor) : Z := match bytes t with Ret n => n | _ => 0 end.

Lemma bytes_ok t : shape_ok t -> bytes t = Ret (size_of t) /\ 0 <= size_of t <= SIZE_MAX.
Proof.
  intros (Hr & Hc & Hq). unfold size_of.
  cut (exists n, bytes t = Ret n /\ 0 <= n <= SIZE_MAX); [by intros (n & -> & ?)|].
  unfold bytes. rewrite check_dims_ret by done. cbn [mbind res_bind].
  destruct ((t_rows t >? 0) && (t_cols t >? 0)) eqn:E.
  - apply andb_true_iff in E as [E1 E2]. rewrite Z.gtb_lt in *.
    rewrite check_quant_ret by (destruct Hq as [?|[?|[?|?]]]; auto; lia). cbn [mbind res_bind].
    apply storage_ret; try done. destruct Hq as [?|[?|[?|?]]]; auto; lia.
  - cbn [mbind res_bind mret res_ret]. destruct (Z.eq_dec (t_rows t) 0) as [->|].
    { rewrite Z.mul_0_l, <- (Z.mul_0_l 0). apply storage_ret; auto; lia. }
    destruct (Z.eq_dec (t_cols t) 0) as [->|]; [apply storage_ret; auto; lia|].
    exfalso. rewrite andb_false_iff, !Z.gtb_ltb, !Z.ltb_ge in E. lia.
Qed.

(** The size only depends on the shape. *)
Lemma size_set_storage t p o c : size_of (set_storage t p o c) = size_of t.
Proof. done. Qed.

Lemma size_shape t r c dt : 0 <= r -> 0 <= c ->
  dtype_is_quant dt = false \/ c <= 0 \/ c mod dtype_block_size dt = 0 ->
  dtype_storage_bytes dt (r * c) = Ret (size_of (set_shape t r c dt)).
Proof.
  intros Hr Hc Hq. unfold size_of, bytes. cbn [set_shape t_rows t_cols t_dtype].
  rewrite check_dims_ret by done. cbn [mbind res_bind].
  assert ((if (r >? 0) && (c >? 0) then check_quant_cols dt c (lit "Tensor::bytes") else mret tt) = Ret tt) as ->.
  { case_match; [by apply check_quant_ret|done]. }
  cbn [mbind res_bind]. by destruct (storage_ret dt r c Hr Hc Hq) as (n & -> & _).
Qed.

(** ** The ownership invariant *)

(** The block an owning tensor owns. *)
Definition owned_block (t : Tensor) : option positive :=
  if t_owns t then fst <$> t_data t else None.

Section Spec.
Context (rt : runtime).

Definition tensor_ok (h : heap) (t : Tensor) : Prop :=
  shape_ok t /\
  if t_owns t then
    exists b blk, t_data t = Some (b, 0) /\ h !! b = Some blk /\
      dev_type (blk_dev blk) = dev_type (t_device t) /\
      zlen (blk_bytes blk) = t_cap_bytes t /\ size_of t <= t_cap_bytes t /\
      slot_registered rt (dev_type (t_device t)) = true
  else t_cap_bytes t = 0.

Record wf (F : gset positive) (h : heap) (o : gmap positive Tensor) : Prop := {
  wf_obj : forall id t, o !! id = Some t -> tensor_ok h t;
  wf_uniq : forall i j ti tj b, o !! i = Some ti -> o !! j = Some tj ->
    owned_block ti = Some b -> owned_block tj = Some b -> i = j;
  wf_heap : forall b, is_Some (h !! b) <-> b ∈ F \/ exists id t, o !! id = Some t /\ owned_block t = Some b;
  wf_foreign : forall id t b, o !! id = Some t -> owned_block t = Some b -> b ∉ F
}.

(** What the tracer relies on: a symbolic tensor owns nothing and its slot
    names it, and every slot names a live symbolic tensor. *)
Definition jit_inv (o : gmap positive Tensor) (hook : bool) (slots : gmap Z positive) : Prop :=
  (hook = true \/ forall id t, o !! id = Some t -> t_jit_slot t < 0) /\
  (forall id t, o !! id = Some t -> 0 <= t_jit_slot t ->
     t_data t = nullptr /\ t_owns t = false /\ slots !! t_jit_slot t = Some id) /\
  (forall s id, slots !! s = Some id -> exists t, o !! id = Some t /\ t_jit_slot t = s /\ 0 <= s).

(** Both invariants. *)
Definition inv (F : gset positive) (w : world) : Prop :=
  wf F (w_heap w) (w_objs w) /\ jit_inv (w_objs w) (w_hook w) (w_slots w).

(** The heap once [t]'s storage is given back. *)
Definition freed (t : Tensor) (h : heap) : heap :=
  match owned_block t with Some b => delete b h | None => h end.

Lemma owned_data h t b : tensor_ok h t -> owned_block t = Some b ->
  t_owns t = true /\ t_data t = Some (b, 0) /\
  exists blk, h !! b = Some blk /\ dev_type (blk_dev blk) = dev_type (t_device t) /\
    zlen (blk_bytes blk) = t_cap_bytes t /\ size_of t <= t_cap_bytes t /\
    slot_registered rt (dev_type (t_device t)) = true.
Proof.
  unfold owned_block. intros [_ H] Hb. destruct (t_owns t); [|done].
  destruct H as (b' & blk & Hd & H). rewrite Hd in Hb. injection Hb as ->. split; [done|]. split; [done|]. eauto.
Qed.

(** *** How the invariant survives the changes operations make *)

Section Preservation.
Context (F : gset positive) (h : heap) (o : gmap positive Tensor) (W : wf F h o).

(** A new block is nobody's. *)
Lemma wf_fresh_block b : h !! b = None ->
  (b ∉ F) /\ forall id t, o !! id = Some t -> owned_block t <> Some b.
Proof.
  intros Hb. split.
  - intros HF. destruct (proj2 (wf_heap _ _ _ W b)) as [? ?]; [by left|congruence].
  - intros id t Ho E. destruct (proj2 (wf_heap _ _ _ W b)) as [? ?]; [right; eauto|congruence].
Qed.

Lemma tensor_ok_other h' t : tensor_ok h t ->
  (forall b, owned_block t = Some b -> h' !! b = h !! b) -> tensor_ok h' t.
Proof.
  intros [Hs Ho] E. split; [done|]. unfold owned_block in E.
  destruct (t_owns t); [|done]. destruct Ho as (b & blk & Hd & Hb & H). exists b, blk.
  rewrite E by (by rewrite Hd). done.
Qed.

(** An object changes or appears without owning anything. *)
Lemma wf_nonowning id t :
  (forall t0, o !! id = Some t0 -> owned_block t0 = None) ->
  owned_block t = None -> tensor_ok h t -> wf F h (<[id := t]> o).
Proof.
  intros Hold Hn Hok. split.
  - intros i ti. rewrite lookup_insert_Some. intros [[<- <-]|[? ?]]; [done|by eapply wf_obj].
  - intros i j ti tj b. rewrite !lookup_insert_Some. intros [[<- <-]|[? ?]] [[<- <-]|[? ?]]; try congruence.
    by eapply wf_uniq.
  - intros b. rewrite (wf_heap _ _ _ W b). apply or_iff_compat_l. split; intros (i & ti & Hi & Hb).
    + exists i, ti. split; [|done]. rewrite lookup_insert_Some. right. split; [|done].
      intros <-. rewrite (Hold _ Hi) in Hb. done.
    + rewrite lookup_insert_Some in Hi. destruct Hi as [[<- <-]|[? ?]]; [congruence|eauto].
  - intros i ti b. rewrite lookup_insert_Some. intros [[<- <-]|[? ?]]; [congruence|by eapply wf_foreign].
Qed.

(** An object that owns nothing goes, or gets a fresh block. *)
Lemma wf_drop id t : o !! id = Some t -> owned_block t = None -> wf F h (delete id o).
Proof.
  intros Hid Hn. split.
  - intros i ti [_ H]%lookup_delete_Some. by eapply wf_obj.
  - intros i j ti tj b [_ ?]%lookup_delete_Some [_ ?]%lookup_delete_Some. by eapply wf_uniq.
  - intros b. rewrite (wf_heap _ _ _ W b). apply or_iff_compat_l. split; intros (i & ti & Hi & Hb).
    + exists i, ti. split; [|done]. rewrite lookup_delete_Some. split; [|done]. intros <-. congruence.
    + apply lookup_delete_Some in Hi as [_ Hi]. eauto.
  - intros i ti b [_ H]%lookup_delete_Some. by eapply wf_foreign.
Qed.

Lemma wf_acquire id t b blk :
  h !! b = None -> (forall t0, o !! id = Some t0 -> owned_block t0 = None) ->
  owned_block t = Some b -> tensor_ok (<[b := blk]> h) t ->
  wf F (<[b := blk]> h) (<[id := t]> o).
Proof.
  intros Hb Hold Hn Hok. destruct (wf_fresh_block b Hb) as [HF Hnone]. split.
  - intros i ti. rewrite lookup_insert_Some. intros [[<- <-]|[? Hi]]; [done|].
    apply tensor_ok_other; [by eapply wf_obj|]. intros b' Hb'. apply lookup_insert_ne.
    intros <-. by eapply Hnone.
  - intros i j ti tj b'. rewrite !lookup_insert_Some. intros [[<- <-]|[? Hi]] [[<- <-]|[? Hj]]; try done.
    + rewrite Hn. intros [= <-] E. by destruct (Hnone _ _ Hj).
    + rewrite Hn. intros E [= <-]. by destruct (Hnone _ _ Hi).
    + by eapply wf_uniq.
  - intros b'. destruct (decide (b' = b)) as [->|Hbb].
    + rewrite lookup_insert. rewrite decide_True by done. split; [|by intros; eexists].
      intros _. right. exists id, t. split; [by rewrite lookup_insert, decide_True|done].
    + rewrite lookup_insert_ne by done. rewrite (wf_heap _ _ _ W b'). apply or_iff_compat_l.
      split; intros (i & ti & Hi & Hb').
      * exists i, ti. split; [|done]. rewrite lookup_insert_Some. right. split; [|done].
        intros <-. rewrite (Hold _ Hi) in Hb'. done.
      * rewrite lookup_insert_Some in Hi. destruct Hi as [[<- <-]|[? ?]]; [congruence|eauto].
  - intros i ti b'. rewrite lookup_insert_Some. intros [[<- <-]|[? ?]]; [|by eapply wf_foreign].
    rewrite Hn. by intros [= <-].
Qed.

(** Storage is given back. *)
Lemma wf_release id t t' : o !! id = Some t -> owned_block t' = None -> tensor_ok (freed t h) t' ->
  wf F (freed t h) (<[id := t']> o).
Proof.
  intros Hid Hn Hok. unfold freed in *. destruct (owned_block t) as [b|] eqn:E.
  2:{ apply wf_nonowning; try done. by intros t0 [= <-]%(eq_trans (eq_sym Hid)). }
  split.
  - intros i ti. rewrite lookup_insert_Some. intros [[<- <-]|[Hne Hi]]; [done|].
    apply tensor_ok_other; [by eapply wf_obj|]. intros b' Hb'. apply lookup_delete_ne.
    intros <-. apply Hne. by eapply wf_uniq.
  - intros i j ti tj b'. rewrite !lookup_insert_Some. intros [[<- <-]|[? ?]] [[<- <-]|[? ?]]; try congruence.
    by eapply wf_uniq.
  - intros b'. destruct (decide (b' = b)) as [->|Hbb].
    + rewrite lookup_delete, decide_True by done. split; [by intros []|].
      intros [HF|(i & ti & Hi & Hb)]; [by destruct (wf_foreign _ _ _ W _ _ _ Hid E)|].
      rewrite lookup_insert_Some in Hi. destruct Hi as [[<- <-]|[Hne Hi]]; [congruence|].
      destruct Hne. by eapply wf_uniq.
    + rewrite lookup_delete_ne by done. rewrite (wf_heap _ _ _ W b'). apply or_iff_compat_l.
      split; intros (i & ti & Hi & Hb').
      * exists i, ti. split; [|done]. rewrite lookup_insert_Some. right. split; [|done].
        intros <-. congruence.
      * rewrite lookup_insert_Some in Hi. destruct Hi as [[<- <-]|[? ?]]; [congruence|eauto].
  - intros i ti b'. rewrite lookup_insert_Some. intros [[<- <-]|[? ?]]; [congruence|by eapply wf_foreign].
Qed.

(** Bytes are overwritten in place. *)
Lemma wf_write b blk bs : h !! b = Some blk -> zlen bs = zlen (blk_bytes blk) ->
  wf F (<[b := mkBlock (blk_dev blk) bs]> h) o.
Proof.
  intros Hb Hl. split.
  - intros id t Hid. destruct (wf_obj _ _ _ W _ _ Hid) as [Hs Ho]. split; [done|].
    destruct (t_owns t); [|done]. destruct Ho as (b' & blk' & Hd & Hb' & H1 & H2 & H3).
    destruct (decide (b' = b)) as [->|Hne].
    + exists b, (mkBlock (blk_dev blk) bs). rewrite lookup_insert, decide_True by done.
      rewrite Hb in Hb'. injection Hb' as <-. cbn. rewrite Hl. done.
    + exists b', blk'. by rewrite lookup_insert_ne by done.
  - apply W.
  - intros b'. rewrite <- (wf_heap _ _ _ W b'). destruct (decide (b' = b)) as [->|Hne].
    + rewrite lookup_insert, decide_True, Hb by done. split; intros _; by eexists.
    + by rewrite lookup_insert_ne by done.
  - apply W.
Qed.

(** An object changes its shape within its capacity. *)
Lemma wf_reshape id t t' : o !! id = Some t -> owned_block t' = owned_block t -> tensor_ok h t' ->
  wf F h (<[id := t']> o).
Proof.
  intros Hid Hb Hok. split.
  - intros i ti. rewrite lookup_insert_Some. intros [[<- <-]|[? ?]]; [done|by eapply wf_obj].
  - intros i j ti tj b. rewrite !lookup_insert_Some.
    intros [[<- <-]|[? ?]] [[<- <-]|[? ?]]; try done; rewrite ?Hb; intros; by eapply wf_uniq.
  - intros b. rewrite (wf_heap _ _ _ W b). apply or_iff_compat_l. split; intros (i & ti & Hi & Hbi).
    + destruct (decide (i = id)) as [->|Hne].
      * exists id, t'. rewrite lookup_insert, decide_True by done. split; [done|congruence].
      * exists i, ti. by rewrite lookup_insert_ne by done.
    + rewrite lookup_insert_Some in Hi. destruct Hi as [[<- <-]|[? ?]]; [|eauto].
      exists id, t. split; [done|congruence].
  - intros i ti b. rewrite lookup_insert_Some. intros [[<- <-]|[? ?]]; rewrite ?Hb; by eapply wf_foreign.
Qed.

(** Ownership moves from one object to another. *)
Lemma wf_transfer dst src s t0 s' : dst <> src -> o !! src = Some s -> o !! dst = Some t0 ->
  owned_block t0 = None -> owned_block s' = None -> tensor_ok h s' ->
  forall t, owned_block t = owned_block s -> tensor_ok h t ->
  wf F h (<[dst := t]> (<[src := s']> o)).
Proof.
  intros Hne Hsrc Hdst H0 Hs' Hok' t Ht Hok. 
  assert (Hlk : forall i ti, <[dst := t]> (<[src := s']> o) !! i = Some ti ->
    (i = dst /\ ti = t) \/ (i = src /\ ti = s') \/ (i <> dst /\ i <> src /\ o !! i = Some ti)).
  { intros i ti. rewrite !lookup_insert_Some. intros [[<- <-]|[? [[<- <-]|[? ?]]]]; auto. }
  split.
  - intros i ti [[-> ->]|[[-> ->]|(? & ? & Hi)]]%Hlk; try done. by eapply wf_obj.
  - intros i j ti tj b [[-> ->]|[[-> ->]|(? & ? & Hi)]]%Hlk [[-> ->]|[[-> ->]|(? & ? & Hj)]]%Hlk Hbi Hbj;
      try done; try congruence.
    + rewrite Ht in Hbi. assert (src = j) by (eapply (wf_uniq _ _ _ W); eauto). congruence.
    + rewrite Ht in Hbj. assert (i = src) by (eapply (wf_uniq _ _ _ W); eauto). congruence.
    + eapply (wf_uniq _ _ _ W); eauto.
  - intros b. rewrite (wf_heap _ _ _ W b). apply or_iff_compat_l. split; intros (i & ti & Hi & Hb).
    + destruct (decide (i = src)) as [->|].
      { exists dst, t. rewrite lookup_insert, decide_True by done. split; [done|congruence]. }
      exists i, ti. destruct (decide (i = dst)) as [->|]; [congruence|].
      by rewrite !lookup_insert_ne by done.
    + apply Hlk in Hi as [[-> ->]|[[-> ->]|(? & ? & Hi)]]; [|congruence|eauto].
      exists src, s. split; [done|congruence].
  - intros i ti b [[-> ->]|[[-> ->]|(? & ? & Hi)]]%Hlk Hb; [|congruence|by eapply (wf_foreign _ _ _ W i)].
    rewrite Ht in Hb. by eapply (wf_foreign _ _ _ W src).
Qed.
End Preservation.

(** *** The backend calls *)

Context (Hlaw : forall t s, rt_slots rt t = Some s -> LawfulAlloc t (slot_alloc s)).

Lemma resolve_registered d : slot_registered rt (dev_type d) = true -> resolve_device_alias rt d = d.
Proof.
  intros H. destruct (resolve_cases rt d) as [|(Hn & Ht & _)]; [done|]. rewrite Ht in H. congruence.
Qed.

(** The table of a device is lawful, or there is none. *)
Lemma alloc_for_cases d :
  (exists vt, alloc_for rt d = Ret vt /\ LawfulAlloc (dev_type (resolve_device_alias rt d)) vt /\
     slot_registered rt (dev_type (resolve_device_alias rt d)) = true) \/
  (exists m, alloc_for rt d = Throw m /\ slot_registered rt (dev_type (resolve_device_alias rt d)) = false).
Proof.
  unfold alloc_for, slot_for, slot_registered.
  destruct (rt_slots rt (dev_type (resolve_device_alias rt d))) as [s|] eqn:E.
  - left. exists (slot_alloc s). split; [done|]. split; [by apply Hlaw|done].
  - right. eexists. done.
Qed.

Lemma alloc_for_registered d : slot_registered rt (dev_type d) = true ->
  exists vt, alloc_for rt d = Ret vt /\ LawfulAlloc (dev_type d) vt.
Proof.
  intros H. destruct (alloc_for_cases d) as [(vt & E & L & _)|(m & _ & E)]; rewrite resolve_registered in * by done.
  - by exists vt.
  - congruence.
Qed.

(** The counters after a request of [n] bytes. *)
Definition counted (n : Z) (w : world) : Z * Z :=
  if n =? 0 then (w_alloc_count w, w_alloc_bytes w)
  else (u64 (w_alloc_count w + 1), u64 (w_alloc_bytes w + n)).

(** What an allocation does to memory. *)
Definition allocated (d : Device) (n : Z) (h : heap) (p : ptr) (h' : heap) : Prop :=
  if n =? 0 then p = nullptr /\ h' = h
  else exists b dv bs, p = Some (b, 0) /\ h !! b = None /\ h' = <[b := mkBlock dv bs]> h /\
         dev_type dv = dev_type d /\ zlen bs = n /\ slot_registered rt (dev_type d) = true.

Lemma backend_alloc_cases d n w : 0 <= n ->
  let w1 := with_stats w (counted n w).1 (counted n w).2 in
  (0 < n /\ exists m, T.backend_alloc rt d n w = (Throw m, w1)) \/
  (exists p h', T.backend_alloc rt d n w = (Ret p, with_heap w1 h') /\
     allocated (resolve_device_alias rt d) n (w_heap w) p h').
Proof.
  intros Hn w1. unfold T.backend_alloc, allocated, w1, counted. destruct (Z.eqb_spec n 0) as [|Hne].
  { right. exists nullptr, (w_heap w). split; [by destruct w|done]. }
  cbn. unfold mbind, st_bind, st_lift, st_mod.
  destruct (alloc_for_cases d) as [(vt & -> & L & Hr)|(m & -> & _)]; [|left; split; [lia|by eexists]].
  pose proof (law_alloc n (dev_index d) (w_heap w) ltac:(lia)) as H.
  unfold on_heap. cbn [w_heap with_stats].
  destruct (vt_alloc vt n (dev_index d) (w_heap w)) as [[p|m|] h']; [| |done].
  - right. destruct H as (b & dv & bs & -> & Hb & Hd & Hl & ->). do 2 eexists. split; [done|].
    exists b, dv, bs. done.
  - left. split; [lia|]. cbn in H. subst h'. by eexists.
Qed.

Lemma free_eq d b blk w : w_heap w !! b = Some blk -> dev_type (blk_dev blk) = dev_type d ->
  slot_registered rt (dev_type d) = true ->
  T.backend_free rt d (Some (b, 0)) w = (Ret tt, with_heap w (delete b (w_heap w))).
Proof.
  intros Hb Ht Hr. destruct (alloc_for_registered d Hr) as (vt & E & L).
  unfold T.backend_free, mbind, st_bind, st_lift. cbn [is_null]. rewrite E. unfold on_heap.
  by rewrite (law_free _ blk).
Qed.

(** *** Lifetime *)

Definition retargeted (slot : Z) (from : positive) (to : option positive) (w : world) : gmap Z positive :=
  if w_hook w && bool_decide (w_slots w !! slot = Some from) then
    match to with Some q => <[slot := q]> (w_slots w) | None => delete slot (w_slots w) end
  else w_slots w.

Lemma call_hook_eq slot from to w :
  call_hook slot from to w = (Ret tt, with_slots_table w (retargeted slot from to w)).
Proof.
  unfold call_hook, retarget, retargeted. destruct w as [h o c b hk sl]; cbn. destruct hk; [|done]. cbn.
  destruct (sl !! slot) as [it|] eqn:E; cbn.
  - destruct (decide (it = from)) as [->|Hne].
    + rewrite !bool_decide_eq_true_2 by done. by destruct to.
    + rewrite (bool_decide_eq_false_2 (it = from)) by done.
      by rewrite (bool_decide_eq_false_2 (Some it = Some from)) by congruence.
  - by rewrite bool_decide_eq_false_2.
Qed.

Definition released (t : Tensor) : Tensor := set_storage t nullptr false 0.

Lemma release_eq this t w : w_objs w !! this = Some t -> tensor_ok (w_heap w) t ->
  T.release_ rt this w =
    (Ret tt, with_objs (with_heap w (freed t (w_heap w))) (<[this := released t]> (w_objs w))).
Proof.
  intros Ht Hok. unfold T.release_, mbind, st_bind, obj. rewrite Ht.
  assert (Hp : forall h, put this (released t) (with_heap w h) =
    (Ret tt, with_objs (with_heap w h) (<[this := released t]> (w_objs w)))) by (intros h; unfold put; cbn; by rewrite Ht).
  destruct (owned_block t) as [b|] eqn:E.
  - destruct (owned_data _ _ _ Hok E) as (Ho & Hd & blk & Hb & Hty & _ & _ & Hr).
    rewrite Ho, Hd. cbn [andb is_null negb]. rewrite (free_eq _ b blk) by done.
    cbn [w_objs with_heap]. rewrite Ht. unfold freed. rewrite E. apply Hp.
  - assert (t_owns t && negb (is_null (t_data t)) = false) as ->.
    { unfold owned_block in E. destruct (t_owns t); [|done]. by destruct (t_data t). }
    cbn. rewrite Ht. unfold freed. rewrite E. rewrite <- Hp. by destruct w.
Qed.

(** Destruction. *)
Definition destroyed (this : positive) (t : Tensor) (w : world) : world :=
  with_slots_table (with_objs (with_heap w (freed t (w_heap w))) (delete this (w_objs w)))
    (if t_jit_slot t >=? 0 then retargeted (t_jit_slot t) this None w else w_slots w).

Lemma dtor_eq this t w : w_objs w !! this = Some t -> tensor_ok (w_heap w) t ->
  T.dtor rt this w = (Ret tt, destroyed this t w).
Proof.
  intros Ht Hok. unfold T.dtor, noexcept, mbind, st_bind. unfold obj at 1. rewrite Ht. cbn iota.
  set (sl := if t_jit_slot t >=? 0 then retargeted (t_jit_slot t) this None w else w_slots w).
  assert ((if t_jit_slot t >=? 0 then call_hook (t_jit_slot t) this None else mret tt) w =
          (Ret tt, with_slots_table w sl)) as ->.
  { unfold sl. destruct (t_jit_slot t >=? 0); [apply call_hook_eq|by destruct w]. }
  rewrite (release_eq this t) by done. unfold drop_obj. cbn. rewrite lookup_insert, decide_True by done.
  unfold destroyed, sl. cbn. by rewrite delete_insert_eq.
Qed.

(** *** Creation *)

Definition fresh_tensor (d : Device) (r c : Z) (dt : Dtype) (p : ptr) (cap : Z) : Tensor :=
  mkTensor p r c dt d (-1) (negb (is_null p)) cap.

(** A world that differs in its counters only. *)
Definition same_mem (w w' : world) : Prop :=
  w_heap w' = w_heap w /\ w_objs w' = w_objs w /\ w_hook w' = w_hook w /\ w_slots w' = w_slots w.

Lemma same_mem_refl w : same_mem w w.
Proof. done. Qed.

Definition blank (d : Device) (r c : Z) (dt : Dtype) : Tensor := fresh_tensor d r c dt nullptr 0.

(** [this] becomes [t], whose [n] bytes were asked of the backend. *)
Definition created (this : positive) (t : Tensor) (h : heap) (w : world) : world :=
  let n := size_of t in
  mkWorld h (<[this := t]> (w_objs w)) (counted n w).1 (counted n w).2 (w_hook w) (w_slots w).

Lemma size_fresh d r c dt p n : size_of (fresh_tensor d r c dt p n) = size_of (blank d r c dt).
Proof. done. Qed.

Lemma blank_shape d r c dt who u who' u' :
  check_dims r c who = Ret u -> check_quant_cols dt c who' = Ret u' -> shape_ok (blank d r c dt).
Proof.
  intros [? ?]%check_dims_inv Hq%check_quant_inv. unfold shape_ok. cbn. intuition.
Qed.

Lemma nonowning_ok h t : shape_ok t -> t_owns t = false -> t_cap_bytes t = 0 -> tensor_ok h t.
Proof. intros Hs Ho Hc. split; [done|]. by rewrite Ho. Qed.

Lemma put_eq id t0 t w : w_objs w !! id = Some t0 ->
  put id t w = (Ret tt, with_objs w (<[id := t]> (w_objs w))).
Proof. intros H. unfold put. by rewrite H. Qed.

Lemma obj_eq id t w : w_objs w !! id = Some t -> obj id w = (Ret t, w).
Proof. intros H. unfold obj. by rewrite H. Qed.

Lemma counted_objs n w o : counted n (with_objs w o) = counted n w.
Proof. done. Qed.

(** The body of [empty_on], once the object is there. *)
Lemma empty_body this d r c dt w0 (w := with_objs w0 (<[this := blank d r c dt]> (w_objs w0))) :
  slot_registered rt (dev_type d) = true \/ slot_registered rt (dev_type (resolve_device_alias rt d)) = false ->
  shape_ok (blank d r c dt) ->
  let t := blank d r c dt in
  let m := (n ← st_lift (bytes t);
     p ← T.backend_alloc rt d n;
     _ ← put this (set_storage t p (negb (is_null p)) 0);
     cap ← (if negb (is_null p) then st_lift (bytes t) else mret 0);
     put this (set_storage t p (negb (is_null p)) cap)) in
  (exists e, m w = (Throw e, with_stats w (counted (size_of t) w).1 (counted (size_of t) w).2)) \/
  (exists p h', m w = (Ret tt, created this (fresh_tensor d r c dt p (size_of t)) h' w0) /\
     allocated d (size_of t) (w_heap w) p h').
Proof.
  intros Hd Hs t m. destruct (bytes_ok t Hs) as [Hb [Hn _]].
  assert (Hm : m w = (p ← T.backend_alloc rt d (size_of t);
     _ ← put this (set_storage t p (negb (is_null p)) 0);
     cap ← (if negb (is_null p) then mret (size_of t) else mret 0);
     put this (set_storage t p (negb (is_null p)) cap)) w).
  { unfold m. rewrite Hb. done. }
  rewrite Hm. unfold mbind, st_bind.
  destruct (backend_alloc_cases d (size_of t) w Hn) as [(_ & e & ->)|(p & h' & -> & Ha)]; [left; by eexists|].
  right. exists p, h'. unfold allocated in *.
  assert (Hlk : w_objs w !! this = Some t) by (cbn; by rewrite lookup_insert, decide_True).
  cbv beta iota. rewrite (put_eq _ t) by done. cbv beta iota.
  assert (E : (if negb (is_null p) then mret (size_of t) else mret 0 : M Z) = mret (size_of t)).
  { destruct p; [done|]. cbn. revert Ha. destruct (Z.eqb_spec (size_of t) 0) as [->|]; [done|].
    intros (b & dv & bs & H & _). discriminate. }
  rewrite E. cbv beta iota delta [mret st_ret].
  rewrite (put_eq _ (set_storage t p (negb (is_null p)) 0)) by (cbn; by rewrite lookup_insert, decide_True).
  split.
  - f_equal. unfold created, fresh_tensor, with_objs, with_heap, with_stats, set_storage. cbn.
    f_equal. by rewrite !insert_insert_eq.
  - revert Ha. destruct (size_of t =? 0); [done|].
    intros (b & dv & bs & H1 & H2 & H3 & H4 & H5 & H6).
    destruct Hd as [Hd|Hd]; [|congruence]. rewrite (resolve_registered d Hd) in H4, H6.
    by exists b, dv, bs.
Qed.

Lemma empty_on_cases this d r c dt w : w_objs w !! this = None ->
  let d' := resolve_device_alias rt d in
  let n := size_of (blank d' r c dt) in
  (exists m w', T.empty_on rt this d r c dt w = (Throw m, w') /\ same_mem w w') \/
  (shape_ok (blank d' r c dt) /\ exists p h',
     T.empty_on rt this d r c dt w = (Ret tt, created this (fresh_tensor d' r c dt p n) h' w) /\
     allocated d' n (w_heap w) p h').
Proof.
  intros Hnone d' n. unfold T.empty_on.
  destruct (check_dims r c (lit "empty_on")) as [u|m|] eqn:E1;
    [|left; do 2 eexists; split; done|by unfold check_dims, throw_if in E1; case_match].
  rewrite (st_bind_ret _ _ _ u w) by done.
  destruct (check_quant_cols dt c (lit "Tensor::empty_on")) as [u'|m|] eqn:E2;
    [|left; do 2 eexists; split; done|by unfold check_quant_cols, throw_if in E2; repeat case_match].
  rewrite (st_bind_ret _ _ _ u' w) by done.
  assert (Hs := blank_shape d' _ _ _ _ _ _ _ E1 E2). cbv zeta.
  change (set_shape (set_device Tensor_default (resolve_device_alias rt d)) r c dt) with (blank d' r c dt).
  rewrite (st_bind_ret _ _ _ tt (with_objs w (<[this := blank d' r c dt]> (w_objs w))))
    by (unfold new_obj; by rewrite Hnone).
  assert (Hd : slot_registered rt (dev_type d') = true \/
               slot_registered rt (dev_type (resolve_device_alias rt d')) = false).
  { unfold d'. rewrite resolve_idemp. destruct (slot_registered rt _); auto. }
  pose proof (empty_body this d' r c dt w Hd Hs) as Hbody. cbv zeta in Hbody. unfold unwinding. fold d'.
  destruct Hbody as [(e & ->)|(p & h' & -> & Ha)].
  - left. rewrite (dtor_eq this (blank d' r c dt)).
    + do 2 eexists. split; [done|]. unfold same_mem, destroyed. cbn.
      by rewrite delete_insert_id.
    + cbn. by rewrite lookup_insert, decide_True.
    + by apply nonowning_ok.
  - right. split; [done|]. exists p, h'. done.
Qed.

(** What [empty_on] leaves keeps the invariant. *)
Lemma wf_created F this t h' w : wf F (w_heap w) (w_objs w) -> w_objs w !! this = None ->
  shape_ok t -> t_owns t = negb (is_null (t_data t)) -> t_cap_bytes t = size_of t ->
  allocated (t_device t) (size_of t) (w_heap w) (t_data t) h' ->
  wf F h' (<[this := t]> (w_objs w)).
Proof.
  intros W Hnone Hs Ho Hc Ha. unfold allocated in Ha. destruct (Z.eqb_spec (size_of t) 0) as [E|Hne].
  - destruct Ha as [Hp ->]. rewrite Hp in Ho. cbn in Ho. apply wf_nonowning; try done.
    + by rewrite Hnone.
    + unfold owned_block. by rewrite Ho.
    + apply nonowning_ok; [done..|]. by rewrite Hc.
  - destruct Ha as (b & dv & bs & Hp & Hb & -> & Hd & Hl & Hr). rewrite Hp in Ho. cbn in Ho.
    apply wf_acquire; try done.
    + by rewrite Hnone.
    + unfold owned_block. by rewrite Ho, Hp.
    + split; [done|]. rewrite Ho. exists b, (mkBlock dv bs). rewrite lookup_insert, decide_True by done.
      cbn. repeat split; try done; lia.
Qed.

(** *** Filling what was just allocated *)

(** An allocation whose bytes satisfy [P]. *)
Definition allocated_as (P : str -> Prop) (d : Device) (n : Z) (h : heap) (p : ptr) (h' : heap) : Prop :=
  if n =? 0 then p = nullptr /\ h' = h
  else exists b dv bs, p = Some (b, 0) /\ h !! b = None /\ h' = <[b := mkBlock dv bs]> h /\
         dev_type dv = dev_type d /\ zlen bs = n /\ slot_registered rt (dev_type d) = true /\ P bs.

Lemma allocated_as_weaken P d n h p h' : allocated_as P d n h p h' -> allocated d n h p h'.
Proof.
  unfold allocated_as, allocated. destruct (n =? 0); [done|].
  intros (b & dv & bs & ? & ? & ? & ? & ? & ? & _). by exists b, dv, bs.
Qed.

Lemma ptr_block t h p n data : ptr_on t h p = true -> load_bytes h p n = Some data ->
  exists b off blk, p = Some (b, off) /\ h !! b = Some blk /\ dev_type (blk_dev blk) = t /\
    0 <= off /\ 0 <= n /\ off + n <= zlen (blk_bytes blk) /\ data = slice off n (blk_bytes blk).
Proof.
  unfold ptr_on, ptr_dev, load_bytes. destruct p as [[b off]|]; [|done].
  destruct (h !! b) as [blk|] eqn:Hb; [|done]. cbn. intros Hd%bool_decide_eq_true.
  destruct (in_block blk off n) eqn:E; [|done]. apply in_block_true in E as (? & ? & ?).
  intros [= <-]. by exists b, off, blk.
Qed.

Lemma fill_block td ts b dv bs h src n data :
  h !! b = None -> ptr_on ts h src = true -> load_bytes h src n = Some data ->
  dev_type dv = td -> zlen bs = n ->
  copy_on td ts (Some (b, 0)) src n (<[b := mkBlock dv bs]> h) = (Ret tt, <[b := mkBlock dv data]> h) /\
  zlen data = n.
Proof.
  intros Hb Hp Hl Hd Hz. destruct (ptr_block _ _ _ _ _ Hp Hl) as (sb & off & blk & -> & Hsb & Hts & Ho & Hn & Hr & ->).
  assert (Hne : b <> sb) by (intros ->; congruence).
  rewrite (copy_on_ok td ts _ b (mkBlock dv bs) sb off blk n); try done.
  - cbn [blk_dev blk_bytes]. rewrite insert_insert_eq, splice_all by by rewrite zlen_slice.
    by rewrite zlen_slice.
  - by rewrite lookup_insert, decide_True.
  - by rewrite lookup_insert_ne.
  - cbn. lia.
Qed.

(** A computation that makes [this] the tensor [fresh_tensor d r c dt _ _]
    with bytes that satisfy [P], or throws with memory as it was. *)
Definition makes (this : positive) (d : Device) (r c : Z) (dt : Dtype) (P : str -> Prop) (m : M unit)
    (w : world) : Prop :=
  let n := size_of (blank d r c dt) in
  (exists e w', m w = (Throw e, w') /\ same_mem w w') \/
  (shape_ok (blank d r c dt) /\ exists p h',
     m w = (Ret tt, created this (fresh_tensor d r c dt p n) h' w) /\
     allocated_as P d n (w_heap w) p h').

Lemma makes_wf F this d r c dt P m w : makes this d r c dt P m w -> w_objs w !! this = None ->
  wf F (w_heap w) (w_objs w) -> let '(r, w') := m w in defined r /\ wf F (w_heap w') (w_objs w').
Proof.
  intros [(e & w' & -> & (H1 & H2 & _))|(Hs & p & h' & -> & Ha)] Hnone W.
  - split; [done|]. by rewrite H1, H2.
  - split; [done|]. cbn. apply wf_created with (w := w); try done.
    by apply (allocated_as_weaken P).
Qed.

Lemma freed_created d r c dt p n h h' P :
  n = size_of (blank d r c dt) -> allocated_as P d n h p h' ->
  freed (fresh_tensor d r c dt p n) h' = h.
Proof.
  intros -> Ha. unfold freed, owned_block. cbn. unfold allocated_as in Ha.
  destruct (_ =? 0).
  - by destruct Ha as [-> ->].
  - destruct Ha as (b & dv & bs & -> & Hb & -> & _). cbn. by rewrite delete_insert_id.
Qed.

Lemma fresh_ok d r c dt p n h h' P :
  shape_ok (blank d r c dt) -> n = size_of (blank d r c dt) -> allocated_as P d n h p h' ->
  tensor_ok h' (fresh_tensor d r c dt p n).
Proof.
  intros Hs -> Ha. split; [done|]. unfold allocated_as in Ha. cbn.
  destruct (Z.eqb_spec (size_of (blank d r c dt)) 0) as [E|].
  - by destruct Ha as [-> ->].
  - destruct Ha as (b & dv & bs & -> & Hb & -> & Hd & Hl & Hr & _). cbn.
    exists b, (mkBlock dv bs). rewrite lookup_insert, decide_True by done. cbn.
    by repeat split.
Qed.

(** A factory that allocates and then runs [body] on the new object. *)
Lemma makes_then this d r c dt P w (body : M unit) (d' := resolve_device_alias rt d)
    (n := size_of (blank d' r c dt)) :
  w_objs w !! this = None ->
  (forall p h', shape_ok (blank d' r c dt) -> allocated d' n (w_heap w) p h' ->
     let w1 := created this (fresh_tensor d' r c dt p n) h' w in
     (exists e, body w1 = (Throw e, w1)) \/
     (exists h'', body w1 = (Ret tt, with_heap w1 h'') /\ allocated_as P d' n (w_heap w) p h'')) ->
  makes this d' r c dt P (_ ← T.empty_on rt this d r c dt; unwinding body (T.dtor rt this)) w.
Proof.
  intros Hnone Hbody. unfold makes.
  destruct (empty_on_cases this d r c dt w Hnone) as [(e & w' & E & Hsm)|(Hs & p & h' & E & Ha)].
  { left. exists e, w'. split; [by apply st_bind_throw|done]. }
  fold d' in E, Hs, Ha. fold n in E, Ha. rewrite (st_bind_ret _ _ _ _ _ E).
  unfold unwinding. destruct (Hbody p h' Hs Ha) as [(e & ->)|(h'' & -> & Ha')].
  - left. assert (Ha1 : allocated_as (fun _ => True) d' n (w_heap w) p h').
    { unfold allocated, allocated_as in *. destruct (n =? 0); [done|].
      destruct Ha as (b & dv & bs & H). exists b, dv, bs. tauto. }
    rewrite (dtor_eq this (fresh_tensor d' r c dt p n)).
    + do 2 eexists. split; [done|]. unfold same_mem, destroyed. cbn [w_heap w_objs w_hook w_slots created with_slots_table with_objs with_heap].
      rewrite (freed_created d' r c dt p n (w_heap w) h' _ eq_refl Ha1). rewrite delete_insert_id by done. done.
    + cbn. by rewrite lookup_insert, decide_True.
    + by eapply fresh_ok.
  - right. split; [done|]. exists p, h''. split; [|done]. by f_equal.
Qed.

(** The two reads every body begins with. *)
Lemma created_obj this t h w : w_objs (created this t h w) !! this = Some t.
Proof. cbn. by rewrite lookup_insert, decide_True. Qed.

Lemma body_reads {A} this d r c dt p n h w (f : Tensor -> Z -> M A) :
  shape_ok (blank d r c dt) ->
  let t := fresh_tensor d r c dt p n in let w1 := created this t h w in
  (t ← obj this; m ← st_lift (bytes t); f t m) w1 = f t (size_of (blank d r c dt)) w1.
Proof.
  intros Hs t w1. rewrite (st_bind_ret _ _ _ t w1) by (apply obj_eq, created_obj).
  apply st_bind_ret. unfold st_lift. f_equal.
  destruct (bytes_ok t) as [E _]; [done|]. exact E.
Qed.

(** A range the client promises can be read: bytes [data] on a device of type
    [t]. *)
Definition readable (t : DeviceType) (h : heap) (p : ptr) (n : Z) (data : str) : Prop :=
  ptr_on t h p = true /\ load_bytes h p n = Some data.

(** The fills, on a block just allocated. *)
Lemma on_heap_eq {A} (m : st heap A) w r h : m (w_heap w) = (r, h) -> on_heap m w = (r, with_heap w h).
Proof. intros H. unfold on_heap. by rewrite H. Qed.

Lemma ptr_on_type t h b blk o : h !! b = Some blk -> ptr_on t h (Some (b, o)) = Dev.is_type t (blk_dev blk).
Proof. intros H. unfold ptr_on, ptr_dev. by rewrite H. Qed.

(** A lawful copy of [n > 0] bytes from [src] to the fresh block [b]. *)
Lemma lawful_fill td ts (copy : st heap unit) b dv bs h src n data :
  (defined (copy_on td ts (Some (b, 0)) src n (<[b := mkBlock dv bs]> h)).1 ->
   copy (<[b := mkBlock dv bs]> h) = copy_on td ts (Some (b, 0)) src n (<[b := mkBlock dv bs]> h)) ->
  h !! b = None -> readable ts h src n data -> dev_type dv = td -> zlen bs = n ->
  copy (<[b := mkBlock dv bs]> h) = (Ret tt, <[b := mkBlock dv data]> h) /\ zlen data = n.
Proof.
  intros Hc Hb [Hp Hl] Hd Hz. destruct (fill_block td ts b dv bs h src n data) as [E Hn]; try done.
  rewrite E in Hc. split; [by apply Hc|done].
Qed.

(** [P]: the bytes are [data]. *)
Lemma filled_as d n h b dv data :
  n <> 0 -> h !! b = None -> dev_type dv = dev_type d -> zlen data = n ->
  slot_registered rt (dev_type d) = true ->
  allocated_as (fun bs => bs = data) d n h (Some (b, 0)) (<[b := mkBlock dv data]> h).
Proof.
  intros Hn Hb Hd Hz Hr. unfold allocated_as. destruct (Z.eqb_spec n 0); [done|]. by exists b, dv, data.
Qed.

Lemma host_fill_ok d d' w p h' src n data :
  d' = resolve_device_alias rt d -> 0 < n -> readable CPU (w_heap w) src n data ->
  allocated d' n (w_heap w) p h' ->
  exists h'', T.host_fill rt d p src n (with_heap w h') = (Ret tt, with_heap w h'') /\
    allocated_as (fun bs => bs = data) d' n (w_heap w) p h''.
Proof.
  intros -> Hn Hrd Ha. unfold allocated in Ha. destruct (Z.eqb_spec n 0); [lia|].
  destruct Ha as (b & dv & bs & -> & Hb & -> & Hd & Hz & Hr).
  exists (<[b := mkBlock dv data]> (w_heap w)).
  assert (Hfin : forall (copy : st heap unit),
    (defined (copy_on (dev_type (resolve_device_alias rt d)) CPU (Some (b, 0)) src n (<[b := mkBlock dv bs]> (w_heap w))).1 ->
     copy (<[b := mkBlock dv bs]> (w_heap w)) =
       copy_on (dev_type (resolve_device_alias rt d)) CPU (Some (b, 0)) src n (<[b := mkBlock dv bs]> (w_heap w))) ->
    on_heap copy (with_heap w (<[b := mkBlock dv bs]> (w_heap w))) =
      (Ret tt, with_heap w (<[b := mkBlock dv data]> (w_heap w))) /\
    allocated_as (fun bs => bs = data) (resolve_device_alias rt d) n (w_heap w) (Some (b, 0))
      (<[b := mkBlock dv data]> (w_heap w))).
  { intros copy Hc. destruct (lawful_fill _ _ copy b dv bs _ src n data Hc) as [E Hl]; try done.
    split; [|by apply filled_as].
    erewrite on_heap_eq by exact E. done. }
  unfold T.host_fill. destruct (eqb_spec d Dev.CPU0) as [->|Hne].
  - apply (Hfin (memcpy (Some (b, 0)) src n)). intros _. done.
  - unfold T.h2d. destruct (alloc_for_cases d) as [(vt & E & L & _)|(m & _ & E)]; [|congruence].
    rewrite (st_bind_ret _ _ _ vt (with_heap w (<[b := mkBlock dv bs]> (w_heap w)))) by (unfold st_lift; by rewrite E).
    apply (Hfin (vt_memcpy_h2d vt (Some (b, 0)) src n (dev_index d))). intros Hdef.
    by apply (law_h2d (t := dev_type (resolve_device_alias rt d))).
Qed.

(** The contract of every host factory: the new tensor has the host
    buffer's bytes. *)
Definition host_source (h : heap) (src : ptr) (n : Z) (data : str) : Prop :=
  n = 0 \/ readable CPU h src n data.

Lemma empty_alloc d h p h' P : allocated d 0 h p h' -> allocated_as P d 0 h p h'.
Proof. done. Qed.

Lemma from_host_typed_makes this d src r c dt w data (d' := resolve_device_alias rt d) :
  w_objs w !! this = None -> host_source (w_heap w) src (size_of (blank d' r c dt)) data ->
  makes this d' r c dt (fun bs => bs = data) (T.from_host_typed rt this d src r c dt) w.
Proof.
  intros Hnone Hsrc. apply makes_then; [done|]. fold d'. intros p h' Hs Ha. right.
  rewrite body_reads by done. destruct (Z.eqb_spec (size_of (blank d' r c dt)) 0) as [E|Hne].
  - exists h'. split; [done|]. rewrite E in *. by apply empty_alloc.
  - destruct Hsrc as [?|Hsrc]; [done|]. pose proof (bytes_ok _ Hs) as [_ ?].
    set (w1 := created this (fresh_tensor d' r c dt p (size_of (blank d' r c dt))) h' w).
    destruct (host_fill_ok d d' (with_heap w1 (w_heap w)) p h' src (size_of (blank d' r c dt)) data)
      as (h'' & E & Ha'); try done; [lia|].
    exists h''. split; [exact E|exact Ha'].
Qed.

Lemma from_raw_bytes_makes this d src r c dt nbytes w data (d' := resolve_device_alias rt d) :
  w_objs w !! this = None ->
  (nbytes = size_of (blank d' r c dt) -> host_source (w_heap w) src nbytes data) ->
  makes this d' r c dt (fun bs => bs = data /\ nbytes = size_of (blank d' r c dt))
    (T.from_raw_bytes_on rt this d src r c dt nbytes) w.
Proof.
  intros Hnone Hsrc. apply makes_then; [done|]. fold d'. intros p h' Hs Ha.
  cbv zeta. rewrite !body_reads by done. destruct (Z.eqb_spec (size_of (blank d' r c dt)) nbytes) as [E|Hne]; cbn [negb];
    [|left; by eexists].
  right. subst nbytes. specialize (Hsrc eq_refl).
  destruct (Z.eqb_spec (size_of (blank d' r c dt)) 0) as [E|Hne].
  - exists h'. split; [done|]. rewrite E in *. by apply empty_alloc.
  - destruct Hsrc as [?|Hsrc]; [done|]. pose proof (bytes_ok _ Hs) as [_ ?].
    set (w1 := created this (fresh_tensor d' r c dt p (size_of (blank d' r c dt))) h' w).
    destruct (host_fill_ok d d' (with_heap w1 (w_heap w)) p h' src (size_of (blank d' r c dt)) data)
      as (h'' & E & Ha'); try done; [lia|].
    exists h''. split; [exact E|]. unfold allocated_as in *. destruct (_ =? 0); [done|].
    destruct Ha' as (b & dv & bs & Ha'). exists b, dv, bs. tauto.
Qed.

(** [zeros]: the bytes are zero. *)
Lemma zeros_on_makes this d r c dt w (d' := resolve_device_alias rt d) :
  w_objs w !! this = None ->
  makes this d' r c dt (fun bs => bs = replicate (Z.to_nat (size_of (blank d' r c dt))) x00)
    (T.zeros_on rt this d r c dt) w.
Proof.
  intros Hnone. apply makes_then; [done|]. fold d'. intros p h' Hs Ha. right.
  rewrite (body_reads this d' r c dt _ _ _ _ (fun t n => T.backend_zero rt d (t_data t) n)) by done.
  set (n := size_of (blank d' r c dt)) in *.
  unfold T.backend_zero, allocated in *. destruct (Z.eqb_spec n 0) as [E|Hne].
  { exists h'. split; [done|]. unfold allocated_as. by rewrite E. }
  destruct Ha as (b & dv & bs & -> & Hb & -> & Hd & Hz & Hr). cbn [is_null orb t_data fresh_tensor].
  pose proof (bytes_ok _ Hs) as [_ ?]. fold n in H.
  destruct (alloc_for_cases d) as [(vt & E & L & _)|(m & _ & E)]; [|unfold d' in Hr; congruence].
  exists (<[b := mkBlock dv (replicate (Z.to_nat n) x00)]> (w_heap w)).
  erewrite st_bind_ret by (unfold st_lift; by rewrite E).
  assert (Hzero : zero_on (dev_type d') (Some (b, 0)) n (<[b := mkBlock dv bs]> (w_heap w)) =
    (Ret tt, <[b := mkBlock dv (replicate (Z.to_nat n) x00)]> (w_heap w))).
  { rewrite (zero_on_ok _ _ b (mkBlock dv bs)); [..|by rewrite lookup_insert, decide_True|done|cbn; lia].
    cbn. rewrite insert_insert_eq, splice_all; [done|]. unfold zlen. rewrite length_replicate. unfold zlen in Hz. lia. }
  split.
  - unfold on_heap. cbn [w_heap created]. rewrite (law_zero (t := dev_type d')); rewrite ?Hzero; try done. lia.
  - unfold allocated_as. destruct (Z.eqb_spec n 0); [done|]. eexists b, dv, _. repeat split; try done.
    unfold zlen. rewrite length_replicate. lia.
Qed.

(** *** Copies between tensors *)

(** A tensor whose contents can be read: its own storage, or a view of a live
    range on its device. *)
Definition source_ok (h : heap) (s : Tensor) : Prop :=
  shape_ok s /\
  (t_data s = nullptr \/ size_of s = 0 \/
   (exists data, readable (dev_type (t_device s)) h (t_data s) (size_of s) data) /\
   slot_registered rt (dev_type (t_device s)) = true).

Lemma owning_source h s : tensor_ok h s -> t_owns s = true -> source_ok h s.
Proof.
  intros [Hs Ho] E. rewrite E in Ho. destruct Ho as (b & blk & Hd & Hb & Hty & Hz & Hle & Hr).
  split; [done|]. right. right. split; [|done].
  pose proof (bytes_ok s Hs) as [_ ?]. rewrite Hd.
  exists (slice 0 (size_of s) (blk_bytes blk)). split.
  - rewrite (ptr_on_type _ _ b blk) by done. by destruct (is_type_spec (dev_type (t_device s)) (blk_dev blk)).
  - apply load_full; [done|]. lia.
Qed.

(** The bytes of the copy are the source's. *)
Definition copy_of (h : heap) (s : Tensor) (bs : str) : Prop :=
  t_data s <> nullptr -> load_bytes h (t_data s) (size_of s) = Some bs.

Lemma skip_copy s h d n p h' : t_data s = nullptr \/ n = 0 ->
  allocated d n h p h' -> allocated_as (copy_of h s) d n h p h'.
Proof.
  unfold allocated, allocated_as. intros Hc. destruct (Z.eqb_spec n 0); [done|].
  intros (b & dv & bs & H). exists b, dv, bs. destruct Hc as [Hc|?]; [|done].
  repeat split; try tauto. intros []. done.
Qed.

(** The reads at the start of a copying body. *)
Lemma copy_reads {A} this s d p n h w (f : Tensor -> Z -> M A) : shape_ok s ->
  let t := fresh_tensor d (t_rows s) (t_cols s) (t_dtype s) p n in let w1 := created this t h w in
  (t ← obj this; m ← st_lift (bytes s); f t m) w1 = f t (size_of s) w1.
Proof.
  intros Hs t w1. rewrite (st_bind_ret _ _ _ t w1) by (apply obj_eq, created_obj).
  apply st_bind_ret. unfold st_lift. f_equal. by destruct (bytes_ok s).
Qed.

(** One backend copy from a source tensor to the fresh block. *)
Lemma backend_copy_ok s d' n w p h' td ts (copy : ptr -> st heap unit) :
  0 < n -> n = size_of s -> t_data s <> nullptr -> source_ok (w_heap w) s ->
  allocated d' n (w_heap w) p h' -> td = dev_type d' -> ts = dev_type (t_device s) ->
  (forall q h, defined (copy_on td ts q (t_data s) n h).1 -> copy q h = copy_on td ts q (t_data s) n h) ->
  exists h'', on_heap (copy p) (with_heap w h') = (Ret tt, with_heap w h'') /\
    allocated_as (copy_of (w_heap w) s) d' n (w_heap w) p h''.
Proof.
  intros Hn -> Hnn (_ & Hsrc) Ha -> -> Hcopy. unfold allocated in Ha.
  destruct (Z.eqb_spec (size_of s) 0) as [|Hne]; [lia|].
  destruct Hsrc as [?|[?|[(data & Hrd) _]]]; [done..|].
  destruct Ha as (b & dv & bs & -> & Hb & -> & Hd & Hz & Hr).
  destruct (lawful_fill (dev_type d') (dev_type (t_device s)) (copy (Some (b, 0))) b dv bs _ _ _ data
              (Hcopy _ _) Hb Hrd Hd Hz) as [E Hl].
  exists (<[b := mkBlock dv data]> (w_heap w)). split; [by erewrite on_heap_eq by exact E|].
  unfold allocated_as. destruct (Z.eqb_spec (size_of s) 0); [done|]. exists b, dv, data.
  repeat split; try done. intros _. apply Hrd.
Qed.

Lemma clone_makes this o s w (d' := resolve_device_alias rt (t_device s)) :
  w_objs w !! o = Some s -> w_objs w !! this = None -> source_ok (w_heap w) s ->
  makes this d' (t_rows s) (t_cols s) (t_dtype s) (copy_of (w_heap w) s) (T.clone rt this o) w.
Proof.
  intros Ho Hnone Hsrc. unfold T.clone, makes. rewrite (st_bind_ret _ _ _ s w) by by apply obj_eq.
  destruct (check_not_symbolic s (lit "clone")) as [u|m|] eqn:E;
    [|left; do 2 eexists; split; done|by unfold check_not_symbolic, throw_if in E; case_match].
  rewrite (st_bind_ret _ _ _ u w) by done.
  apply makes_then; [done|]. fold d'. intros p h' Hs Ha. right. cbv zeta. rewrite copy_reads by apply Hsrc.
  set (w1 := created _ _ _ _). change (size_of (blank d' (t_rows s) (t_cols s) (t_dtype s))) with (size_of s) in *.
  destruct ((size_of s =? 0) || is_null (t_data s)) eqn:Ez.
  { exists h'. split; [done|]. apply skip_copy; [|done].
    apply orb_true_iff in Ez as [?%Z.eqb_eq|?]; [by right|left]. by destruct (t_data s). }
  apply orb_false_iff in Ez as [?%Z.eqb_neq Hn0].
  assert (Hnn : t_data s <> nullptr) by (intros En; by rewrite En in Hn0).
  pose proof (bytes_ok s (proj1 Hsrc)) as [_ ?].
  assert (Hreg : slot_registered rt (dev_type (t_device s)) = true).
  { destruct Hsrc as (_ & [?|[?|[_ ?]]]); done. }
  assert (Hd' : d' = t_device s) by by apply resolve_registered.
  destruct (eqb_spec (t_device s) Dev.CPU0) as [Hc|Hc].
  - apply (backend_copy_ok s d' (size_of s) (with_heap w1 (w_heap w)) p h' CPU CPU
             (fun q => memcpy q (t_data s) (size_of s))); try done; [lia|..|].
    + by rewrite Hd', Hc.
    + by rewrite Hc.
  - destruct (alloc_for_registered _ Hreg) as (vt & E' & L). unfold T.d2d.
    erewrite st_bind_ret by (unfold st_lift; by rewrite E').
    apply (backend_copy_ok s d' (size_of s) (with_heap w1 (w_heap w)) p h' (dev_type (t_device s)) (dev_type (t_device s))
             (fun q => vt_memcpy_d2d vt q (t_data s) (size_of s) (dev_index (t_device s)))); try done; [lia|..].
    + by rewrite Hd'.
    + intros q h Hdef. apply (law_d2d (t := dev_type (t_device s))); [lia|done].
Qed.

(** *** Migration *)

Context (malloc : heap -> Z -> option (positive * str)).
Context (Hmalloc : forall h n b junk, 0 < n ->
  malloc h n = Some (b, junk) -> h !! b = None /\ zlen junk = n).

(** A staging buffer is freed whatever the body does; a body that only
    changes other blocks and returns leaves just those changes. *)
Lemma staging_ok {A} n (body : ptr -> M A) w (Q : A -> heap -> Prop) : 0 < n ->
  (forall b junk, w_heap w !! b = None -> zlen junk = n ->
     exists a h, body (Some (b, 0)) (with_heap w (<[b := mkBlock Dev.CPU0 junk]> (w_heap w))) =
       (Ret a, with_heap w h) /\
       (exists blk, h !! b = Some blk /\ dev_type (blk_dev blk) = CPU) /\ Q a (delete b h)) ->
  (exists e, T.with_staging malloc n body w = (Throw e, w)) \/
  (exists a h, T.with_staging malloc n body w = (Ret a, with_heap w h) /\ Q a h).
Proof.
  intros Hn Hbody. unfold T.with_staging. destruct (malloc (w_heap w) n) as [[b junk]|] eqn:E;
    [|left; by eexists].
  destruct (Hmalloc _ _ _ _ Hn E) as [Hb Hj]. right.
  destruct (Hbody b junk Hb Hj) as (a & h & E' & (blk & Hblk & Hcpu) & HQ).
  exists a, (delete b h). split; [|done]. unfold with_dtor. rewrite E'.
  unfold on_heap, CpuAlloc.std_free. cbn [w_heap with_heap]. rewrite Hblk. cbn.
  unfold Dev.is_cpu, Dev.is_type. by rewrite bool_decide_eq_true_2.
Qed.

Lemma bounce_ok s target w p h' (d' := resolve_device_alias rt target) :
  0 < size_of s -> t_data s <> nullptr -> source_ok (w_heap w) s ->
  allocated d' (size_of s) (w_heap w) p h' ->
  let m := T.bounce rt malloc (t_device s) target p (t_data s) (size_of s) in
  (exists e, m (with_heap w h') = (Throw e, with_heap w h')) \/
  (exists h'', m (with_heap w h') = (Ret tt, with_heap w h'') /\
     allocated_as (copy_of (w_heap w) s) d' (size_of s) (w_heap w) p h'').
Proof.
  intros Hn Hnn (_ & [?|[?|[(data & Hrd) Hreg]]]) Ha m; [done|lia|].
  set (n := size_of s) in *. unfold allocated in Ha. destruct (Z.eqb_spec n 0); [lia|].
  destruct Ha as (b & dv & bs & -> & Hb & -> & Hd & Hz & Hr).
  assert (Hsrc' : forall c blk, w_heap w !! c = None ->
    readable (dev_type (t_device s)) (<[c := blk]> (w_heap w)) (t_data s) n data).
  { intros c blk Hc. destruct Hrd as [Hp Hl].
    destruct (ptr_block _ _ _ _ _ Hp Hl) as (sb & off & sblk & Es & Hsb & _).
    unfold readable, ptr_on, ptr_dev, load_bytes in *. rewrite Es in *.
    rewrite lookup_insert_ne by (intros ->; congruence). done. }
  destruct (alloc_for_registered _ Hreg) as (vts & Es & Ls).
  destruct (alloc_for_cases target) as [(vtd & Ed & Ld & _)|(e & _ & Ed)]; [|unfold d' in Hr; congruence].
  fold d' in Ld.
  destruct (staging_ok n (fun staging => _ ← T.d2h rt (t_device s) staging (t_data s) n;
      T.h2d rt target (Some (b, 0)) staging n) (with_heap w (<[b := mkBlock dv bs]> (w_heap w)))
      (fun _ h => h = <[b := mkBlock dv data]> (w_heap w)) Hn) as [(e & E)|(a & h & E & ->)].
  - cbn [w_heap with_heap]. intros sb junk [Hsb Hne]%lookup_insert_None Hj.
    exists tt, (<[b := mkBlock dv data]> (<[sb := mkBlock Dev.CPU0 data]> (w_heap w))).
    assert (Hdata : zlen data = n).
    { destruct (lawful_fill CPU (dev_type (t_device s)) (copy_on CPU (dev_type (t_device s)) (Some (sb, 0)) (t_data s) n)
        sb Dev.CPU0 junk _ _ _ _ (fun _ => eq_refl) Hsb Hrd eq_refl Hj) as [_ H]. exact H. }
    split; [|split].
    + set (h1 := <[b := mkBlock dv bs]> (w_heap w)).
      assert (Hsb1 : h1 !! sb = None) by (unfold h1; by rewrite lookup_insert_ne).
      destruct (lawful_fill CPU (dev_type (t_device s))
        (vt_memcpy_d2h vts (Some (sb, 0)) (t_data s) n (dev_index (t_device s))) sb Dev.CPU0 junk h1 (t_data s) n data)
        as [E1 _]; try done.
      { intros Hdef. by apply (law_d2h (t := dev_type (t_device s))). }
      { by apply Hsrc'. }
      unfold T.d2h, T.h2d.
      rewrite (st_bind_ret _ _ _ tt (with_heap w (<[sb := mkBlock Dev.CPU0 data]> h1))).
      2:{ erewrite st_bind_ret by (unfold st_lift; by rewrite Es). erewrite on_heap_eq by exact E1. done. }
      erewrite st_bind_ret by (unfold st_lift; by rewrite Ed).
      assert (Hbs : <[sb := mkBlock Dev.CPU0 data]> (w_heap w) !! b = None) by by rewrite lookup_insert_ne.
      destruct (lawful_fill (dev_type d') CPU
        (vt_memcpy_h2d vtd (Some (b, 0)) (Some (sb, 0)) n (dev_index target)) b dv bs
        (<[sb := mkBlock Dev.CPU0 data]> (w_heap w)) (Some (sb, 0)) n data) as [E2 _]; try done.
      { intros Hdef. by apply (law_h2d (t := dev_type d')). }
      { split.
        - by rewrite (ptr_on_type _ _ sb (mkBlock Dev.CPU0 data)) by by rewrite lookup_insert, decide_True.
        - rewrite (load_full _ sb (mkBlock Dev.CPU0 data)); [|by rewrite lookup_insert, decide_True|cbn; lia].
          cbn. by rewrite <- Hdata, slice_all. }
      erewrite on_heap_eq; [done|]. cbn [w_heap with_heap]. unfold h1. rewrite insert_insert_ne by done. exact E2.
    + exists (mkBlock Dev.CPU0 data). rewrite lookup_insert_ne by done.
      by rewrite lookup_insert, decide_True.
    + rewrite delete_insert_ne by done. by rewrite delete_insert_id.
  - left. exists e. exact E.
  - right. exists (<[b := mkBlock dv data]> (w_heap w)). split; [by destruct a|].
    unfold allocated_as. destruct (Z.eqb_spec n 0); [done|]. exists b, dv, data.
    repeat split; try done.
    + destruct (fill_block (dev_type d') (dev_type (t_device s)) b dv bs (w_heap w) (t_data s) n data) as [_ H]; try done; apply Hrd.
    + intros _. apply Hrd.
Qed.

Lemma to_makes this o s target w (d' := resolve_device_alias rt target) :
  w_objs w !! o = Some s -> w_objs w !! this = None -> source_ok (w_heap w) s ->
  makes this d' (t_rows s) (t_cols s) (t_dtype s) (copy_of (w_heap w) s) (T.to rt malloc this o target) w.
Proof.
  intros Ho Hnone Hsrc. unfold T.to. unfold makes at 1. rewrite (st_bind_ret _ _ _ s w) by by apply obj_eq.
  destruct (check_not_symbolic s (lit "to")) as [u|m|] eqn:E;
    [|left; do 2 eexists; split; done|by unfold check_not_symbolic, throw_if in E; case_match].
  rewrite (st_bind_ret _ _ _ u w) by done.
  destruct (eqb_spec target (t_device s)) as [->|Hne]; [by apply clone_makes|].
  apply makes_then; [done|]. fold d'. intros p h' Hs Ha. cbv zeta. rewrite !copy_reads by apply Hsrc.
  set (w1 := created _ _ _ _). change (size_of (blank d' (t_rows s) (t_cols s) (t_dtype s))) with (size_of s) in *.
  destruct ((size_of s =? 0) || is_null (t_data s)) eqn:Ez.
  { right. exists h'. split; [done|]. apply skip_copy; [|done].
    apply orb_true_iff in Ez as [?%Z.eqb_eq|?]; [by right|left]. by destruct (t_data s). }
  apply orb_false_iff in Ez as [?%Z.eqb_neq Hn0].
  assert (Hnn : t_data s <> nullptr) by (intros En; by rewrite En in Hn0).
  pose proof (bytes_ok s (proj1 Hsrc)) as [_ ?]. assert (Hpos : 0 < size_of s) by lia.
  assert (Hreg : slot_registered rt (dev_type (t_device s)) = true).
  { destruct Hsrc as (_ & [?|[?|[_ ?]]]); done. }
  assert (Hrt : slot_registered rt (dev_type d') = true).
  { unfold allocated in Ha. destruct (size_of s =? 0) eqn:Ez; [by apply Z.eqb_eq in Ez|].
    by destruct Ha as (? & ? & ? & ? & ? & ? & ? & ? & ?). }
  destruct (alloc_for_cases target) as [(vt & Ev & L & _)|(e & _ & Ev)]; [|unfold d' in Hrt; congruence].
  fold d' in L.
  set (wh := with_heap w1 (w_heap w)).
  pose proof (bounce_ok s target wh p h' Hpos Hnn Hsrc Ha) as Hbounce.
  cbn [t_data fresh_tensor].
  destruct (Dev.is_cpu (t_device s)) eqn:Ecpu.
  { right. unfold T.h2d. erewrite st_bind_ret by (unfold st_lift; by rewrite Ev).
    apply (backend_copy_ok s d' (size_of s) wh p h' (dev_type d') CPU
             (fun q => vt_memcpy_h2d vt q (t_data s) (size_of s) (dev_index target))); try done.
    - symmetry. by apply bool_decide_eq_true in Ecpu.
    - intros q h Hdef. by apply (law_h2d (t := dev_type d')). }
  destruct (Dev.is_cpu target) eqn:Etc.
  { right. destruct (alloc_for_registered _ Hreg) as (vts & Es & Ls). unfold T.d2h.
    erewrite st_bind_ret by (unfold st_lift; by rewrite Es).
    apply bool_decide_eq_true in Etc.
    apply (backend_copy_ok s d' (size_of s) wh p h' CPU (dev_type (t_device s))
             (fun q => vt_memcpy_d2h vts q (t_data s) (size_of s) (dev_index (t_device s)))); try done.
    - unfold d'. rewrite resolve_not_cuda; congruence.
    - intros q h Hdef. by apply (law_d2h (t := dev_type (t_device s))). }
  case_bool_decide as Ety; [|exact Hbounce].
  rewrite !(st_bind_ret (st_lift (alloc_for rt target)) _ w1 vt w1) by (unfold st_lift; by rewrite Ev).
  destruct (vt_memcpy_peer vt) as [f|] eqn:Ep; [|exact Hbounce]. right.
  assert (Hd' : d' = target) by (apply resolve_registered; by rewrite <- Ety).
  apply (backend_copy_ok s d' (size_of s) wh p h' (dev_type d') (dev_type (t_device s))
           (fun q => f q (dev_index target) (t_data s) (dev_index (t_device s)) (size_of s))); try done.
  rewrite Hd' in L |- *. rewrite Ety. intros q h Hdef. by apply (law_peer (t := dev_type target) (vt := vt)).
Qed.

(** *** Moves *)

(** What a move leaves in its source, and puts in its target. *)
Definition left_behind (s : Tensor) : Tensor :=
  if t_jit_slot s >=? 0 then set_slot (T.moved_from s) (-1) else T.moved_from s.
Definition taken (s : Tensor) : Tensor := if t_jit_slot s >=? 0 then s else set_slot s (-1).

Definition moved_slots (s : Tensor) (from to : positive) (w : world) : gmap Z positive :=
  if t_jit_slot s >=? 0 then retargeted (t_jit_slot s) from (Some to) w else w_slots w.

Lemma move_ctor_eq this o s w : w_objs w !! o = Some s -> w_objs w !! this = None ->
  T.move_ctor this o w =
    (Ret tt, with_slots_table (with_objs w (<[o := left_behind s]> (<[this := s]> (w_objs w)))) (moved_slots s o this w)).
Proof.
  intros Ho Hnone. assert (Hne : this <> o) by (intros ->; congruence).
  unfold T.move_ctor, noexcept. rewrite (st_bind_ret _ _ _ s w) by by apply obj_eq.
  rewrite (st_bind_ret _ _ _ tt (with_objs w (<[this := s]> (w_objs w)))) by (unfold new_obj; by rewrite Hnone).
  rewrite (st_bind_ret _ _ _ tt (with_objs w (<[o := T.moved_from s]> (<[this := s]> (w_objs w)))))
    by (rewrite (put_eq _ s) by (cbn; by rewrite lookup_insert_ne); done).
  unfold left_behind, moved_slots. destruct (t_jit_slot s >=? 0); [|by destruct w].
  rewrite (st_bind_ret _ _ _ (T.moved_from s) (with_objs w (<[o := T.moved_from s]> (<[this := s]> (w_objs w)))))
    by (apply obj_eq; cbn; by rewrite lookup_insert, decide_True).
  rewrite (st_bind_ret _ _ _ tt (with_objs w (<[o := set_slot (T.moved_from s) (-1)]> (<[this := s]> (w_objs w))))).
  2:{ rewrite (put_eq _ (T.moved_from s)) by (cbn; by rewrite lookup_insert, decide_True).
      cbn. unfold with_objs; cbn. by rewrite insert_insert_eq. }
  by rewrite call_hook_eq.
Qed.

(** The world after [this]'s old value is gone. *)
Definition discarded (this : positive) (t : Tensor) (w : world) : world :=
  with_slots_table (with_objs (with_heap w (freed t (w_heap w))) (<[this := set_slot (released t) (-1)]> (w_objs w)))
    (if t_jit_slot t >=? 0 then retargeted (t_jit_slot t) this None w else w_slots w).

Lemma freed_set_slot t k h : freed (set_slot t k) h = freed t h.
Proof. done. Qed.

Lemma move_assign_eq this o t s w : this <> o -> w_objs w !! this = Some t -> w_objs w !! o = Some s ->
  tensor_ok (w_heap w) t ->
  let w1 := discarded this t w in
  T.move_assign rt this o w =
    (Ret tt, with_slots_table (with_objs w1 (<[o := left_behind s]> (<[this := taken s]> (w_objs w)))) (moved_slots s o this w1)).
Proof.
  intros Hne Ht Ho Hok w1. unfold T.move_assign, noexcept. rewrite decide_False by done.
  rewrite (st_bind_ret _ _ _ t w) by by apply obj_eq.
  set (sl := if t_jit_slot t >=? 0 then retargeted (t_jit_slot t) this None w else w_slots w).
  rewrite (st_bind_ret _ _ _ tt (with_slots_table w sl)).
  2:{ unfold sl. destruct (t_jit_slot t >=? 0); [apply call_hook_eq|by destruct w]. }
  rewrite (st_bind_ret _ _ _ tt (with_objs (with_slots_table w sl) (<[this := set_slot t (-1)]> (w_objs w))))
    by (by rewrite (put_eq _ t)).
  rewrite (st_bind_ret _ _ _ tt w1).
  2:{ rewrite (release_eq this (set_slot t (-1))); [|cbn; by rewrite lookup_insert, decide_True|done].
      rewrite freed_set_slot. unfold w1, discarded, with_objs, with_heap, with_slots_table. cbn.
      by rewrite insert_insert_eq. }
  assert (Hlo : w_objs w1 !! o = Some s) by (cbn; by rewrite lookup_insert_ne).
  assert (Hlt : w_objs w1 !! this = Some (set_slot (released t) (-1))) by (cbn; by rewrite lookup_insert, decide_True).
  rewrite (st_bind_ret _ _ _ s w1) by by apply obj_eq.
  rewrite (st_bind_ret _ _ _ tt (with_objs w1 (<[this := set_slot s (-1)]> (w_objs w)))).
  2:{ rewrite (put_eq _ _ _ _ Hlt). cbn. unfold w1, discarded, with_objs. cbn. by rewrite insert_insert_eq. }
  rewrite (st_bind_ret _ _ _ tt (with_objs w1 (<[o := T.moved_from s]> (<[this := set_slot s (-1)]> (w_objs w))))).
  2:{ rewrite (put_eq _ s); [done|]. cbn. by rewrite lookup_insert_ne. }
  unfold left_behind, taken, moved_slots. destruct (t_jit_slot s >=? 0); [|done].
  rewrite (st_bind_ret _ _ _ tt (with_objs w1 (<[o := T.moved_from s]> (<[this := s]> (w_objs w))))).
  2:{ rewrite (put_eq _ (set_slot s (-1))).
      - unfold with_objs; cbn. do 2 f_equal. rewrite (insert_insert_ne _ this o) by done. by rewrite insert_insert_eq.
      - cbn. rewrite lookup_insert_ne by done. by rewrite lookup_insert, decide_True. }
  rewrite (st_bind_ret _ _ _ (T.moved_from s) (with_objs w1 (<[o := T.moved_from s]> (<[this := s]> (w_objs w)))))
    by (apply obj_eq; cbn; by rewrite lookup_insert, decide_True).
  rewrite (st_bind_ret _ _ _ tt (with_objs w1 (<[o := set_slot (T.moved_from s) (-1)]> (<[this := s]> (w_objs w))))).
  2:{ rewrite (put_eq _ (T.moved_from s)) by (cbn; by rewrite lookup_insert, decide_True).
      cbn. unfold with_objs; cbn. by rewrite insert_insert_eq. }
  by rewrite call_hook_eq.
Qed.

(** *** The tracer's table through changes *)

Section Jit.
Context (o : gmap positive Tensor) (hook : bool) (slots : gmap Z positive) (J : jit_inv o hook slots).

Lemma jit_slot_of id t : o !! id = Some t -> 0 <= t_jit_slot t ->
  hook = true /\ slots !! t_jit_slot t = Some id.
Proof.
  destruct J as (Hh & Hs & _). intros Hid Hp. split; [|by apply (Hs id t)].
  destruct Hh as [?|Hh]; [done|]. specialize (Hh _ _ Hid). lia.
Qed.

(** An object that is not symbolic appears, changes or goes. *)
Lemma jit_insert id t : (forall t0, o !! id = Some t0 -> t_jit_slot t0 < 0) -> t_jit_slot t < 0 ->
  jit_inv (<[id := t]> o) hook slots.
Proof.
  destruct J as (Hh & Hs & Ht). intros H0 Hn. split; [|split].
  - destruct Hh as [?|Hh]; [by left|right]. intros i ti. rewrite lookup_insert_Some.
    intros [[<- <-]|[? ?]]; [done|by apply (Hh i)].
  - intros i ti. rewrite lookup_insert_Some. intros [[<- <-]|[? ?]]; [lia|by apply Hs].
  - intros k i Hk. destruct (Ht _ _ Hk) as (ti & Hi & Hj & Hp). exists ti. split; [|done].
    rewrite lookup_insert_ne; [done|]. intros <-. specialize (H0 _ Hi). lia.
Qed.

Lemma jit_delete id t : o !! id = Some t -> t_jit_slot t < 0 -> jit_inv (delete id o) hook slots.
Proof.
  destruct J as (Hh & Hs & Ht). intros H0 Hn. split; [|split].
  - destruct Hh as [?|Hh]; [by left|right]. intros i ti [_ H]%lookup_delete_Some. by apply (Hh i).
  - intros i ti [_ H]%lookup_delete_Some. by apply Hs.
  - intros k i Hk. destruct (Ht _ _ Hk) as (ti & Hi & Hj & Hp). exists ti. split; [|done].
    rewrite lookup_delete_ne; [done|]. intros <-. rewrite H0 in Hi. injection Hi as <-. lia.
Qed.

(** A symbolic object stops being one. *)
Lemma jit_forget id t t' : o !! id = Some t -> 0 <= t_jit_slot t -> t_jit_slot t' < 0 ->
  jit_inv (<[id := t']> o) hook (delete (t_jit_slot t) slots).
Proof.
  intros Hid Hp Hn. destruct (jit_slot_of id t Hid Hp) as [Hhk Hsl]. destruct J as (Hh & Hs & Ht).
  split; [by left|]. split.
  - intros i ti. rewrite lookup_insert_Some. intros [[<- <-]|[Hne Hi]]; [lia|]. intros Hpi.
    destruct (Hs i ti Hi Hpi) as (? & ? & Hsi). repeat split; try done.
    rewrite lookup_delete_ne; [done|]. intros E. congruence.
  - intros k i [Hne Hk]%lookup_delete_Some. destruct (Ht _ _ Hk) as (ti & Hi & Hj & Hpk). exists ti.
    split; [|done]. rewrite lookup_insert_ne; [done|]. intros <-. rewrite Hid in Hi. injection Hi as <-. done.
Qed.

(** A symbolic object moves to a place that held nothing symbolic. *)
Lemma jit_move from to t t' : from <> to -> o !! from = Some t -> 0 <= t_jit_slot t ->
  (forall t0, o !! to = Some t0 -> t_jit_slot t0 < 0) -> t_jit_slot t' < 0 ->
  jit_inv (<[from := t']> (<[to := t]> o)) hook (<[t_jit_slot t := to]> slots).
Proof.
  intros Hne Hid Hp H0 Hn. destruct (jit_slot_of from t Hid Hp) as [Hhk Hsl]. destruct J as (Hh & Hs & Ht).
  split; [by left|]. split.
  - intros i ti. rewrite !lookup_insert_Some. intros [[<- <-]|[Hi [[<- <-]|[Hi' Hl]]]] Hpi; [lia| |].
    + destruct (Hs _ _ Hid Hp) as (? & ? & _). repeat split; try done. by left.
    + destruct (Hs i ti Hl Hpi) as (? & ? & Hsi). repeat split; try done.
      right. split; [|done]. intros E. congruence.
  - intros k i. rewrite lookup_insert_Some. intros [[<- <-]|[Hk Hki]].
    + exists t. split; [|done]. rewrite lookup_insert_ne by done. by rewrite lookup_insert, decide_True.
    + destruct (Ht _ _ Hki) as (ti & Hi & Hj & Hpk). exists ti. split; [|done].
      rewrite !lookup_insert_ne; [done|..]; intros <-; [specialize (H0 _ Hi); lia|].
      rewrite Hid in Hi. injection Hi as <-. done.
Qed.
End Jit.

Lemma retargeted_eq slot from to w : w_hook w = true -> w_slots w !! slot = Some from ->
  retargeted slot from to w =
    match to with Some q => <[slot := q]> (w_slots w) | None => delete slot (w_slots w) end.
Proof. intros H1 H2. unfold retargeted. rewrite H1, bool_decide_eq_true_2 by done. done. Qed.

Lemma gtz_spec z : (z >=? 0) = true <-> 0 <= z.
Proof. rewrite Z.geb_le. done. Qed.

(** *** The operations keep both invariants *)

Section Invariant.
Context (F : gset positive).

Lemma tensor_ok_moved h t : tensor_ok h (T.moved_from t).
Proof.
  apply nonowning_ok; try done. unfold shape_ok. cbn. intuition lia.
Qed.

Lemma owned_moved t : owned_block (T.moved_from t) = None.
Proof. done. Qed.

Lemma left_behind_ok h t : tensor_ok h (left_behind t) /\ owned_block (left_behind t) = None.
Proof.
  unfold left_behind. destruct (t_jit_slot t >=? 0); split; try done; apply (tensor_ok_moved h t).
Qed.

Lemma left_behind_slot t : t_jit_slot (left_behind t) < 0.
Proof. unfold left_behind. destruct (t_jit_slot t >=? 0) eqn:E; cbn; [lia|]. destruct (Z.geb_spec (t_jit_slot t) 0); [done|lia]. Qed.

Lemma released_ok h t : shape_ok t -> tensor_ok h (released t) /\ owned_block (released t) = None.
Proof. intros Hs. split; [by apply nonowning_ok|done]. Qed.

Lemma dtor_inv this t w : inv F w -> w_objs w !! this = Some t ->
  exists w', T.dtor rt this w = (Ret tt, w') /\ inv F w' /\ w_objs w' = delete this (w_objs w) /\
    w_heap w' = freed t (w_heap w).
Proof.
  intros [W J] Ht. pose proof (wf_obj _ _ _ W _ _ Ht) as Hok.
  exists (destroyed this t w). split; [by apply dtor_eq|]. split; [|done]. split; cbn [destroyed w_heap w_objs w_hook w_slots with_slots_table with_objs with_heap].
  - rewrite <- (delete_insert_eq (w_objs w) this (released t)).
    destruct (released_ok (freed t (w_heap w)) t (proj1 Hok)) as [H1 H2].
    apply (wf_drop F _ _ (wf_release F _ _ W this t (released t) Ht H2 H1) this (released t)); [|done].
    by rewrite lookup_insert, decide_True.
  - destruct (t_jit_slot t >=? 0) eqn:E.
    + apply gtz_spec in E. destruct (jit_slot_of _ _ _ J _ _ Ht E) as [Hh Hs].
      rewrite retargeted_eq by done. rewrite <- (delete_insert_eq (w_objs w) this (left_behind t)).
      eapply jit_delete; [|by rewrite lookup_insert, decide_True|apply left_behind_slot].
      apply jit_forget; try done. apply left_behind_slot.
    + eapply jit_delete; try done. destruct (Z.geb_spec (t_jit_slot t) 0); [done|lia].
Qed.

Lemma move_ctor_inv this o s w : inv F w -> w_objs w !! o = Some s -> w_objs w !! this = None ->
  exists w', T.move_ctor this o w = (Ret tt, w') /\ inv F w' /\ w_heap w' = w_heap w /\
    w_objs w' = <[o := left_behind s]> (<[this := s]> (w_objs w)).
Proof.
  intros [W J] Ho Hnone. assert (Hne : this <> o) by (intros ->; congruence).
  eexists. split; [by apply move_ctor_eq|]. split; [|done].
  destruct (left_behind_ok (w_heap w) s) as [Hl1 Hl2].
  split; cbn [w_heap w_objs w_hook w_slots with_slots_table with_objs].
  - rewrite insert_insert_ne by done.
    assert (W1 : wf F (w_heap w) (<[this := T.moved_from s]> (w_objs w))).
    { apply wf_nonowning; try done; [by rewrite Hnone|apply tensor_ok_moved]. }
    pose proof (wf_transfer F _ _ W1 this o s (T.moved_from s) (left_behind s) ltac:(done)
      ltac:(by rewrite lookup_insert_ne) ltac:(by rewrite lookup_insert, decide_True) ltac:(done) Hl2 Hl1 s ltac:(done)
      (wf_obj _ _ _ W _ _ Ho)) as W2.
    rewrite (insert_insert_ne _ o this), insert_insert_eq in W2 by done. done.
  - unfold moved_slots. destruct (t_jit_slot s >=? 0) eqn:E.
    + apply gtz_spec in E. destruct (jit_slot_of _ _ _ J _ _ Ho E) as [Hh Hs].
      rewrite retargeted_eq by done. apply jit_move; try done; [by rewrite Hnone|apply left_behind_slot].
    + assert (t_jit_slot s < 0) by (destruct (Z.geb_spec (t_jit_slot s) 0); [done|lia]).
      apply jit_insert; [apply jit_insert; [done|by rewrite Hnone|done]| |apply left_behind_slot].
      intros t0. rewrite lookup_insert_ne by done. rewrite Ho. by intros [= <-].
Qed.

Lemma slot_neg t : (t_jit_slot t >=? 0) = false -> t_jit_slot t < 0.
Proof. destruct (Z.geb_spec (t_jit_slot t) 0); [done|lia]. Qed.

(** The target of an assignment gives up its value. *)
Lemma discarded_inv this t w : inv F w -> w_objs w !! this = Some t -> inv F (discarded this t w).
Proof.
  intros [W J] Ht. pose proof (wf_obj _ _ _ W _ _ Ht) as Hok.
  assert (Hr : forall h, tensor_ok h (set_slot (released t) (-1)) /\ owned_block (set_slot (released t) (-1)) = None).
  { intros h. apply (released_ok h t). apply Hok. }
  split; cbn [discarded w_heap w_objs w_hook w_slots with_slots_table with_objs with_heap].
  - apply wf_release; try done; apply Hr.
  - destruct (t_jit_slot t >=? 0) eqn:E.
    + apply gtz_spec in E. destruct (jit_slot_of _ _ _ J _ _ Ht E) as [Hh Hs].
      rewrite retargeted_eq by done. by apply jit_forget.
    + apply jit_insert; try done. intros t0. rewrite Ht. intros [= <-]. by apply slot_neg.
Qed.

Lemma move_assign_inv this o t s w : this <> o -> inv F w ->
  w_objs w !! this = Some t -> w_objs w !! o = Some s ->
  exists w', T.move_assign rt this o w = (Ret tt, w') /\ inv F w' /\
    w_heap w' = freed t (w_heap w) /\
    w_objs w' = <[o := left_behind s]> (<[this := taken s]> (w_objs w)).
Proof.
  intros Hne I Ht Ho. pose proof (discarded_inv this t w I Ht) as [W1 J1].
  eexists. split; [apply (move_assign_eq this o t s); try done; by eapply (wf_obj _ _ _ (proj1 I))|].
  split; [|done]. set (w1 := discarded this t w) in *.
  assert (Ho1 : w_objs w1 !! o = Some s) by (cbn; by rewrite lookup_insert_ne).
  assert (Ht1 : w_objs w1 !! this = Some (set_slot (released t) (-1))) by (cbn; by rewrite lookup_insert, decide_True).
  assert (Hobjs : forall x, <[this := x]> (w_objs w1) = <[this := x]> (w_objs w)) by (intros x; cbn; by rewrite insert_insert_eq).
  destruct (left_behind_ok (w_heap w1) s) as [Hl1 Hl2].
  split; cbn [w_heap w_objs w_hook w_slots with_slots_table with_objs].
  - rewrite <- (Hobjs (taken s)), (insert_insert_ne (w_objs w1) o this) by done.
    apply (wf_transfer F _ _ W1 this o s _ _ ltac:(done) Ho1 Ht1 ltac:(done) Hl2 Hl1).
    + unfold taken. by destruct (t_jit_slot s >=? 0).
    + pose proof (wf_obj _ _ _ W1 _ _ Ho1). unfold taken. by destruct (t_jit_slot s >=? 0).
  - rewrite <- (Hobjs (taken s)). unfold moved_slots, taken. destruct (t_jit_slot s >=? 0) eqn:E.
    + apply gtz_spec in E. destruct (jit_slot_of _ _ _ J1 _ _ Ho1 E) as [Hh Hs].
      rewrite retargeted_eq by done. apply jit_move; try done; [|apply left_behind_slot].
      intros t0. rewrite Ht1. by intros [= <-].
    + apply slot_neg in E. apply jit_insert; [apply jit_insert; [done| |done]| |apply left_behind_slot].
      * intros t0. rewrite Ht1. by intros [= <-].
      * intros t0. rewrite lookup_insert_ne by done. rewrite Ho1. by intros [= <-].
Qed.

Lemma same_mem_inv w w' : same_mem w w' -> inv F w -> inv F w'.
Proof. intros (H1 & H2 & H3 & H4). unfold inv. by rewrite H1, H2, H3, H4. Qed.

Lemma makes_inv this d r c dt P m w : makes this d r c dt P m w -> w_objs w !! this = None -> inv F w ->
  defined (m w).1 /\ inv F (m w).2.
Proof.
  intros Hm Hnone [W J]. pose proof (makes_wf F _ _ _ _ _ _ _ _ Hm Hnone W) as H.
  destruct Hm as [(e & w' & E & Hsm)|(Hs & p & h' & E & Ha)]; rewrite E in *.
  - split; [done|]. by apply (same_mem_inv w).
  - split; [done|]. split; [apply H|]. cbn. apply jit_insert; [done|by rewrite Hnone|cbn; lia].
Qed.

(** A clone moved into [this]. *)
Lemma assign_clone_spec this o t s w (d := resolve_device_alias rt (t_device s)) :
  this <> o -> inv F w -> w_objs w !! this = Some t -> w_objs w !! o = Some s -> source_ok (w_heap w) s ->
  (exists e w', T.assign_clone rt this o w = (Throw e, w') /\ same_mem w w') \/
  (exists p h' w', T.assign_clone rt this o w = (Ret tt, w') /\ inv F w' /\
     allocated_as (copy_of (w_heap w) s) d (size_of s) (w_heap w) p h' /\
     w_heap w' = freed t h' /\
     w_objs w' = <[this := fresh_tensor d (t_rows s) (t_cols s) (t_dtype s) p (size_of s)]> (w_objs w)).
Proof.
  intros Hne I Ht Ho Hsrc. unfold T.assign_clone. set (tmp := fresh _).
  assert (Htmp : tmp ∉ {[this; o]} ∪ dom (w_objs w)) by apply is_fresh.
  assert (w_objs w !! tmp = None /\ tmp <> this /\ tmp <> o) as (Hnone & Hnt & Hno).
  { clearbody tmp. clear -Htmp. split; [apply not_elem_of_dom; set_solver|set_solver]. }
  pose proof (clone_makes tmp o s w Ho Hnone Hsrc) as Hmk. fold d in Hmk.
  pose proof (makes_inv _ _ _ _ _ _ _ _ Hmk Hnone I) as [_ I1].
  destruct Hmk as [(e & w' & E & Hsm)|(Hs & p & h' & E & Ha)].
  { left. exists e, w'. split; [by apply st_bind_throw|done]. }
  right. rewrite (st_bind_ret _ _ _ _ _ E). rewrite E in I1. cbn [snd] in I1.
  change (size_of (blank d (t_rows s) (t_cols s) (t_dtype s))) with (size_of s) in *.
  set (ft := fresh_tensor d (t_rows s) (t_cols s) (t_dtype s) p (size_of s)) in *.
  set (w1 := created tmp ft h' w) in *.
  assert (Ht1 : w_objs w1 !! this = Some t) by (cbn; by rewrite lookup_insert_ne).
  destruct (move_assign_inv this tmp t ft w1 (not_eq_sym Hnt) I1 Ht1 (created_obj tmp ft h' w)) as (w2 & E2 & I2 & Hh2 & Ho2).
  assert (Ht2 : w_objs w2 !! tmp = Some (left_behind ft)) by (rewrite Ho2; by rewrite lookup_insert, decide_True).
  destruct (dtor_inv tmp _ w2 I2 Ht2) as (w3 & E3 & I3 & Ho3 & Hh3).
  exists p, h', w3. unfold with_dtor. rewrite E2, E3. split; [done|]. split; [done|]. split; [done|]. split.
  - rewrite Hh3, Hh2. unfold freed at 1. by destruct (left_behind_ok (w_heap w) ft) as [_ ->].
  - rewrite Ho3, Ho2, delete_insert_eq. cbn. rewrite insert_insert_ne by done.
    rewrite delete_insert_id; [done|]. by rewrite lookup_insert_ne.
Qed.

Lemma copy_assign_spec this o t s w (d := resolve_device_alias rt (t_device s)) :
  this <> o -> inv F w -> w_objs w !! this = Some t -> w_objs w !! o = Some s -> source_ok (w_heap w) s ->
  (exists e w', T.copy_assign rt this o w = (Throw e, w') /\ same_mem w w') \/
  (t_jit_slot s < 0 /\ exists p h' w', T.copy_assign rt this o w = (Ret tt, w') /\ inv F w' /\
     allocated_as (copy_of (w_heap w) s) d (size_of s) (w_heap w) p h' /\
     w_heap w' = freed t h' /\
     w_objs w' = <[this := fresh_tensor d (t_rows s) (t_cols s) (t_dtype s) p (size_of s)]> (w_objs w)).
Proof.
  intros Hne I Ht Ho Hsrc. unfold T.copy_assign. rewrite decide_False by done.
  rewrite (st_bind_ret _ _ _ s w) by by apply obj_eq.
  destruct (check_not_symbolic s (lit "copy")) as [u|m|] eqn:E;
    [|left; do 2 eexists; split; done|by unfold check_not_symbolic, throw_if in E; case_match].
  rewrite (st_bind_ret _ _ _ u w) by done.
  assert (t_jit_slot s < 0) by (apply slot_neg; by apply throw_if_ret in E).
  destruct (assign_clone_spec this o t s w Hne I Ht Ho Hsrc); [by left|by right].
Qed.

Lemma default_ok h : tensor_ok h Tensor_default.
Proof. apply nonowning_ok; try done. unfold shape_ok. cbn. intuition lia. Qed.

Lemma new_default_inv this w : inv F w -> w_objs w !! this = None ->
  inv F (with_objs w (<[this := Tensor_default]> (w_objs w))).
Proof.
  intros [W J] Hnone. split; cbn.
  - apply wf_nonowning; try done; [by rewrite Hnone|apply default_ok].
  - apply jit_insert; [done|by rewrite Hnone|done].
Qed.

Lemma copy_ctor_spec this o s w (d := resolve_device_alias rt (t_device s)) :
  inv F w -> w_objs w !! this = None -> w_objs w !! o = Some s -> source_ok (w_heap w) s ->
  (exists e w', T.copy_ctor rt this o w = (Throw e, w') /\ same_mem w w') \/
  (t_jit_slot s < 0 /\ exists p h' w', T.copy_ctor rt this o w = (Ret tt, w') /\ inv F w' /\
     allocated_as (copy_of (w_heap w) s) d (size_of s) (w_heap w) p h' /\
     w_heap w' = h' /\
     w_objs w' = <[this := fresh_tensor d (t_rows s) (t_cols s) (t_dtype s) p (size_of s)]> (w_objs w)).
Proof.
  intros I Hnone Ho Hsrc. assert (Hne : this <> o) by (intros ->; congruence). unfold T.copy_ctor.
  set (w0 := with_objs w (<[this := Tensor_default]> (w_objs w))).
  rewrite (st_bind_ret _ _ _ tt w0) by (unfold new_obj; by rewrite Hnone).
  assert (Ho0 : w_objs w0 !! o = Some s) by (cbn; by rewrite lookup_insert_ne).
  assert (Ht0 : w_objs w0 !! this = Some Tensor_default) by (cbn; by rewrite lookup_insert, decide_True).
  assert (Hdrop : forall w', same_mem w0 w' -> exists w'', drop_obj this w' = (Ret tt, w'') /\ same_mem w w'').
  { intros w' (H1 & H2 & H3 & H4). unfold drop_obj. rewrite H2, Ht0. eexists. split; [done|].
    unfold same_mem. cbn. rewrite H1, H3, H4. rewrite delete_insert_eq, delete_id by done. done. }
  unfold unwinding. rewrite (st_bind_ret _ _ _ s w0) by by apply obj_eq.
  destruct (check_not_symbolic s (lit "copy")) as [u|m|] eqn:E;
    [|left; destruct (Hdrop w0 (same_mem_refl _)) as (w'' & E2 & Hsm); exists m, w''; split; [|done];
      rewrite (st_bind_throw (st_lift (Throw m)) _ w0 m w0 eq_refl); by rewrite E2
     |by unfold check_not_symbolic, throw_if in E; case_match].
  rewrite (st_bind_ret _ _ _ u w0) by done.
  assert (t_jit_slot s < 0) by (apply slot_neg; by apply throw_if_ret in E).
  destruct (assign_clone_spec this o Tensor_default s w0 Hne (new_default_inv _ _ I Hnone) Ht0 Ho0 Hsrc)
    as [(e & w' & -> & Hsm)|(p & h' & w' & -> & I' & Ha & Hh & Hob)].
  - left. destruct (Hdrop w' Hsm) as (w'' & -> & ?). by exists e, w''.
  - right. split; [done|]. exists p, h', w'. split; [done|]. split; [done|]. split; [done|]. split; [exact Hh|].
    revert Hob. cbn. by rewrite insert_insert_eq.
Qed.

(** *** Mutators *)

Definition grown (t : Tensor) (r c : Z) (dt : Dtype) (p : ptr) (n : Z) : Tensor :=
  mkTensor p r c dt (resolve_device_alias rt (t_device t)) (t_jit_slot t) (negb (is_null p)) n.

(** [resize]: refused with nothing changed; or a no-op; or a new shape on
    the same storage, with no allocation; or new storage. Only the last can
    fail late, and then the old storage is gone and the shape is not. *)
Lemma resize_spec this t r c dt w (n := size_of (set_shape t r c dt)) :
  inv F w -> w_objs w !! this = Some t ->
  let m := T.resize rt this r c dt w in
  (exists e, m = (Throw e, w)) \/
  (0 <= r /\ 0 <= c /\ t_jit_slot t < 0 /\ shape_ok (set_shape t r c dt) /\
   ((r = t_rows t /\ c = t_cols t /\ dt = t_dtype t /\ t_data t <> nullptr /\ m = (Ret tt, w)) \/
    (t_owns t = true /\ n <= t_cap_bytes t /\
     m = (Ret tt, with_objs w (<[this := set_shape t r c dt]> (w_objs w)))) \/
    ((t_cap_bytes t < n \/ t_owns t = false) /\
     let w1 := mkWorld (freed t (w_heap w)) (<[this := set_device (released t) (resolve_device_alias rt (t_device t))]> (w_objs w))
                 (counted n w).1 (counted n w).2 (w_hook w) (w_slots w) in
     ((exists e, m = (Throw e, w1)) \/
      (exists p h', allocated (resolve_device_alias rt (t_device t)) n (freed t (w_heap w)) p h' /\
         m = (Ret tt, mkWorld h' (<[this := grown t r c dt p n]> (w_objs w))
                 (counted n w).1 (counted n w).2 (w_hook w) (w_slots w))))))).
Proof.
  intros I Ht m. unfold m, T.resize. rewrite (st_bind_ret _ _ _ t w) by by apply obj_eq.
  destruct (check_not_symbolic t (lit "resize")) as [u|e|] eqn:E0;
    [|left; by eexists|by unfold check_not_symbolic, throw_if in E0; case_match].
  rewrite (st_bind_ret _ _ _ u w) by done.
  assert (Hslot : t_jit_slot t < 0) by (apply slot_neg; by apply throw_if_ret in E0).
  destruct (check_dims r c (lit "resize")) as [u1|e|] eqn:E1;
    [|left; by eexists|by unfold check_dims, throw_if in E1; case_match].
  rewrite (st_bind_ret _ _ _ u1 w) by done.
  destruct (check_quant_cols dt c (lit "Tensor::resize")) as [u2|e|] eqn:E2;
    [|left; by eexists|by unfold check_quant_cols, throw_if in E2; repeat case_match].
  rewrite (st_bind_ret _ _ _ u2 w) by done.
  apply check_dims_inv in E1 as [Hr Hc]. apply check_quant_inv in E2.
  assert (Hs : shape_ok (set_shape t r c dt)) by (unfold shape_ok; cbn; intuition).
  destruct ((r =? t_rows t) && (c =? t_cols t) && dtype_eqb dt (t_dtype t) && negb (is_null (t_data t))) eqn:Esame.
  { right. repeat (split; [done|]). left. bool_facts. unfold dtype_eqb in *.
    repeat split; try done; [by eapply bool_decide_eq_true|]. intros En. rewrite En in *. done. }
  rewrite (st_bind_ret _ _ _ n w) by (unfold st_lift; by rewrite (size_shape t)).
  destruct (negb (t_owns t) && negb (is_null (t_data t))) eqn:Eview; [left; by eexists|].
  right. repeat (split; [done|]). right.
  destruct ((n >? t_cap_bytes t) || negb (t_owns t)) eqn:Egrow.
  2:{ left. apply orb_false_iff in Egrow as [E3 E4]. rewrite Z.gtb_ltb in E3. bool_facts.
      split; [done|]. split; [lia|]. rewrite (st_bind_ret _ _ _ tt w) by done.
      rewrite (st_bind_ret _ _ _ t w) by by apply obj_eq. by apply put_eq with (t0 := t). }
  right. split.
  { apply orb_true_iff in Egrow as [E3|E3]; [left; rewrite Z.gtb_ltb in E3|right]; bool_facts; auto. }
  set (d := resolve_device_alias rt (t_device t)).
  pose proof (wf_obj _ _ _ (proj1 I) _ _ Ht) as Hok.
  set (w0 := with_objs (with_heap w (freed t (w_heap w))) (<[this := released t]> (w_objs w))).
  set (w2 := with_objs w0 (<[this := set_device (released t) d]> (w_objs w))).
  assert (Hpre : forall (k : M unit),
    ((_ ← T.release_ rt this; t ← obj this; _ ← put this (set_device t (resolve_device_alias rt (t_device t)));
      p ← T.backend_alloc rt (resolve_device_alias rt (t_device t)) n; t ← obj this;
      put this (set_storage t p (negb (is_null p)) (if negb (is_null p) then n else 0))) ;; k) w =
    ((p ← T.backend_alloc rt d n; t ← obj this;
      put this (set_storage t p (negb (is_null p)) (if negb (is_null p) then n else 0))) ;; k) w2).
  { intros k. unfold mbind at 1 2 3 4, st_bind at 1 2 3 4. rewrite (release_eq this t) by done.
    change (with_objs _ _) with w0.
    assert (Hl0 : w_objs w0 !! this = Some (released t)) by (cbn; by rewrite lookup_insert, decide_True).
    unfold mbind at 1 2 3, st_bind at 1 2 3. rewrite (obj_eq this (released t)) by done. cbv beta iota.
    rewrite (put_eq this (released t)) by done.
    assert (with_objs w0 (<[this := set_device (released t) (resolve_device_alias rt (t_device (released t)))]> (w_objs w0)) = w2) as ->.
    { unfold w2, w0, with_objs. cbn. by rewrite insert_insert_eq. }
    done. }
  rewrite Hpre. pose proof (bytes_ok _ Hs) as [_ [Hn _]]. fold n in Hn.
  assert (Hl2 : w_objs w2 !! this = Some (set_device (released t) d)) by (cbn; by rewrite lookup_insert, decide_True).
  destruct (backend_alloc_cases d n w2 Hn) as [(_ & e & E)|(p & h' & E & Ha)].
  - left. exists e. do 2 (rewrite st_bind_throw with (e := e) (s' := with_stats w2 (counted n w2).1 (counted n w2).2); [done|]).
    exact E.
  - right. exists p, h'. unfold d in Ha at 1. rewrite resolve_idemp in Ha. split; [exact Ha|].
    set (w3 := with_heap (with_stats w2 (counted n w2).1 (counted n w2).2) h') in *.
    set (t4 := set_storage (set_device (released t) d) p (negb (is_null p)) (if negb (is_null p) then n else 0)).
    set (w4 := with_objs w3 (<[this := t4]> (w_objs w))).
    rewrite (st_bind_ret _ _ _ tt w4).
    2:{ rewrite (st_bind_ret _ _ _ p w3) by exact E.
        rewrite (st_bind_ret _ _ _ (set_device (released t) d) w3) by by apply obj_eq.
        rewrite (put_eq this (set_device (released t) d)) by done.
        unfold w4, w3, w2, with_objs. cbn. by rewrite insert_insert_eq. }
    rewrite (st_bind_ret _ _ _ t4 w4) by (apply obj_eq; cbn; by rewrite lookup_insert, decide_True).
    rewrite (put_eq this t4) by (cbn; by rewrite lookup_insert, decide_True).
    unfold w4, w3, with_objs. cbn. rewrite insert_insert_eq. do 3 f_equal.
    unfold grown, t4, set_shape. cbn. f_equal.
    destruct p; [done|]. unfold allocated in Ha. cbn. destruct (Z.eqb_spec n 0) as [|]; [done|].
    by destruct Ha as (? & ? & ? & ? & _).
Qed.

Lemma resize_inv this t r c dt w : inv F w -> w_objs w !! this = Some t ->
  defined (T.resize rt this r c dt w).1 /\ inv F (T.resize rt this r c dt w).2.
Proof.
  intros I Ht. pose proof (resize_spec this t r c dt w I Ht) as H. cbv zeta in H.
  set (n := size_of (set_shape t r c dt)) in *. destruct (T.resize rt this r c dt w) as [res w'].
  destruct I as [W J]. pose proof (wf_obj _ _ _ W _ _ Ht) as Hok.
  assert (Hj : forall t', t_jit_slot t < 0 -> t_jit_slot t' = t_jit_slot t ->
    jit_inv (<[this := t']> (w_objs w)) (w_hook w) (w_slots w)).
  { intros t' Hneg He. apply jit_insert; try done; [|lia]. rewrite Ht. by intros ? [= <-]. }
  destruct H as [(e & [= -> ->])|(Hr & Hc & Hneg & Hs & H)]; [done|].
  destruct H as [(_ & _ & _ & _ & [= -> ->])|[(Ho & Hle & [= -> ->])|(_ & [(e & [= -> ->])|(p & h' & Ha & [= -> ->])])]].
  - done.
  - split; [done|]. split; [|by apply Hj]. cbn. eapply wf_reshape; try done.
    destruct Hok as [_ Hok]. split; [done|]. rewrite Ho in Hok. cbn. rewrite Ho.
    destruct Hok as (b & blk & ? & ? & ? & ? & ? & ?). by exists b, blk.
  - split; [done|]. split; [|by apply Hj]. cbn. apply wf_release; try done.
    apply nonowning_ok; try done. apply Hok.
  - split; [done|]. split; [|by apply Hj]. cbn.
    assert (W1 : wf F (freed t (w_heap w)) (<[this := released t]> (w_objs w))).
    { destruct (released_ok (freed t (w_heap w)) t (proj1 Hok)). by apply wf_release. }
    rewrite <- (insert_insert_eq (w_objs w) this _ (released t)).
    assert (Hg : size_of (grown t r c dt p n) = n) by done.
    destruct (Z.eqb_spec n 0) as [E|Hne].
    + unfold allocated in Ha. rewrite E in Ha. cbn in Ha. destruct Ha as [-> ->].
      apply wf_nonowning; try done.
      rewrite lookup_insert, decide_True by done. by intros t0 [= <-].
    + unfold allocated in Ha. destruct (Z.eqb_spec n 0); [done|].
      destruct Ha as (b & dv & bs & -> & Hb & -> & Hd & Hz & Hreg).
      apply wf_acquire; try done.
      * rewrite lookup_insert, decide_True by done. by intros t0 [= <-].
      * split; [done|]. cbn. exists b, (mkBlock dv bs). rewrite lookup_insert, decide_True by done.
        rewrite Hg. repeat split; try done; lia.
Qed.

(** *** Writes and reads *)

Lemma lawful_write td ts (copy : st heap unit) h bd od blkd src n data :
  (defined (copy_on td ts (Some (bd, od)) src n h).1 -> copy h = copy_on td ts (Some (bd, od)) src n h) ->
  h !! bd = Some blkd -> dev_type (blk_dev blkd) = td -> 0 <= od -> od + n <= zlen (blk_bytes blkd) ->
  readable ts h src n data -> (forall o, src <> Some (bd, o)) ->
  copy h = (Ret tt, <[bd := mkBlock (blk_dev blkd) (splice od data (blk_bytes blkd))]> h) /\ zlen data = n.
Proof.
  intros Hc Hb Hd Ho Hn [Hp Hl] Hne.
  destruct (ptr_block _ _ _ _ _ Hp Hl) as (sb & off & blk & -> & Hsb & Hts & Hoff & Hn0 & Hr & ->).
  assert (bd <> sb) by (intros ->; by destruct (Hne off)).
  assert (E : copy_on td ts (Some (bd, od)) (Some (sb, off)) n h =
    (Ret tt, <[bd := mkBlock (blk_dev blkd) (splice od (slice off n (blk_bytes blk)) (blk_bytes blkd))]> h)).
  { unfold copy_on. rewrite Hp, Hl. rewrite (ptr_on_type _ _ bd blkd) by done.
    destruct (is_type_spec td (blk_dev blkd)); [|done]. cbn [overlaps].
    rewrite bool_decide_eq_false_2 by done. cbn [andb negb].
    rewrite (store_at _ bd blkd) by (rewrite ?zlen_slice by lia; done). done. }
  rewrite E in Hc. split; [by apply Hc|]. by rewrite zlen_slice.
Qed.

(** A tensor whose storage can be written: its own, or a view of a live
    range on its device that no other operand of the call points into. *)
Definition target_ok (h : heap) (t : Tensor) (n : Z) : Prop :=
  exists b off blk, t_data t = Some (b, off) /\ h !! b = Some blk /\
    dev_type (blk_dev blk) = dev_type (t_device t) /\ 0 <= off /\ 0 <= n /\ off + n <= zlen (blk_bytes blk) /\
    slot_registered rt (dev_type (t_device t)) = true.

Lemma owning_target h t n : tensor_ok h t -> t_owns t = true -> 0 <= n <= size_of t -> target_ok h t n.
Proof.
  intros [Hs Ho] E Hn. rewrite E in Ho. destruct Ho as (b & blk & Hd & Hb & Hty & Hz & Hle & Hr).
  exists b, 0, blk. repeat split; try done; lia.
Qed.

Lemma wf_splice h o b blk off data : wf F h o -> h !! b = Some blk -> 0 <= off ->
  off + zlen data <= zlen (blk_bytes blk) ->
  wf F (<[b := mkBlock (blk_dev blk) (splice off data (blk_bytes blk))]> h) o.
Proof. intros W Hb Ho Hn. apply wf_write; [done..|]. by apply length_splice. Qed.

Lemma zero_spec this t w : inv F w -> w_objs w !! this = Some t -> shape_ok t ->
  t_data t = nullptr \/ target_ok (w_heap w) t (size_of t) ->
  exists h', T.zero rt this w = (Ret tt, with_heap w h') /\ inv F (with_heap w h') /\
    (t_data t <> nullptr -> load_bytes h' (t_data t) (size_of t) = Some (replicate (Z.to_nat (size_of t)) x00)) /\
    (forall b, fst <$> t_data t <> Some b -> h' !! b = w_heap w !! b).
Proof.
  intros [W J] Ht Hs Htg. unfold T.zero. rewrite (st_bind_ret _ _ _ t w) by by apply obj_eq.
  destruct (bytes_ok t Hs) as [Eb [Hn0 _]].
  rewrite (st_bind_ret _ _ _ (size_of t) w) by (unfold st_lift; by rewrite Eb).
  assert (Hw : with_heap w (w_heap w) = w) by by destruct w.
  unfold T.backend_zero. destruct Htg as [Hnull|(b & off & blk & Hd & Hb & Hty & Ho & _ & Hle & Hreg)].
  { rewrite Hnull, orb_true_r. exists (w_heap w). rewrite Hw. split; [done|]. split; [done|]. by split; [intros []|]. }
  rewrite Hd. cbn [is_null]. rewrite orb_false_r. destruct (Z.eqb_spec (size_of t) 0) as [E0|Hne].
  { exists (w_heap w). rewrite Hw. split; [done|]. split; [done|]. split; [|done].
    intros _. rewrite E0. cbn. rewrite Hb. cbn. by rewrite (proj2 (in_block_true blk off 0)) by lia. }
  destruct (alloc_for_registered _ Hreg) as (vt & E & L).
  erewrite st_bind_ret by (unfold st_lift; by rewrite E).
  assert (Hzs : zlen (replicate (Z.to_nat (size_of t)) x00) = size_of t) by (unfold zlen; rewrite length_replicate; lia).
  remember (replicate (Z.to_nat (size_of t)) x00) as zs eqn:Ezs.
  set (h' := <[b := mkBlock (blk_dev blk) (splice off zs (blk_bytes blk))]> (w_heap w)).
  assert (Ez : zero_on (dev_type (t_device t)) (Some (b, off)) (size_of t) (w_heap w) = (Ret tt, h')).
  { unfold zero_on. rewrite (ptr_on_type _ _ b blk) by done. destruct (is_type_spec (dev_type (t_device t)) (blk_dev blk)); [|done].
    rewrite <- Ezs. by rewrite (store_at _ b blk) by (rewrite ?Hzs; done). }
  exists h'. split; [|split; [|split]].
  - apply on_heap_eq. rewrite (law_zero (t := dev_type (t_device t))); rewrite ?Ez; done || lia.
  - split; [|done]. cbn. apply wf_splice; [done..|]. by rewrite Hzs.
  - intros _. cbn. unfold h'. rewrite lookup_insert, decide_True by done. cbn.
    rewrite (proj2 (in_block_true _ off (size_of t))); [|cbn; rewrite length_splice by (rewrite ?Hzs; done); done].
    cbn. rewrite <- Hzs. by rewrite slice_splice by (rewrite ?Hzs; done).
  - intros b' Hb'. unfold h'. rewrite lookup_insert_ne; [done|]. intros <-. by apply Hb'.
Qed.

Lemma copy_from_host_raw_spec this t src nbytes data w : inv F w -> w_objs w !! this = Some t -> shape_ok t ->
  0 <= nbytes ->
  (0 < nbytes -> nbytes <= size_of t -> target_ok (w_heap w) t nbytes /\ readable CPU (w_heap w) src nbytes data /\
     forall b o o', src = Some (b, o) -> t_data t <> Some (b, o')) ->
  let m := T.copy_from_host_raw rt this src nbytes w in
  (size_of t < nbytes /\ exists e, m = (Throw e, w)) \/
  (nbytes = 0 /\ m = (Ret tt, w)) \/
  (0 < nbytes <= size_of t /\ exists h', m = (Ret tt, with_heap w h') /\ inv F (with_heap w h') /\
     load_bytes h' (t_data t) nbytes = Some data /\
     forall b, fst <$> t_data t <> Some b -> h' !! b = w_heap w !! b).
Proof.
  intros [W J] Ht Hs Hnb Hpre m. unfold m, T.copy_from_host_raw. rewrite (st_bind_ret _ _ _ t w) by by apply obj_eq.
  destruct (bytes_ok t Hs) as [Eb [Hn0 _]].
  rewrite (st_bind_ret _ _ _ (size_of t) w) by (unfold st_lift; by rewrite Eb).
  rewrite Z.gtb_ltb. destruct (Z.ltb_spec (size_of t) nbytes); [left; split; [done|by eexists]|].
  destruct (Z.eqb_spec nbytes 0); [by right; left|]. right. right. split; [lia|].
  destruct (Hpre ltac:(lia) ltac:(done)) as ((b & off & blk & Hd & Hb & Hty & Ho & _ & Hle & Hreg) & Hrd & Hdisj).
  set (h' := <[b := mkBlock (blk_dev blk) (splice off data (blk_bytes blk))]> (w_heap w)).
  assert (Hne : forall o, src <> Some (b, o)) by (intros o E; by apply (Hdisj b o off)).
  destruct (lawful_write (dev_type (t_device t)) CPU (copy_on (dev_type (t_device t)) CPU (Some (b, off)) src nbytes)
    (w_heap w) b off blk src nbytes data (fun _ => eq_refl) Hb Hty Ho Hle Hrd Hne) as [Ec Hz].
  exists h'. split; [|split; [|split]].
  - rewrite Hd. destruct (Dev.is_cpu (t_device t)) eqn:Ecpu.
    + apply bool_decide_eq_true in Ecpu. rewrite Ecpu in Ec. by apply on_heap_eq.
    + destruct (alloc_for_registered _ Hreg) as (vt & E & L). unfold T.h2d.
      erewrite st_bind_ret by (unfold st_lift; by rewrite E). apply on_heap_eq.
      rewrite (law_h2d (t := dev_type (t_device t))); rewrite ?Ec; done || lia.
  - split; [|done]. cbn. apply wf_splice; [done..|lia].
  - rewrite Hd. cbn. unfold h'. rewrite lookup_insert, decide_True by done. cbn.
    rewrite (proj2 (in_block_true _ off nbytes)); [|cbn; rewrite length_splice by lia; lia].
    cbn. rewrite <- Hz. by rewrite slice_splice by lia.
  - intros b' Hb'. unfold h'. rewrite lookup_insert_ne; [done|]. intros <-. by rewrite Hd in Hb'.
Qed.

(** A download into a host buffer the client owns. *)
Lemma host_read_spec t dst n data w : inv F w -> 0 < n ->
  readable (dev_type (t_device t)) (w_heap w) (t_data t) n data ->
  slot_registered rt (dev_type (t_device t)) = true ->
  (exists b o blk, dst = Some (b, o) /\ w_heap w !! b = Some blk /\ dev_type (blk_dev blk) = CPU /\
     0 <= o /\ o + n <= zlen (blk_bytes blk) /\ forall o', t_data t <> Some (b, o')) ->
  exists h', T.host_read rt t dst n w = (Ret tt, with_heap w h') /\ inv F (with_heap w h') /\
    load_bytes h' dst n = Some data /\
    forall b, fst <$> dst <> Some b -> h' !! b = w_heap w !! b.
Proof.
  intros [W J] Hn Hrd Hreg (b & off & blk & -> & Hb & Hcpu & Ho & Hle & Hne).
  destruct (lawful_write CPU (dev_type (t_device t)) (copy_on CPU (dev_type (t_device t)) (Some (b, off)) (t_data t) n)
    (w_heap w) b off blk (t_data t) n data (fun _ => eq_refl) Hb Hcpu Ho Hle Hrd Hne) as [Ec Hz].
  set (h' := <[b := mkBlock (blk_dev blk) (splice off data (blk_bytes blk))]> (w_heap w)).
  exists h'. split; [|split; [|split]].
  - unfold T.host_read. destruct (Dev.is_cpu (t_device t)) eqn:Ecpu.
    + apply bool_decide_eq_true in Ecpu. rewrite Ecpu in Ec. by apply on_heap_eq.
    + destruct (alloc_for_registered _ Hreg) as (vt & E & L). unfold T.d2h.
      erewrite st_bind_ret by (unfold st_lift; by rewrite E). apply on_heap_eq.
      rewrite (law_d2h (t := dev_type (t_device t))); rewrite ?Ec; done.
  - split; [|done]. cbn. apply wf_splice; [done..|lia].
  - cbn. unfold h'. rewrite lookup_insert, decide_True by done. cbn.
    rewrite (proj2 (in_block_true _ off n)); [|cbn; rewrite length_splice by lia; lia].
    cbn. rewrite <- Hz. by rewrite slice_splice by lia.
  - intros b' Hb'. unfold h'. rewrite lookup_insert_ne; [done|]. intros <-. by apply Hb'.
Qed.
End Invariant.
End Spec.
