(* ===== verification/TensorProps.v ===== *)
(** * Tensors: the properties

    The theorems about src/tensor.cpp, over the lemmas of TensorSpec.v. *)
From S2P Require Import Prelude Dtype Device Heap Runtime Tensor TensorSpec.
Import Registry.

(** ** Element vectors *)

Lemma elements_concat k xs : Forall (fun x => 0 <= x < 256 ^ Z.of_nat k) xs ->
  T.elements (length xs) k (concat (map (le_bytes k) xs)) = xs.
Proof.
  induction 1 as [|x xs Hx _ IH]; [done|]. cbn [map concat length T.elements].
  rewrite take_app_length' by by rewrite length_le_bytes.
  rewrite drop_app_length' by by rewrite length_le_bytes. by rewrite le_int_bytes, IH.
Qed.

Lemma length_concat_le k xs : zlen (concat (map (le_bytes k) xs)) = zlen xs * Z.of_nat k.
Proof.
  induction xs as [|x xs IH]; [done|]. cbn [map concat]. rewrite zlen_app, zlen_cons, IH.
  unfold zlen at 1. rewrite length_le_bytes. lia.
Qed.

Section Props.
Context (rt : runtime) (Hlaw : forall t s, rt_slots rt t = Some s -> LawfulAlloc t (slot_alloc s)).
Context (malloc : heap -> Z -> option (positive * str)).
Context (Hmalloc : forall h n b junk, 0 < n ->
  malloc h n = Some (b, junk) -> h !! b = None /\ zlen junk = n).

(** ** Downloads *)

Lemma host_read_fill t b dv bs n data w : 0 < n -> w_heap w !! b = None -> dev_type dv = CPU -> zlen bs = n ->
  readable (dev_type (t_device t)) (w_heap w) (t_data t) n data ->
  slot_registered rt (dev_type (t_device t)) = true ->
  T.host_read rt t (Some (b, 0)) n (with_heap w (<[b := mkBlock dv bs]> (w_heap w))) =
    (Ret tt, with_heap w (<[b := mkBlock dv data]> (w_heap w))) /\ zlen data = n.
Proof.
  intros Hn Hb Hd Hz Hrd Hreg. unfold T.host_read. destruct (Dev.is_cpu (t_device t)) eqn:Ecpu.
  - apply bool_decide_eq_true in Ecpu. rewrite Ecpu in Hrd.
    destruct (lawful_fill CPU CPU (memcpy (Some (b, 0)) (t_data t) n) b dv bs _ _ _ data (fun _ => eq_refl) Hb Hrd Hd Hz) as [E Hl].
    split; [|done]. by erewrite on_heap_eq by exact E.
  - destruct (alloc_for_registered rt Hlaw _ Hreg) as (vt & E & L). unfold T.d2h.
    erewrite st_bind_ret by (unfold st_lift; by rewrite E).
    destruct (lawful_fill CPU (dev_type (t_device t)) (vt_memcpy_d2h vt (Some (b, 0)) (t_data t) n (dev_index (t_device t)))
      b dv bs (w_heap w) (t_data t) n data) as [E2 Hl]; try done.
    { intros Hdef. by apply (law_d2h (t := dev_type (t_device t))). }
    split; [|done]. by erewrite on_heap_eq by exact E2.
Qed.

(** The vector downloaded from a tensor of [k]-byte elements. *)
Lemma host_vector_spec this t dt k msg w :
  w_objs w !! this = Some t -> shape_ok t -> dtype_is_quant dt = false -> k = dtype_size_bytes dt -> 1 <= k ->
  t_rows t * t_cols t <= INT64_MAX ->
  size_of t = 0 \/ (exists data, readable (dev_type (t_device t)) (w_heap w) (t_data t) (size_of t) data) /\
                   slot_registered rt (dev_type (t_device t)) = true ->
  let m := T.host_vector rt malloc this dt k msg w in
  (exists e, m = (Throw e, w)) \/
  (t_dtype t = dt /\ size_of t = t_rows t * t_cols t * k /\
   exists data, (size_of t <> 0 -> load_bytes (w_heap w) (t_data t) (size_of t) = Some data) /\
     m = (Ret (T.elements (Z.to_nat (t_rows t * t_cols t)) (Z.to_nat k) data), w)).
Proof.
  intros Ht Hs Hq Hk Hk1 Hmax Hsrc m. unfold m, T.host_vector.
  rewrite (st_bind_ret _ _ _ t w) by by apply obj_eq.
  destruct (dtype_eqb (t_dtype t) dt) eqn:Edt; cbn [negb]; [|left; by eexists].
  apply bool_decide_eq_true in Edt. destruct Hs as (Hr & Hc & Hq'). assert (Hs : shape_ok t) by done.
  assert (Hcount : u64 (u64 (t_rows t) * u64 (t_cols t)) = t_rows t * t_cols t).
  { unfold u64, INT64_MAX in *. rewrite <- Z.mul_mod by lia. apply Z.mod_small. nia. }
  rewrite Hcount. set (count := t_rows t * t_cols t) in *.
  assert (Hcount0 : 0 <= count) by (unfold count; nia).
  rewrite Z.gtb_ltb. destruct (Z.ltb_spec (INT64_MAX / k) count) as [|Hle]; [left; by eexists|].
  assert (Hfit : count * k <= INT64_MAX).
  { pose proof (Z.mul_div_le INT64_MAX k ltac:(lia)). nia. }
  destruct (bytes_ok t Hs) as [Eb _].
  assert (Hsize : size_of t = count * k).
  { assert (Hq2 : dtype_is_quant dt = false \/ t_cols t <= 0 \/ t_cols t mod dtype_block_size dt = 0) by by left.
    pose proof (size_shape t (t_rows t) (t_cols t) dt Hr Hc Hq2) as E. rewrite <- Edt in E.
    change (set_shape t (t_rows t) (t_cols t) (t_dtype t)) with
      (mkTensor (t_data t) (t_rows t) (t_cols t) (t_dtype t) (t_device t) (t_jit_slot t) (t_owns t) (t_cap_bytes t)) in E.
    assert (forall (x : Tensor), mkTensor (t_data x) (t_rows x) (t_cols x) (t_dtype x) (t_device x) (t_jit_slot x) (t_owns x) (t_cap_bytes x) = x) as Heta by (by intros []).
    rewrite Heta in E. fold count in E. unfold dtype_storage_bytes in E. rewrite Edt, Hq in E.
    destruct (Z.ltb_spec count 0); [lia|]. cbn [negb] in E. injection E as <-.
    rewrite <- Hk. unfold u64, INT64_MAX in *. rewrite <- Z.mul_mod by lia. apply Z.mod_small. lia. }
  destruct (Z.eqb_spec count 0) as [E0|Hne].
  - right. split; [done|]. split; [done|]. exists []. split; [by rewrite Hsize, E0|].
    rewrite (st_bind_ret _ _ _ (size_of t) w) by (unfold st_lift; by rewrite Eb).
    rewrite Hsize, E0. done.
  - assert (Hpos : 0 < count * k) by nia. destruct Hsrc as [?|[(data & Hrd) Hreg]]; [lia|].
    rewrite Hsize in Hrd.
    match goal with |- context [T.with_staging malloc (count * k) ?b] => set (body := b) end.
    destruct (staging_ok malloc Hmalloc (count * k) body w
      (fun v h => h = w_heap w /\ v = T.elements (Z.to_nat count) (Z.to_nat k) data) Hpos) as [(e & E)|(a & h & E & -> & ->)].
    + intros b junk Hb Hj. exists (T.elements (Z.to_nat count) (Z.to_nat k) data), (<[b := mkBlock Dev.CPU0 data]> (w_heap w)).
      split; [|split].
      * set (zs := replicate (Z.to_nat (count * k)) x00).
        assert (Hz : zlen zs = count * k) by (unfold zlen, zs; rewrite length_replicate; lia).
        destruct (host_read_fill t b Dev.CPU0 zs (count * k) data w Hpos Hb eq_refl Hz Hrd Hreg) as [E Hl].
        unfold body.
        rewrite (st_bind_ret _ _ _ tt (with_heap w (<[b := mkBlock Dev.CPU0 zs]> (w_heap w)))).
        2:{ erewrite on_heap_eq; [done|]. cbn [w_heap with_heap].
            rewrite (zero_on_ok _ _ b (mkBlock Dev.CPU0 junk)); [..|by rewrite lookup_insert, decide_True|done|cbn; lia].
            cbn [blk_dev blk_bytes]. rewrite insert_insert_eq. fold zs. by rewrite splice_all by by rewrite Hz. }
        rewrite (st_bind_ret _ _ _ (size_of t) (with_heap w (<[b := mkBlock Dev.CPU0 zs]> (w_heap w))))
          by (unfold st_lift; by rewrite Eb).
        rewrite Hsize. destruct (Z.eqb_spec (count * k) 0); [lia|].
        rewrite (st_bind_ret _ _ _ _ _ E).
        rewrite (st_bind_ret _ _ _ (with_heap w (<[b := mkBlock Dev.CPU0 data]> (w_heap w)))
          (with_heap w (<[b := mkBlock Dev.CPU0 data]> (w_heap w)))) by done.
        cbn [w_heap with_heap]. rewrite (load_full _ b (mkBlock Dev.CPU0 data));
          [|by rewrite lookup_insert, decide_True|cbn; lia].
        cbn [blk_bytes]. by rewrite <- Hl, slice_all.
      * exists (mkBlock Dev.CPU0 data). by rewrite lookup_insert, decide_True.
      * by rewrite delete_insert_id.
    + left. exists e. exact E.
    + right. split; [done|]. split; [done|]. exists data. rewrite Hsize. split; [intros _; apply Hrd|].
      rewrite E. by destruct w.
Qed.

(** ** A client

    Any program over tensors is a sequence of these calls. [pre] is what C++
    asks of the caller: objects are constructed at free addresses and used
    while alive, host buffers are as large as the call says and belong to the
    client (the blocks [F]), and a view is only used over live memory. *)
Inductive call : Type :=
  | CDefault (this : positive)
  | CEmpty (this : positive) (d : Device) (r c : Z) (dt : Dtype)
  | CZeros (this : positive) (d : Device) (r c : Z) (dt : Dtype)
  | CFromHost (this : positive) (d : Device) (src : ptr) (r c : Z) (dt : Dtype)
  | CFromRaw (this : positive) (d : Device) (src : ptr) (r c : Z) (dt : Dtype) (nbytes : Z)
  | CView (this : positive) (d : Device) (p : ptr) (r c : Z) (dt : Dtype)
  | CClone (this o : positive)
  | CTo (this o : positive) (d : Device)
  | CCopyCtor (this o : positive)
  | CCopyAssign (this o : positive)
  | CMoveCtor (this o : positive)
  | CMoveAssign (this o : positive)
  | CDtor (this : positive)
  | CZero (this : positive)
  | CResize (this : positive) (r c : Z) (dt : Dtype)
  | CUpload (this : positive) (src : ptr) (nbytes : Z)
  | CDownload (this : positive) (dst : ptr) (nbytes : Z).

Definition run (c : call) : M unit :=
  match c with
  | CDefault this => new_obj this Tensor_default
  | CEmpty this d r c dt => T.empty_on rt this d r c dt
  | CZeros this d r c dt => T.zeros_on rt this d r c dt
  | CFromHost this d src r c dt => T.from_host_typed rt this d src r c dt
  | CFromRaw this d src r c dt n => T.from_raw_bytes_on rt this d src r c dt n
  | CView this d p r c dt => T.view rt this d p r c dt
  | CClone this o => T.clone rt this o
  | CTo this o d => T.to rt malloc this o d
  | CCopyCtor this o => T.copy_ctor rt this o
  | CCopyAssign this o => T.copy_assign rt this o
  | CMoveCtor this o => T.move_ctor this o
  | CMoveAssign this o => T.move_assign rt this o
  | CDtor this => T.dtor rt this
  | CZero this => T.zero rt this
  | CResize this r c dt => T.resize rt this r c dt
  | CUpload this src n => T.copy_from_host_raw rt this src n
  | CDownload this dst n => T.copy_to_host_raw rt this dst n
  end.

Definition host_readable (h : heap) (src : ptr) (n : Z) : Prop := n = 0 \/ exists data, readable CPU h src n data.

Definition pre (F : gset positive) (w : world) (c : call) : Prop :=
  let free id := w_objs w !! id = None in
  let reads o := exists s, w_objs w !! o = Some s /\ source_ok rt (w_heap w) s in
  let live o := is_Some (w_objs w !! o) in
  match c with
  | CDefault this | CEmpty this _ _ _ _ | CZeros this _ _ _ _ | CView this _ _ _ _ _ => free this
  | CFromHost this d src r c dt => free this /\
      host_readable (w_heap w) src (size_of (blank (resolve_device_alias rt d) r c dt))
  | CFromRaw this d src r c dt n => free this /\
      (n = size_of (blank (resolve_device_alias rt d) r c dt) -> host_readable (w_heap w) src n)
  | CClone this o | CTo this o _ | CCopyCtor this o => free this /\ reads o
  | CCopyAssign this o => live this /\ reads o
  | CMoveCtor this o => free this /\ live o
  | CMoveAssign this o => live this /\ live o
  | CDtor this => live this
  | CZero this => exists t, w_objs w !! this = Some t /\
      (t_data t = nullptr \/ target_ok rt (w_heap w) t (size_of t))
  | CResize this _ _ _ => live this
  | CUpload this src n => 0 <= n /\ exists t, w_objs w !! this = Some t /\
      (0 < n <= size_of t -> target_ok rt (w_heap w) t n /\ (exists data, readable CPU (w_heap w) src n data) /\
         forall b o o', src = Some (b, o) -> t_data t <> Some (b, o'))
  | CDownload this dst n => 0 <= n /\ exists t, w_objs w !! this = Some t /\
      (0 < n <= size_of t ->
         (exists data, readable (dev_type (t_device t)) (w_heap w) (t_data t) n data) /\
         slot_registered rt (dev_type (t_device t)) = true /\
         exists b o blk, dst = Some (b, o) /\ b ∈ F /\ w_heap w !! b = Some blk /\
           dev_type (blk_dev blk) = CPU /\ 0 <= o /\ o + n <= zlen (blk_bytes blk) /\
           forall o', t_data t <> Some (b, o'))
  end.

Inductive step (F : gset positive) (w : world) : world -> Prop :=
  | step_call c : pre F w c -> step F w (run c w).2.

Lemma inv_shape F w id t : inv rt F w -> w_objs w !! id = Some t -> shape_ok t.
Proof. intros [W _] H. exact (proj1 (wf_obj _ _ _ _ W _ _ H)). Qed.

Lemma spec_or {A} (m : res A * world) F w (P : world -> Prop) :
  inv rt F w -> (exists e w', m = (Throw e, w') /\ same_mem w w') \/ (exists w' a, m = (Ret a, w') /\ inv rt F w') ->
  defined m.1 /\ inv rt F m.2.
Proof.
  intros I [(e & w' & -> & Hsm)|(w' & a & -> & I')]; (split; [done|]); [by apply (same_mem_inv rt F w)|done].
Qed.

Lemma view_call F w this d p r c dt : inv rt F w -> w_objs w !! this = None ->
  defined (T.view rt this d p r c dt w).1 /\ inv rt F (T.view rt this d p r c dt w).2.
Proof.
  intros [W J] Hnone. unfold T.view.
  destruct (check_dims r c (lit "view")) as [u|m|] eqn:E1; [|done|by unfold check_dims, throw_if in E1; case_match].
  rewrite (st_bind_ret _ _ _ u w) by done.
  destruct (check_quant_cols dt c (lit "Tensor::view")) as [u'|m|] eqn:E2;
    [|done|by unfold check_quant_cols, throw_if in E2; repeat case_match].
  rewrite (st_bind_ret _ _ _ u' w) by done. unfold new_obj. rewrite Hnone. split; [done|].
  pose proof (blank_shape (resolve_device_alias rt d) _ _ _ _ _ _ _ E1 E2) as Hs.
  split; cbn.
  - apply wf_nonowning; [done|by rewrite Hnone|done|by apply nonowning_ok].
  - apply jit_insert; [done|by rewrite Hnone|done].
Qed.

Lemma download_call F w this dst n : inv rt F w -> pre F w (CDownload this dst n) ->
  defined (T.copy_to_host_raw rt this dst n w).1 /\ inv rt F (T.copy_to_host_raw rt this dst n w).2.
Proof.
  intros I (Hn & t & Ht & Hp). pose proof (inv_shape _ _ _ _ I Ht) as Hs. unfold T.copy_to_host_raw.
  rewrite (st_bind_ret _ _ _ t w) by by apply obj_eq.
  destruct (bytes_ok t Hs) as [Eb _].
  rewrite (st_bind_ret _ _ _ (size_of t) w) by (unfold st_lift; by rewrite Eb).
  rewrite Z.gtb_ltb. destruct (Z.ltb_spec (size_of t) n); [done|].
  destruct (Z.eqb_spec n 0); [done|].
  destruct (Hp ltac:(lia)) as ((data & Hrd) & Hreg & b & o & blk & -> & _ & Hb & Hc & Ho & Hl & Hd).
  destruct (host_read_spec rt Hlaw F t (Some (b, o)) n data w I ltac:(lia) Hrd Hreg) as (h' & -> & I' & _); [|done].
  by exists b, o, blk.
Qed.

(** One call: defined, and both invariants are kept. *)
Lemma call_ok F w c : inv rt F w -> pre F w c -> defined (run c w).1 /\ inv rt F (run c w).2.
Proof.
  intros I Hp. destruct c as [this|this d r c dt|this d r c dt|this d src r c dt|this d src r c dt n|this d p r c dt
    |this o|this o d|this o|this o|this o|this o|this|this|this r c dt|this src n|this dst n]; cbn [run]; cbn [pre] in Hp.
  - unfold new_obj. rewrite Hp. split; [done|]. by apply new_default_inv.
  - pose proof (empty_on_cases rt Hlaw this d r c dt w Hp) as H. cbv zeta in H.
    destruct H as [(e & w' & -> & Hsm)|(Hs & p & h' & -> & Ha)]; (split; [done|]); [by apply (same_mem_inv rt F w)|].
    destruct I as [W J]. split; cbn; [by eapply (wf_created rt F this)|]. apply jit_insert; [done|by rewrite Hp|done].
  - eapply makes_inv; [by apply zeros_on_makes|done..].
  - destruct Hp as [Hf [Hz|[data Hr]]].
    + eapply (makes_inv rt F); [apply (from_host_typed_makes rt Hlaw this d src r c dt w []); [done|by left]|done..].
    + eapply (makes_inv rt F); [apply (from_host_typed_makes rt Hlaw this d src r c dt w data); [done|by right]|done..].
  - destruct Hp as [Hf Hr].
    destruct (decide (n = size_of (blank (resolve_device_alias rt d) r c dt))) as [E|Hne].
    + destruct (Hr E) as [Hz|[data Hr']].
      * eapply (makes_inv rt F); [apply (from_raw_bytes_makes rt Hlaw this d src r c dt n w []); [done|by left]|done..].
      * eapply (makes_inv rt F); [apply (from_raw_bytes_makes rt Hlaw this d src r c dt n w data); [done|by right]|done..].
    + eapply (makes_inv rt F); [apply (from_raw_bytes_makes rt Hlaw this d src r c dt n w []); [done|by intros]|done..].
  - by apply view_call.
  - destruct Hp as (Hf & s & Hs & Hsrc). eapply (makes_inv rt F); [by apply clone_makes|done..].
  - destruct Hp as (Hf & s & Hs & Hsrc). eapply (makes_inv rt F); [by apply to_makes|done..].
  - destruct Hp as (Hf & s & Hs & Hsrc). apply (spec_or _ F w (fun _ => True)); [done|].
    destruct (copy_ctor_spec rt Hlaw F this o s w I Hf Hs Hsrc) as [?|(_ & p & h' & w' & E & I' & _)]; [by left|].
    right. by exists w', tt.
  - destruct Hp as ([t Ht] & s & Hs & Hsrc). apply (spec_or _ F w (fun _ => True)); [done|].
    destruct (decide (this = o)) as [->|Hne].
    { right. exists w, tt. split; [|done]. unfold T.copy_assign. by rewrite decide_True. }
    destruct (copy_assign_spec rt Hlaw F this o t s w Hne I Ht Hs Hsrc) as [?|(_ & p & h' & w' & E & I' & _)]; [by left|].
    right. by exists w', tt.
  - destruct Hp as [Hf [s Hs]]. destruct (move_ctor_inv rt F this o s w I Hs Hf) as (w' & -> & ? & _). done.
  - destruct Hp as [[t Ht] [s Hs]]. destruct (decide (this = o)) as [->|Hne].
    { unfold T.move_assign, noexcept. by rewrite decide_True. }
    destruct (move_assign_inv rt Hlaw F this o t s w Hne I Ht Hs) as (w' & -> & ? & _). done.
  - destruct Hp as [t Ht]. destruct (dtor_inv rt Hlaw F this t w I Ht) as (w' & -> & ? & _). done.
  - destruct Hp as (t & Ht & Htg).
    destruct (zero_spec rt Hlaw F this t w I Ht (inv_shape _ _ _ _ I Ht) Htg) as (h' & -> & ? & _). done.
  - destruct Hp as [t Ht]. by apply (resize_inv rt Hlaw F this t).
  - destruct Hp as (Hn & t & Ht & Htg). pose proof (inv_shape _ _ _ _ I Ht) as Hs.
    destruct (decide (0 < n <= size_of t)) as [Hin|Hout].
    + destruct (Htg Hin) as (H1 & (data & H2) & H3).
      destruct (copy_from_host_raw_spec rt Hlaw F this t src n data w I Ht Hs Hn) as [(_ & e & ->)|[(_ & ->)|(_ & h' & -> & ? & _)]]; done.
    + destruct (copy_from_host_raw_spec rt Hlaw F this t src n [] w I Ht Hs Hn) as [(_ & e & ->)|[(_ & ->)|(_ & h' & -> & ? & _)]]; try done.
      intros. lia.
  - by apply (download_call F w this dst n).
Qed.

Lemma steps_inv F w w' : inv rt F w -> rtc (step F) w w' -> inv rt F w'.
Proof. intros I Hs. revert I. induction Hs as [|w1 w2 w3 [c Hp] _ IH]; [done|]. intros I. by apply IH, call_ok. Qed.

(** C1: tensor memory safety. From any state that satisfies the ownership
    invariant, whatever sequence of tensor calls a client makes (each with
    operands C++ allows), the next allowed call never has undefined behaviour:
    no use after free, double free, out-of-range or wrong-device access, and
    no throw out of a [noexcept] function. Owners have exclusive live storage
    large enough for their shape; when the last tensor is gone every block
    that is not the client's has been freed; and the tracer's slot table names
    exactly the live symbolic tensors. *)
Theorem tensor_client_safe F w w' :
  inv rt F w -> rtc (step F) w w' ->
  (forall c, pre F w' c -> defined (run c w').1) /\
  (forall id t, w_objs w' !! id = Some t -> t_owns t = true ->
     exists b blk, t_data t = Some (b, 0) /\ w_heap w' !! b = Some blk /\
       dev_type (blk_dev blk) = dev_type (t_device t) /\ size_of t <= zlen (blk_bytes blk) /\
       forall id' t' o, w_objs w' !! id' = Some t' -> t_owns t' = true -> t_data t' = Some (b, o) -> id' = id) /\
  (w_objs w' = ∅ -> dom (w_heap w') = F) /\
  (forall s id, w_slots w' !! s = Some id <->
     exists t, w_objs w' !! id = Some t /\ t_jit_slot t = s /\ 0 <= s).
Proof.
  intros I Hs. pose proof (steps_inv F w w' I Hs) as I'. split; [|split; [|split]].
  - intros c Hp. by apply (call_ok F).
  - intros id t Ht Ho. destruct I' as [W _]. destruct (wf_obj _ _ _ _ W _ _ Ht) as [_ Hok].
    rewrite Ho in Hok. destruct Hok as (b & blk & Hd & Hb & Hty & Hz & Hle & _). exists b, blk.
    split; [done|]. split; [done|]. split; [done|]. split; [lia|].
    intros id' t' o Ht' Ho' Hd'. apply (wf_uniq _ _ _ _ W id' id t' t b); try done; unfold owned_block.
    + by rewrite Ho', Hd'.
    + by rewrite Ho, Hd.
  - intros He. apply set_eq. intros b. rewrite elem_of_dom, (wf_heap _ _ _ _ (proj1 I')).
    rewrite He. split; [intros [?|(id & t & H & _)]; [done|by rewrite lookup_empty in H]|by left].
  - destruct I' as [_ (_ & H1 & H2)]. intros s id. split; [apply H2|].
    intros (t & Ht & <- & Hp). by apply (H1 id t).
Qed.

(** The bytes a tensor stands for. *)
Definition contents (w : world) (t : Tensor) : option str :=
  if size_of t =? 0 then Some [] else load_bytes (w_heap w) (t_data t) (size_of t).

Lemma contents_fresh d r c dt n P p h h' w' :
  n = size_of (blank d r c dt) -> shape_ok (blank d r c dt) -> allocated_as rt P d n h p h' -> w_heap w' = h' ->
  exists bs, contents w' (fresh_tensor d r c dt p n) = Some bs /\ (n <> 0 -> P bs /\ zlen bs = n).
Proof.
  intros -> Hs Ha Hw. unfold contents. rewrite size_fresh. unfold allocated_as in Ha.
  destruct (Z.eqb_spec (size_of (blank d r c dt)) 0) as [|Hne]; [by exists []|].
  destruct Ha as (b & dv & bs & -> & Hb & -> & Hd & Hz & Hr & HP). exists bs.
  pose proof (bytes_ok _ Hs) as [_ ?]. rewrite Hw. cbn [t_data fresh_tensor].
  rewrite (load_full _ b (mkBlock dv bs)); [|by rewrite lookup_insert, decide_True|cbn; lia].
  cbn [blk_bytes]. rewrite <- Hz at 1. by rewrite slice_all.
Qed.

(** What a copy is: the shape, element type and bytes of its source, in
    storage of its own. *)
Definition is_copy (w : world) (s : Tensor) (w' : world) (t : Tensor) (d : Device) : Prop :=
  t_rows t = t_rows s /\ t_cols t = t_cols s /\ t_dtype t = t_dtype s /\ t_device t = d /\
  t_jit_slot t = -1 /\ contents w' t = contents w s /\
  (0 < size_of s -> t_owns t = true /\ exists b, t_data t = Some (b, 0) /\ w_heap w !! b = None) /\
  (forall b blk, w_heap w !! b = Some blk -> w_heap w' !! b = Some blk).

Lemma fresh_is_copy s d p h' w w' : source_ok rt (w_heap w) s -> t_data s <> nullptr ->
  allocated_as rt (copy_of (w_heap w) s) d (size_of s) (w_heap w) p h' -> w_heap w' = h' ->
  is_copy w s w' (fresh_tensor d (t_rows s) (t_cols s) (t_dtype s) p (size_of s)) d.
Proof.
  intros [Hs Hsrc] Hnn Ha Hw. unfold is_copy. do 5 (split; [done|]).
  destruct (contents_fresh d _ _ _ (size_of s) _ p _ h' w' eq_refl Hs Ha Hw) as (bs & Hc & HP).
  pose proof (bytes_ok s Hs) as [_ ?]. split; [|split].
  - rewrite Hc. unfold contents. destruct (Z.eqb_spec (size_of s) 0) as [E|Hne].
    + unfold contents in Hc. change (size_of (fresh_tensor _ _ _ _ _ _)) with (size_of s) in Hc. by rewrite E in Hc.
    + destruct (HP Hne) as [HP' _]. symmetry. by apply HP'.
  - intros Hpos. unfold allocated_as in Ha. destruct (Z.eqb_spec (size_of s) 0); [lia|].
    destruct Ha as (b & dv & bs' & -> & Hb & _). split; [done|]. by exists b.
  - intros b blk Hb. rewrite Hw. unfold allocated_as in Ha. destruct (size_of s =? 0); [by destruct Ha as [_ ->]|].
    destruct Ha as (b' & dv & bs' & _ & Hb' & -> & _). rewrite lookup_insert_ne; [done|]. intros ->. congruence.
Qed.

(** Copies are deep. Copy construction and [clone] either throw and
    change no memory, or build a tensor with the source's shape, element type,
    device and bytes in storage of its own; nothing that was there before
    changes. Copying a symbolic traced tensor always throws. *)
Theorem copy_is_deep F w this o s :
  inv rt F w -> w_objs w !! this = None -> w_objs w !! o = Some s ->
  source_ok rt (w_heap w) s -> t_data s <> nullptr -> resolve_device_alias rt (t_device s) = t_device s ->
  match T.copy_ctor rt this o w, T.clone rt this o w with
  | (Ret _, w1), (Ret _, w2) =>
      t_jit_slot s < 0 /\
      (exists t, w_objs w1 = <[this := t]> (w_objs w) /\ is_copy w s w1 t (t_device s)) /\
      (exists t, w_objs w2 = <[this := t]> (w_objs w) /\ is_copy w s w2 t (t_device s))
  | (Throw _, w1), (Throw _, w2) => same_mem w w1 /\ same_mem w w2
  | (Throw _, w1), (Ret _, _) => same_mem w w1 /\ t_jit_slot s < 0
  | (Ret _, _), (Throw _, w2) => same_mem w w2 /\ t_jit_slot s < 0
  | _, _ => False
  end.
Proof.
  intros I Hnone Ho Hsrc Hnn Hd.
  assert (H2 : (exists e w', T.clone rt this o w = (Throw e, w') /\ same_mem w w') \/
    (t_jit_slot s < 0 /\ exists w', T.clone rt this o w = (Ret tt, w') /\
       exists t, w_objs w' = <[this := t]> (w_objs w) /\ is_copy w s w' t (t_device s))).
  { destruct (decide (t_jit_slot s < 0)) as [Hneg|Hsym].
    - destruct (clone_makes rt Hlaw this o s w Ho Hnone Hsrc) as [?|(_ & p & h' & E & Ha)]; [by left|right].
      split; [done|]. eexists. split; [exact E|]. rewrite Hd in *. eexists. split; [done|].
      by apply (fresh_is_copy s _ p h').
    - left. unfold T.clone. rewrite (st_bind_ret _ _ _ s w) by by apply obj_eq.
      unfold check_not_symbolic, throw_if. destruct (Z.geb_spec (t_jit_slot s) 0); [|lia]. by do 2 eexists. }
  destruct (copy_ctor_spec rt Hlaw F this o s w I Hnone Ho Hsrc) as [(e & w1 & -> & Hsm)|(Hneg & p & h' & w1 & -> & _ & Ha & Hh & Hob)];
    destruct H2 as [(e2 & w2 & -> & Hsm2)|(Hneg2 & w2 & -> & Hc)]; try done.
  split; [done|]. split; [|done]. rewrite Hd in *. eexists. split; [exact Hob|]. by apply (fresh_is_copy s _ p h').
Qed.

(** C35: migration keeps the contents. [to] builds on the target device a
    tensor with the source's shape, element type and bytes, or throws and
    changes no memory, on every path (host to device, device to host, peer,
    through a staging buffer); so a tensor sent to a device and back is equal
    to the one sent. *)
Theorem to_round_trip F w a b o s d :
  inv rt F w -> w_objs w !! o = Some s -> w_objs w !! a = None -> w_objs w !! b = None -> a <> b ->
  source_ok rt (w_heap w) s -> t_data s <> nullptr -> 0 < size_of s ->
  resolve_device_alias rt (t_device s) = t_device s ->
  match T.to rt malloc a o d w with
  | (Ret _, w1) =>
      (exists t, w_objs w1 = <[a := t]> (w_objs w) /\ is_copy w s w1 t (resolve_device_alias rt d)) /\
      match T.to rt malloc b a (t_device s) w1 with
      | (Ret _, w2) => exists t, w_objs w2 = <[b := t]> (w_objs w1) /\
          t_rows t = t_rows s /\ t_cols t = t_cols s /\ t_dtype t = t_dtype s /\ t_device t = t_device s /\
          contents w2 t = contents w s
      | (Throw _, w2) => same_mem w1 w2
      | (Undef, _) => False
      end
  | (Throw _, w1) => same_mem w w1
  | (Undef, _) => False
  end.
Proof.
  intros I Ho Ha Hb Hab Hsrc Hnn Hpos Hd.
  pose proof (to_makes rt Hlaw malloc Hmalloc a o s d w Ho Ha Hsrc) as Hmk.
  pose proof (makes_inv rt F _ _ _ _ _ _ _ _ Hmk Ha I) as [_ I1].
  destruct Hmk as [(e & w1 & -> & ?)|(Hs & p & h' & E & Hal)]; [done|]. rewrite E in *.
  set (d' := resolve_device_alias rt d) in *.
  change (size_of (blank d' (t_rows s) (t_cols s) (t_dtype s))) with (size_of s) in *.
  set (t1 := fresh_tensor d' (t_rows s) (t_cols s) (t_dtype s) p (size_of s)) in *.
  set (w1 := created a t1 h' w) in *. cbn [snd] in I1.
  assert (C1 : is_copy w s w1 t1 d') by (by apply (fresh_is_copy s _ p h')).
  split; [by exists t1|].
  destruct C1 as (_ & _ & _ & _ & _ & Hc1 & Hown & _). destruct (Hown Hpos) as [Hot (bb & Hdt & _)].
  assert (Ht1 : w_objs w1 !! a = Some t1) by apply created_obj.
  assert (Hb1 : w_objs w1 !! b = None) by (cbn; by rewrite lookup_insert_ne).
  assert (Hsrc1 : source_ok rt (w_heap w1) t1).
  { apply owning_source; [|done]. apply (wf_obj _ _ _ _ (proj1 I1) _ _ Ht1). }
  destruct (to_makes rt Hlaw malloc Hmalloc b a t1 (t_device s) w1 Ht1 Hb1 Hsrc1)
    as [(e & w2 & -> & ?)|(_ & p2 & h2 & -> & Ha2)]; [done|].
  eexists. split; [done|]. rewrite Hd in *.
  assert (Hnn1 : t_data t1 <> nullptr) by by rewrite Hdt.
  destruct (fresh_is_copy t1 (t_device s) p2 h2 w1
    (created b (fresh_tensor (t_device s) (t_rows t1) (t_cols t1) (t_dtype t1) p2 (size_of t1)) h2 w1)
    Hsrc1 Hnn1 Ha2 eq_refl) as (H1 & H2 & H3 & H4 & _ & H5 & _).
  do 4 (split; [done|]). etransitivity; [exact H5|exact Hc1].
Qed.

(** Floats go to any device and come back. A host buffer of [r * c] float
    bit patterns uploaded with [from_host_on] and downloaded with
    [to_host_vector] gives back the same list, unless an allocation fails. *)
Theorem host_round_trip F w this d src r c xs :
  inv rt F w -> w_objs w !! this = None -> 0 <= r -> 0 <= c -> r * c * 4 <= INT64_MAX ->
  zlen xs = r * c -> Forall (fun x => 0 <= x < 2 ^ 32) xs ->
  readable CPU (w_heap w) src (r * c * 4) (concat (map (le_bytes 4) xs)) ->
  match T.from_host_on rt this d src r c w with
  | (Ret _, w1) =>
      match T.to_host_vector rt malloc this w1 with
      | (Ret ys, w2) => ys = xs /\ w2 = w1
      | (Throw _, w2) => w2 = w1
      | (Undef, _) => False
      end
  | (Throw _, w1) => same_mem w w1
  | (Undef, _) => False
  end.
Proof.
  intros I Hnone Hr Hc Hmax Hlen Hxs Hrd. unfold T.from_host_on.
  set (d' := resolve_device_alias rt d).
  assert (Hrc : 0 <= r * c) by nia.
  assert (Hsz : size_of (blank d' r c FP32) = r * c * 4).
  { pose proof (size_shape Tensor_default r c FP32 Hr Hc (or_introl eq_refl)) as E.
    change (size_of (blank d' r c FP32)) with (size_of (set_shape Tensor_default r c FP32)).
    unfold dtype_storage_bytes in E. destruct (Z.ltb_spec (r * c) 0); [lia|]. cbn [negb dtype_is_quant] in E.
    injection E as <-. cbn [dtype_size_bytes]. unfold INT64_MAX, u64 in *.
    rewrite <- Z.mul_mod by lia. apply Z.mod_small. lia. }
  assert (Hsrc : host_source (w_heap w) src (size_of (blank d' r c FP32)) (concat (map (le_bytes 4) xs))) by (right; by rewrite Hsz).
  pose proof (from_host_typed_makes rt Hlaw this d src r c FP32 w _ Hnone Hsrc) as Hmk. fold d' in Hmk.
  pose proof (makes_inv rt F _ _ _ _ _ _ _ _ Hmk Hnone I) as [_ I1].
  destruct Hmk as [(e & w1 & -> & ?)|(Hs & p & h' & E & Hal)]; [done|]. rewrite E in *. cbn [snd] in I1.
  set (t := fresh_tensor d' r c FP32 p (size_of (blank d' r c FP32))) in *. set (w1 := created this t h' w) in *.
  assert (Ht1 : w_objs w1 !! this = Some t) by apply created_obj.
  assert (Hszt : size_of t = r * c * 4) by exact Hsz.
  destruct (contents_fresh d' r c FP32 _ _ p _ h' w1 eq_refl Hs Hal eq_refl) as (bs & Hcont & HP).
  rewrite Hsz in HP. assert (Hmax' : r * c <= INT64_MAX) by nia.
  assert (Hrd1 : size_of t = 0 \/ (exists data, readable (dev_type (t_device t)) (w_heap w1) (t_data t) (size_of t) data) /\
            slot_registered rt (dev_type (t_device t)) = true).
  { destruct (Z.eq_dec (size_of t) 0) as [|Hne]; [by left|right].
    unfold allocated_as in Hal. rewrite Hsz in Hal. destruct (Z.eqb_spec (r * c * 4) 0); [lia|].
    destruct Hal as (b & dv & bs' & -> & Hb & -> & Hd & Hz & Hreg & ->). split; [|done].
    exists (slice 0 (r * c * 4) (concat (map (le_bytes 4) xs))). rewrite Hszt. split.
    - cbn. rewrite (ptr_on_type _ _ b (mkBlock dv (concat (map (le_bytes 4) xs)))) by (by rewrite lookup_insert, decide_True).
      cbn. by destruct (is_type_spec (dev_type d') dv).
    - apply (load_full (w_heap w1) b (mkBlock dv (concat (map (le_bytes 4) xs)))); [cbn; by rewrite lookup_insert, decide_True|cbn [blk_bytes]; lia]. }
  destruct (host_vector_spec this t FP32 4 (brt (lit "to_host_vector: dtype not FP32")) w1 Ht1 Hs eq_refl eq_refl ltac:(lia) Hmax' Hrd1)
    as [(e & Ev)|(_ & Hsize & data & Hdata & Ev)]; unfold T.to_host_vector; rewrite Ev; [done|].
  split; [|done]. cbn [t_rows t_cols t fresh_tensor].
  destruct (Z.eq_dec (r * c) 0) as [E0|Hne].
  { rewrite E0. cbn. rewrite E0 in Hlen. unfold zlen in Hlen. by destruct xs. }
  change (contents w1 t = Some bs) in Hcont. unfold contents in Hcont. rewrite Hszt in Hcont, Hdata. destruct (Z.eqb_spec (r * c * 4) 0); [lia|].
  rewrite Hdata in Hcont by lia. injection Hcont as ->. destruct (HP ltac:(lia)) as [-> _].
  replace (Z.to_nat (r * c)) with (length xs) by (unfold zlen in Hlen; lia).
  change (Z.to_nat 4) with 4%nat. rewrite (elements_concat 4 xs); [done|exact Hxs].
Qed.

(** ** Resizing *)

Fixpoint resizes (this : positive) (shapes : list (Z * Z * Dtype)) : M unit :=
  match shapes with
  | [] => mret tt
  | (r, c, dt) :: l => _ ← T.resize rt this r c dt; resizes this l
  end.

Definition shape_valid (x : Z * Z * Dtype) : Prop :=
  let '(r, c, dt) := x in
  0 <= r /\ 0 <= c /\ (dtype_is_quant dt = false \/ c <= 0 \/ c mod dtype_block_size dt = 0).
Definition shape_size (x : Z * Z * Dtype) : Z :=
  let '(r, c, dt) := x in size_of (set_shape Tensor_default r c dt).

Definition reshaped (t : Tensor) (x : Z * Z * Dtype) : Tensor := let '(r, c, dt) := x in set_shape t r c dt.

Lemma resize_fits F w this t r c dt :
  inv rt F w -> w_objs w !! this = Some t -> t_owns t = true -> t_jit_slot t < 0 ->
  shape_valid (r, c, dt) -> shape_size (r, c, dt) <= t_cap_bytes t ->
  T.resize rt this r c dt w = (Ret tt, with_objs w (<[this := set_shape t r c dt]> (w_objs w))).
Proof.
  intros I Ht Ho Hneg (Hr & Hc & Hq) Hfit. unfold T.resize.
  rewrite (st_bind_ret _ _ _ t w) by by apply obj_eq.
  rewrite (st_bind_ret _ _ _ tt w) by (unfold st_lift, check_not_symbolic, throw_if; by destruct (Z.geb_spec (t_jit_slot t) 0); [lia|]).
  rewrite (st_bind_ret _ _ _ tt w) by (unfold st_lift; by rewrite check_dims_ret).
  rewrite (st_bind_ret _ _ _ tt w) by (unfold st_lift; by rewrite check_quant_ret).
  destruct ((r =? t_rows t) && (c =? t_cols t) && dtype_eqb dt (t_dtype t) && negb (is_null (t_data t))) eqn:Esame.
  { bool_facts. unfold dtype_eqb in *. assert (dt = t_dtype t) as -> by (by eapply bool_decide_eq_true). subst.
    assert (set_shape t (t_rows t) (t_cols t) (t_dtype t) = t) as -> by by destruct t.
    rewrite insert_id by done. by destruct w. }
  rewrite (st_bind_ret _ _ _ (size_of (set_shape t r c dt)) w) by (unfold st_lift; by rewrite (size_shape t)).
  rewrite Ho. cbn [negb andb orb]. rewrite orb_false_r, Z.gtb_ltb. cbn [shape_size] in Hfit.
  change (size_of (set_shape Tensor_default r c dt)) with (size_of (set_shape t r c dt)) in Hfit.
  destruct (Z.ltb_spec (t_cap_bytes t) (size_of (set_shape t r c dt))); [lia|].
  rewrite (st_bind_ret _ _ _ tt w) by done. rewrite (st_bind_ret _ _ _ t w) by by apply obj_eq.
  by apply put_eq with (t0 := t).
Qed.

(** A scratch buffer stabilises. Once an owning tensor has capacity for
    the largest of a sequence of valid shapes, running the whole sequence of
    [resize] calls succeeds, ends in the last shape, and neither allocates nor
    moves the storage: memory, the allocation counters, the data pointer and
    the capacity are as before. *)
Theorem resize_within_capacity F w this t shapes :
  inv rt F w -> w_objs w !! this = Some t -> t_owns t = true -> t_jit_slot t < 0 ->
  Forall (fun x => shape_valid x /\ shape_size x <= t_cap_bytes t) shapes ->
  let t' := foldl reshaped t shapes in
  resizes this shapes w = (Ret tt, with_objs w (<[this := t']> (w_objs w))) /\
  t_data t' = t_data t /\ t_cap_bytes t' = t_cap_bytes t /\ t_owns t' = true.
Proof.
  intros I Ht Ho Hneg Hall t'. subst t'. revert w t I Ht Ho Hneg Hall.
  induction shapes as [|[[r c] dt] l IH]; intros w t I Ht Ho Hneg Hall.
  { cbn. rewrite insert_id by done. by destruct w. }
  apply Forall_cons in Hall as [[Hv Hf] Hall]. cbn [resizes foldl reshaped].
  pose proof (resize_fits F w this t r c dt I Ht Ho Hneg Hv Hf) as E.
  rewrite (st_bind_ret _ _ _ _ _ E).
  pose proof (resize_inv rt Hlaw F this t r c dt w I Ht) as [_ I1]. rewrite E in I1. cbn [snd] in I1.
  destruct (IH _ (set_shape t r c dt) I1 ltac:(cbn; by rewrite lookup_insert, decide_True) Ho Hneg Hall)
    as (E2 & H1 & H2 & H3).
  rewrite E2. split; [|done]. unfold with_objs. cbn. by rewrite insert_insert_eq.
Qed.

(** ** Element access *)

(** [at] is bounds checked. On a CPU FP32 tensor that owns its storage it
    throws exactly when the row or the column is out of range; otherwise it
    reads four bytes inside the tensor's own block, the little-endian float of
    row [r], column [c] in row-major order. *)
Theorem at_bounds_checked F w this t r c :
  inv rt F w -> w_objs w !! this = Some t -> t_owns t = true ->
  t_device t = Dev.CPU0 -> t_dtype t = FP32 -> is_int (t_rows t) -> is_int (t_cols t) ->
  let inside := (0 <=? r) && (r <? t_rows t) && (0 <=? c) && (c <? t_cols t) in
  if inside then
    exists bs, load_bytes (w_heap w) (ptr_add (t_data t) ((r * t_cols t + c) * 4)) 4 = Some bs /\
      (r * t_cols t + c) * 4 + 4 <= size_of t /\
      T.at_val this r c w = (Ret (le_int bs), w)
  else exists e, T.at_val this r c w = (Throw e, w).
Proof.
  intros I Ht Ho Hd Hdt Hir Hic inside. unfold T.at_val, T.at_ref.
  assert (Hobj : obj this w = (Ret t, w)) by by apply obj_eq.
  destruct (wf_obj _ _ _ _ (proj1 I) _ _ Ht) as [Hs Hok]. rewrite Ho in Hok.
  destruct Hok as (b & blk & Hdata & Hb & Hty & Hz & Hle & Hreg).
  destruct Hs as (Hr & Hc & _). unfold is_int, INT_MIN, INT_MAX in *.
  assert (Hsize : size_of t = t_rows t * t_cols t * 4).
  { pose proof (size_shape t (t_rows t) (t_cols t) FP32 Hr Hc (or_introl eq_refl)) as E.
    rewrite <- Hdt in E. assert (set_shape t (t_rows t) (t_cols t) (t_dtype t) = t) as Heta by by destruct t.
    rewrite Heta, Hdt in E. unfold dtype_storage_bytes in E. destruct (Z.ltb_spec (t_rows t * t_cols t) 0); [nia|].
    cbn [negb dtype_is_quant] in E. injection E as <-. cbn [dtype_size_bytes]. unfold u64.
    rewrite <- Z.mul_mod by lia. apply Z.mod_small. nia. }
  assert (Hred : forall (k : ptr -> M Z),
    ((t0 ← obj this; _ ← st_lift (check_host t0 (lit "at")); _ ← st_lift (check_dtype t0 FP32 (lit "at"));
      if (r <? 0) || (r >=? t_rows t0) || (c <? 0) || (c >=? t_cols t0)
      then st_throw (brt (lit "at: index out of range"))
      else mret (ptr_add (t_data t0) (u64 (u64 (u64 r * u64 (t_cols t0)) + u64 c) * 4))) ≫= k) w =
    (if negb inside then (Throw (brt (lit "at: index out of range")), w)
     else k (ptr_add (t_data t) (u64 (u64 (u64 r * u64 (t_cols t)) + u64 c) * 4)) w)).
  { intros k. unfold mbind, st_bind at 1 2 3 4. rewrite Hobj. unfold st_lift, check_host, check_dtype, throw_if.
    rewrite Hd, Hdt. cbn [negb dtype_eqb]. change (Dev.eqb Dev.CPU0 Dev.CPU0) with true.
    change (dtype_eqb FP32 FP32) with true. cbv beta iota delta [negb].
    assert (((r <? 0) || (r >=? t_rows t) || (c <? 0) || (c >=? t_cols t)) = negb inside) as ->.
    { unfold inside. rewrite !negb_andb, !Z.geb_leb.
      by rewrite <- !Z.leb_antisym, <- !Z.ltb_antisym. }
    by destruct inside. }
  rewrite Hred. destruct inside eqn:E; cbn [negb]; [|by eexists].
  unfold inside in E. bool_facts.
  assert (Hin : 0 <= r * t_cols t + c < t_rows t * t_cols t) by nia.
  assert (Ha : u64 (u64 (u64 r * u64 (t_cols t)) + u64 c) = r * t_cols t + c).
  { unfold u64. rewrite <- Z.mul_mod, <- Z.add_mod by lia. apply Z.mod_small. nia. }
  rewrite Ha. unfold T.load_f32. rewrite Hdata. cbn [ptr_add load_bytes]. rewrite Hb. cbn [mbind option_bind].
  rewrite (proj2 (in_block_true blk (0 + (r * t_cols t + c) * 4) 4)) by lia.
  eexists. split; [done|]. split; [lia|]. done.
Qed.
End Props.

(** ** Examples

    A machine with the CPU and one Vulkan device, and a client that owns one
    host buffer of 16 bytes (block 1). *)
Module Ex.
Definition rt : runtime := mkRuntime
  (fun t => match t with
            | CPU => Some (mkSlot (fun _ => None) (IdealAlloc.table CPU))
            | VULKAN => Some (mkSlot (fun _ => None) (IdealAlloc.table VULKAN))
            | _ => None
            end) 0 1 true Dev.VULKAN0 true None [].

Definition floats : list Z := [0x3F800000; 0x40000000; 0x40400000; 0x40800000].
Definition buffer : block := mkBlock Dev.CPU0 (concat (map (le_bytes 4) floats)).
Definition start : world := mkWorld {[ 1%positive := buffer ]} ∅ 0 0 false ∅.
Definition F : gset positive := {[ 1%positive ]}.

Lemma rt_lawful t s : rt_slots rt t = Some s -> LawfulAlloc t (slot_alloc s).
Proof. destruct t; cbn; intros [= <-]; apply IdealAlloc.lawful. Qed.

Lemma start_inv : inv rt F start.
Proof.
  split; [split|split; [|split]]; cbn.
  - intros id t H. by rewrite lookup_empty in H.
  - intros i j ti tj b H. by rewrite lookup_empty in H.
  - intros b. rewrite lookup_singleton_is_Some. unfold F. rewrite elem_of_singleton. split; [intros ->; by left|].
    intros [->|(id & t & H & _)]; [done|by rewrite lookup_empty in H].
  - intros id t b H. by rewrite lookup_empty in H.
  - right. intros id t H. by rewrite lookup_empty in H.
  - intros id t H. by rewrite lookup_empty in H.
  - intros s id H. by rewrite lookup_empty in H.
Qed.

(** The buffer uploaded to the Vulkan device. *)
Definition one : world := (T.from_host_on rt 5 Dev.VULKAN0 (Some (1%positive, 0)) 2 2 start).2.
Definition tensor : Tensor := mkTensor (Some (2%positive, 0)) 2 2 FP32 Dev.VULKAN0 (-1) true 16.

Lemma one_inv : inv rt F one.
Proof.
  apply (call_ok rt rt_lawful CpuAlloc.first_free CpuAlloc.first_free_spec F start
           (CFromHost 5 Dev.VULKAN0 (Some (1%positive, 0)) 2 2 FP32) start_inv).
  split; [done|]. right. exists (concat (map (le_bytes 4) floats)). by split; vm_compute.
Qed.

Lemma one_tensor : w_objs one !! 5%positive = Some tensor.
Proof. by vm_compute. Qed.

Lemma tensor_source : source_ok rt (w_heap one) tensor.
Proof.
  apply owning_source; [|done]. apply (wf_obj _ _ _ _ (proj1 one_inv) 5%positive). apply one_tensor.
Qed.

(** An allocator that runs out above 16 bytes. *)
Definition small_table (t : DeviceType) : AllocVTable :=
  let i := IdealAlloc.table t in
  mkAllocVTable (fun n idx h => if n >? 16 then (Throw (lit "std::bad_alloc"), h) else vt_alloc i n idx h)
    (vt_free i) (vt_memcpy_h2d i) (vt_memcpy_d2h i) (vt_memcpy_d2d i) (vt_memcpy_peer i) (vt_memset_zero i) (vt_sync i)
    (vt_mem_info i) (vt_mem_trim i) (vt_device_name i) (vt_idle i).
Definition small_rt : runtime := mkRuntime
  (fun t => match t with CPU => Some (mkSlot (fun _ => None) (small_table CPU)) | _ => None end)
  0 0 true Dev.CPU0 true None [].

Lemma small_lawful t s : rt_slots small_rt t = Some s -> LawfulAlloc t (slot_alloc s).
Proof.
  destruct t; cbn; intros [= <-]. split; cbn -[Z.gtb]; try apply (IdealAlloc.lawful CPU).
  intros n idx h Hn. destruct (n >? 16); [done|]. by apply (law_alloc (LawfulAlloc := IdealAlloc.lawful CPU)).
Qed.
End Ex.

Lemma tensor_client_safe_witness :
  let r c w := (run Ex.rt CpuAlloc.first_free c w).2 in
  let w' := r (CDtor 6) (r (CDtor 5) (r (CMoveCtor 6 5) (r (CZeros 5 Dev.VULKAN0 2 2 FP32) Ex.start))) in
  w_alloc_count w' = 1 /\ dom (w_heap w') = Ex.F.
Proof.
  intros r w'. split; [vm_compute; reflexivity|].
  destruct (tensor_client_safe Ex.rt Ex.rt_lawful CpuAlloc.first_free CpuAlloc.first_free_spec Ex.F Ex.start w' Ex.start_inv)
    as (_ & _ & H & _).
  - set (c1 := CZeros 5 Dev.VULKAN0 2 2 FP32). set (c2 := CMoveCtor 6 5). set (c3 := CDtor 5).
    apply (rtc_l _ _ (r c1 Ex.start)); [apply (step_call _ _ _ _ c1); vm_compute; reflexivity|].
    apply (rtc_l _ _ (r c2 (r c1 Ex.start))).
    { apply (step_call _ _ _ _ c2). split; [vm_compute; reflexivity|].
      apply (bool_decide_eq_true_1 _). vm_compute. reflexivity. }
    apply (rtc_l _ _ (r c3 (r c2 (r c1 Ex.start)))).
    { apply (step_call _ _ _ _ c3). apply (bool_decide_eq_true_1 _). vm_compute. reflexivity. }
    apply rtc_once, (step_call _ _ _ _ (CDtor 6)). apply (bool_decide_eq_true_1 _). vm_compute. reflexivity.
  - apply H. vm_compute. reflexivity.
Defined.

Lemma copy_is_deep_witness :
  let w1 := (T.copy_ctor Ex.rt 6 5 Ex.one).2 in
  exists t, w_objs w1 = <[6%positive := t]> (w_objs Ex.one) /\ is_copy Ex.one Ex.tensor w1 t Dev.VULKAN0.
Proof.
  pose proof (copy_is_deep Ex.rt Ex.rt_lawful Ex.F Ex.one 6 5 Ex.tensor Ex.one_inv eq_refl Ex.one_tensor
    Ex.tensor_source ltac:(done) eq_refl) as H.
  intros w1. subst w1. destruct (T.copy_ctor Ex.rt 6 5 Ex.one) as [[u|e|] w1] eqn:E1; [|by vm_compute in E1..].
  destruct (T.clone Ex.rt 6 5 Ex.one) as [[u2|e|] w2] eqn:E2; [|by vm_compute in E2..]. apply H.
Defined.

Lemma to_round_trip_witness :
  let w1 := (T.to Ex.rt CpuAlloc.first_free 6 5 Dev.CPU0 Ex.one).2 in
  let w2 := (T.to Ex.rt CpuAlloc.first_free 7 6 Dev.VULKAN0 w1).2 in
  exists t, w_objs w2 = <[7%positive := t]> (w_objs w1) /\ contents w2 t = contents Ex.one Ex.tensor.
Proof.
  pose proof (to_round_trip Ex.rt Ex.rt_lawful CpuAlloc.first_free CpuAlloc.first_free_spec Ex.F Ex.one 6 7 5 Ex.tensor Dev.CPU0
    Ex.one_inv Ex.one_tensor eq_refl eq_refl ltac:(done) Ex.tensor_source ltac:(done) ltac:(by vm_compute) eq_refl) as H.
  intros w1 w2. subst w1 w2. destruct (T.to Ex.rt CpuAlloc.first_free 6 5 Dev.CPU0 Ex.one) as [[u|e|] w1] eqn:E1; [|by vm_compute in E1..].
  destruct H as [_ H]. cbn [snd]. cbn [t_device Ex.tensor] in H.
  destruct (T.to Ex.rt CpuAlloc.first_free 7 6 Dev.VULKAN0 w1) as [[u2|e|] w2] eqn:E2.
  - destruct H as (t & Ho & _ & _ & _ & _ & Hc). by exists t.
  - exfalso. vm_compute in E1. injection E1 as <- <-. by vm_compute in E2.
  - done.
Defined.

Lemma host_round_trip_witness :
  let w1 := (T.from_host_on Ex.rt 5 Dev.VULKAN0 (Some (1%positive, 0)) 2 2 Ex.start).2 in
  (T.to_host_vector Ex.rt CpuAlloc.first_free 5 w1).1 = Ret Ex.floats.
Proof.
  pose proof (host_round_trip Ex.rt Ex.rt_lawful CpuAlloc.first_free CpuAlloc.first_free_spec Ex.F Ex.start 5 Dev.VULKAN0
    (Some (1%positive, 0)) 2 2 Ex.floats Ex.start_inv eq_refl ltac:(done) ltac:(done) ltac:(done) eq_refl
    ltac:(repeat constructor; done) ltac:(by split; vm_compute)) as H.
  intros w1. subst w1.
  destruct (T.from_host_on Ex.rt 5 Dev.VULKAN0 (Some (1%positive, 0)) 2 2 Ex.start) as [[u|e|] w1] eqn:E1; [|by vm_compute in E1..].
  cbn [snd]. destruct (T.to_host_vector Ex.rt CpuAlloc.first_free 5 w1) as [[ys|e|] w2] eqn:E2.
  - by destruct H as [-> _].
  - exfalso. vm_compute in E1. injection E1 as <- <-. by vm_compute in E2.
  - done.
Defined.

Lemma resize_within_capacity_witness :
  let shapes := [(1, 3, FP32); (4, 2, FP16); (0, 7, INT8); (2, 2, FP32)] in
  exists w', resizes Ex.rt 5 shapes Ex.one = (Ret tt, w') /\ w_heap w' = w_heap Ex.one /\ w_alloc_count w' = 1.
Proof.
  intros shapes. destruct (resize_within_capacity Ex.rt Ex.rt_lawful Ex.F Ex.one 5 Ex.tensor shapes Ex.one_inv Ex.one_tensor
    eq_refl ltac:(done)) as [E _].
  - unfold shapes. repeat constructor; cbn; try lia; try (by left); by vm_compute.
  - eexists. split; [exact E|]. by split; vm_compute.
Defined.

Lemma at_bounds_checked_witness :
  let w := (T.to Ex.rt CpuAlloc.first_free 6 5 Dev.CPU0 Ex.one).2 in
  T.at_val 6 1 0 w = (Ret 0x40400000, w) /\ exists e, T.at_val 6 2 0 w = (Throw e, w).
Proof.
  intros w. split; [by vm_compute|].
  assert (I : inv Ex.rt Ex.F w).
  { apply (call_ok Ex.rt Ex.rt_lawful CpuAlloc.first_free CpuAlloc.first_free_spec Ex.F Ex.one (CTo 6 5 Dev.CPU0) Ex.one_inv).
    split; [done|]. exists Ex.tensor. split; [apply Ex.one_tensor|apply Ex.tensor_source]. }
  assert (Ht : w_objs w !! 6%positive = Some (mkTensor (Some (3%positive, 0)) 2 2 FP32 Dev.CPU0 (-1) true 16)) by by vm_compute.
  apply (at_bounds_checked Ex.rt Ex.F w 6 _ 2 0 I Ht); try done; unfold is_int, INT_MIN, INT_MAX; cbn; lia.
Defined.

(** A [resize] that runs out of memory leaves a tensor that lies about its
    storage: the old buffer is gone and [data] is null, but the old shape is
    still there, so the bounds check of [at] passes and the read goes through a
    null pointer. *)
Theorem resize_failure_keeps_shape :
  exists rt (w w' : world) this t e,
    (forall ty s, rt_slots rt ty = Some s -> LawfulAlloc ty (slot_alloc s)) /\
    w_objs w !! this = Some t /\ (exists x, T.at_val this 1 1 w = (Ret x, w)) /\
    T.resize rt this 8 8 FP32 w = (Throw e, w') /\
    (exists t', w_objs w' !! this = Some t' /\ t_rows t' = 2 /\ t_cols t' = 2 /\ t_data t' = nullptr) /\
    (T.at_val this 1 1 w').1 = Undef.
Proof.
  exists Ex.small_rt.
  set (w := (T.zeros_on Ex.small_rt 1 Dev.CPU0 2 2 FP32 (mkWorld ∅ ∅ 0 0 false ∅)).2).
  exists w, (T.resize Ex.small_rt 1 8 8 FP32 w).2, 1%positive.
  eexists _, _. split; [apply Ex.small_lawful|]. split; [by vm_compute|]. split; [eexists; by vm_compute|].
  split; [by vm_compute|]. split; [eexists; by vm_compute|by vm_compute].
Qed.
