(* ===== verification/Json.v ===== *)
(** * The JSON reader

    include/brotensor/json.h: the value type with its accessors, and the
    recursive-descent parser. A number is an IEEE double, kept as a
    [spec_float]. Whether the C library reports an inexact underflow as a range
    error is implementation-defined and a parameter.

    The parser's cursor is its offset and the bytes from there to [end_]. Its
    recursion takes fuel, as much as any input of that length can use, and runs
    on a stack with room for a given number of nested containers; [Undef] is
    the overflow of that stack, which 257 frames exclude ([parse_total]). *)
From Stdlib Require Import Floats.SpecFloat.
From S2P Require Import Prelude.

(** ** Values *)

#[local] Set Warnings "-register-all".

Inductive Value : Type :=
  | Null
  | Bool (b : bool)
  | Number (d : spec_float)
  | String (s : str)
  | Array (a : list Value)
  | Object (o : list (str * Value)).

Definition Value_is_null (v : Value) : bool := match v with Null => true | _ => false end.

Definition jfail {A} (m : str) : res A := Throw (lit "json: " ++ m).

Definition as_number (v : Value) : res spec_float :=
  match v with Number d => Ret d | _ => jfail (lit "value is not a number") end.
Definition as_bool (v : Value) : res bool :=
  match v with Bool b => Ret b | _ => jfail (lit "value is not a bool") end.
Definition as_string (v : Value) : res str :=
  match v with String s => Ret s | _ => jfail (lit "value is not a string") end.
Definition as_array (v : Value) : res (list Value) :=
  match v with Array a => Ret a | _ => jfail (lit "value is not an array") end.
Definition as_object (v : Value) : res (list (str * Value)) :=
  match v with Object o => Ret o | _ => jfail (lit "value is not an object") end.

Fixpoint find_member (key : str) (o : list (str * Value)) : option Value :=
  match o with
  | [] => None
  | (k, v) :: r => if str_eqb k key then Some v else find_member key r
  end.

Definition find (v : Value) (key : str) : option Value :=
  match v with Object o => find_member key o | _ => None end.

Definition contains (v : Value) (key : str) : bool :=
  match find v key with Some _ => true | None => false end.

Definition at_key (v : Value) (key : str) : res Value :=
  match find v key with
  | Some x => Ret x
  | None => jfail (lit "missing key '" ++ key ++ lit "'")
  end.

(** [static_cast<int>(double)]: truncation; a value whose truncation is not an
    [int] (and a NaN or an infinity) is undefined. *)
Definition sf_trunc (d : spec_float) : option Z :=
  match d with
  | S754_zero _ => Some 0
  | S754_finite s m e =>
      let a := if 0 <=? e then Z.pos m * 2 ^ e else Z.pos m / 2 ^ (- e) in
      Some (if s then - a else a)
  | _ => None
  end.

Definition double_to_int (d : spec_float) : res Z :=
  match sf_trunc d with
  | Some z => if (INT_MIN <=? z) && (z <=? INT_MAX) then Ret z else Undef
  | None => Undef
  end.

(** [if (!v || v->is_null()) return dflt;]: the member there is to read. *)
Definition present (v : Value) (key : str) : option Value :=
  match find v key with
  | Some x => if Value_is_null x then None else Some x
  | None => None
  end.

Definition get_int (v : Value) (key : str) (dflt : Z) : res Z :=
  match present v key with
  | None => Ret dflt
  | Some x => d ← as_number x; double_to_int d
  end.

(** [static_cast<float>(double)]: rounding to binary32. *)
Definition double_to_float (d : spec_float) : spec_float :=
  match d with
  | S754_finite s m e => binary_normalize 24 128 (if s then Z.neg m else Z.pos m) e s
  | x => x
  end.

Definition get_float (v : Value) (key : str) (dflt : spec_float) : res spec_float :=
  match present v key with
  | None => Ret dflt
  | Some x => d ← as_number x; Ret (double_to_float d)
  end.
Definition get_bool (v : Value) (key : str) (dflt : bool) : res bool :=
  match present v key with None => Ret dflt | Some x => as_bool x end.
Definition get_string (v : Value) (key : str) (dflt : str) : res str :=
  match present v key with None => Ret dflt | Some x => as_string x end.

Fixpoint ints_of (a : list Value) : res (list Z) :=
  match a with
  | [] => Ret []
  | e :: r => d ← as_number e; i ← double_to_int d; l ← ints_of r; Ret (i :: l)
  end.

Definition get_int_array (v : Value) (key : str) (dflt : list Z) : res (list Z) :=
  match present v key with
  | None => Ret dflt
  | Some x => a ← as_array x; ints_of a
  end.

(** ** UTF-8 *)

Definition append_utf8 (cp : Z) (out : str) : str :=
  if cp <=? 0x7F then out ++ [zb cp]
  else if cp <=? 0x7FF then
    out ++ [zb (Z.lor 0xC0 (Z.shiftr cp 6)); zb (Z.lor 0x80 (Z.land cp 0x3F))]
  else if cp <=? 0xFFFF then
    out ++ [zb (Z.lor 0xE0 (Z.shiftr cp 12)); zb (Z.lor 0x80 (Z.land (Z.shiftr cp 6) 0x3F));
            zb (Z.lor 0x80 (Z.land cp 0x3F))]
  else
    out ++ [zb (Z.lor 0xF0 (Z.shiftr cp 18)); zb (Z.lor 0x80 (Z.land (Z.shiftr cp 12) 0x3F));
            zb (Z.lor 0x80 (Z.land (Z.shiftr cp 6) 0x3F)); zb (Z.lor 0x80 (Z.land cp 0x3F))].

(** ** Decimal to double: [std::stod] on the text of a number *)

(** The exact value [(-1)^neg * mant * 10^exp], rounded to nearest even. *)
Definition round_decimal (neg : bool) (mant : Z) (exp : Z) : spec_float :=
  match mant with
  | Z.pos m =>
      if 0 <=? exp then
        match mant * 10 ^ exp with
        | Z.pos p => binary_normalize 53 1024 (if neg then Z.neg p else Z.pos p) 0 neg
        | _ => S754_nan
        end
      else
        match 10 ^ (- exp) with
        | Z.pos q => SFdiv 53 1024 (S754_finite neg m 0) (S754_finite false q 0)
        | _ => S754_nan
        end
  | _ => S754_zero neg
  end.

(** A result below the least normal double that is not the exact value. *)
Definition inexact_tiny (mant exp : Z) (d : spec_float) : bool :=
  match d with
  | S754_zero _ => negb (mant =? 0)
  | S754_finite _ m e =>
      (Z.log2 (Z.pos m) + e <? -1022) &&
      negb (mant * 10 ^ Z.max 0 exp * 2 ^ Z.max 0 (- e) =? Z.pos m * 2 ^ Z.max 0 e * 10 ^ Z.max 0 (- exp))
  | _ => false
  end.

(** The pieces of a number's text. *)
Definition frac_part (s : str) : str * str :=
  match s with
  | b :: r => if b =b "."%byte then split_digits r else ([], s)
  | [] => ([], [])
  end.
Definition exp_part (s : str) : Z :=
  match s with
  | b :: r =>
      if (b =b "e"%byte) || (b =b "E"%byte) then
        match r with
        | c :: t => if c =b "-"%byte then - digits_val 0 (split_digits t).1
                    else if c =b "+"%byte then digits_val 0 (split_digits t).1
                    else digits_val 0 (split_digits r).1
        | [] => 0
        end
      else 0
  | [] => 0
  end.

(** [None]: the [std::out_of_range] that the parser catches. *)
Definition stod (erange_underflow : bool) (num : str) : option spec_float :=
  let '(neg, s) := match num with
                   | b :: r => if b =b "-"%byte then (true, r) else (false, num)
                   | [] => (false, [])
                   end in
  let '(ip, s) := split_digits s in
  let '(fp, s) := frac_part s in
  let mant := digits_val 0 (ip ++ fp) in
  let exp := exp_part s - zlen fp in
  match round_decimal neg mant exp with
  | S754_infinity _ | S754_nan => None
  | d => if erange_underflow && inexact_tiny mant exp d then None else Some d
  end.

(** ** The parser *)
Module Parser.

Record cursor : Type := mkCursor { pos : Z; rest : str }.

Definition advance (n : nat) (s : cursor) : cursor :=
  mkCursor (pos s + Z.of_nat (length (take n (rest s)))) (drop n (rest s)).

Definition kMaxDepth : Z := 256.

Definition fail {A} (s : cursor) (msg : str) : res A :=
  Throw (lit "json: " ++ msg ++ lit " at offset " ++ to_string (pos s)).

Definition is_ws (b : byte) : bool := (b =b " "%byte) || (b =b x09) || (b =b x0a) || (b =b x0d).

Fixpoint skip_ws_from (p : Z) (r : str) : cursor :=
  match r with
  | b :: t => if is_ws b then skip_ws_from (p + 1) t else mkCursor p r
  | [] => mkCursor p []
  end.
Definition skip_ws (s : cursor) : cursor := skip_ws_from (pos s) (rest s).

Definition peek (s : cursor) : byte := match rest s with b :: _ => b | [] => x00 end.

Definition hex_digit (c : byte) : Z :=
  if (48 <=? bz c) && (bz c <=? 57) then bz c - 48
  else if (97 <=? bz c) && (bz c <=? 102) then bz c - 97 + 10
  else if (65 <=? bz c) && (bz c <=? 70) then bz c - 65 + 10
  else -1.

Fixpoint hex_loop (s : cursor) (cs : str) (cp : Z) : res Z :=
  match cs with
  | [] => Ret cp
  | c :: r =>
      let v := hex_digit c in
      if v <? 0 then fail s (lit "bad hex digit in \u escape")
      else hex_loop s r (u32 (Z.lor (Z.shiftl cp 4) v))
  end.

Definition parse_hex4 (s : cursor) : res (Z * cursor) :=
  if zlen (rest s) <? 4 then fail s (lit "truncated \u escape")
  else cp ← hex_loop s (take 4 (rest s)) 0; Ret (cp, advance 4 s).

(** The [\u] case of [parse_string]: the bytes so far, and those of the escape. *)
Definition parse_u (s : cursor) (out : str) : res (str * cursor) :=
  '(cp, s) ← parse_hex4 s;
  if (0xD800 <=? cp) && (cp <=? 0xDBFF) then
    match rest s with
    | b :: u :: _ =>
        if (b =b "\"%byte) && (u =b "u"%byte) then
          '(lo, s) ← parse_hex4 (advance 2 s);
          if (0xDC00 <=? lo) && (lo <=? 0xDFFF) then
            Ret (append_utf8 (0x10000 + Z.shiftl (cp - 0xD800) 10 + (lo - 0xDC00)) out, s)
          else Ret (append_utf8 lo (append_utf8 cp out), s)
        else Ret (append_utf8 cp out, s)
    | _ => Ret (append_utf8 cp out, s)
    end
  else Ret (append_utf8 cp out, s).

Definition simple_escape (e : byte) : option byte :=
  if e =b x22 then Some x22
  else if e =b "\"%byte then Some "\"%byte
  else if e =b "/"%byte then Some "/"%byte
  else if e =b "n"%byte then Some x0a
  else if e =b "t"%byte then Some x09
  else if e =b "r"%byte then Some x0d
  else if e =b "b"%byte then Some x08
  else if e =b "f"%byte then Some x0c
  else None.

(** The loop of [parse_string], after the opening quote. *)
Fixpoint string_loop (fuel : nat) (s : cursor) (out : str) : res (str * cursor) :=
  match fuel with
  | O => Undef
  | S f =>
      match rest s with
      | [] => fail s (lit "unterminated string")
      | c :: _ =>
          if c =b x22 then Ret (out, advance 1 s)
          else if c =b "\"%byte then
            let s := advance 1 s in
            match rest s with
            | [] => fail s (lit "unterminated escape in string")
            | e :: _ =>
                let s := advance 1 s in
                match simple_escape e with
                | Some b => string_loop f s (out ++ [b])
                | None =>
                    if e =b "u"%byte then '(out, s) ← parse_u s out; string_loop f s out
                    else fail s (lit "unsupported escape sequence")
                end
            end
          else string_loop f (advance 1 s) (out ++ [c])
      end
  end.

Definition parse_string (s : cursor) : res (str * cursor) :=
  if negb (peek s =b x22) then fail s (lit "expected string")
  else string_loop (S (length (rest s))) (advance 1 s) [].

Definition expect_literal (l : str) (s : cursor) : res cursor :=
  if (zlen (rest s) <? zlen l) || negb (str_eqb (take (length l) (rest s)) l)
  then fail s (lit "invalid literal, expected '" ++ l ++ lit "'")
  else Ret (advance (length l) s).

Definition parse_nan (s : cursor) : res (Value * cursor) :=
  s ← expect_literal (lit "NaN") s; Ret (Number S754_nan, s).

(** [while (peek() >= '0' && peek() <= '9') ++p_;] *)
Definition skip_digits (s : cursor) : cursor := advance (length (split_digits (rest s)).1) s.

Definition parse_int_part (s : cursor) : res cursor :=
  if peek s =b "0"%byte then Ret (advance 1 s)
  else if (49 <=? bz (peek s)) && (bz (peek s) <=? 57) then Ret (skip_digits s)
  else fail s (lit "invalid number").

Definition parse_frac_part (s : cursor) : res cursor :=
  if peek s =b "."%byte then
    let s := advance 1 s in
    if negb (is_digit (peek s)) then fail s (lit "invalid number: digits expected after '.'")
    else Ret (skip_digits s)
  else Ret s.

Definition parse_exp_part (s : cursor) : res cursor :=
  if (peek s =b "e"%byte) || (peek s =b "E"%byte) then
    let s := advance 1 s in
    let s := if (peek s =b "+"%byte) || (peek s =b "-"%byte) then advance 1 s else s in
    if negb (is_digit (peek s)) then fail s (lit "invalid number: digits expected in exponent")
    else Ret (skip_digits s)
  else Ret s.

Section Numbers.
Context (erange_underflow : bool).

Definition parse_number (s : cursor) : res (Value * cursor) :=
  let start := s in
  let neg := peek s =b "-"%byte in
  let s := if neg then advance 1 s else s in
  if peek s =b "I"%byte then
    s ← expect_literal (lit "Infinity") s; Ret (Number (S754_infinity neg), s)
  else
    s ← parse_int_part s;
    s ← parse_frac_part s;
    s ← parse_exp_part s;
    let num := take (length (rest start) - length (rest s)) (rest start) in
    match stod erange_underflow num with
    | Some d => Ret (Number d, s)
    | None => fail s (lit "number out of range")
    end.

Definition starts (l : str) (s : cursor) : bool :=
  (zlen l <=? zlen (rest s)) && str_eqb (take (length l) (rest s)) l.

Definition parse_bool (s : cursor) : res (Value * cursor) :=
  if starts (lit "true") s then Ret (Bool true, advance 4 s)
  else if starts (lit "false") s then Ret (Bool false, advance 5 s)
  else fail s (lit "invalid literal").

Definition parse_null (s : cursor) : res (Value * cursor) :=
  if starts (lit "null") s then Ret (Null, advance 4 s)
  else fail s (lit "invalid literal").

(** [depth] is [depth_] when the function is entered; the guard's decrement
    is its return. [room] is how many more nested calls of [parse_object] and
    [parse_array] the machine's stack has frames for: a call that finds none
    overflows it, before the depth is looked at. *)
Fixpoint parse_value (fuel room : nat) (depth : Z) (s : cursor) : res (Value * cursor) :=
  match fuel with
  | O => Undef
  | S f =>
      let s := skip_ws s in
      match rest s with
      | [] => fail s (lit "unexpected end of input")
      | c :: _ =>
          if c =b "{"%byte then parse_object f room depth s
          else if c =b "["%byte then parse_array f room depth s
          else if c =b x22 then '(t, s) ← parse_string s; Ret (String t, s)
          else if (c =b "t"%byte) || (c =b "f"%byte) then parse_bool s
          else if c =b "n"%byte then parse_null s
          else if c =b "I"%byte then parse_number s
          else if c =b "N"%byte then parse_nan s
          else if (c =b "-"%byte) || is_digit c then parse_number s
          else fail s (lit "unexpected character")
      end
  end
with parse_object (fuel room : nat) (depth : Z) (s : cursor) : res (Value * cursor) :=
  match fuel, room with
  | O, _ | _, O => Undef
  | S f, S room =>
      if depth + 1 >? kMaxDepth then fail s (lit "maximum nesting depth exceeded")
      else
        let s := skip_ws (advance 1 s) in
        if peek s =b "}"%byte then Ret (Object [], advance 1 s)
        else '(ms, s) ← parse_members f room (depth + 1) s []; Ret (Object ms, s)
  end
with parse_members (fuel room : nat) (depth : Z) (s : cursor) (members : list (str * Value))
    : res (list (str * Value) * cursor) :=
  match fuel with
  | O => Undef
  | S f =>
      let s := skip_ws s in
      if negb (peek s =b x22) then fail s (lit "expected object key string")
      else
        '(key, s) ← parse_string s;
        let s := skip_ws s in
        if negb (peek s =b ":"%byte) then fail s (lit "expected ':' after object key")
        else
          '(val, s) ← parse_value f room depth (advance 1 s);
          let members := members ++ [(key, val)] in
          let s := skip_ws s in
          let c := peek s in
          if c =b ","%byte then parse_members f room depth (advance 1 s) members
          else if c =b "}"%byte then Ret (members, advance 1 s)
          else fail s (lit "expected ',' or '}' in object")
  end
with parse_array (fuel room : nat) (depth : Z) (s : cursor) : res (Value * cursor) :=
  match fuel, room with
  | O, _ | _, O => Undef
  | S f, S room =>
      if depth + 1 >? kMaxDepth then fail s (lit "maximum nesting depth exceeded")
      else
        let s := skip_ws (advance 1 s) in
        if peek s =b "]"%byte then Ret (Array [], advance 1 s)
        else '(es, s) ← parse_elems f room (depth + 1) s []; Ret (Array es, s)
  end
with parse_elems (fuel room : nat) (depth : Z) (s : cursor) (elems : list Value)
    : res (list Value * cursor) :=
  match fuel with
  | O => Undef
  | S f =>
      '(v, s) ← parse_value f room depth s;
      let elems := elems ++ [v] in
      let s := skip_ws s in
      let c := peek s in
      if c =b ","%byte then parse_elems f room depth (advance 1 s) elems
      else if c =b "]"%byte then Ret (elems, advance 1 s)
      else fail s (lit "expected ',' or ']' in array")
  end.

(** [stack] is the room at the start. *)
Definition parse_document (stack : nat) (text : str) : res Value :=
  let s := skip_ws (mkCursor 0 text) in
  '(v, s) ← parse_value (3 * length text + 3) stack 0 s;
  let s := skip_ws s in
  match rest s with
  | [] => Ret v
  | _ => fail s (lit "trailing characters after document")
  end.

Definition parse_on (stack : nat) (text : str) : res Value := parse_document stack text.

(** A stack with frames for one container more than the depth limit. *)
Definition parse (text : str) : res Value := parse_on (Z.to_nat kMaxDepth + 1) text.
End Numbers.
End Parser.
