(* ===== verification/JsonSpec.v ===== *)
(** * The JSON reader: totality and completeness

    The parser of Json.v ends on every input, respects its nesting limit, and
    accepts every document of the JSON grammar of that depth with the value the
    grammar gives it. The grammar is [denotes]. *)
From Stdlib Require Import Floats.SpecFloat.
From S2P Require Import Prelude Json.
Import Parser.

(** ** Termination and depth *)

Fixpoint depth_of (v : Value) : Z :=
  match v with
  | Array a => 1 + foldr (fun x acc => Z.max (depth_of x) acc) 0 a
  | Object o => 1 + foldr (fun m acc => Z.max (depth_of m.2) acc) 0 o
  | _ => 0
  end.

Abbreviation len s := (length (rest s)).

(** A result that does not diverge and has consumed input. *)
Definition progress {A} (s : cursor) (r : res (A * cursor)) (P : A -> Prop) : Prop :=
  match r with
  | Ret (a, s') => (len s' < len s)%nat /\ P a
  | Throw _ => True
  | Undef => False
  end.

Lemma progress_bind {A B} s (r : res (A * cursor)) (k : A * cursor -> res (B * cursor)) P Q :
  progress s r P -> (forall a s', (len s' < len s)%nat -> P a -> progress s (k (a, s')) Q) ->
  progress s (r ≫= k) Q.
Proof. destruct r as [[a s']|m|]; cbn; [intros [H1 H2] Hk; by apply Hk|done..]. Qed.

Lemma progress_weaken {A} s s' (r : res (A * cursor)) (P Q : A -> Prop) :
  progress s' r P -> (len s' <= len s)%nat -> (forall a, P a -> Q a) -> progress s r Q.
Proof. destruct r as [[a t]|m|]; cbn; [|done..]. intros [H1 H2] Hl HPQ. split; [lia|auto]. Qed.

Lemma len_skip_ws s : (len (skip_ws s) <= len s)%nat.
Proof.
  unfold skip_ws. destruct s as [p r]; cbn [pos rest]. revert p.
  induction r as [|b r IH]; intros p; cbn; [done|]. destruct (is_ws b); cbn; [|lia].
  specialize (IH (p + 1)). lia.
Qed.

Lemma len_advance n s : len (advance n s) = (len s - n)%nat.
Proof. cbn. apply length_drop. Qed.

(** Arithmetic on the lengths of cursors whose head is known. *)
Ltac lens :=
  rewrite ?len_advance;
  repeat match goal with E : rest ?s = _ |- context [rest ?s] => rewrite E end;
  repeat match goal with E : rest ?s = _, H : context [rest ?s] |- _ => rewrite E in H end;
  cbn [length] in *; lia.

Lemma fail_progress {A} s s' m P : progress s (@fail (A * cursor) s' m) P.
Proof. done. Qed.

Lemma hex_loop_defined s cs cp : hex_loop s cs cp <> Undef.
Proof. revert cp. induction cs as [|c r IH]; intros cp; cbn; [done|]. by destruct (_ <? 0). Qed.

Lemma parse_hex4_progress s : progress s (parse_hex4 s) (fun _ => True).
Proof.
  unfold parse_hex4, zlen. destruct (Z.ltb_spec (Z.of_nat (len s)) 4); [done|].
  pose proof (hex_loop_defined s (take 4 (rest s)) 0).
  destruct (hex_loop s (take 4 (rest s)) 0); cbn [mbind res_bind]; [|done|done].
  split; [rewrite len_advance; lia|done].
Qed.

Lemma parse_u_progress s out : progress s (parse_u s out) (fun _ => True).
Proof.
  unfold parse_u. eapply progress_bind; [apply parse_hex4_progress|]. intros cp s' Hl _. cbn beta iota.
  assert (Hret : forall o, progress s (Ret (o, s')) (fun _ : str => True)) by by split.
  destruct ((0xD800 <=? cp) && (cp <=? 0xDBFF)); [|apply Hret].
  destruct (rest s') as [|b [|u t]] eqn:E; try apply Hret.
  destruct ((b =b "\"%byte) && (u =b "u"%byte)); [|apply Hret].
  eapply (progress_bind _ _ _ (fun _ => True)).
  - eapply progress_weaken; [apply parse_hex4_progress|rewrite len_advance; lens|done].
  - intros lo s'' Hl' _. cbn beta iota. destruct ((0xDC00 <=? lo) && (lo <=? 0xDFFF)); by split.
Qed.

Lemma string_loop_progress f s out : (len s < f)%nat -> progress s (string_loop f s out) (fun _ => True).
Proof.
  revert s out. induction f as [|f IH]; intros s out Hf; [lia|]. cbn [string_loop].
  destruct (rest s) as [|c r] eqn:E; [done|].
  assert (Ha : len (advance 1 s) = length r) by lens.
  destruct (c =b x22); [split; [lens|done]|].
  assert (Hstep : forall s' o, (len s' < len s)%nat -> progress s (string_loop f s' o) (fun _ => True)).
  { intros s' o Hs'. eapply progress_weaken; [apply IH|..]; try done; lens. }
  destruct (c =b "\"%byte); [|apply Hstep; lens].
  destruct (rest (advance 1 s)) as [|e r'] eqn:E'; [done|].
  assert (Ha' : (len (advance 1 (advance 1 s)) < len s)%nat) by lens.
  destruct (simple_escape e); [by apply Hstep|]. destruct (e =b "u"%byte); [|done].
  eapply (progress_bind _ _ _ (fun _ => True)).
  - eapply progress_weaken; [apply parse_u_progress|lia|done].
  - intros o s' Hs' _. by apply Hstep.
Qed.

Lemma parse_string_progress s : progress s (parse_string s) (fun _ => True).
Proof.
  unfold parse_string, peek. destruct (rest s) as [|c r] eqn:E; [done|].
  destruct (negb (c =b x22)); [done|].
  eapply progress_weaken; [apply string_loop_progress|..]; try done; lens.
Qed.

Lemma expect_literal_progress l s : l <> [] ->
  match expect_literal l s with Ret s' => (len s' < len s)%nat | Throw _ => True | Undef => False end.
Proof.
  unfold expect_literal, zlen. intros Hl. destruct l as [|a l]; [done|]. cbn [length].
  destruct (Z.ltb_spec (Z.of_nat (len s)) (Z.of_nat (S (length l)))); [done|]. cbn [orb].
  destruct (negb _); [done|]. rewrite len_advance. lia.
Qed.

(** A cursor-only step: no divergence, no input given back. *)
Definition monotone (s : cursor) (r : res cursor) : Prop :=
  match r with Ret s' => (len s' <= len s)%nat | Throw _ => True | Undef => False end.

Lemma skip_digits_le s : (len (skip_digits s) <= len s)%nat.
Proof. unfold skip_digits. rewrite len_advance. lia. Qed.

Lemma split_digits_pos b r : is_digit b = true -> (0 < length (split_digits (b :: r)).1)%nat.
Proof. intros H. cbn. rewrite H. destruct (split_digits r). cbn. lia. Qed.

Lemma parse_int_part_progress s :
  match parse_int_part s with Ret s' => (len s' < len s)%nat | Throw _ => True | Undef => False end.
Proof.
  unfold parse_int_part, peek. destruct (rest s) as [|b r] eqn:E; [done|].
  destruct (b =b "0"%byte); [lens|].
  destruct ((49 <=? bz b) && (bz b <=? 57)) eqn:D; [|done]. unfold skip_digits. rewrite len_advance, E.
  assert (is_digit b = true) by (unfold is_digit; bool_facts; apply andb_true_iff; rewrite !Z.leb_le; lia).
  pose proof (split_digits_pos b r H). cbn [length] in *. lia.
Qed.

Lemma parse_frac_part_monotone s : monotone s (parse_frac_part s).
Proof.
  unfold parse_frac_part, monotone. destruct (_ =b _); [|done]. destruct (negb _); [done|].
  pose proof (skip_digits_le (advance 1 s)). rewrite len_advance in *. lia.
Qed.

Lemma parse_exp_part_monotone s : monotone s (parse_exp_part s).
Proof.
  unfold parse_exp_part, monotone. destruct (_ || _); [|done].
  cbv zeta. set (s' := if (peek (advance 1 s) =b "+"%byte) || _ then _ else _). destruct (negb _); [done|].
  assert (len s' <= len s)%nat by (unfold s'; destruct (_ || _); rewrite !len_advance; lia).
  pose proof (skip_digits_le s'). lia.
Qed.

Section WithErange.
Context (erange : bool).

Lemma parse_number_progress s : progress s (parse_number erange s) (fun v => depth_of v = 0).
Proof.
  unfold parse_number. set (s1 := if peek s =b "-"%byte then advance 1 s else s).
  assert (H1 : (len s1 <= len s)%nat) by (unfold s1; destruct (_ =b _); rewrite ?len_advance; lia).
  destruct (peek s1 =b "I"%byte).
  - pose proof (expect_literal_progress (lit "Infinity") s1 ltac:(done)) as H.
    destruct (expect_literal _ s1); cbn [mbind res_bind]; try done. split; [lia|done].
  - pose proof (parse_int_part_progress s1) as H. destruct (parse_int_part s1) as [s2|m|]; cbn [mbind res_bind]; try done.
    pose proof (parse_frac_part_monotone s2) as H2. destruct (parse_frac_part s2) as [s3|m|]; cbn [mbind res_bind monotone] in *; try done.
    pose proof (parse_exp_part_monotone s3) as H3. destruct (parse_exp_part s3) as [s4|m|]; cbn [mbind res_bind monotone] in *; try done.
    destruct (stod _ _); [|done]. split; [lia|done].
Qed.

Lemma parse_nan_progress s : progress s (parse_nan s) (fun v => depth_of v = 0).
Proof.
  unfold parse_nan. pose proof (expect_literal_progress (lit "NaN") s ltac:(done)) as H.
  destruct (expect_literal _ s); cbn [mbind res_bind]; try done.
Qed.

Lemma starts_len l s : starts l s = true -> (length l <= len s)%nat.
Proof. unfold starts, zlen. intros H. bool_facts. lia. Qed.

Lemma parse_bool_progress s : progress s (parse_bool s) (fun v => depth_of v = 0).
Proof.
  unfold parse_bool. destruct (starts (lit "true") s) eqn:E; [|destruct (starts (lit "false") s) eqn:E2; [|done]];
    (split; [|done]); rewrite len_advance; apply starts_len in E || apply starts_len in E2; cbn in *; lia.
Qed.

Lemma parse_null_progress s : progress s (parse_null s) (fun v => depth_of v = 0).
Proof.
  unfold parse_null. destruct (starts (lit "null") s) eqn:E; [|done].
  split; [|done]. apply starts_len in E. rewrite len_advance. cbn in *. lia.
Qed.

Definition deepest (l : list Value) : Z := foldr (fun x acc => Z.max (depth_of x) acc) 0 l.
Definition deepest_m (l : list (str * Value)) : Z := foldr (fun m acc => Z.max (depth_of m.2) acc) 0 l.

Lemma deepest_snoc l v : deepest (l ++ [v]) = Z.max (deepest l) (Z.max (depth_of v) 0).
Proof. unfold deepest. induction l as [|x l IH]; cbn; [lia|]. rewrite IH. lia. Qed.
Lemma deepest_m_snoc l k v : deepest_m (l ++ [(k, v)]) = Z.max (deepest_m l) (Z.max (depth_of v) 0).
Proof. unfold deepest_m. induction l as [|x l IH]; cbn; [lia|]. rewrite IH. lia. Qed.

(** The nesting budget left at depth [d]. *)
Definition within {A} (dp : A -> Z) (d : Z) (a : A) : Prop := d + dp a <= kMaxDepth.

Lemma parse_all_progress f :
  (forall rm d s, 0 <= d <= kMaxDepth -> kMaxDepth < Z.of_nat rm + d -> (3 * len s + 3 <= f)%nat ->
     progress s (parse_value erange f rm d s) (within depth_of d)) /\
  (forall rm d s, 0 <= d <= kMaxDepth -> kMaxDepth < Z.of_nat rm + d -> rest s <> [] -> (3 * len s + 2 <= f)%nat ->
     progress s (parse_object erange f rm d s) (within depth_of d)) /\
  (forall rm d s ms, 0 <= d <= kMaxDepth -> kMaxDepth < Z.of_nat rm + d -> (3 * len s + 4 <= f)%nat -> within deepest_m d ms ->
     progress s (parse_members erange f rm d s ms) (within deepest_m d)) /\
  (forall rm d s, 0 <= d <= kMaxDepth -> kMaxDepth < Z.of_nat rm + d -> rest s <> [] -> (3 * len s + 2 <= f)%nat ->
     progress s (parse_array erange f rm d s) (within depth_of d)) /\
  (forall rm d s es, 0 <= d <= kMaxDepth -> kMaxDepth < Z.of_nat rm + d -> (3 * len s + 4 <= f)%nat -> within deepest d es ->
     progress s (parse_elems erange f rm d s es) (within deepest d)).
Proof.
  induction f as [|f (IHv & IHo & IHm & IHa & IHe)]; [repeat split; intros; lia|].
  assert (Hadv : forall s, rest s <> [] -> (len (advance 1 s) < len s)%nat).
  { intros s Hs. rewrite len_advance. destruct (rest s); [done|cbn; lia]. }
  assert (Hpk : forall s c, c <> x00 -> (peek s =b c) = true -> rest s <> []).
  { intros s c Hc. unfold peek. destruct (rest s); [|done]. intros ?%beq_true. congruence. }
  split; [|split; [|split; [|split]]].
  - intros rm d s Hd Hrm Hf. cbn [parse_value]. pose proof (len_skip_ws s) as Hw. set (s1 := skip_ws s) in *.
    destruct (rest s1) as [|c r] eqn:E; [done|].
    assert (Hne : rest s1 <> []) by by rewrite E.
    assert (Hlen : len s1 = S (length r)) by by rewrite E.
    assert (Hleaf : forall r0 : res (Value * cursor), progress s1 r0 (fun v => depth_of v = 0) -> progress s r0 (within depth_of d)).
    { intros r0 H. eapply progress_weaken; [exact H|lens|]. intros v Hv. unfold within, kMaxDepth in *. lia. }
    repeat (match goal with |- context [if ?b then _ else _] => destruct b end).
    + eapply progress_weaken; [apply IHo|..]; try done; lens.
    + eapply progress_weaken; [apply IHa|..]; try done; lens.
    + apply Hleaf. eapply progress_bind; [apply parse_string_progress|]. intros t s2 H2 _. by split.
    + apply Hleaf, parse_bool_progress.
    + apply Hleaf, parse_null_progress.
    + apply Hleaf, parse_number_progress.
    + apply Hleaf, parse_nan_progress.
    + apply Hleaf, parse_number_progress.
    + done.
  - intros rm d s Hd Hrm Hne Hf. destruct rm as [|rm]; [lia|]. cbn [parse_object]. rewrite Z.gtb_ltb.
    destruct (Z.ltb_spec kMaxDepth (d + 1)); [done|].
    pose proof (Hadv s Hne) as H1. pose proof (len_skip_ws (advance 1 s)) as H2.
    set (s1 := skip_ws (advance 1 s)) in *.
    destruct (peek s1 =b "}"%byte) eqn:Ep.
    + split; [|unfold within; cbn; lia]. pose proof (Hadv s1 (Hpk s1 "}"%byte ltac:(discriminate) Ep)). lia.
    + apply (progress_bind _ _ _ (within deepest_m (d + 1))).
      * eapply progress_weaken; [apply IHm|..]; try done; try lia. unfold within. cbn. lia.
      * intros ms s' Hl Hms. split; [done|]. unfold within in *. cbn [depth_of]. fold (deepest_m ms). lia.
  - intros rm d s ms Hd Hrm Hf Hms. cbn [parse_members]. pose proof (len_skip_ws s) as Hw. set (s1 := skip_ws s) in *.
    destruct (negb (peek s1 =b x22)) eqn:Eq; [done|].
    apply (progress_bind _ _ _ (fun _ => True)).
    { eapply progress_weaken; [apply parse_string_progress|lia|done]. }
    intros key s2 H2 _. cbn beta iota. pose proof (len_skip_ws s2) as Hw2. set (s3 := skip_ws s2) in *.
    destruct (peek s3 =b ":"%byte) eqn:Ec; cbn [negb]; [|done].
    pose proof (Hadv s3 (Hpk s3 ":"%byte ltac:(discriminate) Ec)) as H3.
    apply (progress_bind _ _ _ (within depth_of d)).
    { eapply progress_weaken; [apply IHv|..]; try done; lia. }
    intros v s4 H4 Hv. cbn beta iota. pose proof (len_skip_ws s4) as Hw4. set (s5 := skip_ws s4) in *.
    assert (Hms' : within deepest_m d (ms ++ [(key, v)])).
    { unfold within in *. rewrite deepest_m_snoc. lia. }
    destruct (peek s5 =b ","%byte) eqn:E5.
    { pose proof (Hadv s5 (Hpk s5 ","%byte ltac:(discriminate) E5)). eapply progress_weaken; [apply IHm|..]; try done; lia. }
    destruct (peek s5 =b "}"%byte) eqn:E6; [|done].
    pose proof (Hadv s5 (Hpk s5 "}"%byte ltac:(discriminate) E6)). split; [lia|done].
  - intros rm d s Hd Hrm Hne Hf. destruct rm as [|rm]; [lia|]. cbn [parse_array]. rewrite Z.gtb_ltb.
    destruct (Z.ltb_spec kMaxDepth (d + 1)); [done|].
    pose proof (Hadv s Hne) as H1. pose proof (len_skip_ws (advance 1 s)) as H2.
    set (s1 := skip_ws (advance 1 s)) in *.
    destruct (peek s1 =b "]"%byte) eqn:Ep.
    + split; [|unfold within; cbn; lia]. pose proof (Hadv s1 (Hpk s1 "]"%byte ltac:(discriminate) Ep)). lia.
    + apply (progress_bind _ _ _ (within deepest (d + 1))).
      * eapply progress_weaken; [apply IHe|..]; try done; try lia. unfold within. cbn. lia.
      * intros es s' Hl Hes. split; [done|]. unfold within in *. cbn [depth_of]. fold (deepest es). lia.
  - intros rm d s es Hd Hrm Hf Hes. cbn [parse_elems].
    apply (progress_bind _ _ _ (within depth_of d)).
    { eapply progress_weaken; [apply IHv|..]; try done; lia. }
    intros v s4 H4 Hv. cbn beta iota. pose proof (len_skip_ws s4) as Hw4. set (s5 := skip_ws s4) in *.
    assert (Hes' : within deepest d (es ++ [v])).
    { unfold within in *. rewrite deepest_snoc. lia. }
    destruct (peek s5 =b ","%byte) eqn:E5.
    { pose proof (Hadv s5 (Hpk s5 ","%byte ltac:(discriminate) E5)). eapply progress_weaken; [apply IHe|..]; try done; lia. }
    destruct (peek s5 =b "]"%byte) eqn:E6; [|done].
    pose proof (Hadv s5 (Hpk s5 "]"%byte ltac:(discriminate) E6)). split; [lia|done].
Qed.

(** C33: the parser is total and its recursion bounded. On a stack with frames
    for 257 nested containers, one more than the depth limit, every byte string
    is parsed to a value nested at most 256 deep or refused with an exception:
    no text, those that throw included, makes it recurse further. *)
Theorem parse_total stack text :
  (257 <= stack)%nat ->
  match parse_on erange stack text with
  | Ret v => depth_of v <= 256
  | Throw _ => True
  | Undef => False
  end.
Proof.
  intros Hst. unfold parse_on, parse_document. pose proof (len_skip_ws (mkCursor 0 text)) as Hw. cbn [rest] in Hw.
  destruct (parse_all_progress (3 * length text + 3)) as (H & _).
  specialize (H stack 0 (skip_ws (mkCursor 0 text)) ltac:(unfold kMaxDepth; lia) ltac:(unfold kMaxDepth; lia) ltac:(lia)).
  destruct (parse_value erange _ _ 0 _) as [[v s]|m|]; cbn [mbind res_bind progress] in *; [|done|done].
  destruct (rest (skip_ws s)); [|done]. unfold within, kMaxDepth in H. lia.
Qed.
End WithErange.

(** The bound is exact: 257 opening brackets use the 257 frames, are refused on
    them, and overflow a stack of 256; the 256 of the limit fit there. *)
Example depth_limit_exact :
  match parse_on true 257 (replicate 257 "["%byte) with Throw _ => True | _ => False end /\
  parse_on true 256 (replicate 257 "["%byte) = Undef /\
  match parse_on true 256 (replicate 256 "["%byte ++ replicate 256 "]"%byte) with
  | Ret v => depth_of v = 256 | _ => False
  end.
Proof. by vm_compute. Qed.

(** A thousand brackets are refused on 257 frames. *)
Lemma parse_total_witness :
  match parse_on true 257 (replicate 1000 "["%byte) with
  | Ret v => depth_of v <= 256 | Throw _ => True | Undef => False
  end.
Proof. apply (parse_total true 257). lia. Defined.

(** ** The grammar *)

(** White space. *)
Definition blank_text (w : str) : Prop := Forall (fun b => is_ws b = true) w.

(** Four hexadecimal digits and their value. *)
Definition hex_text (h : str) (cp : Z) : Prop :=
  length h = 4%nat /\ Forall (fun c => 0 <= hex_digit c) h /\ cp = foldl (fun a c => 16 * a + hex_digit c) 0 h.

Definition bsl : byte := "\"%byte.
Definition quote : byte := x22.

(** The inside of a string literal and the bytes it stands for: raw bytes,
    short escapes, [\uXXXX] outside the high surrogates, surrogate pairs. *)
Inductive string_text : str -> str -> Prop :=
  | st_nil : string_text [] []
  | st_raw c t s : c <> quote -> c <> bsl -> string_text t s -> string_text (c :: t) (c :: s)
  | st_esc e b t s : simple_escape e = Some b -> string_text t s -> string_text (bsl :: e :: t) (b :: s)
  | st_u h cp t s : hex_text h cp -> ~ 0xD800 <= cp <= 0xDBFF -> string_text t s ->
      string_text (bsl :: "u"%byte :: h ++ t) (append_utf8 cp [] ++ s)
  | st_pair h hi k lo t s : hex_text h hi -> hex_text k lo -> 0xD800 <= hi <= 0xDBFF -> 0xDC00 <= lo <= 0xDFFF ->
      string_text t s ->
      string_text (bsl :: "u"%byte :: h ++ bsl :: "u"%byte :: k ++ t)
        (append_utf8 (0x10000 + (hi - 0xD800) * 1024 + (lo - 0xDC00)) [] ++ s).

(** The text of a number. *)
Definition digits (d : str) : Prop := d <> [] /\ Forall (fun b => is_digit b = true) d.
Definition int_text (i : str) : Prop :=
  i = ["0"%byte] \/ exists b d, i = b :: d /\ is_digit b = true /\ b <> "0"%byte /\ Forall (fun b => is_digit b = true) d.
Definition frac_text (f : str) : Prop := f = [] \/ exists d, f = "."%byte :: d /\ digits d.
Definition exp_text (x : str) : Prop :=
  x = [] \/ exists e sg d, x = e :: sg ++ d /\ (e = "e"%byte \/ e = "E"%byte) /\
                 (sg = [] \/ sg = ["+"%byte] \/ sg = ["-"%byte]) /\ digits d.
Definition number_text (n : str) : Prop :=
  exists sg i f x, n = sg ++ i ++ f ++ x /\ (sg = [] \/ sg = ["-"%byte]) /\ int_text i /\ frac_text f /\ exp_text x.

Section Grammar.
Context (erange : bool).

(** [denotes n t v]: the text [t] (no white space around it) is a JSON value,
    nested at most [n] deep, and stands for [v]. *)
Inductive denotes : nat -> str -> Value -> Prop :=
  | d_null n : denotes n (lit "null") Null
  | d_true n : denotes n (lit "true") (Bool true)
  | d_false n : denotes n (lit "false") (Bool false)
  | d_number n t d : number_text t -> stod erange t = Some d -> denotes n t (Number d)
  | d_string n t s : string_text t s -> denotes n (quote :: t ++ [quote]) (String s)
  | d_array0 n w : blank_text w -> denotes (S n) ("["%byte :: w ++ ["]"%byte]) (Array [])
  | d_array n t l : elements n t l -> denotes (S n) ("["%byte :: t ++ ["]"%byte]) (Array l)
  | d_object0 n w : blank_text w -> denotes (S n) ("{"%byte :: w ++ ["}"%byte]) (Object [])
  | d_object n t l : members n t l -> denotes (S n) ("{"%byte :: t ++ ["}"%byte]) (Object l)
with elements : nat -> str -> list Value -> Prop :=
  | e_one n w t w' v : blank_text w -> denotes n t v -> blank_text w' -> elements n (w ++ t ++ w') [v]
  | e_cons n w t w' v r l : blank_text w -> denotes n t v -> blank_text w' -> elements n r l ->
      elements n (w ++ t ++ w' ++ ","%byte :: r) (v :: l)
with members : nat -> str -> list (str * Value) -> Prop :=
  | m_one n w kt k w1 w2 t w3 v : blank_text w -> string_text kt k -> blank_text w1 -> blank_text w2 ->
      denotes n t v -> blank_text w3 ->
      members n (w ++ (quote :: kt ++ [quote]) ++ w1 ++ ":"%byte :: w2 ++ t ++ w3) [(k, v)]
  | m_cons n w kt k w1 w2 t w3 v r l : blank_text w -> string_text kt k -> blank_text w1 -> blank_text w2 ->
      denotes n t v -> blank_text w3 -> members n r l ->
      members n (w ++ (quote :: kt ++ [quote]) ++ w1 ++ ":"%byte :: w2 ++ t ++ w3 ++ ","%byte :: r) ((k, v) :: l).

Scheme denotes_mut := Induction for denotes Sort Prop
  with elements_mut := Induction for elements Sort Prop
  with members_mut := Induction for members Sort Prop.
Combined Scheme grammar_ind from denotes_mut, elements_mut, members_mut.
End Grammar.

(** ** The lexical functions on well-formed text *)

(** A result that reaches [tail], wherever that is. *)
Definition reaches {A} (r : res (A * cursor)) (a : A) (tail : str) : Prop :=
  exists s, r = Ret (a, s) /\ rest s = tail.

Lemma advance_app n s t r : rest s = t ++ r -> length t = n -> rest (advance n s) = r.
Proof. intros H <-. unfold advance. cbn [rest]. rewrite H. apply drop_app_length. Qed.

Lemma skip_ws_app s w r : rest s = w ++ r -> blank_text w ->
  match r with b :: _ => is_ws b = false | [] => True end -> rest (skip_ws s) = r.
Proof.
  destruct s as [p t]. cbn [rest]. unfold skip_ws. cbn [pos rest]. intros -> Hw Hr. revert p.
  induction Hw as [|b w Hb _ IH]; intros p; cbn.
  - destruct r as [|b r]; [done|]. cbn. by rewrite Hr.
  - rewrite Hb. apply IH.
Qed.

Lemma append_utf8_app cp out : append_utf8 cp out = out ++ append_utf8 cp [].
Proof. unfold append_utf8. by repeat case_match. Qed.

Lemma hex_digit_range c : 0 <= hex_digit c -> hex_digit c < 16.
Proof. unfold hex_digit. repeat case_match; bool_facts; lia. Qed.

Lemma hex_loop_ok s h cp : (length h <= 8)%nat -> Forall (fun c => 0 <= hex_digit c) h ->
  0 <= cp < 16 ^ (8 - Z.of_nat (length h)) ->
  hex_loop s h cp = Ret (foldl (fun a c => 16 * a + hex_digit c) cp h).
Proof.
  intros Hl Hh. revert cp Hl. induction Hh as [|c h Hc _ IH]; intros cp Hl Hcp; [done|].
  cbn [hex_loop length foldl] in *. pose proof (hex_digit_range c Hc).
  destruct (Z.ltb_spec (hex_digit c) 0); [lia|].
  assert (E : Z.lor (Z.shiftl cp 4) (hex_digit c) = 16 * cp + hex_digit c).
  { rewrite Z.shiftl_mul_pow2 by lia. rewrite lor_low by lia. lia. }
  rewrite Nat2Z.inj_succ in Hcp.
  assert (Hb : 16 * cp + hex_digit c < 16 ^ (8 - Z.of_nat (length h))).
  { replace (8 - Z.of_nat (length h)) with (Z.succ (8 - Z.succ (Z.of_nat (length h)))) by lia.
    rewrite Z.pow_succ_r by lia. lia. }
  assert (16 ^ (8 - Z.of_nat (length h)) <= 16 ^ 8) by (apply Z.pow_le_mono_r; lia).
  rewrite E, u32_id by lia. apply IH; lia.
Qed.

Lemma parse_hex4_ok s h cp r : rest s = h ++ r -> hex_text h cp -> reaches (parse_hex4 s) cp r /\ 0 <= cp < 65536.
Proof.
  intros Hs (Hl & Hh & ->). unfold parse_hex4, zlen. rewrite Hs, length_app, Hl.
  destruct (Z.ltb_spec (Z.of_nat (4 + length r)) 4); [lia|].
  rewrite take_app_length' by done. rewrite hex_loop_ok by (try done; rewrite ?Hl; cbn; lia).
  split.
  - eexists. split; [done|]. by apply (advance_app 4 s h r).
  - destruct h as [|a [|b [|c [|d []]]]]; try done. cbn [foldl].
    repeat match goal with H : Forall _ (_ :: _) |- _ => apply Forall_cons in H as [? ?] end.
    pose proof (hex_digit_range a). pose proof (hex_digit_range b). pose proof (hex_digit_range c).
    pose proof (hex_digit_range d). lia.
Qed.

Lemma high_range cp : 0xD800 <= cp <= 0xDBFF -> (0xD800 <=? cp) && (cp <=? 0xDBFF) = true.
Proof. intros. apply andb_true_iff. rewrite !Z.leb_le. lia. Qed.

Lemma string_loop_ok t b : string_text t b -> forall f s out r,
  rest s = t ++ quote :: r -> (length t < f)%nat -> reaches (string_loop f s out) (out ++ b) r.
Proof.
  induction 1 as [|c t b Hq Hb _ IH|e c t b He _ IH|h cp t b Hh Hn _ IH|h hi k lo t b Hh Hk Hhi Hlo _ IH];
    intros [|f] s out r Hs Hf; cbn [length] in Hf; try lia; cbn [string_loop]; rewrite Hs; cbn [app].
  - rewrite app_nil_r. eexists. split; [done|]. by apply (advance_app 1 s [quote] r).
  - destruct (beq_spec c x22); [done|]. destruct (beq_spec c "\"%byte); [done|].
    destruct (IH f (advance 1 s) (out ++ [c]) r) as (s' & E & Hr); [|lia|].
    { by apply (advance_app 1 s [c]). }
    exists s'. rewrite E, <- app_assoc. done.
  - change (bsl =b x22) with false. change (bsl =b "\"%byte) with true. cbv beta iota.
    rewrite (advance_app 1 s [bsl] (e :: t ++ quote :: r)) by done. rewrite He.
    destruct (IH f (advance 1 (advance 1 s)) (out ++ [c]) r) as (s' & E & Hr); [|lia|].
    { apply (advance_app 1 _ [e]); [|done]. by apply (advance_app 1 s [bsl]). }
    exists s'. rewrite E, <- app_assoc. done.
  - change (bsl =b x22) with false. change (bsl =b "\"%byte) with true. cbv beta iota.
    rewrite (advance_app 1 s [bsl] ("u"%byte :: (h ++ t) ++ quote :: r)) by done.
    change (simple_escape "u"%byte) with (@None byte). change ("u"%byte =b "u"%byte) with true. cbv beta iota.
    set (s2 := advance 1 (advance 1 s)).
    assert (Hs2 : rest s2 = h ++ t ++ quote :: r).
    { apply (advance_app 1 _ ["u"%byte]); [|done].
      rewrite (advance_app 1 s [bsl] ("u"%byte :: (h ++ t) ++ quote :: r)) by done. cbn. by rewrite <- app_assoc. }
    destruct (parse_hex4_ok s2 h cp _ Hs2 Hh) as [(s3 & E & Hs3) _]. unfold parse_u. rewrite E. cbn [mbind res_bind].
    assert ((0xD800 <=? cp) && (cp <=? 0xDBFF) = false) as ->.
    { apply andb_false_iff. rewrite !Z.leb_gt. lia. }
    cbn [mbind res_bind]. rewrite append_utf8_app.
    destruct (IH f s3 (out ++ append_utf8 cp []) r Hs3) as (s' & E' & Hr); [rewrite length_app in Hf; lia|].
    exists s'. by rewrite E', <- app_assoc.
  - change (bsl =b x22) with false. change (bsl =b "\"%byte) with true. cbv beta iota.
    rewrite (advance_app 1 s [bsl] ("u"%byte :: (h ++ bsl :: "u"%byte :: k ++ t) ++ quote :: r)) by done.
    change (simple_escape "u"%byte) with (@None byte). change ("u"%byte =b "u"%byte) with true. cbv beta iota.
    set (s2 := advance 1 (advance 1 s)).
    assert (Hs2 : rest s2 = h ++ bsl :: "u"%byte :: k ++ t ++ quote :: r).
    { apply (advance_app 1 _ ["u"%byte]); [|done].
      rewrite (advance_app 1 s [bsl] ("u"%byte :: (h ++ bsl :: "u"%byte :: k ++ t) ++ quote :: r)) by done.
      cbn. rewrite <- app_assoc. cbn. by rewrite <- app_assoc. }
    destruct (parse_hex4_ok s2 h hi _ Hs2 Hh) as [(s3 & E & Hs3) _]. unfold parse_u. rewrite E. cbn [mbind res_bind].
    rewrite high_range by done. rewrite Hs3. change (bsl =b "\"%byte) with true.
    change ("u"%byte =b "u"%byte) with true. cbn [andb].
    destruct (parse_hex4_ok (advance 2 s3) k lo (t ++ quote :: r)) as [(s4 & E4 & Hs4) _]; [|done|].
    { apply (advance_app 2 s3 [bsl; "u"%byte]); [|done]. by rewrite Hs3. }
    rewrite E4. cbn [mbind res_bind].
    assert ((0xDC00 <=? lo) && (lo <=? 0xDFFF) = true) as -> by (apply andb_true_iff; rewrite !Z.leb_le; lia).
    cbn [mbind res_bind]. rewrite append_utf8_app, Z.shiftl_mul_pow2 by lia. change (2 ^ 10) with 1024.
    destruct (IH f s4 (out ++ append_utf8 (0x10000 + (hi - 0xD800) * 1024 + (lo - 0xDC00)) []) r Hs4) as (s' & E' & Hr).
    { rewrite !length_app in Hf. cbn [length] in Hf. rewrite length_app in Hf. lia. }
    exists s'. by rewrite E', <- app_assoc.
Qed.

Lemma parse_string_ok s t b r : rest s = quote :: t ++ quote :: r -> string_text t b -> reaches (parse_string s) b r.
Proof.
  intros Hs Ht. unfold parse_string, peek. rewrite Hs. change (quote =b x22) with true. cbn [negb].
  apply (string_loop_ok t b Ht _ _ [] r).
  - by apply (advance_app 1 s [quote]).
  - cbn [length]. rewrite length_app. cbn. lia.
Qed.

(** What may follow a value. *)
Definition delim (r : str) : Prop :=
  match r with
  | [] => True
  | b :: _ => is_ws b = true \/ b = ","%byte \/ b = "]"%byte \/ b = "}"%byte
  end.

(** The text does not begin with a byte of [P]. *)
Definition no_head (P : byte -> bool) (r : str) : Prop :=
  match r with [] => True | b :: _ => P b = false end.

Definition num_byte (b : byte) : bool :=
  is_digit b || (b =b "."%byte) || (b =b "e"%byte) || (b =b "E"%byte).

Lemma delim_no_num r : delim r -> no_head num_byte r.
Proof.
  destruct r as [|b r]; [done|]. cbn. unfold is_ws.
  intros [H|[->|[->| ->]]]; try done. repeat (apply orb_true_iff in H as [H|H]); apply beq_true in H as ->; done.
Qed.

Lemma no_head_weaken (P Q : byte -> bool) r : (forall b, Q b = true -> P b = true) -> no_head P r -> no_head Q r.
Proof.
  destruct r as [|b r]; [done|]. cbn. intros H HP. specialize (H b). destruct (Q b); [|done]. rewrite H in HP; done.
Qed.

Lemma peek_no_head c r s : rest s = r -> c <> x00 -> no_head (fun b => b =b c) r -> (peek s =b c) = false.
Proof.
  intros <- Hc. unfold peek, no_head. destruct (rest s); [|done]. intros _. by apply beq_false.
Qed.

Lemma skip_digits_ok s d r : rest s = d ++ r -> Forall (fun b => is_digit b = true) d -> no_head is_digit r ->
  rest (skip_digits s) = r.
Proof.
  intros Hs Hd Hr. unfold skip_digits. rewrite Hs, split_digits_app by (try done; by destruct r).
  by apply (advance_app _ _ d).
Qed.

Lemma digits_head d r : digits d -> exists b t, d ++ r = b :: t /\ is_digit b = true.
Proof. intros [Hd H]. destruct d as [|b d]; [done|]. apply Forall_cons in H as [? ?]. by exists b, (d ++ r). Qed.

Lemma digit_neq b c : is_digit b = true -> is_digit c = false -> (b =b c) = false.
Proof. intros H1 H2. apply beq_false. intros ->. congruence. Qed.

Lemma exp_no_head x r (P : byte -> bool) : exp_text x -> no_head P r -> P "e"%byte = false -> P "E"%byte = false -> no_head P (x ++ r).
Proof. intros [->|(e & sg & d & -> & [-> | ->] & _)] Hr H1 H2; done. Qed.

Lemma frac_no_head f x r (P : byte -> bool) : frac_text f -> no_head P (x ++ r) -> P "."%byte = false -> no_head P (f ++ x ++ r).
Proof. intros [->|(d & -> & _)] Hr H; done. Qed.

Lemma parse_int_part_ok s i r : rest s = i ++ r -> int_text i -> no_head is_digit r ->
  exists s', parse_int_part s = Ret s' /\ rest s' = r.
Proof.
  intros Hs Hi Hr. unfold parse_int_part, peek. destruct Hi as [->|(b & d & -> & Hb & Hb0 & Hd)]; rewrite Hs; cbn [app].
  - eexists. split; [done|]. by apply (advance_app 1 s ["0"%byte]).
  - destruct (beq_spec b "0"%byte); [done|].
    assert ((49 <=? bz b) && (bz b <=? 57) = true) as ->.
    { unfold is_digit in Hb. bool_facts. apply andb_true_iff. rewrite !Z.leb_le.
      assert (bz b <> 48) by (intros E; destruct n; by apply bz_inj). lia. }
    eexists. split; [done|]. apply (skip_digits_ok _ (b :: d)); try done. by constructor.
Qed.

Lemma parse_frac_part_ok s f r : rest s = f ++ r -> frac_text f -> no_head is_digit r -> no_head (fun b => b =b "."%byte) r ->
  exists s', parse_frac_part s = Ret s' /\ rest s' = r.
Proof.
  intros Hs Hf Hr Hdot. unfold parse_frac_part. destruct Hf as [->|(d & -> & Hd)].
  - rewrite (peek_no_head _ r) by done. by exists s.
  - assert (peek s = "."%byte) as -> by (unfold peek; by rewrite Hs). rewrite beq_refl.
    assert (Hs1 : rest (advance 1 s) = d ++ r) by by apply (advance_app 1 s ["."%byte]).
    destruct (digits_head d r Hd) as (b & t & E & Hb).
    assert (peek (advance 1 s) = b) as -> by (unfold peek; by rewrite Hs1, E). rewrite Hb. cbn [negb].
    eexists. split; [done|]. apply (skip_digits_ok _ d); try done. apply Hd.
Qed.

Lemma parse_exp_part_ok s x r : rest s = x ++ r -> exp_text x -> no_head num_byte r ->
  exists s', parse_exp_part s = Ret s' /\ rest s' = r.
Proof.
  intros Hs Hx Hr. unfold parse_exp_part.
  assert (Hnd : no_head is_digit r).
  { eapply no_head_weaken; [|exact Hr]. unfold num_byte. by intros b ->. }
  destruct Hx as [->|(e & sg & d & -> & He & Hsg & Hd)].
  - rewrite (peek_no_head "e"%byte r), (peek_no_head "E"%byte r); try done; [by exists s|..];
      (eapply no_head_weaken; [|exact Hr]); intros b ->%beq_true; done.
  - assert (Hp : peek s = e) by (unfold peek; by rewrite Hs). rewrite Hp.
    assert ((e =b "e"%byte) || (e =b "E"%byte) = true) as -> by (by destruct He as [-> | ->]).
    assert (Hs1 : rest (advance 1 s) = sg ++ d ++ r).
    { apply (advance_app 1 s [e]); [|done]. rewrite Hs. cbn. by rewrite <- app_assoc. }
    destruct (digits_head d r Hd) as (b & t & E & Hb).
    set (s2 := if (peek (advance 1 s) =b "+"%byte) || (peek (advance 1 s) =b "-"%byte) then advance 1 (advance 1 s) else advance 1 s).
    assert (Hs2 : rest s2 = d ++ r).
    { unfold s2, peek. rewrite Hs1. destruct Hsg as [->|[-> | ->]]; cbn [app].
      - rewrite E. rewrite !digit_neq by done. cbn [orb]. by rewrite Hs1, <- E.
      - rewrite beq_refl. by apply (advance_app 1 _ ["+"%byte]).
      - change ("-"%byte =b "+"%byte) with false. rewrite beq_refl. by apply (advance_app 1 _ ["-"%byte]). }
    cbv zeta. fold s2. assert (peek s2 = b) as -> by (unfold peek; by rewrite Hs2, E). rewrite Hb. cbn [negb].
    eexists. split; [done|]. apply (skip_digits_ok _ d); try done. apply Hd.
Qed.

Lemma take_prefix (n r : str) : take (length (n ++ r) - length r) (n ++ r) = n.
Proof. rewrite length_app. replace (length n + length r - length r)%nat with (length n) by lia. apply take_app_length. Qed.

Lemma int_head i r : int_text i -> exists b t, i ++ r = b :: t /\ is_digit b = true.
Proof. intros [->|(b & d & -> & Hb & _)]; [by exists "0"%byte, r|by exists b, (d ++ r)]. Qed.

Lemma parse_number_ok erange s n d r : rest s = n ++ r -> number_text n -> stod erange n = Some d -> delim r ->
  reaches (parse_number erange s) (Number d) r.
Proof.
  intros Hs (sg & i & f & x & En & Hsg & Hi & Hf & Hx) Hd Hr%delim_no_num.
  assert (Hw : forall c, num_byte c = true -> no_head (fun b => b =b c) r).
  { intros c Hc. eapply no_head_weaken; [|exact Hr]. by intros b ->%beq_true. }
  assert (Hnd : no_head is_digit r) by (eapply no_head_weaken; [|exact Hr]; unfold num_byte; by intros b ->).
  assert (Hnx : no_head is_digit (x ++ r)) by by apply exp_no_head.
  assert (Hnf : no_head is_digit (f ++ x ++ r)) by by apply frac_no_head.
  unfold parse_number. destruct (int_head i (f ++ x ++ r) Hi) as (b & t & E & Hb).
  set (s1 := if peek s =b "-"%byte then advance 1 s else s).
  assert (Hs1 : rest s1 = i ++ f ++ x ++ r).
  { unfold s1, peek. rewrite Hs, En. destruct Hsg as [-> | ->]; cbn [app].
    - rewrite <- !app_assoc, E. rewrite digit_neq by done. by rewrite Hs, En, <- E, <- !app_assoc.
    - rewrite beq_refl. apply (advance_app 1 s ["-"%byte]); [|done]. rewrite Hs, En. cbn. by rewrite <- !app_assoc. }
  assert ((peek s1 =b "I"%byte) = false) as ->.
  { unfold peek. rewrite Hs1, E. by apply digit_neq. }
  destruct (parse_int_part_ok s1 i (f ++ x ++ r) Hs1 Hi Hnf) as (s2 & -> & Hs2). cbn [mbind res_bind].
  destruct (parse_frac_part_ok s2 f (x ++ r) Hs2 Hf Hnx) as (s3 & -> & Hs3).
  { apply exp_no_head; try done. by apply Hw. }
  cbn [mbind res_bind]. destruct (parse_exp_part_ok s3 x r Hs3 Hx Hr) as (s4 & -> & Hs4). cbn [mbind res_bind].
  rewrite Hs4, Hs, take_prefix, Hd. by exists s4.
Qed.

(** ** Every JSON document is accepted *)

(** The text without its leading white space. *)
Definition lstrip (r : str) : str := rest (skip_ws (mkCursor 0 r)).

Lemma rest_skip_ws s : rest (skip_ws s) = lstrip (rest s).
Proof.
  destruct s as [p r]. unfold lstrip, skip_ws. cbn [pos rest].
  generalize 0. revert p. induction r as [|b r IH]; intros p q; cbn; [done|]. destruct (is_ws b); [apply IH|done].
Qed.

Lemma lstrip_head b r : is_ws b = false -> lstrip (b :: r) = b :: r.
Proof. intros H. unfold lstrip, skip_ws. cbn. by rewrite H. Qed.

Lemma skip_ws_from_rest p q r : rest (skip_ws_from p r) = rest (skip_ws_from q r).
Proof. revert p q. induction r as [|b r IH]; intros p q; cbn; [done|]. destruct (is_ws b); [apply IH|done]. Qed.

Lemma lstrip_ws b r : is_ws b = true -> lstrip (b :: r) = lstrip r.
Proof. intros H. unfold lstrip, skip_ws. cbn. rewrite H. apply skip_ws_from_rest. Qed.

Lemma lstrip_app w r : blank_text w -> lstrip (w ++ r) = lstrip r.
Proof. induction 1 as [|b w Hb _ IH]; cbn; [done|]. by rewrite lstrip_ws. Qed.

Lemma lstrip_idemp r : lstrip (lstrip r) = lstrip r.
Proof.
  induction r as [|b r IH]; [done|]. destruct (is_ws b) eqn:E.
  - change (b :: r) with ([b] ++ r). rewrite lstrip_app; [done|]. by repeat constructor.
  - by rewrite !lstrip_head.
Qed.

Lemma lstrip_length r : (length (lstrip r) <= length r)%nat.
Proof. apply (len_skip_ws (mkCursor 0 r)). Qed.

Lemma blank_delim w r : blank_text w -> delim r -> delim (w ++ r).
Proof. intros Hw Hr. destruct Hw as [|b w Hb _]; [done|]. cbn. by left. Qed.

(** A value begins with a byte that is neither white space nor a closing
    bracket. *)
Lemma value_head erange n t v : denotes erange n t v ->
  exists b u, t = b :: u /\ is_ws b = false /\ b <> "]"%byte.
Proof.
  destruct 1 as [| | |n t d Hn _| | | | |]; try (by eexists _, _; split; [reflexivity|]).
  destruct Hn as (sg & i & f & x & -> & [-> | ->] & Hi & _).
  - destruct (int_head i (f ++ x) Hi) as (b & u & -> & Hb). exists b, u. split; [done|].
    split; [|by intros ->]. unfold is_ws. by rewrite !digit_neq.
  - by eexists _, _; split; [reflexivity|].
Qed.

Lemma elements_head erange n t l r : elements erange n t l ->
  exists b u, lstrip (t ++ r) = b :: u /\ b <> "]"%byte.
Proof.
  assert (H : forall w t v k, blank_text w -> denotes erange n t v -> exists b u, lstrip ((w ++ t ++ k) ++ r) = b :: u /\ b <> "]"%byte).
  { intros w u v k Hw Hv. rewrite <- app_assoc, lstrip_app by done.
    destruct (value_head _ _ _ _ Hv) as (b & u' & -> & Hb & Hne). cbn. rewrite lstrip_head by done. eauto. }
  destruct 1; eapply H; eauto.
Qed.

Lemma members_head erange n t l r : members erange n t l -> exists u, lstrip (t ++ r) = quote :: u.
Proof. destruct 1; rewrite <- app_assoc, lstrip_app by done; cbn [app]; rewrite lstrip_head by done; eauto. Qed.

Section Complete.
Context (erange : bool).

Definition value_ok (n : nat) (t : str) (v : Value) : Prop :=
  forall f rm d s r, lstrip (rest s) = t ++ r -> delim r -> (3 * len s + 3 <= f)%nat -> 0 <= d ->
    d + Z.of_nat n <= kMaxDepth -> (n <= rm)%nat -> reaches (parse_value erange f rm d s) v r.
Definition elements_ok (n : nat) (t : str) (l : list Value) : Prop :=
  forall f rm d s r acc, lstrip (rest s) = lstrip (t ++ "]"%byte :: r) -> (3 * len s + 4 <= f)%nat -> 0 <= d ->
    d + Z.of_nat n <= kMaxDepth -> (n <= rm)%nat -> reaches (parse_elems erange f rm d s acc) (acc ++ l) r.
Definition members_ok (n : nat) (t : str) (l : list (str * Value)) : Prop :=
  forall f rm d s r acc, lstrip (rest s) = lstrip (t ++ "}"%byte :: r) -> (3 * len s + 4 <= f)%nat -> 0 <= d ->
    d + Z.of_nat n <= kMaxDepth -> (n <= rm)%nat -> reaches (parse_members erange f rm d s acc) (acc ++ l) r.

(** The literals. *)
Lemma starts_app l s r : rest s = l ++ r -> starts l s = true.
Proof.
  intros Hs. unfold starts, zlen. rewrite Hs, length_app, take_app_length. apply andb_true_iff.
  rewrite Z.leb_le. split; [lia|]. by destruct (str_eqb_spec l l).
Qed.

(** Where a value starts: one step of [parse_value]. *)
Lemma value_step t r s : lstrip (rest s) = t ++ r -> rest (skip_ws s) = t ++ r.
Proof. by rewrite rest_skip_ws. Qed.

Lemma number_value n t d : number_text t -> stod erange t = Some d -> value_ok n t (Number d).
Proof.
  intros Ht Hd f rm dp s r Hs Hr Hf Hd0 Hn Hrm. destruct f as [|f]; [lia|]. cbn [parse_value].
  pose proof (value_step t r s Hs) as Hs'. pose proof Ht as (sg & i & fr & x & -> & Hsg & Hi & _).
  assert (exists b u, rest (skip_ws s) = b :: u /\ (b = "-"%byte \/ is_digit b = true)) as (b & u & E & Hb).
  { rewrite Hs'. destruct Hsg as [-> | ->]; [|eexists _, _; split; [reflexivity|by left]].
    cbn [app]. rewrite <- !app_assoc. destruct (int_head i (fr ++ x ++ r) Hi) as (b & u & -> & Hb). eauto. }
  rewrite E.
  assert (Hnum : ((b =b "-"%byte) || is_digit b) = true).
  { destruct Hb as [->|Hb]; [done|]. by rewrite Hb, orb_true_r. }
  assert (Hno : forall c, (c =b "-"%byte) = false -> is_digit c = false -> (b =b c) = false).
  { intros c H1 H2. destruct Hb as [->|Hb]; [|by apply digit_neq]. apply beq_false. intros <-. done. }
  rewrite !Hno by done. cbn [orb]. rewrite Hnum. by eapply parse_number_ok.
Qed.

Lemma array_step f rm d s t r : lstrip (rest s) = "["%byte :: t ++ "]"%byte :: r ->
  parse_value erange (S f) rm d s = parse_array erange f rm d (skip_ws s) /\
  rest (skip_ws (advance 1 (skip_ws s))) = lstrip (t ++ "]"%byte :: r) /\
  (len (skip_ws (advance 1 (skip_ws s))) < len s)%nat.
Proof.
  intros Hs. cbn [parse_value]. rewrite rest_skip_ws, Hs. split; [done|].
  assert (E : rest (advance 1 (skip_ws s)) = t ++ "]"%byte :: r).
  { apply (advance_app 1 _ ["["%byte]); [|done]. by rewrite rest_skip_ws. }
  rewrite rest_skip_ws, E. split; [done|].
  pose proof (lstrip_length (t ++ "]"%byte :: r)). pose proof (lstrip_length (rest s)) as H'. rewrite Hs in H'.
  cbn [length] in H'. lia.
Qed.

Lemma object_step f rm d s t r : lstrip (rest s) = "{"%byte :: t ++ "}"%byte :: r ->
  parse_value erange (S f) rm d s = parse_object erange f rm d (skip_ws s) /\
  rest (skip_ws (advance 1 (skip_ws s))) = lstrip (t ++ "}"%byte :: r) /\
  (len (skip_ws (advance 1 (skip_ws s))) < len s)%nat.
Proof.
  intros Hs. cbn [parse_value]. rewrite rest_skip_ws, Hs. split; [done|].
  assert (E : rest (advance 1 (skip_ws s)) = t ++ "}"%byte :: r).
  { apply (advance_app 1 _ ["{"%byte]); [|done]. by rewrite rest_skip_ws. }
  rewrite rest_skip_ws, E. split; [done|].
  pose proof (lstrip_length (t ++ "}"%byte :: r)). pose proof (lstrip_length (rest s)) as H'. rewrite Hs in H'.
  cbn [length] in H'. lia.
Qed.

(** After a value inside a container: white space and a separator. *)
Lemma sep_step s w c r : rest s = w ++ c :: r -> blank_text w -> is_ws c = false ->
  peek (skip_ws s) = c /\ rest (advance 1 (skip_ws s)) = r.
Proof.
  intros Hs Hw Hc. assert (E : rest (skip_ws s) = c :: r).
  { rewrite rest_skip_ws, Hs, lstrip_app by done. by apply lstrip_head. }
  split; [unfold peek; by rewrite E|]. by apply (advance_app 1 _ [c]).
Qed.

(** The key and colon of a member. *)
Lemma key_step s w kt k w1 w2 t r : lstrip (rest s) = lstrip (w ++ (quote :: kt ++ [quote]) ++ w1 ++ ":"%byte :: w2 ++ t ++ r) ->
  blank_text w -> string_text kt k -> blank_text w1 -> blank_text w2 ->
  (exists b u, t = b :: u /\ is_ws b = false) ->
  (peek (skip_ws s) =b x22) = true /\
  exists s2, parse_string (skip_ws s) = Ret (k, s2) /\ (peek (skip_ws s2) =b ":"%byte) = true /\
    lstrip (rest (advance 1 (skip_ws s2))) = t ++ r /\
    (length (t ++ r) < len (advance 1 (skip_ws s2)) + 1)%nat /\ (len (advance 1 (skip_ws s2)) < len s)%nat.
Proof.
  intros Hs Hw Hk Hw1 Hw2 (b & u & -> & Hb).
  rewrite lstrip_app in Hs by done. cbn [app] in Hs. rewrite lstrip_head in Hs by done.
  rewrite <- app_assoc in Hs. cbn [app] in Hs.
  assert (E : rest (skip_ws s) = quote :: kt ++ quote :: w1 ++ ":"%byte :: w2 ++ (b :: u) ++ r) by (rewrite rest_skip_ws; exact Hs).
  split; [unfold peek; by rewrite E|].
  destruct (parse_string_ok (skip_ws s) kt k _ E Hk) as (s2 & E2 & Hs2). exists s2. split; [done|].
  destruct (sep_step s2 w1 ":"%byte _ Hs2 Hw1 eq_refl) as [Hp Ha]. rewrite Hp, beq_refl. split; [done|].
  rewrite Ha, lstrip_app by done. cbn [app]. rewrite lstrip_head by done. split; [done|].
  pose proof (lstrip_length (rest s)) as Hl. rewrite Hs in Hl.
  repeat (rewrite ?length_app in Hl; cbn [length] in Hl). repeat (rewrite ?length_app; cbn [length]). lia.
Qed.

Lemma grammar_ok :
  (forall n t v, denotes erange n t v -> value_ok n t v) /\
  (forall n t l, elements erange n t l -> elements_ok n t l) /\
  (forall n t l, members erange n t l -> members_ok n t l).
Proof.
  apply grammar_ind.
  - intros n f rm d s r Hs Hr Hf Hd Hn Hrm. destruct f as [|f]; [lia|]. cbn [parse_value]. rewrite (value_step _ _ _ Hs).
    cbn. unfold parse_null. rewrite (starts_app _ _ r) by by apply value_step. eexists. split; [done|].
    apply (advance_app 4 _ (lit "null")); [by apply value_step|done].
  - intros n f rm d s r Hs Hr Hf Hd Hn Hrm. destruct f as [|f]; [lia|]. cbn [parse_value]. rewrite (value_step _ _ _ Hs).
    cbn. unfold parse_bool. rewrite (starts_app (lit "true") _ r) by by apply value_step. eexists. split; [done|].
    apply (advance_app 4 _ (lit "true")); [by apply value_step|done].
  - intros n f rm d s r Hs Hr Hf Hd Hn Hrm. destruct f as [|f]; [lia|]. cbn [parse_value]. rewrite (value_step _ _ _ Hs).
    cbn. unfold parse_bool.
    assert (starts (lit "true") (skip_ws s) = false) as ->.
    { unfold starts. rewrite (value_step _ _ _ Hs). by rewrite andb_false_r. }
    rewrite (starts_app (lit "false") _ r) by by apply value_step. eexists. split; [done|].
    apply (advance_app 5 _ (lit "false")); [by apply value_step|done].
  - intros n t d Ht Hd. by apply number_value.
  - intros n t b Ht f rm d s r Hs Hr Hf Hd Hn Hrm. destruct f as [|f]; [lia|]. cbn [parse_value].
    pose proof (value_step _ _ _ Hs) as Hs'. cbn [app] in Hs'. rewrite <- app_assoc in Hs'. cbn [app] in Hs'.
    rewrite Hs'. cbn -[parse_string]. destruct (parse_string_ok _ _ _ _ Hs' Ht) as (s' & -> & Hr'). by exists s'.
  - intros n w Hw f rm d s r Hs Hr Hf Hd Hn Hrm. destruct f as [|[|f]]; [lia..|].
    cbn [app] in Hs. rewrite <- app_assoc in Hs. destruct (array_step (S f) rm d s w r Hs) as (-> & E & _).
    destruct rm as [|rm]; [lia|]. cbn [parse_array]. rewrite Z.gtb_ltb. destruct (Z.ltb_spec kMaxDepth (d + 1)); [lia|].
    rewrite lstrip_app, lstrip_head in E by done. unfold peek. rewrite E, beq_refl.
    eexists. split; [done|]. by apply (advance_app 1 _ ["]"%byte]).
  - intros n t l Hl IH f rm d s r Hs Hr Hf Hd Hn Hrm. destruct f as [|[|f]]; [lia..|].
    cbn [app] in Hs. rewrite <- app_assoc in Hs. destruct (array_step (S f) rm d s t r Hs) as (-> & E & Hlen).
    destruct rm as [|rm]; [lia|]. cbn [parse_array]. rewrite Z.gtb_ltb. destruct (Z.ltb_spec kMaxDepth (d + 1)); [lia|].
    destruct (elements_head erange n t l ("]"%byte :: r) Hl) as (b & u & Eb & Hb).
    assert ((peek (skip_ws (advance 1 (skip_ws s))) =b "]"%byte) = false) as ->.
    { unfold peek. rewrite E, Eb. by apply beq_false. }
    destruct (IH f rm (d + 1) (skip_ws (advance 1 (skip_ws s))) r []) as (s' & -> & Hr'); [|lia..|by exists s'].
    by rewrite E, lstrip_idemp.
  - intros n w Hw f rm d s r Hs Hr Hf Hd Hn Hrm. destruct f as [|[|f]]; [lia..|].
    cbn [app] in Hs. rewrite <- app_assoc in Hs. destruct (object_step (S f) rm d s w r Hs) as (-> & E & _).
    destruct rm as [|rm]; [lia|]. cbn [parse_object]. rewrite Z.gtb_ltb. destruct (Z.ltb_spec kMaxDepth (d + 1)); [lia|].
    rewrite lstrip_app, lstrip_head in E by done. unfold peek. rewrite E, beq_refl.
    eexists. split; [done|]. by apply (advance_app 1 _ ["}"%byte]).
  - intros n t l Hl IH f rm d s r Hs Hr Hf Hd Hn Hrm. destruct f as [|[|f]]; [lia..|].
    cbn [app] in Hs. rewrite <- app_assoc in Hs. destruct (object_step (S f) rm d s t r Hs) as (-> & E & Hlen).
    destruct rm as [|rm]; [lia|]. cbn [parse_object]. rewrite Z.gtb_ltb. destruct (Z.ltb_spec kMaxDepth (d + 1)); [lia|].
    destruct (members_head erange n t l ("}"%byte :: r) Hl) as (u & Eb).
    assert ((peek (skip_ws (advance 1 (skip_ws s))) =b "}"%byte) = false) as ->.
    { unfold peek. rewrite E, Eb. done. }
    destruct (IH f rm (d + 1) (skip_ws (advance 1 (skip_ws s))) r []) as (s' & -> & Hr'); [|lia..|by exists s'].
    by rewrite E, lstrip_idemp.
  - intros n w t w' v Hw Hv IH Hw' f rm d s r acc Hs Hf Hd Hn Hrm. destruct f as [|f]; [lia|]. cbn [parse_elems].
    destruct (value_head _ _ _ _ Hv) as (b & u & Et & Hb & _).
    rewrite <- !app_assoc, lstrip_app in Hs by done. rewrite Et in Hs. cbn [app] in Hs. rewrite lstrip_head in Hs by done.
    destruct (IH f rm d s (w' ++ "]"%byte :: r)) as (s' & -> & Hr'); [by rewrite Et|apply blank_delim; [done|cbn; auto]|lia..|].
    cbn [mbind res_bind]. destruct (sep_step s' w' "]"%byte r Hr' Hw' eq_refl) as [-> Ha].
    change ("]"%byte =b ","%byte) with false. rewrite beq_refl. eexists. split; [done|exact Ha].
  - intros n w t w' v k l Hw Hv IH Hw' Hl IHl f rm d s r acc Hs Hf Hd Hn Hrm. destruct f as [|f]; [lia|]. cbn [parse_elems].
    destruct (value_head _ _ _ _ Hv) as (b & u & Et & Hb & _).
    rewrite <- !app_assoc, lstrip_app in Hs by done. rewrite Et in Hs. cbn [app] in Hs. rewrite lstrip_head in Hs by done.
    rewrite <- ?app_assoc in Hs. cbn [app] in Hs.
    destruct (IH f rm d s (w' ++ ","%byte :: k ++ "]"%byte :: r)) as (s' & -> & Hr'); [by rewrite Et|apply blank_delim; [done|cbn; auto]|lia..|].
    cbn [mbind res_bind]. destruct (sep_step s' w' ","%byte _ Hr' Hw' eq_refl) as [-> Ha]. rewrite beq_refl.
    destruct (IHl f rm d (advance 1 (skip_ws s')) r (acc ++ [v])) as (s'' & -> & Hr''); try lia.
    + by rewrite Ha.
    + pose proof (lstrip_length (rest s)) as Hlen. rewrite Hs in Hlen. rewrite Ha.
      cbn [length] in Hlen. rewrite !length_app in Hlen. cbn [length] in Hlen. lia.
    + exists s''. by rewrite <- app_assoc.
  - intros n w kt k w1 w2 t w3 v Hw Hk Hw1 Hw2 Hv IH Hw3 f rm d s r acc Hs Hf Hd Hn Hrm. destruct f as [|f]; [lia|].
    cbn [parse_members]. destruct (value_head _ _ _ _ Hv) as (b & u & Et & Hb & _).
    replace ((w ++ (quote :: kt ++ [quote]) ++ w1 ++ ":"%byte :: w2 ++ t ++ w3) ++ "}"%byte :: r) with
      (w ++ (quote :: kt ++ [quote]) ++ w1 ++ ":"%byte :: w2 ++ t ++ (w3 ++ "}"%byte :: r)) in Hs
      by (repeat (rewrite <- app_assoc; cbn [app]); done).
    destruct (key_step s w kt k w1 w2 t _ Hs Hw Hk Hw1 Hw2 ltac:(eauto)) as (-> & s2 & -> & Hc & Hval & Hl1 & Hl2).
    cbn [negb mbind res_bind]. rewrite Hc. cbn [negb].
    destruct (IH f rm d (advance 1 (skip_ws s2)) (w3 ++ "}"%byte :: r) Hval) as (s' & -> & Hr'); [apply blank_delim; [done|cbn; auto]|lia..|].
    cbn [mbind res_bind]. destruct (sep_step s' w3 "}"%byte r Hr' Hw3 eq_refl) as [-> Ha].
    change ("}"%byte =b ","%byte) with false. rewrite beq_refl. eexists. split; [done|exact Ha].
  - intros n w kt k w1 w2 t w3 v k2 l Hw Hk Hw1 Hw2 Hv IH Hw3 Hl IHl f rm d s r acc Hs Hf Hd Hn Hrm. destruct f as [|f]; [lia|].
    cbn [parse_members]. destruct (value_head _ _ _ _ Hv) as (b & u & Et & Hb & _).
    replace ((w ++ (quote :: kt ++ [quote]) ++ w1 ++ ":"%byte :: w2 ++ t ++ w3 ++ ","%byte :: k2) ++ "}"%byte :: r) with
      (w ++ (quote :: kt ++ [quote]) ++ w1 ++ ":"%byte :: w2 ++ t ++ (w3 ++ ","%byte :: k2 ++ "}"%byte :: r)) in Hs
      by (repeat (rewrite <- app_assoc; cbn [app]); done).
    destruct (key_step s w kt k w1 w2 t _ Hs Hw Hk Hw1 Hw2 ltac:(eauto)) as (-> & s2 & -> & Hc & Hval & Hl1 & Hl2).
    cbn [negb mbind res_bind]. rewrite Hc. cbn [negb].
    destruct (IH f rm d (advance 1 (skip_ws s2)) _ Hval) as (s' & -> & Hr'); [apply blank_delim; [done|cbn; auto]|lia..|].
    cbn [mbind res_bind]. destruct (sep_step s' w3 ","%byte _ Hr' Hw3 eq_refl) as [-> Ha]. rewrite beq_refl.
    destruct (IHl f rm d (advance 1 (skip_ws s')) r (acc ++ [(k, v)])) as (s'' & -> & Hr''); try lia.
    + by rewrite Ha.
    + rewrite Ha. rewrite !length_app in Hl1. cbn [length] in Hl1. rewrite !length_app in Hl1. cbn [length] in Hl1.
      rewrite length_app. cbn [length]. lia.
    + exists s''. by rewrite <- app_assoc.
Qed.
End Complete.

(** C32: the parser accepts JSON. Every document of the grammar nested at most
    256 deep, with any white space around it (objects, arrays, strings with all
    the escapes and surrogate pairs, numbers whose value is a double, the three
    literals), is parsed to the value the grammar gives it, members and elements
    in order. *)
Theorem parse_complete erange n t v w1 w2 :
  denotes erange n t v -> (n <= 256)%nat -> blank_text w1 -> blank_text w2 ->
  parse erange (w1 ++ t ++ w2) = Ret v.
Proof.
  intros Hd Hn Hw1 Hw2. unfold parse, parse_on, parse_document.
  set (s := mkCursor 0 (w1 ++ t ++ w2)). destruct (grammar_ok erange) as (H & _).
  destruct (value_head _ _ _ _ Hd) as (b & u & Et & Hb & _).
  assert (Hs : lstrip (rest (skip_ws s)) = t ++ w2).
  { rewrite rest_skip_ws, lstrip_idemp. unfold s. cbn [rest]. rewrite lstrip_app by done.
    rewrite Et. by apply lstrip_head. }
  destruct (H n t v Hd (3 * length (w1 ++ t ++ w2) + 3)%nat (Z.to_nat kMaxDepth + 1)%nat 0 (skip_ws s) w2 Hs) as (s' & -> & Hr).
  - rewrite <- (app_nil_r w2). by apply blank_delim.
  - pose proof (len_skip_ws s) as Hl. unfold s at 2 in Hl. cbn [rest] in Hl. lia.
  - lia.
  - unfold kMaxDepth. lia.
  - unfold kMaxDepth. lia.
  - cbn [mbind res_bind]. rewrite rest_skip_ws, Hr.
    rewrite <- (app_nil_r w2), lstrip_app by done. done.
Qed.

Definition ex_text : str := lit "{" ++ [quote] ++ lit "a\n" ++ [quote] ++ lit ": [true, {} ]}".

Lemma parse_complete_witness :
  parse true (lit " " ++ ex_text ++ lit " ") = Ret (Object [(["a"%byte; x0a], Array [Bool true; Object []])]).
Proof.
  apply (parse_complete true 3 ex_text).
  - apply (d_object true 2 ([quote] ++ lit "a\n" ++ [quote] ++ lit ": [true, {} ]")).
    apply (m_one true 2 [] (lit "a\n") ["a"%byte; x0a] [] (lit " ") (lit "[true, {} ]") []); try by repeat constructor.
    apply (d_array true 1 (lit "true, {} ")).
    apply (e_cons true 1 [] (lit "true") [] (Bool true) (lit " {} ") [Object []]); try by repeat constructor.
    apply (e_one true 1 (lit " ") (lit "{}") (lit " ") (Object [])); try by repeat constructor.
    apply (d_object0 true 0 []). constructor.
  - lia.
  - by repeat constructor.
  - by repeat constructor.
Defined.

(** ** Accessors *)

Lemma find_member_spec key o :
  match find_member key o with
  | Some v => exists l1 l2, o = l1 ++ (key, v) :: l2 /\ key ∉ map fst l1
  | None => key ∉ map fst o
  end.
Proof.
  induction o as [|[k v] o IH]; cbn [find_member map fst].
  - by intros ?%elem_of_nil.
  - destruct (str_eqb_spec k key) as [->|Hne].
    + exists [], o. split; [done|]. by intros ?%elem_of_nil.
    + destruct (find_member key o) as [x|].
      * destruct IH as (l1 & l2 & -> & Hin). exists ((k, v) :: l1), l2. split; [done|].
        cbn [map fst]. intros [?|?]%elem_of_cons; [congruence|done].
      * intros [?|?]%elem_of_cons; [congruence|done].
Qed.

(** Member lookup. [find] gives the first member with the key, [contains]
    says whether there is one, [at] throws exactly when there is none, and the
    getters with a default return it exactly when the key is absent or null. *)
Theorem lookup_correct o key :
  match find (Object o) key with
  | Some v =>
      (exists l1 l2, o = l1 ++ (key, v) :: l2 /\ key ∉ map fst l1) /\
      contains (Object o) key = true /\ at_key (Object o) key = Ret v /\
      (forall d, get_bool (Object o) key d = if Value_is_null v then Ret d else as_bool v) /\
      (forall d, get_string (Object o) key d = if Value_is_null v then Ret d else as_string v)
  | None =>
      (key ∉ map fst o) /\ contains (Object o) key = false /\ (exists m, at_key (Object o) key = Throw m) /\
      (forall d, get_bool (Object o) key d = Ret d) /\ (forall d, get_string (Object o) key d = Ret d)
  end.
Proof.
  pose proof (find_member_spec key o) as H. unfold contains, at_key, get_bool, get_string, present.
  cbn [find]. destruct (find_member key o) as [v|].
  - split; [done|]. split; [done|]. split; [done|]. split; intros d; destruct v; done.
  - repeat split; try done. by eexists.
Qed.

(** [get_int] casts without a range check: a document whose number is
    beyond [int] is parsed, and reading it as an [int] is undefined. *)
Theorem get_int_out_of_range :
  exists v, parse true (lit "{" ++ [quote] ++ lit "n" ++ [quote] ++ lit ":3e9}") = Ret v /\
    get_int v (lit "n") 0 = Undef /\
    parse true (lit "{" ++ [quote] ++ lit "n" ++ [quote] ++ lit ":Infinity}") =
      Ret (Object [(lit "n", Number (S754_infinity false))]).
Proof. eexists. split; [vm_compute; reflexivity|]. split; vm_compute; reflexivity. Qed.

(** ** UTF-8 *)

(** A decoder of the standard encoding, for one code point. *)
Definition utf8_decode (s : str) : option (Z * str) :=
  match s with
  | a :: r =>
      if bz a <? 0x80 then Some (bz a, r)
      else if bz a <? 0xE0 then
        match r with b :: r => Some ((bz a - 0xC0) * 64 + (bz b - 0x80), r) | _ => None end
      else if bz a <? 0xF0 then
        match r with
        | b :: c :: r => Some (((bz a - 0xE0) * 64 + (bz b - 0x80)) * 64 + (bz c - 0x80), r)
        | _ => None
        end
      else
        match r with
        | b :: c :: d :: r =>
            Some ((((bz a - 0xF0) * 64 + (bz b - 0x80)) * 64 + (bz c - 0x80)) * 64 + (bz d - 0x80), r)
        | _ => None
        end
  | [] => None
  end.

Lemma lead_byte lead n q : 0 <= n -> 0 <= q < 2 ^ n -> lead mod 2 ^ n = 0 -> 0 <= lead -> lead + q < 256 ->
  bz (zb (Z.lor lead q)) = lead + q.
Proof.
  intros Hn Hq Hl Hp Hb. pose proof (Z.div_mod lead (2 ^ n) ltac:(lia)) as E. rewrite Hl, Z.add_0_r, Z.mul_comm in E.
  rewrite E at 1. rewrite lor_low by done. rewrite <- E. apply bz_zb. lia.
Qed.

Lemma tail_byte q : bz (zb (Z.lor 0x80 (Z.land q 0x3F))) = 0x80 + q mod 64.
Proof.
  change 0x3F with (2 ^ 6 - 1). rewrite land_mask by lia. pose proof (Z.mod_pos_bound q 64 ltac:(lia)).
  change (Z.lor 0x80 (q mod 2 ^ 6)) with (Z.lor (2 * 2 ^ 6) (q mod 2 ^ 6)). rewrite lor_low by (change (2 ^ 6) with 64; lia).
  change (2 ^ 6) with 64. rewrite bz_zb; lia.
Qed.

(** The UTF-8 writer is the standard encoding: every code point up to
    U+10FFFF is decoded back from the bytes appended for it, in one to four
    bytes. *)
Theorem append_utf8_decodes cp out r : 0 <= cp <= 0x10FFFF ->
  exists e, append_utf8 cp out = out ++ e /\ (1 <= length e <= 4)%nat /\ utf8_decode (e ++ r) = Some (cp, r).
Proof.
  intros H. unfold append_utf8. rewrite !Z.shiftr_div_pow2 by lia.
  destruct (Z.leb_spec cp 0x7F); [|destruct (Z.leb_spec cp 0x7FF); [|destruct (Z.leb_spec cp 0xFFFF)]];
    eexists; (split; [reflexivity|]); (split; [cbn; lia|]); cbn [app utf8_decode]; rewrite ?tail_byte.
  - rewrite bz_zb by lia. destruct (Z.ltb_spec cp 0x80); [done|lia].
  - assert (E : bz (zb (Z.lor 0xC0 (cp / 2 ^ 6))) = 0xC0 + cp / 64).
    { apply (lead_byte 0xC0 5); change (2 ^ 6) with 64; change (2 ^ 5) with 32; try done; Z.div_mod_to_equations; lia. }
    rewrite !E. change (2 ^ 6) with 64. change (2 ^ 12) with 4096.
    destruct (Z.ltb_spec (0xC0 + cp / 64) 0x80); [Z.div_mod_to_equations; lia|].
    destruct (Z.ltb_spec (0xC0 + cp / 64) 0xE0); [|Z.div_mod_to_equations; lia].
    do 2 f_equal. Z.div_mod_to_equations; lia.
  - assert (E : bz (zb (Z.lor 0xE0 (cp / 2 ^ 12))) = 0xE0 + cp / 4096).
    { apply (lead_byte 0xE0 4); change (2 ^ 12) with 4096; change (2 ^ 4) with 16; try done; Z.div_mod_to_equations; lia. }
    rewrite !E. change (2 ^ 6) with 64. change (2 ^ 12) with 4096.
    destruct (Z.ltb_spec (0xE0 + cp / 4096) 0x80); [Z.div_mod_to_equations; lia|].
    destruct (Z.ltb_spec (0xE0 + cp / 4096) 0xE0); [Z.div_mod_to_equations; lia|].
    destruct (Z.ltb_spec (0xE0 + cp / 4096) 0xF0); [|Z.div_mod_to_equations; lia].
    do 2 f_equal. Z.div_mod_to_equations; lia.
  - assert (E : bz (zb (Z.lor 0xF0 (cp / 2 ^ 18))) = 0xF0 + cp / 262144).
    { apply (lead_byte 0xF0 3); change (2 ^ 18) with 262144; change (2 ^ 3) with 8; try done; Z.div_mod_to_equations; lia. }
    rewrite !E. change (2 ^ 6) with 64. change (2 ^ 12) with 4096.
    destruct (Z.ltb_spec (0xF0 + cp / 262144) 0x80); [Z.div_mod_to_equations; lia|].
    destruct (Z.ltb_spec (0xF0 + cp / 262144) 0xE0); [Z.div_mod_to_equations; lia|].
    destruct (Z.ltb_spec (0xF0 + cp / 262144) 0xF0); [Z.div_mod_to_equations; lia|].
    do 2 f_equal. Z.div_mod_to_equations; lia.
Qed.

Lemma append_utf8_decodes_witness :
  exists e, append_utf8 0x1F600 [] = [] ++ e /\ (1 <= length e <= 4)%nat /\ utf8_decode (e ++ lit "x") = Some (0x1F600, lit "x").
Proof. apply append_utf8_decodes. lia. Defined.
