(* ===== verification/MappedFile.v ===== *)
(** * Mapped files

    The read-only file mapping of src/safetensors.cpp, which src/gguf.cpp
    repeats word for word (POSIX branch): [map_file] and [unmap_file]. The
    operating system is a parameter: [open] gives a descriptor that was not in
    use and the contents behind it, [mmap] an address range that was free. *)
From S2P Require Import Prelude Device Heap.

(** What the process holds of the operating system: its memory, with the live
    mappings as blocks, and its open descriptors with the file behind each. *)
Record os : Type := mkOs { os_heap : heap; os_fds : gmap Z str }.

#[global] Instance os_inhabited : Inhabited os := populate (mkOs ∅ ∅).

(** [struct Mapping]; [mapping] is only used on Windows. *)
Record Mapping : Type := mkMapping { m_file : Z; m_base : ptr; m_size : Z }.
Definition Mapping_default : Mapping := mkMapping 0 nullptr 0.

Class Syscalls : Type := {
  sys_open : str -> os -> option (Z * str);
  sys_fstat : Z -> os -> bool;
  sys_mmap : Z -> os -> option positive
}.

Class LawfulSyscalls (S : Syscalls) : Prop := {
  open_fresh path o fd c : sys_open path o = Some (fd, c) -> 0 <= fd /\ os_fds o !! fd = None;
  open_size path o fd c : sys_open path o = Some (fd, c) -> zlen c <= INT64_MAX;
  mmap_fresh fd o b : sys_mmap fd o = Some b -> os_heap o !! b = None
}.

Definition sys_close (fd : Z) : st os unit := st_mod (fun o => mkOs (os_heap o) (delete fd (os_fds o))).

(** Unmapping what is not mapped would take someone else's memory. *)
Definition sys_munmap (p : ptr) : st os unit := fun o =>
  match p with
  | Some (b, 0) =>
      match os_heap o !! b with
      | Some _ => (Ret tt, mkOs (delete b (os_heap o)) (os_fds o))
      | None => (Undef, o)
      end
  | _ => (Undef, o)
  end.

Section Mapping.
Context `{S : Syscalls} (err : str -> str).

Definition quoted (path : str) : str := lit "'" ++ path ++ lit "'".

Definition map_file (path : str) : st os Mapping := fun o =>
  match sys_open path o with
  | None => (Throw (err (lit "cannot open " ++ quoted path)), o)
  | Some (fd, contents) =>
      (_ ← st_mod (fun o => mkOs (os_heap o) (<[fd := contents]> (os_fds o)));
       ok ← st_gets (sys_fstat fd);
       if negb ok then _ ← sys_close fd; st_throw (err (lit "fstat failed for " ++ quoted path))
       else if zlen contents <=? 0 then _ ← sys_close fd; mret Mapping_default
       else
         base ← st_gets (sys_mmap fd);
         match base with
         | None => _ ← sys_close fd; st_throw (err (lit "mmap failed for " ++ quoted path))
         | Some b =>
             _ ← st_mod (fun o => mkOs (<[b := mkBlock Dev.CPU0 contents]> (os_heap o)) (os_fds o));
             mret (mkMapping fd (Some (b, 0)) (zlen contents))
         end) o
  end.
End Mapping.

Definition unmap_file (m : Mapping) : st os unit :=
  _ ← (if negb (is_null (m_base m)) && negb (m_size m =? 0) then sys_munmap (m_base m) else mret tt);
  if negb (m_file m =? 0) then sys_close (m_file m) else mret tt.

(** ** Facts *)

(** The process with one more mapped file. *)
Definition with_mapping (fd : Z) (b : positive) (c : str) (o : os) : os :=
  mkOs (<[b := mkBlock Dev.CPU0 c]> (os_heap o)) (<[fd := c]> (os_fds o)).

Definition maps_to (fd : Z) (m : Mapping) (c : str) (o o' : os) : Prop :=
  (c = [] /\ m = Mapping_default /\ o' = o) \/
  (exists b, c <> [] /\ 0 <= fd /\ m = mkMapping fd (Some (b, 0)) (zlen c) /\
     os_heap o !! b = None /\ os_fds o !! fd = None /\ o' = with_mapping fd b c o).

Lemma maps_size fd m c o o' : maps_to fd m c o o' -> m_size m = zlen c.
Proof. intros [(-> & -> & _)|(b & _ & _ & -> & _)]; done. Qed.

Lemma maps_base fd m c o o' : maps_to fd m c o o' -> c <> [] ->
  exists b, m = mkMapping fd (Some (b, 0)) (zlen c) /\ os_heap o' !! b = Some (mkBlock Dev.CPU0 c).
Proof.
  intros [(-> & _)|(b & _ & _ & -> & _ & _ & ->)]; [done|]. intros _. exists b. split; [done|].
  cbn. by rewrite lookup_insert, decide_True.
Qed.

Lemma close_fresh fd c o :
  os_fds o !! fd = None -> mkOs (os_heap o) (delete fd (<[fd := c]> (os_fds o))) = o.
Proof. intros H. rewrite delete_insert_eq, delete_id by done. by destruct o. Qed.

Section Facts.
Context `{L : LawfulSyscalls}.

Lemma map_file_spec err path o :
  match map_file err path o with
  | (Ret m, o') => exists fd c, sys_open path o = Some (fd, c) /\ maps_to fd m c o o'
  | (Throw _, o') => o' = o
  | (Undef, _) => False
  end.
Proof.
  unfold map_file. destruct (sys_open path o) as [[fd c]|] eqn:E; [|done].
  destruct (open_fresh _ _ _ _ E) as [Hfd Hnone].
  unfold mbind, st_bind, st_mod, st_gets, mret, st_ret, sys_close, st_throw, st_mod. cbn [os_heap os_fds].
  destruct (sys_fstat fd _); cbn; [|exact (close_fresh fd c o Hnone)].
  destruct (Z.leb_spec (zlen c) 0) as [Hz|Hz].
  - cbn. rewrite (close_fresh fd c o Hnone). exists fd, c. split; [done|]. left. destruct c; [done|].
    rewrite zlen_cons in Hz. pose proof (zlen_nonneg c). lia.
  - destruct (sys_mmap fd _) as [b|] eqn:Eb; cbn; [|exact (close_fresh fd c o Hnone)].
    apply mmap_fresh in Eb. cbn in Eb. exists fd, c. split; [done|]. right. exists b. repeat split; try done.
    by intros ->.
Qed.

(** Unmapping gives back the address range and the descriptor; a descriptor 0
    stays open, being taken for [nullptr]. *)
Lemma unmap_file_spec fd m c o o' :
  maps_to fd m c o o' ->
  unmap_file m o' =
    (Ret tt, mkOs (os_heap o) (if (m_file m =? 0) && negb (is_null (m_base m))
                               then <[0 := c]> (os_fds o) else os_fds o)).
Proof.
  intros [(-> & -> & ->)|(b & Hc & Hfd & -> & Hb & Hn & ->)]; unfold unmap_file; cbn.
  - by destruct o.
  - assert (zlen c <> 0) by (destruct c; [done|]; rewrite zlen_cons; pose proof (zlen_nonneg c); lia).
    destruct (Z.eqb_spec (zlen c) 0); [done|]. unfold mbind, st_bind, sys_munmap, with_mapping. cbn.
    rewrite lookup_insert, decide_True by done. rewrite delete_insert_eq, delete_id by done.
    destruct (Z.eqb_spec fd 0) as [->|]; cbn; [done|]. unfold sys_close, st_mod. cbn.
    by rewrite delete_insert_eq, delete_id.
Qed.
End Facts.

(** The file can be opened and mapped. *)
Definition can_map `{Syscalls} (path : str) (img : str) (o : os) : Prop :=
  exists fd, sys_open path o = Some (fd, img) /\
    let o1 := mkOs (os_heap o) (<[fd := img]> (os_fds o)) in
    sys_fstat fd o1 = true /\ is_Some (sys_mmap fd o1).

Lemma map_file_can `{L : LawfulSyscalls} err path img o :
  can_map path img o -> img <> [] ->
  exists fd b, map_file err path o = (Ret (mkMapping fd (Some (b, 0)) (zlen img)), with_mapping fd b img o) /\
    zlen img <= INT64_MAX.
Proof.
  intros (fd & Ho & Hf & [b Hb]) Hne. exists fd, b. split; [|by eapply open_size]. unfold map_file. rewrite Ho.
  unfold mbind, st_bind, st_mod, st_gets, mret, st_ret, sys_close, st_throw, st_mod. cbn [os_heap os_fds].
  rewrite Hf. cbn [negb]. destruct (Z.leb_spec (zlen img) 0) as [Hz|_].
  - destruct img; [done|]. rewrite zlen_cons in Hz. pose proof (zlen_nonneg img). lia.
  - cbn. by rewrite Hb.
Qed.

(** An operating system for examples: one file, whatever the path; a free
    descriptor, [first] at the earliest, and a free address. *)
Module IdealOs.
Definition calls (first : Z) (contents : str) : Syscalls := {|
  sys_open _ o := Some (first + fold_right (fun fd n => fd + 1 + n) 0 (filter (Z.le 0) (map_to_list (os_fds o)).*1), contents);
  sys_fstat _ _ := true;
  sys_mmap _ o := Some (fresh (dom (os_heap o)))
|}.

Lemma sum_nonneg (l : list Z) : 0 <= fold_right (fun fd n => fd + 1 + n) 0 (filter (Z.le 0) l).
Proof.
  induction l as [|x l IH]; [done|]. rewrite filter_cons. destruct (decide (0 <= x)); cbn; lia.
Qed.

Lemma sum_bound (l : list Z) x : x ∈ l -> 0 <= x -> x < fold_right (fun fd n => fd + 1 + n) 0 (filter (Z.le 0) l).
Proof.
  intros H Hx. induction l as [|y l IH]; [by apply not_elem_of_nil in H|].
  rewrite filter_cons. pose proof (sum_nonneg l). apply elem_of_cons in H as [<-|H].
  - rewrite decide_True by done. cbn. lia.
  - specialize (IH H). destruct (decide (0 <= y)); cbn; lia.
Qed.

Lemma os_lawful first c : 0 <= first -> zlen c <= INT64_MAX -> LawfulSyscalls (calls first c).
Proof.
  intros Hf Hc. split; cbn.
  - intros _ o fd c' [= <- <-]. pose proof (sum_nonneg (map_to_list (os_fds o)).*1). split; [lia|].
    destruct (os_fds o !! _) as [s|] eqn:E; [|done]. apply elem_of_map_to_list in E.
    pose proof (sum_bound (map_to_list (os_fds o)).*1 _ (list_elem_of_fmap_2 fst _ _ E) ltac:(cbn; lia)). cbn in *. lia.
  - by intros _ o fd c' [= <- <-].
  - intros _ o b [= <-]. apply not_elem_of_dom. apply is_fresh.
Qed.
End IdealOs.
