(* ===== verification/Safetensors.v ===== *)
(** * Safetensors: the container format

    src/safetensors.cpp: the header's JSON reader, [File] (open, lookup and
    lifetime of the mapping), and the writer. Dtypes of the format are not the
    runtime's: this [Dtype] shadows it here, as the namespace does.

    The parser's cursor is the part of the header from [p] to [end]. A loop
    that is not structural on it takes fuel, one more than the bytes left, which
    [open] never exhausts (SafetensorsSpec). *)
From S2P Require Import Prelude Device Heap MappedFile.

Inductive Dtype : Type := Unknown | F32 | F16 | BF16 | I32 | I64 | U8 | BOOL.

#[export] Instance Dtype_eq_dec : EqDecision Dtype.
Proof. solve_decision. Defined.

Definition dtype_name (d : Dtype) : str :=
  match d with
  | F32 => lit "F32" | F16 => lit "F16" | BF16 => lit "BF16" | I32 => lit "I32"
  | I64 => lit "I64" | U8 => lit "U8" | BOOL => lit "BOOL" | Unknown => lit "Unknown"
  end.

Definition dtype_size_bytes (d : Dtype) : Z :=
  match d with
  | F32 => 4 | F16 => 2 | BF16 => 2 | I32 => 4 | I64 => 8 | U8 => 1 | BOOL => 1 | Unknown => 0
  end.

Definition parse_dtype (s : str) : Dtype :=
  if str_eqb s (lit "F32") then F32
  else if str_eqb s (lit "F16") then F16
  else if str_eqb s (lit "BF16") then BF16
  else if str_eqb s (lit "I32") then I32
  else if str_eqb s (lit "I64") then I64
  else if str_eqb s (lit "U8") then U8
  else if str_eqb s (lit "BOOL") then BOOL
  else Unknown.

Record TensorView : Type := mkView {
  tv_name : str;
  tv_dtype : Dtype;
  tv_shape : list Z;
  tv_data : ptr;
  tv_nbytes : Z
}.

Definition sthrow {A} (m : str) : res A := Throw (lit "safetensors: " ++ m).

Fixpoint numel_from (n : Z) (shape : list Z) : res Z :=
  match shape with
  | [] => Ret n
  | d :: r =>
      if d <? 0 then sthrow (lit "negative dimension in tensor shape")
      else if negb (d =? 0) && (n >? INT64_MAX / d) then
        sthrow (lit "tensor element count overflows int64")
      else numel_from (n * d) r
  end.
Definition numel (v : TensorView) : res Z := numel_from 1 (tv_shape v).

(** ** The header's JSON *)

Module Parser.

Definition fail {A} (msg : str) : res A := sthrow (lit "parse error: " ++ msg).

Definition is_ws (c : byte) : bool := (c =b x20) || (c =b x09) || (c =b x0a) || (c =b x0d).

Fixpoint skip_ws (s : str) : str :=
  match s with
  | c :: r => if is_ws c then skip_ws r else s
  | [] => []
  end.

Definition eat (c : byte) : st str bool := fun s =>
  match skip_ws s with
  | d :: r => if d =b c then (Ret true, r) else (Ret false, d :: r)
  | [] => (Ret false, [])
  end.

Definition expect (c : byte) : st str unit :=
  ok ← eat c; if (ok : bool) then mret tt else st_lift (fail (lit "expected '" ++ [c] ++ lit "'")).

(** Four hex digits, or -1. *)
Definition hex_digit (c : byte) : option Z :=
  if (48 <=? bz c) && (bz c <=? 57) then Some (bz c - 48)
  else if (97 <=? bz c) && (bz c <=? 102) then Some (bz c - 97 + 10)
  else if (65 <=? bz c) && (bz c <=? 70) then Some (bz c - 65 + 10)
  else None.

Fixpoint hex_loop (v : Z) (q : str) : Z :=
  match q with
  | [] => v
  | c :: r => match hex_digit c with Some d => hex_loop (Z.lor (Z.shiftl v 4) d) r | None => -1 end
  end.
Definition hex4 (a b c d : byte) : Z := hex_loop 0 [a; b; c; d].

Definition append_utf8 (out : str) (cp : Z) : str :=
  if cp <? 0x80 then out ++ [zb cp]
  else if cp <? 0x800 then
    out ++ [zb (Z.lor 0xC0 (Z.shiftr cp 6)); zb (Z.lor 0x80 (Z.land cp 0x3F))]
  else if cp <? 0x10000 then
    out ++ [zb (Z.lor 0xE0 (Z.shiftr cp 12)); zb (Z.lor 0x80 (Z.land (Z.shiftr cp 6) 0x3F));
            zb (Z.lor 0x80 (Z.land cp 0x3F))]
  else
    out ++ [zb (Z.lor 0xF0 (Z.shiftr cp 18)); zb (Z.lor 0x80 (Z.land (Z.shiftr cp 12) 0x3F));
            zb (Z.lor 0x80 (Z.land (Z.shiftr cp 6) 0x3F)); zb (Z.lor 0x80 (Z.land cp 0x3F))].

Definition simple_escape (e : byte) : option byte :=
  if e =b x22 then Some x22
  else if e =b "\"%byte then Some "\"%byte
  else if e =b "/"%byte then Some "/"%byte
  else if e =b "n"%byte then Some x0a
  else if e =b "t"%byte then Some x09
  else if e =b "r"%byte then Some x0d
  else if e =b "b"%byte then Some x08
  else if e =b "f"%byte then Some x0c
  else None.

(** The loop of [parse_string], after the opening quote. *)
Fixpoint string_loop (s out : str) {struct s} : res str * str :=
  match s with
  | [] => (fail (lit "unterminated string"), s)
  | c :: r =>
      if c =b x22 then (Ret out, r)
      else if c =b "\"%byte then
        match r with
        | [] => string_loop r (out ++ [c])
        | e :: r2 =>
            if e =b "u"%byte then
              match r2 with
              | h1 :: h2 :: h3 :: h4 :: r6 =>
                  let hi := hex4 h1 h2 h3 h4 in
                  if hi <? 0 then (fail (lit "bad hex digit in \u escape"), s)
                  else if (0xD800 <=? hi) && (hi <=? 0xDBFF) then
                    match r6 with
                    | b :: u :: l1 :: l2 :: l3 :: l4 :: r12 =>
                        if negb (b =b "\"%byte) || negb (u =b "u"%byte) then
                          (fail (lit "unpaired high surrogate in string"), r6)
                        else
                          let lo := hex4 l1 l2 l3 l4 in
                          if lo <? 0 then (fail (lit "bad hex digit in \u escape"), r6)
                          else if (lo <? 0xDC00) || (lo >? 0xDFFF) then
                            (fail (lit "unpaired high surrogate in string"), r6)
                          else
                            let cp := u32 (0x10000 + u32 (Z.shiftl (u32 (hi - 0xD800)) 10) + u32 (lo - 0xDC00)) in
                            string_loop r12 (append_utf8 out cp)
                    | _ => (fail (lit "unpaired high surrogate in string"), r6)
                    end
                  else if (0xDC00 <=? hi) && (hi <=? 0xDFFF) then
                    (fail (lit "unpaired low surrogate in string"), r6)
                  else string_loop r6 (append_utf8 out hi)
              | _ => (fail (lit "truncated \u escape in string"), s)
              end
            else
              match simple_escape e with
              | Some x => string_loop r2 (out ++ [x])
              | None => (fail (lit "unsupported escape in string"), s)
              end
        end
      else string_loop r (out ++ [c])
  end.

Definition parse_string : st str str := fun s =>
  match skip_ws s with
  | c :: r => if c =b x22 then string_loop r [] else (fail (lit "expected string"), c :: r)
  | [] => (fail (lit "expected string"), [])
  end.

Fixpoint int_loop (v : Z) (s : str) : res Z * str :=
  match s with
  | c :: r =>
      if is_digit c then
        let digit := bz c - 48 in
        if v >? (INT64_MAX - digit) / 10 then (fail (lit "integer out of range"), s)
        else int_loop (v * 10 + digit) r
      else (Ret v, s)
  | [] => (Ret v, [])
  end.

Definition parse_int : st str Z := fun s =>
  let s := skip_ws s in
  let '(neg, s) := match s with c :: r => if c =b "-"%byte then (true, r) else (false, s) | [] => (false, s) end in
  match s with
  | c :: _ =>
      if is_digit c then
        let '(r, s') := int_loop 0 s in ((v ← r; Ret (if neg then - v else v)), s')
      else (fail (lit "expected integer"), s)
  | [] => (fail (lit "expected integer"), [])
  end.

(** Inside a container: only its own kind of bracket is counted, in an [int]. *)
Fixpoint skip_container (fuel : nat) (op cl : byte) (depth : Z) : st str unit := fun s =>
  match fuel with
  | O => (Undef, s)
  | S f =>
      match s with
      | c :: r =>
          if depth >? 0 then
            if c =b x22 then (_ ← parse_string; skip_container f op cl depth) s
            else if (c =b op) && (depth =? INT_MAX) then (Undef, s)
            else
              let depth := if c =b op then depth + 1 else if c =b cl then depth - 1 else depth in
              skip_container f op cl depth r
          else (Ret tt, s)
      | [] => if depth >? 0 then (fail (lit "unterminated container"), []) else (Ret tt, [])
      end
  end.

Definition stops_scalar (c : byte) : bool :=
  (c =b ","%byte) || (c =b "}"%byte) || (c =b "]"%byte) || is_ws c.

Fixpoint skip_scalar (s : str) : str :=
  match s with
  | c :: r => if stops_scalar c then s else skip_scalar r
  | [] => []
  end.

Definition skip_value : st str unit := fun s =>
  match skip_ws s with
  | [] => (fail (lit "unexpected EOF"), [])
  | c :: r =>
      if c =b x22 then (_ ← parse_string; mret tt) (c :: r)
      else if (c =b "{"%byte) || (c =b "["%byte) then
        let cl := if c =b "{"%byte then "}"%byte else "]"%byte in
        skip_container (S (length r)) c cl 1 r
      else (Ret tt, skip_scalar (c :: r))
  end.

(** *** A tensor's entry *)

Record Entry : Type := mkEntry {
  e_dtype : Dtype;
  e_shape : list Z;
  e_off_start : Z;
  e_off_end : Z
}.

(** [Entry e] and the three [seen_] flags of [parse_entry]. *)
Record fields : Type := mkFields {
  f_entry : Entry;
  seen_dtype : bool;
  seen_shape : bool;
  seen_offsets : bool
}.
Definition fields0 : fields := mkFields (mkEntry Unknown [] 0 0) false false false.

Fixpoint shape_loop (fuel : nat) (first : bool) (shape : list Z) : st str (list Z) := fun s =>
  match fuel with
  | O => (Undef, s)
  | S f =>
      (fin ← eat "]"%byte;
       if (fin : bool) then mret shape
       else
         _ ← (if first then mret tt else expect ","%byte);
         d ← parse_int;
         shape_loop f false (shape ++ [d])) (skip_ws s)
  end.

Definition shape_loop_all (shape : list Z) : st str (list Z) := fun s => shape_loop (S (length s)) true shape s.

Definition parse_field (key : str) (e : fields) : st str fields :=
  if str_eqb key (lit "dtype") then
    if seen_dtype e then st_lift (sthrow (lit "duplicate 'dtype' in entry"))
    else
      v ← parse_string;
      let d := parse_dtype v in
      if decide (d = Unknown) then st_lift (sthrow (lit "unsupported dtype '" ++ v ++ lit "'"))
      else
        let n := f_entry e in
        mret (mkFields (mkEntry d (e_shape n) (e_off_start n) (e_off_end n)) true (seen_shape e) (seen_offsets e))
  else if str_eqb key (lit "shape") then
    if seen_shape e then st_lift (sthrow (lit "duplicate 'shape' in entry"))
    else
      _ ← expect "["%byte;
      shape ← shape_loop_all (e_shape (f_entry e));
      let n := f_entry e in
      mret (mkFields (mkEntry (e_dtype n) shape (e_off_start n) (e_off_end n)) (seen_dtype e) true (seen_offsets e))
  else if str_eqb key (lit "data_offsets") then
    if seen_offsets e then st_lift (sthrow (lit "duplicate 'data_offsets' in entry"))
    else
      _ ← expect "["%byte;
      off_s ← parse_int;
      _ ← expect ","%byte;
      off_e ← parse_int;
      _ ← expect "]"%byte;
      if (off_s <? 0) || (off_e <? 0) then st_lift (sthrow (lit "negative data_offsets"))
      else
        let n := f_entry e in
        mret (mkFields (mkEntry (e_dtype n) (e_shape n) off_s off_e) (seen_dtype e) (seen_shape e) true)
  else _ ← skip_value; mret e.

Fixpoint entry_loop (fuel : nat) (first : bool) (e : fields) : st str fields := fun s =>
  match fuel with
  | O => (Undef, s)
  | S f =>
      (fin ← eat "}"%byte;
       if (fin : bool) then mret e
       else
         _ ← (if first then mret tt else expect ","%byte);
         key ← parse_string;
         _ ← expect ":"%byte;
         e' ← parse_field key e;
         entry_loop f false e') (skip_ws s)
  end.

Definition entry_loop_all (e : fields) : st str fields := fun s => entry_loop (S (length s)) true e s.

Definition parse_entry : st str Entry :=
  _ ← expect "{"%byte;
  e ← entry_loop_all fields0;
  if negb (seen_dtype e) || negb (seen_shape e) || negb (seen_offsets e) then
    st_lift (sthrow (lit "entry missing required field (dtype, shape, or data_offsets)"))
  else mret (f_entry e).

End Parser.

(** ** File *)

Record File : Type := mkFile {
  f_file : Z;
  f_base : ptr;
  f_size : Z;
  f_tensors : list TensorView;
  f_index : gmap str nat
}.

Module F.
Import Parser.

Definition handles (f : File) : Mapping := mkMapping (f_file f) (f_base f) (f_size f).

(** [File() = default]: also what [release_] and the moves leave. *)
Definition default : File := mkFile 0 nullptr 0 [] ∅.

Definition release_ (f : File) : st os File := _ ← unmap_file (handles f); mret default.
Definition dtor (f : File) : st os unit := _ ← release_ f; mret tt.

(** The moves, on the contents of the objects: the new value of [*this] and
    what is left in [other]. A moved-from vector or map is empty, as the
    standard libraries leave it. [self] is [this == &other]. *)
Definition move_ctor (other : File) : File * File := (other, default).
Definition move_assign (self : bool) (this other : File) : st os (File * File) :=
  if self then mret (this, this) else _ ← release_ this; mret (other, default).

(** The entries of the header object, and [seen_metadata]. *)
Record contents : Type := mkContents {
  c_tensors : list TensorView;
  c_index : gmap str nat;
  seen_metadata : bool
}.

Definition quote (s : str) : str := lit "'" ++ s ++ lit "'".

Definition add_tensor (name : str) (e : Entry) (payload_base : ptr) (payload_size : Z) (c : contents)
    : res contents :=
  if (e_off_end e <? e_off_start e) || (e_off_end e >? payload_size) then
    sthrow (lit "tensor " ++ quote name ++ lit " has out-of-range data_offsets")
  else
    let tv := mkView name (e_dtype e) (e_shape e) (ptr_add payload_base (e_off_start e))
                (u64 (e_off_end e - e_off_start e)) in
    n ← numel tv;
    let numel_u := u64 n in
    let dsz_u := u64 (dtype_size_bytes (tv_dtype tv)) in
    if (dsz_u =? 0) || (numel_u >? SIZE_MAX / dsz_u) then
      sthrow (lit "tensor " ++ quote name ++ lit " byte size overflows size_t")
    else
      let expected := u64 (numel_u * dsz_u) in
      if negb (expected =? tv_nbytes tv) then
        sthrow (lit "tensor " ++ quote name ++ lit " nbytes/shape mismatch")
      else
        match c_index c !! name with
        | Some _ => sthrow (lit "duplicate tensor name " ++ quote name)
        | None =>
            Ret (mkContents (c_tensors c ++ [tv]) (<[name := length (c_tensors c)]> (c_index c)) (seen_metadata c))
        end.

Definition parse_member (payload_base : ptr) (payload_size : Z) (c : contents) : st str contents :=
  name ← parse_string;
  _ ← expect ":"%byte;
  if str_eqb name (lit "__metadata__") then
    if seen_metadata c then st_lift (sthrow (lit "duplicate '__metadata__' key"))
    else _ ← skip_value; mret (mkContents (c_tensors c) (c_index c) true)
  else e ← parse_entry; st_lift (add_tensor name e payload_base payload_size c).

Fixpoint header_loop (fuel : nat) (first : bool) (payload_base : ptr) (payload_size : Z) (c : contents)
    : st str contents := fun s =>
  match fuel with
  | O => (Undef, s)
  | S f =>
      (fin ← eat "}"%byte;
       if (fin : bool) then mret c
       else
         _ ← (if first then mret tt else expect ","%byte);
         c' ← parse_member payload_base payload_size c;
         header_loop f false payload_base payload_size c') (skip_ws s)
  end.

Definition header_loop_all payload_base payload_size (c : contents) : st str contents := fun s =>
  header_loop (S (length s)) true payload_base payload_size c s.

(** The body of the [try] block. *)
Definition parse_header (payload_base : ptr) (payload_size : Z) : st str contents :=
  _ ← expect "{"%byte;
  c ← header_loop_all payload_base payload_size (mkContents [] ∅ false);
  _ ← st_mod skip_ws;
  rest ← st_get;
  if bool_decide (rest = []) then mret c
  else st_lift (fail (lit "unexpected trailing data after header object")).

Section Open.
Context `{S : Syscalls}.

Definition err (m : str) : str := lit "safetensors: " ++ m.

Definition open (path : str) : st os File :=
  m ← map_file err path;
  if m_size m <? 8 then _ ← unmap_file m; st_throw (err (lit "file too small: " ++ quote path))
  else
    o ← st_get;
    match load_bytes (os_heap o) (m_base m) (m_size m) with
    | None => st_undef
    | Some bytes =>
        let header_size := le_int (slice 0 8 bytes) in
        if header_size >? u64 (m_size m - 8) then
          _ ← unmap_file m; st_throw (err (lit "header_size exceeds file"))
        else
          let hdr := slice 8 header_size bytes in
          let payload_base := ptr_add (m_base m) (8 + header_size) in
          let payload_size := u64 (m_size m - 8 - header_size) in
          let f := mkFile (m_file m) (m_base m) (m_size m) in
          match (parse_header payload_base payload_size hdr).1 with
          | Ret c => mret (f (c_tensors c) (c_index c))
          | Throw e => _ ← dtor (f [] ∅); st_throw e
          | Undef => st_undef
          end
    end.
End Open.

(** A position past the end of [tensors_] would be undefined. *)
Definition find (f : File) (name : str) : res (option TensorView) :=
  match f_index f !! name with
  | None => Ret None
  | Some i => match f_tensors f !! i with Some tv => Ret (Some tv) | None => Undef end
  end.

Definition get (f : File) (name : str) : res TensorView :=
  v ← find f name;
  match v with Some tv => Ret tv | None => sthrow (lit "no tensor named " ++ quote name) end.

Definition tensors (f : File) : list TensorView := f_tensors f.
Definition size (f : File) : Z := zlen (f_tensors f).
End F.

(** ** Writer *)

(** [host_data] is the memory it points to, if it is not null. *)
Record WriteEntry : Type := mkWriteEntry {
  we_name : str;
  we_dtype : Dtype;
  we_shape : list Z;
  we_host_data : option str;
  we_bytes : Z
}.

Module W.

Definition wthrow {A} (m : str) : res A := Throw (lit "safetensors::write: " ++ m).

Definition dtype_safetensors_name (d : Dtype) : res str :=
  match d with
  | F32 => Ret (lit "F32") | F16 => Ret (lit "F16") | BF16 => Ret (lit "BF16") | I32 => Ret (lit "I32")
  | I64 => Ret (lit "I64") | U8 => Ret (lit "U8") | BOOL => Ret (lit "BOOL")
  | Unknown => wthrow (lit "unsupported dtype")
  end.

(** The lowercase hexadecimal digit of the [x] conversion. *)
Definition hex_char (d : Z) : byte := if d <? 10 then zb (48 + d) else zb (97 + d - 10).

Definition escape_char (c : byte) : str :=
  if c =b x22 then ["\"%byte; x22]
  else if c =b "\"%byte then ["\"%byte; "\"%byte]
  else if c =b x0a then lit "\n"
  else if c =b x09 then lit "\t"
  else if c =b x0d then lit "\r"
  else if c =b x08 then lit "\b"
  else if c =b x0c then lit "\f"
  else if bz c <? 0x20 then lit "\u" ++ [hex_char 0; hex_char 0; hex_char (bz c / 16); hex_char (bz c mod 16)]
  else [c].

Fixpoint json_escape_append (out s : str) : str :=
  match s with
  | [] => out
  | c :: r => json_escape_append (out ++ escape_char c) r
  end.

Definition quote (s : str) : str := lit "'" ++ s ++ lit "'".

Fixpoint shape_product (name : str) (n : Z) (shape : list Z) : res Z :=
  match shape with
  | [] => Ret n
  | d :: r =>
      if d <? 0 then wthrow (quote name ++ lit " negative shape")
      else if negb (d =? 0) && (n >? INT64_MAX / d) then
        wthrow (quote name ++ lit " element count overflows int64")
      else shape_product name (n * d) r
  end.

(** The checks on one entry, in their order. *)
Definition validate_entry (e : WriteEntry) (seen : gset str) (cursor : Z) : res unit :=
  if bool_decide (we_name e = []) then wthrow (lit "empty tensor name")
  else if bool_decide (we_name e ∈ seen) then wthrow (lit "duplicate tensor name " ++ quote (we_name e))
  else if match we_host_data e with None => we_bytes e >? 0 | Some _ => false end then
    wthrow (quote (we_name e) ++ lit " null data")
  else
    let dsz := dtype_size_bytes (we_dtype e) in
    if dsz <=? 0 then wthrow (quote (we_name e) ++ lit " bad dtype")
    else
      n ← shape_product (we_name e) 1 (we_shape e);
      let n_u := u64 n in
      let dsz_u := u64 dsz in
      if n_u >? SIZE_MAX / dsz_u then wthrow (quote (we_name e) ++ lit " byte count overflows size_t")
      else
        let expected := u64 (n_u * dsz_u) in
        if negb (expected =? we_bytes e) then
          wthrow (quote (we_name e) ++ lit " byte count mismatch (shape=" ++ to_string expected ++
                  lit " bytes=" ++ to_string (we_bytes e) ++ lit ")")
        else throw_if (we_bytes e >? u64 (UINT64_MAX - cursor))
               (lit "safetensors::write: " ++ quote (we_name e) ++ lit " offset overflows uint64").

(** The offsets of the entries in the payload. *)
Fixpoint layout (entries : list WriteEntry) (seen : gset str) (cursor : Z) : res (list (Z * Z)) :=
  match entries with
  | [] => Ret []
  | e :: r =>
      _ ← validate_entry e seen cursor;
      let next := u64 (cursor + we_bytes e) in
      offs ← layout r ({[we_name e]} ∪ seen) next;
      Ret ((cursor, next) :: offs)
  end.

Fixpoint shape_text (first : bool) (shape : list Z) : str :=
  match shape with
  | [] => []
  | d :: r => (if first then [] else [","%byte]) ++ to_string d ++ shape_text false r
  end.

Definition q (s : str) : str := [x22] ++ s ++ [x22].

Definition entry_text (e : WriteEntry) (off : Z * Z) : res str :=
  dt ← dtype_safetensors_name (we_dtype e);
  Ret ([x22] ++ json_escape_append [] (we_name e) ++ [x22] ++ lit ":{" ++ q (lit "dtype") ++ lit ":" ++ q dt ++
       lit "," ++ q (lit "shape") ++ lit ":[" ++ shape_text true (we_shape e) ++
       lit "]," ++ q (lit "data_offsets") ++ lit ":[" ++ to_string off.1 ++ lit "," ++ to_string off.2 ++ lit "]}").

Fixpoint entries_text (first : bool) (l : list (WriteEntry * (Z * Z))) : res str :=
  match l with
  | [] => Ret []
  | (e, off) :: r =>
      t ← entry_text e off;
      rest ← entries_text false r;
      Ret ((if first then [] else [","%byte]) ++ t ++ rest)
  end.

(** [while ((hdr.size() % 8) != 0) hdr += ' ';] takes seven rounds at most. *)
Fixpoint pad_header (fuel : nat) (hdr : str) : str :=
  match fuel with
  | O => hdr
  | S f => if zlen hdr mod 8 =? 0 then hdr else pad_header f (hdr ++ [x20])
  end.

Definition header (entries : list WriteEntry) (offs : list (Z * Z)) : res str :=
  body ← entries_text true (combine entries offs);
  Ret (pad_header 8 (lit "{" ++ body ++ lit "}")).

(** The file system: the contents of the file written to, if it exists. The
    oracle says whether the file can be opened, how many bytes of the [k]-th write
    of [n] the stream takes, and how many of the [n] bytes it took are on the disk
    once it is closed: the last of them are flushed only then. *)
Section Io.
Context (can_open : bool) (accepts : nat -> Z -> Z) (flushes : Z -> Z).

(** [std::fclose(fp)], whose result is not looked at. *)
Definition fclose : st (option str) unit :=
  st_mod (fun disk => (fun data => slice 0 (Z.min (flushes (zlen data)) (zlen data)) data) <$> disk).

Definition wfail (what path : str) : st (option str) unit :=
  _ ← fclose; st_lift (wthrow (what ++ lit " '" ++ path ++ lit "'")).

Definition fwrite (k : nat) (data : str) (what path : str) : st (option str) unit := fun disk =>
  let n := Z.min (accepts k (zlen data)) (zlen data) in
  let disk' := (fun old => old ++ slice 0 n data) <$> disk in
  if n =? zlen data then (Ret tt, disk') else wfail what path disk'.

Fixpoint write_payload (k : nat) (entries : list WriteEntry) (path : str) : st (option str) unit :=
  match entries with
  | [] => mret tt
  | e :: r =>
      _ ← (if we_bytes e =? 0 then mret tt
           else match we_host_data e with
                | Some mem =>
                    if we_bytes e <=? zlen mem then
                      fwrite k (slice 0 (we_bytes e) mem) (lit "payload write failed") path
                    else st_undef
                | None => st_undef
                end);
      write_payload (S k) r path
  end.

Definition write_file (path : str) (entries : list WriteEntry) : st (option str) unit :=
  offs ← st_lift (layout entries ∅ 0);
  hdr ← st_lift (header entries offs);
  let header_size := u64 (zlen hdr) in
  if negb can_open then st_throw (lit "safetensors::write: cannot open '" ++ path ++ lit "'")
  else
    _ ← st_mod (fun _ => Some []);
    _ ← fwrite 0 (le_bytes 8 header_size) (lit "header_size write failed") path;
    _ ← fwrite 1 hdr (lit "header write failed") path;
    _ ← write_payload 2 entries path;
    fclose.
End Io.

End W.
