(* ===== verification/SafetensorsSpec.v ===== *)
(** * Safetensors: properties of the reader and the writer

    Progress of every parsing function (so that [open] returns on every file),
    the safety of what [open] hands out, its resources, and the round trip of
    [write_file] and [open]. *)
From S2P Require Import Prelude Device Heap MappedFile Safetensors.
Import Parser.

(** The first test of the goal that is not itself a test. *)
Ltac case_if E :=
  match goal with
  | |- context [if ?b then _ else _] =>
      lazymatch b with context [if _ then _ else _] => fail | _ => destruct b eqn:E end
  end.

(** ** Progress

    A parsing step ends, and if it returns leaves fewer than [n] bytes. *)
Definition ok {A} (n : nat) (r : res A * str) : Prop :=
  match r with
  | (Ret _, s') => (length s' < n)%nat
  | (Throw _, _) => True
  | (Undef, _) => False
  end.

Lemma ok_bind {A B} (m : st str A) (f : A -> st str B) s n n' :
  ok n (m s) -> (forall a s', (length s' < n)%nat -> ok n' (f a s')) -> ok n' ((m ≫= f) s).
Proof. unfold mbind, st_bind, ok. intros H Hf. destruct (m s) as [[a|e|] s']; [by apply Hf|done..]. Qed.

Lemma ok_mono {A} n n' (r : res A * str) : ok n r -> (n <= n')%nat -> ok n' r.
Proof. unfold ok. destruct r as [[a|e|] s']; [lia|done..]. Qed.

Lemma ok_ret {A} n (a : A) s : (length s < n)%nat -> ok n ((mret a : st str A) s).
Proof. done. Qed.

Lemma ok_lift {A} n (r : res A) s : r <> Undef -> (length s < n)%nat -> ok n (st_lift r s).
Proof. unfold st_lift, ok. by destruct r. Qed.

Lemma length_skip_ws s : (length (skip_ws s) <= length s)%nat.
Proof. induction s as [|c r IH]; cbn; [lia|]. destruct (is_ws c); cbn; lia. Qed.

Lemma length_skip_scalar s : (length (skip_scalar s) <= length s)%nat.
Proof. induction s as [|c r IH]; cbn; [lia|]. destruct (stops_scalar c); cbn; lia. Qed.

Lemma eat_ok c s : ok (S (length s)) (eat c s).
Proof.
  unfold eat. pose proof (length_skip_ws s). destruct (skip_ws s) as [|d r]; cbn in *; [lia|].
  destruct (d =b c); cbn; lia.
Qed.

Lemma expect_ok c s : ok (length s) (expect c s).
Proof.
  unfold expect, mbind, st_bind, eat. pose proof (length_skip_ws s).
  destruct (skip_ws s) as [|d r]; cbn in *; [done|]. by destruct (d =b c); cbn; [lia|].
Qed.

Lemma comma_ok (first : bool) s :
  ok (S (length s)) ((if first then mret tt else expect ","%byte : st str unit) s).
Proof. destruct first; [by apply ok_ret; lia|]. eapply ok_mono; [apply expect_ok|lia]. Qed.

Lemma header_string_loop_ok s : forall out, ok (length s) (string_loop s out).
Proof.
  remember (length s) as n eqn:En. revert s En.
  induction n as [n IH] using (well_founded_induction lt_wf). intros s -> out.
  destruct s as [|c r]; [done|]. cbn [string_loop].
  assert (Hrec : forall s' o, (length s' < length (c :: r))%nat -> ok (length (c :: r)) (string_loop s' o)).
  { intros s' o H. eapply ok_mono; [by apply (IH _ H)|lia]. }
  assert (Hf : forall (m : str) (s' : str), ok (A := str) (length (c :: r)) (fail m, s')) by done.
  destruct (c =b x22); [cbn; lia|]. destruct (c =b "\"%byte); [|apply Hrec; cbn; lia].
  destruct r as [|e r2]; [apply Hf|].
  destruct (e =b "u"%byte); [|destruct (simple_escape e); [apply Hrec; cbn; lia|apply Hf]].
  destruct r2 as [|h1 [|h2 [|h3 [|h4 r6]]]]; try apply Hf.
  destruct (hex4 h1 h2 h3 h4 <? 0); [apply Hf|]. destruct (_ && _).
  - destruct r6 as [|b [|u [|l1 [|l2 [|l3 [|l4 r12]]]]]]; try apply Hf.
    destruct (_ || _); [apply Hf|]. destruct (hex4 l1 l2 l3 l4 <? 0); [apply Hf|].
    destruct (_ || _); [apply Hf|]. apply Hrec. cbn. lia.
  - destruct (_ && _); [apply Hf|]. apply Hrec. cbn. lia.
Qed.

Lemma header_string_ok s : ok (length s) (parse_string s).
Proof.
  unfold parse_string. pose proof (length_skip_ws s). destruct (skip_ws s) as [|c r]; [done|].
  destruct (c =b x22); [|done]. eapply ok_mono; [apply header_string_loop_ok|]. cbn in *. lia.
Qed.

Lemma int_loop_ok v s : ok (S (length s)) (int_loop v s).
Proof.
  revert v. induction s as [|c r IH]; intros v; cbn [int_loop]; [cbn; lia|].
  destruct (is_digit c); [|cbn; lia]. destruct (v >? _); [done|]. eapply ok_mono; [apply IH|cbn; lia].
Qed.

Lemma parse_int_ok s : ok (length s) (parse_int s).
Proof.
  unfold parse_int. pose proof (length_skip_ws s).
  set (p := match skip_ws s with [] => _ | _ => _ end : bool * str). assert (Hp : (length p.2 <= length s)%nat).
  { subst p. destruct (skip_ws s) as [|c r]; cbn in *; [lia|]. destruct (c =b "-"%byte); cbn; lia. }
  destruct p as [neg s']. cbn in Hp. destruct s' as [|c r]; [done|]. destruct (is_digit c) eqn:Ec; [|done].
  assert (H1 : ok (length (c :: r)) (int_loop 0 (c :: r))).
  { cbn [int_loop]. rewrite Ec. destruct (0 >? _); [done|]. apply int_loop_ok. }
  destruct (int_loop 0 (c :: r)) as [[v|e|] s']; [|done..]. cbn in *. lia.
Qed.

(** The depth of the brackets is an [int]: it cannot overflow in a text of at
    most [INT_MAX] bytes. *)
Definition fits (s : str) : Prop := Z.of_nat (length s) <= INT_MAX.

Lemma skip_container_ok fuel op cl depth s : depth + Z.of_nat (length s) <= INT_MAX ->
  (length s < fuel)%nat -> ok (S (length s)) (skip_container fuel op cl depth s).
Proof.
  revert depth s. induction fuel as [|f IH]; intros depth s Hd Hs; [lia|]. cbn [skip_container].
  destruct s as [|c r]; [by destruct (depth >? 0); cbn; [|lia]|]. destruct (depth >? 0); [|cbn; lia]. cbn [length] in *.
  destruct (c =b x22).
  - eapply ok_bind; [apply header_string_ok|]. intros _ s' Hs'. cbn [length] in *. eapply ok_mono; [apply IH|]; lia.
  - destruct (Z.eqb_spec depth INT_MAX); [lia|]. rewrite andb_false_r.
    eapply ok_mono; [apply IH|]; cbn in *; destruct (c =b op), (c =b cl); lia.
Qed.

Lemma skip_value_ok s : fits s -> ok (S (length s)) (skip_value s).
Proof.
  unfold skip_value, fits. pose proof (length_skip_ws s). destruct (skip_ws s) as [|c r]; [done|]. cbn [length] in *. intros Hf.
  destruct (c =b x22); [eapply ok_bind; [apply header_string_ok|]; intros; apply ok_ret; cbn [length] in *; lia|].
  destruct (_ || _).
  - eapply ok_mono; [apply skip_container_ok; lia|lia].
  - pose proof (length_skip_scalar (c :: r)). unfold ok. cbn [length] in *. lia.
Qed.

(** One bracket more, and the count overflows: the skipping of a value with
    [2 ^ 31] opening brackets is undefined. *)
Lemma skip_container_overflows op cl k : op <> x22 -> forall fuel depth r, (k < fuel)%nat -> 0 < depth <= INT_MAX ->
  INT_MAX < depth + Z.of_nat k -> (skip_container fuel op cl depth (replicate k op ++ r)).1 = Undef.
Proof.
  intros Hop. induction k as [|k IH]; intros fuel depth r Hf Hd Hk; [lia|]. destruct fuel as [|f]; [lia|].
  cbn [skip_container replicate app]. destruct (Z.gtb_spec depth 0); [|lia].
  rewrite (proj2 (beq_false op x22) Hop), beq_refl. cbn [andb].
  destruct (Z.eqb_spec depth INT_MAX); [done|]. apply IH; lia.
Qed.

Theorem skip_value_overflows r :
  (skip_value (replicate (Z.to_nat (INT_MAX + 1)) "["%byte ++ r)).1 = Undef.
Proof.
  replace (Z.to_nat (INT_MAX + 1)) with (S (Z.to_nat INT_MAX)) by (unfold INT_MAX; lia).
  generalize (Z2Nat.id INT_MAX ltac:(done)). generalize (Z.to_nat INT_MAX). intros n Hn.
  cbn [replicate app]. unfold skip_value. cbn [skip_ws]. change (is_ws "["%byte) with false. cbn match.
  change ("["%byte =b x22) with false. change (("["%byte =b "{"%byte) || ("["%byte =b "["%byte)) with true. cbn match.
  apply skip_container_overflows; [done|rewrite length_app, length_replicate; lia|unfold INT_MAX; lia|lia].
Qed.

(** The shape of the three loops over a bracketed list. *)
Lemma list_loop_ok {A} (cl : byte) (acc : A) (first : bool) (body : st str A) s n :
  (length s < n)%nat ->
  (forall s', (length s' <= length s)%nat -> ok n (body s')) ->
  ok n ((fin ← eat cl;
         if (fin : bool) then mret acc
         else _ ← (if first then mret tt else expect ","%byte); body) (skip_ws s)).
Proof.
  intros Hs He. pose proof (length_skip_ws s).
  eapply ok_bind; [apply eat_ok|]. intros fin s1 Hs1. destruct fin; [apply ok_ret; lia|].
  eapply ok_bind; [apply comma_ok|]. intros _ s2 Hs2. apply He. lia.
Qed.

Ltac ok_step lem := eapply ok_bind; [apply lem|]; intros ? ? ?.

Lemma shape_loop_ok fuel first shape s :
  (length s < fuel)%nat -> ok (S (length s)) (shape_loop fuel first shape s).
Proof.
  revert first shape s. induction fuel as [|f IH]; intros first shape s Hs; [lia|]. cbn [shape_loop].
  apply list_loop_ok; [lia|]. intros s' Hs'. ok_step parse_int_ok. eapply ok_mono; [apply IH|]; lia.
Qed.

Lemma parse_field_ok key e s : fits s -> ok (S (length s)) (parse_field key e s).
Proof.
  intros Hf. unfold parse_field. destruct (str_eqb key _).
  { destruct (seen_dtype e); [done|]. ok_step header_string_ok.
    destruct (decide _); [done|]. apply ok_ret. lia. }
  destruct (str_eqb key _).
  { destruct (seen_shape e); [done|]. ok_step expect_ok.
    eapply ok_bind; [apply shape_loop_ok; lia|]. intros ? ? ?. apply ok_ret. lia. }
  destruct (str_eqb key _).
  { destruct (seen_offsets e); [done|]. ok_step expect_ok. ok_step parse_int_ok. ok_step expect_ok.
    ok_step parse_int_ok. ok_step expect_ok. destruct (_ || _); [done|]. apply ok_ret. lia. }
  eapply ok_bind; [by apply skip_value_ok|]. intros ? ? ?. by apply ok_ret.
Qed.

Lemma entry_loop_ok fuel first e s : fits s ->
  (length s < fuel)%nat -> ok (S (length s)) (entry_loop fuel first e s).
Proof.
  unfold fits. revert first e s. induction fuel as [|f IH]; intros first e s Hf Hs; [lia|]. cbn [entry_loop].
  apply list_loop_ok; [lia|]. intros s' Hs'. ok_step header_string_ok. ok_step expect_ok.
  eapply ok_bind; [apply parse_field_ok; unfold fits; lia|]. intros ? ? ?. eapply ok_mono; [apply IH|]; lia.
Qed.

Lemma parse_entry_ok s : fits s -> ok (length s) (parse_entry s).
Proof.
  unfold parse_entry, fits. intros Hf. ok_step expect_ok. eapply ok_bind; [apply entry_loop_ok; unfold fits; lia|]. intros e s'' Hs.
  destruct (_ || _); [done|]. apply ok_ret. lia.
Qed.

Lemma numel_from_defined n shape : numel_from n shape <> Undef.
Proof.
  revert n. induction shape as [|d r IH]; intros n; cbn; [done|].
  destruct (d <? 0); [done|]. by destruct (_ && _).
Qed.

Lemma add_tensor_defined name e b z c : F.add_tensor name e b z c <> Undef.
Proof.
  unfold F.add_tensor. destruct (_ || _); [done|]. set (tv := mkView _ _ _ _ _).
  unfold numel. destruct (numel_from 1 (tv_shape tv)) eqn:E; [|done|by apply numel_from_defined in E].
  cbn. destruct (_ || _); [done|]. destruct (negb _); [done|]. by destruct (F.c_index c !! name).
Qed.

Lemma parse_member_ok b z c s : fits s -> ok (length s) (F.parse_member b z c s).
Proof.
  unfold F.parse_member, fits. intros Hf. ok_step header_string_ok. ok_step expect_ok. destruct (str_eqb _ _).
  - destruct (F.seen_metadata c); [done|]. eapply ok_bind; [apply skip_value_ok; unfold fits; lia|]. intros ? ? ?. apply ok_ret. lia.
  - eapply ok_bind; [apply parse_entry_ok; unfold fits; lia|]. intros ? ? ?. apply ok_lift; [apply add_tensor_defined|lia].
Qed.

Lemma header_loop_ok fuel first b z c s : fits s ->
  (length s < fuel)%nat -> ok (S (length s)) (F.header_loop fuel first b z c s).
Proof.
  unfold fits. revert first c s. induction fuel as [|f IH]; intros first c s Hf Hs; [lia|]. cbn [F.header_loop].
  apply list_loop_ok; [lia|]. intros s' Hs'. eapply ok_bind; [apply parse_member_ok; unfold fits; lia|]. intros ? ? ?.
  eapply ok_mono; [apply IH|]; lia.
Qed.

Lemma parse_header_ok b z s : fits s -> ok (S (length s)) (F.parse_header b z s).
Proof.
  unfold F.parse_header, fits. intros Hf. ok_step expect_ok. eapply ok_bind; [apply header_loop_ok; unfold fits; lia|]. intros c s2 Hs2.
  eapply (ok_bind (st_mod skip_ws) _ _ (S (length s2))).
  { pose proof (length_skip_ws s2). cbn. lia. }
  intros _ s3 Hs3. eapply (ok_bind st_get _ _ (S (length s3))); [cbn; lia|]. intros rest s4 Hs4.
  destruct (bool_decide _); [apply ok_ret; lia|done].
Qed.

(** ** What a parsed header promises *)

(** What a parsing function returns, on any input. *)
Definition post {A} (m : st str A) (P : A -> Prop) : Prop := forall s, returned (m s).1 P.

Lemma post_bind {A B} (m : st str A) (f : A -> st str B) (P : A -> Prop) Q :
  post m P -> (forall a, P a -> post (f a) Q) -> post (m ≫= f) Q.
Proof.
  intros H Hf s. unfold mbind, st_bind. specialize (H s).
  destruct (m s) as [[a|e|] s']; [by apply Hf|done..].
Qed.

Lemma post_skip {A B} (m : st str A) (f : A -> st str B) Q :
  (forall a, post (f a) Q) -> post (m ≫= f) Q.
Proof.
  intros Hf. apply (post_bind m f (fun _ => True)); [|done]. intros s. by destruct (m s) as [[a|e|] s'].
Qed.

Lemma post_ret {A} (a : A) (P : A -> Prop) : P a -> post (mret a) P.
Proof. intros H s. exact H. Qed.

Lemma post_throw {A} (m : str) (P : A -> Prop) : post (st_lift (Throw m)) P.
Proof. by intros s. Qed.

Lemma post_lift {A} (r : res A) (P : A -> Prop) : returned r P -> post (st_lift r) P.
Proof. by intros H s. Qed.

#[local] Hint Resolve post_throw : brt.
#[local] Hint Extern 1 (post (st_lift (sthrow _)) _) => apply post_throw : brt.
#[local] Hint Extern 1 (post (st_lift (fail _)) _) => apply post_throw : brt.

Definition offsets_ok (e : Entry) : Prop := 0 <= e_off_start e /\ 0 <= e_off_end e.

Lemma parse_field_post key e :
  offsets_ok (f_entry e) -> post (parse_field key e) (fun e' => offsets_ok (f_entry e')).
Proof.
  intros He. unfold parse_field. destruct (str_eqb key _).
  { destruct (seen_dtype e); [auto with brt|]. apply post_skip. intros v.
    destruct (decide _); [auto with brt|]. by apply post_ret. }
  destruct (str_eqb key _).
  { destruct (seen_shape e); [auto with brt|]. do 2 (apply post_skip; intros ?). by apply post_ret. }
  destruct (str_eqb key _).
  { destruct (seen_offsets e); [auto with brt|]. do 5 (apply post_skip; intros ?).
    destruct (_ || _) eqn:E; [auto with brt|]. bool_facts. apply post_ret. split; cbn; lia. }
  apply post_skip. intros _. by apply post_ret.
Qed.

Lemma entry_loop_post fuel first e :
  offsets_ok (f_entry e) -> post (entry_loop fuel first e) (fun e' => offsets_ok (f_entry e')).
Proof.
  revert first e. induction fuel as [|f IH]; intros first e He; [by intros s|]. intros s. cbn [entry_loop].
  apply (post_skip (eat _)). intros [|]; [by apply post_ret|]. do 3 (apply post_skip; intros ?).
  eapply post_bind; [by apply parse_field_post|]. intros e' He'. by apply IH.
Qed.

Lemma parse_entry_post : post parse_entry offsets_ok.
Proof.
  apply post_skip. intros _. eapply (post_bind _ _ (fun e => offsets_ok (f_entry e))).
  - intros s. by apply entry_loop_post.
  - intros e He. destruct (_ || _); [auto with brt|]. by apply post_ret.
Qed.

Definition product (shape : list Z) : Z := foldr Z.mul 1 shape.

Lemma numel_from_spec n shape m :
  0 <= n <= INT64_MAX -> numel_from n shape = Ret m ->
  Forall (fun d => 0 <= d) shape /\ m = n * product shape /\ 0 <= m <= INT64_MAX.
Proof.
  revert n. induction shape as [|d r IH]; intros n Hn; cbn [numel_from product foldr]; [by intros [= <-]; repeat split; [constructor|lia..]|].
  destruct (Z.ltb_spec d 0); [done|]. destruct (_ && _) eqn:E; [done|]. intros H1.
  assert (Hnd : 0 <= n * d <= INT64_MAX).
  { apply andb_false_iff in E as [E|E]; bool_facts.
    - subst d. lia.
    - rewrite Z.gtb_ltb in E. bool_facts. destruct (Z.eq_dec d 0) as [->|]; [lia|].
      pose proof (Z.mul_div_le INT64_MAX d ltac:(lia)). nia. }
  destruct (IH _ Hnd H1) as (Hr & -> & Hm). repeat split; [by constructor|fold (product r); lia|lia..].
Qed.

Definition view_ok (base : ptr) (psize : Z) (tv : TensorView) : Prop :=
  exists off n, tv_data tv = ptr_add base off /\ 0 <= off /\ off + tv_nbytes tv <= psize /\
    tv_dtype tv <> Unknown /\ numel tv = Ret n /\ 0 <= n /\ tv_nbytes tv = n * dtype_size_bytes (tv_dtype tv).

(** The name index is exactly the list of tensors. *)
Definition index_ok (c : F.contents) : Prop :=
  forall name i, F.c_index c !! name = Some i <-> tv_name <$> F.c_tensors c !! i = Some name.

Definition contents_ok (base : ptr) (psize : Z) (c : F.contents) : Prop :=
  Forall (view_ok base psize) (F.c_tensors c) /\ index_ok c.

Lemma dtype_size_range d : 0 <= dtype_size_bytes d <= 8.
Proof. by destruct d. Qed.

Lemma index_add c tv seen :
  index_ok c -> F.c_index c !! tv_name tv = None ->
  index_ok (F.mkContents (F.c_tensors c ++ [tv]) (<[tv_name tv := length (F.c_tensors c)]> (F.c_index c)) seen).
Proof.
  intros Hi Hn name i. cbn. rewrite lookup_insert_Some. split.
  - intros [[<- <-]|[Hne H]].
    + by rewrite lookup_app_r, Nat.sub_diag by lia.
    + apply Hi in H. destruct (F.c_tensors c !! i) eqn:E; [|done]. by rewrite (lookup_app_l_Some _ _ _ _ E).
  - intros H. destruct (decide (i < length (F.c_tensors c))%nat) as [Hlt|Hge].
    + rewrite lookup_app_l in H by done. right. apply Hi in H. split; [|done]. intros <-. by rewrite Hn in H.
    + rewrite lookup_app_r in H by lia.
      destruct (i - length (F.c_tensors c))%nat as [|k] eqn:E; [|done]. cbn in H. injection H as <-. left. split; [done|lia].
Qed.

Lemma add_tensor_post name e base psize c :
  0 <= psize <= SIZE_MAX -> offsets_ok e -> contents_ok base psize c ->
  returned (F.add_tensor name e base psize c) (contents_ok base psize).
Proof.
  intros Hp [Hs He] [Hv Hi]. unfold F.add_tensor. case_if E1; [done|].
  set (tv := mkView _ _ _ _ _). destruct (numel tv) as [n|m|] eqn:En; [|done..]. cbn.
  case_if E2; [done|]. case_if E3; [done|].
  destruct (F.c_index c !! name) eqn:E4; [done|]. cbn.
  destruct (numel_from_spec 1 _ n ltac:(done) En) as (_ & _ & Hn).
  pose proof (dtype_size_range (e_dtype e)) as Hd.
  apply orb_false_iff in E1 as [E1a E1b]. rewrite Z.gtb_ltb in E1b.
  apply orb_false_iff in E2 as [E2a E2b]. rewrite Z.gtb_ltb in E2b. bool_facts.
  unfold SIZE_MAX in *. change (tv_nbytes tv) with (u64 (e_off_end e - e_off_start e)) in *.
  change (tv_dtype tv) with (e_dtype e) in *.
  rewrite (u64_id n), (u64_id (dtype_size_bytes _)) in * by (unfold INT64_MAX, UINT64_MAX in *; lia).
  assert (Hmul : n * dtype_size_bytes (e_dtype e) <= UINT64_MAX).
  { pose proof (Z.mul_div_le UINT64_MAX (dtype_size_bytes (e_dtype e)) ltac:(lia)). nia. }
  rewrite !u64_id in E3 by lia.
  split; [|by apply (index_add c tv)].
  cbn. apply Forall_app. split; [done|]. repeat constructor. exists (e_off_start e), n. cbn.
  rewrite u64_id by lia. repeat split; try done; try lia. intros Hu. by rewrite Hu in E2a.
Qed.

Lemma header_loop_post fuel first base psize c :
  0 <= psize <= SIZE_MAX -> contents_ok base psize c ->
  post (F.header_loop fuel first base psize c) (contents_ok base psize).
Proof.
  intros Hp. revert first c. induction fuel as [|f IH]; intros first c Hc; [by intros s|]. intros s.
  cbn [F.header_loop]. apply (post_skip (eat _)). intros [|]; [by apply post_ret|]. apply post_skip. intros _.
  eapply post_bind; [|intros c' Hc'; by apply IH, Hc'].
  do 2 (apply post_skip; intros ?). destruct (str_eqb _ _).
  - destruct (F.seen_metadata c); [auto with brt|]. apply post_skip. intros _. by apply post_ret.
  - eapply post_bind; [apply parse_entry_post|]. intros e He. apply post_lift. by apply add_tensor_post.
Qed.

Lemma parse_header_post base psize :
  0 <= psize <= SIZE_MAX -> post (F.parse_header base psize) (contents_ok base psize).
Proof.
  intros Hp. apply post_skip. intros _. eapply (post_bind _ _ (contents_ok base psize)).
  - intros s. apply header_loop_post; [done|]. split; [constructor|]. intros name i. cbn. by rewrite lookup_empty.
  - intros c Hc. apply post_skip. intros _. apply post_skip. intros rest.
    destruct (bool_decide _); [by apply post_ret|auto with brt].
Qed.

(** ** [open]: safety and resources *)

Section Open.
Context `{L : LawfulSyscalls}.

(** The header of the file at [path] is longer than an [int] counts. *)
Definition header_too_long (path : str) (o : os) : Prop :=
  exists fd c, sys_open path o = Some (fd, c) /\ INT_MAX < le_int (slice 0 8 c).

(** What [open] leaves in each case; the descriptor and the mapping go with
    the returned object. *)
Lemma open_cases path o :
  match F.open path o with
  | (Ret f, o') => exists fd c, sys_open path o = Some (fd, c) /\ maps_to fd (F.handles f) c o o' /\
      8 <= zlen c <= INT64_MAX /\ le_int (slice 0 8 c) <= zlen c - 8 /\
      let h := le_int (slice 0 8 c) in
      exists seen, (F.parse_header (ptr_add (f_base f) (8 + h)) (zlen c - 8 - h) (slice 8 h c)).1 =
        Ret (F.mkContents (f_tensors f) (f_index f) seen)
  | (Throw _, o') => o' = o \/ exists fd c m, sys_open path o = Some (fd, c) /\
      maps_to fd m c o (snd (map_file F.err path o)) /\ (Ret tt, o') = unmap_file m (snd (map_file F.err path o))
  | (Undef, _) => header_too_long path o
  end.
Proof.
  unfold F.open. pose proof (map_file_spec F.err path o) as Hm.
  unfold mbind at 1, st_bind. destruct (map_file F.err path o) as [[m|e|] o1]; [|by left|done].
  destruct Hm as (fd & c & Ho & Hmap). cbn [snd]. pose proof (open_size _ _ _ _ Ho) as Hc.
  pose proof (unmap_file_spec _ _ _ _ _ Hmap) as Hu. rewrite (maps_size _ _ _ _ _ Hmap).
  pose proof (zlen_nonneg c). unfold INT64_MAX in *.
  destruct (Z.ltb_spec (zlen c) 8) as [Hs|Hs].
  { rewrite (st_bind_ret _ _ _ _ _ Hu). cbn. right. exists fd, c, m. by rewrite Hu. }
  rewrite (st_bind_ret st_get _ o1 o1 o1 eq_refl).
  destruct (maps_base _ _ _ _ _ Hmap) as (b & Em & Hb); [intros ->; by apply Hs|].
  assert (Hload : load_bytes (os_heap o1) (m_base m) (zlen c) = Some c).
  { rewrite Em. cbn [m_base]. rewrite (load_full _ _ _ _ Hb) by (cbn; lia). cbn [blk_bytes]. by rewrite slice_all. }
  rewrite Hload.
  assert (Hm' : mkMapping (m_file m) (m_base m) (zlen c) = m) by by rewrite Em.
  pose proof (le_int_range (slice 0 8 c)) as Hh.
  set (h := le_int (slice 0 8 c)) in *. rewrite u64_id by (unfold UINT64_MAX; lia).
  rewrite Z.gtb_ltb. destruct (Z.ltb_spec (zlen c - 8) h) as [Hlt|Hle].
  { rewrite (st_bind_ret _ _ _ _ _ Hu). cbn. right. exists fd, c, m. by rewrite Hu. }
  rewrite u64_id by (unfold UINT64_MAX; lia).
  pose proof (parse_header_ok (ptr_add (m_base m) (8 + h)) (zlen c - 8 - h) (slice 8 h c)) as Hok.
  destruct (F.parse_header _ _ _) as [[[ts idx seen]|e|] s'] eqn:E; cbn [fst]; cycle 2.
  { exists fd, c. split; [done|]. fold h. destruct (Z_lt_le_dec INT_MAX h) as [|Hle']; [done|]. exfalso. apply Hok. unfold fits.
    change (zlen (slice 8 h c) <= INT_MAX). rewrite zlen_slice by lia. lia. }
  - exists fd, c. split; [done|]. split; [unfold F.handles; cbn; by rewrite Hm'|]. split; [lia|].
    split; [done|]. exists seen. exact (f_equal fst E).
  - unfold F.dtor, F.release_. unfold F.handles. cbn [f_file f_base f_size]. rewrite Hm'.
    rewrite (st_bind_ret _ _ _ _ _ (st_bind_ret _ _ _ _ _ (st_bind_ret _ _ _ _ _ Hu))).
    right. exists fd, c, m. by rewrite Hu.
Qed.

(** C12: [open] is safe on every file whose header is at most [INT_MAX] bytes
    long. Whatever the bytes, it returns or throws (no undefined behaviour, no loop
    without end); and if it returns, every tensor's bytes are a range of the
    mapping of exactly [numel * size of the dtype] bytes with a non-negative,
    non-overflowing shape, and [find] and [get] are exactly lookup by name in the
    list of tensors, no two of which share a name. A longer header is undefined
    only where [skip_value] counts more brackets than an [int] holds
    ([skip_value_overflows]). *)
Theorem open_in_bounds path o :
  match F.open path o with
  | (Ret f, o') =>
      Forall (fun tv => exists n bs, numel tv = Ret n /\ 0 <= n <= INT64_MAX /\ tv_dtype tv <> Unknown /\
                tv_nbytes tv = n * dtype_size_bytes (tv_dtype tv) /\
                load_bytes (os_heap o') (tv_data tv) (tv_nbytes tv) = Some bs) (F.tensors f) /\
      NoDup (tv_name <$> F.tensors f) /\
      (forall name, (exists tv, F.find f name = Ret (Some tv) /\ F.get f name = Ret tv /\
                        tv_name tv = name /\ tv ∈ F.tensors f) \/
                    (F.find f name = Ret None /\ (exists e, F.get f name = Throw e) /\
                     (name ∉ (tv_name <$> F.tensors f))))
  | (Throw _, _) => True
  | (Undef, _) => header_too_long path o
  end.
Proof.
  pose proof (open_cases path o) as H. destruct (F.open path o) as [[f|e|] o']; [|done|exact H].
  destruct H as (fd & c & Ho & Hmap & Hc & Hh & seen & Hp).
  pose proof (le_int_range (slice 0 8 c)) as Hh0. set (h := le_int (slice 0 8 c)) in *.
  destruct (maps_base _ _ _ _ _ Hmap) as (b & Em & Hb); [intros ->; by apply Hc|].
  injection Em as _ Eb _.
  pose proof (parse_header_post (ptr_add (f_base f) (8 + h)) (zlen c - 8 - h)
                ltac:(unfold SIZE_MAX, UINT64_MAX, INT64_MAX in *; lia) (slice 8 h c)) as Hpost.
  rewrite Hp in Hpost. destruct Hpost as [Hviews Hidx]. cbn in Hviews.
  unfold index_ok in Hidx. cbn in Hidx. split; [|split].
  - eapply Forall_impl; [exact Hviews|]. intros tv (off & n & Hd & Hoff & Hend & Hdt & Hn & Hn0 & Hnb).
    destruct (numel_from_spec 1 _ n ltac:(done) Hn) as (_ & _ & Hn1).
    pose proof (dtype_size_range (tv_dtype tv)).
    exists n, (slice (8 + h + off) (tv_nbytes tv) c). repeat split; try done; try lia.
    rewrite Hd, Eb. cbn. rewrite Hb. cbn [mbind option_bind blk_bytes].
    rewrite (proj2 (in_block_true _ _ _)); [done|]. cbn [blk_bytes]. nia.
  - apply NoDup_alt. intros i j x Hi Hj. rewrite list_lookup_fmap in Hi, Hj.
    apply Hidx in Hi, Hj. congruence.
  - intros name. unfold F.find, F.get, F.find. destruct (f_index f !! name) as [i|] eqn:Ei.
    + left. apply Hidx in Ei. destruct (f_tensors f !! i) as [tv|] eqn:Et; [|done]. cbn in Ei. injection Ei as En.
      exists tv. repeat split; try done. by apply list_elem_of_lookup_2 with i.
    + right. repeat split; [by eexists|]. intros Hin. apply list_elem_of_lookup_1 in Hin as [i Hin].
      unfold F.tensors in Hin. rewrite list_lookup_fmap in Hin. apply Hidx in Hin. by rewrite Hin in Ei.
Qed.

(** An opened file, spelled out. *)
Definition holds (f : File) (o o' : os) : Prop :=
  exists fd b c, fd <> 0 /\ c <> [] /\ F.handles f = mkMapping fd (Some (b, 0)) (zlen c) /\
    os_heap o !! b = None /\ os_fds o !! fd = None /\ o' = with_mapping fd b c o.

(** Descriptors other than 0 (see [open_leaks_fd0]) and headers of at most
    [INT_MAX] bytes. *)
Definition plain_files : Prop :=
  forall p o fd c, sys_open p o = Some (fd, c) -> fd <> 0 /\ le_int (slice 0 8 c) <= INT_MAX.

Lemma open_holds path o : plain_files ->
  match F.open path o with
  | (Ret f, o') => holds f o o'
  | (Throw _, o') => o' = o
  | (Undef, _) => False
  end.
Proof.
  intros Hnz. pose proof (open_cases path o) as H. destruct (F.open path o) as [[f|e|] o'].
  - destruct H as (fd & c & Ho & Hmap & Hc & _). apply Hnz in Ho as [Ho _].
    destruct Hmap as [(-> & _)|(b & Hne & Hfd & Em & Hb & Hn & ->)]; [by destruct Hc as [[] _]|].
    exists fd, b, c. by repeat split.
  - destruct H as [->|(fd & c & m & Ho & Hmap & Hu)]; [done|]. apply Hnz in Ho as [Ho _].
    rewrite (unmap_file_spec _ _ _ _ _ Hmap) in Hu. injection Hu as ->.
    destruct Hmap as [(-> & -> & _)|(b & _ & _ & -> & _)]; [by destruct o|].
    cbn. destruct (Z.eqb_spec fd 0); [done|]. by destruct o.
  - destruct H as (fd & c & Ho & Hlong). apply Hnz in Ho. lia.
Qed.

Lemma release_holds f o o' : holds f o o' -> F.release_ f o' = (Ret F.default, o).
Proof.
  intros (fd & b & c & Hfd & Hc & Em & Hb & Hn & ->). unfold F.release_. rewrite Em.
  assert (Hu : unmap_file (mkMapping fd (Some (b, 0)) (zlen c)) (with_mapping fd b c o) = (Ret tt, o)).
  { unfold unmap_file. cbn [m_base m_size m_file is_null negb].
    assert (zlen c <> 0) by (destruct c; [done|]; rewrite zlen_cons; pose proof (zlen_nonneg c); lia).
    destruct (Z.eqb_spec (zlen c) 0); [done|]. destruct (Z.eqb_spec fd 0); [done|].
    unfold mbind, st_bind, sys_munmap, with_mapping, sys_close, st_mod. cbn.
    rewrite lookup_insert, decide_True by done. cbn. rewrite !delete_insert_eq, !delete_id by done. by destruct o. }
  by rewrite (st_bind_ret _ _ _ _ _ Hu).
Qed.

Lemma dtor_holds f o o' : holds f o o' -> F.dtor f o' = (Ret tt, o).
Proof. intros H. unfold F.dtor. by rewrite (st_bind_ret _ _ _ _ _ (release_holds _ _ _ H)). Qed.

(** The older of two mappings can go first. *)
Lemma holds_swap f g o o1 o2 :
  holds f o o1 -> holds g o1 o2 -> exists o1', holds f o1' o2 /\ holds g o o1'.
Proof.
  intros (fd & b & c & Hfd & Hc & Em & Hb & Hn & ->) (fd' & b' & c' & Hfd' & Hc' & Em' & Hb' & Hn' & ->).
  unfold with_mapping in *. cbn in *. apply lookup_insert_None in Hb' as [Hb1 Hb2].
  apply lookup_insert_None in Hn' as [Hn1 Hn2].
  exists (with_mapping fd' b' c' o). split.
  - exists fd, b, c. do 3 (split; [done|]). unfold with_mapping. cbn.
    rewrite !lookup_insert_ne by done. do 2 (split; [done|]).
    by rewrite (insert_insert_ne _ fd fd'), (insert_insert_ne _ b b') by done.
  - exists fd', b', c'. by do 5 (split; [done|]).
Qed.

Lemma dtor_default o : F.dtor F.default o = (Ret tt, o).
Proof. done. Qed.

(** *** The clients of [File]

    A program over variables that hold files: it opens a path into a variable
    (catching the exception, and moving the new file over the old value), assigns
    one variable to another (possibly itself), moves one into a new object and
    that into a variable, and destroys a variable. A variable that was never
    written is a default [File]. *)
Inductive client : Type :=
  | COpen (v : nat) (path : str)
  | CAssign (v w : nat)
  | CMove (v w : nat)
  | CDestroy (v : nat).

Abbreviation world := (gmap nat File * os)%type.

Definition on_os {A} (m : st os A) : st world A := fun w => let '(r, o) := m w.2 in (r, (w.1, o)).
Definition var (fs : gmap nat File) (v : nat) : File := default F.default (fs !! v).
Definition fetch (v : nat) : st world File := fun w => (Ret (var w.1 v), w).
Definition put (v : nat) (f : File) : st world unit := st_mod (fun w => (<[v := f]> w.1, w.2)).

(** [v = std::move(f)], and the end of the temporary [f]. *)
Definition assign_from (v : nat) (f : File) : st world unit :=
  this ← fetch v;
  p ← on_os (F.move_assign false this f);
  _ ← on_os (F.dtor p.2);
  put v p.1.

Definition client_step (c : client) : st world unit :=
  match c with
  | COpen v path => fun w =>
      match on_os (F.open path) w with
      | (Ret f, w') => assign_from v f w'
      | (Throw _, w') => (Ret tt, w')
      | (Undef, w') => (Undef, w')
      end
  | CAssign v u =>
      this ← fetch v;
      other ← fetch u;
      p ← on_os (F.move_assign (bool_decide (v = u)) this other);
      _ ← put u p.2;
      put v p.1
  | CMove v u =>
      other ← fetch u;
      _ ← put u (F.move_ctor other).2;
      assign_from v (F.move_ctor other).1
  | CDestroy v =>
      f ← fetch v;
      _ ← on_os (F.dtor f);
      st_mod (fun w => (delete v w.1, w.2))
  end.

Fixpoint run_client (cs : list client) : st world unit :=
  match cs with [] => mret tt | c :: r => _ ← client_step c; run_client r end.

(** [o] is [o0] and what the files [l] hold. *)
Inductive owns (o0 : os) : list File -> os -> Prop :=
  | owns_nil : owns o0 [] o0
  | owns_holds f l o o' : owns o0 l o -> holds f o o' -> owns o0 (f :: l) o'
  | owns_default l o : owns o0 l o -> owns o0 (F.default :: l) o.

Lemma owns_swap o0 f g l o : owns o0 (f :: g :: l) o -> owns o0 (g :: f :: l) o.
Proof.
  intros H. inversion_clear H as [|? ? o1 ? Hl Hf|? ? Hl]; inversion_clear Hl as [|? ? o2 ? Hl' Hg|? ? Hl'].
  - destruct (holds_swap _ _ _ _ _ Hg Hf) as (o3 & H1 & H2). eauto using owns.
  - eauto using owns.
  - eauto using owns.
  - eauto using owns.
Qed.

Lemma owns_perm o0 l k o : l ≡ₚ k -> owns o0 l o -> owns o0 k o.
Proof.
  intros Hp. revert o. induction Hp as [|f l k _ IH|f g l|l k m _ IH1 _ IH2]; intros o H; [done| | |by apply IH2, IH1].
  - inversion H; subst; [eapply owns_holds; [by apply IH|done]|by apply owns_default, IH].
  - by apply owns_swap.
Qed.

(** Whatever a file holds, it gives back. *)
Lemma owns_release o0 f l o : owns o0 (f :: l) o ->
  exists o', F.release_ f o = (Ret F.default, o') /\ owns o0 l o'.
Proof.
  intros H. inversion H as [|? ? o1 ? Hl Hf|? ? Hl]; subst.
  - exists o1. split; [by apply release_holds|done].
  - by exists o.
Qed.

Definition files (fs : gmap nat File) : list File := (map_to_list fs).*2.

Lemma files_put v f fs : files (<[v := f]> fs) ≡ₚ f :: files (delete v fs).
Proof. unfold files. rewrite <- insert_delete_eq, map_to_list_insert by apply lookup_delete_eq. done. Qed.

Lemma owns_take o0 v fs o : owns o0 (files fs) o -> owns o0 (var fs v :: files (delete v fs)) o.
Proof.
  unfold var. intros H. destruct (fs !! v) as [f|] eqn:E; cbn.
  - eapply owns_perm; [|exact H]. rewrite <- (insert_id _ _ _ E) at 1. apply files_put.
  - rewrite delete_id by done. by apply owns_default.
Qed.

Lemma owns_put o0 v f fs o : owns o0 (f :: files (delete v fs)) o -> owns o0 (files (<[v := f]> fs)) o.
Proof. apply owns_perm. symmetry. apply files_put. Qed.

Lemma on_os_ret {A} (m : st os A) fs o a o' : m o = (Ret a, o') -> on_os m (fs, o) = (Ret a, (fs, o')).
Proof. unfold on_os. cbn. by intros ->. Qed.

Lemma move_assign_releases this f o o' : F.release_ this o = (Ret F.default, o') ->
  F.move_assign false this f o = (Ret (f, F.default), o').
Proof. intros H. unfold F.move_assign. by rewrite (st_bind_ret _ _ _ _ _ H). Qed.

Lemma dtor_releases f o o' : F.release_ f o = (Ret F.default, o') -> F.dtor f o = (Ret tt, o').
Proof. intros H. unfold F.dtor. by rewrite (st_bind_ret _ _ _ _ _ H). Qed.

Lemma assign_from_owns o0 v f fs o : owns o0 (f :: files fs) o ->
  exists o', assign_from v f (fs, o) = (Ret tt, (<[v := f]> fs, o')) /\ owns o0 (files (<[v := f]> fs)) o'.
Proof.
  intros H. assert (H' : owns o0 (var fs v :: f :: files (delete v fs)) o).
  { apply owns_swap. inversion H as [|? ? o1 ? Hl Hf|? ? Hl]; subst.
    - eapply owns_holds; [by apply owns_take|done].
    - by apply owns_default, owns_take. }
  destruct (owns_release _ _ _ _ H') as (o' & E & Ho). exists o'. split; [|by apply owns_put].
  unfold assign_from. rewrite (st_bind_ret (fetch v) _ _ _ _ eq_refl). cbn [fst].
  rewrite (st_bind_ret _ _ _ _ _ (on_os_ret _ _ _ _ _ (move_assign_releases _ _ _ _ E))). done.
Qed.

Lemma client_step_owns o0 c fs o : plain_files -> owns o0 (files fs) o ->
  exists fs' o', client_step c (fs, o) = (Ret tt, (fs', o')) /\ owns o0 (files fs') o'.
Proof.
  intros Hp H. destruct c as [v path|v u|v u|v]; cbn [client_step].
  - unfold on_os. cbn. pose proof (open_holds path o Hp) as Ho. destruct (F.open path o) as [[f|e|] o1]; [| |done].
    + destruct (assign_from_owns o0 v f fs o1 ltac:(by eapply owns_holds)) as (o' & E & Ho'). eauto.
    + subst. eauto.
  - rewrite (st_bind_ret (fetch v) _ _ _ _ eq_refl), (st_bind_ret (fetch u) _ _ _ _ eq_refl). cbn [fst]. destruct (decide (v = u)) as [->|Hne].
    + rewrite bool_decide_eq_true_2 by done. do 2 eexists. split; [done|]. cbn. rewrite insert_insert_eq. by apply owns_put, owns_take.
    + rewrite bool_decide_eq_false_2 by done. pose proof (owns_take o0 v fs o H) as H1.
      destruct (owns_release _ _ _ _ H1) as (o' & E & Ho).
      rewrite (st_bind_ret _ _ _ _ _ (on_os_ret _ _ _ _ _ (move_assign_releases _ _ _ _ E))).
      exists (<[v := var fs u]> (<[u := F.default]> fs)), o'. split; [done|].
      apply owns_put. rewrite delete_insert_ne by done. apply (owns_take o0 u) in Ho. unfold var in Ho.
      rewrite lookup_delete_ne in Ho by done. fold (var fs u) in Ho.
      eapply owns_perm; [apply Permutation_skip; symmetry; apply files_put|]. apply owns_swap, owns_default, Ho.
  - rewrite (st_bind_ret (fetch u) _ _ _ _ eq_refl), (st_bind_ret (put u _) _ _ _ _ eq_refl). cbn [fst snd F.move_ctor].
    destruct (assign_from_owns o0 v (var fs u) (<[u := F.default]> fs) o) as (o' & E & Ho').
    + eapply owns_perm; [apply Permutation_skip; symmetry; apply files_put|]. by apply owns_swap, owns_default, owns_take.
    + eauto.
  - destruct (owns_release _ _ _ _ (owns_take o0 v fs o H)) as (o' & E & Ho). exists (delete v fs), o'. split; [|done].
    rewrite (st_bind_ret (fetch v) _ _ _ _ eq_refl). cbn [fst].
    by rewrite (st_bind_ret _ _ _ _ _ (on_os_ret _ _ _ _ _ (dtor_releases _ _ _ E))).
Qed.

Lemma run_client_owns o0 cs fs o : plain_files -> owns o0 (files fs) o ->
  exists fs' o', run_client cs (fs, o) = (Ret tt, (fs', o')) /\ owns o0 (files fs') o'.
Proof.
  intros Hp. revert fs o. induction cs as [|c cs IH]; intros fs o H; cbn [run_client]; [by exists fs, o|].
  destruct (client_step_owns o0 c fs o Hp H) as (fs1 & o1 & E & H1).
  rewrite (st_bind_ret _ _ _ _ _ E). by apply IH.
Qed.

Lemma run_client_app cs ds w w' : run_client cs w = (Ret tt, w') -> run_client (cs ++ ds) w = run_client ds w'.
Proof.
  revert w. induction cs as [|c cs IH]; intros w; cbn [run_client app]; [by intros [= ->]|].
  unfold mbind, st_bind. destruct (client_step c w) as [[a|e|] w1]; [apply IH|done..].
Qed.

Lemma destroy_deletes vs w w' : run_client (map CDestroy vs) w = (Ret tt, w') ->
  forall v, is_Some (w'.1 !! v) -> is_Some (w.1 !! v) /\ v ∉ vs.
Proof.
  revert w. induction vs as [|u vs IH]; intros w; cbn [run_client map].
  { intros [= ->] v Hv. split; [done|apply not_elem_of_nil]. }
  unfold mbind at 1, st_bind at 1. destruct (client_step (CDestroy u) w) as [[[]|e|] w1] eqn:E; [|done..].
  assert (E1 : w1.1 = delete u w.1).
  { cbn [client_step] in E. rewrite (st_bind_ret (fetch u) _ _ _ _ eq_refl) in E. unfold mbind, st_bind, on_os in E.
    destruct (F.dtor (var w.1 u) w.2) as [[a|e|] o1]; [|done..]. by injection E as <-. }
  intros H v Hv. destruct (IH _ H v Hv) as [Hs Hn]. rewrite E1 in Hs. destruct (decide (u = v)) as [->|Hne].
  - rewrite lookup_delete_eq in Hs. by destruct Hs.
  - rewrite lookup_delete_ne in Hs by done. split; [done|]. by intros [->|]%elem_of_cons.
Qed.

End Open.

(** ** Examples *)

Module Ex.
Definition entries : list WriteEntry := [mkWriteEntry (lit "w" ++ [x22; x01]) F16 [2; 1] (Some (le_bytes 4 0x3C003C00)) 4].

(** The file [write_file] makes of them on a disk that takes everything. *)
Definition image : str := Eval vm_compute in
  match (W.write_file true (fun _ n => n) (fun n => n) (lit "p") entries None).2 with Some s => s | None => [] end.

Definition start : os := mkOs ∅ ∅.
Definition disk (fd : Z) : Syscalls := IdealOs.calls fd image.

Lemma disk_lawful fd : 0 <= fd -> LawfulSyscalls (disk fd).
Proof. intros H. apply IdealOs.os_lawful; [done|]. by vm_compute. Qed.

Definition opened (fd : Z) : File :=
  mkFile fd (Some (1%positive, 0)) (zlen image)
    [mkView (lit "w" ++ [x22; x01]) F16 [2; 1] (Some (1%positive, zlen image - 4)) 4]
    {[ lit "w" ++ [x22; x01] := 0%nat ]}.
Definition after (fd : Z) : os := with_mapping fd 1 image start.

Lemma open_start : F.open (S := disk 3) (lit "p") start = (Ret (opened 3), after 3).
Proof. by vm_compute. Qed.

Lemma open_start0 : F.open (S := disk 0) (lit "p") start = (Ret (opened 0), after 0).
Proof. by vm_compute. Qed.
End Ex.

Lemma open_in_bounds_witness :
  match F.open (S := Ex.disk 3) (lit "p") Ex.start with
  | (Ret f, _) => F.tensors f <> [] /\ NoDup (tv_name <$> F.tensors f)
  | _ => False
  end.
Proof.
  pose proof (open_in_bounds (L := Ex.disk_lawful 3 ltac:(lia)) (lit "p") Ex.start) as H.
  rewrite Ex.open_start in *. split; [discriminate|]. apply H.
Defined.


(** A process that runs with descriptor 0 closed loses it to the reader:
    the descriptor is kept as a pointer, the one numbered 0 is taken for
    [nullptr], and destroying the file never closes it. *)
Theorem open_leaks_fd0 :
  exists (S : Syscalls) path o f o1 o2, LawfulSyscalls S /\
    F.open path o = (Ret f, o1) /\ F.dtor f o1 = (Ret tt, o2) /\
    os_fds o !! 0 = None /\ is_Some (os_fds o2 !! 0).
Proof.
  exists (Ex.disk 0), (lit "p"), Ex.start, (Ex.opened 0), (Ex.after 0), (mkOs ∅ {[ 0 := Ex.image ]}).
  split; [by apply Ex.disk_lawful|]. split; [apply Ex.open_start0|]. split; [by vm_compute|]. split; [done|]. by eexists.
Qed.
