(* ===== verification/SafetensorsRound.v ===== *)
(** * Safetensors: what is written is read back

    The text of each piece of the header, as [write_file] produces it, is parsed
    to what it was made from; then the offsets, the file as a whole, and the
    round trip. *)
From S2P Require Import Prelude Device Heap MappedFile Safetensors SafetensorsSpec.
Import Parser.

(** ** Strings *)

Definition escape (s : str) : str := s ≫= W.escape_char.

Lemma json_escape_append_eq out s : W.json_escape_append out s = out ++ escape s.
Proof.
  revert out. induction s as [|c s IH]; intros out; cbn; [by rewrite app_nil_r|]. by rewrite IH, app_assoc.
Qed.

Lemma escape_step c r out : string_loop (W.escape_char c ++ r) out = string_loop r (out ++ [c]).
Proof. by destruct c. Qed.

Lemma string_loop_escape s r out : string_loop (escape s ++ x22 :: r) out = (Ret (out ++ s), r).
Proof.
  revert out. induction s as [|c s IH]; intros out; [cbn; by rewrite app_nil_r|].
  cbn [escape mbind list_bind]. rewrite <- app_assoc, escape_step. rewrite IH. by rewrite <- app_assoc.
Qed.

Lemma parse_string_escape s r : parse_string (x22 :: escape s ++ x22 :: r) = (Ret s, r).
Proof. change (string_loop (escape s ++ x22 :: r) [] = (Ret s, r)). apply string_loop_escape. Qed.

(** A string that needs no escape. *)
Lemma parse_string_plain k r : escape k = k -> parse_string (W.q k ++ r) = (Ret k, r).
Proof. intros H. unfold W.q. rewrite <- H at 1. rewrite <- !app_assoc. apply parse_string_escape. Qed.

(** ** Numbers *)

Definition stops (r : str) : Prop := match r with b :: _ => is_digit b = false | [] => True end.

Lemma int_loop_digits ds v r :
  Forall (fun b => is_digit b = true) ds -> 0 <= v -> digits_val v ds <= INT64_MAX -> stops r ->
  int_loop v (ds ++ r) = (Ret (digits_val v ds), r).
Proof.
  intros Hd. revert v. induction Hd as [|b ds Hb Hd IH]; intros v Hv Hmax Hr; cbn [app int_loop].
  - destruct r as [|b r]; [done|]. cbn in *. by rewrite Hr.
  - rewrite Hb. cbn in Hmax. pose proof (digits_val_mono ds (v * 10 + (bz b - 48))) as Hm.
    unfold is_digit in Hb. bool_facts. specialize (Hm ltac:(lia) Hd). unfold digits_val in *.
    rewrite Z.gtb_ltb. destruct (Z.ltb_spec ((INT64_MAX - (bz b - 48)) / 10) v) as [Hlt|_]; [|apply IH; [lia|done..]].
    assert (v <= (INT64_MAX - (bz b - 48)) / 10); [|lia]. apply Z.div_le_lower_bound; lia.
Qed.

Lemma digit_not_ws b : is_digit b = true -> is_ws b = false /\ (b =b "-"%byte) = false.
Proof. by destruct b. Qed.

Lemma parse_int_to_string n r :
  0 <= n <= INT64_MAX -> stops r -> parse_int (to_string n ++ r) = (Ret n, r).
Proof.
  intros Hn Hr. unfold to_string. destruct (Z.ltb_spec n 0); [lia|].
  destruct (to_dec_spec n ltac:(lia)) as (Hd & Hne & Hv). destruct (to_dec n) as [|b ds]; [done|].
  inversion_clear Hd as [|? ? Hb Hds]. unfold parse_int. cbn [app skip_ws].
  destruct (digit_not_ws b Hb) as [-> ->]. rewrite Hb.
  change (b :: ds ++ r) with ((b :: ds) ++ r).
  rewrite (int_loop_digits (b :: ds) 0 r); [|by constructor|lia|lia|done]. rewrite Hv. done.
Qed.

(** ** A shape *)

Lemma shape_text_length first shape : (length shape <= length (W.shape_text first shape))%nat.
Proof.
  revert first. induction shape as [|d r IH]; intros first; cbn [W.shape_text length]; [lia|].
  rewrite !length_app. specialize (IH false).
  assert (1 <= length (to_string d))%nat; [|lia].
  unfold to_string. destruct (Z.ltb_spec d 0); [cbn; lia|].
  destruct (to_dec_spec d ltac:(lia)) as (_ & Hne & _). destruct (to_dec d); [done|cbn; lia].
Qed.

Lemma eat_other c d r : is_ws d = false -> (d =b c) = false -> eat c (d :: r) = (Ret false, d :: r).
Proof. intros Hw Hd. unfold eat. cbn. by rewrite Hw, Hd. Qed.

Lemma skip_ws_other d r : is_ws d = false -> skip_ws (d :: r) = d :: r.
Proof. intros Hw. cbn. by rewrite Hw. Qed.

Lemma to_string_cons n : 0 <= n -> exists b ds, to_string n = b :: ds /\ is_digit b = true.
Proof.
  intros Hn. unfold to_string. destruct (Z.ltb_spec n 0); [lia|].
  destruct (to_dec_spec n Hn) as (Hd & Hne & _). destruct (to_dec n) as [|b ds]; [done|].
  exists b, ds. split; [done|]. by inversion Hd.
Qed.

Definition dim_ok (d : Z) : Prop := 0 <= d <= INT64_MAX.

Lemma stops_shape_text shape r : stops (W.shape_text false shape ++ "]"%byte :: r).
Proof. by destruct shape. Qed.

Lemma shape_loop_text shape fuel first acc r :
  Forall dim_ok shape -> (length shape < fuel)%nat ->
  shape_loop fuel first acc (W.shape_text first shape ++ "]"%byte :: r) = (Ret (acc ++ shape), r).
Proof.
  intros Hs. revert fuel first acc. induction Hs as [|d shape Hd Hs IH]; intros fuel first acc Hf;
    (destruct fuel as [|f]; [cbn in Hf; lia|]).
  - cbn. by rewrite app_nil_r.
  - cbn [shape_loop W.shape_text]. rewrite <- !app_assoc.
    destruct (to_string_cons d ltac:(unfold dim_ok in Hd; lia)) as (b & ds & E & Hb).
    assert (Hint : parse_int (to_string d ++ W.shape_text false shape ++ "]"%byte :: r) =
                   (Ret d, W.shape_text false shape ++ "]"%byte :: r))
      by (apply parse_int_to_string; [done|apply stops_shape_text]).
    destruct (digit_not_ws b Hb) as [Hw _].
    assert (Hbr : (b =b "]"%byte) = false) by (by destruct b).
    replace (acc ++ d :: shape) with ((acc ++ [d]) ++ shape) by (by rewrite <- app_assoc).
    destruct first; cbn [app].
    + rewrite E in *. cbn [app] in *. rewrite skip_ws_other by done.
      rewrite (st_bind_ret _ _ _ _ _ (eat_other _ _ _ Hw Hbr)).
      rewrite (st_bind_ret _ _ _ tt (b :: ds ++ W.shape_text false shape ++ "]"%byte :: r)) by done.
      rewrite (st_bind_ret _ _ _ _ _ Hint). apply IH. cbn in Hf. lia.
    + rewrite (st_bind_ret _ _ _ false (","%byte :: to_string d ++ W.shape_text false shape ++ "]"%byte :: r)) by done.
      rewrite (st_bind_ret _ _ _ tt (to_string d ++ W.shape_text false shape ++ "]"%byte :: r)) by done.
      rewrite (st_bind_ret _ _ _ _ _ Hint). apply IH. cbn in Hf. lia.
Qed.

(** ** An entry *)

(** The text after the name and the colon. *)
Definition entry_body (dt : str) (shape : list Z) (o1 o2 : Z) (r : str) : str :=
  "{"%byte :: W.q (lit "dtype") ++ ":"%byte :: W.q dt ++
  ","%byte :: W.q (lit "shape") ++ ":"%byte :: "["%byte :: W.shape_text true shape ++ "]"%byte ::
  ","%byte :: W.q (lit "data_offsets") ++ ":"%byte :: "["%byte :: to_string o1 ++ ","%byte :: to_string o2 ++
  "]"%byte :: "}"%byte :: r.

Lemma entry_text_eq e off t :
  W.entry_text e off = Ret t ->
  exists dt, W.dtype_safetensors_name (we_dtype e) = Ret dt /\
    forall r, t ++ r = x22 :: escape (we_name e) ++ x22 :: ":"%byte :: entry_body dt (we_shape e) off.1 off.2 r.
Proof.
  unfold W.entry_text. destruct (W.dtype_safetensors_name _) as [dt|m|]; [|done..].
  intros [= <-]. exists dt. split; [done|]. intros r. rewrite json_escape_append_eq.
  unfold entry_body, W.q. by repeat (cbn [app]; rewrite <- app_assoc).
Qed.

Lemma dtype_text d dt : W.dtype_safetensors_name d = Ret dt ->
  d <> Unknown /\ parse_dtype dt = d /\ escape dt = dt.
Proof. destruct d; intros [= <-]; done. Qed.

Ltac step_ret a s' := rewrite (st_bind_ret _ _ _ a s') by done.
Ltac step_string k r := rewrite (st_bind_ret _ _ _ _ _ (parse_string_plain k r eq_refl)).

Lemma parse_int_sep n c r : 0 <= n <= INT64_MAX -> is_digit c = false -> parse_int (to_string n ++ c :: r) = (Ret n, c :: r).
Proof. intros Hn Hc. by apply parse_int_to_string. Qed.

Lemma parse_shape_field e shape r :
  seen_shape e = false -> e_shape (f_entry e) = [] -> Forall dim_ok shape ->
  parse_field (lit "shape") e ("["%byte :: W.shape_text true shape ++ "]"%byte :: r) =
  (Ret (mkFields (mkEntry (e_dtype (f_entry e)) shape (e_off_start (f_entry e)) (e_off_end (f_entry e)))
     (seen_dtype e) true (seen_offsets e)), r).
Proof.
  intros Hs H0 Hd. unfold parse_field. rewrite Hs. cbn [lit str_eqb]. 
  change (str_eqb (lit "shape") (lit "dtype")) with false. change (str_eqb (lit "shape") (lit "shape")) with true. cbv iota.
  step_ret tt (W.shape_text true shape ++ "]"%byte :: r).
  rewrite (st_bind_ret _ _ _ shape r); [done|]. unfold shape_loop_all. rewrite H0.
  rewrite shape_loop_text; [done|done|]. rewrite length_app. pose proof (shape_text_length true shape). cbn [length]. lia.
Qed.

Lemma parse_offsets_field e o1 o2 r :
  seen_offsets e = false -> 0 <= o1 <= INT64_MAX -> 0 <= o2 <= INT64_MAX ->
  parse_field (lit "data_offsets") e
    ("["%byte :: to_string o1 ++ ","%byte :: to_string o2 ++ "]"%byte :: r) =
  (Ret (mkFields (mkEntry (e_dtype (f_entry e)) (e_shape (f_entry e)) o1 o2)
     (seen_dtype e) (seen_shape e) true), r).
Proof.
  intros Hs H1 H2. unfold parse_field. rewrite Hs.
  change (str_eqb (lit "data_offsets") (lit "dtype")) with false.
  change (str_eqb (lit "data_offsets") (lit "shape")) with false.
  change (str_eqb (lit "data_offsets") (lit "data_offsets")) with true. cbv iota.
  step_ret tt (to_string o1 ++ ","%byte :: to_string o2 ++ "]"%byte :: r).
  rewrite (st_bind_ret _ _ _ _ _ (parse_int_sep o1 ","%byte _ H1 eq_refl)).
  step_ret tt (to_string o2 ++ "]"%byte :: r).
  rewrite (st_bind_ret _ _ _ _ _ (parse_int_sep o2 "]"%byte _ H2 eq_refl)).
  step_ret tt r. destruct (Z.ltb_spec o1 0); [lia|]. destruct (Z.ltb_spec o2 0); [lia|]. done.
Qed.

Lemma parse_dtype_field e d dt r :
  seen_dtype e = false -> W.dtype_safetensors_name d = Ret dt ->
  parse_field (lit "dtype") e (W.q dt ++ r) =
  (Ret (mkFields (mkEntry d (e_shape (f_entry e)) (e_off_start (f_entry e)) (e_off_end (f_entry e)))
     true (seen_shape e) (seen_offsets e)), r).
Proof.
  intros Hs Hd. destruct (dtype_text _ _ Hd) as (Hu & Hp & He). unfold parse_field. rewrite Hs.
  change (str_eqb (lit "dtype") (lit "dtype")) with true. cbv iota.
  rewrite (st_bind_ret _ _ _ _ _ (parse_string_plain dt r He)). rewrite Hp. by rewrite decide_False.
Qed.

(** One turn of [entry_loop] over a field. *)
Lemma entry_loop_field fuel (first : bool) k e e' s r :
  escape k = k -> parse_field k e s = (Ret e', r) ->
  entry_loop (S fuel) first e ((if first then [] else [","%byte]) ++ W.q k ++ ":"%byte :: s) = entry_loop fuel false e' r.
Proof.
  intros Hk He. cbn [entry_loop].
  set (s1 := (if first then [] else [","%byte]) ++ W.q k ++ ":"%byte :: s).
  assert (H1 : eat "}"%byte (skip_ws s1) = (Ret false, s1)) by (by destruct first).
  rewrite (st_bind_ret _ _ _ _ _ H1).
  assert (H2 : (if first then mret tt else expect ","%byte : st str unit) s1 = (Ret tt, W.q k ++ ":"%byte :: s)) by (by destruct first).
  rewrite (st_bind_ret _ _ _ _ _ H2).
  rewrite (st_bind_ret _ _ _ _ _ (parse_string_plain k _ Hk)). step_ret tt s.
  by rewrite (st_bind_ret _ _ _ _ _ He).
Qed.

Lemma parse_entry_text d dt shape o1 o2 r :
  W.dtype_safetensors_name d = Ret dt -> Forall dim_ok shape -> 0 <= o1 <= INT64_MAX -> 0 <= o2 <= INT64_MAX ->
  parse_entry (entry_body dt shape o1 o2 r) = (Ret (mkEntry d shape o1 o2), r).
Proof.
  intros Hd Hs H1 H2. unfold entry_body, parse_entry.
  set (s3 := to_string o1 ++ ","%byte :: to_string o2 ++ "]"%byte :: "}"%byte :: r).
  set (s2 := W.shape_text true shape ++ _). set (s1 := W.q dt ++ _). set (s0 := W.q (lit "dtype") ++ _).
  step_ret tt s0. rewrite (st_bind_ret _ _ _ (mkFields (mkEntry d shape o1 o2) true true true) r); [done|].
  unfold entry_loop_all. assert (Hlen : exists k, S (length s0) = S (S (S (S k)))).
  { exists (length s0 - 3)%nat. unfold s0, W.q. rewrite !length_app. cbn [length]. lia. }
  destruct Hlen as [k ->].
  etransitivity; [apply (entry_loop_field _ true (lit "dtype")); [done|by apply parse_dtype_field]|].
  etransitivity; [apply (entry_loop_field _ false (lit "shape")); [done|by apply parse_shape_field]|].
  etransitivity; [apply (entry_loop_field _ false (lit "data_offsets")); [done|by apply parse_offsets_field]|].
  done.
Qed.

(** ** The header *)

Lemma shape_product_ret name n shape m : W.shape_product name n shape = Ret m -> numel_from n shape = Ret m.
Proof.
  revert n. induction shape as [|d r IH]; intros n; cbn; [done|].
  destruct (d <? 0); [done|]. destruct (_ && _); [done|]. apply IH.
Qed.

(** What the validation of an entry establishes. *)
Definition entry_ok (e : WriteEntry) : Prop :=
  we_dtype e <> Unknown /\ 0 <= we_bytes e /\
  exists n, numel_from 1 (we_shape e) = Ret n /\ 0 <= n <= INT64_MAX /\
    we_bytes e = n * dtype_size_bytes (we_dtype e) /\ Forall (fun d => 0 <= d) (we_shape e).

(** The layout: consecutive ranges. *)
Fixpoint ranges (cursor : Z) (entries : list WriteEntry) : list (Z * Z) :=
  match entries with
  | [] => []
  | e :: r => (cursor, cursor + we_bytes e) :: ranges (cursor + we_bytes e) r
  end.

Definition total (entries : list WriteEntry) : Z := foldr (fun e n => we_bytes e + n) 0 entries.

Lemma validate_entry_ok e seen cursor u :
  0 <= cursor <= UINT64_MAX -> W.validate_entry e seen cursor = Ret u ->
  entry_ok e /\ (we_name e ∉ seen) /\ cursor + we_bytes e <= UINT64_MAX.
Proof.
  intros Hc. unfold W.validate_entry. case_if E1; [done|]. case_if E2; [done|]. 
  set (null := match we_host_data e with None => _ | Some _ => _ end). case_if E3; [done|]. case_if E4; [done|].
  destruct (W.shape_product _ _ _) as [n|m|] eqn:En; [|done..]. cbn -[UINT64_MAX SIZE_MAX].
  apply shape_product_ret in En. destruct (numel_from_spec 1 _ n ltac:(done) En) as (Hsh & _ & Hn).
  case_if E5; [done|]. case_if E6; [done|]. intros H. apply throw_if_ret in H.
  pose proof (dtype_size_range (we_dtype e)) as Hd. rewrite Z.gtb_ltb in *. bool_facts.
  unfold SIZE_MAX in *. rewrite (u64_id n), (u64_id (dtype_size_bytes _)) in * by (unfold INT64_MAX, UINT64_MAX in *; lia).
  rewrite (u64_id (UINT64_MAX - cursor)) in H by lia.
  assert (Hmul : n * dtype_size_bytes (we_dtype e) <= UINT64_MAX).
  { pose proof (Z.mul_div_le UINT64_MAX (dtype_size_bytes (we_dtype e)) ltac:(lia)). nia. }
  rewrite u64_id in E6 by lia. apply bool_decide_eq_false in E2. split; [|split; [done|lia]].
  split; [intros Hu; rewrite Hu in E4; cbn in E4; lia|]. split; [lia|]. exists n. by repeat split; try lia.
Qed.

Lemma layout_ok entries seen cursor offs :
  0 <= cursor <= UINT64_MAX -> W.layout entries seen cursor = Ret offs ->
  offs = ranges cursor entries /\ Forall entry_ok entries /\ NoDup (we_name <$> entries) /\
  Forall (fun e => we_name e ∉ seen) entries /\ cursor + total entries <= UINT64_MAX.
Proof.
  revert seen cursor offs. induction entries as [|e r IH]; intros seen cursor offs Hc; cbn [W.layout].
  { intros [= <-]. split; [done|]. do 3 (split; [constructor|]). unfold total. cbn [foldr]. lia. }
  destruct (W.validate_entry e seen cursor) as [u|m|] eqn:Ev; [|done..].
  destruct (validate_entry_ok _ _ _ _ Hc Ev) as (Hok & Hn & Hle). cbn [mbind res_bind].
  assert (0 <= we_bytes e) by apply Hok. rewrite u64_id by lia.
  destruct (W.layout r _ _) as [offs'|m|] eqn:Er; [|done..]. intros [= <-].
  destruct (IH _ (cursor + we_bytes e) _ ltac:(lia) Er) as (-> & Hr & Hnd & Hseen & Htot).
    split; [done|]. split; [by constructor|]. split; [|split].
  - cbn. constructor; [|done]. intros Hin. apply list_elem_of_fmap in Hin as (e' & E & Hin).
    rewrite Forall_forall in Hseen. apply (Hseen e' Hin). rewrite <- E. apply elem_of_union. left. by apply elem_of_singleton.
  - constructor; [done|]. eapply Forall_impl; [exact Hseen|]. intros x Hx Hin. apply Hx, elem_of_union. by right.
  - cbn. fold (total r). lia.
Qed.

(** What the header of a file written by [write_file] must be read as. *)
Fixpoint views (base : ptr) (cursor : Z) (entries : list WriteEntry) : list TensorView :=
  match entries with
  | [] => []
  | e :: r =>
      mkView (we_name e) (we_dtype e) (we_shape e) (ptr_add base cursor) (we_bytes e) ::
      views base (cursor + we_bytes e) r
  end.

(** Names the reader does not treat specially, and [int64_t] dimensions. *)
Definition readable_entry (e : WriteEntry) : Prop :=
  we_name e <> lit "__metadata__" /\ Forall (fun d => d <= INT64_MAX) (we_shape e).

Lemma total_nonneg entries : Forall entry_ok entries -> 0 <= total entries.
Proof. induction 1 as [|e r (_ & H & _) _ IH]; cbn; [lia|]. fold (total r). lia. Qed.

Lemma dims_ok e : entry_ok e -> readable_entry e -> Forall dim_ok (we_shape e).
Proof.
  intros (_ & _ & n & _ & _ & _ & Hlo) [_ Hhi]. apply Forall_forall. intros d Hd.
  rewrite Forall_forall in Hlo, Hhi. by split; [apply Hlo|apply Hhi].
Qed.

Lemma add_tensor_written e cursor base psize c :
  entry_ok e -> 0 <= cursor -> cursor + we_bytes e <= psize -> psize <= INT64_MAX ->
  F.c_index c !! we_name e = None ->
  F.add_tensor (we_name e) (mkEntry (we_dtype e) (we_shape e) cursor (cursor + we_bytes e)) base psize c =
  Ret (F.mkContents (F.c_tensors c ++ [mkView (we_name e) (we_dtype e) (we_shape e) (ptr_add base cursor) (we_bytes e)])
         (<[we_name e := length (F.c_tensors c)]> (F.c_index c)) (F.seen_metadata c)).
Proof.
  intros (Hu & Hb & n & Hn & Hnr & Hbn & _) Hc Hp Hmax Hnone. unfold F.add_tensor. cbn [e_off_end e_off_start e_dtype e_shape].
  replace (cursor + we_bytes e - cursor) with (we_bytes e) by lia.
  destruct (Z.ltb_spec (cursor + we_bytes e) cursor); [lia|].
  rewrite Z.gtb_ltb. destruct (Z.ltb_spec psize (cursor + we_bytes e)); [lia|]. cbn [orb].
  unfold numel. cbn [tv_shape tv_dtype tv_nbytes]. rewrite Hn. cbn [mbind res_bind].
  pose proof (dtype_size_range (we_dtype e)) as Hd. unfold SIZE_MAX, INT64_MAX, UINT64_MAX in *.
  assert (Hd0 : dtype_size_bytes (we_dtype e) <> 0) by (by destruct (we_dtype e)).
  rewrite (u64_id n), (u64_id (dtype_size_bytes _)), (u64_id (we_bytes e)) by (unfold UINT64_MAX; lia).
  destruct (Z.eqb_spec (dtype_size_bytes (we_dtype e)) 0); [done|]. rewrite Z.gtb_ltb.
  destruct (Z.ltb_spec (18446744073709551615 / dtype_size_bytes (we_dtype e)) n) as [Hlt|_]; cbn [orb].
  { assert (n <= 18446744073709551615 / dtype_size_bytes (we_dtype e)); [|lia].
    apply Z.div_le_lower_bound; lia. }
  rewrite u64_id by (unfold UINT64_MAX; lia). destruct (Z.eqb_spec (n * dtype_size_bytes (we_dtype e)) (we_bytes e)); [|lia].
  cbn [negb]. by rewrite Hnone.
Qed.

Lemma parse_member_written e cursor base psize c t r :
  W.entry_text e (cursor, cursor + we_bytes e) = Ret t -> entry_ok e -> readable_entry e ->
  0 <= cursor -> cursor + we_bytes e <= psize -> psize <= INT64_MAX -> F.c_index c !! we_name e = None ->
  F.parse_member base psize c (t ++ r) =
  (Ret (F.mkContents (F.c_tensors c ++ [mkView (we_name e) (we_dtype e) (we_shape e) (ptr_add base cursor) (we_bytes e)])
         (<[we_name e := length (F.c_tensors c)]> (F.c_index c)) (F.seen_metadata c)), r).
Proof.
  intros Ht Hok Hr Hc Hp Hmax Hnone. destruct (entry_text_eq _ _ _ Ht) as (dt & Hdt & ->). cbn [fst snd].
  unfold F.parse_member. rewrite (st_bind_ret _ _ _ _ _ (parse_string_escape (we_name e) _)).
  step_ret tt (entry_body dt (we_shape e) cursor (cursor + we_bytes e) r).
  destruct (str_eqb_spec (we_name e) (lit "__metadata__")) as [E|_]; [by apply Hr in E|].
  pose proof (proj1 (proj2 Hok)).
  rewrite (st_bind_ret _ _ _ _ _ (parse_entry_text (we_dtype e) dt (we_shape e) cursor (cursor + we_bytes e) r
             Hdt (dims_ok _ Hok Hr) ltac:(lia) ltac:(lia))).
  unfold st_lift. by rewrite add_tensor_written.
Qed.

Lemma header_loop_written entries : forall cursor base psize c fuel first body r,
  W.entries_text first (combine entries (ranges cursor entries)) = Ret body ->
  Forall entry_ok entries -> Forall readable_entry entries -> NoDup (we_name <$> entries) ->
  0 <= cursor -> cursor + total entries <= psize -> psize <= INT64_MAX ->
  index_ok c -> Forall (fun e => F.c_index c !! we_name e = None) entries -> (length entries < fuel)%nat ->
  exists idx, F.header_loop fuel first base psize c (body ++ "}"%byte :: r) =
      (Ret (F.mkContents (F.c_tensors c ++ views base cursor entries) idx (F.seen_metadata c)), r) /\
    index_ok (F.mkContents (F.c_tensors c ++ views base cursor entries) idx (F.seen_metadata c)).
Proof.
  induction entries as [|e es IH]; intros cursor base psize c fuel first body r Hb Hok Hrd Hnd Hc Hp Hmax Hi Hnone Hf;
    (destruct fuel as [|f]; [cbn in Hf; lia|]).
  - injection Hb as <-. exists (F.c_index c). cbn [app views]. rewrite app_nil_r. split; [|done]. by destruct c.
  - cbn [ranges combine W.entries_text] in Hb.
    destruct (W.entry_text e _) as [t|m|] eqn:Et; [|done..]. cbn [mbind res_bind] in Hb.
    destruct (W.entries_text false _) as [rest|m|] eqn:Er; [|done..]. injection Hb as <-.
    inversion_clear Hok as [|? ? Hoke Hoks]. inversion_clear Hrd as [|? ? Hrde Hrds].
    inversion_clear Hnone as [|? ? Hne Hnes]. cbn in Hnd. apply NoDup_cons in Hnd as [Hnin Hnd].
    cbn in Hp. fold (total es) in Hp. pose proof (total_nonneg es Hoks). pose proof (proj1 (proj2 Hoke)).
    rewrite <- !app_assoc. cbn [F.header_loop].
    set (s1 := (if first then [] else [","%byte]) ++ t ++ rest ++ "}"%byte :: r).
    assert (Ht : exists u, t = x22 :: u).
    { destruct (entry_text_eq _ _ _ Et) as (dt & _ & E). specialize (E []). rewrite app_nil_r in E. by eexists. }
    assert (H1 : eat "}"%byte (skip_ws s1) = (Ret false, s1)) by (unfold s1; destruct Ht as [u ->]; by destruct first).
    rewrite (st_bind_ret _ _ _ _ _ H1).
    assert (H2 : (if first then mret tt else expect ","%byte : st str unit) s1 = (Ret tt, t ++ rest ++ "}"%byte :: r))
      by (by destruct first).
    rewrite (st_bind_ret _ _ _ _ _ H2).
    rewrite (st_bind_ret _ _ _ _ _ (parse_member_written e cursor base psize c t _ Et Hoke Hrde Hc ltac:(lia) Hmax Hne)).
    pose proof (index_add c (mkView (we_name e) (we_dtype e) (we_shape e) (ptr_add base cursor) (we_bytes e))
                  (F.seen_metadata c) Hi Hne) as Hi'. cbn [tv_name] in Hi'.
    destruct (IH (cursor + we_bytes e) base psize _ f false rest r Er Hoks Hrds Hnd ltac:(lia) ltac:(lia) Hmax Hi')
      as (idx & E & Hidx); [|cbn in Hf; lia|].
    + cbn. apply Forall_forall. intros e' Hin. rewrite Forall_forall in Hnes.
      rewrite lookup_insert_ne; [by apply Hnes|]. intros E. apply Hnin. rewrite E. by apply list_elem_of_fmap_2.
    + exists idx. rewrite E. cbn in *. by rewrite <- app_assoc in *.
Qed.

(** ** The file *)

Lemma pad_header_spec fuel hdr : exists k, W.pad_header fuel hdr = hdr ++ replicate k x20.
Proof.
  revert hdr. induction fuel as [|f IH]; intros hdr; cbn [W.pad_header]; [exists 0%nat; by rewrite app_nil_r|].
  destruct (_ =? 0); [exists 0%nat; by rewrite app_nil_r|].
  destruct (IH (hdr ++ [x20])) as [k ->]. exists (S k). by rewrite <- app_assoc.
Qed.

Lemma skip_ws_spaces k : skip_ws (replicate k x20) = [].
Proof. by induction k. Qed.

Lemma parse_header_written entries cursor base psize hdr :
  W.header entries (ranges 0 entries) = Ret hdr -> cursor = 0 ->
  Forall entry_ok entries -> Forall readable_entry entries -> NoDup (we_name <$> entries) ->
  total entries <= psize -> psize <= INT64_MAX ->
  exists idx, (F.parse_header base psize hdr).1 = Ret (F.mkContents (views base 0 entries) idx false) /\
    index_ok (F.mkContents (views base 0 entries) idx false).
Proof.
  intros Hh -> Hok Hrd Hnd Hp Hmax. unfold W.header in Hh.
  destruct (W.entries_text true _) as [body|m|] eqn:Eb; [|done..].
  assert (E : W.pad_header 8 (lit "{" ++ body ++ lit "}") = hdr) by (by injection Hh). rewrite <- E. clear E Hh.
  destruct (pad_header_spec 8 (lit "{" ++ body ++ lit "}")) as [k ->]. rewrite <- !app_assoc.
  set (rest := body ++ "}"%byte :: replicate k x20). change (lit "{" ++ body ++ lit "}" ++ replicate k x20) with ("{"%byte :: rest).
  unfold F.parse_header. step_ret tt rest.
  assert (Hlen : (length entries <= length body)%nat).
  { clear -Eb. revert Eb. generalize true. generalize 0. revert body.
    induction entries as [|e es IH]; intros body z first; cbn [ranges combine W.entries_text]; [intros [= <-]; cbn; lia|].
    destruct (W.entry_text e _) as [t|m|] eqn:Et; [|done..]. cbn [mbind res_bind].
    destruct (W.entries_text false _) as [r|m|] eqn:Er; [|done..]. intros [= <-].
    apply IH in Er. destruct (entry_text_eq _ _ _ Et) as (dt & _ & E). specialize (E []). rewrite app_nil_r in E.
    rewrite E. rewrite !length_app. cbn [length]. lia. }
  destruct (header_loop_written entries 0 base psize (F.mkContents [] ∅ false) (S (length rest)) true body
              (replicate k x20) Eb Hok Hrd Hnd ltac:(lia) ltac:(lia) Hmax) as (idx & E & Hi).
  - intros name i. cbn. by rewrite lookup_empty.
  - apply Forall_forall. intros e _. apply lookup_empty.
  - unfold rest. rewrite length_app. lia.
  - exists idx. split; [|done]. cbn [F.c_tensors app F.seen_metadata] in E, Hi.
    change (F.header_loop_all base psize (F.mkContents [] ∅ false) rest =
      (Ret (F.mkContents (views base 0 entries) idx false), replicate k x20)) in E.
    rewrite (st_bind_ret _ _ _ _ _ E).
    rewrite (st_bind_ret _ _ _ tt []) by (unfold st_mod; by rewrite skip_ws_spaces). done.
Qed.

(** The bytes of an entry that go to the file. *)
Definition data (e : WriteEntry) : str :=
  match we_host_data e with Some mem => slice 0 (we_bytes e) mem | None => [] end.

Lemma fwrite_ret accepts flushes k bytes what path disk u disk' :
  W.fwrite accepts flushes k bytes what path disk = (Ret u, disk') -> disk' = (fun old => old ++ bytes) <$> disk.
Proof.
  unfold W.fwrite. destruct (Z.eqb_spec (Z.min (accepts k (zlen bytes)) (zlen bytes)) (zlen bytes)) as [E|]; [|done].
  intros [= _ <-]. rewrite E. by rewrite slice_all.
Qed.

Lemma data_empty e : we_bytes e = 0 -> data e = [].
Proof. unfold data. intros ->. by destruct (we_host_data e). Qed.

Lemma write_payload_ret accepts flushes k entries path disk u disk' :
  W.write_payload accepts flushes k entries path disk = (Ret u, disk') ->
  Forall entry_ok entries ->
  disk' = (fun old => old ++ (entries ≫= data)) <$> disk /\ Forall (fun e => zlen (data e) = we_bytes e) entries.
Proof.
  revert k disk. induction entries as [|e es IH]; intros k disk H Hok.
  { injection H as _ <-. split; [|done]. destruct disk; cbn; [by rewrite app_nil_r|done]. }
  inversion_clear Hok as [|? ? Hoke Hoks]. destruct Hoke as (_ & Hb & _). cbn [W.write_payload] in H.
  set (first := if we_bytes e =? 0 then _ else _) in H.
  destruct (first disk) as [[v|m|] d1] eqn:E1; unfold mbind, st_bind in H; rewrite E1 in H; [|done..].
  destruct (IH _ _ H Hoks) as [-> Hz].
  assert (Hd : d1 = (fun old => old ++ data e) <$> disk /\ zlen (data e) = we_bytes e).
  { subst first. destruct (Z.eqb_spec (we_bytes e) 0) as [Hz0|Hne].
    - injection E1 as _ <-. rewrite data_empty by done. split; [|done].
      destruct disk; cbn; [by rewrite app_nil_r|done].
    - unfold data. destruct (we_host_data e) as [mem|]; [|done].
      destruct (Z.leb_spec (we_bytes e) (zlen mem)); [|done]. apply fwrite_ret in E1. split; [done|].
      apply zlen_slice; lia. }
  destruct Hd as [-> Hz']. split; [|by constructor]. destruct disk; [|done]. cbn. f_equal. by rewrite <- app_assoc.
Qed.

Definition image_of (hdr : str) (entries : list WriteEntry) : str :=
  le_bytes 8 (u64 (zlen hdr)) ++ hdr ++ (entries ≫= data).

(** What closing the stream leaves of a file. *)
Definition flushed (flushes : Z -> Z) (img : str) : str := slice 0 (Z.min (flushes (zlen img)) (zlen img)) img.

(** What a successful [write_file] has validated and written. *)
Lemma write_file_ret can_open accepts flushes path entries disk img :
  W.write_file can_open accepts flushes path entries disk = (Ret tt, Some img) ->
  exists hdr, W.header entries (ranges 0 entries) = Ret hdr /\ img = flushed flushes (image_of hdr entries) /\
    Forall entry_ok entries /\ NoDup (we_name <$> entries) /\ Forall (fun e => zlen (data e) = we_bytes e) entries.
Proof.
  unfold W.write_file. unfold st_lift, mbind, st_bind. intros H.
  destruct (W.layout entries ∅ 0) as [offs|m|] eqn:El; [|done..].
  destruct (layout_ok _ _ 0 _ ltac:(unfold UINT64_MAX; lia) El) as (-> & Hok & Hnd & _ & _).
  destruct (W.header entries _) as [hdr|m|] eqn:Eh; [|done..]. destruct can_open; [|done]. cbn [negb] in H.
  unfold st_mod in H.
  destruct (W.fwrite _ _ 0 _ _ _ _) as [[u1|m|] d1] eqn:E1; [|done..]. apply fwrite_ret in E1 as ->.
  destruct (W.fwrite _ _ 1 _ _ _ _) as [[u2|m|] d2] eqn:E2; [|done..]. apply fwrite_ret in E2 as ->.
  destruct (W.write_payload _ _ 2 _ _ _) as [[u3|m|] d3] eqn:E3; [|done..]. apply write_payload_ret in E3 as [-> Hz]; [|done].
  exists hdr. injection H as <-. repeat split; try done.
Qed.

(** The writes do not depend on the closing. *)
Lemma write_payload_flush accepts f g k entries path disk u disk' :
  W.write_payload accepts f k entries path disk = (Ret u, disk') -> W.write_payload accepts g k entries path disk = (Ret u, disk').
Proof.
  revert k disk. induction entries as [|e es IH]; intros k disk; [done|]. cbn [W.write_payload]. unfold mbind, st_bind.
  destruct (we_bytes e =? 0); [apply IH|]. destruct (we_host_data e) as [mem|]; [|done].
  destruct (we_bytes e <=? zlen mem); [|done]. unfold W.fwrite. destruct (Z.min _ _ =? _); [apply IH|done].
Qed.

(** A flush that fails when the file is closed goes unnoticed: [write_file]
    returns as if all was well, and leaves the part that reached the disk. *)
Theorem write_ignores_close accepts flushes path entries disk img :
  W.write_file true accepts (fun n => n) path entries disk = (Ret tt, Some img) ->
  W.write_file true accepts flushes path entries disk = (Ret tt, Some (flushed flushes img)).
Proof.
  unfold W.write_file. unfold st_lift, mbind, st_bind.
  destruct (W.layout entries ∅ 0) as [offs|m|] eqn:El; [|done..].
  destruct (W.header entries _) as [hdr|m|] eqn:Eh; [|done..]. cbn [negb]. unfold st_mod, W.fwrite.
  destruct (Z.min _ _ =? _); [|done]. destruct (Z.min _ _ =? _); [|done].
  destruct (W.write_payload accepts (fun n => n) 2 _ _ _) as [[u|m|] d] eqn:E; [|done..].
  rewrite (write_payload_flush _ _ flushes _ _ _ _ _ _ E). unfold W.fclose, st_mod.
  destruct d as [s|]; cbn; [|done]. intros [= <-]. by rewrite Z.min_id, slice_all.
Qed.

(** ** The round trip *)

(** A tensor of an open file is what the entry was. *)
Definition reads_back (h : heap) (tv : TensorView) (e : WriteEntry) : Prop :=
  tv_name tv = we_name e /\ tv_dtype tv = we_dtype e /\ tv_shape tv = we_shape e /\
  tv_nbytes tv = we_bytes e /\ load_bytes h (tv_data tv) (tv_nbytes tv) = Some (data e).

Lemma views_read_back entries : forall h b pre post off cursor,
  h !! b = Some (mkBlock Dev.CPU0 (pre ++ (entries ≫= data) ++ post)) -> zlen pre = off + cursor -> 0 <= off + cursor ->
  Forall (fun e => zlen (data e) = we_bytes e) entries ->
  Forall2 (reads_back h) (views (Some (b, off)) cursor entries) entries.
Proof.
  induction entries as [|e es IH]; intros h b pre post off cursor Hb Hpre H0 Hz; cbn [views]; [constructor|].
  inversion_clear Hz as [|? ? Hze Hzs]. cbn [mbind list_bind] in Hb.
  constructor.
  - do 4 (split; [done|]). cbn. rewrite Hb. cbn [mbind option_bind blk_bytes].
    rewrite (proj2 (in_block_true _ _ _)).
    + cbn. f_equal. rewrite slice_app_r by lia. rewrite Hpre, Z.sub_diag, <- Hze.
      rewrite <- !app_assoc. apply slice_app_first.
    + cbn [blk_bytes]. rewrite !zlen_app. pose proof (zlen_nonneg (data e)). pose proof (zlen_nonneg (es ≫= data)).
      pose proof (zlen_nonneg post). unfold mbind in *. lia.
  - apply (IH h b (pre ++ data e) post); [|rewrite zlen_app; lia|pose proof (zlen_nonneg (data e)); lia|done].
    by rewrite <- !app_assoc in *.
Qed.

Lemma views_length base cursor entries : length (views base cursor entries) = length entries.
Proof. revert cursor. induction entries as [|e es IH]; intros cursor; cbn; auto. Qed.

Lemma zlen_payload entries : Forall (fun e => zlen (data e) = we_bytes e) entries -> zlen (entries ≫= data) = total entries.
Proof.
  induction 1 as [|e es He _ IH]; [done|]. change ((e :: es) ≫= data) with (data e ++ (es ≫= data)).
  by rewrite zlen_app, IH, He.
Qed.

(** Opening an image [write_file] made. *)
Lemma open_image `{L : LawfulSyscalls} path entries hdr o :
  can_map path (image_of hdr entries) o ->
  W.header entries (ranges 0 entries) = Ret hdr -> Forall entry_ok entries -> Forall readable_entry entries ->
  NoDup (we_name <$> entries) -> Forall (fun e => zlen (data e) = we_bytes e) entries ->
  exists f o', F.open path o = (Ret f, o') /\ Forall2 (reads_back (os_heap o')) (F.tensors f) entries /\
    index_ok (F.mkContents (F.tensors f) (f_index f) false).
Proof.
  intros Hmap Hh Hok Hrd Hnd Hz. set (img := image_of hdr entries) in *.
  assert (Hlen : zlen img = 8 + zlen hdr + total entries).
  { unfold img, image_of. rewrite !zlen_app, zlen_le_bytes, zlen_payload by done. lia. }
  pose proof (zlen_nonneg hdr). pose proof (total_nonneg _ Hok).
  destruct (map_file_can F.err path img o Hmap) as (fd & b & Em & Hmax); [intros E; rewrite E in Hlen; unfold zlen at 1 in Hlen; cbn [length] in Hlen; lia|].
  assert (Hu : u64 (zlen hdr) = zlen hdr) by (apply u64_id; unfold UINT64_MAX, INT64_MAX in *; lia).
  assert (H8 : le_int (slice 0 8 img) = zlen hdr).
  { unfold img, image_of. pose proof (slice_app_first (le_bytes 8 (u64 (zlen hdr))) (hdr ++ (entries ≫= data))) as E.
    rewrite zlen_le_bytes in E. change (Z.of_nat 8) with 8 in E. rewrite E, Hu.
    apply le_int_bytes. unfold INT64_MAX in *. lia. }
  destruct (parse_header_written entries 0 (Some (b, 8 + zlen hdr)) (total entries) hdr Hh eq_refl Hok Hrd Hnd
              ltac:(lia) ltac:(lia)) as (idx & Ep & Hi).
  assert (Hhdr : slice 8 (zlen hdr) img = hdr).
  { unfold img, image_of. rewrite slice_app_r by (by rewrite zlen_le_bytes). rewrite zlen_le_bytes.
    apply slice_app_first. }
  exists (mkFile fd (Some (b, 0)) (zlen img) (views (Some (b, 8 + zlen hdr)) 0 entries) idx), (with_mapping fd b img o).
  assert (Hb : os_heap (with_mapping fd b img o) !! b = Some (mkBlock Dev.CPU0 img))
    by (cbn; by rewrite lookup_insert, decide_True).
  split; [|split; [|done]].
  - unfold F.open. rewrite (st_bind_ret _ _ _ _ _ Em). cbn [m_size].
    destruct (Z.ltb_spec (zlen img) 8) as [Hlt|_]; [exfalso; clearbody img; lia|].
    rewrite (st_bind_ret st_get _ _ _ _ eq_refl). cbn [m_base].
    rewrite (load_full _ _ _ _ Hb) by (cbn [blk_bytes]; lia). cbn [blk_bytes]. rewrite slice_all, H8.
    rewrite !u64_id by (unfold UINT64_MAX, INT64_MAX in *; lia). rewrite Z.gtb_ltb.
    destruct (Z.ltb_spec (zlen img - 8) (zlen hdr)); [lia|]. rewrite Hhdr.
    replace (zlen img - 8 - zlen hdr) with (total entries) by lia. change (ptr_add (Some (b, 0)) (8 + zlen hdr)) with (Some (b, 8 + zlen hdr)).
    by rewrite Ep.
  - cbn [F.tensors f_tensors]. apply (views_read_back entries _ b (le_bytes 8 (u64 (zlen hdr)) ++ hdr) []).
    + rewrite Hb. unfold img, image_of. by rewrite app_nil_r, <- app_assoc.
    + rewrite zlen_app, zlen_le_bytes. lia.
    + lia.
    + done.
Qed.

Section RoundTrip.
Context `{L : LawfulSyscalls}.

(** C11: what is written is read back. If [write_file] succeeds and closing the
    file flushed all of it, then, whatever the names (any bytes but those of
    [__metadata__], quotes and control characters included), the dtypes and the
    shapes, opening the file gives the entries again: the same tensors in the same
    order with the same bytes, and each is found by its name. (What becomes of a
    tensor named [__metadata__]: [metadata_tensor_lost]; of a file whose last
    flush failed, which [write_file] does not notice: [write_ignores_close].) *)
Theorem write_open_round_trip can_open accepts flushes path entries disk img o :
  W.write_file can_open accepts flushes path entries disk = (Ret tt, Some img) -> (forall n, n <= flushes n) ->
  Forall readable_entry entries -> can_map path img o ->
  exists f o', F.open path o = (Ret f, o') /\
    Forall2 (reads_back (os_heap o')) (F.tensors f) entries /\
    Forall (fun e => exists tv, F.get f (we_name e) = Ret tv /\ reads_back (os_heap o') tv e) entries.
Proof.
  intros Hw Hfl Hrd Hmap. destruct (write_file_ret _ _ _ _ _ _ _ Hw) as (hdr & Hh & E0 & Hok & Hnd & Hz).
  unfold flushed in E0. rewrite Z.min_r, slice_all in E0 by apply Hfl. subst img.
  destruct (open_image path entries hdr o Hmap Hh Hok Hrd Hnd Hz) as (f & o' & E & Hall & Hi).
  exists f, o'. split; [done|]. split; [done|]. apply Forall_lookup. intros i e He.
  destruct (Forall2_lookup_r _ _ _ _ _ Hall He) as (tv & Ht & Hrb). exists tv. split; [|done].
  destruct Hrb as [Hn _]. unfold F.get, F.find.
  assert (Hix : f_index f !! we_name e = Some i).
  { apply (proj2 (Hi (we_name e) i)). cbn [F.c_tensors]. rewrite Ht. cbn. by rewrite Hn. }
  rewrite Hix. unfold F.tensors in Ht. by rewrite Ht.
Qed.
End RoundTrip.

Lemma write_open_round_trip_witness :
  exists f o', F.open (S := Ex.disk 3) (lit "p") Ex.start = (Ret f, o') /\
    Forall2 (reads_back (os_heap o')) (F.tensors f) Ex.entries.
Proof.
  assert (Hw : W.write_file true (fun _ n => n) (fun n => n) (lit "p") Ex.entries None = (Ret tt, Some Ex.image)) by by vm_compute.
  destruct (write_open_round_trip (L := Ex.disk_lawful 3 ltac:(lia)) _ _ _ _ _ _ _ Ex.start Hw) as (f & o' & E & H & _).
  - lia.
  - repeat constructor; [by intros [=]|done..].
  - eexists. split; [reflexivity|]. split; [done|]. by eexists.
  - exists f, o'. exact (conj E H).
Defined.

Module Meta.
Definition entries : list WriteEntry := [mkWriteEntry (lit "__metadata__") U8 [1] (Some [x07]) 1].
Definition image : str := Eval vm_compute in
  match (W.write_file true (fun _ n => n) (fun n => n) (lit "p") entries None).2 with Some s => s | None => [] end.
End Meta.

(** [write_file] accepts a tensor named [__metadata__], and the reader then
    skips it as the metadata entry: the tensor is lost without an error. *)
Theorem metadata_tensor_lost :
  exists entries img (S : Syscalls) path o f o', LawfulSyscalls S /\
    W.write_file true (fun _ n => n) (fun n => n) path entries None = (Ret tt, Some img) /\ can_map path img o /\
    entries <> [] /\ F.open path o = (Ret f, o') /\ F.tensors f = [].
Proof.
  exists Meta.entries, Meta.image, (IdealOs.calls 3 Meta.image), (lit "p"), Ex.start,
    (mkFile 3 (Some (1%positive, 0)) (zlen Meta.image) [] ∅), (with_mapping 3 1 Meta.image Ex.start).
  split; [apply IdealOs.os_lawful; [lia|by vm_compute]|]. split; [by vm_compute|].
  split; [eexists; split; [reflexivity|]; split; [done|by eexists]|]. split; [done|]. split; [by vm_compute|done].
Qed.
