(* ===== verification/Gguf.v ===== *)
(** * GGUF files

    src/gguf.cpp: the ggml type table, the bounds-checked [Reader], metadata
    values, [File] (open, lookup, lifetime of the mapping) and [shape_to_2d].
    The reader's state is its position in the bytes of the mapping; reading
    outside them would be undefined. *)
From S2P Require Import Prelude Dtype Device Heap MappedFile.

Definition fail {A} (msg : str) : res A := Throw (lit "gguf: " ++ msg).

(** ** ggml types *)

Record GgmlTypeInfo : Type := mkTypeInfo {
  gt_dtype : Dtype;
  gt_supported : bool;
  gt_block_size : Z;
  gt_type_size : Z
}.

Definition ggml_type_info (t : Z) : GgmlTypeInfo :=
  match t with
  | 0 => mkTypeInfo FP32 true 1 4
  | 1 => mkTypeInfo FP16 true 1 2
  | 2 => mkTypeInfo Q4_0 true 32 18
  | 3 => mkTypeInfo Q4_1 true 32 20
  | 6 => mkTypeInfo Q5_0 true 32 22
  | 7 => mkTypeInfo Q5_1 true 32 24
  | 8 => mkTypeInfo Q8_0 true 32 34
  | 9 => mkTypeInfo Q8_1 true 32 36
  | 10 => mkTypeInfo Q2_K true 256 82
  | 11 => mkTypeInfo Q3_K true 256 110
  | 12 => mkTypeInfo Q4_K true 256 144
  | 13 => mkTypeInfo Q5_K true 256 176
  | 14 => mkTypeInfo Q6_K true 256 210
  | 15 => mkTypeInfo Q8_K true 256 292
  | 30 => mkTypeInfo BF16 true 1 2
  | _ => mkTypeInfo FP32 false 0 0
  end.

(** ** Values *)

Inductive ValueType : Type :=
  | VU8 | VI8 | VU16 | VI16 | VU32 | VI32 | VF32 | VBool | VString | VArray | VU64 | VI64 | VF64.

#[export] Instance ValueType_eq_dec : EqDecision ValueType.
Proof. solve_decision. Defined.

(** [static_cast<ValueType>] of a number already known to be at most 12. *)
Definition value_type (n : Z) : ValueType :=
  match n with
  | 0 => VU8 | 1 => VI8 | 2 => VU16 | 3 => VI16 | 4 => VU32 | 5 => VI32 | 6 => VF32 | 7 => VBool
  | 8 => VString | 9 => VArray | 10 => VU64 | 11 => VI64 | _ => VF64
  end.

(** The [scalar] union: the member last written; a float by its bits. *)
Inductive Scalar : Type :=
  | SU8 (z : Z) | SI8 (z : Z) | SU16 (z : Z) | SI16 (z : Z) | SU32 (z : Z) | SI32 (z : Z)
  | SU64 (z : Z) | SI64 (z : Z) | SF32 (bits : Z) | SF64 (bits : Z) | SBool (b : bool).

#[local] Set Warnings "-register-all".

Inductive Value : Type := mkValue {
  v_type : ValueType;
  v_scalar : Scalar;
  v_str : str;
  v_array_elem_type : ValueType;
  v_array : list Value
}.

Definition scalar_value (t : ValueType) (s : Scalar) : Value := mkValue t s [] VU32 [].

(** ** Reader *)

Module Reader.
Section Bytes.
Context (bytes : str).

Definition size : Z := zlen bytes.

Definition need (n : Z) : st Z unit := fun pos =>
  ((if n >? u64 (size - pos) then fail (lit "unexpected EOF") else Ret tt), pos).

(** [memcpy(&v, base + pos, n); pos += n]. *)
Definition fetch (n : Z) : st Z str := fun pos =>
  if (0 <=? pos) && (0 <=? n) && (pos + n <=? size) then (Ret (slice pos n bytes), u64 (pos + n))
  else (Undef, pos).

Definition read_uint (n : Z) : st Z Z := _ ← need n; b ← fetch n; mret (le_int b).

Definition read_u8 := read_uint 1.
Definition read_i8 : st Z Z := v ← read_u8; mret (to_signed 8 v).
Definition read_u16 := read_uint 2.
Definition read_i16 : st Z Z := v ← read_u16; mret (to_signed 16 v).
Definition read_u32 := read_uint 4.
Definition read_i32 : st Z Z := v ← read_u32; mret (to_signed 32 v).
Definition read_u64 := read_uint 8.
Definition read_i64 : st Z Z := v ← read_u64; mret (to_signed 64 v).
Definition read_f32 : st Z Z := read_u32.
Definition read_f64 : st Z Z := read_u64.

Definition read_bool : st Z bool :=
  b ← read_u8;
  if negb (b =? 0) && negb (b =? 1) then st_lift (fail (lit "bool value not 0 or 1"))
  else mret (negb (b =? 0)).

Definition left_ : st Z Z := st_gets (fun pos => u64 (size - pos)).

Definition read_str : st Z str :=
  len ← read_u64;
  r ← left_;
  if len >? r then st_lift (fail (lit "unexpected EOF")) else fetch len.

Definition parse_scalar (type : ValueType) : st Z Value :=
  let sc {A} (c : A -> Scalar) (m : st Z A) : st Z Value := x ← m; mret (scalar_value type (c x)) in
  match type with
  | VU8 => sc SU8 read_u8
  | VI8 => sc SI8 read_i8
  | VU16 => sc SU16 read_u16
  | VI16 => sc SI16 read_i16
  | VU32 => sc SU32 read_u32
  | VI32 => sc SI32 read_i32
  | VF32 => sc SF32 read_f32
  | VBool => sc SBool read_bool
  | VU64 => sc SU64 read_u64
  | VI64 => sc SI64 read_i64
  | VF64 => sc SF64 read_f64
  | VString => s ← read_str; mret (mkValue VString (SU8 0) s VU32 [])
  | VArray => st_lift (fail (lit "internal: parse_scalar called with Array"))
  end.

(** [for (i = 0; i < n; ++i) push_back(...)]. *)
Fixpoint times {A} (n : nat) (m : st Z A) : st Z (list A) :=
  match n with
  | O => mret []
  | S k => x ← m; l ← times k m; mret (x :: l)
  end.

(** The recursion is at most 34 deep: [depth] goes up to 33 and throws. *)
Fixpoint parse_value (fuel : nat) (type : ValueType) (depth : Z) : st Z Value :=
  match fuel with
  | O => st_undef
  | S f =>
      if depth >? 32 then st_lift (fail (lit "nested array depth exceeds limit"))
      else if negb (bool_decide (type = VArray)) then parse_scalar type
      else
        elem_raw ← read_u32;
        if elem_raw >? 12 then st_lift (fail (lit "array element type out of range"))
        else
          len ← read_u64;
          r ← left_;
          if len >? r then st_lift (fail (lit "unexpected EOF"))
          else
            a ← times (Z.to_nat len) (parse_value f (value_type elem_raw) (depth + 1));
            mret (mkValue VArray (SU8 0) [] (value_type elem_raw) a)
  end.
End Bytes.
End Reader.

Definition align_up (x a : Z) : res Z :=
  if a <=? 1 then Ret x
  else
    let mask := u64 (a - 1) in
    if x >? u64 (SIZE_MAX - mask) then fail (lit "alignment rounding overflows size_t")
    else Ret (Z.land (u64 (x + mask)) (u64 (Z.lnot mask))).

(** ** [shape_to_2d] *)

Fixpoint check_dims (shape : list Z) : res unit :=
  match shape with
  | [] => Ret tt
  | d :: r =>
      if d <=? 0 then fail (lit "shape_to_2d: non-positive dimension")
      else if d >? 0x7FFFFFFF then fail (lit "shape_to_2d: dimension exceeds int range")
      else check_dims r
  end.

Fixpoint row_product (rows : Z) (shape : list Z) : res Z :=
  match shape with
  | [] => Ret rows
  | d :: r =>
      if rows >? 0x7FFFFFFF / d then fail (lit "shape_to_2d: row product overflows int")
      else row_product (rows * d) r
  end.

Definition shape_to_2d (shape : list Z) : res (Z * Z) :=
  match shape with
  | [] => fail (lit "shape_to_2d: empty shape")
  | d0 :: r =>
      _ ← check_dims shape;
      match r with
      | [] => Ret (i32 d0, 1)
      | _ => rows ← row_product 1 r; Ret (i32 rows, i32 d0)
      end
  end.

(** ** File *)

Record TensorInfo : Type := mkTensorInfo {
  ti_name : str;
  ti_shape : list Z;
  ti_ggml_type : Z;
  ti_dtype : Dtype;
  ti_dtype_supported : bool;
  ti_data : ptr;
  ti_nbytes : Z;
  ti_numel : Z
}.

(** What [open] reads: everything of [File] but the handles. *)
Record contents : Type := mkContents {
  version_ : Z;
  alignment_ : Z;
  metadata_ : list (str * Value);
  meta_index_ : gmap str nat;
  tensors_ : list TensorInfo;
  tensor_index_ : gmap str nat
}.

Definition contents0 : contents := mkContents 0 32 [] ∅ [] ∅.

Record File : Type := mkFile {
  f_file : Z;
  f_base : ptr;
  f_size : Z;
  f_contents : contents
}.

(** [index.emplace(key, i)]: an entry already there stays. *)
Definition emplace (key : str) (i : nat) (m : gmap str nat) : gmap str nat :=
  match m !! key with Some _ => m | None => <[key := i]> m end.

Module F.
Import Reader.

Definition handles (f : File) : Mapping := mkMapping (f_file f) (f_base f) (f_size f).
Definition default : File := mkFile 0 nullptr 0 contents0.
Definition release_ (f : File) : st os File := _ ← unmap_file (handles f); mret default.
Definition dtor (f : File) : st os unit := _ ← release_ f; mret tt.
(** Moved-from containers are empty, as the standard libraries leave them. *)
Definition move_ctor (o : File) : File * File := (o, default).
Definition move_assign (self : bool) (this o : File) : st os (File * File) :=
  if self then mret (this, this) else _ ← release_ this; mret (o, default).

Definition quote (s : str) : str := lit "'" ++ s ++ lit "'".

Section Parse.
Context (bytes : str) (base : ptr).

(** *** Metadata *)

Definition add_meta (key : str) (v : Value) (c : contents) : res contents :=
  let add a := mkContents (version_ c) a (metadata_ c ++ [(key, v)])
                 (emplace key (length (metadata_ c)) (meta_index_ c)) (tensors_ c) (tensor_index_ c) in
  if str_eqb key (lit "general.alignment") then
    match v_type v, v_scalar v with
    | VU32, SU32 a =>
        if (a =? 0) || negb (Z.land a (u32 (a - 1)) =? 0) then
          fail (lit "general.alignment must be a positive power of two")
        else Ret (add a)
    | _, _ => fail (lit "general.alignment must be u32")
    end
  else Ret (add (alignment_ c)).

Definition read_meta (c : contents) : st Z contents :=
  key ← read_str bytes;
  vt_raw ← read_u32 bytes;
  if vt_raw >? 12 then st_lift (fail (lit "metadata value type out of range"))
  else
    v ← parse_value bytes 34 (value_type vt_raw) 0;
    st_lift (add_meta key v c).

Fixpoint meta_loop (n : nat) (c : contents) : st Z contents :=
  match n with
  | O => mret c
  | S k => c' ← read_meta c; meta_loop k c'
  end.

(** *** Tensor infos *)

Record PendingTensor : Type := mkPending {
  pt_name : str;
  pt_shape : list Z;
  pt_ggml_type : Z;
  pt_offset : Z
}.

Definition read_pending : st Z PendingTensor :=
  name ← read_str bytes;
  n_dims ← read_u32 bytes;
  if (n_dims =? 0) || (n_dims >? 8) then st_lift (fail (lit "invalid tensor n_dims"))
  else
    shape ← times (Z.to_nat n_dims) (d ← read_u64 bytes; mret (i64 d));
    ggml_type ← read_u32 bytes;
    offset ← read_u64 bytes;
    mret (mkPending name shape ggml_type offset).

Fixpoint numel_from (name : str) (numel : Z) (shape : list Z) : res Z :=
  match shape with
  | [] => Ret numel
  | d :: r =>
      if d <=? 0 then fail (lit "tensor " ++ quote name ++ lit " has non-positive dim")
      else if numel >? INT64_MAX / d then fail (lit "tensor numel overflows int64")
      else numel_from name (numel * d) r
  end.

Definition tensor_nbytes (name : str) (gt : GgmlTypeInfo) (numel : Z) : res Z :=
  if gt_supported gt then
    if (gt_block_size gt >? 1) && negb (numel mod gt_block_size gt =? 0) then
      fail (lit "tensor " ++ quote name ++ lit " numel not multiple of block size")
    else
      let blocks := u64 numel / u64 (gt_block_size gt) in
      let tsize := u64 (gt_type_size gt) in
      if negb (tsize =? 0) && (blocks >? SIZE_MAX / tsize) then
        fail (lit "tensor " ++ quote name ++ lit " byte size overflows size_t")
      else Ret (u64 (blocks * tsize))
  else Ret 0.

Definition make_info (data_blob_start : Z) (pt : PendingTensor) : res TensorInfo :=
  let msize := zlen bytes in
  let name := pt_name pt in
  numel ← numel_from name 1 (pt_shape pt);
  let gt := ggml_type_info (pt_ggml_type pt) in
  nbytes ← tensor_nbytes name gt numel;
  let rel_off := u64 (pt_offset pt) in
  if (pt_offset pt >? msize) || (rel_off >? u64 (msize - data_blob_start)) then
    fail (lit "tensor " ++ quote name ++ lit " data out of bounds")
  else
    let abs_off := u64 (data_blob_start + rel_off) in
    if nbytes >? u64 (msize - abs_off) then
      fail (lit "tensor " ++ quote name ++ lit " data out of bounds")
    else
      Ret (mkTensorInfo name (pt_shape pt) (pt_ggml_type pt) (gt_dtype gt) (gt_supported gt)
             (ptr_add base abs_off) nbytes numel).

Definition add_tensor (info : TensorInfo) (c : contents) : contents :=
  mkContents (version_ c) (alignment_ c) (metadata_ c) (meta_index_ c) (tensors_ c ++ [info])
    (emplace (ti_name info) (length (tensors_ c)) (tensor_index_ c)).

Fixpoint info_loop (data_blob_start : Z) (pending : list PendingTensor) (c : contents) : res contents :=
  match pending with
  | [] => Ret c
  | pt :: r => info ← make_info data_blob_start pt; info_loop data_blob_start r (add_tensor info c)
  end.

(** From the magic to the last tensor. *)
Definition parse_file : st Z contents :=
  magic ← read_u32 bytes;
  if negb (magic =? 0x46554747) then st_lift (fail (lit "bad magic (not a GGUF file)"))
  else
    version ← read_u32 bytes;
    if negb (version =? 2) && negb (version =? 3) then
      st_lift (fail (lit "unsupported GGUF version " ++ to_string version))
    else
      tensor_count ← read_u64 bytes;
      meta_count ← read_u64 bytes;
      left1 ← left_ bytes;
      if meta_count >? left1 / 13 then st_lift (fail (lit "unexpected EOF"))
      else
        c ← meta_loop (Z.to_nat meta_count) (mkContents version 32 [] ∅ [] ∅);
        left2 ← left_ bytes;
        if tensor_count >? left2 / 32 then st_lift (fail (lit "unexpected EOF"))
        else
          pending ← times (Z.to_nat tensor_count) read_pending;
          pos ← st_get;
          data_blob_start ← st_lift (align_up pos (alignment_ c));
          if data_blob_start >? zlen bytes then st_lift (fail (lit "data blob start past end of file"))
          else st_lift (info_loop data_blob_start pending c).
End Parse.

Section Open.
Context `{S : Syscalls}.

Definition err (m : str) : str := lit "gguf: " ++ m.

Definition open (path : str) : st os File :=
  m ← map_file err path;
  if m_size m <? 24 then _ ← unmap_file m; st_throw (err (lit "file too small: " ++ quote path))
  else
    o ← st_get;
    match load_bytes (os_heap o) (m_base m) (m_size m) with
    | None => st_undef
    | Some bytes =>
        let f := mkFile (m_file m) (m_base m) (m_size m) in
        match (parse_file bytes (m_base m) 0).1 with
        | Ret c => mret (f c)
        | Throw e => _ ← dtor (f contents0); st_throw e
        | Undef => st_undef
        end
    end.
End Open.

Definition find_tensor (f : File) (name : str) : res (option TensorInfo) :=
  match tensor_index_ (f_contents f) !! name with
  | None => Ret None
  | Some i => match tensors_ (f_contents f) !! i with Some t => Ret (Some t) | None => Undef end
  end.

Definition get_tensor (f : File) (name : str) : res TensorInfo :=
  t ← find_tensor f name;
  match t with Some t => Ret t | None => fail (lit "no tensor named " ++ quote name) end.

Definition find_meta (f : File) (key : str) : res (option Value) :=
  match meta_index_ (f_contents f) !! key with
  | None => Ret None
  | Some i => match metadata_ (f_contents f) !! i with Some kv => Ret (Some kv.2) | None => Undef end
  end.

Definition get_meta (f : File) (key : str) : res Value :=
  v ← find_meta f key;
  match v with Some v => Ret v | None => fail (lit "no metadata key " ++ quote key) end.
End F.
