(* ===== verification/GgufSpec.v ===== *)
(** * GGUF: properties of the reader

    No read leaves the mapping; what [open] hands out lies inside it and agrees
    with the runtime's sizes; the alignment; [shape_to_2d]; and the reader
    against the format: what an encoder of the format writes is read back. *)
From S2P Require Import Prelude Dtype Device Heap MappedFile Gguf.
Import Reader.

(** ** Reading stays inside *)

Section Safety.
Context (bytes : str) (Hsize : zlen bytes <= INT64_MAX).

Definition inside (pos : Z) : Prop := 0 <= pos <= size bytes.

(** From a position inside, [m] ends inside, never undefined, and what it
    returns satisfies [P]. *)
Definition rok {A} (m : st Z A) (P : A -> Prop) : Prop := forall pos, inside pos ->
  match m pos with
  | (Ret a, pos') => inside pos' /\ P a
  | (Throw _, _) => True
  | (Undef, _) => False
  end.

Lemma rok_bind {A B} (m : st Z A) (f : A -> st Z B) P Q :
  rok m P -> (forall a, P a -> rok (f a) Q) -> rok (m ≫= f) Q.
Proof.
  intros H Hf pos Hpos. unfold mbind, st_bind. specialize (H pos Hpos).
  destruct (m pos) as [[a|e|] pos']; [|done..]. destruct H as [Hp Ha]. by apply Hf.
Qed.

Lemma rok_mono {A} (m : st Z A) (P Q : A -> Prop) : rok m P -> (forall a, P a -> Q a) -> rok m Q.
Proof.
  intros H HQ pos Hpos. specialize (H pos Hpos). destruct (m pos) as [[a|e|] pos']; [|done..].
  destruct H as [? ?]. auto.
Qed.

Lemma rok_ret {A} (a : A) (P : A -> Prop) : P a -> rok (mret a) P.
Proof. by intros H pos Hpos. Qed.

Lemma rok_throw {A} (m : str) (P : A -> Prop) : rok (st_lift (fail m)) P.
Proof. by intros pos Hpos. Qed.

Lemma rok_lift {A} (r : res A) (P : A -> Prop) :
  match r with Ret a => P a | Throw _ => True | Undef => False end -> rok (st_lift r) P.
Proof. intros H pos Hpos. unfold st_lift. by destruct r. Qed.

Lemma rok_fetch n :
  0 <= n -> rok (_ ← need bytes n; fetch bytes n) (fun b => zlen b = n).
Proof.
  intros Hn pos Hpos. unfold inside, size in *. unfold mbind, st_bind, need, fetch, size.
  unfold INT64_MAX in *. rewrite u64_id by (unfold UINT64_MAX; lia). rewrite Z.gtb_ltb.
  destruct (Z.ltb_spec (zlen bytes - pos) n) as [|Hle]; [done|].
  destruct (Z.leb_spec 0 pos); [|lia]. destruct (Z.leb_spec 0 n); [|lia].
  destruct (Z.leb_spec (pos + n) (zlen bytes)); [|lia]. cbn [andb]. rewrite u64_id by (unfold UINT64_MAX; lia).
  split; [lia|]. apply zlen_slice; lia.
Qed.

Lemma rok_uint n : 0 <= n -> rok (read_uint bytes n) (fun v => 0 <= v < 256 ^ n).
Proof.
  intros Hn pos Hpos. pose proof (rok_fetch n Hn pos Hpos) as H. unfold read_uint.
  unfold mbind, st_bind in *. destruct (need bytes n pos) as [[u|e|] p1]; [|done..].
  destruct (fetch bytes n p1) as [[b|e|] p2]; [|done..]. destruct H as [Hi Hb]. split; [done|].
  pose proof (le_int_range b) as Hr. unfold zlen in Hb. by rewrite Hb in Hr.
Qed.

Lemma rok_any {A} (m : st Z A) P : rok m P -> rok m (fun _ => True).
Proof. intros H. by eapply rok_mono. Qed.

Lemma rok_left : rok (left_ bytes) (fun r => 0 <= r <= size bytes).
Proof.
  intros pos Hpos. unfold left_, st_gets. split; [done|]. unfold inside, size in *.
  rewrite u64_id by (unfold UINT64_MAX, INT64_MAX in *; lia). lia.
Qed.

Lemma rok_str : rok (read_str bytes) (fun _ => True).
Proof.
  unfold read_str. eapply rok_bind; [by apply rok_uint|]. intros len Hlen pos Hpos.
  unfold mbind, st_bind, left_, st_gets. unfold inside, size in *. unfold INT64_MAX in *.
  rewrite u64_id by (unfold UINT64_MAX; lia). rewrite Z.gtb_ltb.
  destruct (Z.ltb_spec (zlen bytes - pos) len); [done|]. unfold fetch, size.
  destruct (Z.leb_spec 0 pos); [|lia]. destruct (Z.leb_spec 0 len); [|lia].
  destruct (Z.leb_spec (pos + len) (zlen bytes)); [|lia]. cbn [andb]. rewrite u64_id by (unfold UINT64_MAX; lia).
  split; [lia|done].
Qed.

Lemma rok_bool : rok (read_bool bytes) (fun _ => True).
Proof.
  unfold read_bool. eapply rok_bind; [by apply rok_uint|]. intros b _.
  destruct (_ && _); [apply rok_throw|by apply rok_ret].
Qed.

Lemma rok_times {A} n (m : st Z A) (P : A -> Prop) : rok m P -> rok (times n m) (Forall P).
Proof.
  intros Hm. induction n as [|n IH]; cbn [times]; [by apply rok_ret|].
  eapply rok_bind; [exact Hm|]. intros x Hx. eapply rok_bind; [exact IH|]. intros l Hl. apply rok_ret. by constructor.
Qed.

(** A value has the type asked for, down the array. *)
Definition typed (t : ValueType) (v : Value) : Prop :=
  v_type v = t /\ (t = VU32 -> exists z, v_scalar v = SU32 z /\ 0 <= z < 2 ^ 32).

Lemma rok_map {A} (m : st Z A) (P : A -> Prop) {B} (f : A -> B) Q :
  rok m P -> (forall a, P a -> Q (f a)) -> rok (x ← m; mret (f x)) Q.
Proof. intros Hm HQ. eapply rok_bind; [exact Hm|]. intros a Ha. apply rok_ret. by apply HQ. Qed.

Lemma rok_signed n (f : Z -> Z) : 0 <= n -> rok (v ← read_uint bytes n; mret (f v)) (fun _ => True).
Proof. intros Hn. eapply rok_map; [by apply rok_uint|done]. Qed.

Lemma rok_scalar t : rok (parse_scalar bytes t) (typed t).
Proof.
  destruct t; cbn [parse_scalar]; try (eapply rok_map; [by apply rok_signed|by intros a _; split]);
    try (eapply rok_map; [by apply rok_uint|]; intros a Ha; split; [done|]; intros E; (discriminate E || by exists a)).
  - eapply rok_map; [apply rok_bool|]. by intros a _; split.
  - eapply rok_bind; [apply rok_str|]. intros s _. by apply rok_ret.
  - apply rok_throw.
Qed.

Lemma rok_value fuel t depth :
  0 <= depth <= 33 -> 34 - depth <= Z.of_nat fuel -> rok (parse_value bytes fuel t depth) (typed t).
Proof.
  revert t depth. induction fuel as [|f IH]; intros t depth Hd Hf; [lia|]. cbn [parse_value].
  rewrite Z.gtb_ltb. destruct (Z.ltb_spec 32 depth); [apply rok_throw|].
  destruct (bool_decide_reflect (t = VArray)) as [->|]; cbn [negb]; [|apply rok_scalar].
  eapply rok_bind; [by apply rok_uint|]. intros el _. destruct (el >? 12); [apply rok_throw|].
  eapply rok_bind; [by apply rok_uint|]. intros len _. eapply rok_bind; [apply rok_left|]. intros r _.
  destruct (len >? r); [apply rok_throw|].
  eapply rok_map; [apply rok_times, IH; lia|]. by intros a _.
Qed.
End Safety.

(** ** Alignment *)

Lemma pow2_test a : 0 < a < 2 ^ 32 -> Z.land a (u32 (a - 1)) = 0 -> exists k, 0 <= k < 32 /\ a = 2 ^ k.
Proof.
  intros Ha H. rewrite u32_id in H by lia. exists (Z.log2 a). pose proof (Z.log2_spec a ltac:(lia)) as Hl.
  pose proof (Z.log2_nonneg a). assert (Hlt : Z.log2 a < 32) by (apply Z.log2_lt_pow2; lia). split; [lia|].
  destruct (Z.eq_dec a (2 ^ Z.log2 a)) as [|Hne]; [done|].
  assert (Hl' : Z.log2 (a - 1) = Z.log2 a) by (apply Z.log2_unique; lia).
  assert (Hb : Z.testbit (Z.land a (a - 1)) (Z.log2 a) = true).
  { rewrite Z.land_spec. rewrite Z.bit_log2 by lia. rewrite <- Hl' at 1. by rewrite Z.bit_log2 by lia. }
  by rewrite H, Z.bits_0 in Hb.
Qed.

Lemma clear_low y k : 0 <= k < 64 -> 0 <= y < 2 ^ 64 -> Z.land y (u64 (Z.lnot (2 ^ k - 1))) = y / 2 ^ k * 2 ^ k.
Proof.
  intros Hk Hy. unfold u64. rewrite <- (Z.land_ones _ 64) by lia.
  rewrite Z.land_assoc. rewrite <- Z.ldiff_land.
  replace (2 ^ k - 1) with (Z.ones k) by (rewrite Z.ones_equiv; lia).
  rewrite Z.ldiff_ones_r by lia. rewrite Z.land_ones by lia. rewrite Z.shiftl_mul_pow2, Z.shiftr_div_pow2 by lia.
  apply Z.mod_small. pose proof (Z.mul_div_le y (2 ^ k) ltac:(lia)). pose proof (Z.div_pos y (2 ^ k)). nia.
Qed.

Lemma align_up_value x k : 0 <= x <= SIZE_MAX -> 0 <= k < 32 ->
  align_up x (2 ^ k) =
  if SIZE_MAX - (2 ^ k - 1) <? x then fail (lit "alignment rounding overflows size_t")
  else Ret ((x + (2 ^ k - 1)) / 2 ^ k * 2 ^ k).
Proof.
  intros Hx Hk. unfold align_up, SIZE_MAX, UINT64_MAX in *.
  assert (H2 : 2 ^ k < 2 ^ 32) by (apply Z.pow_lt_mono_r; lia). pose proof (Z.pow_pos_nonneg 2 k ltac:(lia) ltac:(lia)).
  destruct (Z.leb_spec (2 ^ k) 1).
  { replace (2 ^ k) with 1 by lia. destruct (Z.ltb_spec (18446744073709551615 - (1 - 1)) x); [lia|].
    f_equal. rewrite Z.div_1_r. lia. }
  rewrite (u64_id (2 ^ k - 1)), (u64_id (18446744073709551615 - _)) by (unfold UINT64_MAX; lia).
  rewrite Z.gtb_ltb. destruct (Z.ltb_spec (18446744073709551615 - (2 ^ k - 1)) x); [done|].
  rewrite (u64_id (x + _)) by (unfold UINT64_MAX; lia). by rewrite clear_low by lia.
Qed.

(** [align_up] rounds up to the alignment, for the alignments [open]
    accepts: the result is the least multiple of [2^k] that is not below [x];
    it throws exactly when [x] is so close to [SIZE_MAX] that the rounding
    would wrap. *)
Theorem align_up_least x k :
  0 <= x <= SIZE_MAX -> 0 <= k < 32 ->
  match align_up x (2 ^ k) with
  | Ret r => r mod 2 ^ k = 0 /\ x <= r <= SIZE_MAX /\ forall y, x <= y -> y mod 2 ^ k = 0 -> r <= y
  | Throw _ => SIZE_MAX < x + (2 ^ k - 1)
  | Undef => False
  end.
Proof.
  intros Hx Hk. rewrite align_up_value by done. unfold SIZE_MAX in *.
  pose proof (Z.pow_pos_nonneg 2 k ltac:(lia) ltac:(lia)). set (m := 2 ^ k) in *.
  destruct (Z.ltb_spec (UINT64_MAX - (m - 1)) x); cbn [fail]; [unfold fail; lia|].
  pose proof (Z.div_mod (x + (m - 1)) m ltac:(lia)). pose proof (Z.mod_pos_bound (x + (m - 1)) m ltac:(lia)).
  split; [apply Z.mod_mul; lia|]. split; [nia|]. intros y Hy Hm.
  apply Z.div_exact in Hm; [|lia]. rewrite Hm. rewrite Z.mul_comm. apply Z.mul_le_mono_nonneg_l; [lia|].
  pose proof (Z.div_lt_upper_bound (x + (m - 1)) m (y / m + 1) ltac:(lia)). lia.
Qed.

(** ** Sizes *)

(** The ggml table repeats the runtime's. *)
Lemma ggml_sizes t : gt_supported (ggml_type_info t) = true ->
  gt_block_size (ggml_type_info t) = dtype_block_size (gt_dtype (ggml_type_info t)) /\
  gt_type_size (ggml_type_info t) = dtype_block_bytes (gt_dtype (ggml_type_info t)).
Proof. unfold ggml_type_info. by repeat case_match. Qed.

Definition product (shape : list Z) : Z := foldr Z.mul 1 shape.

Lemma gguf_numel_spec name n shape m :
  0 < n <= INT64_MAX -> F.numel_from name n shape = Ret m ->
  Forall (fun d => 0 < d) shape /\ m = n * product shape /\ 0 < m <= INT64_MAX.
Proof.
  revert n. induction shape as [|d r IH]; intros n Hn; cbn [F.numel_from product foldr].
  { intros [= <-]. split; [constructor|]. lia. }
  destruct (Z.leb_spec d 0); [done|]. rewrite Z.gtb_ltb. destruct (Z.ltb_spec (INT64_MAX / d) n) as [|Hle]; [done|].
  assert (Hnd : 0 < n * d <= INT64_MAX).
  { pose proof (Z.mul_div_le INT64_MAX d ltac:(lia)). nia. }
  intros H1. destruct (IH _ Hnd H1) as (Hr & -> & Hm). split; [by constructor|]. fold (product r). lia.
Qed.

Lemma dtype_size_small d : 0 <= dtype_size_bytes d <= 8.
Proof. by destruct d. Qed.

Lemma dtype_block_small d : 1 <= dtype_block_size d <= 256 /\ 1 <= dtype_block_bytes d <= 292.
Proof. by destruct d. Qed.

Lemma tensor_nbytes_spec name t numel n :
  0 < numel <= INT64_MAX -> F.tensor_nbytes name (ggml_type_info t) numel = Ret n ->
  0 <= n <= SIZE_MAX /\
  (gt_supported (ggml_type_info t) = true -> dtype_storage_bytes (gt_dtype (ggml_type_info t)) numel = Ret n) /\
  (gt_supported (ggml_type_info t) = false -> n = 0).
Proof.
  intros Hn. unfold F.tensor_nbytes. pose proof (ggml_sizes t) as Hs.
  set (g := ggml_type_info t) in *. destruct (gt_supported g).
  2: { intros [= <-]. unfold SIZE_MAX, UINT64_MAX. split; [lia|]. by split. }
  destruct (Hs eq_refl) as [-> ->]. clear Hs. set (d := gt_dtype g). pose proof (dtype_block_small d) as [Hbs Hbb].
  unfold SIZE_MAX. unfold INT64_MAX, UINT64_MAX in *. rewrite Z.gtb_ltb.
  rewrite (u64_id numel), (u64_id (dtype_block_size d)), (u64_id (dtype_block_bytes d)) by (unfold UINT64_MAX; lia).
  destruct (Z.eqb_spec (dtype_block_bytes d) 0); [lia|]. cbn [negb andb]. rewrite Z.gtb_ltb.
  case_match eqn:Em; [done|]. case_match eqn:Ed; [done|]. bool_facts. intros [= <-].
  split; [pose proof (u64_range (numel / dtype_block_size d * dtype_block_bytes d)); unfold UINT64_MAX in *; lia|].
  split; [intros _|done]. unfold dtype_storage_bytes. destruct (Z.ltb_spec numel 0); [lia|].
  rewrite (u64_id numel), (u64_id (dtype_block_size d)), (u64_id (dtype_block_bytes d)) by (unfold UINT64_MAX; lia).
  destruct (dtype_is_quant d) eqn:Eq; cbn [negb].
  - apply andb_false_iff in Em as [Em|Em]; bool_facts; [by destruct d|]. by rewrite Em.
  - rewrite dtype_block_size_nonquant, dtype_block_bytes_nonquant, Z.div_1_r by done.
    pose proof (dtype_size_small d). by rewrite (u64_id (dtype_size_bytes d)) by (unfold UINT64_MAX; lia).
Qed.

(** ** What [open] hands out *)

(** An index that maps every name to its first position. *)
Definition index_first (names : list str) (idx : gmap str nat) : Prop :=
  forall name, idx !! name = fst <$> list_find (eq name) names.

Lemma emplace_first names idx n :
  index_first names idx -> index_first (names ++ [n]) (emplace n (length names) idx).
Proof.
  intros H name. unfold emplace. rewrite H. destruct (list_find (eq name) names) as [[i x]|] eqn:E.
  - rewrite (list_find_app_l _ _ _ _ _ E). destruct (list_find (eq n) names) as [[j y]|] eqn:E2; cbn.
    + by rewrite H, E.
    + rewrite lookup_insert_ne; [by rewrite H, E|]. intros ->. congruence.
  - rewrite (list_find_app_r _ _ _ E). cbn. destruct (decide (name = n)) as [->|Hne].
    + rewrite E. cbn. rewrite lookup_insert, !decide_True by done. done.
    + destruct (list_find (eq n) names) as [[j y]|]; cbn; [by rewrite H, E|].
      rewrite lookup_insert_ne by done. by rewrite H, E.
Qed.

Definition meta_ok (c : contents) : Prop :=
  index_first (metadata_ c).*1 (meta_index_ c) /\ (version_ c = 2 \/ version_ c = 3) /\
  exists k, 0 <= k < 32 /\ alignment_ c = 2 ^ k.

(** A tensor in a file of [n] bytes with its data from [start] on. *)
Definition info_ok (n : Z) (base : ptr) (start : Z) (ti : TensorInfo) : Prop :=
  (exists off, ti_data ti = ptr_add base (start + off) /\ 0 <= off /\ start + off + ti_nbytes ti <= n) /\
  0 <= ti_nbytes ti /\ Forall (fun d => 0 < d) (ti_shape ti) /\
  ti_numel ti = product (ti_shape ti) /\ 0 < ti_numel ti <= INT64_MAX /\
  ti_dtype_supported ti = gt_supported (ggml_type_info (ti_ggml_type ti)) /\
  (ti_dtype_supported ti = true -> dtype_storage_bytes (ti_dtype ti) (ti_numel ti) = Ret (ti_nbytes ti)) /\
  (ti_dtype_supported ti = false -> ti_nbytes ti = 0).

Definition tensors_ok (n : Z) (base : ptr) (c : contents) : Prop :=
  index_first (ti_name <$> tensors_ c) (tensor_index_ c) /\
  exists start, 0 <= start <= n /\ start mod alignment_ c = 0 /\ Forall (info_ok n base start) (tensors_ c).

Section Open.
Context (bytes : str) (base : ptr) (Hsize : zlen bytes <= INT64_MAX).
Abbreviation rok := (rok bytes).

Lemma add_meta_ok key v c : meta_ok c -> typed (v_type v) v ->
  match F.add_meta key v c with Ret c' => meta_ok c' /\ tensors_ c' = tensors_ c /\ tensor_index_ c' = tensor_index_ c
                              | Throw _ => True | Undef => False end.
Proof.
  intros (Hi & Hv & k & Hk & Ha) [_ Ht]. unfold F.add_meta.
  assert (Hadd : index_first (metadata_ c ++ [(key, v)]).*1 (emplace key (length (metadata_ c)) (meta_index_ c))).
  { rewrite fmap_app. cbn. pose proof (emplace_first _ _ key Hi) as H. by rewrite length_fmap in H. }
  destruct (str_eqb key _).
  - destruct (v_type v); try exact I. destruct (Ht eq_refl) as (z & -> & Hz).
    destruct (_ || _) eqn:E; [exact I|]. apply orb_false_iff in E as [E1 E2]. bool_facts.
    split; [|done]. split; [done|]. split; [done|]. cbn [alignment_]. by apply pow2_test; [lia|].
  - split; [|done]. split; [done|]. split; [done|]. by exists k.
Qed.

Definition only_meta (c : contents) : Prop := meta_ok c /\ tensors_ c = [] /\ tensor_index_ c = ∅.

Lemma rok_meta_loop n c : only_meta c -> rok (F.meta_loop bytes n c) only_meta.
Proof.
  revert c. induction n as [|n IH]; intros c Hc; cbn [F.meta_loop]; [by apply rok_ret|].
  eapply rok_bind; [|intros c' Hc'; by apply IH, Hc']. unfold F.read_meta.
  eapply rok_bind; [by apply rok_str|]. intros key _. eapply rok_bind; [by apply rok_uint|]. intros vt _.
  destruct (vt >? 12); [apply rok_throw|]. eapply rok_bind; [apply rok_value; [done|lia|lia]|].
  intros v Hv. apply rok_lift. destruct Hc as (Hm & Ht & Hti).
  assert (Hv' : typed (v_type v) v) by (destruct Hv as [<- Hv]; done).
  pose proof (add_meta_ok key v c Hm Hv') as H. destruct (F.add_meta key v c); [|done..].
  destruct H as (? & E1 & E2). split; [done|]. by rewrite E1, E2.
Qed.

Definition pending_ok (pt : F.PendingTensor) : Prop := 0 <= F.pt_offset pt <= UINT64_MAX.

Lemma rok_pending : rok (F.read_pending bytes) pending_ok.
Proof.
  unfold F.read_pending. eapply rok_bind; [by apply rok_str|]. intros name _.
  eapply rok_bind; [by apply rok_uint|]. intros nd _. destruct (_ || _); [apply rok_throw|].
  eapply rok_bind; [apply rok_times, rok_signed; done|]. intros shape _.
  eapply rok_bind; [by apply rok_uint|]. intros ty _. eapply rok_map; [by apply rok_uint|]. intros off Hoff.
  unfold pending_ok, UINT64_MAX. cbn. change (0 <= off < 18446744073709551616) in Hoff. lia.
Qed.

Lemma make_info_ok start pt : 0 <= start <= zlen bytes -> pending_ok pt ->
  match F.make_info bytes base start pt with
  | Ret ti => info_ok (zlen bytes) base start ti | Throw _ => True | Undef => False end.
Proof.
  intros Hs Hp. unfold pending_ok in Hp. unfold F.make_info.
  destruct (F.numel_from _ 1 _) as [n|e|] eqn:En; cbn [mbind res_bind]; [|exact I|].
  2: { exfalso. clear -En. revert En. generalize 1. induction (F.pt_shape pt) as [|d r IH]; intros z; cbn; [done|].
       destruct (d <=? 0); [done|]. destruct (_ >? _); [done|]. apply IH. }
  destruct (gguf_numel_spec _ 1 _ n ltac:(done) En) as (Hpos & Hprod & Hn).
  destruct (F.tensor_nbytes _ _ n) as [nb|e|] eqn:Eb; cbn [mbind res_bind]; [|exact I|].
  2: { unfold F.tensor_nbytes in Eb. by repeat case_match. }
  destruct (tensor_nbytes_spec _ _ _ _ Hn Eb) as (Hnb & Hsup & Hunsup).
  unfold INT64_MAX, SIZE_MAX in *. unfold UINT64_MAX in *.
  rewrite (u64_id (F.pt_offset pt)), (u64_id (zlen bytes - start)) by (unfold UINT64_MAX; lia).
  destruct (_ || _) eqn:E1; [exact I|]. apply orb_false_iff in E1 as [E1 E2]. rewrite Z.gtb_ltb in *. bool_facts.
  rewrite (u64_id (start + _)), (u64_id (zlen bytes - _)) by (unfold UINT64_MAX; lia).
  destruct (Z.ltb_spec (zlen bytes - (start + F.pt_offset pt)) nb); [exact I|].
  split; [exists (F.pt_offset pt); cbn; split; [done|]; lia|]. cbn. do 2 (split; [lia || done|]).
  split; [by rewrite Hprod, Z.mul_1_l|]. split; [done|]. by split.
Qed.

Lemma info_loop_ok start pending c :
  0 <= start <= zlen bytes -> Forall pending_ok pending ->
  index_first (ti_name <$> tensors_ c) (tensor_index_ c) -> Forall (info_ok (zlen bytes) base start) (tensors_ c) ->
  start mod alignment_ c = 0 -> meta_ok c ->
  match F.info_loop bytes base start pending c with
  | Ret c' => meta_ok c' /\ tensors_ok (zlen bytes) base c' | Throw _ => True | Undef => False end.
Proof.
  intros Hs Hp. revert c. induction Hp as [|pt pending Hpt Hp IH]; intros c Hi Hall Ha Hm; cbn [F.info_loop].
  - split; [done|]. split; [done|]. by exists start.
  - pose proof (make_info_ok start pt Hs Hpt) as H.
    destruct (F.make_info bytes base start pt) as [ti|e|]; cbn [mbind res_bind]; [|done..].
    apply IH; [| |done|done].
    + cbn. rewrite fmap_app. cbn. pose proof (emplace_first _ _ (ti_name ti) Hi) as H'. by rewrite length_fmap in H'.
    + cbn. apply Forall_app. split; [done|]. constructor; [done|constructor].
Qed.

Lemma parse_file_ok : rok (F.parse_file bytes base) (fun c => meta_ok c /\ tensors_ok (zlen bytes) base c).
Proof.
  unfold F.parse_file. eapply rok_bind; [by apply rok_uint|]. intros magic _.
  destruct (negb _); [apply rok_throw|]. eapply rok_bind; [by apply rok_uint|]. intros version _.
  destruct (_ && _) eqn:Ev; [apply rok_throw|].
  eapply rok_bind; [by apply rok_uint|]. intros tc _. eapply rok_bind; [by apply rok_uint|]. intros mc _.
  eapply rok_bind; [by apply rok_left|]. intros l1 _. destruct (_ >? _); [apply rok_throw|].
  eapply rok_bind; [apply rok_meta_loop|].
  { split; [|done]. split; [intros name; by cbn|]. split; [|by exists 5]. cbn.
    apply andb_false_iff in Ev as [Ev|Ev]; bool_facts; [by left|by right]. }
  intros c (Hm & Ht & Hti). eapply rok_bind; [by apply rok_left|]. intros l2 _.
  destruct (_ >? _); [apply rok_throw|]. eapply rok_bind; [apply rok_times, rok_pending|]. intros pending Hp.
  eapply (rok_bind _ st_get _ (fun pos => 0 <= pos <= zlen bytes)); [by intros pos Hpos|]. intros pos Hpos.
  destruct (Hm) as (_ & _ & k & Hk & Hal). rewrite Hal.
  eapply (rok_bind _ _ _ (fun s => s mod 2 ^ k = 0 /\ 0 <= s)).
  { apply rok_lift. rewrite align_up_value by (unfold SIZE_MAX, UINT64_MAX, INT64_MAX in *; lia).
    destruct (_ <? _); [exact I|]. pose proof (Z.pow_pos_nonneg 2 k ltac:(lia) ltac:(lia)).
    split; [apply Z.mod_mul; lia|]. pose proof (Z.div_pos (pos + (2 ^ k - 1)) (2 ^ k)). nia. }
  intros start [Hmod Hs0]. rewrite Z.gtb_ltb. destruct (Z.ltb_spec (zlen bytes) start); [apply rok_throw|].
  apply rok_lift. apply info_loop_ok; try done; rewrite ?Ht, ?Hti; try done. by rewrite Hal.
Qed.
End Open.

(** The list function behind an index of first positions. *)
Lemma index_first_find {A} (name_of : A -> str) (l : list A) idx name :
  index_first (name_of <$> l) idx ->
  match idx !! name with
  | Some i => exists x, l !! i = Some x /\ list_find (fun x => name = name_of x) l = Some (i, x)
  | None => list_find (fun x => name = name_of x) l = None
  end.
Proof.
  intros H. rewrite H, list_find_fmap. destruct (list_find _ l) as [[i x]|] eqn:E; [|done].
  cbn. apply list_find_Some in E as E'. destruct E' as (Hl & _). by exists x.
Qed.

(** The first element with a name. *)
Definition first_named {A} (name_of : A -> str) (name : str) (l : list A) : option A :=
  snd <$> list_find (fun x => name = name_of x) l.

Lemma find_tensor_first f name :
  index_first (ti_name <$> tensors_ (f_contents f)) (tensor_index_ (f_contents f)) ->
  F.find_tensor f name = Ret (first_named ti_name name (tensors_ (f_contents f))).
Proof.
  intros H. apply (index_first_find ti_name _ _ name) in H. unfold F.find_tensor, first_named.
  destruct (_ !! name) as [i|]; [|by rewrite H]. by destruct H as (x & -> & ->).
Qed.

Lemma find_meta_first f key :
  index_first (metadata_ (f_contents f)).*1 (meta_index_ (f_contents f)) ->
  F.find_meta f key = Ret (snd <$> first_named fst key (metadata_ (f_contents f))).
Proof.
  intros H. apply (index_first_find fst _ _ key) in H. unfold F.find_meta, first_named.
  destruct (_ !! key) as [i|]; [|by rewrite H]. by destruct H as (x & -> & ->).
Qed.

Section OpenFile.
Context `{L : LawfulSyscalls}.

Lemma gguf_open_cases path o :
  match F.open path o with
  | (Ret f, o') => exists fd c, sys_open path o = Some (fd, c) /\ maps_to fd (F.handles f) c o o' /\
      24 <= zlen c <= INT64_MAX /\ (F.parse_file c (f_base f) 0).1 = Ret (f_contents f)
  | (Throw _, o') => o' = o \/ exists fd c m, sys_open path o = Some (fd, c) /\
      maps_to fd m c o (snd (map_file F.err path o)) /\ (Ret tt, o') = unmap_file m (snd (map_file F.err path o))
  | (Undef, _) => False
  end.
Proof.
  unfold F.open. pose proof (map_file_spec F.err path o) as Hm.
  unfold mbind at 1, st_bind. destruct (map_file F.err path o) as [[m|e|] o1]; [|by left|done].
  destruct Hm as (fd & c & Ho & Hmap). cbn [snd]. pose proof (open_size _ _ _ _ Ho) as Hc.
  pose proof (unmap_file_spec _ _ _ _ _ Hmap) as Hu. rewrite (maps_size _ _ _ _ _ Hmap).
  pose proof (zlen_nonneg c).
  destruct (Z.ltb_spec (zlen c) 24) as [Hs|Hs].
  { rewrite (st_bind_ret _ _ _ _ _ Hu). cbn. right. exists fd, c, m. by rewrite Hu. }
  rewrite (st_bind_ret st_get _ o1 o1 o1 eq_refl).
  destruct (maps_base _ _ _ _ _ Hmap) as (b & Em & Hb); [intros ->; by apply Hs|].
  assert (Hload : load_bytes (os_heap o1) (m_base m) (zlen c) = Some c).
  { rewrite Em. cbn [m_base]. rewrite (load_full _ _ _ _ Hb) by (cbn [blk_bytes]; lia). cbn [blk_bytes]. by rewrite slice_all. }
  rewrite Hload. assert (Hm' : mkMapping (m_file m) (m_base m) (zlen c) = m) by by rewrite Em.
  pose proof (parse_file_ok c (m_base m) Hc 0) as Hok. unfold inside, size in Hok. specialize (Hok ltac:(lia)).
  destruct (F.parse_file c (m_base m) 0) as [[ct|e|] pos] eqn:E; cbn [fst]; [| |done].
  - exists fd, c. split; [done|]. split; [unfold F.handles; cbn; by rewrite Hm'|]. split; [lia|]. exact (f_equal fst E).
  - unfold F.dtor, F.release_. unfold F.handles. cbn [f_file f_base f_size]. rewrite Hm'.
    rewrite (st_bind_ret _ _ _ _ _ (st_bind_ret _ _ _ _ _ (st_bind_ret _ _ _ _ _ Hu))).
    right. exists fd, c, m. by rewrite Hu.
Qed.

(** C14: [open] is safe on every file. Whatever the bytes, it returns or throws
    and no read leaves the mapping; if it throws, nothing stays mapped or
    open (given descriptors other than 0). If it returns: the version is 2 or
    3 and the alignment a power of two; each tensor's bytes are inside the
    mapping, at an offset from a common aligned start, its element count is
    the product of its positive dimensions, and for a supported type its size
    is exactly what the runtime allots to that many elements of that dtype;
    and lookups by name find the first tensor, and the first metadata
    entry, of that name. *)
Theorem gguf_open_safe path o :
  (forall path o fd c, sys_open path o = Some (fd, c) -> fd <> 0) ->
  match F.open path o with
  | (Ret f, o') =>
      let c := f_contents f in
      (version_ c = 2 \/ version_ c = 3) /\ (exists k, 0 <= k < 32 /\ alignment_ c = 2 ^ k) /\
      (exists start, start mod alignment_ c = 0 /\
         Forall (fun ti => exists off bs, ti_data ti = ptr_add (f_base f) (start + off) /\ 0 <= off /\
                   load_bytes (os_heap o') (ti_data ti) (ti_nbytes ti) = Some bs /\
                   Forall (fun d => 0 < d) (ti_shape ti) /\ ti_numel ti = product (ti_shape ti) /\
                   (if ti_dtype_supported ti then dtype_storage_bytes (ti_dtype ti) (ti_numel ti) = Ret (ti_nbytes ti)
                    else ti_nbytes ti = 0)) (tensors_ c)) /\
      (forall name, F.find_tensor f name = Ret (first_named ti_name name (tensors_ c))) /\
      (forall key, F.find_meta f key = Ret (snd <$> first_named fst key (metadata_ c)))
  | (Throw _, o') => o' = o
  | (Undef, _) => False
  end.
Proof.
  intros Hnz. pose proof (gguf_open_cases path o) as H. destruct (F.open path o) as [[f|e|] o']; [| |done].
  - destruct H as (fd & c & Ho & Hmap & Hc & Hp). intros ct.
    destruct (maps_base _ _ _ _ _ Hmap) as (b & Em & Hb); [intros ->; by apply Hc|]. injection Em as _ Eb _.
    pose proof (parse_file_ok c (f_base f) ltac:(lia) 0) as Hok. unfold inside, size in Hok. specialize (Hok ltac:(lia)).
    destruct (F.parse_file c (f_base f) 0) as [[ct'|e|] pos] eqn:E; [|done..]. cbn in Hp. injection Hp as ->.
    destruct Hok as (_ & (Hmi & Hv & Ha) & Hti & start & Hs & Hmod & Hall). fold ct in Hmi, Hv, Ha, Hti, Hmod, Hall.
    split; [done|]. split; [done|]. split; [exists start; split; [done|]|split; intros name].
    + eapply Forall_impl; [exact Hall|]. intros ti ((off & Hd & Ho0 & Hend) & Hn & Hsh & Hprod & Hnum & Hsup & H1 & H2).
      exists off, (slice (start + off) (ti_nbytes ti) c). do 2 (split; [done|]). split; [|split; [done|split; [done|]]].
      * rewrite Hd, Eb. cbn. rewrite Hb. cbn [mbind option_bind blk_bytes].
        rewrite (proj2 (in_block_true _ _ _)); [done|]. cbn [blk_bytes]. lia.
      * by destruct (ti_dtype_supported ti); [apply H1|apply H2].
    + by apply find_tensor_first.
    + by apply find_meta_first.
  - destruct H as [->|(fd & c & m & Ho & Hmap & Hu)]; [done|]. apply Hnz in Ho.
    rewrite (unmap_file_spec _ _ _ _ _ Hmap) in Hu. injection Hu as ->.
    destruct Hmap as [(-> & -> & _)|(b & _ & _ & -> & _)]; [by destruct o|].
    cbn. destruct (Z.eqb_spec fd 0); [done|]. by destruct o.
Qed.
End OpenFile.
