(* ===== verification/GgufRound.v ===== *)
(** * GGUF: the reader against the format

    An encoder of the format (the layout the documentation of GGUF gives:
    little-endian integers, strings and arrays with 64-bit lengths, metadata,
    tensor infos, padding, data), and that the reader reads back what it
    encodes. *)
From S2P Require Import Prelude Dtype Device Heap MappedFile Gguf GgufSpec.
Import Reader.

(** ** The encoder *)

Definition type_code (t : ValueType) : Z :=
  match t with
  | VU8 => 0 | VI8 => 1 | VU16 => 2 | VI16 => 3 | VU32 => 4 | VI32 => 5 | VF32 => 6 | VBool => 7
  | VString => 8 | VArray => 9 | VU64 => 10 | VI64 => 11 | VF64 => 12
  end.

Definition enc_str (s : str) : str := le_bytes 8 (zlen s) ++ s.

Definition enc_scalar (s : Scalar) : str :=
  match s with
  | SU8 z => le_bytes 1 z
  | SI8 z => le_bytes 1 (z mod 2 ^ 8)
  | SU16 z => le_bytes 2 z
  | SI16 z => le_bytes 2 (z mod 2 ^ 16)
  | SU32 z => le_bytes 4 z
  | SI32 z => le_bytes 4 (z mod 2 ^ 32)
  | SU64 z => le_bytes 8 z
  | SI64 z => le_bytes 8 (z mod 2 ^ 64)
  | SF32 b => le_bytes 4 b
  | SF64 b => le_bytes 8 b
  | SBool b => le_bytes 1 (if b then 1 else 0)
  end.

Fixpoint enc_value (v : Value) : str :=
  match v with
  | mkValue t s st et a =>
      match t with
      | VArray => le_bytes 4 (type_code et) ++ le_bytes 8 (zlen a) ++ concat (map enc_value a)
      | VString => enc_str st
      | _ => enc_scalar s
      end
  end.

(** A scalar of a type, in range. *)
Definition scalar_ok (t : ValueType) (s : Scalar) : Prop :=
  match t, s with
  | VU8, SU8 z => 0 <= z < 2 ^ 8
  | VI8, SI8 z => - 2 ^ 7 <= z < 2 ^ 7
  | VU16, SU16 z => 0 <= z < 2 ^ 16
  | VI16, SI16 z => - 2 ^ 15 <= z < 2 ^ 15
  | VU32, SU32 z => 0 <= z < 2 ^ 32
  | VI32, SI32 z => - 2 ^ 31 <= z < 2 ^ 31
  | VU64, SU64 z => 0 <= z < 2 ^ 64
  | VI64, SI64 z => - 2 ^ 63 <= z < 2 ^ 63
  | VF32, SF32 b => 0 <= b < 2 ^ 32
  | VF64, SF64 b => 0 <= b < 2 ^ 64
  | VBool, SBool _ => True
  | _, _ => False
  end.

(** A value with at most [room] levels, in the form the reader builds. *)
Fixpoint value_ok (room : nat) (v : Value) : Prop :=
  match room with
  | O => False
  | S r =>
      match v_type v with
      | VArray => v = mkValue VArray (SU8 0) [] (v_array_elem_type v) (v_array v) /\
          Forall (fun x => v_type x = v_array_elem_type v /\ value_ok r x) (v_array v)
      | VString => v = mkValue VString (SU8 0) (v_str v) VU32 [] /\ zlen (v_str v) < 2 ^ 64
      | t => v = scalar_value t (v_scalar v) /\ scalar_ok t (v_scalar v)
      end
  end.

Lemma type_code_range t : 0 <= type_code t <= 12.
Proof. by destruct t. Qed.

Lemma value_type_code t : value_type (type_code t) = t.
Proof. by destruct t. Qed.

(** ** Reading an encoding *)

Section Bytes.
Context (bytes : str) (Hsize : zlen bytes <= INT64_MAX).

(** What is left at a position. *)
Definition at_ (pos : Z) (s : str) : Prop :=
  0 <= pos /\ pos + zlen s = zlen bytes /\ drop (Z.to_nat pos) bytes = s.

Lemma at_app pos a s : at_ pos (a ++ s) -> at_ (pos + zlen a) s.
Proof.
  intros (H0 & Hl & Hd). rewrite zlen_app in Hl. pose proof (zlen_nonneg a). split; [lia|]. split; [lia|].
  rewrite Z2Nat.inj_add by lia. rewrite <- drop_drop, Hd. unfold zlen. by rewrite Nat2Z.id, drop_app_length.
Qed.

(** [m] reads [e] as [a]. *)
Definition reads {A} (m : st Z A) (e : str) (a : A) : Prop :=
  forall pos s, at_ pos (e ++ s) -> m pos = (Ret a, pos + zlen e).

Lemma reads_bind {A B} (m : st Z A) (f : A -> st Z B) e1 e2 a b :
  reads m e1 a -> reads (f a) e2 b -> reads (m ≫= f) (e1 ++ e2) b.
Proof.
  intros Hm Hf pos s Hat. rewrite <- app_assoc in Hat. rewrite (st_bind_ret _ _ _ _ _ (Hm _ _ Hat)).
  rewrite (Hf _ s (at_app _ _ _ Hat)). f_equal. rewrite zlen_app. lia.
Qed.

Lemma reads_ret {A} (a : A) : reads (mret a) [] a.
Proof. intros pos s _. unfold mret, st_ret. f_equal. unfold zlen. cbn. lia. Qed.

Lemma reads_map {A B} (m : st Z A) (f : A -> B) e a b : reads m e a -> f a = b -> reads (x ← m; mret (f x)) e b.
Proof.
  intros Hm <-. pose proof (reads_bind m (fun x => mret (f x)) e [] a (f a) Hm (reads_ret _)) as H.
  by rewrite app_nil_r in H.
Qed.

Lemma at_bounds pos s : at_ pos s -> 0 <= pos /\ pos + zlen s = zlen bytes.
Proof. intros (H0 & Hl & _). by split. Qed.

Lemma reads_fetch e : reads (fetch bytes (zlen e)) e e.
Proof.
  intros pos s (H0 & Hl & Hd). rewrite zlen_app in Hl. pose proof (zlen_nonneg e). pose proof (zlen_nonneg s).
  unfold fetch, size. destruct (Z.leb_spec 0 pos); [|lia]. destruct (Z.leb_spec 0 (zlen e)); [|lia].
  destruct (Z.leb_spec (pos + zlen e) (zlen bytes)); [|lia]. cbn [andb].
  rewrite u64_id by (unfold UINT64_MAX, INT64_MAX in *; lia). unfold slice. rewrite Hd.
  unfold zlen at 1. by rewrite Nat2Z.id, take_app_length.
Qed.

Lemma left_at pos s : at_ pos s -> left_ bytes pos = (Ret (zlen s), pos).
Proof.
  intros Hat. destruct (at_bounds _ _ Hat). pose proof (zlen_nonneg s). unfold left_, st_gets, size.
  do 2 f_equal. rewrite u64_id by (unfold UINT64_MAX, INT64_MAX in *; lia). lia.
Qed.

Lemma reads_uint n v : 0 <= v < 256 ^ Z.of_nat n -> reads (read_uint bytes (Z.of_nat n)) (le_bytes n v) v.
Proof.
  intros Hv pos s Hat. destruct (at_bounds _ _ Hat) as [H0 Hl]. rewrite zlen_app in Hl.
  assert (Hz : zlen (le_bytes n v) = Z.of_nat n) by (unfold zlen; by rewrite length_le_bytes).
  pose proof (zlen_nonneg s). unfold read_uint.
  rewrite (st_bind_ret _ _ _ tt pos).
  - pose proof (reads_fetch (le_bytes n v) pos s Hat) as Hf. rewrite Hz in Hf. rewrite (st_bind_ret _ _ _ _ _ Hf).
    rewrite le_int_bytes by done. by rewrite Hz.
  - unfold need, size. rewrite u64_id by (unfold UINT64_MAX, INT64_MAX in *; lia). rewrite Z.gtb_ltb.
    by destruct (Z.ltb_spec (zlen bytes - pos) (Z.of_nat n)); [lia|].
Qed.

Lemma reads_u8 v : 0 <= v < 2 ^ 8 -> reads (read_u8 bytes) (le_bytes 1 v) v.
Proof. apply (reads_uint 1). Qed.
Lemma reads_u16 v : 0 <= v < 2 ^ 16 -> reads (read_u16 bytes) (le_bytes 2 v) v.
Proof. apply (reads_uint 2). Qed.
Lemma reads_u32 v : 0 <= v < 2 ^ 32 -> reads (read_u32 bytes) (le_bytes 4 v) v.
Proof. apply (reads_uint 4). Qed.
Lemma reads_u64 v : 0 <= v < 2 ^ 64 -> reads (read_u64 bytes) (le_bytes 8 v) v.
Proof. apply (reads_uint 8). Qed.

(** A signed integer of [w] bits, through its unsigned representation. *)
Lemma reads_signed w (m : st Z Z) e z : 1 <= w -> - 2 ^ (w - 1) <= z < 2 ^ (w - 1) ->
  reads m e (z mod 2 ^ w) -> reads (v ← m; mret (to_signed w v)) e z.
Proof.
  intros Hw Hz Hm. eapply reads_map; [exact Hm|]. unfold to_signed. rewrite Z.mod_mod by lia.
  assert (E : 2 ^ w = 2 * 2 ^ (w - 1)) by (rewrite <- Z.pow_succ_r by lia; f_equal; lia).
  rewrite E. set (h := 2 ^ (w - 1)) in *. destruct (Z_lt_ge_dec z 0).
  - rewrite <- (Z.mod_add z 1), Z.mod_small by lia. destruct (Z.ltb_spec (z + 1 * (2 * h)) h); lia.
  - rewrite Z.mod_small by lia. destruct (Z.ltb_spec z h); lia.
Qed.

Lemma reads_str s : reads (read_str bytes) (enc_str s) s.
Proof.
  intros pos r Hat. unfold enc_str in *. pose proof (at_bounds _ _ Hat) as [H0 Hl]. rewrite !zlen_app in Hl.
  pose proof (zlen_nonneg s). pose proof (zlen_nonneg r). pose proof (zlen_nonneg (le_bytes 8 (zlen s))).
  unfold read_str. rewrite <- app_assoc in Hat.
  assert (Hu : 0 <= zlen s < 2 ^ 64) by (unfold INT64_MAX in *; lia).
  rewrite (st_bind_ret _ _ _ _ _ (reads_u64 _ Hu _ _ Hat)). apply at_app in Hat.
  rewrite (st_bind_ret _ _ _ _ _ (left_at _ _ Hat)). rewrite zlen_app, Z.gtb_ltb.
  destruct (Z.ltb_spec (zlen s + zlen r) (zlen s)); [lia|]. rewrite (reads_fetch s _ _ Hat).
  f_equal. rewrite zlen_app. lia.
Qed.

Lemma reads_bool (b : bool) : reads (read_bool bytes) (le_bytes 1 (if b then 1 else 0)) b.
Proof.
  unfold read_bool. pose proof (reads_u8 (if b then 1 else 0) ltac:(by destruct b)) as H.
  intros pos s Hat. rewrite (st_bind_ret _ _ _ _ _ (H _ _ Hat)). by destruct b.
Qed.

Lemma reads_times {A} (m : st Z A) (enc : A -> str) l :
  Forall (fun x => reads m (enc x) x) l -> reads (times (length l) m) (concat (map enc l)) l.
Proof.
  induction 1 as [|x l Hx _ IH]; cbn [length times map concat]; [apply reads_ret|].
  eapply reads_bind; [exact Hx|]. by eapply reads_map.
Qed.

Lemma reads_scalar t s : t <> VString -> t <> VArray -> scalar_ok t s ->
  reads (parse_scalar bytes t) (enc_scalar s) (scalar_value t s).
Proof.
  intros Ht1 Ht2 Hs. destruct t, s; try done; cbn [scalar_ok parse_scalar enc_scalar] in *;
    (eapply reads_map; [|reflexivity]).
  all: first [ by apply reads_u8 | by apply reads_u16 | by apply reads_u32 | by apply reads_u64 | by apply reads_bool | idtac ].
  all: apply reads_signed; [lia|lia|].
  - apply reads_u8. apply Z.mod_pos_bound. lia.
  - apply reads_u16. apply Z.mod_pos_bound. lia.
  - apply reads_u32. apply Z.mod_pos_bound. lia.
  - apply reads_u64. apply Z.mod_pos_bound. lia.
Qed.

Lemma enc_scalar_length t s : scalar_ok t s -> 1 <= zlen (enc_scalar s).
Proof. intros _. by destruct s. Qed.

Lemma enc_value_length room v : value_ok room v -> 1 <= zlen (enc_value v).
Proof.
  destruct room as [|r]; [done|]. destruct v as [t s st et a].
  destruct t; intros Hv; try (destruct Hv as [_ Hv]; by eapply enc_scalar_length);
    unfold enc_value; fold enc_value; unfold enc_str; rewrite !zlen_app.
  - pose proof (zlen_nonneg st). change (zlen (le_bytes 8 (zlen st))) with 8. lia.
  - pose proof (zlen_nonneg (concat (map enc_value a))). change (zlen (le_bytes 4 (type_code et))) with 4.
    pose proof (zlen_nonneg (le_bytes 8 (zlen a))). lia.
Qed.

Lemma concat_length {A} (enc : A -> str) k l : Forall (fun x => k <= zlen (enc x)) l -> zlen l * k <= zlen (concat (map enc l)).
Proof.
  induction 1 as [|x l Hx _ IH]; [done|]. cbn [map concat]. rewrite zlen_app, zlen_cons. lia.
Qed.

Lemma reads_value room v fuel depth :
  value_ok room v -> (room <= fuel)%nat -> 0 <= depth -> depth + Z.of_nat room <= 33 ->
  reads (parse_value bytes fuel (v_type v) depth) (enc_value v) v.
Proof.
  revert v fuel depth. induction room as [|r IH]; intros v fuel depth Hv Hf Hd Hr; [done|].
  destruct fuel as [|f]; [lia|]. cbn [parse_value]. rewrite Z.gtb_ltb. destruct (Z.ltb_spec 32 depth); [lia|].
  destruct v as [t s st et a]. cbn [v_type]. destruct (bool_decide_reflect (t = VArray)) as [->|Ht]; cbn [negb].
  2: { destruct t; try done; cbn in Hv; destruct Hv as [E Hs]; rewrite E;
       try (apply reads_scalar; [done|done|exact Hs]).
       cbn [parse_scalar enc_value]. eapply reads_map; [apply reads_str|done]. }
  destruct Hv as [E Ha]. cbn [v_array_elem_type v_array] in *. rewrite E. clear E.
  intros pos rest Hat. cbn [enc_value] in *. pose proof (type_code_range et) as Htc. pose proof (at_bounds _ _ Hat) as [H0 Hl].
  rewrite !zlen_app in Hl. pose proof (zlen_nonneg rest). pose proof (zlen_nonneg a).
  assert (Hlen : zlen a * 1 <= zlen (concat (map enc_value a))).
  { apply concat_length. eapply Forall_impl; [exact Ha|]. intros x [_ Hx]. by eapply enc_value_length. }
  pose proof (zlen_nonneg (le_bytes 4 (type_code et))). pose proof (zlen_nonneg (le_bytes 8 (zlen a))).
  rewrite <- !app_assoc in Hat. rewrite (st_bind_ret _ _ _ _ _ (reads_u32 (type_code et) ltac:(lia) _ _ Hat)). apply at_app in Hat.
  rewrite Z.gtb_ltb. destruct (Z.ltb_spec 12 (type_code et)); [lia|].
  rewrite (st_bind_ret _ _ _ _ _ (reads_u64 (zlen a) ltac:(unfold INT64_MAX in *; lia) _ _ Hat)). apply at_app in Hat.
  rewrite (st_bind_ret _ _ _ _ _ (left_at _ _ Hat)). rewrite zlen_app, Z.gtb_ltb.
  destruct (Z.ltb_spec (zlen (concat (map enc_value a)) + zlen rest) (zlen a)); [lia|].
  rewrite value_type_code. unfold zlen at 1. rewrite Nat2Z.id.
  assert (Hall : reads (times (length a) (parse_value bytes f et (depth + 1))) (concat (map enc_value a)) a).
  { apply reads_times. eapply Forall_impl; [exact Ha|]. intros x [<- Hx]. apply IH; [done|lia|lia|lia]. }
  rewrite (st_bind_ret _ _ _ _ _ (Hall _ _ Hat)). unfold mret, st_ret. f_equal. rewrite !zlen_app. lia.
Qed.
End Bytes.

(** ** Files *)

Definition enc_meta (kv : str * Value) : str := enc_str kv.1 ++ le_bytes 4 (type_code (v_type kv.2)) ++ enc_value kv.2.

Definition enc_pending (pt : F.PendingTensor) : str :=
  enc_str (F.pt_name pt) ++ le_bytes 4 (zlen (F.pt_shape pt)) ++ concat (map (le_bytes 8) (F.pt_shape pt)) ++
  le_bytes 4 (F.pt_ggml_type pt) ++ le_bytes 8 (F.pt_offset pt).

(** The alignment in force after the metadata. *)
Definition alignment_of (a : Z) (kvs : list (str * Value)) : Z :=
  foldl (fun a kv => if str_eqb kv.1 (lit "general.alignment") then
                       match v_scalar kv.2 with SU32 z => z | _ => a end else a) a kvs.

Definition enc_header (version : Z) (kvs : list (str * Value)) (pts : list F.PendingTensor) : str :=
  le_bytes 4 0x46554747 ++ le_bytes 4 version ++ le_bytes 8 (zlen pts) ++ le_bytes 8 (zlen kvs) ++
  concat (map enc_meta kvs) ++ concat (map enc_pending pts).

(** The padding that aligns the data. *)
Definition padding (n a : Z) : str := replicate (Z.to_nat ((n + (a - 1)) / a * a - n)) x00.

Definition encode (version : Z) (kvs : list (str * Value)) (pts : list F.PendingTensor) (blob : str) : str :=
  let h := enc_header version kvs pts in
  h ++ padding (zlen h) (alignment_of 32 kvs) ++ blob.

Definition meta_ok (kv : str * Value) : Prop :=
  value_ok 33 kv.2 /\
  (kv.1 = lit "general.alignment" -> exists k, 0 <= k < 32 /\ kv.2 = scalar_value VU32 (SU32 (2 ^ k))).

(** The bytes of a tensor's data. *)
Definition data_size (pt : F.PendingTensor) : Z :=
  let g := ggml_type_info (F.pt_ggml_type pt) in
  if gt_supported g then product (F.pt_shape pt) / gt_block_size g * gt_type_size g else 0.

(** A tensor info that describes data inside the blob. *)
Definition tensor_fits (blob : str) (pt : F.PendingTensor) : Prop :=
  let g := ggml_type_info (F.pt_ggml_type pt) in
  1 <= zlen (F.pt_shape pt) <= 8 /\ Forall (fun d => 1 <= d) (F.pt_shape pt) /\
  product (F.pt_shape pt) <= INT64_MAX /\ 0 <= F.pt_ggml_type pt < 2 ^ 32 /\
  (gt_supported g = true -> product (F.pt_shape pt) mod gt_block_size g = 0) /\
  0 <= F.pt_offset pt /\ F.pt_offset pt + data_size pt <= zlen blob.

Lemma product_pos shape : Forall (fun d => 1 <= d) shape -> 1 <= product shape.
Proof. induction 1 as [|d r Hd _ IH]; cbn; [lia|]. fold (product r). nia. Qed.

Lemma dims_small shape : Forall (fun d => 1 <= d) shape -> product shape <= INT64_MAX ->
  Forall (fun d => 0 <= d < 2 ^ 63) shape.
Proof.
  induction 1 as [|d r Hd Hr IH]; cbn; intros Hp; [constructor|]. fold (product r) in Hp.
  pose proof (product_pos r Hr). unfold INT64_MAX in *. constructor; [nia|apply IH; nia].
Qed.

Lemma numel_from_fits name n shape : Forall (fun d => 1 <= d) shape -> 1 <= n -> n * product shape <= INT64_MAX ->
  F.numel_from name n shape = Ret (n * product shape).
Proof.
  intros Hs. revert n. induction Hs as [|d r Hd Hr IH]; intros n Hn Hp; cbn [F.numel_from product foldr] in *; [f_equal; lia|].
  fold (product r) in *. pose proof (product_pos r Hr). destruct (Z.leb_spec d 0); [lia|]. rewrite Z.gtb_ltb.
  destruct (Z.ltb_spec (INT64_MAX / d) n) as [Hlt|_].
  { assert (n <= INT64_MAX / d); [|lia]. apply Z.div_le_lower_bound; nia. }
  rewrite IH by nia. f_equal. lia.
Qed.

Section File.
Context (bytes : str) (base : ptr) (Hsize : zlen bytes <= INT64_MAX).

Lemma reads_dims shape : Forall (fun d => 0 <= d < 2 ^ 63) shape ->
  reads bytes (times (length shape) (d ← read_u64 bytes; mret (i64 d))) (concat (map (le_bytes 8) shape)) shape.
Proof.
  intros Hs. apply reads_times. eapply Forall_impl; [exact Hs|]. intros d Hd. change (0 <= d < 2 ^ 63) in Hd.
  eapply reads_map; [apply reads_u64; [done|lia]|]. apply i64_id. lia.
Qed.

Lemma reads_pending blob pt : tensor_fits blob pt -> zlen blob <= INT64_MAX ->
  reads bytes (F.read_pending bytes) (enc_pending pt) pt.
Proof.
  intros (Hlen & Hd & Hp & Hty & _ & Ho & Hb) Hblob. unfold F.read_pending, enc_pending.
  assert (0 <= data_size pt).
  { unfold data_size. destruct (gt_supported _) eqn:E; [|lia]. destruct (ggml_sizes _ E) as [-> ->].
    pose proof (dtype_block_small (gt_dtype (ggml_type_info (F.pt_ggml_type pt)))).
    pose proof (product_pos _ Hd). apply Z.mul_nonneg_nonneg; [apply Z.div_pos; lia|lia]. }
  unfold INT64_MAX in *.
  eapply reads_bind; [by apply reads_str|]. eapply reads_bind; [apply reads_u32; [done|lia]|].
  destruct (Z.eqb_spec (zlen (F.pt_shape pt)) 0); [lia|]. rewrite Z.gtb_ltb.
  destruct (Z.ltb_spec 8 (zlen (F.pt_shape pt))); [lia|]. cbn [orb].
  eapply reads_bind; [unfold zlen; rewrite Nat2Z.id; apply reads_dims, dims_small; [done|by unfold INT64_MAX]|].
  eapply reads_bind; [apply reads_u32; [done|lia]|].
  eapply reads_map; [apply reads_u64; [done|lia]|]. by destruct pt.
Qed.

Lemma add_meta_enc kv c : meta_ok kv ->
  F.add_meta kv.1 kv.2 c = Ret (mkContents (version_ c) (alignment_of (alignment_ c) [kv]) (metadata_ c ++ [kv])
    (emplace kv.1 (length (metadata_ c)) (meta_index_ c)) (tensors_ c) (tensor_index_ c)).
Proof.
  destruct kv as [key v]. intros [_ Ha]. unfold F.add_meta, alignment_of. cbn [foldl fst snd] in *.
  destruct (str_eqb_spec key (lit "general.alignment")) as [E|]; [|done].
  destruct (Ha E) as (k & Hk & ->). cbn [v_type v_scalar scalar_value].
  pose proof (Z.pow_pos_nonneg 2 k ltac:(lia) ltac:(lia)). assert (2 ^ k < 2 ^ 32) by (apply Z.pow_lt_mono_r; lia).
  destruct (Z.eqb_spec (2 ^ k) 0); [lia|]. rewrite u32_id by lia.
  replace (2 ^ k - 1) with (Z.ones k) by (rewrite Z.ones_equiv; lia).
  rewrite Z.land_ones, Z.mod_same by lia. done.
Qed.

Lemma reads_meta kv c : meta_ok kv ->
  reads bytes (F.read_meta bytes c) (enc_meta kv)
    (mkContents (version_ c) (alignment_of (alignment_ c) [kv]) (metadata_ c ++ [kv])
       (emplace kv.1 (length (metadata_ c)) (meta_index_ c)) (tensors_ c) (tensor_index_ c)).
Proof.
  intros Hkv. unfold F.read_meta, enc_meta. pose proof (type_code_range (v_type kv.2)).
  eapply reads_bind; [by apply reads_str|]. eapply reads_bind; [apply reads_u32; [done|lia]|].
  rewrite Z.gtb_ltb. destruct (Z.ltb_spec 12 (type_code (v_type kv.2))); [lia|]. rewrite value_type_code.
  pose proof (reads_bind bytes (parse_value bytes 34 (v_type kv.2) 0)
                (fun v => st_lift (F.add_meta kv.1 v c)) (enc_value kv.2) [] kv.2) as Hb.
  rewrite app_nil_r in Hb. apply Hb; [apply (reads_value bytes Hsize 33); [apply Hkv|lia|lia|lia]|].
  intros pos s _. unfold st_lift. rewrite add_meta_enc by done. f_equal. unfold zlen. cbn. lia.
Qed.

Lemma reads_meta_loop kvs : forall c, Forall meta_ok kvs ->
  exists idx, reads bytes (F.meta_loop bytes (length kvs) c) (concat (map enc_meta kvs))
    (mkContents (version_ c) (alignment_of (alignment_ c) kvs) (metadata_ c ++ kvs) idx (tensors_ c) (tensor_index_ c)).
Proof.
  induction kvs as [|kv kvs IH]; intros c Hk; cbn [length F.meta_loop map concat].
  - exists (meta_index_ c). rewrite app_nil_r. destruct c. apply reads_ret.
  - inversion_clear Hk as [|? ? Hkv Hkvs].
    destruct (IH (mkContents (version_ c) (alignment_of (alignment_ c) [kv]) (metadata_ c ++ [kv])
       (emplace kv.1 (length (metadata_ c)) (meta_index_ c)) (tensors_ c) (tensor_index_ c)) Hkvs) as [idx Hi].
    exists idx. eapply reads_bind; [by apply reads_meta|]. cbn in Hi. by rewrite <- app_assoc in Hi.
Qed.

Lemma data_size_bytes pt blob : tensor_fits blob pt -> zlen blob <= INT64_MAX -> forall name,
  F.tensor_nbytes name (ggml_type_info (F.pt_ggml_type pt)) (product (F.pt_shape pt)) = Ret (data_size pt) /\
  0 <= data_size pt.
Proof.
  intros (Hlen & Hd & Hp & Hty & Hm & Ho & Hb) Hblob name. unfold F.tensor_nbytes, data_size in *.
  pose proof (ggml_sizes (F.pt_ggml_type pt)) as Hs. set (g := ggml_type_info _) in *.
  destruct (gt_supported g); [|split; [done|lia]]. specialize (Hm eq_refl).
  destruct (Hs eq_refl) as [Eb Et]. pose proof (dtype_block_small (gt_dtype g)) as [H1 H2]. rewrite <- Eb, <- Et in *.
  clear Hs. pose proof (product_pos _ Hd). rewrite Hm. unfold INT64_MAX, SIZE_MAX, UINT64_MAX in *.
  rewrite (u64_id (product _)), (u64_id (gt_block_size g)), (u64_id (gt_type_size g)) by (unfold UINT64_MAX; lia).
  rewrite andb_false_r. assert (0 <= product (F.pt_shape pt) / gt_block_size g) by (apply Z.div_pos; lia).
  destruct (Z.eqb_spec (gt_type_size g) 0); [lia|]. cbn [negb andb]. rewrite Z.gtb_ltb.
  assert (Hfit : product (F.pt_shape pt) / gt_block_size g * gt_type_size g <= 9223372036854775807) by lia.
  destruct (Z.ltb_spec (18446744073709551615 / gt_type_size g) (product (F.pt_shape pt) / gt_block_size g)) as [Hlt|_].
  { assert (product (F.pt_shape pt) / gt_block_size g <= 18446744073709551615 / gt_type_size g); [|lia].
    apply Z.div_le_lower_bound; nia. }
  split; [|nia]. rewrite u64_id by (unfold UINT64_MAX; nia). done.
Qed.

(** The info [open] makes of a tensor. *)
Definition info_of (start : Z) (pt : F.PendingTensor) : TensorInfo :=
  let g := ggml_type_info (F.pt_ggml_type pt) in
  mkTensorInfo (F.pt_name pt) (F.pt_shape pt) (F.pt_ggml_type pt) (gt_dtype g) (gt_supported g)
    (ptr_add base (start + F.pt_offset pt)) (data_size pt) (product (F.pt_shape pt)).

Lemma make_info_fits blob start pt : tensor_fits blob pt -> 0 <= start -> start + zlen blob = zlen bytes ->
  F.make_info bytes base start pt = Ret (info_of start pt).
Proof.
  intros Hf Hs Hl. pose proof (zlen_nonneg blob).
  destruct (data_size_bytes pt blob Hf ltac:(unfold INT64_MAX in *; lia) (F.pt_name pt)) as [Hnb Hds].
  destruct Hf as (Hlen & Hd & Hp & Hty & Hm & Ho & Hb). unfold F.make_info.
  rewrite (numel_from_fits _ 1) by (done || lia). cbn [mbind res_bind]. rewrite Z.mul_1_l, Hnb. cbn [mbind res_bind].
  unfold INT64_MAX in *. rewrite (u64_id (F.pt_offset pt)), (u64_id (zlen bytes - start)) by (unfold UINT64_MAX; lia).
  rewrite !Z.gtb_ltb. destruct (Z.ltb_spec (zlen bytes) (F.pt_offset pt)); [lia|].
  destruct (Z.ltb_spec (zlen bytes - start) (F.pt_offset pt)); [lia|]. cbn [orb].
  rewrite (u64_id (start + _)), (u64_id (zlen bytes - _)) by (unfold UINT64_MAX; lia).
  destruct (Z.ltb_spec (zlen bytes - (start + F.pt_offset pt)) (data_size pt)); [lia|]. done.
Qed.

Lemma info_loop_fits blob start pts : forall c, Forall (tensor_fits blob) pts -> 0 <= start ->
  start + zlen blob = zlen bytes ->
  exists idx, F.info_loop bytes base start pts c =
    Ret (mkContents (version_ c) (alignment_ c) (metadata_ c) (meta_index_ c) (tensors_ c ++ map (info_of start) pts) idx).
Proof.
  induction pts as [|pt pts IH]; intros c Hall Hs Hl; cbn [F.info_loop map].
  - exists (tensor_index_ c). rewrite app_nil_r. by destruct c.
  - inversion_clear Hall as [|? ? Hpt Hpts]. rewrite (make_info_fits blob) by done. cbn [mbind res_bind].
    destruct (IH (F.add_tensor (info_of start pt) c) Hpts Hs Hl) as [idx ->]. exists idx. cbn. by rewrite <- app_assoc.
Qed.
End File.

Lemma alignment_pow2 kvs a : (exists k, 0 <= k < 32 /\ a = 2 ^ k) -> Forall meta_ok kvs ->
  exists k, 0 <= k < 32 /\ alignment_of a kvs = 2 ^ k.
Proof.
  intros Ha Hk. revert a Ha. induction Hk as [|kv kvs Hkv _ IH]; intros a Ha; [done|].
  change (alignment_of a (kv :: kvs)) with (alignment_of (alignment_of a [kv]) kvs). apply IH.
  unfold alignment_of. cbn [foldl].
  destruct (str_eqb_spec kv.1 (lit "general.alignment")) as [E|]; [|done].
  destruct Hkv as [_ Hal]. destruct (Hal E) as (k & Hk & ->). by exists k.
Qed.

Lemma padding_length n k : 0 <= n -> 0 <= k < 32 ->
  let start := (n + (2 ^ k - 1)) / 2 ^ k * 2 ^ k in
  n <= start < n + 2 ^ k /\ zlen (padding n (2 ^ k)) = start - n.
Proof.
  intros Hn Hk start. pose proof (Z.pow_pos_nonneg 2 k ltac:(lia) ltac:(lia)).
  pose proof (Z.div_mod (n + (2 ^ k - 1)) (2 ^ k) ltac:(lia)).
  pose proof (Z.mod_pos_bound (n + (2 ^ k - 1)) (2 ^ k) ltac:(lia)).
  assert (n <= start < n + 2 ^ k) by (unfold start; nia). split; [done|].
  unfold padding, zlen. rewrite length_replicate. fold start. lia.
Qed.

Lemma enc_meta_length kv : meta_ok kv -> 13 <= zlen (enc_meta kv).
Proof.
  intros [Hv _]. unfold enc_meta, enc_str. rewrite !zlen_app, !zlen_le_bytes.
  pose proof (enc_value_length _ _ Hv). pose proof (zlen_nonneg kv.1). lia.
Qed.

Lemma enc_pending_length blob pt : tensor_fits blob pt -> 32 <= zlen (enc_pending pt).
Proof.
  intros (Hlen & _). unfold enc_pending, enc_str. rewrite !zlen_app, !zlen_le_bytes.
  pose proof (zlen_nonneg (F.pt_name pt)).
  pose proof (concat_length (le_bytes 8) 8 (F.pt_shape pt)
    ltac:(apply Forall_forall; intros d _; by rewrite zlen_le_bytes)). lia.
Qed.

(** Where the data starts. *)
Definition data_start (version : Z) (kvs : list (str * Value)) (pts : list F.PendingTensor) : Z :=
  let a := alignment_of 32 kvs in (zlen (enc_header version kvs pts) + (a - 1)) / a * a.

(** How an encoded file is laid out. *)
Lemma encode_layout version kvs pts blob :
  Forall meta_ok kvs -> Forall (tensor_fits blob) pts ->
  exists k pad, 0 <= k < 32 /\ alignment_of 32 kvs = 2 ^ k /\
    let h := enc_header version kvs pts in
    let start := data_start version kvs pts in
    encode version kvs pts blob = h ++ pad ++ blob /\ zlen h + zlen pad = start /\
    start = (zlen h + (2 ^ k - 1)) / 2 ^ k * 2 ^ k /\
    zlen h = 24 + zlen (concat (map enc_meta kvs)) + zlen (concat (map enc_pending pts)) /\
    zlen kvs * 13 <= zlen (concat (map enc_meta kvs)) /\ zlen pts * 32 <= zlen (concat (map enc_pending pts)).
Proof.
  intros Hkvs Hpts. destruct (alignment_pow2 kvs 32 ltac:(by exists 5) Hkvs) as (k & Hk & Ha).
  set (h := enc_header version kvs pts). pose proof (zlen_nonneg h).
  destruct (padding_length (zlen h) k ltac:(lia) Hk) as [Hstart Hpad].
  exists k, (padding (zlen h) (2 ^ k)). do 2 (split; [done|]). unfold encode, data_start. fold h. rewrite Ha.
  do 2 (split; [done || lia|]). split; [done|]. split.
  - unfold h, enc_header. rewrite !zlen_app, !zlen_le_bytes. lia.
  - split; apply concat_length; [eapply Forall_impl; [exact Hkvs|apply enc_meta_length]|].
    eapply Forall_impl; [exact Hpts|apply enc_pending_length].
Qed.

(** A count read from the file passes the check against what is left. *)
Lemma count_fits n l k r : 0 < k -> n * k <= l -> 0 <= r -> ((l + r) / k <? n) = false.
Proof.
  intros Hk Hl Hr. apply Z.ltb_ge. apply Z.div_le_lower_bound; lia.
Qed.

Lemma parse_file_encode version kvs pts blob base :
  let bytes := encode version kvs pts blob in
  zlen bytes <= INT64_MAX -> version = 2 \/ version = 3 -> Forall meta_ok kvs -> Forall (tensor_fits blob) pts ->
  exists mi ti, (F.parse_file bytes base 0).1 =
    Ret (mkContents version (alignment_of 32 kvs) kvs mi (map (info_of base (data_start version kvs pts)) pts) ti).
Proof.
  intros bytes Hsize Hver Hkvs Hpts.
  destruct (encode_layout version kvs pts blob Hkvs Hpts) as (k & pad & Hk & Ha & Hbytes & Hpad & Hstart & Hh & Hm & Hp).
  fold bytes in Hbytes. set (h := enc_header version kvs pts) in *. set (start := data_start version kvs pts) in *.
  set (metas := concat (map enc_meta kvs)) in *. set (pends := concat (map enc_pending pts)) in *.
  set (rest := pad ++ blob). pose proof (zlen_nonneg rest). pose proof (zlen_nonneg pends). pose proof (zlen_nonneg metas).
  pose proof (zlen_nonneg kvs). pose proof (zlen_nonneg pts). pose proof (zlen_nonneg pad). pose proof (zlen_nonneg blob).
  assert (Hlen : zlen bytes = start + zlen blob) by (rewrite Hbytes, !zlen_app; lia).
  assert (Hat : at_ bytes 0 (le_bytes 4 0x46554747 ++ le_bytes 4 version ++ le_bytes 8 (zlen pts) ++ le_bytes 8 (zlen kvs) ++
      metas ++ pends ++ rest)).
  { assert (E : bytes = le_bytes 4 0x46554747 ++ le_bytes 4 version ++ le_bytes 8 (zlen pts) ++ le_bytes 8 (zlen kvs) ++
      metas ++ pends ++ rest).
    { rewrite Hbytes. fold rest. unfold h, enc_header. fold metas pends. by rewrite <- !app_assoc. }
    rewrite <- E. split; [done|]. split; [lia|done]. }
  clearbody bytes. unfold INT64_MAX in *.
  destruct (reads_meta_loop bytes Hsize kvs (mkContents version 32 [] ∅ [] ∅) Hkvs) as [mi Hmeta].
  destruct (info_loop_fits bytes base Hsize blob start pts
    (mkContents version (alignment_of 32 kvs) kvs mi [] ∅) Hpts ltac:(lia) ltac:(lia)) as [ti Hti].
  assert (Hpend : reads bytes (times (length pts) (F.read_pending bytes)) pends pts).
  { apply reads_times. eapply Forall_impl; [exact Hpts|]. intros pt Hpt. eapply reads_pending; [done|exact Hpt|unfold INT64_MAX; lia]. }
  exists mi, ti. unfold F.parse_file.
  rewrite (st_bind_ret _ _ _ _ _ (reads_u32 bytes Hsize 0x46554747 ltac:(lia) _ _ Hat)). apply at_app in Hat.
  rewrite Z.eqb_refl. cbn [negb].
  rewrite (st_bind_ret _ _ _ _ _ (reads_u32 bytes Hsize version ltac:(lia) _ _ Hat)). apply at_app in Hat.
  replace (negb (version =? 2) && negb (version =? 3)) with false by (by destruct Hver as [-> | ->]).
  rewrite (st_bind_ret _ _ _ _ _ (reads_u64 bytes Hsize (zlen pts) ltac:(lia) _ _ Hat)). apply at_app in Hat.
  rewrite (st_bind_ret _ _ _ _ _ (reads_u64 bytes Hsize (zlen kvs) ltac:(lia) _ _ Hat)). apply at_app in Hat.
  rewrite (st_bind_ret _ _ _ _ _ (left_at bytes Hsize _ _ Hat)). rewrite Z.gtb_ltb, !zlen_app, count_fits by lia.
  replace (Z.to_nat (zlen kvs)) with (length kvs) by (unfold zlen; lia).
  rewrite (st_bind_ret _ _ _ _ _ (Hmeta _ _ Hat)). apply at_app in Hat.
  rewrite (st_bind_ret _ _ _ _ _ (left_at bytes Hsize _ _ Hat)). rewrite Z.gtb_ltb, zlen_app, count_fits by lia.
  replace (Z.to_nat (zlen pts)) with (length pts) by (unfold zlen; lia).
  rewrite (st_bind_ret _ _ _ _ _ (Hpend _ _ Hat)). apply at_app in Hat.
  rewrite (st_bind_ret st_get _ _ _ _ eq_refl). cbn [alignment_ version_ metadata_ tensors_ tensor_index_ app]. rewrite Ha.
  match goal with |- context [align_up ?p _] => replace p with (zlen h) by (rewrite Hh, !zlen_le_bytes; lia) end.
  assert (2 ^ k < 2 ^ 32) by (apply Z.pow_lt_mono_r; lia).
  rewrite align_up_value by (unfold SIZE_MAX, UINT64_MAX; lia). rewrite <- Hstart.
  destruct (Z.ltb_spec (SIZE_MAX - (2 ^ k - 1)) (zlen h)); [unfold SIZE_MAX, UINT64_MAX in *; lia|].
  rewrite (st_bind_ret _ _ _ start (zlen h)) by done.
  rewrite Z.gtb_ltb. destruct (Z.ltb_spec (zlen bytes) start); [lia|].
  rewrite Ha in Hti. unfold st_lift. exact Hti.
Qed.

(** ** The round trip *)

Definition opened_as (h : heap) (blob : str) (ti : TensorInfo) (pt : F.PendingTensor) : Prop :=
  let g := ggml_type_info (F.pt_ggml_type pt) in
  ti_name ti = F.pt_name pt /\ ti_shape ti = F.pt_shape pt /\ ti_ggml_type ti = F.pt_ggml_type pt /\
  ti_dtype ti = gt_dtype g /\ ti_dtype_supported ti = gt_supported g /\ ti_numel ti = product (F.pt_shape pt) /\
  load_bytes h (ti_data ti) (ti_nbytes ti) = Some (slice (F.pt_offset pt) (data_size pt) blob).

(** C13: the reader implements the format. A file of version 2 or 3 that encodes
    any metadata (scalars of every type, strings, arrays nested up to the
    limit, alignments) and tensor infos whose data lies in the blob is opened
    to exactly that metadata, that alignment, and tensors with those names,
    shapes and types whose bytes are those of the blob at their offset. *)
Theorem gguf_reads_format `{L : LawfulSyscalls} version kvs pts blob path o :
  version = 2 \/ version = 3 -> Forall meta_ok kvs -> Forall (tensor_fits blob) pts ->
  can_map path (encode version kvs pts blob) o ->
  exists f o', F.open path o = (Ret f, o') /\
    version_ (f_contents f) = version /\ metadata_ (f_contents f) = kvs /\
    alignment_ (f_contents f) = alignment_of 32 kvs /\
    Forall2 (opened_as (os_heap o') blob) (tensors_ (f_contents f)) pts.
Proof.
  intros Hver Hkvs Hpts Hmap. set (bytes := encode version kvs pts blob) in *.
  destruct (encode_layout version kvs pts blob Hkvs Hpts) as (k & pad & Hk & Ha & Hbytes & Hpad & _ & Hh & _).
  fold bytes in Hbytes. pose proof (zlen_nonneg blob). pose proof (zlen_nonneg pad).
  pose proof (zlen_nonneg (concat (map enc_meta kvs))). pose proof (zlen_nonneg (concat (map enc_pending pts))).
  assert (Hlen : zlen bytes = data_start version kvs pts + zlen blob) by (rewrite Hbytes, !zlen_app; lia).
  destruct (map_file_can F.err path bytes o Hmap) as (fd & b & Em & Hmax).
  { intros E. rewrite E in Hlen. unfold zlen at 1 in Hlen. cbn [length] in Hlen. lia. }
  destruct (parse_file_encode version kvs pts blob (Some (b, 0)) Hmax Hver Hkvs Hpts) as (mi & ti & Ep).
  fold bytes in Ep. assert (Hb : os_heap (with_mapping fd b bytes o) !! b = Some (mkBlock Dev.CPU0 bytes))
    by (cbn; by rewrite lookup_insert, decide_True).
  eexists (mkFile fd (Some (b, 0)) (zlen bytes) _), (with_mapping fd b bytes o). split; [|split; [|split; [|split]]].
  - unfold F.open. rewrite (st_bind_ret _ _ _ _ _ Em). cbn [m_size].
    destruct (Z.ltb_spec (zlen bytes) 24); [lia|].
    rewrite (st_bind_ret st_get _ _ _ _ eq_refl). cbn [m_base].
    rewrite (load_full _ _ _ _ Hb) by (cbn [blk_bytes]; lia). cbn [blk_bytes]. rewrite slice_all, Ep. reflexivity.
  - done.
  - done.
  - done.
  - cbn [f_contents tensors_]. clear Ep Em Hmap. apply Forall2_fmap_l, Forall_Forall2_diag.
    eapply Forall_impl; [exact Hpts|]. intros pt Hpt.
    do 6 (split; [done|]). destruct (data_size_bytes pt blob Hpt ltac:(unfold INT64_MAX in *; lia) []) as [_ Hds].
    destruct Hpt as (_ & _ & _ & _ & _ & Ho & Hfit). set (start := data_start version kvs pts) in *.
    cbn [info_of ti_data ti_nbytes ptr_add load_bytes]. rewrite Hb. cbn [mbind option_bind blk_bytes].
    rewrite (proj2 (in_block_true _ _ _)) by (cbn [blk_bytes]; lia). f_equal.
    rewrite Hbytes, app_assoc, slice_app_r by (rewrite zlen_app; lia). f_equal. rewrite zlen_app. lia.
Qed.

(** ** Shapes *)

Lemma check_dims_spec shape :
  match check_dims shape with
  | Ret _ => Forall (fun d => 1 <= d <= INT_MAX) shape
  | Throw _ => exists d, d ∈ shape /\ ~ (1 <= d <= INT_MAX)
  | Undef => False
  end.
Proof.
  unfold INT_MAX. induction shape as [|d r IH]; cbn [check_dims]; [constructor|].
  destruct (Z.leb_spec d 0); [exists d; split; [constructor|lia]|].
  rewrite Z.gtb_ltb. destruct (Z.ltb_spec 0x7FFFFFFF d); [exists d; split; [constructor|lia]|].
  destruct (check_dims r); [constructor; [lia|done]| |done].
  destruct IH as (d' & Hin & Hd'). exists d'. split; [by constructor|done].
Qed.

Lemma row_product_spec shape rows :
  Forall (fun d => 1 <= d <= INT_MAX) shape -> 1 <= rows <= INT_MAX ->
  match row_product rows shape with
  | Ret m => m = rows * product shape /\ 1 <= m <= INT_MAX
  | Throw _ => INT_MAX < rows * product shape
  | Undef => False
  end.
Proof.
  intros Hs. revert rows. unfold INT_MAX. induction Hs as [|d r Hd Hr IH]; intros rows Hrows; cbn [row_product product foldr]; [lia|].
  fold (product r). assert (Hr' : Forall (fun d => 1 <= d) r) by (eapply Forall_impl; [exact Hr|]; cbn; intros; lia).
  pose proof (product_pos r Hr'). unfold INT_MAX in *.
  assert (Hd' : 1 <= d <= 2147483647) by exact Hd. clear Hd.
  rewrite Z.gtb_ltb. destruct (Z.ltb_spec (0x7FFFFFFF / d) rows) as [Hlt|Hle].
  - pose proof (Z.mul_succ_div_gt 0x7FFFFFFF d ltac:(lia)) as Hgt. cbn [fail].
    assert (d * Z.succ (0x7FFFFFFF / d) <= d * rows) by (apply Z.mul_le_mono_nonneg_l; lia).
    assert (0x7FFFFFFF < d * rows) by lia. unfold fail. nia.
  - pose proof (Z.mul_div_le 0x7FFFFFFF d ltac:(lia)). specialize (IH (rows * d) ltac:(nia)).
    destruct (row_product (rows * d) r); [nia|nia|done].
Qed.

Lemma i32_id z : 0 <= z <= INT_MAX -> i32 z = z.
Proof.
  unfold i32, to_signed, INT_MAX. intros Hz. rewrite Z.mod_small by lia.
  change (2 ^ (32 - 1)) with 2147483648. destruct (Z.ltb_spec z 2147483648); lia.
Qed.

(** [shape_to_2d] gives a matrix of the same number of elements, both sides
    [int]s, with the innermost dimension as the columns (a vector becomes one
    column); it throws exactly when there are no dimensions, a dimension is not
    a positive [int], or the product of the outer ones is not. *)
Theorem shape_to_2d_exact shape :
  match shape_to_2d shape with
  | Ret (rows, cols) => 1 <= rows <= INT_MAX /\ 1 <= cols <= INT_MAX /\ rows * cols = product shape /\
      match shape with [d] => rows = d | d :: _ => cols = d | [] => False end
  | Throw _ => shape = [] \/ (exists d, d ∈ shape /\ ~ (1 <= d <= INT_MAX)) \/ INT_MAX < product (tail shape)
  | Undef => False
  end.
Proof.
  unfold shape_to_2d. destruct shape as [|d0 r]; [by left|].
  pose proof (check_dims_spec (d0 :: r)) as Hc. destruct (check_dims (d0 :: r)); [|by right; left|done].
  inversion_clear Hc as [|? ? Hd Hr]. cbn [mbind res_bind tail]. destruct r as [|d1 r].
  - rewrite i32_id by lia. unfold INT_MAX in *. cbn. lia.
  - pose proof (row_product_spec (d1 :: r) 1 Hr ltac:(by unfold INT_MAX)) as Hp.
    destruct (row_product 1 (d1 :: r)) as [m|e|]; cbn [mbind res_bind]; [| |done].
    + rewrite !i32_id by lia. change (product (d0 :: d1 :: r)) with (d0 * product (d1 :: r)). lia.
    + right. right. lia.
Qed.

(** ** Examples *)

Module Ex.
Definition tensor : F.PendingTensor := F.mkPending (lit "w") [32; 1] 2 0.
Definition blob : str := replicate 18 x2a.
Definition metas : list (str * Value) :=
  [(lit "a", mkValue VArray (SU8 0) [] VI8 [scalar_value VI8 (SI8 (-3))]);
   (lit "general.alignment", scalar_value VU32 (SU32 8))].
Definition image : str := Eval vm_compute in encode 3 metas [tensor] blob.

Definition start : os := mkOs ∅ ∅.
Definition disk : Syscalls := IdealOs.calls 3 image.

Lemma gguf_disk_lawful : LawfulSyscalls disk.
Proof. apply IdealOs.os_lawful; [lia|]. by vm_compute. Qed.

Definition opened : File :=
  mkFile 3 (Some (1%positive, 0)) (zlen image)
    (mkContents 3 8 metas {[ lit "a" := 0%nat; lit "general.alignment" := 1%nat ]}
       [mkTensorInfo (lit "w") [32; 1] 2 Q4_0 true (Some (1%positive, zlen image - 18)) 18 32] {[ lit "w" := 0%nat ]}).

Lemma gguf_open_start : F.open (S := disk) (lit "p") start = (Ret opened, with_mapping 3 1 image start).
Proof. by vm_compute. Qed.
End Ex.

Lemma gguf_open_safe_witness :
  match F.open (S := Ex.disk) (lit "p") Ex.start with
  | (Ret f, _) => F.find_tensor f (lit "w") = Ret (first_named ti_name (lit "w") (tensors_ (f_contents f)))
  | _ => False
  end.
Proof.
  pose proof (gguf_open_safe (L := Ex.gguf_disk_lawful) (lit "p") Ex.start) as H. rewrite Ex.gguf_open_start in *.
  destruct H as (_ & _ & _ & Hf & _); [|exact (Hf (lit "w"))].
  intros p o fd c [= <- _]. pose proof (IdealOs.sum_nonneg (map_to_list (os_fds o)).*1). lia.
Defined.

Lemma gguf_reads_format_witness :
  exists f o', F.open (S := Ex.disk) (lit "p") Ex.start = (Ret f, o') /\ metadata_ (f_contents f) = Ex.metas /\
    Forall2 (opened_as (os_heap o') Ex.blob) (tensors_ (f_contents f)) [Ex.tensor].
Proof.
  destruct (gguf_reads_format (L := Ex.gguf_disk_lawful) 3 Ex.metas [Ex.tensor] Ex.blob (lit "p") Ex.start)
    as (f & o' & E & _ & Hm & _ & H).
  - by right.
  - repeat constructor; cbn; try done. by exists 3.
  - repeat constructor; by vm_compute.
  - eexists. split; [reflexivity|]. split; [done|]. by eexists.
  - exists f, o'. exact (conj E (conj Hm H)).
Defined.

Lemma align_up_least_witness : align_up 33 32 = Ret 64 /\ 64 mod 2 ^ 5 = 0.
Proof.
  pose proof (align_up_least 33 5 ltac:(done) ltac:(lia)) as H. split; [done|].
  exact (proj1 H).
Defined.
