(* ===== verification/TraceDag.v ===== *)
(** * The trace graph

    src/jit/trace_dag.h and the [TraceDAG] part of src/jit/trace_dag.cpp: the
    graph a trace records (inputs, operations, in-place operations), the
    liveness analysis that ends it, its dominant shape and its signature.
    Scalars are the bit patterns of the source's floats. *)
From S2P Require Import Prelude Dtype Device Heap Tensor.

Module TraceOpKind.
Inductive kind : Type :=
  | Input | Add | Sub | Mul | Div | AddScalar | SubScalar | MulScalar | DivScalar
  | ScalarSub | ScalarDiv | FMA | SiLU | GELU | ReLU | RMSNorm | LayerNorm | Modulate
  | Tanh | Sigmoid | Copy | Where | Clamp | Cast | Const | Neg | Exp | Log | Sqrt | Rsqrt | Abs.

#[global] Instance kind_eq_decision : EqDecision kind.
Proof. solve_decision. Defined.

(** The value of the enumerator. *)
Definition value (op : kind) : Z :=
  match op with
  | Input => 0 | Add => 1 | Sub => 2 | Mul => 3 | Div => 4 | AddScalar => 5 | SubScalar => 6
  | MulScalar => 7 | DivScalar => 8 | ScalarSub => 9 | ScalarDiv => 10 | FMA => 11 | SiLU => 12
  | GELU => 13 | ReLU => 14 | RMSNorm => 15 | LayerNorm => 16 | Modulate => 17 | Tanh => 18
  | Sigmoid => 19 | Copy => 20 | Where => 21 | Clamp => 22 | Cast => 23 | Const => 24 | Neg => 25
  | Exp => 26 | Log => 27 | Sqrt => 28 | Rsqrt => 29 | Abs => 30
  end.

Definition eqb (op k : kind) : bool := bool_decide (op = k).
End TraceOpKind.
Abbreviation TraceOpKind := TraceOpKind.kind.

Definition op_kind_name (op : TraceOpKind) : str :=
  match op with
  | TraceOpKind.Input => lit "Input" | TraceOpKind.Add => lit "Add" | TraceOpKind.Sub => lit "Sub"
  | TraceOpKind.Mul => lit "Mul" | TraceOpKind.Div => lit "Div"
  | TraceOpKind.AddScalar => lit "AddScalar" | TraceOpKind.SubScalar => lit "SubScalar"
  | TraceOpKind.MulScalar => lit "MulScalar" | TraceOpKind.DivScalar => lit "DivScalar"
  | TraceOpKind.ScalarSub => lit "ScalarSub" | TraceOpKind.ScalarDiv => lit "ScalarDiv"
  | TraceOpKind.FMA => lit "FMA" | TraceOpKind.SiLU => lit "SiLU" | TraceOpKind.GELU => lit "GELU"
  | TraceOpKind.ReLU => lit "ReLU" | TraceOpKind.RMSNorm => lit "RMSNorm"
  | TraceOpKind.LayerNorm => lit "LayerNorm" | TraceOpKind.Modulate => lit "Modulate"
  | TraceOpKind.Tanh => lit "Tanh" | TraceOpKind.Sigmoid => lit "Sigmoid" | TraceOpKind.Copy => lit "Copy"
  | TraceOpKind.Where => lit "Where" | TraceOpKind.Clamp => lit "Clamp" | TraceOpKind.Cast => lit "Cast"
  | TraceOpKind.Const => lit "Const" | TraceOpKind.Neg => lit "Neg" | TraceOpKind.Exp => lit "Exp"
  | TraceOpKind.Log => lit "Log" | TraceOpKind.Sqrt => lit "Sqrt" | TraceOpKind.Rsqrt => lit "Rsqrt"
  | TraceOpKind.Abs => lit "Abs"
  end.

Module BroadcastKind.
Inductive kind : Type := Full | Row | Scalar | Col.

#[global] Instance kind_eq_decision : EqDecision kind.
Proof. solve_decision. Defined.

Definition eqb (a b : kind) : bool := bool_decide (a = b).
End BroadcastKind.
Abbreviation BroadcastKind := BroadcastKind.kind.

(** The product of two [int]s; signed overflow is undefined. *)
Definition int_mul (a b : Z) : res Z :=
  if (INT_MIN <=? a * b) && (a * b <=? INT_MAX) then Ret (a * b) else Undef.

Definition broadcast_of (node_rows node_cols rows cols : Z) : res BroadcastKind :=
  '(scalar : bool) ← (if (node_rows =? 1) && (node_cols =? 1)
    then n ← int_mul rows cols; mret (negb (n =? 1)) else mret false);
  mret (if scalar then BroadcastKind.Scalar
       else if (node_rows =? 1) && (node_cols =? cols) && negb (rows =? 1) then BroadcastKind.Row
       else if (node_rows =? rows) && (node_cols =? 1) && negb (cols =? 1) then BroadcastKind.Col
       else BroadcastKind.Full).

Record TraceNode : Type := mkNode {
  n_id : Z;
  n_op : TraceOpKind;
  n_inputs : list Z;
  n_outputs : list Z;
  n_scalar : Z;
  n_scalar2 : Z;
  n_buffer : ptr;
  n_device : Device;
  n_dtype : Dtype;
  n_rows : Z;
  n_cols : Z;
  n_inplace : bool;
  n_target : Z;
  n_live : bool
}.

Definition set_outputs (o : list Z) (n : TraceNode) : TraceNode :=
  mkNode (n_id n) (n_op n) (n_inputs n) o (n_scalar n) (n_scalar2 n) (n_buffer n) (n_device n) (n_dtype n)
    (n_rows n) (n_cols n) (n_inplace n) (n_target n) (n_live n).
Definition set_live (b : bool) (n : TraceNode) : TraceNode :=
  mkNode (n_id n) (n_op n) (n_inputs n) (n_outputs n) (n_scalar n) (n_scalar2 n) (n_buffer n) (n_device n)
    (n_dtype n) (n_rows n) (n_cols n) (n_inplace n) (n_target n) b.
Definition set_buffer (p : ptr) (n : TraceNode) : TraceNode :=
  mkNode (n_id n) (n_op n) (n_inputs n) (n_outputs n) (n_scalar n) (n_scalar2 n) p (n_device n)
    (n_dtype n) (n_rows n) (n_cols n) (n_inplace n) (n_target n) (n_live n).

Record TraceDAG : Type := mkDAG {
  nodes_ : list TraceNode;
  input_ptr_to_slot_ : gmap ptr Z
}.

Definition empty_dag : TraceDAG := mkDAG [] ∅.

(** [nodes_[i]] for an index known to be in range. *)
Definition node_at (ns : list TraceNode) (i : Z) : option TraceNode :=
  if i <? 0 then None else ns !! Z.to_nat i.

(** ** Recording *)

Definition slot_matches (d : TraceDAG) (slot : Z) (t : Tensor) : bool :=
  if (slot <? 0) || (slot >=? i32 (zlen (nodes_ d))) then false
  else
    match node_at (nodes_ d) slot with
    | Some n =>
        bool_decide (n_buffer n = t_data t) && (n_rows n =? t_rows t) && (n_cols n =? t_cols t) &&
        dtype_eqb (n_dtype n) (t_dtype t) && Dev.eqb (n_device n) (t_device t)
    | None => false
    end.

Definition push_node (n : TraceNode) (d : TraceDAG) : TraceDAG :=
  mkDAG (nodes_ d ++ [n]) (input_ptr_to_slot_ d).

Definition register_input (t : Tensor) : st TraceDAG Z := fun d =>
  let fresh_slot :=
    let id := i32 (zlen (nodes_ d)) in
    let node := mkNode id TraceOpKind.Input [] [] 0 0 (t_data t) (t_device t) (t_dtype t) (t_rows t)
                  (t_cols t) false (-1) false in
    (Ret id, mkDAG (nodes_ d ++ [node]) (<[t_data t := id]> (input_ptr_to_slot_ d))) in
  match input_ptr_to_slot_ d !! t_data t with
  | Some slot => if slot_matches d slot t then (Ret slot, d) else fresh_slot
  | None => fresh_slot
  end.

Definition add_node (op : TraceOpKind) (inputs : list Z) (scalar : Z) (buffer : ptr) (dev : Device)
    (dt : Dtype) (rows cols scalar2 : Z) : st TraceDAG Z := fun d =>
  let id := i32 (zlen (nodes_ d)) in
  (Ret id, push_node (mkNode id op inputs [] scalar scalar2 buffer dev dt rows cols false (-1) false) d).

Definition add_inplace_node (op : TraceOpKind) (target_slot arg_slot : Z) (buffer : ptr)
    (scalar scalar2 : Z) : st TraceDAG Z := fun d =>
  let id := i32 (zlen (nodes_ d)) in
  match node_at (nodes_ d) target_slot with
  | None => (Throw (lit "std::out_of_range"), d)
  | Some target =>
      let inputs := if arg_slot >=? 0 then [target_slot; arg_slot] else [target_slot] in
      (Ret id, push_node (mkNode id op inputs [] scalar scalar2 buffer (n_device target) (n_dtype target)
                            (n_rows target) (n_cols target) true target_slot true) d)
  end.

(** ** Liveness *)

(** One node's uses, pushed to the nodes it reads. *)
Definition push_use (id : Z) (ns : list TraceNode) (in_id : Z) : list TraceNode :=
  if (in_id >=? 0) && (in_id <? i32 (zlen ns)) then
    alter (fun m => set_outputs (n_outputs m ++ [id]) m) (Z.to_nat in_id) ns
  else ns.

Definition push_uses (ns : list TraceNode) (n : TraceNode) : list TraceNode :=
  foldl (push_use (n_id n)) ns (n_inputs n).

Definition live_of (n : TraceNode) : bool :=
  if TraceOpKind.eqb (n_op n) TraceOpKind.Input then false
  else if n_inplace n then true
  else match n_outputs n with [] => true | _ => false end.

Definition mark_live (n : TraceNode) : TraceNode := set_live (live_of n) n.

Definition analyze_liveness (d : TraceDAG) : TraceDAG :=
  let cleared := map (set_outputs []) (nodes_ d) in
  mkDAG (map mark_live (foldl push_uses cleared cleared)) (input_ptr_to_slot_ d).

(** ** Shape and signature *)

Definition dominant_shape (d : TraceDAG) : Z * Z :=
  let '(_, rc) := foldl (fun '(best, rc) n =>
      let numel := n_rows n * n_cols n in
      if numel >? best then (numel, (n_rows n, n_cols n)) else (best, rc)) (0, (0, 0)) (nodes_ d) in rc.

(** One FNV-1a step on 64-bit words. *)
Definition hash_val (hash val : Z) : Z := u64 (Z.lxor hash val * 1099511628211).

Definition hash_node (hash : Z) (n : TraceNode) : Z :=
  let h := foldl hash_val hash
    [TraceOpKind.value (n_op n); DeviceType_value (dev_type (n_device n)); u64 (dev_index (n_device n));
     Dtype_value (n_dtype n); u64 (n_rows n); u64 (n_cols n); if n_inplace n then 1 else 0;
     if n_live n then 1 else 0; n_scalar n; n_scalar2 n; u64 (zlen (n_inputs n))] in
  foldl (fun h i => hash_val h (u64 i)) h (n_inputs n).

Definition compute_hash (d : TraceDAG) : Z :=
  foldl hash_node (hash_val 14695981039346656037 (u64 (zlen (nodes_ d)))) (nodes_ d).
