(* ===== verification/TraceContext.v ===== *)
(** * The tracer

    The [TraceContext] part of src/jit/trace_dag.cpp, the traced operations of
    src/jit/trace_ops.cpp and the entry points of src/jit/trace_cache.cpp.

    A context is the thread's trace in progress. Its [slot_to_tensor_] is the
    slot table of the tensor world (Tensor.v), where a tensor's move and
    destruction keep it up to date, and the installation of its three hooks by
    [begin] is that world's hook flag. *)
From S2P Require Import Prelude Dtype Device Heap Runtime Tensor TraceDag.

Record TraceContext : Type := mkCtx {
  active_ : bool;
  dag_ : TraceDAG;
  active_ptr_to_slot_ : gmap ptr Z
}.

Definition idle_ctx : TraceContext := mkCtx false empty_dag ∅.

Definition set_active (b : bool) (c : TraceContext) : TraceContext := mkCtx b (dag_ c) (active_ptr_to_slot_ c).
Definition set_dag (d : TraceDAG) (c : TraceContext) : TraceContext := mkCtx (active_ c) d (active_ptr_to_slot_ c).
Definition set_ptrs (m : gmap ptr Z) (c : TraceContext) : TraceContext := mkCtx (active_ c) (dag_ c) m.

(** ** Recording in the context *)

Definition on_dag {A} (m : st TraceDAG A) : st TraceContext A := fun c =>
  let '(r, d) := m (dag_ c) in (r, set_dag d c).

(** [active_ptr_to_slot_[p] = slot]. *)
Definition name_ptr (p : ptr) (slot : Z) : st TraceContext unit :=
  st_mod (fun c => set_ptrs (<[p := slot]> (active_ptr_to_slot_ c)) c).

Definition get_or_register_slot (t : Tensor) : st TraceContext Z := fun c =>
  if t_jit_slot t >=? 0 then (Ret (t_jit_slot t), c)
  else
    let register := (slot ← on_dag (register_input t); _ ← name_ptr (t_data t) slot; mret slot) in
    match active_ptr_to_slot_ c !! t_data t with
    | Some slot => if slot_matches (dag_ c) slot t then (Ret slot, c) else register c
    | None => register c
    end.

(** ** The context and the tensors it has handed out *)

Record session : Type := mkSession { s_ctx : TraceContext; s_world : world }.

Definition on_ctx {A} (m : st TraceContext A) : st session A := fun s =>
  let '(r, c) := m (s_ctx s) in (r, mkSession c (s_world s)).
Definition on_world {A} (m : M A) : st session A := fun s =>
  let '(r, w) := m (s_world s) in (r, mkSession (s_ctx s) w).
Definition get_obj (id : positive) : st session Tensor := on_world (obj id).
Definition slots_mod (f : gmap Z positive -> gmap Z positive) : st session unit :=
  on_world (st_mod (fun w => with_slots_table w (f (w_slots w)))).

Definition with_hook (w : world) : world :=
  mkWorld (w_heap w) (w_objs w) (w_alloc_count w) (w_alloc_bytes w) true (w_slots w).

Definition jerr (m : str) : str := lit "brotensor::jit: " ++ m.

Module Ctx.
Section Tracer.
Context (rt : runtime).

(** One entry of [release_tracked_]. *)
Definition release_one (id : positive) : M unit :=
  t ← obj id; put id (set_shape (set_slot t (-1)) 0 0 (t_dtype t)).

Definition release_tracked_ : M unit :=
  fun w =>
    (_ ← foldr (fun '(_, id) k => _ ← release_one id; k) (mret tt) (map_to_list (w_slots w));
     st_mod (fun w => with_slots_table w ∅)) w.

Definition is_tracing : st session bool := st_gets (fun s => active_ (s_ctx s)).

Definition begin : st session unit :=
  active ← is_tracing;
  if active : bool then st_throw (jerr (lit "Nested begin_trace() calls are not permitted"))
  else
    _ ← on_world (st_mod with_hook);
    _ ← on_ctx (st_mod (fun c => mkCtx (active_ c) empty_dag ∅));
    _ ← on_world release_tracked_;
    on_ctx (st_mod (set_active true)).

Definition discard : st session unit :=
  _ ← on_ctx (st_mod (fun c => mkCtx (active_ c) empty_dag ∅));
  _ ← on_world release_tracked_;
  on_ctx (st_mod (set_active false)).

(** A write to the node at position [i]. *)
Definition node_mod (i : nat) (f : TraceNode -> TraceNode) : st session unit :=
  on_ctx (st_mod (fun c => set_dag (mkDAG (alter f i (nodes_ (dag_ c))) (input_ptr_to_slot_ (dag_ c))) c)).

(** [Tensor buf] of [materialize_], once built, for the tensor at [held]. *)
Definition install (i : nat) (slot : Z) (held buf : positive) : st session unit :=
  b ← get_obj buf;
  if is_null (t_data b) then node_mod i (set_live false)
  else
    _ ← slots_mod (delete slot);
    h ← get_obj held;
    _ ← on_world (put held (set_slot h (-1)));
    _ ← on_world (T.move_assign rt held buf);
    h ← get_obj held;
    node_mod i (set_buffer (t_data h)).

Definition materialize_one (i : nat) : st session unit := fun s =>
  match nodes_ (dag_ (s_ctx s)) !! i with
  | None => (Ret tt, s)
  | Some n =>
      if negb (n_live n) then (Ret tt, s)
      else if negb (is_null (n_buffer n)) then (Ret tt, s)
      else
        match w_slots (s_world s) !! n_id n with
        | None => node_mod i (set_live false) s
        | Some held =>
            let buf := fresh (dom (w_objs (s_world s))) in
            (_ ← on_world (T.empty_on rt buf (n_device n) (n_rows n) (n_cols n) (n_dtype n));
             with_dtor (install i (n_id n) held buf) (on_world (T.dtor rt buf))) s
        end
  end.

Fixpoint materialize_from (k i : nat) : st session unit :=
  match k with
  | O => mret tt
  | S k => _ ← materialize_one i; materialize_from k (S i)
  end.

Definition materialize_ : st session unit := fun s =>
  materialize_from (length (nodes_ (dag_ (s_ctx s)))) 0 s.

Definition no_result : str :=
  jerr (lit "the trace has no observable result — every value it produced was dropped before end_trace(), so there is nothing for the fused kernel to write. Keep the result Tensor alive across end_trace(), store() it into a buffer you own, or write in place into one of the inputs").

(** [end]. The graph is moved out of the context. *)
Definition end_ : st session TraceDAG :=
  active ← is_tracing;
  if negb active then st_throw (jerr (lit "end_trace() called without matching begin_trace()"))
  else
    _ ← on_ctx (st_mod (fun c => set_dag (analyze_liveness (dag_ c)) c));
    _ ← materialize_;
    _ ← on_ctx (st_mod (fun c => mkCtx false (dag_ c) ∅));
    _ ← on_world release_tracked_;
    d ← st_gets (fun s => dag_ (s_ctx s));
    _ ← on_ctx (st_mod (set_dag empty_dag));
    if existsb n_live (nodes_ d) then mret d else st_throw no_result.

(** ** Recording *)

Definition slot_of (t : positive) : st session Z :=
  x ← get_obj t; on_ctx (get_or_register_slot x).

Definition record_op (this : positive) (op : TraceOpKind) (in_slots : list Z) (scalar : Z) (dev : Device)
    (dt : Dtype) (rows cols scalar2 : Z) : st session unit :=
  slot ← on_ctx (on_dag (add_node op in_slots scalar nullptr dev dt rows cols scalar2));
  _ ← on_world (new_obj this (set_slot (set_device (set_shape Tensor_default rows cols dt) dev) slot));
  slots_mod (<[slot := this]>).

Definition record_store (src_slot : Z) (dst : positive) : st session unit :=
  t ← get_obj dst;
  if t_jit_slot t >=? 0 then
    st_throw (jerr (lit "store() needs a destination the caller owns; its target is a traced intermediate, which has no buffer to write to"))
  else
    slot ← on_ctx (on_dag (add_node TraceOpKind.Copy [src_slot] 0 (t_data t) (t_device t) (t_dtype t)
                             (t_rows t) (t_cols t) 0));
    on_ctx (name_ptr (t_data t) slot).

Definition record_cast_out (src_slot : Z) (src dst : positive) (out_dtype : Dtype) : st session unit :=
  d ← get_obj dst;
  t ← get_obj src;
  if (t_jit_slot d <? 0) && negb (is_null (t_data d)) && Dev.eqb (t_device d) (t_device t) &&
     (t_rows d =? t_rows t) && (t_cols d =? t_cols t) && dtype_eqb (t_dtype d) out_dtype then
    slot ← on_ctx (on_dag (add_node TraceOpKind.Cast [src_slot] 0 (t_data d) (t_device d) out_dtype
                             (t_rows d) (t_cols d) 0));
    on_ctx (name_ptr (t_data d) slot)
  else fun s =>
    let tmp := fresh (dom (w_objs (s_world s))) in
    (_ ← record_op tmp TraceOpKind.Cast [src_slot] 0 (t_device t) out_dtype (t_rows t) (t_cols t) 0;
     with_dtor (on_world (T.move_assign rt dst tmp)) (on_world (T.dtor rt tmp))) s.

Definition record_inplace_op (op : TraceOpKind) (target_slot arg_slot scalar : Z) (target : positive)
    (scalar2 : Z) : st session Z :=
  t ← get_obj target;
  slot ← on_ctx (on_dag (add_inplace_node op target_slot arg_slot (t_data t) scalar scalar2));
  if t_jit_slot t >=? 0 then
    _ ← slots_mod (delete (t_jit_slot t));
    _ ← on_world (put target (set_slot t slot));
    _ ← slots_mod (<[slot := target]>);
    mret slot
  else _ ← on_ctx (name_ptr (t_data t) slot); mret slot.

Definition clamp_inplace_hook (y : positive) (lo hi : Z) : st session bool :=
  active ← is_tracing;
  if negb active then mret false
  else
    slot_y ← slot_of y;
    _ ← record_inplace_op TraceOpKind.Clamp slot_y (-1) lo y hi;
    mret true.

Definition cast_out_hook (src dst : positive) (out_dtype : Dtype) : st session bool :=
  active ← is_tracing;
  if negb active then mret false
  else
    slot_src ← slot_of src;
    _ ← record_cast_out slot_src src dst out_dtype;
    mret true.

End Tracer.
End Ctx.
