(* ===== verification/TraceOps.v ===== *)
(** * The traced operations

    What each operation of src/jit/trace_ops.cpp does while a trace is being
    recorded (its [is_tracing()] branch): it names its operands' slots,
    computes the result's shape and records a node. [this] is where the caller
    wants the result. The eager branches call the device kernels and are not
    modelled. *)
From S2P Require Import Prelude Dtype Device Heap Runtime Tensor TraceDag TraceContext.
Import Ctx.

(** ** Shapes of results *)

Definition numel_of (t : Tensor) : Z := t_rows t * t_cols t.

Definition binary_shape (a b : Tensor) : Tensor := if numel_of b >? numel_of a then b else a.

Definition broadcast_shape (a b : Tensor) : Z * Z :=
  let ok_r := (t_rows a =? t_rows b) || (t_rows a =? 1) || (t_rows b =? 1) in
  let ok_c := (t_cols a =? t_cols b) || (t_cols a =? 1) || (t_cols b =? 1) in
  if ok_r && ok_c then (Z.max (t_rows a) (t_rows b), Z.max (t_cols a) (t_cols b))
  else let r := binary_shape a b in (t_rows r, t_cols r).

Definition broadcast_shape3 (c a b : Tensor) : Z * Z :=
  let '(ab_r, ab_c) := broadcast_shape a b in
  let ok_r := ((t_rows c =? ab_r) || (t_rows c =? 1) || (ab_r =? 1)) &&
              ((t_rows a =? t_rows b) || (t_rows a =? 1) || (t_rows b =? 1)) in
  let ok_c := ((t_cols c =? ab_c) || (t_cols c =? 1) || (ab_c =? 1)) &&
              ((t_cols a =? t_cols b) || (t_cols a =? 1) || (t_cols b =? 1)) in
  if ok_r && ok_c then (Z.max (t_rows c) ab_r, Z.max (t_cols c) ab_c)
  else let r := binary_shape c (binary_shape a b) in (t_rows r, t_cols r).

(** An operand the caller did not supply: not symbolic, and [empty()]. *)
Definition absent (t : Tensor) : res bool :=
  if negb (t_jit_slot t <? 0) then mret false
  else if is_null (t_data t) then mret true
  else n ← int_mul (t_rows t) (t_cols t); mret (n =? 0).

(** The negation of a float pattern, and its reciprocal as the parameter of
    the operators that divide by a scalar. *)
Definition neg_f32 (s : Z) : Z := Z.lxor s 0x80000000.

Module Traced.
Section Ops.
Context (rt : runtime) (recip_f32 : Z -> Z).

(** A node over [a] with [a]'s shape. *)
Definition unary (op : TraceOpKind) (this a : positive) (s s2 : Z) : st session unit :=
  slot_a ← slot_of a;
  t ← get_obj a;
  record_op this op [slot_a] s (t_device t) (t_dtype t) (t_rows t) (t_cols t) s2.

(** A node over [a] and [b] with the shape they broadcast to. *)
Definition binary (op : TraceOpKind) (this a b : positive) : st session unit :=
  slot_a ← slot_of a;
  slot_b ← slot_of b;
  ta ← get_obj a;
  tb ← get_obj b;
  let r := binary_shape ta tb in
  let '(rows, cols) := broadcast_shape ta tb in
  record_op this op [slot_a; slot_b] 0 (t_device r) (t_dtype r) rows cols 0.

Definition op_add (this a b : positive) := binary TraceOpKind.Add this a b.
Definition op_add_scalar (this a : positive) (s : Z) := unary TraceOpKind.AddScalar this a s 0.
Definition op_sub (this a b : positive) := binary TraceOpKind.Sub this a b.
Definition op_sub_scalar (this a : positive) (s : Z) := op_add_scalar this a (neg_f32 s).
Definition op_scalar_sub (this : positive) (s : Z) (a : positive) := unary TraceOpKind.ScalarSub this a s 0.
Definition op_mul (this a b : positive) := binary TraceOpKind.Mul this a b.
Definition op_mul_scalar (this a : positive) (s : Z) := unary TraceOpKind.MulScalar this a s 0.
Definition op_div (this a b : positive) := binary TraceOpKind.Div this a b.
Definition op_div_scalar (this a : positive) (s : Z) := op_mul_scalar this a (recip_f32 s).
Definition op_scalar_div (this : positive) (s : Z) (a : positive) := unary TraceOpKind.ScalarDiv this a s 0.

Definition neg (this a : positive) := unary TraceOpKind.Neg this a 0 0.
Definition op_neg (this a : positive) := neg this a.
Definition abs (this a : positive) := unary TraceOpKind.Abs this a 0 0.
Definition exp (this a : positive) := unary TraceOpKind.Exp this a 0 0.
Definition log (this a : positive) := unary TraceOpKind.Log this a 0 0.
Definition sqrt (this a : positive) := unary TraceOpKind.Sqrt this a 0 0.
Definition rsqrt (this a : positive) := unary TraceOpKind.Rsqrt this a 0 0.
Definition silu (this a : positive) := unary TraceOpKind.SiLU this a 0 0.
Definition gelu (this a : positive) := unary TraceOpKind.GELU this a 0 0.
Definition relu (this a : positive) := unary TraceOpKind.ReLU this a 0 0.
Definition tanh (this a : positive) := unary TraceOpKind.Tanh this a 0 0.
Definition sigmoid (this a : positive) := unary TraceOpKind.Sigmoid this a 0 0.
Definition clamp (this x : positive) (lo hi : Z) := unary TraceOpKind.Clamp this x lo hi.

Definition cast (this x : positive) (out_dtype : Dtype) : st session unit :=
  slot_x ← slot_of x;
  t ← get_obj x;
  record_op this TraceOpKind.Cast [slot_x] 0 (t_device t) out_dtype (t_rows t) (t_cols t) 0.

(** [a op= b] and [a op= s]. *)
Definition inplace_binary (op : TraceOpKind) (a b : positive) : st session unit :=
  slot_a ← slot_of a;
  slot_b ← slot_of b;
  _ ← record_inplace_op op slot_a slot_b 0 a 0;
  mret tt.
Definition inplace_scalar (op : TraceOpKind) (a : positive) (s : Z) : st session unit :=
  slot_a ← slot_of a;
  _ ← record_inplace_op op slot_a (-1) s a 0;
  mret tt.
Definition op_add_assign := inplace_binary TraceOpKind.Add.
Definition op_add_assign_scalar := inplace_scalar TraceOpKind.AddScalar.
Definition op_mul_assign := inplace_binary TraceOpKind.Mul.
Definition op_mul_assign_scalar := inplace_scalar TraceOpKind.MulScalar.

Definition store (dst src : positive) : st session unit :=
  slot_src ← slot_of src;
  record_store slot_src dst.

(** The slot of an operand that may be missing, pushed to [inputs]. *)
Definition push_present (inputs : list Z) (t : positive) : st session (list Z) :=
  x ← get_obj t;
  no ← st_lift (absent x);
  if no : bool then mret inputs
  else slot ← slot_of t; mret (inputs ++ [slot]).

Definition rms_norm (this x gamma : positive) (eps : Z) : st session unit :=
  slot_x ← slot_of x;
  inputs ← push_present [slot_x] gamma;
  t ← get_obj x;
  record_op this TraceOpKind.RMSNorm inputs eps (t_device t) (t_dtype t) (t_rows t) (t_cols t) 0.

Definition layernorm (this x gamma beta : positive) (eps : Z) : st session unit :=
  slot_x ← slot_of x;
  inputs ← push_present [slot_x] gamma;
  inputs ← push_present inputs beta;
  t ← get_obj x;
  record_op this TraceOpKind.LayerNorm inputs eps (t_device t) (t_dtype t) (t_rows t) (t_cols t) 0.

Definition modulate (this x scale shift : positive) : st session unit :=
  slot_x ← slot_of x;
  slot_s ← slot_of scale;
  slot_sh ← slot_of shift;
  t ← get_obj x;
  record_op this TraceOpKind.Modulate [slot_x; slot_s; slot_sh] 0 (t_device t) (t_dtype t)
    (t_rows t) (t_cols t) 0.

Definition where_ (this cond a b : positive) : st session unit :=
  slot_c ← slot_of cond;
  slot_a ← slot_of a;
  slot_b ← slot_of b;
  tc ← get_obj cond;
  ta ← get_obj a;
  tb ← get_obj b;
  let r := binary_shape ta tb in
  let '(rows, cols) := broadcast_shape3 tc ta tb in
  record_op this TraceOpKind.Where [slot_c; slot_a; slot_b] 0 (t_device r) (t_dtype r) rows cols 0.
End Ops.
End Traced.
