(* ===== verification/TracePlan.v ===== *)
(** * Fusion plans

    src/jit/trace_plan.h and src/jit/trace_plan.cpp: what the GPU emitters
    need to know about a traced graph before they write code. A builder that
    returns [false] leaves a plan its callers discard: here it yields [None].
    Integer overflow and out-of-range indexing are [Undef]. *)
From S2P Require Import Prelude Dtype Device Heap Tensor TraceDag.

Record BufferSpec : Type := mkSpec { bs_node : Z; bs_dtype : Dtype; bs_bcast : BroadcastKind }.

Record ElementwisePlan : Type := mkPlan {
  p_inputs : list BufferSpec;
  p_outputs : list BufferSpec;
  p_rows : Z;
  p_cols : Z;
  p_numel : Z;
  p_vec : Z;
  p_row_bcast : bool;
  p_col_bcast : bool
}.

Inductive RowReduce : Type := RMS | Mean.

Record RowNormPlan : Type := mkRowNorm {
  r_ew : ElementwisePlan;
  r_reduce : RowReduce;
  r_norm : Z;
  r_x : Z;
  r_gamma : Z;
  r_beta : Z;
  r_eps : Z;
  r_pre_ids : list Z;
  r_post_ids : list Z;
  r_pre_input : list bool;
  r_post_input : list bool;
  r_x_output : Z;
  r_pre_output : list bool
}.

Definition elem_bytes (d : Dtype) : Z :=
  match d with FP32 => 4 | FP16 | BF16 => 2 | _ => 0 end.

Definition dtype_supported (d : Dtype) : bool := negb (elem_bytes d =? 0).

Definition vec_width_for (d : Dtype) : Z :=
  let e := elem_bytes d in if negb (e =? 0) then Z.quot 16 e else 1.

Definition kRowThreads : Z := 256.

(** The two loops of [row_norm_geometry]: threads per row from 32 up, rows
    per block from [kRowThreads / tpr] down. Each takes three rounds at most. *)
Fixpoint grow_threads (fuel : nat) (per_row t : Z) : Z :=
  match fuel with
  | O => t
  | S f => if (t <? per_row) && (t <? kRowThreads) then grow_threads f per_row (Z.shiftl t 1) else t
  end.

Fixpoint shrink_rows (fuel : nat) (rows r : Z) : Z :=
  match fuel with
  | O => r
  | S f => if (r >? 1) && negb (Z.rem rows r =? 0) then shrink_rows f rows (Z.shiftr r 1) else r
  end.

Definition row_norm_geometry (cols rows lanes : Z) : res (Z * Z) :=
  let lanes := if lanes <? 1 then 1 else lanes in
  if (INT_MIN <=? cols + lanes) && (cols + lanes <=? INT_MAX) then
    let per_row := Z.quot (cols + lanes - 1) lanes in
    let t := grow_threads 8 per_row 32 in
    mret (t, shrink_rows 8 rows (Z.quot kRowThreads t))
  else Undef.

(** ** The elementwise plan *)

(** The loop of [build_plan] over the nodes, with the lane count. *)
Fixpoint plan_nodes (rows cols : Z) (ns : list TraceNode) (p : ElementwisePlan) (lanes : Z)
    : res (option (ElementwisePlan * Z)) :=
  match ns with
  | [] => mret (Some (p, lanes))
  | n :: r =>
      let is_in := TraceOpKind.eqb (n_op n) TraceOpKind.Input in
      let is_out := n_live n in
      if negb is_in && negb is_out then plan_nodes rows cols r p lanes
      else if negb (dtype_supported (n_dtype n)) then mret None
      else
        bk ← broadcast_of (n_rows n) (n_cols n) rows cols;
        let full := BroadcastKind.eqb bk BroadcastKind.Full in
        if full && negb (n_rows n * n_cols n =? p_numel p) then mret None
        else if is_out && negb full then mret None
        else
          let lanes := Z.min lanes (vec_width_for (n_dtype n)) in
          let spec := mkSpec (n_id n) (n_dtype n) bk in
          plan_nodes rows cols r
            (mkPlan (if is_in then p_inputs p ++ [spec] else p_inputs p)
               (if is_out then p_outputs p ++ [spec] else p_outputs p)
               (p_rows p) (p_cols p) (p_numel p) (p_vec p)
               (p_row_bcast p || BroadcastKind.eqb bk BroadcastKind.Row)
               (p_col_bcast p || BroadcastKind.eqb bk BroadcastKind.Col)) lanes
  end.

Definition set_vec (v : Z) (p : ElementwisePlan) : ElementwisePlan :=
  mkPlan (p_inputs p) (p_outputs p) (p_rows p) (p_cols p) (p_numel p) v (p_row_bcast p) (p_col_bcast p).

Definition build_plan (d : TraceDAG) : res (option ElementwisePlan) :=
  let '(rows, cols) := dominant_shape d in
  if (rows <=? 0) || (cols <=? 0) then mret None
  else
    r ← plan_nodes rows cols (nodes_ d) (mkPlan [] [] rows cols (rows * cols) 1 false false) 8;
    match r with
    | None => mret None
    | Some (p, lanes) =>
        match p_outputs p with
        | [] => mret None
        | _ =>
            let lanes := if negb (Z.rem (p_numel p) lanes =? 0) then 1 else lanes in
            let lanes := if (p_row_bcast p || p_col_bcast p) && negb (Z.rem cols lanes =? 0) then 1 else lanes in
            mret (Some (set_vec lanes p))
        end
    end.

(** ** The row-norm plan *)

Definition is_norm (n : TraceNode) : bool :=
  TraceOpKind.eqb (n_op n) TraceOpKind.RMSNorm || TraceOpKind.eqb (n_op n) TraceOpKind.LayerNorm.

(** The only reduction of the graph. *)
Definition find_norm (ns : list TraceNode) : option TraceNode :=
  match filter (fun n => is_norm n = true) ns with [n] => Some n | _ => None end.

(** The position of a node among the plan's buffers, or -1. *)
Fixpoint index_from (k : Z) (l : list BufferSpec) (node_id : Z) : Z :=
  match l with
  | [] => -1
  | s :: r => if bs_node s =? node_id then k else index_from (k + 1) r node_id
  end.
Definition input_index (p : ElementwisePlan) (node_id : Z) : Z := index_from 0 (p_inputs p) node_id.

(** [v[i]] and [v[i] = b] on a [std::vector<char>]. *)
Definition flag_at (l : list bool) (i : Z) : res bool :=
  if i <? 0 then Undef else match l !! Z.to_nat i with Some b => Ret b | None => Undef end.
Definition set_flag (b : bool) (l : list bool) (i : Z) : res (list bool) :=
  _ ← flag_at l i; mret (<[Z.to_nat i := b]> l).

Fixpoint mark_sources (srcs : list Z) (l : list bool) : res (list bool) :=
  match srcs with
  | [] => mret l
  | s :: r => if s >=? 0 then l ← set_flag true l s; mark_sources r l else mark_sources r l
  end.

(** The backward sweep over the nodes before position [i]. *)
Fixpoint sweep (ns : list TraceNode) (i : nat) (l : list bool) : res (list bool) :=
  match i with
  | O => mret l
  | S i =>
      b ← flag_at l (Z.of_nat i);
      if b : bool then
        match ns !! i with
        | Some n => l ← mark_sources (n_inputs n) l; sweep ns i l
        | None => Undef
        end
      else sweep ns i l
  end.

Definition in_pre_of (ns : list TraceNode) (norm : TraceNode) (x : Z) : res (list bool) :=
  l ← (if x >=? 0 then set_flag true (replicate (length ns) false) x else mret (replicate (length ns) false));
  l ← sweep ns (length ns) l;
  set_flag false l (n_id norm).

Fixpoint split_ids (norm_id : Z) (in_pre : list bool) (ns : list TraceNode) : res (list Z * list Z) :=
  match ns with
  | [] => mret ([], [])
  | n :: r =>
      if TraceOpKind.eqb (n_op n) TraceOpKind.Input || (n_id n =? norm_id) then split_ids norm_id in_pre r
      else
        b ← flag_at in_pre (n_id n);
        ids ← split_ids norm_id in_pre r;
        mret (if b : bool then (n_id n :: ids.1, ids.2) else (ids.1, n_id n :: ids.2))
  end.

Fixpoint flags_of (in_pre : list bool) (l : list BufferSpec) : res (list bool) :=
  match l with
  | [] => mret []
  | s :: r => b ← flag_at in_pre (bs_node s); fs ← flags_of in_pre r; mret (b :: fs)
  end.

(** The last output that is the node [x], or -1. *)
Fixpoint last_index_from (k acc : Z) (l : list BufferSpec) (x : Z) : Z :=
  match l with
  | [] => acc
  | s :: r => last_index_from (k + 1) (if bs_node s =? x then k else acc) r x
  end.

(** Whether a post node reads, of the pre values, only [x]. *)
Fixpoint only_needs_x (ns : list TraceNode) (in_pre : list bool) (x : Z) (srcs : list Z) : res bool :=
  match srcs with
  | [] => mret true
  | s :: r =>
      if (s <? 0) || (s =? x) then only_needs_x ns in_pre x r
      else
        match node_at ns s with
        | None => Undef
        | Some m =>
            if TraceOpKind.eqb (n_op m) TraceOpKind.Input then only_needs_x ns in_pre x r
            else b ← flag_at in_pre s; ok ← only_needs_x ns in_pre x r; mret (negb b && ok)
        end
  end.

Fixpoint post_only_needs_x (ns : list TraceNode) (in_pre : list bool) (x : Z) (ids : list Z) : res bool :=
  match ids with
  | [] => mret true
  | i :: r =>
      match node_at ns i with
      | None => Undef
      | Some n =>
          a ← only_needs_x ns in_pre x (n_inputs n);
          b ← post_only_needs_x ns in_pre x r;
          mret (a && b)
      end
  end.

(** The inputs a list of sources reads, marked. *)
Definition mark_inputs (ins : list BufferSpec) (srcs : list Z) (l : list bool) : list bool :=
  zip_with (fun s b => b || existsb (fun src => (src >=? 0) && (bs_node s =? src)) srcs) ins l.

Fixpoint mark_post (ns : list TraceNode) (ins : list BufferSpec) (ids : list Z) (l : list bool)
    : res (list bool) :=
  match ids with
  | [] => mret l
  | i :: r =>
      match node_at ns i with
      | None => Undef
      | Some n => mark_post ns ins r (mark_inputs ins (n_inputs n) l)
      end
  end.

(** [scalar > 0.0f] on a pattern. *)
Definition f32_positive (s : Z) : bool := (0 <? s) && (s <=? 0x7F800000).

(** [post_input]: with the reload it is gamma, beta and what the post chain
    reads; without it, everything. *)
Definition post_inputs (ns : list TraceNode) (p : ElementwisePlan) (x_output gamma beta : Z) (post : list Z)
    : res (list bool) :=
  if x_output >=? 0 then
    let none := replicate (length (p_inputs p)) false in
    l ← (if gamma >=? 0 then set_flag true none gamma else mret none);
    l ← (if beta >=? 0 then set_flag true l beta else mret l);
    mark_post ns (p_inputs p) post l
  else mret (replicate (length (p_inputs p)) true).

Definition build_row_norm_plan (d : TraceDAG) : res (option RowNormPlan) :=
  let ns := nodes_ d in
  match find_norm ns with
  | None => mret None
  | Some norm =>
      match n_inputs norm with
      | [] => mret None
      | x :: gains =>
          r ← build_plan d;
          match r with
          | None => mret None
          | Some ew =>
              let gamma := match gains with g :: _ => input_index ew g | [] => -1 end in
              let beta := match gains with _ :: b :: _ => input_index ew b | _ => -1 end in
              if negb (p_cols ew =? n_cols norm) || negb (p_rows ew =? n_rows norm) then mret None
              else if match gains with [] => false | _ => gamma <? 0 end then mret None
              else if match gains with _ :: _ :: _ => beta <? 0 | _ => false end then mret None
              else
                in_pre ← in_pre_of ns norm x;
                ids ← split_ids (n_id norm) in_pre ns;
                pre_input ← flags_of in_pre (p_inputs ew);
                pre_output ← flags_of in_pre (p_outputs ew);
                x_output ← (match ids.1 with
                            | [] => mret (-1)
                            | _ =>
                                ok ← post_only_needs_x ns in_pre x ids.2;
                                let x_out := last_index_from 0 (-1) (p_outputs ew) x in
                                mret (if (x_out >=? 0) && ok then x_out else -1)
                            end);
                if (x_output <? 0) && existsb (fun w => w) pre_output then mret None
                else
                  post_input ← post_inputs ns ew x_output gamma beta ids.2;
                  let ew := if negb (Z.rem (p_cols ew) (p_vec ew) =? 0) then set_vec 1 ew else ew in
                  mret (Some (mkRowNorm ew
                    (if TraceOpKind.eqb (n_op norm) TraceOpKind.LayerNorm then Mean else RMS)
                    (n_id norm) x gamma beta (if f32_positive (n_scalar norm) then n_scalar norm else 0x3727C5AC)
                    ids.1 ids.2 pre_input post_input x_output pre_output))
          end
      end
  end.

Definition all_fp32 (d : TraceDAG) : bool := forallb (fun n => dtype_eqb (n_dtype n) FP32) (nodes_ d).
