(* ===== verification/TraceCache.v ===== *)
(** * The compiled-trace cache

    [TraceCache] of src/jit/trace_cache.h and src/jit/trace_cache.cpp: a
    lock-free, open-addressed table of compiled traces by signature, whose
    slots are claimed by a compare-and-exchange of their key and then
    published. The calls are given first as one thread runs them alone
    ([lookup], [insert]), then as the atomic steps threads interleave
    ([step]). A handle is any type: the cache only stores it. *)
From S2P Require Import Prelude.

Section Cache.
Context {H : Type}.

(** [owner] is written before [published] is set; a slot's [published]
    pointer is its owner's. *)
Record Entry : Type := mkEntry { e_key : Z; e_published : bool; e_owner : option H }.

Definition kCapacity : Z := 1024.

Record TraceCache : Type := mkCache {
  table_ : list Entry;
  hit_count_ : Z;
  miss_count_ : Z
}.

Definition empty_entry : Entry := mkEntry 0 false None.
Definition fresh_cache : TraceCache := mkCache (replicate (Z.to_nat kCapacity) empty_entry) 0 0.

Definition normalize (h : Z) : Z := if negb (h =? 0) then h else 0x9E3779B97F4A7C15.
Definition slot_of (h : Z) : Z := Z.land h (kCapacity - 1).

Definition next_slot (i : Z) : Z := Z.land (i + 1) (kCapacity - 1).

Definition entry_at (t : list Entry) (i : Z) : Entry := default empty_entry (t !! Z.to_nat i).

Definition count_hit (c : TraceCache) : TraceCache := mkCache (table_ c) (u64 (hit_count_ c + 1)) (miss_count_ c).
Definition count_miss (c : TraceCache) : TraceCache := mkCache (table_ c) (hit_count_ c) (u64 (miss_count_ c + 1)).

(** The probe loop of [lookup]: the owner of the published slot of the key it
    ends on, if it does. *)
Fixpoint lookup_probe (probes : nat) (t : list Entry) (k i : Z) : option (option H) :=
  match probes with
  | O => None
  | S n =>
      let e := entry_at t i in
      if e_key e =? 0 then None
      else if negb (e_key e =? k) then lookup_probe n t k (next_slot i)
      else if negb (e_published e) then None
      else Some (e_owner e)
  end.

Definition lookup (hash : Z) (c : TraceCache) : option H * TraceCache :=
  let k := normalize hash in
  match lookup_probe (Z.to_nat kCapacity) (table_ c) k (slot_of k) with
  | Some owner => (owner, count_hit c)
  | None => (None, count_miss c)
  end.

Fixpoint insert_probe (probes : nat) (t : list Entry) (k i : Z) (h : H) : list Entry :=
  match probes with
  | O => t
  | S n =>
      let e := entry_at t i in
      if e_key e =? 0 then <[Z.to_nat i := mkEntry k true (Some h)]> t
      else if e_key e =? k then t
      else insert_probe n t k (next_slot i) h
  end.

Definition insert (hash : Z) (handle : option H) (c : TraceCache) : TraceCache :=
  match handle with
  | None => c
  | Some h =>
      let k := normalize hash in
      mkCache (insert_probe (Z.to_nat kCapacity) (table_ c) k (slot_of k) h) (hit_count_ c) (miss_count_ c)
  end.

Definition clear (c : TraceCache) : TraceCache :=
  mkCache (map (fun e => mkEntry 0 false None) (table_ c)) 0 0.

(** ** Threads

    What a thread is in the middle of: a probe of [lookup] or [insert] at slot
    [i] with some probes left, or, in [insert], between the claim of a slot and
    its publication. [got] is what its lookups returned and [put] what its calls
    of [insert] were given, by signature. *)
Inductive pc : Type :=
  | Idle
  | Looking (k i : Z) (probes : nat)
  | Inserting (k i : Z) (probes : nat) (h : H)
  | Claimed (i : Z) (h : H)
  | Written (i : Z).

Record thread : Type := mkThread { th_pc : pc; th_got : list (Z * option H); th_put : list (Z * H) }.

Definition at_pc (p : pc) (t : thread) : thread := mkThread p (th_got t) (th_put t).
Definition returns (k : Z) (r : option H) (t : thread) : thread := mkThread Idle (th_got t ++ [(k, r)]) (th_put t).
Definition inserts (k : Z) (h : H) (t : thread) : thread :=
  mkThread (Inserting k (slot_of k) (Z.to_nat kCapacity) h) (th_got t) (th_put t ++ [(k, h)]).

(** One atomic action of a thread on the table: the load of a key, the
    compare-and-exchange, the write of the owner, the release store of
    [published]. The shared counters are the table's. *)
Inductive act : thread -> TraceCache -> thread -> TraceCache -> Prop :=
  | act_lookup t c hash : th_pc t = Idle ->
      act t c (at_pc (Looking (normalize hash) (slot_of (normalize hash)) (Z.to_nat kCapacity)) t) c
  | act_look_end t c k i : th_pc t = Looking k i 0 ->
      act t c (returns k None t) (count_miss c)
  | act_look_empty t c k i n : th_pc t = Looking k i (S n) -> e_key (entry_at (table_ c) i) = 0 ->
      act t c (returns k None t) (count_miss c)
  | act_look_next t c k i n : th_pc t = Looking k i (S n) ->
      e_key (entry_at (table_ c) i) <> 0 -> e_key (entry_at (table_ c) i) <> k ->
      act t c (at_pc (Looking k (next_slot i) n) t) c
  | act_look_unpublished t c k i n : th_pc t = Looking k i (S n) ->
      e_key (entry_at (table_ c) i) <> 0 -> e_key (entry_at (table_ c) i) = k ->
      e_published (entry_at (table_ c) i) = false ->
      act t c (returns k None t) (count_miss c)
  | act_look_found t c k i n : th_pc t = Looking k i (S n) ->
      e_key (entry_at (table_ c) i) <> 0 -> e_key (entry_at (table_ c) i) = k ->
      e_published (entry_at (table_ c) i) = true ->
      act t c (returns k (e_owner (entry_at (table_ c) i)) t) (count_hit c)
  | act_insert t c hash h : th_pc t = Idle ->
      act t c (inserts (normalize hash) h t) c
  | act_insert_full t c k i h : th_pc t = Inserting k i 0 h -> act t c (at_pc Idle t) c
  | act_claim t c k i n h : th_pc t = Inserting k i (S n) h -> e_key (entry_at (table_ c) i) = 0 ->
      act t c (at_pc (Claimed i h) t)
        (mkCache (<[Z.to_nat i := mkEntry k (e_published (entry_at (table_ c) i)) (e_owner (entry_at (table_ c) i))]>
           (table_ c)) (hit_count_ c) (miss_count_ c))
  | act_insert_present t c k i n h : th_pc t = Inserting k i (S n) h -> e_key (entry_at (table_ c) i) <> 0 ->
      e_key (entry_at (table_ c) i) = k -> act t c (at_pc Idle t) c
  | act_insert_next t c k i n h : th_pc t = Inserting k i (S n) h -> e_key (entry_at (table_ c) i) <> 0 ->
      e_key (entry_at (table_ c) i) <> k -> act t c (at_pc (Inserting k (next_slot i) n h) t) c
  | act_write_owner t c i h : th_pc t = Claimed i h ->
      act t c (at_pc (Written i) t)
        (mkCache (<[Z.to_nat i := mkEntry (e_key (entry_at (table_ c) i)) (e_published (entry_at (table_ c) i)) (Some h)]>
           (table_ c)) (hit_count_ c) (miss_count_ c))
  | act_publish t c i : th_pc t = Written i ->
      act t c (at_pc Idle t)
        (mkCache (<[Z.to_nat i := mkEntry (e_key (entry_at (table_ c) i)) true (e_owner (entry_at (table_ c) i))]>
           (table_ c)) (hit_count_ c) (miss_count_ c)).

(** Any thread takes the next step. *)
Definition threads : Type := list thread.

Inductive step : threads * TraceCache -> threads * TraceCache -> Prop :=
  | step_thread ts j t t' c c' : ts !! j = Some t -> act t c t' c' -> step (ts, c) (<[j := t']> ts, c').
End Cache.
Arguments TraceCache : clear implicits.
Arguments Entry : clear implicits.
Arguments thread : clear implicits.
Arguments pc : clear implicits.
