(* ===== verification/TraceCacheSpec.v ===== *)
(** * The trace cache is a map, and stays one under threads

    One thread alone sees a finite map from signatures to handles whose first
    insertion wins and which, once full, forgets what it is given. Threads
    that interleave at the level of the table's atomic steps never see two
    handles for one signature. *)
From S2P Require Import Prelude TraceCache.

Section Spec.
Context {H : Type}.
Implicit Types (t : list (Entry H)) (c : TraceCache H).

Definition key_at t (i : Z) : Z := e_key (entry_at t i).

(** The [j]-th slot a signature is looked for in. *)
Definition path (k : Z) (j : nat) : Z := (k + Z.of_nat j) mod kCapacity.

Definition capacity : nat := Z.to_nat kCapacity.

(** The first [j] slots of [k]'s path hold other signatures. *)
Definition passed t (k : Z) (j : nat) : Prop :=
  forall j', (j' < j)%nat -> key_at t (path k j') <> 0 /\ key_at t (path k j') <> k.

(** A slot in use is where its own signature is looked for. *)
Definition placed t : Prop :=
  forall i, 0 <= i < kCapacity -> key_at t i <> 0 ->
    exists j, (j < capacity)%nat /\ i = path (key_at t i) j /\ passed t (key_at t i) j.

Definition complete t : Prop :=
  forall i, 0 <= i < kCapacity -> key_at t i <> 0 ->
    e_published (entry_at t i) = true /\ is_Some (e_owner (entry_at t i)).

Record cache_ok t : Prop := {
  ok_length : length t = capacity;
  ok_placed : placed t;
  ok_complete : complete t
}.

Lemma path_range k j : 0 <= path k j < kCapacity.
Proof. apply Z.mod_pos_bound. done. Qed.

Lemma slot_of_path k : slot_of k = path k 0.
Proof.
  unfold slot_of, path, kCapacity. rewrite Z.add_0_r. change (1024 - 1) with (Z.ones 10).
  by rewrite Z.land_ones by lia.
Qed.

Lemma next_slot_path k j : next_slot (path k j) = path k (S j).
Proof.
  unfold next_slot, path, kCapacity. change (1024 - 1) with (Z.ones 10). rewrite Z.land_ones by lia.
  change (2 ^ 10) with 1024. rewrite Zplus_mod_idemp_l. f_equal. lia.
Qed.

(** Every slot is on every path. *)
Lemma path_covers k i : 0 <= i < kCapacity -> exists j, (j < capacity)%nat /\ path k j = i.
Proof.
  intros Hi. exists (Z.to_nat ((i - k) mod kCapacity)). unfold capacity.
  pose proof (Z.mod_pos_bound (i - k) kCapacity ltac:(done)). split; [lia|].
  unfold path. rewrite Z2Nat.id by lia. rewrite Zplus_mod_idemp_r.
  replace (k + (i - k)) with i by lia. by apply Z.mod_small.
Qed.

Lemma passed_S t k j : passed t k j -> key_at t (path k j) <> 0 -> key_at t (path k j) <> k -> passed t k (S j).
Proof.
  intros Hp H0 Hk j' Hj. destruct (decide (j' = j)) as [->|]; [done|]. apply Hp. lia.
Qed.

(** Where a path ends: at the first slot that is free or holds the key, or
    nowhere. *)
Definition ends t (k : Z) (j : nat) : Prop :=
  (j < capacity)%nat /\ passed t k j /\ (key_at t (path k j) = 0 \/ key_at t (path k j) = k).

Lemma path_end t k : (exists j, ends t k j) \/ passed t k capacity.
Proof.
  cut (forall n j, (n + j = capacity)%nat -> passed t k j -> (exists j, ends t k j) \/ passed t k capacity).
  { intros Hc. apply (Hc capacity 0%nat); [lia|]. intros j Hj. lia. }
  induction n as [|n IH]; intros j Hn Hp; [right; by replace capacity with j by lia|].
  destruct (decide (key_at t (path k j) = 0)); [left; exists j; unfold ends; split; [lia|auto]|].
  destruct (decide (key_at t (path k j) = k)); [left; exists j; unfold ends; split; [lia|auto]|].
  apply (IH (S j)); [lia|by apply passed_S].
Qed.

Lemma ends_unique t k j j' : ends t k j -> ends t k j' -> j = j'.
Proof.
  intros (_ & Hp & Hj) (_ & Hp' & Hj'). destruct (lt_eq_lt_dec j j') as [[Hlt|]|Hlt]; [|done|].
  - destruct (Hp' j Hlt). tauto.
  - destruct (Hp j' ltac:(lia)). tauto.
Qed.

Lemma probe_passed {R} (probe : nat -> Z -> R) (t : list (Entry H)) k :
  (forall n i, key_at t i <> 0 -> key_at t i <> k -> probe (S n) i = probe n (next_slot i)) ->
  forall j n, passed t k j -> probe (j + n)%nat (slot_of k) = probe n (path k j).
Proof.
  intros Hs. induction j as [|j IH]; intros n Hp; [by rewrite slot_of_path|].
  destruct (Hp j ltac:(lia)) as [H0 Hk].
  replace (S j + n)%nat with (j + S n)%nat by lia. rewrite IH by (intros j' ?; apply Hp; lia).
  by rewrite Hs, next_slot_path.
Qed.

Definition probe_result t (k : Z) (j : nat) : option (option H) :=
  if key_at t (path k j) =? 0 then None
  else if negb (e_published (entry_at t (path k j))) then None else Some (e_owner (entry_at t (path k j))).

Lemma lookup_probe_eq t k :
  (forall j, ends t k j -> lookup_probe capacity t k (slot_of k) = probe_result t k j) /\
  (passed t k capacity -> lookup_probe capacity t k (slot_of k) = None).
Proof.
  assert (Hstep : forall n i, key_at t i <> 0 -> key_at t i <> k ->
            lookup_probe (S n) t k i = lookup_probe n t k (next_slot i)).
  { intros n i H0 Hk. cbn [lookup_probe]. apply Z.eqb_neq in H0, Hk. unfold key_at in *. by rewrite H0, Hk. }
  split.
  - intros j (Hj & Hp & He). replace capacity with (j + S (capacity - j - 1))%nat by lia.
    rewrite (probe_passed (fun n i => lookup_probe n t k i) t k Hstep) by done.
    cbn [lookup_probe]. unfold probe_result, key_at in *.
    destruct (Z.eqb_spec (e_key (entry_at t (path k j))) 0); [done|].
    destruct He as [|He]; [done|]. by rewrite He, Z.eqb_refl.
  - intros Hp. replace capacity with (capacity + 0)%nat by lia.
    by rewrite (probe_passed (fun n i => lookup_probe n t k i) t k Hstep).
Qed.

Lemma insert_probe_eq t k h :
  (forall j, ends t k j -> insert_probe capacity t k (slot_of k) h =
     if key_at t (path k j) =? 0 then <[Z.to_nat (path k j) := mkEntry k true (Some h)]> t else t) /\
  (passed t k capacity -> insert_probe capacity t k (slot_of k) h = t).
Proof.
  assert (Hstep : forall n i, key_at t i <> 0 -> key_at t i <> k ->
            insert_probe (S n) t k i h = insert_probe n t k (next_slot i) h).
  { intros n i H0 Hk. cbn [insert_probe]. apply Z.eqb_neq in H0, Hk. unfold key_at in *. by rewrite H0, Hk. }
  split.
  - intros j (Hj & Hp & He). replace capacity with (j + S (capacity - j - 1))%nat by lia.
    rewrite (probe_passed (fun n i => insert_probe n t k i h) t k Hstep) by done.
    cbn [insert_probe]. unfold key_at in *.
    destruct (Z.eqb_spec (e_key (entry_at t (path k j))) 0); [done|].
    destruct He as [|He]; [done|]. by rewrite He, Z.eqb_refl.
  - intros Hp. replace capacity with (capacity + 0)%nat by lia.
    by rewrite (probe_passed (fun n i => insert_probe n t k i h) t k Hstep).
Qed.

(** ** Writing one slot *)

Lemma entry_insert t i m e : length t = capacity -> 0 <= i < kCapacity -> 0 <= m < kCapacity ->
  entry_at (<[Z.to_nat i := e]> t) m = if m =? i then e else entry_at t m.
Proof.
  intros Hl Hi Hm. unfold entry_at, capacity in *. destruct (Z.eqb_spec m i) as [->|Hne].
  - by rewrite list_lookup_insert_eq by lia.
  - by rewrite list_lookup_insert_ne by lia.
Qed.

Lemma key_insert t i m e : length t = capacity -> 0 <= i < kCapacity -> 0 <= m < kCapacity ->
  key_at (<[Z.to_nat i := e]> t) m = if m =? i then e_key e else key_at t m.
Proof. intros. unfold key_at. rewrite entry_insert by done. by destruct (m =? i). Qed.

(** A free slot taken by a signature stays passed for the others, and paths
    already walked stay walked. *)
Lemma passed_insert t i e k j : length t = capacity -> 0 <= i < kCapacity -> key_at t i = 0 ->
  passed t k j -> passed (<[Z.to_nat i := e]> t) k j.
Proof.
  intros Hl Hi H0 Hp j' Hj. destruct (Hp j' Hj) as [Hn Hk].
  rewrite key_insert by (done || apply path_range). destruct (Z.eqb_spec (path k j') i) as [E|]; [|done].
  rewrite E in Hn. done.
Qed.

Lemma placed_insert t k j e : length t = capacity -> placed t -> (j < capacity)%nat -> passed t k j ->
  key_at t (path k j) = 0 -> e_key e = k -> k <> 0 -> placed (<[Z.to_nat (path k j) := e]> t).
Proof.
  intros Hl Hpl Hj Hp H0 He Hk i Hi. pose proof (path_range k j).
  rewrite key_insert by done. destruct (Z.eqb_spec i (path k j)) as [->|Hne].
  - intros _. rewrite He. exists j. split; [done|]. split; [done|]. by apply passed_insert.
  - intros Hki. destruct (Hpl i Hi Hki) as (j' & ? & ? & ?). exists j'. split; [done|]. split; [done|].
    by apply passed_insert.
Qed.

(** Writing a slot without changing its key moves nothing. *)
Lemma placed_same t i e : length t = capacity -> 0 <= i < kCapacity -> placed t -> e_key e = key_at t i ->
  placed (<[Z.to_nat i := e]> t).
Proof.
  intros Hl Hi Hpl He.
  assert (Hk : forall m, 0 <= m < kCapacity -> key_at (<[Z.to_nat i := e]> t) m = key_at t m).
  { intros m Hm. rewrite key_insert by done. by destruct (Z.eqb_spec m i) as [->|]. }
  intros m Hm. rewrite Hk by done. intros Hn. destruct (Hpl m Hm Hn) as (j & Hj & E & Hp).
  exists j. split; [done|]. split; [done|]. intros j' Hj'. rewrite Hk by apply path_range. by apply Hp.
Qed.

(** A signature has one slot. *)
Lemma placed_unique t i m : placed t -> 0 <= i < kCapacity -> 0 <= m < kCapacity ->
  key_at t i <> 0 -> key_at t i = key_at t m -> i = m.
Proof.
  intros Hpl Hi Hm H0 E. destruct (Hpl i Hi H0) as (j & Hj & Ei & Hp).
  destruct (Hpl m Hm ltac:(congruence)) as (j' & Hj' & Em & Hp'). rewrite <- E in Em, Hp'.
  assert (j = j') as ->; [|congruence].
  apply (ends_unique t (key_at t i)); (split; [done|]; split; [done|]; right); congruence.
Qed.

Lemma normalize_nonzero h : normalize h <> 0.
Proof. unfold normalize. destruct (Z.eqb_spec h 0); [done|done]. Qed.

Lemma fresh_cache_ok : cache_ok (table_ (fresh_cache (H := H))).
Proof.
  assert (Hk : forall i, entry_at (table_ (fresh_cache (H := H))) i = empty_entry).
  { intros i. unfold entry_at, fresh_cache. cbn [table_].
    destruct (replicate _ _ !! _) eqn:E; [|done]. by apply lookup_replicate in E as [-> _]. }
  split; [apply length_replicate|..]; intros i Hi; unfold key_at; by rewrite Hk.
Qed.

Lemma insert_ok t k h : cache_ok t -> k <> 0 -> cache_ok (insert_probe capacity t k (slot_of k) h).
Proof.
  intros Hok Hk0. destruct (insert_probe_eq t k h) as [He Hf].
  destruct (path_end t k) as [(j & Hj)|Hp]; [|by rewrite Hf].
  rewrite (He j Hj). destruct (Z.eqb_spec (key_at t (path k j)) 0) as [H0|]; [|done].
  destruct Hok as [Hl Hpl Hc], Hj as (Hj & Hp & _). pose proof (path_range k j).
  split; [by rewrite length_insert|by apply placed_insert|].
  intros i Hi. unfold key_at. rewrite entry_insert by done.
  destruct (i =? path k j); [by intros _; split; [|eexists]|by apply Hc].
Qed.

(** The cache as a map. *)
Definition handle_of c (hash : Z) : option H :=
  let k := normalize hash in
  match lookup_probe capacity (table_ c) k (slot_of k) with Some o => o | None => None end.

Lemma probe_result_key t k j : cache_ok t -> ends t k j -> k <> 0 -> forall o, probe_result t k j = Some o ->
  key_at t (path k j) = k /\ is_Some o /\ o = e_owner (entry_at t (path k j)).
Proof.
  intros Hok (Hj & Hp & He) Hk o. unfold probe_result. pose proof (path_range k j).
  destruct (Z.eqb_spec (key_at t (path k j)) 0) as [|Hn]; [done|]. destruct He as [|He]; [done|].
  destruct (ok_complete _ Hok (path k j) ltac:(done) Hn) as [-> Ho]. by intros [= <-].
Qed.

Lemma lookup_hit c hash o : cache_ok (table_ c) ->
  lookup_probe capacity (table_ c) (normalize hash) (slot_of (normalize hash)) = Some o -> is_Some o.
Proof.
  intros Hok. destruct (lookup_probe_eq (table_ c) (normalize hash)) as [He Hf].
  destruct (path_end (table_ c) (normalize hash)) as [(j & Hj)|Hp]; [|by rewrite Hf].
  rewrite (He j Hj). intros E. by eapply probe_result_key; [| |apply normalize_nonzero|].
Qed.

Lemma probe_at_end t k j : cache_ok t -> ends t k j -> k <> 0 ->
  lookup_probe capacity t k (slot_of k) =
    if key_at t (path k j) =? 0 then None else Some (e_owner (entry_at t (path k j))).
Proof.
  intros Hok Hj Hk. rewrite (proj1 (lookup_probe_eq t k) j Hj). unfold probe_result.
  destruct (Z.eqb_spec (key_at t (path k j)) 0) as [|Hn]; [done|].
  by destruct (ok_complete _ Hok _ (path_range k j) Hn) as [-> _].
Qed.

(** What a lookup finds is the owner of the key's slot, if it has one. *)
Lemma probe_found t k i : cache_ok t -> k <> 0 -> 0 <= i < kCapacity -> key_at t i = k ->
  lookup_probe capacity t k (slot_of k) = Some (e_owner (entry_at t i)).
Proof.
  intros Hok Hk Hi E. destruct (ok_placed _ Hok i Hi ltac:(congruence)) as (j & Hj & Ei & Hp).
  rewrite E in Ei, Hp. subst i. rewrite (probe_at_end t k j Hok); [|by unfold ends; auto|done].
  destruct (Z.eqb_spec (key_at t (path k j)) 0); [congruence|done].
Qed.

Lemma probe_missed t k : cache_ok t -> k <> 0 -> (forall i, 0 <= i < kCapacity -> key_at t i <> k) ->
  lookup_probe capacity t k (slot_of k) = None.
Proof.
  intros Hok Hk Hn. destruct (path_end t k) as [(j & Hj)|Hp]; [|by apply lookup_probe_eq].
  rewrite (probe_at_end t k j Hok Hj Hk). destruct Hj as (_ & _ & [->|E]); [done|].
  by destruct (Hn _ (path_range k j)).
Qed.

Lemma probe_cases t k : cache_ok t -> k <> 0 ->
  (exists i, 0 <= i < kCapacity /\ key_at t i = k /\
     lookup_probe capacity t k (slot_of k) = Some (e_owner (entry_at t i))) \/
  ((forall i, 0 <= i < kCapacity -> key_at t i <> k) /\ lookup_probe capacity t k (slot_of k) = None).
Proof.
  intros Hok Hk. destruct (path_end t k) as [(j & Hj)|Hp].
  - pose proof Hj as (_ & _ & [E|E]); [right|left; exists (path k j); split; [apply path_range|]; split; [done|];
      apply probe_found; auto using path_range].
    assert (Hn : forall i, 0 <= i < kCapacity -> key_at t i <> k).
    { intros i Hi Ei. destruct (ok_placed _ Hok i Hi ltac:(congruence)) as (j' & Hj' & Ei' & Hp').
      rewrite Ei in Ei', Hp'. assert (j = j') as ->; [|congruence].
      apply (ends_unique t k); [done|]. unfold ends. rewrite <- Ei'. auto. }
    split; [done|]. by apply probe_missed.
  - right. assert (Hn : forall i, 0 <= i < kCapacity -> key_at t i <> k).
    { intros i Hi. destruct (path_covers k i Hi) as (j & Hj & <-). by apply Hp. }
    split; [done|]. by apply probe_missed.
Qed.

Definition full c : Prop := forall i, 0 <= i < kCapacity -> key_at (table_ c) i <> 0.

(** A signature that is not there yet goes to a free slot, if there is one. *)
Lemma insert_absent t k h : cache_ok t -> k <> 0 -> (forall i, 0 <= i < kCapacity -> key_at t i <> k) ->
  (exists s, 0 <= s < kCapacity /\ key_at t s = 0 /\
     insert_probe capacity t k (slot_of k) h = <[Z.to_nat s := mkEntry k true (Some h)]> t) \/
  ((forall i, 0 <= i < kCapacity -> key_at t i <> 0) /\ insert_probe capacity t k (slot_of k) h = t).
Proof.
  intros Hok Hk Hn. destruct (insert_probe_eq t k h) as [He Hf].
  destruct (path_end t k) as [(j & Hj)|Hp].
  - left. exists (path k j). split; [apply path_range|]. pose proof Hj as (_ & _ & [E|E]).
    + split; [done|]. by rewrite (He j Hj), E.
    + by destruct (Hn _ (path_range k j)).
  - right. split; [|by apply Hf]. intros i Hi. destruct (path_covers k i Hi) as (j & Hj & <-). by apply Hp.
Qed.
End Spec.

Section Map.
Context {H : Type}.
Implicit Types (c : TraceCache H).

Lemma lookup_handle c hash : (lookup hash c).1 = handle_of c hash.
Proof. unfold lookup, handle_of, capacity. by destruct (lookup_probe _ _ _ _). Qed.

Lemma lookup_counts c hash : cache_ok (table_ c) ->
  (lookup hash c).2 = if handle_of c hash is Some _ then mkCache (table_ c) ((hit_count_ c + 1) mod 2 ^ 64) (miss_count_ c)
                      else mkCache (table_ c) (hit_count_ c) ((miss_count_ c + 1) mod 2 ^ 64).
Proof.
  intros Hok. pose proof (lookup_hit c hash) as Hh. unfold lookup, handle_of, capacity in *.
  destruct (lookup_probe _ _ _ _) as [o|]; [|done]. by destruct (Hh o Hok eq_refl) as [h ->].
Qed.

Lemma clear_ok c hash : cache_ok (table_ c) -> cache_ok (table_ (clear c)) /\ handle_of (clear c) hash = None.
Proof.
  intros Hok. assert (E : forall i, entry_at (table_ (clear c)) i = empty_entry).
  { intros i. unfold entry_at, clear. cbn [table_]. rewrite list_lookup_fmap. by destruct (_ !! _). }
  assert (Hc : cache_ok (table_ (clear c))).
  { split; [cbn [clear table_]; rewrite length_map; apply Hok|..]; intros i Hi; unfold key_at; by rewrite E. }
  split; [done|]. unfold handle_of. rewrite probe_missed; [done|done|apply normalize_nonzero|].
  intros i Hi. unfold key_at. rewrite E. pose proof (normalize_nonzero hash). cbn. congruence.
Qed.

(** C21: the cache refines a finite map whose first insertion wins. A lookup
    returns the handle the map holds for the signature and changes nothing but
    one counter: a hit adds one to the hits, a miss one to the misses, modulo
    [2 ^ 64]. Inserting a handle under a signature that is there already, or into
    a full table, changes no later lookup, and otherwise it is what later lookups
    of that signature, and of no other, return; the counters stay. Clearing
    empties the map and zeroes the counters. *)
Theorem trace_cache_map hash h hash' c :
  cache_ok (table_ c) ->
  (cache_ok (table_ (clear c)) /\ handle_of (clear c) hash' = None /\
     hit_count_ (clear c) = 0 /\ miss_count_ (clear c) = 0) /\
  ((lookup hash c).1 = handle_of c hash /\
     (lookup hash c).2 = (if handle_of c hash is Some _ then mkCache (table_ c) ((hit_count_ c + 1) mod 2 ^ 64) (miss_count_ c)
                          else mkCache (table_ c) (hit_count_ c) ((miss_count_ c + 1) mod 2 ^ 64))) /\
  insert hash None c = c /\
  cache_ok (table_ (insert hash (Some h) c)) /\
  (hit_count_ (insert hash (Some h) c) = hit_count_ c /\ miss_count_ (insert hash (Some h) c) = miss_count_ c) /\
  (normalize hash' <> normalize hash -> handle_of (insert hash (Some h) c) hash' = handle_of c hash') /\
  (normalize hash' = normalize hash ->
     match handle_of c hash with
     | Some h0 => handle_of (insert hash (Some h) c) hash' = Some h0
     | None => handle_of (insert hash (Some h) c) hash' = Some h \/
               (full c /\ handle_of (insert hash (Some h) c) hash' = None)
     end).
Proof.
  intros Hok. destruct (clear_ok c hash' Hok) as [Hc Hc']. split; [by split_and!|].
  pose proof (normalize_nonzero hash) as Hk. pose proof (normalize_nonzero hash') as Hk'.
  split; [split; [apply lookup_handle|by apply lookup_counts]|]. split; [done|].
  pose proof (insert_ok (table_ c) (normalize hash) h Hok Hk) as Hok'.
  split; [done|]. split; [done|]. unfold handle_of. cbn [insert table_]. change (Z.to_nat kCapacity) with capacity.
  set (k := normalize hash) in *. set (k' := normalize hash') in *. set (t := table_ c) in *.
  destruct (probe_cases t k Hok Hk) as [(i & Hi & Ei & Ep)|[Hn Ep]].
  - rewrite Ep. assert (insert_probe capacity t k (slot_of k) h = t) as ->.
    { destruct (ok_placed _ Hok i Hi ltac:(congruence)) as (j & Hj & Ei' & Hp). rewrite Ei in Ei', Hp.
      rewrite (proj1 (insert_probe_eq t k h) j); [|by unfold ends; rewrite <- Ei'; auto].
      rewrite <- Ei', Ei. by destruct (Z.eqb_spec k 0). }
    split; [done|]. intros ->. rewrite Ep.
    destruct (ok_complete _ Hok i Hi ltac:(congruence)) as [_ [h0 ->]]. done.
  - rewrite Ep. destruct (insert_absent t k h Hok Hk Hn) as [(s & Hs & Es & E)|[Hf E]]; rewrite E in *.
    + assert (Hkey : forall i, 0 <= i < kCapacity -> key_at (<[Z.to_nat s:=mkEntry k true (Some h)]> t) i =
                if i =? s then k else key_at t i) by (intros; by rewrite key_insert by apply Hok || done).
      split; intros Hkk.
      * destruct (probe_cases t k' Hok Hk') as [(i & Hi & Ei & ->)|[Hn' ->]].
        -- assert (i <> s) by congruence. rewrite (probe_found _ k' i Hok' Hk' Hi).
           ++ rewrite entry_insert by apply Hok || done. by destruct (Z.eqb_spec i s).
           ++ rewrite Hkey by done. by destruct (Z.eqb_spec i s).
        -- rewrite probe_missed; [done..|]. intros i Hi. rewrite Hkey by done.
           destruct (Z.eqb_spec i s); [congruence|by apply Hn'].
      * left. rewrite Hkk. rewrite (probe_found _ k s Hok' Hk Hs).
        -- rewrite entry_insert by apply Hok || done. by rewrite Z.eqb_refl.
        -- rewrite Hkey by done. by rewrite Z.eqb_refl.
    + split; [done|]. intros ->. right. by rewrite Ep.
Qed.
End Map.

(** ** Interleaved threads *)

Section Threads.
Context {H : Type}.
Implicit Types (t : list (Entry H)) (c : TraceCache H) (th : thread H).

(** The slot a thread has claimed and not yet published. *)
Definition owns th : option Z :=
  match th_pc th with Claimed i _ => Some i | Written i => Some i | _ => None end.

Definition pc_ok t (p : pc H) : Prop :=
  match p with
  | Idle => True
  | Looking k i n => k <> 0 /\ 0 <= i < kCapacity
  | Inserting k i n h => k <> 0 /\ exists m, (m + n = capacity)%nat /\ i = path k m /\ passed t k m
  | Claimed i h => 0 <= i < kCapacity /\ key_at t i <> 0 /\ e_published (entry_at t i) = false
  | Written i => 0 <= i < kCapacity /\ key_at t i <> 0 /\ e_published (entry_at t i) = false /\
                 is_Some (e_owner (entry_at t i))
  end.

(** What a thread was given is in the table, published, for good. *)
Definition got_ok t th : Prop :=
  forall k h, (k, Some h) ∈ th_got th ->
    exists i, 0 <= i < kCapacity /\ key_at t i = k /\ k <> 0 /\ e_published (entry_at t i) = true /\
      e_owner (entry_at t i) = Some h.

Record config_ok (ts : list (thread H)) c : Prop := {
  co_length : length (table_ c) = capacity;
  co_placed : placed (table_ c);
  co_published : forall i, 0 <= i < kCapacity -> e_published (entry_at (table_ c) i) = true ->
    key_at (table_ c) i <> 0 /\ is_Some (e_owner (entry_at (table_ c) i));
  co_pc : forall j th, ts !! j = Some th -> pc_ok (table_ c) (th_pc th);
  co_got : forall j th, ts !! j = Some th -> got_ok (table_ c) th;
  co_excl : forall j j' th th' i, ts !! j = Some th -> ts !! j' = Some th' ->
    owns th = Some i -> owns th' = Some i -> j = j'
}.

(** The table only grows: keys in use and published entries stay. *)
Definition grows t t' : Prop :=
  (forall i, 0 <= i < kCapacity -> key_at t i <> 0 -> key_at t' i = key_at t i) /\
  (forall i, 0 <= i < kCapacity -> e_published (entry_at t i) = true -> entry_at t' i = entry_at t i).

Lemma passed_grows t t' k j : grows t t' -> passed t k j -> passed t' k j.
Proof.
  intros [Hg _] Hp j' Hj. destruct (Hp j' Hj) as [Hn Hk]. by rewrite Hg by (done || apply path_range).
Qed.

Lemma got_grows t t' th : grows t t' -> got_ok t th -> got_ok t' th.
Proof.
  intros [Hg Hp] Hgot k h Hin. destruct (Hgot k h Hin) as (i & Hi & Hk & Hn & Hpub & Ho). exists i.
  unfold key_at. by rewrite (Hp i Hi Hpub).
Qed.

Lemma pc_grows t t' th : grows t t' -> (forall i, owns th = Some i -> entry_at t' i = entry_at t i) ->
  pc_ok t (th_pc th) -> pc_ok t' (th_pc th).
Proof.
  intros Hg Ho. unfold owns in Ho. destruct (th_pc th) as [|k i n|k i n h|i h|i]; cbn; try done.
  - intros (Hk & m & Hm & Hi & Hp). split; [done|]. exists m. split; [done|]. split; [done|].
    by eapply passed_grows.
  - unfold key_at. by rewrite (Ho i eq_refl).
  - unfold key_at. by rewrite (Ho i eq_refl).
Qed.

Lemma grows_refl t : grows t t.
Proof. by split. Qed.

(** One thread moves, the table grows, and the slots of the other threads are
    left alone. *)
Lemma config_move ts c j th th' c' : config_ok ts c -> ts !! j = Some th ->
  grows (table_ c) (table_ c') -> length (table_ c') = capacity -> placed (table_ c') ->
  (forall i, 0 <= i < kCapacity -> e_published (entry_at (table_ c') i) = true ->
     key_at (table_ c') i <> 0 /\ is_Some (e_owner (entry_at (table_ c') i))) ->
  (forall j' u i, j' <> j -> ts !! j' = Some u -> owns u = Some i ->
     entry_at (table_ c') i = entry_at (table_ c) i /\ owns th' <> Some i) ->
  pc_ok (table_ c') (th_pc th') -> got_ok (table_ c') th' ->
  config_ok (<[j := th']> ts) c'.
Proof.
  intros C Hj Hg Hl Hpl Hpub Hoth Hpc Hgot.
  assert (Hlk : forall m u, <[j := th']> ts !! m = Some u -> (m = j /\ u = th') \/ (m <> j /\ ts !! m = Some u)).
  { intros m u. rewrite list_lookup_insert_Some. intuition. }
  split; [done|done|done|..].
  - intros m u [[-> ->]|[Hm Hu]]%Hlk; [done|]. apply (pc_grows (table_ c)); [done| |by eapply co_pc].
    intros i Hi. by apply (Hoth m u).
  - intros m u [[-> ->]|[Hm Hu]]%Hlk; [done|]. apply (got_grows (table_ c)); [done|by eapply co_got].
  - intros m m' u u' i [[-> ->]|[Hm Hu]]%Hlk [[-> ->]|[Hm' Hu']]%Hlk Hi Hi'; try done.
    + by destruct (proj2 (Hoth m' u' i Hm' Hu' Hi')).
    + by destruct (proj2 (Hoth m u i Hm Hu Hi)).
    + by eapply co_excl.
Qed.

(** The table stays as it is. *)
Lemma config_local ts c j th th' c' : config_ok ts c -> ts !! j = Some th -> table_ c' = table_ c ->
  owns th' = None -> pc_ok (table_ c) (th_pc th') -> got_ok (table_ c) th' -> config_ok (<[j := th']> ts) c'.
Proof.
  intros C Hj E Ho Hpc Hgot.
  apply (config_move ts c j th); rewrite ?E; try done; try apply C; try apply grows_refl.
  intros. by rewrite Ho.
Qed.

Lemma got_app t th k r p : got_ok t th ->
  (forall h, r = Some h -> exists i, 0 <= i < kCapacity /\ key_at t i = k /\ k <> 0 /\
     e_published (entry_at t i) = true /\ e_owner (entry_at t i) = Some h) ->
  got_ok t (mkThread p (th_got th ++ [(k, r)]) (th_put th)).
Proof.
  intros Hg Hr k' h. cbn. rewrite elem_of_app, list_elem_of_singleton. intros [Hin|[= -> <-]]; [by apply Hg|by apply Hr].
Qed.

(** A write to a slot of the table. *)
Lemma config_write ts c j th th' i e : config_ok ts c -> ts !! j = Some th -> 0 <= i < kCapacity ->
  key_at (table_ c) i = 0 \/ owns th = Some i ->
  (key_at (table_ c) i <> 0 -> e_key e = key_at (table_ c) i) ->
  e_published (entry_at (table_ c) i) = false ->
  (e_published e = true -> e_key e <> 0 /\ is_Some (e_owner e)) ->
  placed (<[Z.to_nat i := e]> (table_ c)) ->
  owns th' = None \/ owns th' = Some i ->
  (forall t', entry_at t' i = e -> pc_ok t' (th_pc th')) -> th_got th' = th_got th ->
  config_ok (<[j := th']> ts) (mkCache (<[Z.to_nat i := e]> (table_ c)) (hit_count_ c) (miss_count_ c)).
Proof.
  intros C Hj Hi Hfree Hkey Hunpub Hpub Hpl Hown Hpc Hgot. pose proof (co_length _ _ C) as Hl.
  assert (He : forall m, 0 <= m < kCapacity -> entry_at (<[Z.to_nat i := e]> (table_ c)) m =
                 if m =? i then e else entry_at (table_ c) m) by (intros; by apply entry_insert).
  assert (Hother : forall j' u, j' <> j -> ts !! j' = Some u -> owns u <> Some i).
  { intros j' u Hne Hu E. destruct Hfree as [H0|H0]; [|by apply Hne; eapply (co_excl _ _ C)].
    pose proof (co_pc _ _ C _ _ Hu) as P. unfold owns in E. destruct (th_pc u); try done; injection E as ->; cbn in P; tauto. }
  assert (Hg : grows (table_ c) (<[Z.to_nat i := e]> (table_ c))).
  { split; intros m Hm.
    - intros Hn. unfold key_at. rewrite He by done. destruct (Z.eqb_spec m i) as [->|]; [by apply Hkey|done].
    - intros Hp. rewrite He by done. destruct (Z.eqb_spec m i) as [->|]; [congruence|done]. }
  apply (config_move ts c j th); cbn [table_]; try done.
  - by rewrite length_insert.
  - intros m Hm. unfold key_at. rewrite He by done. destruct (m =? i); [done|by apply C].
  - intros j' u m Hne Hu Ho. pose proof (Hother j' u Hne Hu). assert (m <> i) by congruence. split.
    + pose proof (co_pc _ _ C _ _ Hu) as P. unfold owns in Ho. rewrite He; [by destruct (Z.eqb_spec m i)|].
      destruct (th_pc u); try done; injection Ho as ->; apply P.
    + destruct Hown as [->| ->]; congruence.
  - apply Hpc. rewrite He by done. by rewrite Z.eqb_refl.
  - unfold got_ok. rewrite Hgot. eapply got_grows; [done|by eapply co_got].
Qed.

Lemma act_ok ts c j th th' c' : config_ok ts c -> ts !! j = Some th -> act th c th' c' ->
  config_ok (<[j := th']> ts) c'.
Proof.
  intros C Hj A. pose proof (co_pc _ _ C _ _ Hj) as P. pose proof (co_got _ _ C _ _ Hj) as G.
  pose proof (fun i Hi => co_published _ _ C i Hi) as Pub.
  destruct A as [t c hash E|t c k i E|t c k i n E E0|t c k i n E E0 Ek|t c k i n E E0 Ek Ep|t c k i n E E0 Ek Ep
    |t c hash h E|t c k i h E|t c k i n h E E0|t c k i n h E E0 Ek|t c k i n h E E0 Ek|t c i h E|t c i E];
    rewrite E in P; cbn [pc_ok] in P.
  - apply (config_local ts c j t); try done. cbn. split; [apply normalize_nonzero|]. rewrite slot_of_path. apply path_range.
  - apply (config_local ts c j t); try done. by apply got_app.
  - apply (config_local ts c j t); try done. by apply got_app.
  - apply (config_local ts c j t); try done. destruct P as [Hk Hi]. split; [done|].
    unfold next_slot. change (kCapacity - 1) with (Z.ones 10). rewrite Z.land_ones by lia. by apply Z.mod_pos_bound.
  - apply (config_local ts c j t); try done. by apply got_app.
  - destruct P as [Hk Hi]. apply (config_local ts c j t); try done. apply got_app; [done|].
    intros h Eh. exists i. done.
  - apply (config_local ts c j t); try done. split; [apply normalize_nonzero|]. exists 0%nat.
    split; [done|]. split; [apply slot_of_path|]. intros j' Hj'. lia.
  - by apply (config_local ts c j t).
  - destruct P as (Hk & m & Hm & -> & Hp). pose proof (path_range k m) as Hr. unfold key_at in *.
    destruct (e_published (entry_at (table_ c) (path k m))) eqn:Epub.
    { by destruct (Pub _ Hr Epub). }
    apply (config_write ts c j t); cbn [e_key e_published e_owner]; try done; auto.
    + apply placed_insert; [apply C|apply C|lia|done|done|done|done].
    + cbn. intros t' Et. unfold key_at. rewrite Et. done.
  - by apply (config_local ts c j t).
  - destruct P as (Hk & m & Hm & -> & Hp). apply (config_local ts c j t); try done. split; [done|].
    exists (S m). split; [lia|]. split; [by rewrite next_slot_path|]. by apply passed_S.
  - destruct P as (Hi & Hn & Hu). apply (config_write ts c j t); cbn [e_key e_published e_owner]; try done.
    + right. unfold owns. by rewrite E.
    + apply placed_same; [apply C|done|apply C|done].
    + by right.
    + cbn. intros t' Et. unfold key_at. rewrite Et. cbn. by eauto.
  - destruct P as (Hi & Hn & Hu & Ho). apply (config_write ts c j t); cbn [e_key e_published e_owner]; try done.
    + right. unfold owns. by rewrite E.
    + apply placed_same; [apply C|done|apply C|done].
    + by left.
Qed.
(** *** Where handles come from *)

(** Some thread was given [h] to insert under [k]. *)
Definition was_put (ts : list (thread H)) (k : Z) (h : H) : Prop :=
  exists j th, ts !! j = Some th /\ (k, h) ∈ th_put th.

Definition pc_put t th : Prop :=
  match th_pc th with
  | Inserting k _ _ h => (k, h) ∈ th_put th
  | Claimed i h => (key_at t i, h) ∈ th_put th
  | _ => True
  end.

Record provenance (ts : list (thread H)) c : Prop := {
  pv_owner : forall i h, 0 <= i < kCapacity -> e_owner (entry_at (table_ c) i) = Some h ->
    key_at (table_ c) i <> 0 /\ was_put ts (key_at (table_ c) i) h;
  pv_pc : forall j th, ts !! j = Some th -> pc_put (table_ c) th
}.

Lemma grows_write t i e : length t = capacity -> 0 <= i < kCapacity ->
  (key_at t i <> 0 -> e_key e = key_at t i) -> e_published (entry_at t i) = false ->
  grows t (<[Z.to_nat i := e]> t).
Proof.
  intros Hl Hi Hk Hp. split; intros m Hm; unfold key_at; rewrite entry_insert by done.
  - destruct (Z.eqb_spec m i) as [->|]; [done|done].
  - destruct (Z.eqb_spec m i) as [->|]; [by rewrite Hp|done].
Qed.

Lemma act_grows ts c j th th' c' : config_ok ts c -> ts !! j = Some th -> act th c th' c' ->
  grows (table_ c) (table_ c').
Proof.
  intros C Hj A. pose proof (co_pc _ _ C _ _ Hj) as P. pose proof (co_length _ _ C) as Hl.
  destruct A as [| | | | | | | |t c k i n h E E0| | |t c i h E|t c i E]; try apply grows_refl;
    rewrite E in P; cbn [pc_ok table_] in *.
  - destruct P as (Hk & m & Hm & -> & Hp). pose proof (path_range k m) as Hr. apply grows_write; [done|done|done|].
    destruct (e_published _) eqn:Ep; [|done]. by destruct (co_published _ _ C _ Hr Ep).
  - destruct P as (Hi & _ & Hu). by apply grows_write.
  - destruct P as (Hi & _ & Hu & _). by apply grows_write.
Qed.

Lemma act_put th c th' c' : act th c th' c' -> forall kh, kh ∈ th_put th -> kh ∈ th_put th'.
Proof. intros A kh Hin. destruct A; cbn; try done. rewrite elem_of_app. by left. Qed.

Lemma pc_put_grows t t' th : grows t t' -> pc_ok t (th_pc th) -> pc_put t th -> pc_put t' th.
Proof.
  intros [Hg _]. unfold pc_put. destruct (th_pc th) as [| | |i h|]; cbn; try done. intros (Hi & Hn & _). by rewrite Hg.
Qed.

(** What a step does to the owners, and to its thread's own promise. *)
Lemma act_owner ts c j th th' c' i h : config_ok ts c -> ts !! j = Some th -> act th c th' c' ->
  pc_put (table_ c) th -> 0 <= i < kCapacity -> e_owner (entry_at (table_ c') i) = Some h ->
  (e_owner (entry_at (table_ c) i) = Some h) \/ (key_at (table_ c') i <> 0 /\ (key_at (table_ c') i, h) ∈ th_put th').
Proof.
  intros C Hj A Hput Hi. pose proof (co_pc _ _ C _ _ Hj) as P. pose proof (co_length _ _ C) as Hl.
  destruct A as [| | | | | | | |t c k m n h' E E0| | |t c m h' E|t c m E]; try (by left);
    unfold pc_put in Hput; rewrite E in P, Hput; cbn [pc_ok table_ th_put at_pc] in *.
  - destruct P as (Hk & q & Hq & -> & Hp). unfold key_at. rewrite !entry_insert by (done || apply path_range).
    destruct (Z.eqb_spec i (path k q)) as [->|]; by left.
  - destruct P as (Hm & Hn & Hu). unfold key_at. rewrite !entry_insert by done.
    destruct (Z.eqb_spec i m) as [->|]; [|by left]. intros [= <-]. by right.
  - destruct P as (Hm & Hn & Hu & Ho). rewrite !entry_insert by done. destruct (Z.eqb_spec i m) as [->|]; by left.
Qed.

Lemma act_pc_put ts c j th th' c' : config_ok ts c -> ts !! j = Some th -> act th c th' c' ->
  pc_put (table_ c) th -> pc_put (table_ c') th'.
Proof.
  intros C Hj A Hput. pose proof (co_pc _ _ C _ _ Hj) as P. pose proof (co_length _ _ C) as Hl.
  destruct A as [| | | | | |t c hash h E| |t c k m n h E E0| |t c k i n h E E0 Ek|t c m h E|t c m E]; try done;
    unfold pc_put in *; rewrite E in *; cbn [th_pc at_pc inserts th_put table_ pc_ok] in *.
  - rewrite elem_of_app, list_elem_of_singleton. by right.
  - destruct P as (_ & q & _ & -> & _). unfold key_at. by rewrite entry_insert, Z.eqb_refl by (done || apply path_range).
  - done.
Qed.

Lemma act_provenance ts c j th th' c' : config_ok ts c -> provenance ts c -> ts !! j = Some th -> act th c th' c' ->
  provenance (<[j := th']> ts) c'.
Proof.
  intros C V Hj A. pose proof (act_grows _ _ _ _ _ _ C Hj A) as Hg. pose proof (pv_pc _ _ V _ _ Hj) as Hput.
  assert (Hlt : (j < length ts)%nat) by by eapply lookup_lt_Some.
  assert (Hnew : <[j := th']> ts !! j = Some th') by by rewrite list_lookup_insert_eq.
  split.
  - intros i h Hi Ho. destruct (act_owner _ _ _ _ _ _ i h C Hj A Hput Hi Ho) as [Ho'|[Hn Hin]]; [|split; [done|by exists j, th']].
    destruct (pv_owner _ _ V i h Hi Ho') as (Hn & j' & u & Hu & Hin). rewrite (proj1 Hg i Hi Hn). split; [done|].
    destruct (decide (j' = j)) as [->|Hne].
    + exists j, th'. split; [done|]. eapply act_put; [done|]. congruence.
    + exists j', u. by rewrite list_lookup_insert_ne.
  - intros m u. rewrite list_lookup_insert_Some. intros [(<- & <- & _)|[Hne Hu]].
    + by eapply act_pc_put.
    + apply (pc_put_grows (table_ c)); [done|by eapply co_pc|by eapply pv_pc].
Qed.
End Threads.

Section Races.
Context {H : Type}.

Definition idle_thread : thread H := mkThread Idle [] [].

Lemma start_ok n : config_ok (replicate n idle_thread) (fresh_cache (H := H)).
Proof.
  assert (Hth : forall j th, replicate n idle_thread !! j = Some th -> th = idle_thread).
  { by intros j th [-> _]%lookup_replicate. }
  assert (Hf : forall i, entry_at (table_ (fresh_cache (H := H))) i = empty_entry).
  { intros i. unfold entry_at. destruct (_ !! _) eqn:E; [|done]. by apply lookup_replicate in E as [-> _]. }
  split; try apply fresh_cache_ok.
  - intros i Hi. by rewrite Hf.
  - by intros j th ->%Hth.
  - intros j th ->%Hth k h Hin. by apply elem_of_nil in Hin.
  - by intros j j' th th' i ->%Hth.
Qed.

Lemma start_provenance n : provenance (replicate n idle_thread) (fresh_cache (H := H)).
Proof.
  split.
  - intros i h Hi. unfold entry_at. destruct (_ !! _) eqn:E; [|done]. by apply lookup_replicate in E as [-> _].
  - by intros j th [-> _]%lookup_replicate.
Qed.

Definition reach_ok (s : threads * TraceCache H) : Prop := config_ok s.1 s.2 /\ provenance s.1 s.2.

Lemma step_reach_ok s s' : reach_ok s -> step s s' -> reach_ok s' /\ grows (table_ s.2) (table_ s'.2).
Proof.
  intros [C V] Hs. destruct Hs as [ts j t t' c c' Hj A]. cbn in *. split; [split|].
  - by eapply act_ok.
  - by eapply act_provenance.
  - by eapply act_grows.
Qed.

Lemma grows_trans (t t' t'' : list (Entry H)) : grows t t' -> grows t' t'' -> grows t t''.
Proof.
  intros [K P] [K' P']. split; intros i Hi Hc.
  - rewrite <- (K i Hi Hc). apply K'; [done|]. by rewrite K.
  - rewrite <- (P i Hi Hc). apply P'; [done|]. by rewrite P.
Qed.

Lemma steps_reach_ok s s' : reach_ok s -> rtc step s s' -> reach_ok s' /\ grows (table_ s.2) (table_ s'.2).
Proof.
  intros R Hs. induction Hs as [s|s s1 s' H1 _ IH]; [by split; [|apply grows_refl]|].
  destruct (step_reach_ok _ _ R H1) as [R1 G1]. destruct (IH R1) as [R' G']. split; [done|]. by eapply grows_trans.
Qed.

(** C20: threads that look up and insert without a lock agree. However the
    atomic steps of any number of threads interleave from an empty table, no
    signature ever has two slots; a published slot has a handle, and stays as it
    is for ever; a lookup that hits on a signature returns a handle that some
    thread was given to insert under that signature; and any two lookups that hit
    on a signature, by any threads and at any time, return the same handle. *)
Theorem trace_cache_race_free (n : nat) ts c :
  rtc step (replicate n idle_thread, fresh_cache (H := H)) (ts, c) ->
  (forall i m, 0 <= i < kCapacity -> 0 <= m < kCapacity -> key_at (table_ c) i <> 0 ->
     key_at (table_ c) i = key_at (table_ c) m -> i = m) /\
  (forall i, 0 <= i < kCapacity -> e_published (entry_at (table_ c) i) = true ->
     is_Some (e_owner (entry_at (table_ c) i)) /\
     forall ts' c', rtc step (ts, c) (ts', c') -> entry_at (table_ c') i = entry_at (table_ c) i) /\
  (forall j th k h, ts !! j = Some th -> (k, Some h) ∈ th_got th -> was_put ts k h) /\
  (forall j1 j2 th1 th2 k h1 h2, ts !! j1 = Some th1 -> ts !! j2 = Some th2 ->
     (k, Some h1) ∈ th_got th1 -> (k, Some h2) ∈ th_got th2 -> h1 = h2).
Proof.
  intros R. destruct (steps_reach_ok (_, _) _ (conj (start_ok n) (start_provenance n)) R) as [[C V] _]. cbn in C, V.
  split; [|split; [|split]].
  - intros i m Hi Hm. apply placed_unique; [apply C|done|done].
  - intros i Hi Hp. split; [by apply (co_published _ _ C i Hi)|]. intros ts' c' R'.
    destruct (steps_reach_ok (ts, c) _ (conj C V) R') as [_ [_ G]]. by apply G.
  - intros j th k h Hj Hin. destruct (co_got _ _ C _ _ Hj _ _ Hin) as (i & Hi & <- & _ & _ & O).
    by apply (pv_owner _ _ V).
  - intros j1 j2 th1 th2 k h1 h2 H1 H2 G1 G2.
    destruct (co_got _ _ C _ _ H1 _ _ G1) as (i1 & Hi1 & K1 & N1 & _ & O1).
    destruct (co_got _ _ C _ _ H2 _ _ G2) as (i2 & Hi2 & K2 & N2 & _ & O2).
    assert (i1 = i2) as ->; [|congruence]. apply (placed_unique (table_ c)); [apply C|done|done|congruence..].
Qed.
End Races.

(** ** Examples *)

Lemma trace_cache_map_witness :
  cache_ok (table_ (fresh_cache (H := Z))) /\ handle_of (insert 5 (Some 7) fresh_cache) 5 = Some 7 /\
  handle_of (insert 5 (Some 7) fresh_cache) 6 = None.
Proof.
  pose proof (trace_cache_map 5 7 5 (fresh_cache (H := Z)) fresh_cache_ok) as (_ & _ & _ & _ & _ & _ & E).
  pose proof (trace_cache_map 5 7 6 (fresh_cache (H := Z)) fresh_cache_ok) as (_ & _ & _ & _ & _ & N & _).
  assert (K : normalize 5 = 5) by reflexivity. assert (K6 : normalize 6 = 6) by reflexivity.
  assert (E5 : handle_of (fresh_cache (H := Z)) 5 = None) by (vm_compute; reflexivity).
  assert (E6 : handle_of (fresh_cache (H := Z)) 6 = None) by (vm_compute; reflexivity).
  split; [exact fresh_cache_ok|]. split; [|rewrite N; [exact E6|by rewrite K, K6]].
  specialize (E eq_refl). rewrite E5 in E. destruct E as [E|[F _]]; [exact E|].
  exfalso. apply (F 0); [unfold kCapacity; lia|]. vm_compute. reflexivity.
Defined.

(** One thread inserts under signature 5, and two look it up. *)
Ltac take j a := eapply rtc_l; [eapply (step_thread _ j); [reflexivity|eapply a; [reflexivity|try (vm_compute; first [reflexivity|discriminate])..]]|].

Lemma trace_cache_race_free_witness : exists (ts : list (thread Z)) (c : TraceCache Z),
  rtc step (replicate 2 idle_thread, fresh_cache) (ts, c) /\
  th_got <$> ts = [[(5, Some 7)]; [(5, Some 7)]] /\ was_put ts 5 7 /\
  (forall j1 j2 th1 th2 k h1 h2, ts !! j1 = Some th1 -> ts !! j2 = Some th2 ->
     (k, Some h1) ∈ th_got th1 -> (k, Some h2) ∈ th_got th2 -> h1 = h2).
Proof.
  assert (R : exists (ts : list (thread Z)) (c : TraceCache Z),
    rtc step (replicate 2 idle_thread, fresh_cache) (ts, c) /\ th_got <$> ts = [[(5, Some 7)]; [(5, Some 7)]]).
  { eexists _, _. split.
    - take 0%nat (act_insert (H := Z) idle_thread fresh_cache 5 7). take 0%nat (act_claim (H := Z)).
      take 0%nat (act_write_owner (H := Z)). take 0%nat (act_publish (H := Z)).
      eapply rtc_l; [eapply (step_thread _ 0%nat); [reflexivity|eapply (act_lookup _ _ 5); reflexivity]|].
      take 0%nat (act_look_found (H := Z)).
      eapply rtc_l; [eapply (step_thread _ 1%nat); [reflexivity|eapply (act_lookup _ _ 5); reflexivity]|].
      take 1%nat (act_look_found (H := Z)). apply rtc_refl.
    - vm_compute. reflexivity. }
  destruct R as (ts & c & R & E). exists ts, c. split; [exact R|]. split; [exact E|].
  destruct (trace_cache_race_free 2 ts c R) as (_ & _ & Hput & Hsame). split; [|exact Hsame].
  destruct ts as [|th ts]; [discriminate E|]. injection E as E _.
  apply (Hput 0%nat th 5 7 eq_refl). rewrite E. left.
Defined.
