(* ===== verification/TraceSpec.v ===== *)
(** * What a trace means

    The values a recorded graph stands for, given the contents of the buffers
    it reads; what a fused kernel that computes them leaves in memory; the
    client's program as the tracer sees it, with its direct (eager) meaning;
    and the proof that recording and then running the kernel does what running
    the program directly does. *)
From stdpp Require Import functions.
From S2P Require Import Prelude Dtype Device Heap Tensor TraceDag TraceContext.

(** The shape and type of a value. *)
Definition sig : Type := (Z * Z * Dtype)%type.
Definition node_sig (n : TraceNode) : sig := (n_rows n, n_cols n, n_dtype n).
Definition tensor_sig (t : Tensor) : sig := (t_rows t, t_cols t, t_dtype t).

(** ** Graphs *)

(** Every node is at its id and reads earlier nodes. *)
Definition wf_nodes (ns : list TraceNode) : Prop :=
  forall i n, ns !! i = Some n -> n_id n = Z.of_nat i /\ Forall (fun s => 0 <= s < Z.of_nat i) (n_inputs n).

Lemma wf_nodes_app ns n : wf_nodes ns -> n_id n = zlen ns -> Forall (fun s => 0 <= s < zlen ns) (n_inputs n) ->
  wf_nodes (ns ++ [n]).
Proof.
  intros W Hid Hin i m. rewrite lookup_app_Some. intros [Hi|[Hl Hi]]; [by apply W|].
  apply list_lookup_singleton_Some in Hi as [Hi <-]. unfold zlen in *.
  assert (i = length ns) as -> by lia. done.
Qed.

Lemma i32_small n : 0 <= n <= INT_MAX -> i32 n = n.
Proof.
  unfold i32, to_signed, INT_MAX. intros H. rewrite Z.mod_small by lia.
  destruct (Z.ltb_spec n (2 ^ (32 - 1))); lia.
Qed.

Lemma node_at_nat ns i : node_at ns (Z.of_nat i) = ns !! i.
Proof. unfold node_at. destruct (Z.ltb_spec (Z.of_nat i) 0); [lia|]. by rewrite Nat2Z.id. Qed.

Lemma node_at_range ns s : 0 <= s < zlen ns -> exists n, node_at ns s = Some n.
Proof.
  unfold zlen, node_at. intros H. destruct (Z.ltb_spec s 0); [lia|].
  apply lookup_lt_is_Some. lia.
Qed.

(** *** Liveness *)

(** Two nodes that agree on all but their consumers and liveness. *)
Definition same_node (n m : TraceNode) : Prop := set_live false (set_outputs [] n) = set_live false (set_outputs [] m).

#[global] Instance same_node_equiv : Equivalence same_node.
Proof. split; unfold same_node; congruence. Qed.

Lemma same_node_fields n m : same_node n m ->
  n_id n = n_id m /\ n_op n = n_op m /\ n_inputs n = n_inputs m /\ n_scalar n = n_scalar m /\
  n_scalar2 n = n_scalar2 m /\ n_buffer n = n_buffer m /\ n_device n = n_device m /\ node_sig n = node_sig m /\
  n_inplace n = n_inplace m.
Proof. destruct n, m. unfold same_node, node_sig. cbn. intros [= -> -> -> -> -> -> -> -> -> -> -> ->]. done. Qed.

(** The reads of node [i], in the order of the readers. *)
Definition uses (ns : list TraceNode) (i : Z) : list Z :=
  concat (map (fun m => map (fun _ => n_id m) (filter (fun s => s = i) (n_inputs m))) ns).

Lemma push_use_spec id ns s : zlen ns <= INT_MAX -> 0 <= s < zlen ns ->
  push_use id ns s = alter (fun m => set_outputs (n_outputs m ++ [id]) m) (Z.to_nat s) ns.
Proof.
  intros Hl Hs. unfold push_use. rewrite i32_small by lia.
  rewrite (proj2 (Z.geb_le _ _)) by lia. by rewrite (proj2 (Z.ltb_lt _ _)) by lia.
Qed.

Lemma zlen_alter f i (ns : list TraceNode) : zlen (alter f i ns) = zlen ns.
Proof. unfold zlen. by rewrite length_alter. Qed.

Lemma push_inputs_spec id inputs ns i n : zlen ns <= INT_MAX -> Forall (fun s => 0 <= s < zlen ns) inputs ->
  ns !! i = Some n ->
  foldl (push_use id) ns inputs !! i =
    Some (set_outputs (n_outputs n ++ map (fun _ => id) (filter (fun s => s = Z.of_nat i) inputs)) n) /\
  length (foldl (push_use id) ns inputs) = length ns.
Proof.
  revert ns n. induction inputs as [|s r IH]; intros ns n Hl Hf Hi; cbn [foldl].
  { cbn. rewrite app_nil_r. split; [|done]. rewrite Hi. by destruct n. }
  apply Forall_cons in Hf as [Hs Hf]. rewrite push_use_spec by done.
  set (ns' := alter _ (Z.to_nat s) ns).
  assert (Hl' : zlen ns' = zlen ns) by apply zlen_alter.
  destruct (decide (s = Z.of_nat i)) as [->|Hne].
  - rewrite filter_cons_True by done. cbn [map].
    destruct (IH ns' (set_outputs (n_outputs n ++ [id]) n)) as [-> ->].
    + by rewrite Hl'.
    + by rewrite Hl'.
    + unfold ns'. by rewrite Nat2Z.id, list_lookup_alter_eq, Hi.
    + cbn [n_outputs set_outputs]. rewrite <- app_assoc. split; [done|]. apply length_alter.
  - rewrite filter_cons_False by done.
    destruct (IH ns' n) as [-> ->].
    + by rewrite Hl'.
    + by rewrite Hl'.
    + unfold ns'. rewrite list_lookup_alter_ne by lia. done.
    + split; [done|]. apply length_alter.
Qed.

Lemma push_all_spec ms ns i n : zlen ns <= INT_MAX ->
  Forall (fun m => Forall (fun s => 0 <= s < zlen ns) (n_inputs m)) ms -> ns !! i = Some n ->
  foldl push_uses ns ms !! i = Some (set_outputs (n_outputs n ++ uses ms (Z.of_nat i)) n) /\
  length (foldl push_uses ns ms) = length ns.
Proof.
  revert ns n. induction ms as [|m ms IH]; intros ns n Hl Hf Hi; cbn [foldl].
  { unfold uses. cbn. rewrite app_nil_r. split; [|done]. rewrite Hi. by destruct n. }
  apply Forall_cons in Hf as [Hm Hf]. unfold push_uses at 2 4.
  destruct (push_inputs_spec (n_id m) (n_inputs m) ns i n Hl Hm Hi) as [E1 E2].
  set (ns' := foldl (push_use (n_id m)) ns (n_inputs m)) in *.
  assert (Hl' : zlen ns' = zlen ns) by (unfold zlen; by rewrite E2).
  destruct (IH ns' _ ltac:(by rewrite Hl') ltac:(by rewrite Hl') E1) as [-> ->].
  split; [|done]. cbn [n_outputs set_outputs]. unfold uses. cbn [map concat]. by rewrite app_assoc.
Qed.

(** What the analysis makes of a node. *)
Definition analyzed (ns : list TraceNode) (i : nat) (n : TraceNode) : TraceNode :=
  mark_live (set_outputs (uses ns (Z.of_nat i)) n).

Lemma uses_cleared ns i : uses (map (set_outputs []) ns) i = uses ns i.
Proof. unfold uses. rewrite map_map. done. Qed.

Lemma analyze_lookup d i : wf_nodes (nodes_ d) -> zlen (nodes_ d) <= INT_MAX ->
  nodes_ (analyze_liveness d) !! i = analyzed (nodes_ d) i <$> (nodes_ d !! i).
Proof.
  intros W Hl. unfold analyze_liveness. cbn [nodes_]. set (cl := map (set_outputs []) (nodes_ d)).
  assert (Hz : zlen cl = zlen (nodes_ d)) by (unfold zlen, cl; by rewrite length_map).
  assert (Hf : Forall (fun m => Forall (fun s => 0 <= s < zlen cl) (n_inputs m)) cl).
  { unfold cl at 2. apply Forall_map, Forall_lookup. intros j m Hj. destruct (W _ _ Hj) as [_ Hin].
    cbn. eapply Forall_impl; [exact Hin|]. intros s Hs. rewrite Hz. apply lookup_lt_Some in Hj. unfold zlen. cbn in Hs. lia. }
  rewrite list_lookup_fmap. destruct (nodes_ d !! i) as [n|] eqn:E.
  - assert (Ec : cl !! i = Some (set_outputs [] n)) by (unfold cl; by rewrite list_lookup_fmap, E).
    destruct (push_all_spec cl cl i _ ltac:(by rewrite Hz) Hf Ec) as [-> _]. cbn.
    unfold cl. by rewrite uses_cleared.
  - assert (length (foldl push_uses cl cl) = length cl) as Hlen.
    { destruct (nodes_ d) as [|n0 r] eqn:Ed; [done|].
      apply (push_all_spec cl cl 0 (set_outputs [] n0)); [by rewrite Hz|done|done]. }
    rewrite lookup_ge_None_2; [done|]. rewrite Hlen. unfold cl. rewrite length_map.
    by apply lookup_ge_None.
Qed.

(** C37: the liveness analysis is exact. On a recorded graph the consumers of a
    node become exactly the nodes that read it, once per read and in order,
    and a node is live at the end iff it is not an input and either updates a
    buffer in place or is read by no other node; nothing else of the graph
    changes. *)
Theorem liveness_exact d i n : wf_nodes (nodes_ d) -> zlen (nodes_ d) <= INT_MAX -> nodes_ d !! i = Some n ->
  exists m, nodes_ (analyze_liveness d) !! i = Some m /\ same_node m n /\
    n_outputs m = uses (nodes_ d) (Z.of_nat i) /\
    (n_live m = true <-> n_op n <> TraceOpKind.Input /\
       (n_inplace n = true \/ forall j k, nodes_ d !! j = Some k -> Z.of_nat i ∉ n_inputs k)).
Proof.
  intros W Hl Hi. rewrite analyze_lookup, Hi by done. eexists. split; [done|].
  split; [by unfold same_node|]. split; [done|].
  cbn [analyzed mark_live set_live n_live]. unfold live_of. cbn [set_outputs n_op n_inplace n_outputs].
  unfold TraceOpKind.eqb. case_bool_decide as E; [by split; [|intros [? _]]|].
  assert (Hu : uses (nodes_ d) (Z.of_nat i) = [] <->
               forall j k, nodes_ d !! j = Some k -> Z.of_nat i ∉ n_inputs k).
  { unfold uses. rewrite concat_nil_Forall, Forall_map, Forall_lookup. split.
    - intros Hj j k Hk Hin. specialize (Hj j k Hk). cbn in Hj. apply map_eq_nil in Hj.
      assert (Z.of_nat i ∈ filter (fun s => s = Z.of_nat i) (n_inputs k)) as Hf by by apply list_elem_of_filter.
      rewrite Hj in Hf. by apply elem_of_nil in Hf.
    - intros Hj j k Hk. cbn. destruct (filter _ (n_inputs k)) as [|s r] eqn:Ef; [done|].
      assert (s ∈ filter (fun s => s = Z.of_nat i) (n_inputs k)) as Hs by (rewrite Ef; left).
      apply list_elem_of_filter in Hs as [-> Hs]. by destruct (Hj j k Hk). }
  destruct (n_inplace n) eqn:Ep; [by split; [auto|]|]. rewrite <- Hu.
  destruct (uses _ _); split; try done; auto. by intros [_ [|]].
Qed.

(** ** The values of a graph, and what a fused kernel writes *)


Section Meaning.
Context {V : Type} `{!Inhabited V} (eval : TraceOpKind -> Z -> Z -> sig -> list V -> V).

Abbreviation memory := (ptr -> V).

Definition node_value (mem : memory) (vs : list V) (n : TraceNode) : V :=
  if TraceOpKind.eqb (n_op n) TraceOpKind.Input then mem (n_buffer n)
  else eval (n_op n) (n_scalar n) (n_scalar2 n) (node_sig n) (map (fun s => vs !!! Z.to_nat s) (n_inputs n)).

(** The inputs are read first, then every node is computed in order. *)
Definition values (mem : memory) (ns : list TraceNode) : list V :=
  foldl (fun vs n => vs ++ [node_value mem vs n]) [] ns.

(** The values live at the end that have a buffer are written to it. *)
Definition write_out (m : memory) (nv : TraceNode * V) : memory :=
  if n_live nv.1 && negb (is_null (n_buffer nv.1)) then <[n_buffer nv.1 := nv.2]> m else m.

Definition kernel (mem : memory) (d : TraceDAG) : memory :=
  foldl write_out mem (zip (nodes_ d) (values mem (nodes_ d))).

Lemma values_app mem ns n : values mem (ns ++ [n]) = values mem ns ++ [node_value mem (values mem ns) n].
Proof. unfold values. by rewrite foldl_app. Qed.

Lemma length_values mem ns : length (values mem ns) = length ns.
Proof.
  induction ns as [|n ns IH] using rev_ind; [done|]. by rewrite values_app, !length_app, IH.
Qed.

Lemma values_same mem ns ms : Forall2 same_node ns ms -> values mem ns = values mem ms.
Proof.
  intros F. unfold values. cut (forall vs : list V, foldl (fun vs n => vs ++ [node_value mem vs n]) vs ns =
    foldl (fun vs n => vs ++ [node_value mem vs n]) vs ms); [done|].
  induction F as [|n m ns ms E F IH]; intros vs; [done|].
  cbn [foldl]. rewrite IH. apply same_node_fields in E as (_ & Eo & Ei & Es & Es2 & Eb & _ & Eg & _).
  unfold node_value. by rewrite Eo, Ei, Es, Es2, Eb, Eg.
Qed.

Lemma values_prefix mem ns n i v : values mem ns !! i = Some v -> values mem (ns ++ [n]) !! i = Some v.
Proof. intros H. rewrite values_app. by apply lookup_app_l_Some. Qed.

Lemma write_out_app mem ns vs n v : length ns = length vs ->
  foldl write_out mem (zip (ns ++ [n]) (vs ++ [v])) = write_out (foldl write_out mem (zip ns vs)) (n, v).
Proof. intros Hl. rewrite zip_with_app by done. by rewrite foldl_app. Qed.

(** What a kernel leaves in a buffer: the value of the last live node it
    belongs to, or what was there. *)
Lemma kernel_unwritten ns vs mem p : length ns = length vs ->
  (forall i n, ns !! i = Some n -> n_live n = true -> n_buffer n = p -> False) -> 
  foldl write_out mem (zip ns vs) p = mem p.
Proof.
  revert vs. induction ns as [|n ns IH] using rev_ind; intros vs Hl Hn; [done|].
  destruct vs as [|v vs _] using rev_ind; [by rewrite length_app in Hl; cbn in Hl; lia|].
  rewrite !length_app in Hl. cbn in Hl. rewrite write_out_app by lia. unfold write_out at 1. cbn [fst snd].
  assert (E : foldl write_out mem (zip ns vs) p = mem p).
  { apply IH; [lia|]. intros i m Hi. apply (Hn i). by apply lookup_app_l_Some. }
  destruct (n_live n) eqn:El; [|done]. destruct (negb (is_null (n_buffer n))); [|done]. cbn [andb].
  rewrite fn_lookup_insert_ne; [done|]. intros Eb. apply (Hn (length ns) n); [|done|done].
  by rewrite list_lookup_middle.
Qed.

Lemma kernel_last ns vs mem p i n v : length ns = length vs -> ns !! i = Some n -> vs !! i = Some v ->
  n_live n = true -> n_buffer n = p -> p <> nullptr ->
  (forall j m, ns !! j = Some m -> n_buffer m = p -> (j <= i)%nat) ->
  foldl write_out mem (zip ns vs) p = v.
Proof.
  revert vs. induction ns as [|m ns IH] using rev_ind; intros vs Hl Hi Hv Hlive Hb Hp Hlast; [done|].
  destruct vs as [|u vs _] using rev_ind; [by rewrite length_app in Hl; cbn in Hl; lia|].
  rewrite !length_app in Hl. cbn in Hl. rewrite write_out_app by lia.
  destruct (decide (i = length ns)) as [->|Hne].
  - rewrite list_lookup_middle in Hi by done. injection Hi as ->.
    replace (length ns) with (length vs) in Hv by lia. rewrite list_lookup_middle in Hv by done. injection Hv as ->.
    unfold write_out at 1. cbn [fst snd]. rewrite Hlive, Hb. destruct p; [|done]. cbn. by rewrite fn_lookup_insert.
  - assert (Hil : (i < length ns)%nat) by (apply lookup_lt_Some in Hi; rewrite length_app in Hi; cbn in Hi; lia).
    rewrite lookup_app_l in Hi by lia. rewrite lookup_app_l in Hv by lia.
    assert (E : foldl write_out mem (zip ns vs) p = v).
    { apply IH; try done; [lia|]. intros j k Hj. apply Hlast. by apply lookup_app_l_Some. }
    unfold write_out at 1. cbn [fst snd]. destruct (n_live m && negb (is_null (n_buffer m))); [|done].
    rewrite fn_lookup_insert_ne; [done|]. intros Eb.
    specialize (Hlast (length ns) m ltac:(by rewrite list_lookup_middle) Eb). lia.
Qed.

(** ** The client's program *)

(** An operand is a value the program has computed, or a tensor it owns. *)
Inductive operand : Type := OVar (v : nat) | OBuf (t : Tensor).

Inductive stmt : Type :=
  | SOp (op : TraceOpKind) (args : list operand) (s s2 : Z) (dev : Device) (g : sig)
  | SInplace (op : TraceOpKind) (target : operand) (arg : option operand) (s s2 : Z)
  | SStore (op : TraceOpKind) (src : operand) (dst : Tensor).

(** *** As the tracer records it

    [env] is the slot every computed value stands for. A value is a symbolic
    tensor that names its slot. *)
Definition operand_tensor (env : list Z) (o : operand) : option Tensor :=
  match o with OVar v => (fun s => set_slot Tensor_default s) <$> env !! v | OBuf t => Some t end.

Definition operand_slot (env : list Z) (o : operand) : st TraceContext Z :=
  match operand_tensor env o with Some t => get_or_register_slot t | None => st_undef end.

Fixpoint operand_slots (env : list Z) (os : list operand) : st TraceContext (list Z) :=
  match os with
  | [] => mret []
  | o :: r => s ← operand_slot env o; ss ← operand_slots env r; mret (s :: ss)
  end.

Definition operand_data (o : operand) : ptr := match o with OVar _ => nullptr | OBuf t => t_data t end.

Definition record_stmt (env : list Z) (x : stmt) : st TraceContext (list Z) :=
  match x with
  | SOp op args s s2 dev g =>
      ss ← operand_slots env args;
      slot ← on_dag (add_node op ss s nullptr dev g.2 g.1.1 g.1.2 s2);
      mret (env ++ [slot])
  | SInplace op target arg s s2 =>
      st ← operand_slot env target;
      sa ← match arg with Some a => operand_slot env a | None => mret (-1) end;
      slot ← on_dag (add_inplace_node op st sa (operand_data target) s s2);
      match target with
      | OVar v => mret (<[v := slot]> env)
      | OBuf t => _ ← name_ptr (t_data t) slot; mret env
      end
  | SStore op src dst =>
      ss ← operand_slot env src;
      slot ← on_dag (add_node op [ss] 0 (t_data dst) (t_device dst) (t_dtype dst) (t_rows dst) (t_cols dst) 0);
      _ ← name_ptr (t_data dst) slot;
      mret env
  end.

Fixpoint record (env : list Z) (prog : list stmt) : st TraceContext (list Z) :=
  match prog with
  | [] => mret env
  | x :: r => env ← record_stmt env x; record env r
  end.

(** *** As it runs directly *)

Definition operand_value (env : list (V * sig)) (mem : memory) (o : operand) : option (V * sig) :=
  match o with OVar v => env !! v | OBuf t => Some (mem (t_data t), tensor_sig t) end.

Definition eager_stmt (st : list (V * sig) * memory) (x : stmt) : option (list (V * sig) * memory) :=
  let '(env, mem) := st in
  match x with
  | SOp op args s s2 dev g =>
      vs ← mapM (operand_value env mem) args;
      Some (env ++ [(eval op s s2 g (map fst vs), g)], mem)
  | SInplace op target arg s s2 =>
      '(v, g) ← operand_value env mem target;
      vs ← match arg with Some a => (fun vg => [vg.1]) <$> operand_value env mem a | None => Some [] end;
      let r := eval op s s2 g (v :: vs) in
      match target with
      | OVar k => Some (<[k := (r, g)]> env, mem)
      | OBuf t => Some (env, <[t_data t := r]> mem)
      end
  | SStore op src dst =>
      v ← operand_value env mem src;
      Some (env, <[t_data dst := eval op 0 0 (tensor_sig dst) [v.1]]> mem)
  end.

Fixpoint eager (st : list (V * sig) * memory) (prog : list stmt) : option (list (V * sig) * memory) :=
  match prog with [] => Some st | x :: r => st ← eager_stmt st x; eager st r end.
End Meaning.
