(* ===== verification/TraceRefine.v ===== *)
(** * Tracing is faithful

    Recording a program and running the fused kernel does what running the
    program directly does: the simulation between the tracer's context and the
    direct run, and what it gives at the end of the trace. *)
From stdpp Require Import functions.
From S2P Require Import Prelude Dtype Device Heap Tensor TraceDag TraceContext TraceSpec.

Section Refine.
Context {V : Type} `{!Inhabited V} (eval : TraceOpKind -> Z -> Z -> sig -> list V -> V).
Context (mem0 : ptr -> V) (desc : ptr -> Device * sig).

Abbreviation nodes c := (nodes_ (dag_ c)).
Abbreviation vals c := (values eval mem0 (nodes c)).

Lemma values_extends ns l i v : values eval mem0 ns !! i = Some v -> values eval mem0 (ns ++ l) !! i = Some v.
Proof.
  revert ns. induction l as [|n l IH]; intros ns H; [by rewrite app_nil_r|].
  replace (ns ++ n :: l) with ((ns ++ [n]) ++ l) by by rewrite <- app_assoc.
  apply IH. by apply values_prefix.
Qed.

(** A node's value is computed from those of the nodes before it. *)
Lemma value_at ns i n : ns !! i = Some n ->
  values eval mem0 ns !! i = Some (node_value eval mem0 (values eval mem0 (take i ns)) n).
Proof.
  intros Hn. pose proof (take_drop_middle _ _ _ Hn) as E. apply lookup_lt_Some in Hn as Hlt.
  replace (take i ns ++ n :: drop (S i) ns) with ((take i ns ++ [n]) ++ drop (S i) ns) in E by by rewrite <- app_assoc.
  rewrite <- E at 1. apply values_extends. rewrite values_app. apply list_lookup_middle.
  rewrite length_values, length_take. lia.
Qed.

(** The slot [s] stands for the value [v], of shape and type [g]. *)
Definition denotes (c : TraceContext) (s : Z) (v : V) (g : sig) : Prop :=
  0 <= s /\ exists n, nodes c !! Z.to_nat s = Some n /\ vals c !! Z.to_nat s = Some v /\ node_sig n = g.

(** Graphs only grow. *)
Definition extends (c c' : TraceContext) : Prop := exists l, nodes c' = nodes c ++ l.

#[local] Instance extends_preorder : PreOrder extends.
Proof.
  split; [exists []; by rewrite app_nil_r|]. intros a b c [l E] [k F]. exists (l ++ k). by rewrite F, E, app_assoc.
Qed.

Lemma denotes_extends c c' s v g : extends c c' -> denotes c s v g -> denotes c' s v g.
Proof.
  intros [l E] (Hs & n & Hn & Hv & Hg). split; [done|]. exists n. rewrite E.
  split; [by apply lookup_app_l_Some|]. split; [by apply values_extends|done].
Qed.

(** An operand the theorem is about: a caller's tensor has storage and is not
    symbolic, and every tensor the program uses on a buffer describes it the
    same way. *)
Definition tensor_described (t : Tensor) : Prop :=
  t_jit_slot t < 0 /\ t_data t <> nullptr /\ desc (t_data t) = (t_device t, tensor_sig t).

Definition operand_described (o : operand) : Prop :=
  match o with OVar _ => True | OBuf t => tensor_described t end.

Definition stmt_described (x : stmt) : Prop :=
  match x with
  | SOp _ args _ _ _ _ => Forall operand_described args
  | SInplace _ target arg _ _ => operand_described target /\ from_option operand_described True arg
  | SStore _ src dst => operand_described src /\ tensor_described dst
  end.

(** The operations a program records are not inputs. *)
Definition stmt_op (x : stmt) : TraceOpKind :=
  match x with SOp op _ _ _ _ _ => op | SInplace op _ _ _ _ => op | SStore op _ _ => op end.

Definition stmt_ok (x : stmt) : Prop := stmt_described x /\ stmt_op x <> TraceOpKind.Input.

(** The most nodes a statement adds. *)
Definition stmt_cost (x : stmt) : Z :=
  match x with SOp _ args _ _ _ _ => zlen args + 1 | SInplace _ _ _ _ _ => 3 | SStore _ _ _ => 2 end.

Definition prog_cost (prog : list stmt) : Z := foldr (fun x n => stmt_cost x + n) 0 prog.

Record sim (c : TraceContext) (mem : ptr -> V) : Prop := {
  s_wf : wf_nodes (nodes c);
  s_ptr : forall p s, active_ptr_to_slot_ c !! p = Some s ->
    denotes c s (mem p) (desc p).2 /\
    exists n, nodes c !! Z.to_nat s = Some n /\ n_buffer n = p /\ n_device n = (desc p).1;
  s_rest : forall p, active_ptr_to_slot_ c !! p = None -> mem p = mem0 p /\ input_ptr_to_slot_ (dag_ c) !! p = None;
  s_last : forall i n p, nodes c !! i = Some n -> n_buffer n = p -> p <> nullptr ->
    exists s, active_ptr_to_slot_ c !! p = Some s /\ Z.of_nat i <= s;
  s_first : forall i n, nodes c !! i = Some n -> n_op n = TraceOpKind.Input ->
    forall j m, nodes c !! j = Some m -> n_buffer m = n_buffer n -> (i <= j)%nat
}.

Lemma denotes_range c s v g : denotes c s v g -> 0 <= s < zlen (nodes c).
Proof. intros (Hs & n & Hn & _). apply lookup_lt_Some in Hn. unfold zlen. lia. Qed.

(** A node that is pushed is the value it computes. *)
Lemma denotes_new c c' n : nodes c' = nodes c ++ [n] -> 
  denotes c' (zlen (nodes c)) (node_value eval mem0 (vals c) n) (node_sig n).
Proof.
  intros E. split; [unfold zlen; lia|]. exists n. rewrite E. unfold zlen. rewrite Nat2Z.id.
  rewrite list_lookup_middle by done. split; [done|]. rewrite values_app.
  by rewrite <- (length_values eval mem0 (nodes c)), list_lookup_middle.
Qed.

Lemma lookup_push ns (n : TraceNode) i m : (ns ++ [n]) !! i = Some m ->
  ((i < length ns)%nat /\ ns !! i = Some m) \/ (i = length ns /\ m = n).
Proof.
  rewrite lookup_app_Some. intros [H|[Hl H]]; [left; split; [by eapply lookup_lt_Some|done]|right].
  apply list_lookup_singleton_Some in H as [H <-]. split; [lia|done].
Qed.

Lemma dev_eqb_refl d : Dev.eqb d d = true.
Proof. by destruct (eqb_spec d d). Qed.

(** *** Naming an operand *)

Lemma matches_described c s t mem : sim c mem -> zlen (nodes c) <= INT_MAX -> tensor_described t ->
  active_ptr_to_slot_ c !! t_data t = Some s -> slot_matches (dag_ c) s t = true.
Proof.
  intros S Hl (Hj & Hp & Hd) Hs. destruct (s_ptr _ _ S _ _ Hs) as (D & n & Hn & Hb & Hv).
  pose proof (denotes_range _ _ _ _ D). destruct D as (Hs0 & n' & Hn' & _ & Hg).
  rewrite Hn in Hn'. injection Hn' as <-. unfold slot_matches. rewrite i32_small by lia.
  destruct (Z.ltb_spec s 0); [lia|]. destruct (Z.geb_spec s (zlen (nodes c))); [lia|]. cbn [orb].
  unfold node_at. destruct (Z.ltb_spec s 0); [lia|]. rewrite Hn. rewrite Hd in Hg, Hv. cbn in Hg, Hv.
  unfold node_sig, tensor_sig in Hg. injection Hg as Hr Hc Ht.
  rewrite bool_decide_eq_true_2 by done. rewrite Hr, Hc, Ht, Hv, !Z.eqb_refl, dev_eqb_refl.
  unfold dtype_eqb. by rewrite bool_decide_eq_true_2.
Qed.

Definition named (c : TraceContext) (mem : ptr -> V) (r : res Z * TraceContext) (v : V) (g : sig) : Prop :=
  exists s c', r = (Ret s, c') /\ sim c' mem /\ extends c c' /\ denotes c' s v g /\
    zlen (nodes c') <= zlen (nodes c) + 1 /\ active_ c' = active_ c.

Lemma name_tensor c mem t : sim c mem -> zlen (nodes c) + 1 <= INT_MAX -> tensor_described t ->
  named c mem (get_or_register_slot t c) (mem (t_data t)) (tensor_sig t).
Proof.
  intros S Hl Ht. pose proof Ht as (Hj & Hp & Hd). unfold get_or_register_slot.
  destruct (Z.geb_spec (t_jit_slot t) 0); [lia|].
  destruct (active_ptr_to_slot_ c !! t_data t) as [s|] eqn:Ea.
  { rewrite (matches_described c s t mem) by (done || lia). exists s, c.
    destruct (s_ptr _ _ S _ _ Ea) as [D _]. rewrite Hd in D.
    split; [done|]. split; [done|]. split; [reflexivity|]. split; [done|]. split; [lia|done]. }
  destruct (s_rest _ _ S _ Ea) as [Hm Hi].
  set (n := mkNode (zlen (nodes c)) TraceOpKind.Input [] [] 0 0 (t_data t) (t_device t) (t_dtype t) (t_rows t)
              (t_cols t) false (-1) false).
  set (c' := mkCtx (active_ c) (mkDAG (nodes c ++ [n]) (<[t_data t := zlen (nodes c)]> (input_ptr_to_slot_ (dag_ c))))
               (<[t_data t := zlen (nodes c)]> (active_ptr_to_slot_ c))).
  exists (zlen (nodes c)), c'. split.
  { unfold mbind, st_bind, on_dag, register_input. rewrite Hi. rewrite i32_small by (unfold zlen in *; lia). done. }
  assert (Ex : extends c c') by by exists [n].
  assert (Dn : denotes c' (zlen (nodes c)) (mem (t_data t)) (tensor_sig t)) by (rewrite Hm; exact (denotes_new c c' n eq_refl)).
  assert (Hfresh : forall i m, nodes c !! i = Some m -> n_buffer m <> t_data t).
  { intros i m Him E. destruct (s_last _ _ S i m (t_data t) Him E Hp) as (s & Hs & _). congruence. }
  split; [|split; [done|split; [done|split; [|done]]]].
  2:{ unfold c'. cbn. unfold zlen. rewrite length_app. cbn. lia. }
  split; cbn [c' dag_ nodes_ input_ptr_to_slot_ active_ptr_to_slot_].
  - apply wf_nodes_app; [apply S|done|constructor].
  - intros p s. rewrite lookup_insert_Some. intros [[<- <-]|[Hne Hs]].
    + rewrite Hd. split; [done|]. exists n. unfold zlen. rewrite Nat2Z.id. by rewrite list_lookup_middle.
    + destruct (s_ptr _ _ S _ _ Hs) as (D & m & Hm' & Hb & Hv). split; [by eapply denotes_extends|].
      exists m. split; [by apply lookup_app_l_Some|done].
  - intros p. rewrite !lookup_insert_None. intros [Hs Hne]. destruct (s_rest _ _ S _ Hs). done.
  - intros i m p Him Hb Hpn. apply lookup_push in Him as [[Hil Him]|[-> ->]].
    + destruct (s_last _ _ S i m p Him Hb Hpn) as (s & Hs & Hle). exists s. split; [|done].
      rewrite lookup_insert_ne; [done|]. intros E. congruence.
    + cbn in Hb. subst p. exists (zlen (nodes c)). rewrite lookup_insert, decide_True by done.
      unfold zlen. split; [done|lia].
  - intros i m Him Hop j k Hjk Hb. apply lookup_push in Him as [[Hil Him]|[-> ->]];
      apply lookup_push in Hjk as [[Hjl Hjk]|[-> ->]]; try lia.
    + by eapply (s_first _ _ S).
    + by destruct (Hfresh _ _ Hjk).
Qed.

(** The slot of a caller's tensor is on the tensor's device. *)
Lemma name_tensor_device c mem t s c' : sim c mem -> zlen (nodes c) + 1 <= INT_MAX -> tensor_described t ->
  get_or_register_slot t c = (Ret s, c') ->
  exists n, nodes c' !! Z.to_nat s = Some n /\ n_device n = t_device t.
Proof.
  intros S Hl Ht. pose proof Ht as (Hj & Hp & Hd). unfold get_or_register_slot.
  destruct (Z.geb_spec (t_jit_slot t) 0); [lia|].
  destruct (active_ptr_to_slot_ c !! t_data t) as [s0|] eqn:Ea.
  - rewrite (matches_described c s0 t mem) by (done || lia). intros [= <- <-].
    destruct (s_ptr _ _ S _ _ Ea) as [_ (n & Hn & _ & Hv)]. exists n. by rewrite Hd in Hv.
  - destruct (s_rest _ _ S _ Ea) as [Hm Hi]. unfold mbind, st_bind, on_dag, register_input. rewrite Hi.
    rewrite i32_small by (unfold zlen in *; lia). cbn. intros [= <- <-]. cbn. eexists.
    unfold zlen. rewrite Nat2Z.id, list_lookup_middle by done. done.
Qed.

(** The values a program has computed so far. *)
Definition env_ok (c : TraceContext) (env : list Z) (eenv : list (V * sig)) : Prop :=
  Forall2 (fun s vg => denotes c s vg.1 vg.2) env eenv.

Lemma env_extends c c' env eenv : extends c c' -> env_ok c env eenv -> env_ok c' env eenv.
Proof. intros Ex He. eapply Forall2_impl; [exact He|]. intros s vg. by apply denotes_extends. Qed.

Lemma name_operand c mem env eenv o v g : sim c mem -> zlen (nodes c) + 1 <= INT_MAX -> env_ok c env eenv ->
  operand_described o -> operand_value eenv mem o = Some (v, g) ->
  named c mem (operand_slot env o c) v g.
Proof.
  intros S Hl He Ho Hv. destruct o as [k|t]; cbn [operand_value] in Hv.
  - destruct (Forall2_lookup_r _ _ _ _ _ He Hv) as (s & Hs & D). cbn in D.
    unfold operand_slot. cbn [operand_tensor]. rewrite Hs. cbn.
    destruct (denotes_range _ _ _ _ D) as [Hs0 _]. unfold get_or_register_slot. cbn [set_slot t_jit_slot].
    rewrite (proj2 (Z.geb_le _ _)) by done. exists s, c.
    split; [done|]. split; [done|]. split; [reflexivity|]. split; [done|]. split; [lia|done].
  - injection Hv as <- <-. by apply name_tensor.
Qed.

Lemma name_operands c mem env eenv os vgs : sim c mem -> zlen (nodes c) + zlen os <= INT_MAX -> env_ok c env eenv ->
  Forall operand_described os -> mapM (operand_value eenv mem) os = Some vgs ->
  exists ss c', operand_slots env os c = (Ret ss, c') /\ sim c' mem /\ extends c c' /\
    Forall2 (fun s vg => denotes c' s vg.1 vg.2) ss vgs /\ zlen (nodes c') <= zlen (nodes c) + zlen os /\
    active_ c' = active_ c.
Proof.
  revert c vgs. induction os as [|o os IH]; intros c vgs S Hl He Ho Hv; cbn [mapM operand_slots] in *.
  { injection Hv as <-. exists [], c. split; [done|]. split; [done|]. split; [reflexivity|]. split; [constructor|].
    split; [unfold zlen in *; cbn in *; lia|done]. }
  apply bind_Some in Hv as ([v g] & Ev & Hv). apply bind_Some in Hv as (vgs' & Evs & [= <-]).
  apply Forall_cons in Ho as [Ho Hos]. rewrite zlen_cons in *. pose proof (zlen_nonneg os).
  destruct (name_operand c mem env eenv o v g S ltac:(lia) He Ho Ev) as (s & c1 & E1 & S1 & X1 & D1 & L1 & A1).
  destruct (IH c1 vgs' S1 ltac:(lia) (env_extends _ _ _ _ X1 He) Hos Evs) as (ss & c2 & E2 & S2 & X2 & D2 & L2 & A2).
  exists (s :: ss), c2. rewrite (st_bind_ret _ _ _ _ _ E1), (st_bind_ret _ _ _ _ _ E2).
  split; [done|]. split; [done|]. split; [by transitivity c1|].
  split; [constructor; [by eapply denotes_extends|done]|]. split; [cbn [stmt_cost]; lia|exact (eq_trans A2 A1)].
Qed.

(** *** Pushing an operation *)

(** The context once [n] is recorded, with its buffer, if any, named. *)
Definition pushed (c : TraceContext) (n : TraceNode) : TraceContext :=
  mkCtx (active_ c) (push_node n (dag_ c))
    (if is_null (n_buffer n) then active_ptr_to_slot_ c
     else <[n_buffer n := zlen (nodes c)]> (active_ptr_to_slot_ c)).

Definition written (mem : ptr -> V) (p : ptr) (v : V) : ptr -> V :=
  if is_null p then mem else <[p := v]> mem.

Lemma is_null_spec (p : ptr) : is_null p = true <-> p = nullptr.
Proof. by destruct p. Qed.

Lemma push_sim c mem n v : sim c mem -> n_id n = zlen (nodes c) -> n_op n <> TraceOpKind.Input ->
  Forall (fun s => 0 <= s < zlen (nodes c)) (n_inputs n) ->
  node_value eval mem0 (vals c) n = v ->
  (n_buffer n <> nullptr -> desc (n_buffer n) = (n_device n, node_sig n)) ->
  sim (pushed c n) (written mem (n_buffer n) v) /\ extends c (pushed c n) /\
  denotes (pushed c n) (zlen (nodes c)) v (node_sig n) /\ zlen (nodes (pushed c n)) = zlen (nodes c) + 1.
Proof.
  intros S Hid Hop Hin Hv Hd. set (c' := pushed c n).
  assert (Ex : extends c c') by by exists [n].
  assert (Dn : denotes c' (zlen (nodes c)) v (node_sig n)) by (rewrite <- Hv; exact (denotes_new c c' n eq_refl)).
  assert (Hnode : nodes c' !! Z.to_nat (zlen (nodes c)) = Some n).
  { unfold zlen. rewrite Nat2Z.id. by apply list_lookup_middle. }
  split; [|split; [done|split; [done|]]].
  2:{ unfold c'. cbn. unfold zlen. rewrite length_app. cbn. lia. }
  assert (Hold : forall p s, active_ptr_to_slot_ c !! p = Some s ->
    denotes c' s (mem p) (desc p).2 /\ exists m, nodes c' !! Z.to_nat s = Some m /\ n_buffer m = p /\ n_device m = (desc p).1).
  { intros p s Hs. destruct (s_ptr _ _ S _ _ Hs) as (D & m & Hm' & Hb). split; [by eapply denotes_extends|].
    exists m. split; [by apply lookup_app_l_Some|done]. }
  assert (Hptr : forall p, active_ptr_to_slot_ c' !! p =
            (if decide (n_buffer n = p /\ p <> nullptr) then Some (zlen (nodes c)) else active_ptr_to_slot_ c !! p) /\
            written mem (n_buffer n) v p = (if decide (n_buffer n = p /\ p <> nullptr) then v else mem p)).
  { intros p. unfold c', pushed, written. cbn [active_ptr_to_slot_]. destruct (is_null (n_buffer n)) eqn:En.
    - apply is_null_spec in En. by rewrite !decide_False by (intros [? ?]; congruence).
    - destruct (decide (n_buffer n = p)) as [<-|Hne].
      + rewrite !decide_True by (split; [done|intros E; by rewrite E in En]). by rewrite lookup_insert, decide_True, fn_lookup_insert.
      + rewrite !decide_False by (intros [? ?]; congruence). by rewrite lookup_insert_ne, fn_lookup_insert_ne. }
  split.
  - apply wf_nodes_app; [apply S|done|done].
  - intros p s. destruct (Hptr p) as [-> ->]. case_decide as E; [|apply Hold].
    intros [= <-]. destruct E as [Eb Ep]. rewrite <- Eb, Hd by congruence. split; [done|]. by exists n.
  - intros p. destruct (Hptr p) as [-> ->]. case_decide; [done|]. intros Hs. by apply (s_rest _ _ S).
  - intros i m p Him Hb Hp. destruct (Hptr p) as [-> _]. apply lookup_push in Him as [[Hil Him]|[-> ->]].
    + destruct (s_last _ _ S i m p Him Hb Hp) as (s & Hs & Hle). case_decide; [|by exists s].
      exists (zlen (nodes c)). unfold zlen. split; [done|lia].
    + rewrite decide_True by done. exists (zlen (nodes c)). unfold zlen. split; [done|lia].
  - intros i m Him Hopi j k Hjk Hb. apply lookup_push in Him as [[Hil Him]|[-> ->]]; [|done].
    apply lookup_push in Hjk as [[Hjl Hjk]|[-> ->]]; [by eapply (s_first _ _ S)|lia].
Qed.

(** The arguments of a node evaluate to what its operands denote. *)
Lemma values_of c ss vgs : Forall2 (fun s vg => denotes c s vg.1 vg.2) ss vgs ->
  map (fun s => vals c !!! Z.to_nat s) ss = map fst vgs /\ Forall (fun s => 0 <= s < zlen (nodes c)) ss.
Proof.
  induction 1 as [|s vg ss vgs D F [IH1 IH2]]; [done|]. pose proof (denotes_range _ _ _ _ D).
  split; [|by constructor]. cbn [map]. f_equal; [|done]. destruct D as (_ & n & _ & Hv & _).
  by apply list_lookup_total_correct.
Qed.

(** *** One statement *)

Definition stepped (c : TraceContext) (x : stmt) (r : res (list Z) * TraceContext) (eenv' : list (V * sig))
    (mem' : ptr -> V) : Prop :=
  exists env' c', r = (Ret env', c') /\ sim c' mem' /\ env_ok c' env' eenv' /\
    zlen (nodes c') <= zlen (nodes c) + stmt_cost x /\ active_ c' = active_ c.

Lemma step_op c mem env eenv op args s s2 dev g eenv' mem' : sim c mem -> env_ok c env eenv ->
  stmt_ok (SOp op args s s2 dev g) -> zlen (nodes c) + stmt_cost (SOp op args s s2 dev g) <= INT_MAX ->
  eager_stmt eval (eenv, mem) (SOp op args s s2 dev g) = Some (eenv', mem') ->
  stepped c (SOp op args s s2 dev g) (record_stmt env (SOp op args s s2 dev g) c) eenv' mem'.
Proof.
  intros S He [Hd Hop] Hl Hv. cbn [eager_stmt stmt_cost stmt_described stmt_op record_stmt] in *.
  apply bind_Some in Hv as (vgs & Ev & [= <- <-]).
  destruct (name_operands c mem env eenv args vgs S ltac:(lia) He Hd Ev) as (ss & c1 & E1 & S1 & X1 & D1 & L1 & A1).
  destruct (values_of c1 ss vgs D1) as [Hvals Hrange].
  destruct g as [[rows cols] dt]. cbn [fst snd].
  set (n := mkNode (zlen (nodes c1)) op ss [] s s2 nullptr dev dt rows cols false (-1) false).
  destruct (push_sim c1 mem n (eval op s s2 (rows, cols, dt) (map fst vgs)) S1 eq_refl Hop Hrange) as (S2 & X2 & D2 & L2).
  { unfold node_value. cbn [n n_op n_inputs n_scalar n_scalar2]. unfold TraceOpKind.eqb.
    rewrite bool_decide_eq_false_2 by done. by rewrite Hvals. }
  { by intros []. }
  exists (env ++ [zlen (nodes c1)]), (pushed c1 n). split.
  { rewrite (st_bind_ret _ _ _ _ _ E1). unfold mbind, st_bind, on_dag, add_node.
    rewrite i32_small by (unfold zlen in *; lia). done. }
  split; [done|]. split.
  { apply Forall2_app; [|by constructor]. apply (env_extends c); [by transitivity c1|done]. }
  split; [cbn [stmt_cost]; lia|exact A1].
Qed.

Lemma step_store c mem env eenv op src dst eenv' mem' : sim c mem -> env_ok c env eenv ->
  stmt_ok (SStore op src dst) -> zlen (nodes c) + stmt_cost (SStore op src dst) <= INT_MAX ->
  eager_stmt eval (eenv, mem) (SStore op src dst) = Some (eenv', mem') ->
  stepped c (SStore op src dst) (record_stmt env (SStore op src dst) c) eenv' mem'.
Proof.
  intros S He [[Hds Hdd] Hop] Hl Hv. cbn [eager_stmt stmt_cost stmt_op record_stmt] in *.
  apply bind_Some in Hv as ([v g] & Ev & [= <- <-]).
  destruct (name_operand c mem env eenv src v g S ltac:(lia) He Hds Ev) as (s & c1 & E1 & S1 & X1 & D1 & L1 & A1).
  destruct (values_of c1 [s] [(v, g)] ltac:(by constructor)) as [Hvals Hrange].
  destruct Hdd as (Hj & Hp & Hdesc).
  set (n := mkNode (zlen (nodes c1)) op [s] [] 0 0 (t_data dst) (t_device dst) (t_dtype dst) (t_rows dst) (t_cols dst)
              false (-1) false).
  destruct (push_sim c1 mem n (eval op 0 0 (tensor_sig dst) [v]) S1 eq_refl Hop Hrange) as (S2 & X2 & D2 & L2).
  { unfold node_value. cbn [n n_op n_inputs n_scalar n_scalar2]. unfold TraceOpKind.eqb.
    rewrite bool_decide_eq_false_2 by done. by rewrite Hvals. }
  { intros _. apply Hdesc. }
  assert (Hnn : is_null (t_data dst) = false) by by destruct (t_data dst).
  exists env, (pushed c1 n). split.
  { rewrite (st_bind_ret _ _ _ _ _ E1). unfold mbind, st_bind, on_dag, add_node, name_ptr, st_mod.
    rewrite i32_small by (unfold zlen in *; lia). unfold pushed. cbn [n n_buffer]. by rewrite Hnn. }
  unfold written in S2. cbn [n n_buffer] in S2. rewrite Hnn in S2.
  split; [done|]. split; [apply (env_extends c); [by transitivity c1|done]|]. split; [cbn [stmt_cost]; lia|exact A1].
Qed.

(** The argument of an in-place operation, if it has one. *)
Lemma name_arg c mem env eenv arg vs : sim c mem -> zlen (nodes c) + 1 <= INT_MAX -> env_ok c env eenv ->
  from_option operand_described True arg ->
  match arg with Some a => (fun vg => [vg.1]) <$> operand_value eenv mem a | None => Some [] end = Some vs ->
  exists sa c', match arg with Some a => operand_slot env a | None => mret (-1) end c = (Ret sa, c') /\ sim c' mem /\
    extends c c' /\ zlen (nodes c') <= zlen (nodes c) + 1 /\ active_ c' = active_ c /\
    map (fun s => vals c' !!! Z.to_nat s) (if sa >=? 0 then [sa] else []) = vs /\
    Forall (fun s => 0 <= s < zlen (nodes c')) (if sa >=? 0 then [sa] else []).
Proof.
  intros S Hl He Ha Hv. destruct arg as [a|].
  - apply fmap_Some in Hv as ([v g] & Ev & ->).
    destruct (name_operand c mem env eenv a v g S Hl He Ha Ev) as (s & c1 & E1 & S1 & X1 & D1 & L1 & A1).
    exists s, c1. destruct (denotes_range _ _ _ _ D1) as [Hs _]. rewrite (proj2 (Z.geb_le _ _)) by done.
    destruct (values_of c1 [s] [(v, g)] ltac:(by constructor)). done.
  - injection Hv as <-. exists (-1), c. split; [done|]. split; [done|]. split; [reflexivity|]. split; [lia|]. done.
Qed.

(** The node an in-place operation adds, over the slots of its operands. *)
Lemma push_inplace c mem op st sa p s s2 v g vs tn : sim c mem -> zlen (nodes c) + 1 <= INT_MAX ->
  op <> TraceOpKind.Input -> denotes c st v g -> nodes c !! Z.to_nat st = Some tn ->
  (p <> nullptr -> desc p = (n_device tn, g)) ->
  map (fun x => vals c !!! Z.to_nat x) (if sa >=? 0 then [sa] else []) = vs ->
  Forall (fun x => 0 <= x < zlen (nodes c)) (if sa >=? 0 then [sa] else []) ->
  exists n, add_inplace_node op st sa p s s2 (dag_ c) = (Ret (zlen (nodes c)), push_node n (dag_ c)) /\
    n_buffer n = p /\
    let c' := pushed c n in let r := eval op s s2 g (v :: vs) in
    sim c' (written mem p r) /\ extends c c' /\ denotes c' (zlen (nodes c)) r g /\
    zlen (nodes c') = zlen (nodes c) + 1.
Proof.
  intros S Hl Hop D Htn Hdesc Hvs Hr. pose proof (denotes_range _ _ _ _ D) as Hst.
  assert (Hg : node_sig tn = g) by (destruct D as (_ & n' & Hn' & _ & <-); by rewrite Htn in Hn'; injection Hn' as ->).
  assert (Hv : vals c !!! Z.to_nat st = v).
  { destruct D as (_ & n' & _ & Hv & _). by apply list_lookup_total_correct. }
  set (inputs := if sa >=? 0 then [st; sa] else [st]).
  assert (Hin : inputs = st :: (if sa >=? 0 then [sa] else [])) by (unfold inputs; by destruct (sa >=? 0)).
  set (n := mkNode (zlen (nodes c)) op inputs [] s s2 p (n_device tn) (n_dtype tn) (n_rows tn) (n_cols tn) true st true).
  exists n. split; [|split; [done|]].
  { unfold add_inplace_node, node_at. destruct (Z.ltb_spec st 0); [lia|]. rewrite Htn.
    by rewrite i32_small by (unfold zlen in *; lia). }
  assert (Hsig : node_sig n = g) by (by rewrite <- Hg).
  cbv zeta. rewrite <- Hsig. apply push_sim; try done.
  - cbn [n n_inputs]. rewrite Hin. by constructor.
  - unfold node_value. cbn [n n_op n_inputs n_scalar n_scalar2]. unfold TraceOpKind.eqb.
    rewrite bool_decide_eq_false_2 by done. rewrite Hin. cbn [map]. by rewrite Hv, Hvs.
  - rewrite Hsig. apply Hdesc.
Qed.

Lemma step_inplace c mem env eenv op target arg s s2 eenv' mem' : sim c mem -> env_ok c env eenv ->
  stmt_ok (SInplace op target arg s s2) -> zlen (nodes c) + stmt_cost (SInplace op target arg s s2) <= INT_MAX ->
  eager_stmt eval (eenv, mem) (SInplace op target arg s s2) = Some (eenv', mem') ->
  stepped c (SInplace op target arg s s2) (record_stmt env (SInplace op target arg s s2) c) eenv' mem'.
Proof.
  intros S He [[Hdt Hda] Hop] Hl Hv. cbn [eager_stmt stmt_cost stmt_op record_stmt] in *.
  apply bind_Some in Hv as ([v g] & Ev & Hv). apply bind_Some in Hv as (vs & Evs & Hv).
  destruct (name_operand c mem env eenv target v g S ltac:(lia) He Hdt Ev) as (st & c1 & E1 & S1 & X1 & D1 & L1 & A1).
  destruct (name_arg c1 mem env eenv arg vs S1 ltac:(lia) (env_extends _ _ _ _ X1 He) Hda Evs)
    as (sa & c2 & E2 & S2 & X2 & L2 & A2 & Hvs & Hr).
  pose proof (denotes_extends _ _ _ _ _ X2 D1) as D2. pose proof D2 as (_ & tn & Htn & _ & Hg).
  assert (Hdesc : operand_data target <> nullptr -> desc (operand_data target) = (n_device tn, g)).
  { destruct target as [k|t]; [by intros []|]. intros _. cbn [operand_data operand_value] in *.
    destruct (name_tensor_device c mem t st c1 S ltac:(lia) Hdt E1) as (m & Hm & Hdm).
    destruct X2 as [l Hl2]. rewrite Hl2 in Htn. rewrite (lookup_app_l_Some _ _ _ _ Hm) in Htn. injection Htn as ->.
    destruct Hdt as (_ & _ & ->). rewrite Hdm. by injection Ev as <- <-. }
  destruct (push_inplace c2 mem op st sa (operand_data target) s s2 v g vs tn S2 ltac:(lia) Hop D2 Htn Hdesc Hvs Hr)
    as (n & E3 & Hb & S3 & X3 & D3 & L3).
  assert (He3 : env_ok (pushed c2 n) env eenv) by (apply (env_extends c); [transitivity c1; [done|by transitivity c2]|done]).
  assert (E : forall k : Z -> Prelude.st TraceContext (list Z), (st ← operand_slot env target;
     sa ← match arg with Some a => operand_slot env a | None => mret (-1) end;
     slot ← on_dag (add_inplace_node op st sa (operand_data target) s s2); k slot) c =
     k (zlen (nodes c2)) (set_dag (push_node n (dag_ c2)) c2)).
  { intros k. rewrite (st_bind_ret _ _ _ _ _ E1), (st_bind_ret _ _ _ _ _ E2).
    unfold mbind at 1, st_bind at 1, on_dag. by rewrite E3. }
  destruct target as [k|t]; cbn [operand_data operand_value] in *.
  - injection Hv as <- <-. exists (<[k := zlen (nodes c2)]> env), (pushed c2 n). split.
    { rewrite E. unfold pushed. rewrite Hb. done. }
    split; [done|]. split; [|split; [cbn [stmt_cost]; lia|exact (eq_trans A2 A1)]].
    apply Forall2_insert; done.
  - injection Hv as <- <-. destruct Hdt as (_ & Hp & _).
    assert (Hnn : is_null (t_data t) = false) by by destruct (t_data t).
    exists env, (pushed c2 n). split.
    { rewrite E. unfold name_ptr, mbind, st_bind, st_mod, pushed. cbn. by rewrite Hb, Hnn. }
    unfold written in S3. rewrite Hnn in S3.
    split; [done|]. split; [done|]. split; [cbn [stmt_cost]; lia|exact (eq_trans A2 A1)].
Qed.

(** *** A program *)

Lemma step_sim c mem env eenv x eenv' mem' : sim c mem -> env_ok c env eenv -> stmt_ok x ->
  zlen (nodes c) + stmt_cost x <= INT_MAX -> eager_stmt eval (eenv, mem) x = Some (eenv', mem') ->
  stepped c x (record_stmt env x c) eenv' mem'.
Proof. destruct x; [apply step_op|apply step_inplace|apply step_store]. Qed.

Lemma stmt_cost_nonneg x : 0 <= stmt_cost x.
Proof. destruct x; cbn; [pose proof (zlen_nonneg args)|..]; lia. Qed.

Lemma prog_cost_nonneg prog : 0 <= prog_cost prog.
Proof. induction prog as [|x r IH]; cbn; [done|]. pose proof (stmt_cost_nonneg x). fold (prog_cost r). lia. Qed.

Lemma record_sim prog : forall c mem env eenv eenv' mem', sim c mem -> env_ok c env eenv -> Forall stmt_ok prog ->
  zlen (nodes c) + prog_cost prog <= INT_MAX -> eager eval (eenv, mem) prog = Some (eenv', mem') ->
  exists env' c', record env prog c = (Ret env', c') /\ sim c' mem' /\ env_ok c' env' eenv' /\
    zlen (nodes c') <= zlen (nodes c) + prog_cost prog /\ active_ c' = active_ c.
Proof.
  induction prog as [|x prog IH]; intros c mem env eenv eenv' mem' S He Hok Hl Hv; cbn [eager record] in *.
  { injection Hv as <- <-. exists env, c. split; [done|]. split; [done|]. split; [done|]. split; [cbn; lia|done]. }
  apply Forall_cons in Hok as [Hx Hok]. apply bind_Some in Hv as ([eenv1 mem1] & Ev & Hv).
  change (prog_cost (x :: prog)) with (stmt_cost x + prog_cost prog) in *. pose proof (prog_cost_nonneg prog).
  destruct (step_sim c mem env eenv x eenv1 mem1 S He Hx ltac:(lia) Ev) as (env1 & c1 & E1 & S1 & He1 & L1 & A1).
  destruct (IH c1 mem1 env1 eenv1 eenv' mem' S1 He1 Hok ltac:(lia) Hv) as (env' & c' & E & S' & He' & L' & A').
  exists env', c'. rewrite (st_bind_ret _ _ _ _ _ E1). split; [done|]. split; [done|]. split; [done|].
  split; [lia|congruence].
Qed.
(** *** The end of the trace *)

(** The context [begin] leaves. *)
Definition begun : TraceContext := mkCtx true empty_dag ∅.

Lemma begun_sim : sim begun mem0.
Proof.
  split; cbn.
  - intros i n H. by rewrite lookup_nil in H.
  - intros p s H. by rewrite lookup_empty in H.
  - done.
  - intros i n p H. by rewrite lookup_nil in H.
  - intros i n H. by rewrite lookup_nil in H.
Qed.

Lemma analyze_same d : wf_nodes (nodes_ d) -> zlen (nodes_ d) <= INT_MAX ->
  Forall2 same_node (nodes_ d) (nodes_ (analyze_liveness d)).
Proof.
  intros W Hl. apply Forall2_lookup. intros i. rewrite analyze_lookup by done.
  destruct (nodes_ d !! i); constructor. done.
Qed.

Lemma wf_same ns ms : Forall2 same_node ns ms -> wf_nodes ns -> wf_nodes ms.
Proof.
  intros F W i m Hm. destruct (Forall2_lookup_r _ _ _ _ _ F Hm) as (n & Hn & E).
  apply same_node_fields in E as (Hid & _ & Hin & _). rewrite <- Hid, <- Hin. by apply W.
Qed.

(** A store the trace reads back: it is not live, so nothing writes it. *)
Definition lost_store (d : TraceDAG) (p : ptr) : Prop :=
  exists i n, nodes_ d !! i = Some n /\ n_buffer n = p /\ n_op n <> TraceOpKind.Input /\
    n_inplace n = false /\ n_outputs n <> [] /\ n_live n = false.

Lemma kernel_final c mem p : sim c mem -> zlen (nodes c) <= INT_MAX -> p <> nullptr ->
  let d := analyze_liveness (dag_ c) in kernel eval mem0 d p = mem p \/ lost_store d p.
Proof.
  intros S Hl Hp d. unfold kernel. pose proof (analyze_same _ (s_wf _ _ S) Hl) as F. fold d in F.
  rewrite <- (values_same eval mem0 _ _ F).
  assert (Hlen : length (nodes_ d) = length (vals c)).
  { rewrite length_values. symmetry. by eapply Forall2_length. }
  assert (Hback : forall i m, nodes_ d !! i = Some m -> exists n, nodes c !! i = Some n /\ n_buffer n = n_buffer m /\
            n_op n = n_op m /\ n_live m = live_of m).
  { intros i m Hm. unfold d in Hm. rewrite analyze_lookup in Hm by (done || apply S).
    apply fmap_Some in Hm as (n & Hn & ->). exists n. done. }
  destruct (active_ptr_to_slot_ c !! p) as [s|] eqn:Ea.
  2:{ left. rewrite kernel_unwritten by (try done; intros i m Hm _ Hb; destruct (Hback i m Hm) as (n & Hn & Hbn & _);
        destruct (s_last _ _ S i n p Hn ltac:(congruence) Hp) as (s & Hs & _); congruence).
      symmetry. by apply (s_rest _ _ S). }
  destruct (s_ptr _ _ S _ _ Ea) as ((Hs0 & n & Hn & Hv & _) & n' & Hn' & Hb & _).
  rewrite Hn in Hn'. injection Hn' as <-.
  destruct (Forall2_lookup_l _ _ _ _ _ F Hn) as (m & Hm & E).
  destruct (Hback _ _ Hm) as (n' & Hn' & Hbm & Hop & Hlive). rewrite Hn in Hn'. injection Hn' as <-.
  assert (Hlast : forall j k, nodes_ d !! j = Some k -> n_buffer k = p -> (j <= Z.to_nat s)%nat).
  { intros j k Hk Hbk. destruct (Hback _ _ Hk) as (k' & Hk' & Hbk' & _).
    destruct (s_last _ _ S j k' p Hk' ltac:(congruence) Hp) as (s' & Hs' & Hle). rewrite Ea in Hs'. injection Hs' as <-. lia. }
  destruct (n_live m) eqn:El.
  { left. by apply (kernel_last _ _ _ _ (Z.to_nat s) m); [done..|congruence|done|]. }
  destruct (decide (n_op m = TraceOpKind.Input)) as [Ei|Ei].
  - left. rewrite kernel_unwritten; [|done|].
    + pose proof (value_at _ _ _ Hn) as Ev. rewrite Hv in Ev. injection Ev as ->.
      unfold node_value. by rewrite Hop, Ei, Hb.
    + intros j k Hk Hlk Hbk. destruct (Hback _ _ Hk) as (k' & Hk' & Hbk' & Hopk & Hlk').
      pose proof (Hlast j k Hk Hbk). pose proof (s_first _ _ S _ _ Hn ltac:(congruence) j k' Hk' ltac:(congruence)).
      assert (j = Z.to_nat s) as -> by lia. rewrite Hm in Hk. injection Hk as <-. congruence.
  - right. exists (Z.to_nat s), m. split; [done|]. split; [congruence|]. split; [done|].
    unfold live_of, TraceOpKind.eqb in Hlive. rewrite bool_decide_eq_false_2 in Hlive by done.
    rewrite Hlive in El. destruct (n_inplace m); [done|]. by destruct (n_outputs m).
Qed.
(** C2: tracing is faithful. Take any program that uses every buffer at one
    shape, type and device only ([tensor_described]; without this it is not, see
    [reshaped_view_is_stale]) and which runs directly. The tracer records it
    without error as a well-formed graph; every value the program computed is the
    value of the node its slot names; and the fused kernel leaves every buffer as
    the direct run does, except a buffer the program stored into and then read
    back inside the trace, whose store is not live and is not written. *)
Theorem trace_faithful prog eenv mem : Forall stmt_ok prog -> prog_cost prog <= INT_MAX ->
  eager eval ([], mem0) prog = Some (eenv, mem) ->
  exists env c, record [] prog begun = (Ret env, c) /\
    let d := analyze_liveness (dag_ c) in
    wf_nodes (nodes_ d) /\
    Forall2 (fun s vg => values eval mem0 (nodes_ d) !! Z.to_nat s = Some vg.1) env eenv /\
    forall p, p <> nullptr -> kernel eval mem0 d p = mem p \/ lost_store d p.
Proof.
  intros Hok Hc Hv.
  destruct (record_sim prog begun mem0 [] [] eenv mem begun_sim ltac:(constructor) Hok Hc Hv)
    as (env & c & E & S & He & Hl & _).
  assert (Hlen : zlen (nodes c) <= INT_MAX) by (change (zlen (nodes begun)) with 0 in Hl; lia).
  exists env, c. split; [done|]. pose proof (analyze_same _ (s_wf _ _ S) Hlen) as F. cbv zeta.
  split; [by apply (wf_same _ _ F), S|]. split; [|intros p Hp; by apply kernel_final].
  rewrite <- (values_same eval mem0 _ _ F). eapply Forall2_impl; [exact He|].
  intros s vg (_ & n & _ & Hval & _). exact Hval.
Qed.
End Refine.

(** ** Where the kernel and the direct run part *)

Module Ex.
Definition tensor (b : positive) (r c : Z) : Tensor := mkTensor (Some (b, 0)) r c FP32 Dev.CPU0 (-1) false 0.
Definition x : Tensor := tensor 1 2 2.
Definition out : Tensor := tensor 2 2 2.
Definition p : Tensor := tensor 3 2 2.
Definition g22 : sig := (2, 2, FP32).
Definition one : Z := 0x3F800000.

(** [t = x + 1; store(out, t); u = out * p;] *)
Definition read_back : list stmt :=
  [SOp TraceOpKind.AddScalar [OBuf x] one 0 Dev.CPU0 g22;
   SStore TraceOpKind.Copy (OVar 0) out;
   SOp TraceOpKind.Mul [OBuf out; OBuf p] 0 0 Dev.CPU0 g22].

(** [x += 1; store(out, x viewed as one row);] *)
Definition reshaped : list stmt :=
  [SInplace TraceOpKind.AddScalar (OBuf x) None one 0;
   SStore TraceOpKind.Copy (OBuf (tensor 1 1 4)) (tensor 2 1 4)].

(** [t = x + 1; t *= p; x += t; store(out, t);] *)
Definition fine : list stmt :=
  [SOp TraceOpKind.AddScalar [OBuf x] one 0 Dev.CPU0 g22;
   SInplace TraceOpKind.Mul (OVar 0) (Some (OBuf p)) 0 0;
   SInplace TraceOpKind.Add (OBuf x) (Some (OVar 0)) 0 0;
   SStore TraceOpKind.Copy (OVar 0) out].

Definition desc (q : ptr) : Device * sig := (Dev.CPU0, g22).
(** A computable meaning: every operation mixes its operands. *)
Definition ev (op : TraceOpKind) (s s2 : Z) (g : sig) (vs : list Z) : Z :=
  foldl (fun a v => a * 31 + v) (TraceOpKind.value op) vs.
Definition mem0 (q : ptr) : Z := match q with Some (b, _) => Zpos b | None => 0 end.
End Ex.

(** A store the trace reads back is lost. In the trace of
    [t = x + 1; store(out, t); u = out * p] the store has a consumer and is not
    in place, so the liveness analysis drops it: whatever the operations
    compute, the direct run leaves [x + 1] in [out] and the kernel leaves
    [out] as it was. *)
Theorem store_read_back_lost {V : Type} `{!Inhabited V} (eval : TraceOpKind -> Z -> Z -> sig -> list V -> V)
    (mem0 : ptr -> V) :
  exists env c eenv mem,
    record [] Ex.read_back begun = (Ret env, c) /\ eager eval ([], mem0) Ex.read_back = Some (eenv, mem) /\
    mem (t_data Ex.out) =
      eval TraceOpKind.Copy 0 0 Ex.g22 [eval TraceOpKind.AddScalar Ex.one 0 Ex.g22 [mem0 (t_data Ex.x)]] /\
    kernel eval mem0 (analyze_liveness (dag_ c)) (t_data Ex.out) = mem0 (t_data Ex.out).
Proof. do 4 eexists. repeat (split; [reflexivity|]). reflexivity. Qed.

(** The tracer tells a buffer's tensors apart by shape. After [x += 1], a
    view of [x]'s buffer with another shape is registered as a new input, which
    the kernel reads before the update: the direct run stores [x + 1], the
    kernel the old [x]. *)
Theorem reshaped_view_is_stale {V : Type} `{!Inhabited V} (eval : TraceOpKind -> Z -> Z -> sig -> list V -> V)
    (mem0 : ptr -> V) :
  exists env c eenv mem,
    record [] Ex.reshaped begun = (Ret env, c) /\ eager eval ([], mem0) Ex.reshaped = Some (eenv, mem) /\
    mem (t_data Ex.out) =
      eval TraceOpKind.Copy 0 0 (1, 4, FP32) [eval TraceOpKind.AddScalar Ex.one 0 Ex.g22 [mem0 (t_data Ex.x)]] /\
    kernel eval mem0 (analyze_liveness (dag_ c)) (t_data Ex.out) =
      eval TraceOpKind.Copy 0 0 (1, 4, FP32) [mem0 (t_data Ex.x)].
Proof. do 4 eexists. repeat (split; [reflexivity|]). reflexivity. Qed.

Lemma trace_faithful_witness :
  Forall (stmt_ok Ex.desc) Ex.fine /\ prog_cost Ex.fine <= INT_MAX /\
  (exists eenv mem, eager Ex.ev ([], Ex.mem0) Ex.fine = Some (eenv, mem)) /\
  exists env c, record [] Ex.fine begun = (Ret env, c) /\ wf_nodes (nodes_ (analyze_liveness (dag_ c))).
Proof.
  assert (Hok : Forall (stmt_ok Ex.desc) Ex.fine).
  { repeat constructor; cbn; try done; repeat (split || constructor); cbn; try done; lia. }
  assert (Hc : prog_cost Ex.fine <= INT_MAX) by (vm_compute; discriminate).
  split; [exact Hok|]. split; [exact Hc|]. split; [do 2 eexists; reflexivity|].
  edestruct (trace_faithful Ex.ev Ex.mem0 Ex.desc Ex.fine) as (env & c & E & W & _); [exact Hok|exact Hc|reflexivity|].
  exists env, c. split; [exact E|exact W].
Defined.
