(* ===== verification/TraceContextSpec.v ===== *)
(** * The tracer keeps the tensors' invariant

    The operations of the tracer act on the same objects as the tensor code:
    they hand out symbolic tensors, turn one into another, give some of them
    storage and turn the rest into empty tensors. They keep the ownership
    invariant and the slot table of TensorSpec.v, and [end] and [discard]
    leave no symbolic tensor behind. *)
From S2P Require Import Prelude Dtype Device Heap Runtime Tensor TensorSpec TraceDag TraceContext TraceSpec TraceRefine.
Import Registry.

Section Spec.
Context (rt : runtime).
Context (Hlaw : forall t s, rt_slots rt t = Some s -> LawfulAlloc t (slot_alloc s)).
Context (F : gset positive).

Abbreviation inv := (TensorSpec.inv rt F).

(** No tensor stands for a node any more. *)
Definition no_symbolic (w : world) : Prop :=
  w_slots w = ∅ /\ forall id t, w_objs w !! id = Some t -> t_jit_slot t < 0.

(** What the tracer turns a symbolic tensor into when it lets go of it. *)
Definition neutral (t : Tensor) : Tensor := set_shape (set_slot t (-1)) 0 0 (t_dtype t).

Lemma neutral_ok h t : t_owns t = false -> t_cap_bytes t = 0 -> tensor_ok rt h (neutral t) /\ owned_block (neutral t) = None.
Proof.
  intros Ho Hc. split; [|unfold owned_block, neutral; cbn; by rewrite Ho].
  apply nonowning_ok; [|done|done]. unfold shape_ok. cbn. intuition lia.
Qed.

Lemma symbolic_nonowning w id t : inv w -> w_objs w !! id = Some t -> t_owns t = false -> t_cap_bytes t = 0 /\ owned_block t = None.
Proof.
  intros [W _] Hid Ho. destruct (wf_obj _ _ _ _ W _ _ Hid) as [_ H]. rewrite Ho in H.
  split; [done|]. unfold owned_block. by rewrite Ho.
Qed.

Lemma tracked_symbolic w slot id : inv w -> w_slots w !! slot = Some id ->
  exists t, w_objs w !! id = Some t /\ t_jit_slot t = slot /\ 0 <= slot /\ t_owns t = false /\ t_data t = nullptr.
Proof.
  intros [_ (_ & Hs & Ht)] Hk. destruct (Ht _ _ Hk) as (t & Hid & Hj & Hp). exists t.
  destruct (Hs _ _ Hid ltac:(lia)) as (Hd & Ho & _). done.
Qed.

(** *** Letting go of the symbolic tensors *)

Definition let_go (ids : list positive) (o : gmap positive Tensor) : gmap positive Tensor :=
  foldl (fun o id => alter neutral id o) o ids.

Lemma release_one_eq id t w : w_objs w !! id = Some t ->
  Ctx.release_one id w = (Ret tt, with_objs w (alter neutral id (w_objs w))).
Proof.
  intros Hid. unfold Ctx.release_one. rewrite (st_bind_ret _ _ _ t w) by by apply obj_eq.
  rewrite (put_eq _ t) by done. f_equal. f_equal. symmetry.
  apply map_eq. intros j. destruct (decide (j = id)) as [->|Hne].
  - by rewrite lookup_alter_eq, lookup_insert_eq, Hid.
  - by rewrite lookup_alter_ne, lookup_insert_ne.
Qed.

Lemma release_list_eq (l : list (Z * positive)) w : (forall k id, (k, id) ∈ l -> is_Some (w_objs w !! id)) ->
  foldr (fun '(_, id) k => _ ← Ctx.release_one id; k) (mret tt) l w =
    (Ret tt, with_objs w (let_go l.*2 (w_objs w))).
Proof.
  revert w. induction l as [|[k id] l IH]; intros w Hl; cbn [foldr]; [by destruct w|].
  destruct (Hl k id ltac:(left)) as [t Hid].
  rewrite (st_bind_ret _ _ _ _ _ (release_one_eq id t w Hid)).
  rewrite IH; [done|]. intros k' id' Hin. cbn. rewrite lookup_alter_is_Some. apply (Hl k'). by right.
Qed.

Lemma let_go_lookup ids o id : NoDup ids ->
  let_go ids o !! id = if bool_decide (id ∈ ids) then neutral <$> o !! id else o !! id.
Proof.
  revert o. induction ids as [|i ids IH]; intros o Hnd; cbn [let_go foldl]; [done|].
  apply NoDup_cons in Hnd as [Hi Hnd]. fold (let_go ids (alter neutral i o)). rewrite IH by done.
  destruct (decide (id = i)) as [->|Hne].
  - rewrite (bool_decide_eq_false_2 _ Hi), bool_decide_eq_true_2 by left. by rewrite lookup_alter_eq.
  - rewrite lookup_alter_ne by done. rewrite (bool_decide_ext (id ∈ i :: ids) (id ∈ ids)); [done|].
    rewrite elem_of_cons. intuition.
Qed.

Lemma let_go_wf h o ids : wf rt F h o ->
  (forall id, id ∈ ids -> exists t, o !! id = Some t /\ t_owns t = false) -> wf rt F h (let_go ids o).
Proof.
  revert o. induction ids as [|i ids IH]; intros o W Hids; [done|].
  destruct (Hids i ltac:(left)) as (t & Hi & Ho). cbn [let_go foldl]. fold (let_go ids (alter neutral i o)).
  destruct (wf_obj _ _ _ _ W _ _ Hi) as [_ Hc]. rewrite Ho in Hc.
  apply IH.
  - destruct (neutral_ok h t Ho Hc) as [Hok Hb].
    replace (alter neutral i o) with (<[i := neutral t]> o).
    + apply wf_nonowning; [done| |done|done]. rewrite Hi. intros t0 [= <-]. unfold owned_block. by rewrite Ho.
    + apply map_eq. intros j. destruct (decide (j = i)) as [->|];
        [by rewrite lookup_alter_eq, lookup_insert_eq, Hi|by rewrite lookup_alter_ne, lookup_insert_ne].
  - intros id Hin. destruct (Hids id ltac:(by right)) as (u & Hu & Hou). destruct (decide (id = i)) as [->|].
    + exists (neutral u). by rewrite lookup_alter_eq, Hu.
    + exists u. by rewrite lookup_alter_ne.
Qed.

Lemma slots_NoDup w : inv w -> NoDup ((map_to_list (w_slots w)).*2).
Proof.
  intros I. apply NoDup_fmap_2_strong; [|apply NoDup_map_to_list].
  intros [k1 i1] [k2 i2] H1%elem_of_map_to_list H2%elem_of_map_to_list. cbn. intros ->.
  destruct (tracked_symbolic _ _ _ I H1) as (t1 & E1 & J1 & _), (tracked_symbolic _ _ _ I H2) as (t2 & E2 & J2 & _).
  rewrite E1 in E2. injection E2 as <-. congruence.
Qed.

(** [release_tracked_] cannot fail, frees and allocates nothing, and leaves no
    symbolic tensor. *)
Lemma release_tracked_spec w : inv w ->
  exists w', Ctx.release_tracked_ w = (Ret tt, w') /\ inv w' /\ no_symbolic w' /\ w_heap w' = w_heap w /\
    w_hook w' = w_hook w /\
    (forall id t, w_objs w !! id = Some t -> w_objs w' !! id = Some (if t_jit_slot t >=? 0 then neutral t else t)) /\
    dom (w_objs w') = dom (w_objs w).
Proof.
  intros I. pose proof I as [W J]. set (l := map_to_list (w_slots w)).
  assert (Hl : forall k id, (k, id) ∈ l -> exists t, w_objs w !! id = Some t /\ t_owns t = false /\ 0 <= t_jit_slot t).
  { intros k id Hin%elem_of_map_to_list. destruct (tracked_symbolic _ _ _ I Hin) as (t & E & Hj & Hp & Ho & _).
    exists t. split; [done|]. split; [done|lia]. }
  assert (Hids : forall id, id ∈ l.*2 -> exists k, w_slots w !! k = Some id).
  { intros id Hin. apply list_elem_of_fmap in Hin as ([k i] & -> & Hin%elem_of_map_to_list). by exists k. }
  exists (with_slots_table (with_objs w (let_go l.*2 (w_objs w))) ∅).
  assert (Hobj : forall id t, w_objs w !! id = Some t ->
            let_go l.*2 (w_objs w) !! id = Some (if t_jit_slot t >=? 0 then neutral t else t)).
  { intros id t Hid. rewrite let_go_lookup by by apply slots_NoDup. rewrite Hid. cbn.
    destruct (t_jit_slot t >=? 0) eqn:E.
    - apply Z.geb_le in E. destruct (jit_slot_of _ _ _ J _ _ Hid E) as [_ Hs].
      rewrite bool_decide_eq_true_2; [done|]. apply list_elem_of_fmap. exists (t_jit_slot t, id).
      split; [done|by apply elem_of_map_to_list].
    - rewrite bool_decide_eq_false_2; [done|]. intros Hin. destruct (Hids id Hin) as [k Hk].
      destruct (tracked_symbolic _ _ _ I Hk) as (t' & E' & Hj & Hp & _). rewrite Hid in E'. injection E' as <-.
      rewrite Z.geb_leb in E. apply Z.leb_gt in E. lia. }
  assert (Hback : forall id t, let_go l.*2 (w_objs w) !! id = Some t -> t_jit_slot t < 0).
  { intros id t. destruct (w_objs w !! id) as [u|] eqn:Eu.
    - rewrite (Hobj id u Eu). intros [= <-]. destruct (t_jit_slot u >=? 0) eqn:E; [cbn; lia|].
      rewrite Z.geb_leb in E. apply Z.leb_gt in E. lia.
    - rewrite let_go_lookup, Eu by by apply slots_NoDup. by case_bool_decide. }
  split.
  { unfold Ctx.release_tracked_. fold l. rewrite (st_bind_ret _ _ _ _ _ (release_list_eq l w
      (fun k id Hin => ltac:(destruct (Hl k id Hin) as (t & E & _); by exists t)))). done. }
  split; [|split; [|split; [done|split; [done|split; [done|]]]]]; cbn.
  - split; cbn; [|split; [by right|split; [|by intros s id Hs; rewrite lookup_empty in Hs]]].
    + apply let_go_wf; [done|]. intros id Hin. destruct (Hids id Hin) as [k Hk].
      destruct (tracked_symbolic _ _ _ I Hk) as (t & E & _ & _ & Ho & _). by exists t.
    + intros id t Hid Hp. specialize (Hback id t Hid). lia.
  - by split.
  - apply set_eq. intros id. rewrite !elem_of_dom. rewrite let_go_lookup by by apply slots_NoDup.
    case_bool_decide; [apply fmap_is_Some|done].
Qed.
(** *** Running parts of a session *)

Lemma on_world_eq {A} (m : M A) s r w' : m (s_world s) = (r, w') -> on_world m s = (r, mkSession (s_ctx s) w').
Proof. intros E. unfold on_world. by rewrite E. Qed.

Lemma on_world_ret {A B} (m : M A) (k : A -> st session B) s a w' : m (s_world s) = (Ret a, w') ->
  (on_world m ≫= k) s = k a (mkSession (s_ctx s) w').
Proof. intros E. by apply st_bind_ret, on_world_eq. Qed.

Lemma get_obj_ret {B} id (k : Tensor -> st session B) s t : w_objs (s_world s) !! id = Some t ->
  (get_obj id ≫= k) s = k t s.
Proof. intros E. unfold get_obj. rewrite (on_world_ret _ _ _ t (s_world s)) by by apply obj_eq. by destruct s. Qed.

(** What the tracer's own operations rely on: the tensors' invariant, and
    slots that are nodes of the graph. *)
Record sess_ok (s : session) : Prop := {
  so_inv : inv (s_world s);
  so_slots : forall id t, w_objs (s_world s) !! id = Some t -> t_jit_slot t < zlen (nodes_ (dag_ (s_ctx s)));
  so_hook : active_ (s_ctx s) = true -> w_hook (s_world s) = true
}.

Lemma jit_hooked o hook slots : jit_inv o hook slots -> jit_inv o true slots.
Proof. intros (_ & H). split; [by left|done]. Qed.

Lemma idle_ok c w : inv w -> no_symbolic w -> (active_ c = true -> w_hook w = true) -> sess_ok (mkSession c w).
Proof.
  intros I [_ E] Hh. split; cbn; [done| |done]. intros id t Hid. specialize (E id t Hid).
  pose proof (zlen_nonneg (nodes_ (dag_ c))). lia.
Qed.

(** Starting and abandoning a trace. [begin] inside a trace throws and
    changes nothing; otherwise it installs the hooks and starts an empty
    graph. [discard] cannot fail. Both turn every symbolic tensor into an empty
    one, leave every other tensor and the heap alone, and keep the ownership
    invariant, so that no tensor is symbolic afterwards. *)
Theorem begin_discard_clean s : sess_ok s ->
  (if active_ (s_ctx s) then exists e, Ctx.begin s = (Throw e, s)
   else exists s', Ctx.begin s = (Ret tt, s') /\ sess_ok s' /\ active_ (s_ctx s') = true /\
          nodes_ (dag_ (s_ctx s')) = [] /\ no_symbolic (s_world s') /\ w_heap (s_world s') = w_heap (s_world s)) /\
  (exists s', Ctx.discard s = (Ret tt, s') /\ sess_ok s' /\ active_ (s_ctx s') = false /\
     no_symbolic (s_world s') /\ w_heap (s_world s') = w_heap (s_world s) /\
     forall id t, w_objs (s_world s) !! id = Some t ->
       w_objs (s_world s') !! id = Some (if t_jit_slot t >=? 0 then neutral t else t)).
Proof.
  intros S. pose proof (so_inv _ S) as I. split.
  - unfold Ctx.begin. rewrite (st_bind_ret _ _ _ (active_ (s_ctx s)) s) by done.
    destruct (active_ (s_ctx s)); [by eexists|].
    assert (I' : inv (with_hook (s_world s))).
    { destruct I as [W J]. split; [exact W|]. by apply (jit_hooked _ _ _ J). }
    destruct (release_tracked_spec (with_hook (s_world s)) I') as (w' & E & Iw & Nw & Hh & Hk & _).
    rewrite (on_world_ret _ _ _ tt (with_hook (s_world s))) by done.
    rewrite (st_bind_ret _ _ _ tt (mkSession (mkCtx (active_ (s_ctx s)) empty_dag ∅) (with_hook (s_world s)))) by done.
    rewrite (on_world_ret _ _ _ tt w') by done. eexists. split; [done|].
    split; [apply idle_ok; [done|done|intros _; exact Hk]|]. split; [done|]. split; [done|]. split; [exact Nw|exact Hh].
  - unfold Ctx.discard. destruct (release_tracked_spec (s_world s) I) as (w' & E & Iw & Nw & Hh & Hk & Ho & _).
    rewrite (st_bind_ret _ _ _ tt (mkSession (mkCtx (active_ (s_ctx s)) empty_dag ∅) (s_world s))) by done.
    rewrite (on_world_ret _ _ _ tt w') by done. eexists. split; [done|].
    split; [by apply idle_ok|]. split; [done|]. split; [done|]. split; [done|]. exact Ho.
Qed.

(** *** Recording *)

(** A new symbolic tensor under a slot nobody has. *)
Lemma jit_new o slots id t : jit_inv o true slots -> o !! id = None -> slots !! t_jit_slot t = None ->
  0 <= t_jit_slot t -> t_data t = nullptr -> t_owns t = false ->
  jit_inv (<[id := t]> o) true (<[t_jit_slot t := id]> slots).
Proof.
  intros (Hh & Hs & Ht) Hid Hsl Hp Hd Ho. split; [by left|split].
  - intros i ti. rewrite lookup_insert_Some. intros [[<- <-]|[Hne Hi]] Hpi.
    + by rewrite lookup_insert_eq.
    + destruct (Hs _ _ Hi Hpi) as (? & ? & E). split; [done|]. split; [done|].
      rewrite lookup_insert_ne; [done|]. intros Ej. rewrite <- Ej, Hsl in E. done.
  - intros k i. rewrite lookup_insert_Some. intros [[<- <-]|[Hne Hk]].
    + exists t. by rewrite lookup_insert_eq.
    + destruct (Ht _ _ Hk) as (ti & Hi & Hj & Hpk). exists ti. split; [|done].
      rewrite lookup_insert_ne; [done|]. intros <-. congruence.
Qed.

Lemma slot_unused s : sess_ok s -> w_slots (s_world s) !! zlen (nodes_ (dag_ (s_ctx s))) = None.
Proof.
  intros S. destruct (w_slots (s_world s) !! _) as [id|] eqn:E; [|done].
  destruct (tracked_symbolic _ _ _ (so_inv _ S) E) as (t & Hid & Hj & _).
  apply (so_slots _ S) in Hid. lia.
Qed.

(** The tensor [record_op] hands out. *)
Definition symbolic (dev : Device) (dt : Dtype) (rows cols slot : Z) : Tensor :=
  mkTensor nullptr rows cols dt dev slot false 0.

Lemma record_op_spec s this op ss sc dev dt rows cols sc2 : sess_ok s -> active_ (s_ctx s) = true ->
  w_objs (s_world s) !! this = None -> zlen (nodes_ (dag_ (s_ctx s))) < INT_MAX ->
  shape_ok (symbolic dev dt rows cols 0) ->
  exists s', Ctx.record_op this op ss sc dev dt rows cols sc2 s = (Ret tt, s') /\ sess_ok s' /\
    active_ (s_ctx s') = true /\
    (forall c', on_dag (add_node op ss sc nullptr dev dt rows cols sc2) (s_ctx s) = (Ret (zlen (nodes_ (dag_ (s_ctx s)))), c') ->
       s_ctx s' = c') /\
    w_heap (s_world s') = w_heap (s_world s) /\
    w_objs (s_world s') = <[this := symbolic dev dt rows cols (zlen (nodes_ (dag_ (s_ctx s))))]> (w_objs (s_world s)).
Proof.
  intros S Ha Hn Hl Hs. set (slot := zlen (nodes_ (dag_ (s_ctx s)))). pose proof (zlen_nonneg (nodes_ (dag_ (s_ctx s)))) as Hp.
  pose proof (so_inv _ S) as [W J]. pose proof (so_hook _ S Ha) as Hk. unfold Ctx.record_op.
  set (n := mkNode slot op ss [] sc sc2 nullptr dev dt rows cols false (-1) false).
  set (c' := set_dag (push_node n (dag_ (s_ctx s))) (s_ctx s)).
  assert (Edag : on_dag (add_node op ss sc nullptr dev dt rows cols sc2) (s_ctx s) = (Ret slot, c')).
  { unfold on_dag, add_node. rewrite TraceSpec.i32_small; [done|]. fold slot. fold slot in Hp, Hl. lia. }
  rewrite (st_bind_ret _ _ _ slot (mkSession c' (s_world s))) by (unfold on_ctx; by rewrite Edag).
  change (set_slot (set_device (set_shape Tensor_default rows cols dt) dev) slot) with (symbolic dev dt rows cols slot).
  rewrite (on_world_ret _ _ _ tt (with_objs (s_world s) (<[this := symbolic dev dt rows cols slot]> (w_objs (s_world s)))))
    by (unfold new_obj; cbn [s_world]; by rewrite Hn).
  eexists. split; [done|]. cbn [s_ctx s_world with_objs with_slots_table w_heap w_objs].
  split; [|split; [done|split; [intros c1 Hc1; congruence|done]]].
  split; cbn.
  - split; cbn.
    + apply wf_nonowning; [done|by rewrite Hn|done|]. by apply nonowning_ok.
    + rewrite Hk. apply (jit_new _ _ this (symbolic dev dt rows cols slot)); cbn; try done.
      * by rewrite Hk in J.
      * by apply slot_unused.
  - intros id t. unfold zlen. rewrite length_app, lookup_insert_Some. cbn.
    intros [[<- <-]|[_ Hk']]; [cbn; unfold slot, zlen; lia|]. apply (so_slots _ S) in Hk'. unfold zlen in Hk'. lia.
  - intros _. by apply (so_hook _ S).
Qed.
(** *** Giving storage to what is still held *)

(** The objects of a later state are symbolic only as they were. *)
Definition slots_from (w w' : world) : Prop :=
  forall id t, w_objs w' !! id = Some t -> 0 <= t_jit_slot t -> exists id0 t0, w_objs w !! id0 = Some t0 /\ t_jit_slot t0 = t_jit_slot t.

Lemma sess_from s c' w' : sess_ok s -> inv w' -> slots_from (s_world s) w' -> w_hook w' = w_hook (s_world s) ->
  zlen (nodes_ (dag_ c')) = zlen (nodes_ (dag_ (s_ctx s))) -> active_ c' = active_ (s_ctx s) ->
  sess_ok (mkSession c' w').
Proof.
  intros S I Hf Hh Hz Ha. split; cbn; [done| |rewrite Ha, Hh; apply S].
  intros id t Hid. rewrite Hz. destruct (Z_lt_le_dec (t_jit_slot t) 0) as [|Hp].
  - pose proof (zlen_nonneg (nodes_ (dag_ (s_ctx s)))). lia.
  - destruct (Hf _ _ Hid Hp) as (id0 & t0 & H0 & <-). by apply (so_slots _ S id0).
Qed.

Lemma empty_on_makes this d r c dt w : w_objs w !! this = None ->
  makes rt this (resolve_device_alias rt d) r c dt (fun _ => True) (T.empty_on rt this d r c dt) w.
Proof.
  intros Hn. destruct (empty_on_cases rt Hlaw this d r c dt w Hn) as [(m & w' & E & Hsm)|(Hs & p & h' & E & Ha)].
  - left. by exists m, w'.
  - right. split; [done|]. exists p, h'. split; [done|]. unfold allocated_as. unfold allocated in Ha.
    destruct (_ =? 0); [done|]. destruct Ha as (b & dv & bs & ? & ? & ? & ? & ? & ?). exists b, dv, bs. done.
Qed.

(** The symbolic tensor at [held] takes over [buf]'s storage. *)
Lemma take_over w held buf t b : inv w -> held <> buf -> w_objs w !! held = Some t -> 0 <= t_jit_slot t ->
  w_objs w !! buf = Some b -> t_jit_slot b < 0 ->
  let w1 := with_objs (with_slots_table w (delete (t_jit_slot t) (w_slots w))) (<[held := set_slot t (-1)]> (w_objs w)) in
  exists w2, T.move_assign rt held buf w1 = (Ret tt, w2) /\ inv w2 /\ w_hook w2 = w_hook w /\
    w_objs w2 = <[buf := left_behind b]> (<[held := set_slot b (-1)]> (w_objs w)).
Proof.
  intros [W J] Hne Ht Hp Hb Hbn w1.
  destruct (jit_slot_of _ _ _ J _ _ Ht Hp) as [Hh Hs]. destruct J as (J1 & J2 & J3).
  destruct (J2 _ _ Ht Hp) as (Hd & Ho & _).
  assert (Hok : tensor_ok rt (w_heap w) t) by by eapply wf_obj.
  assert (I1 : inv w1).
  { split; cbn.
    - apply wf_nonowning; [done| |unfold owned_block; cbn; by rewrite Ho|exact Hok].
      rewrite Ht. intros t0 [= <-]. unfold owned_block. by rewrite Ho.
    - by apply (jit_forget _ _ _ (conj J1 (conj J2 J3)) held t). }
  destruct (move_assign_inv rt Hlaw F held buf (set_slot t (-1)) b w1 Hne I1) as (w2 & E & I2 & _ & Hobj).
  - cbn. by rewrite lookup_insert_eq.
  - cbn. by rewrite lookup_insert_ne.
  - exists w2. split; [done|]. split; [done|]. split.
    + pose proof (move_assign_eq rt Hlaw held buf (set_slot t (-1)) b w1 Hne) as E'. rewrite E' in E.
      * by injection E as <-.
      * cbn. by rewrite lookup_insert_eq.
      * cbn. by rewrite lookup_insert_ne.
      * exact Hok.
    + rewrite Hobj. cbn. rewrite insert_insert_eq. unfold taken.
      destruct (Z.geb_spec (t_jit_slot b) 0); [lia|done].
Qed.
(** What [materialize_] leaves of a node: the same node, except that it may
    have been given a buffer or found unobservable. *)
Definition settled (n n' : TraceNode) : Prop :=
  n' = n \/ n' = set_live false n \/ exists p, p <> nullptr /\ n_buffer n = nullptr /\ n' = set_buffer p n.

Definition node_done (n : TraceNode) : Prop := n_live n = true -> n_buffer n <> nullptr.

(** The graph after position [i] has been looked at. *)
Definition node_step (i : nat) (s s' : session) : Prop :=
  input_ptr_to_slot_ (dag_ (s_ctx s')) = input_ptr_to_slot_ (dag_ (s_ctx s)) /\
  active_ (s_ctx s') = active_ (s_ctx s) /\
  exists n', nodes_ (dag_ (s_ctx s')) = alter (fun _ => n') i (nodes_ (dag_ (s_ctx s))) /\
    forall n, nodes_ (dag_ (s_ctx s)) !! i = Some n -> settled n n' /\ node_done n'.

Lemma node_mod_ret i f s : Ctx.node_mod i f s =
  (Ret tt, mkSession (set_dag (mkDAG (alter f i (nodes_ (dag_ (s_ctx s)))) (input_ptr_to_slot_ (dag_ (s_ctx s)))) (s_ctx s)) (s_world s)).
Proof. done. Qed.

Lemma alter_const {A} (f : A -> A) i (l : list A) x : l !! i = Some x -> alter f i l = alter (fun _ => f x) i l.
Proof.
  intros Hi. apply list_eq. intros j. destruct (decide (j = i)) as [->|].
  - by rewrite !list_lookup_alter_eq, Hi.
  - by rewrite !list_lookup_alter_ne.
Qed.

Lemma node_step_mod i f s w' n : nodes_ (dag_ (s_ctx s)) !! i = Some n -> settled n (f n) -> node_done (f n) ->
  node_step i s (mkSession (set_dag (mkDAG (alter f i (nodes_ (dag_ (s_ctx s)))) (input_ptr_to_slot_ (dag_ (s_ctx s)))) (s_ctx s)) w').
Proof.
  intros Hi Hs Hd. split; [done|]. split; [done|]. exists (f n). cbn. split; [by apply alter_const|].
  intros m Hm. rewrite Hi in Hm. by injection Hm as <-.
Qed.

Lemma node_step_same i s w' : (forall n, nodes_ (dag_ (s_ctx s)) !! i = Some n -> node_done n) ->
  node_step i s (mkSession (s_ctx s) w').
Proof.
  intros Hd. split; [done|]. split; [done|]. cbn. destruct (nodes_ (dag_ (s_ctx s)) !! i) as [n|] eqn:E.
  - exists n. split; [|intros m [= <-]; split; [by left|by apply Hd]].
    apply list_eq. intros j. destruct (decide (j = i)) as [->|]; [by rewrite list_lookup_alter_eq, E|].
    by rewrite list_lookup_alter_ne.
  - exists (mkNode 0 TraceOpKind.Input [] [] 0 0 nullptr Dev.CPU0 FP32 0 0 false 0 false). split; [|done].
    apply list_eq. intros j. destruct (decide (j = i)) as [->|]; [by rewrite list_lookup_alter_eq, E|].
    by rewrite list_lookup_alter_ne.
Qed.

(** The step for one node: it may run out of memory, and otherwise gives a
    live node its buffer or finds it unobservable. *)
(** The allocator refuses the buffer of the live node [n], with [e]. *)
Definition refused (n : TraceNode) (e : str) : Prop :=
  n_live n = true /\ exists id w, (T.empty_on rt id (n_device n) (n_rows n) (n_cols n) (n_dtype n) w).1 = Throw e.

Lemma materialize_one_spec i s n : sess_ok s -> nodes_ (dag_ (s_ctx s)) !! i = Some n -> n_id n = Z.of_nat i ->
  let '(r, s') := Ctx.materialize_one rt i s in
  sess_ok s' /\
  match r with
  | Ret _ => node_step i s s'
  | Throw e => s_ctx s' = s_ctx s /\ refused n e
  | Undef => False
  end.
Proof.
  intros S Hi Hid. unfold Ctx.materialize_one. rewrite Hi. pose proof (so_inv _ S) as I.
  assert (Hsame : node_done n -> node_step i s s).
  { intros Hd. destruct s as [c w]. apply node_step_same. cbn in *. intros m Hm. rewrite Hi in Hm. by injection Hm as <-. }
  destruct (negb (n_live n)) eqn:El.
  { split; [done|]. apply Hsame. intros E. by rewrite E in El. }
  destruct (negb (is_null (n_buffer n))) eqn:Eb.
  { split; [done|]. apply Hsame. intros _ E. by rewrite E in Eb. }
  assert (Hnull : n_buffer n = nullptr) by by destruct (n_buffer n).
  destruct (w_slots (s_world s) !! n_id n) as [held|] eqn:Es.
  2:{ rewrite node_mod_ret. split; [|by apply (node_step_mod i _ s _ n Hi); [right; left|]].
      apply (sess_from s); try done; [intros id t Hid' Hp; by exists id, t|cbn; apply TraceSpec.zlen_alter]. }
  destruct (tracked_symbolic _ _ _ I Es) as (t & Ht & Hj & Hp & Ho & Hdn).
  set (buf := fresh (dom (w_objs (s_world s)))).
  assert (Hbuf : w_objs (s_world s) !! buf = None) by apply not_elem_of_dom, is_fresh.
  assert (Hne : held <> buf) by (intros ->; congruence).
  pose proof (empty_on_makes buf (n_device n) (n_rows n) (n_cols n) (n_dtype n) (s_world s) Hbuf) as Hmk.
  pose proof (makes_inv rt F _ _ _ _ _ _ _ _ Hmk Hbuf I) as [_ I1].
  destruct Hmk as [(e & w1 & E & Hsm)|(_ & p & h' & E & Ha)]; rewrite E in I1; cbn [snd] in I1.
  { assert (on_world (T.empty_on rt buf (n_device n) (n_rows n) (n_cols n) (n_dtype n)) s =
            (Throw e, mkSession (s_ctx s) w1)) as E1 by by apply on_world_eq.
    rewrite (st_bind_throw _ _ _ _ _ E1). destruct Hsm as (_ & Hobj & Hhk & _). split; [|split; [done|split]].
    - apply (sess_from s); try done. intros id u. rewrite Hobj. by eauto.
    - by destruct (n_live n).
    - exists buf, (s_world s). by rewrite E. }
  rewrite (on_world_ret _ _ _ _ _ E). set (ft := fresh_tensor _ _ _ _ p _) in *.
  set (w1 := created buf ft h' (s_world s)) in *.
  assert (Hb1 : w_objs w1 !! buf = Some ft) by apply created_obj.
  assert (Hdt : forall c' w2 b2, inv w2 -> w_objs w2 !! buf = Some b2 -> w_hook w2 = w_hook (s_world s) ->
            slots_from (s_world s) w2 -> zlen (nodes_ (dag_ c')) = zlen (nodes_ (dag_ (s_ctx s))) ->
            active_ c' = active_ (s_ctx s) ->
            exists w3, on_world (T.dtor rt buf) (mkSession c' w2) = (Ret tt, mkSession c' w3) /\ sess_ok (mkSession c' w3)).
  { intros c' w2 b2 I2 Hb2 Hh2 Hf2 Hz Hac. destruct (dtor_inv rt Hlaw F buf b2 w2 I2 Hb2) as (w3 & E3 & I3 & Ho3 & _).
    exists w3. split; [by apply on_world_eq|]. apply (sess_from s); try done.
    - intros id u. rewrite Ho3. intros [_ H]%lookup_delete_Some. exact (Hf2 _ _ H).
    - rewrite <- Hh2. rewrite (dtor_eq rt Hlaw buf b2) in E3; [by injection E3 as <-|done|].
      by apply (wf_obj _ _ _ _ (proj1 I2) buf). }
  assert (Hf1 : slots_from (s_world s) w1).
  { intros id u. cbn. rewrite lookup_insert_Some. intros [[<- <-]|[_ H]]; [cbn; lia|]. intros _. by exists id, u. }
  unfold with_dtor, Ctx.install. rewrite (get_obj_ret _ _ _ ft) by done. change (t_data ft) with p.
  destruct (is_null p) eqn:Ep.
  - rewrite node_mod_ret. cbn [s_ctx s_world].
    destruct (Hdt (set_dag (mkDAG (alter (set_live false) i (nodes_ (dag_ (s_ctx s)))) (input_ptr_to_slot_ (dag_ (s_ctx s)))) (s_ctx s))
                w1 ft I1 Hb1 eq_refl Hf1) as (w3 & -> & S3); [apply TraceSpec.zlen_alter|done|].
    split; [done|]. by apply (node_step_mod i _ s _ n Hi); [right; left|].
  - assert (Ht1 : w_objs w1 !! held = Some t) by (cbn; by rewrite lookup_insert_ne).
    destruct (take_over w1 held buf t ft I1 Hne Ht1 ltac:(lia) Hb1 ltac:(cbn; lia)) as (w2 & E2 & I2 & Hh2 & Ho2).
    rewrite Hj in E2. unfold slots_mod. cbv iota.
    rewrite (on_world_ret _ _ _ tt (with_slots_table w1 (delete (n_id n) (w_slots w1)))) by done.
    rewrite (get_obj_ret _ _ _ t) by done. cbn [s_ctx s_world].
    rewrite (on_world_ret _ _ _ tt (with_objs (with_slots_table w1 (delete (n_id n) (w_slots w1)))
               (<[held := set_slot t (-1)]> (w_objs w1)))) by (unfold put; cbn [s_world with_slots_table w_objs]; by rewrite Ht1).
    rewrite (on_world_ret _ _ _ tt w2) by exact E2.
    rewrite (get_obj_ret _ _ _ (set_slot ft (-1))) by (cbn [s_world]; rewrite Ho2, lookup_insert_ne, lookup_insert_eq by done; done).
    rewrite node_mod_ret. cbn [s_ctx s_world].
    destruct (Hdt (set_dag (mkDAG (alter (set_buffer (t_data (set_slot ft (-1)))) i (nodes_ (dag_ (s_ctx s))))
                     (input_ptr_to_slot_ (dag_ (s_ctx s)))) (s_ctx s)) w2 (left_behind ft) I2) as (w3 & -> & S3);
      [rewrite Ho2; by rewrite lookup_insert_eq|done| |apply TraceSpec.zlen_alter|done|].
    { intros id u. rewrite Ho2, !lookup_insert_Some. intros [[<- <-]|[_ [[<- <-]|[_ H]]]]; [cbn; lia|cbn; lia|exact (Hf1 _ _ H)]. }
    split; [done|]. apply (node_step_mod i _ s _ n Hi).
    + right. right. exists p. split; [by intros ->|]. split; done.
    + intros _. cbn. by intros ->.
Qed.
(** *** The end of a trace *)

Definition ids_ok (ns : list TraceNode) : Prop := forall i n, ns !! i = Some n -> n_id n = Z.of_nat i.

(** Half-way through [materialize_]: the first [i] nodes of [ns0] are done. *)
Definition half_done (ns0 ns : list TraceNode) (i : nat) : Prop :=
  length ns = length ns0 /\
  (forall j n, (j < i)%nat -> ns0 !! j = Some n -> exists n', ns !! j = Some n' /\ settled n n' /\ node_done n') /\
  (forall j, (i <= j)%nat -> ns !! j = ns0 !! j).

Lemma half_done_step ns0 i s s' : half_done ns0 (nodes_ (dag_ (s_ctx s))) i -> node_step i s s' ->
  half_done ns0 (nodes_ (dag_ (s_ctx s'))) (S i).
Proof.
  intros (Hl & Hd & Hr) (_ & _ & n' & -> & Hn). split; [by rewrite length_alter|]. split.
  - intros j n Hj Hjn. destruct (decide (j = i)) as [->|Hne].
    + rewrite <- Hr in Hjn by done. rewrite list_lookup_alter_eq, Hjn. exists n'. split; [done|by apply Hn].
    + rewrite list_lookup_alter_ne by done. apply Hd; [lia|done].
  - intros j Hj. rewrite list_lookup_alter_ne by lia. apply Hr. lia.
Qed.

Lemma half_done_end ns0 ns : half_done ns0 ns (length ns0) -> Forall2 settled ns0 ns /\ Forall node_done ns.
Proof.
  intros (Hl & Hd & _). assert (forall j n, ns0 !! j = Some n -> exists n', ns !! j = Some n' /\ settled n n' /\ node_done n') as H.
  { intros j n Hj. apply Hd; [by eapply lookup_lt_Some|done]. }
  split.
  - apply Forall2_same_length_lookup. split; [done|]. intros j n n' Hj Hj'.
    destruct (H j n Hj) as (m & Hm & ? & _). rewrite Hj' in Hm. by injection Hm as <-.
  - apply Forall_lookup. intros j n' Hj'. destruct (lookup_lt_is_Some_2 ns0 j) as [n Hj].
    { rewrite <- Hl. by eapply lookup_lt_Some. }
    destruct (H j n Hj) as (m & Hm & _ & ?). rewrite Hj' in Hm. by injection Hm as <-.
Qed.

Lemma materialize_from_spec ns0 k : forall i s, sess_ok s -> ids_ok ns0 ->
  half_done ns0 (nodes_ (dag_ (s_ctx s))) i -> (i + k = length ns0)%nat ->
  let '(r, s') := Ctx.materialize_from rt k i s in
  sess_ok s' /\ active_ (s_ctx s') = active_ (s_ctx s) /\
  match r with
  | Ret _ => half_done ns0 (nodes_ (dag_ (s_ctx s'))) (length ns0)
  | Throw e => exists j n, ns0 !! j = Some n /\ refused n e
  | Undef => False
  end.
Proof.
  induction k as [|k IH]; intros i s So Hid Hh Hik; cbn [Ctx.materialize_from].
  { split; [done|]. split; [done|]. by replace (length ns0) with i by lia. }
  destruct (lookup_lt_is_Some_2 ns0 i ltac:(lia)) as [n Hn].
  assert (Hi : nodes_ (dag_ (s_ctx s)) !! i = Some n) by (destruct Hh as (_ & _ & Hr); by rewrite Hr).
  pose proof (materialize_one_spec i s n So Hi (Hid _ _ Hn)) as H1.
  destruct (Ctx.materialize_one rt i s) as [[u|e|] s1] eqn:E; destruct H1 as [S1 H1]; [| |done].
  - rewrite (st_bind_ret _ _ _ _ _ E). pose proof (half_done_step _ _ _ _ Hh H1) as Hh1.
    destruct H1 as (_ & Ha & _). specialize (IH (S i) s1 S1 Hid Hh1 ltac:(lia)).
    destruct (Ctx.materialize_from rt k (S i) s1) as [r s']. by rewrite <- Ha.
  - destruct H1 as [Hc Hr]. rewrite (st_bind_throw _ _ _ _ _ E). split; [done|]. split; [by rewrite Hc|]. by exists i, n.
Qed.

(** No trace is open: nothing is recorded, no buffer has a slot, and no tensor
    is tracked or symbolic. *)
Definition closed (s : session) : Prop :=
  sess_ok s /\ s_ctx s = idle_ctx /\ w_slots (s_world s) = ∅ /\
  forall id t, w_objs (s_world s) !! id = Some t -> t_jit_slot t < 0.

Lemma closed_idle w : inv w -> no_symbolic w -> closed (mkSession idle_ctx w).
Proof. intros I N. split; [by apply idle_ok|]. split; [done|]. exact N. Qed.

Lemma discard_closes s : sess_ok s -> exists s', Ctx.discard s = (Ret tt, s') /\ closed s'.
Proof.
  intros S. unfold Ctx.discard. destruct (release_tracked_spec (s_world s) (so_inv _ S)) as (w' & E & Iw & Nw & _).
  rewrite (st_bind_ret _ _ _ tt (mkSession (mkCtx (active_ (s_ctx s)) empty_dag ∅) (s_world s))) by done.
  rewrite (on_world_ret _ _ _ tt w') by done. eexists. split; [done|]. by apply closed_idle.
Qed.

(** C16: ending a trace. [end] never goes wrong: outside a trace it throws and
    changes nothing; if the allocator refuses the buffer of a live node it throws
    what the allocator threw and leaves the trace open, which [discard] then
    closes; otherwise no trace is open afterwards: the context is idle, both
    tables are empty and no tensor is symbolic, whether it returns or throws for
    want of a live node. The graph it returns is the analysed trace with a buffer
    on every live node, at least one node is live, and a node is dropped from the
    live ones only because nothing can observe it. Ownership is kept on every
    path. *)
Theorem end_trace_safe s : sess_ok s -> wf_nodes (nodes_ (dag_ (s_ctx s))) ->
  zlen (nodes_ (dag_ (s_ctx s))) <= INT_MAX ->
  let '(r, s') := Ctx.end_ rt s in
  let d0 := analyze_liveness (dag_ (s_ctx s)) in
  match r with
  | Ret d =>
      active_ (s_ctx s) = true /\ closed s' /\
      existsb n_live (nodes_ d) = true /\ Forall node_done (nodes_ d) /\ Forall2 settled (nodes_ d0) (nodes_ d)
  | Throw e =>
      (active_ (s_ctx s) = false /\ s' = s) \/
      (active_ (s_ctx s) = true /\ (exists n, n ∈ nodes_ d0 /\ refused n e) /\
       sess_ok s' /\ active_ (s_ctx s') = true /\ exists s'', Ctx.discard s' = (Ret tt, s'') /\ closed s'') \/
      (active_ (s_ctx s) = true /\ e = Ctx.no_result /\ closed s' /\
       exists ns, Forall2 settled (nodes_ d0) ns /\ Forall node_done ns /\ existsb n_live ns = false)
  | Undef => False
  end.
Proof.
  intros S W Hl. unfold Ctx.end_. rewrite (st_bind_ret _ _ _ (active_ (s_ctx s)) s) by done.
  destruct (active_ (s_ctx s)) eqn:Ha; cbn [negb]; [|by left].
  set (d := analyze_liveness (dag_ (s_ctx s))). set (s1 := mkSession (set_dag d (s_ctx s)) (s_world s)).
  rewrite (st_bind_ret _ _ _ tt s1) by done.
  assert (Hlen : length (nodes_ d) = length (nodes_ (dag_ (s_ctx s)))).
  { symmetry. eapply Forall2_length. by apply TraceRefine.analyze_same. }
  assert (S1 : sess_ok s1).
  { apply (sess_from s); [done|apply S| |done| |done].
    - intros id t Hid. by exists id, t.
    - unfold zlen. exact (f_equal Z.of_nat Hlen). }
  assert (Hids : ids_ok (nodes_ d)).
  { intros i n Hn. by apply (TraceRefine.wf_same _ _ (TraceRefine.analyze_same _ W Hl) W). }
  pose proof (materialize_from_spec (nodes_ d) (length (nodes_ d)) 0 s1 S1 Hids) as Hm.
  assert (Hh : half_done (nodes_ d) (nodes_ (dag_ (s_ctx s1))) 0) by (split; [done|split; [intros j n Hj; lia|done]]).
  specialize (Hm Hh ltac:(lia)).
  assert (Em : Ctx.materialize_ rt s1 = Ctx.materialize_from rt (length (nodes_ d)) 0 s1) by done.
  destruct (Ctx.materialize_from rt (length (nodes_ d)) 0 s1) as [[u|e|] s2] eqn:E; destruct Hm as (S2 & Ha2 & Hm); [| |done].
  2:{ rewrite (st_bind_throw _ _ _ _ _ Em). right. left. split; [done|]. split.
      - destruct Hm as (j & n & Hn & Hr). exists n. split; [by apply list_elem_of_lookup_2 in Hn|done].
      - split; [done|]. split; [by rewrite Ha2|]. by apply discard_closes. }
  rewrite (st_bind_ret _ _ _ _ _ Em). destruct (half_done_end _ _ Hm) as [Hset Hdone].
  rewrite (st_bind_ret _ _ _ tt (mkSession (mkCtx false (dag_ (s_ctx s2)) ∅) (s_world s2))) by done.
  destruct (release_tracked_spec (s_world s2) (so_inv _ S2)) as (w' & Er & Iw & Nw & _ & Hk & _).
  rewrite (on_world_ret _ _ _ tt w') by done. cbn [s_ctx].
  rewrite (st_bind_ret _ _ _ (dag_ (s_ctx s2)) (mkSession (mkCtx false (dag_ (s_ctx s2)) ∅) w')) by done.
  rewrite (st_bind_ret _ _ _ tt (mkSession (mkCtx false empty_dag ∅) w')) by done.
  pose proof (closed_idle w' Iw Nw) as Hok.
  destruct (existsb n_live (nodes_ (dag_ (s_ctx s2)))) eqn:Ex; cbn; [done|].
  right. right. do 3 (split; [done|]). by exists (nodes_ (dag_ (s_ctx s2))).
Qed.
End Spec.

(** ** Examples *)

Module Ex.
(** A machine with nothing but memory for the CPU, and a trace of one symbolic
    tensor [t = x + 1] that the client still holds. *)
Definition rt : runtime := mkRuntime
  (fun t => match t with CPU => Some (mkSlot (fun _ => None) (IdealAlloc.table CPU)) | _ => None end)
  0 0 true Dev.CPU0 true None [].

Lemma ideal t s : rt_slots rt t = Some s -> LawfulAlloc t (slot_alloc s).
Proof. destruct t; cbn; intros [= <-]; apply IdealAlloc.lawful. Qed.

Definition quiet : session := mkSession idle_ctx (mkWorld ∅ ∅ 0 0 false ∅).

Lemma quiet_ok : sess_ok rt ∅ quiet.
Proof.
  split; cbn; [|intros id t H; by rewrite lookup_empty in H|done].
  split; [split|split; [|split]]; cbn.
  - intros id t H. by rewrite lookup_empty in H.
  - intros i j ti tj b H. by rewrite lookup_empty in H.
  - intros b. rewrite lookup_empty. split; [by intros []|]. intros [H|(id & t & H & _)]; [set_solver|by rewrite lookup_empty in H].
  - intros id t b H. by rewrite lookup_empty in H.
  - by right.
  - intros id t H. by rewrite lookup_empty in H.
  - intros s id H. by rewrite lookup_empty in H.
Qed.

Definition begun : session := (Ctx.begin quiet).2.
Lemma begun_ok : sess_ok rt ∅ begun.
Proof.
  destruct (release_tracked_spec rt ∅ (with_hook (s_world quiet))) as (w' & E & Iw & Nw & _ & Hk & _).
  { destruct (so_inv _ _ _ quiet_ok) as [W J]. split; [exact W|exact (jit_hooked _ _ _ J)]. }
  assert (Ew : w' = with_hook (s_world quiet)) by (vm_compute in E; vm_compute; by injection E).
  subst w'. apply (idle_ok rt ∅ (mkCtx true empty_dag ∅) _ Iw Nw). done.
Qed.

(** A constant the client records: no operands. *)
Definition held : session := (Ctx.record_op 1 TraceOpKind.Const [] 0 Dev.CPU0 FP32 2 2 0 begun).2.
Lemma held_ok : sess_ok rt ∅ held.
Proof.
  assert (Hs : shape_ok (symbolic Dev.CPU0 FP32 2 2 0)).
  { unfold shape_ok. cbn. split; [lia|]. split; [lia|by left]. }
  destruct (record_op_spec rt ∅ begun 1 TraceOpKind.Const [] 0 Dev.CPU0 FP32 2 2 0 begun_ok eq_refl eq_refl eq_refl Hs)
    as (s' & E & Hok & _).
  unfold held. rewrite E. exact Hok.
Qed.
Lemma held_wf : wf_nodes (nodes_ (dag_ (s_ctx held))).
Proof.
  intros i n H. apply (list_lookup_singleton_Some _ i n) in H as [-> <-]. done.
Qed.
End Ex.

Lemma begin_discard_clean_witness :
  sess_ok Ex.rt ∅ Ex.held /\ exists s', Ctx.discard Ex.held = (Ret tt, s') /\ no_symbolic (s_world s').
Proof.
  split; [exact Ex.held_ok|].
  destruct (begin_discard_clean Ex.rt ∅ Ex.held Ex.held_ok) as (_ & s' & E & _ & _ & N & _).
  exists s'. split; [exact E|exact N].
Defined.

Lemma end_trace_safe_witness :
  sess_ok Ex.rt ∅ Ex.held /\ wf_nodes (nodes_ (dag_ (s_ctx Ex.held))) /\
  exists d s', Ctx.end_ Ex.rt Ex.held = (Ret d, s') /\ closed Ex.rt ∅ s' /\ existsb n_live (nodes_ d) = true.
Proof.
  split; [exact Ex.held_ok|]. split; [exact Ex.held_wf|].
  pose proof (end_trace_safe Ex.rt Ex.ideal ∅ Ex.held Ex.held_ok Ex.held_wf ltac:(vm_compute; discriminate)) as H.
  assert (R : match (Ctx.end_ Ex.rt Ex.held).1 with Ret _ => true | _ => false end = true) by (vm_compute; reflexivity).
  destruct (Ctx.end_ Ex.rt Ex.held) as [[d|e|] s']; [|discriminate R..].
  exists d, s'. destruct H as (_ & Hc & Hl & _). exact (conj eq_refl (conj Hc Hl)).
Defined.

Lemma liveness_exact_witness : wf_nodes (nodes_ (dag_ (s_ctx Ex.held))) /\
  exists m, nodes_ (analyze_liveness (dag_ (s_ctx Ex.held))) !! 0%nat = Some m /\ n_live m = true.
Proof.
  split; [exact Ex.held_wf|].
  assert (E : exists n, nodes_ (dag_ (s_ctx Ex.held)) !! 0%nat = Some n /\ n_op n = TraceOpKind.Const /\ n_inputs n = []).
  { eexists. split; [reflexivity|]. split; reflexivity. }
  destruct E as (n & E & Hop & Hin).
  destruct (liveness_exact (dag_ (s_ctx Ex.held)) 0 n Ex.held_wf ltac:(vm_compute; discriminate) E) as (m & Hm & _ & _ & Hl).
  exists m. split; [exact Hm|]. apply Hl. split; [congruence|]. right. intros j k Hk Hj.
  apply (list_lookup_singleton_Some _ j k) in Hk as [_ <-]. by apply elem_of_nil in Hj.
Defined.
