(* ===== verification/TracePlanSpec.v ===== *)
(** * Plans are safe to run

    The row-norm tiling covers every row and keeps a block's exit uniform; an
    elementwise plan never sends a lane outside its operand's buffer; and what
    a row-norm plan's two passes compute. *)
From stdpp Require Import functions.
From S2P Require Import Prelude Dtype Device Heap Tensor TraceDag TraceContext TraceSpec TraceRefine TracePlan.

(** ** The row-norm tiling *)

Lemma grow_threads_spec per_row :
  let t := grow_threads 8 per_row 32 in
  (t = 32 \/ t = 64 \/ t = 128 \/ t = 256) /\ (t = 256 \/ per_row <= t) /\ (t = 32 \/ t / 2 < per_row).
Proof.
  unfold grow_threads, kRowThreads.
  change (Z.shiftl 32 1) with 64. change (Z.shiftl 64 1) with 128. change (Z.shiftl 128 1) with 256.
  change (32 <? 256) with true. change (64 <? 256) with true. change (128 <? 256) with true.
  change (256 <? 256) with false. rewrite !andb_true_r, !andb_false_r.
  assert (64 / 2 = 32) by done. assert (128 / 2 = 64) by done. assert (256 / 2 = 128) by done.
  destruct (Z.ltb_spec 32 per_row); [|cbv zeta; lia]. destruct (Z.ltb_spec 64 per_row); [|cbv zeta; lia].
  destruct (Z.ltb_spec 128 per_row); cbv zeta; lia.
Qed.

Lemma shrink_rows_spec rows fuel k r0 : 1 <= rows -> (k < fuel)%nat -> r0 = 2 ^ Z.of_nat k ->
  let r := shrink_rows fuel rows r0 in
  1 <= r <= r0 /\ rows mod r = 0 /\ (r = r0 \/ rows mod (2 * r) <> 0).
Proof.
  intros Hr. revert k r0. induction fuel as [|fuel IH]; intros k r0 Hk E; [lia|]. cbn [shrink_rows].
  assert (Hr0 : 0 < r0) by (rewrite E; apply Z.pow_pos_nonneg; lia).
  rewrite Z.rem_mod_nonneg by lia. rewrite Z.gtb_ltb.
  destruct (Z.ltb_spec 1 r0) as [H1|H1]; cbn [andb].
  2:{ assert (r0 = 1) as -> by lia. cbv zeta. rewrite Z.mod_1_r. lia. }
  destruct (Z.eqb_spec (rows mod r0) 0) as [E0|E0]; cbn [negb]; [cbv zeta; lia|].
  destruct k as [|k]; [cbn in E; lia|].
  assert (Hs : Z.shiftr r0 1 = 2 ^ Z.of_nat k).
  { rewrite E, Z.shiftr_div_pow2, Nat2Z.inj_succ, Z.pow_succ_r by lia. rewrite Z.mul_comm. by rewrite Z.div_mul. }
  assert (H2 : r0 = 2 * 2 ^ Z.of_nat k) by (rewrite E, Nat2Z.inj_succ, Z.pow_succ_r by lia; done).
  destruct (IH k (Z.shiftr r0 1) ltac:(lia) Hs) as (Hle & Hm & Hmax). cbv zeta in *.
  set (r := shrink_rows fuel rows (Z.shiftr r0 1)) in *. rewrite Hs in *.
  split; [lia|]. split; [done|]. right. destruct Hmax as [->|?]; [by rewrite <- H2|done].
Qed.

(** The tiling of a row-norm kernel is right for every shape whose column
    count leaves room for the rounding. The threads of a row are a power of two
    from a warp to a block, enough for one stride to cover the row unless they
    are a whole block, and no more than half too many; a block never exceeds
    its size; and the rows per block divide the rows, so that the early exit
    is uniform across a block. *)
Theorem row_norm_geometry_ok cols rows lanes : 1 <= cols -> 1 <= rows -> 1 <= lanes -> cols + lanes <= INT_MAX ->
  exists t r, row_norm_geometry cols rows lanes = Ret (t, r) /\
    (t = 32 \/ t = 64 \/ t = 128 \/ t = 256) /\ 1 <= r /\ t * r <= kRowThreads /\
    (t = kRowThreads \/ cols <= t * lanes) /\ (t = 32 \/ t / 2 * lanes < cols) /\
    rows mod r = 0 /\ (t * r = kRowThreads \/ rows mod (2 * r) <> 0).
Proof.
  intros Hc Hr Hl Hm. unfold row_norm_geometry. destruct (Z.ltb_spec lanes 1); [lia|].
  rewrite (proj2 (Z.leb_le _ _)) by (unfold INT_MIN; lia). rewrite (proj2 (Z.leb_le _ _)) by done. cbn [andb].
  rewrite Z.quot_div_nonneg by lia. set (per_row := (cols + lanes - 1) / lanes).
  destruct (grow_threads_spec per_row) as (Ht & Hcov & Hmin). set (t := grow_threads 8 per_row 32) in *.
  assert (Hq : Z.quot kRowThreads t = 256 / t) by (apply Z.quot_div_nonneg; unfold kRowThreads; lia).
  assert (H8 : 256 / t = 1 \/ 256 / t = 2 \/ 256 / t = 4 \/ 256 / t = 8).
  { destruct Ht as [->|[->|[->| ->]]]; cbn; auto. }
  assert (Hk : exists k, (k < 8)%nat /\ 256 / t = 2 ^ Z.of_nat k).
  { destruct H8 as [->|[->|[->| ->]]]; [exists 0%nat|exists 1%nat|exists 2%nat|exists 3%nat]; (split; [lia|done]). }
  destruct Hk as (k & Hk & Ek). destruct (shrink_rows_spec rows 8 k (256 / t) Hr Hk Ek) as (Hr1 & Hdiv & Hmax). rewrite Hq.
  set (r := shrink_rows 8 rows (256 / t)) in *.
  assert (Hprod : t * (256 / t) = 256) by (destruct Ht as [->|[->|[->| ->]]]; done).
  assert (Hper : per_row * lanes < cols + lanes /\ cols <= per_row * lanes).
  { unfold per_row. pose proof (Z.div_mod (cols + lanes - 1) lanes ltac:(lia)).
    pose proof (Z.mod_pos_bound (cols + lanes - 1) lanes ltac:(lia)). nia. }
  exists t, r. unfold kRowThreads. split; [done|]. split; [done|]. split; [lia|]. split; [nia|].
  split; [destruct Hcov; [by left|right; nia]|]. split; [destruct Hmin; [by left|right; nia]|].
  split; [done|]. destruct Hmax as [->|?]; [left; lia|by right].
Qed.

Lemma row_norm_geometry_ok_witness : 1 <= 384 /\ row_norm_geometry 384 1000 8 = Ret (64, 4).
Proof.
  split; [lia|]. destruct (row_norm_geometry_ok 384 1000 8) as (t & r & E & _); [lia..|unfold INT_MAX; lia|].
  rewrite E. vm_compute in E. injection E as <- <-. reflexivity.
Defined.

(** ** Elementwise plans stay inside their buffers *)

(** The element of a node's buffer that belongs to element [i] of the
    dominant shape. *)
Definition element (bk : BroadcastKind) (cols i : Z) : Z :=
  match bk with
  | BroadcastKind.Full => i
  | BroadcastKind.Row => i mod cols
  | BroadcastKind.Col => i / cols
  | BroadcastKind.Scalar => 0
  end.

(** The element the vector access of a thread at [i] touches for lane [j]:
    one address is computed per thread, and scalars and columns are loaded
    once for all lanes. *)
Definition lane (bk : BroadcastKind) (cols i j : Z) : Z :=
  match bk with
  | BroadcastKind.Full | BroadcastKind.Row => element bk cols i + j
  | BroadcastKind.Col | BroadcastKind.Scalar => element bk cols i
  end.

Lemma broadcast_of_spec nr nc rows cols bk : broadcast_of nr nc rows cols = Ret bk ->
  match bk with
  | BroadcastKind.Scalar => nr = 1 /\ nc = 1
  | BroadcastKind.Row => nr = 1 /\ nc = cols
  | BroadcastKind.Col => nr = rows /\ nc = 1
  | BroadcastKind.Full => True
  end.
Proof.
  unfold broadcast_of. destruct ((nr =? 1) && (nc =? 1)) eqn:E1.
  - unfold int_mul. destruct ((INT_MIN <=? rows * cols) && (rows * cols <=? INT_MAX)); [|done]. cbn. apply andb_true_iff in E1 as [E1%Z.eqb_eq E2%Z.eqb_eq].
    destruct (negb (rows * cols =? 1)); [by intros [= <-]|].
    destruct ((nr =? 1) && (nc =? cols) && negb (rows =? 1)) eqn:E3; [intros [= <-]; bool_facts; lia|].
    destruct ((nr =? rows) && (nc =? 1) && negb (cols =? 1)) eqn:E4; intros [= <-]; [bool_facts; lia|done].
  - cbn. destruct ((nr =? 1) && (nc =? cols) && negb (rows =? 1)) eqn:E3; [intros [= <-]; bool_facts; lia|].
    destruct ((nr =? rows) && (nc =? 1) && negb (cols =? 1)) eqn:E4; intros [= <-]; [bool_facts; lia|done].
Qed.

(** What a planned buffer is. *)
Definition spec_ok (ns : list TraceNode) (rows cols lanes : Z) (is_out : bool) (row col : bool) (s : BufferSpec) : Prop :=
  exists n, n ∈ ns /\ bs_node s = n_id n /\ bs_dtype s = n_dtype n /\ lanes <= vec_width_for (n_dtype n) /\
    dtype_supported (n_dtype n) = true /\ broadcast_of (n_rows n) (n_cols n) rows cols = Ret (bs_bcast s) /\
    (bs_bcast s = BroadcastKind.Full -> n_rows n * n_cols n = rows * cols) /\
    (if is_out then n_live n = true /\ bs_bcast s = BroadcastKind.Full else n_op n = TraceOpKind.Input) /\
    (bs_bcast s = BroadcastKind.Row -> row = true) /\ (bs_bcast s = BroadcastKind.Col -> col = true).

Lemma spec_ok_mono ns rows cols l l' o r r' c c' s : l' <= l -> (r = true -> r' = true) -> (c = true -> c' = true) ->
  spec_ok ns rows cols l o r c s -> spec_ok ns rows cols l' o r' c' s.
Proof.
  intros Hl Hr Hc (n & ? & ? & ? & ? & ? & ? & ? & ? & ? & ?). exists n. repeat split; auto; lia.
Qed.

Definition lanes_ok (l : Z) : Prop := l = 1 \/ l = 2 \/ l = 4 \/ l = 8.

Lemma vec_width_ok d : dtype_supported d = true -> vec_width_for d = 4 \/ vec_width_for d = 8.
Proof. destruct d; cbn; auto; done. Qed.

Definition plan_ok (ns : list TraceNode) (rows cols lanes : Z) (p : ElementwisePlan) : Prop :=
  p_rows p = rows /\ p_cols p = cols /\ p_numel p = rows * cols /\ lanes_ok lanes /\
  Forall (spec_ok ns rows cols lanes false (p_row_bcast p) (p_col_bcast p)) (p_inputs p) /\
  Forall (spec_ok ns rows cols lanes true (p_row_bcast p) (p_col_bcast p)) (p_outputs p).

Lemma plan_nodes_ok ns rows cols ms p lanes p' lanes' : (forall n, n ∈ ms -> n ∈ ns) ->
  plan_ok ns rows cols lanes p -> plan_nodes rows cols ms p lanes = Ret (Some (p', lanes')) ->
  plan_ok ns rows cols lanes' p'.
Proof.
  revert p lanes. induction ms as [|n ms IH]; intros p lanes Hin Hp; cbn [plan_nodes]; [by intros [= <- <-]|].
  destruct (negb (TraceOpKind.eqb (n_op n) TraceOpKind.Input) && negb (n_live n)); [apply IH; [intros; apply Hin; by right|done]|].
  destruct (negb (dtype_supported (n_dtype n))) eqn:Ed; [done|]. apply negb_false_iff in Ed.
  destruct (broadcast_of (n_rows n) (n_cols n) rows cols) as [bk| |] eqn:Eb; [|done|done].
  cbn [mbind res_bind]. unfold BroadcastKind.eqb at 1 2. destruct Hp as (Hr & Hc & Hn & Hl & Hi & Ho).
  destruct (bool_decide (bk = BroadcastKind.Full) && negb (n_rows n * n_cols n =? p_numel p)) eqn:Efull; [done|].
  destruct (n_live n && negb (bool_decide (bk = BroadcastKind.Full))) eqn:Eout; [done|].
  apply IH; [intros; apply Hin; by right|].
  set (rb := p_row_bcast p || BroadcastKind.eqb bk BroadcastKind.Row).
  set (cb := p_col_bcast p || BroadcastKind.eqb bk BroadcastKind.Col).
  set (l' := Z.min lanes (vec_width_for (n_dtype n))).
  assert (Hmono : forall o l, Forall (spec_ok ns rows cols lanes o (p_row_bcast p) (p_col_bcast p)) l ->
            Forall (spec_ok ns rows cols l' o rb cb) l).
  { intros o l Hf. eapply Forall_impl; [exact Hf|]. intros s. apply spec_ok_mono; [lia|unfold rb; by intros ->|unfold cb; by intros ->]. }
  assert (Hnew : forall o : bool, (if o then n_live n = true else n_op n = TraceOpKind.Input) ->
            spec_ok ns rows cols l' o rb cb (mkSpec (n_id n) (n_dtype n) bk)).
  { intros o Hop. exists n. split; [apply Hin; left|]. split; [done|]. split; [done|]. split; [cbn; lia|].
    split; [done|]. split; [done|]. cbn [bs_bcast]. split; [|split; [|split]].
    - intros ->. rewrite bool_decide_eq_true_2 in Efull by done. cbn in Efull. apply negb_false_iff, Z.eqb_eq in Efull. lia.
    - destruct o; [|done]. split; [done|]. rewrite Hop in Eout. cbn in Eout. by apply negb_false_iff, bool_decide_eq_true in Eout.
    - intros ->. unfold rb, BroadcastKind.eqb. rewrite bool_decide_eq_true_2 by done. apply orb_true_r.
    - intros ->. unfold cb, BroadcastKind.eqb. rewrite bool_decide_eq_true_2 by done. apply orb_true_r. }
  split; [done|]. split; [done|]. split; [done|]. split.
  { destruct (vec_width_ok _ Ed) as [E|E]; unfold l'; rewrite E; destruct Hl as [->|[->|[->| ->]]]; vm_compute; auto. }
  cbn [p_inputs p_outputs p_row_bcast p_col_bcast]. fold rb cb. split.
  - destruct (TraceOpKind.eqb (n_op n) TraceOpKind.Input) eqn:E; [|by apply Hmono].
    apply Forall_app. split; [by apply Hmono|]. constructor; [|done]. apply (Hnew false).
    by apply bool_decide_eq_true in E.
  - destruct (n_live n) eqn:E; [|by apply Hmono].
    apply Forall_app. split; [by apply Hmono|]. constructor; [|done]. by apply (Hnew true).
Qed.

(** An aligned vector of [l] elements that starts below an aligned bound ends
    below it. *)
Lemma aligned_lt l i j n : 0 < l -> i mod l = 0 -> n mod l = 0 -> i < n -> j < l -> i + j < n.
Proof.
  intros Hl Hi Hn Hin Hj. apply Z.mod_divide in Hi as [a ->]; [|lia]. apply Z.mod_divide in Hn as [b ->]; [|lia].
  assert (a < b) by nia. nia.
Qed.

Lemma mod_mod_divide i n l : 0 < l -> 0 < n -> n mod l = 0 -> i mod l = 0 -> (i mod n) mod l = 0.
Proof.
  intros Hl Hn Hd Hi. apply Z.mod_divide in Hd as [b Eb]; [|lia]. apply Z.mod_divide in Hi as [a Ea]; [|lia].
  pose proof (Z.div_mod i n ltac:(lia)) as E. apply Z.mod_divide; [lia|]. exists (a - b * (i / n)). nia.
Qed.

Lemma vec_bytes dt l : dtype_supported dt = true -> l <= vec_width_for dt -> l * elem_bytes dt <= 16.
Proof.
  destruct dt; try done; intros _;
    match goal with |- l <= ?v -> _ => let x := eval vm_compute in v in change v with x end; cbn; lia.
Qed.

Lemma lanes_pos l : lanes_ok l -> 1 <= l.
Proof. unfold lanes_ok. lia. Qed.

Lemma element_in_range n rows cols bk i : broadcast_of (n_rows n) (n_cols n) rows cols = Ret bk ->
  (bk = BroadcastKind.Full -> n_rows n * n_cols n = rows * cols) -> 0 < rows -> 0 < cols ->
  0 <= i < rows * cols -> 0 <= element bk cols i < n_rows n * n_cols n.
Proof.
  intros Hb Hfull Hr Hc Hi. apply broadcast_of_spec in Hb. destruct bk; cbn [element].
  - rewrite Hfull by done. done.
  - destruct Hb as [-> ->]. pose proof (Z.mod_pos_bound i cols Hc). lia.
  - destruct Hb as [-> ->]. lia.
  - destruct Hb as [-> ->]. pose proof (Z.div_pos i cols ltac:(lia) Hc).
    pose proof (Z.div_lt_upper_bound i cols rows Hc ltac:(lia)). lia.
Qed.

(** What [build_plan] returns. *)
Record planned (d : TraceDAG) (p : ElementwisePlan) : Prop := {
  pl_pos : 0 < p_rows p /\ 0 < p_cols p;
  pl_numel : p_numel p = p_rows p * p_cols p;
  pl_lanes : lanes_ok (p_vec p);
  pl_vec : p_numel p mod p_vec p = 0;
  pl_bcast : p_row_bcast p || p_col_bcast p = true -> p_cols p mod p_vec p = 0;
  pl_outputs : p_outputs p <> [];
  pl_ins : Forall (spec_ok (nodes_ d) (p_rows p) (p_cols p) (p_vec p) false (p_row_bcast p) (p_col_bcast p)) (p_inputs p);
  pl_outs : Forall (spec_ok (nodes_ d) (p_rows p) (p_cols p) (p_vec p) true (p_row_bcast p) (p_col_bcast p)) (p_outputs p);
  pl_nodes : exists q lanes, plan_nodes (p_rows p) (p_cols p) (nodes_ d) (mkPlan [] [] (p_rows p) (p_cols p) (p_rows p * p_cols p) 1 false false) 8 =
    Ret (Some (q, lanes)) /\ p = set_vec (p_vec p) q
}.

Lemma build_plan_planned d p : build_plan d = Ret (Some p) -> planned d p.
Proof.
  unfold build_plan. destruct (dominant_shape d) as [rows cols].
  destruct ((rows <=? 0) || (cols <=? 0)) eqn:Epos; [done|]. apply orb_false_iff in Epos as [Hr%Z.leb_gt Hc%Z.leb_gt].
  destruct (plan_nodes rows cols (nodes_ d) (mkPlan [] [] rows cols (rows * cols) 1 false false) 8)
    as [[[q lanes]|]| |] eqn:E; try done. cbn [mbind res_bind].
  destruct (p_outputs q) eqn:Eo; [done|]. intros [= <-].
  assert (H0 : plan_ok (nodes_ d) rows cols 8 (mkPlan [] [] rows cols (rows * cols) 1 false false)).
  { unfold plan_ok, lanes_ok. cbn. auto 10. }
  destruct (plan_nodes_ok (nodes_ d) rows cols (nodes_ d) _ 8 q lanes (fun _ H => H) H0 E) as (Hqr & Hqc & Hqn & Hl & Hi & Ho).
  pose proof (lanes_pos _ Hl) as Hlp. rewrite Hqn.
  set (l1 := if negb (Z.rem (rows * cols) lanes =? 0) then 1 else lanes).
  set (l2 := if (p_row_bcast q || p_col_bcast q) && negb (Z.rem cols l1 =? 0) then 1 else l1).
  assert (H1 : (l1 = 1 \/ l1 = lanes) /\ rows * cols mod l1 = 0).
  { unfold l1. rewrite Z.rem_mod_nonneg by nia. destruct (Z.eqb_spec (rows * cols mod lanes) 0); cbn [negb];
      [by split; [right|]|split; [by left|apply Z.mod_1_r]]. }
  destruct H1 as [Hl1 Hd1].
  assert (H2 : (l2 = 1 \/ l2 = l1) /\ (p_row_bcast q || p_col_bcast q = true -> cols mod l2 = 0)).
  { unfold l2. rewrite Z.rem_mod_nonneg by (destruct Hl1 as [->| ->]; lia).
    destruct (p_row_bcast q || p_col_bcast q); cbn [andb]; [|by split; [right|]].
    destruct (Z.eqb_spec (cols mod l1) 0); cbn [negb]; [by split; [right|]|split; [by left|intros _; apply Z.mod_1_r]]. }
  destruct H2 as [Hl2 Hd2].
  assert (Hl2l : l2 <= lanes) by (destruct Hl1 as [->| ->], Hl2 as [->| ->]; lia).
  assert (Hmono : forall o sl, Forall (spec_ok (nodes_ d) rows cols lanes o (p_row_bcast q) (p_col_bcast q)) sl ->
    Forall (spec_ok (nodes_ d) rows cols l2 o (p_row_bcast q) (p_col_bcast q)) sl).
  { intros o sl Hf. eapply Forall_impl; [exact Hf|]. intros s. by apply spec_ok_mono. }
  split; cbn [set_vec p_rows p_cols p_numel p_vec p_outputs p_inputs p_row_bcast p_col_bcast]; rewrite ?Hqr, ?Hqc, ?Hqn.
  - done.
  - done.
  - destruct Hl1 as [E1|E1], Hl2 as [E2|E2]; rewrite E2, ?E1; auto; unfold lanes_ok; auto.
  - destruct Hl2 as [->| ->]; [apply Z.mod_1_r|done].
  - done.
  - by rewrite Eo.
  - by apply Hmono.
  - by apply Hmono.
  - exists q, lanes. split; [done|]. unfold set_vec. by rewrite ?Hqr, ?Hqc, ?Hqn, ?Eo.
Qed.

(** The planned inputs are the graph's, in order. *)
Definition is_input (n : TraceNode) : bool := TraceOpKind.eqb (n_op n) TraceOpKind.Input.

Lemma plan_nodes_inputs rows cols ms p lanes p' lanes' : plan_nodes rows cols ms p lanes = Ret (Some (p', lanes')) ->
  map bs_node (p_inputs p') = map bs_node (p_inputs p) ++ map n_id (filter (fun n => is_input n = true) ms).
Proof.
  revert p lanes. induction ms as [|n ms IH]; intros p lanes; cbn [plan_nodes]; [intros [= <- <-]; by rewrite app_nil_r|].
  rewrite filter_cons. change (TraceOpKind.eqb (n_op n) TraceOpKind.Input) with (is_input n).
  destruct (decide (is_input n = true)) as [Ei|Ei%not_true_iff_false]; rewrite Ei; cbn [negb andb].
  - destruct (negb (dtype_supported (n_dtype n))); [done|]. destruct (broadcast_of _ _ _ _) as [bk| |]; [|done|done].
    cbn [mbind res_bind]. destruct (_ && _); [done|]. destruct (_ && _); [done|]. intros H. rewrite (IH _ _ H). cbn [p_inputs].
    rewrite map_app. cbn. by rewrite <- app_assoc.
  - destruct (negb (n_live n)) eqn:El; [apply IH|]. destruct (negb (dtype_supported (n_dtype n))); [done|].
    destruct (broadcast_of _ _ _ _) as [bk| |]; [|done|done]. cbn [mbind res_bind]. destruct (_ && _); [done|]. destruct (_ && _); [done|].
    intros H. by rewrite (IH _ _ H).
Qed.

(** A bias add over four rows of eight halves, and its plan. *)
Module PlanEx.
Definition node (id : Z) (op : TraceOpKind) (ins : list Z) (rows : Z) (live : bool) : TraceNode :=
  mkNode id op ins [] 0 0 nullptr Dev.CPU0 FP16 rows 8 false (-1) live.
Definition dag : TraceDAG :=
  mkDAG [node 0 TraceOpKind.Input [] 4 false; node 1 TraceOpKind.Input [] 1 false;
         node 2 TraceOpKind.Add [0; 1] 4 true] ∅.
Definition spec (id : Z) (b : BroadcastKind) : BufferSpec := mkSpec id FP16 b.
Definition plan : ElementwisePlan :=
  mkPlan [spec 0 BroadcastKind.Full; spec 1 BroadcastKind.Row] [spec 2 BroadcastKind.Full] 4 8 32 8 true false.
End PlanEx.

(** C19: a kernel built from an elementwise plan stays inside its buffers. The
    plan's vector width is 1, 2, 4 or 8, divides the element count, and fits
    16 bytes of every buffer's type; every buffer is an input or a live node of
    the graph; and whichever element a thread starts at and whichever lane it
    looks at, the element it touches is the one that belongs there by the
    buffer's broadcast, and lies inside the node's rows and columns. *)
Theorem build_plan_in_bounds d p : build_plan d = Ret (Some p) ->
  0 < p_rows p /\ 0 < p_cols p /\ lanes_ok (p_vec p) /\ p_numel p mod p_vec p = 0 /\ p_outputs p <> [] /\
  forall s, s ∈ p_inputs p \/ s ∈ p_outputs p ->
    exists n, n ∈ nodes_ d /\ bs_node s = n_id n /\ (n_op n = TraceOpKind.Input \/ n_live n = true) /\
      p_vec p * elem_bytes (n_dtype n) <= 16 /\
      forall i j, 0 <= i < p_numel p -> i mod p_vec p = 0 -> 0 <= j < p_vec p ->
        lane (bs_bcast s) (p_cols p) i j = element (bs_bcast s) (p_cols p) (i + j) /\
        0 <= lane (bs_bcast s) (p_cols p) i j < n_rows n * n_cols n.
Proof.
  intros Hp%build_plan_planned. destruct Hp as [[Hr Hc] Hn Hok Hdn Hd2 Hout Hi Ho _].
  set (rows := p_rows p) in *. set (cols := p_cols p) in *. set (l2 := p_vec p) in *. pose proof (lanes_pos _ Hok) as Hlp.
  split; [done|]. split; [done|]. split; [done|]. split; [done|]. split; [done|]. rewrite Hn in Hdn |- *.
  intros s Hs. assert (Hspec : exists o, spec_ok (nodes_ d) rows cols l2 o (p_row_bcast p) (p_col_bcast p) s).
  { destruct Hs as [Hs|Hs]; [exists false; by eapply Forall_forall in Hi|exists true; by eapply Forall_forall in Ho]. }
  destruct Hspec as (o & n & Hin & Hid & Hdt & Hvw & Hsup & Hb & Hfull & Hop & Hrow & Hcol).
  exists n. split; [done|]. split; [done|]. split; [destruct o; [right; apply Hop|by left]|].
  split; [apply vec_bytes; [done|lia]|].
  intros i j Hir Him Hj.
  assert (Hij : i + j < rows * cols).
  { apply (aligned_lt l2); auto; lia. }
  assert (Hcj : cols mod l2 = 0 -> i mod cols + j < cols).
  { intros Hdc. pose proof (Z.mod_pos_bound i cols ltac:(lia)).
    apply (aligned_lt l2); auto; [lia|by apply mod_mod_divide; [lia|lia|..]|lia|lia]. }
  assert (Hlane : lane (bs_bcast s) cols i j = element (bs_bcast s) cols (i + j)).
  { pose proof (Z.mod_pos_bound i cols ltac:(lia)). pose proof (Z.div_mod i cols ltac:(lia)).
    destruct (bs_bcast s); cbn; try done.
    - specialize (Hcj ltac:(apply Hd2; by rewrite Hrow)).
      apply (Z.mod_unique_pos _ _ (i / cols)); lia.
    - specialize (Hcj ltac:(apply Hd2; rewrite Hcol by done; apply orb_true_r)).
      apply (Z.div_unique_pos _ _ _ (i mod cols + j)); lia. }
  split; [done|]. rewrite Hlane. apply (element_in_range n rows); try done. lia.
Qed.

Lemma build_plan_in_bounds_witness :
  build_plan PlanEx.dag = Ret (Some PlanEx.plan) /\ p_numel PlanEx.plan mod p_vec PlanEx.plan = 0.
Proof.
  assert (H : build_plan PlanEx.dag = Ret (Some PlanEx.plan)) by reflexivity.
  split; [exact H|]. exact (proj1 (proj2 (proj2 (proj2 (build_plan_in_bounds _ _ H))))).
Defined.
