(* ===== verification/RowNormKernel.v ===== *)
(** * The row-norm kernel

    What the kernel built from a row-norm plan does
    (src/jit/ptx_emit_rownorm.cpp, src/jit/spirv_emit_rownorm.cpp), on whole
    buffers: pass one loads the inputs of the pre chain, evaluates it and
    stores the outputs it produces; pass two loads what it needs from memory as
    pass one left it, takes [x] back from the output it was stored in or
    replays the pre chain, normalises, evaluates the post chain and stores the
    rest. Rounding between registers and memory is not modelled. *)
From stdpp Require Import functions.
From S2P Require Import Prelude Dtype Device Heap Tensor TraceDag TraceContext TraceSpec TraceRefine TracePlan.

Section Kernel.
Context {V : Type} `{!Inhabited V} (eval : TraceOpKind -> Z -> Z -> sig -> list V -> V).
Abbreviation memory := (ptr -> V).

(** The values in registers, by node. *)
Definition regs : Type := gmap Z V.

Definition buffer_of (ns : list TraceNode) (id : Z) : ptr :=
  match node_at ns id with Some n => n_buffer n | None => nullptr end.

(** [emit_inputs]: the inputs [want] selects. *)
Definition emit_inputs (ns : list TraceNode) (ins : list BufferSpec) (want : list bool) (mem : memory) : regs :=
  foldl (fun m sw => if sw.2 : bool then <[bs_node sw.1 := mem (buffer_of ns (bs_node sw.1))]> m else m) ∅ (zip ins want).

Definition op_value (m : regs) (n : TraceNode) : V :=
  eval (n_op n) (n_scalar n) (n_scalar2 n) (node_sig n) (map (fun s => m !!! s) (n_inputs n)).

(** [emit_chain] over a list of nodes; a value already there is kept. *)
Definition emit_chain (ns : list TraceNode) (ids : list Z) (m : regs) : regs :=
  foldl (fun m id =>
    match node_at ns id, m !! id with
    | Some n, None => <[id := op_value m n]> m
    | _, _ => m
    end) m ids.

(** The stores of the outputs that [which] selects. *)
Definition emit_stores (ns : list TraceNode) (outs : list BufferSpec) (which : list bool) (m : regs) (mem : memory) : memory :=
  foldl (fun mem sw => if sw.2 : bool then <[buffer_of ns (bs_node sw.1) := m !!! bs_node sw.1]> mem else mem)
    mem (zip outs which).

Definition nth_id (l : list BufferSpec) (i : Z) : Z :=
  match l !! Z.to_nat i with Some s => bs_node s | None => -1 end.

(** The operands of the reduction: [x], then gamma and beta if it has them. *)
Definition norm_args (plan : RowNormPlan) (m : regs) : list V :=
  m !!! r_x plan ::
  (if r_gamma plan >=? 0 then [m !!! nth_id (p_inputs (r_ew plan)) (r_gamma plan)] else []) ++
  (if r_beta plan >=? 0 then [m !!! nth_id (p_inputs (r_ew plan)) (r_beta plan)] else []).

Definition norm_value (ns : list TraceNode) (plan : RowNormPlan) (m : regs) : V :=
  match node_at ns (r_norm plan) with
  | Some n => eval (n_op n) (n_scalar n) (n_scalar2 n) (node_sig n) (norm_args plan m)
  | None => inhabitant
  end.

Definition pass_one (ns : list TraceNode) (plan : RowNormPlan) (mem : memory) : memory :=
  let ew := r_ew plan in
  let m := emit_chain ns (r_pre_ids plan) (emit_inputs ns (p_inputs ew) (r_pre_input plan) mem) in
  emit_stores ns (p_outputs ew) (r_pre_output plan) m mem.

(** [reload_x], with the inputs of pass two. *)
Definition reload_x (ns : list TraceNode) (plan : RowNormPlan) (mem1 : memory) : regs :=
  let ew := r_ew plan in
  let m := emit_inputs ns (p_inputs ew) (r_post_input plan) mem1 in
  if r_x_output plan >=? 0 then
    <[r_x plan := mem1 (buffer_of ns (nth_id (p_outputs ew) (r_x_output plan)))]> m
  else emit_chain ns (r_pre_ids plan) m.

Definition pass_two (ns : list TraceNode) (plan : RowNormPlan) (mem1 : memory) : memory :=
  let ew := r_ew plan in
  let m := reload_x ns plan mem1 in
  let m := <[r_norm plan := norm_value ns plan m]> m in
  let m := emit_chain ns (r_post_ids plan) m in
  emit_stores ns (p_outputs ew) (map negb (r_pre_output plan)) m mem1.

Definition row_norm_kernel (ns : list TraceNode) (plan : RowNormPlan) (mem : memory) : memory :=
  pass_two ns plan (pass_one ns plan mem).
End Kernel.

Module RowEx.
Import TraceRefine.Ex.
Definition a : Tensor := tensor 4 2 2.

(** [t = x + a; x += p; n = rms_norm(x); u = n + t; store(out, u)], and the
    same without [t]. *)
Definition clobbered : list stmt :=
  [SOp TraceOpKind.Add [OBuf x; OBuf a] 0 0 Dev.CPU0 g22;
   SInplace TraceOpKind.Add (OBuf x) (Some (OBuf p)) 0 0;
   SOp TraceOpKind.RMSNorm [OBuf x] one 0 Dev.CPU0 g22;
   SOp TraceOpKind.Add [OVar 1; OVar 0] 0 0 Dev.CPU0 g22;
   SStore TraceOpKind.Copy (OVar 2) out].

Definition fused : list stmt :=
  [SInplace TraceOpKind.Add (OBuf x) (Some (OBuf p)) 0 0;
   SOp TraceOpKind.RMSNorm [OBuf x] one 0 Dev.CPU0 g22;
   SOp TraceOpKind.Add [OVar 0; OBuf a] 0 0 Dev.CPU0 g22;
   SStore TraceOpKind.Copy (OVar 1) out].

Definition clobbered_run : res (list Z) * TraceContext := Eval vm_compute in record [] clobbered begun.
Definition clobbered_dag : TraceDAG := Eval vm_compute in analyze_liveness (dag_ clobbered_run.2).
Definition clobbered_plan : option RowNormPlan :=
  Eval vm_compute in match build_row_norm_plan clobbered_dag with Ret p => p | _ => None end.
End RowEx.

(** The row-norm kernel can read an input it has overwritten. For
    [t = x + a; x += p; u = rms_norm(x) + t] the plan is built and takes [x]
    back from the buffer pass one stored it in, but the node [t], which the
    reduction does not need, is left to pass two and reads the input [x] there:
    the kernel stores [rms_norm(x + p) + ((x + p) + a)] where the trace, and the
    direct run, mean [rms_norm(x + p) + (x + a)]. *)
Theorem row_norm_reads_overwritten_input {V : Type} `{!Inhabited V}
    (eval : TraceOpKind -> Z -> Z -> sig -> list V -> V) (mem : ptr -> V) :
  let op2 k u v := eval k 0 0 Ex.g22 [u; v] in
  let x := mem (t_data Ex.x) in let p := mem (t_data Ex.p) in let a := mem (t_data RowEx.a) in
  let xp := op2 TraceOpKind.Add x p in
  let result t := eval TraceOpKind.Copy 0 0 Ex.g22
    [op2 TraceOpKind.Add (eval TraceOpKind.RMSNorm Ex.one 0 Ex.g22 [xp]) t] in
  exists env c plan,
    record [] RowEx.clobbered begun = (Ret env, c) /\
    let d := analyze_liveness (dag_ c) in
    build_row_norm_plan d = Ret (Some plan) /\
    kernel eval mem d (t_data Ex.out) = result (op2 TraceOpKind.Add x a) /\
    row_norm_kernel eval (nodes_ d) plan mem (t_data Ex.out) = result (op2 TraceOpKind.Add xp a).
Proof.
  intros op2 x p a xp result. 
  exists [2; 5; 6], RowEx.clobbered_run.2. destruct RowEx.clobbered_plan as [plan|] eqn:E; [|discriminate E].
  exists plan. injection E as <-. split; [vm_compute; reflexivity|].
  assert (Ed : analyze_liveness (dag_ RowEx.clobbered_run.2) = RowEx.clobbered_dag) by (vm_compute; reflexivity).
  cbv zeta. rewrite Ed. split; [vm_compute; reflexivity|]. split; vm_compute; reflexivity.
Qed.
