(* ===== verification/OpWrap.v ===== *)
(** * Public op wrappers: the common part

    The wrappers of src/ops.cpp, src/ops_spatial.cpp, src/ops_attention.cpp and
    src/ops_quant_audio.cpp all look alike: guards on dimensions, a dispatch
    over the tensor operands, a test of the slot of the table, the pinning of
    the outputs, and the call of the implementation. This file has the store
    they run on, one definition per such step, and the contract [obeys] with
    the lemmas that prove it of a wrapper.

    A [Tensor&] is the name of an object of the store, a [Tensor*] an optional
    one; of the object itself the store has what a wrapper reads of it. Floats
    are bit patterns and enumerations their values. *)
From S2P Require Export Prelude Dtype Device Heap Runtime.
Import Registry Dispatch.

Abbreviation ref := positive (only parsing).
Abbreviation store := (gmap positive operand).
Abbreviation op := (st store).

(** An argument of a wrapper or of an implementation. *)
Inductive arg : Type :=
  | ATensor (t : ref)
  | AOpt (t : option ref)
  | AParts (l : list (option ref))
  | AInt (n : Z)
  | AInts (l : list Z)
  | AFloat (bits : Z)
  | ABool (b : bool)
  | ADtype (d : Dtype)
  | APtr (p : ptr).

(** ** [int] arithmetic: what leaves the range is undefined *)
Declare Scope cint_scope.
Delimit Scope cint_scope with cint.

Definition cint (n : Z) : res Z := if (INT_MIN <=? n) && (n <=? INT_MAX) then Ret n else Undef.
Definition iadd (a b : res Z) : res Z := a ← a; b ← b; cint (a + b).
Definition isub (a b : res Z) : res Z := a ← a; b ← b; cint (a - b).
Definition imul (a b : res Z) : res Z := a ← a; b ← b; cint (a * b).
Definition idiv (a b : res Z) : res Z := a ← a; b ← b; if b =? 0 then Undef else cint (Z.quot a b).
Definition ival (n : Z) : res Z := Ret n.
Arguments iadd (a b)%_cint_scope.
Arguments isub (a b)%_cint_scope.
Arguments imul (a b)%_cint_scope.
Arguments idiv (a b)%_cint_scope.
Infix "+" := iadd : cint_scope.
Infix "-" := isub : cint_scope.
Infix "*" := imul : cint_scope.
Infix "/" := idiv : cint_scope.

Definition int_of (e : res Z) : op Z := st_lift e.
Arguments int_of e%_cint_scope.

(** ** The steps of a wrapper *)
Section Steps.
Context (rt : runtime).

Definition look (t : ref) : op operand := fun s =>
  match s !! t with Some o => (Ret o, s) | None => (Undef, s) end.

(** [const Tensor*] operands; null stays null. *)
Fixpoint look_all (ts : list (option ref)) : op (list (option operand)) :=
  match ts with
  | [] => mret []
  | None :: r => os ← look_all r; mret (None :: os)
  | Some t :: r => o ← look t; os ← look_all r; mret (Some o :: os)
  end.

Definition dispatch (ts : list ref) : op OpsVTable :=
  os ← look_all (map Some ts); st_lift (dispatch_v rt os).

Definition dispatch_with_opts1 (a : ref) (opts : list (option ref)) : op OpsVTable :=
  oa ← look a; os ← look_all opts; st_lift (Dispatch.dispatch_with_opts1 rt oa os).

Definition dispatch_with_opts2 (a b : ref) (opts : list (option ref)) : op OpsVTable :=
  oa ← look a; ob ← look b; os ← look_all opts; st_lift (Dispatch.dispatch_with_opts2 rt oa ob os).

(** [if (!v.name) throw_not_implemented("name", x.device);] *)
Definition slot (v : OpsVTable) (name : str) (x : ref) : op positive :=
  match v name with
  | Some f => mret f
  | None => o ← look x; st_lift (throw_not_implemented name (op_device o))
  end.

(** [adopt_output(y, x.device);] *)
Definition adopt_output (y x : ref) : op unit :=
  d ← look x;
  o ← look y;
  st_mod (fun s => <[y := Dispatch.adopt_output rt o (op_device d)]> s).

(** [if (y) adopt_output( *y, x.device);] *)
Definition adopt_opt (y : option ref) (x : ref) : op unit :=
  match y with Some y => adopt_output y x | None => mret tt end.

(** *** Guards *)
Definition when (c : bool) (m : op unit) : op unit := if c then m else mret tt.

Definition check_1d (name : str) (t : ref) (tensor : str) (N C L : Z) : op unit :=
  o ← look t; st_lift (check_spatial_1d name o tensor N C L).
Definition check_2d (name : str) (t : ref) (tensor : str) (N C H W : Z) : op unit :=
  o ← look t; st_lift (check_spatial_2d name o tensor N C H W).
Definition check_3d (name : str) (t : ref) (tensor : str) (N C T H W : Z) : op unit :=
  o ← look t; st_lift (check_spatial_3d name o tensor N C T H W).
Definition check_quant (name : str) (t : ref) (tensor : str) : op unit :=
  o ← look t; st_lift (check_quant_cols name o tensor).
Definition throw_1d (name : str) (t : ref) (tensor : str) (N C L : Z) : op unit :=
  o ← look t; st_lift (throw_spatial_1d_error name tensor N C L (op_rows o) (op_cols o)).
Definition throw_2d (name : str) (t : ref) (tensor : str) (N C H W : Z) : op unit :=
  o ← look t; st_lift (throw_spatial_2d_error name tensor N C H W (op_rows o) (op_cols o)).
End Steps.

(** ** Guards leave the store alone *)
Class ReadOnly {A} (m : op A) : Prop := read_only : forall s, (m s).2 = s.

#[export] Instance read_only_ret {A} (a : A) : ReadOnly (mret a : op A).
Proof. by intros s. Qed.
#[export] Instance read_only_lift {A} (r : res A) : ReadOnly (st_lift r : op A).
Proof. by intros s. Qed.
#[export] Instance read_only_int (e : res Z) : ReadOnly (int_of e).
Proof. by intros s. Qed.
#[export] Instance read_only_throw {A} (e : str) : ReadOnly (st_throw e : op A).
Proof. by intros s. Qed.
#[export] Instance read_only_look t : ReadOnly (look t).
Proof. intros s. unfold look. by destruct (s !! t). Qed.
#[export] Instance read_only_bind {A B} (m : op A) (f : A -> op B) :
  ReadOnly m -> (forall a, ReadOnly (f a)) -> ReadOnly (m ≫= f).
Proof.
  intros Hm Hf s. unfold mbind, st_bind. specialize (Hm s).
  destruct (m s) as [[a|e|] s']; cbn in *; subst; [apply Hf|done|done].
Qed.
#[export] Instance read_only_when c (m : op unit) : ReadOnly m -> ReadOnly (when c m).
Proof. intros H. unfold when. by destruct c; [|apply _]. Qed.
#[export] Instance read_only_if {A} (c : bool) (m n : op A) : ReadOnly m -> ReadOnly n -> ReadOnly (if c then m else n).
Proof. by destruct c. Qed.
#[export] Instance read_only_1d name t x N C L : ReadOnly (check_1d name t x N C L) := _.
#[export] Instance read_only_2d name t x N C H W : ReadOnly (check_2d name t x N C H W) := _.
#[export] Instance read_only_3d name t x N C T H W : ReadOnly (check_3d name t x N C T H W) := _.
#[export] Instance read_only_quant name t x : ReadOnly (check_quant name t x) := _.
#[export] Instance read_only_throw_1d name t x N C L : ReadOnly (throw_1d name t x N C L) := _.
#[export] Instance read_only_throw_2d name t x N C H W : ReadOnly (throw_2d name t x N C H W) := _.

(** ** The contract *)
Section Contract.
Context (rt : runtime) (backend : positive -> list arg -> op Z).

(** The tensors an implementation is handed. *)
Definition tensors_of (a : arg) : list (option ref) :=
  match a with ATensor t => [Some t] | AOpt t => [t] | AParts l => l | _ => [] end.

Definition bound (ts : list (option ref)) (s : store) : Prop :=
  forall t, Some t ∈ ts -> is_Some (s !! t).

Definition committed_on (d : Device) (ts : list (option ref)) (s : store) : Prop :=
  forall t o, Some t ∈ ts -> s !! t = Some o -> committed o = true -> op_device o = d.

(** [d] is the device of the committed operands, or with none committed the
    first operand's tag. *)
Definition resolves (ts : list (option ref)) (s : store) (d : Device) : Prop :=
  committed_on d ts s /\
  ((exists t o, Some t ∈ ts /\ s !! t = Some o /\ committed o = true) \/
   exists t o r, ts = Some t :: r /\ s !! t = Some o /\ op_device o = d).

(** [s'] is [s] with the uncommitted tensors among [outs] moved to [d]. *)
Definition pinned (d : Device) (outs : list (option ref)) (s s' : store) : Prop :=
  forall t, s' !! t =
    (fun o => if decide (Some t ∈ outs) then Dispatch.adopt_output rt o d else o) <$> s !! t.

Definition disagree (ts : list (option ref)) (s : store) : Prop :=
  exists t u o p, Some t ∈ ts /\ Some u ∈ ts /\ s !! t = Some o /\ s !! u = Some p /\
    committed o = true /\ committed p = true /\ op_device o <> op_device p.

(** A refusal has a reason, and changes nothing. *)
Definition refuses (name : str) (ts : list (option ref)) (h : ref) (w : op Z) (s : store) : Prop :=
  exists e, w s = (Throw e, s) /\
    (disagree ts s \/ kMaxOperands < zlen ts \/
     exists d, resolves ts s d /\
       (ops_for rt d = Throw e \/
        exists v, ops_for rt d = Ret v /\ v name = None)).

(** A call: the implementation is the resolved device's, no committed tensor
    it is handed lives elsewhere, and the outputs are pinned to where [h] is. *)
Definition calls (name : str) (ts : list (option ref)) (h : ref) (outs : list (option ref))
    (args : list arg) (w : op Z) (s : store) : Prop :=
  exists d v f oh s', resolves ts s d /\ ops_for rt d = Ret v /\ v name = Some f /\
    committed_on d (args ≫= tensors_of) s /\
    s !! h = Some oh /\ pinned (op_device oh) outs s s' /\ w s = backend f args s'.

(** The guards come first, and the first that fails is the outcome. *)
Fixpoint guarded (gs : list (op unit)) (w : op Z) (s : store) (P : Prop) : Prop :=
  match gs with
  | [] => P
  | g :: gs =>
      match (g s).1 with
      | Ret _ => guarded gs w s P
      | Throw e => w s = (Throw e, s)
      | Undef => w s = (Undef, s)
      end
  end.

(** What a wrapper promises: [ts] its tensor operands, [h] the one whose device
    it goes by, [outs] those it writes, [args] what it hands on. *)
Definition obeys (gs : list (op unit)) (name : str) (ts : list (option ref)) (h : ref)
    (outs : list (option ref)) (args : list arg) (w : op Z) : Prop :=
  forall s, bound ts s ->
    guarded gs w s (refuses name ts h w s \/ calls name ts h outs args w s).

(** *** The shape all wrappers have *)
Fixpoint guard_all (gs : list (op unit)) (k : op Z) : op Z :=
  match gs with [] => k | g :: gs => _ ← g; guard_all gs k end.

Fixpoint adopt_all (outs : list (option ref)) (h : ref) (k : op Z) : op Z :=
  match outs with [] => k | y :: r => _ ← adopt_opt rt y h; adopt_all r h k end.

Definition invoke (gs : list (op unit)) (D : op OpsVTable) (name : str) (h : ref)
    (outs : list (option ref)) (args : list arg) : op Z :=
  guard_all gs (v ← D; f ← slot v name h; adopt_all outs h (backend f args)).

(** Dispatch over the tensors [ts]. *)
Definition dispatches (D : op OpsVTable) (ts : list (option ref)) : Prop :=
  forall s, bound ts s ->
    (exists d v, resolves ts s d /\ ops_for rt d = Ret v /\ D s = (Ret v, s)) \/
    exists e, D s = (Throw e, s) /\
      (disagree ts s \/ kMaxOperands < zlen ts \/ exists d, resolves ts s d /\ ops_for rt d = Throw e).

Lemma guarded_all gs (w k : op Z) s (P : Prop) : Forall ReadOnly gs ->
  w s = guard_all gs k s -> (w s = k s -> P) -> guarded gs w s P.
Proof.
  intros Hg. revert w. induction Hg as [|g gs Hg _ IH]; intros w Hw HP; cbn in *; [auto|].
  specialize (Hg s). unfold mbind, st_bind in Hw.
  destruct (g s) as [[a|e|] s'] eqn:E; cbn in *; subst s'; auto.
Qed.

Lemma look_some s t o : s !! t = Some o -> look t s = (Ret o, s).
Proof. intros H. unfold look. by rewrite H. Qed.

Lemma bound_cons t ts s : bound (Some t :: ts) s -> exists o, s !! t = Some o.
Proof. intros H. destruct (H t) as [o Ho]; [by left|by exists o]. Qed.

Lemma bound_app ts us s : bound (ts ++ us) s <-> bound ts s /\ bound us s.
Proof.
  split; [intros H; split; intros t Ht; apply H, elem_of_app; auto|].
  intros [H1 H2] t [Ht|Ht]%elem_of_app; auto.
Qed.

(** What [look_all] reads. *)
Definition seen (s : store) (t : option ref) : option operand := t ≫= (s !!.).

Lemma look_all_seen s ts : bound ts s -> look_all ts s = (Ret (map (seen s) ts), s).
Proof.
  induction ts as [|[t|] ts IH]; intros Hb; cbn [look_all map].
  - done.
  - destruct (bound_cons _ _ _ Hb) as [o Ho].
    rewrite (st_bind_ret _ _ _ o s) by by apply look_some.
    rewrite (st_bind_ret _ _ _ _ s) by (apply IH; intros u Hu; apply Hb; by right).
    cbn. by rewrite Ho.
  - rewrite (st_bind_ret _ _ _ _ s) by (apply IH; intros u Hu; apply Hb; by right). done.
Qed.

Lemma seen_lookup s ts i o : map (seen s) ts !! i = Some (Some o) ->
  exists t, Some t ∈ ts /\ s !! t = Some o.
Proof.
  rewrite list_lookup_fmap. destruct (ts !! i) as [[t|]|] eqn:E; cbn; try done.
  intros [= H]. exists t. split; [|done]. apply list_elem_of_lookup. by exists i.
Qed.

Lemma agree_seen d ts s : agree d (map (seen s) ts) <-> committed_on d ts s.
Proof.
  split.
  - intros H t o Ht Ho Hc. apply list_elem_of_lookup in Ht as [i Hi].
    apply (H i); [|done]. by rewrite list_lookup_fmap, Hi; cbn; rewrite Ho.
  - intros H i o Hi Hc. apply seen_lookup in Hi as (t & Ht & Ho). by apply (H t).
Qed.

(** Both dispatch functions, on operands the first of which is there. *)
Lemma resolve_seen t ts s (r : res OpsVTable) : bound (Some t :: ts) s ->
  r = dispatch_v rt (map (seen s) (Some t :: ts)) ->
  (exists d v, resolves (Some t :: ts) s d /\ ops_for rt d = Ret v /\ r = Ret v) \/
  exists e, r = Throw e /\
    (disagree (Some t :: ts) s \/ exists d, resolves (Some t :: ts) s d /\ ops_for rt d = Throw e).
Proof.
  intros Hb ->. destruct (bound_cons _ _ _ Hb) as [o Ho].
  set (os := map (seen s) (Some t :: ts)).
  assert (Eo : os = Some o :: map (seen s) ts) by (unfold os; cbn; by rewrite Ho).
  unfold dispatch_v. set (dev := match first_committed os with Some d => d | None => _ end).
  pose proof (check_agree_spec dev 0 os) as Hc.
  assert (Hr : agree dev os -> resolves (Some t :: ts) s dev).
  { intros Ha. split; [by apply agree_seen|]. unfold dev. destruct (first_committed os) as [d|] eqn:F.
    - left. apply first_committed_in in F as (i & p & Hi & Hp & _).
      apply seen_lookup in Hi as (u & Hu & Hup). by exists u, p.
    - right. exists t, o, ts. by rewrite Eo. }
  destruct (check_agree dev 0 os) as [u|e|]; [|right|done]; cbn [mbind res_bind].
  - destruct (ops_for rt dev) as [v|e|] eqn:E.
    + left. exists dev, v. auto.
    + right. exists e. split; [done|]. right. exists dev. auto.
    + unfold ops_for, slot_for in E. by destruct (rt_slots rt _).
  - exists e. split; [done|]. left. destruct Hc as (i & p & (Hi & Hp & Hd & _) & _).
    apply seen_lookup in Hi as (u & Hu & Hup). unfold dev in Hd.
    destruct (first_committed os) as [d|] eqn:F.
    + apply first_committed_in in F as (j & q & Hj & Hq & <-).
      apply seen_lookup in Hj as (u' & Hu' & Huq). exists u, u', p, q. auto 10.
    + destruct (list_elem_of_lookup_1 _ _ Hu) as [j Hj].
      rewrite (first_committed_none os F j p) in Hp; [done|].
      unfold os. rewrite list_lookup_fmap, Hj. cbn. by rewrite Hup.
Qed.

Lemma dispatches_all t ts : dispatches (dispatch rt (t :: ts)) (Some t :: map Some ts).
Proof.
  intros s Hb. unfold dispatch. rewrite (st_bind_ret _ _ _ _ s) by by apply look_all_seen.
  unfold st_lift. set (r := dispatch_v rt _).
  destruct (resolve_seen t (map Some ts) s r Hb eq_refl) as [(d & v & H1 & H2 & ->)|(e & -> & H)].
  - left. by exists d, v.
  - right. exists e. split; [done|]. destruct H; auto.
Qed.

Lemma resolve_over_v o os : resolve_over rt (Some o :: os) = dispatch_v rt (Some o :: os).
Proof. done. Qed.

Lemma dispatches_opts1 a opts : dispatches (dispatch_with_opts1 rt a opts) (Some a :: opts).
Proof.
  intros s Hb. destruct (bound_cons _ _ _ Hb) as [o Ho]. unfold dispatch_with_opts1.
  rewrite (st_bind_ret _ _ _ o s) by by apply look_some.
  rewrite (st_bind_ret _ _ _ (map (seen s) opts) s) by (apply look_all_seen; intros t Ht; apply Hb; by right).
  unfold Dispatch.dispatch_with_opts1, st_lift. unfold zlen. rewrite length_map.
  destruct (1 + Z.of_nat (length opts) >? kMaxOperands) eqn:E.
  { right. eexists. split; [done|]. right; left. unfold zlen. cbn [length]. lia. }
  rewrite resolve_over_v. set (r := dispatch_v rt _).
  destruct (resolve_seen a opts s r Hb ltac:(unfold r; cbn; by rewrite Ho)) as [(d & v & H1 & H2 & ->)|(e & -> & H)].
  - left. by exists d, v.
  - right. exists e. split; [done|]. destruct H; auto.
Qed.

Lemma dispatches_opts2 a b opts : dispatches (dispatch_with_opts2 rt a b opts) (Some a :: Some b :: opts).
Proof.
  intros s Hb. destruct (bound_cons _ _ _ Hb) as [o Ho].
  destruct (Hb b) as [p Hp]; [right; by left|]. unfold dispatch_with_opts2.
  rewrite (st_bind_ret _ _ _ o s) by by apply look_some.
  rewrite (st_bind_ret _ _ _ p s) by by apply look_some.
  rewrite (st_bind_ret _ _ _ (map (seen s) opts) s) by (apply look_all_seen; intros t Ht; apply Hb; right; by right).
  unfold Dispatch.dispatch_with_opts2, st_lift. unfold zlen. rewrite length_map.
  destruct (2 + Z.of_nat (length opts) >? kMaxOperands) eqn:E.
  { right. eexists. split; [done|]. right; left. unfold zlen. cbn [length]. lia. }
  rewrite resolve_over_v. set (r := dispatch_v rt _).
  destruct (resolve_seen a (Some b :: opts) s r Hb ltac:(unfold r; cbn; by rewrite Ho, Hp)) as [(d & v & H1 & H2 & ->)|(e & -> & H)].
  - left. by exists d, v.
  - right. exists e. split; [done|]. destruct H; auto.
Qed.

(** *** Pinning *)
Lemma adopt_output_twice o d :
  Dispatch.adopt_output rt (Dispatch.adopt_output rt o d) (resolve_device_alias rt d) = Dispatch.adopt_output rt o d.
Proof.
  unfold Dispatch.adopt_output. destruct (op_committed o) eqn:C; cbn; rewrite ?C; cbn; [done|].
  by rewrite resolve_idemp.
Qed.

Lemma pinned_step d y outs s s1 s2 oy : s !! y = Some oy ->
  s1 = <[y := Dispatch.adopt_output rt oy d]> s ->
  forall d', (d' = d \/ d' = resolve_device_alias rt d) -> pinned d' outs s1 s2 -> pinned d (Some y :: outs) s s2.
Proof.
  intros Hy -> d' Hd' Hp t. rewrite (Hp t).
  assert (Hres : forall o, Dispatch.adopt_output rt o d' = Dispatch.adopt_output rt o d).
  { intros o. destruct Hd' as [->| ->]; [done|]. unfold Dispatch.adopt_output. by rewrite resolve_idemp. }
  destruct (decide (t = y)) as [->|Hne].
  - rewrite lookup_insert_eq, Hy. cbn. rewrite (decide_True (P := Some y ∈ Some y :: outs)) by by left.
    case_decide; [|done]. by rewrite Hres, adopt_output_idemp.
  - rewrite lookup_insert_ne by done. destruct (s !! t) as [o|]; [|done]. cbn. f_equal.
    destruct (decide (Some t ∈ outs)).
    + rewrite decide_True by by right. apply Hres.
    + rewrite decide_False; [done|]. intros [[= ->]|?]%elem_of_cons; done.
Qed.

Lemma adopt_all_pins outs h k s oh : s !! h = Some oh -> bound outs s ->
  exists s', pinned (op_device oh) outs s s' /\ adopt_all outs h k s = k s'.
Proof.
  revert s oh. induction outs as [|[y|] outs IH]; intros s oh Hh Hb; cbn [adopt_all adopt_opt].
  - exists s. split; [|done]. intros t. destruct (s !! t); [|done]. cbn. by rewrite decide_False by apply not_elem_of_nil.
  - destruct (bound_cons _ _ _ Hb) as [oy Hy]. unfold adopt_output.
    set (s1 := <[y := Dispatch.adopt_output rt oy (op_device oh)]> s).
    assert (Hb1 : bound outs s1).
    { intros t Ht. unfold s1. destruct (decide (t = y)) as [->|?]; [rewrite lookup_insert_eq; by eexists|].
      rewrite lookup_insert_ne by done. apply Hb. by right. }
    assert (exists oh1, s1 !! h = Some oh1 /\
      (op_device oh1 = op_device oh \/ op_device oh1 = resolve_device_alias rt (op_device oh))) as (oh1 & Hh1 & Hd1).
    { unfold s1. destruct (decide (h = y)) as [->|?].
      - rewrite lookup_insert_eq. eexists. split; [done|]. rewrite Hh in Hy. injection Hy as <-.
        unfold Dispatch.adopt_output. destruct (op_committed oh); cbn; auto.
      - rewrite lookup_insert_ne by done. by exists oh; auto. }
    destruct (IH s1 oh1 Hh1 Hb1) as (s' & Hp & He). exists s'. split.
    + eapply pinned_step; [exact Hy|reflexivity|exact Hd1|exact Hp].
    + rewrite <- He. unfold mbind, st_bind at 1 2 3. unfold look. by rewrite Hh, Hy.
  - destruct (IH s oh Hh) as (s' & Hp & He); [intros t Ht; apply Hb; by right|].
    exists s'. split; [|by rewrite <- He].
    intros t. rewrite (Hp t). destruct (s !! t); [|done].
    unfold fmap, option_fmap, option_map. f_equal.
    repeat case_decide; try done; exfalso; set_solver.
Qed.

(** *** The contract of a wrapper of that shape *)
Theorem invoke_obeys gs D name ts h outs args : Forall ReadOnly gs -> dispatches D ts ->
  Some h ∈ ts -> Forall (fun t => t ∈ ts) outs -> Forall (fun t => t = None \/ t ∈ ts) (args ≫= tensors_of) ->
  obeys gs name ts h outs args (invoke gs D name h outs args).
Proof.
  intros Hg HD Hh Ho Ha s Hb. apply (guarded_all _ _ (v ← D; f ← slot v name h; adopt_all outs h (backend f args)));
    [done|done|]. intros E.
  destruct (HD s Hb) as [(d & v & Hr & Hv & HDs)|(e & HDs & Hwhy)].
  2:{ left. exists e. rewrite E. split; [by apply st_bind_throw|]. naive_solver. }
  destruct (Hb h Hh) as [oh Hoh]. rewrite (st_bind_ret _ _ _ _ _ HDs) in E. unfold slot in E.
  destruct (v name) as [f|] eqn:Hf.
  - right. rewrite (st_bind_ret _ _ _ f s) in E by done.
    destruct (adopt_all_pins outs h (backend f args) s oh Hoh) as (s' & Hp & He).
    { intros t Ht. apply Hb. by eapply Forall_forall in Ho. }
    exists d, v, f, oh, s'. rewrite E, He. repeat split; try done; try apply Hr.
    intros t o Ht. apply Hr. eapply Forall_forall in Ha as [?|?]; eauto; done.
  - left. rewrite (st_bind_throw _ _ _ (lit "brotensor: " ++ name ++ lit ": not implemented on " ++ device_name (op_device oh)) s) in E.
    + eexists. split; [exact E|]. right; right. exists d. split; [done|]. right. by exists v.
    + rewrite (st_bind_ret _ _ _ oh s) by by apply look_some. done.
Qed.
End Contract.

(** Proves the contract of one wrapper: recovers the dispatch call from the
    operands and applies [invoke_obeys]. *)
Ltac in_list := repeat first [apply list_elem_of_here | apply list_elem_of_further].
Ltac in_ops := first [left; reflexivity | right; in_list | in_list].
Ltac all_in := repeat first [apply Forall_nil_2 | apply Forall_cons_2; [in_ops|]].
Ltac untag l :=
  lazymatch l with
  | Some ?x :: ?r => let r' := untag r in constr:(x :: r')
  | [] => constr:(@nil positive)
  end.
Ltac wrapper_with D HD :=
  lazymatch goal with |- obeys ?rt ?b ?gs ?name ?ts ?h ?outs ?args ?w =>
    notypeclasses refine (invoke_obeys rt b gs D name ts h outs args _ HD _ _ _)
  end;
  [repeat apply Forall_cons_2; try apply Forall_nil_2; apply _|in_list|all_in|cbn [mbind list_bind tensors_of app]; all_in].
Ltac wrapper :=
  lazymatch goal with |- obeys ?rt _ _ _ ?ts _ _ _ _ =>
    first
      [ let us := untag ts in
        lazymatch us with ?t :: ?r => wrapper_with (dispatch rt us) (dispatches_all rt t r) end
      | lazymatch ts with Some ?a :: ?o => wrapper_with (dispatch_with_opts1 rt a o) (dispatches_opts1 rt a o) end
      | lazymatch ts with Some ?a :: Some ?c :: ?o =>
          wrapper_with (dispatch_with_opts2 rt a c o) (dispatches_opts2 rt a c o) end ]
  end.
Ltac split_and := match goal with |- _ /\ _ => split end.
