(* ===== verification/Ops.v ===== *)
(** * Public ops: dense layers, elementwise, norms, losses, embedding, copies

    The wrappers of src/ops.cpp over the steps of OpWrap.v, each as the source
    has it, and the contract of all of them that have the common shape. *)
From S2P Require Import Prelude Dtype Device Heap Runtime OpWrap.

Section Wrappers.
Context (rt : runtime) (backend : positive -> list arg -> op Z).

(** *** The wrappers that differ from the rest *)

(** [throw_not_implemented] with a device at hand. *)
Definition slot_at (vt : OpsVTable) (name : str) (d : Device) : op positive :=
  match vt name with
  | Some f => mret f
  | None => st_lift (Dispatch.throw_not_implemented name d)
  end.

(** The hooks a trace in progress installs ([jit_clamp_inplace_hook] and
    [jit_cast_out_hook]): [None] until the first trace. *)
Definition clamp (jit_clamp_inplace_hook : option (ref -> Z -> Z -> op bool)) (y : ref) (lo hi : Z) : op Z :=
  taken ← match jit_clamp_inplace_hook with Some hook => hook y lo hi | None => mret false end;
  if taken : bool then mret 0
  else
    vt ← dispatch rt [y];
    impl ← slot vt (lit "clamp") y;
    _ ← adopt_output rt y y;
    backend impl [ATensor y; AFloat lo; AFloat hi].

Definition cast (jit_cast_out_hook : option (ref -> ref -> Dtype -> op bool)) (src dst : ref) (out_dtype : Dtype)
    : op Z :=
  taken ← match jit_cast_out_hook with Some hook => hook src dst out_dtype | None => mret false end;
  if taken : bool then mret 0
  else
    vt ← dispatch rt [src; dst];
    impl ← slot vt (lit "cast") src;
    _ ← adopt_output rt dst src;
    backend impl [ATensor src; ATensor dst; ADtype out_dtype].

Definition mse_scalar (pred target : Z) (dPred : ptr) : op Z :=
  vt ← st_lift (Registry.ops_for rt Dev.CPU0);
  impl ← slot_at vt (lit "mse_scalar") Dev.CPU0;
  backend impl [AFloat pred; AFloat target; APtr dPred].

Definition softmax_xent_segment (logits target probs dLogits : ptr) (n : Z) (mask : ptr) : op Z :=
  vt ← st_lift (Registry.ops_for rt Dev.CPU0);
  impl ← slot_at vt (lit "softmax_xent_segment") Dev.CPU0;
  backend impl [APtr logits; APtr target; APtr probs; APtr dLogits; AInt n; APtr mask].

(** Many parts into one tensor: [vtable_from_parts], the check of the output,
    and only then the slot. *)
Definition from_parts (name : str) (parts : list (option ref)) (out : ref) (args : list arg) : op Z :=
  os ← look_all parts;
  vt ← st_lift (Dispatch.vtable_from_parts rt os name);
  match parts with
  | Some p0 :: _ =>
      o ← look out;
      p ← look p0;
      _ ← when (Dispatch.op_committed o && negb (Dev.eqb (Dispatch.op_device p) (Dispatch.op_device o)))
            (st_throw (lit "brotensor: " ++ name ++ lit ": out on different device"));
      _ ← adopt_output rt out p0;
      impl ← slot vt name p0;
      backend impl args
  | _ => st_undef
  end.

Definition concat_rows (parts : list (option ref)) (out : ref) : op Z :=
  from_parts (lit "concat_rows") parts out [AParts parts; ATensor out].
Definition concat_batched_rows (parts : list (option ref)) (out : ref) : op Z :=
  from_parts (lit "concat_batched_rows") parts out [AParts parts; ATensor out].
Definition concat_nchw_channels (parts : list (option ref)) (N H W : Z) (C_per_part : list Z) (out : ref) : op Z :=
  from_parts (lit "concat_nchw_channels") parts out
    [AParts parts; AInt N; AInt H; AInt W; AInts C_per_part; ATensor out].

(** One tensor into many parts. *)
Fixpoint parts_on (name : str) (d : Device) (parts : list (option ref)) : op unit :=
  match parts with
  | [] => mret tt
  | None :: r => parts_on name d r
  | Some p :: r =>
      o ← look p;
      if Dispatch.op_committed o && negb (Dev.eqb (Dispatch.op_device o) d)
      then st_throw (lit "brotensor: " ++ name ++ lit ": parts on different device")
      else parts_on name d r
  end.

(** [for (Tensor* _p : parts) if (_p) adopt_output( *_p, d);] *)
Fixpoint adopt_parts (d : Device) (parts : list (option ref)) : op unit :=
  match parts with
  | [] => mret tt
  | None :: r => adopt_parts d r
  | Some p :: r =>
      o ← look p;
      _ ← st_mod (fun s => <[p := Dispatch.adopt_output rt o d]> s);
      adopt_parts d r
  end.

Definition into_parts (name : str) (in_ : ref) (parts : list (option ref)) (args : list arg) : op Z :=
  i ← look in_;
  let d := Dispatch.op_device i in
  _ ← parts_on name d parts;
  vt ← st_lift (Registry.ops_for rt d);
  impl ← slot_at vt name d;
  _ ← adopt_parts d parts;
  backend impl args.

Definition split_rows (in_ : ref) (parts : list (option ref)) : op Z :=
  into_parts (lit "split_rows") in_ parts [ATensor in_; AParts parts].
Definition concat_nchw_channels_backward (dY : ref) (N H W : Z) (C_per_part : list Z) (parts : list (option ref))
    : op Z :=
  into_parts (lit "concat_nchw_channels_backward") dY parts
    [ATensor dY; AInt N; AInt H; AInt W; AInts C_per_part; AParts parts].

(** *** The rest *)

Definition linear_forward (W b x y : ref) : op Z :=
  vt ← dispatch rt [W; b; x; y];
  impl ← slot vt (lit "linear_forward") W;
  _ ← adopt_output rt y W;
  backend impl [ATensor W; ATensor b; ATensor x; ATensor y].

Definition linear_backward (W x dY dX dW dB : ref) : op Z :=
  vt ← dispatch rt [W; x; dY; dX; dW; dB];
  impl ← slot vt (lit "linear_backward") W;
  _ ← adopt_output rt dX W;
  _ ← adopt_output rt dW W;
  _ ← adopt_output rt dB W;
  backend impl [ATensor W; ATensor x; ATensor dY; ATensor dX; ATensor dW; ATensor dB].

Definition relu_forward (x y : ref) : op Z :=
  vt ← dispatch rt [x; y];
  impl ← slot vt (lit "relu_forward") x;
  _ ← adopt_output rt y x;
  backend impl [ATensor x; ATensor y].

Definition relu_backward (x dY dX : ref) : op Z :=
  vt ← dispatch rt [x; dY; dX];
  impl ← slot vt (lit "relu_backward") x;
  _ ← adopt_output rt dX x;
  backend impl [ATensor x; ATensor dY; ATensor dX].

Definition tanh_forward (x y : ref) : op Z :=
  vt ← dispatch rt [x; y];
  impl ← slot vt (lit "tanh_forward") x;
  _ ← adopt_output rt y x;
  backend impl [ATensor x; ATensor y].

Definition tanh_backward (y dY dX : ref) : op Z :=
  vt ← dispatch rt [y; dY; dX];
  impl ← slot vt (lit "tanh_backward") y;
  _ ← adopt_output rt dX y;
  backend impl [ATensor y; ATensor dY; ATensor dX].

Definition sigmoid_forward (x y : ref) : op Z :=
  vt ← dispatch rt [x; y];
  impl ← slot vt (lit "sigmoid_forward") x;
  _ ← adopt_output rt y x;
  backend impl [ATensor x; ATensor y].

Definition sigmoid_backward (y dY dX : ref) : op Z :=
  vt ← dispatch rt [y; dY; dX];
  impl ← slot vt (lit "sigmoid_backward") y;
  _ ← adopt_output rt dX y;
  backend impl [ATensor y; ATensor dY; ATensor dX].

Definition add_inplace (y x : ref) : op Z :=
  vt ← dispatch rt [y; x];
  impl ← slot vt (lit "add_inplace") y;
  _ ← adopt_output rt y y;
  backend impl [ATensor y; ATensor x].

Definition axpby_inplace (y x : ref) (a b : Z) : op Z :=
  vt ← dispatch rt [y; x];
  impl ← slot vt (lit "axpby_inplace") y;
  _ ← adopt_output rt y y;
  backend impl [ATensor y; ATensor x; AFloat a; AFloat b].

Definition add_scalar_inplace (y : ref) (s : Z) : op Z :=
  vt ← dispatch rt [y];
  impl ← slot vt (lit "add_scalar_inplace") y;
  _ ← adopt_output rt y y;
  backend impl [ATensor y; AFloat s].

Definition add_channel_bias_inplace (y bias : ref) (C L : Z) : op Z :=
  vt ← dispatch rt [y; bias];
  impl ← slot vt (lit "add_channel_bias_inplace") y;
  _ ← adopt_output rt y y;
  backend impl [ATensor y; ATensor bias; AInt C; AInt L].

Definition add_row_bias_inplace (Y bias : ref) : op Z :=
  vt ← dispatch rt [Y; bias];
  impl ← slot vt (lit "add_row_bias_inplace") Y;
  _ ← adopt_output rt Y Y;
  backend impl [ATensor Y; ATensor bias].

Definition scale_inplace (y : ref) (s : Z) : op Z :=
  vt ← dispatch rt [y];
  impl ← slot vt (lit "scale_inplace") y;
  _ ← adopt_output rt y y;
  backend impl [ATensor y; AFloat s].

Definition mul_inplace (y x : ref) : op Z :=
  vt ← dispatch rt [y; x];
  impl ← slot vt (lit "mul_inplace") y;
  _ ← adopt_output rt y y;
  backend impl [ATensor y; ATensor x].

Definition div_inplace (y x : ref) : op Z :=
  vt ← dispatch rt [y; x];
  impl ← slot vt (lit "div_inplace") y;
  _ ← adopt_output rt y y;
  backend impl [ATensor y; ATensor x].

Definition modulate (X scale shift Y : ref) : op Z :=
  vt ← dispatch rt [X; scale; shift; Y];
  impl ← slot vt (lit "modulate") X;
  _ ← adopt_output rt Y X;
  backend impl [ATensor X; ATensor scale; ATensor shift; ATensor Y].

Definition broadcast_mul (X vv Y : ref) : op Z :=
  vt ← dispatch rt [X; vv; Y];
  impl ← slot vt (lit "broadcast_mul") X;
  _ ← adopt_output rt Y X;
  backend impl [ATensor X; ATensor vv; ATensor Y].

Definition build_slot_mask (x : ref) (offset K stride : Z) (mask : ref) : op Z :=
  vt ← dispatch rt [x; mask];
  impl ← slot vt (lit "build_slot_mask") x;
  _ ← adopt_output rt mask x;
  backend impl [ATensor x; AInt offset; AInt K; AInt stride; ATensor mask].

Definition softmax_forward (logits probs : ref) (mask : ptr) : op Z :=
  vt ← dispatch rt [logits; probs];
  impl ← slot vt (lit "softmax_forward") logits;
  _ ← adopt_output rt probs logits;
  backend impl [ATensor logits; ATensor probs; APtr mask].

Definition softmax_rows_forward (X Y : ref) (rows cols : Z) : op Z :=
  vt ← dispatch rt [X; Y];
  impl ← slot vt (lit "softmax_rows_forward") X;
  _ ← adopt_output rt Y X;
  backend impl [ATensor X; ATensor Y; AInt rows; AInt cols].

Definition softmax_backward (probs dProbs dLogits : ref) : op Z :=
  vt ← dispatch rt [probs; dProbs; dLogits];
  impl ← slot vt (lit "softmax_backward") probs;
  _ ← adopt_output rt dLogits probs;
  backend impl [ATensor probs; ATensor dProbs; ATensor dLogits].

Definition layernorm_forward (x gamma beta y xhat : ref) (mean_out rstd_out : ptr) (eps : Z) : op Z :=
  vt ← dispatch rt [x; gamma; beta; y; xhat];
  impl ← slot vt (lit "layernorm_forward") x;
  _ ← adopt_output rt y x;
  _ ← adopt_output rt xhat x;
  backend impl [ATensor x; ATensor gamma; ATensor beta; ATensor y; ATensor xhat; APtr mean_out; APtr
    rstd_out; AFloat eps].

Definition layernorm_backward (dY xhat gamma : ref) (rstd : Z) (dX dGamma dBeta : ref) : op Z :=
  vt ← dispatch rt [dY; xhat; gamma; dX; dGamma; dBeta];
  impl ← slot vt (lit "layernorm_backward") dY;
  _ ← adopt_output rt dX dY;
  _ ← adopt_output rt dGamma dY;
  _ ← adopt_output rt dBeta dY;
  backend impl [ATensor dY; ATensor xhat; ATensor gamma; AFloat rstd; ATensor dX; ATensor dGamma; ATensor
    dBeta].

Definition attention_forward (X Wq Wk Wv Wo : ref) (d_mask : ptr) (Q K V Attn Y_pre_Wo O : ref) : op Z :=
  vt ← dispatch_with_opts2 rt X Wq [Some Wk; Some Wv; Some Wo; Some Q; Some K; Some V; Some Attn; Some
    Y_pre_Wo; Some O];
  impl ← slot vt (lit "attention_forward") X;
  _ ← adopt_output rt Q X;
  _ ← adopt_output rt K X;
  _ ← adopt_output rt V X;
  _ ← adopt_output rt Attn X;
  _ ← adopt_output rt Y_pre_Wo X;
  _ ← adopt_output rt O X;
  backend impl [ATensor X; ATensor Wq; ATensor Wk; ATensor Wv; ATensor Wo; APtr d_mask; ATensor Q; ATensor
    K; ATensor V; ATensor Attn; ATensor Y_pre_Wo; ATensor O].

Definition attention_backward (dO X Q K V Attn Y_pre_Wo Wq Wk Wv Wo : ref) (d_mask : ptr) (dX dWq dWk dWv
  dWo : ref) : op Z :=
  vt ← dispatch_with_opts2 rt dO X [Some Q; Some K; Some V; Some Attn; Some Y_pre_Wo; Some Wq; Some Wk;
    Some Wv; Some Wo; Some dX; Some dWq; Some dWk; Some dWv; Some dWo];
  impl ← slot vt (lit "attention_backward") dO;
  _ ← adopt_output rt dX dO;
  _ ← adopt_output rt dWq dO;
  _ ← adopt_output rt dWk dO;
  _ ← adopt_output rt dWv dO;
  _ ← adopt_output rt dWo dO;
  backend impl [ATensor dO; ATensor X; ATensor Q; ATensor K; ATensor V; ATensor Attn; ATensor Y_pre_Wo;
    ATensor Wq; ATensor Wk; ATensor Wv; ATensor Wo; APtr d_mask; ATensor dX; ATensor dWq; ATensor dWk;
    ATensor dWv; ATensor dWo].

Definition mha_forward (X Wq Wk Wv Wo : ref) (bq bk bv bo : option ref) (d_mask : ptr) (num_heads : Z) (Qh
  Kh Vh Attnh Yconcat O : ref) : op Z :=
  vt ← dispatch_with_opts2 rt X Wq [Some Wk; Some Wv; Some Wo; bq; bk; bv; bo; Some Qh; Some Kh; Some Vh;
    Some Attnh; Some Yconcat; Some O];
  impl ← slot vt (lit "mha_forward") X;
  _ ← adopt_output rt Qh X;
  _ ← adopt_output rt Kh X;
  _ ← adopt_output rt Vh X;
  _ ← adopt_output rt Attnh X;
  _ ← adopt_output rt Yconcat X;
  _ ← adopt_output rt O X;
  backend impl [ATensor X; ATensor Wq; ATensor Wk; ATensor Wv; ATensor Wo; AOpt bq; AOpt bk; AOpt bv; AOpt
    bo; APtr d_mask; AInt num_heads; ATensor Qh; ATensor Kh; ATensor Vh; ATensor Attnh; ATensor Yconcat;
    ATensor O].

Definition mha_backward (dO X Qh Kh Vh Attnh Yconcat Wq Wk Wv Wo : ref) (d_mask : ptr) (num_heads : Z) (dX
  dWq dWk dWv dWo : ref) (dbq dbk dbv dbo : option ref) : op Z :=
  vt ← dispatch_with_opts2 rt dO X [Some Qh; Some Kh; Some Vh; Some Attnh; Some Yconcat; Some Wq; Some Wk;
    Some Wv; Some Wo; Some dX; Some dWq; Some dWk; Some dWv; Some dWo; dbq; dbk; dbv; dbo];
  impl ← slot vt (lit "mha_backward") dO;
  _ ← adopt_output rt dX dO;
  _ ← adopt_output rt dWq dO;
  _ ← adopt_output rt dWk dO;
  _ ← adopt_output rt dWv dO;
  _ ← adopt_output rt dWo dO;
  _ ← adopt_opt rt dbq dO;
  _ ← adopt_opt rt dbk dO;
  _ ← adopt_opt rt dbv dO;
  _ ← adopt_opt rt dbo dO;
  backend impl [ATensor dO; ATensor X; ATensor Qh; ATensor Kh; ATensor Vh; ATensor Attnh; ATensor Yconcat;
    ATensor Wq; ATensor Wk; ATensor Wv; ATensor Wo; APtr d_mask; AInt num_heads; ATensor dX; ATensor dWq;
    ATensor dWk; ATensor dWv; ATensor dWo; AOpt dbq; AOpt dbk; AOpt dbv; AOpt dbo].

Definition masked_mean_pool_forward (X : ref) (d_mask : ptr) (y : ref) : op Z :=
  vt ← dispatch rt [X; y];
  impl ← slot vt (lit "masked_mean_pool_forward") X;
  _ ← adopt_output rt y X;
  backend impl [ATensor X; APtr d_mask; ATensor y].

Definition masked_mean_pool_backward (dY : ref) (d_mask : ptr) (K : Z) (dX : ref) : op Z :=
  vt ← dispatch rt [dY; dX];
  impl ← slot vt (lit "masked_mean_pool_backward") dY;
  _ ← adopt_output rt dX dY;
  backend impl [ATensor dY; APtr d_mask; AInt K; ATensor dX].

Definition mse_vec_forward (pred target : ref) : op Z :=
  vt ← dispatch rt [pred; target];
  impl ← slot vt (lit "mse_vec_forward") pred;
  backend impl [ATensor pred; ATensor target].

Definition mse_vec_backward (pred target dPred : ref) : op Z :=
  vt ← dispatch rt [pred; target; dPred];
  impl ← slot vt (lit "mse_vec_backward") pred;
  _ ← adopt_output rt dPred pred;
  backend impl [ATensor pred; ATensor target; ATensor dPred].

Definition softmax_xent (logits target probs dLogits : ref) (mask : ptr) : op Z :=
  vt ← dispatch rt [logits; target; probs; dLogits];
  impl ← slot vt (lit "softmax_xent") logits;
  _ ← adopt_output rt probs logits;
  _ ← adopt_output rt dLogits logits;
  backend impl [ATensor logits; ATensor target; ATensor probs; ATensor dLogits; APtr mask].

Definition softmax_xent_fused (logits target : ref) (d_mask : ptr) (probs dLogits : ref) : op Z :=
  vt ← dispatch rt [logits; target; probs; dLogits];
  impl ← slot vt (lit "softmax_xent_fused") logits;
  _ ← adopt_output rt probs logits;
  _ ← adopt_output rt dLogits logits;
  backend impl [ATensor logits; ATensor target; APtr d_mask; ATensor probs; ATensor dLogits].

Definition embedding_lookup_forward (table : ref) (d_idx : ptr) (B : Z) (out : ref) : op Z :=
  vt ← dispatch rt [table; out];
  impl ← slot vt (lit "embedding_lookup_forward") table;
  _ ← adopt_output rt out table;
  backend impl [ATensor table; APtr d_idx; AInt B; ATensor out].

Definition embedding_lookup_backward (dOut : ref) (d_idx : ptr) (B : Z) (dTable : ref) : op Z :=
  vt ← dispatch rt [dOut; dTable];
  impl ← slot vt (lit "embedding_lookup_backward") dOut;
  _ ← adopt_output rt dTable dOut;
  backend impl [ATensor dOut; APtr d_idx; AInt B; ATensor dTable].

Definition copy_d2d (src : ref) (src_off : Z) (dst : ref) (dst_off n : Z) : op Z :=
  vt ← dispatch rt [src; dst];
  impl ← slot vt (lit "copy_d2d") src;
  _ ← adopt_output rt dst src;
  backend impl [ATensor src; AInt src_off; ATensor dst; AInt dst_off; AInt n].

Definition copy_d2d_strided (src : ref) (src_off src_pitch : Z) (dst : ref) (dst_off dst_pitch width height
  : Z) : op Z :=
  _ ← when ((width >? src_pitch) || (width >? dst_pitch))
    (st_throw (lit "brotensor: copy_d2d_strided: width exceeds pitch"));
  vt ← dispatch rt [src; dst];
  impl ← slot vt (lit "copy_d2d_strided") src;
  _ ← adopt_output rt dst src;
  backend impl [ATensor src; AInt src_off; AInt src_pitch; ATensor dst; AInt dst_off; AInt dst_pitch; AInt
    width; AInt height].

Definition layernorm_forward_inference_batched (X_RD gamma beta Y_RD : ref) (eps : Z) : op Z :=
  vt ← dispatch rt [X_RD; gamma; beta; Y_RD];
  impl ← slot vt (lit "layernorm_forward_inference_batched") X_RD;
  _ ← adopt_output rt Y_RD X_RD;
  backend impl [ATensor X_RD; ATensor gamma; AOpt (Some beta); ATensor Y_RD; AFloat eps].

Definition layernorm_forward_inference_batched2 (X_RD gamma Y_RD : ref) (eps : Z) : op Z :=
  vt ← dispatch rt [X_RD; gamma; Y_RD];
  impl ← slot vt (lit "layernorm_forward_inference_batched") X_RD;
  _ ← adopt_output rt Y_RD X_RD;
  backend impl [ATensor X_RD; ATensor gamma; AOpt None; ATensor Y_RD; AFloat eps].

Definition layernorm_forward_batched_with_caches (X_RD gamma beta Y_RD Xhat_RD Mean_R Rstd_R : ref) (eps :
  Z) : op Z :=
  vt ← dispatch rt [X_RD; gamma; beta; Y_RD; Xhat_RD; Mean_R; Rstd_R];
  impl ← slot vt (lit "layernorm_forward_batched_with_caches") X_RD;
  _ ← adopt_output rt Y_RD X_RD;
  _ ← adopt_output rt Xhat_RD X_RD;
  _ ← adopt_output rt Mean_R X_RD;
  _ ← adopt_output rt Rstd_R X_RD;
  backend impl [ATensor X_RD; ATensor gamma; ATensor beta; ATensor Y_RD; ATensor Xhat_RD; ATensor Mean_R;
    ATensor Rstd_R; AFloat eps].

Definition layernorm_backward_batched_with_caches (dY_RD Xhat_RD gamma Rstd_R dX_RD dGamma dBeta : ref) :
  op Z :=
  vt ← dispatch rt [dY_RD; Xhat_RD; gamma; Rstd_R; dX_RD; dGamma; dBeta];
  impl ← slot vt (lit "layernorm_backward_batched_with_caches") dY_RD;
  _ ← adopt_output rt dX_RD dY_RD;
  _ ← adopt_output rt dGamma dY_RD;
  _ ← adopt_output rt dBeta dY_RD;
  backend impl [ATensor dY_RD; ATensor Xhat_RD; ATensor gamma; ATensor Rstd_R; ATensor dX_RD; ATensor
    dGamma; ATensor dBeta].

Definition sgd_step (param grad velocity : ref) (lr momentum : Z) : op Z :=
  vt ← dispatch rt [param; grad; velocity];
  impl ← slot vt (lit "sgd_step") param;
  _ ← adopt_output rt param param;
  _ ← adopt_output rt grad param;
  _ ← adopt_output rt velocity param;
  backend impl [ATensor param; ATensor grad; ATensor velocity; AFloat lr; AFloat momentum].

Definition adam_step (param grad m v_buf : ref) (lr beta1 beta2 eps step : Z) : op Z :=
  vt ← dispatch rt [param; grad; m; v_buf];
  impl ← slot vt (lit "adam_step") param;
  _ ← adopt_output rt param param;
  _ ← adopt_output rt m param;
  _ ← adopt_output rt v_buf param;
  backend impl [ATensor param; ATensor grad; ATensor m; ATensor v_buf; AFloat lr; AFloat beta1; AFloat
    beta2; AFloat eps; AInt step].

Definition xavier_init (W : ref) (rng_state : ptr) : op Z :=
  vt ← dispatch rt [W];
  impl ← slot vt (lit "xavier_init") W;
  _ ← adopt_output rt W W;
  backend impl [ATensor W; APtr rng_state].

Definition linear_forward_batched (W bias X_BD Y_BD : ref) : op Z :=
  vt ← dispatch rt [W; bias; X_BD; Y_BD];
  impl ← slot vt (lit "linear_forward_batched") W;
  _ ← adopt_output rt Y_BD W;
  backend impl [ATensor W; ATensor bias; ATensor X_BD; ATensor Y_BD].

Definition relu_forward_batched (X_BD Y_BD : ref) : op Z :=
  vt ← dispatch rt [X_BD; Y_BD];
  impl ← slot vt (lit "relu_forward_batched") X_BD;
  _ ← adopt_output rt Y_BD X_BD;
  backend impl [ATensor X_BD; ATensor Y_BD].

Definition tanh_forward_batched (X_BD Y_BD : ref) : op Z :=
  vt ← dispatch rt [X_BD; Y_BD];
  impl ← slot vt (lit "tanh_forward_batched") X_BD;
  _ ← adopt_output rt Y_BD X_BD;
  backend impl [ATensor X_BD; ATensor Y_BD].

Definition add_inplace_batched (Y_BD X_BD : ref) : op Z :=
  vt ← dispatch rt [Y_BD; X_BD];
  impl ← slot vt (lit "add_inplace_batched") Y_BD;
  _ ← adopt_output rt Y_BD Y_BD;
  backend impl [ATensor Y_BD; ATensor X_BD].

Definition linear_backward_batched (W X_BD dY_BD dX_BD dW dB : ref) : op Z :=
  vt ← dispatch rt [W; X_BD; dY_BD; dX_BD; dW; dB];
  impl ← slot vt (lit "linear_backward_batched") W;
  _ ← adopt_output rt dX_BD W;
  _ ← adopt_output rt dW W;
  _ ← adopt_output rt dB W;
  backend impl [ATensor W; ATensor X_BD; ATensor dY_BD; ATensor dX_BD; ATensor dW; ATensor dB].

Definition relu_backward_batched (X_BD dY_BD dX_BD : ref) : op Z :=
  vt ← dispatch rt [X_BD; dY_BD; dX_BD];
  impl ← slot vt (lit "relu_backward_batched") X_BD;
  _ ← adopt_output rt dX_BD X_BD;
  backend impl [ATensor X_BD; ATensor dY_BD; ATensor dX_BD].

Definition tanh_backward_batched (Y_BD dY_BD dX_BD : ref) : op Z :=
  vt ← dispatch rt [Y_BD; dY_BD; dX_BD];
  impl ← slot vt (lit "tanh_backward_batched") Y_BD;
  _ ← adopt_output rt dX_BD Y_BD;
  backend impl [ATensor Y_BD; ATensor dY_BD; ATensor dX_BD].

Definition mse_vec_per_sample (pred target dPred loss_per_sample : ref) : op Z :=
  vt ← dispatch rt [pred; target; dPred; loss_per_sample];
  impl ← slot vt (lit "mse_vec_per_sample") pred;
  _ ← adopt_output rt dPred pred;
  _ ← adopt_output rt loss_per_sample pred;
  backend impl [ATensor pred; ATensor target; ATensor dPred; ATensor loss_per_sample].

Definition softmax_xent_fused_batched (logits_BL target_BL : ref) (d_mask_BL d_head_offsets : ptr) (n_heads
  : Z) (probs_BL dLogits_BL loss_per_sample : ref) : op Z :=
  vt ← dispatch rt [logits_BL; target_BL; probs_BL; dLogits_BL; loss_per_sample];
  impl ← slot vt (lit "softmax_xent_fused_batched") logits_BL;
  _ ← adopt_output rt probs_BL logits_BL;
  _ ← adopt_output rt dLogits_BL logits_BL;
  _ ← adopt_output rt loss_per_sample logits_BL;
  backend impl [ATensor logits_BL; ATensor target_BL; APtr d_mask_BL; APtr d_head_offsets; AInt n_heads;
    ATensor probs_BL; ATensor dLogits_BL; ATensor loss_per_sample].

Definition bce_with_logits_fused_batched (logits_BL target_BL : ref) (d_mask_BL : ptr) (pos_weight : Z)
  (probs_BL dLogits_BL loss_per_sample : ref) : op Z :=
  vt ← dispatch rt [logits_BL; target_BL; probs_BL; dLogits_BL; loss_per_sample];
  impl ← slot vt (lit "bce_with_logits_fused_batched") logits_BL;
  _ ← adopt_output rt probs_BL logits_BL;
  _ ← adopt_output rt dLogits_BL logits_BL;
  _ ← adopt_output rt loss_per_sample logits_BL;
  backend impl [ATensor logits_BL; ATensor target_BL; APtr d_mask_BL; AFloat pos_weight; ATensor probs_BL;
    ATensor dLogits_BL; ATensor loss_per_sample].
End Wrappers.

(** What the dense, elementwise, normalisation, loss, embedding and copy wrappers promise. *)
Definition ops_contract rt backend : Prop :=
  (forall W b x y,
    obeys rt backend [] (lit "linear_forward") [Some W; Some b; Some x; Some y] W [Some y]
      [ATensor W; ATensor b; ATensor x; ATensor y]
      (linear_forward rt backend W b x y)) /\
  (forall W x dY dX dW dB,
    obeys rt backend [] (lit "linear_backward") [Some W; Some x; Some dY; Some dX; Some dW; Some dB] W
      [Some dX; Some dW; Some dB]
      [ATensor W; ATensor x; ATensor dY; ATensor dX; ATensor dW; ATensor dB]
      (linear_backward rt backend W x dY dX dW dB)) /\
  (forall x y,
    obeys rt backend [] (lit "relu_forward") [Some x; Some y] x [Some y]
      [ATensor x; ATensor y]
      (relu_forward rt backend x y)) /\
  (forall x dY dX,
    obeys rt backend [] (lit "relu_backward") [Some x; Some dY; Some dX] x [Some dX]
      [ATensor x; ATensor dY; ATensor dX]
      (relu_backward rt backend x dY dX)) /\
  (forall x y,
    obeys rt backend [] (lit "tanh_forward") [Some x; Some y] x [Some y]
      [ATensor x; ATensor y]
      (tanh_forward rt backend x y)) /\
  (forall y dY dX,
    obeys rt backend [] (lit "tanh_backward") [Some y; Some dY; Some dX] y [Some dX]
      [ATensor y; ATensor dY; ATensor dX]
      (tanh_backward rt backend y dY dX)) /\
  (forall x y,
    obeys rt backend [] (lit "sigmoid_forward") [Some x; Some y] x [Some y]
      [ATensor x; ATensor y]
      (sigmoid_forward rt backend x y)) /\
  (forall y dY dX,
    obeys rt backend [] (lit "sigmoid_backward") [Some y; Some dY; Some dX] y [Some dX]
      [ATensor y; ATensor dY; ATensor dX]
      (sigmoid_backward rt backend y dY dX)) /\
  (forall y x,
    obeys rt backend [] (lit "add_inplace") [Some y; Some x] y [Some y]
      [ATensor y; ATensor x]
      (add_inplace rt backend y x)) /\
  (forall y x a b,
    obeys rt backend [] (lit "axpby_inplace") [Some y; Some x] y [Some y]
      [ATensor y; ATensor x; AFloat a; AFloat b]
      (axpby_inplace rt backend y x a b)) /\
  (forall y s,
    obeys rt backend [] (lit "add_scalar_inplace") [Some y] y [Some y]
      [ATensor y; AFloat s]
      (add_scalar_inplace rt backend y s)) /\
  (forall y bias C L,
    obeys rt backend [] (lit "add_channel_bias_inplace") [Some y; Some bias] y [Some y]
      [ATensor y; ATensor bias; AInt C; AInt L]
      (add_channel_bias_inplace rt backend y bias C L)) /\
  (forall Y bias,
    obeys rt backend [] (lit "add_row_bias_inplace") [Some Y; Some bias] Y [Some Y]
      [ATensor Y; ATensor bias]
      (add_row_bias_inplace rt backend Y bias)) /\
  (forall y s,
    obeys rt backend [] (lit "scale_inplace") [Some y] y [Some y]
      [ATensor y; AFloat s]
      (scale_inplace rt backend y s)) /\
  (forall y x,
    obeys rt backend [] (lit "mul_inplace") [Some y; Some x] y [Some y]
      [ATensor y; ATensor x]
      (mul_inplace rt backend y x)) /\
  (forall y x,
    obeys rt backend [] (lit "div_inplace") [Some y; Some x] y [Some y]
      [ATensor y; ATensor x]
      (div_inplace rt backend y x)) /\
  (forall X scale shift Y,
    obeys rt backend [] (lit "modulate") [Some X; Some scale; Some shift; Some Y] X [Some Y]
      [ATensor X; ATensor scale; ATensor shift; ATensor Y]
      (modulate rt backend X scale shift Y)) /\
  (forall X vv Y,
    obeys rt backend [] (lit "broadcast_mul") [Some X; Some vv; Some Y] X [Some Y]
      [ATensor X; ATensor vv; ATensor Y]
      (broadcast_mul rt backend X vv Y)) /\
  (forall x offset K stride mask,
    obeys rt backend [] (lit "build_slot_mask") [Some x; Some mask] x [Some mask]
      [ATensor x; AInt offset; AInt K; AInt stride; ATensor mask]
      (build_slot_mask rt backend x offset K stride mask)) /\
  (forall logits probs mask,
    obeys rt backend [] (lit "softmax_forward") [Some logits; Some probs] logits [Some probs]
      [ATensor logits; ATensor probs; APtr mask]
      (softmax_forward rt backend logits probs mask)) /\
  (forall X Y rows cols,
    obeys rt backend [] (lit "softmax_rows_forward") [Some X; Some Y] X [Some Y]
      [ATensor X; ATensor Y; AInt rows; AInt cols]
      (softmax_rows_forward rt backend X Y rows cols)) /\
  (forall probs dProbs dLogits,
    obeys rt backend [] (lit "softmax_backward") [Some probs; Some dProbs; Some dLogits] probs [Some
      dLogits]
      [ATensor probs; ATensor dProbs; ATensor dLogits]
      (softmax_backward rt backend probs dProbs dLogits)) /\
  (forall x gamma beta y xhat mean_out rstd_out eps,
    obeys rt backend [] (lit "layernorm_forward") [Some x; Some gamma; Some beta; Some y; Some xhat] x
      [Some y; Some xhat]
      [ATensor x; ATensor gamma; ATensor beta; ATensor y; ATensor xhat; APtr mean_out; APtr rstd_out;
        AFloat eps]
      (layernorm_forward rt backend x gamma beta y xhat mean_out rstd_out eps)) /\
  (forall dY xhat gamma rstd dX dGamma dBeta,
    obeys rt backend [] (lit "layernorm_backward") [Some dY; Some xhat; Some gamma; Some dX; Some dGamma;
      Some dBeta] dY [Some dX; Some dGamma; Some dBeta]
      [ATensor dY; ATensor xhat; ATensor gamma; AFloat rstd; ATensor dX; ATensor dGamma; ATensor dBeta]
      (layernorm_backward rt backend dY xhat gamma rstd dX dGamma dBeta)) /\
  (forall X Wq Wk Wv Wo d_mask Q K V Attn Y_pre_Wo O,
    obeys rt backend [] (lit "attention_forward") [Some X; Some Wq; Some Wk; Some Wv; Some Wo; Some Q; Some
      K; Some V; Some Attn; Some Y_pre_Wo; Some O] X [Some Q; Some K; Some V; Some Attn; Some Y_pre_Wo;
      Some O]
      [ATensor X; ATensor Wq; ATensor Wk; ATensor Wv; ATensor Wo; APtr d_mask; ATensor Q; ATensor K;
        ATensor V; ATensor Attn; ATensor Y_pre_Wo; ATensor O]
      (attention_forward rt backend X Wq Wk Wv Wo d_mask Q K V Attn Y_pre_Wo O)) /\
  (forall dO X Q K V Attn Y_pre_Wo Wq Wk Wv Wo d_mask dX dWq dWk dWv dWo,
    obeys rt backend [] (lit "attention_backward") [Some dO; Some X; Some Q; Some K; Some V; Some Attn;
      Some Y_pre_Wo; Some Wq; Some Wk; Some Wv; Some Wo; Some dX; Some dWq; Some dWk; Some dWv; Some dWo]
      dO [Some dX; Some dWq; Some dWk; Some dWv; Some dWo]
      [ATensor dO; ATensor X; ATensor Q; ATensor K; ATensor V; ATensor Attn; ATensor Y_pre_Wo; ATensor Wq;
        ATensor Wk; ATensor Wv; ATensor Wo; APtr d_mask; ATensor dX; ATensor dWq; ATensor dWk; ATensor dWv;
        ATensor dWo]
      (attention_backward rt backend dO X Q K V Attn Y_pre_Wo Wq Wk Wv Wo d_mask dX dWq dWk dWv dWo)) /\
  (forall X Wq Wk Wv Wo bq bk bv bo d_mask num_heads Qh Kh Vh Attnh Yconcat O,
    obeys rt backend [] (lit "mha_forward") [Some X; Some Wq; Some Wk; Some Wv; Some Wo; bq; bk; bv; bo;
      Some Qh; Some Kh; Some Vh; Some Attnh; Some Yconcat; Some O] X [Some Qh; Some Kh; Some Vh; Some
      Attnh; Some Yconcat; Some O]
      [ATensor X; ATensor Wq; ATensor Wk; ATensor Wv; ATensor Wo; AOpt bq; AOpt bk; AOpt bv; AOpt bo; APtr
        d_mask; AInt num_heads; ATensor Qh; ATensor Kh; ATensor Vh; ATensor Attnh; ATensor Yconcat; ATensor
        O]
      (mha_forward rt backend X Wq Wk Wv Wo bq bk bv bo d_mask num_heads Qh Kh Vh Attnh Yconcat O)) /\
  (forall dO X Qh Kh Vh Attnh Yconcat Wq Wk Wv Wo d_mask num_heads dX dWq dWk dWv dWo dbq dbk dbv dbo,
    obeys rt backend [] (lit "mha_backward") [Some dO; Some X; Some Qh; Some Kh; Some Vh; Some Attnh; Some
      Yconcat; Some Wq; Some Wk; Some Wv; Some Wo; Some dX; Some dWq; Some dWk; Some dWv; Some dWo; dbq;
      dbk; dbv; dbo] dO [Some dX; Some dWq; Some dWk; Some dWv; Some dWo; dbq; dbk; dbv; dbo]
      [ATensor dO; ATensor X; ATensor Qh; ATensor Kh; ATensor Vh; ATensor Attnh; ATensor Yconcat; ATensor
        Wq; ATensor Wk; ATensor Wv; ATensor Wo; APtr d_mask; AInt num_heads; ATensor dX; ATensor dWq;
        ATensor dWk; ATensor dWv; ATensor dWo; AOpt dbq; AOpt dbk; AOpt dbv; AOpt dbo]
      (mha_backward rt backend dO X Qh Kh Vh Attnh Yconcat Wq Wk Wv Wo d_mask num_heads dX dWq dWk dWv dWo
        dbq dbk dbv dbo)) /\
  (forall X d_mask y,
    obeys rt backend [] (lit "masked_mean_pool_forward") [Some X; Some y] X [Some y]
      [ATensor X; APtr d_mask; ATensor y]
      (masked_mean_pool_forward rt backend X d_mask y)) /\
  (forall dY d_mask K dX,
    obeys rt backend [] (lit "masked_mean_pool_backward") [Some dY; Some dX] dY [Some dX]
      [ATensor dY; APtr d_mask; AInt K; ATensor dX]
      (masked_mean_pool_backward rt backend dY d_mask K dX)) /\
  (forall pred target,
    obeys rt backend [] (lit "mse_vec_forward") [Some pred; Some target] pred []
      [ATensor pred; ATensor target]
      (mse_vec_forward rt backend pred target)) /\
  (forall pred target dPred,
    obeys rt backend [] (lit "mse_vec_backward") [Some pred; Some target; Some dPred] pred [Some dPred]
      [ATensor pred; ATensor target; ATensor dPred]
      (mse_vec_backward rt backend pred target dPred)) /\
  (forall logits target probs dLogits mask,
    obeys rt backend [] (lit "softmax_xent") [Some logits; Some target; Some probs; Some dLogits] logits
      [Some probs; Some dLogits]
      [ATensor logits; ATensor target; ATensor probs; ATensor dLogits; APtr mask]
      (softmax_xent rt backend logits target probs dLogits mask)) /\
  (forall logits target d_mask probs dLogits,
    obeys rt backend [] (lit "softmax_xent_fused") [Some logits; Some target; Some probs; Some dLogits]
      logits [Some probs; Some dLogits]
      [ATensor logits; ATensor target; APtr d_mask; ATensor probs; ATensor dLogits]
      (softmax_xent_fused rt backend logits target d_mask probs dLogits)) /\
  (forall table d_idx B out,
    obeys rt backend [] (lit "embedding_lookup_forward") [Some table; Some out] table [Some out]
      [ATensor table; APtr d_idx; AInt B; ATensor out]
      (embedding_lookup_forward rt backend table d_idx B out)) /\
  (forall dOut d_idx B dTable,
    obeys rt backend [] (lit "embedding_lookup_backward") [Some dOut; Some dTable] dOut [Some dTable]
      [ATensor dOut; APtr d_idx; AInt B; ATensor dTable]
      (embedding_lookup_backward rt backend dOut d_idx B dTable)) /\
  (forall src src_off dst dst_off n,
    obeys rt backend [] (lit "copy_d2d") [Some src; Some dst] src [Some dst]
      [ATensor src; AInt src_off; ATensor dst; AInt dst_off; AInt n]
      (copy_d2d rt backend src src_off dst dst_off n)) /\
  (forall src src_off src_pitch dst dst_off dst_pitch width height,
    obeys rt backend [when ((width >? src_pitch) || (width >? dst_pitch))
    (st_throw (lit "brotensor: copy_d2d_strided: width exceeds pitch"))] (lit "copy_d2d_strided") [Some
      src; Some dst] src [Some dst]
      [ATensor src; AInt src_off; AInt src_pitch; ATensor dst; AInt dst_off; AInt dst_pitch; AInt width;
        AInt height]
      (copy_d2d_strided rt backend src src_off src_pitch dst dst_off dst_pitch width height)) /\
  (forall X_RD gamma beta Y_RD eps,
    obeys rt backend [] (lit "layernorm_forward_inference_batched") [Some X_RD; Some gamma; Some beta; Some
      Y_RD] X_RD [Some Y_RD]
      [ATensor X_RD; ATensor gamma; AOpt (Some beta); ATensor Y_RD; AFloat eps]
      (layernorm_forward_inference_batched rt backend X_RD gamma beta Y_RD eps)) /\
  (forall X_RD gamma Y_RD eps,
    obeys rt backend [] (lit "layernorm_forward_inference_batched") [Some X_RD; Some gamma; Some Y_RD] X_RD
      [Some Y_RD]
      [ATensor X_RD; ATensor gamma; AOpt None; ATensor Y_RD; AFloat eps]
      (layernorm_forward_inference_batched2 rt backend X_RD gamma Y_RD eps)) /\
  (forall X_RD gamma beta Y_RD Xhat_RD Mean_R Rstd_R eps,
    obeys rt backend [] (lit "layernorm_forward_batched_with_caches") [Some X_RD; Some gamma; Some beta;
      Some Y_RD; Some Xhat_RD; Some Mean_R; Some Rstd_R] X_RD [Some Y_RD; Some Xhat_RD; Some Mean_R; Some
      Rstd_R]
      [ATensor X_RD; ATensor gamma; ATensor beta; ATensor Y_RD; ATensor Xhat_RD; ATensor Mean_R; ATensor
        Rstd_R; AFloat eps]
      (layernorm_forward_batched_with_caches rt backend X_RD gamma beta Y_RD Xhat_RD Mean_R Rstd_R eps)) /\
  (forall dY_RD Xhat_RD gamma Rstd_R dX_RD dGamma dBeta,
    obeys rt backend [] (lit "layernorm_backward_batched_with_caches") [Some dY_RD; Some Xhat_RD; Some
      gamma; Some Rstd_R; Some dX_RD; Some dGamma; Some dBeta] dY_RD [Some dX_RD; Some dGamma; Some dBeta]
      [ATensor dY_RD; ATensor Xhat_RD; ATensor gamma; ATensor Rstd_R; ATensor dX_RD; ATensor dGamma;
        ATensor dBeta]
      (layernorm_backward_batched_with_caches rt backend dY_RD Xhat_RD gamma Rstd_R dX_RD dGamma dBeta)) /\
  (forall param grad velocity lr momentum,
    obeys rt backend [] (lit "sgd_step") [Some param; Some grad; Some velocity] param [Some param; Some
      grad; Some velocity]
      [ATensor param; ATensor grad; ATensor velocity; AFloat lr; AFloat momentum]
      (sgd_step rt backend param grad velocity lr momentum)) /\
  (forall param grad m v_buf lr beta1 beta2 eps step,
    obeys rt backend [] (lit "adam_step") [Some param; Some grad; Some m; Some v_buf] param [Some param;
      Some m; Some v_buf]
      [ATensor param; ATensor grad; ATensor m; ATensor v_buf; AFloat lr; AFloat beta1; AFloat beta2; AFloat
        eps; AInt step]
      (adam_step rt backend param grad m v_buf lr beta1 beta2 eps step)) /\
  (forall W rng_state,
    obeys rt backend [] (lit "xavier_init") [Some W] W [Some W]
      [ATensor W; APtr rng_state]
      (xavier_init rt backend W rng_state)) /\
  (forall W bias X_BD Y_BD,
    obeys rt backend [] (lit "linear_forward_batched") [Some W; Some bias; Some X_BD; Some Y_BD] W [Some
      Y_BD]
      [ATensor W; ATensor bias; ATensor X_BD; ATensor Y_BD]
      (linear_forward_batched rt backend W bias X_BD Y_BD)) /\
  (forall X_BD Y_BD,
    obeys rt backend [] (lit "relu_forward_batched") [Some X_BD; Some Y_BD] X_BD [Some Y_BD]
      [ATensor X_BD; ATensor Y_BD]
      (relu_forward_batched rt backend X_BD Y_BD)) /\
  (forall X_BD Y_BD,
    obeys rt backend [] (lit "tanh_forward_batched") [Some X_BD; Some Y_BD] X_BD [Some Y_BD]
      [ATensor X_BD; ATensor Y_BD]
      (tanh_forward_batched rt backend X_BD Y_BD)) /\
  (forall Y_BD X_BD,
    obeys rt backend [] (lit "add_inplace_batched") [Some Y_BD; Some X_BD] Y_BD [Some Y_BD]
      [ATensor Y_BD; ATensor X_BD]
      (add_inplace_batched rt backend Y_BD X_BD)) /\
  (forall W X_BD dY_BD dX_BD dW dB,
    obeys rt backend [] (lit "linear_backward_batched") [Some W; Some X_BD; Some dY_BD; Some dX_BD; Some
      dW; Some dB] W [Some dX_BD; Some dW; Some dB]
      [ATensor W; ATensor X_BD; ATensor dY_BD; ATensor dX_BD; ATensor dW; ATensor dB]
      (linear_backward_batched rt backend W X_BD dY_BD dX_BD dW dB)) /\
  (forall X_BD dY_BD dX_BD,
    obeys rt backend [] (lit "relu_backward_batched") [Some X_BD; Some dY_BD; Some dX_BD] X_BD [Some dX_BD]
      [ATensor X_BD; ATensor dY_BD; ATensor dX_BD]
      (relu_backward_batched rt backend X_BD dY_BD dX_BD)) /\
  (forall Y_BD dY_BD dX_BD,
    obeys rt backend [] (lit "tanh_backward_batched") [Some Y_BD; Some dY_BD; Some dX_BD] Y_BD [Some dX_BD]
      [ATensor Y_BD; ATensor dY_BD; ATensor dX_BD]
      (tanh_backward_batched rt backend Y_BD dY_BD dX_BD)) /\
  (forall pred target dPred loss_per_sample,
    obeys rt backend [] (lit "mse_vec_per_sample") [Some pred; Some target; Some dPred; Some
      loss_per_sample] pred [Some dPred; Some loss_per_sample]
      [ATensor pred; ATensor target; ATensor dPred; ATensor loss_per_sample]
      (mse_vec_per_sample rt backend pred target dPred loss_per_sample)) /\
  (forall logits_BL target_BL d_mask_BL d_head_offsets n_heads probs_BL dLogits_BL loss_per_sample,
    obeys rt backend [] (lit "softmax_xent_fused_batched") [Some logits_BL; Some target_BL; Some probs_BL;
      Some dLogits_BL; Some loss_per_sample] logits_BL [Some probs_BL; Some dLogits_BL; Some
      loss_per_sample]
      [ATensor logits_BL; ATensor target_BL; APtr d_mask_BL; APtr d_head_offsets; AInt n_heads; ATensor
        probs_BL; ATensor dLogits_BL; ATensor loss_per_sample]
      (softmax_xent_fused_batched rt backend logits_BL target_BL d_mask_BL d_head_offsets n_heads probs_BL
        dLogits_BL loss_per_sample)) /\
  (forall logits_BL target_BL d_mask_BL pos_weight probs_BL dLogits_BL loss_per_sample,
    obeys rt backend [] (lit "bce_with_logits_fused_batched") [Some logits_BL; Some target_BL; Some
      probs_BL; Some dLogits_BL; Some loss_per_sample] logits_BL [Some probs_BL; Some dLogits_BL; Some
      loss_per_sample]
      [ATensor logits_BL; ATensor target_BL; APtr d_mask_BL; AFloat pos_weight; ATensor probs_BL; ATensor
        dLogits_BL; ATensor loss_per_sample]
      (bce_with_logits_fused_batched rt backend logits_BL target_BL d_mask_BL pos_weight probs_BL
        dLogits_BL loss_per_sample)).

Lemma ops_obey rt backend : ops_contract rt backend.
Proof. unfold ops_contract. repeat split_and; intros; wrapper. Qed.
