(* ===== verification/OpsSpatial.v ===== *)
(** * Public ops: convolution, pooling, resampling, padding, StyleGAN

    The wrappers of src/ops_spatial.cpp and their contract. *)
From S2P Require Import Prelude Dtype Device Heap Runtime OpWrap.

Section Wrappers.
Context (rt : runtime) (backend : positive -> list arg -> op Z).

Definition conv2d_forward (X Wt : ref) (bias : option ref) (N C_in H W C_out kH kW stride_h stride_w pad_h
  pad_w dil_h dil_w groups : Z) (Y : ref) : op Z :=
  _ ← check_2d (lit "conv2d_forward") X (lit "X") N C_in H W;
  vt ← dispatch_with_opts2 rt X Wt [bias; Some Y];
  impl ← slot vt (lit "conv2d_forward") X;
  _ ← adopt_output rt Y X;
  backend impl [ATensor X; ATensor Wt; AOpt bias; AInt N; AInt C_in; AInt H; AInt W; AInt C_out; AInt kH;
    AInt kW; AInt stride_h; AInt stride_w; AInt pad_h; AInt pad_w; AInt dil_h; AInt dil_w; AInt groups;
    ATensor Y].

Definition conv2d_backward_input (Wt dY : ref) (N C_in H W C_out kH kW stride_h stride_w pad_h pad_w dil_h
  dil_w groups : Z) (dX : ref) : op Z :=
  _ ← when ((N <=? 0) || (C_in <=? 0) || (H <=? 0) || (W <=? 0) || (C_out <=? 0))
    (throw_2d (lit "conv2d_backward_input") dY (lit "dY") N C_in H W);
  _ ← (when ((kH >? 0) && (kW >? 0) && (stride_h >? 0) && (stride_w >? 0) && (dil_h >? 0) && (dil_w >? 0))
    (H_out ← int_of ((ival H + ival 2 * ival pad_h - ival dil_h * (ival kH - ival 1) - ival 1) / ival
      stride_h + ival 1);
    W_out ← int_of ((ival W + ival 2 * ival pad_w - ival dil_w * (ival kW - ival 1) - ival 1) / ival
      stride_w + ival 1);
    when ((H_out >? 0) && (W_out >? 0))
    (check_2d (lit "conv2d_backward_input") dY (lit "dY") N C_out H_out W_out)));
  vt ← dispatch rt [Wt; dY; dX];
  impl ← slot vt (lit "conv2d_backward_input") Wt;
  _ ← adopt_output rt dX Wt;
  backend impl [ATensor Wt; ATensor dY; AInt N; AInt C_in; AInt H; AInt W; AInt C_out; AInt kH; AInt kW;
    AInt stride_h; AInt stride_w; AInt pad_h; AInt pad_w; AInt dil_h; AInt dil_w; AInt groups; ATensor dX].

Definition conv2d_backward_weight (X dY : ref) (N C_in H W C_out kH kW stride_h stride_w pad_h pad_w dil_h
  dil_w groups : Z) (dWt : ref) : op Z :=
  _ ← check_2d (lit "conv2d_backward_weight") X (lit "X") N C_in H W;
  vt ← dispatch rt [X; dY; dWt];
  impl ← slot vt (lit "conv2d_backward_weight") X;
  _ ← adopt_output rt dWt X;
  backend impl [ATensor X; ATensor dY; AInt N; AInt C_in; AInt H; AInt W; AInt C_out; AInt kH; AInt kW;
    AInt stride_h; AInt stride_w; AInt pad_h; AInt pad_w; AInt dil_h; AInt dil_w; AInt groups; ATensor dWt].

Definition conv2d_backward_bias (dY : ref) (N C_out H_out W_out : Z) (dB : ref) : op Z :=
  _ ← check_2d (lit "conv2d_backward_bias") dY (lit "dY") N C_out H_out W_out;
  vt ← dispatch rt [dY; dB];
  impl ← slot vt (lit "conv2d_backward_bias") dY;
  _ ← adopt_output rt dB dY;
  backend impl [ATensor dY; AInt N; AInt C_out; AInt H_out; AInt W_out; ATensor dB].

Definition conv2d_int8w_fp16_forward (X W_int8 scales : ref) (bias : option ref) (N C_in H W C_out kH kW
  stride_h stride_w pad_h pad_w dil_h dil_w groups : Z) (Y : ref) : op Z :=
  _ ← check_2d (lit "conv2d_int8w_fp16_forward") X (lit "X") N C_in H W;
  vt ← dispatch_with_opts2 rt X W_int8 [Some scales; bias; Some Y];
  impl ← slot vt (lit "conv2d_int8w_fp16_forward") X;
  _ ← adopt_output rt Y X;
  backend impl [ATensor X; ATensor W_int8; ATensor scales; AOpt bias; AInt N; AInt C_in; AInt H; AInt W;
    AInt C_out; AInt kH; AInt kW; AInt stride_h; AInt stride_w; AInt pad_h; AInt pad_w; AInt dil_h; AInt
    dil_w; AInt groups; ATensor Y].

Definition deform_conv2d_forward (X offset : ref) (mask : option ref) (Wt : ref) (bias : option ref) (N
  C_in H W C_out kH kW stride_h stride_w pad_h pad_w dil_h dil_w groups deform_groups : Z) (Y : ref) : op Z
  :=
  _ ← check_2d (lit "deform_conv2d_forward") X (lit "X") N C_in H W;
  vt ← dispatch_with_opts2 rt X Wt [Some offset; mask; bias; Some Y];
  impl ← slot vt (lit "deform_conv2d_forward") X;
  _ ← adopt_output rt Y X;
  backend impl [ATensor X; ATensor offset; AOpt mask; ATensor Wt; AOpt bias; AInt N; AInt C_in; AInt H;
    AInt W; AInt C_out; AInt kH; AInt kW; AInt stride_h; AInt stride_w; AInt pad_h; AInt pad_w; AInt dil_h;
    AInt dil_w; AInt groups; AInt deform_groups; ATensor Y].

Definition conv3d_forward (X Wt : ref) (bias : option ref) (N C_in T H W C_out kT kH kW stride_t stride_h
  stride_w pad_t pad_h pad_w dil_t dil_h dil_w groups : Z) (Y : ref) : op Z :=
  _ ← check_3d (lit "conv3d_forward") X (lit "X") N C_in T H W;
  vt ← dispatch_with_opts2 rt X Wt [bias; Some Y];
  impl ← slot vt (lit "conv3d_forward") X;
  _ ← adopt_output rt Y X;
  backend impl [ATensor X; ATensor Wt; AOpt bias; AInt N; AInt C_in; AInt T; AInt H; AInt W; AInt C_out;
    AInt kT; AInt kH; AInt kW; AInt stride_t; AInt stride_h; AInt stride_w; AInt pad_t; AInt pad_h; AInt
    pad_w; AInt dil_t; AInt dil_h; AInt dil_w; AInt groups; ATensor Y].

Definition conv3d_int8w_fp16_forward (X W_int8 scales : ref) (bias : option ref) (N C_in T H W C_out kT kH
  kW stride_t stride_h stride_w pad_t pad_h pad_w dil_t dil_h dil_w groups : Z) (Y : ref) : op Z :=
  _ ← check_3d (lit "conv3d_int8w_fp16_forward") X (lit "X") N C_in T H W;
  vt ← dispatch_with_opts2 rt X W_int8 [Some scales; bias; Some Y];
  impl ← slot vt (lit "conv3d_int8w_fp16_forward") X;
  _ ← adopt_output rt Y X;
  backend impl [ATensor X; ATensor W_int8; ATensor scales; AOpt bias; AInt N; AInt C_in; AInt T; AInt H;
    AInt W; AInt C_out; AInt kT; AInt kH; AInt kW; AInt stride_t; AInt stride_h; AInt stride_w; AInt pad_t;
    AInt pad_h; AInt pad_w; AInt dil_t; AInt dil_h; AInt dil_w; AInt groups; ATensor Y].

Definition group_norm_forward (X gamma beta : ref) (N C H W num_groups eps : Z) (Y : ref) : op Z :=
  _ ← check_2d (lit "group_norm_forward") X (lit "X") N C H W;
  vt ← dispatch rt [X; gamma; beta; Y];
  impl ← slot vt (lit "group_norm_forward") X;
  _ ← adopt_output rt Y X;
  backend impl [ATensor X; ATensor gamma; ATensor beta; AInt N; AInt C; AInt H; AInt W; AInt num_groups;
    AFloat eps; ATensor Y].

Definition group_norm_backward (X gamma dY : ref) (N C H W num_groups eps : Z) (dX dGamma dBeta : ref) : op
  Z :=
  _ ← check_2d (lit "group_norm_backward") X (lit "X") N C H W;
  _ ← check_2d (lit "group_norm_backward") dY (lit "dY") N C H W;
  vt ← dispatch rt [X; gamma; dY; dX; dGamma; dBeta];
  impl ← slot vt (lit "group_norm_backward") X;
  _ ← adopt_output rt dX X;
  _ ← adopt_output rt dGamma X;
  _ ← adopt_output rt dBeta X;
  backend impl [ATensor X; ATensor gamma; ATensor dY; AInt N; AInt C; AInt H; AInt W; AInt num_groups;
    AFloat eps; ATensor dX; ATensor dGamma; ATensor dBeta].

Definition silu_forward (x y : ref) : op Z :=
  vt ← dispatch rt [x; y];
  impl ← slot vt (lit "silu_forward") x;
  _ ← adopt_output rt y x;
  backend impl [ATensor x; ATensor y].

Definition silu_backward (x dY dX : ref) : op Z :=
  vt ← dispatch rt [x; dY; dX];
  impl ← slot vt (lit "silu_backward") x;
  _ ← adopt_output rt dX x;
  backend impl [ATensor x; ATensor dY; ATensor dX].

Definition gelu_forward (x y : ref) : op Z :=
  vt ← dispatch rt [x; y];
  impl ← slot vt (lit "gelu_forward") x;
  _ ← adopt_output rt y x;
  backend impl [ATensor x; ATensor y].

Definition gelu_backward (x dY dX : ref) : op Z :=
  vt ← dispatch rt [x; dY; dX];
  impl ← slot vt (lit "gelu_backward") x;
  _ ← adopt_output rt dX x;
  backend impl [ATensor x; ATensor dY; ATensor dX].

Definition gelu_exact_forward (x y : ref) : op Z :=
  vt ← dispatch rt [x; y];
  impl ← slot vt (lit "gelu_exact_forward") x;
  _ ← adopt_output rt y x;
  backend impl [ATensor x; ATensor y].

Definition gelu_exact_backward (x dY dX : ref) : op Z :=
  vt ← dispatch rt [x; dY; dX];
  impl ← slot vt (lit "gelu_exact_backward") x;
  _ ← adopt_output rt dX x;
  backend impl [ATensor x; ATensor dY; ATensor dX].

Definition quick_gelu_forward (x y : ref) : op Z :=
  vt ← dispatch rt [x; y];
  impl ← slot vt (lit "quick_gelu_forward") x;
  _ ← adopt_output rt y x;
  backend impl [ATensor x; ATensor y].

Definition quick_gelu_backward (x dY dX : ref) : op Z :=
  vt ← dispatch rt [x; dY; dX];
  impl ← slot vt (lit "quick_gelu_backward") x;
  _ ← adopt_output rt dX x;
  backend impl [ATensor x; ATensor dY; ATensor dX].

Definition upsample_nearest_2x (X : ref) (N C H W : Z) (Y : ref) : op Z :=
  _ ← check_2d (lit "upsample_nearest_2x") X (lit "X") N C H W;
  vt ← dispatch rt [X; Y];
  impl ← slot vt (lit "upsample_nearest_2x") X;
  _ ← adopt_output rt Y X;
  backend impl [ATensor X; AInt N; AInt C; AInt H; AInt W; ATensor Y].

Definition upsample_bilinear_2x (X : ref) (N C H W : Z) (Y : ref) : op Z :=
  _ ← check_2d (lit "upsample_bilinear_2x") X (lit "X") N C H W;
  vt ← dispatch rt [X; Y];
  impl ← slot vt (lit "upsample_bilinear_2x") X;
  _ ← adopt_output rt Y X;
  backend impl [ATensor X; AInt N; AInt C; AInt H; AInt W; ATensor Y].

Definition downsample_avg_2x (X : ref) (N C H W : Z) (Y : ref) : op Z :=
  _ ← check_2d (lit "downsample_avg_2x") X (lit "X") N C H W;
  vt ← dispatch rt [X; Y];
  impl ← slot vt (lit "downsample_avg_2x") X;
  _ ← adopt_output rt Y X;
  backend impl [ATensor X; AInt N; AInt C; AInt H; AInt W; ATensor Y].

Definition upsample_nearest_2x_backward (dY : ref) (N C H W : Z) (dX : ref) : op Z :=
  _ ← when ((N <=? 0) || (C <=? 0) || (H <=? 0) || (W <=? 0))
    (throw_2d (lit "upsample_nearest_2x_backward") dY (lit "dY") N C H W);
  _ ← (n1 ← int_of (ival 2 * ival H);
    n2 ← int_of (ival 2 * ival W);
    check_2d (lit "upsample_nearest_2x_backward") dY (lit "dY") N C n1 n2);
  vt ← dispatch rt [dY; dX];
  impl ← slot vt (lit "upsample_nearest_2x_backward") dY;
  _ ← adopt_output rt dX dY;
  backend impl [ATensor dY; AInt N; AInt C; AInt H; AInt W; ATensor dX].

Definition upsample_bilinear_2x_backward (dY : ref) (N C H W : Z) (dX : ref) : op Z :=
  _ ← when ((N <=? 0) || (C <=? 0) || (H <=? 0) || (W <=? 0))
    (throw_2d (lit "upsample_bilinear_2x_backward") dY (lit "dY") N C H W);
  _ ← (n1 ← int_of (ival 2 * ival H);
    n2 ← int_of (ival 2 * ival W);
    check_2d (lit "upsample_bilinear_2x_backward") dY (lit "dY") N C n1 n2);
  vt ← dispatch rt [dY; dX];
  impl ← slot vt (lit "upsample_bilinear_2x_backward") dY;
  _ ← adopt_output rt dX dY;
  backend impl [ATensor dY; AInt N; AInt C; AInt H; AInt W; ATensor dX].

Definition downsample_avg_2x_backward (dY : ref) (N C H W : Z) (dX : ref) : op Z :=
  _ ← when ((N <=? 0) || (C <=? 0) || (H <=? 0) || (W <=? 0))
    (throw_2d (lit "downsample_avg_2x_backward") dY (lit "dY") N C H W);
  _ ← (when ((Z.rem H 2 =? 0) && (Z.rem W 2 =? 0))
    (n1 ← int_of (ival H / ival 2);
    n2 ← int_of (ival W / ival 2);
    check_2d (lit "downsample_avg_2x_backward") dY (lit "dY") N C n1 n2));
  vt ← dispatch rt [dY; dX];
  impl ← slot vt (lit "downsample_avg_2x_backward") dY;
  _ ← adopt_output rt dX dY;
  backend impl [ATensor dY; AInt N; AInt C; AInt H; AInt W; ATensor dX].

Definition interp2d_forward (X : ref) (N C H_in W_in H_out W_out mode : Z) (Y : ref) : op Z :=
  _ ← check_2d (lit "interp2d_forward") X (lit "X") N C H_in W_in;
  vt ← dispatch rt [X; Y];
  impl ← slot vt (lit "interp2d_forward") X;
  _ ← adopt_output rt Y X;
  backend impl [ATensor X; AInt N; AInt C; AInt H_in; AInt W_in; AInt H_out; AInt W_out; AInt mode; ATensor
    Y].

Definition interp2d_backward (dY : ref) (N C H_in W_in H_out W_out mode : Z) (dX : ref) : op Z :=
  _ ← when ((N <=? 0) || (C <=? 0) || (H_in <=? 0) || (W_in <=? 0))
    (throw_2d (lit "interp2d_backward") dY (lit "dY") N C H_in W_in);
  _ ← check_2d (lit "interp2d_backward") dY (lit "dY") N C H_out W_out;
  vt ← dispatch rt [dY; dX];
  impl ← slot vt (lit "interp2d_backward") dY;
  _ ← adopt_output rt dX dY;
  backend impl [ATensor dY; AInt N; AInt C; AInt H_in; AInt W_in; AInt H_out; AInt W_out; AInt mode;
    ATensor dX].

Definition interp2d_align_corners_forward (X : ref) (N C H_in W_in H_out W_out mode : Z) (Y : ref) : op Z :=
  _ ← check_2d (lit "interp2d_align_corners_forward") X (lit "X") N C H_in W_in;
  vt ← dispatch rt [X; Y];
  impl ← slot vt (lit "interp2d_align_corners_forward") X;
  _ ← adopt_output rt Y X;
  backend impl [ATensor X; AInt N; AInt C; AInt H_in; AInt W_in; AInt H_out; AInt W_out; AInt mode; ATensor
    Y].

Definition pad2d_forward (X : ref) (N C H W pad_top pad_bottom pad_left pad_right mode : Z) (Y : ref) : op
  Z :=
  _ ← check_2d (lit "pad2d_forward") X (lit "X") N C H W;
  vt ← dispatch rt [X; Y];
  impl ← slot vt (lit "pad2d_forward") X;
  _ ← adopt_output rt Y X;
  backend impl [ATensor X; AInt N; AInt C; AInt H; AInt W; AInt pad_top; AInt pad_bottom; AInt pad_left;
    AInt pad_right; AInt mode; ATensor Y].

Definition pad2d_backward (dY : ref) (N C H W pad_top pad_bottom pad_left pad_right mode : Z) (dX : ref) :
  op Z :=
  _ ← when ((N <=? 0) || (C <=? 0) || (H <=? 0) || (W <=? 0))
    (throw_2d (lit "pad2d_backward") dY (lit "dY") N C H W);
  _ ← (H_out ← int_of (ival H + ival pad_top + ival pad_bottom);
    W_out ← int_of (ival W + ival pad_left + ival pad_right);
    when ((H_out >? 0) && (W_out >? 0))
    (check_2d (lit "pad2d_backward") dY (lit "dY") N C H_out W_out));
  vt ← dispatch rt [dY; dX];
  impl ← slot vt (lit "pad2d_backward") dY;
  _ ← adopt_output rt dX dY;
  backend impl [ATensor dY; AInt N; AInt C; AInt H; AInt W; AInt pad_top; AInt pad_bottom; AInt pad_left;
    AInt pad_right; AInt mode; ATensor dX].

Definition slice2d_forward (X : ref) (N C H W h0 w0 H_out W_out : Z) (Y : ref) : op Z :=
  _ ← check_2d (lit "slice2d_forward") X (lit "X") N C H W;
  vt ← dispatch rt [X; Y];
  impl ← slot vt (lit "slice2d_forward") X;
  _ ← adopt_output rt Y X;
  backend impl [ATensor X; AInt N; AInt C; AInt H; AInt W; AInt h0; AInt w0; AInt H_out; AInt W_out;
    ATensor Y].

Definition slice2d_backward (dY : ref) (N C H W h0 w0 H_out W_out : Z) (dX : ref) : op Z :=
  _ ← when ((N <=? 0) || (C <=? 0) || (H <=? 0) || (W <=? 0))
    (throw_2d (lit "slice2d_backward") dY (lit "dY") N C H W);
  _ ← when ((H_out >? 0) && (W_out >? 0))
    (check_2d (lit "slice2d_backward") dY (lit "dY") N C H_out W_out);
  vt ← dispatch rt [dY; dX];
  impl ← slot vt (lit "slice2d_backward") dY;
  _ ← adopt_output rt dX dY;
  backend impl [ATensor dY; AInt N; AInt C; AInt H; AInt W; AInt h0; AInt w0; AInt H_out; AInt W_out;
    ATensor dX].

Definition unfold2d_forward (X : ref) (N C H W kH kW stride_h stride_w pad_top pad_bottom pad_left
  pad_right mode : Z) (Y : ref) : op Z :=
  _ ← check_2d (lit "unfold2d_forward") X (lit "X") N C H W;
  vt ← dispatch rt [X; Y];
  impl ← slot vt (lit "unfold2d_forward") X;
  _ ← adopt_output rt Y X;
  backend impl [ATensor X; AInt N; AInt C; AInt H; AInt W; AInt kH; AInt kW; AInt stride_h; AInt stride_w;
    AInt pad_top; AInt pad_bottom; AInt pad_left; AInt pad_right; AInt mode; ATensor Y].

Definition l2_normalize_nchw_forward (X : ref) (N C H W eps : Z) (Y : ref) : op Z :=
  _ ← check_2d (lit "l2_normalize_nchw_forward") X (lit "X") N C H W;
  vt ← dispatch rt [X; Y];
  impl ← slot vt (lit "l2_normalize_nchw_forward") X;
  _ ← adopt_output rt Y X;
  backend impl [ATensor X; AInt N; AInt C; AInt H; AInt W; AFloat eps; ATensor Y].

Definition convex_upsample_forward (X Mask : ref) (N C H W scale : Z) (Y : ref) : op Z :=
  _ ← check_2d (lit "convex_upsample_forward") X (lit "X") N C H W;
  vt ← dispatch rt [X; Mask; Y];
  impl ← slot vt (lit "convex_upsample_forward") X;
  _ ← adopt_output rt Y X;
  backend impl [ATensor X; ATensor Mask; AInt N; AInt C; AInt H; AInt W; AInt scale; ATensor Y].

Definition top_k_rows (X : ref) (k : Z) (Vals Idx : ref) : op Z :=
  vt ← dispatch rt [X; Vals; Idx];
  impl ← slot vt (lit "top_k_rows") X;
  _ ← adopt_output rt Vals X;
  _ ← adopt_output rt Idx X;
  backend impl [ATensor X; AInt k; ATensor Vals; ATensor Idx].

Definition adaptive_avg_pool2d_forward (X : ref) (N C H W H_out W_out : Z) (Y : ref) : op Z :=
  _ ← check_2d (lit "adaptive_avg_pool2d_forward") X (lit "X") N C H W;
  vt ← dispatch rt [X; Y];
  impl ← slot vt (lit "adaptive_avg_pool2d_forward") X;
  _ ← adopt_output rt Y X;
  backend impl [ATensor X; AInt N; AInt C; AInt H; AInt W; AInt H_out; AInt W_out; ATensor Y].

Definition adaptive_avg_pool2d_backward (dY : ref) (N C H W H_out W_out : Z) (dX : ref) : op Z :=
  _ ← when ((N <=? 0) || (C <=? 0) || (H <=? 0) || (W <=? 0))
    (throw_2d (lit "adaptive_avg_pool2d_backward") dY (lit "dY") N C H W);
  _ ← check_2d (lit "adaptive_avg_pool2d_backward") dY (lit "dY") N C H_out W_out;
  vt ← dispatch rt [dY; dX];
  impl ← slot vt (lit "adaptive_avg_pool2d_backward") dY;
  _ ← adopt_output rt dX dY;
  backend impl [ATensor dY; AInt N; AInt C; AInt H; AInt W; AInt H_out; AInt W_out; ATensor dX].

Definition max_pool2d_forward (X : ref) (N C H W kH kW stride_h stride_w pad_h pad_w : Z) (Y Idx : ref) :
  op Z :=
  _ ← check_2d (lit "max_pool2d_forward") X (lit "X") N C H W;
  vt ← dispatch rt [X; Y; Idx];
  impl ← slot vt (lit "max_pool2d_forward") X;
  _ ← adopt_output rt Y X;
  _ ← adopt_output rt Idx X;
  backend impl [ATensor X; AInt N; AInt C; AInt H; AInt W; AInt kH; AInt kW; AInt stride_h; AInt stride_w;
    AInt pad_h; AInt pad_w; ATensor Y; ATensor Idx].

Definition max_pool2d_backward (dY Idx : ref) (N C H W H_out W_out : Z) (dX : ref) : op Z :=
  _ ← when ((N <=? 0) || (C <=? 0) || (H <=? 0) || (W <=? 0))
    (throw_2d (lit "max_pool2d_backward") dY (lit "dY") N C H W);
  _ ← check_2d (lit "max_pool2d_backward") dY (lit "dY") N C H_out W_out;
  vt ← dispatch rt [dY; Idx; dX];
  impl ← slot vt (lit "max_pool2d_backward") dY;
  _ ← adopt_output rt dX dY;
  backend impl [ATensor dY; ATensor Idx; AInt N; AInt C; AInt H; AInt W; AInt H_out; AInt W_out; ATensor
    dX].

Definition gather_rows (X Idx Y : ref) : op Z :=
  vt ← dispatch rt [X; Idx; Y];
  impl ← slot vt (lit "gather_rows") X;
  _ ← adopt_output rt Y X;
  backend impl [ATensor X; ATensor Idx; ATensor Y].

Definition scatter_rows_add (dY Idx : ref) (R : Z) (dX : ref) : op Z :=
  vt ← dispatch rt [dY; Idx; dX];
  impl ← slot vt (lit "scatter_rows_add") dY;
  _ ← adopt_output rt dX dY;
  backend impl [ATensor dY; ATensor Idx; AInt R; ATensor dX].

Definition scatter_rows (Y Idx X : ref) : op Z :=
  vt ← dispatch rt [Y; Idx; X];
  impl ← slot vt (lit "scatter_rows") Y;
  _ ← adopt_output rt X Y;
  backend impl [ATensor Y; ATensor Idx; ATensor X].

Definition conv_transpose2d_forward (X Wt : ref) (bias : option ref) (N C_in H W C_out kH kW stride_h
  stride_w pad_h pad_w output_padding_h output_padding_w dil_h dil_w groups : Z) (Y : ref) : op Z :=
  _ ← check_2d (lit "conv_transpose2d_forward") X (lit "X") N C_in H W;
  vt ← dispatch_with_opts2 rt X Wt [bias; Some Y];
  impl ← slot vt (lit "conv_transpose2d_forward") X;
  _ ← adopt_output rt Y X;
  backend impl [ATensor X; ATensor Wt; AOpt bias; AInt N; AInt C_in; AInt H; AInt W; AInt C_out; AInt kH;
    AInt kW; AInt stride_h; AInt stride_w; AInt pad_h; AInt pad_w; AInt output_padding_h; AInt
    output_padding_w; AInt dil_h; AInt dil_w; AInt groups; ATensor Y].

Definition conv_transpose2d_backward_input (Wt dY : ref) (N C_in H W C_out kH kW stride_h stride_w pad_h
  pad_w output_padding_h output_padding_w dil_h dil_w groups : Z) (dX : ref) : op Z :=
  _ ← when ((N <=? 0) || (C_in <=? 0) || (H <=? 0) || (W <=? 0) || (C_out <=? 0))
    (throw_2d (lit "conv_transpose2d_backward_input") dY (lit "dY") N C_in H W);
  vt ← dispatch rt [Wt; dY; dX];
  impl ← slot vt (lit "conv_transpose2d_backward_input") Wt;
  _ ← adopt_output rt dX Wt;
  backend impl [ATensor Wt; ATensor dY; AInt N; AInt C_in; AInt H; AInt W; AInt C_out; AInt kH; AInt kW;
    AInt stride_h; AInt stride_w; AInt pad_h; AInt pad_w; AInt output_padding_h; AInt output_padding_w;
    AInt dil_h; AInt dil_w; AInt groups; ATensor dX].

Definition conv_transpose2d_backward_weight (X dY : ref) (N C_in H W C_out kH kW stride_h stride_w pad_h
  pad_w output_padding_h output_padding_w dil_h dil_w groups : Z) (dWt : ref) : op Z :=
  _ ← check_2d (lit "conv_transpose2d_backward_weight") X (lit "X") N C_in H W;
  vt ← dispatch rt [X; dY; dWt];
  impl ← slot vt (lit "conv_transpose2d_backward_weight") X;
  _ ← adopt_output rt dWt X;
  backend impl [ATensor X; ATensor dY; AInt N; AInt C_in; AInt H; AInt W; AInt C_out; AInt kH; AInt kW;
    AInt stride_h; AInt stride_w; AInt pad_h; AInt pad_w; AInt output_padding_h; AInt output_padding_w;
    AInt dil_h; AInt dil_w; AInt groups; ATensor dWt].

Definition conv_transpose2d_backward_bias (dY : ref) (N C_out H_out W_out : Z) (dB : ref) : op Z :=
  _ ← check_2d (lit "conv_transpose2d_backward_bias") dY (lit "dY") N C_out H_out W_out;
  vt ← dispatch rt [dY; dB];
  impl ← slot vt (lit "conv_transpose2d_backward_bias") dY;
  _ ← adopt_output rt dB dY;
  backend impl [ATensor dY; AInt N; AInt C_out; AInt H_out; AInt W_out; ATensor dB].

Definition window_partition_forward (X : ref) (N C H W window : Z) (Y : ref) : op Z :=
  _ ← check_2d (lit "window_partition_forward") X (lit "X") N C H W;
  vt ← dispatch rt [X; Y];
  impl ← slot vt (lit "window_partition_forward") X;
  _ ← adopt_output rt Y X;
  backend impl [ATensor X; AInt N; AInt C; AInt H; AInt W; AInt window; ATensor Y].

Definition window_reverse_forward (X : ref) (N C H W window : Z) (Y : ref) : op Z :=
  _ ← when ((N <=? 0) || (C <=? 0) || (H <=? 0) || (W <=? 0))
    (throw_2d (lit "window_reverse_forward") X (lit "X") N C H W);
  _ ← (when ((window >? 0) && (Z.rem H window =? 0) && (Z.rem W window =? 0))
    (n1 ← int_of (ival N * (ival H / ival window) * (ival W / ival window));
    check_2d (lit "window_reverse_forward") X (lit "X") n1 C window window));
  vt ← dispatch rt [X; Y];
  impl ← slot vt (lit "window_reverse_forward") X;
  _ ← adopt_output rt Y X;
  backend impl [ATensor X; AInt N; AInt C; AInt H; AInt W; AInt window; ATensor Y].

Definition nchw_to_sequence (X : ref) (N C H W : Z) (Y : ref) : op Z :=
  _ ← check_2d (lit "nchw_to_sequence") X (lit "X") N C H W;
  vt ← dispatch rt [X; Y];
  impl ← slot vt (lit "nchw_to_sequence") X;
  _ ← adopt_output rt Y X;
  backend impl [ATensor X; AInt N; AInt C; AInt H; AInt W; ATensor Y].

Definition sequence_to_nchw (X : ref) (N C H W : Z) (Y : ref) : op Z :=
  _ ← when ((N <=? 0) || (C <=? 0) || (H <=? 0) || (W <=? 0))
    (throw_2d (lit "sequence_to_nchw") X (lit "X") N C H W);
  _ ← (n1 ← int_of (ival N * ival H * ival W);
    check_1d (lit "sequence_to_nchw") X (lit "X") n1 C 1);
  vt ← dispatch rt [X; Y];
  impl ← slot vt (lit "sequence_to_nchw") X;
  _ ← adopt_output rt Y X;
  backend impl [ATensor X; AInt N; AInt C; AInt H; AInt W; ATensor Y].

Definition spatial_merge_2x2_forward (X : ref) (N C H W : Z) (channel_major : bool) (Y : ref) : op Z :=
  _ ← check_2d (lit "spatial_merge_2x2_forward") X (lit "X") N C H W;
  vt ← dispatch rt [X; Y];
  impl ← slot vt (lit "spatial_merge_2x2_forward") X;
  _ ← adopt_output rt Y X;
  backend impl [ATensor X; AInt N; AInt C; AInt H; AInt W; ABool channel_major; ATensor Y].

Definition pixel_shuffle_upsample_2x_forward (X : ref) (N C_in H W C_out : Z) (Y : ref) : op Z :=
  _ ← when ((N >? 0) && (C_in >? 0) && (H >? 0) && (W >? 0))
    (check_2d (lit "pixel_shuffle_upsample_2x_forward") X (lit "X") N C_in H W);
  vt ← dispatch rt [X; Y];
  impl ← slot vt (lit "pixel_shuffle_upsample_2x_forward") X;
  _ ← adopt_output rt Y X;
  backend impl [ATensor X; AInt N; AInt C_in; AInt H; AInt W; AInt C_out; ATensor Y].

Definition patch_unpack_forward (tokens : ref) (hp wp P C_total C_keep : Z) (channel_major : bool) (Y :
  ref) : op Z :=
  vt ← dispatch rt [tokens; Y];
  impl ← slot vt (lit "patch_unpack_forward") tokens;
  _ ← adopt_output rt Y tokens;
  backend impl [ATensor tokens; AInt hp; AInt wp; AInt P; AInt C_total; AInt C_keep; ABool channel_major;
    ATensor Y].

Definition resblock_forward (X gamma1 beta1 W1 : ref) (b1 t_emb_shift : option ref) (gamma2 beta2 W2 : ref)
  (b2 Wskip bskip : option ref) (N C_in C_out H W num_groups eps : Z) (Y : ref) : op Z :=
  _ ← check_2d (lit "resblock_forward") X (lit "X") N C_in H W;
  vt ← dispatch_with_opts2 rt X gamma1 [Some beta1; Some W1; b1; t_emb_shift; Some gamma2; Some beta2; Some
    W2; b2; Wskip; bskip; Some Y];
  impl ← slot vt (lit "resblock_forward") X;
  _ ← adopt_output rt Y X;
  backend impl [ATensor X; ATensor gamma1; ATensor beta1; ATensor W1; AOpt b1; AOpt t_emb_shift; ATensor
    gamma2; ATensor beta2; ATensor W2; AOpt b2; AOpt Wskip; AOpt bskip; AInt N; AInt C_in; AInt C_out; AInt
    H; AInt W; AInt num_groups; AFloat eps; ATensor Y].

Definition resblock_forward_int8w_fp16 (X gamma1 beta1 W1_int8 s1 : ref) (b1 t_emb_shift : option ref)
  (gamma2 beta2 W2_int8 s2 : ref) (b2 Wskip_int8 sskip bskip : option ref) (N C_in C_out H W num_groups eps
  : Z) (Y : ref) : op Z :=
  _ ← check_2d (lit "resblock_forward_int8w_fp16") X (lit "X") N C_in H W;
  vt ← dispatch_with_opts2 rt X gamma1 [Some beta1; Some W1_int8; Some s1; b1; t_emb_shift; Some gamma2;
    Some beta2; Some W2_int8; Some s2; b2; Wskip_int8; sskip; bskip; Some Y];
  impl ← slot vt (lit "resblock_forward_int8w_fp16") X;
  _ ← adopt_output rt Y X;
  backend impl [ATensor X; ATensor gamma1; ATensor beta1; ATensor W1_int8; ATensor s1; AOpt b1; AOpt
    t_emb_shift; ATensor gamma2; ATensor beta2; ATensor W2_int8; ATensor s2; AOpt b2; AOpt Wskip_int8; AOpt
    sskip; AOpt bskip; AInt N; AInt C_in; AInt C_out; AInt H; AInt W; AInt num_groups; AFloat eps; ATensor
    Y].

Definition resblock_backward (X gamma1 beta1 W1 : ref) (b1 t_emb_shift : option ref) (gamma2 beta2 W2 :
  ref) (b2 Wskip bskip : option ref) (N C_in C_out H W num_groups eps : Z) (dY dX dGamma1 dBeta1 dW1 : ref)
  (db1 dt_emb_shift : option ref) (dGamma2 dBeta2 dW2 : ref) (db2 dWskip dbskip : option ref) : op Z :=
  _ ← check_2d (lit "resblock_backward") X (lit "X") N C_in H W;
  _ ← check_2d (lit "resblock_backward") dY (lit "dY") N C_out H W;
  vt ← dispatch_with_opts2 rt X gamma1 [Some beta1; Some W1; b1; t_emb_shift; Some gamma2; Some beta2; Some
    W2; b2; Wskip; bskip; Some dY; Some dX; Some dGamma1; Some dBeta1; Some dW1; db1; dt_emb_shift; Some
    dGamma2; Some dBeta2; Some dW2; db2; dWskip; dbskip];
  impl ← slot vt (lit "resblock_backward") X;
  _ ← adopt_output rt dX X;
  _ ← adopt_output rt dGamma1 X;
  _ ← adopt_output rt dBeta1 X;
  _ ← adopt_output rt dW1 X;
  _ ← adopt_opt rt db1 X;
  _ ← adopt_opt rt dt_emb_shift X;
  _ ← adopt_output rt dGamma2 X;
  _ ← adopt_output rt dBeta2 X;
  _ ← adopt_output rt dW2 X;
  _ ← adopt_opt rt db2 X;
  _ ← adopt_opt rt dWskip X;
  _ ← adopt_opt rt dbskip X;
  backend impl [ATensor X; ATensor gamma1; ATensor beta1; ATensor W1; AOpt b1; AOpt t_emb_shift; ATensor
    gamma2; ATensor beta2; ATensor W2; AOpt b2; AOpt Wskip; AOpt bskip; AInt N; AInt C_in; AInt C_out; AInt
    H; AInt W; AInt num_groups; AFloat eps; ATensor dY; ATensor dX; ATensor dGamma1; ATensor dBeta1;
    ATensor dW1; AOpt db1; AOpt dt_emb_shift; ATensor dGamma2; ATensor dBeta2; ATensor dW2; AOpt db2; AOpt
    dWskip; AOpt dbskip].

Definition batch_norm_forward (X gamma beta running_mean running_var : ref) (N C H W eps momentum : Z) (Y
  saved_mean saved_rstd : ref) : op Z :=
  _ ← check_2d (lit "batch_norm_forward") X (lit "X") N C H W;
  vt ← dispatch rt [X; gamma; beta; running_mean; running_var; Y; saved_mean; saved_rstd];
  impl ← slot vt (lit "batch_norm_forward") X;
  _ ← adopt_output rt running_mean X;
  _ ← adopt_output rt running_var X;
  _ ← adopt_output rt Y X;
  _ ← adopt_output rt saved_mean X;
  _ ← adopt_output rt saved_rstd X;
  backend impl [ATensor X; ATensor gamma; ATensor beta; ATensor running_mean; ATensor running_var; AInt N;
    AInt C; AInt H; AInt W; AFloat eps; AFloat momentum; ATensor Y; ATensor saved_mean; ATensor saved_rstd].

Definition batch_norm_inference (X gamma beta running_mean running_var : ref) (N C H W eps : Z) (Y : ref) :
  op Z :=
  _ ← check_2d (lit "batch_norm_inference") X (lit "X") N C H W;
  vt ← dispatch rt [X; gamma; beta; running_mean; running_var; Y];
  impl ← slot vt (lit "batch_norm_inference") X;
  _ ← adopt_output rt Y X;
  backend impl [ATensor X; ATensor gamma; ATensor beta; ATensor running_mean; ATensor running_var; AInt N;
    AInt C; AInt H; AInt W; AFloat eps; ATensor Y].

Definition batch_norm_backward (X gamma saved_mean saved_rstd dY : ref) (N C H W : Z) (dX dGamma dBeta :
  ref) : op Z :=
  _ ← check_2d (lit "batch_norm_backward") X (lit "X") N C H W;
  _ ← check_2d (lit "batch_norm_backward") dY (lit "dY") N C H W;
  vt ← dispatch rt [X; gamma; saved_mean; saved_rstd; dY; dX; dGamma; dBeta];
  impl ← slot vt (lit "batch_norm_backward") X;
  _ ← adopt_output rt dX X;
  _ ← adopt_output rt dGamma X;
  _ ← adopt_output rt dBeta X;
  backend impl [ATensor X; ATensor gamma; ATensor saved_mean; ATensor saved_rstd; ATensor dY; AInt N; AInt
    C; AInt H; AInt W; ATensor dX; ATensor dGamma; ATensor dBeta].

Definition image_normalize (X mean std_ : ref) (N C H W : Z) (Y : ref) : op Z :=
  _ ← check_2d (lit "image_normalize") X (lit "X") N C H W;
  vt ← dispatch rt [X; mean; std_; Y];
  impl ← slot vt (lit "image_normalize") X;
  _ ← adopt_output rt Y X;
  backend impl [ATensor X; ATensor mean; ATensor std_; AInt N; AInt C; AInt H; AInt W; ATensor Y].

Definition image_u8_to_f32_nhwc_to_nchw (src : ptr) (N H W C scale bias : Z) (Y : ref) : op Z :=
  vt ← dispatch rt [Y];
  impl ← slot vt (lit "image_u8_to_f32_nhwc_to_nchw") Y;
  _ ← adopt_output rt Y Y;
  backend impl [APtr src; AInt N; AInt H; AInt W; AInt C; AFloat scale; AFloat bias; ATensor Y].

Definition bias_act_forward (X : ref) (b : option ref) (N C HW act alpha gain clamp : Z) (Y : ref) : op Z :=
  _ ← check_1d (lit "bias_act_forward") X (lit "X") N C HW;
  vt ← dispatch_with_opts1 rt X [b; Some Y];
  impl ← slot vt (lit "bias_act_forward") X;
  _ ← adopt_output rt Y X;
  backend impl [ATensor X; AOpt b; AInt N; AInt C; AInt HW; AInt act; AFloat alpha; AFloat gain; AFloat
    clamp; ATensor Y].

Definition bias_act_backward (dY X : ref) (b : option ref) (N C HW act alpha gain clamp : Z) (dX : ref) (dB
  : option ref) : op Z :=
  _ ← check_1d (lit "bias_act_backward") dY (lit "dY") N C HW;
  _ ← check_1d (lit "bias_act_backward") X (lit "X") N C HW;
  vt ← dispatch_with_opts2 rt dY X [b; dB; Some dX];
  impl ← slot vt (lit "bias_act_backward") dY;
  _ ← adopt_output rt dX dY;
  _ ← adopt_opt rt dB dY;
  backend impl [ATensor dY; ATensor X; AOpt b; AInt N; AInt C; AInt HW; AInt act; AFloat alpha; AFloat
    gain; AFloat clamp; ATensor dX; AOpt dB].

Definition upfirdn2d_forward (X f : ref) (N C H Wd fH fW up_x up_y down_x down_y pad_x0 pad_x1 pad_y0
  pad_y1 : Z) (flip_filter : bool) (gain : Z) (Y : ref) : op Z :=
  _ ← check_2d (lit "upfirdn2d_forward") X (lit "X") N C H Wd;
  vt ← dispatch rt [X; f; Y];
  impl ← slot vt (lit "upfirdn2d_forward") X;
  _ ← adopt_output rt Y X;
  backend impl [ATensor X; ATensor f; AInt N; AInt C; AInt H; AInt Wd; AInt fH; AInt fW; AInt up_x; AInt
    up_y; AInt down_x; AInt down_y; AInt pad_x0; AInt pad_x1; AInt pad_y0; AInt pad_y1; ABool flip_filter;
    AFloat gain; ATensor Y].

Definition upfirdn2d_backward (dY f : ref) (N C H Wd fH fW up_x up_y down_x down_y pad_x0 pad_x1 pad_y0
  pad_y1 : Z) (flip_filter : bool) (gain : Z) (dX : ref) : op Z :=
  _ ← when ((N <=? 0) || (C <=? 0) || (H <=? 0) || (Wd <=? 0))
    (throw_2d (lit "upfirdn2d_backward") dY (lit "dY") N C H Wd);
  vt ← dispatch rt [dY; f; dX];
  impl ← slot vt (lit "upfirdn2d_backward") dY;
  _ ← adopt_output rt dX dY;
  backend impl [ATensor dY; ATensor f; AInt N; AInt C; AInt H; AInt Wd; AInt fH; AInt fW; AInt up_x; AInt
    up_y; AInt down_x; AInt down_y; AInt pad_x0; AInt pad_x1; AInt pad_y0; AInt pad_y1; ABool flip_filter;
    AFloat gain; ATensor dX].

Definition modulated_conv2d_forward (X W s : ref) (N C_in H Wd C_out kH kW pad_h pad_w : Z) (demodulate :
  bool) (eps : Z) (dcoef Y : ref) : op Z :=
  _ ← check_2d (lit "modulated_conv2d_forward") X (lit "X") N C_in H Wd;
  vt ← dispatch rt [X; W; s; dcoef; Y];
  impl ← slot vt (lit "modulated_conv2d_forward") X;
  _ ← adopt_output rt dcoef X;
  _ ← adopt_output rt Y X;
  backend impl [ATensor X; ATensor W; ATensor s; AInt N; AInt C_in; AInt H; AInt Wd; AInt C_out; AInt kH;
    AInt kW; AInt pad_h; AInt pad_w; ABool demodulate; AFloat eps; ATensor dcoef; ATensor Y].

Definition modulated_conv2d_backward (X W s dcoef dY : ref) (N C_in H Wd C_out kH kW pad_h pad_w : Z)
  (demodulate : bool) (eps : Z) (dX dW ds : ref) : op Z :=
  _ ← check_2d (lit "modulated_conv2d_backward") X (lit "X") N C_in H Wd;
  _ ← (when ((kH >? 0) && (kW >? 0))
    (H_out ← int_of (ival H + ival 2 * ival pad_h - (ival kH - ival 1));
    W_out ← int_of (ival Wd + ival 2 * ival pad_w - (ival kW - ival 1));
    when ((H_out >? 0) && (W_out >? 0))
    (check_2d (lit "modulated_conv2d_backward") dY (lit "dY") N C_out H_out W_out)));
  vt ← dispatch rt [X; W; s; dcoef; dY; dX; dW; ds];
  impl ← slot vt (lit "modulated_conv2d_backward") X;
  _ ← adopt_output rt dX X;
  _ ← adopt_output rt dW X;
  _ ← adopt_output rt ds X;
  backend impl [ATensor X; ATensor W; ATensor s; ATensor dcoef; ATensor dY; AInt N; AInt C_in; AInt H; AInt
    Wd; AInt C_out; AInt kH; AInt kW; AInt pad_h; AInt pad_w; ABool demodulate; AFloat eps; ATensor dX;
    ATensor dW; ATensor ds].
End Wrappers.

(** What the convolution, pooling, resampling, padding and StyleGAN wrappers promise. *)
Definition ops_spatial_contract rt backend : Prop :=
  (forall X Wt bias N C_in H W C_out kH kW stride_h stride_w pad_h pad_w dil_h dil_w groups Y,
    obeys rt backend [check_2d (lit "conv2d_forward") X (lit "X") N C_in H W] (lit "conv2d_forward") [Some
      X; Some Wt; bias; Some Y] X [Some Y]
      [ATensor X; ATensor Wt; AOpt bias; AInt N; AInt C_in; AInt H; AInt W; AInt C_out; AInt kH; AInt kW;
        AInt stride_h; AInt stride_w; AInt pad_h; AInt pad_w; AInt dil_h; AInt dil_w; AInt groups; ATensor
        Y]
      (conv2d_forward rt backend X Wt bias N C_in H W C_out kH kW stride_h stride_w pad_h pad_w dil_h dil_w
        groups Y)) /\
  (forall Wt dY N C_in H W C_out kH kW stride_h stride_w pad_h pad_w dil_h dil_w groups dX,
    obeys rt backend [when ((N <=? 0) || (C_in <=? 0) || (H <=? 0) || (W <=? 0) || (C_out <=? 0))
    (throw_2d (lit "conv2d_backward_input") dY (lit "dY") N C_in H W); when ((kH >? 0) && (kW >? 0) &&
      (stride_h >? 0) && (stride_w >? 0) && (dil_h >? 0) && (dil_w >? 0))
    (H_out ← int_of ((ival H + ival 2 * ival pad_h - ival dil_h * (ival kH - ival 1) - ival 1) / ival
      stride_h + ival 1);
    W_out ← int_of ((ival W + ival 2 * ival pad_w - ival dil_w * (ival kW - ival 1) - ival 1) / ival
      stride_w + ival 1);
    when ((H_out >? 0) && (W_out >? 0))
    (check_2d (lit "conv2d_backward_input") dY (lit "dY") N C_out H_out W_out))] (lit
      "conv2d_backward_input") [Some Wt; Some dY; Some dX] Wt [Some dX]
      [ATensor Wt; ATensor dY; AInt N; AInt C_in; AInt H; AInt W; AInt C_out; AInt kH; AInt kW; AInt
        stride_h; AInt stride_w; AInt pad_h; AInt pad_w; AInt dil_h; AInt dil_w; AInt groups; ATensor dX]
      (conv2d_backward_input rt backend Wt dY N C_in H W C_out kH kW stride_h stride_w pad_h pad_w dil_h
        dil_w groups dX)) /\
  (forall X dY N C_in H W C_out kH kW stride_h stride_w pad_h pad_w dil_h dil_w groups dWt,
    obeys rt backend [check_2d (lit "conv2d_backward_weight") X (lit "X") N C_in H W] (lit
      "conv2d_backward_weight") [Some X; Some dY; Some dWt] X [Some dWt]
      [ATensor X; ATensor dY; AInt N; AInt C_in; AInt H; AInt W; AInt C_out; AInt kH; AInt kW; AInt
        stride_h; AInt stride_w; AInt pad_h; AInt pad_w; AInt dil_h; AInt dil_w; AInt groups; ATensor dWt]
      (conv2d_backward_weight rt backend X dY N C_in H W C_out kH kW stride_h stride_w pad_h pad_w dil_h
        dil_w groups dWt)) /\
  (forall dY N C_out H_out W_out dB,
    obeys rt backend [check_2d (lit "conv2d_backward_bias") dY (lit "dY") N C_out H_out W_out] (lit
      "conv2d_backward_bias") [Some dY; Some dB] dY [Some dB]
      [ATensor dY; AInt N; AInt C_out; AInt H_out; AInt W_out; ATensor dB]
      (conv2d_backward_bias rt backend dY N C_out H_out W_out dB)) /\
  (forall X W_int8 scales bias N C_in H W C_out kH kW stride_h stride_w pad_h pad_w dil_h dil_w groups Y,
    obeys rt backend [check_2d (lit "conv2d_int8w_fp16_forward") X (lit "X") N C_in H W] (lit
      "conv2d_int8w_fp16_forward") [Some X; Some W_int8; Some scales; bias; Some Y] X [Some Y]
      [ATensor X; ATensor W_int8; ATensor scales; AOpt bias; AInt N; AInt C_in; AInt H; AInt W; AInt C_out;
        AInt kH; AInt kW; AInt stride_h; AInt stride_w; AInt pad_h; AInt pad_w; AInt dil_h; AInt dil_w;
        AInt groups; ATensor Y]
      (conv2d_int8w_fp16_forward rt backend X W_int8 scales bias N C_in H W C_out kH kW stride_h stride_w
        pad_h pad_w dil_h dil_w groups Y)) /\
  (forall X offset mask Wt bias N C_in H W C_out kH kW stride_h stride_w pad_h pad_w dil_h dil_w groups
    deform_groups Y,
    obeys rt backend [check_2d (lit "deform_conv2d_forward") X (lit "X") N C_in H W] (lit
      "deform_conv2d_forward") [Some X; Some Wt; Some offset; mask; bias; Some Y] X [Some Y]
      [ATensor X; ATensor offset; AOpt mask; ATensor Wt; AOpt bias; AInt N; AInt C_in; AInt H; AInt W; AInt
        C_out; AInt kH; AInt kW; AInt stride_h; AInt stride_w; AInt pad_h; AInt pad_w; AInt dil_h; AInt
        dil_w; AInt groups; AInt deform_groups; ATensor Y]
      (deform_conv2d_forward rt backend X offset mask Wt bias N C_in H W C_out kH kW stride_h stride_w
        pad_h pad_w dil_h dil_w groups deform_groups Y)) /\
  (forall X Wt bias N C_in T H W C_out kT kH kW stride_t stride_h stride_w pad_t pad_h pad_w dil_t dil_h
    dil_w groups Y,
    obeys rt backend [check_3d (lit "conv3d_forward") X (lit "X") N C_in T H W] (lit "conv3d_forward")
      [Some X; Some Wt; bias; Some Y] X [Some Y]
      [ATensor X; ATensor Wt; AOpt bias; AInt N; AInt C_in; AInt T; AInt H; AInt W; AInt C_out; AInt kT;
        AInt kH; AInt kW; AInt stride_t; AInt stride_h; AInt stride_w; AInt pad_t; AInt pad_h; AInt pad_w;
        AInt dil_t; AInt dil_h; AInt dil_w; AInt groups; ATensor Y]
      (conv3d_forward rt backend X Wt bias N C_in T H W C_out kT kH kW stride_t stride_h stride_w pad_t
        pad_h pad_w dil_t dil_h dil_w groups Y)) /\
  (forall X W_int8 scales bias N C_in T H W C_out kT kH kW stride_t stride_h stride_w pad_t pad_h pad_w
    dil_t dil_h dil_w groups Y,
    obeys rt backend [check_3d (lit "conv3d_int8w_fp16_forward") X (lit "X") N C_in T H W] (lit
      "conv3d_int8w_fp16_forward") [Some X; Some W_int8; Some scales; bias; Some Y] X [Some Y]
      [ATensor X; ATensor W_int8; ATensor scales; AOpt bias; AInt N; AInt C_in; AInt T; AInt H; AInt W;
        AInt C_out; AInt kT; AInt kH; AInt kW; AInt stride_t; AInt stride_h; AInt stride_w; AInt pad_t;
        AInt pad_h; AInt pad_w; AInt dil_t; AInt dil_h; AInt dil_w; AInt groups; ATensor Y]
      (conv3d_int8w_fp16_forward rt backend X W_int8 scales bias N C_in T H W C_out kT kH kW stride_t
        stride_h stride_w pad_t pad_h pad_w dil_t dil_h dil_w groups Y)) /\
  (forall X gamma beta N C H W num_groups eps Y,
    obeys rt backend [check_2d (lit "group_norm_forward") X (lit "X") N C H W] (lit "group_norm_forward")
      [Some X; Some gamma; Some beta; Some Y] X [Some Y]
      [ATensor X; ATensor gamma; ATensor beta; AInt N; AInt C; AInt H; AInt W; AInt num_groups; AFloat eps;
        ATensor Y]
      (group_norm_forward rt backend X gamma beta N C H W num_groups eps Y)) /\
  (forall X gamma dY N C H W num_groups eps dX dGamma dBeta,
    obeys rt backend [check_2d (lit "group_norm_backward") X (lit "X") N C H W; check_2d (lit
      "group_norm_backward") dY (lit "dY") N C H W] (lit "group_norm_backward") [Some X; Some gamma; Some
      dY; Some dX; Some dGamma; Some dBeta] X [Some dX; Some dGamma; Some dBeta]
      [ATensor X; ATensor gamma; ATensor dY; AInt N; AInt C; AInt H; AInt W; AInt num_groups; AFloat eps;
        ATensor dX; ATensor dGamma; ATensor dBeta]
      (group_norm_backward rt backend X gamma dY N C H W num_groups eps dX dGamma dBeta)) /\
  (forall x y,
    obeys rt backend [] (lit "silu_forward") [Some x; Some y] x [Some y]
      [ATensor x; ATensor y]
      (silu_forward rt backend x y)) /\
  (forall x dY dX,
    obeys rt backend [] (lit "silu_backward") [Some x; Some dY; Some dX] x [Some dX]
      [ATensor x; ATensor dY; ATensor dX]
      (silu_backward rt backend x dY dX)) /\
  (forall x y,
    obeys rt backend [] (lit "gelu_forward") [Some x; Some y] x [Some y]
      [ATensor x; ATensor y]
      (gelu_forward rt backend x y)) /\
  (forall x dY dX,
    obeys rt backend [] (lit "gelu_backward") [Some x; Some dY; Some dX] x [Some dX]
      [ATensor x; ATensor dY; ATensor dX]
      (gelu_backward rt backend x dY dX)) /\
  (forall x y,
    obeys rt backend [] (lit "gelu_exact_forward") [Some x; Some y] x [Some y]
      [ATensor x; ATensor y]
      (gelu_exact_forward rt backend x y)) /\
  (forall x dY dX,
    obeys rt backend [] (lit "gelu_exact_backward") [Some x; Some dY; Some dX] x [Some dX]
      [ATensor x; ATensor dY; ATensor dX]
      (gelu_exact_backward rt backend x dY dX)) /\
  (forall x y,
    obeys rt backend [] (lit "quick_gelu_forward") [Some x; Some y] x [Some y]
      [ATensor x; ATensor y]
      (quick_gelu_forward rt backend x y)) /\
  (forall x dY dX,
    obeys rt backend [] (lit "quick_gelu_backward") [Some x; Some dY; Some dX] x [Some dX]
      [ATensor x; ATensor dY; ATensor dX]
      (quick_gelu_backward rt backend x dY dX)) /\
  (forall X N C H W Y,
    obeys rt backend [check_2d (lit "upsample_nearest_2x") X (lit "X") N C H W] (lit "upsample_nearest_2x")
      [Some X; Some Y] X [Some Y]
      [ATensor X; AInt N; AInt C; AInt H; AInt W; ATensor Y]
      (upsample_nearest_2x rt backend X N C H W Y)) /\
  (forall X N C H W Y,
    obeys rt backend [check_2d (lit "upsample_bilinear_2x") X (lit "X") N C H W] (lit
      "upsample_bilinear_2x") [Some X; Some Y] X [Some Y]
      [ATensor X; AInt N; AInt C; AInt H; AInt W; ATensor Y]
      (upsample_bilinear_2x rt backend X N C H W Y)) /\
  (forall X N C H W Y,
    obeys rt backend [check_2d (lit "downsample_avg_2x") X (lit "X") N C H W] (lit "downsample_avg_2x")
      [Some X; Some Y] X [Some Y]
      [ATensor X; AInt N; AInt C; AInt H; AInt W; ATensor Y]
      (downsample_avg_2x rt backend X N C H W Y)) /\
  (forall dY N C H W dX,
    obeys rt backend [when ((N <=? 0) || (C <=? 0) || (H <=? 0) || (W <=? 0))
    (throw_2d (lit "upsample_nearest_2x_backward") dY (lit "dY") N C H W); n1 ← int_of (ival 2 * ival H);
    n2 ← int_of (ival 2 * ival W);
    check_2d (lit "upsample_nearest_2x_backward") dY (lit "dY") N C n1 n2] (lit
      "upsample_nearest_2x_backward") [Some dY; Some dX] dY [Some dX]
      [ATensor dY; AInt N; AInt C; AInt H; AInt W; ATensor dX]
      (upsample_nearest_2x_backward rt backend dY N C H W dX)) /\
  (forall dY N C H W dX,
    obeys rt backend [when ((N <=? 0) || (C <=? 0) || (H <=? 0) || (W <=? 0))
    (throw_2d (lit "upsample_bilinear_2x_backward") dY (lit "dY") N C H W); n1 ← int_of (ival 2 * ival H);
    n2 ← int_of (ival 2 * ival W);
    check_2d (lit "upsample_bilinear_2x_backward") dY (lit "dY") N C n1 n2] (lit
      "upsample_bilinear_2x_backward") [Some dY; Some dX] dY [Some dX]
      [ATensor dY; AInt N; AInt C; AInt H; AInt W; ATensor dX]
      (upsample_bilinear_2x_backward rt backend dY N C H W dX)) /\
  (forall dY N C H W dX,
    obeys rt backend [when ((N <=? 0) || (C <=? 0) || (H <=? 0) || (W <=? 0))
    (throw_2d (lit "downsample_avg_2x_backward") dY (lit "dY") N C H W); when ((Z.rem H 2 =? 0) && (Z.rem W
      2 =? 0))
    (n1 ← int_of (ival H / ival 2);
    n2 ← int_of (ival W / ival 2);
    check_2d (lit "downsample_avg_2x_backward") dY (lit "dY") N C n1 n2)] (lit
      "downsample_avg_2x_backward") [Some dY; Some dX] dY [Some dX]
      [ATensor dY; AInt N; AInt C; AInt H; AInt W; ATensor dX]
      (downsample_avg_2x_backward rt backend dY N C H W dX)) /\
  (forall X N C H_in W_in H_out W_out mode Y,
    obeys rt backend [check_2d (lit "interp2d_forward") X (lit "X") N C H_in W_in] (lit "interp2d_forward")
      [Some X; Some Y] X [Some Y]
      [ATensor X; AInt N; AInt C; AInt H_in; AInt W_in; AInt H_out; AInt W_out; AInt mode; ATensor Y]
      (interp2d_forward rt backend X N C H_in W_in H_out W_out mode Y)) /\
  (forall dY N C H_in W_in H_out W_out mode dX,
    obeys rt backend [when ((N <=? 0) || (C <=? 0) || (H_in <=? 0) || (W_in <=? 0))
    (throw_2d (lit "interp2d_backward") dY (lit "dY") N C H_in W_in); check_2d (lit "interp2d_backward") dY
      (lit "dY") N C H_out W_out] (lit "interp2d_backward") [Some dY; Some dX] dY [Some dX]
      [ATensor dY; AInt N; AInt C; AInt H_in; AInt W_in; AInt H_out; AInt W_out; AInt mode; ATensor dX]
      (interp2d_backward rt backend dY N C H_in W_in H_out W_out mode dX)) /\
  (forall X N C H_in W_in H_out W_out mode Y,
    obeys rt backend [check_2d (lit "interp2d_align_corners_forward") X (lit "X") N C H_in W_in] (lit
      "interp2d_align_corners_forward") [Some X; Some Y] X [Some Y]
      [ATensor X; AInt N; AInt C; AInt H_in; AInt W_in; AInt H_out; AInt W_out; AInt mode; ATensor Y]
      (interp2d_align_corners_forward rt backend X N C H_in W_in H_out W_out mode Y)) /\
  (forall X N C H W pad_top pad_bottom pad_left pad_right mode Y,
    obeys rt backend [check_2d (lit "pad2d_forward") X (lit "X") N C H W] (lit "pad2d_forward") [Some X;
      Some Y] X [Some Y]
      [ATensor X; AInt N; AInt C; AInt H; AInt W; AInt pad_top; AInt pad_bottom; AInt pad_left; AInt
        pad_right; AInt mode; ATensor Y]
      (pad2d_forward rt backend X N C H W pad_top pad_bottom pad_left pad_right mode Y)) /\
  (forall dY N C H W pad_top pad_bottom pad_left pad_right mode dX,
    obeys rt backend [when ((N <=? 0) || (C <=? 0) || (H <=? 0) || (W <=? 0))
    (throw_2d (lit "pad2d_backward") dY (lit "dY") N C H W); H_out ← int_of (ival H + ival pad_top + ival
      pad_bottom);
    W_out ← int_of (ival W + ival pad_left + ival pad_right);
    when ((H_out >? 0) && (W_out >? 0))
    (check_2d (lit "pad2d_backward") dY (lit "dY") N C H_out W_out)] (lit "pad2d_backward") [Some dY; Some
      dX] dY [Some dX]
      [ATensor dY; AInt N; AInt C; AInt H; AInt W; AInt pad_top; AInt pad_bottom; AInt pad_left; AInt
        pad_right; AInt mode; ATensor dX]
      (pad2d_backward rt backend dY N C H W pad_top pad_bottom pad_left pad_right mode dX)) /\
  (forall X N C H W h0 w0 H_out W_out Y,
    obeys rt backend [check_2d (lit "slice2d_forward") X (lit "X") N C H W] (lit "slice2d_forward") [Some
      X; Some Y] X [Some Y]
      [ATensor X; AInt N; AInt C; AInt H; AInt W; AInt h0; AInt w0; AInt H_out; AInt W_out; ATensor Y]
      (slice2d_forward rt backend X N C H W h0 w0 H_out W_out Y)) /\
  (forall dY N C H W h0 w0 H_out W_out dX,
    obeys rt backend [when ((N <=? 0) || (C <=? 0) || (H <=? 0) || (W <=? 0))
    (throw_2d (lit "slice2d_backward") dY (lit "dY") N C H W); when ((H_out >? 0) && (W_out >? 0))
    (check_2d (lit "slice2d_backward") dY (lit "dY") N C H_out W_out)] (lit "slice2d_backward") [Some dY;
      Some dX] dY [Some dX]
      [ATensor dY; AInt N; AInt C; AInt H; AInt W; AInt h0; AInt w0; AInt H_out; AInt W_out; ATensor dX]
      (slice2d_backward rt backend dY N C H W h0 w0 H_out W_out dX)) /\
  (forall X N C H W kH kW stride_h stride_w pad_top pad_bottom pad_left pad_right mode Y,
    obeys rt backend [check_2d (lit "unfold2d_forward") X (lit "X") N C H W] (lit "unfold2d_forward") [Some
      X; Some Y] X [Some Y]
      [ATensor X; AInt N; AInt C; AInt H; AInt W; AInt kH; AInt kW; AInt stride_h; AInt stride_w; AInt
        pad_top; AInt pad_bottom; AInt pad_left; AInt pad_right; AInt mode; ATensor Y]
      (unfold2d_forward rt backend X N C H W kH kW stride_h stride_w pad_top pad_bottom pad_left pad_right
        mode Y)) /\
  (forall X N C H W eps Y,
    obeys rt backend [check_2d (lit "l2_normalize_nchw_forward") X (lit "X") N C H W] (lit
      "l2_normalize_nchw_forward") [Some X; Some Y] X [Some Y]
      [ATensor X; AInt N; AInt C; AInt H; AInt W; AFloat eps; ATensor Y]
      (l2_normalize_nchw_forward rt backend X N C H W eps Y)) /\
  (forall X Mask N C H W scale Y,
    obeys rt backend [check_2d (lit "convex_upsample_forward") X (lit "X") N C H W] (lit
      "convex_upsample_forward") [Some X; Some Mask; Some Y] X [Some Y]
      [ATensor X; ATensor Mask; AInt N; AInt C; AInt H; AInt W; AInt scale; ATensor Y]
      (convex_upsample_forward rt backend X Mask N C H W scale Y)) /\
  (forall X k Vals Idx,
    obeys rt backend [] (lit "top_k_rows") [Some X; Some Vals; Some Idx] X [Some Vals; Some Idx]
      [ATensor X; AInt k; ATensor Vals; ATensor Idx]
      (top_k_rows rt backend X k Vals Idx)) /\
  (forall X N C H W H_out W_out Y,
    obeys rt backend [check_2d (lit "adaptive_avg_pool2d_forward") X (lit "X") N C H W] (lit
      "adaptive_avg_pool2d_forward") [Some X; Some Y] X [Some Y]
      [ATensor X; AInt N; AInt C; AInt H; AInt W; AInt H_out; AInt W_out; ATensor Y]
      (adaptive_avg_pool2d_forward rt backend X N C H W H_out W_out Y)) /\
  (forall dY N C H W H_out W_out dX,
    obeys rt backend [when ((N <=? 0) || (C <=? 0) || (H <=? 0) || (W <=? 0))
    (throw_2d (lit "adaptive_avg_pool2d_backward") dY (lit "dY") N C H W); check_2d (lit
      "adaptive_avg_pool2d_backward") dY (lit "dY") N C H_out W_out] (lit "adaptive_avg_pool2d_backward")
      [Some dY; Some dX] dY [Some dX]
      [ATensor dY; AInt N; AInt C; AInt H; AInt W; AInt H_out; AInt W_out; ATensor dX]
      (adaptive_avg_pool2d_backward rt backend dY N C H W H_out W_out dX)) /\
  (forall X N C H W kH kW stride_h stride_w pad_h pad_w Y Idx,
    obeys rt backend [check_2d (lit "max_pool2d_forward") X (lit "X") N C H W] (lit "max_pool2d_forward")
      [Some X; Some Y; Some Idx] X [Some Y; Some Idx]
      [ATensor X; AInt N; AInt C; AInt H; AInt W; AInt kH; AInt kW; AInt stride_h; AInt stride_w; AInt
        pad_h; AInt pad_w; ATensor Y; ATensor Idx]
      (max_pool2d_forward rt backend X N C H W kH kW stride_h stride_w pad_h pad_w Y Idx)) /\
  (forall dY Idx N C H W H_out W_out dX,
    obeys rt backend [when ((N <=? 0) || (C <=? 0) || (H <=? 0) || (W <=? 0))
    (throw_2d (lit "max_pool2d_backward") dY (lit "dY") N C H W); check_2d (lit "max_pool2d_backward") dY
      (lit "dY") N C H_out W_out] (lit "max_pool2d_backward") [Some dY; Some Idx; Some dX] dY [Some dX]
      [ATensor dY; ATensor Idx; AInt N; AInt C; AInt H; AInt W; AInt H_out; AInt W_out; ATensor dX]
      (max_pool2d_backward rt backend dY Idx N C H W H_out W_out dX)) /\
  (forall X Idx Y,
    obeys rt backend [] (lit "gather_rows") [Some X; Some Idx; Some Y] X [Some Y]
      [ATensor X; ATensor Idx; ATensor Y]
      (gather_rows rt backend X Idx Y)) /\
  (forall dY Idx R dX,
    obeys rt backend [] (lit "scatter_rows_add") [Some dY; Some Idx; Some dX] dY [Some dX]
      [ATensor dY; ATensor Idx; AInt R; ATensor dX]
      (scatter_rows_add rt backend dY Idx R dX)) /\
  (forall Y Idx X,
    obeys rt backend [] (lit "scatter_rows") [Some Y; Some Idx; Some X] Y [Some X]
      [ATensor Y; ATensor Idx; ATensor X]
      (scatter_rows rt backend Y Idx X)) /\
  (forall X Wt bias N C_in H W C_out kH kW stride_h stride_w pad_h pad_w output_padding_h output_padding_w
    dil_h dil_w groups Y,
    obeys rt backend [check_2d (lit "conv_transpose2d_forward") X (lit "X") N C_in H W] (lit
      "conv_transpose2d_forward") [Some X; Some Wt; bias; Some Y] X [Some Y]
      [ATensor X; ATensor Wt; AOpt bias; AInt N; AInt C_in; AInt H; AInt W; AInt C_out; AInt kH; AInt kW;
        AInt stride_h; AInt stride_w; AInt pad_h; AInt pad_w; AInt output_padding_h; AInt output_padding_w;
        AInt dil_h; AInt dil_w; AInt groups; ATensor Y]
      (conv_transpose2d_forward rt backend X Wt bias N C_in H W C_out kH kW stride_h stride_w pad_h pad_w
        output_padding_h output_padding_w dil_h dil_w groups Y)) /\
  (forall Wt dY N C_in H W C_out kH kW stride_h stride_w pad_h pad_w output_padding_h output_padding_w
    dil_h dil_w groups dX,
    obeys rt backend [when ((N <=? 0) || (C_in <=? 0) || (H <=? 0) || (W <=? 0) || (C_out <=? 0))
    (throw_2d (lit "conv_transpose2d_backward_input") dY (lit "dY") N C_in H W)] (lit
      "conv_transpose2d_backward_input") [Some Wt; Some dY; Some dX] Wt [Some dX]
      [ATensor Wt; ATensor dY; AInt N; AInt C_in; AInt H; AInt W; AInt C_out; AInt kH; AInt kW; AInt
        stride_h; AInt stride_w; AInt pad_h; AInt pad_w; AInt output_padding_h; AInt output_padding_w; AInt
        dil_h; AInt dil_w; AInt groups; ATensor dX]
      (conv_transpose2d_backward_input rt backend Wt dY N C_in H W C_out kH kW stride_h stride_w pad_h
        pad_w output_padding_h output_padding_w dil_h dil_w groups dX)) /\
  (forall X dY N C_in H W C_out kH kW stride_h stride_w pad_h pad_w output_padding_h output_padding_w dil_h
    dil_w groups dWt,
    obeys rt backend [check_2d (lit "conv_transpose2d_backward_weight") X (lit "X") N C_in H W] (lit
      "conv_transpose2d_backward_weight") [Some X; Some dY; Some dWt] X [Some dWt]
      [ATensor X; ATensor dY; AInt N; AInt C_in; AInt H; AInt W; AInt C_out; AInt kH; AInt kW; AInt
        stride_h; AInt stride_w; AInt pad_h; AInt pad_w; AInt output_padding_h; AInt output_padding_w; AInt
        dil_h; AInt dil_w; AInt groups; ATensor dWt]
      (conv_transpose2d_backward_weight rt backend X dY N C_in H W C_out kH kW stride_h stride_w pad_h
        pad_w output_padding_h output_padding_w dil_h dil_w groups dWt)) /\
  (forall dY N C_out H_out W_out dB,
    obeys rt backend [check_2d (lit "conv_transpose2d_backward_bias") dY (lit "dY") N C_out H_out W_out]
      (lit "conv_transpose2d_backward_bias") [Some dY; Some dB] dY [Some dB]
      [ATensor dY; AInt N; AInt C_out; AInt H_out; AInt W_out; ATensor dB]
      (conv_transpose2d_backward_bias rt backend dY N C_out H_out W_out dB)) /\
  (forall X N C H W window Y,
    obeys rt backend [check_2d (lit "window_partition_forward") X (lit "X") N C H W] (lit
      "window_partition_forward") [Some X; Some Y] X [Some Y]
      [ATensor X; AInt N; AInt C; AInt H; AInt W; AInt window; ATensor Y]
      (window_partition_forward rt backend X N C H W window Y)) /\
  (forall X N C H W window Y,
    obeys rt backend [when ((N <=? 0) || (C <=? 0) || (H <=? 0) || (W <=? 0))
    (throw_2d (lit "window_reverse_forward") X (lit "X") N C H W); when ((window >? 0) && (Z.rem H window
      =? 0) && (Z.rem W window =? 0))
    (n1 ← int_of (ival N * (ival H / ival window) * (ival W / ival window));
    check_2d (lit "window_reverse_forward") X (lit "X") n1 C window window)] (lit "window_reverse_forward")
      [Some X; Some Y] X [Some Y]
      [ATensor X; AInt N; AInt C; AInt H; AInt W; AInt window; ATensor Y]
      (window_reverse_forward rt backend X N C H W window Y)) /\
  (forall X N C H W Y,
    obeys rt backend [check_2d (lit "nchw_to_sequence") X (lit "X") N C H W] (lit "nchw_to_sequence") [Some
      X; Some Y] X [Some Y]
      [ATensor X; AInt N; AInt C; AInt H; AInt W; ATensor Y]
      (nchw_to_sequence rt backend X N C H W Y)) /\
  (forall X N C H W Y,
    obeys rt backend [when ((N <=? 0) || (C <=? 0) || (H <=? 0) || (W <=? 0))
    (throw_2d (lit "sequence_to_nchw") X (lit "X") N C H W); n1 ← int_of (ival N * ival H * ival W);
    check_1d (lit "sequence_to_nchw") X (lit "X") n1 C 1] (lit "sequence_to_nchw") [Some X; Some Y] X [Some
      Y]
      [ATensor X; AInt N; AInt C; AInt H; AInt W; ATensor Y]
      (sequence_to_nchw rt backend X N C H W Y)) /\
  (forall X N C H W channel_major Y,
    obeys rt backend [check_2d (lit "spatial_merge_2x2_forward") X (lit "X") N C H W] (lit
      "spatial_merge_2x2_forward") [Some X; Some Y] X [Some Y]
      [ATensor X; AInt N; AInt C; AInt H; AInt W; ABool channel_major; ATensor Y]
      (spatial_merge_2x2_forward rt backend X N C H W channel_major Y)) /\
  (forall X N C_in H W C_out Y,
    obeys rt backend [when ((N >? 0) && (C_in >? 0) && (H >? 0) && (W >? 0))
    (check_2d (lit "pixel_shuffle_upsample_2x_forward") X (lit "X") N C_in H W)] (lit
      "pixel_shuffle_upsample_2x_forward") [Some X; Some Y] X [Some Y]
      [ATensor X; AInt N; AInt C_in; AInt H; AInt W; AInt C_out; ATensor Y]
      (pixel_shuffle_upsample_2x_forward rt backend X N C_in H W C_out Y)) /\
  (forall tokens hp wp P C_total C_keep channel_major Y,
    obeys rt backend [] (lit "patch_unpack_forward") [Some tokens; Some Y] tokens [Some Y]
      [ATensor tokens; AInt hp; AInt wp; AInt P; AInt C_total; AInt C_keep; ABool channel_major; ATensor Y]
      (patch_unpack_forward rt backend tokens hp wp P C_total C_keep channel_major Y)) /\
  (forall X gamma1 beta1 W1 b1 t_emb_shift gamma2 beta2 W2 b2 Wskip bskip N C_in C_out H W num_groups eps Y,
    obeys rt backend [check_2d (lit "resblock_forward") X (lit "X") N C_in H W] (lit "resblock_forward")
      [Some X; Some gamma1; Some beta1; Some W1; b1; t_emb_shift; Some gamma2; Some beta2; Some W2; b2;
      Wskip; bskip; Some Y] X [Some Y]
      [ATensor X; ATensor gamma1; ATensor beta1; ATensor W1; AOpt b1; AOpt t_emb_shift; ATensor gamma2;
        ATensor beta2; ATensor W2; AOpt b2; AOpt Wskip; AOpt bskip; AInt N; AInt C_in; AInt C_out; AInt H;
        AInt W; AInt num_groups; AFloat eps; ATensor Y]
      (resblock_forward rt backend X gamma1 beta1 W1 b1 t_emb_shift gamma2 beta2 W2 b2 Wskip bskip N C_in
        C_out H W num_groups eps Y)) /\
  (forall X gamma1 beta1 W1_int8 s1 b1 t_emb_shift gamma2 beta2 W2_int8 s2 b2 Wskip_int8 sskip bskip N C_in
    C_out H W num_groups eps Y,
    obeys rt backend [check_2d (lit "resblock_forward_int8w_fp16") X (lit "X") N C_in H W] (lit
      "resblock_forward_int8w_fp16") [Some X; Some gamma1; Some beta1; Some W1_int8; Some s1; b1;
      t_emb_shift; Some gamma2; Some beta2; Some W2_int8; Some s2; b2; Wskip_int8; sskip; bskip; Some Y] X
      [Some Y]
      [ATensor X; ATensor gamma1; ATensor beta1; ATensor W1_int8; ATensor s1; AOpt b1; AOpt t_emb_shift;
        ATensor gamma2; ATensor beta2; ATensor W2_int8; ATensor s2; AOpt b2; AOpt Wskip_int8; AOpt sskip;
        AOpt bskip; AInt N; AInt C_in; AInt C_out; AInt H; AInt W; AInt num_groups; AFloat eps; ATensor Y]
      (resblock_forward_int8w_fp16 rt backend X gamma1 beta1 W1_int8 s1 b1 t_emb_shift gamma2 beta2 W2_int8
        s2 b2 Wskip_int8 sskip bskip N C_in C_out H W num_groups eps Y)) /\
  (forall X gamma1 beta1 W1 b1 t_emb_shift gamma2 beta2 W2 b2 Wskip bskip N C_in C_out H W num_groups eps
    dY dX dGamma1 dBeta1 dW1 db1 dt_emb_shift dGamma2 dBeta2 dW2 db2 dWskip dbskip,
    obeys rt backend [check_2d (lit "resblock_backward") X (lit "X") N C_in H W; check_2d (lit
      "resblock_backward") dY (lit "dY") N C_out H W] (lit "resblock_backward") [Some X; Some gamma1; Some
      beta1; Some W1; b1; t_emb_shift; Some gamma2; Some beta2; Some W2; b2; Wskip; bskip; Some dY; Some
      dX; Some dGamma1; Some dBeta1; Some dW1; db1; dt_emb_shift; Some dGamma2; Some dBeta2; Some dW2; db2;
      dWskip; dbskip] X [Some dX; Some dGamma1; Some dBeta1; Some dW1; db1; dt_emb_shift; Some dGamma2;
      Some dBeta2; Some dW2; db2; dWskip; dbskip]
      [ATensor X; ATensor gamma1; ATensor beta1; ATensor W1; AOpt b1; AOpt t_emb_shift; ATensor gamma2;
        ATensor beta2; ATensor W2; AOpt b2; AOpt Wskip; AOpt bskip; AInt N; AInt C_in; AInt C_out; AInt H;
        AInt W; AInt num_groups; AFloat eps; ATensor dY; ATensor dX; ATensor dGamma1; ATensor dBeta1;
        ATensor dW1; AOpt db1; AOpt dt_emb_shift; ATensor dGamma2; ATensor dBeta2; ATensor dW2; AOpt db2;
        AOpt dWskip; AOpt dbskip]
      (resblock_backward rt backend X gamma1 beta1 W1 b1 t_emb_shift gamma2 beta2 W2 b2 Wskip bskip N C_in
        C_out H W num_groups eps dY dX dGamma1 dBeta1 dW1 db1 dt_emb_shift dGamma2 dBeta2 dW2 db2 dWskip
        dbskip)) /\
  (forall X gamma beta running_mean running_var N C H W eps momentum Y saved_mean saved_rstd,
    obeys rt backend [check_2d (lit "batch_norm_forward") X (lit "X") N C H W] (lit "batch_norm_forward")
      [Some X; Some gamma; Some beta; Some running_mean; Some running_var; Some Y; Some saved_mean; Some
      saved_rstd] X [Some running_mean; Some running_var; Some Y; Some saved_mean; Some saved_rstd]
      [ATensor X; ATensor gamma; ATensor beta; ATensor running_mean; ATensor running_var; AInt N; AInt C;
        AInt H; AInt W; AFloat eps; AFloat momentum; ATensor Y; ATensor saved_mean; ATensor saved_rstd]
      (batch_norm_forward rt backend X gamma beta running_mean running_var N C H W eps momentum Y
        saved_mean saved_rstd)) /\
  (forall X gamma beta running_mean running_var N C H W eps Y,
    obeys rt backend [check_2d (lit "batch_norm_inference") X (lit "X") N C H W] (lit
      "batch_norm_inference") [Some X; Some gamma; Some beta; Some running_mean; Some running_var; Some Y]
      X [Some Y]
      [ATensor X; ATensor gamma; ATensor beta; ATensor running_mean; ATensor running_var; AInt N; AInt C;
        AInt H; AInt W; AFloat eps; ATensor Y]
      (batch_norm_inference rt backend X gamma beta running_mean running_var N C H W eps Y)) /\
  (forall X gamma saved_mean saved_rstd dY N C H W dX dGamma dBeta,
    obeys rt backend [check_2d (lit "batch_norm_backward") X (lit "X") N C H W; check_2d (lit
      "batch_norm_backward") dY (lit "dY") N C H W] (lit "batch_norm_backward") [Some X; Some gamma; Some
      saved_mean; Some saved_rstd; Some dY; Some dX; Some dGamma; Some dBeta] X [Some dX; Some dGamma; Some
      dBeta]
      [ATensor X; ATensor gamma; ATensor saved_mean; ATensor saved_rstd; ATensor dY; AInt N; AInt C; AInt
        H; AInt W; ATensor dX; ATensor dGamma; ATensor dBeta]
      (batch_norm_backward rt backend X gamma saved_mean saved_rstd dY N C H W dX dGamma dBeta)) /\
  (forall X mean std_ N C H W Y,
    obeys rt backend [check_2d (lit "image_normalize") X (lit "X") N C H W] (lit "image_normalize") [Some
      X; Some mean; Some std_; Some Y] X [Some Y]
      [ATensor X; ATensor mean; ATensor std_; AInt N; AInt C; AInt H; AInt W; ATensor Y]
      (image_normalize rt backend X mean std_ N C H W Y)) /\
  (forall src N H W C scale bias Y,
    obeys rt backend [] (lit "image_u8_to_f32_nhwc_to_nchw") [Some Y] Y [Some Y]
      [APtr src; AInt N; AInt H; AInt W; AInt C; AFloat scale; AFloat bias; ATensor Y]
      (image_u8_to_f32_nhwc_to_nchw rt backend src N H W C scale bias Y)) /\
  (forall X b N C HW act alpha gain clamp Y,
    obeys rt backend [check_1d (lit "bias_act_forward") X (lit "X") N C HW] (lit "bias_act_forward") [Some
      X; b; Some Y] X [Some Y]
      [ATensor X; AOpt b; AInt N; AInt C; AInt HW; AInt act; AFloat alpha; AFloat gain; AFloat clamp;
        ATensor Y]
      (bias_act_forward rt backend X b N C HW act alpha gain clamp Y)) /\
  (forall dY X b N C HW act alpha gain clamp dX dB,
    obeys rt backend [check_1d (lit "bias_act_backward") dY (lit "dY") N C HW; check_1d (lit
      "bias_act_backward") X (lit "X") N C HW] (lit "bias_act_backward") [Some dY; Some X; b; dB; Some dX]
      dY [Some dX; dB]
      [ATensor dY; ATensor X; AOpt b; AInt N; AInt C; AInt HW; AInt act; AFloat alpha; AFloat gain; AFloat
        clamp; ATensor dX; AOpt dB]
      (bias_act_backward rt backend dY X b N C HW act alpha gain clamp dX dB)) /\
  (forall X f N C H Wd fH fW up_x up_y down_x down_y pad_x0 pad_x1 pad_y0 pad_y1 flip_filter gain Y,
    obeys rt backend [check_2d (lit "upfirdn2d_forward") X (lit "X") N C H Wd] (lit "upfirdn2d_forward")
      [Some X; Some f; Some Y] X [Some Y]
      [ATensor X; ATensor f; AInt N; AInt C; AInt H; AInt Wd; AInt fH; AInt fW; AInt up_x; AInt up_y; AInt
        down_x; AInt down_y; AInt pad_x0; AInt pad_x1; AInt pad_y0; AInt pad_y1; ABool flip_filter; AFloat
        gain; ATensor Y]
      (upfirdn2d_forward rt backend X f N C H Wd fH fW up_x up_y down_x down_y pad_x0 pad_x1 pad_y0 pad_y1
        flip_filter gain Y)) /\
  (forall dY f N C H Wd fH fW up_x up_y down_x down_y pad_x0 pad_x1 pad_y0 pad_y1 flip_filter gain dX,
    obeys rt backend [when ((N <=? 0) || (C <=? 0) || (H <=? 0) || (Wd <=? 0))
    (throw_2d (lit "upfirdn2d_backward") dY (lit "dY") N C H Wd)] (lit "upfirdn2d_backward") [Some dY; Some
      f; Some dX] dY [Some dX]
      [ATensor dY; ATensor f; AInt N; AInt C; AInt H; AInt Wd; AInt fH; AInt fW; AInt up_x; AInt up_y; AInt
        down_x; AInt down_y; AInt pad_x0; AInt pad_x1; AInt pad_y0; AInt pad_y1; ABool flip_filter; AFloat
        gain; ATensor dX]
      (upfirdn2d_backward rt backend dY f N C H Wd fH fW up_x up_y down_x down_y pad_x0 pad_x1 pad_y0
        pad_y1 flip_filter gain dX)) /\
  (forall X W s N C_in H Wd C_out kH kW pad_h pad_w demodulate eps dcoef Y,
    obeys rt backend [check_2d (lit "modulated_conv2d_forward") X (lit "X") N C_in H Wd] (lit
      "modulated_conv2d_forward") [Some X; Some W; Some s; Some dcoef; Some Y] X [Some dcoef; Some Y]
      [ATensor X; ATensor W; ATensor s; AInt N; AInt C_in; AInt H; AInt Wd; AInt C_out; AInt kH; AInt kW;
        AInt pad_h; AInt pad_w; ABool demodulate; AFloat eps; ATensor dcoef; ATensor Y]
      (modulated_conv2d_forward rt backend X W s N C_in H Wd C_out kH kW pad_h pad_w demodulate eps dcoef
        Y)) /\
  (forall X W s dcoef dY N C_in H Wd C_out kH kW pad_h pad_w demodulate eps dX dW ds,
    obeys rt backend [check_2d (lit "modulated_conv2d_backward") X (lit "X") N C_in H Wd; when ((kH >? 0)
      && (kW >? 0))
    (H_out ← int_of (ival H + ival 2 * ival pad_h - (ival kH - ival 1));
    W_out ← int_of (ival Wd + ival 2 * ival pad_w - (ival kW - ival 1));
    when ((H_out >? 0) && (W_out >? 0))
    (check_2d (lit "modulated_conv2d_backward") dY (lit "dY") N C_out H_out W_out))] (lit
      "modulated_conv2d_backward") [Some X; Some W; Some s; Some dcoef; Some dY; Some dX; Some dW; Some ds]
      X [Some dX; Some dW; Some ds]
      [ATensor X; ATensor W; ATensor s; ATensor dcoef; ATensor dY; AInt N; AInt C_in; AInt H; AInt Wd; AInt
        C_out; AInt kH; AInt kW; AInt pad_h; AInt pad_w; ABool demodulate; AFloat eps; ATensor dX; ATensor
        dW; ATensor ds]
      (modulated_conv2d_backward rt backend X W s dcoef dY N C_in H Wd C_out kH kW pad_h pad_w demodulate
        eps dX dW ds)).

Lemma ops_spatial_obey rt backend : ops_spatial_contract rt backend.
Proof. unfold ops_spatial_contract. repeat split_and; intros; wrapper. Qed.
