(* ===== verification/OpsAttention.v ===== *)
(** * Public ops: attention, matmul, LSTM, RoPE, norms, reductions

    The wrappers of src/ops_attention.cpp and their contract. *)
From S2P Require Import Prelude Dtype Device Heap Runtime OpWrap.

Section Wrappers.
Context (rt : runtime) (backend : positive -> list arg -> op Z).

(** The guard [grid_h <= 0 || grid_w <= 0 || X.rows != grid_h * grid_w]. *)
Definition check_grid (name : str) (t : ref) (tensor : str) (h w : Z) : op unit :=
  o ← look t;
  bad ← (if (h <=? 0) || (w <=? 0) then mret true
         else n ← int_of (ival h * ival w); mret (negb (Dispatch.op_rows o =? n)));
  when bad (n ← int_of (ival h * ival w); throw_2d name t tensor n (Dispatch.op_cols o) h w).

#[local] Instance read_only_grid name t x h w : ReadOnly (check_grid name t x h w) := _.

Definition linear_forward_batched_fp16 (W : ref) (bias : option ref) (X_BD Y_BD : ref) : op Z :=
  vt ← dispatch_with_opts2 rt W X_BD [bias; Some Y_BD];
  impl ← slot vt (lit "linear_forward_batched_fp16") W;
  _ ← adopt_output rt Y_BD W;
  backend impl [ATensor W; AOpt bias; ATensor X_BD; ATensor Y_BD].

Definition linear_forward_batched_fp16_act (W : ref) (bias : option ref) (X_BD : ref) (act : Z) (Y_BD :
  ref) : op Z :=
  vt ← dispatch_with_opts2 rt W X_BD [bias; Some Y_BD];
  impl ← slot vt (lit "linear_forward_batched_fp16_act") W;
  _ ← adopt_output rt Y_BD W;
  backend impl [ATensor W; AOpt bias; ATensor X_BD; AInt act; ATensor Y_BD].

Definition linear_forward_batched_ex (W : ref) (bias : option ref) (X_BD : ref) (act epilogue : Z)
  (workspace : option ref) (Y_BD : ref) : op Z :=
  vt ← dispatch_with_opts2 rt W X_BD [bias; Some Y_BD; workspace];
  impl ← slot vt (lit "linear_forward_batched_ex") W;
  _ ← adopt_output rt Y_BD W;
  _ ← adopt_opt rt workspace W;
  backend impl [ATensor W; AOpt bias; ATensor X_BD; AInt act; AInt epilogue; AOpt workspace; ATensor Y_BD].

Definition geglu_forward (X Y : ref) : op Z :=
  vt ← dispatch rt [X; Y];
  impl ← slot vt (lit "geglu_forward") X;
  _ ← adopt_output rt Y X;
  backend impl [ATensor X; ATensor Y].

Definition geglu_backward (X dY dX : ref) : op Z :=
  vt ← dispatch rt [X; dY; dX];
  impl ← slot vt (lit "geglu_backward") X;
  _ ← adopt_output rt dX X;
  backend impl [ATensor X; ATensor dY; ATensor dX].

Definition geglu_exact_forward (X Y : ref) : op Z :=
  vt ← dispatch rt [X; Y];
  impl ← slot vt (lit "geglu_exact_forward") X;
  _ ← adopt_output rt Y X;
  backend impl [ATensor X; ATensor Y].

Definition geglu_exact_backward (X dY dX : ref) : op Z :=
  vt ← dispatch rt [X; dY; dX];
  impl ← slot vt (lit "geglu_exact_backward") X;
  _ ← adopt_output rt dX X;
  backend impl [ATensor X; ATensor dY; ATensor dX].

Definition build_causal_mask_row (L q : Z) (mask : ref) : op Z :=
  vt ← dispatch rt [mask];
  impl ← slot vt (lit "build_causal_mask_row") mask;
  _ ← adopt_output rt mask mask;
  backend impl [AInt L; AInt q; ATensor mask].

Definition cross_attention_forward (X Ctx Wq Wk Wv Wo : ref) (d_mask : ptr) (num_heads : Z) (O : ref) : op
  Z :=
  vt ← dispatch rt [X; Ctx; Wq; Wk; Wv; Wo; O];
  impl ← slot vt (lit "cross_attention_forward") X;
  _ ← adopt_output rt O X;
  backend impl [ATensor X; ATensor Ctx; ATensor Wq; ATensor Wk; ATensor Wv; ATensor Wo; APtr d_mask; AInt
    num_heads; ATensor O].

Definition cross_attention_forward_with_attn (X Ctx Wq Wk Wv Wo : ref) (d_mask : ptr) (attn_logit_bias :
  option ref) (num_heads : Z) (O AttnAvg : ref) : op Z :=
  vt ← dispatch_with_opts2 rt X Ctx [Some Wq; Some Wk; Some Wv; Some Wo; attn_logit_bias; Some O; Some
    AttnAvg];
  impl ← slot vt (lit "cross_attention_forward_with_attn") X;
  _ ← adopt_output rt O X;
  _ ← adopt_output rt AttnAvg X;
  backend impl [ATensor X; ATensor Ctx; ATensor Wq; ATensor Wk; ATensor Wv; ATensor Wo; APtr d_mask; AOpt
    attn_logit_bias; AInt num_heads; ATensor O; ATensor AttnAvg].

Definition self_attention_forward_train (X Wq Wk Wv Wo : ref) (d_mask : ptr) (num_heads : Z) (Qh Kh Vh
  Attnh Yconcat O : ref) : op Z :=
  vt ← dispatch_with_opts2 rt X Wq [Some Wk; Some Wv; Some Wo; Some Qh; Some Kh; Some Vh; Some Attnh; Some
    Yconcat; Some O];
  impl ← slot vt (lit "self_attention_forward_train") X;
  _ ← adopt_output rt Qh X;
  _ ← adopt_output rt Kh X;
  _ ← adopt_output rt Vh X;
  _ ← adopt_output rt Attnh X;
  _ ← adopt_output rt Yconcat X;
  _ ← adopt_output rt O X;
  backend impl [ATensor X; ATensor Wq; ATensor Wk; ATensor Wv; ATensor Wo; APtr d_mask; AInt num_heads;
    ATensor Qh; ATensor Kh; ATensor Vh; ATensor Attnh; ATensor Yconcat; ATensor O].

Definition self_attention_backward (dO X Qh Kh Vh Attnh Yconcat Wq Wk Wv Wo : ref) (d_mask : ptr)
  (num_heads : Z) (dX dWq dWk dWv dWo : ref) : op Z :=
  vt ← dispatch_with_opts2 rt dO X [Some Qh; Some Kh; Some Vh; Some Attnh; Some Yconcat; Some Wq; Some Wk;
    Some Wv; Some Wo; Some dX; Some dWq; Some dWk; Some dWv; Some dWo];
  impl ← slot vt (lit "self_attention_backward") dO;
  _ ← adopt_output rt dX dO;
  _ ← adopt_output rt dWq dO;
  _ ← adopt_output rt dWk dO;
  _ ← adopt_output rt dWv dO;
  _ ← adopt_output rt dWo dO;
  backend impl [ATensor dO; ATensor X; ATensor Qh; ATensor Kh; ATensor Vh; ATensor Attnh; ATensor Yconcat;
    ATensor Wq; ATensor Wk; ATensor Wv; ATensor Wo; APtr d_mask; AInt num_heads; ATensor dX; ATensor dWq;
    ATensor dWk; ATensor dWv; ATensor dWo].

Definition attention_token_moments (Attn : ref) (h_lat w_lat : Z) (mass centroid : ref) : op Z :=
  _ ← check_grid (lit "attention_token_moments") Attn (lit "Attn") h_lat w_lat;
  vt ← dispatch rt [Attn; mass; centroid];
  impl ← slot vt (lit "attention_token_moments") Attn;
  _ ← adopt_output rt mass Attn;
  _ ← adopt_output rt centroid Attn;
  backend impl [ATensor Attn; AInt h_lat; AInt w_lat; ATensor mass; ATensor centroid].

Definition cross_attention_forward_train (X Ctx Wq Wk Wv Wo : ref) (d_mask : ptr) (num_heads : Z) (Qh Kh Vh
  Attnh Yconcat O : ref) : op Z :=
  vt ← dispatch_with_opts2 rt X Ctx [Some Wq; Some Wk; Some Wv; Some Wo; Some Qh; Some Kh; Some Vh; Some
    Attnh; Some Yconcat; Some O];
  impl ← slot vt (lit "cross_attention_forward_train") X;
  _ ← adopt_output rt Qh X;
  _ ← adopt_output rt Kh X;
  _ ← adopt_output rt Vh X;
  _ ← adopt_output rt Attnh X;
  _ ← adopt_output rt Yconcat X;
  _ ← adopt_output rt O X;
  backend impl [ATensor X; ATensor Ctx; ATensor Wq; ATensor Wk; ATensor Wv; ATensor Wo; APtr d_mask; AInt
    num_heads; ATensor Qh; ATensor Kh; ATensor Vh; ATensor Attnh; ATensor Yconcat; ATensor O].

Definition cross_attention_backward (dO X Ctx Qh Kh Vh Attnh Yconcat Wq Wk Wv Wo : ref) (d_mask : ptr)
  (num_heads : Z) (dX dCtx dWq dWk dWv dWo : ref) : op Z :=
  vt ← dispatch_with_opts2 rt dO X [Some Ctx; Some Qh; Some Kh; Some Vh; Some Attnh; Some Yconcat; Some Wq;
    Some Wk; Some Wv; Some Wo; Some dX; Some dCtx; Some dWq; Some dWk; Some dWv; Some dWo];
  impl ← slot vt (lit "cross_attention_backward") dO;
  _ ← adopt_output rt dX dO;
  _ ← adopt_output rt dCtx dO;
  _ ← adopt_output rt dWq dO;
  _ ← adopt_output rt dWk dO;
  _ ← adopt_output rt dWv dO;
  _ ← adopt_output rt dWo dO;
  backend impl [ATensor dO; ATensor X; ATensor Ctx; ATensor Qh; ATensor Kh; ATensor Vh; ATensor Attnh;
    ATensor Yconcat; ATensor Wq; ATensor Wk; ATensor Wv; ATensor Wo; APtr d_mask; AInt num_heads; ATensor
    dX; ATensor dCtx; ATensor dWq; ATensor dWk; ATensor dWv; ATensor dWo].

Definition layernorm_forward_inference_batched_fp16 (X_RD gamma beta Y_RD : ref) (eps : Z) : op Z :=
  vt ← dispatch rt [X_RD; gamma; beta; Y_RD];
  impl ← slot vt (lit "layernorm_forward_inference_batched_fp16") X_RD;
  _ ← adopt_output rt Y_RD X_RD;
  backend impl [ATensor X_RD; ATensor gamma; AOpt (Some beta); ATensor Y_RD; AFloat eps].

Definition layernorm_forward_inference_batched_fp162 (X_RD gamma Y_RD : ref) (eps : Z) : op Z :=
  vt ← dispatch rt [X_RD; gamma; Y_RD];
  impl ← slot vt (lit "layernorm_forward_inference_batched_fp16") X_RD;
  _ ← adopt_output rt Y_RD X_RD;
  backend impl [ATensor X_RD; ATensor gamma; AOpt None; ATensor Y_RD; AFloat eps].

Definition self_attention_forward (X Wq Wk Wv Wo : ref) (d_mask : ptr) (num_heads : Z) (O : ref) : op Z :=
  vt ← dispatch rt [X; Wq; Wk; Wv; Wo; O];
  impl ← slot vt (lit "self_attention_forward") X;
  _ ← adopt_output rt O X;
  backend impl [ATensor X; ATensor Wq; ATensor Wk; ATensor Wv; ATensor Wo; APtr d_mask; AInt num_heads;
    ATensor O].

Definition self_attention_bias_forward (X Wq Wk Wv Wo : ref) (bq bk bv bo : option ref) (d_mask : ptr)
  (attn_bias : option ref) (num_heads scale : Z) (O : ref) : op Z :=
  vt ← dispatch_with_opts2 rt X Wq [Some Wk; Some Wv; Some Wo; bq; bk; bv; bo; attn_bias; Some O];
  impl ← slot vt (lit "self_attention_bias_forward") X;
  _ ← adopt_output rt O X;
  backend impl [ATensor X; ATensor Wq; ATensor Wk; ATensor Wv; ATensor Wo; AOpt bq; AOpt bk; AOpt bv; AOpt
    bo; APtr d_mask; AOpt attn_bias; AInt num_heads; AFloat scale; ATensor O].

Definition rel_pos_bias_xl_forward (Qv Pk : ref) (num_heads head_dim : Z) (Bias : ref) : op Z :=
  vt ← dispatch_with_opts2 rt Qv Pk [Some Bias];
  impl ← slot vt (lit "rel_pos_bias_xl_forward") Qv;
  _ ← adopt_output rt Bias Qv;
  backend impl [ATensor Qv; ATensor Pk; AInt num_heads; AInt head_dim; ATensor Bias].

Definition self_attention_decomposed_rel_pos_forward (X Wq : ref) (bq : option ref) (Wk : ref) (bk : option
  ref) (Wv : ref) (bv : option ref) (Wo : ref) (bo : option ref) (rel_pos_h rel_pos_w : ref) (num_heads
  grid_h grid_w scale : Z) (O : ref) : op Z :=
  _ ← check_grid (lit "self_attention_decomposed_rel_pos_forward") X (lit "X") grid_h grid_w;
  vt ← dispatch_with_opts2 rt X Wq [bq; Some Wk; bk; Some Wv; bv; Some Wo; bo; Some rel_pos_h; Some
    rel_pos_w; Some O];
  impl ← slot vt (lit "self_attention_decomposed_rel_pos_forward") X;
  _ ← adopt_output rt O X;
  backend impl [ATensor X; ATensor Wq; AOpt bq; ATensor Wk; AOpt bk; ATensor Wv; AOpt bv; ATensor Wo; AOpt
    bo; ATensor rel_pos_h; ATensor rel_pos_w; AInt num_heads; AInt grid_h; AInt grid_w; AFloat scale;
    ATensor O].

Definition self_attention_decomposed_rel_pos_windowed_forward (X Wq : ref) (bq : option ref) (Wk : ref) (bk
  : option ref) (Wv : ref) (bv : option ref) (Wo : ref) (bo : option ref) (rel_pos_h rel_pos_w : ref)
  (num_heads grid_h grid_w window scale : Z) (O : ref) : op Z :=
  _ ← check_grid (lit "self_attention_decomposed_rel_pos_windowed_forward") X (lit "X") grid_h grid_w;
  vt ← dispatch_with_opts2 rt X Wq [bq; Some Wk; bk; Some Wv; bv; Some Wo; bo; Some rel_pos_h; Some
    rel_pos_w; Some O];
  impl ← slot vt (lit "self_attention_decomposed_rel_pos_windowed_forward") X;
  _ ← adopt_output rt O X;
  backend impl [ATensor X; ATensor Wq; AOpt bq; ATensor Wk; AOpt bk; ATensor Wv; AOpt bv; ATensor Wo; AOpt
    bo; ATensor rel_pos_h; ATensor rel_pos_w; AInt num_heads; AInt grid_h; AInt grid_w; AInt window; AFloat
    scale; ATensor O].

Definition self_attention_bias_int8w_fp16 (X Wq_int8 sq Wk_int8 sk Wv_int8 sv Wo_int8 so : ref) (d_mask :
  ptr) (attn_bias : option ref) (num_heads scale : Z) (O : ref) : op Z :=
  vt ← dispatch_with_opts2 rt X Wq_int8 [Some sq; Some Wk_int8; Some sk; Some Wv_int8; Some sv; Some
    Wo_int8; Some so; attn_bias; Some O];
  impl ← slot vt (lit "self_attention_bias_int8w_fp16") X;
  _ ← adopt_output rt O X;
  backend impl [ATensor X; ATensor Wq_int8; ATensor sq; ATensor Wk_int8; ATensor sk; ATensor Wv_int8;
    ATensor sv; ATensor Wo_int8; ATensor so; APtr d_mask; AOpt attn_bias; AInt num_heads; AFloat scale;
    ATensor O].

Definition flash_attention_forward (Q K V : ref) (d_mask : ptr) (num_heads : Z) (causal : bool) (O : ref) :
  op Z :=
  vt ← dispatch rt [Q; K; V; O];
  impl ← slot vt (lit "flash_attention_forward") Q;
  _ ← adopt_output rt O Q;
  backend impl [ATensor Q; ATensor K; ATensor V; APtr d_mask; AInt num_heads; ABool causal; ATensor O].

Definition flash_attention_gqa_forward (Q K V : ref) (d_mask : ptr) (num_q_heads num_kv_heads : Z) (causal
  : bool) (O : ref) : op Z :=
  vt ← dispatch rt [Q; K; V; O];
  impl ← slot vt (lit "flash_attention_gqa_forward") Q;
  _ ← adopt_output rt O Q;
  backend impl [ATensor Q; ATensor K; ATensor V; APtr d_mask; AInt num_q_heads; AInt num_kv_heads; ABool
    causal; ATensor O].

Definition flash_attention_windowed_forward (Q K V : ref) (d_mask : ptr) (num_heads window : Z) (O : ref)
  (causal : bool) : op Z :=
  vt ← dispatch rt [Q; K; V; O];
  impl ← slot vt (lit "flash_attention_windowed_forward") Q;
  _ ← adopt_output rt O Q;
  backend impl [ATensor Q; ATensor K; ATensor V; APtr d_mask; AInt num_heads; AInt window; ATensor O; ABool
    causal].

Definition flash_attention_varlen_forward (Q K V : ref) (cu_seqlens_q cu_seqlens_k : ptr) (batch_size
  max_seqlen_q max_seqlen_k num_heads head_dim : Z) (causal : bool) (O : ref) : op Z :=
  vt ← dispatch rt [Q; K; V; O];
  impl ← slot vt (lit "flash_attention_varlen_forward") Q;
  _ ← adopt_output rt O Q;
  backend impl [ATensor Q; ATensor K; ATensor V; APtr cu_seqlens_q; APtr cu_seqlens_k; AInt batch_size;
    AInt max_seqlen_q; AInt max_seqlen_k; AInt num_heads; AInt head_dim; ABool causal; ATensor O].

Definition flash_attention_varlen_backward (Q K V O dO : ref) (cu_seqlens_q cu_seqlens_k : ptr) (batch_size
  max_seqlen_q max_seqlen_k num_heads head_dim : Z) (causal : bool) (dQ dK dV : ref) : op Z :=
  vt ← dispatch rt [Q; K; V; O; dO; dQ; dK; dV];
  impl ← slot vt (lit "flash_attention_varlen_backward") Q;
  _ ← adopt_output rt dQ Q;
  _ ← adopt_output rt dK Q;
  _ ← adopt_output rt dV Q;
  backend impl [ATensor Q; ATensor K; ATensor V; ATensor O; ATensor dO; APtr cu_seqlens_q; APtr
    cu_seqlens_k; AInt batch_size; AInt max_seqlen_q; AInt max_seqlen_k; AInt num_heads; AInt head_dim;
    ABool causal; ATensor dQ; ATensor dK; ATensor dV].

Definition flash_attention_qkvo_forward (X : ref) (Ctx : option ref) (Wq : ref) (bq : option ref) (Wk :
  ref) (bk : option ref) (Wv : ref) (bv : option ref) (Wo : ref) (bo : option ref) (d_mask : ptr)
  (num_heads : Z) (causal : bool) (O : ref) : op Z :=
  vt ← dispatch_with_opts2 rt X Wq [Ctx; bq; Some Wk; bk; Some Wv; bv; Some Wo; bo; Some O];
  impl ← slot vt (lit "flash_attention_qkvo_forward") X;
  _ ← adopt_output rt O X;
  backend impl [ATensor X; AOpt Ctx; ATensor Wq; AOpt bq; ATensor Wk; AOpt bk; ATensor Wv; AOpt bv; ATensor
    Wo; AOpt bo; APtr d_mask; AInt num_heads; ABool causal; ATensor O].

Definition flash_attention_qkvo_backward (X : ref) (Ctx : option ref) (Wq : ref) (bq : option ref) (Wk :
  ref) (bk : option ref) (Wv : ref) (bv : option ref) (Wo : ref) (bo : option ref) (d_mask : ptr)
  (num_heads : Z) (causal : bool) (dO dX : ref) (dCtx : option ref) (dWq : ref) (dbq : option ref) (dWk :
  ref) (dbk : option ref) (dWv : ref) (dbv : option ref) (dWo : ref) (dbo : option ref) : op Z :=
  vt ← dispatch_with_opts2 rt X Wq [Ctx; bq; Some Wk; bk; Some Wv; bv; Some Wo; bo; Some dO; Some dX; dCtx;
    Some dWq; dbq; Some dWk; dbk; Some dWv; dbv; Some dWo; dbo];
  impl ← slot vt (lit "flash_attention_qkvo_backward") X;
  _ ← adopt_output rt dX X;
  _ ← adopt_opt rt dCtx X;
  _ ← adopt_output rt dWq X;
  _ ← adopt_opt rt dbq X;
  _ ← adopt_output rt dWk X;
  _ ← adopt_opt rt dbk X;
  _ ← adopt_output rt dWv X;
  _ ← adopt_opt rt dbv X;
  _ ← adopt_output rt dWo X;
  _ ← adopt_opt rt dbo X;
  backend impl [ATensor X; AOpt Ctx; ATensor Wq; AOpt bq; ATensor Wk; AOpt bk; ATensor Wv; AOpt bv; ATensor
    Wo; AOpt bo; APtr d_mask; AInt num_heads; ABool causal; ATensor dO; ATensor dX; AOpt dCtx; ATensor dWq;
    AOpt dbq; ATensor dWk; AOpt dbk; ATensor dWv; AOpt dbv; ATensor dWo; AOpt dbo].

Definition flash_attention_backward (Q K V O dO : ref) (d_mask : ptr) (num_heads : Z) (causal : bool) (dQ
  dK dV : ref) : op Z :=
  vt ← dispatch rt [Q; K; V; O; dO; dQ; dK; dV];
  impl ← slot vt (lit "flash_attention_backward") Q;
  _ ← adopt_output rt dQ Q;
  _ ← adopt_output rt dK Q;
  _ ← adopt_output rt dV Q;
  backend impl [ATensor Q; ATensor K; ATensor V; ATensor O; ATensor dO; APtr d_mask; AInt num_heads; ABool
    causal; ATensor dQ; ATensor dK; ATensor dV].

Definition flash_attention_project_kv (ctx Wk : ref) (bk : option ref) (Wv : ref) (bv : option ref) (K_out
  V_out : ref) : op Z :=
  vt ← dispatch_with_opts2 rt ctx Wk [bk; Some Wv; bv; Some K_out; Some V_out];
  impl ← slot vt (lit "flash_attention_project_kv") ctx;
  _ ← adopt_output rt K_out ctx;
  _ ← adopt_output rt V_out ctx;
  backend impl [ATensor ctx; ATensor Wk; AOpt bk; ATensor Wv; AOpt bv; ATensor K_out; ATensor V_out].

Definition flash_attention_q_with_kv_cached_forward (X K V Wq : ref) (bq : option ref) (Wo : ref) (bo :
  option ref) (d_mask : ptr) (num_heads : Z) (causal : bool) (O : ref) : op Z :=
  vt ← dispatch_with_opts2 rt X K [Some V; Some Wq; bq; Some Wo; bo; Some O];
  impl ← slot vt (lit "flash_attention_q_with_kv_cached_forward") X;
  _ ← adopt_output rt O X;
  backend impl [ATensor X; ATensor K; ATensor V; ATensor Wq; AOpt bq; ATensor Wo; AOpt bo; APtr d_mask;
    AInt num_heads; ABool causal; ATensor O].

Definition matmul (A B C : ref) : op Z :=
  vt ← dispatch rt [A; B; C];
  impl ← slot vt (lit "matmul") A;
  _ ← adopt_output rt C A;
  backend impl [ATensor A; ATensor B; ATensor C].

Definition matmul_abt (A B C : ref) (batch M N K strideA strideB strideC : Z) (bias : option ref) (act : Z)
  : op Z :=
  vt ← dispatch_with_opts2 rt A B [bias; Some C];
  impl ← slot vt (lit "matmul_abt") A;
  _ ← adopt_output rt C A;
  backend impl [ATensor A; ATensor B; ATensor C; AInt batch; AInt M; AInt N; AInt K; AInt strideA; AInt
    strideB; AInt strideC; AOpt bias; AInt act].

Definition matmul_backward (A B dC dA dB : ref) : op Z :=
  vt ← dispatch rt [A; B; dC; dA; dB];
  impl ← slot vt (lit "matmul_backward") A;
  _ ← adopt_output rt dA A;
  _ ← adopt_output rt dB A;
  backend impl [ATensor A; ATensor B; ATensor dC; ATensor dA; ATensor dB].

Definition lstm_forward_train (X W_ih W_hh : ref) (b_ih b_hh h0 c0 : option ref) (T B : Z) (Y gates C :
  ref) (hT cT : option ref) : op Z :=
  vt ← dispatch_with_opts2 rt X W_ih [Some W_hh; b_ih; b_hh; h0; c0; Some Y; Some gates; Some C; hT; cT];
  impl ← slot vt (lit "lstm_forward_train") X;
  _ ← adopt_output rt Y X;
  _ ← adopt_output rt gates X;
  _ ← adopt_output rt C X;
  _ ← adopt_opt rt hT X;
  _ ← adopt_opt rt cT X;
  backend impl [ATensor X; ATensor W_ih; ATensor W_hh; AOpt b_ih; AOpt b_hh; AOpt h0; AOpt c0; AInt T; AInt
    B; ATensor Y; ATensor gates; ATensor C; AOpt hT; AOpt cT].

Definition lstm_backward (X W_ih W_hh : ref) (h0 c0 : option ref) (Y gates C dY : ref) (T B : Z) (dX dW_ih
  dW_hh : ref) (db_ih db_hh dh0 dc0 : option ref) : op Z :=
  vt ← dispatch_with_opts2 rt X W_ih [Some W_hh; h0; c0; Some Y; Some gates; Some C; Some dY; Some dX; Some
    dW_ih; Some dW_hh; db_ih; db_hh; dh0; dc0];
  impl ← slot vt (lit "lstm_backward") X;
  _ ← adopt_output rt dX X;
  _ ← adopt_output rt dW_ih X;
  _ ← adopt_output rt dW_hh X;
  _ ← adopt_opt rt db_ih X;
  _ ← adopt_opt rt db_hh X;
  _ ← adopt_opt rt dh0 X;
  _ ← adopt_opt rt dc0 X;
  backend impl [ATensor X; ATensor W_ih; ATensor W_hh; AOpt h0; AOpt c0; ATensor Y; ATensor gates; ATensor
    C; ATensor dY; AInt T; AInt B; ATensor dX; ATensor dW_ih; ATensor dW_hh; AOpt db_ih; AOpt db_hh; AOpt
    dh0; AOpt dc0].

Definition rope_forward (X : ref) (head_dim num_heads seq_offset theta_base : Z) (Y : ref) : op Z :=
  vt ← dispatch rt [X; Y];
  impl ← slot vt (lit "rope_forward") X;
  _ ← adopt_output rt Y X;
  backend impl [ATensor X; AInt head_dim; AInt num_heads; AInt seq_offset; AFloat theta_base; ATensor Y].

Definition rope_backward (dY : ref) (head_dim num_heads seq_offset theta_base : Z) (dX : ref) : op Z :=
  vt ← dispatch rt [dY; dX];
  impl ← slot vt (lit "rope_backward") dY;
  _ ← adopt_output rt dX dY;
  backend impl [ATensor dY; AInt head_dim; AInt num_heads; AInt seq_offset; AFloat theta_base; ATensor dX].

Definition rope_apply (X cos_tbl sin_tbl : ref) (head_dim num_heads : Z) (Y : ref) : op Z :=
  vt ← dispatch rt [X; cos_tbl; sin_tbl; Y];
  impl ← slot vt (lit "rope_apply") X;
  _ ← adopt_output rt Y X;
  backend impl [ATensor X; ATensor cos_tbl; ATensor sin_tbl; AInt head_dim; AInt num_heads; ATensor Y].

Definition rope_apply_perhead (X cos_tbl sin_tbl : ref) (head_dim num_heads : Z) (Y : ref) : op Z :=
  vt ← dispatch rt [X; cos_tbl; sin_tbl; Y];
  impl ← slot vt (lit "rope_apply_perhead") X;
  _ ← adopt_output rt Y X;
  backend impl [ATensor X; ATensor cos_tbl; ATensor sin_tbl; AInt head_dim; AInt num_heads; ATensor Y].

Definition rope_apply_backward (dY cos_tbl sin_tbl : ref) (head_dim num_heads : Z) (dX : ref) : op Z :=
  vt ← dispatch rt [dY; cos_tbl; sin_tbl; dX];
  impl ← slot vt (lit "rope_apply_backward") dY;
  _ ← adopt_output rt dX dY;
  backend impl [ATensor dY; ATensor cos_tbl; ATensor sin_tbl; AInt head_dim; AInt num_heads; ATensor dX].

Definition rope_apply_mrope (X cos_t sin_t cos_h sin_h cos_w sin_w : ref) (pos_t pos_h pos_w : ptr)
  (head_dim num_heads d_t d_h d_w : Z) (Y : ref) : op Z :=
  vt ← dispatch rt [X; cos_t; sin_t; cos_h; sin_h; cos_w; sin_w; Y];
  impl ← slot vt (lit "rope_apply_mrope") X;
  _ ← adopt_output rt Y X;
  backend impl [ATensor X; ATensor cos_t; ATensor sin_t; ATensor cos_h; ATensor sin_h; ATensor cos_w;
    ATensor sin_w; APtr pos_t; APtr pos_h; APtr pos_w; AInt head_dim; AInt num_heads; AInt d_t; AInt d_h;
    AInt d_w; ATensor Y].

Definition rms_norm_forward (X gamma : ref) (eps : Z) (Y : ref) : op Z :=
  vt ← dispatch rt [X; gamma; Y];
  impl ← slot vt (lit "rms_norm_forward") X;
  _ ← adopt_output rt Y X;
  backend impl [ATensor X; ATensor gamma; AFloat eps; ATensor Y].

Definition rms_norm_backward (X gamma dY : ref) (eps : Z) (dX dGamma : ref) : op Z :=
  vt ← dispatch rt [X; gamma; dY; dX; dGamma];
  impl ← slot vt (lit "rms_norm_backward") X;
  _ ← adopt_output rt dX X;
  _ ← adopt_output rt dGamma X;
  backend impl [ATensor X; ATensor gamma; ATensor dY; AFloat eps; ATensor dX; ATensor dGamma].

Definition swiglu_forward (X Y : ref) : op Z :=
  vt ← dispatch rt [X; Y];
  impl ← slot vt (lit "swiglu_forward") X;
  _ ← adopt_output rt Y X;
  backend impl [ATensor X; ATensor Y].

Definition swiglu_backward (X dY dX : ref) : op Z :=
  vt ← dispatch rt [X; dY; dX];
  impl ← slot vt (lit "swiglu_backward") X;
  _ ← adopt_output rt dX X;
  backend impl [ATensor X; ATensor dY; ATensor dX].

Definition kv_cache_append (K_new V_new : ref) (cur_len : Z) (K_cache V_cache : ref) : op Z :=
  vt ← dispatch rt [K_new; V_new; K_cache; V_cache];
  impl ← slot vt (lit "kv_cache_append") K_new;
  _ ← adopt_output rt K_cache K_new;
  _ ← adopt_output rt V_cache K_new;
  backend impl [ATensor K_new; ATensor V_new; AInt cur_len; ATensor K_cache; ATensor V_cache].

Definition flash_attention_decode (Q K_cache V_cache : ref) (valid_len num_q_heads num_kv_heads : Z) (O :
  ref) (attn_softcap window : Z) : op Z :=
  vt ← dispatch rt [Q; K_cache; V_cache; O];
  impl ← slot vt (lit "flash_attention_decode") Q;
  _ ← adopt_output rt O Q;
  backend impl [ATensor Q; ATensor K_cache; ATensor V_cache; AInt valid_len; AInt num_q_heads; AInt
    num_kv_heads; ATensor O; AFloat attn_softcap; AInt window].

Definition flash_attention_decode_masked (Q K_cache V_cache : ref) (d_mask : ptr) (num_q_heads num_kv_heads
  : Z) (O : ref) (attn_softcap window : Z) : op Z :=
  vt ← dispatch rt [Q; K_cache; V_cache; O];
  impl ← slot vt (lit "flash_attention_decode_masked") Q;
  _ ← adopt_output rt O Q;
  backend impl [ATensor Q; ATensor K_cache; ATensor V_cache; APtr d_mask; AInt num_q_heads; AInt
    num_kv_heads; ATensor O; AFloat attn_softcap; AInt window].

Definition flash_attention_decode_len (Q K_cache V_cache : ref) (d_len : ptr) (num_q_heads num_kv_heads :
  Z) (O : ref) : op Z :=
  vt ← dispatch rt [Q; K_cache; V_cache; O];
  impl ← slot vt (lit "flash_attention_decode_len") Q;
  _ ← adopt_output rt O Q;
  backend impl [ATensor Q; ATensor K_cache; ATensor V_cache; APtr d_len; AInt num_q_heads; AInt
    num_kv_heads; ATensor O].

Definition sum_rows (X Y : ref) : op Z :=
  vt ← dispatch rt [X; Y];
  impl ← slot vt (lit "sum_rows") X;
  _ ← adopt_output rt Y X;
  backend impl [ATensor X; ATensor Y].

Definition sum_cols (X Y : ref) : op Z :=
  vt ← dispatch rt [X; Y];
  impl ← slot vt (lit "sum_cols") X;
  _ ← adopt_output rt Y X;
  backend impl [ATensor X; ATensor Y].

Definition argmax_rows (X Idx : ref) : op Z :=
  vt ← dispatch rt [X; Idx];
  impl ← slot vt (lit "argmax_rows") X;
  _ ← adopt_output rt Idx X;
  backend impl [ATensor X; ATensor Idx].

Definition segment_softmax_stats (logits seg_offsets out : ref) : op Z :=
  vt ← dispatch rt [logits; seg_offsets; out];
  impl ← slot vt (lit "segment_softmax_stats") logits;
  _ ← adopt_output rt out logits;
  backend impl [ATensor logits; ATensor seg_offsets; ATensor out].

Definition flash_attention_packed_qkv_forward (QKV seq_bounds : ref) (num_heads window : Z) (O : ref) : op
  Z :=
  vt ← dispatch rt [QKV; seq_bounds; O];
  impl ← slot vt (lit "flash_attention_packed_qkv_forward") QKV;
  _ ← adopt_output rt O QKV;
  backend impl [ATensor QKV; ATensor seq_bounds; AInt num_heads; AInt window; ATensor O].

Definition flash_attention_packed_qkv_backward (QKV dO seq_bounds : ref) (num_heads window : Z) (dQKV :
  ref) : op Z :=
  vt ← dispatch rt [QKV; dO; seq_bounds; dQKV];
  impl ← slot vt (lit "flash_attention_packed_qkv_backward") QKV;
  _ ← adopt_output rt dQKV QKV;
  backend impl [ATensor QKV; ATensor dO; ATensor seq_bounds; AInt num_heads; AInt window; ATensor dQKV].

Definition rope_qkv_packed_inplace (QKV cos_tbl sin_tbl pos : ref) (num_heads head_dim : Z) : op Z :=
  vt ← dispatch rt [QKV; cos_tbl; sin_tbl; pos];
  impl ← slot vt (lit "rope_qkv_packed_inplace") QKV;
  backend impl [ATensor QKV; ATensor cos_tbl; ATensor sin_tbl; ATensor pos; AInt num_heads; AInt head_dim].

Definition rows_count_above (X : ref) (t_lo t_hi : Z) (counts : ref) : op Z :=
  vt ← dispatch rt [X; counts];
  impl ← slot vt (lit "rows_count_above") X;
  _ ← adopt_output rt counts X;
  backend impl [ATensor X; AFloat t_lo; AFloat t_hi; ATensor counts].

Definition threshold_u8 (X : ref) (t : Z) (Y : ref) : op Z :=
  vt ← dispatch rt [X; Y];
  impl ← slot vt (lit "threshold_u8") X;
  _ ← adopt_output rt Y X;
  backend impl [ATensor X; AFloat t; ATensor Y].
End Wrappers.

(** What the attention, matmul, LSTM, RoPE, normalisation and reduction wrappers promise. *)
Definition ops_attention_contract rt backend : Prop :=
  (forall W bias X_BD Y_BD,
    obeys rt backend [] (lit "linear_forward_batched_fp16") [Some W; Some X_BD; bias; Some Y_BD] W [Some
      Y_BD]
      [ATensor W; AOpt bias; ATensor X_BD; ATensor Y_BD]
      (linear_forward_batched_fp16 rt backend W bias X_BD Y_BD)) /\
  (forall W bias X_BD act Y_BD,
    obeys rt backend [] (lit "linear_forward_batched_fp16_act") [Some W; Some X_BD; bias; Some Y_BD] W
      [Some Y_BD]
      [ATensor W; AOpt bias; ATensor X_BD; AInt act; ATensor Y_BD]
      (linear_forward_batched_fp16_act rt backend W bias X_BD act Y_BD)) /\
  (forall W bias X_BD act epilogue workspace Y_BD,
    obeys rt backend [] (lit "linear_forward_batched_ex") [Some W; Some X_BD; bias; Some Y_BD; workspace] W
      [Some Y_BD; workspace]
      [ATensor W; AOpt bias; ATensor X_BD; AInt act; AInt epilogue; AOpt workspace; ATensor Y_BD]
      (linear_forward_batched_ex rt backend W bias X_BD act epilogue workspace Y_BD)) /\
  (forall X Y,
    obeys rt backend [] (lit "geglu_forward") [Some X; Some Y] X [Some Y]
      [ATensor X; ATensor Y]
      (geglu_forward rt backend X Y)) /\
  (forall X dY dX,
    obeys rt backend [] (lit "geglu_backward") [Some X; Some dY; Some dX] X [Some dX]
      [ATensor X; ATensor dY; ATensor dX]
      (geglu_backward rt backend X dY dX)) /\
  (forall X Y,
    obeys rt backend [] (lit "geglu_exact_forward") [Some X; Some Y] X [Some Y]
      [ATensor X; ATensor Y]
      (geglu_exact_forward rt backend X Y)) /\
  (forall X dY dX,
    obeys rt backend [] (lit "geglu_exact_backward") [Some X; Some dY; Some dX] X [Some dX]
      [ATensor X; ATensor dY; ATensor dX]
      (geglu_exact_backward rt backend X dY dX)) /\
  (forall L q mask,
    obeys rt backend [] (lit "build_causal_mask_row") [Some mask] mask [Some mask]
      [AInt L; AInt q; ATensor mask]
      (build_causal_mask_row rt backend L q mask)) /\
  (forall X Ctx Wq Wk Wv Wo d_mask num_heads O,
    obeys rt backend [] (lit "cross_attention_forward") [Some X; Some Ctx; Some Wq; Some Wk; Some Wv; Some
      Wo; Some O] X [Some O]
      [ATensor X; ATensor Ctx; ATensor Wq; ATensor Wk; ATensor Wv; ATensor Wo; APtr d_mask; AInt num_heads;
        ATensor O]
      (cross_attention_forward rt backend X Ctx Wq Wk Wv Wo d_mask num_heads O)) /\
  (forall X Ctx Wq Wk Wv Wo d_mask attn_logit_bias num_heads O AttnAvg,
    obeys rt backend [] (lit "cross_attention_forward_with_attn") [Some X; Some Ctx; Some Wq; Some Wk; Some
      Wv; Some Wo; attn_logit_bias; Some O; Some AttnAvg] X [Some O; Some AttnAvg]
      [ATensor X; ATensor Ctx; ATensor Wq; ATensor Wk; ATensor Wv; ATensor Wo; APtr d_mask; AOpt
        attn_logit_bias; AInt num_heads; ATensor O; ATensor AttnAvg]
      (cross_attention_forward_with_attn rt backend X Ctx Wq Wk Wv Wo d_mask attn_logit_bias num_heads O
        AttnAvg)) /\
  (forall X Wq Wk Wv Wo d_mask num_heads Qh Kh Vh Attnh Yconcat O,
    obeys rt backend [] (lit "self_attention_forward_train") [Some X; Some Wq; Some Wk; Some Wv; Some Wo;
      Some Qh; Some Kh; Some Vh; Some Attnh; Some Yconcat; Some O] X [Some Qh; Some Kh; Some Vh; Some
      Attnh; Some Yconcat; Some O]
      [ATensor X; ATensor Wq; ATensor Wk; ATensor Wv; ATensor Wo; APtr d_mask; AInt num_heads; ATensor Qh;
        ATensor Kh; ATensor Vh; ATensor Attnh; ATensor Yconcat; ATensor O]
      (self_attention_forward_train rt backend X Wq Wk Wv Wo d_mask num_heads Qh Kh Vh Attnh Yconcat O)) /\
  (forall dO X Qh Kh Vh Attnh Yconcat Wq Wk Wv Wo d_mask num_heads dX dWq dWk dWv dWo,
    obeys rt backend [] (lit "self_attention_backward") [Some dO; Some X; Some Qh; Some Kh; Some Vh; Some
      Attnh; Some Yconcat; Some Wq; Some Wk; Some Wv; Some Wo; Some dX; Some dWq; Some dWk; Some dWv; Some
      dWo] dO [Some dX; Some dWq; Some dWk; Some dWv; Some dWo]
      [ATensor dO; ATensor X; ATensor Qh; ATensor Kh; ATensor Vh; ATensor Attnh; ATensor Yconcat; ATensor
        Wq; ATensor Wk; ATensor Wv; ATensor Wo; APtr d_mask; AInt num_heads; ATensor dX; ATensor dWq;
        ATensor dWk; ATensor dWv; ATensor dWo]
      (self_attention_backward rt backend dO X Qh Kh Vh Attnh Yconcat Wq Wk Wv Wo d_mask num_heads dX dWq
        dWk dWv dWo)) /\
  (forall Attn h_lat w_lat mass centroid,
    obeys rt backend [check_grid (lit "attention_token_moments") Attn (lit "Attn") h_lat w_lat] (lit
      "attention_token_moments") [Some Attn; Some mass; Some centroid] Attn [Some mass; Some centroid]
      [ATensor Attn; AInt h_lat; AInt w_lat; ATensor mass; ATensor centroid]
      (attention_token_moments rt backend Attn h_lat w_lat mass centroid)) /\
  (forall X Ctx Wq Wk Wv Wo d_mask num_heads Qh Kh Vh Attnh Yconcat O,
    obeys rt backend [] (lit "cross_attention_forward_train") [Some X; Some Ctx; Some Wq; Some Wk; Some Wv;
      Some Wo; Some Qh; Some Kh; Some Vh; Some Attnh; Some Yconcat; Some O] X [Some Qh; Some Kh; Some Vh;
      Some Attnh; Some Yconcat; Some O]
      [ATensor X; ATensor Ctx; ATensor Wq; ATensor Wk; ATensor Wv; ATensor Wo; APtr d_mask; AInt num_heads;
        ATensor Qh; ATensor Kh; ATensor Vh; ATensor Attnh; ATensor Yconcat; ATensor O]
      (cross_attention_forward_train rt backend X Ctx Wq Wk Wv Wo d_mask num_heads Qh Kh Vh Attnh Yconcat
        O)) /\
  (forall dO X Ctx Qh Kh Vh Attnh Yconcat Wq Wk Wv Wo d_mask num_heads dX dCtx dWq dWk dWv dWo,
    obeys rt backend [] (lit "cross_attention_backward") [Some dO; Some X; Some Ctx; Some Qh; Some Kh; Some
      Vh; Some Attnh; Some Yconcat; Some Wq; Some Wk; Some Wv; Some Wo; Some dX; Some dCtx; Some dWq; Some
      dWk; Some dWv; Some dWo] dO [Some dX; Some dCtx; Some dWq; Some dWk; Some dWv; Some dWo]
      [ATensor dO; ATensor X; ATensor Ctx; ATensor Qh; ATensor Kh; ATensor Vh; ATensor Attnh; ATensor
        Yconcat; ATensor Wq; ATensor Wk; ATensor Wv; ATensor Wo; APtr d_mask; AInt num_heads; ATensor dX;
        ATensor dCtx; ATensor dWq; ATensor dWk; ATensor dWv; ATensor dWo]
      (cross_attention_backward rt backend dO X Ctx Qh Kh Vh Attnh Yconcat Wq Wk Wv Wo d_mask num_heads dX
        dCtx dWq dWk dWv dWo)) /\
  (forall X_RD gamma beta Y_RD eps,
    obeys rt backend [] (lit "layernorm_forward_inference_batched_fp16") [Some X_RD; Some gamma; Some beta;
      Some Y_RD] X_RD [Some Y_RD]
      [ATensor X_RD; ATensor gamma; AOpt (Some beta); ATensor Y_RD; AFloat eps]
      (layernorm_forward_inference_batched_fp16 rt backend X_RD gamma beta Y_RD eps)) /\
  (forall X_RD gamma Y_RD eps,
    obeys rt backend [] (lit "layernorm_forward_inference_batched_fp16") [Some X_RD; Some gamma; Some Y_RD]
      X_RD [Some Y_RD]
      [ATensor X_RD; ATensor gamma; AOpt None; ATensor Y_RD; AFloat eps]
      (layernorm_forward_inference_batched_fp162 rt backend X_RD gamma Y_RD eps)) /\
  (forall X Wq Wk Wv Wo d_mask num_heads O,
    obeys rt backend [] (lit "self_attention_forward") [Some X; Some Wq; Some Wk; Some Wv; Some Wo; Some O]
      X [Some O]
      [ATensor X; ATensor Wq; ATensor Wk; ATensor Wv; ATensor Wo; APtr d_mask; AInt num_heads; ATensor O]
      (self_attention_forward rt backend X Wq Wk Wv Wo d_mask num_heads O)) /\
  (forall X Wq Wk Wv Wo bq bk bv bo d_mask attn_bias num_heads scale O,
    obeys rt backend [] (lit "self_attention_bias_forward") [Some X; Some Wq; Some Wk; Some Wv; Some Wo;
      bq; bk; bv; bo; attn_bias; Some O] X [Some O]
      [ATensor X; ATensor Wq; ATensor Wk; ATensor Wv; ATensor Wo; AOpt bq; AOpt bk; AOpt bv; AOpt bo; APtr
        d_mask; AOpt attn_bias; AInt num_heads; AFloat scale; ATensor O]
      (self_attention_bias_forward rt backend X Wq Wk Wv Wo bq bk bv bo d_mask attn_bias num_heads scale O)) /\
  (forall Qv Pk num_heads head_dim Bias,
    obeys rt backend [] (lit "rel_pos_bias_xl_forward") [Some Qv; Some Pk; Some Bias] Qv [Some Bias]
      [ATensor Qv; ATensor Pk; AInt num_heads; AInt head_dim; ATensor Bias]
      (rel_pos_bias_xl_forward rt backend Qv Pk num_heads head_dim Bias)) /\
  (forall X Wq bq Wk bk Wv bv Wo bo rel_pos_h rel_pos_w num_heads grid_h grid_w scale O,
    obeys rt backend [check_grid (lit "self_attention_decomposed_rel_pos_forward") X (lit "X") grid_h
      grid_w] (lit "self_attention_decomposed_rel_pos_forward") [Some X; Some Wq; bq; Some Wk; bk; Some Wv;
      bv; Some Wo; bo; Some rel_pos_h; Some rel_pos_w; Some O] X [Some O]
      [ATensor X; ATensor Wq; AOpt bq; ATensor Wk; AOpt bk; ATensor Wv; AOpt bv; ATensor Wo; AOpt bo;
        ATensor rel_pos_h; ATensor rel_pos_w; AInt num_heads; AInt grid_h; AInt grid_w; AFloat scale;
        ATensor O]
      (self_attention_decomposed_rel_pos_forward rt backend X Wq bq Wk bk Wv bv Wo bo rel_pos_h rel_pos_w
        num_heads grid_h grid_w scale O)) /\
  (forall X Wq bq Wk bk Wv bv Wo bo rel_pos_h rel_pos_w num_heads grid_h grid_w window scale O,
    obeys rt backend [check_grid (lit "self_attention_decomposed_rel_pos_windowed_forward") X (lit "X")
      grid_h grid_w] (lit "self_attention_decomposed_rel_pos_windowed_forward") [Some X; Some Wq; bq; Some
      Wk; bk; Some Wv; bv; Some Wo; bo; Some rel_pos_h; Some rel_pos_w; Some O] X [Some O]
      [ATensor X; ATensor Wq; AOpt bq; ATensor Wk; AOpt bk; ATensor Wv; AOpt bv; ATensor Wo; AOpt bo;
        ATensor rel_pos_h; ATensor rel_pos_w; AInt num_heads; AInt grid_h; AInt grid_w; AInt window; AFloat
        scale; ATensor O]
      (self_attention_decomposed_rel_pos_windowed_forward rt backend X Wq bq Wk bk Wv bv Wo bo rel_pos_h
        rel_pos_w num_heads grid_h grid_w window scale O)) /\
  (forall X Wq_int8 sq Wk_int8 sk Wv_int8 sv Wo_int8 so d_mask attn_bias num_heads scale O,
    obeys rt backend [] (lit "self_attention_bias_int8w_fp16") [Some X; Some Wq_int8; Some sq; Some
      Wk_int8; Some sk; Some Wv_int8; Some sv; Some Wo_int8; Some so; attn_bias; Some O] X [Some O]
      [ATensor X; ATensor Wq_int8; ATensor sq; ATensor Wk_int8; ATensor sk; ATensor Wv_int8; ATensor sv;
        ATensor Wo_int8; ATensor so; APtr d_mask; AOpt attn_bias; AInt num_heads; AFloat scale; ATensor O]
      (self_attention_bias_int8w_fp16 rt backend X Wq_int8 sq Wk_int8 sk Wv_int8 sv Wo_int8 so d_mask
        attn_bias num_heads scale O)) /\
  (forall Q K V d_mask num_heads causal O,
    obeys rt backend [] (lit "flash_attention_forward") [Some Q; Some K; Some V; Some O] Q [Some O]
      [ATensor Q; ATensor K; ATensor V; APtr d_mask; AInt num_heads; ABool causal; ATensor O]
      (flash_attention_forward rt backend Q K V d_mask num_heads causal O)) /\
  (forall Q K V d_mask num_q_heads num_kv_heads causal O,
    obeys rt backend [] (lit "flash_attention_gqa_forward") [Some Q; Some K; Some V; Some O] Q [Some O]
      [ATensor Q; ATensor K; ATensor V; APtr d_mask; AInt num_q_heads; AInt num_kv_heads; ABool causal;
        ATensor O]
      (flash_attention_gqa_forward rt backend Q K V d_mask num_q_heads num_kv_heads causal O)) /\
  (forall Q K V d_mask num_heads window O causal,
    obeys rt backend [] (lit "flash_attention_windowed_forward") [Some Q; Some K; Some V; Some O] Q [Some O]
      [ATensor Q; ATensor K; ATensor V; APtr d_mask; AInt num_heads; AInt window; ATensor O; ABool causal]
      (flash_attention_windowed_forward rt backend Q K V d_mask num_heads window O causal)) /\
  (forall Q K V cu_seqlens_q cu_seqlens_k batch_size max_seqlen_q max_seqlen_k num_heads head_dim causal O,
    obeys rt backend [] (lit "flash_attention_varlen_forward") [Some Q; Some K; Some V; Some O] Q [Some O]
      [ATensor Q; ATensor K; ATensor V; APtr cu_seqlens_q; APtr cu_seqlens_k; AInt batch_size; AInt
        max_seqlen_q; AInt max_seqlen_k; AInt num_heads; AInt head_dim; ABool causal; ATensor O]
      (flash_attention_varlen_forward rt backend Q K V cu_seqlens_q cu_seqlens_k batch_size max_seqlen_q
        max_seqlen_k num_heads head_dim causal O)) /\
  (forall Q K V O dO cu_seqlens_q cu_seqlens_k batch_size max_seqlen_q max_seqlen_k num_heads head_dim
    causal dQ dK dV,
    obeys rt backend [] (lit "flash_attention_varlen_backward") [Some Q; Some K; Some V; Some O; Some dO;
      Some dQ; Some dK; Some dV] Q [Some dQ; Some dK; Some dV]
      [ATensor Q; ATensor K; ATensor V; ATensor O; ATensor dO; APtr cu_seqlens_q; APtr cu_seqlens_k; AInt
        batch_size; AInt max_seqlen_q; AInt max_seqlen_k; AInt num_heads; AInt head_dim; ABool causal;
        ATensor dQ; ATensor dK; ATensor dV]
      (flash_attention_varlen_backward rt backend Q K V O dO cu_seqlens_q cu_seqlens_k batch_size
        max_seqlen_q max_seqlen_k num_heads head_dim causal dQ dK dV)) /\
  (forall X Ctx Wq bq Wk bk Wv bv Wo bo d_mask num_heads causal O,
    obeys rt backend [] (lit "flash_attention_qkvo_forward") [Some X; Some Wq; Ctx; bq; Some Wk; bk; Some
      Wv; bv; Some Wo; bo; Some O] X [Some O]
      [ATensor X; AOpt Ctx; ATensor Wq; AOpt bq; ATensor Wk; AOpt bk; ATensor Wv; AOpt bv; ATensor Wo; AOpt
        bo; APtr d_mask; AInt num_heads; ABool causal; ATensor O]
      (flash_attention_qkvo_forward rt backend X Ctx Wq bq Wk bk Wv bv Wo bo d_mask num_heads causal O)) /\
  (forall X Ctx Wq bq Wk bk Wv bv Wo bo d_mask num_heads causal dO dX dCtx dWq dbq dWk dbk dWv dbv dWo dbo,
    obeys rt backend [] (lit "flash_attention_qkvo_backward") [Some X; Some Wq; Ctx; bq; Some Wk; bk; Some
      Wv; bv; Some Wo; bo; Some dO; Some dX; dCtx; Some dWq; dbq; Some dWk; dbk; Some dWv; dbv; Some dWo;
      dbo] X [Some dX; dCtx; Some dWq; dbq; Some dWk; dbk; Some dWv; dbv; Some dWo; dbo]
      [ATensor X; AOpt Ctx; ATensor Wq; AOpt bq; ATensor Wk; AOpt bk; ATensor Wv; AOpt bv; ATensor Wo; AOpt
        bo; APtr d_mask; AInt num_heads; ABool causal; ATensor dO; ATensor dX; AOpt dCtx; ATensor dWq; AOpt
        dbq; ATensor dWk; AOpt dbk; ATensor dWv; AOpt dbv; ATensor dWo; AOpt dbo]
      (flash_attention_qkvo_backward rt backend X Ctx Wq bq Wk bk Wv bv Wo bo d_mask num_heads causal dO dX
        dCtx dWq dbq dWk dbk dWv dbv dWo dbo)) /\
  (forall Q K V O dO d_mask num_heads causal dQ dK dV,
    obeys rt backend [] (lit "flash_attention_backward") [Some Q; Some K; Some V; Some O; Some dO; Some dQ;
      Some dK; Some dV] Q [Some dQ; Some dK; Some dV]
      [ATensor Q; ATensor K; ATensor V; ATensor O; ATensor dO; APtr d_mask; AInt num_heads; ABool causal;
        ATensor dQ; ATensor dK; ATensor dV]
      (flash_attention_backward rt backend Q K V O dO d_mask num_heads causal dQ dK dV)) /\
  (forall ctx Wk bk Wv bv K_out V_out,
    obeys rt backend [] (lit "flash_attention_project_kv") [Some ctx; Some Wk; bk; Some Wv; bv; Some K_out;
      Some V_out] ctx [Some K_out; Some V_out]
      [ATensor ctx; ATensor Wk; AOpt bk; ATensor Wv; AOpt bv; ATensor K_out; ATensor V_out]
      (flash_attention_project_kv rt backend ctx Wk bk Wv bv K_out V_out)) /\
  (forall X K V Wq bq Wo bo d_mask num_heads causal O,
    obeys rt backend [] (lit "flash_attention_q_with_kv_cached_forward") [Some X; Some K; Some V; Some Wq;
      bq; Some Wo; bo; Some O] X [Some O]
      [ATensor X; ATensor K; ATensor V; ATensor Wq; AOpt bq; ATensor Wo; AOpt bo; APtr d_mask; AInt
        num_heads; ABool causal; ATensor O]
      (flash_attention_q_with_kv_cached_forward rt backend X K V Wq bq Wo bo d_mask num_heads causal O)) /\
  (forall A B C,
    obeys rt backend [] (lit "matmul") [Some A; Some B; Some C] A [Some C]
      [ATensor A; ATensor B; ATensor C]
      (matmul rt backend A B C)) /\
  (forall A B C batch M N K strideA strideB strideC bias act,
    obeys rt backend [] (lit "matmul_abt") [Some A; Some B; bias; Some C] A [Some C]
      [ATensor A; ATensor B; ATensor C; AInt batch; AInt M; AInt N; AInt K; AInt strideA; AInt strideB;
        AInt strideC; AOpt bias; AInt act]
      (matmul_abt rt backend A B C batch M N K strideA strideB strideC bias act)) /\
  (forall A B dC dA dB,
    obeys rt backend [] (lit "matmul_backward") [Some A; Some B; Some dC; Some dA; Some dB] A [Some dA;
      Some dB]
      [ATensor A; ATensor B; ATensor dC; ATensor dA; ATensor dB]
      (matmul_backward rt backend A B dC dA dB)) /\
  (forall X W_ih W_hh b_ih b_hh h0 c0 T B Y gates C hT cT,
    obeys rt backend [] (lit "lstm_forward_train") [Some X; Some W_ih; Some W_hh; b_ih; b_hh; h0; c0; Some
      Y; Some gates; Some C; hT; cT] X [Some Y; Some gates; Some C; hT; cT]
      [ATensor X; ATensor W_ih; ATensor W_hh; AOpt b_ih; AOpt b_hh; AOpt h0; AOpt c0; AInt T; AInt B;
        ATensor Y; ATensor gates; ATensor C; AOpt hT; AOpt cT]
      (lstm_forward_train rt backend X W_ih W_hh b_ih b_hh h0 c0 T B Y gates C hT cT)) /\
  (forall X W_ih W_hh h0 c0 Y gates C dY T B dX dW_ih dW_hh db_ih db_hh dh0 dc0,
    obeys rt backend [] (lit "lstm_backward") [Some X; Some W_ih; Some W_hh; h0; c0; Some Y; Some gates;
      Some C; Some dY; Some dX; Some dW_ih; Some dW_hh; db_ih; db_hh; dh0; dc0] X [Some dX; Some dW_ih;
      Some dW_hh; db_ih; db_hh; dh0; dc0]
      [ATensor X; ATensor W_ih; ATensor W_hh; AOpt h0; AOpt c0; ATensor Y; ATensor gates; ATensor C;
        ATensor dY; AInt T; AInt B; ATensor dX; ATensor dW_ih; ATensor dW_hh; AOpt db_ih; AOpt db_hh; AOpt
        dh0; AOpt dc0]
      (lstm_backward rt backend X W_ih W_hh h0 c0 Y gates C dY T B dX dW_ih dW_hh db_ih db_hh dh0 dc0)) /\
  (forall X head_dim num_heads seq_offset theta_base Y,
    obeys rt backend [] (lit "rope_forward") [Some X; Some Y] X [Some Y]
      [ATensor X; AInt head_dim; AInt num_heads; AInt seq_offset; AFloat theta_base; ATensor Y]
      (rope_forward rt backend X head_dim num_heads seq_offset theta_base Y)) /\
  (forall dY head_dim num_heads seq_offset theta_base dX,
    obeys rt backend [] (lit "rope_backward") [Some dY; Some dX] dY [Some dX]
      [ATensor dY; AInt head_dim; AInt num_heads; AInt seq_offset; AFloat theta_base; ATensor dX]
      (rope_backward rt backend dY head_dim num_heads seq_offset theta_base dX)) /\
  (forall X cos_tbl sin_tbl head_dim num_heads Y,
    obeys rt backend [] (lit "rope_apply") [Some X; Some cos_tbl; Some sin_tbl; Some Y] X [Some Y]
      [ATensor X; ATensor cos_tbl; ATensor sin_tbl; AInt head_dim; AInt num_heads; ATensor Y]
      (rope_apply rt backend X cos_tbl sin_tbl head_dim num_heads Y)) /\
  (forall X cos_tbl sin_tbl head_dim num_heads Y,
    obeys rt backend [] (lit "rope_apply_perhead") [Some X; Some cos_tbl; Some sin_tbl; Some Y] X [Some Y]
      [ATensor X; ATensor cos_tbl; ATensor sin_tbl; AInt head_dim; AInt num_heads; ATensor Y]
      (rope_apply_perhead rt backend X cos_tbl sin_tbl head_dim num_heads Y)) /\
  (forall dY cos_tbl sin_tbl head_dim num_heads dX,
    obeys rt backend [] (lit "rope_apply_backward") [Some dY; Some cos_tbl; Some sin_tbl; Some dX] dY [Some
      dX]
      [ATensor dY; ATensor cos_tbl; ATensor sin_tbl; AInt head_dim; AInt num_heads; ATensor dX]
      (rope_apply_backward rt backend dY cos_tbl sin_tbl head_dim num_heads dX)) /\
  (forall X cos_t sin_t cos_h sin_h cos_w sin_w pos_t pos_h pos_w head_dim num_heads d_t d_h d_w Y,
    obeys rt backend [] (lit "rope_apply_mrope") [Some X; Some cos_t; Some sin_t; Some cos_h; Some sin_h;
      Some cos_w; Some sin_w; Some Y] X [Some Y]
      [ATensor X; ATensor cos_t; ATensor sin_t; ATensor cos_h; ATensor sin_h; ATensor cos_w; ATensor sin_w;
        APtr pos_t; APtr pos_h; APtr pos_w; AInt head_dim; AInt num_heads; AInt d_t; AInt d_h; AInt d_w;
        ATensor Y]
      (rope_apply_mrope rt backend X cos_t sin_t cos_h sin_h cos_w sin_w pos_t pos_h pos_w head_dim
        num_heads d_t d_h d_w Y)) /\
  (forall X gamma eps Y,
    obeys rt backend [] (lit "rms_norm_forward") [Some X; Some gamma; Some Y] X [Some Y]
      [ATensor X; ATensor gamma; AFloat eps; ATensor Y]
      (rms_norm_forward rt backend X gamma eps Y)) /\
  (forall X gamma dY eps dX dGamma,
    obeys rt backend [] (lit "rms_norm_backward") [Some X; Some gamma; Some dY; Some dX; Some dGamma] X
      [Some dX; Some dGamma]
      [ATensor X; ATensor gamma; ATensor dY; AFloat eps; ATensor dX; ATensor dGamma]
      (rms_norm_backward rt backend X gamma dY eps dX dGamma)) /\
  (forall X Y,
    obeys rt backend [] (lit "swiglu_forward") [Some X; Some Y] X [Some Y]
      [ATensor X; ATensor Y]
      (swiglu_forward rt backend X Y)) /\
  (forall X dY dX,
    obeys rt backend [] (lit "swiglu_backward") [Some X; Some dY; Some dX] X [Some dX]
      [ATensor X; ATensor dY; ATensor dX]
      (swiglu_backward rt backend X dY dX)) /\
  (forall K_new V_new cur_len K_cache V_cache,
    obeys rt backend [] (lit "kv_cache_append") [Some K_new; Some V_new; Some K_cache; Some V_cache] K_new
      [Some K_cache; Some V_cache]
      [ATensor K_new; ATensor V_new; AInt cur_len; ATensor K_cache; ATensor V_cache]
      (kv_cache_append rt backend K_new V_new cur_len K_cache V_cache)) /\
  (forall Q K_cache V_cache valid_len num_q_heads num_kv_heads O attn_softcap window,
    obeys rt backend [] (lit "flash_attention_decode") [Some Q; Some K_cache; Some V_cache; Some O] Q [Some
      O]
      [ATensor Q; ATensor K_cache; ATensor V_cache; AInt valid_len; AInt num_q_heads; AInt num_kv_heads;
        ATensor O; AFloat attn_softcap; AInt window]
      (flash_attention_decode rt backend Q K_cache V_cache valid_len num_q_heads num_kv_heads O
        attn_softcap window)) /\
  (forall Q K_cache V_cache d_mask num_q_heads num_kv_heads O attn_softcap window,
    obeys rt backend [] (lit "flash_attention_decode_masked") [Some Q; Some K_cache; Some V_cache; Some O]
      Q [Some O]
      [ATensor Q; ATensor K_cache; ATensor V_cache; APtr d_mask; AInt num_q_heads; AInt num_kv_heads;
        ATensor O; AFloat attn_softcap; AInt window]
      (flash_attention_decode_masked rt backend Q K_cache V_cache d_mask num_q_heads num_kv_heads O
        attn_softcap window)) /\
  (forall Q K_cache V_cache d_len num_q_heads num_kv_heads O,
    obeys rt backend [] (lit "flash_attention_decode_len") [Some Q; Some K_cache; Some V_cache; Some O] Q
      [Some O]
      [ATensor Q; ATensor K_cache; ATensor V_cache; APtr d_len; AInt num_q_heads; AInt num_kv_heads;
        ATensor O]
      (flash_attention_decode_len rt backend Q K_cache V_cache d_len num_q_heads num_kv_heads O)) /\
  (forall X Y,
    obeys rt backend [] (lit "sum_rows") [Some X; Some Y] X [Some Y]
      [ATensor X; ATensor Y]
      (sum_rows rt backend X Y)) /\
  (forall X Y,
    obeys rt backend [] (lit "sum_cols") [Some X; Some Y] X [Some Y]
      [ATensor X; ATensor Y]
      (sum_cols rt backend X Y)) /\
  (forall X Idx,
    obeys rt backend [] (lit "argmax_rows") [Some X; Some Idx] X [Some Idx]
      [ATensor X; ATensor Idx]
      (argmax_rows rt backend X Idx)) /\
  (forall logits seg_offsets out,
    obeys rt backend [] (lit "segment_softmax_stats") [Some logits; Some seg_offsets; Some out] logits
      [Some out]
      [ATensor logits; ATensor seg_offsets; ATensor out]
      (segment_softmax_stats rt backend logits seg_offsets out)) /\
  (forall QKV seq_bounds num_heads window O,
    obeys rt backend [] (lit "flash_attention_packed_qkv_forward") [Some QKV; Some seq_bounds; Some O] QKV
      [Some O]
      [ATensor QKV; ATensor seq_bounds; AInt num_heads; AInt window; ATensor O]
      (flash_attention_packed_qkv_forward rt backend QKV seq_bounds num_heads window O)) /\
  (forall QKV dO seq_bounds num_heads window dQKV,
    obeys rt backend [] (lit "flash_attention_packed_qkv_backward") [Some QKV; Some dO; Some seq_bounds;
      Some dQKV] QKV [Some dQKV]
      [ATensor QKV; ATensor dO; ATensor seq_bounds; AInt num_heads; AInt window; ATensor dQKV]
      (flash_attention_packed_qkv_backward rt backend QKV dO seq_bounds num_heads window dQKV)) /\
  (forall QKV cos_tbl sin_tbl pos num_heads head_dim,
    obeys rt backend [] (lit "rope_qkv_packed_inplace") [Some QKV; Some cos_tbl; Some sin_tbl; Some pos]
      QKV []
      [ATensor QKV; ATensor cos_tbl; ATensor sin_tbl; ATensor pos; AInt num_heads; AInt head_dim]
      (rope_qkv_packed_inplace rt backend QKV cos_tbl sin_tbl pos num_heads head_dim)) /\
  (forall X t_lo t_hi counts,
    obeys rt backend [] (lit "rows_count_above") [Some X; Some counts] X [Some counts]
      [ATensor X; AFloat t_lo; AFloat t_hi; ATensor counts]
      (rows_count_above rt backend X t_lo t_hi counts)) /\
  (forall X t Y,
    obeys rt backend [] (lit "threshold_u8") [Some X; Some Y] X [Some Y]
      [ATensor X; AFloat t; ATensor Y]
      (threshold_u8 rt backend X t Y)).

Lemma ops_attention_obey rt backend : ops_attention_contract rt backend.
Proof. unfold ops_attention_contract. repeat split_and; intros; wrapper. Qed.
