(* ===== verification/OpsQuantAudio.v ===== *)
(** * Public ops: diffusion, quantisation, spectral, audio, sampling

    The wrappers of src/ops_quant_audio.cpp and their contract. *)
From S2P Require Import Prelude Dtype Device Heap Runtime OpWrap.

Section Wrappers.
Context (rt : runtime) (backend : positive -> list arg -> op Z).

(** [check_quant_block_cols]: the general check, then the one for the format
    the op decodes. *)
Definition check_quant_block_cols (name : str) (t : ref) (tensor : str) (expected_dt : Dtype) : op unit :=
  _ ← check_quant name t tensor;
  o ← look t;
  let bs := dtype_block_size expected_dt in
  when ((Dispatch.op_rows o <=? 0) || (Dispatch.op_cols o <=? 0) || negb (Z.rem (Dispatch.op_cols o) bs =? 0))
    (st_lift (Dispatch.throw_quant_cols_error name tensor expected_dt (Dispatch.op_rows o) (Dispatch.op_cols o))).

#[local] Instance read_only_block_cols name t x d : ReadOnly (check_quant_block_cols name t x d) := _.

Definition ddim_step (x_t eps_pred : ref) (alpha_t alpha_prev sigma_t : Z) (x_prev : ref) : op Z :=
  vt ← dispatch rt [x_t; eps_pred; x_prev];
  impl ← slot vt (lit "ddim_step") x_t;
  _ ← adopt_output rt x_prev x_t;
  backend impl [ATensor x_t; ATensor eps_pred; AFloat alpha_t; AFloat alpha_prev; AFloat sigma_t; ATensor
    x_prev].

Definition euler_step (x_t eps_pred : ref) (sigma_t sigma_prev : Z) (x_prev : ref) : op Z :=
  vt ← dispatch rt [x_t; eps_pred; x_prev];
  impl ← slot vt (lit "euler_step") x_t;
  _ ← adopt_output rt x_prev x_t;
  backend impl [ATensor x_t; ATensor eps_pred; AFloat sigma_t; AFloat sigma_prev; ATensor x_prev].

Definition dpmpp_2m_step (x_t eps_pred x0_prev : ref) (sigma_t c_xt c_x0t c_x0prev : Z) (x_prev x0_out :
  ref) : op Z :=
  vt ← dispatch rt [x_t; eps_pred; x0_prev; x_prev; x0_out];
  impl ← slot vt (lit "dpmpp_2m_step") x_t;
  _ ← adopt_output rt x_prev x_t;
  _ ← adopt_output rt x0_out x_t;
  backend impl [ATensor x_t; ATensor eps_pred; ATensor x0_prev; AFloat sigma_t; AFloat c_xt; AFloat c_x0t;
    AFloat c_x0prev; ATensor x_prev; ATensor x0_out].

Definition timestep_embedding (timesteps : ref) (dim max_period : Z) (Y : ref) : op Z :=
  vt ← dispatch rt [timesteps; Y];
  impl ← slot vt (lit "timestep_embedding") timesteps;
  _ ← adopt_output rt Y timesteps;
  backend impl [ATensor timesteps; AInt dim; AFloat max_period; ATensor Y].

Definition matmul_int8w_fp16 (W_int8 scales X Y : ref) : op Z :=
  vt ← dispatch rt [W_int8; scales; X; Y];
  impl ← slot vt (lit "matmul_int8w_fp16") W_int8;
  _ ← adopt_output rt Y W_int8;
  backend impl [ATensor W_int8; ATensor scales; ATensor X; ATensor Y].

Definition linear_forward_batched_int8w_fp16 (W_int8 scales : ref) (bias : option ref) (X_BD Y_BD : ref) :
  op Z :=
  vt ← dispatch_with_opts2 rt W_int8 scales [bias; Some X_BD; Some Y_BD];
  impl ← slot vt (lit "linear_forward_batched_int8w_fp16") W_int8;
  _ ← adopt_output rt Y_BD W_int8;
  backend impl [ATensor W_int8; ATensor scales; AOpt bias; ATensor X_BD; ATensor Y_BD].

Definition quantize_rows (W : ref) (fmt : Dtype) (Wq scales : ref) : op Z :=
  vt ← dispatch_with_opts1 rt W [Some Wq; Some scales];
  impl ← slot vt (lit "quantize_rows") W;
  _ ← adopt_output rt Wq W;
  _ ← adopt_output rt scales W;
  backend impl [ATensor W; ADtype fmt; ATensor Wq; ATensor scales].

Definition dequantize_rows (Wq scales : ref) (out : Dtype) (W : ref) : op Z :=
  _ ← check_quant (lit "dequantize_rows") Wq (lit "Wq");
  vt ← dispatch_with_opts1 rt Wq [Some W];
  impl ← slot vt (lit "dequantize_rows") Wq;
  _ ← adopt_output rt W Wq;
  backend impl [ATensor Wq; ATensor scales; ADtype out; ATensor W].

Definition linear_forward_batched_wq_ex (Wq scales : ref) (bias : option ref) (X_BD : ref) (act epilogue :
  Z) (Y_BD : ref) : op Z :=
  _ ← check_quant (lit "linear_forward_batched_wq_ex") Wq (lit "Wq");
  vt ← dispatch_with_opts2 rt Wq scales [bias; Some X_BD; Some Y_BD];
  impl ← slot vt (lit "linear_forward_batched_wq_ex") Wq;
  _ ← adopt_output rt Y_BD Wq;
  backend impl [ATensor Wq; ATensor scales; AOpt bias; ATensor X_BD; AInt act; AInt epilogue; ATensor Y_BD].

Definition dequant_q4k_to_fp16 (W_q4k W_fp16 : ref) : op Z :=
  _ ← check_quant_block_cols (lit "dequant_q4k_to_fp16") W_q4k (lit "W_q4k") Q4_K;
  vt ← dispatch rt [W_q4k; W_fp16];
  impl ← slot vt (lit "dequant_q4k_to_fp16") W_q4k;
  _ ← adopt_output rt W_fp16 W_q4k;
  backend impl [ATensor W_q4k; ATensor W_fp16].

Definition linear_forward_q4k_fp16 (W_q4k : ref) (bias : option ref) (x y : ref) : op Z :=
  _ ← check_quant_block_cols (lit "linear_forward_q4k_fp16") W_q4k (lit "W_q4k") Q4_K;
  vt ← dispatch_with_opts1 rt W_q4k [bias; Some x; Some y];
  impl ← slot vt (lit "linear_forward_q4k_fp16") W_q4k;
  _ ← adopt_output rt y W_q4k;
  backend impl [ATensor W_q4k; AOpt bias; ATensor x; ATensor y].

Definition linear_forward_batched_q4k_fp16 (W_q4k : ref) (bias : option ref) (X_BD Y_BD : ref) : op Z :=
  _ ← check_quant_block_cols (lit "linear_forward_batched_q4k_fp16") W_q4k (lit "W_q4k") Q4_K;
  vt ← dispatch_with_opts1 rt W_q4k [bias; Some X_BD; Some Y_BD];
  impl ← slot vt (lit "linear_forward_batched_q4k_fp16") W_q4k;
  _ ← adopt_output rt Y_BD W_q4k;
  backend impl [ATensor W_q4k; AOpt bias; ATensor X_BD; ATensor Y_BD].

Definition dequant_q8_0_to_fp16 (W_q8 W_fp16 : ref) : op Z :=
  _ ← check_quant_block_cols (lit "dequant_q8_0_to_fp16") W_q8 (lit "W_q8") Q8_0;
  vt ← dispatch rt [W_q8; W_fp16];
  impl ← slot vt (lit "dequant_q8_0_to_fp16") W_q8;
  _ ← adopt_output rt W_fp16 W_q8;
  backend impl [ATensor W_q8; ATensor W_fp16].

Definition linear_forward_q8_0_fp16 (W_q8 : ref) (bias : option ref) (x y : ref) : op Z :=
  _ ← check_quant_block_cols (lit "linear_forward_q8_0_fp16") W_q8 (lit "W_q8") Q8_0;
  vt ← dispatch_with_opts1 rt W_q8 [bias; Some x; Some y];
  impl ← slot vt (lit "linear_forward_q8_0_fp16") W_q8;
  _ ← adopt_output rt y W_q8;
  backend impl [ATensor W_q8; AOpt bias; ATensor x; ATensor y].

Definition linear_forward_batched_q8_0_fp16 (W_q8 : ref) (bias : option ref) (X_BD Y_BD : ref) : op Z :=
  _ ← check_quant_block_cols (lit "linear_forward_batched_q8_0_fp16") W_q8 (lit "W_q8") Q8_0;
  vt ← dispatch_with_opts1 rt W_q8 [bias; Some X_BD; Some Y_BD];
  impl ← slot vt (lit "linear_forward_batched_q8_0_fp16") W_q8;
  _ ← adopt_output rt Y_BD W_q8;
  backend impl [ATensor W_q8; AOpt bias; ATensor X_BD; ATensor Y_BD].

Definition dequant_q6k_to_fp16 (W_q6k W_fp16 : ref) : op Z :=
  _ ← check_quant_block_cols (lit "dequant_q6k_to_fp16") W_q6k (lit "W_q6k") Q6_K;
  vt ← dispatch rt [W_q6k; W_fp16];
  impl ← slot vt (lit "dequant_q6k_to_fp16") W_q6k;
  _ ← adopt_output rt W_fp16 W_q6k;
  backend impl [ATensor W_q6k; ATensor W_fp16].

Definition linear_forward_q6k_fp16 (W_q6k : ref) (bias : option ref) (x y : ref) : op Z :=
  _ ← check_quant_block_cols (lit "linear_forward_q6k_fp16") W_q6k (lit "W_q6k") Q6_K;
  vt ← dispatch_with_opts1 rt W_q6k [bias; Some x; Some y];
  impl ← slot vt (lit "linear_forward_q6k_fp16") W_q6k;
  _ ← adopt_output rt y W_q6k;
  backend impl [ATensor W_q6k; AOpt bias; ATensor x; ATensor y].

Definition linear_forward_batched_q6k_fp16 (W_q6k : ref) (bias : option ref) (X_BD Y_BD : ref) : op Z :=
  _ ← check_quant_block_cols (lit "linear_forward_batched_q6k_fp16") W_q6k (lit "W_q6k") Q6_K;
  vt ← dispatch_with_opts1 rt W_q6k [bias; Some X_BD; Some Y_BD];
  impl ← slot vt (lit "linear_forward_batched_q6k_fp16") W_q6k;
  _ ← adopt_output rt Y_BD W_q6k;
  backend impl [ATensor W_q6k; AOpt bias; ATensor X_BD; ATensor Y_BD].

Definition flash_attention_project_kv_int8w_fp16 (ctx Wk_int8 sk : ref) (bk : option ref) (Wv_int8 sv :
  ref) (bv : option ref) (K_out V_out : ref) : op Z :=
  vt ← dispatch_with_opts2 rt ctx Wk_int8 [Some sk; bk; Some Wv_int8; Some sv; bv; Some K_out; Some V_out];
  impl ← slot vt (lit "flash_attention_project_kv_int8w_fp16") ctx;
  _ ← adopt_output rt K_out ctx;
  _ ← adopt_output rt V_out ctx;
  backend impl [ATensor ctx; ATensor Wk_int8; ATensor sk; AOpt bk; ATensor Wv_int8; ATensor sv; AOpt bv;
    ATensor K_out; ATensor V_out].

Definition flash_attention_q_with_kv_cached_int8w_fp16 (X K V Wq_int8 sq : ref) (bq : option ref) (Wo_int8
  so : ref) (bo : option ref) (d_mask : ptr) (num_heads : Z) (causal : bool) (O : ref) : op Z :=
  vt ← dispatch_with_opts2 rt X K [Some V; Some Wq_int8; Some sq; bq; Some Wo_int8; Some so; bo; Some O];
  impl ← slot vt (lit "flash_attention_q_with_kv_cached_int8w_fp16") X;
  _ ← adopt_output rt O X;
  backend impl [ATensor X; ATensor K; ATensor V; ATensor Wq_int8; ATensor sq; AOpt bq; ATensor Wo_int8;
    ATensor so; AOpt bo; APtr d_mask; AInt num_heads; ABool causal; ATensor O].

Definition flash_attention_qkvo_int8w_fp16 (X : ref) (Ctx : option ref) (Wq_int8 sq : ref) (bq : option
  ref) (Wk_int8 sk : ref) (bk : option ref) (Wv_int8 sv : ref) (bv : option ref) (Wo_int8 so : ref) (bo :
  option ref) (d_mask : ptr) (num_heads : Z) (causal : bool) (O : ref) : op Z :=
  vt ← dispatch_with_opts2 rt X Wq_int8 [Ctx; Some sq; bq; Some Wk_int8; Some sk; bk; Some Wv_int8; Some
    sv; bv; Some Wo_int8; Some so; bo; Some O];
  impl ← slot vt (lit "flash_attention_qkvo_int8w_fp16") X;
  _ ← adopt_output rt O X;
  backend impl [ATensor X; AOpt Ctx; ATensor Wq_int8; ATensor sq; AOpt bq; ATensor Wk_int8; ATensor sk;
    AOpt bk; ATensor Wv_int8; ATensor sv; AOpt bv; ATensor Wo_int8; ATensor so; AOpt bo; APtr d_mask; AInt
    num_heads; ABool causal; ATensor O].

Definition complex_mul (a b y : ref) : op Z :=
  vt ← dispatch rt [a; b; y];
  impl ← slot vt (lit "complex_mul") a;
  _ ← adopt_output rt y a;
  backend impl [ATensor a; ATensor b; ATensor y].

Definition complex_mul_backward (a b dY dA dB : ref) : op Z :=
  vt ← dispatch rt [a; b; dY; dA; dB];
  impl ← slot vt (lit "complex_mul_backward") a;
  _ ← adopt_output rt dA a;
  _ ← adopt_output rt dB a;
  backend impl [ATensor a; ATensor b; ATensor dY; ATensor dA; ATensor dB].

Definition complex_abs (z y : ref) : op Z :=
  vt ← dispatch rt [z; y];
  impl ← slot vt (lit "complex_abs") z;
  _ ← adopt_output rt y z;
  backend impl [ATensor z; ATensor y].

Definition complex_abs_backward (z dY dZ : ref) : op Z :=
  vt ← dispatch rt [z; dY; dZ];
  impl ← slot vt (lit "complex_abs_backward") z;
  _ ← adopt_output rt dZ z;
  backend impl [ATensor z; ATensor dY; ATensor dZ].

Definition complex_angle (z y : ref) : op Z :=
  vt ← dispatch rt [z; y];
  impl ← slot vt (lit "complex_angle") z;
  _ ← adopt_output rt y z;
  backend impl [ATensor z; ATensor y].

Definition complex_from_polar (mag phase y : ref) : op Z :=
  vt ← dispatch rt [mag; phase; y];
  impl ← slot vt (lit "complex_from_polar") mag;
  _ ← adopt_output rt y mag;
  backend impl [ATensor mag; ATensor phase; ATensor y].

Definition fft (x y : ref) : op Z :=
  vt ← dispatch rt [x; y];
  impl ← slot vt (lit "fft") x;
  _ ← adopt_output rt y x;
  backend impl [ATensor x; ATensor y].

Definition ifft (x y : ref) : op Z :=
  vt ← dispatch rt [x; y];
  impl ← slot vt (lit "ifft") x;
  _ ← adopt_output rt y x;
  backend impl [ATensor x; ATensor y].

Definition rfft (x y : ref) : op Z :=
  vt ← dispatch rt [x; y];
  impl ← slot vt (lit "rfft") x;
  _ ← adopt_output rt y x;
  backend impl [ATensor x; ATensor y].

Definition irfft (x : ref) (L : Z) (y : ref) : op Z :=
  vt ← dispatch rt [x; y];
  impl ← slot vt (lit "irfft") x;
  _ ← adopt_output rt y x;
  backend impl [ATensor x; AInt L; ATensor y].

Definition rfft_backward (dY : ref) (L : Z) (dX : ref) : op Z :=
  vt ← dispatch rt [dY; dX];
  impl ← slot vt (lit "rfft_backward") dY;
  _ ← adopt_output rt dX dY;
  backend impl [ATensor dY; AInt L; ATensor dX].

Definition irfft_backward (dY dX : ref) : op Z :=
  vt ← dispatch rt [dY; dX];
  impl ← slot vt (lit "irfft_backward") dY;
  _ ← adopt_output rt dX dY;
  backend impl [ATensor dY; ATensor dX].

Definition stft (signal window : ref) (N n_fft hop_length win_length : Z) (center normalized : bool) (spec
  : ref) : op Z :=
  vt ← dispatch rt [signal; window; spec];
  impl ← slot vt (lit "stft") signal;
  _ ← adopt_output rt spec signal;
  backend impl [ATensor signal; ATensor window; AInt N; AInt n_fft; AInt hop_length; AInt win_length; ABool
    center; ABool normalized; ATensor spec].

Definition stft_backward (dSpec window : ref) (N signal_len n_fft hop_length win_length : Z) (center
  normalized : bool) (dSignal : ref) : op Z :=
  vt ← dispatch rt [dSpec; window; dSignal];
  impl ← slot vt (lit "stft_backward") dSpec;
  _ ← adopt_output rt dSignal dSpec;
  backend impl [ATensor dSpec; ATensor window; AInt N; AInt signal_len; AInt n_fft; AInt hop_length; AInt
    win_length; ABool center; ABool normalized; ATensor dSignal].

Definition istft (spec window : ref) (N signal_len n_fft hop_length win_length : Z) (center normalized :
  bool) (signal : ref) : op Z :=
  vt ← dispatch rt [spec; window; signal];
  impl ← slot vt (lit "istft") spec;
  _ ← adopt_output rt signal spec;
  backend impl [ATensor spec; ATensor window; AInt N; AInt signal_len; AInt n_fft; AInt hop_length; AInt
    win_length; ABool center; ABool normalized; ATensor signal].

Definition istft_backward (dSignal window : ref) (N signal_len n_fft hop_length win_length : Z) (center
  normalized : bool) (dSpec : ref) : op Z :=
  vt ← dispatch rt [dSignal; window; dSpec];
  impl ← slot vt (lit "istft_backward") dSignal;
  _ ← adopt_output rt dSpec dSignal;
  backend impl [ATensor dSignal; ATensor window; AInt N; AInt signal_len; AInt n_fft; AInt hop_length; AInt
    win_length; ABool center; ABool normalized; ATensor dSpec].

Definition conv_transpose1d_forward (X Wt : ref) (bias : option ref) (N C_in L C_out kL stride padding
  output_padding dilation groups : Z) (Y : ref) : op Z :=
  _ ← check_1d (lit "conv_transpose1d_forward") X (lit "X") N C_in L;
  vt ← dispatch_with_opts2 rt X Wt [bias; Some Y];
  impl ← slot vt (lit "conv_transpose1d_forward") X;
  _ ← adopt_output rt Y X;
  backend impl [ATensor X; ATensor Wt; AOpt bias; AInt N; AInt C_in; AInt L; AInt C_out; AInt kL; AInt
    stride; AInt padding; AInt output_padding; AInt dilation; AInt groups; ATensor Y].

Definition conv_transpose1d_backward_input (Wt dY : ref) (N C_in L C_out kL stride padding output_padding
  dilation groups : Z) (dX : ref) : op Z :=
  _ ← when ((N <=? 0) || (C_in <=? 0) || (L <=? 0) || (C_out <=? 0))
    (throw_1d (lit "conv_transpose1d_backward_input") dY (lit "dY") N C_in L);
  vt ← dispatch rt [Wt; dY; dX];
  impl ← slot vt (lit "conv_transpose1d_backward_input") Wt;
  _ ← adopt_output rt dX Wt;
  backend impl [ATensor Wt; ATensor dY; AInt N; AInt C_in; AInt L; AInt C_out; AInt kL; AInt stride; AInt
    padding; AInt output_padding; AInt dilation; AInt groups; ATensor dX].

Definition conv_transpose1d_backward_weight (X dY : ref) (N C_in L C_out kL stride padding output_padding
  dilation groups : Z) (dWt : ref) : op Z :=
  _ ← check_1d (lit "conv_transpose1d_backward_weight") X (lit "X") N C_in L;
  vt ← dispatch rt [X; dY; dWt];
  impl ← slot vt (lit "conv_transpose1d_backward_weight") X;
  _ ← adopt_output rt dWt X;
  backend impl [ATensor X; ATensor dY; AInt N; AInt C_in; AInt L; AInt C_out; AInt kL; AInt stride; AInt
    padding; AInt output_padding; AInt dilation; AInt groups; ATensor dWt].

Definition conv_transpose1d_backward_bias (dY : ref) (N C_out L_out : Z) (dB : ref) : op Z :=
  _ ← check_1d (lit "conv_transpose1d_backward_bias") dY (lit "dY") N C_out L_out;
  vt ← dispatch rt [dY; dB];
  impl ← slot vt (lit "conv_transpose1d_backward_bias") dY;
  _ ← adopt_output rt dB dY;
  backend impl [ATensor dY; AInt N; AInt C_out; AInt L_out; ATensor dB].

Definition causal_conv1d_update (X Wt : ref) (bias : option ref) (N C L_step kL dilation : Z) (state Y :
  ref) : op Z :=
  _ ← check_1d (lit "causal_conv1d_update") X (lit "X") N C L_step;
  vt ← dispatch_with_opts2 rt X Wt [bias; Some state; Some Y];
  impl ← slot vt (lit "causal_conv1d_update") X;
  _ ← adopt_output rt state X;
  _ ← adopt_output rt Y X;
  backend impl [ATensor X; ATensor Wt; AOpt bias; AInt N; AInt C; AInt L_step; AInt kL; AInt dilation;
    ATensor state; ATensor Y].

Definition pad1d_forward (X : ref) (N C L pad_left pad_right mode : Z) (Y : ref) : op Z :=
  _ ← check_1d (lit "pad1d_forward") X (lit "X") N C L;
  vt ← dispatch rt [X; Y];
  impl ← slot vt (lit "pad1d_forward") X;
  _ ← adopt_output rt Y X;
  backend impl [ATensor X; AInt N; AInt C; AInt L; AInt pad_left; AInt pad_right; AInt mode; ATensor Y].

Definition pad1d_backward (dY : ref) (N C L pad_left pad_right mode : Z) (dX : ref) : op Z :=
  _ ← when ((N <=? 0) || (C <=? 0) || (L <=? 0))
    (throw_1d (lit "pad1d_backward") dY (lit "dY") N C L);
  _ ← (L_out ← int_of (ival L + ival pad_left + ival pad_right);
    when ((L_out >? 0))
    (check_1d (lit "pad1d_backward") dY (lit "dY") N C L_out));
  vt ← dispatch rt [dY; dX];
  impl ← slot vt (lit "pad1d_backward") dY;
  _ ← adopt_output rt dX dY;
  backend impl [ATensor dY; AInt N; AInt C; AInt L; AInt pad_left; AInt pad_right; AInt mode; ATensor dX].

Definition snake_forward (X alpha : ref) (beta : option ref) (N C L : Z) (Y : ref) : op Z :=
  _ ← check_1d (lit "snake_forward") X (lit "X") N C L;
  vt ← dispatch_with_opts2 rt X alpha [beta; Some Y];
  impl ← slot vt (lit "snake_forward") X;
  _ ← adopt_output rt Y X;
  backend impl [ATensor X; ATensor alpha; AOpt beta; AInt N; AInt C; AInt L; ATensor Y].

Definition snake_backward (X alpha : ref) (beta : option ref) (dY : ref) (N C L : Z) (dX dAlpha : ref)
  (dBeta : option ref) : op Z :=
  _ ← check_1d (lit "snake_backward") X (lit "X") N C L;
  _ ← check_1d (lit "snake_backward") dY (lit "dY") N C L;
  vt ← dispatch_with_opts2 rt X alpha [beta; Some dY; Some dX; Some dAlpha; dBeta];
  impl ← slot vt (lit "snake_backward") X;
  _ ← adopt_output rt dX X;
  _ ← adopt_output rt dAlpha X;
  _ ← adopt_opt rt dBeta X;
  backend impl [ATensor X; ATensor alpha; AOpt beta; ATensor dY; AInt N; AInt C; AInt L; ATensor dX;
    ATensor dAlpha; AOpt dBeta].

Definition elu_forward (x : ref) (alpha : Z) (y : ref) : op Z :=
  vt ← dispatch rt [x; y];
  impl ← slot vt (lit "elu_forward") x;
  _ ← adopt_output rt y x;
  backend impl [ATensor x; AFloat alpha; ATensor y].

Definition elu_backward (x dY : ref) (alpha : Z) (dX : ref) : op Z :=
  vt ← dispatch rt [x; dY; dX];
  impl ← slot vt (lit "elu_backward") x;
  _ ← adopt_output rt dX x;
  backend impl [ATensor x; ATensor dY; AFloat alpha; ATensor dX].

Definition leaky_relu_forward (x : ref) (negative_slope : Z) (y : ref) : op Z :=
  vt ← dispatch rt [x; y];
  impl ← slot vt (lit "leaky_relu_forward") x;
  _ ← adopt_output rt y x;
  backend impl [ATensor x; AFloat negative_slope; ATensor y].

Definition leaky_relu_backward (x dY : ref) (negative_slope : Z) (dX : ref) : op Z :=
  vt ← dispatch rt [x; dY; dX];
  impl ← slot vt (lit "leaky_relu_backward") x;
  _ ← adopt_output rt dX x;
  backend impl [ATensor x; ATensor dY; AFloat negative_slope; ATensor dX].

Definition vq_encode_forward (x codebook indices quantized : ref) : op Z :=
  vt ← dispatch rt [x; codebook; indices; quantized];
  impl ← slot vt (lit "vq_encode_forward") x;
  _ ← adopt_output rt indices x;
  _ ← adopt_output rt quantized x;
  backend impl [ATensor x; ATensor codebook; ATensor indices; ATensor quantized].

Definition vq_encode_backward (dQuantized dX : ref) : op Z :=
  vt ← dispatch rt [dQuantized; dX];
  impl ← slot vt (lit "vq_encode_backward") dQuantized;
  _ ← adopt_output rt dX dQuantized;
  backend impl [ATensor dQuantized; ATensor dX].

Definition fsq_quantize_forward (x levels quantized packed_indices : ref) : op Z :=
  vt ← dispatch rt [x; levels; quantized; packed_indices];
  impl ← slot vt (lit "fsq_quantize_forward") x;
  _ ← adopt_output rt quantized x;
  _ ← adopt_output rt packed_indices x;
  backend impl [ATensor x; ATensor levels; ATensor quantized; ATensor packed_indices].

Definition fsq_quantize_backward (dQuantized dX : ref) : op Z :=
  vt ← dispatch rt [dQuantized; dX];
  impl ← slot vt (lit "fsq_quantize_backward") dQuantized;
  _ ← adopt_output rt dX dQuantized;
  backend impl [ATensor dQuantized; ATensor dX].

Definition resample1d_forward (X : ref) (N C L_in L_out mode : Z) (Y : ref) : op Z :=
  _ ← check_1d (lit "resample1d_forward") X (lit "X") N C L_in;
  vt ← dispatch rt [X; Y];
  impl ← slot vt (lit "resample1d_forward") X;
  _ ← adopt_output rt Y X;
  backend impl [ATensor X; AInt N; AInt C; AInt L_in; AInt L_out; AInt mode; ATensor Y].

Definition resample1d_backward (dY : ref) (N C L_in L_out mode : Z) (dX : ref) : op Z :=
  _ ← when ((N <=? 0) || (C <=? 0) || (L_in <=? 0))
    (throw_1d (lit "resample1d_backward") dY (lit "dY") N C L_in);
  _ ← check_1d (lit "resample1d_backward") dY (lit "dY") N C L_out;
  vt ← dispatch rt [dY; dX];
  impl ← slot vt (lit "resample1d_backward") dY;
  _ ← adopt_output rt dX dY;
  backend impl [ATensor dY; AInt N; AInt C; AInt L_in; AInt L_out; AInt mode; ATensor dX].

Definition log_forward (x y : ref) : op Z :=
  vt ← dispatch rt [x; y];
  impl ← slot vt (lit "log_forward") x;
  _ ← adopt_output rt y x;
  backend impl [ATensor x; ATensor y].

Definition log_backward (x dY dX : ref) : op Z :=
  vt ← dispatch rt [x; dY; dX];
  impl ← slot vt (lit "log_backward") x;
  _ ← adopt_output rt dX x;
  backend impl [ATensor x; ATensor dY; ATensor dX].

Definition exp_forward (x y : ref) : op Z :=
  vt ← dispatch rt [x; y];
  impl ← slot vt (lit "exp_forward") x;
  _ ← adopt_output rt y x;
  backend impl [ATensor x; ATensor y].

Definition exp_backward (x dY dX : ref) : op Z :=
  vt ← dispatch rt [x; dY; dX];
  impl ← slot vt (lit "exp_backward") x;
  _ ← adopt_output rt dX x;
  backend impl [ATensor x; ATensor dY; ATensor dX].

Definition round_forward (x y : ref) : op Z :=
  vt ← dispatch rt [x; y];
  impl ← slot vt (lit "round_forward") x;
  _ ← adopt_output rt y x;
  backend impl [ATensor x; ATensor y].

Definition round_backward (dY dX : ref) : op Z :=
  vt ← dispatch rt [dY; dX];
  impl ← slot vt (lit "round_backward") dY;
  _ ← adopt_output rt dX dY;
  backend impl [ATensor dY; ATensor dX].

Definition sample_logits (logits : ref) (temperature top_k top_p key counter : Z) (indices : ref) : op Z :=
  vt ← dispatch rt [logits; indices];
  impl ← slot vt (lit "sample_logits") logits;
  _ ← adopt_output rt indices logits;
  backend impl [ATensor logits; AFloat temperature; AInt top_k; AFloat top_p; AInt key; AInt counter;
    ATensor indices].

Definition sample_logits_into (logits : ref) (temperature top_k top_p key : Z) (counter scratch indices :
  ref) : op Z :=
  vt ← dispatch rt [logits; counter; scratch; indices];
  impl ← slot vt (lit "sample_logits_into") logits;
  _ ← adopt_output rt counter logits;
  _ ← adopt_output rt scratch logits;
  _ ← adopt_output rt indices logits;
  backend impl [ATensor logits; AFloat temperature; AInt top_k; AFloat top_p; AInt key; ATensor counter;
    ATensor scratch; ATensor indices].

Definition masked_diffusion_scores (logits tokens : ref) (T C V mask_id guidance_scale layer_penalty
  position_temperature class_temperature class_top_frac seed : Z) (pred scores confidence : ref) : op Z :=
  vt ← dispatch rt [logits; tokens; pred; scores; confidence];
  impl ← slot vt (lit "masked_diffusion_scores") logits;
  _ ← adopt_output rt pred logits;
  _ ← adopt_output rt scores logits;
  _ ← adopt_output rt confidence logits;
  backend impl [ATensor logits; ATensor tokens; AInt T; AInt C; AInt V; AInt mask_id; AFloat
    guidance_scale; AFloat layer_penalty; AFloat position_temperature; AFloat class_temperature; AFloat
    class_top_frac; AInt seed; ATensor pred; ATensor scores; ATensor confidence].

Definition masked_diffusion_commit (pred idx : ref) (k step : Z) (tokens unmask_step : ref) : op Z :=
  vt ← dispatch rt [pred; idx; tokens; unmask_step];
  impl ← slot vt (lit "masked_diffusion_commit") pred;
  backend impl [ATensor pred; ATensor idx; AInt k; AInt step; ATensor tokens; ATensor unmask_step].

Definition l2_norm_forward (X : ref) (head_dim num_heads eps : Z) (Y : ref) : op Z :=
  vt ← dispatch rt [X; Y];
  impl ← slot vt (lit "l2_norm_forward") X;
  _ ← adopt_output rt Y X;
  backend impl [ATensor X; AInt head_dim; AInt num_heads; AFloat eps; ATensor Y].

Definition l2_norm_backward (X : ref) (head_dim num_heads eps : Z) (dY dX : ref) : op Z :=
  vt ← dispatch rt [X; dY; dX];
  impl ← slot vt (lit "l2_norm_backward") X;
  _ ← adopt_output rt dX X;
  backend impl [ATensor X; AInt head_dim; AInt num_heads; AFloat eps; ATensor dY; ATensor dX].

Definition gated_delta_rule_chunked (Q K V a_raw beta log_A : ref) (num_heads d_k d_v : Z) (state O : ref)
  : op Z :=
  vt ← dispatch rt [Q; K; V; a_raw; beta; log_A; state; O];
  impl ← slot vt (lit "gated_delta_rule_chunked") Q;
  _ ← adopt_output rt state Q;
  _ ← adopt_output rt O Q;
  backend impl [ATensor Q; ATensor K; ATensor V; ATensor a_raw; ATensor beta; ATensor log_A; AInt
    num_heads; AInt d_k; AInt d_v; ATensor state; ATensor O].

Definition gated_delta_rule_step (Q K V a_raw beta log_A : ref) (num_heads d_k d_v : Z) (state O : ref) :
  op Z :=
  vt ← dispatch rt [Q; K; V; a_raw; beta; log_A; state; O];
  impl ← slot vt (lit "gated_delta_rule_step") Q;
  _ ← adopt_output rt state Q;
  _ ← adopt_output rt O Q;
  backend impl [ATensor Q; ATensor K; ATensor V; ATensor a_raw; ATensor beta; ATensor log_A; AInt
    num_heads; AInt d_k; AInt d_v; ATensor state; ATensor O].

Definition randn (key counter : Z) (Y : ref) : op Z :=
  vt ← dispatch rt [Y];
  impl ← slot vt (lit "randn") Y;
  _ ← adopt_output rt Y Y;
  backend impl [AInt key; AInt counter; ATensor Y].

Definition rand_uniform (key counter : Z) (Y : ref) : op Z :=
  vt ← dispatch rt [Y];
  impl ← slot vt (lit "rand_uniform") Y;
  _ ← adopt_output rt Y Y;
  backend impl [AInt key; AInt counter; ATensor Y].

Definition rand_bernoulli (p key counter : Z) (Y : ref) : op Z :=
  vt ← dispatch rt [Y];
  impl ← slot vt (lit "rand_bernoulli") Y;
  _ ← adopt_output rt Y Y;
  backend impl [AFloat p; AInt key; AInt counter; ATensor Y].

Definition randn_truncated (lo hi key counter : Z) (Y : ref) : op Z :=
  vt ← dispatch rt [Y];
  impl ← slot vt (lit "randn_truncated") Y;
  _ ← adopt_output rt Y Y;
  backend impl [AFloat lo; AFloat hi; AInt key; AInt counter; ATensor Y].

Definition sin_forward (x y : ref) : op Z :=
  vt ← dispatch rt [x; y];
  impl ← slot vt (lit "sin_forward") x;
  _ ← adopt_output rt y x;
  backend impl [ATensor x; ATensor y].

Definition sin_backward (x dY dX : ref) : op Z :=
  vt ← dispatch rt [x; dY; dX];
  impl ← slot vt (lit "sin_backward") x;
  _ ← adopt_output rt dX x;
  backend impl [ATensor x; ATensor dY; ATensor dX].

Definition cos_forward (x y : ref) : op Z :=
  vt ← dispatch rt [x; y];
  impl ← slot vt (lit "cos_forward") x;
  _ ← adopt_output rt y x;
  backend impl [ATensor x; ATensor y].

Definition cos_backward (x dY dX : ref) : op Z :=
  vt ← dispatch rt [x; dY; dX];
  impl ← slot vt (lit "cos_backward") x;
  _ ← adopt_output rt dX x;
  backend impl [ATensor x; ATensor dY; ATensor dX].

Definition rsqrt_forward (x y : ref) : op Z :=
  vt ← dispatch rt [x; y];
  impl ← slot vt (lit "rsqrt_forward") x;
  _ ← adopt_output rt y x;
  backend impl [ATensor x; ATensor y].

Definition rsqrt_backward (y dY dX : ref) : op Z :=
  vt ← dispatch rt [y; dY; dX];
  impl ← slot vt (lit "rsqrt_backward") y;
  _ ← adopt_output rt dX y;
  backend impl [ATensor y; ATensor dY; ATensor dX].

Definition pixel_norm_forward (X : ref) (eps : Z) (Y : ref) : op Z :=
  vt ← dispatch rt [X; Y];
  impl ← slot vt (lit "pixel_norm_forward") X;
  _ ← adopt_output rt Y X;
  backend impl [ATensor X; AFloat eps; ATensor Y].

Definition pixel_norm_backward (X dY : ref) (eps : Z) (dX : ref) : op Z :=
  vt ← dispatch rt [X; dY; dX];
  impl ← slot vt (lit "pixel_norm_backward") X;
  _ ← adopt_output rt dX X;
  backend impl [ATensor X; ATensor dY; AFloat eps; ATensor dX].
End Wrappers.

(** What the diffusion, quantisation, spectral, audio and sampling wrappers promise. *)
Definition ops_quant_audio_contract rt backend : Prop :=
  (forall x_t eps_pred alpha_t alpha_prev sigma_t x_prev,
    obeys rt backend [] (lit "ddim_step") [Some x_t; Some eps_pred; Some x_prev] x_t [Some x_prev]
      [ATensor x_t; ATensor eps_pred; AFloat alpha_t; AFloat alpha_prev; AFloat sigma_t; ATensor x_prev]
      (ddim_step rt backend x_t eps_pred alpha_t alpha_prev sigma_t x_prev)) /\
  (forall x_t eps_pred sigma_t sigma_prev x_prev,
    obeys rt backend [] (lit "euler_step") [Some x_t; Some eps_pred; Some x_prev] x_t [Some x_prev]
      [ATensor x_t; ATensor eps_pred; AFloat sigma_t; AFloat sigma_prev; ATensor x_prev]
      (euler_step rt backend x_t eps_pred sigma_t sigma_prev x_prev)) /\
  (forall x_t eps_pred x0_prev sigma_t c_xt c_x0t c_x0prev x_prev x0_out,
    obeys rt backend [] (lit "dpmpp_2m_step") [Some x_t; Some eps_pred; Some x0_prev; Some x_prev; Some
      x0_out] x_t [Some x_prev; Some x0_out]
      [ATensor x_t; ATensor eps_pred; ATensor x0_prev; AFloat sigma_t; AFloat c_xt; AFloat c_x0t; AFloat
        c_x0prev; ATensor x_prev; ATensor x0_out]
      (dpmpp_2m_step rt backend x_t eps_pred x0_prev sigma_t c_xt c_x0t c_x0prev x_prev x0_out)) /\
  (forall timesteps dim max_period Y,
    obeys rt backend [] (lit "timestep_embedding") [Some timesteps; Some Y] timesteps [Some Y]
      [ATensor timesteps; AInt dim; AFloat max_period; ATensor Y]
      (timestep_embedding rt backend timesteps dim max_period Y)) /\
  (forall W_int8 scales X Y,
    obeys rt backend [] (lit "matmul_int8w_fp16") [Some W_int8; Some scales; Some X; Some Y] W_int8 [Some Y]
      [ATensor W_int8; ATensor scales; ATensor X; ATensor Y]
      (matmul_int8w_fp16 rt backend W_int8 scales X Y)) /\
  (forall W_int8 scales bias X_BD Y_BD,
    obeys rt backend [] (lit "linear_forward_batched_int8w_fp16") [Some W_int8; Some scales; bias; Some
      X_BD; Some Y_BD] W_int8 [Some Y_BD]
      [ATensor W_int8; ATensor scales; AOpt bias; ATensor X_BD; ATensor Y_BD]
      (linear_forward_batched_int8w_fp16 rt backend W_int8 scales bias X_BD Y_BD)) /\
  (forall W fmt Wq scales,
    obeys rt backend [] (lit "quantize_rows") [Some W; Some Wq; Some scales] W [Some Wq; Some scales]
      [ATensor W; ADtype fmt; ATensor Wq; ATensor scales]
      (quantize_rows rt backend W fmt Wq scales)) /\
  (forall Wq scales bias X_BD act epilogue Y_BD,
    obeys rt backend [check_quant (lit "linear_forward_batched_wq_ex") Wq (lit "Wq")] (lit
      "linear_forward_batched_wq_ex") [Some Wq; Some scales; bias; Some X_BD; Some Y_BD] Wq [Some Y_BD]
      [ATensor Wq; ATensor scales; AOpt bias; ATensor X_BD; AInt act; AInt epilogue; ATensor Y_BD]
      (linear_forward_batched_wq_ex rt backend Wq scales bias X_BD act epilogue Y_BD)) /\
  (forall W_q4k W_fp16,
    obeys rt backend [check_quant_block_cols (lit "dequant_q4k_to_fp16") W_q4k (lit "W_q4k") Q4_K] (lit
      "dequant_q4k_to_fp16") [Some W_q4k; Some W_fp16] W_q4k [Some W_fp16]
      [ATensor W_q4k; ATensor W_fp16]
      (dequant_q4k_to_fp16 rt backend W_q4k W_fp16)) /\
  (forall W_q4k bias x y,
    obeys rt backend [check_quant_block_cols (lit "linear_forward_q4k_fp16") W_q4k (lit "W_q4k") Q4_K] (lit
      "linear_forward_q4k_fp16") [Some W_q4k; bias; Some x; Some y] W_q4k [Some y]
      [ATensor W_q4k; AOpt bias; ATensor x; ATensor y]
      (linear_forward_q4k_fp16 rt backend W_q4k bias x y)) /\
  (forall W_q4k bias X_BD Y_BD,
    obeys rt backend [check_quant_block_cols (lit "linear_forward_batched_q4k_fp16") W_q4k (lit "W_q4k")
      Q4_K] (lit "linear_forward_batched_q4k_fp16") [Some W_q4k; bias; Some X_BD; Some Y_BD] W_q4k [Some
      Y_BD]
      [ATensor W_q4k; AOpt bias; ATensor X_BD; ATensor Y_BD]
      (linear_forward_batched_q4k_fp16 rt backend W_q4k bias X_BD Y_BD)) /\
  (forall W_q8 W_fp16,
    obeys rt backend [check_quant_block_cols (lit "dequant_q8_0_to_fp16") W_q8 (lit "W_q8") Q8_0] (lit
      "dequant_q8_0_to_fp16") [Some W_q8; Some W_fp16] W_q8 [Some W_fp16]
      [ATensor W_q8; ATensor W_fp16]
      (dequant_q8_0_to_fp16 rt backend W_q8 W_fp16)) /\
  (forall W_q8 bias x y,
    obeys rt backend [check_quant_block_cols (lit "linear_forward_q8_0_fp16") W_q8 (lit "W_q8") Q8_0] (lit
      "linear_forward_q8_0_fp16") [Some W_q8; bias; Some x; Some y] W_q8 [Some y]
      [ATensor W_q8; AOpt bias; ATensor x; ATensor y]
      (linear_forward_q8_0_fp16 rt backend W_q8 bias x y)) /\
  (forall W_q8 bias X_BD Y_BD,
    obeys rt backend [check_quant_block_cols (lit "linear_forward_batched_q8_0_fp16") W_q8 (lit "W_q8")
      Q8_0] (lit "linear_forward_batched_q8_0_fp16") [Some W_q8; bias; Some X_BD; Some Y_BD] W_q8 [Some
      Y_BD]
      [ATensor W_q8; AOpt bias; ATensor X_BD; ATensor Y_BD]
      (linear_forward_batched_q8_0_fp16 rt backend W_q8 bias X_BD Y_BD)) /\
  (forall W_q6k W_fp16,
    obeys rt backend [check_quant_block_cols (lit "dequant_q6k_to_fp16") W_q6k (lit "W_q6k") Q6_K] (lit
      "dequant_q6k_to_fp16") [Some W_q6k; Some W_fp16] W_q6k [Some W_fp16]
      [ATensor W_q6k; ATensor W_fp16]
      (dequant_q6k_to_fp16 rt backend W_q6k W_fp16)) /\
  (forall W_q6k bias x y,
    obeys rt backend [check_quant_block_cols (lit "linear_forward_q6k_fp16") W_q6k (lit "W_q6k") Q6_K] (lit
      "linear_forward_q6k_fp16") [Some W_q6k; bias; Some x; Some y] W_q6k [Some y]
      [ATensor W_q6k; AOpt bias; ATensor x; ATensor y]
      (linear_forward_q6k_fp16 rt backend W_q6k bias x y)) /\
  (forall W_q6k bias X_BD Y_BD,
    obeys rt backend [check_quant_block_cols (lit "linear_forward_batched_q6k_fp16") W_q6k (lit "W_q6k")
      Q6_K] (lit "linear_forward_batched_q6k_fp16") [Some W_q6k; bias; Some X_BD; Some Y_BD] W_q6k [Some
      Y_BD]
      [ATensor W_q6k; AOpt bias; ATensor X_BD; ATensor Y_BD]
      (linear_forward_batched_q6k_fp16 rt backend W_q6k bias X_BD Y_BD)) /\
  (forall ctx Wk_int8 sk bk Wv_int8 sv bv K_out V_out,
    obeys rt backend [] (lit "flash_attention_project_kv_int8w_fp16") [Some ctx; Some Wk_int8; Some sk; bk;
      Some Wv_int8; Some sv; bv; Some K_out; Some V_out] ctx [Some K_out; Some V_out]
      [ATensor ctx; ATensor Wk_int8; ATensor sk; AOpt bk; ATensor Wv_int8; ATensor sv; AOpt bv; ATensor
        K_out; ATensor V_out]
      (flash_attention_project_kv_int8w_fp16 rt backend ctx Wk_int8 sk bk Wv_int8 sv bv K_out V_out)) /\
  (forall X K V Wq_int8 sq bq Wo_int8 so bo d_mask num_heads causal O,
    obeys rt backend [] (lit "flash_attention_q_with_kv_cached_int8w_fp16") [Some X; Some K; Some V; Some
      Wq_int8; Some sq; bq; Some Wo_int8; Some so; bo; Some O] X [Some O]
      [ATensor X; ATensor K; ATensor V; ATensor Wq_int8; ATensor sq; AOpt bq; ATensor Wo_int8; ATensor so;
        AOpt bo; APtr d_mask; AInt num_heads; ABool causal; ATensor O]
      (flash_attention_q_with_kv_cached_int8w_fp16 rt backend X K V Wq_int8 sq bq Wo_int8 so bo d_mask
        num_heads causal O)) /\
  (forall X Ctx Wq_int8 sq bq Wk_int8 sk bk Wv_int8 sv bv Wo_int8 so bo d_mask num_heads causal O,
    obeys rt backend [] (lit "flash_attention_qkvo_int8w_fp16") [Some X; Some Wq_int8; Ctx; Some sq; bq;
      Some Wk_int8; Some sk; bk; Some Wv_int8; Some sv; bv; Some Wo_int8; Some so; bo; Some O] X [Some O]
      [ATensor X; AOpt Ctx; ATensor Wq_int8; ATensor sq; AOpt bq; ATensor Wk_int8; ATensor sk; AOpt bk;
        ATensor Wv_int8; ATensor sv; AOpt bv; ATensor Wo_int8; ATensor so; AOpt bo; APtr d_mask; AInt
        num_heads; ABool causal; ATensor O]
      (flash_attention_qkvo_int8w_fp16 rt backend X Ctx Wq_int8 sq bq Wk_int8 sk bk Wv_int8 sv bv Wo_int8
        so bo d_mask num_heads causal O)) /\
  (forall a b y,
    obeys rt backend [] (lit "complex_mul") [Some a; Some b; Some y] a [Some y]
      [ATensor a; ATensor b; ATensor y]
      (complex_mul rt backend a b y)) /\
  (forall a b dY dA dB,
    obeys rt backend [] (lit "complex_mul_backward") [Some a; Some b; Some dY; Some dA; Some dB] a [Some
      dA; Some dB]
      [ATensor a; ATensor b; ATensor dY; ATensor dA; ATensor dB]
      (complex_mul_backward rt backend a b dY dA dB)) /\
  (forall z y,
    obeys rt backend [] (lit "complex_abs") [Some z; Some y] z [Some y]
      [ATensor z; ATensor y]
      (complex_abs rt backend z y)) /\
  (forall z dY dZ,
    obeys rt backend [] (lit "complex_abs_backward") [Some z; Some dY; Some dZ] z [Some dZ]
      [ATensor z; ATensor dY; ATensor dZ]
      (complex_abs_backward rt backend z dY dZ)) /\
  (forall z y,
    obeys rt backend [] (lit "complex_angle") [Some z; Some y] z [Some y]
      [ATensor z; ATensor y]
      (complex_angle rt backend z y)) /\
  (forall mag phase y,
    obeys rt backend [] (lit "complex_from_polar") [Some mag; Some phase; Some y] mag [Some y]
      [ATensor mag; ATensor phase; ATensor y]
      (complex_from_polar rt backend mag phase y)) /\
  (forall x y,
    obeys rt backend [] (lit "fft") [Some x; Some y] x [Some y]
      [ATensor x; ATensor y]
      (fft rt backend x y)) /\
  (forall x y,
    obeys rt backend [] (lit "ifft") [Some x; Some y] x [Some y]
      [ATensor x; ATensor y]
      (ifft rt backend x y)) /\
  (forall x y,
    obeys rt backend [] (lit "rfft") [Some x; Some y] x [Some y]
      [ATensor x; ATensor y]
      (rfft rt backend x y)) /\
  (forall x L y,
    obeys rt backend [] (lit "irfft") [Some x; Some y] x [Some y]
      [ATensor x; AInt L; ATensor y]
      (irfft rt backend x L y)) /\
  (forall dY L dX,
    obeys rt backend [] (lit "rfft_backward") [Some dY; Some dX] dY [Some dX]
      [ATensor dY; AInt L; ATensor dX]
      (rfft_backward rt backend dY L dX)) /\
  (forall dY dX,
    obeys rt backend [] (lit "irfft_backward") [Some dY; Some dX] dY [Some dX]
      [ATensor dY; ATensor dX]
      (irfft_backward rt backend dY dX)) /\
  (forall signal window N n_fft hop_length win_length center normalized spec,
    obeys rt backend [] (lit "stft") [Some signal; Some window; Some spec] signal [Some spec]
      [ATensor signal; ATensor window; AInt N; AInt n_fft; AInt hop_length; AInt win_length; ABool center;
        ABool normalized; ATensor spec]
      (stft rt backend signal window N n_fft hop_length win_length center normalized spec)) /\
  (forall dSpec window N signal_len n_fft hop_length win_length center normalized dSignal,
    obeys rt backend [] (lit "stft_backward") [Some dSpec; Some window; Some dSignal] dSpec [Some dSignal]
      [ATensor dSpec; ATensor window; AInt N; AInt signal_len; AInt n_fft; AInt hop_length; AInt
        win_length; ABool center; ABool normalized; ATensor dSignal]
      (stft_backward rt backend dSpec window N signal_len n_fft hop_length win_length center normalized
        dSignal)) /\
  (forall spec window N signal_len n_fft hop_length win_length center normalized signal,
    obeys rt backend [] (lit "istft") [Some spec; Some window; Some signal] spec [Some signal]
      [ATensor spec; ATensor window; AInt N; AInt signal_len; AInt n_fft; AInt hop_length; AInt win_length;
        ABool center; ABool normalized; ATensor signal]
      (istft rt backend spec window N signal_len n_fft hop_length win_length center normalized signal)) /\
  (forall dSignal window N signal_len n_fft hop_length win_length center normalized dSpec,
    obeys rt backend [] (lit "istft_backward") [Some dSignal; Some window; Some dSpec] dSignal [Some dSpec]
      [ATensor dSignal; ATensor window; AInt N; AInt signal_len; AInt n_fft; AInt hop_length; AInt
        win_length; ABool center; ABool normalized; ATensor dSpec]
      (istft_backward rt backend dSignal window N signal_len n_fft hop_length win_length center normalized
        dSpec)) /\
  (forall X Wt bias N C_in L C_out kL stride padding output_padding dilation groups Y,
    obeys rt backend [check_1d (lit "conv_transpose1d_forward") X (lit "X") N C_in L] (lit
      "conv_transpose1d_forward") [Some X; Some Wt; bias; Some Y] X [Some Y]
      [ATensor X; ATensor Wt; AOpt bias; AInt N; AInt C_in; AInt L; AInt C_out; AInt kL; AInt stride; AInt
        padding; AInt output_padding; AInt dilation; AInt groups; ATensor Y]
      (conv_transpose1d_forward rt backend X Wt bias N C_in L C_out kL stride padding output_padding
        dilation groups Y)) /\
  (forall Wt dY N C_in L C_out kL stride padding output_padding dilation groups dX,
    obeys rt backend [when ((N <=? 0) || (C_in <=? 0) || (L <=? 0) || (C_out <=? 0))
    (throw_1d (lit "conv_transpose1d_backward_input") dY (lit "dY") N C_in L)] (lit
      "conv_transpose1d_backward_input") [Some Wt; Some dY; Some dX] Wt [Some dX]
      [ATensor Wt; ATensor dY; AInt N; AInt C_in; AInt L; AInt C_out; AInt kL; AInt stride; AInt padding;
        AInt output_padding; AInt dilation; AInt groups; ATensor dX]
      (conv_transpose1d_backward_input rt backend Wt dY N C_in L C_out kL stride padding output_padding
        dilation groups dX)) /\
  (forall X dY N C_in L C_out kL stride padding output_padding dilation groups dWt,
    obeys rt backend [check_1d (lit "conv_transpose1d_backward_weight") X (lit "X") N C_in L] (lit
      "conv_transpose1d_backward_weight") [Some X; Some dY; Some dWt] X [Some dWt]
      [ATensor X; ATensor dY; AInt N; AInt C_in; AInt L; AInt C_out; AInt kL; AInt stride; AInt padding;
        AInt output_padding; AInt dilation; AInt groups; ATensor dWt]
      (conv_transpose1d_backward_weight rt backend X dY N C_in L C_out kL stride padding output_padding
        dilation groups dWt)) /\
  (forall dY N C_out L_out dB,
    obeys rt backend [check_1d (lit "conv_transpose1d_backward_bias") dY (lit "dY") N C_out L_out] (lit
      "conv_transpose1d_backward_bias") [Some dY; Some dB] dY [Some dB]
      [ATensor dY; AInt N; AInt C_out; AInt L_out; ATensor dB]
      (conv_transpose1d_backward_bias rt backend dY N C_out L_out dB)) /\
  (forall X Wt bias N C L_step kL dilation state Y,
    obeys rt backend [check_1d (lit "causal_conv1d_update") X (lit "X") N C L_step] (lit
      "causal_conv1d_update") [Some X; Some Wt; bias; Some state; Some Y] X [Some state; Some Y]
      [ATensor X; ATensor Wt; AOpt bias; AInt N; AInt C; AInt L_step; AInt kL; AInt dilation; ATensor
        state; ATensor Y]
      (causal_conv1d_update rt backend X Wt bias N C L_step kL dilation state Y)) /\
  (forall X N C L pad_left pad_right mode Y,
    obeys rt backend [check_1d (lit "pad1d_forward") X (lit "X") N C L] (lit "pad1d_forward") [Some X; Some
      Y] X [Some Y]
      [ATensor X; AInt N; AInt C; AInt L; AInt pad_left; AInt pad_right; AInt mode; ATensor Y]
      (pad1d_forward rt backend X N C L pad_left pad_right mode Y)) /\
  (forall dY N C L pad_left pad_right mode dX,
    obeys rt backend [when ((N <=? 0) || (C <=? 0) || (L <=? 0))
    (throw_1d (lit "pad1d_backward") dY (lit "dY") N C L); L_out ← int_of (ival L + ival pad_left + ival
      pad_right);
    when ((L_out >? 0))
    (check_1d (lit "pad1d_backward") dY (lit "dY") N C L_out)] (lit "pad1d_backward") [Some dY; Some dX] dY
      [Some dX]
      [ATensor dY; AInt N; AInt C; AInt L; AInt pad_left; AInt pad_right; AInt mode; ATensor dX]
      (pad1d_backward rt backend dY N C L pad_left pad_right mode dX)) /\
  (forall X alpha beta N C L Y,
    obeys rt backend [check_1d (lit "snake_forward") X (lit "X") N C L] (lit "snake_forward") [Some X; Some
      alpha; beta; Some Y] X [Some Y]
      [ATensor X; ATensor alpha; AOpt beta; AInt N; AInt C; AInt L; ATensor Y]
      (snake_forward rt backend X alpha beta N C L Y)) /\
  (forall X alpha beta dY N C L dX dAlpha dBeta,
    obeys rt backend [check_1d (lit "snake_backward") X (lit "X") N C L; check_1d (lit "snake_backward") dY
      (lit "dY") N C L] (lit "snake_backward") [Some X; Some alpha; beta; Some dY; Some dX; Some dAlpha;
      dBeta] X [Some dX; Some dAlpha; dBeta]
      [ATensor X; ATensor alpha; AOpt beta; ATensor dY; AInt N; AInt C; AInt L; ATensor dX; ATensor dAlpha;
        AOpt dBeta]
      (snake_backward rt backend X alpha beta dY N C L dX dAlpha dBeta)) /\
  (forall x alpha y,
    obeys rt backend [] (lit "elu_forward") [Some x; Some y] x [Some y]
      [ATensor x; AFloat alpha; ATensor y]
      (elu_forward rt backend x alpha y)) /\
  (forall x dY alpha dX,
    obeys rt backend [] (lit "elu_backward") [Some x; Some dY; Some dX] x [Some dX]
      [ATensor x; ATensor dY; AFloat alpha; ATensor dX]
      (elu_backward rt backend x dY alpha dX)) /\
  (forall x negative_slope y,
    obeys rt backend [] (lit "leaky_relu_forward") [Some x; Some y] x [Some y]
      [ATensor x; AFloat negative_slope; ATensor y]
      (leaky_relu_forward rt backend x negative_slope y)) /\
  (forall x dY negative_slope dX,
    obeys rt backend [] (lit "leaky_relu_backward") [Some x; Some dY; Some dX] x [Some dX]
      [ATensor x; ATensor dY; AFloat negative_slope; ATensor dX]
      (leaky_relu_backward rt backend x dY negative_slope dX)) /\
  (forall x codebook indices quantized,
    obeys rt backend [] (lit "vq_encode_forward") [Some x; Some codebook; Some indices; Some quantized] x
      [Some indices; Some quantized]
      [ATensor x; ATensor codebook; ATensor indices; ATensor quantized]
      (vq_encode_forward rt backend x codebook indices quantized)) /\
  (forall dQuantized dX,
    obeys rt backend [] (lit "vq_encode_backward") [Some dQuantized; Some dX] dQuantized [Some dX]
      [ATensor dQuantized; ATensor dX]
      (vq_encode_backward rt backend dQuantized dX)) /\
  (forall x levels quantized packed_indices,
    obeys rt backend [] (lit "fsq_quantize_forward") [Some x; Some levels; Some quantized; Some
      packed_indices] x [Some quantized; Some packed_indices]
      [ATensor x; ATensor levels; ATensor quantized; ATensor packed_indices]
      (fsq_quantize_forward rt backend x levels quantized packed_indices)) /\
  (forall dQuantized dX,
    obeys rt backend [] (lit "fsq_quantize_backward") [Some dQuantized; Some dX] dQuantized [Some dX]
      [ATensor dQuantized; ATensor dX]
      (fsq_quantize_backward rt backend dQuantized dX)) /\
  (forall X N C L_in L_out mode Y,
    obeys rt backend [check_1d (lit "resample1d_forward") X (lit "X") N C L_in] (lit "resample1d_forward")
      [Some X; Some Y] X [Some Y]
      [ATensor X; AInt N; AInt C; AInt L_in; AInt L_out; AInt mode; ATensor Y]
      (resample1d_forward rt backend X N C L_in L_out mode Y)) /\
  (forall dY N C L_in L_out mode dX,
    obeys rt backend [when ((N <=? 0) || (C <=? 0) || (L_in <=? 0))
    (throw_1d (lit "resample1d_backward") dY (lit "dY") N C L_in); check_1d (lit "resample1d_backward") dY
      (lit "dY") N C L_out] (lit "resample1d_backward") [Some dY; Some dX] dY [Some dX]
      [ATensor dY; AInt N; AInt C; AInt L_in; AInt L_out; AInt mode; ATensor dX]
      (resample1d_backward rt backend dY N C L_in L_out mode dX)) /\
  (forall x y,
    obeys rt backend [] (lit "log_forward") [Some x; Some y] x [Some y]
      [ATensor x; ATensor y]
      (log_forward rt backend x y)) /\
  (forall x dY dX,
    obeys rt backend [] (lit "log_backward") [Some x; Some dY; Some dX] x [Some dX]
      [ATensor x; ATensor dY; ATensor dX]
      (log_backward rt backend x dY dX)) /\
  (forall x y,
    obeys rt backend [] (lit "exp_forward") [Some x; Some y] x [Some y]
      [ATensor x; ATensor y]
      (exp_forward rt backend x y)) /\
  (forall x dY dX,
    obeys rt backend [] (lit "exp_backward") [Some x; Some dY; Some dX] x [Some dX]
      [ATensor x; ATensor dY; ATensor dX]
      (exp_backward rt backend x dY dX)) /\
  (forall x y,
    obeys rt backend [] (lit "round_forward") [Some x; Some y] x [Some y]
      [ATensor x; ATensor y]
      (round_forward rt backend x y)) /\
  (forall dY dX,
    obeys rt backend [] (lit "round_backward") [Some dY; Some dX] dY [Some dX]
      [ATensor dY; ATensor dX]
      (round_backward rt backend dY dX)) /\
  (forall logits temperature top_k top_p key counter indices,
    obeys rt backend [] (lit "sample_logits") [Some logits; Some indices] logits [Some indices]
      [ATensor logits; AFloat temperature; AInt top_k; AFloat top_p; AInt key; AInt counter; ATensor
        indices]
      (sample_logits rt backend logits temperature top_k top_p key counter indices)) /\
  (forall logits temperature top_k top_p key counter scratch indices,
    obeys rt backend [] (lit "sample_logits_into") [Some logits; Some counter; Some scratch; Some indices]
      logits [Some counter; Some scratch; Some indices]
      [ATensor logits; AFloat temperature; AInt top_k; AFloat top_p; AInt key; ATensor counter; ATensor
        scratch; ATensor indices]
      (sample_logits_into rt backend logits temperature top_k top_p key counter scratch indices)) /\
  (forall logits tokens T C V mask_id guidance_scale layer_penalty position_temperature class_temperature
    class_top_frac seed pred scores confidence,
    obeys rt backend [] (lit "masked_diffusion_scores") [Some logits; Some tokens; Some pred; Some scores;
      Some confidence] logits [Some pred; Some scores; Some confidence]
      [ATensor logits; ATensor tokens; AInt T; AInt C; AInt V; AInt mask_id; AFloat guidance_scale; AFloat
        layer_penalty; AFloat position_temperature; AFloat class_temperature; AFloat class_top_frac; AInt
        seed; ATensor pred; ATensor scores; ATensor confidence]
      (masked_diffusion_scores rt backend logits tokens T C V mask_id guidance_scale layer_penalty
        position_temperature class_temperature class_top_frac seed pred scores confidence)) /\
  (forall pred idx k step tokens unmask_step,
    obeys rt backend [] (lit "masked_diffusion_commit") [Some pred; Some idx; Some tokens; Some
      unmask_step] pred []
      [ATensor pred; ATensor idx; AInt k; AInt step; ATensor tokens; ATensor unmask_step]
      (masked_diffusion_commit rt backend pred idx k step tokens unmask_step)) /\
  (forall X head_dim num_heads eps Y,
    obeys rt backend [] (lit "l2_norm_forward") [Some X; Some Y] X [Some Y]
      [ATensor X; AInt head_dim; AInt num_heads; AFloat eps; ATensor Y]
      (l2_norm_forward rt backend X head_dim num_heads eps Y)) /\
  (forall X head_dim num_heads eps dY dX,
    obeys rt backend [] (lit "l2_norm_backward") [Some X; Some dY; Some dX] X [Some dX]
      [ATensor X; AInt head_dim; AInt num_heads; AFloat eps; ATensor dY; ATensor dX]
      (l2_norm_backward rt backend X head_dim num_heads eps dY dX)) /\
  (forall Q K V a_raw beta log_A num_heads d_k d_v state O,
    obeys rt backend [] (lit "gated_delta_rule_chunked") [Some Q; Some K; Some V; Some a_raw; Some beta;
      Some log_A; Some state; Some O] Q [Some state; Some O]
      [ATensor Q; ATensor K; ATensor V; ATensor a_raw; ATensor beta; ATensor log_A; AInt num_heads; AInt
        d_k; AInt d_v; ATensor state; ATensor O]
      (gated_delta_rule_chunked rt backend Q K V a_raw beta log_A num_heads d_k d_v state O)) /\
  (forall Q K V a_raw beta log_A num_heads d_k d_v state O,
    obeys rt backend [] (lit "gated_delta_rule_step") [Some Q; Some K; Some V; Some a_raw; Some beta; Some
      log_A; Some state; Some O] Q [Some state; Some O]
      [ATensor Q; ATensor K; ATensor V; ATensor a_raw; ATensor beta; ATensor log_A; AInt num_heads; AInt
        d_k; AInt d_v; ATensor state; ATensor O]
      (gated_delta_rule_step rt backend Q K V a_raw beta log_A num_heads d_k d_v state O)) /\
  (forall key counter Y,
    obeys rt backend [] (lit "randn") [Some Y] Y [Some Y]
      [AInt key; AInt counter; ATensor Y]
      (randn rt backend key counter Y)) /\
  (forall key counter Y,
    obeys rt backend [] (lit "rand_uniform") [Some Y] Y [Some Y]
      [AInt key; AInt counter; ATensor Y]
      (rand_uniform rt backend key counter Y)) /\
  (forall p key counter Y,
    obeys rt backend [] (lit "rand_bernoulli") [Some Y] Y [Some Y]
      [AFloat p; AInt key; AInt counter; ATensor Y]
      (rand_bernoulli rt backend p key counter Y)) /\
  (forall lo hi key counter Y,
    obeys rt backend [] (lit "randn_truncated") [Some Y] Y [Some Y]
      [AFloat lo; AFloat hi; AInt key; AInt counter; ATensor Y]
      (randn_truncated rt backend lo hi key counter Y)) /\
  (forall x y,
    obeys rt backend [] (lit "sin_forward") [Some x; Some y] x [Some y]
      [ATensor x; ATensor y]
      (sin_forward rt backend x y)) /\
  (forall x dY dX,
    obeys rt backend [] (lit "sin_backward") [Some x; Some dY; Some dX] x [Some dX]
      [ATensor x; ATensor dY; ATensor dX]
      (sin_backward rt backend x dY dX)) /\
  (forall x y,
    obeys rt backend [] (lit "cos_forward") [Some x; Some y] x [Some y]
      [ATensor x; ATensor y]
      (cos_forward rt backend x y)) /\
  (forall x dY dX,
    obeys rt backend [] (lit "cos_backward") [Some x; Some dY; Some dX] x [Some dX]
      [ATensor x; ATensor dY; ATensor dX]
      (cos_backward rt backend x dY dX)) /\
  (forall x y,
    obeys rt backend [] (lit "rsqrt_forward") [Some x; Some y] x [Some y]
      [ATensor x; ATensor y]
      (rsqrt_forward rt backend x y)) /\
  (forall y dY dX,
    obeys rt backend [] (lit "rsqrt_backward") [Some y; Some dY; Some dX] y [Some dX]
      [ATensor y; ATensor dY; ATensor dX]
      (rsqrt_backward rt backend y dY dX)) /\
  (forall X eps Y,
    obeys rt backend [] (lit "pixel_norm_forward") [Some X; Some Y] X [Some Y]
      [ATensor X; AFloat eps; ATensor Y]
      (pixel_norm_forward rt backend X eps Y)) /\
  (forall X dY eps dX,
    obeys rt backend [] (lit "pixel_norm_backward") [Some X; Some dY; Some dX] X [Some dX]
      [ATensor X; ATensor dY; AFloat eps; ATensor dX]
      (pixel_norm_backward rt backend X dY eps dX)).

Lemma ops_quant_audio_obey rt backend : ops_quant_audio_contract rt backend.
Proof. unfold ops_quant_audio_contract. repeat split_and; intros; wrapper. Qed.

(** A runtime whose CPU and Metal backends decode rows, and three tensors: the
    weights on Metal, their scales on the host, an empty output. *)
Module DequantEx.
Definition ops (f : positive) : OpsVTable := fun name => if str_eqb name (lit "dequantize_rows") then Some f else None.
Definition rt : runtime := mkRuntime
  (fun t => match t with
            | CPU => Some (mkSlot (ops 1) (IdealAlloc.table CPU))
            | Metal => Some (mkSlot (ops 2) (IdealAlloc.table Metal))
            | _ => None
            end) 0 0 true Dev.CPU0 true None [].
Definition Wq : Dispatch.operand := Dispatch.mkOperand true Dev.Metal0 INT8 4 32.
Definition scales : Dispatch.operand := Dispatch.mkOperand true Dev.CPU0 FP32 4 1.
Definition W (d : Device) : Dispatch.operand := Dispatch.mkOperand false d FP32 0 0.
Definition tensors (d : Device) : store := <[1%positive := Wq]> (<[2%positive := scales]> {[3%positive := W d]}).
End DequantEx.

(** [dequantize_rows] leaves its scales out of the dispatch. With the
    weights on the GPU and the scales on the host it throws nothing: the GPU's
    implementation is called with the host tensor. *)
Theorem dequantize_rows_unchecked_scales backend :
  dequantize_rows DequantEx.rt backend 1 2 FP32 3 (DequantEx.tensors Dev.CPU0) =
    backend 2%positive [ATensor 1; ATensor 2; ADtype FP32; ATensor 3] (DequantEx.tensors Dev.Metal0).
Proof. reflexivity. Qed.
