(* ===== verification/CpuRegister.v ===== *)
(** * The CPU backend's op table

    The list of ops of include/brotensor/detail/op_table.h and what the static
    registrar of src/cpu/register.cpp and [register_cpu_nn_ops] of
    src/cpu/register_nn.cpp assign to its slots, as slot and name of the
    implementation in [detail::cpu], in the order of the source. Where an
    implementation lives is a parameter. *)
From S2P Require Import Prelude Dtype Device Heap Runtime.

Section Register.
Context (addr : str -> positive).

(** [ops.slot = &impl;] *)
Definition assign (ops : OpsVTable) (a : str * str) : OpsVTable :=
  fun name => if str_eqb name a.1 then Some (addr a.2) else ops name.

(** [OpsVTable ops{};] *)
Definition no_ops : OpsVTable := fun _ => None.

Definition names (l : list string) : list str := map lit l.
Definition pairs (l : list (string * string)) : list (str * str) := map (fun a => (lit a.1, lit a.2)) l.

(** [BROTENSOR_FOR_EACH_OP]. *)
Definition op_table : list str := names [
   "linear_forward"; "linear_backward"; "relu_forward"; "relu_backward"; "tanh_forward";
   "tanh_backward"; "sigmoid_forward"; "sigmoid_backward"; "add_inplace"; "axpby_inplace";
   "add_scalar_inplace"; "scale_inplace"; "clamp"; "mul_inplace"; "div_inplace"; "build_slot_mask";
   "softmax_forward"; "softmax_backward"; "layernorm_forward"; "layernorm_backward";
   "attention_forward"; "attention_backward"; "mha_forward"; "mha_backward";
   "masked_mean_pool_forward"; "masked_mean_pool_backward"; "mse_vec_forward"; "mse_vec_backward";
   "mse_scalar"; "softmax_xent"; "softmax_xent_segment"; "softmax_xent_fused";
   "embedding_lookup_forward"; "embedding_lookup_backward"; "concat_rows"; "split_rows";
   "concat_batched_rows"; "concat_nchw_channels"; "concat_nchw_channels_backward"; "copy_d2d";
   "copy_d2d_strided"; "cast"; "layernorm_forward_inference_batched";
   "layernorm_forward_batched_with_caches"; "layernorm_backward_batched_with_caches"; "sgd_step";
   "adam_step"; "xavier_init"; "linear_forward_batched"; "relu_forward_batched";
   "tanh_forward_batched"; "add_inplace_batched"; "linear_backward_batched";
   "relu_backward_batched"; "tanh_backward_batched"; "mse_vec_per_sample";
   "softmax_xent_fused_batched"; "bce_with_logits_fused_batched"; "conv2d_forward";
   "conv2d_backward_input"; "conv2d_backward_weight"; "conv2d_backward_bias";
   "deform_conv2d_forward"; "conv3d_forward"; "conv3d_int8w_fp16_forward"; "group_norm_forward";
   "group_norm_backward"; "silu_forward"; "silu_backward"; "gelu_forward"; "gelu_backward";
   "gelu_exact_forward"; "gelu_exact_backward"; "quick_gelu_forward"; "quick_gelu_backward";
   "upsample_nearest_2x"; "upsample_bilinear_2x"; "downsample_avg_2x";
   "upsample_nearest_2x_backward"; "upsample_bilinear_2x_backward"; "downsample_avg_2x_backward";
   "interp2d_forward"; "interp2d_backward"; "interp2d_align_corners_forward"; "pad2d_forward";
   "pad2d_backward"; "slice2d_forward"; "slice2d_backward"; "unfold2d_forward";
   "l2_normalize_nchw_forward"; "convex_upsample_forward"; "top_k_rows";
   "adaptive_avg_pool2d_forward"; "adaptive_avg_pool2d_backward"; "max_pool2d_forward";
   "max_pool2d_backward"; "gather_rows"; "scatter_rows_add"; "scatter_rows";
   "conv_transpose2d_forward"; "conv_transpose2d_backward_input";
   "conv_transpose2d_backward_weight"; "conv_transpose2d_backward_bias"; "window_partition_forward";
   "window_reverse_forward"; "linear_forward_batched_fp16"; "linear_forward_batched_ex";
   "linear_forward_batched_fp16_act"; "geglu_forward"; "geglu_backward"; "geglu_exact_forward";
   "geglu_exact_backward"; "build_causal_mask_row"; "cross_attention_forward";
   "cross_attention_forward_with_attn"; "self_attention_forward_train"; "self_attention_backward";
   "attention_token_moments"; "cross_attention_forward_train"; "cross_attention_backward";
   "layernorm_forward_inference_batched_fp16"; "self_attention_forward"; "flash_attention_forward";
   "flash_attention_gqa_forward"; "flash_attention_windowed_forward";
   "flash_attention_varlen_forward"; "flash_attention_packed_qkv_forward";
   "flash_attention_packed_qkv_backward"; "flash_attention_varlen_backward";
   "flash_attention_qkvo_forward"; "flash_attention_qkvo_backward"; "flash_attention_backward";
   "flash_attention_project_kv"; "flash_attention_q_with_kv_cached_forward"; "nchw_to_sequence";
   "sequence_to_nchw"; "spatial_merge_2x2_forward"; "pixel_shuffle_upsample_2x_forward";
   "patch_unpack_forward"; "resblock_forward"; "resblock_forward_int8w_fp16"; "resblock_backward";
   "matmul"; "matmul_abt"; "matmul_backward"; "lstm_forward_train"; "lstm_backward"; "rope_forward";
   "rope_backward"; "rms_norm_forward"; "rms_norm_backward"; "swiglu_forward"; "swiglu_backward";
   "kv_cache_append"; "flash_attention_decode"; "flash_attention_decode_masked";
   "flash_attention_decode_len"; "sum_rows"; "sum_cols"; "argmax_rows"; "rows_count_above";
   "segment_softmax_stats"; "threshold_u8"; "ddim_step"; "euler_step"; "dpmpp_2m_step";
   "timestep_embedding"; "matmul_int8w_fp16"; "conv2d_int8w_fp16_forward";
   "linear_forward_batched_int8w_fp16"; "quantize_rows"; "dequantize_rows";
   "linear_forward_batched_wq_ex"; "dequant_q4k_to_fp16"; "linear_forward_q4k_fp16";
   "linear_forward_batched_q4k_fp16"; "dequant_q8_0_to_fp16"; "linear_forward_q8_0_fp16";
   "linear_forward_batched_q8_0_fp16"; "dequant_q6k_to_fp16"; "linear_forward_q6k_fp16";
   "linear_forward_batched_q6k_fp16"; "flash_attention_project_kv_int8w_fp16";
   "flash_attention_q_with_kv_cached_int8w_fp16"; "flash_attention_qkvo_int8w_fp16"; "modulate";
   "broadcast_mul"; "rope_apply"; "rope_apply_perhead"; "rope_apply_backward";
   "rope_qkv_packed_inplace"; "rope_apply_mrope"; "self_attention_bias_forward";
   "rel_pos_bias_xl_forward"; "self_attention_bias_int8w_fp16";
   "self_attention_decomposed_rel_pos_forward";
   "self_attention_decomposed_rel_pos_windowed_forward"; "complex_mul"; "complex_mul_backward";
   "complex_abs"; "complex_abs_backward"; "complex_angle"; "complex_from_polar"; "fft"; "ifft";
   "rfft"; "irfft"; "rfft_backward"; "irfft_backward"; "stft"; "stft_backward"; "istft";
   "istft_backward"; "conv_transpose1d_forward"; "conv_transpose1d_backward_input";
   "conv_transpose1d_backward_weight"; "conv_transpose1d_backward_bias"; "causal_conv1d_update";
   "pad1d_forward"; "pad1d_backward"; "snake_forward"; "snake_backward"; "elu_forward";
   "elu_backward"; "leaky_relu_forward"; "leaky_relu_backward"; "vq_encode_forward";
   "vq_encode_backward"; "fsq_quantize_forward"; "fsq_quantize_backward"; "resample1d_forward";
   "resample1d_backward"; "log_forward"; "log_backward"; "exp_forward"; "exp_backward";
   "round_forward"; "round_backward"; "sample_logits"; "sample_logits_into";
   "masked_diffusion_scores"; "masked_diffusion_commit"; "l2_norm_forward"; "l2_norm_backward";
   "gated_delta_rule_chunked"; "gated_delta_rule_step"; "batch_norm_forward";
   "batch_norm_inference"; "batch_norm_backward"; "image_normalize"; "image_u8_to_f32_nhwc_to_nchw";
   "randn"; "rand_uniform"; "rand_bernoulli"; "randn_truncated"; "sin_forward"; "sin_backward";
   "cos_forward"; "cos_backward"; "rsqrt_forward"; "rsqrt_backward"; "pixel_norm_forward";
   "pixel_norm_backward"; "modulated_conv2d_forward"; "modulated_conv2d_backward";
   "upfirdn2d_forward"; "upfirdn2d_backward"; "bias_act_forward"; "bias_act_backward";
   "filtered_lrelu_forward"; "filtered_lrelu_backward"; "add_channel_bias_inplace";
   "add_row_bias_inplace"; "softmax_rows_forward"].

Definition register_cpu_ops : list (str * str) := pairs [
   ("linear_forward", "linear_forward"); ("linear_backward", "linear_backward"); ("relu_forward",
   "relu_forward"); ("relu_backward", "relu_backward"); ("tanh_forward", "tanh_forward");
   ("tanh_backward", "tanh_backward"); ("sigmoid_forward", "sigmoid_forward"); ("sigmoid_backward",
   "sigmoid_backward"); ("softmax_forward", "softmax_forward"); ("softmax_rows_forward",
   "softmax_rows_forward"); ("softmax_backward", "softmax_backward"); ("softmax_xent", "softmax_xent");
   ("softmax_xent_segment", "softmax_xent_segment"); ("mse_scalar", "mse_scalar"); ("add_inplace",
   "add_inplace"); ("add_scalar_inplace", "add_scalar_inplace"); ("add_channel_bias_inplace",
   "add_channel_bias_inplace"); ("add_row_bias_inplace", "add_row_bias_inplace"); ("xavier_init",
   "xavier_init"); ("sgd_step", "sgd_step"); ("adam_step", "adam_step"); ("scale_inplace",
   "scale_inplace"); ("layernorm_forward", "layernorm_forward"); ("layernorm_backward",
   "layernorm_backward"); ("attention_forward", "attention_forward"); ("attention_backward",
   "attention_backward"); ("mha_forward", "mha_forward"); ("mha_backward", "mha_backward");
   ("concat_rows", "concat_rows"); ("split_rows", "split_rows"); ("add_inplace_batched",
   "add_inplace_batched"); ("linear_forward_batched", "linear_forward_batched");
   ("linear_backward_batched", "linear_backward_batched"); ("relu_forward_batched",
   "relu_forward_batched"); ("relu_backward_batched", "relu_backward_batched"); ("tanh_forward_batched",
   "tanh_forward_batched"); ("tanh_backward_batched", "tanh_backward_batched"); ("mse_vec_per_sample",
   "mse_vec_per_sample"); ("softmax_xent_fused_batched", "softmax_xent_fused_batched");
   ("bce_with_logits_fused_batched", "bce_with_logits_fused_batched"); ("masked_mean_pool_forward",
   "masked_mean_pool_forward"); ("masked_mean_pool_backward", "masked_mean_pool_backward");
   ("build_slot_mask", "build_slot_mask"); ("copy_d2d", "copy_d2d"); ("copy_d2d_strided",
   "copy_d2d_strided"); ("clamp", "clamp"); ("mul_inplace", "mul_inplace"); ("div_inplace",
   "div_inplace"); ("axpby_inplace", "axpby_inplace"); ("threshold_u8", "threshold_u8"); ("cast",
   "cast"); ("mse_vec_forward", "mse_vec_forward"); ("mse_vec_backward", "mse_vec_backward");
   ("softmax_xent_fused", "softmax_xent_fused"); ("embedding_lookup_forward",
   "embedding_lookup_forward"); ("embedding_lookup_backward", "embedding_lookup_backward");
   ("concat_batched_rows", "concat_batched_rows"); ("concat_nchw_channels", "concat_nchw_channels");
   ("concat_nchw_channels_backward", "concat_nchw_channels_backward"); ("sum_rows", "sum_rows");
   ("sum_cols", "sum_cols"); ("argmax_rows", "argmax_rows"); ("rows_count_above", "rows_count_above");
   ("layernorm_forward_inference_batched", "layernorm_forward_inference_batched");
   ("layernorm_forward_inference_batched_fp16", "layernorm_forward_inference_batched_fp16");
   ("layernorm_forward_batched_with_caches", "layernorm_forward_batched_with_caches");
   ("layernorm_backward_batched_with_caches", "layernorm_backward_batched_with_caches");
   ("build_causal_mask_row", "build_causal_mask_row"); ("silu_forward", "silu_forward");
   ("silu_backward", "silu_backward"); ("gelu_forward", "gelu_forward"); ("gelu_backward",
   "gelu_backward"); ("gelu_exact_forward", "gelu_exact_forward"); ("gelu_exact_backward",
   "gelu_exact_backward"); ("quick_gelu_forward", "quick_gelu_forward"); ("quick_gelu_backward",
   "quick_gelu_backward"); ("geglu_forward", "geglu_forward"); ("geglu_backward", "geglu_backward");
   ("geglu_exact_forward", "geglu_exact_forward"); ("geglu_exact_backward", "geglu_exact_backward");
   ("swiglu_forward", "swiglu_forward"); ("swiglu_backward", "swiglu_backward"); ("matmul", "matmul");
   ("matmul_abt", "matmul_abt"); ("matmul_backward", "matmul_backward"); ("rope_forward",
   "rope_forward"); ("rope_backward", "rope_backward"); ("rms_norm_forward", "rms_norm_forward");
   ("rms_norm_backward", "rms_norm_backward"); ("conv2d_forward", "conv2d_forward");
   ("conv2d_backward_input", "conv2d_backward_input"); ("conv2d_backward_weight",
   "conv2d_backward_weight"); ("conv2d_backward_bias", "conv2d_backward_bias");
   ("deform_conv2d_forward", "deform_conv2d_forward"); ("conv3d_forward", "conv3d_forward");
   ("group_norm_forward", "group_norm_forward"); ("group_norm_backward", "group_norm_backward");
   ("upsample_nearest_2x", "upsample_nearest_2x"); ("upsample_bilinear_2x", "upsample_bilinear_2x");
   ("downsample_avg_2x", "downsample_avg_2x"); ("upsample_nearest_2x_backward",
   "upsample_nearest_2x_backward"); ("upsample_bilinear_2x_backward", "upsample_bilinear_2x_backward");
   ("downsample_avg_2x_backward", "downsample_avg_2x_backward"); ("interp2d_forward",
   "interp2d_forward"); ("interp2d_backward", "interp2d_backward"); ("interp2d_align_corners_forward",
   "interp2d_align_corners_forward"); ("pad2d_forward", "pad2d_forward"); ("pad2d_backward",
   "pad2d_backward"); ("slice2d_forward", "slice2d_forward"); ("slice2d_backward", "slice2d_backward");
   ("unfold2d_forward", "unfold2d_forward"); ("l2_normalize_nchw_forward", "l2_normalize_nchw_forward");
   ("convex_upsample_forward", "convex_upsample_forward"); ("top_k_rows", "top_k_rows");
   ("adaptive_avg_pool2d_forward", "adaptive_avg_pool2d_forward"); ("adaptive_avg_pool2d_backward",
   "adaptive_avg_pool2d_backward"); ("max_pool2d_forward", "max_pool2d_forward");
   ("max_pool2d_backward", "max_pool2d_backward"); ("gather_rows", "gather_rows"); ("scatter_rows_add",
   "scatter_rows_add"); ("scatter_rows", "scatter_rows"); ("conv_transpose2d_forward",
   "conv_transpose2d_forward"); ("conv_transpose2d_backward_input", "conv_transpose2d_backward_input");
   ("conv_transpose2d_backward_weight", "conv_transpose2d_backward_weight");
   ("conv_transpose2d_backward_bias", "conv_transpose2d_backward_bias"); ("window_partition_forward",
   "window_partition_forward"); ("window_reverse_forward", "window_reverse_forward");
   ("nchw_to_sequence", "nchw_to_sequence"); ("sequence_to_nchw", "sequence_to_nchw"); ("ddim_step",
   "ddim_step"); ("euler_step", "euler_step"); ("dpmpp_2m_step", "dpmpp_2m_step");
   ("timestep_embedding", "timestep_embedding"); ("kv_cache_append", "kv_cache_append");
   ("flash_attention_decode", "flash_attention_decode"); ("flash_attention_decode_masked",
   "flash_attention_decode_masked"); ("flash_attention_decode_len", "flash_attention_decode_len")].

Definition register_cpu_nn_ops : list (str * str) := pairs [
   ("lstm_forward_train", "lstm_forward_train"); ("lstm_backward", "lstm_backward");
   ("cross_attention_forward", "cross_attention_forward"); ("cross_attention_forward_with_attn",
   "cross_attention_forward_with_attn"); ("self_attention_forward_train",
   "self_attention_forward_train"); ("self_attention_backward", "self_attention_backward");
   ("attention_token_moments", "attention_token_moments"); ("cross_attention_forward_train",
   "cross_attention_forward_train"); ("cross_attention_backward", "cross_attention_backward");
   ("flash_attention_forward", "flash_attention_forward"); ("flash_attention_gqa_forward",
   "flash_attention_gqa_forward"); ("flash_attention_windowed_forward",
   "flash_attention_windowed_forward"); ("flash_attention_varlen_forward",
   "flash_attention_varlen_forward"); ("flash_attention_varlen_backward",
   "flash_attention_varlen_backward"); ("flash_attention_packed_qkv_forward",
   "flash_attention_packed_qkv_forward"); ("flash_attention_packed_qkv_backward",
   "flash_attention_packed_qkv_backward"); ("rope_qkv_packed_inplace", "rope_qkv_packed_inplace");
   ("segment_softmax_stats", "segment_softmax_stats"); ("linear_forward_batched_ex",
   "linear_forward_batched_ex"); ("quantize_rows", "quantize_rows"); ("dequantize_rows",
   "dequantize_rows"); ("linear_forward_batched_wq_ex", "linear_forward_batched_wq_ex");
   ("flash_attention_qkvo_forward", "flash_attention_qkvo_forward"); ("flash_attention_qkvo_backward",
   "flash_attention_qkvo_backward"); ("flash_attention_backward", "flash_attention_backward");
   ("flash_attention_project_kv", "flash_attention_project_kv");
   ("flash_attention_q_with_kv_cached_forward", "flash_attention_q_with_kv_cached_forward");
   ("self_attention_forward", "self_attention_forward"); ("resblock_forward", "resblock_forward");
   ("resblock_backward", "resblock_backward"); ("modulate", "modulate"); ("broadcast_mul",
   "broadcast_mul"); ("rope_apply", "rope_apply"); ("rope_apply_perhead", "rope_apply_perhead");
   ("rope_apply_backward", "rope_apply_backward"); ("self_attention_bias_forward",
   "self_attention_bias_forward"); ("rel_pos_bias_xl_forward", "rel_pos_bias_xl_forward");
   ("self_attention_decomposed_rel_pos_forward", "self_attention_decomposed_rel_pos_forward");
   ("self_attention_decomposed_rel_pos_windowed_forward",
   "self_attention_decomposed_rel_pos_windowed_forward"); ("complex_mul", "complex_mul");
   ("complex_mul_backward", "complex_mul_backward"); ("complex_abs", "complex_abs");
   ("complex_abs_backward", "complex_abs_backward"); ("complex_angle", "complex_angle");
   ("complex_from_polar", "complex_from_polar"); ("fft", "fft"); ("ifft", "ifft"); ("rfft", "rfft");
   ("irfft", "irfft"); ("rfft_backward", "rfft_backward"); ("irfft_backward", "irfft_backward");
   ("stft", "stft"); ("stft_backward", "stft_backward"); ("istft", "istft"); ("istft_backward",
   "istft_backward"); ("conv_transpose1d_forward", "conv_transpose1d_forward");
   ("conv_transpose1d_backward_input", "conv_transpose1d_backward_input");
   ("conv_transpose1d_backward_weight", "conv_transpose1d_backward_weight");
   ("conv_transpose1d_backward_bias", "conv_transpose1d_backward_bias"); ("causal_conv1d_update",
   "causal_conv1d_update"); ("pad1d_forward", "pad1d_forward"); ("pad1d_backward", "pad1d_backward");
   ("snake_forward", "snake_forward"); ("snake_backward", "snake_backward"); ("elu_forward",
   "elu_forward"); ("elu_backward", "elu_backward"); ("leaky_relu_forward", "leaky_relu_forward");
   ("leaky_relu_backward", "leaky_relu_backward"); ("vq_encode_forward", "vq_encode_forward");
   ("vq_encode_backward", "vq_encode_backward"); ("fsq_quantize_forward", "fsq_quantize_forward");
   ("fsq_quantize_backward", "fsq_quantize_backward"); ("resample1d_forward", "resample1d_forward");
   ("resample1d_backward", "resample1d_backward"); ("log_forward", "log_forward"); ("log_backward",
   "log_backward"); ("exp_forward", "exp_forward"); ("exp_backward", "exp_backward"); ("round_forward",
   "round_forward"); ("round_backward", "round_backward"); ("sample_logits", "sample_logits");
   ("sample_logits_into", "sample_logits_into"); ("masked_diffusion_scores", "masked_diffusion_scores");
   ("masked_diffusion_commit", "masked_diffusion_commit"); ("randn", "randn"); ("rand_uniform",
   "rand_uniform"); ("rand_bernoulli", "rand_bernoulli"); ("randn_truncated", "randn_truncated");
   ("l2_norm_forward", "l2_norm_forward"); ("l2_norm_backward", "l2_norm_backward");
   ("gated_delta_rule_chunked", "gated_delta_rule_chunked"); ("gated_delta_rule_step",
   "gated_delta_rule_step"); ("spatial_merge_2x2_forward", "spatial_merge_2x2_forward");
   ("pixel_shuffle_upsample_2x_forward", "pixel_shuffle_upsample_2x_forward"); ("patch_unpack_forward",
   "patch_unpack_forward"); ("rope_apply_mrope", "rope_apply_mrope"); ("batch_norm_forward",
   "batch_norm_forward"); ("batch_norm_inference", "batch_norm_inference"); ("batch_norm_backward",
   "batch_norm_backward"); ("image_normalize", "image_normalize"); ("image_u8_to_f32_nhwc_to_nchw",
   "image_u8_to_f32_nhwc_to_nchw"); ("sin_forward", "sin_forward"); ("sin_backward", "sin_backward");
   ("cos_forward", "cos_forward"); ("cos_backward", "cos_backward"); ("rsqrt_forward", "rsqrt_forward");
   ("rsqrt_backward", "rsqrt_backward"); ("pixel_norm_forward", "pixel_norm_forward");
   ("pixel_norm_backward", "pixel_norm_backward"); ("bias_act_forward", "bias_act_forward");
   ("bias_act_backward", "bias_act_backward"); ("upfirdn2d_forward", "upfirdn2d_forward");
   ("upfirdn2d_backward", "upfirdn2d_backward"); ("modulated_conv2d_forward",
   "modulated_conv2d_forward"); ("modulated_conv2d_backward", "modulated_conv2d_backward");
   ("dequant_q8_0_to_fp16", "dequant_q8_0_to_fp16"); ("linear_forward_q8_0_fp16",
   "linear_forward_q8_0_fp16"); ("linear_forward_batched_q8_0_fp16",
   "linear_forward_batched_q8_0_fp16"); ("dequant_q4k_to_fp16", "dequant_q4k_to_fp16");
   ("linear_forward_q4k_fp16", "linear_forward_q4k_fp16"); ("linear_forward_batched_q4k_fp16",
   "linear_forward_batched_q4k_fp16"); ("dequant_q6k_to_fp16", "dequant_q6k_to_fp16");
   ("linear_forward_q6k_fp16", "linear_forward_q6k_fp16"); ("linear_forward_batched_q6k_fp16",
   "linear_forward_batched_q6k_fp16"); ("matmul_int8w_fp16", "matmul_int8w_fp16");
   ("linear_forward_batched_int8w_fp16", "linear_forward_batched_int8w_fp16")].

Definition cpu_ops : OpsVTable :=
  foldl assign (foldl assign no_ops register_cpu_ops) register_cpu_nn_ops.

(** [CpuStaticRegistrar]. *)
Definition CpuStaticRegistrar (cpu_alloc_table : AllocVTable) (rt : runtime) : runtime :=
  Registry.register_backend CPU cpu_ops cpu_alloc_table rt.

(** The slots left null, by the comments of the sources and the op table. *)
Definition cpu_null : list str := names [
   "conv3d_int8w_fp16_forward"; "linear_forward_batched_fp16"; "linear_forward_batched_fp16_act";
   "resblock_forward_int8w_fp16"; "conv2d_int8w_fp16_forward";
   "flash_attention_project_kv_int8w_fp16"; "flash_attention_q_with_kv_cached_int8w_fp16";
   "flash_attention_qkvo_int8w_fp16"; "self_attention_bias_int8w_fp16"; "filtered_lrelu_forward";
   "filtered_lrelu_backward"].

(** ** What the table holds *)
Definition mem (n : str) (l : list str) : bool := existsb (str_eqb n) l.

Lemma mem_spec n l : mem n l = true <-> n ∈ l.
Proof.
  unfold mem. rewrite existsb_exists. split.
  - intros (m & Hm & E). destruct (str_eqb_spec n m) as [->|]; [by apply list_elem_of_In|done].
  - intros H. exists n. split; [by apply list_elem_of_In|]. by destruct (str_eqb_spec n n).
Qed.

(** Assignments of every slot to the implementation of its own name. *)
Lemma assign_same l ops n : forallb (fun a => str_eqb a.1 a.2) l = true ->
  foldl assign ops l n = if mem n (map fst l) then Some (addr n) else ops n.
Proof.
  revert ops. induction l as [|[a b] l IH]; intros ops H; cbn in *; [done|].
  apply andb_true_iff in H as [Hab H]. destruct (str_eqb_spec a b) as [<-|]; [|done].
  rewrite IH by done. unfold mem. cbn. unfold assign at 1. cbn.
  destruct (existsb (str_eqb n) (map fst l)); [by rewrite orb_true_r|rewrite orb_false_r].
  by destruct (str_eqb_spec n a) as [->|].
Qed.

Definition registered : list str := map fst (register_cpu_ops ++ register_cpu_nn_ops).

Lemma cpu_ops_eq n : cpu_ops n = if mem n registered then Some (addr n) else None.
Proof.
  unfold cpu_ops. rewrite !assign_same by (vm_compute; reflexivity).
  unfold registered, mem. rewrite map_app, existsb_app.
  destruct (existsb _ (map fst register_cpu_nn_ops)); [by rewrite orb_true_r|by rewrite orb_false_r].
Qed.
End Register.

Lemma registered_in_table :
  forallb (fun n => mem n op_table) registered = true /\
  forallb (fun n => negb (eqb (mem n registered) (mem n cpu_null))) op_table = true /\
  forallb (fun n => mem n op_table) cpu_null = true.
Proof. vm_compute. auto. Qed.

(** The CPU's table is filled without a slip: each slot of the op table
    either holds the CPU implementation of the op of that name or is one of the
    eleven left null on purpose, and nothing else is in it. Looked up in a
    runtime with the CPU backend registered, that is what dispatch finds for
    host tensors. *)
Theorem cpu_table_exact (addr : str -> positive) alloc rt n :
  exists v, Registry.ops_for (CpuStaticRegistrar addr alloc rt) Dev.CPU0 = Ret v /\
    (n ∈ op_table -> n ∉ cpu_null -> v n = Some (addr n)) /\
    (n ∈ cpu_null -> n ∈ op_table /\ v n = None) /\
    (n ∉ op_table -> v n = None).
Proof.
  exists (cpu_ops addr). split; [done|]. destruct registered_in_table as (H1 & H2 & H3).
  rewrite forallb_forall in H1, H2, H3.
  assert (Hx : n ∈ op_table -> mem n registered = negb (mem n cpu_null)).
  { intros Hn%list_elem_of_In. specialize (H2 n Hn). by destruct (mem n registered), (mem n cpu_null). }
  assert (Hno : n ∉ op_table -> mem n registered = false).
  { intros Hn. destruct (mem n registered) eqn:E; [|done]. apply mem_spec, list_elem_of_In, H1, mem_spec in E. done. }
  assert (Hnull : forall b, mem n cpu_null = b -> (n ∈ cpu_null) <-> b = true).
  { intros b <-. symmetry. apply mem_spec. }
  rewrite cpu_ops_eq. split; [|split].
  - intros Hn Hc. rewrite Hx by done. destruct (mem n cpu_null) eqn:E; [|done]. by apply mem_spec in E.
  - intros Hc. assert (Hn : n ∈ op_table) by by apply mem_spec, H3, list_elem_of_In.
    split; [done|]. rewrite Hx by done. apply mem_spec in Hc. by rewrite Hc.
  - intros Hn. by rewrite Hno.
Qed.
