(* ===== verification/OpsSpec.v ===== *)
(** * The public ops as a whole

    The wrapper contract over all four files of wrappers, and the way from a
    public op to the CPU implementation of its name. *)
From S2P Require Import Prelude Dtype Device Heap Runtime OpWrap Ops OpsSpatial OpsAttention OpsQuantAudio CpuRegister.

(** C10: every public op with the common wrapper shape, 264 of them, keeps the
    wrapper contract. It runs its guards first, and the first that throws, or
    whose [int] arithmetic overflows, is the outcome, with every tensor as it was.
    Then it either refuses, with a reason and with every tensor as it was, or
    calls the slot of its own name in the table of the one device its committed
    operands share, with every tensor it hands over among the operands it checked.
    Before the call it moves the uncommitted ones among the outputs its clause
    lists to the device of the operand it goes by, and no other tensor: the
    clauses list every tensor that is not [const], but for
    [rope_qkv_packed_inplace] and [masked_diffusion_commit], whose clauses list
    none. *)
Theorem op_wrappers_obey rt backend :
  ops_contract rt backend /\ ops_spatial_contract rt backend /\
  ops_attention_contract rt backend /\ ops_quant_audio_contract rt backend.
Proof. auto using ops_obey, ops_spatial_obey, ops_attention_obey, ops_quant_audio_obey. Qed.

(** A runtime whose Metal backend has one op, an operand on Metal and an output
    still tagged for the host. *)
Module WrapEx.
Definition rt : runtime := mkRuntime
  (fun t => match t with
            | CPU => Some (mkSlot (fun _ => None) (IdealAlloc.table CPU))
            | Metal => Some (mkSlot (fun name => if str_eqb name (lit "relu_forward") then Some 7%positive else None) (IdealAlloc.table Metal))
            | _ => None
            end) 0 0 true Dev.CPU0 true None [].
Definition x : Dispatch.operand := Dispatch.mkOperand true Dev.Metal0 FP32 4 32.
Definition y (d : Device) : Dispatch.operand := Dispatch.mkOperand false d FP32 0 0.
Definition tensors (d : Device) : store := <[1%positive := x]> {[2%positive := y d]}.
(** The implementation returns its own address. *)
Definition backend (f : positive) (args : list arg) : op Z := mret (Zpos f).

Lemma operands_bound : bound [Some 1%positive; Some 2%positive] (tensors Dev.CPU0).
Proof. intros t [[= ->]|[[= ->]|[]%not_elem_of_nil]%elem_of_cons]%elem_of_cons; by eexists. Qed.
End WrapEx.

Lemma op_wrappers_obey_witness :
  relu_forward WrapEx.rt WrapEx.backend 1 2 (WrapEx.tensors Dev.CPU0) = (Ret 7, WrapEx.tensors Dev.Metal0) /\
  calls WrapEx.rt WrapEx.backend (lit "relu_forward") [Some 1%positive; Some 2%positive] 1 [Some 2%positive]
    [ATensor 1; ATensor 2] (relu_forward WrapEx.rt WrapEx.backend 1 2) (WrapEx.tensors Dev.CPU0).
Proof.
  split; [reflexivity|]. destruct (op_wrappers_obey WrapEx.rt WrapEx.backend) as [(_ & _ & H & _) _].
  destruct (H 1%positive 2%positive _ WrapEx.operands_bound) as [(e & E & _)|Hc]; [|exact Hc].
  exfalso. assert (F : relu_forward WrapEx.rt WrapEx.backend 1 2 (WrapEx.tensors Dev.CPU0) = (Ret 7, WrapEx.tensors Dev.Metal0)) by reflexivity.
  rewrite F in E. discriminate E.
Defined.
