(* ===== verification/Ptx.v ===== *)
(** * PTX: instructions, machine and emission

    The instructions the trace JIT's CUDA emitters write
    (src/jit/ptx_emit_detail.h, src/jit/ptx_emit_elementwise.cpp), the text
    each is written as, what each does to a thread, and the emitters' state:
    the register counters of [Alloc] and the stream. A float register holds a
    bit pattern; the float operations of the GPU are a parameter. A thread that
    reads or writes an address that is not there, or not aligned for the width
    of the access, faults: it has no next state. *)
From stdpp Require Import functions.
From S2P Require Import Prelude.

(** ** Instructions

    Registers by number: [%f], [%r], [%rd], [%h] and [%p] are separate banks. *)
Inductive fop : Type := FReg (f : Z) | FImm (bits : Z).
Inductive fbin : Type := FAdd | FSub | FMul | FDiv | FMin | FMax.
Inductive fun1 : Type := FNeg | FMov | FEx2 | FRcp | FTanh.
Inductive param : Type := PN | POut (m : Z) | PIn (k : Z).
Inductive special : Type := TidX | NtidX | CtaidX | NctaidX.
Inductive label : Type := Head | Exit.

Inductive instr : Type :=
  | ShrU32 (d x n : Z)
  | ShlB32 (d x n : Z)
  | AndB32 (d x k : Z)
  | MulHiU32 (d x k : Z)
  | MulLoU32 (d x k : Z)
  | MulLoReg (d x y : Z)
  | MadLoU32 (d x y z : Z)
  | AddU32 (d x y : Z)
  | SubU32 (d x y : Z)
  | MovU32 (d k : Z)
  | MovSpecial (d : Z) (s : special)
  | LdParamU32 (d : Z) (p : param)
  | LdParamU64 (d : Z) (p : param)
  | MulWideU32 (rd x k : Z)
  | AddU64 (rd a b : Z)
  | SetpGeU32 (p x y : Z)
  | FBin (op : fbin) (d : Z) (a b : fop)
  | FUn (op : fun1) (d a : Z)
  | FFma (d : Z) (a b c : fop)
  | SetpNe (p a k : Z)
  | Selp (d a b p : Z)
  | CvtF16F32 (h a : Z)
  | CvtF32F16 (d h : Z)
  | CvtBf16F32 (h a : Z)
  | CvtU32U16 (r h : Z)
  | MovB32F (d r : Z)
  | MovUnpack (h0 h1 r : Z)
  | MovPack (r h0 h1 : Z)
  | LdF32 (ds : list Z) (addr : Z)
  | LdB16 (h addr : Z)
  | LdU32 (ds : list Z) (addr : Z)
  | StF32 (addr : Z) (vs : list Z)
  | StB16 (addr h : Z)
  | StU32 (addr : Z) (ws : list Z)
  | Label (l : label)
  | BraIf (p : Z) (l : label)
  | Bra (l : label)
  | RetI.

(** *** Their text *)
Definition rF (n : Z) : str := lit "%f" ++ to_string n.
Definition rR (n : Z) : str := lit "%r" ++ to_string n.
Definition rRD (n : Z) : str := lit "%rd" ++ to_string n.
Definition rH (n : Z) : str := lit "%h" ++ to_string n.
Definition rP (n : Z) : str := lit "%p" ++ to_string n.

Definition hex_upper (n : Z) : byte :=
  nth (Z.to_nat (n mod 16)) (lit "0123456789ABCDEF") x00.

(** [fhex]: [0f] and eight hex digits. *)
Definition fhex (bits : Z) : str :=
  lit "0f" ++ map (fun i => hex_upper (Z.shiftr bits (4 * i))) [7; 6; 5; 4; 3; 2; 1; 0].

Definition fop_text (o : fop) : str := match o with FReg f => rF f | FImm b => fhex b end.
Definition fbin_text (op : fbin) : str :=
  lit (match op with FAdd => "add.f32" | FSub => "sub.f32" | FMul => "mul.f32" | FDiv => "div.rn.f32"
       | FMin => "min.f32" | FMax => "max.f32" end).
Definition fun1_text (op : fun1) : str :=
  lit (match op with FNeg => "neg.f32" | FMov => "mov.f32" | FEx2 => "ex2.approx.f32"
       | FRcp => "rcp.approx.f32" | FTanh => "tanh.approx.f32" end).
Definition special_text (s : special) : str :=
  lit (match s with TidX => "%tid.x" | NtidX => "%ntid.x" | CtaidX => "%ctaid.x" | NctaidX => "%nctaid.x" end).
Definition param_text (name : str) (p : param) : str :=
  name ++ (match p with PN => lit "_n" | POut m => lit "_out_" ++ to_string m | PIn k => lit "_in_" ++ to_string k end).
Definition label_text (name : str) (l : label) : str :=
  lit "$L_" ++ name ++ lit (match l with Head => "_head" | Exit => "_exit" end).

Definition commas (args : list str) : str :=
  mjoin (match args with [] => [] | a :: r => a :: map (fun x => lit ", " ++ x) r end).
Definition line (op : str) (args : list str) : str := lit "    " ++ op ++ lit " " ++ commas args ++ lit ";" ++ [x0a].
Definition brackets (s : str) : str := lit "[" ++ s ++ lit "]".
Definition braces (l : list str) : str := lit "{" ++ commas l ++ lit "}".

(** [.f32] or [.v4.f32], and the registers it moves. *)
Definition width_text (n : nat) (t : str) : str :=
  match n with 1%nat => t | _ => lit ".v" ++ to_string (Z.of_nat n) ++ t end.
Definition regs_text (l : list str) : str := match l with [a] => a | _ => braces l end.

Definition instr_text (name : str) (i : instr) : str :=
  match i with
  | ShrU32 d x n => line (lit "shr.u32") [rR d; rR x; to_string n]
  | ShlB32 d x n => line (lit "shl.b32") [rR d; rR x; to_string n]
  | AndB32 d x k => line (lit "and.b32") [rR d; rR x; to_string k]
  | MulHiU32 d x k => line (lit "mul.hi.u32") [rR d; rR x; to_string k]
  | MulLoU32 d x k => line (lit "mul.lo.u32") [rR d; rR x; to_string k]
  | MulLoReg d x y => line (lit "mul.lo.u32") [rR d; rR x; rR y]
  | MadLoU32 d x y z => line (lit "mad.lo.u32") [rR d; rR x; rR y; rR z]
  | AddU32 d x y => line (lit "add.u32") [rR d; rR x; rR y]
  | SubU32 d x y => line (lit "sub.u32") [rR d; rR x; rR y]
  | MovU32 d k => line (lit "mov.u32") [rR d; to_string k]
  | MovSpecial d s => line (lit "mov.u32") [rR d; special_text s]
  | LdParamU32 d p => line (lit "ld.param.u32") [rR d; brackets (param_text name p)]
  | LdParamU64 d p => line (lit "ld.param.u64") [rRD d; brackets (param_text name p)]
  | MulWideU32 d x k => line (lit "mul.wide.u32") [rRD d; rR x; to_string k]
  | AddU64 d a b => line (lit "add.u64") [rRD d; rRD a; rRD b]
  | SetpGeU32 p x y => line (lit "setp.ge.u32") [rP p; rR x; rR y]
  | FBin op d a b => line (fbin_text op) [rF d; fop_text a; fop_text b]
  | FUn op d a => line (fun1_text op) [rF d; rF a]
  | FFma d a b c => line (lit "fma.rn.f32") [rF d; fop_text a; fop_text b; fop_text c]
  | SetpNe p a k => line (lit "setp.ne.f32") [rP p; rF a; fhex k]
  | Selp d a b p => line (lit "selp.f32") [rF d; rF a; rF b; rP p]
  | CvtF16F32 h a => line (lit "cvt.rn.f16.f32") [rH h; rF a]
  | CvtF32F16 d h => line (lit "cvt.f32.f16") [rF d; rH h]
  | CvtBf16F32 h a => line (lit "cvt.rn.bf16.f32") [rH h; rF a]
  | CvtU32U16 r h => line (lit "cvt.u32.u16") [rR r; rH h]
  | MovB32F d r => line (lit "mov.b32") [rF d; rR r]
  | MovUnpack h0 h1 r => line (lit "mov.b32") [braces [rH h0; rH h1]; rR r]
  | MovPack r h0 h1 => line (lit "mov.b32") [rR r; braces [rH h0; rH h1]]
  | LdF32 ds a => line (lit "ld.global" ++ width_text (length ds) (lit ".f32")) [regs_text (map rF ds); brackets (rRD a)]
  | LdB16 h a => line (lit "ld.global.b16") [rH h; brackets (rRD a)]
  | LdU32 ds a => line (lit "ld.global" ++ width_text (length ds) (lit ".u32")) [regs_text (map rR ds); brackets (rRD a)]
  | StF32 a vs => line (lit "st.global" ++ width_text (length vs) (lit ".f32")) [brackets (rRD a); regs_text (map rF vs)]
  | StB16 a h => line (lit "st.global.b16") [brackets (rRD a); rH h]
  | StU32 a ws => line (lit "st.global" ++ width_text (length ws) (lit ".u32")) [brackets (rRD a); regs_text (map rR ws)]
  | Label l => label_text name l ++ lit ":" ++ [x0a]
  | BraIf p l => line (lit "@" ++ rP p ++ lit " bra") [label_text name l]
  | Bra l => line (lit "bra") [label_text name l]
  | RetI => lit "    ret;" ++ [x0a]
  end.

(** ** The machine *)

(** The float unit, on patterns. *)
Record fpu : Type := mkFpu {
  fpu_bin : fbin -> Z -> Z -> Z;
  fpu_un : fun1 -> Z -> Z;
  fpu_fma : Z -> Z -> Z -> Z;
  fpu_ne : Z -> Z -> bool;
  fpu_to_f16 : Z -> Z;
  fpu_of_f16 : Z -> Z;
  fpu_to_bf16 : Z -> Z
}.

(** What a thread is launched with. The last two are no part of a launch: they
    say which addresses the thread may load from and store to, so that a run
    under narrow rights shows what it touches. A kernel is launched with the
    right to every address. *)
Record launch : Type := mkLaunch {
  l_tid : Z; l_ntid : Z; l_ctaid : Z; l_nctaid : Z;
  l_n : Z; l_outs : list Z; l_ins : list Z;
  l_rd : Z -> bool; l_wr : Z -> bool
}.
Definition anywhere : Z -> bool := fun _ => true.
Definition may (p : Z -> bool) (a : Z) (n : nat) : bool := forallb (fun i => p (a + Z.of_nat i)) (seq 0 n).

(** A thread: its registers, and the memory all threads share. *)
Record thread : Type := mkThread {
  rf : Z -> Z; rr : Z -> Z; rrd : Z -> Z; rh : Z -> Z; rp : Z -> bool; gm : gmap Z byte
}.

Definition set_f (d v : Z) (s : thread) : thread := mkThread (<[d := v]> (rf s)) (rr s) (rrd s) (rh s) (rp s) (gm s).
Definition set_r (d v : Z) (s : thread) : thread := mkThread (rf s) (<[d := v]> (rr s)) (rrd s) (rh s) (rp s) (gm s).
Definition set_rd (d v : Z) (s : thread) : thread := mkThread (rf s) (rr s) (<[d := v]> (rrd s)) (rh s) (rp s) (gm s).
Definition set_h (d v : Z) (s : thread) : thread := mkThread (rf s) (rr s) (rrd s) (<[d := v]> (rh s)) (rp s) (gm s).
Definition set_p (d : Z) (b : bool) (s : thread) : thread := mkThread (rf s) (rr s) (rrd s) (rh s) (<[d := b]> (rp s)) (gm s).
Definition set_gm (m : gmap Z byte) (s : thread) : thread := mkThread (rf s) (rr s) (rrd s) (rh s) (rp s) m.

(** Memory accesses, little-endian. *)
Definition load_bytes (m : gmap Z byte) (a : Z) (n : nat) : option str :=
  mapM (fun i => m !! (a + Z.of_nat i)) (seq 0 n).
Definition load (m : gmap Z byte) (a : Z) (n : nat) : option Z := le_int <$> load_bytes m a n.

Fixpoint store_bytes (m : gmap Z byte) (a : Z) (bs : str) : option (gmap Z byte) :=
  match bs with
  | [] => Some m
  | b :: r => match m !! a with Some _ => store_bytes (<[a := b]> m) (a + 1) r | None => None end
  end.

Definition aligned (a w : Z) : bool := a mod w =? 0.

(** The vector widths an access can have. *)
Definition vec_width (n : nat) : bool := Nat.eqb n 1 || Nat.eqb n 2 || Nat.eqb n 4.

(** The words at consecutive addresses. *)
Definition load_words (m : gmap Z byte) (a : Z) (n : nat) : option (list Z) :=
  if vec_width n && aligned a (4 * Z.of_nat n) then mapM (fun i => load m (a + 4 * Z.of_nat i) 4) (seq 0 n) else None.
Definition store_words (m : gmap Z byte) (a : Z) (ws : list Z) : option (gmap Z byte) :=
  if vec_width (length ws) && aligned a (4 * zlen ws) then store_bytes m a (mjoin (map (le_bytes 4) ws)) else None.

Section Machine.
Context (u : fpu) (l : launch).

Definition fval (s : thread) (o : fop) : Z := match o with FReg f => rf s f | FImm b => b end.
Definition set_fs (ds vs : list Z) (s : thread) : thread := foldl (fun s dv => set_f dv.1 dv.2 s) s (zip ds vs).
Definition set_rs (ds vs : list Z) (s : thread) : thread := foldl (fun s dv => set_r dv.1 dv.2 s) s (zip ds vs).
Definition special_value (x : special) : Z :=
  match x with TidX => l_tid l | NtidX => l_ntid l | CtaidX => l_ctaid l | NctaidX => l_nctaid l end.

(** The instructions that do not jump. *)
Definition exec1 (s : thread) (i : instr) : option thread :=
  match i with
  | ShrU32 d x n => Some (set_r d (Z.shiftr (rr s x) n) s)
  | ShlB32 d x n => Some (set_r d (u32 (Z.shiftl (rr s x) n)) s)
  | AndB32 d x k => Some (set_r d (Z.land (rr s x) (u32 k)) s)
  | MulHiU32 d x k => Some (set_r d (Z.shiftr (rr s x * k) 32) s)
  | MulLoU32 d x k => Some (set_r d (u32 (rr s x * k)) s)
  | MulLoReg d x y => Some (set_r d (u32 (rr s x * rr s y)) s)
  | MadLoU32 d x y z => Some (set_r d (u32 (rr s x * rr s y + rr s z)) s)
  | AddU32 d x y => Some (set_r d (u32 (rr s x + rr s y)) s)
  | SubU32 d x y => Some (set_r d (u32 (rr s x - rr s y)) s)
  | MovU32 d k => Some (set_r d k s)
  | MovSpecial d x => Some (set_r d (special_value x) s)
  | LdParamU32 d PN => Some (set_r d (l_n l) s)
  | LdParamU64 d (POut m) => v ← l_outs l !! Z.to_nat m; Some (set_rd d v s)
  | LdParamU64 d (PIn k) => v ← l_ins l !! Z.to_nat k; Some (set_rd d v s)
  | MulWideU32 d x k => Some (set_rd d (rr s x * k) s)
  | AddU64 d a b => Some (set_rd d (u64 (rrd s a + rrd s b)) s)
  | SetpGeU32 p x y => Some (set_p p (rr s y <=? rr s x) s)
  | FBin op d a b => Some (set_f d (fpu_bin u op (fval s a) (fval s b)) s)
  | FUn FMov d a => Some (set_f d (rf s a) s)
  | FUn op d a => Some (set_f d (fpu_un u op (rf s a)) s)
  | FFma d a b c => Some (set_f d (fpu_fma u (fval s a) (fval s b) (fval s c)) s)
  | SetpNe p a k => Some (set_p p (fpu_ne u (rf s a) k) s)
  | Selp d a b p => Some (set_f d (if rp s p then rf s a else rf s b) s)
  | CvtF16F32 h a => Some (set_h h (fpu_to_f16 u (rf s a)) s)
  | CvtF32F16 d h => Some (set_f d (fpu_of_f16 u (rh s h)) s)
  | CvtBf16F32 h a => Some (set_h h (fpu_to_bf16 u (rf s a)) s)
  | CvtU32U16 r h => Some (set_r r (rh s h) s)
  | MovB32F d r => Some (set_f d (rr s r) s)
  | MovUnpack h0 h1 r => Some (set_h h1 (Z.shiftr (rr s r) 16) (set_h h0 (u16 (rr s r)) s))
  | MovPack r h0 h1 => Some (set_r r (u16 (rh s h0) + 65536 * u16 (rh s h1)) s)
  | LdF32 ds a =>
      if may (l_rd l) (rrd s a) (4 * length ds) then vs ← load_words (gm s) (rrd s a) (length ds); Some (set_fs ds vs s) else None
  | LdU32 ds a =>
      if may (l_rd l) (rrd s a) (4 * length ds) then vs ← load_words (gm s) (rrd s a) (length ds); Some (set_rs ds vs s) else None
  | LdB16 h a =>
      if may (l_rd l) (rrd s a) 2 && aligned (rrd s a) 2 then v ← load (gm s) (rrd s a) 2; Some (set_h h v s) else None
  | StF32 a vs =>
      if may (l_wr l) (rrd s a) (4 * length vs) then m ← store_words (gm s) (rrd s a) (map (rf s) vs); Some (set_gm m s) else None
  | StU32 a ws =>
      if may (l_wr l) (rrd s a) (4 * length ws) then m ← store_words (gm s) (rrd s a) (map (rr s) ws); Some (set_gm m s) else None
  | StB16 a h =>
      if may (l_wr l) (rrd s a) 2 && aligned (rrd s a) 2 then m ← store_bytes (gm s) (rrd s a) (le_bytes 2 (rh s h)); Some (set_gm m s)
      else None
  | _ => None
  end.

Fixpoint exec (code : list instr) (s : thread) : option thread :=
  match code with [] => Some s | i :: r => s ← exec1 s i; exec r s end.

Lemma exec_app c1 c2 s : exec (c1 ++ c2) s = s ← exec c1 s; exec c2 s.
Proof.
  revert s. induction c1 as [|i c1 IH]; intros s; cbn; [done|]. destruct (exec1 s i); cbn; [apply IH|done].
Qed.
End Machine.

(** ** Emission *)
Record Alloc : Type := mkAlloc { a_f : Z; a_r : Z; a_rd : Z; a_h : Z; a_p : Z }.
Record emitter : Type := mkEmitter { em_alloc : Alloc; em_out : list instr }.
Abbreviation emit := (st emitter).

Definition bump_f (a : Alloc) : Alloc := mkAlloc (a_f a + 1) (a_r a) (a_rd a) (a_h a) (a_p a).
Definition bump_r (a : Alloc) : Alloc := mkAlloc (a_f a) (a_r a + 1) (a_rd a) (a_h a) (a_p a).
Definition bump_rd (a : Alloc) : Alloc := mkAlloc (a_f a) (a_r a) (a_rd a + 1) (a_h a) (a_p a).
Definition bump_h (a : Alloc) : Alloc := mkAlloc (a_f a) (a_r a) (a_rd a) (a_h a + 1) (a_p a).
Definition bump_p (a : Alloc) : Alloc := mkAlloc (a_f a) (a_r a) (a_rd a) (a_h a) (a_p a + 1).

Definition new_f : emit Z := fun e => (Ret (a_f (em_alloc e)), mkEmitter (bump_f (em_alloc e)) (em_out e)).
Definition new_r : emit Z := fun e => (Ret (a_r (em_alloc e)), mkEmitter (bump_r (em_alloc e)) (em_out e)).
Definition new_rd : emit Z := fun e => (Ret (a_rd (em_alloc e)), mkEmitter (bump_rd (em_alloc e)) (em_out e)).
Definition new_h : emit Z := fun e => (Ret (a_h (em_alloc e)), mkEmitter (bump_h (em_alloc e)) (em_out e)).
Definition new_p : emit Z := fun e => (Ret (a_p (em_alloc e)), mkEmitter (bump_p (em_alloc e)) (em_out e)).
Definition put (i : instr) : emit unit := fun e => (Ret tt, mkEmitter (em_alloc e) (em_out e ++ [i])).

(** The register declarations of an entry. *)
Definition declaration (kind : string) (bank : string) (n : Z) : str :=
  if n =? 0 then [] else lit "    .reg " ++ lit kind ++ lit " " ++ lit bank ++ lit "<" ++ to_string n ++ lit ">;" ++ [x0a].
Definition declarations (a : Alloc) : str :=
  declaration ".pred" "%p" (a_p a) ++ declaration ".b32" "%r" (a_r a) ++ declaration ".b64" "%rd" (a_rd a) ++
  declaration ".b16" "%h" (a_h a) ++ declaration ".f32" "%f" (a_f a).
