(* ===== verification/PtxSpec.v ===== *)
(** * PTX emission: what a helper appends does

    The relation [emitted] between a helper's run and the run of the code it
    appends, and the lemmas that put such runs together. Registers are used
    once: code that a helper appends leaves every register allocated before as
    it was. *)
From stdpp Require Import functions.
From S2P Require Import Prelude Ptx.

Record alloc_le (a b : Alloc) : Prop := mkLe {
  le_f : a_f a <= a_f b; le_r : a_r a <= a_r b; le_rd : a_rd a <= a_rd b; le_h : a_h a <= a_h b; le_p : a_p a <= a_p b
}.

#[global] Instance alloc_le_preorder : PreOrder alloc_le.
Proof. split; [by intros []|intros a b c [] []; split; lia]. Qed.

(** The registers allocated so far are kept. *)
Record keeps (a : Alloc) (s s' : thread) : Prop := mkKeeps {
  keep_f : forall n, n < a_f a -> rf s' n = rf s n;
  keep_r : forall n, n < a_r a -> rr s' n = rr s n;
  keep_rd : forall n, n < a_rd a -> rrd s' n = rrd s n;
  keep_h : forall n, n < a_h a -> rh s' n = rh s n;
  keep_p : forall n, n < a_p a -> rp s' n = rp s n
}.

Lemma keeps_refl a s : keeps a s s.
Proof. by split. Qed.

Lemma keeps_trans a b s1 s2 s3 : alloc_le a b -> keeps a s1 s2 -> keeps b s2 s3 -> keeps a s1 s3.
Proof.
  intros [] [] [K1 K2 K3 K4 K5]. split; intros n Hn; first [rewrite K1|rewrite K2|rewrite K3|rewrite K4|rewrite K5]; auto; lia.
Qed.

Lemma keeps_le a b s s' : alloc_le a b -> keeps b s s' -> keeps a s s'.
Proof. intros Hle. apply keeps_trans with (b := b); [done|apply keeps_refl]. Qed.

(** One register written, not below the counter. *)
Lemma keeps_set_f a d v s s' : a_f a <= d -> keeps a s s' -> keeps a s (set_f d v s').
Proof. intros Hd []. split; cbn; auto. intros n Hn. rewrite fn_lookup_insert_ne by lia. auto. Qed.
Lemma keeps_set_r a d v s s' : a_r a <= d -> keeps a s s' -> keeps a s (set_r d v s').
Proof. intros Hd []. split; cbn; auto. intros n Hn. rewrite fn_lookup_insert_ne by lia. auto. Qed.
Lemma keeps_set_rd a d v s s' : a_rd a <= d -> keeps a s s' -> keeps a s (set_rd d v s').
Proof. intros Hd []. split; cbn; auto. intros n Hn. rewrite fn_lookup_insert_ne by lia. auto. Qed.
Lemma keeps_set_h a d v s s' : a_h a <= d -> keeps a s s' -> keeps a s (set_h d v s').
Proof. intros Hd []. split; cbn; auto. intros n Hn. rewrite fn_lookup_insert_ne by lia. auto. Qed.
Lemma keeps_set_p a d v s s' : a_p a <= d -> keeps a s s' -> keeps a s (set_p d v s').
Proof. intros Hd []. split; cbn; auto. intros n Hn. rewrite fn_lookup_insert_ne by lia. auto. Qed.
Lemma keeps_set_gm a m s s' : keeps a s s' -> keeps a s (set_gm m s').
Proof. intros []. split; auto. Qed.

Ltac regs_kept :=
  repeat first [apply keeps_set_f; [cbn; lia|] | apply keeps_set_r; [cbn; lia|] | apply keeps_set_rd; [cbn; lia|]
               | apply keeps_set_h; [cbn; lia|] | apply keeps_set_p; [cbn; lia|] | apply keeps_set_gm];
  try apply keeps_refl.
Ltac reg_lookup := repeat first [rewrite fn_lookup_insert | rewrite fn_lookup_insert_ne by lia].

Section Emitted.
Context (u : fpu) (l : launch).

(** A helper's run from [e], and the run from [s] of what it appends. *)
Record emitted {A} (m : emit A) (e : emitter) (s : thread) (a : A) (e' : emitter) (s' : thread) : Prop := mkEmitted {
  emitted_run : exists code, m e = (Ret a, e') /\ em_out e' = em_out e ++ code /\ exec u l code s = Some s';
  emitted_alloc : alloc_le (em_alloc e) (em_alloc e');
  emitted_kept : keeps (em_alloc e) s s'
}.

Lemma emitted_bind {A B} (m : emit A) (f : A -> emit B) e s a e1 s1 b e2 s2 :
  emitted m e s a e1 s1 -> emitted (f a) e1 s1 b e2 s2 -> emitted (m ≫= f) e s b e2 s2.
Proof.
  intros [(c1 & Hm & Ho & Hx) Ha Hk] [(c2 & Hf & Ho2 & Hx2) Ha2 Hk2]. split.
  - exists (c1 ++ c2). split; [by rewrite (st_bind_ret m f e a e1 Hm)|].
    split; [by rewrite Ho2, Ho, app_assoc|by rewrite exec_app, Hx].
  - by etrans.
  - by eapply keeps_trans.
Qed.

Lemma emitted_ret {A} (a : A) e s : emitted (mret a) e s a e s.
Proof. split; [exists []; split_and!; try done; by rewrite app_nil_r|done|apply keeps_refl]. Qed.

Lemma emitted_lift {A} (r : res A) (a : A) e s : r = Ret a -> emitted (st_lift r) e s a e s.
Proof. intros ->. apply emitted_ret. Qed.

(** The same for code that may also write registers allocated since [a0]. *)
Record over {A} (a0 : Alloc) (m : emit A) (e : emitter) (s : thread) (a : A) (e' : emitter) (s' : thread) : Prop := mkOver {
  over_run : exists code, m e = (Ret a, e') /\ em_out e' = em_out e ++ code /\ exec u l code s = Some s';
  over_alloc : alloc_le (em_alloc e) (em_alloc e');
  over_kept : keeps a0 s s'
}.

Lemma over_emitted {A} (m : emit A) e s a e' s' : over (em_alloc e) m e s a e' s' <-> emitted m e s a e' s'.
Proof. split; intros []; by split. Qed.

Lemma emitted_over {A} a0 (m : emit A) e s a e' s' : alloc_le a0 (em_alloc e) -> emitted m e s a e' s' -> over a0 m e s a e' s'.
Proof. intros Hle [? ? Hk]. split; [done|done|by eapply keeps_le]. Qed.

Lemma over_bind {A B} a0 (m : emit A) (f : A -> emit B) e s a e1 s1 b e2 s2 :
  over a0 m e s a e1 s1 -> over a0 (f a) e1 s1 b e2 s2 -> over a0 (m ≫= f) e s b e2 s2.
Proof.
  intros [(c1 & Hm & Ho & Hx) Ha Hk] [(c2 & Hf & Ho2 & Hx2) Ha2 Hk2]. split.
  - exists (c1 ++ c2). split; [by rewrite (st_bind_ret m f e a e1 Hm)|].
    split; [by rewrite Ho2, Ho, app_assoc|by rewrite exec_app, Hx].
  - by etrans.
  - by eapply keeps_trans.
Qed.

Lemma over_ret {A} a0 (a : A) e s : over a0 (mret a) e s a e s.
Proof. split; [exists []; split_and!; try done; by rewrite app_nil_r|done|apply keeps_refl]. Qed.

Lemma over_put a0 i e s s' : exec1 u l s i = Some s' -> keeps a0 s s' ->
  over a0 (put i) e s tt (mkEmitter (em_alloc e) (em_out e ++ [i])) s'.
Proof. intros Hx Hk. split; [exists [i]; split_and!; [done|done|]; cbn; by rewrite Hx|done|done]. Qed.

(** Allocation. *)
Definition with_alloc (a : Alloc) (e : emitter) : emitter := mkEmitter a (em_out e).
Lemma emitted_alloc_step (m : emit Z) bump n e s : m e = (Ret n, with_alloc (bump (em_alloc e)) e) ->
  alloc_le (em_alloc e) (bump (em_alloc e)) -> emitted m e s n (with_alloc (bump (em_alloc e)) e) s.
Proof. intros Hm Hle. split; [exists []; split_and!; try done; by rewrite app_nil_r|done|apply keeps_refl]. Qed.

Lemma emitted_new_f e s : emitted new_f e s (a_f (em_alloc e)) (with_alloc (bump_f (em_alloc e)) e) s.
Proof. apply (emitted_alloc_step _ bump_f); [done|split; cbn; lia]. Qed.
Lemma emitted_new_r e s : emitted new_r e s (a_r (em_alloc e)) (with_alloc (bump_r (em_alloc e)) e) s.
Proof. apply (emitted_alloc_step _ bump_r); [done|split; cbn; lia]. Qed.
Lemma emitted_new_rd e s : emitted new_rd e s (a_rd (em_alloc e)) (with_alloc (bump_rd (em_alloc e)) e) s.
Proof. apply (emitted_alloc_step _ bump_rd); [done|split; cbn; lia]. Qed.
Lemma emitted_new_h e s : emitted new_h e s (a_h (em_alloc e)) (with_alloc (bump_h (em_alloc e)) e) s.
Proof. apply (emitted_alloc_step _ bump_h); [done|split; cbn; lia]. Qed.

(** A block of code whose run is known as a whole. *)
Lemma emitted_block {A} (m : emit A) e s a e' code s' :
  m e = (Ret a, e') -> em_out e' = em_out e ++ code -> exec u l code s = Some s' ->
  alloc_le (em_alloc e) (em_alloc e') -> keeps (em_alloc e) s s' -> emitted m e s a e' s'.
Proof. intros. split; [by exists code|done|done]. Qed.

(** A helper that returns an integer register that holds [v]. *)
Definition yields (m : emit Z) (e : emitter) (s : thread) (v : Z) : Prop :=
  exists q e' s', emitted m e s q e' s' /\ q < a_r (em_alloc e') /\ rr s' q = v /\ gm s' = gm s.

Lemma yields_ret r e s : r < a_r (em_alloc e) -> yields (mret r) e s (rr s r).
Proof. intros Hr. exists r, e, s. split; [apply emitted_ret|done]. Qed.

Lemma yields_bind m f e s v w :
  yields m e s v ->
  (forall q e1 s1, emitted m e s q e1 s1 -> q < a_r (em_alloc e1) -> rr s1 q = v -> yields (f q) e1 s1 w) ->
  yields (m ≫= f) e s w.
Proof.
  intros (q & e1 & s1 & He & Hq & Hv & Hm) Hf.
  destruct (Hf q e1 s1 He Hq Hv) as (q2 & e2 & s2 & He2 & Hq2 & Hv2 & Hm2).
  exists q2, e2, s2. split; [by eapply emitted_bind|]. split_and!; try done. by rewrite Hm2.
Qed.

(** An instruction that writes one integer register. *)
Definition writes_r (i : instr) (d : Z) (v : thread -> Z) : Prop :=
  forall s, exec1 u l s i = Some (set_r d (v s) s).

(** One arithmetic step: [a.R()], the instruction, and the rest of the block. *)
Lemma yields_step (i : Z -> instr) v f e s w :
  let d := a_r (em_alloc e) in
  writes_r (i d) d v ->
  (forall e1 s1, em_alloc e1 = bump_r (em_alloc e) -> rr s1 d = v s -> (forall n, n < d -> rr s1 n = rr s n) ->
    yields (f d) e1 s1 w) ->
  yields (r ← new_r; _ ← put (i r); f r) e s w.
Proof.
  intros d Hw Hf.
  destruct (Hf (mkEmitter (bump_r (em_alloc e)) (em_out e ++ [i d])) (set_r d (v s) s)) as (q & e2 & s2 & He & Hq & Hv & Hm).
  - done.
  - apply fn_lookup_insert.
  - intros n Hn. apply fn_lookup_insert_ne. lia.
  - exists q, e2, s2. split; [|done]. destruct He as [(c & Hr & Ho & Hx) Ha Hk]. split.
    + exists (i d :: c). split; [exact Hr|]. split; [rewrite Ho; cbn; by rewrite <- app_assoc|].
      cbn [exec]. by rewrite (Hw s).
    + etrans; [|exact Ha]. split; cbn; lia.
    + apply (keeps_trans _ (bump_r (em_alloc e)) s (set_r d (v s) s)); [split; cbn; lia| |exact Hk].
      apply keeps_set_r; [done|apply keeps_refl].
Qed.
End Emitted.
