(* ===== verification/PtxDiv.v ===== *)
(** * Division by a constant in emitted PTX

    [magic_u32], [emit_udiv_const] and [emit_udiv_urem_const] of
    src/jit/ptx_emit_detail.h: the kernels split an element index into a row and
    a column by a division the code generator turns into a multiplication. *)
From stdpp Require Import functions.
From S2P Require Import Prelude Ptx PtxSpec.

(** ** The multiplier *)
Definition is_pow2 (v : Z) : bool := (v >? 0) && (Z.land v (v - 1) =? 0).

(** [while ((1 << l) < v) ++l;] on [int]: the shift is undefined from 31 on. *)
Fixpoint log2_from (fuel : nat) (l v : Z) : res Z :=
  match fuel with
  | O => Undef
  | S f => if l <? 31 then if Z.shiftl 1 l <? v then log2_from f (l + 1) v else Ret l else Undef
  end.
Definition log2_exact (v : Z) : res Z := log2_from 32 0 v.

Record MagicU32 : Type := mkMagic { mg_mul : Z; mg_pre_shift : Z; mg_post_shift : Z; mg_add : bool }.

(** [while ((d & 1u) == 0u) { d >>= 1u; ++m.pre_shift; }] *)
Fixpoint drop_twos (fuel : nat) (d pre : Z) : Z * Z :=
  match fuel with
  | O => (d, pre)
  | S f => if Z.land d 1 =? 0 then drop_twos f (Z.shiftr d 1) (pre + 1) else (d, pre)
  end.

(** [while ((1ULL << l) < d) ++l;] *)
Fixpoint ceil_log2 (fuel : nat) (l d : Z) : Z :=
  match fuel with
  | O => l
  | S f => if u64 (Z.shiftl 1 l) <? d then ceil_log2 f (l + 1) d else l
  end.

Definition magic_u32 (d : Z) : MagicU32 :=
  if d <=? 1 then mkMagic 1 0 0 false
  else
    let '(d, pre_shift) := drop_twos 32 d 0 in
    if d =? 1 then mkMagic 1 pre_shift 0 false
    else
      let l := ceil_log2 33 0 d in
      let p_lo := u64 (Z.shiftl 1 (u32 (u32 (32 + l) - 1))) in
      let m_lo := u64 (u64 (p_lo + d) - 1) / d in
      let e_lo := u64 (u64 (m_lo * d) - p_lo) in
      let max_v := Z.shiftr 0xFFFFFFFF pre_shift in
      let nc := u64 (u64 (max_v / d * d) - 1) in
      if u64 (nc * e_lo) <? p_lo then mkMagic (u32 m_lo) pre_shift (u32 (l - 1)) false
      else
        let p_hi := u64 (Z.shiftl 1 (u32 (32 + l))) in
        let m_hi := u64 (u64 (p_hi + d) - 1) / d in
        mkMagic (u32 (u64 (m_hi - 2 ^ 32))) pre_shift l true.

(** ** The emitters *)
Definition emit_udiv_const (r_x d : Z) : emit Z :=
  if d <=? 1 then mret r_x
  else if is_pow2 d then
    r_q ← new_r;
    l ← st_lift (log2_exact d);
    _ ← put (ShrU32 r_q r_x l);
    mret r_q
  else
    let m := magic_u32 (u32 d) in
    r_xp ← (if mg_pre_shift m >? 0
            then r_xp ← new_r; _ ← put (ShrU32 r_xp r_x (mg_pre_shift m)); mret r_xp
            else mret r_x);
    r_hi ← new_r;
    _ ← put (MulHiU32 r_hi r_xp (mg_mul m));
    if negb (mg_add m) then
      if mg_post_shift m =? 0 then mret r_hi
      else
        r_q ← new_r;
        _ ← put (ShrU32 r_q r_hi (mg_post_shift m));
        mret r_q
    else
      r_diff ← new_r;
      r_half ← new_r;
      r_sum ← new_r;
      _ ← put (SubU32 r_diff r_xp r_hi);
      _ ← put (ShrU32 r_half r_diff 1);
      _ ← put (AddU32 r_sum r_half r_hi);
      if mg_post_shift m <=? 1 then mret r_sum
      else
        r_q ← new_r;
        _ ← put (ShrU32 r_q r_sum (mg_post_shift m - 1));
        mret r_q.

(** The quotient and the remainder. *)
Definition emit_udiv_urem_const (r_x d : Z) : emit (Z * Z) :=
  r_q ← emit_udiv_const r_x d;
  r_r ← new_r;
  _ ← (if d <=? 1 then put (MovU32 r_r 0)
       else if is_pow2 d then put (AndB32 r_r r_x (d - 1))
       else
         r_prod ← new_r;
         _ ← put (MulLoU32 r_prod r_q d);
         put (SubU32 r_r r_x r_prod));
  mret (r_q, r_r).

Example magic_7 : magic_u32 7 = mkMagic 613566757 0 3 true.
Proof. reflexivity. Qed.
Example magic_96 : magic_u32 96 = mkMagic 2863311531 5 1 false.
Proof. reflexivity. Qed.

(** ** Why the multiplier is right *)

(** Multiplying by [(2^p + e) / d] and shifting divides, as long as the error
    stays below what is missing to the next multiple. *)
Lemma mul_shift_div p d m e x : 0 <= p -> 0 < d -> 0 <= x -> 0 <= e -> m * d = 2 ^ p + e ->
  x * e < 2 ^ p * (d - x mod d) -> x * m / 2 ^ p = x / d.
Proof.
  intros Hp Hd Hx He Hm Herr. assert (H2 : 0 < 2 ^ p) by (apply Z.pow_pos_nonneg; lia).
  pose proof (Z.div_mod x d ltac:(lia)) as Hdm. pose proof (Z.mod_pos_bound x d Hd) as Hr.
  set (q := x / d) in *. set (r := x mod d) in *. set (P := 2 ^ p) in *.
  symmetry. apply (Z.div_unique_pos _ _ _ (x * m - P * q)); [|lia].
  assert (E : d * (x * m) = x * P + x * e) by (replace (d * (x * m)) with (x * (m * d)) by ring; rewrite Hm; ring).
  split.
  - apply (Zmult_le_reg_r _ _ d); [lia|]. nia.
  - apply (Zmult_lt_reg_r _ _ d); [lia|]. nia.
Qed.

Lemma odd_divides_pow2 d k : 0 <= k -> Z.odd d = true -> (d | 2 ^ k) -> (d | 1).
Proof.
  intros Hk Hd. revert k Hk. apply (natlike_ind (fun k => (d | 2 ^ k) -> (d | 1))); [done|].
  intros k Hk IH. rewrite Z.pow_succ_r by done. intros H. apply IH. apply (Z.gauss _ 2); [done|].
  apply Z.odd_spec in Hd as [z ->]. replace (2 * z + 1) with (1 + z * 2) by lia.
  by rewrite Z.gcd_comm, Z.gcd_add_mult_diag_r.
Qed.

(** The least power of two not below [d]. *)
Lemma ceil_log2_spec fuel l d : 0 <= l -> l + Z.of_nat fuel <= 64 -> d <= 2 ^ (l + Z.of_nat fuel - 1) -> 0 < (Z.of_nat fuel) ->
  (l = 0 \/ 2 ^ (l - 1) < d) -> 1 < d ->
  let k := ceil_log2 fuel l d in l <= k < l + Z.of_nat fuel /\ d <= 2 ^ k /\ 2 ^ (k - 1) < d /\ 1 <= k.
Proof.
  revert l. induction fuel as [|fuel IH]; intros l Hl Hf Hd Hpos Hlow H1; [lia|]. cbn [ceil_log2].
  rewrite Z.shiftl_1_l.
  assert (Hsmall : u64 (2 ^ l) = 2 ^ l).
  { unfold u64. apply Z.mod_small. split; [apply Z.pow_nonneg; lia|]. apply Z.pow_lt_mono_r; lia. }
  rewrite Hsmall. destruct (Z.ltb_spec (2 ^ l) d) as [Hlt|Hge].
  - destruct fuel as [|fuel'].
    { replace (l + Z.of_nat 1 - 1) with l in Hd by lia. lia. }
    destruct (IH (l + 1)) as (Hk & Hr); [lia|lia|replace (l + 1 + Z.of_nat (S fuel') - 1) with (l + Z.of_nat (S (S fuel')) - 1) by lia; done|lia| |done|].
    { right. by replace (l + 1 - 1) with l by lia. }
    split; [lia|done].
  - split; [lia|]. split; [done|]. destruct Hlow as [->|Hlow]; [|split; [done|]].
    + change (2 ^ 0) with 1 in Hge. lia.
    + destruct (decide (l = 0)) as [->|]; [|lia]. change (2 ^ 0) with 1 in Hge. lia.
Qed.

Lemma drop_twos_spec fuel d pre : 0 < d < 2 ^ Z.of_nat fuel ->
  exists k, drop_twos fuel d pre = (d / 2 ^ k, pre + k) /\ 0 <= k /\ d = d / 2 ^ k * 2 ^ k /\ Z.odd (d / 2 ^ k) = true.
Proof.
  revert d pre. induction fuel as [|fuel IH]; intros d pre Hd; [change (2 ^ Z.of_nat 0) with 1 in Hd; lia|].
  cbn [drop_twos]. change 1 with (Z.ones 1) at 1. rewrite Z.land_ones by lia. change (2 ^ 1) with 2.
  destruct (Z.eqb_spec (d mod 2) 0) as [E|E].
  - rewrite Z.shiftr_div_pow2 by lia. change (2 ^ 1) with 2.
    pose proof (Z.div_mod d 2 ltac:(lia)) as Hdm.
    destruct (IH (d / 2) (pre + 1)) as (k & Hk & H0 & Hdk & Ho).
    { rewrite Nat2Z.inj_succ, Z.pow_succ_r in Hd by lia. lia. }
    assert (Hpow : 2 ^ (k + 1) = 2 * 2 ^ k) by (rewrite Z.pow_add_r by lia; lia).
    assert (Hdd : d / 2 ^ (k + 1) = d / 2 / 2 ^ k) by (rewrite Hpow, Z.div_div; [done|lia|apply Z.pow_pos_nonneg; lia]).
    exists (k + 1). rewrite Hdd, Hk. split; [f_equal; lia|]. split; [lia|]. split; [|done]. rewrite Hpow. lia.
  - exists 0. rewrite Z.pow_0_r, Z.div_1_r. split; [f_equal; lia|]. split; [lia|]. split; [lia|].
    rewrite Zmod_odd in E. by destruct (Z.odd d).
Qed.

(** Rounding [2^p / d] up. *)
Lemma round_up p d : 0 <= p -> 0 < d ->
  let m := (2 ^ p + d - 1) / d in exists e, 0 <= e < d /\ m * d = 2 ^ p + e.
Proof.
  intros Hp Hd m. pose proof (Z.div_mod (2 ^ p + d - 1) d ltac:(lia)) as H.
  pose proof (Z.mod_pos_bound (2 ^ p + d - 1) d Hd). exists (d - 1 - (2 ^ p + d - 1) mod d). fold m in H. lia.
Qed.

(** [d] odd, [2^(l-1) < d <= 2^l], a dividend of [32 - pre] bits: [nc] is the
    last dividend with the largest remainder. *)
Lemma nc_last d k x : 0 <= k -> Z.odd d = true -> 1 < d -> 0 <= x < 2 ^ k -> x mod d = d - 1 ->
  x <= (2 ^ k - 1) / d * d - 1.
Proof.
  intros Hk Ho Hd Hx Hr.
  assert (Hm : x + 1 = (x / d + 1) * d) by (pose proof (Z.div_mod x d ltac:(lia)); lia).
  assert (Hne : x + 1 <> 2 ^ k).
  { intros E. assert (H1 : (d | 1)) by (apply (odd_divides_pow2 d k Hk Ho); exists (x / d + 1); congruence).
    apply Z.divide_1_r_nonneg in H1; lia. }
  set (q := x / d) in *. assert (q + 1 <= (2 ^ k - 1) / d); [|nia].
  apply Z.div_le_lower_bound; [lia|]. rewrite Z.mul_comm, <- Hm. lia.
Qed.

(** *** The two cases of [magic_u32]

    [d] is what is left of the divisor without its factors of two, [k] the bits
    of the dividend. *)
Section Magic.
Context (d l k : Z) (Hodd : Z.odd d = true) (Hd : 1 < d <= 2 ^ 31) (Hl : 1 <= l <= 31)
  (Hlow : 2 ^ (l - 1) < d) (Hhigh : d <= 2 ^ l) (Hk : 0 <= k <= 32).

Let m_lo := (2 ^ (31 + l) + d - 1) / d.
Let e_lo := m_lo * d - 2 ^ (31 + l).
Let m_hi := (2 ^ (32 + l) + d - 1) / d.
Let nc := (2 ^ k - 1) / d * d - 1.

Lemma pow_split (a b : Z) : 0 <= a -> 0 <= b -> 2 ^ (a + b) = 2 ^ a * 2 ^ b.
Proof. intros. by apply Z.pow_add_r. Qed.

Lemma pow_l : 2 ^ l = 2 * 2 ^ (l - 1) /\ 1 <= 2 ^ (l - 1) <= 2 ^ 30.
Proof.
  split; [rewrite <- Z.pow_succ_r by lia; f_equal; lia|].
  split; [apply (Z.pow_le_mono_r 2 0); lia|apply Z.pow_le_mono_r; lia].
Qed.

Lemma e_lo_range : 0 <= e_lo < d /\ m_lo * d = 2 ^ (31 + l) + e_lo.
Proof. destruct (round_up (31 + l) d) as (e & He & Hm); [lia|lia|]. unfold e_lo. fold m_lo in Hm. lia. Qed.

Lemma m_lo_range : 0 <= m_lo < 2 ^ 32.
Proof.
  pose proof e_lo_range as [He Hm]. pose proof pow_l as [H2 Hp]. rewrite pow_split in Hm by lia.
  rewrite H2 in Hm. set (P := 2 ^ (l - 1)) in *. change (2 ^ 31) with 2147483648 in Hm.
  change (2 ^ 30) with 1073741824 in Hp. change (2 ^ 32) with 4294967296. nia.
Qed.

Lemma m_hi_range : 2 ^ 32 <= m_hi < 2 * 2 ^ 32.
Proof.
  destruct (round_up (32 + l) d) as (e & He & Hm); [lia|lia|]. fold m_hi in Hm.
  pose proof pow_l as [H2 Hp]. rewrite pow_split in Hm by lia. rewrite H2 in Hm, Hhigh.
  set (P := 2 ^ (l - 1)) in *. change (2 ^ 30) with 1073741824 in Hp.
  change (2 ^ 32) with 4294967296 in *. nia.
Qed.

(** One shift is enough when the error does not reach the last dividend. *)
Lemma lo_exact x : 0 <= x < 2 ^ k -> nc * e_lo < 2 ^ (31 + l) -> x * m_lo / 2 ^ (31 + l) = x / d.
Proof.
  intros Hx Hn. pose proof e_lo_range as [He Hm]. pose proof pow_l as [H2 Hp].
  apply (mul_shift_div _ _ _ e_lo); try lia.
  pose proof (Z.mod_pos_bound x d ltac:(lia)) as Hr.
  assert (HP : 0 < 2 ^ (31 + l)) by (apply Z.pow_pos_nonneg; lia).
  destruct (decide (x mod d = d - 1)) as [E|E].
  - rewrite E. pose proof (nc_last d k x ltac:(lia) Hodd ltac:(lia) Hx E) as Hnc. fold nc in Hnc. nia.
  - assert (x < 2 ^ 32) by (pose proof (Z.pow_le_mono_r 2 k 32); lia).
    rewrite pow_split in * by lia. rewrite H2 in *. set (P := 2 ^ (l - 1)) in *.
    change (2 ^ 32) with 4294967296 in *. change (2 ^ 31) with 2147483648 in *.
    set (r := x mod d) in *. clearbody r P. 
    assert (x * e_lo <= 4294967295 * (2 * P - 1)) by nia. nia.
Qed.

(** One more bit always is. *)
Lemma hi_exact x : 0 <= x < 2 ^ k -> x * m_hi / 2 ^ (32 + l) = x / d.
Proof.
  intros Hx. destruct (round_up (32 + l) d) as (e & He & Hm); [lia|lia|]. fold m_hi in Hm.
  apply (mul_shift_div _ _ _ e); try lia.
  pose proof (Z.mod_pos_bound x d ltac:(lia)) as Hr.
  assert (x < 2 ^ 32) by (pose proof (Z.pow_le_mono_r 2 k 32); lia).
  rewrite pow_split by lia. assert (0 < 2 ^ l) by (apply Z.pow_pos_nonneg; lia).
  change (2 ^ 32) with 4294967296 in *. set (P := 2 ^ l) in *. set (r := x mod d) in *. clearbody P r.
  assert (x * e <= 4294967295 * (P - 1)) by nia. nia.
Qed.
End Magic.

Lemma is_pow2_pow k : 0 <= k -> is_pow2 (2 ^ k) = true.
Proof.
  intros Hk. unfold is_pow2. assert (0 < 2 ^ k) by (apply Z.pow_pos_nonneg; lia).
  rewrite Z.gtb_ltb. destruct (Z.ltb_spec 0 (2 ^ k)); [|lia]. cbn [andb].
  replace (2 ^ k - 1) with (Z.ones k) by (rewrite Z.ones_equiv; lia).
  rewrite Z.land_ones by done. by rewrite Z.mod_same by lia.
Qed.

Lemma is_pow2_log2 v : is_pow2 v = true -> v = 2 ^ Z.log2 v.
Proof.
  unfold is_pow2. intros [Hv Hl]%andb_true_iff. rewrite Z.gtb_ltb in Hv. apply Z.ltb_lt in Hv. apply Z.eqb_eq in Hl.
  destruct (Z.log2_spec v Hv) as [Hle Hlt]. destruct (decide (v = 2 ^ Z.log2 v)) as [|Hne]; [done|exfalso].
  assert (Hlog : Z.log2 (v - 1) = Z.log2 v) by (apply Z.log2_unique; [apply Z.log2_nonneg|lia]).
  assert (Hb : Z.testbit (Z.land v (v - 1)) (Z.log2 v) = true).
  { rewrite Z.land_spec, Z.bit_log2 by lia. rewrite <- Hlog at 1.
    rewrite Z.bit_log2; [done|]. pose proof (Z.log2_nonneg v). assert (0 < 2 ^ Z.log2 v) by (apply Z.pow_pos_nonneg; lia). lia. }
  rewrite Hl in Hb. by rewrite Z.bits_0 in Hb.
Qed.

Lemma log2_from_pow fuel l k : 0 <= l <= k -> k <= 30 -> k - l < Z.of_nat fuel -> log2_from fuel l (2 ^ k) = Ret k.
Proof.
  revert l. induction fuel as [|fuel IH]; intros l Hl Hk Hf; [lia|]. cbn [log2_from].
  destruct (Z.ltb_spec l 31); [|lia]. rewrite Z.shiftl_1_l.
  destruct (Z.ltb_spec (2 ^ l) (2 ^ k)) as [Hlt|Hge].
  - apply IH; try lia. apply Z.pow_lt_mono_r_iff in Hlt; lia.
  - f_equal. destruct (decide (l = k)); [done|]. assert (2 ^ l < 2 ^ k) by (apply Z.pow_lt_mono_r; lia). lia.
Qed.

Lemma log2_exact_pow2 d : d <= INT_MAX -> is_pow2 d = true -> exists k, d = 2 ^ k /\ 0 <= k <= 30 /\ log2_exact d = Ret k.
Proof.
  intros Hm Hp. pose proof (is_pow2_log2 d Hp) as E. exists (Z.log2 d). pose proof (Z.log2_nonneg d).
  assert (Z.log2 d <= 30).
  { destruct (decide (Z.log2 d <= 30)); [done|]. assert (2 ^ 31 <= d) by (rewrite E; apply Z.pow_le_mono_r; lia).
    change (2 ^ 31) with 2147483648 in *. unfold INT_MAX in Hm. lia. }
  split; [done|]. split; [lia|]. unfold log2_exact. rewrite E at 1. apply log2_from_pow; lia.
Qed.

(** The fraction the emitted code computes from a multiplier. *)
Definition magic_quot (m : MagicU32) (x : Z) : Z :=
  let xp := Z.shiftr x (mg_pre_shift m) in
  let hi := Z.shiftr (xp * mg_mul m) 32 in
  if mg_add m then Z.shiftr (u32 (Z.shiftr (u32 (xp - hi)) 1 + hi)) (mg_post_shift m - 1)
  else Z.shiftr hi (mg_post_shift m).

Definition magic_ok (m : MagicU32) : Prop :=
  0 <= mg_mul m < 2 ^ 32 /\ 0 <= mg_pre_shift m <= 31 /\ 0 <= mg_post_shift m <= 31 /\
  (mg_add m = true -> 2 <= mg_post_shift m).

(** The sum of the add form does not wrap, and is half of [x + hi]. *)
Lemma add_form x mul l : 0 <= x < 2 ^ 32 -> 0 <= mul < 2 ^ 32 -> 2 <= l ->
  let hi := Z.shiftr (x * mul) 32 in
  Z.shiftr (u32 (Z.shiftr (u32 (x - hi)) 1 + hi)) (l - 1) = x * (2 ^ 32 + mul) / 2 ^ (32 + l).
Proof.
  intros Hx Hmul Hl hi. unfold hi. rewrite !Z.shiftr_div_pow2 by lia. change (2 ^ 1) with 2.
  set (h := x * mul / 2 ^ 32). pose proof (Z.div_mod (x * mul) (2 ^ 32) ltac:(lia)) as Hdm. fold h in Hdm.
  pose proof (Z.mod_pos_bound (x * mul) (2 ^ 32) ltac:(lia)) as Hmb.
  assert (Hh : 0 <= h <= x).
  { split; [apply Z.div_pos; nia|]. unfold h. apply Z.div_le_upper_bound; [lia|]. nia. }
  rewrite (u32_id (x - h)) by lia.
  assert (Hhalf : (x - h) / 2 + h = (x + h) / 2) by (rewrite <- Z.div_add by lia; f_equal; lia).
  rewrite Hhalf. assert (0 <= (x + h) / 2 < 2 ^ 32) by (split; [apply Z.div_pos; lia|apply Z.div_lt_upper_bound; lia]).
  rewrite u32_id by done. rewrite Z.div_div by (try apply Z.pow_pos_nonneg; lia).
  replace (2 * 2 ^ (l - 1)) with (2 ^ l) by (rewrite <- Z.pow_succ_r by lia; f_equal; lia).
  rewrite Z.pow_add_r by lia. rewrite <- Z.div_div by (try apply Z.pow_nonzero; try apply Z.pow_pos_nonneg; lia).
  f_equal. rewrite Z.mul_add_distr_l, (Z.add_comm (x * 2 ^ 32)), Z.div_add by lia. fold h. lia.
Qed.

Lemma u64_small z : 0 <= z < 2 ^ 64 -> u64 z = z.
Proof. apply Z.mod_small. Qed.

(** [magic_u32] of what is left without the factors of two: no wrap-around, and
    one of the two multipliers. *)
Lemma magic_u32_cases d : 1 < d <= INT_MAX -> is_pow2 d = false ->
  exists d0 k0 l, d = d0 * 2 ^ k0 /\ 0 <= k0 <= 31 /\ Z.odd d0 = true /\ 1 < d0 < 2 ^ 31 /\ 2 <= l <= 31 /\
    2 ^ (l - 1) < d0 /\ d0 <= 2 ^ l /\
    let m_lo := (2 ^ (31 + l) + d0 - 1) / d0 in
    let m_hi := (2 ^ (32 + l) + d0 - 1) / d0 in
    magic_u32 d = if ((2 ^ (32 - k0) - 1) / d0 * d0 - 1) * (m_lo * d0 - 2 ^ (31 + l)) <? 2 ^ (31 + l)
                  then mkMagic m_lo k0 (l - 1) false else mkMagic (m_hi - 2 ^ 32) k0 l true.
Proof.
  intros Hd Hp. unfold INT_MAX in Hd.
  destruct (drop_twos_spec 32 d 0) as (k0 & Hdt & Hk0 & Hdk & Ho); [lia|].
  set (d0 := d / 2 ^ k0) in *. assert (HP : 0 < 2 ^ k0) by (apply Z.pow_pos_nonneg; lia).
  assert (H1 : 1 < d0).
  { assert (d0 <> 0) by (intros E; rewrite E in Ho; done). assert (0 <= d0) by (apply Z.div_pos; lia).
    assert (d0 <> 1); [|lia]. intros E. rewrite E, Z.mul_1_l in Hdk. rewrite Hdk, is_pow2_pow in Hp by done. done. }
  assert (Hd0 : d0 < 2 ^ 31) by (change (2 ^ 31) with 2147483648; nia).
  assert (Hk31 : k0 <= 30).
  { destruct (decide (k0 <= 30)); [done|]. assert (2 ^ 31 <= 2 ^ k0) by (apply Z.pow_le_mono_r; lia). nia. }
  destruct (ceil_log2_spec 33 0 d0) as (Hl & Hhigh & Hlow & Hl1); [lia|lia| |lia|by left|lia|].
  { change (2 ^ (0 + Z.of_nat 33 - 1)) with (2 ^ 32). change (2 ^ 31) with 2147483648 in Hd0. lia. }
  set (l := ceil_log2 33 0 d0) in *.
  assert (Hl31 : l <= 31).
  { destruct (decide (l <= 31)); [done|]. assert (2 ^ 31 <= 2 ^ (l - 1)) by (apply Z.pow_le_mono_r; lia). lia. }
  assert (Hl2 : 2 <= l).
  { destruct (decide (l = 1)) as [E|]; [|lia]. rewrite E in Hhigh. change (2 ^ 1) with 2 in Hhigh.
    assert (d0 = 2) as -> by lia. done. }
  exists d0, k0, l. split; [done|]. do 6 (split; [first [done|lia]|]). cbv zeta.
  unfold magic_u32. destruct (Z.leb_spec d 1); [lia|]. rewrite Hdt. destruct (Z.eqb_spec d0 1); [lia|].
  fold l. cbv zeta. rewrite Z.add_0_l. rewrite !Z.shiftl_1_l.
  rewrite (u32_id (32 + l)) by lia. replace (32 + l - 1) with (31 + l) by lia. rewrite u32_id by lia.
  pose proof (Z.pow_le_mono_r 2 (31 + l) 62). pose proof (Z.pow_le_mono_r 2 (32 + l) 63).
  pose proof (Z.pow_pos_nonneg 2 (31 + l)). pose proof (Z.pow_pos_nonneg 2 (32 + l)).
  rewrite (u64_small (2 ^ (31 + l))), (u64_small (2 ^ (32 + l))) by lia.
  rewrite (u64_small (2 ^ (31 + l) + d0)), (u64_small (2 ^ (31 + l) + d0 - 1)) by lia.
  rewrite (u64_small (2 ^ (32 + l) + d0)), (u64_small (2 ^ (32 + l) + d0 - 1)) by lia.
  pose proof (e_lo_range d0 l 0 ltac:(lia) ltac:(lia) ltac:(lia)) as [He Hme].
  pose proof (m_lo_range d0 l 0 ltac:(lia) ltac:(lia) ltac:(lia) ltac:(lia) ltac:(lia)) as Hmlo.
  pose proof (m_hi_range d0 l 0 ltac:(lia) ltac:(lia) ltac:(lia) ltac:(lia) ltac:(lia)) as Hmhi.
  set (m_lo := (2 ^ (31 + l) + d0 - 1) / d0) in *. set (m_hi := (2 ^ (32 + l) + d0 - 1) / d0) in *.
  rewrite (u64_small (m_lo * d0)), (u64_small (m_lo * d0 - 2 ^ (31 + l))) by lia.
  assert (Hmax : Z.shiftr 0xFFFFFFFF k0 = 2 ^ (32 - k0) - 1).
  { change 0xFFFFFFFF with (Z.ones 32). rewrite Z.shiftr_div_pow2, Z.ones_div_pow2, Z.ones_equiv by lia. lia. }
  rewrite Hmax. set (M := 2 ^ (32 - k0) - 1).
  assert (HM : d0 <= M <= 2 ^ 32 - 1).
  { assert (E32 : 2 ^ 32 = 2 ^ (32 - k0) * 2 ^ k0) by (rewrite <- Z.pow_add_r by lia; f_equal; lia).
    pose proof (Z.pow_le_mono_r 2 (32 - k0) 32). unfold M. change (2 ^ 32) with 4294967296 in *. nia. }
  assert (Hnc : 1 <= M / d0 /\ M / d0 * d0 <= M).
  { split; [apply Z.div_le_lower_bound; lia|]. rewrite Z.mul_comm. apply Z.mul_div_le. lia. }
  set (q := M / d0) in *. assert (Hqd : 1 < q * d0) by nia.
  rewrite (u64_small (q * d0)), (u64_small (q * d0 - 1)) by lia.
  rewrite (u64_small ((q * d0 - 1) * _)).
  2: { split; [apply Z.mul_nonneg_nonneg; lia|]. apply Z.le_lt_trans with (2 ^ 32 * 2 ^ 31); [|lia].
       apply Z.mul_le_mono_nonneg; lia. }
  rewrite (u64_small (m_hi - 2 ^ 32)), !u32_id by lia. done.
Qed.

Lemma shiftr_mul_pow2 a b c : 0 <= b -> 0 <= c -> Z.shiftr (Z.shiftr a b) c = a / 2 ^ (b + c).
Proof. intros. by rewrite Z.shiftr_shiftr, Z.shiftr_div_pow2 by lia. Qed.

Lemma magic_correct d : 1 < d <= INT_MAX -> is_pow2 d = false ->
  magic_ok (magic_u32 d) /\ forall x, 0 <= x < 2 ^ 32 -> magic_quot (magic_u32 d) x = x / d.
Proof.
  intros Hd Hp. destruct (magic_u32_cases d Hd Hp) as (d0 & k0 & l & -> & Hk0 & Ho & Hd0 & Hl & Hlow & Hhigh & Hm).
  cbv zeta in Hm.
  pose proof (m_lo_range d0 l 0 ltac:(lia) ltac:(lia) ltac:(lia) ltac:(lia) ltac:(lia)) as Hmlo.
  pose proof (m_hi_range d0 l 0 ltac:(lia) ltac:(lia) ltac:(lia) ltac:(lia) ltac:(lia)) as Hmhi.
  assert (HP : 0 < 2 ^ k0) by (apply Z.pow_pos_nonneg; lia).
  assert (Hxp : forall x, 0 <= x < 2 ^ 32 -> 0 <= x / 2 ^ k0 < 2 ^ (32 - k0)).
  { intros x Hx. split; [apply Z.div_pos; lia|]. apply Z.div_lt_upper_bound; [lia|].
    rewrite <- Z.pow_add_r by lia. replace (k0 + (32 - k0)) with 32 by lia. lia. }
  rewrite Hm. destruct (Z.ltb_spec (((2 ^ (32 - k0) - 1) / d0 * d0 - 1) * ((2 ^ (31 + l) + d0 - 1) / d0 * d0 - 2 ^ (31 + l))) (2 ^ (31 + l))) as [Hlt|_].
  - split; [unfold magic_ok; cbn; lia|]. intros x Hx. specialize (Hxp x Hx).
    unfold magic_quot. cbn [mg_mul mg_add mg_pre_shift mg_post_shift].
    rewrite shiftr_mul_pow2, (Z.shiftr_div_pow2 x) by lia. replace (32 + (l - 1)) with (31 + l) by lia.
    rewrite (lo_exact d0 l (32 - k0)) by (done || lia). rewrite Z.div_div by lia. by rewrite Z.mul_comm.
  - split; [unfold magic_ok; cbn; lia|]. intros x Hx. specialize (Hxp x Hx).
    assert (2 ^ (32 - k0) <= 2 ^ 32) by (apply Z.pow_le_mono_r; lia).
    unfold magic_quot. cbn [mg_mul mg_add mg_pre_shift mg_post_shift].
    rewrite (Z.shiftr_div_pow2 x) by lia. rewrite add_form by lia.
    replace (2 ^ 32 + ((2 ^ (32 + l) + d0 - 1) / d0 - 2 ^ 32)) with ((2 ^ (32 + l) + d0 - 1) / d0) by lia.
    rewrite (hi_exact d0 l (32 - k0)) by (done || lia). rewrite Z.div_div by lia. by rewrite Z.mul_comm.
Qed.

(** ** What the emitted code computes *)

Section Run.
Context (u : fpu) (l : launch).

(** The tail of the add form. *)
Lemma yields_half_sum r_xp r_hi sh e s : r_xp < a_r (em_alloc e) -> r_hi < a_r (em_alloc e) -> 1 < sh ->
  yields u l (r_diff ← new_r; r_half ← new_r; r_sum ← new_r; _ ← put (SubU32 r_diff r_xp r_hi);
            _ ← put (ShrU32 r_half r_diff 1); _ ← put (AddU32 r_sum r_half r_hi);
            if sh <=? 1 then mret r_sum else r_q ← new_r; _ ← put (ShrU32 r_q r_sum (sh - 1)); mret r_q) e s
    (Z.shiftr (u32 (Z.shiftr (u32 (rr s r_xp - rr s r_hi)) 1 + rr s r_hi)) (sh - 1)).
Proof.
  intros Hx Hh Hs. destruct e as [[af ar ard ah ap] out]. cbn in Hx, Hh. eexists _, _, _. split; [split|].
  - destruct (Z.leb_spec sh 1); [lia|]. eexists [_; _; _; _]. split; [reflexivity|].
    split; [cbn; by rewrite <- !app_assoc|reflexivity].
  - split; cbn; lia.
  - regs_kept.
  - cbn. split; [lia|]. split; [by reg_lookup|done].
Qed.

Lemma yields_pre_shift r_x pre e s : r_x < a_r (em_alloc e) -> 0 <= pre ->
  yields u l (if pre >? 0 then r_xp ← new_r; _ ← put (ShrU32 r_xp r_x pre); mret r_xp else mret r_x) e s
    (Z.shiftr (rr s r_x) pre).
Proof.
  intros Hr Hp. rewrite Z.gtb_ltb. destruct (Z.ltb_spec 0 pre).
  - apply (yields_step u l (fun r => ShrU32 r r_x pre) (fun s => Z.shiftr (rr s r_x) pre)); [done|].
    intros e1 s1 Ha <- _. apply yields_ret. rewrite Ha. cbn. lia.
  - replace pre with 0 by lia. by apply yields_ret.
Qed.

Lemma emit_udiv_const_run d r_x e s :
  1 <= d <= INT_MAX -> r_x < a_r (em_alloc e) -> 0 <= rr s r_x < 2 ^ 32 ->
  yields u l (emit_udiv_const r_x d) e s (rr s r_x / d).
Proof.
  intros Hd Hr Hx. unfold emit_udiv_const. destruct (Z.leb_spec d 1) as [H1|H1].
  { replace d with 1 by lia. rewrite Z.div_1_r. by apply yields_ret. }
  destruct (is_pow2 d) eqn:Hp.
  - destruct (log2_exact_pow2 d ltac:(lia) Hp) as (k & -> & Hk & Hlog). rewrite Hlog, <- Z.shiftr_div_pow2 by lia.
    apply (yields_step u l (fun r => ShrU32 r r_x k) (fun s => Z.shiftr (rr s r_x) k)); [done|].
    intros e1 s1 Ha <- _. apply yields_ret. rewrite Ha. cbn. lia.
  - rewrite (u32_id d) by (unfold INT_MAX in Hd; lia).
    destruct (magic_correct d ltac:(lia) Hp) as [(Hmul & Hpre & Hpost & Hadd) Hq]. rewrite <- (Hq _ Hx).
    unfold magic_quot. set (m := magic_u32 d) in *. clearbody m. clear Hq Hp.
    apply (yields_bind u l _ _ e s _ _ (yields_pre_shift r_x (mg_pre_shift m) e s Hr ltac:(lia))).
    intros r_xp e1 s1 _ Hr1 <-.
    apply (yields_step u l (fun r => MulHiU32 r r_xp (mg_mul m)) (fun s => Z.shiftr (rr s r_xp * mg_mul m) 32)); [done|].
    intros e2 s2 Ha2 Hhi Hold. rewrite <- Hhi, <- (Hold r_xp Hr1). destruct (mg_add m); cbn [negb].
    + apply yields_half_sum; [rewrite Ha2; cbn; lia..|specialize (Hadd eq_refl); lia].
    + destruct (Z.eqb_spec (mg_post_shift m) 0) as [->|]; [apply yields_ret; rewrite Ha2; cbn; lia|].
      set (r_hi := a_r (em_alloc e1)) in *.
      apply (yields_step u l (fun r => ShrU32 r r_hi (mg_post_shift m)) (fun s => Z.shiftr (rr s r_hi) (mg_post_shift m))); [done|].
      intros e3 s3 Ha3 <- _. apply yields_ret. rewrite Ha3. cbn. lia.
Qed.

Lemma is_pow2_land d x : 1 <= d <= INT_MAX -> is_pow2 d = true -> Z.land x (d - 1) = x mod d.
Proof.
  intros Hd Hp. destruct (log2_exact_pow2 d ltac:(lia) Hp) as (k & -> & Hk & _).
  replace (2 ^ k - 1) with (Z.ones k) by (rewrite Z.ones_equiv; lia). by rewrite Z.land_ones by lia.
Qed.

(** The remainder, from the quotient. *)
Lemma emitted_urem r_x d q e s x : 1 <= d <= INT_MAX -> r_x < a_r (em_alloc e) -> q < a_r (em_alloc e) ->
  rr s r_x = x -> 0 <= x < 2 ^ 32 -> rr s q = x / d ->
  exists r e' s', emitted u l
    (r_r ← new_r;
     _ ← (if d <=? 1 then put (MovU32 r_r 0)
          else if is_pow2 d then put (AndB32 r_r r_x (d - 1))
          else r_prod ← new_r; _ ← put (MulLoU32 r_prod q d); put (SubU32 r_r r_x r_prod));
     mret (q, r_r)) e s (q, r) e' s' /\ r < a_r (em_alloc e') /\ rr s' r = x mod d /\ gm s' = gm s.
Proof.
  intros Hd Hr Hq Hx Hx32 Hv. destruct e as [[af ar ard ah ap] out]. cbn in Hr, Hq.
  destruct (Z.leb_spec d 1) as [H1|H1]; [|destruct (is_pow2 d) eqn:Hp].
  - eexists _, _, _. split; [split|].
    + eexists [_]. split; [reflexivity|]. split; reflexivity.
    + split; cbn; lia.
    + regs_kept.
    + cbn. split; [lia|]. reg_lookup. split; [|done]. replace d with 1 by lia. by rewrite Z.mod_1_r.
  - eexists _, _, _. split; [split|].
    + eexists [_]. split; [reflexivity|]. split; reflexivity.
    + split; cbn; lia.
    + regs_kept.
    + cbn. split; [lia|]. reg_lookup. split; [|done]. rewrite Hx, u32_id by (unfold INT_MAX in Hd; lia). by apply is_pow2_land.
  - eexists _, _, _. split; [split|].
    + eexists [_; _]. split; [reflexivity|]. split; [cbn; by rewrite <- !app_assoc|reflexivity].
    + split; cbn; lia.
    + regs_kept.
    + cbn. split; [lia|]. split; [|done]. reg_lookup. rewrite Hv, Hx.
      pose proof (Z.div_mod x d ltac:(lia)). pose proof (Z.mod_pos_bound x d ltac:(lia)).
      pose proof (Z.div_pos x d ltac:(lia) ltac:(lia)).
      rewrite (u32_id (x / d * d)) by nia. rewrite u32_id by nia. nia.
Qed.

Lemma emit_udiv_urem_const_run r_x d x e s :
  1 <= d <= INT_MAX -> r_x < a_r (em_alloc e) -> rr s r_x = x -> 0 <= x < 2 ^ 32 ->
  exists q r e' s', emitted u l (emit_udiv_urem_const r_x d) e s (q, r) e' s' /\
    q < a_r (em_alloc e') /\ r < a_r (em_alloc e') /\ rr s' q = x / d /\ rr s' r = x mod d /\ gm s' = gm s.
Proof.
  intros Hd Hr Hx Hx32.
  destruct (emit_udiv_const_run d r_x e s Hd Hr) as (q & e1 & s1 & He1 & Hq & Hv & Hm); [by rewrite Hx|].
  pose proof (emitted_kept u l _ e s q e1 s1 He1) as Hk1.
  pose proof (emitted_alloc u l _ e s q e1 s1 He1) as Ha1. rewrite Hx in Hv.
  destruct (emitted_urem r_x d q e1 s1 x Hd) as (r & e2 & s2 & He2 & Hr2 & Hv2 & Hm2); try done.
  { destruct Ha1. lia. }
  { by rewrite (keep_r _ _ _ Hk1). }
  pose proof (emitted_kept u l _ e1 s1 _ e2 s2 He2) as Hk2.
  exists q, r, e2, s2. split; [unfold emit_udiv_urem_const; by eapply emitted_bind|].
  split; [destruct (emitted_alloc u l _ e1 s1 _ e2 s2 He2); lia|]. split; [done|].
  split; [by rewrite (keep_r _ _ _ Hk2)|]. split; [done|by rewrite Hm2].
Qed.
End Run.

(** C18: the code [emit_udiv_urem_const] appends for a positive [int] divisor
    divides: run by any thread, it leaves the quotient and the remainder of
    the 32-bit value in [r_x] in the two registers it returns, for every value
    and every divisor, and leaves memory and every register allocated before as
    it was. *)
Theorem udiv_urem_const_exact (u : fpu) (l : launch) (r_x d x : Z) (e : emitter) (s : thread) :
  1 <= d <= INT_MAX -> r_x < a_r (em_alloc e) -> rr s r_x = x -> 0 <= x < 2 ^ 32 ->
  exists q r e' code s',
    emit_udiv_urem_const r_x d e = (Ret (q, r), e') /\ em_out e' = em_out e ++ code /\
    exec u l code s = Some s' /\ rr s' q = x / d /\ rr s' r = x mod d /\
    gm s' = gm s /\ keeps (em_alloc e) s s'.
Proof.
  intros Hd Hr Hx Hx32.
  destruct (emit_udiv_urem_const_run u l r_x d x e s Hd Hr Hx Hx32) as (q & r & e' & s' & He & _ & _ & Hq & Hv & Hm).
  destruct He as [(code & Hrun & Ho & Hc) _ Hk]. by exists q, r, e', code, s'.
Qed.

Module DivEx.
Definition no_fpu : fpu := mkFpu (fun _ _ _ => 0) (fun _ _ => 0) (fun _ _ _ => 0) (fun _ _ => true) id id id.
Definition one_thread : launch := mkLaunch 0 1 0 1 1 [] [] anywhere anywhere.
Definition start : emitter := mkEmitter (mkAlloc 0 1 0 0 0) [].
Definition all_ones : thread :=
  mkThread (fun _ => 0) (fun _ => 4294967295) (fun _ => 0) (fun _ => 0) (fun _ => false) ∅.

(** Seven needs the add form; the dividend is the largest there is. *)
Lemma udiv_urem_const_exact_witness :
  exists q r e' code s',
    emit_udiv_urem_const 0 7 start = (Ret (q, r), e') /\ em_out e' = em_out start ++ code /\
    exec no_fpu one_thread code all_ones = Some s' /\ rr s' q = 4294967295 / 7 /\ rr s' r = 4294967295 mod 7 /\
    gm s' = gm all_ones /\ keeps (em_alloc start) all_ones s'.
Proof.
  apply (udiv_urem_const_exact no_fpu one_thread 0 7 4294967295 start all_ones);
    [split; discriminate|reflexivity|reflexivity|split; [discriminate|reflexivity]].
Defined.
End DivEx.
