(* ===== verification/PtxChain.v ===== *)
(** * PTX for a chain of operations

    The rest of src/jit/ptx_emit_detail.h: one lane of one operation
    ([emit_lane_op]), typed loads and stores ([emit_load], [emit_store]), and
    [emit_chain], which writes the code of a list of nodes: it forwards copies
    and casts that change nothing, shares equal expressions and equal lanes, and
    fuses a multiplication used once with the addition that uses it. *)
From S2P Require Import Prelude Dtype Device Heap Tensor TraceDag Ptx.

(** [v[i]] on a vector of register names. *)
Definition reg_at (l : list Z) (i : nat) : emit Z := match l !! i with Some r => mret r | None => st_undef end.

Fixpoint new_many (m : emit Z) (n : nat) : emit (list Z) :=
  match n with O => mret [] | S k => r ← m; rs ← new_many m k; mret (r :: rs) end.

Fixpoint put_all (code : list instr) : emit unit :=
  match code with [] => mret tt | i :: r => _ ← put i; put_all r end.

(** ** One lane of an operation *)

Definition is_exact_pow2_f32 (bits : Z) : bool :=
  let exp := Z.land (Z.shiftr bits 23) 0xFF in
  let mant := Z.land bits 0x007FFFFF in
  (mant =? 0) && (exp >? 1) && (exp <? 253).

(** [1.0f / s] for such a pattern: the exponent is negated, which is exact. *)
Definition recip_pow2_f32 (bits : Z) : Z :=
  let exp := Z.land (Z.shiftr bits 23) 0xFF in
  Z.lor (Z.land bits 0x80000000) (Z.shiftl (254 - exp) 23).

Definition emit_sigmoid (x d : Z) : emit unit :=
  t0 ← new_f; t1 ← new_f; t2 ← new_f;
  put_all
    [FUn FNeg t0 x;
     FBin FMul t0 (FReg t0) (FImm 0x3FB8AA3B);
     FBin FMin t0 (FReg t0) (FImm 0x42B00000);
     FUn FEx2 t1 t0;
     FBin FAdd t2 (FReg t1) (FImm 0x3F800000);
     FUn FRcp d t2].

(** An instruction of one or two float operands. *)
Definition emit_bin (op : fbin) (ins : list Z) (d : Z) : emit unit :=
  x ← reg_at ins 0; y ← reg_at ins 1; put (FBin op d (FReg x) (FReg y)).
Definition emit_bin_imm (op : fbin) (ins : list Z) (d k : Z) : emit unit :=
  x ← reg_at ins 0; put (FBin op d (FReg x) (FImm k)).
Definition emit_imm_bin (op : fbin) (ins : list Z) (d k : Z) : emit unit :=
  x ← reg_at ins 0; put (FBin op d (FImm k) (FReg x)).

Definition emit_lane_op (n : TraceNode) (ins : list Z) (d : Z) : emit unit :=
  match n_op n with
  | TraceOpKind.Add => emit_bin FAdd ins d
  | TraceOpKind.Sub => emit_bin FSub ins d
  | TraceOpKind.Mul => emit_bin FMul ins d
  | TraceOpKind.Div => emit_bin FDiv ins d
  | TraceOpKind.AddScalar => emit_bin_imm FAdd ins d (n_scalar n)
  | TraceOpKind.SubScalar => emit_bin_imm FSub ins d (n_scalar n)
  | TraceOpKind.MulScalar => emit_bin_imm FMul ins d (n_scalar n)
  | TraceOpKind.DivScalar =>
      if is_exact_pow2_f32 (n_scalar n) then emit_bin_imm FMul ins d (recip_pow2_f32 (n_scalar n))
      else emit_bin_imm FDiv ins d (n_scalar n)
  | TraceOpKind.ScalarSub => emit_imm_bin FSub ins d (n_scalar n)
  | TraceOpKind.ScalarDiv => emit_imm_bin FDiv ins d (n_scalar n)
  | TraceOpKind.FMA =>
      x ← reg_at ins 0; y ← reg_at ins 1; z ← reg_at ins 2; put (FFma d (FReg x) (FReg y) (FReg z))
  | TraceOpKind.ReLU => emit_bin_imm FMax ins d 0
  | TraceOpKind.Clamp =>
      t ← new_f; x ← reg_at ins 0;
      put_all [FBin FMax t (FReg x) (FImm (n_scalar n)); FBin FMin d (FReg t) (FImm (n_scalar2 n))]
  | TraceOpKind.Where =>
      p ← new_p; x ← reg_at ins 0; y ← reg_at ins 1; z ← reg_at ins 2;
      put_all [SetpNe p x 0; Selp d y z p]
  | TraceOpKind.Cast =>
      match n_dtype n with
      | FP16 => h ← new_h; x ← reg_at ins 0; put_all [CvtF16F32 h x; CvtF32F16 d h]
      | BF16 =>
          h ← new_h; t ← new_r; x ← reg_at ins 0;
          put_all [CvtBf16F32 h x; CvtU32U16 t h; ShlB32 t t 16; MovB32F d t]
      | _ => x ← reg_at ins 0; put (FUn FMov d x)
      end
  | TraceOpKind.Sigmoid => x ← reg_at ins 0; emit_sigmoid x d
  | TraceOpKind.SiLU =>
      s ← new_f; x ← reg_at ins 0; _ ← emit_sigmoid x s; put (FBin FMul d (FReg x) (FReg s))
  | TraceOpKind.Tanh => x ← reg_at ins 0; put (FUn FTanh d x)
  | TraceOpKind.Copy => x ← reg_at ins 0; put (FUn FMov d x)
  | TraceOpKind.GELU =>
      x2 ← new_f; inner ← new_f; poly ← new_f; arg ← new_f; th ← new_f; t1 ← new_f; hx ← new_f;
      x ← reg_at ins 0;
      put_all
        [FBin FMul x2 (FReg x) (FReg x);
         FFma inner (FReg x2) (FImm 0x3D372713) (FImm 0x3F800000);
         FBin FMul poly (FReg inner) (FReg x);
         FBin FMul arg (FReg poly) (FImm 0x3F4C422A);
         FUn FTanh th arg;
         FBin FAdd t1 (FReg th) (FImm 0x3F800000);
         FBin FMul hx (FReg x) (FImm 0x3F000000);
         FBin FMul d (FReg hx) (FReg t1)]
  | TraceOpKind.Modulate =>
      s1 ← new_f; x ← reg_at ins 0; scale ← reg_at ins 1; shift ← reg_at ins 2;
      put_all [FBin FAdd s1 (FReg scale) (FImm 0x3F800000); FFma d (FReg x) (FReg s1) (FReg shift)]
  | op =>
      st_throw (lit "brotensor::jit: op '" ++ op_kind_name op ++ lit "' has no elementwise PTX form")
  end.

(** ** Typed loads and stores

    [lanes] consecutive elements in one access, widened to float registers;
    two-byte elements travel in pairs. *)

(** The two elements of a word. *)
Definition emit_unpack (dt : Dtype) (pk lo hi : Z) : emit unit :=
  match dt with
  | BF16 =>
      t ← new_r; _ ← put_all [ShlB32 t pk 16; MovB32F lo t];
      t2 ← new_r; put_all [AndB32 t2 pk (-65536); MovB32F hi t2]
  | _ => h0 ← new_h; h1 ← new_h; put_all [MovUnpack h0 h1 pk; CvtF32F16 lo h0; CvtF32F16 hi h1]
  end.

Fixpoint emit_unpacks (dt : Dtype) (w out : list Z) : emit unit :=
  match w, out with
  | [], _ => mret tt
  | pk :: w, lo :: hi :: out => _ ← emit_unpack dt pk lo hi; emit_unpacks dt w out
  | _, _ => st_undef
  end.

Definition emit_load (dt : Dtype) (lanes : nat) (addr : Z) : emit (list Z) :=
  out ← new_many new_f lanes;
  match dt with
  | FP32 => _ ← put (LdF32 out addr); mret out
  | _ =>
      if Nat.eqb lanes 1 then
        h ← new_h;
        _ ← put (LdB16 h addr);
        o0 ← reg_at out 0;
        _ ← (match dt with
             | BF16 => t ← new_r; put_all [CvtU32U16 t h; ShlB32 t t 16; MovB32F o0 t]
             | _ => put (CvtF32F16 o0 h)
             end);
        mret out
      else
        w ← new_many new_r (Nat.div lanes 2);
        _ ← put (LdU32 w addr);
        _ ← emit_unpacks dt w out;
        mret out
  end.

(** The conversion to a two-byte element. *)
Definition cvt (dt : Dtype) (h v : Z) : instr :=
  match dt with BF16 => CvtBf16F32 h v | _ => CvtF16F32 h v end.

Fixpoint emit_packs (dt : Dtype) (words : nat) (vals : list Z) : emit (list Z) :=
  match words, vals with
  | O, _ => mret []
  | S k, a :: b :: vals =>
      h0 ← new_h; h1 ← new_h;
      _ ← put_all [cvt dt h0 a; cvt dt h1 b];
      w ← new_r;
      _ ← put (MovPack w h0 h1);
      ws ← emit_packs dt k vals;
      mret (w :: ws)
  | _, _ => st_undef
  end.

Definition emit_store (dt : Dtype) (lanes : nat) (addr : Z) (vals : list Z) : emit unit :=
  match dt with
  | FP32 =>
      if Nat.leb lanes (length vals) then put (StF32 addr (take lanes vals)) else st_undef
  | _ =>
      if Nat.eqb lanes 1 then
        h ← new_h; v ← reg_at vals 0; put_all [cvt dt h v; StB16 addr h]
      else
        w ← emit_packs dt (Nat.div lanes 2) vals; put (StU32 addr w)
  end.

(** ** The chain *)

Abbreviation ValueMap := (gmap Z (list Z)).

(** [dag.node(id)], which is [nodes_.at(id)]; [vals.at(id)]. *)
Definition node (ns : list TraceNode) (id : Z) : res TraceNode :=
  match node_at ns id with Some n => Ret n | None => Throw (lit "std::out_of_range") end.
Definition vals_at (vals : ValueMap) (id : Z) : emit (list Z) :=
  match vals !! id with Some v => mret v | None => st_throw (lit "std::out_of_range") end.

Definition same_node_expr (a b : TraceNode) : bool :=
  TraceOpKind.eqb (n_op a) (n_op b) && dtype_eqb (n_dtype a) (n_dtype b) &&
  bool_decide (n_inputs a = n_inputs b) && (n_scalar a =? n_scalar b) && (n_scalar2 a =? n_scalar2 b).

(** How often the graph reads a node. *)
Definition use_count (ns : list TraceNode) (id : Z) : nat :=
  length (filter (fun s => s = id) (concat (map n_inputs ns))).

(** An operand of an addition that can be fused with it. *)
Definition fusible (ns : list TraceNode) (in_chain : gset Z) (vals : ValueMap) (src : Z) : res bool :=
  if negb (bool_decide (src ∈ in_chain)) || bool_decide (is_Some (vals !! src)) then mret false
  else
    m ← node ns src;
    mret (TraceOpKind.eqb (n_op m) TraceOpKind.Mul && negb (n_live m) && Nat.eqb (use_count ns src) 1 &&
          Nat.leb 2 (length (n_inputs m))).

Fixpoint fused_muls (ns : list TraceNode) (in_chain : gset Z) (vals : ValueMap) (ids : list Z) (fused : gset Z)
    : res (gset Z) :=
  match ids with
  | [] => mret fused
  | id :: r =>
      n ← node ns id;
      match TraceOpKind.eqb (n_op n) TraceOpKind.Add, n_inputs n with
      | true, a :: b :: _ =>
          fa ← fusible ns in_chain vals a;
          if fa : bool then fused_muls ns in_chain vals r ({[a]} ∪ fused)
          else
            fb ← fusible ns in_chain vals b;
            fused_muls ns in_chain vals r (if fb : bool then {[b]} ∪ fused else fused)
      | _, _ => fused_muls ns in_chain vals r fused
      end
  end.

(** The node whose value a copy or a cast that changes nothing takes over. *)
Definition forwards (ns : list TraceNode) (n : TraceNode) : res (option Z) :=
  match n_op n, n_inputs n with
  | TraceOpKind.Cast, src :: _ =>
      if dtype_eqb (n_dtype n) FP32 then mret (Some src)
      else m ← node ns src; mret (if dtype_eqb (n_dtype m) (n_dtype n) then Some src else None)
  | TraceOpKind.Copy, src :: _ => mret (Some src)
  | _, _ => mret None
  end.

(** The first node evaluated before with the same expression. *)
Fixpoint cse_match (ns : list TraceNode) (n : TraceNode) (evaluated : list Z) : res (option Z) :=
  match evaluated with
  | [] => mret None
  | p :: r => m ← node ns p; if same_node_expr n m then mret (Some p) else cse_match ns n r
  end.

Definition mul_input (fused : gset Z) (n : TraceNode) : option (Z * Z) :=
  match n_op n, n_inputs n with
  | TraceOpKind.Add, a :: b :: _ =>
      if bool_decide (a ∈ fused) then Some (a, b) else if bool_decide (b ∈ fused) then Some (b, a) else None
  | _, _ => None
  end.

Fixpoint fold_lanes {A} (f : A -> nat -> emit A) (acc : A) (js : list nat) : emit A :=
  match js with [] => mret acc | j :: r => acc ← f acc j; fold_lanes f acc r end.

Definition fma_lane (va vb vd : list Z) (dst : list Z) (j : nat) : emit (list Z) :=
  a ← reg_at va j; b ← reg_at vb j; c ← reg_at vd j;
  a0 ← reg_at va 0; b0 ← reg_at vb 0; c0 ← reg_at vd 0;
  if Nat.ltb 0 j && (a =? a0) && (b =? b0) && (c =? c0) then d0 ← reg_at dst 0; mret (dst ++ [d0])
  else d ← new_f; _ ← put (FFma d (FReg a) (FReg b) (FReg c)); mret (dst ++ [d]).

(** The registers of lane [j] of a node's operands. *)
Fixpoint lane_inputs (vals : ValueMap) (id : Z) (srcs : list Z) (j : nat) : emit (list Z) :=
  match srcs with
  | [] => mret []
  | src :: r =>
      match vals !! src with
      | None => st_throw (lit "brotensor::jit: trace node " ++ to_string id ++
                          lit " reads an operand that was never materialised")
      | Some v => x ← reg_at v j; xs ← lane_inputs vals id r j; mret (x :: xs)
      end
  end.

Definition op_lane (n : TraceNode) (vals : ValueMap) (acc : list Z * list Z) (j : nat) : emit (list Z * list Z) :=
  let '(dst, in0) := acc in
  ins ← lane_inputs vals (n_id n) (n_inputs n) j;
  let in0 := if Nat.eqb j 0 then ins else in0 in
  if Nat.ltb 0 j && bool_decide (ins = in0) then d0 ← reg_at dst 0; mret (dst ++ [d0], in0)
  else d ← new_f; _ ← emit_lane_op n ins d; mret (dst ++ [d], in0).

Definition chain_node (ns : list TraceNode) (lanes : nat) (fused : gset Z) (n : TraceNode)
    (vals : ValueMap) (evaluated : list Z) : emit (ValueMap * list Z) :=
  fwd ← st_lift (forwards ns n);
  match fwd with
  | Some src => v ← vals_at vals src; mret (<[n_id n := v]> vals, evaluated)
  | None =>
      same ← st_lift (cse_match ns n evaluated);
      match same with
      | Some p => v ← vals_at vals p; mret (<[n_id n := v]> vals, evaluated)
      | None =>
          dst ← (match mul_input fused n with
                 | Some (mul, addend) =>
                     m ← st_lift (node ns mul);
                     match n_inputs m with
                     | a :: b :: _ =>
                         va ← vals_at vals a; vb ← vals_at vals b; vd ← vals_at vals addend;
                         fold_lanes (fma_lane va vb vd) [] (seq 0 lanes)
                     | _ => st_undef
                     end
                 | None => r ← fold_lanes (op_lane n vals) ([], []) (seq 0 lanes); mret r.1
                 end);
          mret (<[n_id n := dst]> vals, evaluated ++ [n_id n])
      end
  end.

Fixpoint chain_loop (ns : list TraceNode) (lanes : nat) (fused : gset Z) (ids : list Z)
    (vals : ValueMap) (evaluated : list Z) : emit ValueMap :=
  match ids with
  | [] => mret vals
  | id :: r =>
      n ← st_lift (node ns id);
      if TraceOpKind.eqb (n_op n) TraceOpKind.Input || bool_decide (is_Some (vals !! n_id n)) ||
         bool_decide (n_id n ∈ fused) then chain_loop ns lanes fused r vals evaluated
      else
        ve ← chain_node ns lanes fused n vals evaluated;
        chain_loop ns lanes fused r ve.1 ve.2
  end.

(** [order = nullptr] is [None]: the whole graph. *)
Definition emit_chain (ns : list TraceNode) (lanes : nat) (vals : ValueMap) (order : option (list Z)) : emit ValueMap :=
  let ids := match order with Some l => l | None => map n_id ns end in
  fused ← st_lift (fused_muls ns (list_to_set ids) vals ids ∅);
  chain_loop ns lanes fused ids vals [].
