(* ===== verification/PtxChainSpec.v ===== *)
(** * The code of a chain computes the chain

    What each node of a graph means on one lane, in the operations of the float
    unit, and that the code [emit_chain] appends computes it: each value is that
    of its node on its operands' values, up to the two liberties the emitter
    takes (a cast between equal types forwards its operand unrounded, and a
    multiplication used once is fused with the addition that uses it). *)
From stdpp Require Import functions.
From S2P Require Import Prelude Dtype Device Heap Tensor TraceDag TraceSpec Ptx PtxSpec PtxChain.

(** ** What an operation computes *)
Section Meaning.
Context (u : fpu).

Definition sigmoid_value (x : Z) : Z :=
  let t := fpu_bin u FMin (fpu_bin u FMul (fpu_un u FNeg x) 0x3FB8AA3B) 0x42B00000 in
  fpu_un u FRcp (fpu_bin u FAdd (fpu_un u FEx2 t) 0x3F800000).

Definition gelu_value (x : Z) : Z :=
  let poly := fpu_bin u FMul (fpu_fma u (fpu_bin u FMul x x) 0x3D372713 0x3F800000) x in
  let th := fpu_un u FTanh (fpu_bin u FMul poly 0x3F4C422A) in
  fpu_bin u FMul (fpu_bin u FMul x 0x3F000000) (fpu_bin u FAdd th 0x3F800000).

(** The rounding of a cast. *)
Definition cast_value (dt : Dtype) (x : Z) : Z :=
  match dt with
  | FP16 => fpu_of_f16 u (fpu_to_f16 u x)
  | BF16 => u32 (Z.shiftl (fpu_to_bf16 u x) 16)
  | _ => x
  end.

Definition op_value (n : TraceNode) (args : list Z) : option Z :=
  match n_op n, args with
  | TraceOpKind.Add, x :: y :: _ => Some (fpu_bin u FAdd x y)
  | TraceOpKind.Sub, x :: y :: _ => Some (fpu_bin u FSub x y)
  | TraceOpKind.Mul, x :: y :: _ => Some (fpu_bin u FMul x y)
  | TraceOpKind.Div, x :: y :: _ => Some (fpu_bin u FDiv x y)
  | TraceOpKind.AddScalar, x :: _ => Some (fpu_bin u FAdd x (n_scalar n))
  | TraceOpKind.SubScalar, x :: _ => Some (fpu_bin u FSub x (n_scalar n))
  | TraceOpKind.MulScalar, x :: _ => Some (fpu_bin u FMul x (n_scalar n))
  | TraceOpKind.DivScalar, x :: _ =>
      Some (if is_exact_pow2_f32 (n_scalar n) then fpu_bin u FMul x (recip_pow2_f32 (n_scalar n))
            else fpu_bin u FDiv x (n_scalar n))
  | TraceOpKind.ScalarSub, x :: _ => Some (fpu_bin u FSub (n_scalar n) x)
  | TraceOpKind.ScalarDiv, x :: _ => Some (fpu_bin u FDiv (n_scalar n) x)
  | TraceOpKind.FMA, x :: y :: z :: _ => Some (fpu_fma u x y z)
  | TraceOpKind.ReLU, x :: _ => Some (fpu_bin u FMax x 0)
  | TraceOpKind.Clamp, x :: _ => Some (fpu_bin u FMin (fpu_bin u FMax x (n_scalar n)) (n_scalar2 n))
  | TraceOpKind.Where, c :: x :: y :: _ => Some (if fpu_ne u c 0 then x else y)
  | TraceOpKind.Cast, x :: _ => Some (cast_value (n_dtype n) x)
  | TraceOpKind.Sigmoid, x :: _ => Some (sigmoid_value x)
  | TraceOpKind.SiLU, x :: _ => Some (fpu_bin u FMul x (sigmoid_value x))
  | TraceOpKind.Tanh, x :: _ => Some (fpu_un u FTanh x)
  | TraceOpKind.Copy, x :: _ => Some x
  | TraceOpKind.GELU, x :: _ => Some (gelu_value x)
  | TraceOpKind.Modulate, x :: scale :: shift :: _ =>
      Some (fpu_fma u x (fpu_bin u FAdd scale 0x3F800000) shift)
  | _, _ => None
  end.

(** The operations with a lane form, and the operands they need. *)
Definition lane_arity (op : TraceOpKind) : option nat :=
  match op with
  | TraceOpKind.Add | TraceOpKind.Sub | TraceOpKind.Mul | TraceOpKind.Div => Some 2%nat
  | TraceOpKind.FMA | TraceOpKind.Where | TraceOpKind.Modulate => Some 3%nat
  | TraceOpKind.AddScalar | TraceOpKind.SubScalar | TraceOpKind.MulScalar | TraceOpKind.DivScalar
  | TraceOpKind.ScalarSub | TraceOpKind.ScalarDiv | TraceOpKind.ReLU | TraceOpKind.Clamp | TraceOpKind.Cast
  | TraceOpKind.Sigmoid | TraceOpKind.SiLU | TraceOpKind.Tanh | TraceOpKind.Copy | TraceOpKind.GELU => Some 1%nat
  | _ => None
  end.
Definition has_form (n : TraceNode) : bool :=
  match lane_arity (n_op n) with Some k => Nat.leb k (length (n_inputs n)) | None => false end.

Lemma op_value_total n args : has_form n = true -> length args = length (n_inputs n) ->
  exists v, op_value n args = Some v.
Proof.
  unfold has_form, op_value. intros H Hl. rewrite <- Hl in H. clear Hl.
  destruct (n_op n); try discriminate H; cbn in H;
    (destruct args as [|x [|y [|z args]]]; try discriminate H; eexists; reflexivity).
Qed.

(** The value [v] of a node, given its operands'. *)
Inductive computes (ns : list TraceNode) (val : Z -> option Z) (n : TraceNode) (v : Z) : Prop :=
  | computes_op args : mapM val (n_inputs n) = Some args -> op_value n args = Some v -> computes ns val n v
  | computes_same_cast src r m : n_op n = TraceOpKind.Cast -> n_inputs n = src :: r ->
      node_at ns src = Some m -> n_dtype m = n_dtype n -> val src = Some v -> computes ns val n v
  | computes_fma mul addend r m a b r' x y z : n_op n = TraceOpKind.Add ->
      n_inputs n = mul :: addend :: r \/ n_inputs n = addend :: mul :: r ->
      node_at ns mul = Some m -> n_op m = TraceOpKind.Mul -> n_inputs m = a :: b :: r' ->
      val a = Some x -> val b = Some y -> val addend = Some z -> v = fpu_fma u x y z -> computes ns val n v.
End Meaning.

(** ** One lane *)
Section Lane.
Context (u : fpu) (l : launch).

Lemma put_all_run code e : put_all code e = (Ret tt, mkEmitter (em_alloc e) (em_out e ++ code)).
Proof.
  revert e. induction code as [|i code IH]; intros e; cbn; [by rewrite app_nil_r; destruct e|].
  unfold mbind, st_bind. cbn. rewrite IH. cbn. by rewrite <- app_assoc.
Qed.

(** What the code of one lane does: it is appended with [d] already allocated. *)
Definition lane_code (m : emit unit) (e : emitter) (s : thread) (d v : Z) : Prop :=
  exists e' code s', m e = (Ret tt, e') /\ em_out e' = em_out e ++ code /\ exec u l code s = Some s' /\
    alloc_le (em_alloc e) (em_alloc e') /\ keeps (mkAlloc d (a_r (em_alloc e)) (a_rd (em_alloc e)) (a_h (em_alloc e)) (a_p (em_alloc e))) s s' /\
    gm s' = gm s /\ rf s' d = v.

Lemma lane_code_block m e s d v a' code s' :
  m e = (Ret tt, mkEmitter a' (em_out e ++ code)) -> exec u l code s = Some s' ->
  alloc_le (em_alloc e) a' -> keeps (mkAlloc d (a_r (em_alloc e)) (a_rd (em_alloc e)) (a_h (em_alloc e)) (a_p (em_alloc e))) s s' ->
  gm s' = gm s -> rf s' d = v -> lane_code m e s d v.
Proof. intros. by exists (mkEmitter a' (em_out e ++ code)), code, s'. Qed.

(** A lane whose operands are registers below [d]. *)
Lemma emit_lane_op_run n ins e s d v : Forall (fun r => r < d) ins -> d < a_f (em_alloc e) ->
  op_value u n (map (rf s) ins) = Some v -> lane_code (emit_lane_op n ins d) e s d v.
Proof.
  intros Hins Hd Hv. destruct e as [[af ar ard ah ap] out]. cbn in Hd. unfold op_value in Hv. unfold emit_lane_op.
  destruct (n_op n); try discriminate Hv;
    (destruct ins as [|x ins]; [discriminate Hv|]; cbn [map] in Hv; apply Forall_cons in Hins as [Hx Hins]).
  all: try (destruct ins as [|y ins]; [discriminate Hv|]; cbn [map] in Hv; apply Forall_cons in Hins as [Hy Hins]).
  all: try (destruct ins as [|z ins]; [discriminate Hv|]; cbn [map] in Hv; apply Forall_cons in Hins as [Hz Hins]).
  all: injection Hv as <-.
  all: try match goal with |- context [is_exact_pow2_f32 ?k] => destruct (is_exact_pow2_f32 k) end.
  all: try match goal with |- context [n_dtype ?k] => destruct (n_dtype k) end.
  all: eapply lane_code_block;
    [unfold emit_sigmoid, emit_bin, emit_bin_imm, emit_imm_bin, reg_at, mbind, st_bind; cbn -[put_all];
     rewrite ?put_all_run; unfold put; cbn -[put_all]; rewrite <- ?app_assoc; reflexivity
    |reflexivity|split; cbn; lia|regs_kept|reflexivity|].
  all: cbn; reg_lookup; try reflexivity.
Qed.

(** The same, with the allocation of [d] and what follows in a block. *)
Lemma emitted_lane n ins e s v {B} (k : Z -> B) : Forall (fun r => r < a_f (em_alloc e)) ins ->
  op_value u n (map (rf s) ins) = Some v ->
  exists e' s', emitted u l (d ← new_f; _ ← emit_lane_op n ins d; mret (k d)) e s (k (a_f (em_alloc e))) e' s' /\
    a_f (em_alloc e) < a_f (em_alloc e') /\ gm s' = gm s /\ rf s' (a_f (em_alloc e)) = v.
Proof.
  intros Hins Hv. set (d := a_f (em_alloc e)).
  destruct (emit_lane_op_run n ins (with_alloc (bump_f (em_alloc e)) e) s d v) as (e' & code & s' & Hr & Ho & Hx & Ha & Hk & Hm & Hd);
    [done|cbn; unfold d; lia|done|].
  exists e', s'. split; [|split; [destruct Ha as [Ha]; cbn in Ha; unfold d; lia|done]].
  apply (emitted_block u l _ _ _ _ _ code).
  - unfold mbind, st_bind, new_f. change (a_f (em_alloc e)) with d. 
    change (mkEmitter (bump_f (em_alloc e)) (em_out e)) with (with_alloc (bump_f (em_alloc e)) e). by rewrite Hr.
  - done.
  - done.
  - etrans; [|exact Ha]. split; cbn; lia.
  - destruct Hk. by split.
Qed.

Lemma emitted_fma e s a b c {B} (k : Z -> B) :
  a < a_f (em_alloc e) -> b < a_f (em_alloc e) -> c < a_f (em_alloc e) ->
  exists e' s', emitted u l (d ← new_f; _ ← put (FFma d (FReg a) (FReg b) (FReg c)); mret (k d)) e s (k (a_f (em_alloc e))) e' s' /\
    a_f (em_alloc e) < a_f (em_alloc e') /\ gm s' = gm s /\
    rf s' (a_f (em_alloc e)) = fpu_fma u (rf s a) (rf s b) (rf s c).
Proof.
  intros Ha Hb Hc. eexists _, _. split; [eapply (emitted_block u l _ _ _ _ _ [_])|].
  - reflexivity.
  - reflexivity.
  - reflexivity.
  - split; cbn; lia.
  - regs_kept.
  - cbn. reg_lookup. split_and!; done || lia.
Qed.
End Lane.

(** ** All lanes *)
Section Lanes.
Context (u : fpu) (l : launch) (lanes : nat) (Hlanes : (0 < lanes)%nat).

Definition reg_ok (a : Alloc) (r : Z) : Prop := r < a_f a.
Definition regs_ok (a : Alloc) (regs : list Z) : Prop := length regs = lanes /\ Forall (reg_ok a) regs.
Definition vals_ok (a : Alloc) (vals : ValueMap) : Prop := map_Forall (fun _ regs => regs_ok a regs) vals.

Lemma regs_ok_le a b regs : alloc_le a b -> regs_ok a regs -> regs_ok b regs.
Proof. intros [Hf] [Hl H]. split; [done|]. eapply Forall_impl; [exact H|]. unfold reg_ok. intros r Hr. cbn in Hr. lia. Qed.
Lemma vals_ok_le a b vals : alloc_le a b -> vals_ok a vals -> vals_ok b vals.
Proof. intros Hle H id regs Hi. eapply regs_ok_le; [exact Hle|by eapply H]. Qed.

(** A node's register and value on a lane. *)
Definition lane_reg (vals : ValueMap) (j : nat) (id : Z) : option Z := v ← vals !! id; v !! j.
Definition lane_val (vals : ValueMap) (s : thread) (j : nat) (id : Z) : option Z := rf s <$> lane_reg vals j id.

Lemma lane_reg_some a vals j id : vals_ok a vals -> is_Some (vals !! id) -> (j < lanes)%nat ->
  exists r, lane_reg vals j id = Some r /\ r < a_f a.
Proof.
  intros H [regs Hr] Hj. destruct (H id regs Hr) as [Hl Hf]. unfold lane_reg. rewrite Hr. cbn.
  destruct (lookup_lt_is_Some_2 regs j) as [r Hx]; [lia|]. exists r. split; [done|].
  by apply (Forall_lookup_1 _ _ _ _ Hf Hx).
Qed.

Lemma lane_reg_ok a vals j id r : vals_ok a vals -> lane_reg vals j id = Some r -> r < a_f a.
Proof.
  unfold lane_reg. intros H Hr. destruct (vals !! id) as [regs|] eqn:E; [|done]. cbn in Hr.
  destruct (H id regs E) as [_ Hf]. by apply (Forall_lookup_1 _ _ _ _ Hf Hr).
Qed.

Lemma mapM_lane_val vals s j srcs : mapM (lane_val vals s j) srcs = map (rf s) <$> mapM (lane_reg vals j) srcs.
Proof.
  induction srcs as [|src srcs IH]; [done|]. cbn. rewrite IH. unfold lane_val at 1.
  destruct (lane_reg vals j src); [|done]. cbn. by destruct (mapM (lane_reg vals j) srcs).
Qed.

Lemma lane_inputs_run vals id srcs j e : vals_ok (em_alloc e) vals -> (j < lanes)%nat ->
  Forall (fun src => is_Some (vals !! src)) srcs ->
  exists ins, mapM (lane_reg vals j) srcs = Some ins /\ lane_inputs vals id srcs j e = (Ret ins, e) /\
    Forall (fun r => r < a_f (em_alloc e)) ins /\ length ins = length srcs.
Proof.
  intros Hv Hj. induction srcs as [|src srcs IH]; intros Hs; [by exists []|].
  apply Forall_cons in Hs as [Hsrc Hs]. destruct (IH Hs) as (ins & Hm & Hr & Hf & Hlen).
  destruct (lane_reg_some _ _ j src Hv Hsrc Hj) as (r & Hlr & Hlt). destruct Hsrc as [regs Hregs].
  exists (r :: ins). split; [cbn; by rewrite Hlr; cbn; rewrite Hm|]. split_and!.
  - cbn [lane_inputs]. rewrite Hregs. unfold lane_reg in Hlr. rewrite Hregs in Hlr. cbn in Hlr.
    unfold reg_at. rewrite Hlr. rewrite (st_bind_ret _ _ _ r e) by done. by rewrite (st_bind_ret _ _ _ ins e Hr).
  - by constructor.
  - cbn. by f_equal.
Qed.

(** A loop over the lanes. *)
Lemma fold_lanes_run {A} (f : A -> nat -> emit A) (P : nat -> A -> emitter -> thread -> Prop) :
  (forall k acc e s, (k < lanes)%nat -> P k acc e s ->
    exists acc' e' s', emitted u l (f acc k) e s acc' e' s' /\ P (S k) acc' e' s') ->
  forall acc e s, P 0%nat acc e s ->
  exists acc' e' s', emitted u l (fold_lanes f acc (seq 0 lanes)) e s acc' e' s' /\ P lanes acc' e' s'.
Proof.
  intros Hstep. enough (G : forall m k acc e s, (k + m = lanes)%nat -> P k acc e s ->
    exists acc' e' s', emitted u l (fold_lanes f acc (seq k m)) e s acc' e' s' /\ P lanes acc' e' s').
  { intros acc e s HP. by apply (G lanes 0%nat). }
  induction m as [|m IH]; intros k acc e s Hk HP; cbn [seq fold_lanes].
  - assert (k = lanes) as -> by lia. exists acc, e, s. split; [apply emitted_ret|done].
  - destruct (Hstep k acc e s ltac:(lia) HP) as (acc1 & e1 & s1 & He1 & HP1).
    destruct (IH (S k) acc1 e1 s1 ltac:(lia) HP1) as (acc2 & e2 & s2 & He2 & HP2).
    exists acc2, e2, s2. split; [by eapply emitted_bind|done].
Qed.

(** The registers of the lanes done so far; [good j v] says what lane [j] is to
    hold. *)
Record lanes_inv (e0 : emitter) (s0 : thread) (good : nat -> Z -> Prop) (k : nat) (dst : list Z) (e : emitter) (s : thread) : Prop := {
  li_length : length dst = k;
  li_regs : Forall (reg_ok (em_alloc e)) dst;
  li_gm : gm s = gm s0;
  li_alloc : alloc_le (em_alloc e0) (em_alloc e);
  li_kept : keeps (em_alloc e0) s0 s;
  li_good : forall j r, dst !! j = Some r -> good j (rf s r)
}.

Lemma lanes_inv_nil e0 s0 good : lanes_inv e0 s0 good 0 [] e0 s0.
Proof. by split. Qed.

Lemma lanes_inv_share e0 s0 good k dst d0 e s : lanes_inv e0 s0 good k dst e s -> dst !! 0%nat = Some d0 ->
  (good 0%nat (rf s d0) -> good k (rf s d0)) -> lanes_inv e0 s0 good (S k) (dst ++ [d0]) e s.
Proof.
  intros [Hl Hr Hg Ha Hk Hgood] H0 Himp. split; try done.
  - rewrite length_app, Hl. cbn. lia.
  - apply Forall_app. split; [done|]. constructor; [|done]. by eapply (Forall_lookup_1 _ _ _ _ Hr).
  - intros j r. rewrite lookup_app_Some. intros [Hj|[Hj Hj']]; [by apply Hgood|].
    apply list_lookup_singleton_Some in Hj' as [Hj' <-]. assert (j = k) as -> by lia. apply Himp, (Hgood 0%nat), H0.
Qed.

Lemma lanes_inv_push e0 s0 good k dst e s {A} (m : emit A) a e' s' : lanes_inv e0 s0 good k dst e s ->
  emitted u l m e s a e' s' -> a_f (em_alloc e) < a_f (em_alloc e') -> gm s' = gm s ->
  good k (rf s' (a_f (em_alloc e))) -> lanes_inv e0 s0 good (S k) (dst ++ [a_f (em_alloc e)]) e' s'.
Proof.
  intros [Hl Hr Hg Ha Hk Hgood] [_ Ha' Hk'] Hlt Hm Hnew. split.
  - rewrite length_app, Hl. cbn. lia.
  - apply Forall_app. split; [|by constructor]. eapply Forall_impl; [exact Hr|]. unfold reg_ok. intros r Hr'. cbn in Hr'. lia.
  - by rewrite Hm.
  - by etrans.
  - by eapply keeps_trans.
  - intros j r. rewrite lookup_app_Some. intros [Hj|[Hj Hj']].
    + rewrite (keep_f _ _ _ Hk'); [by apply Hgood|]. by eapply (Forall_lookup_1 _ _ _ _ Hr).
    + apply list_lookup_singleton_Some in Hj' as [Hj' <-]. by assert (j = k) as -> by lia.
Qed.

(** What the lanes of an operation are to hold. *)
Definition op_good (n : TraceNode) (vals : ValueMap) (s : thread) (j : nat) (v : Z) : Prop :=
  exists args, mapM (lane_val vals s j) (n_inputs n) = Some args /\ op_value u n args = Some v.

Lemma op_lanes_run n vals e s : has_form n = true -> vals_ok (em_alloc e) vals ->
  Forall (fun src => is_Some (vals !! src)) (n_inputs n) ->
  exists dst e' s', emitted u l (r ← fold_lanes (op_lane n vals) ([], []) (seq 0 lanes); mret r.1) e s dst e' s' /\
    lanes_inv e s (op_good n vals s) lanes dst e' s'.
Proof.
  intros Hform Hv Hin.
  destruct (fold_lanes_run (op_lane n vals) (fun k acc e' s' =>
      lanes_inv e s (op_good n vals s) k acc.1 e' s' /\
      ((0 < k)%nat -> mapM (lane_reg vals 0) (n_inputs n) = Some acc.2))) with (acc := ([] : list Z, [] : list Z)) (e := e) (s := s)
    as ([dst in0] & e' & s' & He & Hi & _).
  - intros k [dst in0] e1 s1 Hk [Hi H0]. cbn [fst snd] in *.
    pose proof (vals_ok_le _ _ vals (li_alloc _ _ _ _ _ _ _ Hi) Hv) as Hv1.
    destruct (lane_inputs_run vals (n_id n) (n_inputs n) k e1 Hv1 Hk Hin) as (ins & Hm & Hr & Hf & Hlen).
    assert (Hargs : mapM (lane_val vals s k) (n_inputs n) = Some (map (rf s1) ins)).
    { rewrite mapM_lane_val, Hm. cbn. f_equal. apply map_ext_in. intros r Hr'. symmetry.
      apply (keep_f _ _ _ (li_kept _ _ _ _ _ _ _ Hi)).
      destruct (lane_inputs_run vals (n_id n) (n_inputs n) k e Hv Hk Hin) as (ins' & Hm' & _ & Hf' & _).
      rewrite Hm in Hm'. injection Hm' as <-. by apply (proj1 (List.Forall_forall _ _) Hf'). }
    destruct (op_value_total u n (map (rf s1) ins) Hform) as [v Hval]; [by rewrite length_map|].
    unfold op_lane. set (in0' := if Nat.eqb k 0 then ins else in0).
    assert (H0' : mapM (lane_reg vals 0) (n_inputs n) = Some in0').
    { unfold in0'. destruct k; [exact Hm|apply H0; lia]. }
    assert (Hbind : forall (f : list Z -> emit (list Z * list Z)) a e2 s2, emitted u l (f ins) e1 s1 a e2 s2 ->
      emitted u l (ins ← lane_inputs vals (n_id n) (n_inputs n) k; f ins) e1 s1 a e2 s2).
    { intros f a e2 s2. apply emitted_bind. split; [exists []; split_and!; try done; by rewrite app_nil_r|done|apply keeps_refl]. }
    destruct (Nat.ltb 0 k && bool_decide (ins = in0')) eqn:Eshare.
    + apply andb_true_iff in Eshare as [Hpos%Nat.ltb_lt Heq%bool_decide_eq_true].
      destruct (lookup_lt_is_Some_2 dst 0) as [d0 Hd0]; [rewrite (li_length _ _ _ _ _ _ _ Hi); lia|].
      exists (dst ++ [d0], in0'), e1, s1. split.
      * apply Hbind. fold in0'. rewrite (proj2 (andb_true_iff _ _)) by (split; [by apply Nat.ltb_lt|by apply bool_decide_eq_true]).
        unfold reg_at. rewrite Hd0. apply (emitted_bind u l _ _ e1 s1 d0 e1 s1); apply emitted_ret.
      * split; [|done]. cbn [fst]. eapply lanes_inv_share; [exact Hi|exact Hd0|].
        intros (args0 & Ha0 & Hv0). exists args0. split; [|done]. rewrite <- Ha0, !mapM_lane_val. by rewrite Hm, H0', Heq.
    + destruct (emitted_lane u l n ins e1 s1 v (fun d => (dst ++ [d], in0')) Hf Hval) as (e2 & s2 & He2 & Hlt & Hg & Hd).
      exists (dst ++ [a_f (em_alloc e1)], in0'), e2, s2. split.
      * apply Hbind. fold in0'. rewrite Eshare. exact He2.
      * split; [|done]. cbn [fst]. eapply lanes_inv_push; [exact Hi|exact He2|done|done|].
        exists (map (rf s1) ins). split; [done|by rewrite Hd].
  - split; [apply lanes_inv_nil|lia].
  - exists dst, e', s'. split; [eapply emitted_bind; [exact He|apply emitted_ret]|exact Hi].
Qed.

(** The same for the fused addition. *)
Definition fma_good (va vb vd : list Z) (s : thread) (j : nat) (v : Z) : Prop :=
  exists a b c, va !! j = Some a /\ vb !! j = Some b /\ vd !! j = Some c /\ v = fpu_fma u (rf s a) (rf s b) (rf s c).

Lemma regs_ok_lookup a regs j : regs_ok a regs -> (j < lanes)%nat -> exists r, regs !! j = Some r /\ r < a_f a.
Proof.
  intros [Hl Hf] Hj. destruct (lookup_lt_is_Some_2 regs j) as [r Hr]; [lia|]. exists r. split; [done|].
  by apply (Forall_lookup_1 _ _ _ _ Hf Hr).
Qed.

Lemma emitted_reg_at (v : list Z) j r {B} (f : Z -> emit B) e s a e' s' : v !! j = Some r ->
  emitted u l (f r) e s a e' s' -> emitted u l (r ← reg_at v j; f r) e s a e' s'.
Proof. intros Hr. unfold reg_at. rewrite Hr. intros He. eapply emitted_bind; [apply emitted_ret|exact He]. Qed.

Lemma fma_lanes_run va vb vd e s : regs_ok (em_alloc e) va -> regs_ok (em_alloc e) vb -> regs_ok (em_alloc e) vd ->
  exists dst e' s', emitted u l (fold_lanes (fma_lane va vb vd) [] (seq 0 lanes)) e s dst e' s' /\
    lanes_inv e s (fma_good va vb vd s) lanes dst e' s'.
Proof.
  intros Ha Hb Hd. apply (fold_lanes_run (fma_lane va vb vd) (lanes_inv e s (fma_good va vb vd s))); [|apply lanes_inv_nil].
  intros k dst e1 s1 Hk Hi. pose proof (li_alloc _ _ _ _ _ _ _ Hi) as [Hle _ _ _ _].
  destruct (regs_ok_lookup _ va k Ha Hk) as (a & Ea & La), (regs_ok_lookup _ vb k Hb Hk) as (b & Eb & Lb), (regs_ok_lookup _ vd k Hd Hk) as (c & Ec & Lc).
  destruct (regs_ok_lookup _ va 0 Ha Hlanes) as (a0 & Ea0 & La0), (regs_ok_lookup _ vb 0 Hb Hlanes) as (b0 & Eb0 & Lb0), (regs_ok_lookup _ vd 0 Hd Hlanes) as (c0 & Ec0 & Lc0).
  pose proof (li_kept _ _ _ _ _ _ _ Hi) as Hkeep.
  destruct (Nat.ltb 0 k && (a =? a0) && (b =? b0) && (c =? c0)) eqn:Eshare.
  - pose proof Eshare as Hs. apply andb_true_iff in Hs as [Hs Hc%Z.eqb_eq]. apply andb_true_iff in Hs as [Hs Hb'%Z.eqb_eq].
    apply andb_true_iff in Hs as [Hpos%Nat.ltb_lt Ha'%Z.eqb_eq]. subst a0 b0 c0.
    destruct (lookup_lt_is_Some_2 dst 0) as [d0 Hd0]; [rewrite (li_length _ _ _ _ _ _ _ Hi); lia|].
    exists (dst ++ [d0]), e1, s1. split.
    + unfold fma_lane. do 6 (eapply emitted_reg_at; [done|]). rewrite Eshare.
      eapply emitted_reg_at; [done|]. apply emitted_ret.
    + eapply lanes_inv_share; [exact Hi|exact Hd0|]. intros (x & y & z & Hx & Hy & Hz & Hv). exists a, b, c. split_and!; try done.
      rewrite Hv. congruence.
  - destruct (emitted_fma u l e1 s1 a b c (fun d => dst ++ [d])) as (e2 & s2 & He2 & Hlt & Hg & Hv); [lia..|].
    exists (dst ++ [a_f (em_alloc e1)]), e2, s2. split.
    + unfold fma_lane. do 6 (eapply emitted_reg_at; [done|]). rewrite Eshare. exact He2.
    + eapply lanes_inv_push; [exact Hi|exact He2|done|done|]. exists a, b, c. split_and!; try done.
      rewrite Hv. f_equal; apply (keep_f _ _ _ Hkeep); done.
Qed.
End Lanes.

(** ** Fused multiplications *)
Section Fused.
Context (ns : list TraceNode) (in_chain : gset Z) (vals0 : ValueMap).

Lemma node_ret id n : node_at ns id = Some n -> node ns id = Ret n.
Proof. unfold node. by intros ->. Qed.

(** How often one node reads another. *)
Definition reads (n : TraceNode) (m : Z) : nat := length (filter (fun s => s = m) (n_inputs n)).

Lemma reads_pos n m : m ∈ n_inputs n -> (1 <= reads n m)%nat.
Proof.
  intros Hm. unfold reads. destruct (filter (fun s => s = m) (n_inputs n)) eqn:E; [|cbn; lia].
  assert (H : m ∈ filter (fun s => s = m) (n_inputs n)) by (apply list_elem_of_filter; done).
  rewrite E in H. by apply elem_of_nil in H.
Qed.

Lemma use_count_app l k m : use_count (l ++ k) m = (use_count l m + use_count k m)%nat.
Proof. unfold use_count. by rewrite map_app, concat_app, filter_app, length_app. Qed.

Lemma use_count_cons n l m : use_count (n :: l) m = (reads n m + use_count l m)%nat.
Proof. unfold use_count, reads. cbn. by rewrite filter_app, length_app. Qed.

Lemma use_count_lookup l i n m : l !! i = Some n -> (reads n m <= use_count l m)%nat.
Proof.
  intros Hi. rewrite <- (take_drop_middle l i n Hi), use_count_app, use_count_cons. lia.
Qed.

Lemma use_count_two l i j n1 n2 m : (i < j)%nat -> l !! i = Some n1 -> l !! j = Some n2 ->
  (reads n1 m + reads n2 m <= use_count l m)%nat.
Proof.
  intros Hij Hi Hj. rewrite <- (take_drop_middle l i n1 Hi), use_count_app, use_count_cons.
  assert (Hd : drop (S i) l !! (j - S i)%nat = Some n2) by (rewrite lookup_drop, <- Hj; f_equal; lia).
  pose proof (use_count_lookup _ _ _ m Hd). lia.
Qed.

(** A node read once has one reader. *)
Lemma use_count_one i j n1 n2 m : node_at ns i = Some n1 -> node_at ns j = Some n2 -> use_count ns m = 1%nat ->
  m ∈ n_inputs n1 -> m ∈ n_inputs n2 -> i = j /\ reads n1 m = 1%nat.
Proof.
  unfold node_at. destruct (Z.ltb_spec i 0), (Z.ltb_spec j 0); try done. intros Hi Hj H1 Hm1 Hm2.
  pose proof (reads_pos _ _ Hm1). pose proof (reads_pos _ _ Hm2). pose proof (use_count_lookup _ _ _ m Hi).
  destruct (lt_eq_lt_dec (Z.to_nat i) (Z.to_nat j)) as [[Hlt|Heq]|Hlt]; [|lia|].
  - pose proof (use_count_two ns _ _ _ _ m Hlt Hi Hj). lia.
  - pose proof (use_count_two ns _ _ _ _ m Hlt Hj Hi). lia.
Qed.

Lemma fusible_true src : fusible ns in_chain vals0 src = Ret true ->
  exists m a b r, src ∈ in_chain /\ vals0 !! src = None /\ node_at ns src = Some m /\ n_op m = TraceOpKind.Mul /\
    n_live m = false /\ use_count ns src = 1%nat /\ n_inputs m = a :: b :: r.
Proof.
  unfold fusible. destruct (decide (src ∈ in_chain)) as [Hin|]; [rewrite bool_decide_true by done|by rewrite bool_decide_false by done].
  destruct (vals0 !! src) eqn:E; [done|]. cbn [negb orb bool_decide]. rewrite bool_decide_false by (by intros []).
  unfold node. destruct (node_at ns src) as [m|]; [|done]. cbn. intros [= H].
  apply andb_true_iff in H as [H Hl]. apply andb_true_iff in H as [H Hc%Nat.eqb_eq]. apply andb_true_iff in H as [Ho Hlive].
  unfold TraceOpKind.eqb in Ho. apply bool_decide_eq_true in Ho. apply negb_true_iff in Hlive.
  destruct (n_inputs m) as [|a [|b r]] eqn:Ein; [done|done|]. by exists m, a, b, r.
Qed.

(** Why a multiplication is in the set: the addition that takes it over. *)
Definition fused_by (ids : list Z) (m : Z) : Prop :=
  exists id n a b r, id ∈ ids /\ node_at ns id = Some n /\ n_op n = TraceOpKind.Add /\ n_inputs n = a :: b :: r /\
    ((m = a /\ fusible ns in_chain vals0 a = Ret true) \/
     (m = b /\ fusible ns in_chain vals0 a = Ret false /\ fusible ns in_chain vals0 b = Ret true)).

Lemma fused_by_mono ids id m : fused_by ids m -> fused_by (id :: ids) m.
Proof. intros (i & n & a & b & r & Hi & H). exists i, n, a, b, r. split; [by right|done]. Qed.

Lemma fusible_ret src : is_Some (node_at ns src) -> exists b, fusible ns in_chain vals0 src = Ret b.
Proof. intros [m Hm]. unfold fusible. destruct (_ || _); [by eexists|]. unfold node. rewrite Hm. by eexists. Qed.

Lemma fused_muls_run ids fused : (forall id, id ∈ ids -> exists n, node_at ns id = Some n /\ Forall (fun s => is_Some (node_at ns s)) (n_inputs n)) ->
  exists fused', fused_muls ns in_chain vals0 ids fused = Ret fused' /\
    forall m, m ∈ fused' -> m ∈ fused \/ fused_by ids m.
Proof.
  revert fused. induction ids as [|id ids IH]; intros fused Hids; [exists fused; split; [done|by left]|].
  destruct (Hids id) as (n & Hn & Hin); [by left|]. cbn [fused_muls]. rewrite (node_ret _ _ Hn). cbn.
  specialize (fun F => IH F (fun i Hi => Hids i (list_elem_of_further _ _ _ Hi))).
  assert (Hskip : exists fused', fused_muls ns in_chain vals0 ids fused = Ret fused' /\
    forall m, m ∈ fused' -> m ∈ fused \/ fused_by (id :: ids) m).
  { destruct (IH fused) as (F & HF & HM). exists F. split; [done|]. intros m Hm. destruct (HM m Hm); [by left|right; by apply fused_by_mono]. }
  destruct (TraceOpKind.eqb (n_op n) TraceOpKind.Add) eqn:Eop; [|done]. destruct (n_inputs n) as [|a [|b r]] eqn:Ein; [done|done|].
  unfold TraceOpKind.eqb in Eop. apply bool_decide_eq_true in Eop.
  apply Forall_cons in Hin as [Ha [Hb Hr]%Forall_cons].
  destruct (fusible_ret a Ha) as [fa Hfa]. rewrite Hfa. cbn. destruct fa.
  - destruct (IH ({[a]} ∪ fused)) as (F & HF & HM). exists F. split; [done|]. intros m Hm.
    destruct (HM m Hm) as [[->%elem_of_singleton|?]%elem_of_union|?]; [right|by left|right; by apply fused_by_mono].
    exists id, n, a, b, r. split_and!; try done; [by left|]. by left.
  - destruct (fusible_ret b Hb) as [fb Hfb]. rewrite Hfb. cbn. destruct fb; [|done].
    destruct (IH ({[b]} ∪ fused)) as (F & HF & HM). exists F. split; [done|]. intros m Hm.
    destruct (HM m Hm) as [[->%elem_of_singleton|?]%elem_of_union|?]; [right|by left|right; by apply fused_by_mono].
    exists id, n, a, b, r. split_and!; try done; [by left|]. by right.
Qed.

Context (ids : list Z) (fused : gset Z) (Hfused : forall m, m ∈ fused -> fused_by ids m).

(** Only that addition reads it. *)
Lemma fused_reader m id n : m ∈ fused -> node_at ns id = Some n -> m ∈ n_inputs n ->
  exists a b r, n_op n = TraceOpKind.Add /\ n_inputs n = a :: b :: r /\ reads n m = 1%nat /\
    ((m = a /\ fusible ns in_chain vals0 a = Ret true) \/
     (m = b /\ fusible ns in_chain vals0 a = Ret false /\ fusible ns in_chain vals0 b = Ret true)).
Proof.
  intros Hm Hn Hin. destruct (Hfused m Hm) as (i & n' & a & b & r & _ & Hn' & Hop & Hin' & Hwhy).
  assert (Hf : fusible ns in_chain vals0 m = Ret true) by (destruct Hwhy as [[-> ?]|(-> & _ & ?)]; done).
  destruct (fusible_true m Hf) as (_ & _ & _ & _ & _ & _ & _ & _ & _ & Huse & _).
  assert (Hm' : m ∈ n_inputs n') by (rewrite Hin'; destruct Hwhy as [[-> _]|(-> & _)]; [by left|by right; left]).
  destruct (use_count_one id i n n' m Hn Hn' Huse Hin Hm') as [<- Hr]. rewrite Hn in Hn'. injection Hn' as <-.
  by exists a, b, r.
Qed.

Lemma fused_not_read m id n : node_at ns id = Some n -> m ∈ n_inputs n -> n_op n <> TraceOpKind.Add -> m ∉ fused.
Proof. intros Hn Hin Hop Hm. by destruct (fused_reader m id n Hm Hn Hin) as (_ & _ & _ & ? & _). Qed.

Lemma mul_input_none id n : node_at ns id = Some n -> mul_input fused n = None -> Forall (fun s => s ∉ fused) (n_inputs n).
Proof.
  intros Hn Hnone. apply Forall_forall. intros s Hs Hf. destruct (fused_reader s id n Hf Hn Hs) as (a & b & r & Hop & Hin & _ & Hwhy).
  unfold mul_input in Hnone. rewrite Hop, Hin in Hnone.
  destruct (decide (a ∈ fused)); [by rewrite bool_decide_true in Hnone by done|rewrite bool_decide_false in Hnone by done].
  destruct (decide (b ∈ fused)); [by rewrite bool_decide_true in Hnone by done|].
  destruct Hwhy as [[-> _]|(-> & _)]; done.
Qed.

Lemma mul_input_some id n mul addend : node_at ns id = Some n -> mul_input fused n = Some (mul, addend) ->
  exists m a b r r', n_op n = TraceOpKind.Add /\ (n_inputs n = mul :: addend :: r \/ n_inputs n = addend :: mul :: r) /\
    node_at ns mul = Some m /\ n_op m = TraceOpKind.Mul /\ n_inputs m = a :: b :: r' /\
    mul ∈ in_chain /\ vals0 !! mul = None /\ (addend ∉ fused) /\ (a ∉ fused) /\ (b ∉ fused).
Proof.
  intros Hn Hmul. unfold mul_input in Hmul. destruct (n_op n) eqn:Hop; try discriminate Hmul.
  destruct (n_inputs n) as [|x [|y r]] eqn:Hin; [discriminate Hmul|discriminate Hmul|].
  assert (Hmf : mul ∈ fused /\ (addend ∉ fused) /\ (n_inputs n = mul :: addend :: r \/ n_inputs n = addend :: mul :: r)).
  { destruct (decide (x ∈ fused)) as [Hx|Hx].
    - rewrite bool_decide_true in Hmul by done. injection Hmul as <- <-. split; [done|]. split; [|by left].
      intros Hy. destruct (fused_reader x id n Hx Hn) as (a & b & r' & _ & Hin1 & Hr1 & Hw1); [rewrite Hin; by left|].
      destruct (fused_reader y id n Hy Hn) as (a2 & b2 & r2 & _ & Hin2 & Hr2 & Hw2); [rewrite Hin; by right; left|].
      rewrite Hin in Hin1, Hin2. injection Hin1 as <- <- <-. injection Hin2 as <- <- <-.
      assert (Hne : x <> y).
      { intros <-. unfold reads in Hr1. rewrite Hin, !filter_cons_True in Hr1 by done. discriminate Hr1. }
      destruct Hw1 as [[_ Hfx]|(E & _)]; [|done]. destruct Hw2 as [[E _]|(_ & Hfx' & _)]; [by symmetry in E|congruence].
    - rewrite bool_decide_false in Hmul by done. destruct (decide (y ∈ fused)) as [Hy|Hy].
      + rewrite bool_decide_true in Hmul by done. injection Hmul as <- <-. split_and!; [done|done|by right].
      + by rewrite bool_decide_false in Hmul by done. }
  destruct Hmf as (Hmf & Hadd & Hin'). rewrite Hin in Hin'.
  destruct (Hfused mul Hmf) as (i & n' & a' & b' & r2 & _ & _ & _ & _ & Hwhy).
  assert (Hf : fusible ns in_chain vals0 mul = Ret true) by (destruct Hwhy as [[-> ?]|(-> & _ & ?)]; done).
  destruct (fusible_true mul Hf) as (m & a & b & r' & Hch & Hv & Hm & Hopm & _ & _ & Hinm).
  exists m, a, b, r, r'. split_and!; try done;
    (apply (fused_not_read _ mul m Hm); [rewrite Hinm; first [by left|by right; left]|by rewrite Hopm]).
Qed.
End Fused.

(** ** The chain *)
Section Chain.
Context (u : fpu) (l : launch) (ns : list TraceNode) (lanes : nat) (Hlanes : (0 < lanes)%nat) (Hns : wf_nodes ns).
Context (vals0 : ValueMap) (ids : list Z).

Lemma wf_node_at id n : node_at ns id = Some n -> n_id n = id /\ Forall (fun s => is_Some (node_at ns s)) (n_inputs n).
Proof.
  unfold node_at at 1. destruct (Z.ltb_spec id 0); [done|]. intros Hn. destruct (Hns _ _ Hn) as [Hid Hin].
  split; [lia|]. eapply Forall_impl; [exact Hin|]. cbn. intros s Hs. apply lookup_lt_Some in Hn.
  destruct (node_at_range ns s) as [m Hm]; [unfold zlen; lia|]. by exists m.
Qed.

Lemma computes_mono val val' n v : (forall id w, val id = Some w -> val' id = Some w) ->
  computes u ns val n v -> computes u ns val' n v.
Proof.
  intros Hv [args Ha Hval|src r m Hop Hin Hm Hd Hs|mul addend r m a b r' x y z Hop Hin Hm Hom Him Ha Hb Hc ->].
  - eapply computes_op; [|exact Hval]. clear Hval. revert args Ha. induction (n_inputs n) as [|s r IH]; intros args; [done|]. cbn.
    destruct (val s) as [w|] eqn:Es; [|done]. cbn. rewrite (Hv s w Es). cbn.
    destruct (mapM val r) as [ws|]; [|done]. cbn. intros [= <-]. by rewrite (IH ws eq_refl).
  - eapply computes_same_cast; eauto.
  - eapply computes_fma; eauto.
Qed.

(** Equal expressions compute the same. *)
Lemma computes_same_expr val n m v : same_node_expr n m = true -> computes u ns val m v -> computes u ns val n v.
Proof.
  unfold same_node_expr. intros H. apply andb_true_iff in H as [H H5%Z.eqb_eq]. apply andb_true_iff in H as [H H4%Z.eqb_eq].
  apply andb_true_iff in H as [H H3%bool_decide_eq_true]. apply andb_true_iff in H as [H1 H2].
  unfold TraceOpKind.eqb in H1. apply bool_decide_eq_true in H1. unfold dtype_eqb in H2. apply bool_decide_eq_true in H2.
  intros [args Ha Hval|src r m' Hop Hin Hm Hd Hs|mul addend r m' a b r' x y z Hop Hin Hm Hom Him Ha Hb Hc ->].
  - apply (computes_op u ns val n v args); [by rewrite H3|]. unfold op_value in *. by rewrite H1, H2, H4, H5.
  - apply (computes_same_cast u ns val n v src r m'); congruence.
  - apply (computes_fma u ns val n _ mul addend r m' a b r' x y z); congruence || (rewrite H3; done).
Qed.

Lemma lane_val_mono a vals vals' s s' j id v : vals_ok lanes a vals -> vals ⊆ vals' -> keeps a s s' ->
  lane_val vals s j id = Some v -> lane_val vals' s' j id = Some v.
Proof.
  intros Hok Hsub Hk. unfold lane_val. destruct (lane_reg vals j id) as [r|] eqn:Er; [|done]. cbn. intros [= <-].
  assert (Er' : lane_reg vals' j id = Some r).
  { unfold lane_reg in *. destruct (vals !! id) as [regs|] eqn:E; [|done]. by rewrite (lookup_weaken _ _ _ _ E Hsub). }
  rewrite Er'. cbn. f_equal. apply (keep_f _ _ _ Hk). by eapply lane_reg_ok.
Qed.

(** The values so far. *)
Record chain_inv (vals : ValueMap) (evaluated : list Z) (e : emitter) (s : thread) : Prop := {
  ci_ok : vals_ok lanes (em_alloc e) vals;
  ci_seeds : vals0 ⊆ vals;
  ci_computes : forall id, is_Some (vals !! id) -> vals0 !! id = None ->
    exists n, node_at ns id = Some n /\
      forall j, (j < lanes)%nat -> exists v, lane_val vals s j id = Some v /\ computes u ns (lane_val vals s j) n v;
  ci_evaluated : forall p, p ∈ evaluated -> is_Some (vals !! p) /\ vals0 !! p = None
}.

(** What the registers of a new node are to hold. *)
Definition node_good (n : TraceNode) (vals : ValueMap) (s : thread) (regs : list Z) (s' : thread) : Prop :=
  forall j r, regs !! j = Some r -> computes u ns (lane_val vals s j) n (rf s' r).

Lemma chain_inv_insert vals evaluated evaluated' e s n regs {A} (m : emit A) a e' s' :
  chain_inv vals evaluated e s -> emitted u l m e s a e' s' -> node_at ns (n_id n) = Some n -> vals !! n_id n = None ->
  regs_ok lanes (em_alloc e') regs -> node_good n vals s regs s' ->
  (forall p, p ∈ evaluated' -> p ∈ evaluated \/ p = n_id n) ->
  chain_inv (<[n_id n := regs]> vals) evaluated' e' s'.
Proof.
  intros [Hok Hseed Hcomp Hev] [_ Ha Hk] Hn Hnew Hregs Hgood Hev'.
  assert (Hsub : vals ⊆ <[n_id n := regs]> vals) by by apply insert_subseteq.
  assert (Hmono : forall j id v, lane_val vals s j id = Some v -> lane_val (<[n_id n := regs]> vals) s' j id = Some v).
  { intros j id v. by apply (lane_val_mono (em_alloc e)). }
  assert (Hnone : vals0 !! n_id n = None) by by eapply lookup_weaken_None.
  split.
  - apply map_Forall_insert_2; [done|]. by eapply vals_ok_le.
  - by etrans.
  - intros id Hid Hid0. destruct (decide (id = n_id n)) as [->|Hne].
    + exists n. split; [done|]. intros j Hj. destruct (regs_ok_lookup lanes Hlanes _ _ _ Hregs Hj) as (r & Hr & _).
      exists (rf s' r). split; [unfold lane_val, lane_reg; rewrite lookup_insert_eq; cbn; by rewrite Hr|].
      eapply computes_mono; [|by apply Hgood]. intros id w. apply Hmono.
    + rewrite lookup_insert_ne in Hid by done. destruct (Hcomp id Hid Hid0) as (n' & Hn' & Hv). exists n'. split; [done|].
      intros j Hj. destruct (Hv j Hj) as (v & Hval & Hc). exists v. split; [by apply Hmono|].
      eapply computes_mono; [|exact Hc]. intros id' w. apply Hmono.
  - intros p Hp. destruct (Hev' p Hp) as [Hp'| ->].
    + destruct (Hev p Hp') as [[x Hx] H0]. split; [|done]. exists x. by eapply lookup_weaken.
    + split; [|done]. rewrite lookup_insert_eq. by eexists.
Qed.

Lemma lane_val_at vals s j id regs r : vals !! id = Some regs -> regs !! j = Some r -> lane_val vals s j id = Some (rf s r).
Proof. intros Hi Hj. unfold lane_val, lane_reg. rewrite Hi. cbn. by rewrite Hj. Qed.

Lemma lane_args vals a s j srcs : vals_ok lanes a vals -> Forall (fun src => is_Some (vals !! src)) srcs -> (j < lanes)%nat ->
  exists args, mapM (lane_val vals s j) srcs = Some args /\ length args = length srcs.
Proof.
  intros Hok Hsrc Hj. induction Hsrc as [|src srcs Hs _ IH]; [by exists []|]. destruct IH as (args & Hm & Hl).
  destruct (lane_reg_some lanes Hlanes a vals j src Hok Hs Hj) as (r & Hr & _). exists (rf s r :: args).
  assert (Hv : lane_val vals s j src = Some (rf s r)) by (unfold lane_val; by rewrite Hr).
  split; [|cbn; by f_equal]. cbn. rewrite Hv. cbn. by rewrite Hm.
Qed.

(** A node that takes over its first operand. *)
Lemma forwards_good n src vals a s regs : vals_ok lanes a vals ->
  Forall (fun s => is_Some (vals !! s)) (n_inputs n) -> forwards ns n = Ret (Some src) -> vals !! src = Some regs ->
  node_good n vals s regs s.
Proof.
  intros Hok Hin Hf Hregs j r Hr. pose proof (lane_val_at vals s j src regs r Hregs Hr) as Hv.
  assert (Hj : (j < lanes)%nat) by (destruct (Hok src regs Hregs) as [<- _]; by eapply lookup_lt_Some).
  destruct (lane_args vals a s j (n_inputs n) Hok Hin Hj) as (args & Hm & Hl).
  unfold forwards in Hf. destruct (n_op n) eqn:Hop; try discriminate Hf; destruct (n_inputs n) as [|src' rest] eqn:Ein; try discriminate Hf.
  - injection Hf as ->. destruct args as [|x args]; [discriminate Hl|].
    apply (computes_op u ns _ n _ (x :: args)); [by rewrite Ein|]. unfold op_value. rewrite Hop.
    cbn in Hm. rewrite Hv in Hm. cbn in Hm. destruct (mapM _ rest); [|discriminate Hm]. by injection Hm as -> _.
  - destruct (dtype_eqb (n_dtype n) FP32) eqn:Ed.
    + injection Hf as ->. unfold dtype_eqb in Ed. apply bool_decide_eq_true in Ed. destruct args as [|x args]; [discriminate Hl|].
      apply (computes_op u ns _ n _ (x :: args)); [by rewrite Ein|]. unfold op_value. rewrite Hop, Ed. cbn [cast_value].
      cbn in Hm. rewrite Hv in Hm. cbn in Hm. destruct (mapM _ rest); [|discriminate Hm]. by injection Hm as -> _.
    + unfold node in Hf. destruct (node_at ns src') as [m|] eqn:Em; [|discriminate Hf]. cbn in Hf.
      destruct (dtype_eqb (n_dtype m) (n_dtype n)) eqn:Ed2; [|discriminate Hf]. injection Hf as ->.
      unfold dtype_eqb in Ed2. apply bool_decide_eq_true in Ed2. by eapply computes_same_cast.
Qed.

Lemma forwards_ret n : Forall (fun s => is_Some (node_at ns s)) (n_inputs n) -> exists o, forwards ns n = Ret o.
Proof.
  intros Hin. unfold forwards. destruct (n_op n); try (by eexists); destruct (n_inputs n) as [|src r]; try (by eexists).
  destruct (dtype_eqb (n_dtype n) FP32); [by eexists|]. apply Forall_cons in Hin as [[m Hm] _]. unfold node. rewrite Hm. by eexists.
Qed.

Lemma forwards_some n src : forwards ns n = Ret (Some src) -> (exists r, n_inputs n = src :: r) /\ n_op n <> TraceOpKind.Add.
Proof.
  unfold forwards. destruct (n_op n); try done; destruct (n_inputs n) as [|s r]; try done.
  - intros [= ->]. split; [by eexists|done].
  - destruct (dtype_eqb (n_dtype n) FP32); [intros [= ->]; split; [by eexists|done]|]. unfold node.
    destruct (node_at ns s) as [m|]; [|done]. cbn. destruct (dtype_eqb _ _); [|done]. intros [= ->]. split; [by eexists|done].
Qed.

Lemma cse_match_run n evaluated : (forall p, p ∈ evaluated -> is_Some (node_at ns p)) ->
  exists o, cse_match ns n evaluated = Ret o /\
    forall p, o = Some p -> p ∈ evaluated /\ exists m, node_at ns p = Some m /\ same_node_expr n m = true.
Proof.
  induction evaluated as [|p r IH]; intros He; cbn [cse_match]; [by exists None|].
  destruct (He p) as [m Hm]; [by left|]. unfold node. rewrite Hm. cbn.
  destruct (same_node_expr n m) eqn:Es.
  - exists (Some p). split; [done|]. intros ? [= <-]. split; [by left|]. by exists m.
  - destruct IH as (o & Ho & Hp); [intros q Hq; apply He; by right|]. exists o. split; [done|].
    intros q Hq. destruct (Hp q Hq) as [? ?]. split; [by right|done].
Qed.

Lemma emitted_lift_bind {A B} (r : res A) (x : A) (f : A -> emit B) e s b e' s' : r = Ret x ->
  emitted u l (f x) e s b e' s' -> emitted u l (x ← st_lift r; f x) e s b e' s'.
Proof. intros Hr Hf. eapply emitted_bind; [by apply emitted_lift|exact Hf]. Qed.

Lemma emitted_vals_at vals id regs {B} (f : list Z -> emit B) e s b e' s' : vals !! id = Some regs ->
  emitted u l (f regs) e s b e' s' -> emitted u l (v ← vals_at vals id; f v) e s b e' s'.
Proof. intros Hr Hf. unfold vals_at. rewrite Hr. eapply emitted_bind; [apply emitted_ret|exact Hf]. Qed.

Lemma lanes_inv_regs_ok e s good dst e' s' : lanes_inv e s good lanes dst e' s' -> regs_ok lanes (em_alloc e') dst.
Proof. intros []. by split. Qed.

Section Fusing.
Context (fused : gset Z) (Hfused : forall m, m ∈ fused -> fused_by ns (list_to_set ids) vals0 ids m).

(** What is in registers when a node's turn comes: every operand, or it is a
    multiplication to fuse, whose own operands are there. *)
Definition ready (vals : ValueMap) (n : TraceNode) : Prop :=
  (forall src, src ∈ n_inputs n -> src ∉ fused -> is_Some (vals !! src)) /\
  (forall mul m src, mul ∈ n_inputs n -> mul ∈ fused -> node_at ns mul = Some m -> src ∈ n_inputs m -> src ∉ fused ->
     is_Some (vals !! src)).

Lemma dst_run n vals e s : node_at ns (n_id n) = Some n -> has_form n = true -> vals_ok lanes (em_alloc e) vals -> ready vals n ->
  exists dst e' s',
    emitted u l (match mul_input fused n with
      | Some (mul, addend) =>
          m ← st_lift (node ns mul);
          match n_inputs m with
          | a :: b :: _ => va ← vals_at vals a; vb ← vals_at vals b; vd ← vals_at vals addend;
                           fold_lanes (fma_lane va vb vd) [] (seq 0 lanes)
          | _ => st_undef
          end
      | None => r ← fold_lanes (op_lane n vals) ([], []) (seq 0 lanes); mret r.1
      end) e s dst e' s' /\ regs_ok lanes (em_alloc e') dst /\ gm s' = gm s /\ node_good n vals s dst s'.
Proof.
  intros Hn Hform Hok [Hready Hmulready]. destruct (mul_input fused n) as [[mul addend]|] eqn:Emul.
  - destruct (mul_input_some ns (list_to_set ids) vals0 ids fused Hfused (n_id n) n mul addend Hn Emul)
      as (m & a & b & r & r' & Hop & Hin & Hm & Hopm & Hinm & _ & _ & Hadd & Ha & Hb).
    assert (Hmulin : mul ∈ n_inputs n) by (destruct Hin as [-> | ->]; [by left|by right; left]).
    assert (Hmf : mul ∈ fused).
    { unfold mul_input in Emul. rewrite Hop in Emul. destruct (n_inputs n) as [|x [|y ?]]; try done.
      destruct (decide (x ∈ fused)); [rewrite bool_decide_true in Emul by done; by injection Emul as <- _|].
      rewrite bool_decide_false in Emul by done. destruct (decide (y ∈ fused)); [rewrite bool_decide_true in Emul by done; by injection Emul as <- _|].
      by rewrite bool_decide_false in Emul by done. }
    destruct (Hmulready mul m a Hmulin Hmf Hm) as [va Hva]; [rewrite Hinm; by left|done|].
    destruct (Hmulready mul m b Hmulin Hmf Hm) as [vb Hvb]; [rewrite Hinm; by right; left|done|].
    destruct (Hready addend) as [vd Hvd]; [destruct Hin as [-> | ->]; [by right; left|by left]|done|].
    destruct (fma_lanes_run u l lanes Hlanes va vb vd e s (Hok _ _ Hva) (Hok _ _ Hvb) (Hok _ _ Hvd)) as (dst & e' & s' & He & Hi).
    exists dst, e', s'. split; [|split; [by eapply lanes_inv_regs_ok|split; [by destruct Hi|]]].
    + apply (emitted_lift_bind _ m); [by apply node_ret|]. rewrite Hinm. do 3 (eapply emitted_vals_at; [done|]). exact He.
    + intros j r0 Hr0. destruct (li_good _ _ _ _ _ _ _ Hi j r0 Hr0) as (x & y & z & Hx & Hy & Hz & ->).
      eapply (computes_fma u ns _ n _ mul addend r m a b r'); try done; by eapply lane_val_at.
  - assert (Hall : Forall (fun src => is_Some (vals !! src)) (n_inputs n)).
    { pose proof (mul_input_none ns (list_to_set ids) vals0 ids fused Hfused (n_id n) n Hn Emul) as Hnf.
      apply Forall_forall. intros src Hsrc. apply Hready; [done|]. by apply (proj1 (Forall_forall _ _) Hnf). }
    destruct (op_lanes_run u l lanes Hlanes n vals e s Hform Hok Hall) as (dst & e' & s' & He & Hi).
    exists dst, e', s'. split; [exact He|]. split; [by eapply lanes_inv_regs_ok|]. split; [by destruct Hi|].
    intros j r Hr. destruct (li_good _ _ _ _ _ _ _ Hi j r Hr) as (args & Hm & Hv). by eapply computes_op.
Qed.

Lemma chain_node_run n vals evaluated e s : chain_inv vals evaluated e s -> node_at ns (n_id n) = Some n ->
  vals !! n_id n = None -> has_form n = true -> ready vals n ->
  exists regs evaluated' e' s',
    emitted u l (chain_node ns lanes fused n vals evaluated) e s (<[n_id n := regs]> vals, evaluated') e' s' /\
    gm s' = gm s /\ chain_inv (<[n_id n := regs]> vals) evaluated' e' s'.
Proof.
  intros Hinv Hn Hnew Hform Hready. pose proof (ci_ok _ _ _ _ Hinv) as Hok.
  destruct (wf_node_at _ _ Hn) as [_ Hnodes]. destruct (forwards_ret n Hnodes) as [fwd Hfwd].
  unfold chain_node. destruct fwd as [src|].
  - destruct (forwards_some n src Hfwd) as [[rest Hin] Hop].
    assert (Hall : Forall (fun s => is_Some (vals !! s)) (n_inputs n)).
    { apply Forall_forall. intros x Hx. apply Hready; [done|].
      by apply (fused_not_read ns (list_to_set ids) vals0 ids fused Hfused x (n_id n) n). }
    pose proof Hall as Hall'. rewrite Hin in Hall'. apply Forall_cons in Hall' as [[regs Hregs] _].
    assert (He : emitted u l (v ← vals_at vals src; mret (<[n_id n := v]> vals, evaluated)) e s (<[n_id n := regs]> vals, evaluated) e s).
    { eapply emitted_vals_at; [exact Hregs|apply emitted_ret]. }
    exists regs, evaluated, e, s. split; [by apply (emitted_lift_bind _ (Some src))|]. split; [done|].
    eapply chain_inv_insert; [exact Hinv|exact He|done|done|by apply (Hok src)| |by left].
    by apply (forwards_good n src vals (em_alloc e) s regs).
  - destruct (cse_match_run n evaluated) as (same & Hsame & Hspec).
    { intros p Hp. destruct (ci_evaluated _ _ _ _ Hinv p Hp) as [Hv H0]. destruct (ci_computes _ _ _ _ Hinv p Hv H0) as (m & Hm & _). by exists m. }
    destruct same as [p|].
    + destruct (Hspec p eq_refl) as (Hp & m & Hm & Hexpr). destruct (ci_evaluated _ _ _ _ Hinv p Hp) as [[regs Hregs] H0].
      assert (He : emitted u l (v ← vals_at vals p; mret (<[n_id n := v]> vals, evaluated)) e s (<[n_id n := regs]> vals, evaluated) e s).
      { eapply emitted_vals_at; [exact Hregs|apply emitted_ret]. }
      exists regs, evaluated, e, s. split; [apply (emitted_lift_bind _ None); [done|]; by apply (emitted_lift_bind _ (Some p))|].
      split; [done|]. eapply chain_inv_insert; [exact Hinv|exact He|done|done|by apply (Hok p)| |by left].
      intros j r Hr. destruct (ci_computes _ _ _ _ Hinv p) as (m' & Hm' & Hc); [by eexists|done|].
      rewrite Hm in Hm'. injection Hm' as <-.
      destruct (Hc j) as (v & Hv & Hcm); [destruct (Hok p regs Hregs) as [<- _]; by eapply lookup_lt_Some|].
      rewrite (lane_val_at vals s j p regs r Hregs Hr) in Hv. injection Hv as <-. by eapply computes_same_expr.
    + destruct (dst_run n vals e s Hn Hform Hok Hready) as (dst & e' & s' & He & Hregs & Hg & Hgood).
      exists dst, (evaluated ++ [n_id n]), e', s'.
      assert (He' : emitted u l (chain_node ns lanes fused n vals evaluated) e s (<[n_id n := dst]> vals, evaluated ++ [n_id n]) e' s').
      { apply (emitted_lift_bind _ None); [done|]. apply (emitted_lift_bind _ None); [done|].
        eapply emitted_bind; [exact He|apply emitted_ret]. }
      split; [exact He'|]. split; [done|]. eapply chain_inv_insert; [exact Hinv|exact He'|done|done|done|done|].
      intros q [Hq|Hq%list_elem_of_singleton]%elem_of_app; [by left|by right].
Qed.

(** The loop, from the [i]-th node on. *)
Context (Hids : forall id, id ∈ ids -> is_Some (node_at ns id)).
Context (Htopo : forall i id n, ids !! i = Some id -> node_at ns id = Some n -> n_op n <> TraceOpKind.Input ->
  vals0 !! id = None -> has_form n = true /\ Forall (fun src => is_Some (vals0 !! src) \/ src ∈ take i ids) (n_inputs n)).
Context (Hinputs : forall id n, id ∈ ids -> node_at ns id = Some n -> n_op n = TraceOpKind.Input -> is_Some (vals0 !! id)).

(** The nodes before position [i] have their values. *)
Definition done_upto (i : nat) (vals : ValueMap) : Prop := forall id, id ∈ take i ids -> id ∉ fused -> is_Some (vals !! id).

Lemma done_ready i id n vals : ids !! i = Some id -> node_at ns id = Some n -> n_op n <> TraceOpKind.Input ->
  vals0 !! id = None -> vals0 ⊆ vals -> done_upto i vals -> ready vals n.
Proof.
  intros Hi Hn Hop H0 Hsub Hdone. destruct (Htopo i id n Hi Hn Hop H0) as [_ Hsrc].
  assert (Havail : forall k src, (k <= i)%nat -> is_Some (vals0 !! src) \/ src ∈ take k ids -> src ∉ fused -> is_Some (vals !! src)).
  { intros k src Hk [[x Hx]|Hx] Hnf; [exists x; by eapply lookup_weaken|]. apply Hdone; [|done].
    apply elem_of_take in Hx as (j & Hj & Hlt). apply elem_of_take. exists j. split; [done|lia]. }
  split.
  - intros src Hin Hnf. apply (Havail i); [lia| |done]. by apply (proj1 (Forall_forall _ _) Hsrc).
  - intros mul m src Hin Hf Hm Hsin Hnf.
    assert (Hfus : fusible ns (list_to_set ids) vals0 mul = Ret true).
    { destruct (Hfused mul Hf) as (? & ? & ? & ? & ? & _ & _ & _ & _ & [[-> ?]|(-> & _ & ?)]); done. }
    destruct (fusible_true ns (list_to_set ids) vals0 mul Hfus) as (m' & _ & _ & _ & _ & Hv & Hm' & Hopm & _).
    rewrite Hm in Hm'. injection Hm' as <-.
    destruct (proj1 (Forall_forall _ _) Hsrc mul Hin) as [[x Hx]|Hx]; [by rewrite Hv in Hx|].
    apply elem_of_take in Hx as (k & Hk & Hlt).
    destruct (Htopo k mul m Hk Hm) as [_ Hmsrc]; [by rewrite Hopm|done|].
    apply (Havail k); [lia| |done]. by apply (proj1 (Forall_forall _ _) Hmsrc).
Qed.

Lemma done_upto_S i id vals : ids !! i = Some id -> done_upto i vals -> (id ∉ fused -> is_Some (vals !! id)) -> done_upto (S i) vals.
Proof.
  intros Hi Hdone Hid x Hx Hnf. apply elem_of_take in Hx as (j & Hj & Hlt).
  destruct (decide (j = i)) as [->|]; [rewrite Hi in Hj; injection Hj as ->; auto|].
  apply Hdone; [|done]. apply elem_of_take. exists j. split; [done|lia].
Qed.

Lemma done_upto_insert i vals id regs : done_upto i vals -> done_upto i (<[id := regs]> vals).
Proof.
  intros Hdone x Hx Hnf. destruct (decide (x = id)) as [->|]; [rewrite lookup_insert_eq; by eexists|].
  rewrite lookup_insert_ne by done. by apply Hdone.
Qed.

Lemma chain_loop_run k i vals evaluated e s : (i + k = length ids)%nat -> chain_inv vals evaluated e s -> done_upto i vals ->
  exists vals' evaluated' e' s', emitted u l (chain_loop ns lanes fused (drop i ids) vals evaluated) e s vals' e' s' /\
    gm s' = gm s /\ chain_inv vals' evaluated' e' s' /\ done_upto (length ids) vals'.
Proof.
  revert i vals evaluated e s. induction k as [|k IH]; intros i vals evaluated e s Hlen Hinv Hdone.
  { rewrite drop_ge by lia. exists vals, evaluated, e, s. split; [apply emitted_ret|]. split_and!; try done.
    by replace (length ids) with i by lia. }
  destruct (lookup_lt_is_Some_2 ids i) as [id Hi]; [lia|]. rewrite (drop_S _ _ _ Hi). cbn [chain_loop].
  destruct (Hids id) as [n Hn]; [by eapply list_elem_of_lookup_2|]. destruct (wf_node_at _ _ Hn) as [Hid _].
  assert (Hskip : (id ∉ fused -> is_Some (vals !! id)) ->
    exists vals' evaluated' e' s', emitted u l (chain_loop ns lanes fused (drop (S i) ids) vals evaluated) e s vals' e' s' /\
    gm s' = gm s /\ chain_inv vals' evaluated' e' s' /\ done_upto (length ids) vals').
  { intros Hx. apply IH; [lia|done|]. by eapply done_upto_S. }
  destruct (TraceOpKind.eqb (n_op n) TraceOpKind.Input || bool_decide (is_Some (vals !! n_id n)) || bool_decide (n_id n ∈ fused)) eqn:Eskip.
  - destruct Hskip as (vals' & ev & e' & s' & He & Hrest).
    { intros Hnf. apply orb_true_iff in Eskip as [Eskip|Ef%bool_decide_eq_true]; [|by rewrite Hid in Ef].
      apply orb_true_iff in Eskip as [Eop|Ev%bool_decide_eq_true]; [|by rewrite Hid in Ev].
      unfold TraceOpKind.eqb in Eop. apply bool_decide_eq_true in Eop.
      destruct (Hinputs id n) as [x Hx]; [by eapply list_elem_of_lookup_2|done|done|].
      exists x. eapply lookup_weaken; [exact Hx|]. by destruct Hinv. }
    exists vals', ev, e', s'. split; [|done]. apply (emitted_lift_bind _ n); [by apply node_ret|]. by rewrite Eskip.
  - pose proof Eskip as E. apply orb_false_iff in E as [E Ef%bool_decide_eq_false]. apply orb_false_iff in E as [Eop Ev%bool_decide_eq_false].
    unfold TraceOpKind.eqb in Eop. apply bool_decide_eq_false in Eop. apply eq_None_not_Some in Ev.
    assert (H0 : vals0 !! id = None) by (rewrite <- Hid; eapply lookup_weaken_None; [exact Ev|by destruct Hinv]).
    destruct (Htopo i id n Hi Hn Eop H0) as [Hform _].
    destruct (chain_node_run n vals evaluated e s Hinv) as (regs & ev & e1 & s1 & He1 & Hg1 & Hinv1); try done.
    { by rewrite Hid. }
    { eapply done_ready; try done. by destruct Hinv. }
    destruct (IH (S i) (<[n_id n := regs]> vals) ev e1 s1) as (vals' & ev' & e' & s' & He & Hg & Hrest); [lia|done| |].
    { eapply done_upto_S; [exact Hi|by apply done_upto_insert|]. intros _. rewrite Hid, lookup_insert_eq. by eexists. }
    exists vals', ev', e', s'. split; [|split; [by rewrite Hg|done]].
    apply (emitted_lift_bind _ n); [by apply node_ret|]. rewrite Eskip. eapply emitted_bind; [exact He1|exact He].
Qed.
End Fusing.
End Chain.

(** ** The whole chain *)

(** The nodes to evaluate are of the graph, come after what they read, and have
    a lane form; the inputs among them have their registers. *)
Record chain_order (ns : list TraceNode) (vals0 : ValueMap) (ids : list Z) : Prop := {
  co_nodes : forall id, id ∈ ids -> is_Some (node_at ns id);
  co_topo : forall i id n, ids !! i = Some id -> node_at ns id = Some n -> n_op n <> TraceOpKind.Input ->
    vals0 !! id = None -> has_form n = true /\ Forall (fun src => is_Some (vals0 !! src) \/ src ∈ take i ids) (n_inputs n);
  co_inputs : forall id n, id ∈ ids -> node_at ns id = Some n -> n_op n = TraceOpKind.Input -> is_Some (vals0 !! id)
}.

(** A node without registers at the end is a multiplication that one addition
    has taken over; every other node's registers hold, on every lane, what it
    computes from its operands' registers. *)
Definition chain_result (u : fpu) (ns : list TraceNode) (lanes : nat) (vals0 : ValueMap) (ids : list Z)
    (vals : ValueMap) (s : thread) : Prop :=
  vals0 ⊆ vals /\
  forall id n, id ∈ ids -> node_at ns id = Some n ->
    (vals !! id = None -> n_op n = TraceOpKind.Mul /\ n_live n = false /\ use_count ns id = 1%nat) /\
    (is_Some (vals !! id) -> vals0 !! id = None -> forall j, (j < lanes)%nat ->
       exists v, lane_val vals s j id = Some v /\ computes u ns (lane_val vals s j) n v).

Definition order_ids (ns : list TraceNode) (order : option (list Z)) : list Z :=
  match order with Some l => l | None => map n_id ns end.

Lemma emit_chain_run (u : fpu) (l : launch) (ns : list TraceNode) (lanes : nat) (vals0 : ValueMap)
    (order : option (list Z)) (e : emitter) (s : thread) :
  (0 < lanes)%nat -> wf_nodes ns -> chain_order ns vals0 (order_ids ns order) -> vals_ok lanes (em_alloc e) vals0 ->
  exists vals e' s', emitted u l (emit_chain ns lanes vals0 order) e s vals e' s' /\ gm s' = gm s /\
    vals_ok lanes (em_alloc e') vals /\ chain_result u ns lanes vals0 (order_ids ns order) vals s'.
Proof.
  intros Hlanes Hns [Hnodes Htopo Hinputs] Hok. set (ids := order_ids ns order) in *.
  assert (Hids : forall id, id ∈ ids -> exists n, node_at ns id = Some n /\ Forall (fun s => is_Some (node_at ns s)) (n_inputs n)).
  { intros id Hid. destruct (Hnodes id Hid) as [n Hn]. exists n. split; [done|]. by eapply (wf_node_at ns lanes Hlanes Hns). }
  destruct (fused_muls_run ns (list_to_set ids) vals0 ids ∅ Hids) as (fused & Hfus & Hby).
  assert (Hfused : forall m, m ∈ fused -> fused_by ns (list_to_set ids) vals0 ids m).
  { intros m Hm. by destruct (Hby m Hm). }
  destruct (chain_loop_run u l ns lanes Hlanes Hns vals0 ids fused Hfused Hnodes Htopo Hinputs (length ids) 0 vals0 [] e s)
    as (vals & ev & e' & s' & He & Hg & [Hok' Hsub Hcomp _] & Hdone); [done| |by intros id Hid%elem_of_nil|].
  { split; [done|done| |by intros p Hp%elem_of_nil]. intros id [x Hx] H0. congruence. }
  exists vals, e', s'. split; [apply (emitted_lift_bind u l _ fused); [exact Hfus|exact He]|].
  split; [done|]. split; [done|]. split; [done|]. intros id n Hid Hn. split.
  - intros Hnone. assert (Hf : id ∈ fused).
    { destruct (decide (id ∈ fused)) as [|Hnf]; [done|]. exfalso. destruct (Hdone id) as [x Hx]; [by rewrite take_ge|done|].
      by rewrite Hx in Hnone. }
    destruct (Hfused id Hf) as (? & ? & ? & ? & ? & _ & _ & _ & _ & Hwhy).
    assert (Hft : fusible ns (list_to_set ids) vals0 id = Ret true) by (destruct Hwhy as [[-> ?]|(-> & _ & ?)]; done).
    destruct (fusible_true _ _ _ _ Hft) as (m & _ & _ & _ & _ & _ & Hm & Hop & Hlive & Huse & _).
    rewrite Hn in Hm. by injection Hm as <-.
  - intros Hv H0. destruct (Hcomp id Hv H0) as (m & Hm & Hval). rewrite Hn in Hm. by injection Hm as <-.
Qed.

(** C17: [emit_chain] is right. For a well-formed graph, nodes in an order that
    respects their operands, and registers for what is already computed, it
    returns (no exception), and the code it appends, run by any thread, keeps
    memory and every older register and leaves in the registers it returns for a
    node, on every lane, what the node computes from the registers of its
    operands: copies and equal expressions share registers, a cast to the type
    its operand has takes the operand over, and the only nodes without registers
    are multiplications that a single addition has fused. *)
Theorem emit_chain_correct (u : fpu) (l : launch) (ns : list TraceNode) (lanes : nat) (vals0 : ValueMap)
    (order : option (list Z)) (e : emitter) (s : thread) :
  (0 < lanes)%nat -> wf_nodes ns -> chain_order ns vals0 (order_ids ns order) -> vals_ok lanes (em_alloc e) vals0 ->
  exists vals e' code s', emit_chain ns lanes vals0 order e = (Ret vals, e') /\ em_out e' = em_out e ++ code /\
    exec u l code s = Some s' /\ gm s' = gm s /\ keeps (em_alloc e) s s' /\
    vals_ok lanes (em_alloc e') vals /\ chain_result u ns lanes vals0 (order_ids ns order) vals s'.
Proof.
  intros Hlanes Hns Hord Hok.
  destruct (emit_chain_run u l ns lanes vals0 order e s Hlanes Hns Hord Hok) as (vals & e' & s' & [(code & Hr & Ho & Hx) _ Hk] & Hg & Hrest).
  by exists vals, e', code, s'.
Qed.

Module ChainEx.
Import TraceOpKind.
Definition ew (id : Z) (op : TraceOpKind) (ins : list Z) (live : bool) : TraceNode :=
  mkNode id op ins [] 0 0 nullptr Dev.CUDA0 FP32 2 2 false (-1) live.

(** [(x * y + x) + (x * y + x)], the second with the operands of the sum the
    other way round. *)
Definition graph : list TraceNode :=
  [ew 0 Input [] false; ew 1 Input [] false; ew 2 Mul [0; 1] false; ew 3 Add [2; 0] false;
   ew 4 Mul [0; 1] false; ew 5 Add [0; 4] false; ew 6 Add [3; 5] true].
Definition seeds : ValueMap := <[0 := [0; 1]]> (<[1 := [2; 3]]> ∅).
Definition start : emitter := mkEmitter (mkAlloc 4 0 0 0 0) [].
Definition fpu0 : fpu := mkFpu (fun _ x y => x + y) (fun _ x => x) (fun x y z => x * y + z) (fun _ _ => true) id id id.
Definition launch0 : launch := mkLaunch 0 1 0 1 1 [] [] anywhere anywhere.
Definition thread0 : thread := mkThread id id id id (fun _ => false) ∅.

Example graph_code : (emit_chain graph 2 seeds None start).2.(em_out) =
  [FFma 4 (FReg 0) (FReg 2) (FReg 0); FFma 5 (FReg 1) (FReg 3) (FReg 1);
   FFma 6 (FReg 0) (FReg 2) (FReg 0); FFma 7 (FReg 1) (FReg 3) (FReg 1);
   FBin FAdd 8 (FReg 4) (FReg 6); FBin FAdd 9 (FReg 5) (FReg 7)].
Proof. vm_compute. reflexivity. Qed.

Lemma graph_wf : wf_nodes graph.
Proof.
  intros i n Hi. do 7 (destruct i as [|i]; [injection Hi as <-; split; [reflexivity|repeat constructor; cbn; lia]|]). discriminate Hi.
Qed.

Lemma graph_order : chain_order graph seeds (order_ids graph None).
Proof.
  split.
  - intros id Hid. change (id ∈ [0; 1; 2; 3; 4; 5; 6]) in Hid. 
    repeat (apply elem_of_cons in Hid as [->|Hid]; [by eexists|]). by apply elem_of_nil in Hid.
  - intros i id n Hi Hn Hop Hv. change ([0; 1; 2; 3; 4; 5; 6] !! i = Some id) in Hi.
    do 2 (destruct i as [|i]; [injection Hi as <-; injection Hn as <-; done|]).
    destruct i as [|[|[|[|[|i]]]]]; try discriminate Hi; injection Hi as <-; injection Hn as <-; split; try reflexivity;
      repeat constructor; first [left; by eexists|right; cbn; set_solver].
  - intros id n Hid Hn Hop. change (id ∈ [0; 1; 2; 3; 4; 5; 6]) in Hid.
    repeat (apply elem_of_cons in Hid as [->|Hid]; [injection Hn as <-; try discriminate Hop; by eexists|]). by apply elem_of_nil in Hid.
Qed.

Lemma emit_chain_correct_witness :
  exists vals e' code s', emit_chain graph 2 seeds None start = (Ret vals, e') /\ em_out e' = em_out start ++ code /\
    exec fpu0 launch0 code thread0 = Some s' /\ gm s' = gm thread0 /\ keeps (em_alloc start) thread0 s' /\
    vals_ok 2 (em_alloc e') vals /\ chain_result fpu0 graph 2 seeds (order_ids graph None) vals s'.
Proof.
  apply (emit_chain_correct fpu0 launch0 graph 2 seeds None start thread0); [lia|apply graph_wf|apply graph_order|].
  intros id regs Hi. destruct (decide (id = 0)) as [->|]; [injection Hi as <-; split; [reflexivity|repeat constructor; cbv; reflexivity]|].
  destruct (decide (id = 1)) as [->|]; [injection Hi as <-; split; [reflexivity|repeat constructor; cbv; reflexivity]|].
  unfold seeds in Hi. rewrite !lookup_insert_ne in Hi by done. discriminate Hi.
Defined.
End ChainEx.
