(* ===== verification/PtxMemory.v ===== *)
(** * Typed loads and stores do what they should

    The elements of a buffer as a kernel sees them ([elem], widened to a float
    pattern; [out_bytes], narrowed to a dtype), and that the code of
    [emit_load] and [emit_store] moves [lanes] of them. *)
From stdpp Require Import functions.
From S2P Require Import Prelude Dtype Device Heap Tensor TraceDag TracePlan Ptx PtxSpec PtxChain PtxChainSpec.

(** ** Bytes in memory *)
Definition bytes_at (m : gmap Z byte) (a : Z) (bs : str) : Prop :=
  forall i b, bs !! i = Some b -> m !! (a + Z.of_nat i) = Some b.

Lemma load_bytes_spec m a n bs : load_bytes m a n = Some bs <-> length bs = n /\ bytes_at m a bs.
Proof.
  unfold load_bytes, bytes_at. rewrite mapM_Some. split.
  - intros H. pose proof (Forall2_length _ _ _ H) as Hl. rewrite length_seq in Hl. split; [done|].
    intros i b Hi. assert (Hs : seq 0 n !! i = Some i) by (apply lookup_seq; apply lookup_lt_Some in Hi; lia).
    by apply (Forall2_lookup_lr _ _ _ i i b H).
  - intros [Hl H]. apply Forall2_same_length_lookup_2; [by rewrite length_seq|].
    intros i j b Hj Hb. apply lookup_seq in Hj as [-> Hj]. by apply H.
Qed.

Lemma bytes_at_app m a b1 b2 : bytes_at m a (b1 ++ b2) <-> bytes_at m a b1 /\ bytes_at m (a + zlen b1) b2.
Proof.
  unfold bytes_at, zlen. split.
  - intros H. split; intros i b Hi.
    + apply H. by apply lookup_app_l_Some.
    + replace (a + Z.of_nat (length b1) + Z.of_nat i) with (a + Z.of_nat (length b1 + i)) by lia.
      apply H. rewrite lookup_app_r by lia. by replace (length b1 + i - length b1)%nat with i by lia.
  - intros [H1 H2] i b Hi. apply lookup_app_Some in Hi as [Hi|[Hl Hi]]; [by apply H1|].
    replace (a + Z.of_nat i) with (a + Z.of_nat (length b1) + Z.of_nat (i - length b1)) by lia. by apply H2.
Qed.

Definition mapped (m : gmap Z byte) (a n : Z) : Prop := forall x, a <= x < a + n -> is_Some (m !! x).

Lemma mapped_bytes m a n : mapped m a (Z.of_nat n) -> exists bs, length bs = n /\ bytes_at m a bs.
Proof.
  intros H. destruct (mapM (fun i => m !! (a + Z.of_nat i)) (seq 0 n)) as [bs|] eqn:E.
  - exists bs. by apply load_bytes_spec.
  - apply mapM_None in E. apply Exists_exists in E as (i & Hi & Hn). apply elem_of_seq in Hi.
    destruct (H (a + Z.of_nat i)) as [b Hb]; [lia|]. by rewrite Hb in Hn.
Qed.

Lemma mapped_sub m a n b k : mapped m a n -> a <= b -> b + k <= a + n -> mapped m b k.
Proof. intros H Hb Hk x Hx. apply H. lia. Qed.

(** A store of bytes. *)
Lemma store_bytes_spec m a bs : mapped m a (zlen bs) ->
  exists m', store_bytes m a bs = Some m' /\ bytes_at m' a bs /\
    (forall x, x < a \/ a + zlen bs <= x -> m' !! x = m !! x) /\ (forall x, is_Some (m' !! x) <-> is_Some (m !! x)).
Proof.
  revert m a. induction bs as [|b bs IH]; intros m a Hm; cbn [store_bytes].
  { exists m. split; [done|]. split; [intros i b; by rewrite lookup_nil|]. done. }
  rewrite zlen_cons in Hm. pose proof (zlen_nonneg bs). destruct (Hm a) as [b0 Hb0]; [lia|]. rewrite Hb0.
  assert (Hdom : forall x, is_Some (<[a := b]> m !! x) <-> is_Some (m !! x)).
  { intros x. destruct (decide (x = a)) as [->|]; [rewrite lookup_insert_eq, Hb0; split; by eexists|by rewrite lookup_insert_ne]. }
  destruct (IH (<[a := b]> m) (a + 1)) as (m' & Hs & Hat & Hout & Hd).
  { intros x Hx. apply Hdom, Hm. lia. }
  exists m'. split; [done|]. split; [|split].
  - intros [|i] b' Hi; cbn in Hi.
    + injection Hi as <-. rewrite Z.add_0_r, Hout by lia. by rewrite lookup_insert_eq.
    + replace (a + Z.of_nat (S i)) with (a + 1 + Z.of_nat i) by lia. by apply Hat.
  - rewrite zlen_cons. intros x Hx. rewrite Hout by lia. by rewrite lookup_insert_ne by lia.
  - intros x. by rewrite Hd, Hdom.
Qed.

Lemma store_bytes_mapped m a bs m' : store_bytes m a bs = Some m' -> mapped m a (zlen bs).
Proof.
  revert m a. induction bs as [|b bs IH]; intros m a Hs x Hx; [unfold zlen in Hx; cbn in Hx; lia|].
  cbn [store_bytes] in Hs. destruct (m !! a) as [b0|] eqn:Ha; [|done]. rewrite zlen_cons in Hx.
  destruct (decide (x = a)) as [->|Hne]; [by eexists|].
  specialize (IH _ _ Hs x ltac:(lia)). by rewrite lookup_insert_ne in IH by done.
Qed.

(** ** Elements *)
Section Elements.
Context (u : fpu).

(** The value a kernel has in a register for an element. *)
Definition widen (dt : Dtype) (bits : Z) : Z :=
  match dt with FP32 => bits | BF16 => u32 (Z.shiftl bits 16) | _ => fpu_of_f16 u bits end.
Definition elem (dt : Dtype) (m : gmap Z byte) (p i : Z) : option Z :=
  widen dt <$> load m (p + i * elem_bytes dt) (Z.to_nat (elem_bytes dt)).

(** The bytes of a value stored as an element. *)
Definition narrow (dt : Dtype) (v : Z) : Z :=
  match dt with FP32 => v | BF16 => fpu_to_bf16 u v | _ => fpu_to_f16 u v end.
Definition out_bytes (dt : Dtype) (v : Z) : str := le_bytes (Z.to_nat (elem_bytes dt)) (narrow dt v).

Lemma elem_mapped dt m p i : mapped m (p + i * elem_bytes dt) (elem_bytes dt) -> dtype_supported dt = true ->
  exists v, elem dt m p i = Some v.
Proof.
  intros Hm Hd. assert (He : 0 <= elem_bytes dt) by by destruct dt.
  destruct (mapped_bytes m (p + i * elem_bytes dt) (Z.to_nat (elem_bytes dt))) as (bs & Hl & Hb); [by rewrite Z2Nat.id|].
  exists (widen dt (le_int bs)). unfold elem, load. by rewrite (proj2 (load_bytes_spec _ _ _ bs)).
Qed.

Lemma elem_same dt m m' p i :
  (forall x, p + i * elem_bytes dt <= x < p + i * elem_bytes dt + elem_bytes dt -> m' !! x = m !! x) ->
  elem dt m' p i = elem dt m p i.
Proof.
  intros H. unfold elem, load. do 2 f_equal. unfold load_bytes. apply Forall_mapM_ext, Forall_forall.
  intros i' Hi%elem_of_seq. apply H. lia.
Qed.

Lemma load_mono m a n v : load m a n = Some v -> forall m', (forall x, a <= x < a + Z.of_nat n -> m' !! x = m !! x) -> load m' a n = Some v.
Proof.
  intros <- m' H. unfold load. f_equal. apply Forall_mapM_ext, Forall_forall. intros i Hi%elem_of_seq. apply H. lia.
Qed.

Lemma load_range m a n v : load m a n = Some v -> 0 <= v < 256 ^ Z.of_nat n.
Proof.
  unfold load. destruct (load_bytes m a n) as [bs|] eqn:E; [|done]. apply load_bytes_spec in E as [<- _].
  intros [= <-]. apply le_int_range.
Qed.

Lemma le_int_app b1 b2 : le_int (b1 ++ b2) = le_int b1 + 256 ^ zlen b1 * le_int b2.
Proof.
  induction b1 as [|b b1 IH]; cbn [le_int app]; [unfold zlen; cbn; lia|]. rewrite IH, zlen_cons.
  replace (1 + zlen b1) with (Z.succ (zlen b1)) by lia. rewrite Z.pow_succ_r by apply zlen_nonneg. lia.
Qed.

(** A word is its two halves. *)
Lemma load_halves m a x y : load m a 2 = Some x -> load m (a + 2) 2 = Some y -> load m a 4 = Some (x + 65536 * y).
Proof.
  unfold load. destruct (load_bytes m a 2) as [b1|] eqn:E1; [|done]. destruct (load_bytes m (a + 2) 2) as [b2|] eqn:E2; [|done].
  apply load_bytes_spec in E1 as [L1 A1], E2 as [L2 A2]. intros [= <-] [= <-].
  assert (E : load_bytes m a 4 = Some (b1 ++ b2)).
  { apply load_bytes_spec. split; [rewrite length_app; lia|]. apply bytes_at_app. split; [done|]. unfold zlen. by rewrite L1. }
  rewrite E. cbn. f_equal. rewrite le_int_app. unfold zlen. by rewrite L1.
Qed.

Lemma half_lo x y : 0 <= x < 65536 -> u16 (x + 65536 * y) = x.
Proof. intros Hx. unfold u16. rewrite Z.mul_comm, Z.mod_add by lia. by apply Z.mod_small. Qed.
Lemma half_hi x y : 0 <= x < 65536 -> Z.shiftr (x + 65536 * y) 16 = y.
Proof. intros Hx. rewrite Z.shiftr_div_pow2 by lia. change (2 ^ 16) with 65536. rewrite Z.mul_comm, Z.div_add by lia. rewrite Z.div_small by lia. lia. Qed.

(** The widening of a half of a word, as the code has it for bf16. *)
Lemma widen_lo w : u32 (Z.shiftl w 16) = widen BF16 (u16 w).
Proof.
  unfold widen, u32, u16. rewrite !Z.shiftl_mul_pow2 by lia. change (2 ^ 32) with (2 ^ 16 * 2 ^ 16).
  rewrite !Z.mul_mod_distr_r by lia. by rewrite Z.mod_mod by lia.
Qed.
Lemma widen_hi w : 0 <= w < 2 ^ 32 -> Z.land w (u32 (-65536)) = widen BF16 (Z.shiftr w 16).
Proof.
  intros Hw. unfold widen. assert (Hs : 0 <= Z.shiftr w 16 < 2 ^ 16).
  { rewrite Z.shiftr_div_pow2 by lia. split; [apply Z.div_pos; lia|apply Z.div_lt_upper_bound; lia]. }
  rewrite (u32_id (Z.shiftl _ _)) by (rewrite Z.shiftl_mul_pow2 by lia; lia).
  change (u32 (-65536)) with (Z.shiftl (Z.ones 16) 16). apply Z.bits_inj'. intros n Hn. rewrite Z.land_spec.
  destruct (Z.ltb_spec n 16).
  - rewrite !Z.shiftl_spec_low by done. apply andb_false_r.
  - rewrite !Z.shiftl_spec_high by lia. rewrite Z.shiftr_spec by lia. replace (n - 16 + 16) with n by lia.
    destruct (Z.ltb_spec n 32).
    + rewrite Z.ones_spec_low by lia. apply andb_true_r.
    + rewrite Z.ones_spec_high by lia. rewrite andb_false_r. symmetry. apply Z.testbit_false; [lia|].
      rewrite Z.div_small; [done|]. split; [lia|]. apply Z.lt_le_trans with (2 ^ 32); [lia|]. apply Z.pow_le_mono_r; lia.
Qed.
End Elements.

(** ** Loads *)
Section Loads.
Context (u : fpu) (l : launch).

Definition fresh (a : Z) (n : nat) : list Z := map (fun i => a + Z.of_nat i) (seq 0 n).

Lemma fresh_S a n : fresh a (S n) = a :: fresh (a + 1) n.
Proof.
  unfold fresh. cbn [seq map]. f_equal; [lia|]. rewrite <- seq_shift, map_map. apply map_ext. intros i. lia.
Qed.
Lemma length_fresh a n : length (fresh a n) = n.
Proof. unfold fresh. by rewrite length_map, length_seq. Qed.
Lemma fresh_lookup a n i r : fresh a n !! i = Some r -> r = a + Z.of_nat i /\ (i < n)%nat.
Proof. unfold fresh. intros H. rewrite list_lookup_fmap_Some in H. destruct H as (j & -> & Hj). apply lookup_seq in Hj as [-> Hj]. done. Qed.
Lemma fresh_nodup a n : NoDup (fresh a n).
Proof. apply NoDup_alt. intros i j r Hi Hj. apply fresh_lookup in Hi as [-> _], Hj as [Hj _]. lia. Qed.
Lemma fresh_range a n r : r ∈ fresh a n -> a <= r < a + Z.of_nat n.
Proof. intros [i Hi]%list_elem_of_lookup_1. apply fresh_lookup in Hi as [-> Hi]. lia. Qed.

Definition bump_fs (n : nat) (a : Alloc) : Alloc := mkAlloc (a_f a + Z.of_nat n) (a_r a) (a_rd a) (a_h a) (a_p a).
Definition bump_rs (n : nat) (a : Alloc) : Alloc := mkAlloc (a_f a) (a_r a + Z.of_nat n) (a_rd a) (a_h a) (a_p a).

Lemma new_many_f n e : new_many new_f n e = (Ret (fresh (a_f (em_alloc e)) n), with_alloc (bump_fs n (em_alloc e)) e).
Proof.
  revert e. induction n as [|n IH]; intros e.
  - unfold with_alloc, bump_fs. destruct e as [[] ?]. cbn. do 3 f_equal. lia.
  - cbn [new_many]. rewrite (st_bind_ret _ _ _ (a_f (em_alloc e)) (with_alloc (bump_f (em_alloc e)) e)) by done.
    rewrite (st_bind_ret _ _ _ _ _ (IH _)). rewrite fresh_S. unfold with_alloc, bump_fs. cbn. unfold mret, st_ret. do 3 f_equal. lia.
Qed.

Lemma new_many_r n e : new_many new_r n e = (Ret (fresh (a_r (em_alloc e)) n), with_alloc (bump_rs n (em_alloc e)) e).
Proof.
  revert e. induction n as [|n IH]; intros e.
  - unfold with_alloc, bump_rs. destruct e as [[] ?]. cbn. do 3 f_equal. lia.
  - cbn [new_many]. rewrite (st_bind_ret _ _ _ (a_r (em_alloc e)) (with_alloc (bump_r (em_alloc e)) e)) by done.
    rewrite (st_bind_ret _ _ _ _ _ (IH _)). rewrite fresh_S. unfold with_alloc, bump_rs. cbn. unfold mret, st_ret. do 3 f_equal. lia.
Qed.

Lemma over_new a0 {A} (x : A) (m' : emit A) e s a' : m' e = (Ret x, with_alloc a' e) -> alloc_le (em_alloc e) a' ->
  over u l a0 m' e s x (with_alloc a' e) s.
Proof. intros Hm Hle. split; [exists []; split_and!; try done; by rewrite app_nil_r|done|apply keeps_refl]. Qed.

(** Several registers written at once. *)
Lemma set_fs_out ds vs s n : n ∉ ds -> rf (set_fs ds vs s) n = rf s n.
Proof.
  revert vs s. induction ds as [|d ds IH]; intros vs s Hn; [done|]. destruct vs as [|v vs]; [done|].
  change (set_fs (d :: ds) (v :: vs) s) with (set_fs ds vs (set_f d v s)).
  apply not_elem_of_cons in Hn as [Hne Hn]. rewrite IH by done. cbn. by rewrite fn_lookup_insert_ne.
Qed.
Lemma set_fs_in ds vs s i d v : NoDup ds -> ds !! i = Some d -> vs !! i = Some v -> rf (set_fs ds vs s) d = v.
Proof.
  revert vs s i. induction ds as [|d' ds IH]; intros vs s i Hnd Hd Hv; [done|]. destruct vs as [|v' vs]; [done|].
  change (set_fs (d' :: ds) (v' :: vs) s) with (set_fs ds vs (set_f d' v' s)).
  apply NoDup_cons in Hnd as [Hn Hnd]. destruct i as [|i]; cbn in Hd, Hv |- *.
  - injection Hd as ->. injection Hv as ->. rewrite (set_fs_out ds vs) by done. cbn. apply fn_lookup_insert.
  - by eapply IH.
Qed.
Lemma set_fs_rest ds vs s : rr (set_fs ds vs s) = rr s /\ rrd (set_fs ds vs s) = rrd s /\ rh (set_fs ds vs s) = rh s /\
  rp (set_fs ds vs s) = rp s /\ gm (set_fs ds vs s) = gm s.
Proof. unfold set_fs. revert vs s. induction ds as [|d ds IH]; intros [|v vs] s; try done. cbn. by destruct (IH vs (set_f d v s)). Qed.

Lemma set_rs_out ds vs s n : n ∉ ds -> rr (set_rs ds vs s) n = rr s n.
Proof.
  revert vs s. induction ds as [|d ds IH]; intros vs s Hn; [done|]. destruct vs as [|v vs]; [done|].
  change (set_rs (d :: ds) (v :: vs) s) with (set_rs ds vs (set_r d v s)).
  apply not_elem_of_cons in Hn as [Hne Hn]. rewrite IH by done. cbn. by rewrite fn_lookup_insert_ne.
Qed.
Lemma set_rs_in ds vs s i d v : NoDup ds -> ds !! i = Some d -> vs !! i = Some v -> rr (set_rs ds vs s) d = v.
Proof.
  revert vs s i. induction ds as [|d' ds IH]; intros vs s i Hnd Hd Hv; [done|]. destruct vs as [|v' vs]; [done|].
  change (set_rs (d' :: ds) (v' :: vs) s) with (set_rs ds vs (set_r d' v' s)).
  apply NoDup_cons in Hnd as [Hn Hnd]. destruct i as [|i]; cbn in Hd, Hv |- *.
  - injection Hd as ->. injection Hv as ->. rewrite (set_rs_out ds vs) by done. cbn. apply fn_lookup_insert.
  - by eapply IH.
Qed.
Lemma set_rs_rest ds vs s : rf (set_rs ds vs s) = rf s /\ rrd (set_rs ds vs s) = rrd s /\ rh (set_rs ds vs s) = rh s /\
  rp (set_rs ds vs s) = rp s /\ gm (set_rs ds vs s) = gm s.
Proof. unfold set_rs. revert vs s. induction ds as [|d ds IH]; intros [|v vs] s; try done. cbn. by destruct (IH vs (set_r d v s)). Qed.

Lemma keeps_set_fs a ds vs s : Forall (fun d => a_f a <= d) ds -> keeps a s (set_fs ds vs s).
Proof.
  intros Hd. destruct (set_fs_rest ds vs s) as (? & ? & ? & ? & _). split; intros n Hn; try congruence.
  apply set_fs_out. intros Hin. apply (proj1 (Forall_forall _ _) Hd) in Hin. lia.
Qed.
Lemma keeps_set_rs a ds vs s : Forall (fun d => a_r a <= d) ds -> keeps a s (set_rs ds vs s).
Proof.
  intros Hd. destruct (set_rs_rest ds vs s) as (? & ? & ? & ? & _). split; intros n Hn; try congruence.
  apply set_rs_out. intros Hin. apply (proj1 (Forall_forall _ _) Hd) in Hin. lia.
Qed.

(** *** One pair *)
Definition pair_ok (dt : Dtype) (w : Z) (s : thread) (lo hi : Z) : Prop :=
  rf s lo = widen u dt (u16 w) /\ rf s hi = widen u dt (Z.shiftr w 16).

Lemma emit_unpack_run a0 dt pk lo hi e s : dt = BF16 \/ dt = FP16 -> lo <> hi -> a_f a0 <= lo -> a_f a0 <= hi ->
  alloc_le a0 (em_alloc e) -> pk < a_r (em_alloc e) -> 0 <= rr s pk < 2 ^ 32 ->
  exists e' s', over u l a0 (emit_unpack dt pk lo hi) e s tt e' s' /\ gm s' = gm s /\
    (forall n, n <> lo -> n <> hi -> rf s' n = rf s n) /\ (forall n, n < a_r (em_alloc e) -> rr s' n = rr s n) /\
    pair_ok dt (rr s pk) s' lo hi.
Proof.
  intros Hdt Hne Hlo Hhi [] Hpk Hw. destruct e as [[af ar ard ah ap] out]. cbn in *.
  destruct Hdt as [-> | ->]; (eexists _, _; split; [split|]).
  - eexists [_; _; _; _]. split; [reflexivity|]. split; [cbn; rewrite <- !app_assoc; reflexivity|reflexivity].
  - split; cbn; lia.
  - regs_kept.
  - cbn. split; [done|]. split; [intros n H1 H2; by reg_lookup|]. split; [intros n Hn; by reg_lookup|].
    split; cbn; reg_lookup; [exact (widen_lo u _)|exact (widen_hi u _ Hw)].
  - eexists [_; _; _]. split; [reflexivity|]. split; [cbn; rewrite <- ?app_assoc; reflexivity|reflexivity].
  - split; cbn; lia.
  - regs_kept.
  - cbn. split; [done|]. split; [intros n H1 H2; by reg_lookup|]. split; [done|]. split; cbn; by reg_lookup.
Qed.

Lemma emit_unpacks_run a0 dt w out e s : dt = BF16 \/ dt = FP16 -> length out = (2 * length w)%nat -> NoDup out ->
  Forall (fun d => a_f a0 <= d) out -> alloc_le a0 (em_alloc e) -> Forall (fun r => r < a_r (em_alloc e) /\ 0 <= rr s r < 2 ^ 32) w ->
  exists e' s', over u l a0 (emit_unpacks dt w out) e s tt e' s' /\ gm s' = gm s /\
    (forall n, n ∉ out -> rf s' n = rf s n) /\
    forall i r, w !! i = Some r -> exists lo hi, out !! (2 * i)%nat = Some lo /\ out !! (2 * i + 1)%nat = Some hi /\
      pair_ok dt (rr s r) s' lo hi.
Proof.
  intros Hdt. revert out e s. induction w as [|pk w IH]; intros out e s Hl Hnd Hout Hle Hw.
  { exists e, s. split; [apply over_ret|]. split_and!; try done. }
  destruct out as [|lo [|hi out]]; [cbn in Hl; lia|cbn in Hl; lia|]. cbn in Hl.
  apply NoDup_cons in Hnd as [Hnlo Hnd]. apply not_elem_of_cons in Hnlo as [Hne Hnlo]. apply NoDup_cons in Hnd as [Hnhi Hnd].
  apply Forall_cons in Hout as [Hlo Hout]. apply Forall_cons in Hout as [Hhi Hout]. apply Forall_cons in Hw as [[Hpk Hpkv] Hw].
  destruct (emit_unpack_run a0 dt pk lo hi e s) as (e1 & s1 & He1 & Hg1 & Hf1 & Hr1 & Hp1); try done.
  destruct (IH out e1 s1) as (e2 & s2 & He2 & Hg2 & Hf2 & Hp2); try done.
  { lia. }
  { etrans; [exact Hle|]. apply (over_alloc _ _ _ _ _ _ _ _ _ He1). }
  { eapply Forall_impl; [exact Hw|]. cbn. intros r [Hr Hv]. rewrite Hr1 by done. split; [|done].
    destruct (over_alloc _ _ _ _ _ _ _ _ _ He1). lia. }
  exists e2, s2. split; [by eapply over_bind|]. split; [by rewrite Hg2|]. split.
  - intros n Hn. apply not_elem_of_cons in Hn as [H1 Hn]. apply not_elem_of_cons in Hn as [H2 Hn]. rewrite Hf2 by done. by apply Hf1.
  - intros [|i] r Hi; cbn in Hi.
    + injection Hi as <-. exists lo, hi. split_and!; try done. destruct Hp1 as [Hp1 Hp1']. split; by rewrite Hf2.
    + assert (Hr : r < a_r (em_alloc e)) by (by apply (Forall_lookup_1 _ _ _ _ Hw Hi)).
      destruct (Hp2 i r Hi) as (lo' & hi' & Hlo' & Hhi' & Hp). exists lo', hi'. rewrite (Hr1 r Hr) in Hp.
      replace (2 * S i)%nat with (S (S (2 * i))) by lia. by replace (S (S (2 * i)) + 1)%nat with (S (S (2 * i + 1))) by lia.
Qed.
End Loads.

(** *** Rights *)
Definition allowed (p : Z -> bool) (a n : Z) : Prop := forall x, a <= x < a + n -> p x = true.

Lemma may_spec p a n : may p a n = true <-> allowed p a (Z.of_nat n).
Proof.
  unfold may, allowed. rewrite forallb_forall. split.
  - intros H x Hx. replace x with (a + Z.of_nat (Z.to_nat (x - a))) by lia. apply H. apply in_seq. lia.
  - intros H i Hi%in_seq. apply H. lia.
Qed.

Lemma allowed_sub p a n b k : allowed p a n -> a <= b -> b + k <= a + n -> allowed p b k.
Proof. intros H Hb Hk x Hx. apply H. lia. Qed.

Lemma may_words p a n : allowed p a (4 * Z.of_nat n) -> may p a (4 * n) = true.
Proof. intros H. apply may_spec. by replace (Z.of_nat (4 * n)) with (4 * Z.of_nat n) by lia. Qed.

(** *** One access *)
Section Access.
Context (u : fpu) (l : launch).

Lemma load_words_spec m a n ws : vec_width n = true -> aligned a (4 * Z.of_nat n) = true ->
  (length ws = n /\ forall i w, ws !! i = Some w -> load m (a + 4 * Z.of_nat i) 4 = Some w) <-> load_words m a n = Some ws.
Proof.
  intros Hvw Ha. unfold load_words. rewrite Hvw, Ha. cbn [andb]. rewrite mapM_Some. split.
  - intros [Hl H]. apply Forall2_same_length_lookup_2; [by rewrite length_seq|].
    intros i j w Hj Hw. apply lookup_seq in Hj as [-> _]. by apply H.
  - intros H. pose proof (Forall2_length _ _ _ H) as Hl. rewrite length_seq in Hl. split; [done|].
    intros i w Hi. assert (Hs : seq 0 n !! i = Some i) by (apply lookup_seq; apply lookup_lt_Some in Hi; lia).
    by apply (Forall2_lookup_lr _ _ _ i i w H).
Qed.

Lemma load_words_total m a n : vec_width n = true -> aligned a (4 * Z.of_nat n) = true ->
  (forall i, (i < n)%nat -> is_Some (load m (a + 4 * Z.of_nat i) 4)) -> exists ws, load_words m a n = Some ws.
Proof.
  intros Hvw Ha H. unfold load_words. rewrite Hvw, Ha. cbn [andb]. destruct (mapM _ (seq 0 n)) as [ws|] eqn:E; [by exists ws|].
  apply mapM_None, Exists_exists in E as (i & Hi%elem_of_seq & Hn). destruct (H i) as [w Hw]; [lia|]. by rewrite Hw in Hn.
Qed.

(** The elements at the address of an access. *)
Definition elems_at (dt : Dtype) (m : gmap Z byte) (a : Z) (vs : list Z) : Prop :=
  forall j v, vs !! j = Some v -> elem u dt m a (Z.of_nat j) = Some v.

(** The lanes an access can have. *)
Definition lanes_fit (dt : Dtype) (lanes : nat) : Prop :=
  (dt = FP32 /\ vec_width lanes = true) \/
  ((dt = BF16 \/ dt = FP16) /\ (lanes = 1%nat \/ exists k, lanes = (2 * k)%nat /\ vec_width k = true)).

Definition loaded (dt : Dtype) (lanes : nat) (ad : Z) (vs : list Z) (e : emitter) (s : thread) : Prop :=
  exists regs e' s', emitted u l (emit_load dt lanes ad) e s regs e' s' /\ gm s' = gm s /\
    regs_ok lanes (em_alloc e') regs /\ forall j r v, regs !! j = Some r -> vs !! j = Some v -> rf s' r = v.

Lemma emit_load_f32 lanes ad vs e s : vec_width lanes = true -> length vs = lanes -> aligned (rrd s ad) (Z.of_nat lanes * 4) = true ->
  allowed (l_rd l) (rrd s ad) (Z.of_nat lanes * 4) -> elems_at FP32 (gm s) (rrd s ad) vs -> loaded FP32 lanes ad vs e s.
Proof.
  intros Hvw Hl Ha Hmay Hv. set (out := fresh (a_f (em_alloc e)) lanes).
  assert (Hw : load_words (gm s) (rrd s ad) (length out) = Some vs).
  { unfold out. rewrite length_fresh. apply load_words_spec; [done|by rewrite Z.mul_comm|]. split; [done|]. intros i w Hi.
    specialize (Hv i w Hi). unfold elem in Hv. cbn in Hv. destruct (load _ _ _) as [x|] eqn:E; [|done]. injection Hv as <-.
    rewrite <- E. f_equal. lia. }
  destruct (set_fs_rest out vs s) as (_ & _ & _ & _ & Hg).
  exists out, (mkEmitter (bump_fs lanes (em_alloc e)) (em_out e ++ [LdF32 out ad])), (set_fs out vs s). split; [|split; [done|split]].
  - unfold emit_load. apply over_emitted. eapply over_bind; [apply (over_new u l); [apply new_many_f|]|].
    + split; cbn; lia.
    + eapply over_bind; [apply over_put with (s' := set_fs out vs s)|apply over_ret].
      * cbn [exec1]. fold out. rewrite may_words; [by rewrite Hw|]. unfold out. rewrite length_fresh. by rewrite Z.mul_comm.
      * apply keeps_set_fs, Forall_forall. intros d Hd. apply fresh_range in Hd. lia.
  - split; [apply length_fresh|]. apply Forall_forall. intros r Hr. apply fresh_range in Hr. unfold reg_ok. cbn. lia.
  - intros j r v Hr Hj. by apply (set_fs_in out vs s j); [apply fresh_nodup| |].
Qed.

Lemma elem_half dt m a j v : dt = BF16 \/ dt = FP16 -> elem u dt m a (Z.of_nat j) = Some v ->
  exists h, load m (a + 2 * Z.of_nat j) 2 = Some h /\ v = widen u dt h /\ 0 <= h < 65536.
Proof.
  intros Hdt. unfold elem. replace (a + Z.of_nat j * elem_bytes dt) with (a + 2 * Z.of_nat j) by (destruct Hdt as [-> | ->]; cbn; lia).
  replace (Z.to_nat (elem_bytes dt)) with 2%nat by (by destruct Hdt as [-> | ->]).
  destruct (load m (a + 2 * Z.of_nat j) 2) as [h|] eqn:E; [|done]. intros [= <-]. exists h. split_and!; try done.
  - apply (load_range _ _ _ _ E).
  - apply (load_range _ _ _ _ E).
Qed.

Lemma emit_load_half ad dt v e s : dt = BF16 \/ dt = FP16 -> aligned (rrd s ad) 2 = true ->
  allowed (l_rd l) (rrd s ad) 2 -> elems_at dt (gm s) (rrd s ad) [v] -> loaded dt 1 ad [v] e s.
Proof.
  intros Hdt Ha Hmay%(may_spec _ _ 2) Hv. destruct (elem_half dt (gm s) (rrd s ad) 0 v Hdt) as (h & Hh & -> & Hr); [by apply Hv|].
  rewrite Z.mul_0_r, Z.add_0_r in Hh. destruct e as [[af ar ard ah ap] out].
  destruct Hdt as [-> | ->].
  - eexists _, _, _. split; [split|].
    + eexists [_; _; _; _]. split; [reflexivity|]. split; [cbn; by rewrite <- !app_assoc|]. cbn [exec exec1]. rewrite Hmay, Ha, Hh. reflexivity.
    + split; cbn; lia.
    + regs_kept.
    + cbn. split; [done|]. split; [split; [done|repeat constructor; unfold reg_ok; cbn; lia]|].
      intros [|j] r v Hj Hvj; [|done]. injection Hj as <-. injection Hvj as <-. by reg_lookup.
  - eexists _, _, _. split; [split|].
    + eexists [_; _]. split; [reflexivity|]. split; [cbn; by rewrite <- !app_assoc|]. cbn [exec exec1]. rewrite Hmay, Ha, Hh. reflexivity.
    + split; cbn; lia.
    + regs_kept.
    + cbn. split; [done|]. split; [split; [done|repeat constructor; unfold reg_ok; cbn; lia]|].
      intros [|j] r v Hj Hvj; [|done]. injection Hj as <-. injection Hvj as <-. by reg_lookup.
Qed.

Lemma emit_load_wide dt k ad vs e s : dt = BF16 \/ dt = FP16 -> vec_width k = true -> length vs = (2 * k)%nat ->
  aligned (rrd s ad) (4 * Z.of_nat k) = true -> allowed (l_rd l) (rrd s ad) (4 * Z.of_nat k) -> elems_at dt (gm s) (rrd s ad) vs -> loaded dt (2 * k) ad vs e s.
Proof.
  intros Hdt Hvw Hl Ha Hmay Hv. set (out := fresh (a_f (em_alloc e)) (2 * k)). set (w := fresh (a_r (em_alloc e)) k).
  assert (Hword : forall i, (i < k)%nat -> exists x y, load (gm s) (rrd s ad + 4 * Z.of_nat i) 4 = Some (x + 65536 * y) /\
    0 <= x < 65536 /\ vs !! (2 * i)%nat = Some (widen u dt x) /\ vs !! (2 * i + 1)%nat = Some (widen u dt y)).
  { intros i Hi. destruct (lookup_lt_is_Some_2 vs (2 * i)) as [v0 H0]; [lia|]. destruct (lookup_lt_is_Some_2 vs (2 * i + 1)) as [v1 H1]; [lia|].
    destruct (elem_half dt _ _ _ _ Hdt (Hv _ _ H0)) as (x & Hx & -> & Hxr), (elem_half dt _ _ _ _ Hdt (Hv _ _ H1)) as (y & Hy & -> & Hyr).
    exists x, y. split_and!; try done; try lia. apply load_halves; [rewrite <- Hx; f_equal; lia|rewrite <- Hy; f_equal; lia]. }
  destruct (load_words_total (gm s) (rrd s ad) k Hvw Ha) as [ws Hws].
  { intros i Hi. destruct (Hword i Hi) as (x & y & E & _). by eexists. }
  destruct (proj2 (load_words_spec (gm s) (rrd s ad) k ws Hvw Ha) Hws) as [Hwl Hwv].
  set (e1 := with_alloc (bump_rs k (bump_fs (2 * k) (em_alloc e))) e). set (s1 := set_rs w ws s).
  set (e2 := mkEmitter (em_alloc e1) (em_out e1 ++ [LdU32 w ad])).
  assert (Hle : alloc_le (em_alloc e) (em_alloc e2)) by (split; cbn; lia).
  destruct (set_rs_rest w ws s) as (Hf1 & _ & _ & _ & Hg1).
  assert (Hreg : forall i r, w !! i = Some r -> exists x, ws !! i = Some x /\ rr s1 r = x).
  { intros i r Hi. pose proof Hi as Hi'. apply fresh_lookup in Hi' as [_ Hik]. destruct (lookup_lt_is_Some_2 ws i) as [x Hx]; [lia|]. exists x. split; [done|].
    by apply (set_rs_in w ws s i); [apply fresh_nodup| |]. }
  destruct (emit_unpacks_run u l (em_alloc e) dt w out e2 s1 Hdt) as (e3 & s3 & He3 & Hg3 & _ & Hp).
  { unfold out, w. by rewrite !length_fresh. }
  { apply fresh_nodup. }
  { apply Forall_forall. intros d Hd. apply fresh_range in Hd. lia. }
  { done. }
  { apply Forall_lookup_2. intros i r Hi. split.
    - apply fresh_lookup in Hi as [-> Hi]. cbn. lia.
    - destruct (Hreg i r Hi) as (x & Hx & ->). pose proof (load_range _ _ _ _ (Hwv i x Hx)). lia. }
  assert (Hx : exec1 u l s (LdU32 w ad) = Some s1).
  { cbn [exec1]. replace (length w) with k by (unfold w; by rewrite length_fresh). rewrite may_words by done. by rewrite Hws. }
  assert (Hks : keeps (em_alloc e) s s1).
  { apply keeps_set_rs, Forall_forall. intros d Hd. apply fresh_range in Hd. lia. }
  exists out, e3, s3. split; [|split; [by rewrite Hg3|split]].
  - apply over_emitted. unfold emit_load.
    destruct Hdt as [-> | ->].
    all: eapply over_bind; [apply (over_new u l); [apply new_many_f|split; cbn; lia]|].
    all: replace (Nat.eqb (2 * k) 1) with false by (symmetry; apply Nat.eqb_neq; lia).
    all: replace (Nat.div (2 * k) 2) with k by (rewrite Nat.mul_comm, Nat.div_mul; lia).
    all: eapply over_bind; [apply (over_new u l); [apply new_many_r|split; cbn; lia]|].
    all: eapply over_bind; [apply over_put with (s' := s1); [exact Hx|exact Hks]|].
    all: eapply over_bind; [exact He3|apply over_ret].
  - split; [apply length_fresh|]. apply Forall_forall. intros r Hr. apply fresh_range in Hr. unfold reg_ok.
    destruct (over_alloc _ _ _ _ _ _ _ _ _ He3) as [Hf _ _ _ _]. cbn in Hf. lia.
  - intros j r v Hr Hvj. set (i := Nat.div j 2). pose proof (Nat.div_mod j 2 ltac:(lia)) as Hj. fold i in Hj.
    pose proof (Nat.mod_upper_bound j 2 ltac:(lia)) as Hm. apply lookup_lt_Some in Hr as Hjl. unfold out in Hjl. rewrite length_fresh in Hjl.
    destruct (Hword i) as (x & y & Hxy & Hxr & Hv0 & Hv1); [lia|].
    destruct (lookup_lt_is_Some_2 w i) as [rw Hrw]; [unfold w; rewrite length_fresh; lia|].
    destruct (Hreg i rw Hrw) as (xw & Hxw & Hrr). rewrite (Hwv i xw Hxw) in Hxy. injection Hxy as ->.
    destruct (Hp i rw Hrw) as (lo & hi & Hlo & Hhi & [Hpl Hph]). rewrite Hrr in Hpl, Hph.
    rewrite half_lo in Hpl by done. rewrite half_hi in Hph by done.
    destruct (decide (j = 2 * i)%nat) as [E|E].
    + rewrite E in Hr, Hvj. rewrite Hlo in Hr. rewrite Hv0 in Hvj. injection Hr as <-. by injection Hvj as <-.
    + assert (E1 : j = (2 * i + 1)%nat) by lia. rewrite E1 in Hr, Hvj. rewrite Hhi in Hr. rewrite Hv1 in Hvj. injection Hr as <-. by injection Hvj as <-.
Qed.

Lemma emit_load_run dt lanes ad vs e s : lanes_fit dt lanes -> length vs = lanes ->
  aligned (rrd s ad) (Z.of_nat lanes * elem_bytes dt) = true -> allowed (l_rd l) (rrd s ad) (Z.of_nat lanes * elem_bytes dt) ->
  elems_at dt (gm s) (rrd s ad) vs -> loaded dt lanes ad vs e s.
Proof.
  intros [[-> Hvw]|[Hdt [->|(k & -> & Hvw)]]] Hl Ha Hmay Hv.
  - by apply emit_load_f32.
  - destruct vs as [|v [|]]; try discriminate Hl. apply emit_load_half; [done| | |done]; by destruct Hdt as [-> | ->].
  - assert (E : 4 * Z.of_nat k = Z.of_nat (2 * k) * elem_bytes dt) by (destruct Hdt as [-> | ->]; cbn [elem_bytes]; lia).
    apply emit_load_wide; rewrite ?E; done.
Qed.
End Access.

(** ** Stores *)
Section Stores.
Context (u : fpu) (l : launch).

Lemma zb_mod z : zb (z mod 256) = zb z.
Proof. unfold zb. by rewrite Z.mod_mod by lia. Qed.

Lemma zb_add z k : zb (z + 256 * k) = zb z.
Proof. rewrite <- (zb_mod (z + 256 * k)), <- (zb_mod z). f_equal. by rewrite Z.mul_comm, Z.mod_add by lia. Qed.

Lemma le_bytes_u16 x : le_bytes 2 (u16 x) = le_bytes 2 x.
Proof.
  unfold u16. change (2 ^ 16) with (256 * 256). cbn [le_bytes].
  pose proof (Z.div_mod x (256 * 256) ltac:(lia)) as Hx. pose proof (Z.mod_pos_bound x (256 * 256) ltac:(lia)).
  set (r := x mod (256 * 256)) in *. set (q := x / (256 * 256)) in *.
  replace (zb x) with (zb r) by (rewrite Hx; replace (256 * 256 * q + r) with (r + 256 * (256 * q)) by lia; by rewrite zb_add).
  do 2 f_equal. rewrite Hx. replace (256 * 256 * q + r) with (r + 256 * q * 256) by lia. rewrite Z.div_add by lia. by rewrite zb_add.
Qed.

Lemma le_bytes_pack x y : le_bytes 4 (u16 x + 65536 * u16 y) = le_bytes 2 x ++ le_bytes 2 y.
Proof.
  rewrite <- (le_bytes_u16 x), <- (le_bytes_u16 y).
  assert (Hx : 0 <= u16 x < 65536) by (unfold u16; apply Z.mod_pos_bound; lia). generalize (u16 y). intros b. set (a := u16 x) in *. clearbody a.
  cbn [le_bytes app].
  replace ((a + 65536 * b) / 256) with (a / 256 + 256 * b) by (rewrite <- Z.div_add by lia; f_equal; lia).
  replace ((a / 256 + 256 * b) / 256) with b.
  2: { rewrite Z.mul_comm, Z.div_add by lia. rewrite (Z.div_small (a / 256)); [lia|]. split; [apply Z.div_pos; lia|apply Z.div_lt_upper_bound; lia]. }
  replace (a + 65536 * b) with (a + 256 * (256 * b)) by lia. by rewrite !zb_add.
Qed.

(** The words a vector store packs its values into. *)
Fixpoint pack_words (dt : Dtype) (vs : list Z) : list Z :=
  match vs with a :: b :: r => u16 (narrow u dt a) + 65536 * u16 (narrow u dt b) :: pack_words dt r | _ => [] end.

Lemma pack_bytes dt k vs : dt = BF16 \/ dt = FP16 -> length vs = (2 * k)%nat ->
  mjoin (map (le_bytes 4) (pack_words dt vs)) = mjoin (map (out_bytes u dt) vs) /\ length (pack_words dt vs) = k.
Proof.
  intros Hdt. revert vs. induction k as [|k IH]; intros vs Hl; [destruct vs; [done|discriminate Hl]|].
  destruct vs as [|a [|b vs]]; [discriminate Hl|cbn in Hl; lia|]. destruct (IH vs) as [E1 E2]; [cbn in Hl; lia|].
  split; [|cbn; by rewrite E2]. cbn [pack_words map mjoin list_join]. 
  change (le_bytes 4 (u16 (narrow u dt a) + 65536 * u16 (narrow u dt b)) ++ mjoin (map (le_bytes 4) (pack_words dt vs)) =
    out_bytes u dt a ++ out_bytes u dt b ++ mjoin (map (out_bytes u dt) vs)).
  rewrite E1, le_bytes_pack, <- app_assoc. unfold out_bytes. by destruct Hdt as [-> | ->].
Qed.

Lemma emit_packs_run dt k vals e s : dt = BF16 \/ dt = FP16 -> length vals = (2 * k)%nat ->
  Forall (fun r => r < a_f (em_alloc e)) vals ->
  exists w e' s', emitted u l (emit_packs dt k vals) e s w e' s' /\ gm s' = gm s /\
    Forall (fun r => r < a_r (em_alloc e')) w /\ map (rr s') w = pack_words dt (map (rf s) vals).
Proof.
  intros Hdt. revert vals e s. induction k as [|k IH]; intros vals e s Hl Hv.
  { destruct vals; [|discriminate Hl]. exists [], e, s. split; [apply emitted_ret|]. done. }
  destruct vals as [|a [|b vals]]; [discriminate Hl|cbn in Hl; lia|].
  apply Forall_cons in Hv as [Ha Hv]. apply Forall_cons in Hv as [Hb Hv].
  set (word := u16 (narrow u dt (rf s a)) + 65536 * u16 (narrow u dt (rf s b))).
  assert (Hhead : exists e1 s1, a_r (em_alloc e) < a_r (em_alloc e1) /\ rr s1 (a_r (em_alloc e)) = word /\ gm s1 = gm s /\
    rf s1 = rf s /\ a_f (em_alloc e1) = a_f (em_alloc e) /\
    forall (f : Z -> emit (list Z)) x e2 s2, emitted u l (f (a_r (em_alloc e))) e1 s1 x e2 s2 ->
      emitted u l (h0 ← new_h; h1 ← new_h; _ ← put_all [cvt dt h0 a; cvt dt h1 b]; w ← new_r; _ ← put (MovPack w h0 h1); f w) e s x e2 s2).
  { destruct e as [[af ar ard ah ap] out]. cbn in Ha, Hb.
    exists (mkEmitter (mkAlloc af (ar + 1) ard (ah + 1 + 1) ap) (out ++ [cvt dt ah a; cvt dt (ah + 1) b; MovPack ar ah (ah + 1)])),
      (set_r ar word (set_h (ah + 1) (narrow u dt (rf s b)) (set_h ah (narrow u dt (rf s a)) s))).
    cbn [a_r em_alloc]. split; [lia|]. split; [cbn; by reg_lookup|]. do 3 (split; [done|]).
    intros f x e2 s2 [(c & Hf & Ho & Hc) Hle Hk]. split.
    - exists ([cvt dt ah a; cvt dt (ah + 1) b; MovPack ar ah (ah + 1)] ++ c). split; [|split].
      + unfold mbind, st_bind, new_h, new_r. rewrite put_all_run. unfold put. cbn. rewrite <- ?app_assoc. exact Hf.
      + rewrite Ho. cbn. by rewrite <- app_assoc.
      + rewrite exec_app.
        assert (Hcvt : forall h r st, exec1 u l st (cvt dt h r) = Some (set_h h (narrow u dt (rf st r)) st)) by (intros; by destruct Hdt as [-> | ->]).
        assert (Hone : exec u l [cvt dt ah a; cvt dt (ah + 1) b; MovPack ar ah (ah + 1)] s =
          Some (set_r ar word (set_h (ah + 1) (narrow u dt (rf s b)) (set_h ah (narrow u dt (rf s a)) s)))).
        { cbn [exec]. rewrite Hcvt. cbn [mbind option_bind]. rewrite Hcvt. cbn. by reg_lookup. }
        rewrite Hone. exact Hc.
    - etrans; [|exact Hle]. split; cbn; lia.
    - eapply keeps_trans; [| |exact Hk]; [split; cbn; lia|regs_kept]. }
  destruct Hhead as (e1 & s1 & Hlt & Hword & Hg1 & Hf1 & Haf & Hbind).
  destruct (IH vals e1 s1) as (w & e2 & s2 & He2 & Hg2 & Hw & Hwv); [cbn in Hl; lia|by rewrite Haf|].
  exists (a_r (em_alloc e) :: w), e2, s2. split; [|split; [by rewrite Hg2|split]].
  - apply Hbind. eapply emitted_bind; [exact He2|apply emitted_ret].
  - constructor; [|done]. destruct (emitted_alloc _ _ _ _ _ _ _ _ He2). lia.
  - cbn [map pack_words]. rewrite (keep_r _ _ _ (emitted_kept _ _ _ _ _ _ _ _ He2)) by done. rewrite Hword. f_equal.
    rewrite Hwv. by rewrite Hf1.
Qed.

(** The bytes a store leaves. *)
Definition stored_bytes (dt : Dtype) (vs : list Z) : str := mjoin (map (out_bytes u dt) vs).

Lemma mjoin_nil {A} (x : list A) : mjoin [x] = x.
Proof. cbn. apply app_nil_r. Qed.

Lemma emit_store_run dt lanes ad regs e s m' : lanes_fit dt lanes -> regs_ok lanes (em_alloc e) regs -> ad < a_rd (em_alloc e) ->
  aligned (rrd s ad) (Z.of_nat lanes * elem_bytes dt) = true -> allowed (l_wr l) (rrd s ad) (Z.of_nat lanes * elem_bytes dt) ->
  store_bytes (gm s) (rrd s ad) (stored_bytes dt (map (rf s) regs)) = Some m' ->
  exists e' s', emitted u l (emit_store dt lanes ad regs) e s tt e' s' /\ gm s' = m'.
Proof.
  intros Hfit [Hl Hr] Had Ha Hmay Hm. destruct Hfit as [[-> Hvw]|[Hdt [->|(k & -> & Hvw)]]].
  - assert (Hx : exec1 u l s (StF32 ad regs) = Some (set_gm m' s)).
    { cbn [exec1]. rewrite may_words by (rewrite Hl, Z.mul_comm; exact Hmay). unfold store_words. unfold zlen. rewrite length_map, Hl, Hvw. cbn [andb].
      replace (4 * Z.of_nat lanes) with (Z.of_nat lanes * elem_bytes FP32) by (cbn [elem_bytes]; lia). rewrite Ha.
      unfold stored_bytes in Hm. rewrite (map_ext _ (le_bytes 4)) in Hm by done. by rewrite Hm. }
    eexists _, _. split; [|shelve]. unfold emit_store. rewrite (proj2 (Nat.leb_le _ _)) by lia. rewrite take_ge by lia.
    apply over_emitted. eapply over_put; [exact Hx|apply keeps_set_gm, keeps_refl].
    Unshelve. done.
  - destruct regs as [|r [|]]; try discriminate Hl. apply Forall_cons in Hr as [Hr _].
    set (h := a_h (em_alloc e)).
    assert (Hcvt : exec1 u l s (cvt dt h r) = Some (set_h h (narrow u dt (rf s r)) s)) by (by destruct Hdt as [-> | ->]).
    assert (Hx : exec1 u l (set_h h (narrow u dt (rf s r)) s) (StB16 ad h) = Some (set_gm m' (set_h h (narrow u dt (rf s r)) s))).
    { cbn [exec1]. change (rrd (set_h h _ s) ad) with (rrd s ad). change (gm (set_h h _ s)) with (gm s).
      replace (aligned (rrd s ad) 2) with true by (rewrite <- Ha; by destruct Hdt as [-> | ->]).
      rewrite (proj2 (may_spec _ _ 2)) by (revert Hmay; by destruct Hdt as [-> | ->]). cbn [andb].
      unfold stored_bytes in Hm. cbn [map] in Hm. rewrite mjoin_nil in Hm. unfold out_bytes in Hm.
      replace (Z.to_nat (elem_bytes dt)) with 2%nat in Hm by (by destruct Hdt as [-> | ->]).
      cbn [rh set_h]. rewrite fn_lookup_insert. by rewrite Hm. }
    exists (mkEmitter (bump_h (em_alloc e)) (em_out e ++ [cvt dt h r; StB16 ad h])), (set_gm m' (set_h h (narrow u dt (rf s r)) s)).
    split; [|done]. apply (emitted_block u l _ _ _ _ _ [cvt dt h r; StB16 ad h]).
    + destruct Hdt as [-> | ->]; unfold emit_store, reg_at, mbind, st_bind, new_h; cbn -[put_all]; by rewrite put_all_run.
    + done.
    + cbn [exec]. rewrite Hcvt. cbn [mbind option_bind]. by rewrite Hx.
    + split; cbn; lia.
    + apply keeps_set_gm, keeps_set_h; [done|apply keeps_refl].
  - destruct (emit_packs_run dt k regs e s Hdt Hl Hr) as (w & e1 & s1 & He1 & Hg1 & Hw & Hwv).
    destruct (pack_bytes dt k (map (rf s) regs) Hdt) as [Hb Hpl]; [by rewrite length_map|].
    assert (Hrd : rrd s1 ad = rrd s ad) by (by apply (keep_rd _ _ _ (emitted_kept _ _ _ _ _ _ _ _ He1))).
    assert (Hx : exec1 u l s1 (StU32 ad w) = Some (set_gm m' s1)).
    { assert (Hlw : length w = k) by (by rewrite <- Hpl, <- Hwv, length_map). cbn [exec1]. rewrite Hrd, Hlw.
      rewrite may_words by (replace (4 * Z.of_nat k) with (Z.of_nat (2 * k) * elem_bytes dt); [exact Hmay|destruct Hdt as [-> | ->]; cbn [elem_bytes]; lia]).
      unfold store_words. rewrite Hwv, Hb, Hg1. unfold zlen. rewrite Hpl, Hvw. cbn [andb].
      replace (aligned (rrd s ad) (4 * Z.of_nat k)) with true.
      2: { rewrite <- Ha. f_equal. destruct Hdt as [-> | ->]; cbn [elem_bytes]; lia. }
      unfold stored_bytes in Hm. by rewrite Hm. }
    exists (mkEmitter (em_alloc e1) (em_out e1 ++ [StU32 ad w])), (set_gm m' s1). split; [|done].
    apply over_emitted. unfold emit_store. destruct Hdt as [-> | ->].
    all: replace (Nat.eqb (2 * k) 1) with false by (symmetry; apply Nat.eqb_neq; lia).
    all: replace (Nat.div (2 * k) 2) with k by (rewrite Nat.mul_comm, Nat.div_mul; lia).
    all: eapply over_bind; [by apply over_emitted|].
    all: apply over_put; [exact Hx|apply keeps_set_gm, keeps_refl].
Qed.
End Stores.
