(* ===== verification/PtxKernel.v ===== *)
(** * The elementwise kernel

    src/jit/ptx_emit_elementwise.cpp: one entry of the kernel of an elementwise
    plan, a grid-stride loop whose body loads the operands of [lanes] elements,
    evaluates the graph and stores the outputs; the module with its vector and
    its scalar entry. Then what a launch of an entry is: threads that step
    through the code, and the arguments and the grid
    src/jit/trace_compiler_cuda.cpp launches it with. *)
From S2P Require Import Prelude Dtype Device Heap Tensor TraceDag TracePlan Ptx PtxDiv PtxChain.

(** ** Emission *)

(** The registers of the byte offsets computed so far, by element size. *)
Record Offsets : Type := mkOffsets { full_off : gmap Z Z; row_off : gmap Z Z; col_off : gmap Z Z }.

(** Element, column and row index of the thread's first lane; an empty name is
    [None], and code that would print one does not assemble. *)
Record Indices : Type := mkIndices { ix_base : Z; ix_col : option Z; ix_row : option Z }.

Definition mul_offset (idx : option Z) (esz : Z) (tbl : gmap Z Z) : emit (Z * gmap Z Z) :=
  match tbl !! esz with
  | Some rd => mret (rd, tbl)
  | None =>
      rd ← new_rd;
      match idx with
      | Some i => _ ← put (MulWideU32 rd i esz); mret (rd, <[esz := rd]> tbl)
      | None => st_undef
      end
  end.

Definition offset_for (ix : Indices) (bk : BroadcastKind) (dt : Dtype) (o : Offsets) : emit (option Z * Offsets) :=
  let esz := elem_bytes dt in
  match bk with
  | BroadcastKind.Scalar => mret (None, o)
  | BroadcastKind.Row =>
      r ← mul_offset (ix_col ix) esz (row_off o); mret (Some r.1, mkOffsets (full_off o) r.2 (col_off o))
  | BroadcastKind.Col =>
      r ← mul_offset (ix_row ix) esz (col_off o); mret (Some r.1, mkOffsets (full_off o) (row_off o) r.2)
  | BroadcastKind.Full =>
      r ← mul_offset (Some (ix_base ix)) esz (full_off o); mret (Some r.1, mkOffsets r.2 (row_off o) (col_off o))
  end.

(** The base pointers of the parameters. *)
Fixpoint load_pointers (mk : Z -> param) (i : Z) (specs : list BufferSpec) : emit (list Z) :=
  match specs with
  | [] => mret []
  | _ :: r => rd ← new_rd; _ ← put (LdParamU64 rd (mk i)); rds ← load_pointers mk (i + 1) r; mret (rd :: rds)
  end.

(** The address of the thread's part of a buffer. *)
Definition buffer_address (ix : Indices) (base : Z) (s : BufferSpec) (o : Offsets) : emit (Z * Offsets) :=
  match bs_bcast s with
  | BroadcastKind.Scalar => mret (base, o)
  | bk =>
      r ← offset_for ix bk (bs_dtype s) o;
      match r.1 with
      | Some off => addr ← new_rd; _ ← put (AddU64 addr base off); mret (addr, r.2)
      | None => st_undef
      end
  end.

Definition single_lane (bk : BroadcastKind) : bool :=
  BroadcastKind.eqb bk BroadcastKind.Scalar || BroadcastKind.eqb bk BroadcastKind.Col.

Fixpoint load_inputs (ix : Indices) (lanes : nat) (specs : list BufferSpec) (ptrs : list Z) (o : Offsets) (vals : ValueMap)
    : emit (Offsets * ValueMap) :=
  match specs, ptrs with
  | [], _ => mret (o, vals)
  | s :: specs, base :: ptrs =>
      r ← buffer_address ix base s o;
      v ← emit_load (bs_dtype s) (if single_lane (bs_bcast s) then 1%nat else lanes) r.1;
      v ← (if single_lane (bs_bcast s) then only ← reg_at v 0; mret (replicate lanes only) else mret v);
      load_inputs ix lanes specs ptrs r.2 (<[bs_node s := v]> vals)
  | _, [] => st_undef
  end.

Fixpoint store_outputs (ix : Indices) (lanes : nat) (specs : list BufferSpec) (ptrs : list Z) (o : Offsets) (vals : ValueMap)
    : emit unit :=
  match specs, ptrs with
  | [], _ => mret tt
  | s :: specs, base :: ptrs =>
      r ← offset_for ix BroadcastKind.Full (bs_dtype s) o;
      match r.1 with
      | Some off =>
          addr ← new_rd;
          _ ← put (AddU64 addr base off);
          v ← vals_at vals (bs_node s);
          _ ← emit_store (bs_dtype s) lanes addr v;
          store_outputs ix lanes specs ptrs r.2 vals
      | None => st_undef
      end
  | _, [] => st_undef
  end.

(** Row and column of the thread's first lane. *)
Definition emit_indices (plan : ElementwisePlan) (r_base : Z) : emit Indices :=
  if p_row_bcast plan && p_col_bcast plan then
    qr ← emit_udiv_urem_const r_base (p_cols plan); mret (mkIndices r_base (Some qr.2) (Some qr.1))
  else if p_row_bcast plan then
    if is_pow2 (p_cols plan) then
      r_col ← new_r; _ ← put (AndB32 r_col r_base (p_cols plan - 1)); mret (mkIndices r_base (Some r_col) None)
    else qr ← emit_udiv_urem_const r_base (p_cols plan); mret (mkIndices r_base (Some qr.2) None)
  else if p_col_bcast plan then
    r_row ← emit_udiv_const r_base (p_cols plan); mret (mkIndices r_base None (Some r_row))
  else mret (mkIndices r_base None None).

(** The body of the loop for the index in [r_i]. *)
Definition emit_ew_body (ns : list TraceNode) (plan : ElementwisePlan) (lanes : nat) (out_ptr in_ptr : list Z) (r_i : Z)
    : emit unit :=
  r_base ← (if Nat.ltb 1 lanes then
              r ← new_r; _ ← put (ShlB32 r r_i (if Nat.eqb lanes 2 then 1 else if Nat.eqb lanes 4 then 2 else 3)); mret r
            else mret r_i);
  ix ← emit_indices plan r_base;
  ov ← load_inputs ix lanes (p_inputs plan) in_ptr (mkOffsets ∅ ∅ ∅) ∅;
  vals ← emit_chain ns lanes ov.2 None;
  store_outputs ix lanes (p_outputs plan) out_ptr ov.1 vals.

(** The registers the entry sets up before its loop. *)
Record EntryRegs : Type := mkRegs { g_n : Z; g_i : Z; g_stride : Z; g_oob : Z; g_out : list Z; g_in : list Z }.

Definition emit_ew_prologue (plan : ElementwisePlan) : emit EntryRegs :=
  r_n ← new_r; r_tid ← new_r; r_ntid ← new_r; r_ctaid ← new_r; r_nctaid ← new_r; r_i ← new_r; r_stride ← new_r;
  p_oob ← new_p;
  _ ← put (LdParamU32 r_n PN);
  out_ptr ← load_pointers POut 0 (p_outputs plan);
  in_ptr ← load_pointers PIn 0 (p_inputs plan);
  _ ← put_all
    [MovSpecial r_tid TidX; MovSpecial r_ntid NtidX; MovSpecial r_ctaid CtaidX; MovSpecial r_nctaid NctaidX;
     MadLoU32 r_i r_ctaid r_ntid r_tid; MulLoReg r_stride r_ntid r_nctaid];
  mret (mkRegs r_n r_i r_stride p_oob out_ptr in_ptr).

Definition emit_ew_code (ns : list TraceNode) (plan : ElementwisePlan) (lanes : nat) : emit unit :=
  g ← emit_ew_prologue plan;
  _ ← put_all [Label Head; SetpGeU32 (g_oob g) (g_i g) (g_n g); BraIf (g_oob g) Exit];
  _ ← emit_ew_body ns plan lanes (g_out g) (g_in g) (g_i g);
  put_all [AddU32 (g_i g) (g_i g) (g_stride g); Bra Head; Label Exit; RetI].

Definition empty_emitter : emitter := mkEmitter (mkAlloc 0 0 0 0 0) [].

(** The parameters of an entry, one to a line. *)
Fixpoint param_lines (name : str) (mk : Z -> param) (i : Z) (specs : list BufferSpec) : str :=
  match specs with
  | [] => []
  | _ :: r => lit "    .param .u64 " ++ param_text name (mk i) ++ lit "," ++ [x0a] ++ param_lines name mk (i + 1) r
  end.

(** The text of an entry. *)
Definition emit_ew_entry (ns : list TraceNode) (plan : ElementwisePlan) (lanes : nat) (name : str) : res str :=
  match emit_ew_code ns plan lanes empty_emitter with
  | (Ret _, e) =>
      Ret (lit ".visible .entry " ++ name ++ lit "(" ++ [x0a] ++
           param_lines name POut 0 (p_outputs plan) ++ param_lines name PIn 0 (p_inputs plan) ++
           lit "    .param .u32 " ++ name ++ lit "_n" ++ [x0a] ++
           lit ") {" ++ [x0a] ++ declarations (em_alloc e) ++ mjoin (map (instr_text name) (em_out e)) ++
           lit "}" ++ [x0a; x0a])
  | (Throw m, _) => Throw m
  | (Undef, _) => Undef
  end.

Definition kEntryVec : str := lit "trace_ew_vec".
Definition kEntryScalar : str := lit "trace_ew_scalar".

Definition emit_elementwise (d : TraceDAG) (plan : ElementwisePlan) (arch : str) : res str :=
  v ← emit_ew_entry (nodes_ d) plan (Z.to_nat (p_vec plan)) kEntryVec;
  s ← emit_ew_entry (nodes_ d) plan 1 kEntryScalar;
  mret (lit ".version 7.8" ++ [x0a] ++ lit ".target " ++ arch ++ [x0a] ++ lit ".address_size 64" ++ [x0a; x0a] ++ v ++ s).

(** ** Running an entry *)
Section Run.
Context (u : fpu) (l : launch) (code : list instr).

Definition label_eqb (a b : label) : bool := match a, b with Head, Head | Exit, Exit => true | _, _ => false end.

(** Where a label is. *)
Fixpoint find_label (i : nat) (c : list instr) (x : label) : option nat :=
  match c with
  | [] => None
  | Label y :: r => if label_eqb y x then Some i else find_label (S i) r x
  | _ :: r => find_label (S i) r x
  end.

(** A step of a thread. *)
Inductive step : nat * thread -> nat * thread -> Prop :=
  | step_exec pc s i s' : code !! pc = Some i -> exec1 u l s i = Some s' -> step (pc, s) (S pc, s')
  | step_label pc s x : code !! pc = Some (Label x) -> step (pc, s) (S pc, s)
  | step_bra pc s x t : code !! pc = Some (Bra x) -> find_label 0 code x = Some t -> step (pc, s) (t, s)
  | step_taken pc s p x t : code !! pc = Some (BraIf p x) -> rp s p = true -> find_label 0 code x = Some t -> step (pc, s) (t, s)
  | step_fall pc s p x : code !! pc = Some (BraIf p x) -> rp s p = false -> step (pc, s) (S pc, s).

(** The thread runs to its [ret] and leaves this memory. *)
Definition returns (s : thread) (m : gmap Z byte) : Prop :=
  exists pc s', rtc step (0%nat, s) (pc, s') /\ code !! pc = Some RetI /\ gm s' = m.
End Run.

(** ** The launch: [bind] of [compile_elementwise] *)
Definition ptr_aligned (p bytes : Z) : bool := p mod bytes =? 0.

(** Which entry, how many slots it is given, and its grid. *)
Definition access_bytes (lanes : Z) (s : BufferSpec) : Z :=
  if BroadcastKind.eqb (bs_bcast s) BroadcastKind.Scalar then elem_bytes (bs_dtype s) else lanes * elem_bytes (bs_dtype s).
Definition use_vec (plan : ElementwisePlan) (ins outs : list Z) : bool :=
  (p_vec plan >? 1) &&
  forallb (fun sp => ptr_aligned sp.2 (access_bytes (p_vec plan) sp.1)) (zip (p_inputs plan) ins) &&
  forallb (fun sp => ptr_aligned sp.2 (p_vec plan * elem_bytes (bs_dtype sp.1))) (zip (p_outputs plan) outs).
Definition slots (plan : ElementwisePlan) (vec : bool) : Z := if vec then Z.quot (p_numel plan) (p_vec plan) else p_numel plan.
Definition grid (n : Z) : Z :=
  let g := u32 (Z.quot (n + 255) 256) in
  let g := if g =? 0 then 1 else g in
  if g >? 65535 then 65535 else g.

(** The threads of the launch. *)
Definition thread_launch (plan : ElementwisePlan) (ins outs : list Z) (ctaid tid : Z) : launch :=
  let n := slots plan (use_vec plan ins outs) in
  mkLaunch tid 256 ctaid (grid n) (u32 n) outs ins anywhere anywhere.

(** The lanes of the entry that is launched, and its threads. *)
Definition launch_lanes (plan : ElementwisePlan) (ins outs : list Z) : nat :=
  if use_vec plan ins outs then Z.to_nat (p_vec plan) else 1%nat.
Definition launch_grid (plan : ElementwisePlan) (ins outs : list Z) : Z := grid (slots plan (use_vec plan ins outs)).
Definition launch_threads (plan : ElementwisePlan) (ins outs : list Z) : list launch :=
  map (fun k => thread_launch plan ins outs (k / 256) (k mod 256)) (seqZ 0 (256 * launch_grid plan ins outs)).
