(* ===== verification/PtxBody.v ===== *)
(** * The body of the elementwise kernel

    What one round of the kernel's loop does to memory: it reads, for each of
    its [lanes] elements, the element of every input that the input's broadcast
    names, and stores the values of the graph's outputs. *)
From stdpp Require Import functions.
From S2P Require Import Prelude Dtype Device Heap Tensor TraceDag TraceSpec TracePlan TracePlanSpec Ptx PtxSpec PtxDiv PtxChain PtxChainSpec PtxMemory PtxKernel.

(** What the plan of a graph gives the emitter, for an entry of [lanes] lanes. *)
Record entry_ok (ns : list TraceNode) (plan : ElementwisePlan) (lanes : nat) : Prop := {
  po_nodes : wf_nodes ns;
  po_forms : forall id n, node_at ns id = Some n -> n_op n <> TraceOpKind.Input -> has_form n = true;
  po_cols : 1 <= p_cols plan <= INT_MAX;
  po_lanes : (lanes = 1 \/ lanes = 2 \/ lanes = 4 \/ lanes = 8)%nat;
  po_bcast : p_row_bcast plan = true \/ p_col_bcast plan = true -> (Z.of_nat lanes | p_cols plan);
  po_inputs : forall s, s ∈ p_inputs plan -> lanes_fit (bs_dtype s) lanes /\
    (bs_bcast s = BroadcastKind.Row -> p_row_bcast plan = true) /\ (bs_bcast s = BroadcastKind.Col -> p_col_bcast plan = true);
  po_distinct : NoDup (map bs_node (p_inputs plan));
  po_seeds : forall id n, node_at ns id = Some n -> n_op n = TraceOpKind.Input -> id ∈ map bs_node (p_inputs plan);
  po_seeded : forall s, s ∈ p_inputs plan -> exists n, node_at ns (bs_node s) = Some n /\ n_op n = TraceOpKind.Input;
  po_outputs : forall s, s ∈ p_outputs plan -> lanes_fit (bs_dtype s) lanes /\
    exists n, node_at ns (bs_node s) = Some n /\ n_live n = true
}.

(** The pointer registers hold the buffers' addresses. *)
Definition ptrs_ok (ptrs ps : list Z) (e : emitter) (s : thread) : Prop :=
  Forall2 (fun r p => r < a_rd (em_alloc e) /\ rrd s r = p) ptrs ps.

Lemma ptrs_ok_keep ptrs ps e s e' s' : ptrs_ok ptrs ps e s -> alloc_le (em_alloc e) (em_alloc e') -> keeps (em_alloc e) s s' -> ptrs_ok ptrs ps e' s'.
Proof.
  intros H Hle Hk. eapply Forall2_impl; [exact H|]. cbn. intros r p [Hr Hv]. pose proof (le_rd _ _ Hle).
  split; [lia|]. by rewrite (keep_rd _ _ _ Hk).
Qed.

Section Body.
Context (u : fpu) (l : launch) (ns : list TraceNode) (plan : ElementwisePlan) (lanes : nat) (Hplan : entry_ok ns plan lanes).
Context (ins outs : list Z).
Let cols := p_cols plan.
Let L := Z.of_nat lanes.

(** An access of the entry: how many lanes it moves, and that it stays in
    [mapped] memory at an address aligned for it. *)
Definition access (s : BufferSpec) : nat := if single_lane (bs_bcast s) then 1%nat else lanes.

(** Memory holds what the round of index [i] reads and writes. *)
Record round_ok (i : Z) (m : gmap Z byte) : Prop := {
  ro_index : 0 <= i /\ (i + 1) * L <= 2 ^ 32;
  ro_ins : length ins = length (p_inputs plan) /\ forall k s p, p_inputs plan !! k = Some s -> ins !! k = Some p ->
    0 <= p /\ aligned p (Z.of_nat (access s) * elem_bytes (bs_dtype s)) = true /\
    forall j, 0 <= j < L -> let a := p + element (bs_bcast s) cols (i * L + j) * elem_bytes (bs_dtype s) in
      a + elem_bytes (bs_dtype s) <= 2 ^ 64 /\ mapped m a (elem_bytes (bs_dtype s)) /\ allowed (l_rd l) a (elem_bytes (bs_dtype s));
  ro_outs : length outs = length (p_outputs plan) /\ forall k s q, p_outputs plan !! k = Some s -> outs !! k = Some q ->
    0 <= q /\ aligned q (L * elem_bytes (bs_dtype s)) = true /\
    let a := q + i * L * elem_bytes (bs_dtype s) in
      a + L * elem_bytes (bs_dtype s) <= 2 ^ 64 /\ mapped m a (L * elem_bytes (bs_dtype s)) /\
      allowed (l_wr l) a (L * elem_bytes (bs_dtype s))
}.

(** The values of the graph at element [x] of the dominant shape: inputs from
    memory, every other node computed from its operands. *)
Definition graph_value (m : gmap Z byte) (x : Z) (val : Z -> option Z) : Prop :=
  (forall k s p, p_inputs plan !! k = Some s -> ins !! k = Some p ->
     exists v, elem u (bs_dtype s) m p (element (bs_bcast s) cols x) = Some v /\ val (bs_node s) = Some v) /\
  (forall id n v, node_at ns id = Some n -> n_op n <> TraceOpKind.Input -> val id = Some v -> computes u ns val n v).

(** The stores of a round, in the order of the outputs. *)
Fixpoint store_all (i : Z) (specs : list BufferSpec) (qs : list Z) (ov : Z -> list Z) (m : gmap Z byte) : option (gmap Z byte) :=
  match specs, qs with
  | s :: specs, q :: qs =>
      m ← store_bytes m (q + i * L * elem_bytes (bs_dtype s)) (stored_bytes u (bs_dtype s) (ov (bs_node s)));
      store_all i specs qs ov m
  | _, _ => Some m
  end.

Definition round (i : Z) (m m' : gmap Z byte) : Prop :=
  exists ov : Z -> list Z,
    (forall s, s ∈ p_outputs plan -> length (ov (bs_node s)) = lanes) /\
    (forall j, (j < lanes)%nat -> exists val, graph_value m (i * L + Z.of_nat j) val /\
       forall s, s ∈ p_outputs plan -> exists v, ov (bs_node s) !! j = Some v /\ val (bs_node s) = Some v) /\
    store_all i (p_outputs plan) outs ov m = Some m'.

(** ** Elements and lanes *)
Lemma entry_lanes_pos : 1 <= L.
Proof. unfold L. destruct (po_lanes _ _ _ Hplan) as [->|[->|[->| ->]]]; lia. Qed.

(** Lane [j] of an access is element [j] from the first lane's. *)
Lemma element_lane s i j : s ∈ p_inputs plan -> 0 <= i -> 0 <= j < L -> single_lane (bs_bcast s) = false ->
  element (bs_bcast s) cols (i * L + j) = element (bs_bcast s) cols (i * L) + j.
Proof.
  intros Hs Hi Hj Hsl. destruct (po_inputs _ _ _ Hplan s Hs) as (_ & Hrow & _). pose proof (po_cols _ _ _ Hplan) as Hc.
  destruct (bs_bcast s); try discriminate Hsl; cbn [element]; [done|].
  destruct (po_bcast _ _ _ Hplan) as [c Hcl]; [left; by apply Hrow|]. fold cols L in Hcl. fold cols in Hc.
  assert (Hm : i * L mod cols = (i mod c) * L).
  { rewrite Hcl. apply Z.mul_mod_distr_r; nia. }
  assert (Hb : 0 <= i mod c < c) by (apply Z.mod_pos_bound; nia).
  rewrite <- Z.add_mod_idemp_l by lia. rewrite Hm. apply Z.mod_small. nia.
Qed.

Lemma element_single s i j : s ∈ p_inputs plan -> 0 <= i -> 0 <= j < L -> single_lane (bs_bcast s) = true ->
  element (bs_bcast s) cols (i * L + j) = element (bs_bcast s) cols (i * L).
Proof.
  intros Hs Hi Hj Hsl. destruct (po_inputs _ _ _ Hplan s Hs) as (_ & _ & Hcol). pose proof (po_cols _ _ _ Hplan) as Hc.
  destruct (bs_bcast s); try discriminate Hsl; cbn [element]; [done|].
  destruct (po_bcast _ _ _ Hplan) as [c Hcl]; [right; by apply Hcol|]. fold cols L in Hcl. fold cols in Hc.
  assert (Hc0 : 0 < c) by nia. pose proof entry_lanes_pos.
  rewrite Hcl. rewrite (Z.mul_comm c L). rewrite <- !Z.div_div by lia.
  f_equal. rewrite Z.div_add_l by lia. rewrite Z.div_mul by lia. rewrite Z.div_small by lia. lia.
Qed.

Lemma element_nonneg bk x : 0 <= x -> 0 <= element bk cols x.
Proof.
  intros Hx. pose proof (po_cols _ _ _ Hplan) as Hc. fold cols in Hc. destruct bk; cbn [element]; [done| |done|].
  - apply Z.mod_pos_bound. lia.
  - apply Z.div_pos; lia.
Qed.

(** The first element of an access is a multiple of its lanes. *)
Lemma element_aligned s i : s ∈ p_inputs plan -> 0 <= i -> (Z.of_nat (access s) | element (bs_bcast s) cols (i * L)).
Proof.
  intros Hs Hi. unfold access. destruct (single_lane (bs_bcast s)) eqn:Hsl; [apply Z.divide_1_l|].
  destruct (po_inputs _ _ _ Hplan s Hs) as (_ & Hrow & _).
  destruct (bs_bcast s); try discriminate Hsl; cbn [element]; [by exists i|].
  destruct (po_bcast _ _ _ Hplan) as [c Hcl]; [left; by apply Hrow|]. fold cols L in Hcl. pose proof (po_cols _ _ _ Hplan) as Hc. fold cols in Hc.
  exists (i mod c). rewrite Hcl. apply Z.mul_mod_distr_r; nia.
Qed.

Lemma lanes_fit_bytes dt k : lanes_fit dt k -> 2 <= elem_bytes dt <= 4.
Proof. by intros [[-> _]|[[-> | ->] _]]. Qed.

Lemma lanes_fit_one dt k : lanes_fit dt k -> lanes_fit dt 1.
Proof. intros [[-> _]|[Hdt _]]; [by left|right; split; [done|by left]]. Qed.

Lemma access_fit s : s ∈ p_inputs plan -> lanes_fit (bs_dtype s) (access s).
Proof.
  intros Hs. destruct (po_inputs _ _ _ Hplan s Hs) as (Hf & _). unfold access.
  destruct (single_lane (bs_bcast s)); [by eapply lanes_fit_one|done].
Qed.

Lemma aligned_add p w k : aligned p w = true -> 0 < w -> (w | k) -> aligned (p + k) w = true.
Proof.
  unfold aligned. intros Hp%Z.eqb_eq Hw [c ->]. apply Z.eqb_eq. by rewrite Z.mod_add by lia.
Qed.

(** ** The indices of a round *)
Section Round.
Context (i : Z) (Hi : 0 <= i) (Hi32 : (i + 1) * L <= 2 ^ 32).
Let base := i * L.

Lemma base_range : 0 <= base < 2 ^ 32.
Proof. unfold base. pose proof entry_lanes_pos. nia. Qed.

Lemma emit_base_run r_i e s : r_i < a_r (em_alloc e) -> rr s r_i = i ->
  yields u l (if Nat.ltb 1 lanes then
    r ← new_r; _ ← put (ShlB32 r r_i (if Nat.eqb lanes 2 then 1 else if Nat.eqb lanes 4 then 2 else 3)); mret r
    else mret r_i) e s base.
Proof.
  intros Hr Hv. pose proof base_range as Hb. unfold base, L in *.
  destruct (po_lanes _ _ _ Hplan) as [E|[E|[E|E]]]; rewrite E in *; cbn [Nat.ltb Nat.leb Nat.eqb].
  - replace (i * Z.of_nat 1) with (rr s r_i) by lia. by apply yields_ret.
  - replace (i * Z.of_nat 2) with (i * 2 ^ 1) in * by lia.
    apply (yields_step u l (fun r => ShlB32 r r_i 1) (fun s => u32 (Z.shiftl (rr s r_i) 1))); [done|].
    intros e1 s1 Ha H1 _. rewrite Z.shiftl_mul_pow2, Hv, u32_id in H1 by (lia || done). rewrite <- H1. apply yields_ret. rewrite Ha. cbn. lia.
  - replace (i * Z.of_nat 4) with (i * 2 ^ 2) in * by lia.
    apply (yields_step u l (fun r => ShlB32 r r_i 2) (fun s => u32 (Z.shiftl (rr s r_i) 2))); [done|].
    intros e1 s1 Ha H1 _. rewrite Z.shiftl_mul_pow2, Hv, u32_id in H1 by (lia || done). rewrite <- H1. apply yields_ret. rewrite Ha. cbn. lia.
  - replace (i * Z.of_nat 8) with (i * 2 ^ 3) in * by lia.
    apply (yields_step u l (fun r => ShlB32 r r_i 3) (fun s => u32 (Z.shiftl (rr s r_i) 3))); [done|].
    intros e1 s1 Ha H1 _. rewrite Z.shiftl_mul_pow2, Hv, u32_id in H1 by (lia || done). rewrite <- H1. apply yields_ret. rewrite Ha. cbn. lia.
Qed.

(** The index registers hold the indices the broadcasts use. *)
Record ix_ok (ix : Indices) (e : emitter) (s : thread) : Prop := {
  ixo_base : ix_base ix < a_r (em_alloc e) /\ rr s (ix_base ix) = base;
  ixo_col : p_row_bcast plan = true -> exists r, ix_col ix = Some r /\ r < a_r (em_alloc e) /\ rr s r = base mod cols;
  ixo_row : p_col_bcast plan = true -> exists r, ix_row ix = Some r /\ r < a_r (em_alloc e) /\ rr s r = base / cols
}.

Lemma ix_ok_keep ix e s e' s' : ix_ok ix e s -> alloc_le (em_alloc e) (em_alloc e') -> keeps (em_alloc e) s s' -> ix_ok ix e' s'.
Proof.
  intros [[Hb Hbv] Hc Hr] Hle Hk. pose proof (le_r _ _ Hle). split.
  - split; [lia|]. by rewrite (keep_r _ _ _ Hk).
  - intros Hf. destruct (Hc Hf) as (r & ? & ? & ?). exists r. split_and!; [done|lia|]. by rewrite (keep_r _ _ _ Hk).
  - intros Hf. destruct (Hr Hf) as (r & ? & ? & ?). exists r. split_and!; [done|lia|]. by rewrite (keep_r _ _ _ Hk).
Qed.

Lemma emit_indices_run r_base e s : r_base < a_r (em_alloc e) -> rr s r_base = base ->
  exists ix e' s', emitted u l (emit_indices plan r_base) e s ix e' s' /\ gm s' = gm s /\ ix_ok ix e' s'.
Proof.
  intros Hr Hv. pose proof base_range as Hb. pose proof (po_cols _ _ _ Hplan) as Hc. unfold emit_indices.
  assert (Hmagic : exists q r e' s', emitted u l (emit_udiv_urem_const r_base (p_cols plan)) e s (q, r) e' s' /\
    q < a_r (em_alloc e') /\ r < a_r (em_alloc e') /\ rr s' q = base / cols /\ rr s' r = base mod cols /\ gm s' = gm s).
  { by apply (emit_udiv_urem_const_run u l r_base (p_cols plan) base e s). }
  assert (Hkeepb : forall {A} (m : emit A) a e' s', emitted u l m e s a e' s' -> r_base < a_r (em_alloc e') /\ rr s' r_base = base).
  { intros A m a e' s' [_ Hle Hk]. split; [pose proof (le_r _ _ Hle); lia|]. by rewrite (keep_r _ _ _ Hk). }
  destruct (p_row_bcast plan) eqn:Erow, (p_col_bcast plan) eqn:Ecol; cbn [andb].
  - destruct Hmagic as (q & r & e' & s' & He & Hq & Hr' & Hqv & Hrv & Hg).
    exists (mkIndices r_base (Some r) (Some q)), e', s'. split; [eapply emitted_bind; [exact He|apply emitted_ret]|]. split; [done|].
    split; [by apply (Hkeepb _ _ _ _ _ He)|intros _; by exists r|intros _; by exists q].
  - destruct (is_pow2 (p_cols plan)) eqn:Ep.
    + set (r := a_r (em_alloc e)).
      assert (He : emitted u l (r_col ← new_r; _ ← put (AndB32 r_col r_base (p_cols plan - 1)); mret (mkIndices r_base (Some r_col) None))
        e s (mkIndices r_base (Some r) None) (mkEmitter (bump_r (em_alloc e)) (em_out e ++ [AndB32 r r_base (p_cols plan - 1)]))
        (set_r r (Z.land (rr s r_base) (u32 (p_cols plan - 1))) s)).
      { apply (emitted_block u l _ _ _ _ _ [AndB32 r r_base (p_cols plan - 1)]); try done; [split; cbn; lia|].
        apply keeps_set_r; [done|apply keeps_refl]. }
      eexists _, _, _. split; [exact He|]. split; [done|]. split; [by apply (Hkeepb _ _ _ _ _ He)| |by rewrite Ecol].
      intros _. exists r. split; [done|]. split; [cbn; unfold r; lia|]. cbn. rewrite fn_lookup_insert, Hv, u32_id by (unfold INT_MAX in Hc; lia).
      by apply is_pow2_land.
    + destruct Hmagic as (q & r & e' & s' & He & Hq & Hr' & Hqv & Hrv & Hg).
      exists (mkIndices r_base (Some r) None), e', s'. split; [eapply emitted_bind; [exact He|apply emitted_ret]|]. split; [done|].
      split; [by apply (Hkeepb _ _ _ _ _ He)|intros _; by exists r|by rewrite Ecol].
  - destruct (emit_udiv_const_run u l (p_cols plan) r_base e s Hc Hr) as (q & e' & s' & He & Hq & Hqv & Hg); [by rewrite Hv|].
    rewrite Hv in Hqv. exists (mkIndices r_base None (Some q)), e', s'. split; [eapply emitted_bind; [exact He|apply emitted_ret]|].
    split; [done|]. split; [by apply (Hkeepb _ _ _ _ _ He)|by rewrite Erow|intros _; by exists q].
  - exists (mkIndices r_base None None), e, s. split; [apply emitted_ret|]. split; [done|].
    split; [done|by rewrite Erow|by rewrite Ecol].
Qed.

(** ** Offsets and addresses *)
Definition tbl_ok (tbl : gmap Z Z) (v : Z) (e : emitter) (s : thread) : Prop :=
  forall esz rd, tbl !! esz = Some rd -> rd < a_rd (em_alloc e) /\ rrd s rd = v * esz.

Record offs_ok (o : Offsets) (e : emitter) (s : thread) : Prop := {
  oo_full : tbl_ok (full_off o) base e s;
  oo_row : tbl_ok (row_off o) (base mod cols) e s;
  oo_col : tbl_ok (col_off o) (base / cols) e s
}.

Lemma tbl_ok_keep tbl v e s e' s' : tbl_ok tbl v e s -> alloc_le (em_alloc e) (em_alloc e') -> keeps (em_alloc e) s s' -> tbl_ok tbl v e' s'.
Proof.
  intros H Hle Hk esz rd Hr. destruct (H esz rd Hr) as [Hlt Hv]. pose proof (le_rd _ _ Hle).
  split; [lia|]. by rewrite (keep_rd _ _ _ Hk).
Qed.
Lemma offs_ok_keep o e s e' s' : offs_ok o e s -> alloc_le (em_alloc e) (em_alloc e') -> keeps (em_alloc e) s s' -> offs_ok o e' s'.
Proof. intros [] Hle Hk. split; by eapply tbl_ok_keep. Qed.
Lemma offs_ok_empty e s : offs_ok (mkOffsets ∅ ∅ ∅) e s.
Proof. split; intros esz rd H; cbn [full_off row_off col_off] in H; by apply lookup_empty_Some in H. Qed.

Lemma mul_offset_run idx v esz tbl e s : tbl_ok tbl v e s -> (exists r, idx = Some r /\ rr s r = v) ->
  exists rd tbl' e' s', emitted u l (mul_offset idx esz tbl) e s (rd, tbl') e' s' /\ gm s' = gm s /\
    tbl_ok tbl' v e' s' /\ rd < a_rd (em_alloc e') /\ rrd s' rd = v * esz.
Proof.
  intros Ht (r & -> & Hv). unfold mul_offset. destruct (tbl !! esz) as [rd|] eqn:E.
  - exists rd, tbl, e, s. split; [apply emitted_ret|]. destruct (Ht esz rd E). by split_and!.
  - set (rd := a_rd (em_alloc e)). exists rd, (<[esz := rd]> tbl), (mkEmitter (bump_rd (em_alloc e)) (em_out e ++ [MulWideU32 rd r esz])),
      (set_rd rd (rr s r * esz) s).
    assert (He : emitted u l (rd0 ← new_rd; _ ← put (MulWideU32 rd0 r esz); mret (rd0, <[esz := rd0]> tbl)) e s (rd, <[esz := rd]> tbl)
      (mkEmitter (bump_rd (em_alloc e)) (em_out e ++ [MulWideU32 rd r esz])) (set_rd rd (rr s r * esz) s)).
    { apply (emitted_block u l _ _ _ _ _ [MulWideU32 rd r esz]); try done; [split; cbn; lia|].
      apply keeps_set_rd; [done|apply keeps_refl]. }
    split; [exact He|]. split; [done|]. split; [|split; [cbn; unfold rd; lia|cbn; rewrite fn_lookup_insert; by rewrite Hv]].
    intros esz' rd' Hl. destruct (decide (esz' = esz)) as [->|Hne].
    + rewrite lookup_insert_eq in Hl. injection Hl as <-. cbn. split; [unfold rd; lia|]. rewrite fn_lookup_insert. by rewrite Hv.
    + rewrite lookup_insert_ne in Hl by done. destruct He as [_ Hle Hk]. by apply (tbl_ok_keep tbl v e s).
Qed.

(** The offset of a kind of operand; a kind that needs an index has it. *)
Definition kind_ok (bk : BroadcastKind) : Prop :=
  (bk = BroadcastKind.Row -> p_row_bcast plan = true) /\ (bk = BroadcastKind.Col -> p_col_bcast plan = true).

Lemma offset_for_run ix bk dt o e s : ix_ok ix e s -> offs_ok o e s -> kind_ok bk -> bk <> BroadcastKind.Scalar ->
  exists rd o' e' s', emitted u l (offset_for ix bk dt o) e s (Some rd, o') e' s' /\ gm s' = gm s /\ offs_ok o' e' s' /\
    rd < a_rd (em_alloc e') /\ rrd s' rd = element bk cols base * elem_bytes dt.
Proof.
  intros Hix [Hfull Hrow Hcol] [Hkr Hkc] Hns.
  assert (Hkeep : forall {A} (m : emit A) a e' s', emitted u l m e s a e' s' -> forall tbl v, tbl_ok tbl v e s -> tbl_ok tbl v e' s').
  { intros A m a e' s' [_ Hle Hk] tbl v H. by eapply tbl_ok_keep. }
  destruct bk; try done; unfold offset_for; cbn [element].
  - destruct (mul_offset_run (Some (ix_base ix)) base (elem_bytes dt) (full_off o) e s Hfull) as (rd & tbl & e' & s' & He & Hg & Ht & Hr & Hv).
    { exists (ix_base ix). by destruct Hix as [[]]. }
    eexists rd, _, e', s'. split; [eapply emitted_bind; [exact He|apply emitted_ret]|]. split; [done|]. split; [|done].
    split; [done|by apply (Hkeep _ _ _ _ _ He)..].
  - destruct (mul_offset_run (ix_col ix) (base mod cols) (elem_bytes dt) (row_off o) e s Hrow) as (rd & tbl & e' & s' & He & Hg & Ht & Hr & Hv).
    { destruct (ixo_col _ _ _ Hix) as (r & ? & ? & ?); [auto|]. by exists r. }
    eexists rd, _, e', s'. split; [eapply emitted_bind; [exact He|apply emitted_ret]|]. split; [done|]. split; [|done].
    split; [by apply (Hkeep _ _ _ _ _ He)|done|by apply (Hkeep _ _ _ _ _ He)].
  - destruct (mul_offset_run (ix_row ix) (base / cols) (elem_bytes dt) (col_off o) e s Hcol) as (rd & tbl & e' & s' & He & Hg & Ht & Hr & Hv).
    { destruct (ixo_row _ _ _ Hix) as (r & ? & ? & ?); [auto|]. by exists r. }
    eexists rd, _, e', s'. split; [eapply emitted_bind; [exact He|apply emitted_ret]|]. split; [done|]. split; [|done].
    split; [by apply (Hkeep _ _ _ _ _ He)|by apply (Hkeep _ _ _ _ _ He)|done].
Qed.

(** [a.RD()] and the addition of an offset to a base pointer. *)
Lemma emitted_add p rd e s {A} (f : Z -> emit A) a e2 s2 :
  let addr := a_rd (em_alloc e) in
  emitted u l (f addr) (mkEmitter (bump_rd (em_alloc e)) (em_out e ++ [AddU64 addr p rd])) (set_rd addr (u64 (rrd s p + rrd s rd)) s) a e2 s2 ->
  emitted u l (addr ← new_rd; _ ← put (AddU64 addr p rd); f addr) e s a e2 s2.
Proof.
  intros addr [(c & Hf & Ho & Hx) Hle Hk]. split.
  - exists (AddU64 addr p rd :: c). split; [exact Hf|]. split; [rewrite Ho; cbn; by rewrite <- app_assoc|exact Hx].
  - etrans; [|exact Hle]. split; cbn; lia.
  - eapply keeps_trans; [| |exact Hk]; [split; cbn; lia|]. apply keeps_set_rd; [done|apply keeps_refl].
Qed.

Lemma buffer_address_run ix p sp o e s : ix_ok ix e s -> offs_ok o e s -> kind_ok (bs_bcast sp) -> p < a_rd (em_alloc e) ->
  0 <= rrd s p + element (bs_bcast sp) cols base * elem_bytes (bs_dtype sp) < 2 ^ 64 ->
  exists addr o' e' s', emitted u l (buffer_address ix p sp o) e s (addr, o') e' s' /\ gm s' = gm s /\ offs_ok o' e' s' /\
    addr < a_rd (em_alloc e') /\ rrd s' addr = rrd s p + element (bs_bcast sp) cols base * elem_bytes (bs_dtype sp).
Proof.
  intros Hix Ho Hk Hp Hrange. unfold buffer_address.
  destruct (decide (bs_bcast sp = BroadcastKind.Scalar)) as [E|E].
  - rewrite E. exists p, o, e, s. split; [apply emitted_ret|]. split; [done|]. split; [done|]. split; [done|]. cbn [element]. lia.
  - destruct (offset_for_run ix (bs_bcast sp) (bs_dtype sp) o e s Hix Ho Hk E) as (rd & o' & e1 & s1 & He & Hg & Ho' & Hrd & Hv).
    pose proof (emitted_alloc _ _ _ _ _ _ _ _ He) as Hle. pose proof (emitted_kept _ _ _ _ _ _ _ _ He) as Hkeep.
    set (addr := a_rd (em_alloc e1)).
    set (e2 := mkEmitter (bump_rd (em_alloc e1)) (em_out e1 ++ [AddU64 addr p rd])).
    set (s2 := set_rd addr (u64 (rrd s1 p + rrd s1 rd)) s1).
    assert (He2 : emitted u l (addr ← new_rd; _ ← put (AddU64 addr p rd); mret (addr, o')) e1 s1 (addr, o') e2 s2).
    { apply (emitted_add p rd e1 s1 (fun a => mret (a, o'))). apply emitted_ret. }
    exists addr, o', e2, s2. split; [|split; [done|split; [|split]]].
    + destruct (bs_bcast sp); try done; (eapply emitted_bind; [exact He|exact He2]).
    + destruct He2 as [_ Hle2 Hk2]. by eapply offs_ok_keep.
    + cbn. unfold addr. lia.
    + cbn. rewrite fn_lookup_insert, Hv, (keep_rd _ _ _ Hkeep) by done. unfold u64. by apply Z.mod_small.
Qed.

(** ** Loading the operands *)
Section Loading.
Context (m : gmap Z byte).

Lemma elem_shift dt p k j : elem u dt m (p + k * elem_bytes dt) j = elem u dt m p (k + j).
Proof. unfold elem. do 2 f_equal. lia. Qed.

(** An input that can be read in this round. *)
Record readable (s : BufferSpec) (p : Z) : Prop := {
  rd_in : s ∈ p_inputs plan;
  rd_pos : 0 <= p;
  rd_aligned : aligned p (Z.of_nat (access s) * elem_bytes (bs_dtype s)) = true;
  rd_mapped : forall j, 0 <= j < L -> let a := p + element (bs_bcast s) cols (base + j) * elem_bytes (bs_dtype s) in
    a + elem_bytes (bs_dtype s) <= 2 ^ 64 /\ mapped m a (elem_bytes (bs_dtype s)) /\ allowed (l_rd l) a (elem_bytes (bs_dtype s))
}.

Lemma readable_kind s p : readable s p -> kind_ok (bs_bcast s) /\ 2 <= elem_bytes (bs_dtype s) <= 4.
Proof.
  intros [Hin _ _ _]. destruct (po_inputs _ _ _ Hplan s Hin) as (Hf & Hr & Hc). split; [done|by eapply lanes_fit_bytes].
Qed.

(** What the registers of an input hold. *)
Definition loaded_val (vals : ValueMap) (s : thread) (sp : BufferSpec) (p : Z) : Prop :=
  forall j, (j < lanes)%nat -> exists v, elem u (bs_dtype sp) m p (element (bs_bcast sp) cols (base + Z.of_nat j)) = Some v /\
    lane_val vals s j (bs_node sp) = Some v.

Definition load_one (ix : Indices) (sp : BufferSpec) (ptr : Z) (o : Offsets) : emit (Offsets * list Z) :=
  r ← buffer_address ix ptr sp o;
  v ← emit_load (bs_dtype sp) (if single_lane (bs_bcast sp) then 1%nat else lanes) r.1;
  v ← (if single_lane (bs_bcast sp) then only ← reg_at v 0; mret (replicate lanes only) else mret v);
  mret (r.2, v).

(** The elements of one access. *)
Lemma access_elems s p : readable s p -> exists vs, length vs = access s /\
  elems_at u (bs_dtype s) m (p + element (bs_bcast s) cols base * elem_bytes (bs_dtype s)) vs.
Proof.
  intros Hrd. destruct (readable_kind s p Hrd) as [_ Hb]. destruct Hrd as [Hin _ _ Hmap].
  set (a := p + element (bs_bcast s) cols base * elem_bytes (bs_dtype s)).
  exists (map (fun j => default 0 (elem u (bs_dtype s) m a (Z.of_nat j))) (seq 0 (access s))).
  split; [by rewrite length_map, length_seq|]. intros j v Hj. rewrite list_lookup_fmap_Some in Hj.
  destruct Hj as (j' & -> & Hj). apply lookup_seq in Hj as [-> Hj]. cbn [Nat.add].
  destruct (elem_mapped u (bs_dtype s) m p (element (bs_bcast s) cols base + Z.of_nat j)) as [v Hv].
  - unfold access in Hj. destruct (single_lane (bs_bcast s)) eqn:Hsl.
    + assert (j = 0%nat) as -> by lia. destruct (Hmap 0) as (_ & Hm & _); [pose proof entry_lanes_pos; lia|].
      by rewrite Z.add_0_r in Hm |- *.
    + destruct (Hmap (Z.of_nat j)) as (_ & Hm & _); [unfold L; lia|]. unfold base in Hm |- *.
      rewrite (element_lane s i (Z.of_nat j) Hin Hi) in Hm by (unfold L; lia || done). exact Hm.
  - destruct (bs_dtype s); cbn in Hb |- *; (done || lia).
  - unfold a. rewrite elem_shift, Hv. done.
Qed.

(** The rights to one access. *)
Lemma access_allowed s p : readable s p ->
  allowed (l_rd l) (p + element (bs_bcast s) cols base * elem_bytes (bs_dtype s)) (Z.of_nat (access s) * elem_bytes (bs_dtype s)).
Proof.
  intros Hrd x Hx. destruct (readable_kind s p Hrd) as [_ Hb]. destruct Hrd as [Hin _ _ Hmap]. set (eb := elem_bytes (bs_dtype s)) in *.
  unfold access in Hx. destruct (single_lane (bs_bcast s)) eqn:Hsl.
  - destruct (Hmap 0) as (_ & _ & Hm); [pose proof entry_lanes_pos; lia|]. rewrite Z.add_0_r in Hm. apply Hm. lia.
  - set (j := (x - (p + element (bs_bcast s) cols base * eb)) / eb).
    pose proof (Z.div_mod (x - (p + element (bs_bcast s) cols base * eb)) eb ltac:(lia)) as Hj. fold j in Hj.
    pose proof (Z.mod_pos_bound (x - (p + element (bs_bcast s) cols base * eb)) eb ltac:(lia)) as Hm.
    assert (HjL : 0 <= j < L) by (unfold L; nia). destruct (Hmap j HjL) as (_ & _ & Ha).
    apply Ha. unfold base in Hj |- *. rewrite (element_lane s i j Hin Hi HjL Hsl). fold base in Hj |- *. lia.
Qed.

Lemma load_one_run ix sp ptr o e s p : ix_ok ix e s -> offs_ok o e s -> readable sp p -> ptr < a_rd (em_alloc e) -> rrd s ptr = p -> gm s = m ->
  exists o' regs e' s', emitted u l (load_one ix sp ptr o) e s (o', regs) e' s' /\ gm s' = m /\ offs_ok o' e' s' /\
    regs_ok lanes (em_alloc e') regs /\
    forall j, (j < lanes)%nat -> exists v r, elem u (bs_dtype sp) m p (element (bs_bcast sp) cols (base + Z.of_nat j)) = Some v /\
      regs !! j = Some r /\ rf s' r = v.
Proof.
  intros Hix Ho Hrd Hptr Hp Hm. pose proof base_range as Hbase. pose proof entry_lanes_pos as HL.
  destruct (readable_kind sp p Hrd) as [Hkind Hbytes]. destruct (access_elems sp p Hrd) as (vs & Hvl & Hvs).
  pose proof (rd_in _ _ Hrd) as Hin. pose proof (element_nonneg (bs_bcast sp) base ltac:(lia)) as Hel.
  assert (Hrange : 0 <= rrd s ptr + element (bs_bcast sp) cols base * elem_bytes (bs_dtype sp) < 2 ^ 64).
  { rewrite Hp. destruct (rd_mapped _ _ Hrd 0) as [Ha _]; [lia|]. rewrite Z.add_0_r in Ha. pose proof (rd_pos _ _ Hrd). nia. }
  destruct (buffer_address_run ix ptr sp o e s Hix Ho Hkind Hptr Hrange) as (addr & o' & e1 & s1 & He1 & Hg1 & Ho1 & Haddr & Hav).
  rewrite Hp in Hav.
  destruct (emit_load_run u l (bs_dtype sp) (access sp) addr vs e1 s1) as (regs & e2 & s2 & He2 & Hg2 & Hregs & Hval).
  { by apply access_fit. }
  { done. }
  { rewrite Hav. apply aligned_add; [by apply (rd_aligned _ _ Hrd)|unfold access; destruct (single_lane _); pose proof entry_lanes_pos; unfold L in *; nia|].
    apply Z.mul_divide_mono_r. unfold base. by apply element_aligned. }
  { rewrite Hav. by apply access_allowed. }
  { rewrite Hg1, Hm, Hav. exact Hvs. }
  assert (Hmem : gm s2 = m) by congruence.
  assert (Ho2 : offs_ok o' e2 s2) by (destruct He2 as [_ Hle Hk]; by eapply offs_ok_keep).
  unfold access in He2, Hregs, Hvl. unfold load_one. destruct (single_lane (bs_bcast sp)) eqn:Hsl.
  - destruct regs as [|r [|]]; try (destruct Hregs as [Hx _]; discriminate Hx). destruct vs as [|v [|]]; try discriminate Hvl.
    destruct Hregs as [_ Hr]. apply Forall_cons in Hr as [Hr _].
    exists o', (replicate lanes r), e2, s2. split.
    { eapply emitted_bind; [exact He1|]. cbn [fst snd]. eapply emitted_bind; [exact He2|].
      eapply emitted_bind; [eapply (emitted_reg_at u l [r] 0 r); [done|apply emitted_ret]|apply emitted_ret]. }
    split; [done|]. split; [done|]. split.
    { split; [apply length_replicate|]. apply Forall_forall. intros x Hx. apply elem_of_replicate in Hx as [-> _]. exact Hr. }
    intros j Hj. exists v, r. split; [|split; [by apply lookup_replicate_2|by apply (Hval 0%nat)]].
    unfold base. rewrite (element_single sp i (Z.of_nat j) Hin Hi) by (unfold L; lia || done).
    specialize (Hvs 0%nat v eq_refl). rewrite elem_shift, Z.add_0_r in Hvs. exact Hvs.
  - exists o', regs, e2, s2. split.
    { eapply emitted_bind; [exact He1|]. cbn [fst snd]. eapply emitted_bind; [exact He2|].
      eapply emitted_bind; [apply emitted_ret|apply emitted_ret]. }
    split; [done|]. split; [done|]. split; [done|]. intros j Hj.
    destruct (lookup_lt_is_Some_2 vs j) as [v Hv]; [lia|]. destruct (lookup_lt_is_Some_2 regs j) as [r Hr]; [destruct Hregs; lia|].
    exists v, r. split; [|split; [done|by apply (Hval j)]].
    unfold base. rewrite (element_lane sp i (Z.of_nat j) Hin Hi) by (unfold L; lia || done).
    specialize (Hvs j v Hv). by rewrite elem_shift in Hvs.
Qed.

Lemma load_inputs_cons ix sp specs ptr ptrs o vals e s o' regs e1 s1 x e2 s2 :
  emitted u l (load_one ix sp ptr o) e s (o', regs) e1 s1 ->
  emitted u l (load_inputs ix lanes specs ptrs o' (<[bs_node sp := regs]> vals)) e1 s1 x e2 s2 ->
  emitted u l (load_inputs ix lanes (sp :: specs) (ptr :: ptrs) o vals) e s x e2 s2.
Proof.
  intros H1 H2. assert (Heq : forall e0, load_inputs ix lanes (sp :: specs) (ptr :: ptrs) o vals e0 =
    (ov ← load_one ix sp ptr o; load_inputs ix lanes specs ptrs ov.1 (<[bs_node sp := ov.2]> vals)) e0).
  { intros e0. cbn [load_inputs]. unfold load_one, mbind, st_bind. destruct (buffer_address ix ptr sp o e0) as [[r| |] ?]; try done.
    destruct (emit_load _ _ _ _) as [[v| |] ?]; try done. by destruct (if single_lane (bs_bcast sp) then _ else _) as [[v'| |] ?]. }
  destruct (emitted_bind u l _ (fun ov => load_inputs ix lanes specs ptrs ov.1 (<[bs_node sp := ov.2]> vals)) e s _ e1 s1 x e2 s2 H1 H2)
    as [(c & Hr & Ho & Hx) Hle Hk].
  split; [exists c; split; [by rewrite Heq|done]|done|done].
Qed.

Lemma load_inputs_run ix specs ptrs ps o vals e s : ix_ok ix e s -> offs_ok o e s -> ptrs_ok ptrs ps e s -> gm s = m ->
  Forall2 readable specs ps -> NoDup (map bs_node specs) -> vals_ok lanes (em_alloc e) vals ->
  exists o' vals' e' s', emitted u l (load_inputs ix lanes specs ptrs o vals) e s (o', vals') e' s' /\ gm s' = m /\ offs_ok o' e' s' /\
    vals_ok lanes (em_alloc e') vals' /\
    (forall k sp p, specs !! k = Some sp -> ps !! k = Some p -> loaded_val vals' s' sp p) /\
    (forall id, is_Some (vals' !! id) <-> is_Some (vals !! id) \/ id ∈ map bs_node specs) /\
    (forall id, id ∉ map bs_node specs -> vals' !! id = vals !! id).
Proof.
  intros Hix Ho Hptrs Hm Hread. revert ptrs o vals e s Hix Ho Hptrs Hm.
  induction Hread as [|sp p specs ps Hrd Hread IH]; intros ptrs o vals e s Hix Ho Hptrs Hm Hnd Hok.
  { exists o, vals, e, s. split; [apply emitted_ret|]. split_and!; try done.
    intros id. split; [by left|]. intros [H|H]; [done|by apply elem_of_nil in H]. }
  destruct ptrs as [|ptr ptrs]; [by inversion Hptrs|]. apply Forall2_cons in Hptrs as [[Hptr Hpv] Hptrs].
  cbn [map] in Hnd. apply NoDup_cons in Hnd as [Hnin Hnd].
  destruct (load_one_run ix sp ptr o e s p Hix Ho Hrd Hptr Hpv Hm) as (o1 & regs & e1 & s1 & He1 & Hg1 & Ho1 & Hregs & Hval).
  pose proof (emitted_alloc _ _ _ _ _ _ _ _ He1) as Hle. pose proof (emitted_kept _ _ _ _ _ _ _ _ He1) as Hk.
  destruct (IH ptrs o1 (<[bs_node sp := regs]> vals) e1 s1) as (o2 & vals2 & e2 & s2 & He2 & Hg2 & Ho2 & Hok2 & Hv2 & Hdom & Hout); try done.
  { by eapply ix_ok_keep. }
  { by eapply ptrs_ok_keep. }
  { apply map_Forall_insert_2; [done|]. eapply vals_ok_le; [|exact Hle|exact Hok]. pose proof entry_lanes_pos. unfold L in *. lia. }
  exists o2, vals2, e2, s2. split; [by eapply load_inputs_cons|]. split; [done|]. split; [done|]. split; [done|]. split; [|split].
  - intros [|k] sp' p' Hsp Hp'; [|by eapply Hv2]. injection Hsp as <-. injection Hp' as <-. intros j Hj.
    destruct (Hval j Hj) as (v & r & Hel & Hr & Hrv). exists v. split; [done|].
    unfold lane_val, lane_reg. rewrite Hout, lookup_insert_eq by done. cbn. rewrite Hr. cbn. f_equal.
    rewrite (keep_f _ _ _ (emitted_kept _ _ _ _ _ _ _ _ He2)); [done|]. destruct Hregs as [_ Hf]. by apply (Forall_lookup_1 _ _ _ _ Hf Hr).
  - intros id. rewrite Hdom. cbn [map]. rewrite elem_of_cons. destruct (decide (id = bs_node sp)) as [->|Hne].
    + rewrite lookup_insert_eq. split; [intros _; by right; left|intros _; left; by eexists].
    + rewrite lookup_insert_ne by done. split; [intros [H|H]; [by left|by right; right]|intros [H|[H|H]]; [by left|done|by right]].
  - intros id Hid. cbn [map] in Hid. apply not_elem_of_cons in Hid as [Hne Hid]. rewrite Hout by done. by rewrite lookup_insert_ne.
Qed.
End Loading.

(** ** Storing the outputs *)
Lemma zlen_stored_bytes dt vs : 0 <= elem_bytes dt -> zlen (stored_bytes u dt vs) = Z.of_nat (length vs) * elem_bytes dt.
Proof.
  intros Hb. unfold stored_bytes. induction vs as [|v vs IH]; [done|].
  change (mjoin (map (out_bytes u dt) (v :: vs))) with (out_bytes u dt v ++ mjoin (map (out_bytes u dt) vs)).
  rewrite zlen_app, IH. unfold out_bytes. rewrite zlen_le_bytes. cbn [length]. lia.
Qed.

(** An output this round can write. *)
Record writable (mem : gmap Z byte) (s : BufferSpec) (q : Z) : Prop := {
  wr_fit : lanes_fit (bs_dtype s) lanes;
  wr_pos : 0 <= q;
  wr_aligned : aligned q (L * elem_bytes (bs_dtype s)) = true;
  wr_range : q + base * elem_bytes (bs_dtype s) + L * elem_bytes (bs_dtype s) <= 2 ^ 64;
  wr_mapped : mapped mem (q + base * elem_bytes (bs_dtype s)) (L * elem_bytes (bs_dtype s));
  wr_may : allowed (l_wr l) (q + base * elem_bytes (bs_dtype s)) (L * elem_bytes (bs_dtype s))
}.

Lemma writable_dom m1 m2 s q : (forall x, is_Some (m2 !! x) <-> is_Some (m1 !! x)) -> writable m1 s q -> writable m2 s q.
Proof. intros Hd []. split; try done. intros x Hx. apply Hd. auto. Qed.

Lemma store_outputs_run ix specs ptrs qs o vals ov e s : ix_ok ix e s -> offs_ok o e s -> ptrs_ok ptrs qs e s ->
  Forall2 (writable (gm s)) specs qs -> vals_ok lanes (em_alloc e) vals ->
  (forall sp, sp ∈ specs -> exists regs, vals !! bs_node sp = Some regs /\ map (rf s) regs = ov (bs_node sp)) ->
  exists e' s', emitted u l (store_outputs ix lanes specs ptrs o vals) e s tt e' s' /\
    store_all i specs qs ov (gm s) = Some (gm s').
Proof.
  remember (gm s) as mem eqn:Emem. revert mem qs ptrs o e s Emem.
  induction specs as [|sp specs IH]; intros mem qs ptrs o e s Emem Hix Ho Hptrs Hw Hok Hov.
  { exists e, s. split; [apply emitted_ret|by rewrite Emem]. }
  destruct qs as [|q qs]; [by inversion Hw|]. apply Forall2_cons in Hw as [Hwr Hw].
  destruct ptrs as [|ptr ptrs]; [by inversion Hptrs|]. apply Forall2_cons in Hptrs as [[Hptr Hpv] Hptrs].
  pose proof base_range as Hbase. pose proof entry_lanes_pos as HL.
  destruct Hwr as [Hfit Hqpos Hal Hrange Hmap Hmay]. pose proof (lanes_fit_bytes _ _ Hfit) as Hbytes.
  destruct (Hov sp) as (regs & Hregs & Hvals); [by left|]. pose proof (Hok _ _ Hregs) as Hregsok.
  destruct (offset_for_run ix BroadcastKind.Full (bs_dtype sp) o e s Hix Ho) as (rd & o1 & e1 & s1 & He1 & Hg1 & Ho1 & Hrd & Hrv); [done|done|].
  pose proof (emitted_alloc _ _ _ _ _ _ _ _ He1) as Hle1. pose proof (emitted_kept _ _ _ _ _ _ _ _ He1) as Hk1.
  set (addr := a_rd (em_alloc e1)). set (e2 := mkEmitter (bump_rd (em_alloc e1)) (em_out e1 ++ [AddU64 addr ptr rd])).
  set (s2 := set_rd addr (u64 (rrd s1 ptr + rrd s1 rd)) s1).
  assert (Hav : rrd s2 addr = q + base * elem_bytes (bs_dtype sp)).
  { cbn. rewrite fn_lookup_insert, Hrv, (keep_rd _ _ _ Hk1), Hpv by done. cbn [element]. unfold u64. apply Z.mod_small. nia. }
  assert (Hle2 : alloc_le (em_alloc e) (em_alloc e2)) by (etrans; [exact Hle1|split; cbn; lia]).
  assert (Hk2 : keeps (em_alloc e) s s2).
  { eapply keeps_trans; [exact Hle1|exact Hk1|]. apply keeps_set_rd; [done|apply keeps_refl]. }
  assert (Hrf : map (rf s2) regs = ov (bs_node sp)).
  { rewrite <- Hvals. apply map_ext_in. intros r Hr. apply (keep_f _ _ _ Hk2). destruct Hregsok as [_ Hf]. by apply (proj1 (List.Forall_forall _ _) Hf). }
  assert (Hzl : zlen (stored_bytes u (bs_dtype sp) (ov (bs_node sp))) = L * elem_bytes (bs_dtype sp)).
  { rewrite zlen_stored_bytes by lia. rewrite <- Hvals, length_map. by destruct Hregsok as [-> _]. }
  destruct (store_bytes_spec mem (q + base * elem_bytes (bs_dtype sp)) (stored_bytes u (bs_dtype sp) (ov (bs_node sp)))) as (mem1 & Hst & _ & _ & Hdom).
  { by rewrite Hzl. }
  destruct (emit_store_run u l (bs_dtype sp) lanes addr regs e2 s2 mem1 Hfit) as (e3 & s3 & He3 & Hg3).
  { eapply regs_ok_le; [|exact Hle2|exact Hregsok]. unfold L in *; lia. }
  { cbn. unfold addr. lia. }
  { rewrite Hav. apply aligned_add; [done|unfold L; nia|]. apply Z.mul_divide_mono_r. by exists i. }
  { by rewrite Hav. }
  { rewrite Hav, Hrf. change (gm s2) with (gm s1). rewrite Hg1, <- Emem. exact Hst. }
  pose proof (emitted_alloc _ _ _ _ _ _ _ _ He3) as Hle3. pose proof (emitted_kept _ _ _ _ _ _ _ _ He3) as Hk3.
  assert (Hle13 : alloc_le (em_alloc e) (em_alloc e3)) by (etrans; [exact Hle2|exact Hle3]).
  assert (Hk13 : keeps (em_alloc e) s s3) by (eapply keeps_trans; [exact Hle2|exact Hk2|exact Hk3]).
  destruct (IH mem1 qs ptrs o1 e3 s3) as (e4 & s4 & He4 & Hall).
  { done. }
  { by eapply ix_ok_keep. }
  { assert (H2 : offs_ok o1 e2 s2) by (eapply offs_ok_keep; [exact Ho1|split; cbn; lia|apply keeps_set_rd; [done|apply keeps_refl]]).
    by eapply offs_ok_keep. }
  { by eapply ptrs_ok_keep. }
  { eapply Forall2_impl; [exact Hw|]. intros s' q'. by apply writable_dom. }
  { eapply vals_ok_le; [|exact Hle13|exact Hok]. unfold L in *; lia. }
  { intros sp' Hsp'. destruct (Hov sp') as (regs' & Hr' & Hv'); [by right|]. exists regs'. split; [done|]. rewrite <- Hv'.
    apply map_ext_in. intros r Hr. apply (keep_f _ _ _ Hk13). destruct (Hok _ _ Hr') as [_ Hf]. by apply (proj1 (List.Forall_forall _ _) Hf). }
  exists e4, s4. split.
  - cbn [store_outputs]. eapply emitted_bind; [exact He1|]. cbn [fst snd]. apply (emitted_add ptr rd e1 s1).
    eapply emitted_vals_at; [exact Hregs|]. eapply emitted_bind; [exact He3|exact He4].
  - cbn [store_all]. fold base. rewrite Hst. exact Hall.
Qed.

(** ** The body *)
Lemma ids_lookup k id : map n_id ns !! k = Some id -> id = Z.of_nat k /\ exists n, ns !! k = Some n /\ node_at ns id = Some n.
Proof.
  intros H. rewrite list_lookup_fmap_Some in H. destruct H as (n & -> & Hn).
  destruct (po_nodes _ _ _ Hplan k n Hn) as [Hid _]. split; [done|]. exists n. split; [done|]. by rewrite Hid, node_at_nat.
Qed.

Lemma node_at_ids id n : node_at ns id = Some n -> exists k, id = Z.of_nat k /\ ns !! k = Some n /\ map n_id ns !! k = Some id.
Proof.
  unfold node_at. destruct (Z.ltb_spec id 0); [done|]. intros Hn. exists (Z.to_nat id). split; [lia|]. split; [done|].
  rewrite list_lookup_fmap, Hn. cbn. destruct (po_nodes _ _ _ Hplan _ n Hn) as [-> _]. f_equal. lia.
Qed.

Lemma seeds_order vals : (forall id, is_Some (vals !! id) <-> id ∈ map bs_node (p_inputs plan)) ->
  chain_order ns vals (order_ids ns None).
Proof.
  intros Hdom. cbn [order_ids]. split.
  - intros id Hid. apply list_elem_of_lookup_1 in Hid as [k Hk]. destruct (ids_lookup k id Hk) as (_ & n & _ & Hn). by exists n.
  - intros k id n Hk Hn Hop _. split; [by eapply (po_forms _ _ _ Hplan)|].
    destruct (ids_lookup k id Hk) as (-> & n' & Hn' & Hat). rewrite Hn in Hat. injection Hat as <-.
    destruct (po_nodes _ _ _ Hplan k n Hn') as [_ Hin]. eapply Forall_impl; [exact Hin|]. cbn. intros src Hsrc. right.
    apply elem_of_take. exists (Z.to_nat src). split; [|lia].
    destruct (lookup_lt_is_Some_2 ns (Z.to_nat src)) as [ms Hms]; [apply lookup_lt_Some in Hn'; lia|].
    rewrite list_lookup_fmap, Hms. cbn. destruct (po_nodes _ _ _ Hplan _ ms Hms) as [-> _]. f_equal. lia.
  - intros id n _ Hn Hop. apply Hdom. by eapply (po_seeds _ _ _ Hplan).
Qed.

Lemma round_readable mem : round_ok i mem -> Forall2 (readable mem) (p_inputs plan) ins.
Proof.
  intros [_ [Hl Hin] _]. apply Forall2_same_length_lookup_2; [done|]. intros k s p Hs Hp.
  destruct (Hin k s p Hs Hp) as (H0 & Ha & Hm). split; try done. by eapply list_elem_of_lookup_2.
Qed.

Lemma round_writable mem : round_ok i mem -> Forall2 (writable mem) (p_outputs plan) outs.
Proof.
  intros [_ _ [Hl Hout]]. apply Forall2_same_length_lookup_2; [done|]. intros k s q Hs Hq.
  destruct (Hout k s q Hs Hq) as (H0 & Ha & Hr & Hm & Hw). split; try done.
  apply (po_outputs _ _ _ Hplan). by eapply list_elem_of_lookup_2.
Qed.

Lemma emit_ew_body_run r_i out_ptr in_ptr e s : r_i < a_r (em_alloc e) -> rr s r_i = i -> round_ok i (gm s) ->
  ptrs_ok in_ptr ins e s -> ptrs_ok out_ptr outs e s ->
  exists e' s', emitted u l (emit_ew_body ns plan lanes out_ptr in_ptr r_i) e s tt e' s' /\ round i (gm s) (gm s').
Proof.
  intros Hri Hrv Hround Hins Houts. assert (Hlanes : (0 < lanes)%nat) by (pose proof entry_lanes_pos; unfold L in *; lia).
  destruct (emit_base_run r_i e s Hri Hrv) as (r_base & e1 & s1 & He1 & Hrb & Hbv & Hg1).
  destruct (emit_indices_run r_base e1 s1 Hrb Hbv) as (ix & e2 & s2 & He2 & Hg2 & Hix).
  assert (He12 : alloc_le (em_alloc e) (em_alloc e2) /\ keeps (em_alloc e) s s2).
  { destruct He1 as [_ L1 K1], He2 as [_ L2 K2]. split; [by etrans|eapply keeps_trans; [exact L1|exact K1|exact K2]]. }
  destruct He12 as [Hle2 Hk2]. assert (Hmem2 : gm s2 = gm s) by congruence.
  destruct (load_inputs_run (gm s) ix (p_inputs plan) in_ptr ins (mkOffsets ∅ ∅ ∅) ∅ e2 s2) as
    (o3 & vals3 & e3 & s3 & He3 & Hg3 & Ho3 & Hok3 & Hv3 & Hdom3 & _); try done.
  { by eapply ptrs_ok_keep. }
  { by apply round_readable. }
  { apply (po_distinct _ _ _ Hplan). }
  assert (Hdom : forall id, is_Some (vals3 !! id) <-> id ∈ map bs_node (p_inputs plan)).
  { intros id. rewrite Hdom3, lookup_empty. split; [intros [[? [=]]|H]; exact H|by right]. }
  destruct (emit_chain_run u l ns lanes vals3 None e3 s3 Hlanes (po_nodes _ _ _ Hplan) (seeds_order vals3 Hdom) Hok3) as
    (vals4 & e4 & s4 & He4 & Hg4 & Hok4 & [Hsub Hres]). cbn [order_ids] in Hres.
  pose proof He3 as [R3 L3 K3]. pose proof He4 as [R4 L4 K4].
  set (ov := fun id => match vals4 !! id with Some regs => map (rf s4) regs | None => [] end).
  assert (Hlive : forall sp, sp ∈ p_outputs plan -> exists regs, vals4 !! bs_node sp = Some regs /\ map (rf s4) regs = ov (bs_node sp)).
  { intros sp Hsp. destruct (po_outputs _ _ _ Hplan sp Hsp) as (_ & n & Hn & Hln). destruct (vals4 !! bs_node sp) as [regs|] eqn:E.
    - exists regs. split; [done|]. unfold ov. by rewrite E.
    - destruct (node_at_ids _ _ Hn) as (k & _ & _ & Hk).
      pose proof (list_elem_of_lookup_2 _ _ _ Hk) as Hin.
      destruct (Hres (bs_node sp) n Hin Hn) as [Hnone _]. destruct (Hnone E) as (_ & Hd & _). congruence. }
  assert (Hle4 : alloc_le (em_alloc e2) (em_alloc e4)) by (by etrans).
  assert (Hk4 : keeps (em_alloc e2) s2 s4) by (eapply keeps_trans; [exact L3|exact K3|exact K4]).
  destruct (store_outputs_run ix (p_outputs plan) out_ptr outs o3 vals4 ov e4 s4) as (e5 & s5 & He5 & Hall); try done.
  { by eapply ix_ok_keep. }
  { by eapply offs_ok_keep. }
  { eapply ptrs_ok_keep; [exact Houts|by etrans|eapply keeps_trans; [exact Hle2|exact Hk2|exact Hk4]]. }
  { rewrite Hg4, Hg3. by apply round_writable. }
  exists e5, s5. split.
  - unfold emit_ew_body. eapply emitted_bind; [exact He1|]. eapply emitted_bind; [exact He2|].
    eapply emitted_bind; [exact He3|]. eapply emitted_bind; [exact He4|exact He5].
  - rewrite Hg4, Hg3 in Hall. exists ov. split; [|split; [|exact Hall]].
    + intros sp Hsp. destruct (Hlive sp Hsp) as (regs & Hr & <-). rewrite length_map. by destruct (Hok4 _ _ Hr).
    + intros j Hj. exists (lane_val vals4 s4 j). split; [split|].
      * intros k sp p Hsp Hp. destruct (Hv3 k sp p Hsp Hp j Hj) as (v & Hel & Hlv). exists v. split; [exact Hel|].
        by eapply (lane_val_mono lanes); [exact Hok3| | |].
      * intros id n v Hn Hop Hv. destruct (node_at_ids _ _ Hn) as (k & _ & _ & Hk).
        pose proof (list_elem_of_lookup_2 _ _ _ Hk) as Hin. destruct (Hres id n Hin Hn) as [_ Hc].
        destruct (Hc) with (j := j) as (v' & Hv' & Hcomp); [| |done|].
        { unfold lane_val, lane_reg in Hv. destruct (vals4 !! id); [by eexists|done]. }
        { destruct (vals3 !! id) as [regs|] eqn:E; [|done]. exfalso. assert (Hseed : id ∈ map bs_node (p_inputs plan)) by (apply Hdom; by eexists).
          apply list_elem_of_fmap in Hseed as (sp & -> & Hsp). destruct (po_seeded _ _ _ Hplan sp Hsp) as (n' & Hn' & Hop').
          rewrite Hn in Hn'. injection Hn' as <-. done. }
        rewrite Hv in Hv'. by injection Hv' as <-.
      * intros sp Hsp. destruct (Hlive sp Hsp) as (regs & Hr & Hov). destruct (Hok4 _ _ Hr) as [Hlen _].
        destruct (lookup_lt_is_Some_2 regs j) as [r Hrj]; [lia|]. exists (rf s4 r). split.
        -- rewrite <- Hov. rewrite list_lookup_fmap, Hrj. done.
        -- unfold lane_val, lane_reg. rewrite Hr. cbn. by rewrite Hrj.
Qed.
End Round.
End Body.
