(* ===== verification/PtxGrid.v ===== *)
(** * The rounds of a launch

    What the rounds of all threads of a launch leave in memory, whatever their
    order: every element of every output is the graph's value at the original
    contents of the inputs, also where an output is the buffer of an input. *)
From stdpp Require Import functions.
From S2P Require Import Prelude Dtype Device Heap Tensor TraceDag TraceSpec TracePlan TracePlanSpec Ptx PtxSpec PtxDiv PtxChain PtxChainSpec PtxMemory PtxKernel PtxBody.

(** Two buffers that do not meet. *)
Definition disjoint (p n q k : Z) : Prop := p + n <= q \/ q + k <= p.

Section Grid.
Context (u : fpu) (l : launch) (ns : list TraceNode) (plan : ElementwisePlan) (lanes : nat) (Hentry : entry_ok ns plan lanes).
Context (ins outs : list Z) (rows : Z).
Let cols := p_cols plan.
Let L := Z.of_nat lanes.
Let N := rows * cols.

(** The elements of a buffer read with a broadcast. *)
Definition count (bk : BroadcastKind) : Z :=
  match bk with BroadcastKind.Full => N | BroadcastKind.Row => cols | BroadcastKind.Col => rows | BroadcastKind.Scalar => 1 end.
Definition in_bytes (s : BufferSpec) : Z := count (bs_bcast s) * elem_bytes (bs_dtype s).
Definition out_size (s : BufferSpec) : Z := N * elem_bytes (bs_dtype s).

Definition input (s : BufferSpec) (p : Z) : Prop := exists k, p_inputs plan !! k = Some s /\ ins !! k = Some p.
Definition output (k : nat) (s : BufferSpec) (q : Z) : Prop := p_outputs plan !! k = Some s /\ outs !! k = Some q.

(** The buffers a launch is given: mapped, in the address space, aligned for the
    entry; an output may be the buffer of a full operand of its element size, or
    of another output of its element size, and is otherwise apart from it. *)
Record layout_ok (m : gmap Z byte) : Prop := {
  la_rows : 0 < rows;
  la_slots : (L | N);
  la_lengths : length ins = length (p_inputs plan) /\ length outs = length (p_outputs plan);
  la_ins : forall s p, input s p -> 0 <= p /\ aligned p (Z.of_nat (access lanes s) * elem_bytes (bs_dtype s)) = true /\
    p + in_bytes s <= 2 ^ 64 /\ mapped m p (in_bytes s);
  la_outs : forall k s q, output k s q -> 0 <= q /\ aligned q (L * elem_bytes (bs_dtype s)) = true /\
    q + out_size s <= 2 ^ 64 /\ mapped m q (out_size s);
  la_in_out : forall s p k t q, input s p -> output k t q ->
    disjoint p (in_bytes s) q (out_size t) \/ (p = q /\ bs_bcast s = BroadcastKind.Full /\ elem_bytes (bs_dtype s) = elem_bytes (bs_dtype t));
  la_out_out : forall k s q k' t r, output k s q -> output k' t r -> k <> k' ->
    disjoint q (out_size s) r (out_size t) \/ (q = r /\ elem_bytes (bs_dtype s) = elem_bytes (bs_dtype t))
}.

(** The output that keeps its values: no later one is the same buffer. *)
Definition last_output (k : nat) (s : BufferSpec) (q : Z) : Prop :=
  output k s q /\ forall k' t r, output k' t r -> (k < k')%nat -> q <> r.

(** The part of an output that round [i] writes. *)
Definition in_slot (i : Z) (s : BufferSpec) (q x : Z) : Prop :=
  q + i * L * elem_bytes (bs_dtype s) <= x < q + (i + 1) * L * elem_bytes (bs_dtype s).
Definition slots_n : Z := N / L.

Lemma out_spec k s q : output k s q -> s ∈ p_outputs plan.
Proof. intros [H _]. by eapply list_elem_of_lookup_2. Qed.
Lemma in_spec s p : input s p -> s ∈ p_inputs plan.
Proof. intros (k & H & _). by eapply list_elem_of_lookup_2. Qed.

Lemma out_bytes_pos k s q : output k s q -> 2 <= elem_bytes (bs_dtype s) <= 4.
Proof. intros H. destruct (po_outputs _ _ _ Hentry s (out_spec _ _ _ H)) as [Hf _]. by eapply lanes_fit_bytes. Qed.
Lemma in_bytes_pos s p : input s p -> 2 <= elem_bytes (bs_dtype s) <= 4.
Proof. intros H. destruct (po_inputs _ _ _ Hentry s (in_spec _ _ H)) as [Hf _]. by eapply lanes_fit_bytes. Qed.

Lemma L_pos : 1 <= L.
Proof. exact (PtxBody.entry_lanes_pos ns plan lanes Hentry). Qed.

(** *** The effect of a round's stores *)
Definition slot_bytes (i : Z) (s : BufferSpec) (q : Z) (m : gmap Z byte) (vs : list Z) : Prop :=
  bytes_at m (q + i * L * elem_bytes (bs_dtype s)) (stored_bytes u (bs_dtype s) vs).

Lemma store_all_effect i specs qs ov m m' : store_all u lanes i specs qs ov m = Some m' ->
  (forall s, s ∈ specs -> length (ov (bs_node s)) = lanes /\ 0 <= elem_bytes (bs_dtype s)) ->
  (forall x, is_Some (m' !! x) <-> is_Some (m !! x)) /\
  (forall x, (forall k s q, specs !! k = Some s -> qs !! k = Some q -> ~ in_slot i s q x) -> m' !! x = m !! x) /\
  (forall k s q, specs !! k = Some s -> qs !! k = Some q ->
     (forall k' t r x, specs !! k' = Some t -> qs !! k' = Some r -> (k < k')%nat -> in_slot i s q x -> ~ in_slot i t r x) ->
     slot_bytes i s q m' (ov (bs_node s))).
Proof.
  revert qs m. induction specs as [|s specs IH]; intros qs m Hst Hlen.
  { destruct qs; injection Hst as <-; done. }
  destruct qs as [|q qs]; [injection Hst as <-; split; [done|]; split; [done|]; by intros ? ? ? _ H|].
  cbn [store_all] in Hst. fold L in Hst.
  destruct (Hlen s) as [Hl Hb]; [by left|]. set (bs := stored_bytes u (bs_dtype s) (ov (bs_node s))) in *.
  assert (Hzl : zlen bs = L * elem_bytes (bs_dtype s)) by (unfold bs; rewrite zlen_stored_bytes by done; by rewrite Hl).
  destruct (store_bytes m (q + i * L * elem_bytes (bs_dtype s)) bs) as [m1|] eqn:E1; [|done]. cbn in Hst.
  assert (H1 : bytes_at m1 (q + i * L * elem_bytes (bs_dtype s)) bs /\
    (forall x, ~ in_slot i s q x -> m1 !! x = m !! x) /\ (forall x, is_Some (m1 !! x) <-> is_Some (m !! x))).
  { destruct (store_bytes_spec m (q + i * L * elem_bytes (bs_dtype s)) bs) as (m1' & E & Hat & Hout & Hdom).
    - by eapply store_bytes_mapped.
    - rewrite E1 in E. injection E as <-. split; [done|]. split; [|done]. intros x Hx. apply Hout. unfold in_slot in Hx. rewrite Hzl. lia. }
  destruct H1 as (Hat & Hout & Hdom). destruct (IH qs m1 Hst) as (Hdom2 & Hout2 & Hat2); [intros t Ht; apply Hlen; by right|].
  split; [|split].
  - intros x. by rewrite Hdom2, Hdom.
  - intros x Hx. rewrite Hout2; [|intros k t r Ht Hr; by apply (Hx (S k))]. apply Hout. by apply (Hx 0%nat).
  - intros [|k] t r Ht Hr Hlater.
    + injection Ht as <-. injection Hr as <-. intros b x Hbx. rewrite Hout2; [by apply Hat|].
      intros k t r Ht Hr. apply (Hlater (S k)); [done|done|lia|]. unfold in_slot. apply lookup_lt_Some in Hbx. unfold bs, zlen in *. lia.
    + apply (Hat2 k); [done|done|]. intros k' t' r' x Ht' Hr' Hk. apply (Hlater (S k')); [done|done|lia].
Qed.

(** ** The invariant of a launch

    The rounds in [D] are done. *)
Context (m0 : gmap Z byte) (Hlay : layout_ok m0).

Lemma slots_eq : N = slots_n * L.
Proof.
  unfold slots_n. pose proof L_pos. destruct (la_slots _ Hlay) as [c Hc]. rewrite Hc, Z.div_mul by lia. done.
Qed.

(** Slots of one buffer do not meet. *)
Lemma in_slot_inj i i' s t q x : elem_bytes (bs_dtype s) = elem_bytes (bs_dtype t) -> 0 < elem_bytes (bs_dtype s) ->
  in_slot i s q x -> in_slot i' t q x -> i = i'.
Proof.
  unfold in_slot. intros E Hb H1 H2. rewrite <- E in H2. pose proof L_pos. set (w := L * elem_bytes (bs_dtype s)).
  assert (Hw : 0 < w) by (unfold w; nia).
  replace (i * L * elem_bytes (bs_dtype s)) with (i * w) in H1 by (unfold w; ring).
  replace ((i + 1) * L * elem_bytes (bs_dtype s)) with (i * w + w) in H1 by (unfold w; ring).
  replace (i' * L * elem_bytes (bs_dtype s)) with (i' * w) in H2 by (unfold w; ring).
  replace ((i' + 1) * L * elem_bytes (bs_dtype s)) with (i' * w + w) in H2 by (unfold w; ring).
  destruct (Z.lt_trichotomy i i') as [Hlt|[Heq|Hlt]]; [|done|].
  - assert (i * w + w <= i' * w) by nia. lia.
  - assert (i' * w + w <= i * w) by nia. lia.
Qed.

(** A slot lies in its buffer. *)
Lemma in_slot_range i k s q x : output k s q -> 0 <= i < slots_n -> in_slot i s q x -> q <= x < q + out_size s.
Proof.
  intros Ho Hi Hx. pose proof (out_bytes_pos _ _ _ Ho). unfold in_slot, out_size in *. rewrite slots_eq. pose proof L_pos.
  set (w := L * elem_bytes (bs_dtype s)). assert (Hw : 0 < w) by (unfold w; nia).
  replace (i * L * elem_bytes (bs_dtype s)) with (i * w) in Hx by (unfold w; ring).
  replace ((i + 1) * L * elem_bytes (bs_dtype s)) with ((i + 1) * w) in Hx by (unfold w; ring).
  replace (slots_n * L * elem_bytes (bs_dtype s)) with (slots_n * w) by (unfold w; ring). nia.
Qed.

(** Slots of different rounds do not meet, in any two outputs. *)
Lemma slots_apart i i' k k' s q t r x : 0 <= i < slots_n -> 0 <= i' < slots_n -> output k s q -> output k' t r -> i <> i' ->
  in_slot i s q x -> ~ in_slot i' t r x.
Proof.
  intros Hi Hi' Hs Ht Hne H1 H2. pose proof (out_bytes_pos _ _ _ Hs).
  destruct (decide (k = k')) as [<-|Hk].
  - destruct Hs as [Hs Hq], Ht as [Ht Hr]. rewrite Hs in Ht. rewrite Hq in Hr. injection Ht as <-. injection Hr as <-.
    apply Hne. apply (in_slot_inj i i' s s q x); [done|lia|done|done].
  - destruct (la_out_out _ Hlay k s q k' t r Hs Ht Hk) as [Hd|[<- He]].
    + pose proof (in_slot_range _ _ _ _ _ Hs Hi H1). pose proof (in_slot_range _ _ _ _ _ Ht Hi' H2). unfold disjoint in Hd. lia.
    + apply Hne. eapply (in_slot_inj i i' s t q x); eauto. lia.
Qed.

Record grid_inv (D : Z -> Prop) (m : gmap Z byte) : Prop := {
  gi_dom : forall x, is_Some (m !! x) <-> is_Some (m0 !! x);
  gi_same : forall x, (forall i k s q, D i -> output k s q -> ~ in_slot i s q x) -> m !! x = m0 !! x;
  gi_done : forall i j, D i -> (j < lanes)%nat -> exists val, graph_value u ns plan ins m0 (i * L + Z.of_nat j) val /\
    forall k s q, last_output k s q -> exists v, val (bs_node s) = Some v /\
      bytes_at m (q + (i * L + Z.of_nat j) * elem_bytes (bs_dtype s)) (out_bytes u (bs_dtype s) v)
}.

(** *** What a round reads is as it was *)
Lemma count_bound s x : s ∈ p_inputs plan -> 0 <= x < N -> 0 <= element (bs_bcast s) cols x < count (bs_bcast s).
Proof.
  intros Hs Hx. pose proof (po_cols _ _ _ Hentry) as Hc. fold cols in Hc. pose proof (la_rows _ Hlay).
  destruct (bs_bcast s); cbn [element count]; [done| |lia|].
  - apply Z.mod_pos_bound. lia.
  - split; [apply Z.div_pos; lia|]. apply Z.div_lt_upper_bound; [lia|]. unfold N in Hx. lia.
Qed.

Lemma elem_unchanged D m i j s p : grid_inv D m -> (forall i', D i' -> 0 <= i' < slots_n) -> ~ D i -> 0 <= i < slots_n -> 0 <= j < L ->
  input s p -> elem u (bs_dtype s) m p (element (bs_bcast s) cols (i * L + j)) = elem u (bs_dtype s) m0 p (element (bs_bcast s) cols (i * L + j)).
Proof.
  intros Hinv HD Hnd Hi Hj Hin. pose proof (in_bytes_pos _ _ Hin) as Hb. pose proof L_pos. pose proof slots_eq as HN.
  assert (Hx : 0 <= i * L + j < N) by nia.
  pose proof (count_bound s (i * L + j) (in_spec _ _ Hin) Hx) as Hc.
  apply elem_same. intros x Hxr. apply (gi_same _ _ Hinv). intros i' k t q Hi' Ho Hsl.
  pose proof (in_slot_range _ _ _ _ _ Ho (HD _ Hi') Hsl) as Hr.
  destruct (la_in_out _ Hlay s p k t q Hin Ho) as [Hd|(-> & Hf & He)].
  - unfold disjoint, in_bytes in Hd. nia.
  - rewrite Hf in Hxr. cbn [element] in Hxr.
    assert (Hsl2 : in_slot i s q x) by (unfold in_slot; nia).
    assert (i = i') by (eapply (in_slot_inj i i' s t q x); eauto; lia). by subst.
Qed.

Lemma graph_value_unchanged D m i j val : grid_inv D m -> (forall i', D i' -> 0 <= i' < slots_n) -> ~ D i -> 0 <= i < slots_n ->
  0 <= j < L -> graph_value u ns plan ins m (i * L + j) val -> graph_value u ns plan ins m0 (i * L + j) val.
Proof.
  intros Hinv HD Hnd Hi Hj [Hin Hc]. split; [|done]. intros k s p Hs Hp. destruct (Hin k s p Hs Hp) as (v & Hv & Hval).
  exists v. split; [|done]. rewrite <- Hv. symmetry. apply (elem_unchanged D m); try done. by exists k.
Qed.

(** *** One more round *)
(** The rights round [i] uses. *)
Definition round_may (i : Z) : Prop :=
  (forall s p j, input s p -> 0 <= j < L -> allowed (l_rd l) (p + element (bs_bcast s) cols (i * L + j) * elem_bytes (bs_dtype s)) (elem_bytes (bs_dtype s))) /\
  (forall k s q, output k s q -> allowed (l_wr l) (q + i * L * elem_bytes (bs_dtype s)) (L * elem_bytes (bs_dtype s))).

Lemma round_readable_writable D m i : grid_inv D m -> 0 <= i < slots_n -> N <= 2 ^ 32 -> round_may i -> round_ok l plan lanes ins outs i m.
Proof.
  intros Hinv Hi HN32 [Hrd Hwr]. pose proof slots_eq as HN. pose proof L_pos. split.
  - fold L. nia.
  - split; [apply (la_lengths _ Hlay)|]. intros k s p Hs Hp. assert (Hin : input s p) by (by exists k).
    destruct (la_ins _ Hlay s p Hin) as (H0 & Ha & Hr & Hm). split; [done|]. split; [done|]. intros j Hj. cbv zeta. fold L cols in Hj |- *.
    pose proof (count_bound s (i * L + j) (in_spec _ _ Hin) ltac:(nia)) as Hc. pose proof (in_bytes_pos _ _ Hin).
    unfold in_bytes in Hr, Hm. split; [nia|]. split; [|by apply Hrd]. intros x Hx. apply (gi_dom _ _ Hinv), Hm. nia.
  - split; [apply (la_lengths _ Hlay)|]. intros k s q Hs Hq. assert (Ho : output k s q) by done.
    destruct (la_outs _ Hlay k s q Ho) as (H0 & Ha & Hr & Hm). split; [done|]. split; [done|]. cbv zeta. fold L.
    pose proof (out_bytes_pos _ _ _ Ho). unfold out_size in Hr, Hm. rewrite HN in Hr, Hm.
    assert (Hle : (i + 1) * L * elem_bytes (bs_dtype s) <= slots_n * L * elem_bytes (bs_dtype s)) by nia.
    split; [nia|]. split; [|by eapply Hwr]. intros x Hx. apply (gi_dom _ _ Hinv), Hm. nia.
Qed.

(** The bytes of one element in those of a slot. *)
Lemma stored_element dt vs j v a m : vs !! j = Some v -> 0 <= elem_bytes dt -> bytes_at m a (stored_bytes u dt vs) ->
  bytes_at m (a + Z.of_nat j * elem_bytes dt) (out_bytes u dt v).
Proof.
  intros Hj Hb Hat. revert j a Hj Hat. induction vs as [|w vs IH]; intros j a Hj Hat; [done|].
  change (stored_bytes u dt (w :: vs)) with (out_bytes u dt w ++ stored_bytes u dt vs) in Hat. apply bytes_at_app in Hat as [H1 H2].
  destruct j as [|j]; cbn in Hj.
  - injection Hj as ->. by rewrite Z.mul_0_l, Z.add_0_r.
  - replace (a + Z.of_nat (S j) * elem_bytes dt) with (a + zlen (out_bytes u dt w) + Z.of_nat j * elem_bytes dt); [by apply IH|].
    unfold out_bytes. rewrite zlen_le_bytes. lia.
Qed.

Lemma grid_step D m i m' : grid_inv D m -> (forall i', D i' -> 0 <= i' < slots_n) -> ~ D i -> 0 <= i < slots_n ->
  round u ns plan lanes ins outs i m m' -> grid_inv (fun x => D x \/ x = i) m'.
Proof.
  intros Hinv HD Hnd Hi (ov & Hlen & Hval & Hst). pose proof L_pos.
  destruct (store_all_effect i _ _ ov m m' Hst) as (Hdom & Hout & Hat).
  { intros s Hs. split; [by apply Hlen|]. destruct (po_outputs _ _ _ Hentry s Hs) as [Hf _]. pose proof (lanes_fit_bytes _ _ Hf). lia. }
  split.
  - intros x. by rewrite Hdom, (gi_dom _ _ Hinv).
  - intros x Hx. rewrite Hout; [|intros k s q Hs Hq; apply (Hx i k s q); [by right|done]].
    apply (gi_same _ _ Hinv). intros i' k s q Hi' Ho. apply (Hx i' k s q); [by left|done].
  - intros i' j [Hi'| ->] Hj.
    + destruct (gi_done _ _ Hinv i' j Hi' Hj) as (val & Hg & Hv). exists val. split; [done|]. intros k s q Hl.
      destruct (Hv k s q Hl) as (v & Hvv & Hb). exists v. split; [done|]. intros b x Hbx. rewrite Hout; [by apply Hb|].
      intros k' t r Ht Hr. destruct Hl as [Ho _]. apply (slots_apart i' i k k' s q t r); try done; [by apply HD|congruence|].
      apply lookup_lt_Some in Hbx. unfold out_bytes in Hbx. rewrite length_le_bytes in Hbx. pose proof (out_bytes_pos _ _ _ Ho). unfold in_slot. fold L. nia.
    + destruct (Hval j Hj) as (val & Hg & Hv). exists val. fold L in Hg. split.
      { apply (graph_value_unchanged D m); try done. unfold L. lia. }
      intros k s q [Ho Hlast]. destruct (Hv s (out_spec _ _ _ Ho)) as (v & Hov & Hvv). exists v. split; [done|].
      pose proof (out_bytes_pos _ _ _ Ho). destruct Ho as [Hs Hq].
      assert (Hslot : slot_bytes i s q m' (ov (bs_node s))).
      { apply (Hat k); [done|done|]. intros k' t r x Ht Hr Hk H1 H2. assert (Ho' : output k' t r) by done.
        destruct (la_out_out _ Hlay k s q k' t r (conj Hs Hq) Ho' ltac:(lia)) as [Hd|[E _]]; [|by eapply Hlast].
        pose proof (in_slot_range _ _ _ _ _ (conj Hs Hq : output k s q) Hi H1). pose proof (in_slot_range _ _ _ _ _ Ho' Hi H2).
        unfold disjoint in Hd. lia. }
      unfold slot_bytes in Hslot. replace (q + (i * L + Z.of_nat j) * elem_bytes (bs_dtype s)) with
        (q + i * L * elem_bytes (bs_dtype s) + Z.of_nat j * elem_bytes (bs_dtype s)) by ring.
      apply (stored_element (bs_dtype s) (ov (bs_node s)) j v); [done|lia|exact Hslot].
Qed.

Lemma grid_inv_start : grid_inv (fun _ => False) m0.
Proof. by split. Qed.

Lemma grid_inv_ext D D' m : (forall i, D i <-> D' i) -> grid_inv D m -> grid_inv D' m.
Proof.
  intros HD [H1 H2 H3]. split; [done| |].
  - intros x Hx. apply H2. intros i k s q Hi. apply Hx. by apply HD.
  - intros i j Hi. apply H3. by apply HD.
Qed.
End Grid.
