(* ===== verification/PtxThread.v ===== *)
(** * A thread runs its rounds

    The code of an entry as a whole: its prologue, its loop and how a thread
    steps through it, and that a thread of a launch ends and does exactly the
    rounds of its grid-stride loop. *)
From stdpp Require Import functions relations.
From S2P Require Import Prelude Dtype Device Heap Tensor TraceDag TraceSpec TracePlan TracePlanSpec Ptx PtxSpec PtxDiv PtxChain PtxChainSpec PtxMemory PtxKernel PtxBody PtxGrid.

(** ** The machine *)
Section Machine.
Context (u : fpu) (l : launch).

Lemma exec1_straight s i s' : exec1 u l s i = Some s' -> match i with Label _ | BraIf _ _ | Bra _ | RetI => False | _ => True end.
Proof. by destruct i. Qed.

Lemma find_label_skip c r x n s s' : exec u l c s = Some s' -> find_label n (c ++ r) x = find_label (n + length c) r x.
Proof.
  revert n s. induction c as [|i c IH]; intros n s Hx; cbn [app length]; [f_equal; lia|].
  cbn [exec] in Hx. destruct (exec1 u l s i) as [s1|] eqn:E; [|done]. cbn in Hx. pose proof (exec1_straight _ _ _ E) as Hs.
  replace (n + S (length c))%nat with (S n + length c)%nat by lia. rewrite <- (IH (S n) s1 Hx). by destruct i.
Qed.

Lemma exec_steps code c1 seg c2 s s' : code = c1 ++ seg ++ c2 -> exec u l seg s = Some s' ->
  rtc (step u l code) (length c1, s) ((length c1 + length seg)%nat, s').
Proof.
  revert c1 s. induction seg as [|i seg IH]; intros c1 s Hc Hx.
  { injection Hx as <-. rewrite Nat.add_0_r. apply rtc_refl. }
  cbn [exec] in Hx. destruct (exec1 u l s i) as [s1|] eqn:E; [|done]. cbn in Hx.
  eapply rtc_l.
  - eapply step_exec; [|exact E]. rewrite Hc. rewrite lookup_app_r, Nat.sub_diag by lia. done.
  - replace (length c1 + length (i :: seg))%nat with (length (c1 ++ [i]) + length seg)%nat by (rewrite length_app; cbn; lia).
    replace (S (length c1)) with (length (c1 ++ [i])) by (rewrite length_app; cbn; lia).
    apply IH; [|done]. rewrite Hc, <- app_assoc. done.
Qed.

(** A thread has one run. *)
Lemma step_det code x y z : step u l code x y -> step u l code x z -> y = z.
Proof.
  intros H1 H2. inversion H1; subst; inversion H2; subst; try congruence;
    repeat match goal with
    | H : code !! ?pc = Some ?i, H' : code !! ?pc = Some ?j |- _ => rewrite H in H'; injection H' as ?; subst
    end; try done; try congruence;
    match goal with H : exec1 u l _ _ = Some _ |- _ => by apply exec1_straight in H end.
Qed.

Lemma ret_stops code pc s y : code !! pc = Some RetI -> ~ step u l code (pc, s) y.
Proof.
  intros Hr H. inversion H; subst; try congruence.
  match goal with H : code !! pc = Some ?i, H' : exec1 u l _ ?i = Some _ |- _ => rewrite Hr in H; injection H as <-; by apply exec1_straight in H' end.
Qed.

Lemma returns_det code s m m' : returns u l code s m -> returns u l code s m' -> m = m'.
Proof.
  intros (pc & s1 & H1 & R1 & <-) (pc' & s2 & H2 & R2 & <-).
  assert (Hend : forall x a, rtc (step u l code) x a -> forall b, rtc (step u l code) x b ->
    (forall y, ~ step u l code a y) -> (forall y, ~ step u l code b y) -> a = b).
  { intros x a Hxa. induction Hxa as [x|x y a Hxy Hya IH]; intros b Hxb Ha Hb.
    - inversion Hxb as [|? z ? Hz]; subst; [done|]. by destruct (Ha z).
    - inversion Hxb as [|? z ? Hz Hzb]; subst; [by destruct (Hb y)|]. rewrite (step_det code x z y Hz Hxy) in Hzb. by apply IH. }
  assert (E : (pc, s1) = (pc', s2)).
  { apply (Hend _ _ H1 _ H2); intros y; by apply ret_stops. }
  by injection E as _ ->.
Qed.
End Machine.

(** ** The prologue *)
Section Prologue.
Context (u : fpu) (plan : ElementwisePlan).

(** What the prologue leaves, with the index of the first round in [g_i]. *)
Record regs_ready (g : EntryRegs) (n i stride : Z) (ins outs : list Z) (e : emitter) (s : thread) : Prop := {
  rg_n : rr s (g_n g) = n;
  rg_i : rr s (g_i g) = i;
  rg_stride : rr s (g_stride g) = stride;
  rg_in : ptrs_ok (g_in g) ins e s;
  rg_out : ptrs_ok (g_out g) outs e s
}.

Record regs_shape (g : EntryRegs) (e : emitter) : Prop := {
  rs_n : g_n g < a_r (em_alloc e); rs_i : g_i g < a_r (em_alloc e); rs_stride : g_stride g < a_r (em_alloc e);
  rs_oob : g_oob g < a_p (em_alloc e);
  rs_ni : g_n g <> g_i g; rs_si : g_stride g <> g_i g
}.

Lemma over_put_all l a0 code e s s' : exec u l code s = Some s' -> keeps a0 s s' ->
  over u l a0 (put_all code) e s tt (mkEmitter (em_alloc e) (em_out e ++ code)) s'.
Proof. intros Hx Hk. split; [exists code; split; [apply put_all_run|done]|done|done]. Qed.

Lemma load_pointers_run l mk i specs vals e s : length vals = length specs ->
  (forall k v d s0, vals !! k = Some v -> exec1 u l s0 (LdParamU64 d (mk (i + Z.of_nat k))) = Some (set_rd d v s0)) ->
  exists ptrs e' s', emitted u l (load_pointers mk i specs) e s ptrs e' s' /\ ptrs_ok ptrs vals e' s' /\ gm s' = gm s /\
    a_r (em_alloc e') = a_r (em_alloc e) /\ a_p (em_alloc e') = a_p (em_alloc e).
Proof.
  revert i vals e s. induction specs as [|sp specs IH]; intros i vals e s Hl Hv.
  { destruct vals; [|discriminate Hl]. exists [], e, s. split; [apply emitted_ret|]. split; [constructor|done]. }
  destruct vals as [|v vals]; [discriminate Hl|].
  set (rd := a_rd (em_alloc e)). set (e1 := mkEmitter (bump_rd (em_alloc e)) (em_out e ++ [LdParamU64 rd (mk i)])). set (s1 := set_rd rd v s).
  destruct (IH (i + 1) vals e1 s1) as (ptrs & e2 & s2 & He2 & Hp & Hg & Hr2 & Hp2); [cbn in Hl; lia| |].
  { intros k w d s0 Hk. replace (i + 1 + Z.of_nat k) with (i + Z.of_nat (S k)) by lia. by apply Hv. }
  assert (Hx : exec1 u l s (LdParamU64 rd (mk i)) = Some s1).
  { specialize (Hv 0%nat v rd s eq_refl). by rewrite Z.add_0_r in Hv. }
  pose proof (emitted_alloc _ _ _ _ _ _ _ _ He2) as Hle. pose proof (emitted_kept _ _ _ _ _ _ _ _ He2) as Hk.
  exists (rd :: ptrs), e2, s2. split; [|split; [|done]].
  - apply over_emitted. cbn [load_pointers]. eapply over_bind; [apply (over_new u l); [done|split; cbn; lia]|].
    eapply over_bind; [apply over_put; [exact Hx|apply keeps_set_rd; [done|apply keeps_refl]]|].
    eapply over_bind; [apply emitted_over; [split; cbn; lia|exact He2]|apply over_ret].
  - constructor; [|done]. pose proof (le_rd _ _ Hle) as Hrd. cbn in Hrd. split; [unfold rd; lia|].
    rewrite (keep_rd _ _ _ Hk) by (cbn; unfold rd; lia). apply fn_lookup_insert.
Qed.

Definition first_round (l : launch) : Z := u32 (l_ctaid l * l_ntid l + l_tid l).
Definition stride_of (l : launch) : Z := u32 (l_ntid l * l_nctaid l).

Lemma emit_ew_prologue_run l s : length (l_outs l) = length (p_outputs plan) -> length (l_ins l) = length (p_inputs plan) ->
  exists g e1 s1, emit_ew_prologue plan empty_emitter = (Ret g, e1) /\ exec u l (em_out e1) s = Some s1 /\ gm s1 = gm s /\
    regs_shape g e1 /\ regs_ready g (l_n l) (first_round l) (stride_of l) (l_ins l) (l_outs l) e1 s1.
Proof.
  intros Hlo Hli. set (e0 := mkEmitter (mkAlloc 0 7 0 0 1) [LdParamU32 0 PN]). set (s0 := set_r 0 (l_n l) s).
  destruct (load_pointers_run l POut 0 (p_outputs plan) (l_outs l) e0 s0 Hlo) as (out_ptr & e1 & s1 & He1 & Hp1 & Hg1 & Hr1 & Hpp1).
  { intros k v d st Hk. cbn [exec1]. replace (Z.to_nat (0 + Z.of_nat k)) with k by lia. by rewrite Hk. }
  destruct (load_pointers_run l PIn 0 (p_inputs plan) (l_ins l) e1 s1 Hli) as (in_ptr & e2 & s2 & He2 & Hp2 & Hg2 & Hr2 & Hpp2).
  { intros k v d st Hk. cbn [exec1]. replace (Z.to_nat (0 + Z.of_nat k)) with k by lia. by rewrite Hk. }
  set (mid := [MovSpecial 1 TidX; MovSpecial 2 NtidX; MovSpecial 3 CtaidX; MovSpecial 4 NctaidX; MadLoU32 5 3 2 1; MulLoReg 6 2 4]).
  assert (Hx3 : exists s3, exec u l mid s2 = Some s3 /\ rr s3 0 = rr s2 0 /\ rr s3 5 = first_round l /\ rr s3 6 = stride_of l /\
    rrd s3 = rrd s2 /\ gm s3 = gm s2 /\ keeps (mkAlloc 0 0 0 0 0) s2 s3).
  { eexists. split; [reflexivity|]. cbn -[u32]. reg_lookup. split_and!; try done. regs_kept. }
  destruct Hx3 as (s3 & Hx3 & H30 & H35 & H36 & H3rd & H3g & H3k).
  set (e3 := mkEmitter (em_alloc e2) (em_out e2 ++ mid)). set (g := mkRegs 0 5 6 0 out_ptr in_ptr).
  assert (Hrun : over u l (mkAlloc 0 0 0 0 0) (emit_ew_prologue plan) empty_emitter s g e3 s3).
  { unfold emit_ew_prologue.
    do 7 (eapply over_bind; [apply (over_new u l); [reflexivity|split; cbn; lia]|]).
    eapply over_bind; [apply (over_new u l); [reflexivity|split; cbn; lia]|].
    eapply over_bind; [apply over_put with (s' := s0); [reflexivity|regs_kept]|].
    eapply over_bind; [apply emitted_over; [split; cbn; lia|exact He1]|].
    eapply over_bind; [apply emitted_over; [|exact He2]|].
    { etrans; [|apply (emitted_alloc _ _ _ _ _ _ _ _ He1)]. split; cbn; lia. }
    eapply over_bind; [apply over_put_all; [exact Hx3|exact H3k]|]. apply over_ret. }
  destruct Hrun as [(code & Hr & Ho & Hx) _ _]. cbn [em_out empty_emitter app] in Ho.
  exists g, e3, s3. split; [exact Hr|]. split; [by rewrite Ho|]. split; [by rewrite H3g, Hg2, Hg1|].
  pose proof (emitted_kept _ _ _ _ _ _ _ _ He1) as K1. pose proof (emitted_kept _ _ _ _ _ _ _ _ He2) as K2. pose proof (emitted_alloc _ _ _ _ _ _ _ _ He2) as L2.
  split.
  - unfold g, e3. split; cbn [g_n g_i g_stride g_oob em_alloc]; try lia; rewrite ?Hr2, ?Hr1, ?Hpp2, ?Hpp1; cbn; lia.
  - unfold g. split; cbn [g_n g_i g_stride g_in g_out]; try done.
    + rewrite H30, (keep_r _ _ _ K2), (keep_r _ _ _ K1) by (rewrite ?Hr1; cbn; lia). apply fn_lookup_insert.
    + eapply Forall2_impl; [exact Hp2|]. cbn. intros r p [? ?]. by rewrite H3rd.
    + assert (Hp1' : ptrs_ok out_ptr (l_outs l) e2 s2) by (eapply ptrs_ok_keep; [exact Hp1|exact L2|exact K2]).
      eapply Forall2_impl; [exact Hp1'|]. cbn. intros r p [? ?]. by rewrite H3rd.
Qed.
End Prologue.
