(* ===== verification/PtxLoop.v ===== *)
(** * The grid-stride loop

    The code of an entry as a whole, and its loop: a thread that starts at the
    loop's head with index [i] ends, having done exactly the rounds [i],
    [i + stride], ... below the number of slots it was given. *)
From stdpp Require Import functions relations.
From S2P Require Import Prelude Dtype Device Heap Tensor TraceDag TraceSpec TracePlan TracePlanSpec Ptx PtxSpec PtxDiv PtxChain PtxChainSpec PtxMemory PtxKernel PtxBody PtxGrid PtxThread.

(** ** The code of an entry *)
Definition loop_head (g : EntryRegs) : list instr := [Label Head; SetpGeU32 (g_oob g) (g_i g) (g_n g); BraIf (g_oob g) Exit].
Definition loop_tail (g : EntryRegs) : list instr := [AddU32 (g_i g) (g_i g) (g_stride g); Bra Head; Label Exit; RetI].

(** The parts of an entry's code. *)
Record entry_code (ns : list TraceNode) (plan : ElementwisePlan) (lanes : nat) (code : list instr) (g : EntryRegs) (e1 : emitter)
    (body : list instr) : Prop := {
  ec_prologue : emit_ew_prologue plan empty_emitter = (Ret g, e1);
  ec_body : exists e2, emit_ew_body ns plan lanes (g_out g) (g_in g) (g_i g) (mkEmitter (em_alloc e1) (em_out e1 ++ loop_head g)) = (Ret tt, e2) /\
    em_out e2 = (em_out e1 ++ loop_head g) ++ body;
  ec_code : code = em_out e1 ++ loop_head g ++ body ++ loop_tail g;
  ec_no_labels : forall r x k, find_label k (em_out e1 ++ r) x = find_label (k + length (em_out e1)) r x /\
    find_label k (body ++ r) x = find_label (k + length body) r x;
  ec_shape : regs_shape g e1
}.

Section Emission.
Context (u : fpu) (ns : list TraceNode) (plan : ElementwisePlan) (lanes : nat) (Hentry : entry_ok ns plan lanes).

(** A memory and buffers on which the first round runs. *)
Definition blank : gmap Z byte := list_to_map (map (fun x => (Z.of_nat x, x00)) (seq 0 64)).
Definition at_zero (specs : list BufferSpec) : list Z := replicate (length specs) 0.

Lemma blank_mapped : mapped blank 0 64.
Proof.
  intros x Hx. unfold blank. exists x00. apply elem_of_list_to_map_1.
  - rewrite <- list_fmap_compose. apply NoDup_fmap_2; [intros a b H; cbn in H; lia|apply NoDup_seq].
  - apply list_elem_of_fmap. exists (Z.to_nat x). split; [by rewrite Z2Nat.id by lia|]. apply elem_of_seq. lia.
Qed.

Lemma at_zero_lookup specs k p : at_zero specs !! k = Some p -> p = 0.
Proof. intros H. by apply lookup_replicate in H as [-> _]. Qed.

Lemma element_small bk j : 0 <= j -> 0 <= element bk (p_cols plan) j <= j.
Proof.
  intros Hj. pose proof (po_cols _ _ _ Hentry) as Hc. destruct bk; cbn [element]; [lia| |lia|].
  - split; [apply Z.mod_pos_bound; lia|apply Z.mod_le; lia].
  - split; [apply Z.div_pos; lia|apply Z.div_le_upper_bound; nia].
Qed.

Lemma blank_round l : l_rd l = anywhere -> l_wr l = anywhere -> round_ok l plan lanes (at_zero (p_inputs plan)) (at_zero (p_outputs plan)) 0 blank.
Proof.
  intros Hrd Hwr. assert (HL : 1 <= Z.of_nat lanes <= 8) by (destruct (po_lanes _ _ _ Hentry) as [->|[->|[->| ->]]]; lia).
  assert (Hal : forall w, aligned 0 w = true) by (intros w; unfold aligned; by rewrite Zmod_0_l).
  split.
  - lia.
  - split; [apply length_replicate|]. intros k s p Hs Hp. apply at_zero_lookup in Hp as ->.
    destruct (po_inputs _ _ _ Hentry s (list_elem_of_lookup_2 _ _ _ Hs)) as [Hf _]. apply lanes_fit_bytes in Hf.
    split; [done|]. split; [apply Hal|]. intros j Hj. cbv zeta. pose proof (element_small (bs_bcast s) j ltac:(lia)) as He.
    rewrite Z.mul_0_l, !Z.add_0_l. split; [nia|]. split; [apply (mapped_sub _ _ _ _ _ blank_mapped); nia|by rewrite ?Hrd, ?Hwr].
  - split; [apply length_replicate|]. intros k s p Hs Hp. apply at_zero_lookup in Hp as ->.
    destruct (po_outputs _ _ _ Hentry s (list_elem_of_lookup_2 _ _ _ Hs)) as [Hf _]. apply lanes_fit_bytes in Hf.
    split; [done|]. split; [apply Hal|]. cbv zeta. split; [nia|]. split; [apply (mapped_sub _ _ _ _ _ blank_mapped); nia|by rewrite ?Hrd, ?Hwr].
Qed.

(** Emission for such a plan returns. *)
Lemma emit_ew_code_returns : exists code g e1 body e, emit_ew_code ns plan lanes empty_emitter = (Ret tt, e) /\ em_out e = code /\
  entry_code ns plan lanes code g e1 body.
Proof.
  set (l0 := mkLaunch 0 1 0 1 0 (at_zero (p_outputs plan)) (at_zero (p_inputs plan)) anywhere anywhere).
  set (s0 := mkThread (fun _ => 0) (fun _ => 0) (fun _ => 0) (fun _ => 0) (fun _ => false) blank).
  destruct (emit_ew_prologue_run u plan l0 s0) as (g & e1 & s1 & He1 & Hx1 & Hg1 & Hshape & Hready); [apply length_replicate..|].
  set (eh := mkEmitter (em_alloc e1) (em_out e1 ++ loop_head g)).
  destruct (emit_ew_body_run u l0 ns plan lanes Hentry (at_zero (p_inputs plan)) (at_zero (p_outputs plan)) 0) with
    (r_i := g_i g) (out_ptr := g_out g) (in_ptr := g_in g) (e := eh) (s := s1) as (e2 & s2 & [(body & Hb & Ho & Hxb) _ _] & _).
  { done. }
  { destruct (po_lanes _ _ _ Hentry) as [->|[->|[->| ->]]]; lia. }
  { apply (rs_i _ _ Hshape). }
  { rewrite (rg_i _ _ _ _ _ _ _ _ Hready). done. }
  { rewrite Hg1. by apply blank_round. }
  { apply (rg_in _ _ _ _ _ _ _ _ Hready). }
  { apply (rg_out _ _ _ _ _ _ _ _ Hready). }
  exists (em_out e1 ++ loop_head g ++ body ++ loop_tail g), g, e1, body, (mkEmitter (em_alloc e2) (em_out e1 ++ loop_head g ++ body ++ loop_tail g)).
  split; [|split; [done|split; [done|by exists e2|done| |done]]].
  2:{ intros r x k. split; [exact (find_label_skip _ _ _ _ _ _ _ _ Hx1)|exact (find_label_skip _ _ _ _ _ _ _ _ Hxb)]. }
  unfold emit_ew_code. rewrite (st_bind_ret _ _ _ g e1 He1). rewrite (st_bind_ret _ _ _ tt eh) by apply put_all_run.
  rewrite (st_bind_ret _ _ _ tt e2 Hb). rewrite (put_all_run (loop_tail g)). rewrite Ho. cbn. by rewrite <- !app_assoc.
Qed.
End Emission.

(** ** The loop *)
Section Loop.
Context (u : fpu) (l : launch) (ns : list TraceNode) (plan : ElementwisePlan) (lanes : nat) (Hentry : entry_ok ns plan lanes).
Context (rows : Z) (m0 : gmap Z byte) (Hlay : layout_ok plan lanes (l_ins l) (l_outs l) rows m0) (HN : rows * p_cols plan <= 2 ^ 32).
Context (code : list instr) (g : EntryRegs) (e1 : emitter) (body : list instr) (Hcode : entry_code ns plan lanes code g e1 body).
Let n := slots_n plan lanes rows.
Let ready := regs_ready g n.
Let may_round := round_may l plan lanes (l_ins l) (l_outs l).
Let inv := grid_inv u ns plan lanes (l_ins l) (l_outs l) m0.
Let head := length (em_out e1).
Let tail := (head + 3 + length body)%nat.

(** Where the loop's instructions are. *)
Lemma at_head k i : loop_head g !! k = Some i -> code !! (head + k)%nat = Some i.
Proof.
  intros Hk. rewrite (ec_code _ _ _ _ _ _ _ Hcode). rewrite lookup_app_r by (unfold head; lia).
  replace (head + k - length (em_out e1))%nat with k by (unfold head; lia). by apply lookup_app_l_Some.
Qed.
Lemma at_tail k i : loop_tail g !! k = Some i -> code !! (tail + k)%nat = Some i.
Proof.
  intros Hk. rewrite (ec_code _ _ _ _ _ _ _ Hcode). unfold tail, head.
  rewrite lookup_app_r by lia. rewrite lookup_app_r by (cbn; lia). rewrite lookup_app_r by (cbn; lia).
  rewrite <- Hk. f_equal. cbn. lia.
Qed.

Lemma label_head : find_label 0 code Head = Some head.
Proof. rewrite (ec_code _ _ _ _ _ _ _ Hcode). by rewrite (proj1 (ec_no_labels _ _ _ _ _ _ _ Hcode _ _ _)). Qed.
Lemma label_exit : find_label 0 code Exit = Some (tail + 2)%nat.
Proof.
  rewrite (ec_code _ _ _ _ _ _ _ Hcode). rewrite (proj1 (ec_no_labels _ _ _ _ _ _ _ Hcode _ _ _)). cbn [loop_head app find_label label_eqb].
  rewrite (proj2 (ec_no_labels _ _ _ _ _ _ _ Hcode _ _ _)). cbn. f_equal. unfold tail, head. lia.
Qed.

Lemma ready_keep i stride s s' : keeps (em_alloc e1) s s' -> ready i stride (l_ins l) (l_outs l) e1 s ->
  ready i stride (l_ins l) (l_outs l) e1 s'.
Proof.
  intros Hk [Hn Hi Hst Hin Hout]. destruct (ec_shape _ _ _ _ _ _ _ Hcode) as [Sn Si Sst Sp _ _].
  split; [by rewrite (keep_r _ _ _ Hk)..| |].
  - eapply ptrs_ok_keep; [exact Hin|done|exact Hk].
  - eapply ptrs_ok_keep; [exact Hout|done|exact Hk].
Qed.

(** One round. *)
Lemma body_run i stride s : ready i stride (l_ins l) (l_outs l) e1 s -> 0 <= i -> round_ok l plan lanes (l_ins l) (l_outs l) i (gm s) ->
  exists s', exec u l body s = Some s' /\ keeps (em_alloc e1) s s' /\ round u ns plan lanes (l_ins l) (l_outs l) i (gm s) (gm s').
Proof.
  intros Hr Hi Hround. destruct (ec_body _ _ _ _ _ _ _ Hcode) as (e2 & He2 & Ho2).
  destruct (emit_ew_body_run u l ns plan lanes Hentry (l_ins l) (l_outs l) i Hi (proj2 (ro_index _ _ _ _ _ _ _ Hround))
    (g_i g) (g_out g) (g_in g) (mkEmitter (em_alloc e1) (em_out e1 ++ loop_head g)) s) as (e' & s' & [(c & Hc & Ho & Hx) _ Hk] & Hrd); try done.
  { apply (rs_i _ _ (ec_shape _ _ _ _ _ _ _ Hcode)). }
  { apply (rg_i _ _ _ _ _ _ _ _ Hr). }
  { apply (rg_in _ _ _ _ _ _ _ _ Hr). }
  { apply (rg_out _ _ _ _ _ _ _ _ Hr). }
  exists s'. split; [|done]. rewrite He2 in Hc. injection Hc as <-. rewrite Ho2 in Ho. apply app_inv_head in Ho as ->. exact Hx.
Qed.

(** From the head to the head of the next round, or to the end. *)
Definition compared (i : Z) (s : thread) : thread := set_p (g_oob g) (n <=? i) s.

Lemma compare_steps i stride s : ready i stride (l_ins l) (l_outs l) e1 s ->
  rtc (step u l code) (head, s) ((head + 2)%nat, compared i s) /\ ready i stride (l_ins l) (l_outs l) e1 (compared i s).
Proof.
  intros Hr. split.
  - eapply rtc_l; [apply (step_label _ _ _ _ _ Head); rewrite <- (Nat.add_0_r head); by apply at_head|].
    replace (S head) with (head + 1)%nat by lia. eapply rtc_l; [eapply step_exec; [by apply at_head|]|].
    + cbn [exec1]. by rewrite (rg_n _ _ _ _ _ _ _ _ Hr), (rg_i _ _ _ _ _ _ _ _ Hr).
    + replace (S (head + 1)) with (head + 2)%nat by lia. apply rtc_refl.
  - destruct Hr as [Hn Hi Hst Hin Hout]. by split.
Qed.

Lemma exit_steps i stride s : ready i stride (l_ins l) (l_outs l) e1 s -> n <= i ->
  exists pc s', rtc (step u l code) (head, s) (pc, s') /\ code !! pc = Some RetI /\ gm s' = gm s.
Proof.
  intros Hr Hi. destruct (compare_steps i stride s Hr) as [Hsteps _]. exists (tail + 3)%nat, (compared i s).
  split; [|split; [by apply at_tail|done]]. etrans; [exact Hsteps|].
  eapply rtc_l; [eapply (step_taken _ _ _ _ _ (g_oob g) Exit); [by apply at_head| |exact label_exit]|].
  { cbn. rewrite fn_lookup_insert. by apply Z.leb_le. }
  eapply rtc_l; [apply (step_label _ _ _ _ _ Exit); by apply at_tail|]. replace (S (tail + 2)) with (tail + 3)%nat by lia. apply rtc_refl.
Qed.

Lemma round_steps i stride s : ready i stride (l_ins l) (l_outs l) e1 s -> 0 <= i < n -> 0 < stride -> n + stride <= 2 ^ 32 ->
  round_ok l plan lanes (l_ins l) (l_outs l) i (gm s) ->
  exists s', rtc (step u l code) (head, s) (head, s') /\ ready (i + stride) stride (l_ins l) (l_outs l) e1 s' /\
    round u ns plan lanes (l_ins l) (l_outs l) i (gm s) (gm s').
Proof.
  intros Hr Hi Hst Hb Hround. destruct (compare_steps i stride s Hr) as [Hsteps Hr1].
  destruct (body_run i stride (compared i s) Hr1) as (s2 & Hx & Hk & Hrd); [lia|done|].
  pose proof (ready_keep _ _ _ _ Hk Hr1) as [Hn2 Hi2 Hst2 Hin2 Hout2]. destruct (ec_shape _ _ _ _ _ _ _ Hcode) as [Sn Si Sst Sp Sni Ssi].
  exists (set_r (g_i g) (u32 (i + stride)) s2). split; [|split; [|done]].
  - etrans; [exact Hsteps|].
    eapply rtc_l; [apply (step_fall _ _ _ _ _ (g_oob g) Exit); [by apply at_head|]|].
    { cbn. rewrite fn_lookup_insert. apply Z.leb_gt. lia. }
    replace (S (head + 2)) with (length (em_out e1 ++ loop_head g)) by (rewrite length_app; cbn; unfold head; lia).
    etrans; [apply (exec_steps u l code (em_out e1 ++ loop_head g) body (loop_tail g) _ s2); [|exact Hx]|].
    { rewrite (ec_code _ _ _ _ _ _ _ Hcode). by rewrite <- app_assoc. }
    replace (length (em_out e1 ++ loop_head g) + length body)%nat with (tail + 0)%nat by (rewrite length_app; cbn; unfold tail, head; lia).
    eapply rtc_l; [eapply step_exec; [by apply at_tail|cbn [exec1]; by rewrite Hi2, Hst2]|].
    replace (S (tail + 0)) with (tail + 1)%nat by lia.
    eapply rtc_l; [eapply (step_bra _ _ _ _ _ Head); [by apply at_tail|exact label_head]|]. apply rtc_refl.
  - split; cbn; rewrite ?fn_lookup_insert, ?fn_lookup_insert_ne by done; try done. apply u32_id. lia.
Qed.

(** The rounds of a thread that starts at [i]. *)
Definition rounds_from (i stride x : Z) : Prop := exists k, 0 <= k /\ x = i + k * stride /\ x < n.

Lemma rounds_from_step i stride x : 0 < stride -> i < n -> rounds_from i stride x <-> x = i \/ rounds_from (i + stride) stride x.
Proof.
  intros Hst Hi. split.
  - intros (k & Hk & -> & Hx). destruct (decide (k = 0)) as [->|]; [left; lia|]. right. exists (k - 1). split; [lia|]. split; [ring|done].
  - intros [-> |(k & Hk & -> & Hx)]; [exists 0|exists (k + 1)]; (split; [lia|split; [ring|done]]).
Qed.
Lemma rounds_from_none i stride x : 0 < stride -> n <= i -> ~ rounds_from i stride x.
Proof. intros Hst Hi (k & Hk & -> & Hx). nia. Qed.
Lemma rounds_from_range i stride x : 0 < stride -> 0 <= i -> rounds_from i stride x -> i <= x < n.
Proof. intros Hst Hi (k & Hk & -> & Hx). nia. Qed.

Lemma loop_run (k : nat) : forall i stride s D, n - i <= Z.of_nat k -> ready i stride (l_ins l) (l_outs l) e1 s -> 0 <= i -> 0 < stride ->
  n + stride <= 2 ^ 32 -> inv D (gm s) -> (forall x, D x -> 0 <= x < n) -> (forall x, rounds_from i stride x -> ~ D x) ->
  (forall x, rounds_from i stride x -> may_round x) ->
  exists pc s', rtc (step u l code) (head, s) (pc, s') /\ code !! pc = Some RetI /\ inv (fun x => D x \/ rounds_from i stride x) (gm s').
Proof.
  induction k as [|k IH]; intros i stride s D Hk Hr Hi Hst Hb Hinv HD Hnew Hmay.
  all: destruct (Z.le_gt_cases n i) as [Hge|Hlt]; [|try lia].
  1,2: destruct (exit_steps i stride s Hr Hge) as (pc & s' & Hs & Hret & Hg); exists pc, s'; split; [done|]; split; [done|];
    rewrite Hg; eapply grid_inv_ext; [|exact Hinv]; intros x; split; [by left|intros [H|H]; [done|by apply rounds_from_none in H]].
  destruct (round_steps i stride s Hr) as (s1 & Hs1 & Hr1 & Hrd); [lia|done|done| |].
  { eapply round_readable_writable; [exact Hentry|exact Hlay|exact Hinv|fold n; lia|exact HN|]. apply Hmay. by exists 0; lia. }
  assert (Hii : rounds_from i stride i) by (exists 0; lia).
  assert (Hinv1 : inv (fun x => D x \/ x = i) (gm s1)).
  { eapply grid_step; [exact Hentry|exact Hlay|exact Hinv|exact HD|by apply Hnew|fold n; lia|exact Hrd]. }
  destruct (IH (i + stride) stride s1 (fun x => D x \/ x = i)) as (pc & s2 & Hs2 & Hret & Hinv2); try done; try lia.
  { intros x [Hx | ->]; [by apply HD|lia]. }
  { intros x Hx [Hd | ->]; [revert Hd; apply Hnew; apply rounds_from_step; [done|done|by right]|].
    apply rounds_from_range in Hx; lia. }
  { intros x Hx. apply Hmay, rounds_from_step; [done|done|by right]. }
  exists pc, s2. split; [by etrans|]. split; [done|]. eapply grid_inv_ext; [|exact Hinv2]. intros x. cbn.
  rewrite (rounds_from_step i stride x Hst Hlt). tauto.
Qed.

(** ** A thread *)
Lemma thread_run s D : l_n l = n -> n + stride_of l <= 2 ^ 32 -> 0 < stride_of l -> inv D (gm s) -> (forall x, D x -> 0 <= x < n) ->
  (forall x, rounds_from (first_round l) (stride_of l) x -> ~ D x) -> (forall x, rounds_from (first_round l) (stride_of l) x -> may_round x) ->
  exists m, returns u l code s m /\ inv (fun x => D x \/ rounds_from (first_round l) (stride_of l) x) m.
Proof.
  intros Hn Hb Hst Hinv HD Hnew Hmay. destruct (la_lengths _ _ _ _ _ _ Hlay) as [Hli Hlo].
  destruct (emit_ew_prologue_run u plan l s Hlo Hli) as (g' & e1' & s1 & He & Hx & Hg & _ & Hr).
  rewrite (ec_prologue _ _ _ _ _ _ _ Hcode) in He. injection He as <- <-. rewrite Hn in Hr.
  destruct (loop_run (Z.to_nat n) (first_round l) (stride_of l) s1 D) as (pc & s2 & Hs & Hret & Hinv2); try done.
  { unfold first_round, u32. pose proof (Z.mod_pos_bound (l_ctaid l * l_ntid l + l_tid l) (2 ^ 32)). lia. }
  { unfold first_round, u32. apply Z.mod_pos_bound. lia. }
  { by rewrite Hg. }
  exists (gm s2). split; [|exact Hinv2]. exists pc, s2. split; [|done]. etrans; [|exact Hs].
  exact (exec_steps u l code [] (em_out e1) (loop_head g ++ body ++ loop_tail g) s s1 (ec_code _ _ _ _ _ _ _ Hcode) Hx).
Qed.
End Loop.
