(* ===== verification/PtxConcurrent.v ===== *)
(** * Threads that run at once

    The threads of a launch run interleaved, instruction by instruction, over
    one memory ([cstep]). A thread that runs to its end alone, with rights to
    less than all of memory, has shown what it touches: threads whose rights
    do not conflict run to their ends in every interleaving, and each finds and
    leaves what it would alone. *)
From stdpp Require Import functions relations.
From S2P Require Import Prelude Ptx PtxSpec PtxMemory PtxKernel PtxThread.

Definition with_rights (l : launch) (rd wr : Z -> bool) : launch :=
  mkLaunch (l_tid l) (l_ntid l) (l_ctaid l) (l_nctaid l) (l_n l) (l_outs l) (l_ins l) rd wr.

(** Memory [m'] is [m] where [p] holds. *)
Definition agree (p : Z -> bool) (m m' : gmap Z byte) : Prop := forall x, p x = true -> m' !! x = m !! x.

Section Local.
Context (u : fpu) (l : launch) (rd wr : Z -> bool) (Hsub : forall x, wr x = true -> rd x = true).
Let alone := with_rights l rd wr.
Let free := with_rights l anywhere anywhere.

(** *** Accesses *)
Lemma load_agree m m' a n : allowed rd a (Z.of_nat n) -> agree rd m m' -> load m' a n = load m a n.
Proof.
  intros Ha Hm. unfold load, load_bytes. f_equal. apply Forall_mapM_ext, Forall_forall. intros i Hi%elem_of_seq. apply Hm, Ha. lia.
Qed.

Lemma load_words_agree m m' a n : allowed rd a (4 * Z.of_nat n) -> agree rd m m' -> load_words m' a n = load_words m a n.
Proof.
  intros Ha Hm. unfold load_words. destruct (vec_width n && aligned a (4 * Z.of_nat n)); [|done].
  apply Forall_mapM_ext, Forall_forall. intros i Hi%elem_of_seq. apply load_agree; [|done]. eapply allowed_sub; [exact Ha|lia..].
Qed.

(** Both memories after a store. *)
Definition stores (m1 m1' m m' : gmap Z byte) : Prop :=
  agree rd m1 m1' /\ (forall x, wr x = false -> m1' !! x = m' !! x) /\ (forall x, wr x = false -> m1 !! x = m !! x).

Lemma stores_refl m m' : agree rd m m' -> stores m m' m m'.
Proof. by intros. Qed.

Lemma store_agree m m' a bs m1 : allowed wr a (zlen bs) -> agree rd m m' -> store_bytes m a bs = Some m1 ->
  exists m1', store_bytes m' a bs = Some m1' /\ stores m1 m1' m m'.
Proof.
  intros Ha Hm Hs. pose proof (store_bytes_mapped _ _ _ _ Hs) as Hmap.
  destruct (store_bytes_spec m a bs Hmap) as (m2 & Hs2 & Hat & Hout & _). rewrite Hs in Hs2. injection Hs2 as <-.
  destruct (store_bytes_spec m' a bs) as (m1' & Hs' & Hat' & Hout' & _).
  { intros x Hx. rewrite Hm by (by apply Hsub, Ha). by apply Hmap. }
  assert (Hcase : forall x, (exists i b, x = a + Z.of_nat i /\ bs !! i = Some b) \/ (x < a \/ a + zlen bs <= x)).
  { intros x. destruct (decide (a <= x < a + zlen bs)) as [Hx|Hx]; [left|right; lia]. unfold zlen in Hx.
    destruct (lookup_lt_is_Some_2 bs (Z.to_nat (x - a))) as [b Hb]; [lia|]. exists (Z.to_nat (x - a)), b. split; [lia|done]. }
  exists m1'. split; [done|]. split; [|split].
  - intros x Hx. destruct (Hcase x) as [(i & b & -> & Hb)|Ho]; [by rewrite (Hat _ _ Hb), (Hat' _ _ Hb)|]. rewrite Hout, Hout' by done. by apply Hm.
  - intros x Hx. destruct (Hcase x) as [(i & b & -> & Hb)|Ho]; [|by apply Hout'].
    rewrite Ha in Hx; [done|]. apply lookup_lt_Some in Hb. unfold zlen. lia.
  - intros x Hx. destruct (Hcase x) as [(i & b & -> & Hb)|Ho]; [|by apply Hout].
    rewrite Ha in Hx; [done|]. apply lookup_lt_Some in Hb. unfold zlen. lia.
Qed.

Lemma length_words ws : zlen (mjoin (map (le_bytes 4) ws)) = 4 * zlen ws.
Proof.
  induction ws as [|w ws IH]; [done|]. change (mjoin (map (le_bytes 4) (w :: ws))) with (le_bytes 4 w ++ mjoin (map (le_bytes 4) ws)).
  rewrite zlen_app, IH, zlen_le_bytes, zlen_cons. lia.
Qed.

Lemma store_words_agree m m' a ws m1 : allowed wr a (4 * zlen ws) -> agree rd m m' -> store_words m a ws = Some m1 ->
  exists m1', store_words m' a ws = Some m1' /\ stores m1 m1' m m'.
Proof.
  intros Ha Hm. unfold store_words. destruct (vec_width (length ws) && aligned a (4 * zlen ws)); [|done].
  intros Hs. apply (store_agree m m'); [by rewrite length_words|done|done].
Qed.

Lemma set_fs_gm ds vs m s : set_fs ds vs (set_gm m s) = set_gm m (set_fs ds vs s).
Proof. unfold set_fs. revert vs s. induction ds as [|d ds IH]; intros [|v vs] s; try done. cbn. apply (IH vs (set_f d v s)). Qed.
Lemma set_rs_gm ds vs m s : set_rs ds vs (set_gm m s) = set_gm m (set_rs ds vs s).
Proof. unfold set_rs. revert vs s. induction ds as [|d ds IH]; intros [|v vs] s; try done. cbn. apply (IH vs (set_r d v s)). Qed.

Lemma may_anywhere a n : may anywhere a n = true.
Proof. by apply may_spec. Qed.

(** *** An instruction *)
Lemma exec1_agree s i s' m : exec1 u alone s i = Some s' -> agree rd (gm s) m ->
  exists m', exec1 u free (set_gm m s) i = Some (set_gm m' s') /\ stores (gm s') m' (gm s) m.
Proof.
  intros Hx Hm. destruct i; cbn [exec1] in Hx |- *; try discriminate Hx.
  all: try (injection Hx as <-; exists m; split; [reflexivity|by apply stores_refl]).
  all: cbn [with_rights l_rd l_wr free alone] in Hx |- *; change (rrd (set_gm m s)) with (rrd s); change (gm (set_gm m s)) with m;
    rewrite ?may_anywhere; cbn [andb].
  - destruct p; try discriminate Hx. injection Hx as <-. exists m. split; [reflexivity|by apply stores_refl].
  - destruct p; try discriminate Hx; cbn in Hx |- *; (destruct (_ !! _) as [v|]; [|discriminate Hx]); injection Hx as <-; exists m; (split; [reflexivity|by apply stores_refl]).
  - destruct op; injection Hx as <-; exists m; (split; [reflexivity|by apply stores_refl]).
  - destruct (may rd (rrd s addr) (4 * length ds)) eqn:E; [|discriminate Hx]. apply may_spec in E.
    rewrite (load_words_agree (gm s) m) by (first [done|eapply allowed_sub; [exact E|lia..]]).
    destruct (load_words (gm s) (rrd s addr) (length ds)) as [vs|]; [|discriminate Hx]. injection Hx as <-. exists m.
    cbn. rewrite set_fs_gm. split; [reflexivity|]. destruct (set_fs_rest ds vs s) as (_ & _ & _ & _ & ->). by apply stores_refl.
  - destruct (may rd (rrd s addr) 2) eqn:E; [|discriminate Hx]. apply may_spec in E. cbn [andb] in Hx. destruct (aligned (rrd s addr) 2); [|discriminate Hx].
    rewrite (load_agree (gm s) m) by done. destruct (load (gm s) (rrd s addr) 2) as [v|]; [|discriminate Hx]. injection Hx as <-. exists m.
    split; [reflexivity|by apply stores_refl].
  - destruct (may rd (rrd s addr) (4 * length ds)) eqn:E; [|discriminate Hx]. apply may_spec in E.
    rewrite (load_words_agree (gm s) m) by (first [done|eapply allowed_sub; [exact E|lia..]]).
    destruct (load_words (gm s) (rrd s addr) (length ds)) as [vs|]; [|discriminate Hx]. injection Hx as <-. exists m.
    cbn. rewrite set_rs_gm. split; [reflexivity|]. destruct (set_rs_rest ds vs s) as (_ & _ & _ & _ & ->). by apply stores_refl.
  - destruct (may wr (rrd s addr) (4 * length vs)) eqn:E; [|discriminate Hx]. apply may_spec in E.
    destruct (store_words (gm s) (rrd s addr) (map (rf s) vs)) as [m1|] eqn:Es; [|discriminate Hx]. injection Hx as <-.
    destruct (store_words_agree (gm s) m (rrd s addr) (map (rf s) vs) m1) as (m1' & Hs' & Hst); [|exact Hm|exact Es|].
    { unfold zlen. rewrite length_map. eapply allowed_sub; [exact E|lia..]. }
    exists m1'. change (rf (set_gm m s)) with (rf s). rewrite Hs'. by split.
  - destruct (may wr (rrd s addr) 2) eqn:E; [|discriminate Hx]. apply may_spec in E. cbn [andb] in Hx. destruct (aligned (rrd s addr) 2); [|discriminate Hx].
    destruct (store_bytes (gm s) (rrd s addr) (le_bytes 2 (rh s h))) as [m1|] eqn:Es; [|discriminate Hx]. injection Hx as <-.
    destruct (store_agree (gm s) m (rrd s addr) (le_bytes 2 (rh s h)) m1) as (m1' & Hs' & Hst); [by rewrite zlen_le_bytes|exact Hm|exact Es|].
    exists m1'. change (rh (set_gm m s)) with (rh s). rewrite Hs'. by split.
  - destruct (may wr (rrd s addr) (4 * length ws)) eqn:E; [|discriminate Hx]. apply may_spec in E.
    destruct (store_words (gm s) (rrd s addr) (map (rr s) ws)) as [m1|] eqn:Es; [|discriminate Hx]. injection Hx as <-.
    destruct (store_words_agree (gm s) m (rrd s addr) (map (rr s) ws) m1) as (m1' & Hs' & Hst); [|exact Hm|exact Es|].
    { unfold zlen. rewrite length_map. eapply allowed_sub; [exact E|lia..]. }
    exists m1'. change (rr (set_gm m s)) with (rr s). rewrite Hs'. by split.
Qed.

(** A step of the thread alone is its step among the others. *)
Lemma step_agree code pc s pc' s' m : step u alone code (pc, s) (pc', s') -> agree rd (gm s) m ->
  exists m', step u free code (pc, set_gm m s) (pc', set_gm m' s') /\ stores (gm s') m' (gm s) m.
Proof.
  intros Hs Hm. inversion Hs as [? ? i ? Hc Hx|? ? ? Hc|? ? ? t Hc Hl|? ? ? ? t Hc Hp Hl|? ? ? ? Hc Hp]; subst.
  - destruct (exec1_agree s i s' m Hx Hm) as (m' & Hx' & Hst). exists m'. split; [by eapply step_exec|done].
  - exists m. split; [by eapply step_label|by apply stores_refl].
  - exists m. split; [by eapply step_bra|by apply stores_refl].
  - exists m. split; [by eapply step_taken|by apply stores_refl].
  - exists m. split; [by eapply step_fall|by apply stores_refl].
Qed.
End Local.

(** ** The threads of a launch *)
Section Threads.
Context (u : fpu) (code : list instr) (ls : list launch).

(** Where each thread is and what its registers hold, and the memory they
    share: the memory a thread's own state carries is not looked at. *)
Definition config : Type := list (nat * thread) * gmap Z byte.

Inductive cstep : config -> config -> Prop :=
  | cstep_thread k l pc s pc' s' ts m : ls !! k = Some l -> ts !! k = Some (pc, s) ->
      step u l code (pc, set_gm m s) (pc', s') -> cstep (ts, m) (<[k := (pc', s')]> ts, gm s').

Definition started (ss : list thread) (m : gmap Z byte) : config := (map (fun s => (0%nat, s)) ss, m).
Definition finished (c : config) : Prop := forall k pc s, c.1 !! k = Some (pc, s) -> code !! pc = Some RetI.

(** Rights that do not conflict: what a thread may store to, no other may load
    from or store to. *)
Context (rd wr : nat -> Z -> bool).
Context (Hsub : forall k x, wr k x = true -> rd k x = true) (Hapart : forall k k' x, k <> k' -> wr k x = true -> rd k' x = false).
Context (Hall : forall k l, ls !! k = Some l -> with_rights l anywhere anywhere = l).

Let alone (k : nat) (l : launch) := with_rights l (rd k) (wr k).

(** Each thread, run alone from [m0], ends and leaves a memory in [Q k]. *)
Context (m0 : gmap Z byte) (Q : nat -> gmap Z byte -> Prop).

(** What is left of a thread's run alone: [n] steps. *)
Definition thread_inv (m : gmap Z byte) (k : nat) (l : launch) (pc : nat) (s : thread) (n : nat) : Prop :=
  exists own pcf sf, s = set_gm (gm s) own /\ nsteps (step u (alone k l) code) n (pc, own) (pcf, sf) /\ code !! pcf = Some RetI /\
    Q k (gm sf) /\ agree (rd k) (gm own) m.

Record conc_inv (ns : list nat) (c : config) : Prop := {
  ci_length : length c.1 = length ls /\ length ns = length ls;
  ci_thread : forall k l pc s n, ls !! k = Some l -> c.1 !! k = Some (pc, s) -> ns !! k = Some n -> thread_inv c.2 k l pc s n;
  ci_rest : forall x, (forall k, (k < length ls)%nat -> wr k x = false) -> c.2 !! x = m0 !! x
}.

Lemma set_gm_gm m m' s : set_gm m (set_gm m' s) = set_gm m s.
Proof. by destruct s. Qed.
Lemma set_gm_same s : set_gm (gm s) s = s.
Proof. by destruct s. Qed.

Lemma thread_inv_shared m k l pc s n : thread_inv m k l pc s n -> exists own, set_gm m s = set_gm m own /\
  agree (rd k) (gm own) m /\ exists pcf sf, nsteps (step u (alone k l) code) n (pc, own) (pcf, sf) /\ code !! pcf = Some RetI /\ Q k (gm sf).
Proof.
  intros (own & pcf & sf & Hown & Hns & Hret & HQ & Hag). exists own. split; [rewrite Hown; apply set_gm_gm|]. split; [done|]. by exists pcf, sf.
Qed.

(** The next step of a thread alone is a step it can take among the others. *)
Lemma thread_inv_step m k l pc s n : ls !! k = Some l -> thread_inv m k l pc s (S n) -> exists pc' s' m',
  step u l code (pc, set_gm m s) (pc', set_gm m' s') /\ thread_inv m' k l pc' (set_gm m' s') n /\
  forall x, wr k x = false -> m' !! x = m !! x.
Proof.
  intros Hl Hth. destruct (thread_inv_shared _ _ _ _ _ _ Hth) as (own & -> & Hag & pcf & sf & Hns & Hret & HQ).
  inversion Hns as [|? ? [pc1 own1] ? Hst Hns1]; subst.
  destruct (step_agree u l (rd k) (wr k) (Hsub k) code pc own pc1 own1 m Hst Hag) as (m' & Hst' & Hag' & Hout & _).
  rewrite (Hall k l Hl) in Hst'. exists pc1, own1, m'. split; [done|]. split; [|done].
  exists own1, pcf, sf. by split.
Qed.

Lemma thread_inv_end m k l pc s : thread_inv m k l pc s 0 -> code !! pc = Some RetI /\ exists m', Q k m' /\ agree (rd k) m' m.
Proof.
  intros Hth. destruct (thread_inv_shared _ _ _ _ _ _ Hth) as (own & _ & Hag & pcf & sf & Hns & Hret & HQ).
  inversion Hns; subst. split; [done|]. by exists (gm sf).
Qed.

Lemma agree_apart m m' k k' m1 : k <> k' -> agree (rd k') m1 m -> (forall x, wr k x = false -> m' !! x = m !! x) -> agree (rd k') m1 m'.
Proof.
  intros Hne Hag Hout x Hx. rewrite <- (Hag x Hx). apply Hout. destruct (wr k x) eqn:E; [|done]. by rewrite (Hapart k k' x Hne E) in Hx.
Qed.

(** One step of the launch is one step of one thread alone. *)
Lemma cstep_inv ns c c' : conc_inv ns c -> cstep c c' -> exists k n, ns !! k = Some (S n) /\ conc_inv (<[k := n]> ns) c'.
Proof.
  intros [[Hl1 Hl2] Hth Hrest] Hs. inversion Hs as [k l pc s pc' s' ts m Hl Ht Hst]; subst. cbn [fst snd] in *.
  assert (Hk : (k < length ls)%nat) by (by apply lookup_lt_Some in Hl).
  destruct (lookup_lt_is_Some_2 ns k) as [n Hn]; [lia|]. pose proof (Hth k l pc s n Hl Ht Hn) as Hinv.
  destruct n as [|n].
  { apply thread_inv_end in Hinv as [Hret _]. exfalso. by eapply ret_stops. }
  destruct (thread_inv_step m k l pc s n Hl Hinv) as (pc1 & s1 & m1 & Hst1 & Hinv1 & Hout).
  pose proof (step_det _ _ _ _ _ _ Hst Hst1) as E. injection E as -> ->. exists k, n. split; [done|]. split; cbn [fst snd].
  - by rewrite !length_insert.
  - intros k' l' pc' s' n' Hl' Ht' Hn'. change (gm (set_gm m1 s1)) with m1. destruct (decide (k = k')) as [<-|Hne].
    + rewrite list_lookup_insert_eq in Ht' by (rewrite Hl1; lia). rewrite list_lookup_insert_eq in Hn' by lia.
      injection Ht' as <- <-. injection Hn' as <-. rewrite Hl in Hl'. by injection Hl' as <-.
    + rewrite list_lookup_insert_ne in Ht' by done. rewrite list_lookup_insert_ne in Hn' by done.
      destruct (Hth k' l' pc' s' n' Hl' Ht' Hn') as (own & pcf & sf & Hown & Hns & Hret & HQ & Hag).
      exists own, pcf, sf. split_and!; try done. by eapply agree_apart.
  - intros x Hx. change (gm (set_gm m1 s1)) with m1. rewrite Hout by (by apply Hx). by apply Hrest.
Qed.

Lemma sum_insert (ns : list nat) k n : ns !! k = Some (S n) -> sum_list ns = S (sum_list (<[k := n]> ns)).
Proof.
  revert k. induction ns as [|x ns IH]; intros [|k] H; try done; cbn in *; [by injection H as ->|]. by rewrite (IH _ H), <- Nat.add_succ_r.
Qed.

Lemma conc_inv_sn ns c : conc_inv ns c -> sn cstep c.
Proof.
  remember (sum_list ns) as N eqn:EN. revert ns c EN. induction N as [N IH] using lt_wf_ind. intros ns c -> Hinv.
  constructor. intros c' Hs. destruct (cstep_inv ns c c' Hinv Hs) as (k & n & Hk & Hinv').
  apply (IH (sum_list (<[k := n]> ns))) with (ns := <[k := n]> ns); [|done|done]. rewrite (sum_insert ns k n Hk). apply Nat.lt_succ_diag_r.
Qed.

Lemma conc_inv_rtc ns c c' : conc_inv ns c -> rtc cstep c c' -> exists ns', conc_inv ns' c'.
Proof.
  intros Hinv Hs. revert ns Hinv. induction Hs as [c|c c1 c2 Hs _ IH]; intros ns Hinv; [by exists ns|].
  destruct (cstep_inv ns c c1 Hinv Hs) as (k & n & _ & Hinv'). by apply (IH _ Hinv').
Qed.

Lemma conc_inv_progress ns c : conc_inv ns c -> finished c \/ exists c', cstep c c'.
Proof.
  intros [[Hl1 Hl2] Hth _]. destruct c as [ts m]. cbn [fst snd] in *.
  destruct (decide (Exists (fun n => n <> 0%nat) ns)) as [He|Hz].
  - right. apply Exists_exists in He as (n & Hin & Hn). apply list_elem_of_lookup_1 in Hin as [k Hk].
    pose proof (lookup_lt_Some _ _ _ Hk) as Hlt. destruct (lookup_lt_is_Some_2 ls k) as [l Hl]; [lia|].
    destruct (lookup_lt_is_Some_2 ts k) as [[pc s] Ht]; [lia|]. destruct n as [|n]; [done|].
    destruct (thread_inv_step m k l pc s n Hl (Hth k l pc s (S n) Hl Ht Hk)) as (pc1 & s1 & m1 & Hst & _).
    eexists. by eapply cstep_thread.
  - left. intros k pc s Ht. cbn [fst] in Ht. pose proof (lookup_lt_Some _ _ _ Ht) as Hlt. destruct (lookup_lt_is_Some_2 ls k) as [l Hl]; [lia|].
    destruct (lookup_lt_is_Some_2 ns k) as [n Hn]; [lia|]. destruct n as [|n].
    + by destruct (thread_inv_end m k l pc s (Hth k l pc s 0%nat Hl Ht Hn)) as [Hret _].
    + exfalso. apply Hz, Exists_exists. exists (S n). split; [by eapply list_elem_of_lookup_2|done].
Qed.

Lemma conc_inv_result ns c : conc_inv ns c -> finished c -> (forall k l, ls !! k = Some l -> exists m, Q k m /\ agree (rd k) m c.2) /\
  forall x, (forall k, (k < length ls)%nat -> wr k x = false) -> c.2 !! x = m0 !! x.
Proof.
  intros [[Hl1 Hl2] Hth Hrest] Hf. split; [|done]. intros k l Hl. pose proof (lookup_lt_Some _ _ _ Hl) as Hlt.
  destruct (lookup_lt_is_Some_2 c.1 k) as [[pc s] Ht]; [lia|]. destruct (lookup_lt_is_Some_2 ns k) as [n Hn]; [lia|].
  pose proof (Hth k l pc s n Hl Ht Hn) as Hinv. destruct n as [|n].
  - apply thread_inv_end in Hinv as [_ H]. done.
  - exfalso. destruct (thread_inv_step _ _ _ _ _ _ Hl Hinv) as (pc1 & s1 & m1 & Hst & _). eapply ret_stops; [|exact Hst]. by eapply Hf.
Qed.

(** Every interleaving ends, none faults, and what each thread may read at the
    end is what it left when alone. *)
Context (Halone : forall k l s, ls !! k = Some l -> gm s = m0 -> exists m, returns u (alone k l) code s m /\ Q k m).

Lemma started_inv (ss : list thread) : length ss = length ls -> exists ns, conc_inv ns (started ss m0).
Proof.
  intros Hlen.
  assert (Hns : exists ns, Forall2 (fun n kls => thread_inv m0 kls.1 kls.2.1 0 kls.2.2 n) ns (zip (seq 0 (length ls)) (zip ls ss))).
  { assert (H : Forall (fun kls => exists n, thread_inv m0 kls.1 kls.2.1 0 kls.2.2 n) (zip (seq 0 (length ls)) (zip ls ss))).
    { apply Forall_lookup_2. intros k [k' [l s]] Hk. apply lookup_zip_Some in Hk as [Hk Hls]. apply lookup_seq in Hk as [-> _].
      apply lookup_zip_Some in Hls as [Hl Hs]. cbn [fst snd Nat.add].
      destruct (Halone k l (set_gm m0 s) Hl eq_refl) as (m & (pc & sf & Hsteps & Hret & <-) & HQ).
      apply rtc_nsteps in Hsteps as [n Hn]. exists n, (set_gm m0 s), pc, sf. split_and!; try done.
      by rewrite set_gm_gm, set_gm_same. }
    clear Halone. induction H as [|kls l [n Hn] _ [ns IH]]; [by exists []|]. exists (n :: ns). by constructor. }
  destruct Hns as [ns Hns]. exists ns. pose proof (Forall2_length _ _ _ Hns) as Hl.
  rewrite length_zip, length_seq, length_zip, Hlen in Hl. split; cbn [started fst snd].
  - rewrite length_map. lia.
  - intros k l pc s n Hk Hs Hn. rewrite list_lookup_fmap_Some in Hs. destruct Hs as (s' & E & Hs). injection E as -> ->.
    apply (Forall2_lookup_lr _ _ _ k n (k, (l, s')) Hns Hn). apply lookup_zip_Some. split.
    + apply lookup_seq. apply lookup_lt_Some in Hk. lia.
    + by apply lookup_zip_Some.
  - done.
Qed.

Lemma concurrent_run (ss : list thread) : length ss = length ls ->
  sn cstep (started ss m0) /\
  (forall c, rtc cstep (started ss m0) c -> finished c \/ exists c', cstep c c') /\
  (forall c, rtc cstep (started ss m0) c -> finished c ->
     (forall k l, ls !! k = Some l -> exists m, Q k m /\ agree (rd k) m c.2) /\
     forall x, (forall k, (k < length ls)%nat -> wr k x = false) -> c.2 !! x = m0 !! x).
Proof.
  intros Hlen. destruct (started_inv ss Hlen) as [ns Hinv]. split; [by eapply conc_inv_sn|]. split.
  - intros c Hc. destruct (conc_inv_rtc _ _ _ Hinv Hc) as [ns' Hinv']. by eapply conc_inv_progress.
  - intros c Hc Hf. destruct (conc_inv_rtc _ _ _ Hinv Hc) as [ns' Hinv']. by eapply conc_inv_result.
Qed.
End Threads.
