(* ===== verification/PtxLaunch.v ===== *)
(** * The launch of an elementwise kernel

    Which thread may touch what: the outputs are cut into slots, a slot belongs
    to the thread whose loop comes to it, and everything outside the outputs is
    read by all and written by none. With these rights every thread of a launch
    runs to its end alone, so the launch does in every interleaving. *)
From stdpp Require Import functions relations.
From S2P Require Import Prelude Dtype Device Heap Tensor TraceDag TraceSpec TracePlan TracePlanSpec Ptx PtxSpec PtxDiv PtxChain PtxChainSpec PtxMemory PtxKernel PtxBody PtxGrid PtxThread PtxLoop PtxConcurrent.

(** ** Rights *)
Section Rights.
Context (plan : ElementwisePlan) (lanes : nat) (ins outs : list Z) (rows : Z) (ns : list TraceNode) (Hentry : entry_ok ns plan lanes).
Context (m0 : gmap Z byte) (Hlay : layout_ok plan lanes ins outs rows m0).
Let L := Z.of_nat lanes.
Let eb (s : BufferSpec) := elem_bytes (bs_dtype s).

(** The slot of an output an address is in. *)
Fixpoint slot_in (specs : list BufferSpec) (qs : list Z) (x : Z) : option Z :=
  match specs, qs with
  | s :: specs, q :: qs => if (q <=? x) && (x <? q + out_size plan rows s) then Some ((x - q) / (L * eb s)) else slot_in specs qs x
  | _, _ => None
  end.
Definition slot_of (x : Z) : option Z := slot_in (p_outputs plan) outs x.

Lemma slot_in_some specs qs x i : slot_in specs qs x = Some i ->
  exists k s q, specs !! k = Some s /\ qs !! k = Some q /\ q <= x < q + out_size plan rows s /\ i = (x - q) / (L * eb s).
Proof.
  revert qs. induction specs as [|s specs IH]; intros [|q qs]; cbn [slot_in]; try done.
  destruct ((q <=? x) && (x <? q + out_size plan rows s)) eqn:E.
  - intros [= <-]. exists 0%nat, s, q. split; [done|]. split; [done|]. split; [lia|done].
  - intros H. destruct (IH qs H) as (k & t & r & ? & ? & ? & ?). by exists (S k), t, r.
Qed.

Lemma slot_in_none specs qs x : slot_in specs qs x = None ->
  forall k s q, specs !! k = Some s -> qs !! k = Some q -> ~ (q <= x < q + out_size plan rows s).
Proof.
  revert qs. induction specs as [|s specs IH]; intros [|q qs]; cbn [slot_in]; try done.
  destruct ((q <=? x) && (x <? q + out_size plan rows s)) eqn:E; [done|].
  intros H [|k] t r Ht Hr; [injection Ht as <-; injection Hr as <-; lia|by eapply IH].
Qed.

Lemma slot_of_output k s q x : output plan outs k s q -> q <= x < q + out_size plan rows s -> slot_of x = Some ((x - q) / (L * eb s)).
Proof.
  intros Ho Hx. unfold slot_of. destruct (slot_in (p_outputs plan) outs x) as [i|] eqn:E.
  - destruct (slot_in_some _ _ _ _ E) as (k' & t & r & Ht & Hr & Hxr & ->). f_equal. destruct (decide (k = k')) as [<-|Hne].
    + destruct Ho as [Hs Hq]. rewrite Hs in Ht. rewrite Hq in Hr. injection Ht as <-. by injection Hr as <-.
    + destruct (la_out_out _ _ _ _ _ _ Hlay k s q k' t r Ho (conj Ht Hr) Hne) as [Hd|[<- He]]; [unfold disjoint in Hd; lia|].
      unfold eb. by rewrite He.
  - destruct Ho as [Hs Hq]. by destruct (slot_in_none _ _ _ E k s q Hs Hq).
Qed.

Lemma div_slot w i o : 0 < w -> 0 <= o < w -> (i * w + o) / w = i.
Proof. intros Hw Ho. rewrite Z.div_add_l by lia. rewrite Z.div_small by done. lia. Qed.

(** The bytes of a slot are in that slot. *)
Lemma slot_of_slot i k s q x : output plan outs k s q -> 0 <= i < slots_n plan lanes rows -> in_slot lanes i s q x -> slot_of x = Some i.
Proof.
  intros Ho Hi Hx. pose proof (out_bytes_pos _ _ _ Hentry _ _ _ _ Ho) as Hb. fold (eb s) in Hb.
  pose proof (PtxGrid.L_pos _ _ _ Hentry) as HL. fold L in HL.
  rewrite (slot_of_output k s q x Ho) by (by eapply in_slot_range). f_equal. unfold in_slot in Hx. fold L (eb s) in Hx.
  replace (x - q) with (i * (L * eb s) + (x - q - i * L * eb s)) by lia. apply div_slot; nia.
Qed.

(** Thread [k] of [stride]: it may write its slots, and read them and whatever
    is in no slot. *)
Definition rights_wr (stride k x : Z) : bool := match slot_of x with Some i => i mod stride =? k | None => false end.
Definition rights_rd (stride k x : Z) : bool := match slot_of x with Some i => i mod stride =? k | None => true end.

Lemma rights_sub stride k x : rights_wr stride k x = true -> rights_rd stride k x = true.
Proof. unfold rights_wr, rights_rd. by destruct (slot_of x). Qed.
Lemma rights_apart stride k k' x : k <> k' -> rights_wr stride k x = true -> rights_rd stride k' x = false.
Proof. unfold rights_wr, rights_rd. destruct (slot_of x); [|done]. intros Hne ->%Z.eqb_eq. by apply Z.eqb_neq. Qed.

(** They are enough for its rounds. *)
Lemma rights_round l stride k i : l_rd l = rights_rd stride k -> l_wr l = rights_wr stride k -> 0 <= i < slots_n plan lanes rows ->
  i mod stride = k -> round_may l plan lanes ins outs i.
Proof.
  intros Hrd Hwr Hi Hk. pose proof (PtxGrid.L_pos _ _ _ Hentry) as HL. fold L in HL. split.
  - intros s p j Hin Hj x Hx. rewrite Hrd. unfold rights_rd. destruct (slot_of x) as [i'|] eqn:E; [|done]. apply Z.eqb_eq.
    destruct (slot_in_some _ _ _ _ E) as (k' & t & q & Ht & Hq & Hxq & ->).
    pose proof (in_bytes_pos _ _ _ Hentry _ _ _ Hin) as Hb. fold (eb s) in Hx, Hb.
    pose proof (slots_eq _ _ _ Hentry _ _ _ _ Hlay) as HN. fold L in HN, Hj, Hx.
    pose proof (count_bound _ _ _ Hentry _ _ _ _ Hlay s (i * L + j) (in_spec _ _ _ _ Hin) ltac:(nia)) as Hc.
    destruct (la_in_out _ _ _ _ _ _ Hlay s p k' t q Hin (conj Ht Hq)) as [Hd|(-> & Hf & He)].
    + exfalso. unfold disjoint, in_bytes in Hd. fold (eb s) in Hd. nia.
    + rewrite Hf in Hx. cbn [element] in Hx. unfold eb. rewrite <- He. fold (eb s).
      replace (x - q) with (i * (L * eb s) + (x - q - i * L * eb s)) by lia. rewrite div_slot; [done|nia|nia].
  - intros k' s q Ho x Hx. rewrite Hwr. unfold rights_wr.
    rewrite (slot_of_slot i k' s q x Ho Hi); [by apply Z.eqb_eq|]. unfold in_slot. fold L in Hx |- *. nia.
Qed.
End Rights.

(** ** The launch *)

(** What a launch leaves: every element of every output is the graph's value at
    what the inputs held before, and nothing else changes. *)
Record kernel_result (u : fpu) (ns : list TraceNode) (plan : ElementwisePlan) (ins outs : list Z) (rows : Z) (m0 m : gmap Z byte) : Prop := {
  kr_same : forall x, (forall k s q, output plan outs k s q -> ~ (q <= x < q + out_size plan rows s)) -> m !! x = m0 !! x;
  kr_value : forall x, 0 <= x < rows * p_cols plan -> exists val, graph_value u ns plan ins m0 x val /\
    forall k s q, last_output plan outs k s q -> exists v, val (bs_node s) = Some v /\
      bytes_at m (q + x * elem_bytes (bs_dtype s)) (out_bytes u (bs_dtype s) v)
}.

Lemma grid_range n : 1 <= grid n <= 65535.
Proof.
  unfold grid. pose proof (u32_range (Z.quot (n + 255) 256)) as Hu. destruct (Z.eqb_spec (u32 (Z.quot (n + 255) 256)) 0); [done|].
  destruct (u32 (Z.quot (n + 255) 256) >? 65535) eqn:E; [done|]. rewrite Z.gtb_ltb, Z.ltb_ge in E. lia.
Qed.

Section Launch.
Context (u : fpu) (ns : list TraceNode) (plan : ElementwisePlan) (ins outs : list Z) (rows : Z) (m0 : gmap Z byte).
Let lanes := launch_lanes plan ins outs.
Let stride := 256 * launch_grid plan ins outs.
Let n := slots_n plan lanes rows.
Context (Hentry : entry_ok ns plan lanes) (Hlay : layout_ok plan lanes ins outs rows m0).
Context (Hslots : slots plan (use_vec plan ins outs) = n) (Hn : n + stride <= 2 ^ 32) (HN : rows * p_cols plan <= 2 ^ 32).
Context (code : list instr) (g : EntryRegs) (e1 : emitter) (body : list instr) (Hcode : entry_code ns plan lanes code g e1 body).
Let ls := launch_threads plan ins outs.
Let rd (k : nat) := rights_rd plan lanes outs rows stride (Z.of_nat k).
Let wr (k : nat) := rights_wr plan lanes outs rows stride (Z.of_nat k).
Let mine (k : nat) (i : Z) : Prop := 0 <= i < n /\ i mod stride = Z.of_nat k.

Lemma stride_range : 0 < stride <= 256 * 65535.
Proof. unfold stride. pose proof (grid_range (slots plan (use_vec plan ins outs))). unfold launch_grid. lia. Qed.

Lemma n_nonneg : 0 <= n.
Proof.
  unfold n, slots_n. pose proof (PtxGrid.L_pos _ _ _ Hentry) as HL. fold lanes in HL. pose proof (la_rows _ _ _ _ _ _ Hlay). pose proof (po_cols _ _ _ Hentry).
  apply Z.div_pos; nia.
Qed.

Lemma thread_lookup k l : ls !! k = Some l -> l = thread_launch plan ins outs (Z.of_nat k / 256) (Z.of_nat k mod 256) /\ Z.of_nat k < stride.
Proof. unfold ls, launch_threads. rewrite list_lookup_fmap_Some. intros (x & -> & Hx). apply lookup_seqZ in Hx as [-> Hx]. done. Qed.

Lemma threads_length : length ls = Z.to_nat stride.
Proof. unfold ls, launch_threads. by rewrite length_map, length_seqZ. Qed.

(** A thread alone does its rounds. *)
Lemma thread_alone k l s : ls !! k = Some l -> gm s = m0 ->
  exists m, returns u (with_rights l (rd k) (wr k)) code s m /\ grid_inv u ns plan lanes ins outs m0 (mine k) m.
Proof.
  intros Hl Hs. destruct (thread_lookup k l Hl) as [-> Hk]. pose proof stride_range as Hst. pose proof n_nonneg as Hn0.
  set (l1 := with_rights _ _ _).
  assert (Hfirst : first_round l1 = Z.of_nat k).
  { unfold first_round. cbn. pose proof (Z.div_mod (Z.of_nat k) 256 ltac:(lia)) as E. rewrite Z.mul_comm, <- E. apply u32_id. lia. }
  assert (Hstride : stride_of l1 = stride) by (unfold stride_of; cbn; apply u32_id; unfold stride, launch_grid in *; lia).
  assert (Hmine : forall x, mine k x <-> rounds_from plan lanes rows (first_round l1) (stride_of l1) x).
  { intros x. rewrite Hfirst, Hstride. unfold mine, rounds_from. fold n. split.
    - intros [Hx Hm]. exists (x / stride). pose proof (Z.div_mod x stride ltac:(lia)) as E. rewrite Hm in E. split; [apply Z.div_pos; lia|]. split; [lia|lia].
    - intros (j & Hj & -> & Hx). split; [nia|]. rewrite Z.mod_add by lia. apply Z.mod_small. lia. }
  destruct (thread_run u l1 ns plan lanes Hentry rows m0 Hlay HN code g e1 body Hcode s (fun _ => False)) as (m & Hret & Hinv).
  - cbn. rewrite Hslots. apply u32_id. lia.
  - rewrite Hstride. fold n. lia.
  - rewrite Hstride. lia.
  - rewrite Hs. apply grid_inv_start.
  - intros x [].
  - intros x _ [].
  - intros x Hx%Hmine. destruct Hx as [Hx Hm]. apply (rights_round plan lanes ins outs rows ns Hentry m0 Hlay l1 stride (Z.of_nat k)); done.
  - exists m. split; [done|]. eapply grid_inv_ext; [|exact Hinv]. intros x. rewrite (Hmine x). tauto.
Qed.

(** The threads' memories together. *)
Lemma threads_result m : (forall k l, ls !! k = Some l -> exists mk, grid_inv u ns plan lanes ins outs m0 (mine k) mk /\ agree (rd k) mk m) ->
  (forall x, (forall k, (k < length ls)%nat -> wr k x = false) -> m !! x = m0 !! x) -> kernel_result u ns plan ins outs rows m0 m.
Proof.
  intros Hk Hrest. pose proof stride_range as Hst. pose proof (PtxGrid.L_pos _ _ _ Hentry) as HL. set (L := Z.of_nat lanes) in *.
  pose proof (slots_eq _ _ _ Hentry _ _ _ _ Hlay) as HNe. fold L n in HNe. split.
  - intros x Hx. apply Hrest. intros k _. unfold wr, rights_wr. destruct (slot_of plan lanes outs rows x) as [i|] eqn:E; [|done].
    destruct (slot_in_some _ _ _ _ _ _ _ E) as (k' & s & q & Hs & Hq & Hr & _). by destruct (Hx k' s q (conj Hs Hq)).
  - intros x Hx. set (i := x / L). set (j := x mod L). pose proof (Z.div_mod x L ltac:(lia)) as Ex. fold i j in Ex.
    pose proof (Z.mod_pos_bound x L ltac:(lia)) as Hj. fold j in Hj.
    assert (Hi : 0 <= i < n) by (split; [apply Z.div_pos; lia|apply Z.div_lt_upper_bound; lia]).
    set (k := Z.to_nat (i mod stride)). pose proof (Z.mod_pos_bound i stride ltac:(lia)) as Hks.
    destruct (lookup_lt_is_Some_2 ls k) as [l Hl]; [rewrite threads_length; unfold k; lia|].
    destruct (Hk k l Hl) as (mk & Hinv & Hag).
    assert (Hmine : mine k i) by (unfold mine, k; lia).
    destruct (gi_done _ _ _ _ _ _ _ _ _ Hinv i (Z.to_nat j) Hmine) as (val & Hg & Hv); [unfold L in Hj; lia|].
    replace (i * Z.of_nat lanes + Z.of_nat (Z.to_nat j)) with x in Hg, Hv by (fold L; lia).
    exists val. split; [done|]. intros k' s q Hlast. destruct (Hv k' s q Hlast) as (v & Hvv & Hb). exists v. split; [done|].
    intros b y Hby. rewrite <- (Hb b y Hby). apply Hag. unfold rd, rights_rd.
    apply lookup_lt_Some in Hby. unfold out_bytes in Hby. rewrite length_le_bytes in Hby.
    destruct Hlast as [Ho _]. pose proof (out_bytes_pos _ _ _ Hentry _ _ _ _ Ho) as Heb.
    rewrite (slot_of_slot plan lanes ins outs rows ns Hentry m0 Hlay i k' s q _ Ho Hi).
    + apply Z.eqb_eq. unfold k. lia.
    + unfold in_slot. fold L. set (eb := elem_bytes (bs_dtype s)) in *. nia.
Qed.

Lemma launch_run (ss : list thread) : length ss = length ls ->
  sn (cstep u code ls) (started ss m0) /\
  (forall c, rtc (cstep u code ls) (started ss m0) c -> finished code c \/ exists c', cstep u code ls c c') /\
  (forall c, rtc (cstep u code ls) (started ss m0) c -> finished code c -> kernel_result u ns plan ins outs rows m0 c.2).
Proof.
  intros Hlen.
  destruct (concurrent_run u code ls rd wr (fun k => rights_sub _ _ _ _ _ _)
    (fun k k' x Hne => rights_apart plan lanes outs rows stride (Z.of_nat k) (Z.of_nat k') x (fun E => Hne (Nat2Z.inj _ _ E)))
    (fun k l Hl => ltac:(destruct (thread_lookup k l Hl) as [-> _]; reflexivity)) m0
    (fun k => grid_inv u ns plan lanes ins outs m0 (mine k)) (fun k l s => thread_alone k l s) ss Hlen) as (H1 & H2 & H3).
  split; [done|]. split; [done|]. intros c Hc Hf. destruct (H3 c Hc Hf) as [Hq Hrest]. by apply threads_result.
Qed.
End Launch.
