(* ===== verification/PtxKernelSpec.v ===== *)
(** * The elementwise kernel of a plan is right

    From [build_plan] to memory: the module [emit_elementwise] writes for a
    graph, the entry and the launch [compile_elementwise] chooses for the
    buffers it is given, and what that launch leaves. *)
From stdpp Require Import functions relations.
From S2P Require Import Prelude Dtype Device Heap Tensor TraceDag TraceSpec TracePlan TracePlanSpec Ptx PtxSpec PtxDiv PtxChain PtxChainSpec PtxMemory PtxKernel PtxBody PtxGrid PtxThread PtxLoop PtxConcurrent PtxLaunch.

(** A graph the emitter can write: its ids are its positions, operands come
    first, and every operation has a lane form. *)
Record emittable (d : TraceDAG) : Prop := {
  em_wf : wf_nodes (nodes_ d);
  em_forms : forall id n, node_at (nodes_ d) id = Some n -> n_op n <> TraceOpKind.Input -> has_form n = true
}.

Section Plan.
Context (d : TraceDAG) (plan : ElementwisePlan) (Hplan : planned d plan) (Hem : emittable d) (Hcols : p_cols plan <= INT_MAX).
Let ns := nodes_ d.

Lemma in_nodes n : n ∈ ns -> node_at ns (n_id n) = Some n.
Proof.
  intros Hn. apply list_elem_of_lookup_1 in Hn as [i Hi]. destruct (em_wf _ Hem i n Hi) as [-> _]. by rewrite node_at_nat.
Qed.

Lemma at_nodes id n : node_at ns id = Some n -> n ∈ ns /\ n_id n = id.
Proof.
  unfold node_at. destruct (Z.ltb_spec id 0); [done|]. intros Hn. split; [by eapply list_elem_of_lookup_2|].
  destruct (em_wf _ Hem _ n Hn) as [-> _]. lia.
Qed.

Lemma nodes_nodup : NoDup ns.
Proof.
  apply NoDup_alt. intros i j n Hi Hj. destruct (em_wf _ Hem i n Hi) as [Ei _], (em_wf _ Hem j n Hj) as [Ej _]. lia.
Qed.

Lemma inputs_ids : map bs_node (p_inputs plan) = map n_id (filter (fun n => is_input n = true) ns).
Proof. destruct (pl_nodes _ _ Hplan) as (q & lanes & E & ->). cbn [set_vec p_inputs]. by rewrite (plan_nodes_inputs _ _ _ _ _ _ _ E). Qed.

Lemma fits_lanes dt v k : lanes_ok v -> v <= vec_width_for dt -> dtype_supported dt = true -> k = 1%nat \/ k = Z.to_nat v -> lanes_fit dt k.
Proof.
  intros Hv Hw Hd Hk. assert (Hvw : forall a : nat, In a [1; 2; 4]%nat -> vec_width a = true) by (intros a [<-|[<-|[<-|[]]]]; done).
  destruct dt; try discriminate Hd; cbn in Hw.
  - left. split; [done|]. apply Hvw. cbn. destruct Hk as [->| ->]; [by left|]. destruct Hv as [->|[->|[->| ->]]]; cbn; auto; lia.
  - right. split; [by right|]. destruct Hk as [->| ->]; [by left|]. destruct Hv as [->|[->|[->| ->]]]; [by left|right..].
    + exists 1%nat. split; [done|apply Hvw; cbn; auto].
    + exists 2%nat. split; [done|apply Hvw; cbn; auto].
    + exists 4%nat. split; [done|apply Hvw; cbn; auto].
  - right. split; [by left|]. destruct Hk as [->| ->]; [by left|]. destruct Hv as [->|[->|[->| ->]]]; [by left|right..].
    + exists 1%nat. split; [done|apply Hvw; cbn; auto].
    + exists 2%nat. split; [done|apply Hvw; cbn; auto].
    + exists 4%nat. split; [done|apply Hvw; cbn; auto].
Qed.

(** The plan is one its two entries can be written for. *)
Lemma plan_entry_ok lanes : lanes = 1%nat \/ lanes = Z.to_nat (p_vec plan) -> entry_ok ns plan lanes.
Proof.
  intros Hl. pose proof (pl_lanes _ _ Hplan) as Hlok. pose proof (pl_pos _ _ Hplan) as [Hr Hc].
  assert (Hspec : forall o s, s ∈ (if o : bool then p_outputs plan else p_inputs plan) ->
    spec_ok ns (p_rows plan) (p_cols plan) (p_vec plan) o (p_row_bcast plan) (p_col_bcast plan) s).
  { intros [] s Hs; [pose proof (pl_outs _ _ Hplan) as H|pose proof (pl_ins _ _ Hplan) as H]; by eapply Forall_forall in H. }
  split.
  - apply (em_wf _ Hem).
  - apply (em_forms _ Hem).
  - lia.
  - destruct Hl as [->| ->]; [by left|]. destruct Hlok as [->|[->|[->| ->]]]; auto.
  - intros Hb. destruct Hl as [->| ->]; [apply Z.divide_1_l|]. rewrite Z2Nat.id by (unfold lanes_ok in Hlok; lia).
    apply Z.mod_divide; [unfold lanes_ok in Hlok; lia|]. apply (pl_bcast _ _ Hplan). apply orb_true_iff. tauto.
  - intros s Hs. destruct (Hspec false s Hs) as (n & Hn & Hid & Hdt & Hw & Hsup & _ & _ & _ & Hrow & Hcol).
    split; [|done]. rewrite Hdt. by apply (fits_lanes _ (p_vec plan)).
  - rewrite inputs_ids. apply (NoDup_fmap_2_strong n_id); [|apply NoDup_filter, nodes_nodup].
    intros x y Hx Hy E. apply list_elem_of_filter in Hx as [_ Hx], Hy as [_ Hy]. apply in_nodes in Hx, Hy. rewrite E, Hy in Hx. by injection Hx.
  - intros id n Hn Hop. destruct (at_nodes id n Hn) as [Hin <-]. rewrite inputs_ids. apply list_elem_of_fmap. exists n. split; [done|].
    apply list_elem_of_filter. split; [unfold is_input; by rewrite Hop|done].
  - intros s Hs. destruct (Hspec false s Hs) as (n & Hn & Hid & _ & _ & _ & _ & _ & Hop & _). exists n. rewrite Hid. split; [by apply in_nodes|done].
  - intros s Hs. destruct (Hspec true s Hs) as (n & Hn & Hid & Hdt & Hw & Hsup & _ & _ & [Hlive _] & _).
    split; [rewrite Hdt; by apply (fits_lanes _ (p_vec plan))|]. exists n. rewrite Hid. split; [by apply in_nodes|done].
Qed.

Lemma launch_lanes_cases ins outs : launch_lanes plan ins outs = 1%nat \/
  (launch_lanes plan ins outs = Z.to_nat (p_vec plan) /\ use_vec plan ins outs = true).
Proof. unfold launch_lanes. destruct (use_vec plan ins outs); [by right|by left]. Qed.

(** Buffers aligned for their elements are aligned for the entry that is chosen. *)
Lemma layout_chosen ins outs m : layout_ok plan 1 ins outs (p_rows plan) m -> layout_ok plan (launch_lanes plan ins outs) ins outs (p_rows plan) m.
Proof.
  intros Hlay. destruct (launch_lanes_cases ins outs) as [->|[-> Hv]]; [done|].
  pose proof (pl_lanes _ _ Hplan) as Hlok. assert (Hz : Z.of_nat (Z.to_nat (p_vec plan)) = p_vec plan) by (unfold lanes_ok in Hlok; lia).
  unfold use_vec in Hv. apply andb_true_iff in Hv as [Hv Hvo]. apply andb_true_iff in Hv as [_ Hvi]. rewrite forallb_forall in Hvi, Hvo.
  destruct Hlay as [H1 H2 H3 Hin Hout H6 H7]. split; try done.
  - rewrite Hz. apply Z.mod_divide; [unfold lanes_ok in Hlok; lia|]. rewrite <- (pl_numel _ _ Hplan). apply (pl_vec _ _ Hplan).
  - intros s p Hi. destruct (Hin s p Hi) as (H0 & Ha & Hr). split; [done|]. split; [|done].
    destruct Hi as (k & Hs & Hp). specialize (Hvi (s, p)). cbn [fst snd] in Hvi. unfold access, access_bytes in *.
    destruct (single_lane (bs_bcast s)) eqn:Hsl; [exact Ha|]. unfold ptr_aligned in Hvi. unfold aligned. rewrite Hz.
    destruct (bs_bcast s); try discriminate Hsl; apply Hvi, list_elem_of_In, list_elem_of_lookup; exists k; by apply lookup_zip_Some.
  - intros k s q Ho. destruct (Hout k s q Ho) as (H0 & Ha & Hr). split; [done|]. split; [|done].
    destruct Ho as [Hs Hq]. unfold aligned. rewrite Hz. apply (Hvo (s, q)), list_elem_of_In, list_elem_of_lookup. exists k. by apply lookup_zip_Some.
Qed.

Lemma slots_chosen ins outs : slots plan (use_vec plan ins outs) = slots_n plan (launch_lanes plan ins outs) (p_rows plan).
Proof.
  pose proof (pl_pos _ _ Hplan) as [Hr Hc]. unfold slots, slots_n, launch_lanes. rewrite <- (pl_numel _ _ Hplan).
  pose proof (pl_lanes _ _ Hplan) as Hlok. unfold lanes_ok in Hlok. assert (0 <= p_numel plan) by (rewrite (pl_numel _ _ Hplan); nia).
  destruct (use_vec plan ins outs).
  - rewrite Z2Nat.id by lia. apply Z.quot_div_nonneg; lia.
  - by rewrite Z.div_1_r.
Qed.
End Plan.


(** The bias add of [PlanEx] on three buffers. *)
Module KernelEx.
Import ChainEx.
Definition mem : gmap Z byte := list_to_map (map (fun x => (Z.of_nat x, x00)) (seq 0 192)).
Definition ins : list Z := [0; 64].
Definition outs : list Z := [128].
Definition threads0 : list thread := replicate 256 thread0.

Lemma mem_mapped : mapped mem 0 192.
Proof.
  intros x Hx. unfold mem. exists x00. apply elem_of_list_to_map_1.
  - rewrite <- list_fmap_compose. apply NoDup_fmap_2; [intros a b H; cbn in H; lia|apply NoDup_seq].
  - apply list_elem_of_fmap. exists (Z.to_nat x). split; [by rewrite Z2Nat.id by lia|]. apply elem_of_seq. lia.
Qed.

Lemma dag_emittable : emittable PlanEx.dag.
Proof.
  split.
  - intros [|[|[|i]]] n Hn; try discriminate Hn; injection Hn as <-; (split; [reflexivity|repeat constructor; lia]).
  - intros id n Hn Hop. unfold node_at in Hn. destruct (id <? 0); [discriminate Hn|].
    destruct (Z.to_nat id) as [|[|[|i]]]; try discriminate Hn; injection Hn as <-; done.
Qed.

Lemma input_cases s p : input PlanEx.plan ins s p ->
  (s = PlanEx.spec 0 BroadcastKind.Full /\ p = 0) \/ (s = PlanEx.spec 1 BroadcastKind.Row /\ p = 64).
Proof. intros (k & Hs & Hp). destruct k as [|[|k]]; try discriminate Hs; injection Hs as <-; injection Hp as <-; auto. Qed.
Lemma output_cases k s q : output PlanEx.plan outs k s q -> k = 0%nat /\ s = PlanEx.spec 2 BroadcastKind.Full /\ q = 128.
Proof. intros [Hs Hq]. destruct k as [|k]; try discriminate Hs. injection Hs as <-. by injection Hq as <-. Qed.

Lemma layout_witness : layout_ok PlanEx.plan 1 ins outs (p_rows PlanEx.plan) mem.
Proof.
  split; try done.
  - apply Z.divide_1_l.
  - intros s p [[-> ->]|[-> ->]]%input_cases; (split; [done|split; [done|split; [done|]]]); apply (mapped_sub _ _ _ _ _ mem_mapped); done.
  - intros k s q (-> & -> & ->)%output_cases. split; [done|]. split; [done|]. split; [done|]. apply (mapped_sub _ _ _ _ _ mem_mapped); done.
  - intros s p k t q [[-> ->]|[-> ->]]%input_cases (-> & -> & ->)%output_cases; left; left; done.
  - intros k s q k' t r (-> & _)%output_cases (-> & _)%output_cases. done.
Qed.

End KernelEx.

(** ** Too many elements

    With 2^32 - 1 slots the grid-stride index of a thread wraps past the count
    without ever reaching it. *)
Lemma stride_index_wraps (ins outs : list Z) (plan : ElementwisePlan) (k : nat) :
  slots plan (use_vec plan ins outs) = 2 ^ 32 - 1 ->
  let l := thread_launch plan ins outs 0 0 in
  Nat.iter k (fun i => u32 (i + stride_of l)) (first_round l) < l_n l.
Proof.
  intros Hs l.
  assert (Hst : stride_of l = 256 * 65535) by (unfold stride_of, l, thread_launch; cbn [l_ntid l_nctaid]; rewrite Hs; reflexivity).
  assert (Hn : l_n l = 2 ^ 32 - 1) by (unfold l, thread_launch; cbn [l_n]; rewrite Hs; reflexivity).
  assert (Hi : forall j, 0 <= Nat.iter j (fun i => u32 (i + stride_of l)) (first_round l) < 2 ^ 32 /\
    Nat.iter j (fun i => u32 (i + stride_of l)) (first_round l) mod 256 = 0).
  { induction j as [|j [IH1 IH2]]; [split; [cbv; split; [discriminate|reflexivity]|reflexivity]|]. rewrite Nat.iter_succ. set (i := Nat.iter j _ _) in *.
    split; [apply u32_range|]. rewrite Hst. unfold u32. rewrite Z.mod_mod_divide by (by exists (2 ^ 24)).
    replace (256 * 65535) with (65535 * 256) by lia. rewrite Z.mod_add by lia. exact IH2. }
  destruct (Hi k) as [H1 H2]. rewrite Hn. destruct (decide (Nat.iter k (fun i => u32 (i + stride_of l)) (first_round l) = 2 ^ 32 - 1)) as [E|]; [|lia].
  rewrite E in H2. discriminate H2.
Qed.
