(* ===== verification/CpuBuf.v ===== *)
(** * Host kernels: buffers, loops and what they write

    What the kernels of src/cpu/ are made of: loops over [int] ranges that read
    and write 32-bit words through [float*] (and [int32_t*]) pointers into the
    tensors' storage, after one [resize] of the output. The first part gives
    these operations on the world of Tensor.v; the second part is a small logic
    for them: [runs m ups] says that a loop nest [m] changes the output buffer
    by the updates [ups], in that order, and nothing else, and [outcome] is what
    a whole kernel promises to its caller. *)
From S2P Require Import Prelude Dtype Device Heap Runtime Tensor TensorSpec.

(** ** Operations *)
Module Cpu.

(** [p + i] for a [float*] or [int32_t*]. The offsets of the source are
    computed in [long] or [std::size_t] and stay below [2^62], or in [int] and
    then the model says so with [int_of]. *)
Definition fptr (p : ptr) (i : Z) : ptr := ptr_add p (4 * i).

(** [*p] and [*p = v] on the host. *)
Definition read_word (p : ptr) : M Z := fun w =>
  if ptr_on CPU (w_heap w) p then
    match load_bytes (w_heap w) p 4 with Some bs => (Ret (le_int bs), w) | None => (Undef, w) end
  else (Undef, w).
Definition write_word (p : ptr) (v : Z) : M unit := fun w =>
  if ptr_on CPU (w_heap w) p then
    match store_bytes (w_heap w) p (le_bytes 4 v) with
    | Some h => (Ret tt, with_heap w h)
    | None => (Undef, w)
    end
  else (Undef, w).

(** [*p] through an [int32_t*]. *)
Definition read_i32 (p : ptr) : M Z := v ← read_word p; mret (i32 v).

(** [std::memcpy(dst, src, n * sizeof(float))]. *)
Definition copy_words (dst src : ptr) (n : Z) : M unit := on_heap (memcpy dst src (4 * n)).

(** A value of type [int]: signed overflow is undefined. *)
Definition int_of (z : Z) : M Z :=
  if (INT_MIN <=? z) && (z <=? INT_MAX) then mret z else st_undef.

(** [for (auto x : l)] and [for (int i = 0; i < n; ++i)]. *)
Fixpoint each {A} (l : list A) (body : A -> M unit) : M unit :=
  match l with
  | [] => mret tt
  | x :: r => _ ← body x; each r body
  end.
Definition for_ (n : Z) (body : Z -> M unit) : M unit := each (seqZ 0 n) body.

(** [if (Y.rows != r || Y.cols != c || Y.dtype != dt) Y.resize(r, c, dt);] *)
Definition ensure (rt : runtime) (this : positive) (r c : Z) (dt : Dtype) : M unit :=
  t ← obj this;
  if negb (t_rows t =? r) || negb (t_cols t =? c) || negb (dtype_eqb (t_dtype t) dt)
  then T.resize rt this r c dt else mret tt.

(** The helpers the files repeat: [fail] and [check_fp32]. *)
Definition fail {A} (op reason : str) : M A := st_throw (brt (op ++ lit ": " ++ reason)).
Definition fail_if (c : bool) (op reason : str) : M unit := if c then fail op reason else mret tt.
Definition check_fp32 (t : Tensor) (op name : str) : M unit :=
  fail_if (negb (dtype_eqb (t_dtype t) FP32)) op (name ++ lit " must be FP32 (CPU backend is FP32-only)").
End Cpu.
Import Cpu Registry.

(** ** Words of a buffer *)

Definition is_word (v : Z) : Prop := 0 <= v < 2 ^ 32.

(** Word [i] of a byte string, and of the memory behind a pointer. *)
Definition wd (bs : str) (i : Z) : Z := le_int (slice (4 * i) 4 bs).
Definition words (h : heap) (p : ptr) (i : Z) : Z :=
  match load_bytes h (fptr p i) 4 with Some bs => le_int bs | None => 0 end.

(** [n] words of host memory behind [p], outside block [b]. *)
Definition host_words (h : heap) (p : ptr) (n : Z) : Prop :=
  exists b off blk, p = Some (b, off) /\ h !! b = Some blk /\ dev_type (blk_dev blk) = CPU /\
    0 <= off /\ off + 4 * n <= zlen (blk_bytes blk).

Definition apart (p : ptr) (b : positive) : Prop := fst <$> p <> Some b.

Lemma fptr_fptr p i j : fptr (fptr p i) j = fptr p (i + j).
Proof. destruct p as [[b o]|]; [|done]. cbn. do 2 f_equal. lia. Qed.

Lemma fptr_0 p : fptr p 0 = p.
Proof. destruct p as [[b o]|]; [|done]. cbn. do 2 f_equal. lia. Qed.

Lemma wd_word bs i : is_word (wd bs i).
Proof.
  unfold wd, is_word. pose proof (le_int_range (slice (4 * i) 4 bs)) as H.
  assert (length (slice (4 * i) 4 bs) <= 4)%nat.
  { unfold slice. rewrite length_take. lia. }
  assert (256 ^ Z.of_nat (length (slice (4 * i) 4 bs)) <= 256 ^ 4) by (apply Z.pow_le_mono_r; lia).
  change (2 ^ 32) with (256 ^ 4). lia.
Qed.

Lemma words_block h b off blk n i : h !! b = Some blk -> 0 <= off -> off + 4 * n <= zlen (blk_bytes blk) ->
  0 <= i < n -> load_bytes h (fptr (Some (b, off)) i) 4 = Some (slice (off + 4 * i) 4 (blk_bytes blk)).
Proof. intros Hb Ho Hn Hi. cbn. rewrite Hb. cbn. by rewrite (proj2 (in_block_true _ _ _)) by lia. Qed.

Lemma words_wd h b blk n i : h !! b = Some blk -> 4 * n <= zlen (blk_bytes blk) -> 0 <= i < n ->
  words h (Some (b, 0)) i = wd (blk_bytes blk) i.
Proof. intros Hb Hn Hi. unfold words, wd. by rewrite (words_block h b 0 blk n i). Qed.

Lemma words_word h p i : is_word (words h p i).
Proof.
  unfold words, is_word. destruct (load_bytes h (fptr p i) 4) as [bs|] eqn:E; [|done].
  destruct (fptr p i) as [[b o]|]; [|done]. cbn in E. destruct (h !! b) as [blk|]; [|done]. cbn in E.
  case_match eqn:Eb; [|done]. injection E as <-. apply in_block_true in Eb.
  pose proof (le_int_range (slice o 4 (blk_bytes blk))) as H.
  pose proof (zlen_slice o 4 (blk_bytes blk)) as Hz. unfold zlen in *. rewrite Hz in H by lia. done.
Qed.

(** A store changes one word. *)
Lemma wd_store bs k i v : is_word v -> 0 <= k -> 4 * k + 4 <= zlen bs -> 0 <= i -> 4 * i + 4 <= zlen bs ->
  wd (splice (4 * k) (le_bytes 4 v) bs) i = if i =? k then v else wd bs i.
Proof.
  intros Hv Hk Hk' Hi Hi'. unfold wd. destruct (Z.eqb_spec i k) as [->|Hne].
  { change 4 with (zlen (le_bytes 4 v)) at 2. rewrite slice_splice by (rewrite ?zlen_le_bytes; lia).
    by apply le_int_bytes. }
  f_equal. unfold slice, splice, zlen in *.
  apply list_eq. intros j. destruct (decide (j < 4)%nat); [|by rewrite !lookup_take_ge by lia].
  rewrite !lookup_take_lt, !lookup_drop by lia.
  destruct (decide (i < k)).
  - rewrite lookup_app_l by (rewrite length_take; lia). rewrite lookup_take_lt by lia. done.
  - rewrite lookup_app_r by (rewrite length_take; lia). rewrite length_take.
    rewrite lookup_app_r by (rewrite length_le_bytes; lia). rewrite length_le_bytes, lookup_drop.
    f_equal. lia.
Qed.

(** ** Updates of a buffer *)

(** In order: at index [k], [x] becomes [g x]. *)
Abbreviation updates := (list (Z * (Z -> Z))).

Definition apply (ups : updates) (f : Z -> Z) : Z -> Z :=
  foldl (fun f u i => if i =? u.1 then u.2 (f i) else f i) f ups.

Lemma apply_app u v f : apply (u ++ v) f = apply v (apply u f).
Proof. apply foldl_app. Qed.

Lemma apply_ext ups f g n i : (forall i, 0 <= i < n -> f i = g i) -> 0 <= i < n -> apply ups f i = apply ups g i.
Proof.
  revert f g. induction ups as [|[k u] ups IH]; intros f g H Hi; [by apply H|]. cbn.
  apply IH; [|done]. intros j Hj. cbn. by rewrite H.
Qed.

(** The updates of index [k], in order. *)
Definition hits (k : Z) (ups : updates) : list (Z -> Z) := snd <$> filter (fun u => u.1 = k) ups.

(** The updates an index gets, in order. *)
Lemma apply_hits ups f i :
  apply ups f i = foldl (fun x g => g x) (f i) (hits i ups).
Proof.
  revert f. unfold hits. induction ups as [|[k u] ups IH]; intros f; [done|].
  unfold apply. cbn [foldl]. change (foldl _ ?g ups) with (apply ups g). rewrite IH, filter_cons.
  cbn [fst snd]. destruct (Z.eqb_spec i k) as [->|Hne].
  - by rewrite decide_True.
  - by rewrite decide_False.
Qed.

Lemma apply_miss ups f i : (forall g, (i, g) ∉ ups) -> apply ups f i = f i.
Proof.
  intros H. rewrite apply_hits. unfold hits.
  assert (filter (fun u : Z * (Z -> Z) => u.1 = i) ups = []) as ->; [|done].
  destruct (filter _ ups) as [|[k g] l] eqn:E; [done|]. exfalso.
  assert (Hin : (k, g) ∈ filter (fun u : Z * (Z -> Z) => u.1 = i) ups) by (rewrite E; left).
  apply list_elem_of_filter in Hin as [Hk Hin]. cbn in Hk. subst. by apply (H g).
Qed.

Lemma hits_app k u v : hits k (u ++ v) = hits k u ++ hits k v.
Proof. unfold hits. by rewrite filter_app, fmap_app. Qed.

Lemma hits_bind {A} k (l : list A) f : hits k (l ≫= f) = l ≫= fun x => hits k (f x).
Proof. induction l as [|x l IH]; [done|]. cbn [mbind list_bind]. rewrite hits_app. by rewrite IH. Qed.

Lemma hits_single k j g : hits k [(j, g)] = if decide (j = k) then [g] else [].
Proof. unfold hits. rewrite filter_cons. cbn [fst]. by destruct (decide (j = k)). Qed.

Lemma hits_none k ups : (forall g, (k, g) ∉ ups) -> hits k ups = [].
Proof.
  intros H. unfold hits. destruct (filter (fun u : Z * (Z -> Z) => u.1 = k) ups) as [|[j g] l] eqn:E; [done|]. exfalso.
  assert (Hin : (j, g) ∈ filter (fun u : Z * (Z -> Z) => u.1 = k) ups) by (rewrite E; left).
  apply list_elem_of_filter in Hin as [Hk Hin]. cbn in Hk. subst. by apply (H g).
Qed.

(** A list comprehension of which only one index contributes, and one that
    filters. *)
Lemma bind_none {A B} (l : list A) (f : A -> list B) : (forall x, x ∈ l -> f x = []) -> l ≫= f = [].
Proof. induction l as [|x l IH]; intros H; [done|]. cbn. rewrite H by left. apply IH. intros y Hy. apply H. by right. Qed.

Lemma bind_only {A B} (l : list A) (f : A -> list B) x : NoDup l -> x ∈ l -> (forall y, y ∈ l -> y <> x -> f y = []) -> l ≫= f = f x.
Proof.
  intros Hnd Hx H. induction l as [|y l IH]; [by apply elem_of_nil in Hx|]. apply NoDup_cons in Hnd as [Hy Hnd]. cbn.
  apply elem_of_cons in Hx as [->|Hx].
  - rewrite (bind_none l f); [by rewrite app_nil_r|]. intros z Hz. apply H; [by right|congruence].
  - rewrite (H y) by (left || congruence). apply IH; [done..|]. intros z Hz. apply H. by right.
Qed.

Lemma bind_filter {A B} (P : A -> Prop) `{forall x, Decision (P x)} (g : A -> B) l :
  (l ≫= fun x => if decide (P x) then [g x] else []) = g <$> filter P l.
Proof. induction l as [|x l IH]; [done|]. cbn [mbind list_bind]. rewrite filter_cons. destruct (decide (P x)); cbn; by rewrite <- IH. Qed.

Lemma bind_ext {A B} (l : list A) (f g : A -> list B) : (forall x, x ∈ l -> f x = g x) -> l ≫= f = l ≫= g.
Proof. induction l as [|x l IH]; intros H; [done|]. cbn. rewrite H by left. f_equal. apply IH. intros y Hy. apply H. by right. Qed.

(** An index that only gets one value holds it. *)
Lemma apply_const ups f i v g0 : (i, g0) ∈ ups -> (forall g, (i, g) ∈ ups -> forall x, g x = v) -> apply ups f i = v.
Proof.
  intros H0 H. rewrite apply_hits. unfold hits.
  assert (Hall : forall g, g ∈ (snd <$> filter (fun u : Z * (Z -> Z) => u.1 = i) ups) -> forall x, g x = v).
  { intros g ([k g'] & -> & [Hk Hin]%list_elem_of_filter)%list_elem_of_fmap. cbn in *. subst. by apply H. }
  assert (Hne : g0 ∈ (snd <$> filter (fun u : Z * (Z -> Z) => u.1 = i) ups)).
  { apply list_elem_of_fmap. exists (i, g0). split; [done|]. by apply list_elem_of_filter. }
  generalize (f i). induction (snd <$> _) as [|g l IH] using rev_ind; [by apply elem_of_nil in Hne|].
  intros x. rewrite foldl_app. cbn. apply Hall. rewrite elem_of_app. right. by apply list_elem_of_singleton.
Qed.

(** ** Loop nests

    A kernel's loops run with the heap fixed but for the output's block [b],
    which holds [n] words, and with the objects [o0]; [h0] is the heap they
    start from. *)
Section Runs.
Context (h0 : heap) (o0 : gmap positive Tensor) (b : positive) (d : Device) (L n : Z).

Definition at_bytes (w : world) (bs : str) : Prop :=
  w_heap w = <[b := mkBlock d bs]> h0 /\ zlen bs = L /\ w_objs w = o0.

(** [m] gives the output the updates [ups]. *)
Definition runs (m : M unit) (ups : updates) : Prop :=
  forall w bs, at_bytes w bs -> exists bs',
    m w = (Ret tt, with_heap w (<[b := mkBlock d bs']> h0)) /\ zlen bs' = L /\
    forall i, 0 <= i < n -> wd bs' i = apply ups (wd bs) i.

Context (Hd : dev_type d = CPU) (HL : 4 * n <= L).

Lemma runs_ret : runs (mret tt) [].
Proof.
  intros w bs (Hw & Hz & _). exists bs. split; [|done]. rewrite <- Hw. by destruct w.
Qed.

Lemma runs_bind m k u v : runs m u -> runs k v -> runs (_ ← m; k) (u ++ v).
Proof.
  intros Hm Hk w bs Hw. destruct (Hm w bs Hw) as (bs1 & E1 & Hz1 & H1).
  destruct (Hk (with_heap w (<[b := mkBlock d bs1]> h0)) bs1) as (bs2 & E2 & Hz2 & H2);
    [split; [done|split; [done|apply Hw]]|].
  exists bs2. rewrite (st_bind_ret _ _ _ _ _ E1), E2. split; [by destruct w|]. split; [done|].
  intros i Hi. rewrite H2, apply_app by done. by apply (apply_ext _ _ _ n).
Qed.

(** The updates of a loop are those of its rounds, in order. *)
Lemma runs_each {A} (l : list A) body (ups : A -> updates) :
  (forall x, x ∈ l -> runs (body x) (ups x)) -> runs (each l body) (l ≫= ups).
Proof.
  induction l as [|x l IH]; intros H; [apply runs_ret|].
  apply runs_bind; [apply H; left|]. apply IH. intros y Hy. apply H. by right.
Qed.

Lemma runs_for k body (ups : Z -> updates) :
  (forall i, 0 <= i < k -> runs (body i) (ups i)) -> runs (for_ k body) (seqZ 0 k ≫= ups).
Proof. intros H. apply runs_each. intros i Hi%elem_of_seqZ. apply H. lia. Qed.

Lemma runs_pure {A} (m : M A) v k ups : (forall w, m w = (Ret v, w)) -> runs (k v) ups -> runs (x ← m; k x) ups.
Proof. intros E H w bs Hw. rewrite (st_bind_ret _ _ _ v w) by done. by apply H. Qed.

Lemma runs_int z k ups : is_int z -> runs (k z) ups -> runs (z' ← int_of z; k z') ups.
Proof.
  intros Hz Hk w bs Hw. unfold int_of. destruct Hz as [H1 H2]. rewrite !(proj2 (Z.leb_le _ _)) by done.
  by apply Hk.
Qed.

(** What a kernel reads: [len] host words [x] outside the output. *)
Definition source (p : ptr) (len : Z) (x : Z -> Z) : Prop :=
  0 < len -> host_words h0 p len /\ apart p b /\ forall i, words h0 p i = x i.

Lemma source_word p len x i : source p len x -> 0 <= i < len -> is_word (x i).
Proof. intros H Hi. destruct (H ltac:(lia)) as (_ & _ & <-). apply words_word. Qed.

Lemma source_block w bs p len x : at_bytes w bs -> source p len x -> 0 < len ->
  exists sb off blk, p = Some (sb, off) /\ sb <> b /\ h0 !! sb = Some blk /\ w_heap w !! sb = Some blk /\
    dev_type (blk_dev blk) = CPU /\ 0 <= off /\ off + 4 * len <= zlen (blk_bytes blk).
Proof.
  intros (Hh & _) Hs Hlen. destruct (Hs Hlen) as ((sb & off & blk & -> & Hsb & Hty & Ho & Hn) & Ha & _). exists sb, off, blk.
  assert (Hne : sb <> b) by (unfold apart in Ha; cbn in Ha; congruence).
  repeat split; try done. by rewrite Hh, lookup_insert_ne by done.
Qed.

(** [x = p[i]] for a source [p]. *)
Lemma read_source w bs p len x i : at_bytes w bs -> source p len x -> 0 <= i < len -> read_word (fptr p i) w = (Ret (x i), w).
Proof.
  intros Hw Hp Hi. pose proof (source_block w bs p len x Hw Hp ltac:(lia)) as (sb & off & blk & -> & Hne & Hsb & Hsb' & Hty & Ho & Hn).
  unfold read_word. rewrite (words_block (w_heap w) sb off blk len i) by done.
  cbn [fptr ptr_add]. unfold ptr_on, ptr_dev. rewrite Hsb'. cbn [fmap option_fmap option_map].
  unfold Dev.is_type. rewrite bool_decide_eq_true_2 by done. destruct (Hp ltac:(lia)) as (_ & _ & <-). unfold words.
  by rewrite (words_block h0 sb off blk len i).
Qed.

Lemma runs_read p len x i k ups : source p len x -> 0 <= i < len -> runs (k (x i)) ups ->
  runs (v ← read_word (fptr p i); k v) ups.
Proof.
  intros Hp Hi Hk w bs Hw. rewrite (st_bind_ret _ _ _ _ _ (read_source w bs p len x i Hw Hp Hi)). by apply Hk.
Qed.

(** A pointer from an operand, and from the output. *)
Lemma runs_host who X t k ups : o0 !! X = Some t -> t_dtype t = FP32 -> t_device t = Dev.CPU0 ->
  runs (k (t_data t)) ups -> runs (p ← T.host_ptr who (Some FP32) X; k p) ups.
Proof.
  intros Ht Hdt Hcpu Hk w bs Hw. assert (HX : w_objs w !! X = Some t) by (destruct Hw as (_ & _ & ->); done).
  assert (E : T.host_ptr who (Some FP32) X w = (Ret (t_data t), w)).
  { unfold T.host_ptr. rewrite (st_bind_ret _ _ _ t w) by by apply obj_eq.
    unfold st_lift, check_host, check_dtype. rewrite Hcpu, Hdt. done. }
  rewrite (st_bind_ret _ _ _ _ _ E). by apply Hk.
Qed.

Lemma runs_read_i32 p len x i k ups : source p len x -> 0 <= i < len -> runs (k (i32 (x i))) ups ->
  runs (v ← read_i32 (fptr p i); k v) ups.
Proof.
  intros Hp Hi Hk w bs Hw. assert (E : (v ← read_i32 (fptr p i); k v) w = (v ← read_word (fptr p i); k (i32 v)) w).
  { unfold read_i32, mbind, st_bind. by destruct (read_word (fptr p i) w) as [[v|e|] w']. }
  rewrite E. by apply (runs_read p len x i (fun v => k (i32 v)) ups Hp Hi Hk w bs).
Qed.

Lemma runs_obj X t k ups : o0 !! X = Some t -> runs (k t) ups -> runs (t' ← obj X; k t') ups.
Proof.
  intros Ht Hk w bs Hw. rewrite (st_bind_ret _ _ _ t w); [by apply Hk|]. apply obj_eq. by destruct Hw as (_ & _ & ->).
Qed.

Lemma at_block w bs : at_bytes w bs -> w_heap w !! b = Some (mkBlock d bs).
Proof. intros (-> & _). by rewrite lookup_insert, decide_True. Qed.

Lemma at_on w bs i : at_bytes w bs -> ptr_on CPU (w_heap w) (fptr (Some (b, 0)) i) = true.
Proof.
  intros Hw. cbn [fptr ptr_add]. unfold ptr_on, ptr_dev. rewrite (at_block w bs Hw). cbn.
  unfold Dev.is_type. by apply bool_decide_eq_true_2.
Qed.

(** [out[k] = v]. *)
Lemma runs_write k v : 0 <= k < n -> is_word v ->
  runs (write_word (fptr (Some (b, 0)) k) v) [(k, fun _ => v)].
Proof.
  intros Hk Hv w bs Hw. unfold write_word. rewrite (at_on w bs k Hw). cbn [fptr ptr_add].
  pose proof (at_block w bs Hw) as Hb. destruct Hw as (Hh & Hz & _).
  rewrite (store_at _ b (mkBlock d bs)) by (try done; rewrite ?zlen_le_bytes; cbn; lia). cbn [blk_dev blk_bytes].
  exists (splice (0 + 4 * k) (le_bytes 4 v) bs). rewrite Hh, insert_insert_eq. split; [done|].
  split; [rewrite length_splice; rewrite ?zlen_le_bytes; lia|].
  intros i Hi. replace (0 + 4 * k) with (4 * k) by lia. rewrite wd_store by lia || done. done.
Qed.

(** The output read back. *)
Lemma read_own w bs k : at_bytes w bs -> 0 <= k < n -> read_word (fptr (Some (b, 0)) k) w = (Ret (wd bs k), w).
Proof.
  intros Hw Hk. unfold read_word. rewrite (at_on w bs k Hw).
  rewrite (words_block _ b 0 (mkBlock d bs) n k); [done|by apply at_block|done|destruct Hw as (_ & Hz & _); cbn; lia|done].
Qed.

(** [out[k] = g(out[k])]. *)
Lemma runs_modify k g : 0 <= k < n -> (forall x, is_word x -> is_word (g x)) ->
  runs (x ← read_word (fptr (Some (b, 0)) k); write_word (fptr (Some (b, 0)) k) (g x)) [(k, g)].
Proof.
  intros Hk Hg w bs Hw. rewrite (st_bind_ret _ _ _ _ _ (read_own w bs k Hw Hk)).
  destruct (runs_write k (g (wd bs k)) Hk (Hg _ (wd_word _ _)) w bs Hw) as (bs' & E' & Hz & H).
  exists bs'. split; [done|]. split; [done|]. intros i Hi. rewrite H by done. cbn. destruct (Z.eqb_spec i k); [by subst|done].
Qed.

(** A row copied with [memcpy]. *)
Lemma wd_slice bs off i m : 0 <= off -> 0 <= i < m -> off + 4 * m <= zlen bs ->
  wd (slice off (4 * m) bs) i = le_int (slice (off + 4 * i) 4 bs).
Proof.
  intros Ho Hi Hm. unfold wd. f_equal. unfold slice, zlen in *. rewrite skipn_firstn_comm.
  rewrite drop_drop, take_take. do 2 f_equal; lia.
Qed.

Lemma wd_splice bs off new i m : zlen new = 4 * m -> 0 <= off -> 4 * (off + m) <= zlen bs -> 0 <= i -> 4 * i + 4 <= zlen bs ->
  wd (splice (4 * off) new bs) i = if (off <=? i) && (i <? off + m) then wd new (i - off) else wd bs i.
Proof.
  intros Hz Ho Hm Hi Hi'. unfold wd, zlen in *.
  destruct (Z.leb_spec off i) as [Hl|Hl]; [destruct (Z.ltb_spec i (off + m)) as [Hr|Hr]|]; cbn [andb]; f_equal;
    unfold slice, splice; apply list_eq; intros j;
    (destruct (decide (j < 4)%nat); [|by rewrite !lookup_take_ge by lia]);
    rewrite !lookup_take_lt, !lookup_drop by lia.
  - rewrite lookup_app_r by (rewrite length_take; lia). rewrite length_take.
    rewrite lookup_app_l by lia. f_equal. lia.
  - rewrite lookup_app_r by (rewrite length_take; lia). rewrite length_take.
    rewrite lookup_app_r by lia. rewrite lookup_drop. f_equal. lia.
  - rewrite lookup_app_l by (rewrite length_take; lia). by rewrite lookup_take_lt by lia.
Qed.

Definition row_updates (k j m : Z) (f : Z -> Z) : updates := (fun i => (k + i, fun _ => f (j + i))) <$> seqZ 0 m.

Lemma apply_row k j m f g i : apply (row_updates k j m f) g i = if (k <=? i) && (i <? k + m) then f (j + (i - k)) else g i.
Proof.
  destruct ((k <=? i) && (i <? k + m)) eqn:E.
  - bool_facts. apply (apply_const _ _ _ _ (fun _ => f (j + (i - k)))).
    + apply list_elem_of_fmap. exists (i - k). split; [f_equal; lia|]. apply elem_of_seqZ. lia.
    + intros g' (i' & [= -> ->] & _)%list_elem_of_fmap x. f_equal. lia.
  - apply apply_miss. intros g' (i' & [= -> ->] & Hi%elem_of_seqZ)%list_elem_of_fmap.
    apply andb_false_iff in E as [E|E]; bool_facts; lia.
Qed.

Lemma runs_copy p len x k j m : source p len x -> 0 < m -> 0 <= k -> k + m <= n -> 0 <= j -> j + m <= len ->
  runs (copy_words (fptr (Some (b, 0)) k) (fptr p j) m) (row_updates k j m x).
Proof.
  intros Hp Hm Hk Hkm Hj Hjm w bs Hw.
  pose proof (source_block w bs p len x Hw Hp ltac:(lia)) as (sb & off & blk & -> & Hne & Hsb & Hsb' & Hty & Ho & Hn).
  pose proof (at_block w bs Hw) as Hb. pose proof (at_on w bs k Hw) as Hon. destruct Hw as (Hh & Hz & _).
  set (data := slice (off + 4 * j) (4 * m) (blk_bytes blk)).
  assert (Hdata : zlen data = 4 * m) by (apply zlen_slice; lia).
  assert (E : memcpy (fptr (Some (b, 0)) k) (fptr (Some (sb, off)) j) (4 * m) (w_heap w) =
    (Ret tt, <[b := mkBlock d (splice (4 * k) data bs)]> h0)).
  { unfold memcpy, copy_on. rewrite Hon. cbn [fptr ptr_add]. unfold ptr_on, ptr_dev at 1. rewrite Hsb'.
    cbn [fmap option_fmap option_map]. unfold Dev.is_type. rewrite bool_decide_eq_true_2 by done.
    cbn [overlaps]. rewrite bool_decide_eq_false_2 by done. cbn [andb negb].
    cbn [load_bytes]. rewrite Hsb'. cbn [mbind option_bind]. rewrite (proj2 (in_block_true _ _ _)) by lia. fold data.
    rewrite (store_at _ b (mkBlock d bs)) by (try done; cbn; lia). cbn [blk_dev blk_bytes].
    by rewrite Hh, insert_insert_eq. }
  exists (splice (4 * k) data bs). split; [unfold copy_words; by apply on_heap_eq|].
  split; [rewrite length_splice; lia|]. intros i Hi.
  rewrite wd_splice with (m := m), apply_row by lia. destruct ((k <=? i) && (i <? k + m)) eqn:E'; [|done].
  bool_facts. unfold data. rewrite wd_slice by lia. destruct (Hp ltac:(lia)) as (_ & _ & <-). unfold words.
  rewrite (words_block h0 sb off blk len _ Hsb) by lia. do 2 f_equal. lia.
Qed.

(** *** Loop nests that only set words

    [sets m S]: every index [k] with [S k v] is set to [v], and nothing else is
    written. *)
Definition sets (m : M unit) (S : Z -> Z -> Prop) : Prop :=
  exists ups, runs m ups /\ (forall k g, (k, g) ∈ ups -> exists v, S k v /\ forall x, g x = v) /\
    (forall k v, S k v -> exists g, (k, g) ∈ ups).

Lemma sets_ret : sets (mret tt) (fun _ _ => False).
Proof. exists []. split; [apply runs_ret|]. split; [|done]. intros k g H. by apply elem_of_nil in H. Qed.

Lemma sets_bind m k S T : sets m S -> sets k T -> sets (_ ← m; k) (fun j v => S j v \/ T j v).
Proof.
  intros (u & Hm & Hm1 & Hm2) (v & Hk & Hk1 & Hk2). exists (u ++ v). split; [by apply runs_bind|]. split.
  - intros j g [Hin|Hin]%elem_of_app; [destruct (Hm1 j g Hin) as (x & ? & ?)|destruct (Hk1 j g Hin) as (x & ? & ?)]; exists x; auto.
  - intros j x [Hx|Hx]; [destruct (Hm2 j x Hx) as [g ?]|destruct (Hk2 j x Hx) as [g ?]]; exists g; apply elem_of_app; auto.
Qed.

Lemma sets_eq m S S' : sets m S -> (forall k v, S k v <-> S' k v) -> sets m S'.
Proof.
  intros (ups & H & H1 & H2) E. exists ups. split; [done|]. split.
  - intros k g Hin. destruct (H1 k g Hin) as (v & Hv & Hg). exists v. split; [by apply E|done].
  - intros k v Hv%E. by apply (H2 k v).
Qed.

Lemma sets_each {A} (l : list A) body (S : A -> Z -> Z -> Prop) :
  (forall x, x ∈ l -> sets (body x) (S x)) -> sets (each l body) (fun j v => exists x, x ∈ l /\ S x j v).
Proof.
  induction l as [|x l IH]; intros H.
  - eapply sets_eq; [apply sets_ret|]. intros j v. split; [done|]. intros (x & Hx & _). by apply elem_of_nil in Hx.
  - eapply sets_eq; [apply sets_bind; [apply H; left|apply IH; intros y Hy; apply H; by right]|].
    intros j v. split.
    + intros [Hx|(y & Hy & Hv)]; [exists x; split; [left|done]|exists y; split; [by right|done]].
    + intros (y & [->|Hy]%elem_of_cons & Hv); [by left|right; by exists y].
Qed.

Lemma sets_for k body (S : Z -> Z -> Z -> Prop) :
  (forall i, 0 <= i < k -> sets (body i) (S i)) -> sets (for_ k body) (fun j v => exists i, 0 <= i < k /\ S i j v).
Proof.
  intros H. eapply sets_eq; [apply sets_each; intros i Hi%elem_of_seqZ; apply (H i); lia|].
  intros j v. by setoid_rewrite elem_of_seqZ.
Qed.

Lemma sets_int z k S : is_int z -> sets (k z) S -> sets (z' ← int_of z; k z') S.
Proof. intros Hz (ups & H & HS). exists ups. split; [by apply runs_int|done]. Qed.

Lemma sets_read p len x i k S : source p len x -> 0 <= i < len ->
  sets (k (x i)) S -> sets (v ← read_word (fptr p i); k v) S.
Proof. intros Hp Hi (ups & H & HS). exists ups. split; [by apply (runs_read p len x)|done]. Qed.

Lemma sets_pure {A} (m : M A) v k S : (forall w, m w = (Ret v, w)) -> sets (k v) S -> sets (x ← m; k x) S.
Proof.
  intros E (ups & H & HS). exists ups. split; [|done]. intros w bs Hw. rewrite (st_bind_ret _ _ _ v w) by done. by apply H.
Qed.

Lemma sets_assoc3 {A B C} (m1 : M A) (m2 : A -> M B) (m3 : A -> B -> M C) k S v :
  (forall w, (a ← m1; c ← m2 a; m3 a c) w = (Ret v, w)) -> sets (k v) S -> sets (a ← m1; c ← m2 a; x ← m3 a c; k x) S.
Proof.
  intros E (ups & H & HS). exists ups. split; [|done]. intros w bs Hw.
  assert (Ew : (a ← m1; c ← m2 a; x ← m3 a c; k x) w = ((a ← m1; c ← m2 a; m3 a c) ≫= k) w).
  { unfold mbind, st_bind. destruct (m1 w) as [[a|e|] w1]; try done. by destruct (m2 a w1) as [[c|e|] w2]. }
  rewrite Ew, (st_bind_ret _ _ _ v w) by done. by apply H.
Qed.

Lemma sets_read_i32 p len x i k S : source p len x -> 0 <= i < len -> sets (k (i32 (x i))) S ->
  sets (v ← read_i32 (fptr p i); k v) S.
Proof. intros Hp Hi (ups & H & HS). exists ups. split; [by apply (runs_read_i32 p len x)|done]. Qed.

Lemma sets_host who X t k S : o0 !! X = Some t -> t_dtype t = FP32 -> t_device t = Dev.CPU0 ->
  sets (k (t_data t)) S -> sets (p ← T.host_ptr who (Some FP32) X; k p) S.
Proof. intros H1 H2 H3 (ups & H & HS). exists ups. split; [by apply (runs_host who X t)|done]. Qed.

Lemma sets_obj X t k S : o0 !! X = Some t -> sets (k t) S -> sets (t' ← obj X; k t') S.
Proof. intros H1 (ups & H & HS). exists ups. split; [by apply (runs_obj X t)|done]. Qed.

Lemma sets_write k v : 0 <= k < n -> is_word v ->
  sets (write_word (fptr (Some (b, 0)) k) v) (fun j x => j = k /\ x = v).
Proof.
  intros Hk Hv. exists [(k, fun _ => v)]. split; [by apply runs_write|]. split.
  - intros j g [= -> ->]%list_elem_of_singleton. by exists v.
  - intros j x [-> ->]. exists (fun _ => v). by apply list_elem_of_singleton.
Qed.

Lemma sets_copy p len x k j m : source p len x -> 0 < m -> 0 <= k -> k + m <= n -> 0 <= j -> j + m <= len ->
  sets (copy_words (fptr (Some (b, 0)) k) (fptr p j) m) (fun i v => exists q, 0 <= q < m /\ i = k + q /\ v = x (j + q)).
Proof.
  intros Hp Hm Hk Hkm Hj Hjm. exists (row_updates k j m x). split; [by apply (runs_copy p len)|]. split.
  - intros i g (q & [= -> ->] & Hq%elem_of_seqZ)%list_elem_of_fmap. exists (x (j + q)). split; [|done].
    exists q. split; [lia|done].
  - intros i v (q & Hq & -> & ->). exists (fun _ => x (j + q)). apply list_elem_of_fmap. exists q. split; [done|].
    apply elem_of_seqZ. lia.
Qed.

(** Where only one value is set, the word has it. *)
Lemma sets_value m S : sets m S -> (forall k v v', S k v -> S k v' -> v = v') ->
  exists ups, runs m ups /\ forall f, (forall k v, S k v -> apply ups f k = v) /\
    (forall k, (forall v, ~ S k v) -> apply ups f k = f k).
Proof.
  intros (ups & H & H1 & H2) Hfun. exists ups. split; [done|]. intros f. split.
  - intros k v Hv. destruct (H2 k v Hv) as [g Hg]. apply (apply_const _ _ _ _ g Hg).
    intros g' Hg' x. destruct (H1 k g' Hg') as (v' & Hv' & E). rewrite E. by apply (Hfun k).
  - intros k Hk. apply apply_miss. intros g Hg. destruct (H1 k g Hg) as (v & Hv & _). by apply (Hk v).
Qed.

(** Words set first and then set again. *)
Lemma sets_over m k S T : sets m S -> sets k T ->
  (forall j v v', S j v -> S j v' -> v = v') -> (forall j v v', T j v -> T j v' -> v = v') ->
  exists ups, runs (_ ← m; k) ups /\ forall f, (forall j v, T j v -> apply ups f j = v) /\
    (forall j v, S j v -> (forall v', ~ T j v') -> apply ups f j = v).
Proof.
  intros Hm Hk HS HT. destruct (sets_value m S Hm HS) as (u & Hu & Hu'). destruct (sets_value k T Hk HT) as (v & Hv & Hv').
  exists (u ++ v). split; [by apply runs_bind|]. intros f. rewrite apply_app. split.
  - intros j x Hj. by apply (Hv' (apply u f)).
  - intros j x Hj Hno. destruct (Hv' (apply u f)) as [_ Hmiss]. rewrite Hmiss by done. by apply (Hu' f).
Qed.
End Runs.

(** ** Kernels *)
Section Kernel.
Context (rt : runtime) (Hlaw : forall t s, rt_slots rt t = Some s -> LawfulAlloc t (slot_alloc s)).
Context (F : gset positive).

(** A tensor a kernel may write: on the CPU, not a traced intermediate, with
    storage of its own unless its shape is empty. *)
Definition output (t : Tensor) : Prop :=
  t_device t = Dev.CPU0 /\ t_jit_slot t < 0 /\ (t_owns t = true \/ t_data t = nullptr /\ t_rows t * t_cols t = 0).

(** An operand: FP32 (or INT32) words on the CPU, outside the output's
    storage. *)
Definition operand (w : world) (id : positive) (t : Tensor) (dt : Dtype) (n : Z) : Prop :=
  w_objs w !! id = Some t /\ t_dtype t = dt /\ t_device t = Dev.CPU0 /\ (0 < n -> host_words (w_heap w) (t_data t) n).

Definition beside (t out : Tensor) : Prop := forall b, owned_block out = Some b -> apart (t_data t) b.

(** Blocks that are not the old storage of [t] are as before. *)
Definition untouched (t : Tensor) (h h' : heap) : Prop :=
  forall b, is_Some (h !! b) -> owned_block t <> Some b -> h' !! b = h !! b.

(** What a kernel that writes [Y] as an [r] by [c] tensor promises: it has no
    undefined behaviour; the invariant holds after it; no other object and no
    other block changes; when it returns, [Y] has the shape, and its words are
    as [good] says. It throws only if memory runs out. *)
Definition outcome (w : world) (Y : positive) (t : Tensor) (r c : Z) (dt : Dtype) (good : (Z -> Z) -> Prop)
    (res : res unit * world) : Prop :=
  match res with
  | (Ret _, w') => exists t', w_objs w' = <[Y := t']> (w_objs w) /\ inv rt F w' /\ untouched t (w_heap w) (w_heap w') /\
      output t' /\ t_rows t' = r /\ t_cols t' = c /\ t_dtype t' = dt /\
      (0 < r * c -> host_words (w_heap w') (t_data t') (r * c)) /\
      (forall b, owned_block t' = Some b -> owned_block t = Some b \/ w_heap w !! b = None) /\
      good (words (w_heap w') (t_data t'))
  | (Throw _, w') => inv rt F w' /\ untouched t (w_heap w) (w_heap w') /\
      forall id, id <> Y -> w_objs w' !! id = w_objs w !! id
  | (Undef, _) => False
  end.

Definition word_type (dt : Dtype) : Prop := dtype_size_bytes dt = 4 /\ dtype_is_quant dt = false.

Lemma size_words t r c dt : word_type dt -> 0 <= r <= INT_MAX -> 0 <= c <= INT_MAX -> size_of (set_shape t r c dt) = 4 * (r * c).
Proof.
  intros [Hs Hq] Hr Hc. pose proof (size_shape t r c dt ltac:(lia) ltac:(lia) (or_introl Hq)) as E.
  unfold dtype_storage_bytes in E. destruct (Z.ltb_spec (r * c) 0); [nia|]. rewrite Hq in E. cbn [negb] in E.
  injection E as <-. rewrite Hs. unfold u64, INT_MAX in *. rewrite <- Z.mul_mod by lia. rewrite Z.mod_small by nia. lia.
Qed.

Lemma set_shape_id t : set_shape t (t_rows t) (t_cols t) (t_dtype t) = t.
Proof. by destruct t. Qed.

Lemma owned_words w id t n : inv rt F w -> w_objs w !! id = Some t -> t_owns t = true -> t_device t = Dev.CPU0 ->
  4 * n <= size_of t -> host_words (w_heap w) (t_data t) n.
Proof.
  intros [W _] Ht Ho Hd Hn. destruct (wf_obj _ _ _ _ W _ _ Ht) as [_ Hok]. rewrite Ho in Hok.
  destruct Hok as (b & blk & E & Hb & Hty & Hz & Hle & _). rewrite Hd in Hty. exists b, 0, blk. repeat split; try done; lia.
Qed.

(** The output is ready for an [r] by [c] result, or memory ran out. *)
Lemma ensure_spec w Y t r c dt : inv rt F w -> w_objs w !! Y = Some t -> output t -> word_type dt ->
  0 <= r <= INT_MAX -> 0 <= c <= INT_MAX ->
  outcome w Y t r c dt (fun _ => True) (ensure rt Y r c dt w).
Proof.
  intros I Ht (Hcpu & Hslot & Hst) Hdt Hr Hc. unfold ensure. rewrite (st_bind_ret _ _ _ t w) by by apply obj_eq.
  destruct (negb (t_rows t =? r) || negb (t_cols t =? c) || negb (dtype_eqb (t_dtype t) dt)) eqn:E.
  - pose proof (resize_spec rt Hlaw F Y t r c dt w I Ht) as H. pose proof (resize_inv rt Hlaw F Y t r c dt w I Ht) as [_ I'].
    cbv zeta in H. rewrite (size_words t r c dt Hdt Hr Hc) in H.
    assert (Hres : resolve_device_alias rt (t_device t) = Dev.CPU0) by (by rewrite Hcpu, resolve_not_cuda).
    rewrite Hres in H. unfold outcome. destruct (T.resize rt Y r c dt w) as [res w'].
    pose proof (wf_obj _ _ _ _ (proj1 I) _ _ Ht) as Hok. cbn [snd] in I'.
    assert (Hfree : untouched t (w_heap w) (freed t (w_heap w))).
    { intros b _ Hb. unfold freed. destruct (owned_block t) as [b0|]; [|done]. apply lookup_delete_ne. congruence. }
    assert (Hwords : forall t', w_objs w' !! Y = Some t' -> t_rows t' = r -> t_cols t' = c -> t_dtype t' = dt ->
        t_device t' = Dev.CPU0 -> (0 < r * c -> t_owns t' = true) -> 0 < r * c -> host_words (w_heap w') (t_data t') (r * c)).
    { intros t' Ht' Hr' Hc' Hd' Hcpu' Ho' Hpos. apply (owned_words w' Y t'); try done; [by apply Ho'|].
      rewrite <- (set_shape_id t'), Hr', Hc', Hd', size_words by done. lia. }
    destruct H as [(e & [= -> ->])|(_ & _ & _ & _ & H)]; [done|].
    destruct H as [(-> & -> & -> & _ & _)|[(Ho & Hle & [= -> ->])|(Hgrow & [(e & [= -> ->])|(p & h' & Ha & [= -> ->])])]].
    { rewrite !Z.eqb_refl in E. cbn [negb orb] in E. unfold dtype_eqb in E. by rewrite bool_decide_eq_true_2 in E. }
    + exists (set_shape t r c dt). split; [done|]. split; [done|]. split; [by intros b|].
      split; [by repeat split; [..|left]|]. do 3 (split; [done|]). split; [|split; [|done]].
      * apply Hwords; try done. cbn. by rewrite lookup_insert, decide_True.
      * intros b Hb. by left.
    + split; [done|]. split; [exact Hfree|]. intros id Hid. cbn. by rewrite lookup_insert_ne.
    + exists (grown rt t r c dt p (4 * (r * c))). split; [done|]. split; [done|].
      unfold allocated in Ha.
      destruct (Z.eqb_spec (4 * (r * c)) 0) as [E0|Hne].
      * destruct Ha as [-> ->]. split; [done|]. split; [split; [done|split; [done|right; cbn; split; [done|nia]]]|].
        do 3 (split; [done|]). split; [nia|]. split; [by intros|done].
      * destruct Ha as (b & dv & bs & -> & Hb & -> & Hty & Hz & Hreg).
        split; [|split; [by repeat split; [..|left]|do 3 (split; [done|]); split; [|split; [|done]]]].
        -- intros b' Hb' Hne'. cbn. rewrite lookup_insert_ne; [by apply Hfree|]. intros <-.
           rewrite (Hfree b Hb' Hne') in Hb. destruct Hb'. congruence.
        -- apply Hwords; try done. cbn. by rewrite lookup_insert, decide_True.
        -- intros b' [= <-]. destruct (decide (owned_block t = Some b)) as [|Hne']; [by left|right].
           unfold freed in Hb. destruct (owned_block t) as [b0|] eqn:Eb; [|done]. by rewrite lookup_delete_ne in Hb by congruence.
  - bool_facts. subst r c. unfold dtype_eqb in *. match goal with H : bool_decide _ = true |- _ => apply bool_decide_eq_true in H; subst dt end.
    exists t. rewrite insert_id by done. split; [done|]. split; [done|]. split; [by intros b|]. split; [done|]. do 3 (split; [done|]).
    split; [|split; [by left|done]]. intros Hpos. destruct Hst as [Ho|[_ Hz]]; [|lia].
    apply (owned_words w Y t); try done.
    pose proof (size_words t _ _ _ Hdt Hr Hc) as Es. rewrite set_shape_id in Es. lia.
Qed.

Lemma with_heap_id w : with_heap w (w_heap w) = w.
Proof. by destruct w. Qed.

(** A loop nest on the block of a tensor. *)
Lemma body_spec w b blk n m ups : inv rt F w -> w_heap w !! b = Some blk -> 4 * n <= zlen (blk_bytes blk) ->
  runs (w_heap w) (w_objs w) b (blk_dev blk) (zlen (blk_bytes blk)) n m ups ->
  exists bs, let h := <[b := mkBlock (blk_dev blk) bs]> (w_heap w) in
    m w = (Ret tt, with_heap w h) /\ inv rt F (with_heap w h) /\ zlen bs = zlen (blk_bytes blk) /\
    forall i, 0 <= i < n -> words h (Some (b, 0)) i = apply ups (words (w_heap w) (Some (b, 0))) i.
Proof.
  intros I Hb Hn Hruns. destruct (Hruns w (blk_bytes blk)) as (bs & Er & Hz & Hbs).
  { split; [|done]. symmetry. apply insert_id. rewrite Hb. by destruct blk. }
  exists bs. cbv zeta. split; [done|]. split; [split; [cbn; by apply (wf_write rt F _ _ (proj1 I) b blk)|apply I]|].
  split; [done|]. intros i Hi. rewrite (words_wd _ b (mkBlock (blk_dev blk) bs) n); [|by rewrite lookup_insert, decide_True|cbn; lia|done].
  cbn [blk_bytes]. rewrite Hbs by done. apply (apply_ext _ _ _ n); [|done]. intros j Hj. by rewrite (words_wd _ b blk n).
Qed.

(** The block a ready output owns. *)
Lemma owned_at w Y t n : inv rt F w -> w_objs w !! Y = Some t -> t_owns t = true -> host_words (w_heap w) (t_data t) n ->
  exists b blk, t_data t = Some (b, 0) /\ owned_block t = Some b /\ w_heap w !! b = Some blk /\
    dev_type (blk_dev blk) = CPU /\ 4 * n <= zlen (blk_bytes blk).
Proof.
  intros I Ht Ho (b & off & blk & Ep & Hb & Hty & Hoff & Hn). destruct (wf_obj _ _ _ _ (proj1 I) _ _ Ht) as [_ Hok].
  rewrite Ho in Hok. destruct Hok as (b' & blk' & Ep' & _). rewrite Ep in Ep'. injection Ep' as <- ->.
  exists b, blk. unfold owned_block. rewrite Ho, Ep. repeat split; done || lia.
Qed.

(** A kernel: the output is made ready, and then either there is nothing to do
    or its loops run. *)
Lemma kernel_spec w Y t r c dt (k : M unit) (good : (Z -> Z) -> Prop) :
  inv rt F w -> w_objs w !! Y = Some t -> output t -> word_type dt -> 0 <= r <= INT_MAX -> 0 <= c <= INT_MAX ->
  (r * c = 0 -> (forall f, good f) /\ forall w', k w' = (Ret tt, w')) ->
  (0 < r * c -> forall w' t' b L, w_objs w' = <[Y := t']> (w_objs w) -> t_data t' = Some (b, 0) -> t_dtype t' = dt ->
     t_device t' = Dev.CPU0 -> untouched t (w_heap w) (w_heap w') -> owned_block t = Some b \/ w_heap w !! b = None ->
     4 * (r * c) <= L ->
     (forall d, dev_type d = CPU -> exists m ups, k w' = m w' /\ runs (w_heap w') (w_objs w') b d L (r * c) m ups /\
        forall f, (forall i, is_word (f i)) -> good (apply ups f))) ->
  (forall f g, (forall i, 0 <= i < r * c -> f i = g i) -> good f -> good g) ->
  outcome w Y t r c dt good ((_ ← ensure rt Y r c dt; k) w).
Proof.
  intros I Ht Hout Hdt Hr Hc Hempty Hk Hext.
  pose proof (ensure_spec w Y t r c dt I Ht Hout Hdt Hr Hc) as H. unfold outcome in H.
  destruct (ensure rt Y r c dt w) as [[u|e|] w1] eqn:E; [|by rewrite (st_bind_throw _ _ _ _ _ E)|done].
  rewrite (st_bind_ret _ _ _ _ _ E). destruct H as (t1 & Ho1 & I1 & Hu & Hout1 & Hr1 & Hc1 & Hd1 & Hw & Hb & _).
  destruct (Z.eq_dec (r * c) 0) as [Hz|Hnz].
  { destruct (Hempty Hz) as [Hg Hret]. rewrite Hret. exists t1. by repeat (split; [done|]). }
  assert (Hpos : 0 < r * c) by nia.
  assert (Ht1 : w_objs w1 !! Y = Some t1) by (rewrite Ho1; by rewrite lookup_insert, decide_True).
  assert (Hown : t_owns t1 = true).
  { destruct Hout1 as (_ & _ & [Ho|[Hn _]]); [done|]. destruct (Hw Hpos) as (b & off & blk & Ep & _). by rewrite Hn in Ep. }
  destruct (owned_at w1 Y t1 (r * c) I1 Ht1 Hown (Hw Hpos)) as (b & blk & Ep & Hob & Hblk & Hty & Hsz).
  destruct (Hk Hpos w1 t1 b _ Ho1 Ep Hd1 (proj1 Hout1) Hu (Hb b Hob) Hsz _ Hty) as (m & ups & -> & Hruns & Hgood).
  destruct (body_spec w1 b blk (r * c) m ups I1 Hblk Hsz Hruns) as (bs & -> & I2 & Hz & Hbs).
  set (h := <[b := _]> (w_heap w1)) in *.
  assert (Hins : h !! b = Some (mkBlock (blk_dev blk) bs)) by (unfold h; by rewrite lookup_insert, decide_True).
  exists t1. split; [exact Ho1|]. split; [exact I2|]. split.
  { intros b' Hb' Hne'. cbn. destruct (decide (b' = b)) as [->|Hne]; [|unfold h; rewrite lookup_insert_ne by done; by apply Hu].
    exfalso. destruct (Hb b Hob) as [E'|E']; [done|]. destruct Hb'. congruence. }
  do 4 (split; [done|]). split.
  { intros _. cbn. rewrite Ep. exists b, 0, (mkBlock (blk_dev blk) bs). repeat split; [done..|cbn; lia]. }
  split; [done|]. cbn. rewrite Ep. eapply Hext; [|apply (Hgood (words (w_heap w1) (Some (b, 0)))); intros i; apply words_word].
  intros i Hi. symmetry. by apply Hbs.
Qed.

(** A kernel that changes a tensor in place. *)
Lemma inplace_spec w Y t n (k : M unit) (good : (Z -> Z) -> (Z -> Z) -> Prop) :
  inv rt F w -> w_objs w !! Y = Some t -> t_owns t = true -> t_device t = Dev.CPU0 -> 4 * n <= size_of t ->
  (forall b d L, t_data t = Some (b, 0) -> owned_block t = Some b -> dev_type d = CPU -> 4 * n <= L ->
     exists ups, runs (w_heap w) (w_objs w) b d L n k ups /\ forall f, (forall i, is_word (f i)) -> good f (apply ups f)) ->
  (forall f g g', (forall i, 0 <= i < n -> g i = g' i) -> good f g -> good f g') ->
  exists h, k w = (Ret tt, with_heap w h) /\ inv rt F (with_heap w h) /\ untouched t (w_heap w) h /\
    host_words h (t_data t) n /\ good (words (w_heap w) (t_data t)) (words h (t_data t)).
Proof.
  intros I Ht Ho Hcpu Hn Hk Hext. pose proof (owned_words w Y t n I Ht Ho Hcpu Hn) as Hw.
  destruct (owned_at w Y t n I Ht Ho Hw) as (b & blk & Ep & Hob & Hblk & Hty & Hsz).
  destruct (Hk b (blk_dev blk) (zlen (blk_bytes blk)) Ep Hob Hty Hsz) as (ups & Hruns & Hgood).
  destruct (body_spec w b blk n k ups I Hblk Hsz Hruns) as (bs & E & I2 & Hz & Hbs). eexists. split; [exact E|]. split; [done|].
  split; [|split].
  - intros b' _ Hne. rewrite lookup_insert_ne; [done|]. congruence.
  - rewrite Ep. exists b, 0, (mkBlock (blk_dev blk) bs). rewrite lookup_insert, decide_True by done. repeat split; [done..|cbn; lia].
  - rewrite Ep. eapply Hext; [|apply Hgood; intros i; apply words_word]. intros i Hi. symmetry. by apply Hbs.
Qed.

Lemma host_f32_ok who X t w : w_objs w !! X = Some t -> t_dtype t = FP32 -> t_device t = Dev.CPU0 ->
  T.host_ptr who (Some FP32) X w = (Ret (t_data t), w).
Proof.
  intros Ht Hdt Hd. unfold T.host_ptr. rewrite (st_bind_ret _ _ _ t w) by by apply obj_eq.
  unfold st_lift, check_host, check_dtype. rewrite Hd, Hdt. done.
Qed.

(** An operand is as it was when the output has been made ready. *)
Lemma operand_after w w' X t dt n Y tY t' b : operand w X t dt n -> X <> Y -> beside t tY ->
  w_objs w' = <[Y := t']> (w_objs w) -> untouched tY (w_heap w) (w_heap w') ->
  owned_block tY = Some b \/ w_heap w !! b = None ->
  w_objs w' !! X = Some t /\ source (w_heap w') b (t_data t) n (words (w_heap w) (t_data t)).
Proof.
  intros (Ht & _ & _ & Hw) Hne Hbes Hobjs Hu Hb. split; [by rewrite Hobjs, lookup_insert_ne|]. intros Hn0.
  destruct (Hw Hn0) as (sb & off & blk & Ep & Hsb & Hty & Ho & Hn).
  assert (Hsb' : w_heap w' !! sb = Some blk).
  { rewrite Hu; [done|by eexists|]. intros Hown. apply (Hbes sb Hown). by rewrite Ep. }
  split; [by exists sb, off, blk|]. split.
  - intros Hab. destruct Hb as [Hb|Hb]; [by apply (Hbes b)|]. rewrite Ep in Hab. injection Hab as ->. congruence.
  - intros i. unfold words. rewrite Ep. cbn. by rewrite Hsb, Hsb'.
Qed.

(** A kernel with one operand. *)
Lemma kernel1 w X tX n Y t r c (stop : bool) (m : ptr -> ptr -> M unit) who who' (good : (Z -> Z) -> Prop) :
  inv rt F w -> operand w X tX FP32 n -> X <> Y -> beside tX t ->
  w_objs w !! Y = Some t -> output t -> 0 <= r <= INT_MAX -> 0 <= c <= INT_MAX ->
  (if stop then r * c = 0 /\ forall f, good f
   else 0 < r * c /\ forall h o b d L, dev_type d = CPU -> 4 * (r * c) <= L ->
     source h b (t_data tX) n (words (w_heap w) (t_data tX)) ->
     exists ups, runs h o b d L (r * c) (m (t_data tX) (Some (b, 0))) ups /\
       forall f, (forall i, is_word (f i)) -> good (apply ups f)) ->
  (forall f g, (forall i, 0 <= i < r * c -> f i = g i) -> good f -> good g) ->
  outcome w Y t r c FP32 good
    ((_ ← ensure rt Y r c FP32;
      if stop then mret tt
      else Xp ← T.host_ptr who (Some FP32) X; Yp ← T.host_ptr who' (Some FP32) Y; m Xp Yp) w).
Proof.
  intros I HX Hne Hbes Ht Hout Hr Hc Hm Hext. apply kernel_spec; try done.
  - intros Hz. destruct stop; [|lia]. by destruct Hm.
  - intros Hpos w' t' b L Hobjs Hdata Hdt Hcpu Hu Hb HL d Hd. destruct stop; [lia|]. destruct Hm as (_ & Hm).
    destruct (operand_after w w' X tX FP32 n Y t t' b HX Hne Hbes Hobjs Hu Hb) as (Ht' & Hx).
    destruct (Hm (w_heap w') (w_objs w') b d L Hd HL Hx) as (ups & Hr' & Hg).
    exists (m (t_data tX) (Some (b, 0))), ups. split; [|done].
    destruct HX as (_ & Hdt' & Hcpu' & _).
    rewrite (st_bind_ret _ _ _ (t_data tX) w') by by apply host_f32_ok.
    rewrite (st_bind_ret _ _ _ (t_data t') w'); [by rewrite Hdata|].
    apply host_f32_ok; [by rewrite Hobjs, lookup_insert, decide_True|done..].
Qed.

Lemma outcome_mono w Y t r c dt (good good' : (Z -> Z) -> Prop) res :
  outcome w Y t r c dt good res -> (forall y, good y -> good' y) -> outcome w Y t r c dt good' res.
Proof.
  intros H Hg. destruct res as [[u|e|] w']; [|done..].
  destruct H as (t' & H1 & H2 & H3 & H4 & H5 & H6 & H7 & H8 & H9 & H10). exists t'. repeat (split; [done|]). by apply Hg.
Qed.

(** The caller's side of a kernel with one operand [X] of [n] words. *)
Record call (w : world) (X : positive) (tX : Tensor) (n : Z) (Y : positive) (tY : Tensor) : Prop := {
  call_inv : inv rt F w;
  call_operand : operand w X tX FP32 n;
  call_ne : X <> Y;
  call_beside : beside tX tY;
  call_obj : w_objs w !! Y = Some tY;
  call_output : output tY
}.

(** The result of one kernel is an operand of the next. *)
Lemma call_next w Y t r c good w' Z tZ : outcome w Y t r c FP32 good (Ret tt, w') ->
  Y <> Z -> w_objs w !! Z = Some tZ -> output tZ ->
  exists t', call w' Y t' (r * c) Z tZ /\ t_rows t' = r /\ t_cols t' = c /\ good (words (w_heap w') (t_data t')).
Proof.
  intros (t' & Hobjs & I & _ & Hout & Hr & Hc & Hdt & Hw & _ & Hg) Hne HZ HoutZ. exists t'. split; [|done].
  assert (HY : w_objs w' !! Y = Some t') by by rewrite Hobjs, lookup_insert, decide_True.
  assert (HZ' : w_objs w' !! Z = Some tZ) by by rewrite Hobjs, lookup_insert_ne.
  split; try done; [by destruct Hout|]. intros b Hb Hab. destruct Hout as (_ & _ & [Ho|[Hn _]]); [|by rewrite Hn in Hab].
  apply Hne. apply (wf_uniq _ _ _ _ (proj1 I) Y Z t' tZ b); try done. unfold owned_block. by rewrite Ho.
Qed.

(** Partial correctness of a sequence of kernels, without undefined behaviour:
    when it returns, [good] holds; when it throws, the world is still in
    order. *)
Definition safely (m : M unit) (good : world -> Prop) (w : world) : Prop :=
  match m w with
  | (Ret _, w') => good w'
  | (Throw _, w') => inv rt F w'
  | (Undef, _) => False
  end.

(** The [r] by [c] words [x] are what object [Z] holds. *)
Definition holds (Z : positive) (r c : BinNums.Z) (x : BinNums.Z -> BinNums.Z) (w : world) : Prop :=
  exists t, w_objs w !! Z = Some t /\ t_rows t = r /\ t_cols t = c /\
    forall i, 0 <= i < r * c -> words (w_heap w) (t_data t) i = x i.

Lemma outcome_then w Y t r c good Z tZ (m1 m2 : M unit) Q : outcome w Y t r c FP32 good (m1 w) ->
  Y <> Z -> w_objs w !! Z = Some tZ -> output tZ ->
  (forall w1 t1, call w1 Y t1 (r * c) Z tZ -> t_rows t1 = r -> t_cols t1 = c -> good (words (w_heap w1) (t_data t1)) -> safely m2 Q w1) ->
  safely (_ ← m1; m2) Q w.
Proof.
  intros H Hne HZ HoutZ Hm2. unfold safely. destruct (m1 w) as [[[]|e|] w1] eqn:E.
  - rewrite (st_bind_ret _ _ _ _ _ E). destruct (call_next w Y t r c good w1 Z tZ H Hne HZ HoutZ) as (t1 & ? & ? & ? & ?). by apply (Hm2 w1 t1).
  - rewrite (st_bind_throw _ _ _ _ _ E). apply H.
  - done.
Qed.

Lemma outcome_holds w Z t r c dt good x m : outcome w Z t r c dt good (m w) ->
  (forall y, good y -> forall i, 0 <= i < r * c -> y i = x i) -> safely m (holds Z r c x) w.
Proof.
  intros H Hx. unfold safely. destruct (m w) as [[[]|e|] w1]; [|apply H|done].
  destruct H as (t1 & Hobjs & _ & _ & _ & Hr & Hc & _ & _ & _ & Hg). exists t1.
  split; [by rewrite Hobjs, lookup_insert, decide_True|]. do 2 (split; [done|]). by apply Hx.
Qed.

(** A kernel with one operand that only sets words. *)
Lemma copy1 w X tX n Y t r c (stop : bool) (m : ptr -> ptr -> M unit) who who' (S : Z -> Z -> Prop) :
  call w X tX n Y t -> 0 <= r <= INT_MAX -> 0 <= c <= INT_MAX ->
  (if stop then r * c = 0 else 0 < r * c /\ forall h o b d L, dev_type d = CPU -> 4 * (r * c) <= L ->
     source h b (t_data tX) n (words (w_heap w) (t_data tX)) -> sets h o b d L (r * c) (m (t_data tX) (Some (b, 0))) S) ->
  (forall k v, S k v -> 0 <= k < r * c) -> (forall k v v', S k v -> S k v' -> v = v') ->
  outcome w Y t r c FP32 (fun y => forall k v, S k v -> y k = v)
    ((_ ← ensure rt Y r c FP32;
      if stop then mret tt
      else Xp ← T.host_ptr who (Some FP32) X; Yp ← T.host_ptr who' (Some FP32) Y; m Xp Yp) w).
Proof.
  intros [I HX Hne Hbes Ht Hout] Hr Hc Hm Hrange Hfun. apply (kernel1 w X tX n); try done.
  - destruct stop.
    + split; [done|]. intros f k v Hk%Hrange. lia.
    + destruct Hm as (Hpos & Hm). split; [done|]. intros h o b d L Hd HL Hx.
      destruct (sets_value h o b d L (r * c) _ S (Hm h o b d L Hd HL Hx) Hfun) as (ups & Hr' & Hf).
      exists ups. split; [done|]. intros f _. apply Hf.
  - intros f g Hfg Hf k v Hk. rewrite <- Hfg; [by apply Hf|by apply (Hrange k v)].
Qed.

(** A kernel with one operand that sets words and then sets some of them
    again: a cleared output, for instance. *)
Lemma over1 w X tX n Y t r c (stop : bool) (m1 m2 : ptr -> ptr -> M unit) who who' (S T : Z -> Z -> Prop) :
  call w X tX n Y t -> 0 <= r <= INT_MAX -> 0 <= c <= INT_MAX ->
  (if stop then r * c = 0 else 0 < r * c /\ forall h o b d L, dev_type d = CPU -> 4 * (r * c) <= L ->
     source h b (t_data tX) n (words (w_heap w) (t_data tX)) ->
     sets h o b d L (r * c) (m1 (t_data tX) (Some (b, 0))) S /\ sets h o b d L (r * c) (m2 (t_data tX) (Some (b, 0))) T) ->
  (forall k v, S k v \/ T k v -> 0 <= k < r * c) ->
  (forall k v v', S k v -> S k v' -> v = v') -> (forall k v v', T k v -> T k v' -> v = v') ->
  outcome w Y t r c FP32 (fun y => (forall k v, T k v -> y k = v) /\ forall k v, S k v -> (forall v', ~ T k v') -> y k = v)
    ((_ ← ensure rt Y r c FP32;
      if stop then mret tt
      else Xp ← T.host_ptr who (Some FP32) X; Yp ← T.host_ptr who' (Some FP32) Y; _ ← m1 Xp Yp; m2 Xp Yp) w).
Proof.
  intros [I HX Hne Hbes Ht Hout] Hr Hc Hm Hrange HS HT. apply (kernel1 w X tX n); try done.
  - destruct stop.
    + split; [done|]. intros f. split; intros k v Hk; [pose proof (Hrange k v (or_intror Hk))|pose proof (Hrange k v (or_introl Hk))]; lia.
    + destruct Hm as (Hpos & Hm). split; [done|]. intros h o b d L Hd HL Hx. destruct (Hm h o b d L Hd HL Hx) as [H1 H2].
      destruct (sets_over h o b d L (r * c) _ _ S T H1 H2 HS HT) as (ups & Hr' & Hf). exists ups. by split.
  - intros f g Hfg [Hf1 Hf2]. split; intros k v Hk.
    + rewrite <- Hfg; [by apply Hf1|]. by apply (Hrange k v); right.
    + intros Hno. rewrite <- Hfg; [by apply Hf2|]. by apply (Hrange k v); left.
Qed.
End Kernel.

(** ** Indices in row-major order *)

Lemma radix_bound a A b B : 0 <= a < A -> 0 <= b < B -> 0 <= a * B + b < A * B.
Proof. nia. Qed.

Lemma radix_inj a a' b b' B : 0 <= b < B -> 0 <= b' < B -> a * B + b = a' * B + b' -> a = a' /\ b = b'.
Proof. intros. assert (a = a') by nia. subst. lia. Qed.

Lemma radix_decode i A B : 0 <= B -> 0 <= i < A * B -> exists a b, 0 <= a < A /\ 0 <= b < B /\ i = a * B + b.
Proof.
  intros HB Hi. assert (0 < B) by (destruct (Z.eq_dec B 0) as [->|]; lia). exists (i / B), (i mod B).
  pose proof (Z.mod_pos_bound i B ltac:(lia)). pose proof (Z.div_mod i B ltac:(lia)).
  assert (0 <= i / B) by (apply Z.div_pos; lia). assert (i / B < A) by (apply Z.div_lt_upper_bound; lia). lia.
Qed.

(** ** Checks that pass *)

Lemma int_of_ok z w : is_int z -> int_of z w = (Ret z, w).
Proof. intros [H1 H2]. unfold int_of. by rewrite !(proj2 (Z.leb_le _ _)). Qed.

Lemma fail_if_false c op msg w : c = false -> fail_if c op msg w = (Ret tt, w).
Proof. by intros ->. Qed.

Lemma st_throw_if_false c e (w : world) : c = false -> st_throw_if c e w = (Ret tt, w).
Proof. by intros ->. Qed.

Lemma check_fp32_ok t op name w : t_dtype t = FP32 -> check_fp32 t op name w = (Ret tt, w).
Proof. intros H. unfold check_fp32. by rewrite H. Qed.
