(* ===== verification/CpuExample.v ===== *)
(** * Example worlds for the host kernels

    A closed world to evaluate kernels in: some tensors on the CPU that own
    their words, some that have never been given a shape, one allocator. *)
From S2P Require Import Prelude Dtype Device Heap Runtime Tensor TensorSpec CpuBuf.

Module Arrays.
Definition rt : runtime := mkRuntime
  (fun t => match t with CPU => Some (mkSlot (fun _ => None) (IdealAlloc.table CPU)) | _ => None end)
  0 0 true Dev.CPU0 true None [].

Lemma arrays_lawful t s : rt_slots rt t = Some s -> LawfulAlloc t (slot_alloc s).
Proof. destruct t; cbn; intros [= <-]; apply IdealAlloc.lawful. Qed.

(** A tensor's shape, type and words; object [id] owns block [id]. *)
Record arr : Type := mkArr { a_rows : Z; a_cols : Z; a_dtype : Dtype; a_words : list Z }.
Definition f32 (r c : Z) (l : list Z) : option arr := Some (mkArr r c FP32 l).
Definition i32s (r c : Z) (l : list Z) : option arr := Some (mkArr r c INT32 l).

Definition tensor_of (id : positive) (a : option arr) : Tensor :=
  match a with
  | Some a => mkTensor (Some (id, 0)) (a_rows a) (a_cols a) (a_dtype a) Dev.CPU0 (-1) true (4 * zlen (a_words a))
  | None => Tensor_default
  end.
Definition block_of (a : arr) : block := mkBlock Dev.CPU0 (concat (map (le_bytes 4) (a_words a))).

Definition world_of (m : gmap positive (option arr)) : world :=
  mkWorld (omap (fun a => block_of <$> a) m) (map_imap (fun id a => Some (tensor_of id a)) m) 0 0 false ∅.

Definition fits (a : option arr) : bool :=
  match a with
  | Some a => (0 <=? a_rows a) && (0 <=? a_cols a) && (a_rows a <=? INT_MAX) && (a_cols a <=? INT_MAX) &&
      (dtype_size_bytes (a_dtype a) =? 4) && negb (dtype_is_quant (a_dtype a)) && (a_rows a * a_cols a <=? zlen (a_words a))
  | None => true
  end.

Section World.
Context (m : gmap positive (option arr)) (Hm : map_Forall (fun _ a => fits a = true) m).

Lemma obj_of id t : w_objs (world_of m) !! id = Some t <-> exists a, m !! id = Some a /\ t = tensor_of id a.
Proof.
  cbn. rewrite map_lookup_imap. destruct (m !! id) as [a|]; cbn; [|split; [done|by intros (? & ? & _)]]. split; [intros [= <-]; by exists a|].
  by intros (a' & [= <-] & ->).
Qed.

Lemma block_at b a : m !! b = Some (Some a) -> w_heap (world_of m) !! b = Some (block_of a).
Proof. intros H. cbn. by rewrite lookup_omap, H. Qed.

Lemma block_length a : zlen (blk_bytes (block_of a)) = 4 * zlen (a_words a).
Proof.
  unfold block_of, zlen. cbn [blk_bytes]. induction (a_words a) as [|x l IH]; [done|].
  cbn [map concat]. rewrite length_app, length_le_bytes. cbn [length]. lia.
Qed.

Lemma owned_of id a b : owned_block (tensor_of id a) = Some b -> b = id /\ is_Some a.
Proof. destruct a; cbn; [|done]. unfold owned_block. cbn. intros [= <-]. by eauto. Qed.

Lemma world_inv : inv rt ∅ (world_of m).
Proof.
  split; [split|split; [|split]].
  - intros id t (a & Ha & ->)%obj_of. pose proof (Hm _ _ Ha) as Hf. cbn beta in Hf. destruct a as [a|]; [|split; [split; [done|split; [done|by left]]|done]].
    unfold fits in Hf. bool_facts.
    assert (Hs : size_of (tensor_of id (Some a)) = 4 * (a_rows a * a_cols a)).
    { change (tensor_of id (Some a)) with (set_shape (tensor_of id (Some a)) (a_rows a) (a_cols a) (a_dtype a)).
      apply size_words; [|lia..]. by split. }
    split; [split; [done|split; [done|by left]]|]. change (t_owns (tensor_of id (Some a))) with true. cbv iota. exists id, (block_of a). rewrite block_length.
    do 3 (split; [done || by apply block_at|]). split; [done|]. split; [rewrite Hs; cbn; lia|done].
  - intros i j ti tj b (a & _ & ->)%obj_of (a' & _ & ->)%obj_of [-> _]%owned_of [-> _]%owned_of. done.
  - intros b. cbn. rewrite lookup_omap. split.
    + intros [blk H]. right. destruct (m !! b) as [[a|]|] eqn:E; [|done..]. exists b, (tensor_of b (Some a)).
      split; [|done]. apply obj_of. by exists (Some a).
    + intros [?%not_elem_of_empty|(id & t & (a & Ha & ->)%obj_of & [-> [a' ->]]%owned_of)]; [done|]. rewrite Ha. by eexists.
  - intros id t b _ _. apply not_elem_of_empty.
  - right. intros id t (a & _ & ->)%obj_of. by destruct a.
  - intros id t (a & _ & ->)%obj_of. by destruct a.
  - intros s id H. cbn in H. by rewrite lookup_empty in H.
Qed.

Lemma operand_of id a dt n : m !! id = Some (Some a) -> a_dtype a = dt -> n <= zlen (a_words a) ->
  operand (world_of m) id (tensor_of id (Some a)) dt n.
Proof.
  intros Ha Hd Hn. split; [by apply obj_of; eauto|]. split; [done|]. split; [done|]. intros _.
  exists id, 0, (block_of a). rewrite block_length. repeat split; [by apply block_at|lia..].
Qed.

Lemma blank_of id : m !! id = Some None -> w_objs (world_of m) !! id = Some Tensor_default.
Proof. intros H. apply obj_of. by exists None. Qed.

Lemma blank_output : output Tensor_default.
Proof. repeat split. by right. Qed.

Lemma beside_blank t : beside t Tensor_default.
Proof. done. Qed.

Lemma beside_of id id' a a' : id <> id' -> beside (tensor_of id (Some a)) (tensor_of id' (Some a')).
Proof. intros Hne b [-> _]%owned_of. unfold apart. cbn. congruence. Qed.

Lemma call_of X a n Y : m !! X = Some (Some a) -> m !! Y = Some None -> a_dtype a = FP32 -> n <= zlen (a_words a) ->
  call rt ∅ (world_of m) X (tensor_of X (Some a)) n Y Tensor_default.
Proof.
  intros HX HY Hd Hn. split; [apply world_inv|by apply operand_of|congruence|done|by apply blank_of|apply blank_output].
Qed.
End World.

(** What a kernel left, once it is known to have returned. *)
Lemma outcome_value F w Y t r c dt good res : outcome rt F w Y t r c dt good res -> res.1 = Ret tt ->
  exists t', w_objs res.2 !! Y = Some t' /\ t_rows t' = r /\ t_cols t' = c /\ good (words (w_heap res.2) (t_data t')).
Proof.
  destruct res as [[[]|e|] w']; [|done..]. intros (t' & Ho & _ & _ & _ & Hr & Hc & _ & _ & _ & Hg) _. exists t'.
  cbn. by rewrite Ho, lookup_insert, decide_True.
Qed.

(** Addition on words, as a stand-in for the one of [float]s. *)
Definition add32 (a b : Z) : Z := u32 (a + b).
Lemma add32_word a b : is_word a -> is_word b -> is_word (add32 a b).
Proof. intros _ _. apply u32_range. Qed.
End Arrays.

(** A fact that evaluation decides. *)
Ltac by_value := repeat split; vm_compute; congruence.
