(* ===== verification/CpuMove.v ===== *)
(** * Host kernels that move data

    The rearrangements of src/cpu/: transpose.cpp, slice2d.cpp,
    window_partition.cpp, spatial_merge.cpp, pad2d.cpp and unfold2d.cpp. Each
    is the function of the source: its checks in their order, the [resize] of
    the output, and its loop nest on the tensors' memory, with [int]
    arithmetic undefined on overflow. The backward passes of the padding add
    floats; the addition is a parameter. *)
From S2P Require Import Prelude Dtype Device Heap Runtime Tensor CpuBuf.
Import Cpu.

Module Move.

(** A product of three [int]s, left to right. *)
Definition imul3 (a b c : Z) : M Z := ab ← int_of (a * b); int_of (ab * c).

(** [if (t.rows != r || t.cols != <cols>) fail(op, msg);] *)
Definition check_shape (t : Tensor) (r : Z) (cols : M Z) (op msg : str) : M unit :=
  if negb (t_rows t =? r) then fail op msg
  else c ← cols; fail_if (negb (t_cols t =? c)) op msg.

Section Ops.
Context (rt : runtime).

(** ** transpose.cpp *)

Definition check_fp32_plain (t : Tensor) (op name : str) : M unit :=
  st_throw_if (negb (dtype_eqb (t_dtype t) FP32)) (op ++ lit ": " ++ name ++ lit " must be FP32 (CPU backend is FP32-only)").
Definition check_dims_plain (op : str) (N C H W : Z) : M unit :=
  st_throw_if ((N <? 0) || (C <? 0) || (H <? 0) || (W <? 0)) (op ++ lit ": negative dimension").

Definition nchw_to_sequence (X : positive) (N C H W : Z) (Y : positive) : M unit :=
  tX ← obj X;
  _ ← check_fp32_plain tX (lit "nchw_to_sequence") (lit "X");
  _ ← check_dims_plain (lit "nchw_to_sequence") N C H W;
  HW ← int_of (H * W);
  rows ← int_of (N * HW);
  _ ← ensure rt Y rows C FP32;
  if (rows =? 0) || (C =? 0) then mret tt
  else
    Xp ← T.host_f32 X;
    Yp ← T.host_f32_mut Y;
    for_ N (fun n => for_ C (fun c => for_ HW (fun p =>
      dst ← int_of ((n * HW + p) * C + c);
      src ← int_of ((n * C + c) * HW + p);
      v ← read_word (fptr Xp src);
      write_word (fptr Yp dst) v))).

Definition sequence_to_nchw (X : positive) (N C H W : Z) (Y : positive) : M unit :=
  tX ← obj X;
  _ ← check_fp32_plain tX (lit "sequence_to_nchw") (lit "X");
  _ ← check_dims_plain (lit "sequence_to_nchw") N C H W;
  HW ← int_of (H * W);
  cols ← int_of (C * HW);
  _ ← ensure rt Y N cols FP32;
  if (N =? 0) || (cols =? 0) then mret tt
  else
    Xp ← T.host_f32 X;
    Yp ← T.host_f32_mut Y;
    for_ N (fun n => for_ C (fun c => for_ HW (fun p =>
      dst ← int_of ((n * C + c) * HW + p);
      src ← int_of ((n * HW + p) * C + c);
      v ← read_word (fptr Xp src);
      write_word (fptr Yp dst) v))).

(** ** slice2d.cpp *)

Definition slice_check_args (op : str) (N C H W h0 w0 H_out W_out : Z) : M unit :=
  _ ← fail_if ((N <? 0) || (C <? 1) || (H <? 0) || (W <? 0)) op (lit "C must be >=1; N, H, W must be >=0");
  _ ← fail_if ((H_out <? 0) || (W_out <? 0)) op (lit "H_out and W_out must be >=0");
  _ ← fail_if ((h0 <? 0) || (w0 <? 0)) op (lit "h0 and w0 must be >=0");
  he ← int_of (h0 + H_out);
  _ ← fail_if (he >? H) op (lit "h0 + H_out must be <= H");
  we ← int_of (w0 + W_out);
  fail_if (we >? W) op (lit "w0 + W_out must be <= W").

Definition slice2d_forward (X : positive) (N C H W h0 w0 H_out W_out : Z) (Y : positive) : M unit :=
  let op := lit "slice2d_forward" in
  tX ← obj X;
  _ ← check_fp32 tX op (lit "X");
  _ ← slice_check_args op N C H W h0 w0 H_out W_out;
  _ ← check_shape tX N (imul3 C H W) op (lit "X shape must be (N, C*H*W)");
  cols_out ← imul3 C H_out W_out;
  _ ← ensure rt Y N cols_out FP32;
  if (N =? 0) || (cols_out =? 0) then mret tt
  else
    Xp ← T.host_f32 X;
    Yp ← T.host_f32_mut Y;
    for_ N (fun n => for_ C (fun c =>
      let x_chan := fptr Xp ((n * C + c) * H * W) in
      let y_chan := fptr Yp ((n * C + c) * H_out * W_out) in
      for_ H_out (fun h =>
        let x_row := fptr x_chan ((h0 + h) * W + w0) in
        let y_row := fptr y_chan (h * W_out) in
        copy_words y_row x_row W_out))).

Definition slice2d_backward (dY : positive) (N C H W h0 w0 H_out W_out : Z) (dX : positive) : M unit :=
  let op := lit "slice2d_backward" in
  tdY ← obj dY;
  _ ← check_fp32 tdY op (lit "dY");
  _ ← slice_check_args op N C H W h0 w0 H_out W_out;
  _ ← check_shape tdY N (imul3 C H_out W_out) op (lit "dY shape must be (N, C*H_out*W_out)");
  cols_in ← imul3 C H W;
  _ ← ensure rt dX N cols_in FP32;
  if (N =? 0) || (cols_in =? 0) then mret tt
  else
    dYp ← T.host_f32 dY;
    dXp ← T.host_f32_mut dX;
    _ ← for_ (N * cols_in) (fun i => write_word (fptr dXp i) 0);
    if (H_out =? 0) || (W_out =? 0) then mret tt
    else
      for_ N (fun n => for_ C (fun c =>
        let dy_chan := fptr dYp ((n * C + c) * H_out * W_out) in
        let dx_chan := fptr dXp ((n * C + c) * H * W) in
        for_ H_out (fun h =>
          let dy_row := fptr dy_chan (h * W_out) in
          let dx_row := fptr dx_chan ((h0 + h) * W + w0) in
          copy_words dx_row dy_row W_out))).

(** ** window_partition.cpp *)

Definition window_check_args (op : str) (N C H W window : Z) : M unit :=
  _ ← fail_if ((N <? 0) || (C <? 1) || (H <? 1) || (W <? 1)) op (lit "C/H/W must be >=1 and N >=0");
  _ ← fail_if (window <? 1) op (lit "window must be >=1");
  fail_if (negb (Z.rem H window =? 0) || negb (Z.rem W window =? 0)) op
    (lit "H and W must be multiples of window (use pad2d first if the input doesn't align)").

Definition window_partition_forward (X : positive) (N C H W window : Z) (Y : positive) : M unit :=
  let op := lit "window_partition_forward" in
  tX ← obj X;
  _ ← check_fp32 tX op (lit "X");
  _ ← window_check_args op N C H W window;
  _ ← check_shape tX N (imul3 C H W) op (lit "X shape must be (N, C*H*W)");
  let nw_h := Z.quot H window in
  let nw_w := Z.quot W window in
  B_out ← imul3 N nw_h nw_w;
  cols_out ← imul3 C window window;
  _ ← ensure rt Y B_out cols_out FP32;
  if (N =? 0) || (cols_out =? 0) then mret tt
  else
    Xp ← T.host_f32 X;
    Yp ← T.host_f32_mut Y;
    for_ N (fun n => for_ nw_h (fun nh => for_ nw_w (fun nw =>
      b_out ← int_of ((n * nw_h + nh) * nw_w + nw);
      let y_row := fptr Yp (b_out * cols_out) in
      for_ C (fun c =>
        let x_chan := fptr Xp ((n * C + c) * H * W) in
        for_ window (fun lh =>
          h ← int_of (nh * window + lh);
          let x_row := fptr x_chan (h * W + nw * window) in
          let y_block := fptr y_row ((c * window + lh) * window) in
          for_ window (fun lw =>
            v ← read_word (fptr x_row lw);
            write_word (fptr y_block lw) v)))))).

Definition window_reverse_forward (X : positive) (N C H W window : Z) (Y : positive) : M unit :=
  let op := lit "window_reverse_forward" in
  tX ← obj X;
  _ ← check_fp32 tX op (lit "X");
  _ ← window_check_args op N C H W window;
  let nw_h := Z.quot H window in
  let nw_w := Z.quot W window in
  B_in ← imul3 N nw_h nw_w;
  cols_in ← imul3 C window window;
  _ ← fail_if (negb (t_rows tX =? B_in) || negb (t_cols tX =? cols_in)) op
        (lit "X shape must be (N*nw_h*nw_w, C*window*window)");
  cols_out ← imul3 C H W;
  _ ← ensure rt Y N cols_out FP32;
  if (N =? 0) || (cols_out =? 0) then mret tt
  else
    Xp ← T.host_f32 X;
    Yp ← T.host_f32_mut Y;
    for_ N (fun n => for_ nw_h (fun nh => for_ nw_w (fun nw =>
      b_in ← int_of ((n * nw_h + nh) * nw_w + nw);
      let x_row := fptr Xp (b_in * cols_in) in
      for_ C (fun c =>
        let y_chan := fptr Yp ((n * C + c) * H * W) in
        for_ window (fun lh =>
          h ← int_of (nh * window + lh);
          let y_row := fptr y_chan (h * W + nw * window) in
          let x_block := fptr x_row ((c * window + lh) * window) in
          for_ window (fun lw =>
            v ← read_word (fptr x_block lw);
            write_word (fptr y_row lw) v)))))).

(** ** spatial_merge.cpp *)

Definition spatial_merge_2x2_forward (X : positive) (N C H W : Z) (channel_major : bool) (Y : positive) : M unit :=
  tX ← obj X;
  _ ← st_throw_if (negb (dtype_eqb (t_dtype tX) FP32))
        (lit "spatial_merge_2x2_forward: X must be FP32 (CPU backend is FP32-only)");
  _ ← st_throw_if ((N <? 0) || (C <? 0) || (H <? 0) || (W <? 0)) (lit "spatial_merge_2x2_forward: negative dimension");
  _ ← st_throw_if (negb (Z.land H 1 =? 0) || negb (Z.land W 1 =? 0)) (lit "spatial_merge_2x2_forward: H and W must be even");
  let H_out := Z.quot H 2 in
  let W_out := Z.quot W 2 in
  C_out ← int_of (4 * C);
  cols ← imul3 C_out H_out W_out;
  _ ← ensure rt Y N cols FP32;
  if (N =? 0) || (C =? 0) || (H_out =? 0) || (W_out =? 0) then mret tt
  else
    Xp ← T.host_f32 X;
    Yp ← T.host_f32_mut Y;
    HW ← int_of (H * W);
    HW_out ← int_of (H_out * W_out);
    for_ N (fun n => for_ 2 (fun dh => for_ 2 (fun dw =>
      let block := dh * 2 + dw in
      for_ C (fun c_in =>
        let c_out := if channel_major then c_in * 4 + block else block * C + c_in in
        x_off ← int_of ((n * C + c_in) * HW);
        let xc := fptr Xp x_off in
        y_off ← int_of ((n * C_out + c_out) * HW_out);
        let yc := fptr Yp y_off in
        for_ H_out (fun h_out =>
          let h_in := 2 * h_out + dh in
          for_ W_out (fun w_out =>
            let w_in := 2 * w_out + dw in
            v ← read_word (fptr xc (h_in * W + w_in));
            write_word (fptr yc (h_out * W_out + w_out)) v)))))).

Definition pixel_shuffle_upsample_2x_forward (X : positive) (N C_in H W C_out : Z) (Y : positive) : M unit :=
  tX ← obj X;
  _ ← st_throw_if (negb (dtype_eqb (t_dtype tX) FP32))
        (lit "pixel_shuffle_upsample_2x_forward: X must be FP32 (CPU backend is FP32-only)");
  _ ← st_throw_if ((N <? 0) || (C_in <=? 0) || (H <? 0) || (W <? 0) || (C_out <=? 0))
        (lit "pixel_shuffle_upsample_2x_forward: bad dimension");
  C4 ← int_of (4 * C_out);
  _ ← st_throw_if (negb (Z.rem C4 C_in =? 0)) (lit "pixel_shuffle_upsample_2x_forward: C_in must divide 4*C_out");
  let repeats := Z.quot C4 C_in in
  H_out ← int_of (2 * H);
  W_out ← int_of (2 * W);
  cols ← imul3 C_out H_out W_out;
  _ ← ensure rt Y N cols FP32;
  if (N =? 0) || (H =? 0) || (W =? 0) then mret tt
  else
    Xp ← T.host_f32 X;
    Yp ← T.host_f32_mut Y;
    HW ← int_of (H * W);
    HW_out ← int_of (H_out * W_out);
    for_ N (fun n => for_ C_out (fun c_out =>
      let yc := fptr Yp ((n * C_out + c_out) * HW_out) in
      for_ H_out (fun h_out =>
        let i := Z.land h_out 1 in
        let h := Z.shiftr h_out 1 in
        for_ W_out (fun w_out =>
          let j := Z.land w_out 1 in
          let w := Z.shiftr w_out 1 in
          let src_c := Z.quot (4 * c_out + 2 * i + j) repeats in
          let xc := fptr Xp ((n * C_in + src_c) * HW) in
          v ← read_word (fptr xc (h * W + w));
          write_word (fptr yc (h_out * W_out + w_out)) v)))).

Definition patch_unpack_forward (tokens : positive) (hp wp P C_total C_keep : Z) (channel_major : bool) (Y : positive) : M unit :=
  tt_ ← obj tokens;
  _ ← st_throw_if (negb (dtype_eqb (t_dtype tt_) FP32))
        (lit "patch_unpack_forward: tokens must be FP32 (CPU backend is FP32-only)");
  _ ← st_throw_if ((hp <? 0) || (wp <? 0) || (P <=? 0) || (C_total <=? 0) || (C_keep <=? 0) || (C_keep >? C_total))
        (lit "patch_unpack_forward: bad dimension");
  PP ← int_of (P * P);
  N ← int_of (hp * wp);
  let mismatch := lit "patch_unpack_forward: tokens shape mismatch" in
  _ ← (if negb (t_rows tt_ =? N) then st_throw mismatch
       else c ← int_of (PP * C_total); st_throw_if (negb (t_cols tt_ =? c)) mismatch);
  H ← int_of (hp * P);
  W ← int_of (wp * P);
  cols ← imul3 C_keep H W;
  _ ← ensure rt Y 1 cols FP32;
  if N =? 0 then mret tt
  else
    Xp ← T.host_f32 tokens;
    Yp ← T.host_f32_mut Y;
    row_stride ← int_of (PP * C_total);
    let plane := H * W in
    for_ C_keep (fun c => for_ hp (fun i => for_ P (fun py =>
      let y := i * P + py in
      for_ wp (fun j =>
        let tok := i * wp + j in
        let trow := fptr Xp (tok * row_stride) in
        for_ P (fun px =>
          let x := j * P + px in
          let block := py * P + px in
          let col := if channel_major then c * PP + block else block * C_total + c in
          v ← read_word (fptr trow col);
          write_word (fptr Yp (c * plane + y * W + x)) v))))).

(** ** pad2d.cpp *)

Definition pad_src (p L pad_left mode : Z) : M Z :=
  rel ← int_of (p - pad_left);
  if (rel >=? 0) && (rel <? L) then mret rel
  else if mode =? 0 then mret (-1)
  else if mode =? 2 then mret (if rel <? 0 then 0 else L - 1)
  else if L =? 1 then mret 0
  else
    period ← int_of (2 * (L - 1));
    let q := Z.rem rel period in
    let q := if q <? 0 then q + period else q in
    mret (if q <? L then q else period - q).

Definition pad_check_args (op : str) (N C H W pad_top pad_bottom pad_left pad_right mode : Z) : M unit :=
  _ ← fail_if ((N <? 0) || (C <? 1) || (H <? 1) || (W <? 1)) op (lit "C/H/W must be >=1 and N >=0");
  _ ← fail_if ((pad_top <? 0) || (pad_bottom <? 0) || (pad_left <? 0) || (pad_right <? 0)) op (lit "pad counts must be >=0");
  _ ← fail_if ((mode <? 0) || (mode >? 2)) op (lit "mode must be 0 (zero), 1 (reflect) or 2 (replicate)");
  if mode =? 1 then
    _ ← fail_if ((pad_top >=? H) || (pad_bottom >=? H)) op (lit "reflect padding requires pad_top and pad_bottom < H");
    fail_if ((pad_left >=? W) || (pad_right >=? W)) op (lit "reflect padding requires pad_left and pad_right < W")
  else mret tt.

(** A sum of three [int]s, left to right. *)
Definition iadd3 (a b c : Z) : M Z := ab ← int_of (a + b); int_of (ab + c).

Definition pad2d_forward (X : positive) (N C H W pad_top pad_bottom pad_left pad_right mode : Z) (Y : positive) : M unit :=
  let op := lit "pad2d_forward" in
  tX ← obj X;
  _ ← check_fp32 tX op (lit "X");
  _ ← pad_check_args op N C H W pad_top pad_bottom pad_left pad_right mode;
  _ ← check_shape tX N (imul3 C H W) op (lit "X shape must be (N, C*H*W)");
  H_pad ← iadd3 H pad_top pad_bottom;
  W_pad ← iadd3 W pad_left pad_right;
  cols_out ← imul3 C H_pad W_pad;
  _ ← ensure rt Y N cols_out FP32;
  if (N =? 0) || (C =? 0) then mret tt
  else
    Xp ← T.host_f32 X;
    Yp ← T.host_f32_mut Y;
    for_ N (fun n => for_ C (fun c =>
      let x_chan := fptr Xp ((n * C + c) * H * W) in
      let y_chan := fptr Yp ((n * C + c) * H_pad * W_pad) in
      for_ H_pad (fun p =>
        src_h ← pad_src p H pad_top mode;
        let y_row := fptr y_chan (p * W_pad) in
        if src_h <? 0 then for_ W_pad (fun q => write_word (fptr y_row q) 0)
        else
          let x_row := fptr x_chan (src_h * W) in
          for_ W_pad (fun q =>
            src_w ← pad_src q W pad_left mode;
            v ← (if src_w <? 0 then mret 0 else read_word (fptr x_row src_w));
            write_word (fptr y_row q) v)))).

(** [float] addition: the bits of [a + b]. *)
Context (fadd : Z -> Z -> Z).

(** [*p += v]. *)
Definition add_to (p : ptr) (v : Z) : M unit := x ← read_word p; write_word p (fadd x v).

Definition pad2d_backward (dY : positive) (N C H W pad_top pad_bottom pad_left pad_right mode : Z) (dX : positive) : M unit :=
  let op := lit "pad2d_backward" in
  tdY ← obj dY;
  _ ← check_fp32 tdY op (lit "dY");
  _ ← pad_check_args op N C H W pad_top pad_bottom pad_left pad_right mode;
  H_pad ← iadd3 H pad_top pad_bottom;
  W_pad ← iadd3 W pad_left pad_right;
  _ ← check_shape tdY N (imul3 C H_pad W_pad) op (lit "dY shape must be (N, C*(H+pt+pb)*(W+pl+pr))");
  cols_in ← imul3 C H W;
  _ ← ensure rt dX N cols_in FP32;
  if (N =? 0) || (C =? 0) then mret tt
  else
    dYp ← T.host_f32 dY;
    dXp ← T.host_f32_mut dX;
    _ ← for_ (N * cols_in) (fun i => write_word (fptr dXp i) 0);
    for_ N (fun n => for_ C (fun c =>
      let dy_chan := fptr dYp ((n * C + c) * H_pad * W_pad) in
      let dx_chan := fptr dXp ((n * C + c) * H * W) in
      for_ H_pad (fun p =>
        src_h ← pad_src p H pad_top mode;
        if src_h <? 0 then mret tt
        else
          let dy_row := fptr dy_chan (p * W_pad) in
          let dx_row := fptr dx_chan (src_h * W) in
          for_ W_pad (fun q =>
            src_w ← pad_src q W pad_left mode;
            if src_w >=? 0 then g ← read_word (fptr dy_row q); add_to (fptr dx_row src_w) g
            else mret tt)))).

(** ** unfold2d.cpp *)

Definition unf_src (coord L mode : Z) : M Z :=
  if (coord >=? 0) && (coord <? L) then mret coord
  else if mode =? 0 then mret (-1)
  else if mode =? 2 then mret (if coord <? 0 then 0 else L - 1)
  else if L =? 1 then mret 0
  else
    period ← int_of (2 * (L - 1));
    let q := Z.rem coord period in
    let q := if q <? 0 then q + period else q in
    mret (if q <? L then q else period - q).

(** [(L + pad_lo + pad_hi - k) / stride + 1]: the division truncates. *)
Definition unf_out (L pad_lo pad_hi k stride : Z) : M Z :=
  s ← iadd3 L pad_lo pad_hi;
  m ← int_of (s - k);
  int_of (Z.quot m stride + 1).

Definition unfold2d_forward (X : positive)
    (N C H W kH kW stride_h stride_w pad_top pad_bottom pad_left pad_right mode : Z) (Y : positive) : M unit :=
  let op := lit "unfold2d_forward" in
  tX ← obj X;
  _ ← check_fp32 tX op (lit "X");
  _ ← fail_if ((N <? 0) || (C <? 1) || (H <? 1) || (W <? 1)) op (lit "C/H/W must be >=1 and N >=0");
  _ ← fail_if ((kH <? 1) || (kW <? 1)) op (lit "kH/kW must be >=1");
  _ ← fail_if ((stride_h <? 1) || (stride_w <? 1)) op (lit "stride must be >=1");
  _ ← fail_if ((pad_top <? 0) || (pad_bottom <? 0) || (pad_left <? 0) || (pad_right <? 0)) op (lit "pad counts must be >=0");
  _ ← fail_if ((mode <? 0) || (mode >? 2)) op (lit "mode must be 0 (zero), 1 (reflect) or 2 (replicate)");
  _ ← check_shape tX N (imul3 C H W) op (lit "X shape must be (N, C*H*W)");
  H_out ← unf_out H pad_top pad_bottom kH stride_h;
  W_out ← unf_out W pad_left pad_right kW stride_w;
  _ ← fail_if ((H_out <? 1) || (W_out <? 1)) op (lit "kernel/padding/stride yield empty output");
  kK ← int_of (kH * kW);
  CkK ← int_of (C * kK);
  cols_out ← imul3 CkK H_out W_out;
  _ ← ensure rt Y N cols_out FP32;
  if N =? 0 then mret tt
  else
    Xp ← T.host_f32 X;
    Yp ← T.host_f32_mut Y;
    for_ N (fun n => for_ C (fun c =>
      let x_chan := fptr Xp ((n * C + c) * H * W) in
      for_ kH (fun ky => for_ kW (fun kx =>
        let k := ky * kW + kx in
        let y_blk := fptr Yp (((n * C + c) * kK + k) * H_out * W_out) in
        for_ H_out (fun oy =>
          oy_in ← int_of (oy * stride_h);
          sy_in ← iadd3 oy_in (- pad_top) ky;
          sy ← unf_src sy_in H mode;
          let y_row := fptr y_blk (oy * W_out) in
          if sy <? 0 then for_ W_out (fun ox => write_word (fptr y_row ox) 0)
          else
            let x_row := fptr x_chan (sy * W) in
            for_ W_out (fun ox =>
              ox_in ← int_of (ox * stride_w);
              sx_in ← iadd3 ox_in (- pad_left) kx;
              sx ← unf_src sx_in W mode;
              v ← (if sx <? 0 then mret 0 else read_word (fptr x_row sx));
              write_word (fptr y_row ox) v)))))).
End Ops.
End Move.
