(* ===== verification/CpuMoveSpec.v ===== *)
(** * What the rearrangements compute *)
From S2P Require Import Prelude Dtype Device Heap Runtime Tensor TensorSpec CpuBuf CpuExample CpuMove.
Import Cpu Move.

Lemma is_int_pos z : 0 <= z <= INT_MAX -> is_int z.
Proof. unfold is_int, INT_MIN. lia. Qed.

(** A dimension: an [int] that is not negative. *)
Definition dim (z : Z) : Prop := 0 <= z <= INT_MAX.

Lemma int_of_dim z w : dim z -> int_of z w = (Ret z, w).
Proof. intros H. by apply int_of_ok, is_int_pos. Qed.

Lemma dim_mul a b : dim a -> dim b -> a * b <= INT_MAX -> dim (a * b).
Proof. unfold dim. intros. split; nia. Qed.

(** [a * b * c] in [int]. *)
Definition dim3 (a b c : Z) : Prop := dim a /\ dim b /\ dim c /\ dim (a * b) /\ dim (a * b * c).

Lemma imul3_dim a b c w : dim3 a b c -> imul3 a b c w = (Ret (a * b * c), w).
Proof.
  intros (_ & _ & _ & H1 & H2). unfold imul3. rewrite (st_bind_ret _ _ _ _ _ (int_of_dim _ w H1)). by apply int_of_dim.
Qed.

Lemma check_shape_ok t r (cols : M Z) c op msg w : cols w = (Ret c, w) -> t_rows t = r -> t_cols t = c ->
  check_shape t r cols op msg w = (Ret tt, w).
Proof.
  intros Hc <- <-. unfold check_shape. rewrite Z.eqb_refl. cbn [negb].
  rewrite (st_bind_ret _ _ _ _ _ Hc). apply fail_if_false. by rewrite Z.eqb_refl.
Qed.

(** The flat index of an element in NCHW layout. *)
Definition nchw (C H W n c h w : Z) : Z := ((n * C + c) * H + h) * W + w.

Lemma nchw_bound N C H W n c h w : 0 <= n < N -> 0 <= c < C -> 0 <= h < H -> 0 <= w < W ->
  0 <= nchw C H W n c h w < N * (C * H * W).
Proof.
  intros Hn Hc Hh Hw. unfold nchw. replace (N * (C * H * W)) with (N * C * H * W) by ring.
  apply radix_bound; [|done]. apply radix_bound; [|done]. by apply radix_bound.
Qed.

Lemma nchw_inj C H W n c h w n' c' h' w' : 0 <= c < C -> 0 <= h < H -> 0 <= w < W -> 0 <= c' < C -> 0 <= h' < H -> 0 <= w' < W ->
  nchw C H W n c h w = nchw C H W n' c' h' w' -> n = n' /\ c = c' /\ h = h' /\ w = w'.
Proof.
  intros. unfold nchw in *. repeat match goal with H : _ * _ + _ = _ * _ + _ |- _ => apply radix_inj in H as [H ->]; [|done..] end.
  by subst.
Qed.

Lemma nchw_decode N C H W i : 0 <= C -> 0 <= H -> 0 <= W -> 0 <= i < N * (C * H * W) ->
  exists n c h w, 0 <= n < N /\ 0 <= c < C /\ 0 <= h < H /\ 0 <= w < W /\ i = nchw C H W n c h w.
Proof.
  intros HC HH HW Hi. replace (N * (C * H * W)) with (N * C * H * W) in Hi by ring. unfold nchw.
  destruct (radix_decode i _ _ HW Hi) as (a & w & Ha & Hw & ->). destruct (radix_decode a _ _ HH Ha) as (a' & h & Ha' & Hh & ->).
  destruct (radix_decode a' _ _ HC Ha') as (n & c & Hn & Hc & ->). by exists n, c, h, w.
Qed.

Ltac mul_pos := repeat apply Z.mul_pos_pos; lia.

(** Enter a loop of [k] rounds. *)
Ltac loop i Hi := apply sets_for; [done..|]; intros i Hi.

Section Spec.
Context (rt : runtime) (Hlaw : forall t s, rt_slots rt t = Some s -> LawfulAlloc t (slot_alloc s)).
Context (F : gset positive).

(** ** NCHW and sequence form *)
Section Transpose.
Context (N C H W : Z) (HN : dim N) (HC : dim C) (HH : dim H) (HW : dim W).
Context (Hhw : dim (H * W)) (Hrows : dim (N * (H * W))) (Hcols : dim (C * (H * W))) (Htot : dim (N * (H * W) * C)).

Lemma nchw_to_sequence_runs w X tX Y tY : call rt F w X tX (N * (H * W) * C) Y tY ->
  let x := words (w_heap w) (t_data tX) in
  outcome rt F w Y tY (N * (H * W)) C FP32
    (fun y => forall n c p, 0 <= n < N -> 0 <= c < C -> 0 <= p < H * W ->
       y ((n * (H * W) + p) * C + c) = x ((n * C + c) * (H * W) + p))
    (nchw_to_sequence rt X N C H W Y w).
Proof.
  intros Hcall x. unfold dim in *. destruct (call_operand _ _ _ _ _ _ _ _ Hcall) as (HtX & Hdt & _).
  unfold nchw_to_sequence.
  rewrite (st_bind_ret _ _ _ tX w) by by apply obj_eq.
  rewrite (st_bind_ret _ _ _ tt w) by (unfold check_fp32_plain; by rewrite Hdt).
  rewrite (st_bind_ret _ _ _ tt w) by (apply st_throw_if_false; lia).
  rewrite (st_bind_ret _ _ _ _ w (int_of_dim (H * W) w Hhw)).
  rewrite (st_bind_ret _ _ _ _ w (int_of_dim (N * (H * W)) w Hrows)).
  eapply outcome_mono.
  - apply (copy1 rt Hlaw F w X tX (N * (H * W) * C) Y tY _ _ _ (fun Xp Yp => for_ N (fun n => for_ C (fun c => for_ (H * W) (fun p => _))))
      _ _ (fun k v => exists n, 0 <= n < N /\ exists c, 0 <= c < C /\ exists p, 0 <= p < H * W /\
             k = (n * (H * W) + p) * C + c /\ v = x ((n * C + c) * (H * W) + p))); try done.
    + destruct (Z.eqb_spec (N * (H * W)) 0) as [E|E]; [|destruct (Z.eqb_spec C 0) as [E'|E']]; cbn [orb]; [nia..|].
      split; [nia|]. intros h o b d L Hd HL Hx.
      apply sets_for; [done..|]. intros n Hn. apply sets_for; [done..|]. intros c Hc. apply sets_for; [done..|]. intros p Hp.
      pose proof (radix_bound (n * (H * W) + p) _ c _ (radix_bound n N p (H * W) Hn Hp) Hc).
      pose proof (radix_bound (n * C + c) _ p _ (radix_bound n N c C Hn Hc) Hp).
      apply sets_int; [apply is_int_pos; lia|]. apply sets_int; [apply is_int_pos; lia|].
      eapply sets_read; [done..|nia|]. apply sets_write; [done..|eapply source_word; [done|nia]].
    + intros k v (n & Hn & c & Hc & p & Hp & -> & ->). apply radix_bound; [by apply radix_bound|done].
    + intros k v v' (n & Hn & c & Hc & p & Hp & -> & ->) (n' & Hn' & c' & Hc' & p' & Hp' & E2 & ->).
      apply radix_inj in E2 as [E2 ->]; [|done..]. by apply radix_inj in E2 as [-> ->].
  - intros y Hy n c p Hn Hc Hp. apply Hy. eauto 10.
Qed.

Lemma sequence_to_nchw_runs w X tX Y tY : call rt F w X tX (N * (H * W) * C) Y tY ->
  let x := words (w_heap w) (t_data tX) in
  outcome rt F w Y tY N (C * (H * W)) FP32
    (fun y => forall n c p, 0 <= n < N -> 0 <= c < C -> 0 <= p < H * W ->
       y ((n * C + c) * (H * W) + p) = x ((n * (H * W) + p) * C + c))
    (sequence_to_nchw rt X N C H W Y w).
Proof.
  intros Hcall x. unfold dim in *. destruct (call_operand _ _ _ _ _ _ _ _ Hcall) as (HtX & Hdt & _).
  unfold sequence_to_nchw.
  rewrite (st_bind_ret _ _ _ tX w) by by apply obj_eq.
  rewrite (st_bind_ret _ _ _ tt w) by (unfold check_fp32_plain; by rewrite Hdt).
  rewrite (st_bind_ret _ _ _ tt w) by (apply st_throw_if_false; lia).
  rewrite (st_bind_ret _ _ _ _ w (int_of_dim (H * W) w Hhw)).
  rewrite (st_bind_ret _ _ _ _ w (int_of_dim (C * (H * W)) w Hcols)).
  eapply outcome_mono.
  - apply (copy1 rt Hlaw F w X tX (N * (H * W) * C) Y tY _ _ _ (fun Xp Yp => for_ N (fun n => for_ C (fun c => for_ (H * W) (fun p => _))))
      _ _ (fun k v => exists n, 0 <= n < N /\ exists c, 0 <= c < C /\ exists p, 0 <= p < H * W /\
             k = (n * C + c) * (H * W) + p /\ v = x ((n * (H * W) + p) * C + c))); try done.
    + destruct (Z.eqb_spec N 0) as [E|E]; [|destruct (Z.eqb_spec (C * (H * W)) 0) as [E'|E']]; cbn [orb]; [nia..|].
      split; [nia|]. intros h o b d L Hd HL Hx.
      loop n Hn. loop c Hc. loop p Hp.
      pose proof (radix_bound (n * (H * W) + p) _ c _ (radix_bound n N p (H * W) Hn Hp) Hc).
      pose proof (radix_bound (n * C + c) _ p _ (radix_bound n N c C Hn Hc) Hp).
      apply sets_int; [apply is_int_pos; lia|]. apply sets_int; [apply is_int_pos; lia|].
      eapply sets_read; [done..|nia|]. apply sets_write; [done..|nia|eapply source_word; [done|nia]].
    + intros k v (n & Hn & c & Hc & p & Hp & -> & ->). replace (N * (C * (H * W))) with (N * C * (H * W)) by ring.
      apply radix_bound; [by apply radix_bound|done].
    + intros k v v' (n & Hn & c & Hc & p & Hp & -> & ->) (n' & Hn' & c' & Hc' & p' & Hp' & E2 & ->).
      apply radix_inj in E2 as [E2 ->]; [|done..]. by apply radix_inj in E2 as [-> ->].
  - intros y Hy n c p Hn Hc Hp. apply Hy. eauto 10.
Qed.

(** The two transposes are inverse: a tensor taken to sequence form in one
    buffer and back to NCHW in another has every element where it was, bit for
    bit. Neither call has undefined behaviour; if one throws, memory ran out. *)
Theorem transpose_round_trip w X tX Y tY Z tZ :
  call rt F w X tX (N * (H * W) * C) Y tY -> Y <> Z -> w_objs w !! Z = Some tZ -> output tZ ->
  let x := words (w_heap w) (t_data tX) in
  safely rt F (_ ← nchw_to_sequence rt X N C H W Y; sequence_to_nchw rt Y N C H W Z) (holds Z (N) (C * (H * W)) x) w.
Proof.
  intros Hcall Hne HZ HoutZ x. pose proof (nchw_to_sequence_runs w X tX Y tY Hcall) as H1.
  apply (outcome_then rt F w Y tY _ _ _ Z tZ _ _ _ H1 Hne HZ HoutZ). intros w1 t1 Hcall1 _ _ Hy.
  apply (outcome_holds rt F w1 Z tZ _ _ _ _ _ _ (sequence_to_nchw_runs w1 Y t1 Z tZ Hcall1)). intros y Hz i Hi.
  assert (Hi' : 0 <= i < N * C * (H * W)) by lia.
  destruct (radix_decode i _ _ (proj1 Hhw) Hi') as (a & p & Ha & Hp & ->). destruct (radix_decode a _ _ (proj1 HC) Ha) as (n & c & Hn & Hc' & ->).
  by rewrite Hz, Hy.
Qed.
End Transpose.
(** ** Slices *)
Section Slice.
Context (N C H W h0 w0 Ho Wo : Z) (HN : dim N) (HC : 1 <= C) (HX3 : dim3 C H W).
Context (Hh : 0 <= h0 /\ 0 <= Ho /\ h0 + Ho <= H) (Hw : 0 <= w0 /\ 0 <= Wo /\ w0 + Wo <= W).

Lemma slice_args_ok op w : slice_check_args op N C H W h0 w0 Ho Wo w = (Ret tt, w).
Proof.
  destruct HX3 as (HC' & HH & HW & _). unfold dim in *. unfold slice_check_args.
  do 3 (rewrite (st_bind_ret _ _ _ tt w) by (apply fail_if_false; lia)).
  rewrite (st_bind_ret _ _ _ _ w (int_of_dim (h0 + Ho) w ltac:(split; lia))).
  rewrite (st_bind_ret _ _ _ tt w) by (apply fail_if_false; lia).
  rewrite (st_bind_ret _ _ _ _ w (int_of_dim (w0 + Wo) w ltac:(split; lia))).
  apply fail_if_false; lia.
Qed.

Lemma slice_out_dim3 : dim3 C Ho Wo.
Proof.
  destruct HX3 as (HC' & HH & HW & H1 & H2). unfold dim3, dim in *.
  assert (0 <= C * Ho <= C * H) by nia. assert (0 <= C * Ho * Wo <= C * H * W) by nia. lia.
Qed.

Lemma slice2d_forward_runs w X tX Y tY : call rt F w X tX (N * (C * H * W)) Y tY ->
  t_rows tX = N -> t_cols tX = C * H * W ->
  let x := words (w_heap w) (t_data tX) in
  outcome rt F w Y tY N (C * Ho * Wo) FP32
    (fun y => forall n c h q, 0 <= n < N -> 0 <= c < C -> 0 <= h < Ho -> 0 <= q < Wo ->
       y (nchw C Ho Wo n c h q) = x (nchw C H W n c (h0 + h) (w0 + q)))
    (slice2d_forward rt X N C H W h0 w0 Ho Wo Y w).
Proof.
  intros Hcall Hrows Hcols x. destruct (call_operand _ _ _ _ _ _ _ _ Hcall) as (HtX & Hdt & _).
  pose proof slice_out_dim3 as HY3. unfold slice2d_forward.
  rewrite (st_bind_ret _ _ _ tX w) by by apply obj_eq.
  rewrite (st_bind_ret _ _ _ tt w) by by apply check_fp32_ok.
  rewrite (st_bind_ret _ _ _ tt w) by apply slice_args_ok.
  rewrite (st_bind_ret _ _ _ tt w) by (eapply check_shape_ok; [by apply imul3_dim|done..]).
  rewrite (st_bind_ret _ _ _ _ w (imul3_dim C Ho Wo w HY3)).
  destruct HY3 as (_ & _ & _ & _ & Hc3). unfold dim in HN, Hc3.
  eapply outcome_mono.
  - apply (copy1 rt Hlaw F w X tX (N * (C * H * W)) Y tY _ _ _ (fun Xp Yp => for_ N (fun n => for_ C (fun c => for_ Ho (fun h => _))))
      _ _ (fun k v => exists n, 0 <= n < N /\ exists c, 0 <= c < C /\ exists h, 0 <= h < Ho /\ exists q, 0 <= q < Wo /\
             k = (n * C + c) * Ho * Wo + h * Wo + q /\ v = x ((n * C + c) * H * W + ((h0 + h) * W + w0) + q))); try done.
    + destruct (Z.eqb_spec N 0) as [E|E]; [|destruct (Z.eqb_spec (C * Ho * Wo) 0) as [E'|E']]; cbn [orb]; [nia..|].
      assert (0 < N /\ 0 < Ho /\ 0 < Wo) as (? & ? & ?) by nia.
      split; [mul_pos|]. intros h o b d L Hd HL Hx.
      loop n Hn. loop c Hc. loop i Hi. rewrite !fptr_fptr.
      pose proof (nchw_bound N C Ho Wo n c i 0). pose proof (nchw_bound N C Ho Wo n c i (Wo - 1)).
      pose proof (nchw_bound N C H W n c (h0 + i) w0). pose proof (nchw_bound N C H W n c (h0 + i) (w0 + Wo - 1)).
      unfold nchw in *. apply (sets_copy _ _ _ _ _ _ Hd HL _ (N * (C * H * W))); [done|lia..].
    + intros k v (n & Hn & c & Hc & h & Hi & q & Hq & -> & _). pose proof (nchw_bound N C Ho Wo n c h q). unfold nchw in *. lia.
    + intros k v v' (n & Hn & c & Hc & h & Hi & q & Hq & -> & ->) (n' & Hn' & c' & Hc' & h' & Hi' & q' & Hq' & E2 & ->).
      destruct (nchw_inj C Ho Wo n c h q n' c' h' q') as (-> & -> & -> & ->); try done. unfold nchw. lia.
  - intros y Hy n c h q Hn Hc Hi Hq. apply Hy. exists n. split; [done|]. exists c. split; [done|]. exists h. split; [done|].
    exists q. split; [done|]. unfold nchw. split; [lia|f_equal; lia].
Qed.

Lemma slice2d_backward_runs w dY tdY dX tdX : call rt F w dY tdY (N * (C * Ho * Wo)) dX tdX ->
  t_rows tdY = N -> t_cols tdY = C * Ho * Wo ->
  let dy := words (w_heap w) (t_data tdY) in
  outcome rt F w dX tdX N (C * H * W) FP32
    (fun dx => forall n c p q, 0 <= n < N -> 0 <= c < C -> 0 <= p < H -> 0 <= q < W ->
       dx (nchw C H W n c p q) =
         if (h0 <=? p) && (p <? h0 + Ho) && ((w0 <=? q) && (q <? w0 + Wo)) then dy (nchw C Ho Wo n c (p - h0) (q - w0)) else 0)
    (slice2d_backward rt dY N C H W h0 w0 Ho Wo dX w).
Proof.
  intros Hcall Hrows Hcols dy. destruct (call_operand _ _ _ _ _ _ _ _ Hcall) as (HtX & Hdt & _).
  pose proof slice_out_dim3 as HY3. unfold slice2d_backward.
  rewrite (st_bind_ret _ _ _ tdY w) by by apply obj_eq.
  rewrite (st_bind_ret _ _ _ tt w) by by apply check_fp32_ok.
  rewrite (st_bind_ret _ _ _ tt w) by apply slice_args_ok.
  rewrite (st_bind_ret _ _ _ tt w) by (eapply check_shape_ok; [by apply imul3_dim|done..]).
  rewrite (st_bind_ret _ _ _ _ w (imul3_dim C H W w HX3)).
  pose proof HX3 as (_ & _ & _ & _ & Hc3). unfold dim in HN, Hc3.
  eapply outcome_mono.
  - apply (over1 rt Hlaw F w dY tdY (N * (C * Ho * Wo)) dX tdX _ _ _
      (fun _ Yp => for_ (N * (C * H * W)) (fun i => write_word (fptr Yp i) 0))
      (fun Xp Yp => if (Ho =? 0) || (Wo =? 0) then mret tt else for_ N (fun n => for_ C (fun c => for_ Ho (fun h => _))))
      _ _ (fun k v => exists i, 0 <= i < N * (C * H * W) /\ k = i /\ v = 0)
      (fun k v => exists n, 0 <= n < N /\ exists c, 0 <= c < C /\ exists h, 0 <= h < Ho /\ exists q, 0 <= q < Wo /\
             k = (n * C + c) * H * W + ((h0 + h) * W + w0) + q /\ v = dy ((n * C + c) * Ho * Wo + h * Wo + q))); try done.
    + destruct (Z.eqb_spec N 0) as [E|E]; [|destruct (Z.eqb_spec (C * H * W) 0) as [E'|E']]; cbn [orb]; [nia..|].
      split; [apply Z.mul_pos_pos; lia|]. intros h o b d L Hd HL Hx. split.
      { loop i Hi. by apply sets_write. }
      destruct (Z.eqb_spec Ho 0) as [Eh|Eh]; [|destruct (Z.eqb_spec Wo 0) as [Ew|Ew]]; cbn [orb].
      1, 2: eapply sets_eq; [apply sets_ret|]; intros k v; split; [done|];
        intros (n & _ & c & _ & i & Hi & q & Hq & _); lia.
      loop n Hn. loop c Hc. loop i Hi. rewrite !fptr_fptr.
      pose proof (nchw_bound N C Ho Wo n c i 0). pose proof (nchw_bound N C Ho Wo n c i (Wo - 1)).
      pose proof (nchw_bound N C H W n c (h0 + i) w0). pose proof (nchw_bound N C H W n c (h0 + i) (w0 + Wo - 1)).
      unfold nchw in *. apply (sets_copy _ _ _ _ _ _ Hd HL _ (N * (C * Ho * Wo))); [done|lia..].
    + intros k v [(i & Hi & -> & _)|(n & Hn & c & Hc & h & Hi & q & Hq & -> & _)]; [done|].
      pose proof (nchw_bound N C H W n c (h0 + h) (w0 + q)). unfold nchw in *. lia.
    + by intros k v v' (i & Hi & -> & ->) (i' & Hi' & -> & ->).
    + intros k v v' (n & Hn & c & Hc & h & Hi & q & Hq & -> & ->) (n' & Hn' & c' & Hc' & h' & Hi' & q' & Hq' & E2 & ->).
      destruct (nchw_inj C H W n c (h0 + h) (w0 + q) n' c' (h0 + h') (w0 + q')) as (-> & -> & Eh & Ew); try lia; [unfold nchw; lia|].
      by replace h' with h by lia; replace q' with q by lia.
  - intros dx [Hin Hout] n c p q Hn Hc Hp Hq.
    destruct ((h0 <=? p) && (p <? h0 + Ho) && ((w0 <=? q) && (q <? w0 + Wo))) eqn:E.
    + bool_facts. apply Hin. exists n. split; [done|]. exists c. split; [done|]. exists (p - h0). split; [lia|].
      exists (q - w0). split; [lia|]. unfold nchw. split; [lia|f_equal; lia].
    + apply Hout; [exists (nchw C H W n c p q); split; [by apply nchw_bound|done]|].
      intros v' (n' & Hn' & c' & Hc' & h & Hi & q' & Hq' & E2 & _).
      destruct (nchw_inj C H W n c p q n' c' (h0 + h) (w0 + q')) as (_ & _ & -> & ->); try lia.
      unfold nchw in *. lia.
Qed.
End Slice.
(** ** Windows *)
Section Window.
Context (N C nh nw win : Z) (HN : dim N) (HC : 1 <= C) (Hnh : 1 <= nh) (Hnw : 1 <= nw) (Hwin : 1 <= win).
Let H := nh * win.
Let W := nw * win.
Context (HX3 : dim3 C H W) (HB3 : dim3 N nh nw).

Lemma window_quot : Z.quot H win = nh /\ Z.quot W win = nw.
Proof. unfold H, W. rewrite !Z.quot_mul by lia. done. Qed.

Lemma window_args_ok op w : window_check_args op N C H W win w = (Ret tt, w).
Proof.
  unfold window_check_args, dim in *. assert (1 <= H) by (unfold H; nia). assert (1 <= W) by (unfold W; nia).
  do 2 (rewrite (st_bind_ret _ _ _ tt w) by (apply fail_if_false; lia)).
  apply fail_if_false. unfold H, W. by rewrite !Z.rem_mul by lia.
Qed.

Lemma window_cols : dim3 C win win.
Proof.
  destruct HX3 as (HC' & HH & HW & H1 & H2). assert (win <= H) by (unfold H; nia). assert (win <= W) by (unfold W; nia).
  clearbody H W. unfold dim3, dim in *.
  assert (0 <= C * win <= C * H) by nia. assert (0 <= C * win * win <= C * H * W) by nia. lia.
Qed.

(** The place of an element in windowed layout. *)
Definition widx (n i j c p q : Z) : Z := ((n * nh + i) * nw + j) * (C * win * win) + ((c * win + p) * win + q).

Lemma win_bound c p q : 0 <= c < C -> 0 <= p < win -> 0 <= q < win -> 0 <= (c * win + p) * win + q < C * win * win.
Proof. intros. apply radix_bound; [|done]. by apply radix_bound. Qed.

Lemma row_bound n i j : 0 <= n < N -> 0 <= i < nh -> 0 <= j < nw -> 0 <= (n * nh + i) * nw + j < N * nh * nw.
Proof. intros. apply radix_bound; [|done]. by apply radix_bound. Qed.

Lemma widx_bound n i j c p q : 0 <= n < N -> 0 <= i < nh -> 0 <= j < nw -> 0 <= c < C -> 0 <= p < win -> 0 <= q < win ->
  0 <= widx n i j c p q < N * nh * nw * (C * win * win).
Proof. intros. unfold widx. apply radix_bound; [by apply row_bound|by apply win_bound]. Qed.

Lemma widx_inj n i j c p q n' i' j' c' p' q' : 0 <= i < nh -> 0 <= j < nw -> 0 <= c < C -> 0 <= p < win -> 0 <= q < win ->
  0 <= i' < nh -> 0 <= j' < nw -> 0 <= c' < C -> 0 <= p' < win -> 0 <= q' < win ->
  widx n i j c p q = widx n' i' j' c' p' q' -> n = n' /\ i = i' /\ j = j' /\ c = c' /\ p = p' /\ q = q'.
Proof.
  intros. unfold widx in *.
  match goal with E : _ * (C * win * win) + _ = _ |- _ => apply radix_inj in E as [E1 E2]; [|by apply win_bound..] end.
  apply radix_inj in E1 as [E1 ->]; [|done..]. apply radix_inj in E1 as [-> ->]; [|done..].
  apply radix_inj in E2 as [E2 ->]; [|done..]. by apply radix_inj in E2 as [-> ->].
Qed.

Lemma window_bound i p : 0 <= i < nh -> 0 <= p < win -> 0 <= i * win + p < H.
Proof. apply radix_bound. Qed.
Lemma window_bound' j q : 0 <= j < nw -> 0 <= q < win -> 0 <= j * win + q < W.
Proof. apply radix_bound. Qed.

Lemma window_total : N * nh * nw * (C * win * win) = N * (C * H * W).
Proof. unfold H, W. ring. Qed.

Lemma window_partition_runs w X tX Y tY : call rt F w X tX (N * (C * H * W)) Y tY ->
  t_rows tX = N -> t_cols tX = C * H * W ->
  let x := words (w_heap w) (t_data tX) in
  outcome rt F w Y tY (N * nh * nw) (C * win * win) FP32
    (fun y => forall n i j c p q, 0 <= n < N -> 0 <= i < nh -> 0 <= j < nw -> 0 <= c < C -> 0 <= p < win -> 0 <= q < win ->
       y (widx n i j c p q) = x (nchw C H W n c (i * win + p) (j * win + q)))
    (window_partition_forward rt X N C H W win Y w).
Proof.
  intros Hcall Hrows Hcols x. destruct (call_operand _ _ _ _ _ _ _ _ Hcall) as (HtX & Hdt & _).
  pose proof window_cols as HY3. unfold window_partition_forward.
  rewrite (st_bind_ret _ _ _ tX w) by by apply obj_eq.
  rewrite (st_bind_ret _ _ _ tt w) by by apply check_fp32_ok.
  rewrite (st_bind_ret _ _ _ tt w) by apply window_args_ok.
  rewrite (st_bind_ret _ _ _ tt w) by (eapply check_shape_ok; [by apply imul3_dim|done..]).
  destruct window_quot as [-> ->].
  rewrite (st_bind_ret _ _ _ _ w (imul3_dim N nh nw w HB3)).
  rewrite (st_bind_ret _ _ _ _ w (imul3_dim C win win w HY3)).
  destruct HY3 as (_ & _ & _ & _ & Hc3). pose proof HB3 as (_ & _ & _ & _ & Hb3). pose proof HX3 as (_ & HdH & _).
  unfold dim in HN, Hc3, Hb3, HdH.
  eapply outcome_mono.
  - apply (copy1 rt Hlaw F w X tX (N * (C * H * W)) Y tY _ _ _ (fun Xp Yp => for_ N (fun n => for_ nh (fun i => for_ nw (fun j => _))))
      _ _ (fun k v => exists n, 0 <= n < N /\ exists i, 0 <= i < nh /\ exists j, 0 <= j < nw /\ exists c, 0 <= c < C /\
             exists p, 0 <= p < win /\ exists q, 0 <= q < win /\
             k = ((n * nh + i) * nw + j) * (C * win * win) + ((c * win + p) * win + q) /\
             v = x ((n * C + c) * H * W + ((i * win + p) * W + j * win + q)))); try done.
    + destruct (Z.eqb_spec N 0) as [E|E]; [|destruct (Z.eqb_spec (C * win * win) 0) as [E'|E']]; cbn [orb]; [nia..|].
      split; [mul_pos|]. intros h o b d L Hd HL Hx.
      loop n Hn. loop i Hi. loop j Hj. pose proof (row_bound n i j Hn Hi Hj).
      apply sets_int; [apply is_int_pos; lia|]. loop c Hc. loop p Hp.
      pose proof (window_bound i p Hi Hp). apply sets_int; [apply is_int_pos; lia|].
      loop q Hq. rewrite !fptr_fptr. pose proof (window_bound' j q Hj Hq).
      pose proof (nchw_bound N C H W n c (i * win + p) (j * win + q)). unfold nchw in *.
      eapply sets_read; [done|lia|]. apply sets_write; [done..| |eapply source_word; [done|lia]].
      pose proof (widx_bound n i j c p q). unfold widx in *. lia.
    + intros k v (n & Hn & i & Hi & j & Hj & c & Hc & p & Hp & q & Hq & -> & _).
      pose proof (widx_bound n i j c p q). unfold widx in *. lia.
    + intros k v v' (n & Hn & i & Hi & j & Hj & c & Hc & p & Hp & q & Hq & -> & ->)
        (n' & Hn' & i' & Hi' & j' & Hj' & c' & Hc' & p' & Hp' & q' & Hq' & E2 & ->).
      destruct (widx_inj n i j c p q n' i' j' c' p' q') as (-> & -> & -> & -> & -> & ->); first [done | unfold widx; lia].
  - intros y Hy n i j c p q Hn Hi Hj Hc Hp Hq. apply Hy. exists n. split; [done|]. exists i. split; [done|]. exists j. split; [done|].
    exists c. split; [done|]. exists p. split; [done|]. exists q. split; [done|]. unfold widx, nchw. split; [lia|f_equal; lia].
Qed.

Lemma window_reverse_runs w X tX Y tY : call rt F w X tX (N * nh * nw * (C * win * win)) Y tY ->
  t_rows tX = N * nh * nw -> t_cols tX = C * win * win ->
  let x := words (w_heap w) (t_data tX) in
  outcome rt F w Y tY N (C * H * W) FP32
    (fun y => forall n i j c p q, 0 <= n < N -> 0 <= i < nh -> 0 <= j < nw -> 0 <= c < C -> 0 <= p < win -> 0 <= q < win ->
       y (nchw C H W n c (i * win + p) (j * win + q)) = x (widx n i j c p q))
    (window_reverse_forward rt X N C H W win Y w).
Proof.
  intros Hcall Hrows Hcols x. destruct (call_operand _ _ _ _ _ _ _ _ Hcall) as (HtX & Hdt & _).
  pose proof window_cols as HY3. unfold window_reverse_forward.
  rewrite (st_bind_ret _ _ _ tX w) by by apply obj_eq.
  rewrite (st_bind_ret _ _ _ tt w) by by apply check_fp32_ok.
  rewrite (st_bind_ret _ _ _ tt w) by apply window_args_ok.
  destruct window_quot as [-> ->].
  rewrite (st_bind_ret _ _ _ _ w (imul3_dim N nh nw w HB3)).
  rewrite (st_bind_ret _ _ _ _ w (imul3_dim C win win w HY3)).
  rewrite (st_bind_ret _ _ _ tt w) by (apply fail_if_false; by rewrite Hrows, Hcols, !Z.eqb_refl).
  rewrite (st_bind_ret _ _ _ _ w (imul3_dim C H W w HX3)).
  pose proof HB3 as (_ & _ & _ & _ & Hb3). pose proof HX3 as (_ & HdH & _ & _ & Hc3).
  unfold dim in HN, Hc3, Hb3, HdH.
  eapply outcome_mono.
  - apply (copy1 rt Hlaw F w X tX (N * nh * nw * (C * win * win)) Y tY _ _ _
      (fun Xp Yp => for_ N (fun n => for_ nh (fun i => for_ nw (fun j => _))))
      _ _ (fun k v => exists n, 0 <= n < N /\ exists i, 0 <= i < nh /\ exists j, 0 <= j < nw /\ exists c, 0 <= c < C /\
             exists p, 0 <= p < win /\ exists q, 0 <= q < win /\
             k = (n * C + c) * H * W + ((i * win + p) * W + j * win + q) /\
             v = x (((n * nh + i) * nw + j) * (C * win * win) + ((c * win + p) * win + q)))); try done.
    + destruct (Z.eqb_spec N 0) as [E|E]; [|destruct (Z.eqb_spec (C * H * W) 0) as [E'|E']]; cbn [orb]; [nia..|].
      split; [apply Z.mul_pos_pos; lia|]. intros h o b d L Hd HL Hx.
      loop n Hn. loop i Hi. loop j Hj. pose proof (row_bound n i j Hn Hi Hj).
      apply sets_int; [apply is_int_pos; lia|]. loop c Hc. loop p Hp.
      pose proof (window_bound i p Hi Hp). apply sets_int; [apply is_int_pos; lia|].
      loop q Hq. rewrite !fptr_fptr. pose proof (window_bound' j q Hj Hq).
      pose proof (widx_bound n i j c p q). unfold widx in *.
      eapply sets_read; [done|lia|]. apply sets_write; [done..| |eapply source_word; [done|lia]].
      pose proof (nchw_bound N C H W n c (i * win + p) (j * win + q)). unfold nchw in *. lia.
    + intros k v (n & Hn & i & Hi & j & Hj & c & Hc & p & Hp & q & Hq & -> & _).
      pose proof (window_bound i p Hi Hp). pose proof (window_bound' j q Hj Hq).
      pose proof (nchw_bound N C H W n c (i * win + p) (j * win + q)). unfold nchw in *. lia.
    + intros k v v' (n & Hn & i & Hi & j & Hj & c & Hc & p & Hp & q & Hq & -> & ->)
        (n' & Hn' & i' & Hi' & j' & Hj' & c' & Hc' & p' & Hp' & q' & Hq' & E2 & ->).
      destruct (nchw_inj C H W n c (i * win + p) (j * win + q) n' c' (i' * win + p') (j' * win + q')) as (-> & -> & Eh & Ew);
        try done; try (by apply window_bound); try (by apply window_bound'); [unfold nchw; lia|].
      apply radix_inj in Eh as [-> ->]; [|done..]. by apply radix_inj in Ew as [-> ->].
  - intros y Hy n i j c p q Hn Hi Hj Hc Hp Hq. apply Hy. exists n. split; [done|]. exists i. split; [done|]. exists j. split; [done|].
    exists c. split; [done|]. exists p. split; [done|]. exists q. split; [done|]. unfold widx, nchw. split; [lia|f_equal; lia].
Qed.

(** Window partition and window reverse are inverse: an image cut into
    windows and put together again is the image, bit for bit, for every size
    the window divides. *)
Theorem window_round_trip w X tX Y tY Z tZ :
  call rt F w X tX (N * (C * H * W)) Y tY -> t_rows tX = N -> t_cols tX = C * H * W ->
  Y <> Z -> w_objs w !! Z = Some tZ -> output tZ ->
  let x := words (w_heap w) (t_data tX) in
  safely rt F (_ ← window_partition_forward rt X N C H W win Y; window_reverse_forward rt Y N C H W win Z) (holds Z (N) (C * H * W) x) w.
Proof.
  intros Hcall Hr1 Hc1 Hne HZ HoutZ x. pose proof (window_partition_runs w X tX Y tY Hcall Hr1 Hc1) as H1.
  apply (outcome_then rt F w Y tY _ _ _ Z tZ _ _ _ H1 Hne HZ HoutZ). intros w1 t1 Hcall1 Hr2 Hc2 Hy.
  apply (outcome_holds rt F w1 Z tZ _ _ _ _ _ _ (window_reverse_runs w1 Y t1 Z tZ Hcall1 Hr2 Hc2)). intros y Hz k Hk.
  destruct (nchw_decode N C H W k) as (n & c & a & b & Hn & Hc' & Ha & Hb & ->); [lia|unfold H, W; nia..|done|].
  destruct (radix_decode a nh win) as (i & p & Hi & Hp & ->); [lia|done|].
  destruct (radix_decode b nw win) as (j & q & Hj & Hq & ->); [lia|done|].
  by rewrite Hz, Hy.
Qed.
End Window.
(** ** 2x2 merge and pixel shuffle *)
Section Merge.
Context (N C H W : Z) (HN : dim N) (HC : 1 <= C) (HX3 : dim3 (4 * C) H W) (Hin : dim (2 * H) /\ dim (2 * W)).
Context (Harea : dim (2 * H * (2 * W))) (Htot : dim (N * (C * (2 * H) * (2 * W)))).

Definition merge_channel (channel_major : bool) (c dh dw : Z) : Z :=
  if channel_major then c * 4 + (dh * 2 + dw) else (dh * 2 + dw) * C + c.

Lemma merge_channel_bound cm c dh dw : 0 <= c < C -> 0 <= dh < 2 -> 0 <= dw < 2 -> 0 <= merge_channel cm c dh dw < 4 * C.
Proof. unfold merge_channel. destruct cm; nia. Qed.

Lemma merge_channel_inj cm c dh dw c' dh' dw' : 0 <= c < C -> 0 <= dh < 2 -> 0 <= dw < 2 -> 0 <= c' < C -> 0 <= dh' < 2 -> 0 <= dw' < 2 ->
  merge_channel cm c dh dw = merge_channel cm c' dh' dw' -> c = c' /\ dh = dh' /\ dw = dw'.
Proof.
  intros. unfold merge_channel in *. destruct cm.
  - assert (c = c' /\ dh * 2 + dw = dh' * 2 + dw') as [-> E] by (apply (radix_inj _ _ _ _ 4); lia).
    split; [done|]. apply (radix_inj _ _ _ _ 2); lia.
  - assert (dh * 2 + dw = dh' * 2 + dw' /\ c = c') as [E ->] by (apply (radix_inj _ _ _ _ C); lia).
    split; [done|]. apply (radix_inj _ _ _ _ 2); lia.
Qed.

Lemma merge_words : N * (4 * C * H * W) = N * (C * (2 * H) * (2 * W)).
Proof. ring. Qed.

Lemma land_even z : Z.land (2 * z) 1 = 0.
Proof. change 1 with (2 ^ 1 - 1) at 1. rewrite land_mask by lia. rewrite Z.mul_comm. apply Z.mod_mul. lia. Qed.

Lemma spatial_merge_runs cm w X tX Y tY : call rt F w X tX (N * (C * (2 * H) * (2 * W))) Y tY ->
  let x := words (w_heap w) (t_data tX) in
  outcome rt F w Y tY N (4 * C * H * W) FP32
    (fun y => forall n c dh dw h q, 0 <= n < N -> 0 <= c < C -> 0 <= dh < 2 -> 0 <= dw < 2 -> 0 <= h < H -> 0 <= q < W ->
       y (nchw (4 * C) H W n (merge_channel cm c dh dw) h q) = x (nchw C (2 * H) (2 * W) n c (2 * h + dh) (2 * q + dw)))
    (spatial_merge_2x2_forward rt X N C (2 * H) (2 * W) cm Y w).
Proof.
  intros Hcall x. destruct (call_operand _ _ _ _ _ _ _ _ Hcall) as (HtX & Hdt & _).
  pose proof HX3 as (HC4 & HdH & HdW & HdCH & Hc3). unfold spatial_merge_2x2_forward.
  rewrite (st_bind_ret _ _ _ tX w) by by apply obj_eq.
  rewrite (st_bind_ret _ _ _ tt w) by (apply st_throw_if_false; by rewrite Hdt).
  rewrite (st_bind_ret _ _ _ tt w) by (apply st_throw_if_false; unfold dim in *; lia).
  rewrite (st_bind_ret _ _ _ tt w) by (apply st_throw_if_false; by rewrite !land_even).
  rewrite !(Z.mul_comm 2 H), !(Z.mul_comm 2 W), !Z.quot_mul by lia. rewrite !(Z.mul_comm H 2), !(Z.mul_comm W 2).
  rewrite (st_bind_ret _ _ _ _ w (int_of_dim (4 * C) w HC4)).
  rewrite (st_bind_ret _ _ _ _ w (imul3_dim (4 * C) H W w HX3)).
  unfold dim in *. eapply outcome_mono.
  - apply (copy1 rt Hlaw F w X tX (N * (C * (2 * H) * (2 * W))) Y tY _ _ _
      (fun Xp Yp => HW ← int_of (2 * H * (2 * W)); HW_out ← int_of (H * W); for_ N (fun n => for_ 2 (fun dh => for_ 2 (fun dw => _))))
      _ _ (fun k v => exists n, 0 <= n < N /\ exists dh, 0 <= dh < 2 /\ exists dw, 0 <= dw < 2 /\ exists c, 0 <= c < C /\
             exists h, 0 <= h < H /\ exists q, 0 <= q < W /\
             k = (n * (4 * C) + merge_channel cm c dh dw) * (H * W) + (h * W + q) /\
             v = x ((n * C + c) * (2 * H * (2 * W)) + ((2 * h + dh) * (2 * W) + (2 * q + dw))))); try done.
    + destruct (Z.eqb_spec N 0) as [E|E]; [|destruct (Z.eqb_spec C 0) as [E'|E'];
        [|destruct (Z.eqb_spec H 0) as [E2|E2]; [|destruct (Z.eqb_spec W 0) as [E3|E3]]]]; cbn [orb]; [subst; lia || ring..|].
      split; [mul_pos|]. intros h o b d L Hd HL Hx.
      apply sets_int; [apply is_int_pos; nia|]. apply sets_int; [apply is_int_pos; nia|].
      loop n Hn. loop dh Hdh. loop dw Hdw. loop c Hc. change (if cm then _ else _) with (merge_channel cm c dh dw).
      pose proof (merge_channel_bound cm c dh dw Hc Hdh Hdw) as Hmc. set (mc := merge_channel cm c dh dw) in *.
      assert (Hb1 : forall i j, 0 <= i < H -> 0 <= j < W -> 0 <= (n * (4 * C) + mc) * (H * W) + (i * W + j) < N * (4 * C * H * W)).
      { intros i j Hi Hj. pose proof (nchw_bound N (4 * C) H W n mc i j). unfold nchw in *. lia. }
      assert (Hb2 : forall i j, 0 <= i < 2 * H -> 0 <= j < 2 * W ->
        0 <= (n * C + c) * (2 * H * (2 * W)) + (i * (2 * W) + j) < N * (C * (2 * H) * (2 * W))).
      { intros i j Hi Hj. pose proof (nchw_bound N C (2 * H) (2 * W) n c i j). unfold nchw in *. lia. }
      pose proof (Hb1 0 0). pose proof (Hb2 0 0). pose proof merge_words.
      apply sets_int; [apply is_int_pos; lia|]. apply sets_int; [apply is_int_pos; lia|].
      loop i Hi. loop q Hq. rewrite !fptr_fptr. pose proof (Hb1 i q Hi Hq).
      pose proof (Hb2 (2 * i + dh) (2 * q + dw) ltac:(lia) ltac:(lia)).
      eapply sets_read; [done|lia|]. apply sets_write; [done..|eapply source_word; [done|lia]].
    + intros k v (n & Hn & dh & Hdh & dw & Hdw & c & Hc & h & Hh & q & Hq & -> & _).
      pose proof (merge_channel_bound cm c dh dw Hc Hdh Hdw).
      pose proof (nchw_bound N (4 * C) H W n (merge_channel cm c dh dw) h q). unfold nchw in *. lia.
    + intros k v v' (n & Hn & dh & Hdh & dw & Hdw & c & Hc & h & Hh & q & Hq & -> & ->)
        (n' & Hn' & dh' & Hdh' & dw' & Hdw' & c' & Hc' & h' & Hh' & q' & Hq' & E2 & ->).
      destruct (nchw_inj (4 * C) H W n (merge_channel cm c dh dw) h q n' (merge_channel cm c' dh' dw') h' q') as (-> & Ec & -> & ->);
        try done; try (by apply merge_channel_bound); try (unfold nchw; lia).
      by apply merge_channel_inj in Ec as (-> & -> & ->).
  - intros y Hy n c dh dw h q Hn Hc Hdh Hdw Hh Hq. apply Hy. exists n. split; [done|]. exists dh. split; [done|]. exists dw. split; [done|].
    exists c. split; [done|]. exists h. split; [done|]. exists q. split; [done|]. unfold nchw. split; [lia|f_equal; lia].
Qed.
End Merge.
Section Shuffle.
Context (N Ci H W Co rep : Z) (HN : dim N) (HCi : 1 <= Ci) (HH : dim H) (HW : dim W) (HCo : 1 <= Co) (HC4 : dim (4 * Co)).
Context (Hrep : 4 * Co = rep * Ci) (HX3 : dim3 Co (2 * H) (2 * W)).

Lemma rep_pos : 1 <= rep.
Proof. nia. Qed.

Lemma src_channel_bound c i j : 0 <= c < Co -> 0 <= i < 2 -> 0 <= j < 2 -> 0 <= (4 * c + 2 * i + j) / rep < Ci.
Proof.
  intros Hc Hi Hj. pose proof rep_pos. split; [apply Z.div_pos; lia|]. apply Z.div_lt_upper_bound; lia.
Qed.

Lemma shuffle_area : dim (2 * H * (2 * W)) /\ dim (H * W).
Proof.
  destruct HX3 as (_ & H1 & H2 & _ & H3). unfold dim in *.
  assert (0 <= 2 * H * (2 * W) <= Co * (2 * H) * (2 * W)) by nia. split; [lia|]. nia.
Qed.

Lemma half_bits z : Z.land z 1 = z mod 2 /\ Z.shiftr z 1 = z / 2.
Proof. split; [change 1 with (2 ^ 1 - 1); by rewrite land_mask by lia|by rewrite Z.shiftr_div_pow2 by lia]. Qed.

Lemma pixel_shuffle_runs w X tX Y tY : call rt F w X tX (N * (Ci * H * W)) Y tY ->
  let x := words (w_heap w) (t_data tX) in
  outcome rt F w Y tY N (Co * (2 * H) * (2 * W)) FP32
    (fun y => forall n c p q, 0 <= n < N -> 0 <= c < Co -> 0 <= p < 2 * H -> 0 <= q < 2 * W ->
       y (nchw Co (2 * H) (2 * W) n c p q) =
         x (nchw Ci H W n ((4 * c + 2 * (p mod 2) + q mod 2) / rep) (p / 2) (q / 2)))
    (pixel_shuffle_upsample_2x_forward rt X N Ci H W Co Y w).
Proof.
  intros Hcall x. destruct (call_operand _ _ _ _ _ _ _ _ Hcall) as (HtX & Hdt & _). pose proof rep_pos as Hr1.
  pose proof HX3 as (_ & HdH & HdW & _ & Hc3). pose proof shuffle_area as [Ha1 Ha2]. unfold pixel_shuffle_upsample_2x_forward.
  rewrite (st_bind_ret _ _ _ tX w) by by apply obj_eq.
  rewrite (st_bind_ret _ _ _ tt w) by (apply st_throw_if_false; by rewrite Hdt).
  rewrite (st_bind_ret _ _ _ tt w) by (apply st_throw_if_false; unfold dim in *; lia).
  rewrite (st_bind_ret _ _ _ _ w (int_of_dim (4 * Co) w HC4)).
  rewrite (st_bind_ret _ _ _ tt w) by (apply st_throw_if_false; rewrite Hrep, Z.rem_mul by lia; done).
  rewrite Hrep, Z.quot_mul by lia.
  rewrite (st_bind_ret _ _ _ _ w (int_of_dim (2 * H) w HdH)).
  rewrite (st_bind_ret _ _ _ _ w (int_of_dim (2 * W) w HdW)).
  rewrite (st_bind_ret _ _ _ _ w (imul3_dim Co (2 * H) (2 * W) w HX3)).
  unfold dim in *. eapply outcome_mono.
  - apply (copy1 rt Hlaw F w X tX (N * (Ci * H * W)) Y tY _ _ _
      (fun Xp Yp => HW ← int_of (H * W); HW_out ← int_of (2 * H * (2 * W)); for_ N (fun n => for_ Co (fun c => _)))
      _ _ (fun k v => exists n, 0 <= n < N /\ exists c, 0 <= c < Co /\ exists p, 0 <= p < 2 * H /\ exists q, 0 <= q < 2 * W /\
             k = (n * Co + c) * (2 * H * (2 * W)) + (p * (2 * W) + q) /\
             v = x ((n * Ci + (4 * c + 2 * (p mod 2) + q mod 2) / rep) * (H * W) + (p / 2 * W + q / 2)))); try done.
    + destruct (Z.eqb_spec N 0) as [E|E]; [|destruct (Z.eqb_spec H 0) as [E2|E2]; [|destruct (Z.eqb_spec W 0) as [E3|E3]]];
        cbn [orb]; [subst; ring..|].
      split; [mul_pos|]. intros h o b d L Hd HL Hx.
      apply sets_int; [apply is_int_pos; lia|]. apply sets_int; [apply is_int_pos; lia|].
      loop n Hn. loop c Hc. loop p Hp. loop q Hq. rewrite !fptr_fptr.
      destruct (half_bits p) as [-> ->], (half_bits q) as [-> ->].
      pose proof (Z.mod_pos_bound p 2 ltac:(lia)). pose proof (Z.mod_pos_bound q 2 ltac:(lia)).
      rewrite Z.quot_div_nonneg by lia. pose proof (src_channel_bound c (p mod 2) (q mod 2) Hc ltac:(lia) ltac:(lia)).
      assert (0 <= p / 2 < H) by (split; [apply Z.div_pos; lia|apply Z.div_lt_upper_bound; lia]).
      assert (0 <= q / 2 < W) by (split; [apply Z.div_pos; lia|apply Z.div_lt_upper_bound; lia]).
      pose proof (nchw_bound N Ci H W n ((4 * c + 2 * (p mod 2) + q mod 2) / rep) (p / 2) (q / 2)).
      pose proof (nchw_bound N Co (2 * H) (2 * W) n c p q). unfold nchw in *.
      eapply sets_read; [done|lia|]. apply sets_write; [done..|lia|eapply source_word; [done|lia]].
    + intros k v (n & Hn & c & Hc & p & Hp & q & Hq & -> & _).
      pose proof (nchw_bound N Co (2 * H) (2 * W) n c p q). unfold nchw in *. lia.
    + intros k v v' (n & Hn & c & Hc & p & Hp & q & Hq & -> & ->) (n' & Hn' & c' & Hc' & p' & Hp' & q' & Hq' & E2 & ->).
      destruct (nchw_inj Co (2 * H) (2 * W) n c p q n' c' p' q') as (-> & -> & -> & ->); try done. unfold nchw. lia.
  - intros y Hy n c p q Hn Hc Hp Hq. apply Hy. exists n. split; [done|]. exists c. split; [done|]. exists p. split; [done|].
    exists q. split; [done|]. unfold nchw. split; [lia|f_equal; lia].
Qed.
End Shuffle.

(** A channel-major 2x2 merge and the pixel shuffle with one repeat undo
    each other: the merged tensor, shuffled up again, is the image it was made
    from, bit for bit. *)
Theorem merge_shuffle_round_trip N C H W w X tX Y tY Z tZ :
  dim N -> 1 <= C -> dim3 (4 * C) H W -> dim3 C (2 * H) (2 * W) -> dim (N * (C * (2 * H) * (2 * W))) ->
  call rt F w X tX (N * (C * (2 * H) * (2 * W))) Y tY -> Y <> Z -> w_objs w !! Z = Some tZ -> output tZ ->
  let x := words (w_heap w) (t_data tX) in
  safely rt F (_ ← spatial_merge_2x2_forward rt X N C (2 * H) (2 * W) true Y; pixel_shuffle_upsample_2x_forward rt Y N (4 * C) H W C Z) (holds Z (N) (C * (2 * H) * (2 * W)) x) w.
Proof.
  intros HN HC H4 H2 Htot Hcall Hne HZ HoutZ x.
  pose proof H4 as (HC4 & HdH & HdW & _). pose proof H2 as (_ & Hd2H & Hd2W & _).
  destruct (shuffle_area (4 * C) H W C 1) as [Ha _]; try (unfold dim in *; lia); [done|].
  pose proof (spatial_merge_runs N C H W HN HC H4 (conj Hd2H Hd2W) Ha Htot true w X tX Y tY Hcall) as H1.
  apply (outcome_then rt F w Y tY _ _ _ Z tZ _ _ _ H1 Hne HZ HoutZ). intros w1 t1 Hcall1 _ _ Hy.
  assert (H3 := pixel_shuffle_runs N (4 * C) H W C 1 HN ltac:(lia) HdH HdW HC HC4 ltac:(lia) H2 w1 Y t1 Z tZ Hcall1).
  apply (outcome_holds rt F w1 Z tZ _ _ _ _ _ _ H3). intros y Hz k Hk. unfold dim in *.
  destruct (nchw_decode N C (2 * H) (2 * W) k) as (n & c & p & q & Hn & Hc' & Hp & Hq & ->); [lia..|done|].
  pose proof (Z.mod_pos_bound p 2 ltac:(lia)). pose proof (Z.mod_pos_bound q 2 ltac:(lia)).
  pose proof (Z.div_mod p 2 ltac:(lia)). pose proof (Z.div_mod q 2 ltac:(lia)).
  rewrite Hz by done. rewrite Z.div_1_r.
  pose proof (Hy n c (p mod 2) (q mod 2) (p / 2) (q / 2)) as E. unfold merge_channel in E.
  replace (4 * c + 2 * (p mod 2) + q mod 2) with (c * 4 + (p mod 2 * 2 + q mod 2)) by lia. rewrite E by lia.
  f_equal. f_equal; lia.
Qed.
(** ** Patches *)
Section Patch.
Context (hp wp P Ct Ck : Z) (Hhp : dim hp) (Hwp : dim wp) (HP : 1 <= P) (HCk : 1 <= Ck <= Ct).
Context (HPP : dim (P * P)) (HNt : dim (hp * wp)) (Hcols : dim (P * P * Ct)).
Let H := hp * P.
Let W := wp * P.
Context (HX3 : dim3 Ck H W).

(** The column of a token that holds pixel [(py, px)] of channel [c]. *)
Definition patch_col (channel_major : bool) (c py px : Z) : Z :=
  if channel_major then c * (P * P) + (py * P + px) else (py * P + px) * Ct + c.

Lemma patch_col_bound cm c py px : 0 <= c < Ck -> 0 <= py < P -> 0 <= px < P -> 0 <= patch_col cm c py px < P * P * Ct.
Proof.
  intros. unfold patch_col. pose proof (radix_bound py P px P). destruct cm.
  - rewrite (Z.mul_comm (P * P) Ct). apply radix_bound; lia.
  - apply radix_bound; lia.
Qed.

Lemma patch_unpack_runs cm w X tX Y tY : call rt F w X tX (hp * wp * (P * P * Ct)) Y tY ->
  t_rows tX = hp * wp -> t_cols tX = P * P * Ct ->
  let x := words (w_heap w) (t_data tX) in
  outcome rt F w Y tY 1 (Ck * H * W) FP32
    (fun y => forall c i py j px, 0 <= c < Ck -> 0 <= i < hp -> 0 <= py < P -> 0 <= j < wp -> 0 <= px < P ->
       y (nchw Ck H W 0 c (i * P + py) (j * P + px)) = x ((i * wp + j) * (P * P * Ct) + patch_col cm c py px))
    (patch_unpack_forward rt X hp wp P Ct Ck cm Y w).
Proof.
  intros Hcall Hr Hc x. destruct (call_operand _ _ _ _ _ _ _ _ Hcall) as (HtX & Hdt & _).
  pose proof HX3 as (_ & HdH & HdW & _ & Hc3). unfold patch_unpack_forward.
  rewrite (st_bind_ret _ _ _ tX w) by by apply obj_eq.
  rewrite (st_bind_ret _ _ _ tt w) by (apply st_throw_if_false; by rewrite Hdt).
  rewrite (st_bind_ret _ _ _ tt w) by (apply st_throw_if_false; unfold dim in *; lia).
  rewrite (st_bind_ret _ _ _ _ w (int_of_dim (P * P) w HPP)).
  rewrite (st_bind_ret _ _ _ _ w (int_of_dim (hp * wp) w HNt)).
  rewrite (st_bind_ret _ _ _ tt w).
  2:{ rewrite Hr, Z.eqb_refl. cbn [negb]. rewrite (st_bind_ret _ _ _ _ w (int_of_dim (P * P * Ct) w Hcols)).
      apply st_throw_if_false. by rewrite Hc, Z.eqb_refl. }
  rewrite (st_bind_ret _ _ _ _ w (int_of_dim H w HdH)).
  rewrite (st_bind_ret _ _ _ _ w (int_of_dim W w HdW)).
  rewrite (st_bind_ret _ _ _ _ w (imul3_dim Ck H W w HX3)).
  unfold dim in *. eapply outcome_mono.
  - apply (copy1 rt Hlaw F w X tX (hp * wp * (P * P * Ct)) Y tY _ _ _
      (fun Xp Yp => row_stride ← int_of (P * P * Ct); for_ Ck (fun c => for_ hp (fun i => for_ P (fun py => for_ wp (fun j => _)))))
      _ _ (fun k v => exists c, 0 <= c < Ck /\ exists i, 0 <= i < hp /\ exists py, 0 <= py < P /\ exists j, 0 <= j < wp /\
             exists px, 0 <= px < P /\ k = c * (H * W) + (i * P + py) * W + (j * P + px) /\
             v = x ((i * wp + j) * (P * P * Ct) + patch_col cm c py px))); try done.
    + destruct (Z.eqb_spec (hp * wp) 0) as [E|E].
      { unfold H, W. replace (1 * (Ck * (hp * P) * (wp * P))) with (Ck * (hp * wp) * P * P) by ring. rewrite E. ring. }
      assert (0 < hp /\ 0 < wp) as [Hh0 Hw0] by nia. split; [unfold H, W; mul_pos|]. intros h o b d L Hd HL Hx.
      apply sets_int; [by apply is_int_pos|]. loop c Hc'. loop i Hi. loop py Hpy. loop j Hj. loop px Hpx. rewrite !fptr_fptr.
      change (if cm then _ else _) with (patch_col cm c py px). pose proof (patch_col_bound cm c py px Hc' Hpy Hpx).
      pose proof (radix_bound (i * wp + j) (hp * wp) (patch_col cm c py px) (P * P * Ct) (radix_bound i hp j wp Hi Hj) H0).
      pose proof (radix_bound i hp py P Hi Hpy). pose proof (radix_bound j wp px P Hj Hpx).
      pose proof (nchw_bound 1 Ck H W 0 c (i * P + py) (j * P + px)). unfold nchw in *.
      eapply sets_read; [done|lia|]. apply sets_write; [done..|lia|eapply source_word; [done|lia]].
    + intros k v (c & Hc' & i & Hi & py & Hpy & j & Hj & px & Hpx & -> & _).
      pose proof (radix_bound i hp py P Hi Hpy). pose proof (radix_bound j wp px P Hj Hpx).
      pose proof (nchw_bound 1 Ck H W 0 c (i * P + py) (j * P + px)). unfold nchw in *. lia.
    + intros k v v' (c & Hc1 & i & Hi & py & Hpy & j & Hj & px & Hpx & -> & ->)
        (c' & Hc' & i' & Hi' & py' & Hpy' & j' & Hj' & px' & Hpx' & E2 & ->).
      pose proof (radix_bound i hp py P Hi Hpy). pose proof (radix_bound j wp px P Hj Hpx).
      pose proof (radix_bound i' hp py' P Hi' Hpy'). pose proof (radix_bound j' wp px' P Hj' Hpx').
      destruct (nchw_inj Ck H W 0 c (i * P + py) (j * P + px) 0 c' (i' * P + py') (j' * P + px')) as (_ & -> & Ei & Ej);
        try done; [unfold nchw; lia|].
      apply radix_inj in Ei as [-> ->]; [|done..]. by apply radix_inj in Ej as [-> ->].
  - intros y Hy c i py j px Hc' Hi Hpy Hj Hpx. apply Hy. exists c. split; [done|]. exists i. split; [done|].
    exists py. split; [done|]. exists j. split; [done|]. exists px. split; [done|]. unfold nchw. split; [lia|done].
Qed.
End Patch.

End Spec.

(** ** At concrete tensors *)

Definition image : gmap positive (option Arrays.arr) :=
  {[ 1%positive := Arrays.f32 1 16 (seqZ 100 16); 2%positive := None; 3%positive := None ]}.
Definition image_world : world := Arrays.world_of image.

Lemma image_fits : map_Forall (fun _ a => Arrays.fits a = true) image.
Proof. apply (bool_decide_eq_true_1 _). by vm_compute. Qed.

Definition image_tensor : Tensor := Arrays.tensor_of 1 (Arrays.f32 1 16 (seqZ 100 16)).
Definition image_call n (Hn : n <= 16) : call Arrays.rt ∅ image_world 1 image_tensor n 2 Tensor_default :=
  Arrays.call_of image image_fits 1 (Arrays.mkArr 1 16 FP32 (seqZ 100 16)) n 2 eq_refl eq_refl eq_refl Hn.

Lemma transpose_round_trip_witness :
  let m := _ ← nchw_to_sequence Arrays.rt 1 1 2 2 4 2; sequence_to_nchw Arrays.rt 2 1 2 2 4 3 in
  (m image_world).1 = Ret tt /\ safely Arrays.rt ∅ m (holds 3 1 (2 * (2 * 4)) (words (w_heap image_world) (t_data image_tensor))) image_world.
Proof.
  split; [vm_compute; reflexivity|].
  apply (transpose_round_trip Arrays.rt Arrays.arrays_lawful ∅ 1 2 2 4) with (tX := image_tensor) (tY := Tensor_default) (tZ := Tensor_default);
    [by_value..|by apply image_call|done|by apply (Arrays.blank_of image)|apply Arrays.blank_output].
Defined.

Lemma window_round_trip_witness :
  let m := _ ← window_partition_forward Arrays.rt 1 1 1 (2 * 2) (2 * 2) 2 2; window_reverse_forward Arrays.rt 2 1 1 (2 * 2) (2 * 2) 2 3 in
  (m image_world).1 = Ret tt /\ safely Arrays.rt ∅ m (holds 3 1 (1 * (2 * 2) * (2 * 2)) (words (w_heap image_world) (t_data image_tensor))) image_world.
Proof.
  split; [vm_compute; reflexivity|].
  apply (window_round_trip Arrays.rt Arrays.arrays_lawful ∅ 1 1 2 2 2) with (tX := image_tensor) (tY := Tensor_default) (tZ := Tensor_default);
    [by_value..|by apply image_call|done|done|done|by apply (Arrays.blank_of image)|apply Arrays.blank_output].
Defined.

Lemma merge_shuffle_round_trip_witness :
  let m := _ ← spatial_merge_2x2_forward Arrays.rt 1 1 2 (2 * 2) (2 * 1) true 2; pixel_shuffle_upsample_2x_forward Arrays.rt 2 1 (4 * 2) 2 1 2 3 in
  (m image_world).1 = Ret tt /\ safely Arrays.rt ∅ m (holds 3 1 (2 * (2 * 2) * (2 * 1)) (words (w_heap image_world) (t_data image_tensor))) image_world.
Proof.
  split; [vm_compute; reflexivity|].
  apply (merge_shuffle_round_trip Arrays.rt Arrays.arrays_lawful ∅ 1 2 2 1) with (tX := image_tensor) (tY := Tensor_default) (tZ := Tensor_default);
    [by_value..|by apply image_call|done|by apply (Arrays.blank_of image)|apply Arrays.blank_output].
Defined.
