(* ===== verification/CpuPadSpec.v ===== *)
(** * Padding and unfolding *)
From S2P Require Import Prelude Dtype Device Heap Runtime Tensor TensorSpec CpuBuf CpuExample CpuMove CpuMoveSpec.
Import Cpu Move.

(** ** Where an axis reads *)

(** The sample a padded axis of length [L] reads at offset [r] from its start,
    or [-1] where it is zero: the value nearest inside, or the triangle wave of
    period [2 (L - 1)]. *)
Definition pad_index (mode L r : Z) : Z :=
  if mode =? 0 then (if (0 <=? r) && (r <? L) then r else -1)
  else if mode =? 2 then Z.max 0 (Z.min r (L - 1))
  else if L =? 1 then 0
  else let m := r mod (2 * (L - 1)) in Z.min m (2 * (L - 1) - m).

Definition reflect_fits (mode L : Z) : Prop := mode = 1 -> 2 * (L - 1) <= INT_MAX.

Lemma rem_mod a m : 0 < m -> (if Z.rem a m <? 0 then Z.rem a m + m else Z.rem a m) = a mod m.
Proof.
  intros Hm. destruct (Z_lt_le_dec a 0) as [Ha|Ha].
  - assert (E : Z.rem a m = - ((- a) mod m)).
    { rewrite <- Z.rem_mod_nonneg by lia. rewrite Z.rem_opp_l' by lia. lia. }
    rewrite E. pose proof (Z.mod_pos_bound (- a) m Hm). destruct (Z.eq_dec ((- a) mod m) 0) as [Ez|Ez].
    + pose proof (Z.mod_opp_l_z (- a) m ltac:(lia) Ez) as Ea. rewrite Z.opp_involutive in Ea. by rewrite Ez, Ea.
    + pose proof (Z.mod_opp_l_nz (- a) m ltac:(lia) Ez) as Ea. rewrite Z.opp_involutive in Ea. rewrite Ea.
      rewrite (proj2 (Z.ltb_lt _ _)) by lia. lia.
  - rewrite Z.rem_mod_nonneg by lia. pose proof (Z.mod_pos_bound a m Hm). by rewrite (proj2 (Z.ltb_ge _ _)) by lia.
Qed.

Lemma unf_src_ok coord L mode w : 1 <= L -> 0 <= mode <= 2 -> reflect_fits mode L ->
  unf_src coord L mode w = (Ret (pad_index mode L coord), w).
Proof.
  intros HL Hm Hfit. unfold unf_src, pad_index. rewrite Z.geb_leb.
  destruct (Z.eqb_spec mode 0); [by destruct ((0 <=? coord) && (coord <? L))|].
  destruct (Z.eqb_spec mode 2).
  { destruct (Z.leb_spec 0 coord), (Z.ltb_spec coord L), (Z.ltb_spec coord 0); cbn [andb]; unfold mret, st_ret;
      do 2 f_equal; lia. }
  destruct (Z.eqb_spec L 1) as [->|HL1].
  { destruct (Z.leb_spec 0 coord), (Z.ltb_spec coord 1); cbn [andb]; unfold mret, st_ret; do 2 f_equal; lia. }
  cbv zeta. destruct (Z.leb_spec 0 coord); [destruct (Z.ltb_spec coord L)|]; cbn [andb];
    [rewrite Z.mod_small by lia; unfold mret, st_ret; do 2 f_equal; lia|..].
  all: rewrite (st_bind_ret _ _ _ _ w (int_of_dim (2 * (L - 1)) w ltac:(split; [lia|apply Hfit; lia]))), rem_mod by lia.
  all: pose proof (Z.mod_pos_bound coord (2 * (L - 1)) ltac:(lia)); unfold mret, st_ret; do 2 f_equal;
    case_match; bool_facts; lia.
Qed.

(** pad2d.cpp and unfold2d.cpp have the same rule. *)
Lemma pad_src_ok p L pad mode w : is_int (p - pad) -> 1 <= L -> 0 <= mode <= 2 -> reflect_fits mode L ->
  pad_src p L pad mode w = (Ret (pad_index mode L (p - pad)), w).
Proof.
  intros Hi HL Hm Hfit. rewrite <- (unf_src_ok (p - pad) L mode w HL Hm Hfit). unfold pad_src.
  by rewrite (st_bind_ret _ _ _ _ w (int_of_ok (p - pad) w Hi)).
Qed.

(** The rule never reads outside the axis; in zero mode it reads exactly the
    inside, otherwise every position has a sample. *)
Lemma pad_index_range mode L r : 1 <= L -> 0 <= mode <= 2 -> -1 <= pad_index mode L r < L /\ (mode <> 0 -> 0 <= pad_index mode L r).
Proof.
  intros HL Hm. unfold pad_index. destruct (Z.eqb_spec mode 0); [case_match; bool_facts; lia|].
  destruct (Z.eqb_spec mode 2); [lia|]. destruct (Z.eqb_spec L 1); [lia|]. cbv zeta.
  pose proof (Z.mod_pos_bound r (2 * (L - 1)) ltac:(lia)). lia.
Qed.

Lemma pad_index_inside mode L r : 0 <= mode <= 2 -> 0 <= r < L -> pad_index mode L r = r.
Proof.
  intros Hm Hr. unfold pad_index. destruct (Z.eqb_spec mode 0); [case_match; [done|]; bool_facts; lia|].
  destruct (Z.eqb_spec mode 2); [lia|]. destruct (Z.eqb_spec L 1); [lia|]. cbv zeta. rewrite Z.mod_small by lia. lia.
Qed.

(** Reflection where one fold is enough: the edge sample is not repeated. *)
Lemma pad_index_reflect L r : - L < r -> r < 2 * L - 1 -> 1 <= L ->
  pad_index 1 L r = if r <? 0 then - r else if r <? L then r else 2 * (L - 1) - r.
Proof.
  intros H1 H2 HL. unfold pad_index. change (1 =? 0) with false. change (1 =? 2) with false. cbv iota.
  destruct (Z.eqb_spec L 1) as [->|]; [repeat case_match; bool_facts; lia|]. cbv zeta.
  destruct (Z.ltb_spec r 0).
  - rewrite <- (Z.mod_add r 1) by lia. rewrite Z.mod_small by lia. lia.
  - destruct (Z.ltb_spec r L); [rewrite Z.mod_small by lia; lia|].
    destruct (Z.eq_dec r (2 * (L - 1))) as [->|]; [rewrite Z.mod_same by lia; lia|]. rewrite Z.mod_small by lia. lia.
Qed.
(** ** Padding *)

Lemma iadd3_dim a b c w : dim a -> 0 <= b -> 0 <= c -> a + b + c <= INT_MAX -> iadd3 a b c w = (Ret (a + b + c), w).
Proof.
  unfold dim, iadd3. intros. rewrite (st_bind_ret _ _ _ _ w (int_of_dim (a + b) w ltac:(split; lia))).
  apply int_of_dim. split; lia.
Qed.

(** The value a padded image has at a place whose rows and columns read
    samples [a] and [b]. *)
Definition padded (x : Z -> Z) (C H W n c a b : Z) : Z :=
  if a <? 0 then 0 else if b <? 0 then 0 else x (nchw C H W n c a b).

Section Spec.
Context (rt : runtime) (Hlaw : forall t s, rt_slots rt t = Some s -> LawfulAlloc t (slot_alloc s)).
Context (F : gset positive).

Section Pad.
Context (N C H W pt pb pl pr mode : Z) (HN : dim N) (HC : 1 <= C) (HH : 1 <= H) (HW : 1 <= W) (HX3 : dim3 C H W).
Context (Hpad : 0 <= pt /\ 0 <= pb /\ 0 <= pl /\ 0 <= pr) (Hmode : 0 <= mode <= 2).
Context (Hrefl : mode = 1 -> pt < H /\ pb < H /\ pl < W /\ pr < W).
Context (Hfit : reflect_fits mode H /\ reflect_fits mode W).
Let Hp := H + pt + pb.
Let Wp := W + pl + pr.
Context (HY3 : dim3 C Hp Wp).

Lemma pad_args_ok op w : pad_check_args op N C H W pt pb pl pr mode w = (Ret tt, w).
Proof.
  unfold pad_check_args, dim in *.
  do 3 (rewrite (st_bind_ret _ _ _ tt w) by (apply fail_if_false; lia)). destruct (Z.eqb_spec mode 1) as [E|]; [|done].
  pose proof (Hrefl E). rewrite (st_bind_ret _ _ _ tt w) by (apply fail_if_false; lia). apply fail_if_false; lia.
Qed.

Lemma pad_dims w : iadd3 H pt pb w = (Ret Hp, w) /\ iadd3 W pl pr w = (Ret Wp, w).
Proof.
  destruct HX3 as (_ & HdH & HdW & _). destruct HY3 as (_ & H1 & H2 & _).
  split; apply iadd3_dim; try done; try lia; [apply H1|apply H2].
Qed.

Let sh p := pad_index mode H (p - pt).
Let sw q := pad_index mode W (q - pl).

Lemma sh_ok p w : 0 <= p < Hp -> pad_src p H pt mode w = (Ret (sh p), w).
Proof.
  intros Hpp. destruct HY3 as (_ & H1 & _). unfold dim in *. apply pad_src_ok; try done; [|apply Hfit].
  unfold is_int, INT_MIN, INT_MAX in *. lia.
Qed.
Lemma sw_ok q w : 0 <= q < Wp -> pad_src q W pl mode w = (Ret (sw q), w).
Proof.
  intros Hpp. destruct HY3 as (_ & _ & H1 & _). unfold dim in *. apply pad_src_ok; try done; [|apply Hfit].
  unfold is_int, INT_MIN, INT_MAX in *. lia.
Qed.
Lemma sh_range p : -1 <= sh p < H.
Proof. by apply pad_index_range. Qed.
Lemma sw_range q : -1 <= sw q < W.
Proof. by apply pad_index_range. Qed.

Lemma pad2d_forward_runs w X tX Y tY : call rt F w X tX (N * (C * H * W)) Y tY ->
  t_rows tX = N -> t_cols tX = C * H * W ->
  let x := words (w_heap w) (t_data tX) in
  outcome rt F w Y tY N (C * Hp * Wp) FP32
    (fun y => forall n c p q, 0 <= n < N -> 0 <= c < C -> 0 <= p < Hp -> 0 <= q < Wp ->
       y (nchw C Hp Wp n c p q) = padded x C H W n c (sh p) (sw q))
    (pad2d_forward rt X N C H W pt pb pl pr mode Y w).
Proof.
  intros Hcall Hrows Hcols x. destruct (call_operand _ _ _ _ _ _ _ _ Hcall) as (HtX & Hdt & _).
  unfold pad2d_forward.
  rewrite (st_bind_ret _ _ _ tX w) by by apply obj_eq.
  rewrite (st_bind_ret _ _ _ tt w) by by apply check_fp32_ok.
  rewrite (st_bind_ret _ _ _ tt w) by apply pad_args_ok.
  rewrite (st_bind_ret _ _ _ tt w) by (eapply check_shape_ok; [by apply imul3_dim|done..]).
  destruct (pad_dims w) as [Eh Ew]. rewrite (st_bind_ret _ _ _ _ w Eh), (st_bind_ret _ _ _ _ w Ew).
  rewrite (st_bind_ret _ _ _ _ w (imul3_dim C Hp Wp w HY3)).
  pose proof HY3 as (_ & _ & _ & _ & Hc3). unfold dim in HN, Hc3. assert (1 <= Hp /\ 1 <= Wp) as [? ?] by (unfold Hp, Wp; lia).
  eapply outcome_mono.
  - apply (copy1 rt Hlaw F w X tX (N * (C * H * W)) Y tY _ _ _ (fun Xp Yp => for_ N (fun n => for_ C (fun c => for_ Hp (fun p => _))))
      _ _ (fun k v => exists n, 0 <= n < N /\ exists c, 0 <= c < C /\ exists p, 0 <= p < Hp /\ exists q, 0 <= q < Wp /\
             k = (n * C + c) * Hp * Wp + (p * Wp + q) /\ v = padded x C H W n c (sh p) (sw q))); try done.
    + destruct (Z.eqb_spec N 0) as [E|E]; [|destruct (Z.eqb_spec C 0) as [E'|E']]; cbn [orb]; [subst; lia..|].
      split; [mul_pos|]. intros h o b d L Hd HL Hx.
      loop n Hn. loop c Hc. loop p Hpp. eapply sets_pure; [intros w'; by apply sh_ok|]. pose proof (sh_range p) as Hsh.
      unfold padded. destruct (Z.ltb_spec (sh p) 0).
      * loop q Hq. rewrite !fptr_fptr. pose proof (nchw_bound N C Hp Wp n c p q). unfold nchw in *.
        by apply sets_write; [done..|lia|].
      * loop q Hq. eapply sets_pure; [intros w'; by apply sw_ok|]. pose proof (sw_range q) as Hsw. rewrite !fptr_fptr.
        pose proof (nchw_bound N C Hp Wp n c p q). destruct (Z.ltb_spec (sw q) 0).
        -- eapply sets_pure; [done|]. unfold nchw in *. by apply sets_write; [done..|lia|].
        -- pose proof (nchw_bound N C H W n c (sh p) (sw q)). unfold nchw in *.
           replace (((n * C + c) * H + sh p) * W + sw q) with ((n * C + c) * H * W + (sh p * W + sw q)) in * by lia.
           eapply sets_read; [done|lia|]. apply sets_write; [done..|lia|eapply source_word; [done|lia]].
    + intros k v (n & Hn & c & Hc & p & Hpp & q & Hq & -> & _). pose proof (nchw_bound N C Hp Wp n c p q). unfold nchw in *. lia.
    + intros k v v' (n & Hn & c & Hc & p & Hpp & q & Hq & -> & ->) (n' & Hn' & c' & Hc' & p' & Hp' & q' & Hq' & E2 & ->).
      destruct (nchw_inj C Hp Wp n c p q n' c' p' q') as (-> & -> & -> & ->); try done. unfold nchw. lia.
  - intros y Hy n c p q Hn Hc Hpp Hq. apply Hy. exists n. split; [done|]. exists c. split; [done|]. exists p. split; [done|].
    exists q. split; [done|]. unfold nchw. split; [lia|done].
Qed.

(** The crop that matches the padding undoes it, in every mode: an image
    padded by [pad2d_forward] and cut out again by [slice2d_forward] at the
    padding's offset is the image, bit for bit. *)
Theorem pad_slice_round_trip w X tX Y tY Z tZ :
  call rt F w X tX (N * (C * H * W)) Y tY -> t_rows tX = N -> t_cols tX = C * H * W ->
  Y <> Z -> w_objs w !! Z = Some tZ -> output tZ ->
  let x := words (w_heap w) (t_data tX) in
  safely rt F (_ ← pad2d_forward rt X N C H W pt pb pl pr mode Y; slice2d_forward rt Y N C Hp Wp pt pl H W Z) (holds Z (N) (C * H * W) x) w.
Proof.
  intros Hcall Hr1 Hc1 Hne HZ HoutZ x. pose proof (pad2d_forward_runs w X tX Y tY Hcall Hr1 Hc1) as H1.
  apply (outcome_then rt F w Y tY _ _ _ Z tZ _ _ _ H1 Hne HZ HoutZ). intros w1 t1 Hcall1 Hr2 Hc2 Hy.
  assert (Hfh : 0 <= pt /\ 0 <= H /\ pt + H <= Hp) by (unfold Hp; lia).
  assert (Hfw : 0 <= pl /\ 0 <= W /\ pl + W <= Wp) by (unfold Wp; lia).
  pose proof (slice2d_forward_runs rt Hlaw F N C Hp Wp pt pl H W HN HC HY3 Hfh Hfw w1 Y t1 Z tZ Hcall1 Hr2 Hc2) as H2.
  apply (outcome_holds rt F w1 Z tZ _ _ _ _ _ _ H2). intros y Hz k Hk.
  destruct (nchw_decode N C H W k) as (n & c & p & q & Hn & Hc' & Hpp & Hq & ->); [lia..|done|].
  rewrite Hz, Hy by (done || lia). unfold padded, sh, sw.
  rewrite !(pad_index_inside mode) by lia. rewrite !(proj2 (Z.ltb_ge _ _)) by lia. f_equal. f_equal; lia.
Qed.
(** *** The gradient *)
Context (fadd : Z -> Z -> Z) (Hadd : forall a b, is_word a -> is_word b -> is_word (fadd a b)).

(** The output positions that read sample [(a, b)], in row-major order. *)
Definition readers (a b : Z) : list (Z * Z) :=
  filter (fun pq => sh pq.1 = a /\ sw pq.2 = b) (seqZ 0 Hp ≫= fun p => (fun q => (p, q)) <$> seqZ 0 Wp).

Let add_ups (dy : Z -> Z) (n c p q : Z) : updates :=
  if sw q >=? 0
  then [((n * C + c) * H * W + (sh p * W + sw q), fun x => fadd x (dy ((n * C + c) * Hp * Wp + (p * Wp + q))))] else [].
Let row_ups dy n c p : updates := if sh p <? 0 then [] else seqZ 0 Wp ≫= add_ups dy n c p.
Let chan_ups dy n c : updates := seqZ 0 Hp ≫= row_ups dy n c.

Lemma chan_in dy n c j g : 0 <= n < N -> 0 <= c < C -> (j, g) ∈ chan_ups dy n c -> exists a b, 0 <= a < H /\ 0 <= b < W /\ j = nchw C H W n c a b.
Proof.
  intros Hn Hc (p & Hin & Hpp%elem_of_seqZ)%list_elem_of_bind. unfold row_ups in Hin. pose proof (sh_range p).
  destruct (Z.ltb_spec (sh p) 0); [by apply elem_of_nil in Hin|].
  apply list_elem_of_bind in Hin as (q & Hin & Hq%elem_of_seqZ). unfold add_ups in Hin. pose proof (sw_range q).
  destruct (Z.geb_spec (sw q) 0); [|by apply elem_of_nil in Hin]. apply list_elem_of_singleton in Hin as [= -> _].
  exists (sh p), (sw q). unfold nchw. split; [lia|]. split; [lia|]. lia.
Qed.

Lemma chan_hits dy n c a b : 0 <= n < N -> 0 <= c < C -> 0 <= a < H -> 0 <= b < W ->
  hits (nchw C H W n c a b) (chan_ups dy n c) = (fun pq x => fadd x (dy (nchw C Hp Wp n c pq.1 pq.2))) <$> readers a b.
Proof.
  intros Hn Hc Ha Hb. unfold chan_ups, readers. rewrite hits_bind. rewrite <- bind_filter.
  assert (E : forall (l : list Z) (f : Z * Z -> list (Z -> Z)), ((l ≫= fun p => (fun q => (p, q)) <$> seqZ 0 Wp) ≫= f) =
    l ≫= fun p => seqZ 0 Wp ≫= fun q => f (p, q)).
  { intros l f. induction l as [|p l IH]; [done|]. cbn [mbind list_bind]. rewrite bind_app, IH. f_equal.
    generalize (seqZ 0 Wp). intros r. induction r as [|q r IHr]; [done|]. cbn. by f_equal. }
  rewrite E. apply bind_ext. intros p _. unfold row_ups. pose proof (sh_range p). destruct (Z.ltb_spec (sh p) 0).
  { symmetry. apply bind_none. intros q _. cbn [fst]. rewrite decide_False; [done|]. cbn. lia. }
  rewrite hits_bind. apply bind_ext. intros q _. unfold add_ups. pose proof (sw_range q). cbn [fst snd].
  destruct (Z.geb_spec (sw q) 0).
  - rewrite hits_single. destruct (decide (sh p = a /\ sw q = b)) as [[E1 E2]|Hno].
    + rewrite decide_True by (unfold nchw; rewrite E1, E2; lia).
      replace ((n * C + c) * Hp * Wp + (p * Wp + q)) with (nchw C Hp Wp n c p q) by (unfold nchw; lia). done.
    + rewrite decide_False; [done|]. intros E'. apply Hno.
      destruct (nchw_inj C H W n c (sh p) (sw q) n c a b) as (_ & _ & ? & ?); try lia.
      unfold nchw in *. lia.
  - rewrite decide_False by lia. done.
Qed.

(** All images: only image [n] and channel [c] reach [nchw n c]. *)
Lemma image_hits dy n c a b : 0 <= n < N -> 0 <= c < C -> 0 <= a < H -> 0 <= b < W ->
  hits (nchw C H W n c a b) (seqZ 0 N ≫= fun n => seqZ 0 C ≫= chan_ups dy n) =
  (fun pq x => fadd x (dy (nchw C Hp Wp n c pq.1 pq.2))) <$> readers a b.
Proof.
  intros Hn Hc Ha Hb. rewrite hits_bind, (bind_only _ _ n); [|apply NoDup_seqZ|apply elem_of_seqZ; lia|].
  - rewrite hits_bind, (bind_only _ _ c); [by apply chan_hits|apply NoDup_seqZ|apply elem_of_seqZ; lia|].
    intros c' Hc'%elem_of_seqZ Hcc. apply hits_none. intros g Hin. destruct (chan_in dy n c' _ g Hn ltac:(lia) Hin) as (u & v & Hu & Hv & E2).
    destruct (nchw_inj C H W n c a b n c' u v) as (_ & ? & _); try done; lia.
  - intros n' Hn'%elem_of_seqZ Hnn. apply hits_none. intros g (c' & Hin & Hc'%elem_of_seqZ)%list_elem_of_bind.
    destruct (chan_in dy n' c' _ g ltac:(lia) ltac:(lia) Hin) as (u & v & Hu & Hv & E2).
    destruct (nchw_inj C H W n c a b n' c' u v) as (? & _); try done; lia.
Qed.

(** C27: [pad2d_backward] is the adjoint of the padding, in every mode: the
    gradient of an input sample is the sum, added in row-major order to zero,
    of the output gradients at exactly the positions that read the sample in
    the forward pass; a sample nobody reads gets zero. *)
Theorem pad2d_backward_sums w dY tdY dX tdX : call rt F w dY tdY (N * (C * Hp * Wp)) dX tdX ->
  t_rows tdY = N -> t_cols tdY = C * Hp * Wp ->
  let dy := words (w_heap w) (t_data tdY) in
  outcome rt F w dX tdX N (C * H * W) FP32
    (fun dx => forall n c a b, 0 <= n < N -> 0 <= c < C -> 0 <= a < H -> 0 <= b < W ->
       dx (nchw C H W n c a b) = foldl (fun x pq => fadd x (dy (nchw C Hp Wp n c pq.1 pq.2))) 0 (readers a b))
    (pad2d_backward rt fadd dY N C H W pt pb pl pr mode dX w).
Proof.
  intros Hcall Hrows Hcols dy. pose proof Hcall as [I HX Hne Hbes Ht Hout]. pose proof HX as (HtX & Hdt & _).
  unfold pad2d_backward.
  rewrite (st_bind_ret _ _ _ tdY w) by by apply obj_eq.
  rewrite (st_bind_ret _ _ _ tt w) by by apply check_fp32_ok.
  rewrite (st_bind_ret _ _ _ tt w) by apply pad_args_ok.
  destruct (pad_dims w) as [Eh Ew]. rewrite (st_bind_ret _ _ _ _ w Eh), (st_bind_ret _ _ _ _ w Ew).
  rewrite (st_bind_ret _ _ _ tt w) by (eapply check_shape_ok; [by apply imul3_dim|done..]).
  rewrite (st_bind_ret _ _ _ _ w (imul3_dim C H W w HX3)).
  pose proof HX3 as (_ & _ & _ & _ & Hc3). unfold dim in HN, Hc3.
  apply (kernel1 rt Hlaw F w dY tdY (N * (C * Hp * Wp)) dX tdX _ _ _
    (fun Yp Xp => _ ← for_ (N * (C * H * W)) (fun i => write_word (fptr Xp i) 0); for_ N (fun n => for_ C (fun c => for_ Hp (fun p => _)))));
    try done.
  - destruct (Z.eqb_spec N 0) as [E|E]; [|destruct (Z.eqb_spec C 0) as [E'|E']]; cbn [orb]; [split; [subst; lia|]; intros; lia..|].
    split; [mul_pos|]. intros h o b d L Hd HL Hx.
    assert (Hz : sets h o b d L (N * (C * H * W)) (for_ (N * (C * H * W)) (fun i => write_word (fptr (Some (b, 0)) i) 0))
      (fun k v => exists i, 0 <= i < N * (C * H * W) /\ k = i /\ v = 0)) by (loop i Hi; by apply sets_write).
    destruct (sets_value _ _ _ _ _ _ _ _ Hz) as (zs & Hzs & Hz0).
    { by intros k v v' (i & Hi & -> & ->) (i' & Hi' & -> & ->). }
    exists (zs ++ (seqZ 0 N ≫= fun n => seqZ 0 C ≫= chan_ups dy n)). split.
    + apply runs_bind; [done|]. apply runs_for; [done..|]. intros n Hn. apply runs_for; [done..|]. intros c Hc.
      apply runs_for; [done..|]. intros p Hpp. eapply runs_pure; [intros w'; by apply sh_ok|]. unfold row_ups.
      pose proof (sh_range p). destruct (Z.ltb_spec (sh p) 0); [apply runs_ret|].
      apply runs_for; [done..|]. intros q Hq. eapply runs_pure; [intros w'; by apply sw_ok|]. unfold add_ups.
      pose proof (sw_range q). destruct (Z.geb_spec (sw q) 0); [|apply runs_ret]. rewrite !fptr_fptr.
      pose proof (nchw_bound N C Hp Wp n c p q). pose proof (nchw_bound N C H W n c (sh p) (sw q)). unfold nchw in *.
      eapply runs_read; [done|lia|]. apply runs_modify; [done..|lia|]. intros x Hxw. apply Hadd; [done|].
      eapply source_word; [done|lia].
    + intros f Hf n c a a' Hn Hc Ha Ha'. rewrite apply_app, apply_hits. rewrite (proj1 (Hz0 f) _ 0).
      2:{ exists (nchw C H W n c a a'). split; [by apply nchw_bound|done]. }
      by rewrite image_hits, foldl_fmap.
  - intros f g Hfg Hf n c a b Hn Hc Ha Hb. rewrite <- Hfg by by apply nchw_bound. by apply Hf.
Qed.
End Pad.

(** ** Unfolding *)
Section Unfold.
Context (N C H W kH kW sth stw pt pb pl pr mode : Z) (HN : dim N) (HC : 1 <= C) (HH : 1 <= H) (HW : 1 <= W) (HX3 : dim3 C H W).
Context (Hk : 1 <= kH <= H + pt + pb /\ 1 <= kW <= W + pl + pr) (Hst : 1 <= sth /\ 1 <= stw).
Context (Hpad : 0 <= pt /\ 0 <= pb /\ 0 <= pl /\ 0 <= pr) (Hmode : 0 <= mode <= 2).
Context (Hfit : reflect_fits mode H /\ reflect_fits mode W).
Context (Hint : H + pt + pb < INT_MAX /\ W + pl + pr < INT_MAX).
Let Ho := (H + pt + pb - kH) / sth + 1.
Let Wo := (W + pl + pr - kW) / stw + 1.
Let kK := kH * kW.
Context (HkK : dim kK) (HY3 : dim3 (C * kK) Ho Wo).

Lemma unf_out_ok L lo hi k st w : 1 <= L -> 0 <= lo -> 0 <= hi -> L + lo + hi < INT_MAX -> 1 <= k <= L + lo + hi -> 1 <= st ->
  unf_out L lo hi k st w = (Ret ((L + lo + hi - k) / st + 1), w) /\ 0 <= (L + lo + hi - k) / st <= L + lo + hi - k.
Proof.
  intros HL Hlo Hhi Hi Hk' Hst'. unfold unf_out.
  assert (0 <= (L + lo + hi - k) / st <= L + lo + hi - k).
  { split; [apply Z.div_pos; lia|]. apply Z.div_le_upper_bound; [lia|]. nia. }
  split; [|done]. rewrite (st_bind_ret _ _ _ _ w (iadd3_dim L lo hi w ltac:(split; lia) Hlo Hhi ltac:(lia))).
  rewrite (st_bind_ret _ _ _ _ w (int_of_dim (L + lo + hi - k) w ltac:(split; lia))).
  rewrite Z.quot_div_nonneg by lia. apply int_of_dim. split; lia.
Qed.

(** The source position of a window row or column, in [int]. *)
Lemma unf_pos o n st lo k kk L w : 0 <= o < n -> 1 <= st -> 0 <= lo <= INT_MAX -> 0 <= k < kk -> 1 <= L ->
  (n - 1) * st + kk <= INT_MAX -> 0 <= mode <= 2 -> reflect_fits mode L ->
  (i ← int_of (o * st); s ← iadd3 i (- lo) k; unf_src s L mode) w = (Ret (pad_index mode L (o * st - lo + k)), w).
Proof.
  intros Ho' Hs Hlo Hk' HL Hle Hm Hf. assert (0 <= o * st <= (n - 1) * st) by nia.
  rewrite (st_bind_ret _ _ _ _ w (int_of_dim (o * st) w ltac:(split; lia))).
  assert (E : iadd3 (o * st) (- lo) k w = (Ret (o * st - lo + k), w)).
  { unfold iadd3. rewrite (st_bind_ret _ _ _ _ w (int_of_ok (o * st + - lo) w ltac:(unfold is_int, INT_MIN, INT_MAX in *; lia))).
    rewrite int_of_ok by (unfold is_int, INT_MIN, INT_MAX in *; lia). do 2 f_equal. }
  rewrite (st_bind_ret _ _ _ _ w E). by apply unf_src_ok.
Qed.

Let uh oy ky := pad_index mode H (oy * sth - pt + ky).
Let uw ox kx := pad_index mode W (ox * stw - pl + kx).

Lemma unf_last n st m : 0 <= m -> 1 <= st -> n = m / st + 1 -> (n - 1) * st <= m.
Proof. intros Hm Hs ->. pose proof (Z.mul_div_le m st). lia. Qed.

Lemma unfold2d_forward_runs w X tX Y tY : call rt F w X tX (N * (C * H * W)) Y tY ->
  t_rows tX = N -> t_cols tX = C * H * W ->
  let x := words (w_heap w) (t_data tX) in
  outcome rt F w Y tY N (C * kK * Ho * Wo) FP32
    (fun y => forall n c ky kx oy ox, 0 <= n < N -> 0 <= c < C -> 0 <= ky < kH -> 0 <= kx < kW -> 0 <= oy < Ho -> 0 <= ox < Wo ->
       y (nchw (C * kK) Ho Wo n (c * kK + (ky * kW + kx)) oy ox) = padded x C H W n c (uh oy ky) (uw ox kx))
    (unfold2d_forward rt X N C H W kH kW sth stw pt pb pl pr mode Y w).
Proof.
  intros Hcall Hrows Hcols x. destruct (call_operand _ _ _ _ _ _ _ _ Hcall) as (HtX & Hdt & _).
  destruct (unf_out_ok H pt pb kH sth w) as [Eh Hh1]; try lia. destruct (unf_out_ok W pl pr kW stw w) as [Ew Hw1]; try lia.
  fold Ho in Eh. fold Wo in Ew. assert (1 <= Ho /\ 1 <= Wo) as [HHo HWo] by (unfold Ho, Wo; lia).
  pose proof (unf_last Ho sth (H + pt + pb - kH) ltac:(lia) ltac:(lia) eq_refl) as Hlh.
  pose proof (unf_last Wo stw (W + pl + pr - kW) ltac:(lia) ltac:(lia) eq_refl) as Hlw.
  unfold unfold2d_forward.
  rewrite (st_bind_ret _ _ _ tX w) by by apply obj_eq.
  rewrite (st_bind_ret _ _ _ tt w) by by apply check_fp32_ok.
  do 5 (rewrite (st_bind_ret _ _ _ tt w) by (apply fail_if_false; unfold dim in *; lia)).
  rewrite (st_bind_ret _ _ _ tt w) by (eapply check_shape_ok; [by apply imul3_dim|done..]).
  rewrite (st_bind_ret _ _ _ _ w Eh), (st_bind_ret _ _ _ _ w Ew).
  rewrite (st_bind_ret _ _ _ tt w) by (apply fail_if_false; lia).
  rewrite (st_bind_ret _ _ _ _ w (int_of_dim kK w HkK)).
  rewrite (st_bind_ret _ _ _ _ w (int_of_dim (C * kK) w (proj1 HY3))).
  rewrite (st_bind_ret _ _ _ _ w (imul3_dim (C * kK) Ho Wo w HY3)).
  pose proof HY3 as (_ & _ & _ & _ & Hc3). unfold dim in HN, Hc3, HkK. assert (1 <= kK) by (unfold kK; nia).
  eapply outcome_mono.
  - apply (copy1 rt Hlaw F w X tX (N * (C * H * W)) Y tY _ _ _
      (fun Xp Yp => for_ N (fun n => for_ C (fun c => for_ kH (fun ky => for_ kW (fun kx => _)))))
      _ _ (fun k v => exists n, 0 <= n < N /\ exists c, 0 <= c < C /\ exists ky, 0 <= ky < kH /\ exists kx, 0 <= kx < kW /\
             exists oy, 0 <= oy < Ho /\ exists ox, 0 <= ox < Wo /\
             k = ((n * C + c) * kK + (ky * kW + kx)) * Ho * Wo + (oy * Wo + ox) /\ v = padded x C H W n c (uh oy ky) (uw ox kx))); try done.
    + destruct (Z.eqb_spec N 0) as [E|E]; [subst; lia|]. split; [mul_pos|]. intros h o b d L Hd HL Hx.
      loop n Hn. loop c Hc. loop ky Hky. loop kx Hkx. loop oy Hoy.
      assert (Hck : 0 <= c * kK + (ky * kW + kx) < C * kK) by (apply radix_bound; [done|by apply radix_bound]).
      assert (Hdst : forall ox, 0 <= ox < Wo -> 0 <= ((n * C + c) * kK + (ky * kW + kx)) * Ho * Wo + (oy * Wo + ox) < N * (C * kK * Ho * Wo)).
      { intros ox Hox. pose proof (nchw_bound N (C * kK) Ho Wo n (c * kK + (ky * kW + kx)) oy ox). unfold nchw in *. lia. }
      eapply sets_assoc3; [intros w'; apply (unf_pos oy Ho sth pt ky kH H w'); try done; try (by apply Hfit); lia|].
      fold (uh oy ky). pose proof (proj1 (pad_index_range mode H (oy * sth - pt + ky) HH Hmode)) as Hu. fold (uh oy ky) in Hu.
      unfold padded. destruct (Z.ltb_spec (uh oy ky) 0).
      * loop ox Hox. rewrite !fptr_fptr. by apply sets_write; [done..|apply Hdst|].
      * loop ox Hox.
        eapply sets_assoc3; [intros w'; apply (unf_pos ox Wo stw pl kx kW W w'); try done; try (by apply Hfit); lia|].
        fold (uw ox kx). pose proof (proj1 (pad_index_range mode W (ox * stw - pl + kx) HW Hmode)) as Hv. fold (uw ox kx) in Hv.
        rewrite !fptr_fptr. destruct (Z.ltb_spec (uw ox kx) 0).
        -- eapply sets_pure; [done|]. by apply sets_write; [done..|apply Hdst|].
        -- pose proof (nchw_bound N C H W n c (uh oy ky) (uw ox kx)). unfold nchw in *.
           replace (((n * C + c) * H + uh oy ky) * W + uw ox kx) with ((n * C + c) * H * W + (uh oy ky * W + uw ox kx)) in * by lia.
           eapply sets_read; [done|lia|]. apply sets_write; [done..|by apply Hdst|eapply source_word; [done|lia]].
    + intros k v (n & Hn & c & Hc & ky & Hky & kx & Hkx & oy & Hoy & ox & Hox & -> & _).
      assert (Hck : 0 <= c * kK + (ky * kW + kx) < C * kK) by (apply radix_bound; [done|by apply radix_bound]).
      pose proof (nchw_bound N (C * kK) Ho Wo n (c * kK + (ky * kW + kx)) oy ox). unfold nchw in *. lia.
    + intros k v v' (n & Hn & c & Hc & ky & Hky & kx & Hkx & oy & Hoy & ox & Hox & -> & ->)
        (n' & Hn' & c' & Hc' & ky' & Hky' & kx' & Hkx' & oy' & Hoy' & ox' & Hox' & E2 & ->).
      pose proof (radix_bound ky kH kx kW Hky Hkx). pose proof (radix_bound ky' kH kx' kW Hky' Hkx').
      destruct (nchw_inj (C * kK) Ho Wo n (c * kK + (ky * kW + kx)) oy ox n' (c' * kK + (ky' * kW + kx')) oy' ox') as (-> & Ec & -> & ->);
        try done; try (by apply radix_bound); [unfold nchw; lia|].
      apply radix_inj in Ec as [-> Ek]; [|done..]. by apply radix_inj in Ek as [-> ->].
  - intros y Hy n c ky kx oy ox Hn Hc Hky Hkx Hoy Hox. apply Hy. exists n. split; [done|]. exists c. split; [done|].
    exists ky. split; [done|]. exists kx. split; [done|]. exists oy. split; [done|]. exists ox. split; [done|].
    unfold nchw. split; [lia|done].
Qed.
End Unfold.
End Spec.

(** ** At concrete tensors *)

(** Reflection by 1 row above and 3 columns at the left of a 4 by 4 image. *)
Lemma pad_slice_round_trip_witness :
  let m := _ ← pad2d_forward Arrays.rt 1 1 1 4 4 1 0 3 0 1 2; slice2d_forward Arrays.rt 2 1 1 (4 + 1 + 0) (4 + 3 + 0) 1 3 4 4 3 in
  (m image_world).1 = Ret tt /\ safely Arrays.rt ∅ m (holds 3 1 (1 * 4 * 4) (words (w_heap image_world) (t_data image_tensor))) image_world.
Proof.
  split; [vm_compute; reflexivity|].
  apply (pad_slice_round_trip Arrays.rt Arrays.arrays_lawful ∅ 1 1 4 4 1 0 3 0 1) with (tX := image_tensor) (tY := Tensor_default) (tZ := Tensor_default);
    [by_value..|by apply image_call|done|done|done|by apply (Arrays.blank_of image)|apply Arrays.blank_output].
Defined.

(** The 16 words as the gradient of a 4 by 4 image, padded from 2 by 3 by
    replication. *)
Lemma pad2d_backward_sums_witness :
  let m := pad2d_backward Arrays.rt Arrays.add32 1 1 1 2 3 1 1 0 1 2 2 in
  (m image_world).1 = Ret tt /\
  outcome Arrays.rt ∅ image_world 2 Tensor_default 1 (1 * 2 * 3) FP32
    (fun dx => forall n c a b, 0 <= n < 1 -> 0 <= c < 1 -> 0 <= a < 2 -> 0 <= b < 3 ->
       dx (nchw 1 2 3 n c a b) = foldl (fun x pq => Arrays.add32 x (words (w_heap image_world) (t_data image_tensor) (nchw 1 (2 + 1 + 1) (3 + 0 + 1) n c pq.1 pq.2)))
         0 (readers 2 3 1 1 0 1 2 a b)) (m image_world).
Proof.
  split; [vm_compute; reflexivity|].
  apply (pad2d_backward_sums Arrays.rt Arrays.arrays_lawful ∅ 1 1 2 3 1 1 0 1 2); [by_value..|apply Arrays.add32_word|by apply image_call|done|done].
Defined.
