(* ===== verification/CpuRows.v ===== *)
(** * Host kernels on rows

    concat.cpp, gather_rows.cpp, embedding.cpp and [kv_cache_append] of
    kv_cache.cpp: copies of whole rows between tensors, by position or by an
    index tensor. Indices are not checked by the source; reading through a bad
    one is undefined here too. *)
From S2P Require Import Prelude Dtype Device Heap Runtime Tensor CpuBuf CpuMove.
Import Cpu Move.

Module Rows.
Section Ops.
Context (rt : runtime).

(** ** concat.cpp *)

(** The loop over the parts that sizes the output: [B] and [total_cols]. *)
Fixpoint concat_sizes (parts : list (option positive)) (B total_cols : Z) : M (Z * Z) :=
  match parts with
  | [] => mret (B, total_cols)
  | None :: r => concat_sizes r B total_cols
  | Some p :: r =>
      t ← obj p;
      total ← int_of (total_cols + t_cols t);
      concat_sizes r (if B =? 0 then t_rows t else B) total
  end.

(** The loop that copies them, at column [col_off]. *)
Fixpoint concat_copy (parts : list (option positive)) (op : ptr) (B total_cols col_off : Z) : M unit :=
  match parts with
  | [] => mret tt
  | None :: r => concat_copy r op B total_cols col_off
  | Some p :: r =>
      t ← obj p;
      let d := t_cols t in
      if d =? 0 then concat_copy r op B total_cols col_off
      else
        pp ← T.host_f32 p;
        _ ← for_ B (fun b =>
          let src := fptr pp (b * d) in
          let dst := fptr op (b * total_cols + col_off) in
          for_ d (fun j => v ← read_word (fptr src j); write_word (fptr dst j) v));
        concat_copy r op B total_cols (col_off + d)
  end.

Definition concat_batched_rows (parts : list (option positive)) (out : positive) : M unit :=
  match parts with
  | [] => T.resize rt out 0 0 FP32
  | _ =>
      '(B, total_cols) ← concat_sizes parts 0 0;
      _ ← ensure rt out B total_cols FP32;
      if (B =? 0) || (total_cols =? 0) then mret tt
      else op ← T.host_f32_mut out; concat_copy parts op B total_cols 0
  end.

(** [int Tensor::size() const]. *)
Definition size (t : Tensor) : M Z := int_of (t_rows t * t_cols t).

Fixpoint nchw_check (parts : list (option positive * Z)) (N H W total_C : Z) : M Z :=
  match parts with
  | [] => mret total_C
  | (None, _) :: _ => st_throw (lit "concat_nchw_channels: null part")
  | (Some p, Ci) :: r =>
      t ← obj p;
      s ← size t;
      _ ← st_throw_if (negb (s =? i32 (u64 (u64 (u64 (u64 N * u64 Ci) * u64 H) * u64 W))))
            (lit "concat_nchw_channels: part size mismatch (expected N*C_i*H*W)");
      total ← int_of (total_C + Ci);
      nchw_check r N H W total
  end.

(** [std::size_t] offsets: [HW], [c_off] and the products. *)
Fixpoint nchw_copy (parts : list (option positive * Z)) (op : ptr) (N total_cols HW c_off : Z) : M unit :=
  match parts with
  | [] => mret tt
  | (None, _) :: _ => st_undef
  | (Some p, Ci) :: r =>
      if Ci =? 0 then nchw_copy r op N total_cols HW c_off
      else
        let part_chunk := u64 (u64 Ci * HW) in
        pp ← T.host_f32 p;
        _ ← for_ N (fun n =>
          let src := fptr pp (u64 (u64 n * part_chunk)) in
          let dst := fptr op (u64 (u64 (u64 n * u64 total_cols) + u64 (c_off * HW))) in
          for_ part_chunk (fun k => v ← read_word (fptr src k); write_word (fptr dst k) v));
        nchw_copy r op N total_cols HW (u64 (c_off + u64 Ci))
  end.

Definition concat_nchw_channels (parts : list (option positive)) (N H W : Z) (C_per_part : list Z) (out : positive) : M unit :=
  _ ← st_throw_if (negb (length parts =? length C_per_part)%nat)
        (lit "concat_nchw_channels: parts.size() != C_per_part.size()");
  let ps := combine parts C_per_part in
  total_C ← nchw_check ps N H W 0;
  total_cols ← imul3 total_C H W;
  _ ← ensure rt out N total_cols FP32;
  if (N =? 0) || (total_cols =? 0) then mret tt
  else
    let HW := u64 (u64 H * u64 W) in
    op ← T.host_f32_mut out;
    nchw_copy ps op N total_cols HW 0.

Fixpoint isum (l : list Z) (acc : Z) : M Z :=
  match l with [] => mret acc | c :: r => s ← int_of (acc + c); isum r s end.

Fixpoint nchw_split (parts : list (option positive * Z)) (dyp : ptr) (N H W HW expected_cols c_off : Z) : M unit :=
  match parts with
  | [] => mret tt
  | (None, _) :: _ => st_throw (lit "concat_nchw_channels_backward: null part")
  | (Some p, Ci) :: r =>
      cols ← imul3 Ci H W;
      _ ← ensure rt p N cols FP32;
      if (Ci =? 0) || (N =? 0) || (HW =? 0) then nchw_split r dyp N H W HW expected_cols (u64 (c_off + u64 Ci))
      else
        let part_chunk := u64 (u64 Ci * HW) in
        pp ← T.host_f32_mut p;
        _ ← for_ N (fun n =>
          let src := fptr dyp (u64 (u64 (u64 n * u64 expected_cols) + u64 (c_off * HW))) in
          let dst := fptr pp (u64 (u64 n * part_chunk)) in
          for_ part_chunk (fun k => v ← read_word (fptr src k); write_word (fptr dst k) v));
        nchw_split r dyp N H W HW expected_cols (u64 (c_off + u64 Ci))
  end.

Definition concat_nchw_channels_backward (dY : positive) (N H W : Z) (C_per_part : list Z) (parts : list (option positive)) : M unit :=
  _ ← st_throw_if (negb (length parts =? length C_per_part)%nat)
        (lit "concat_nchw_channels_backward: parts.size() != C_per_part.size()");
  total_C ← isum C_per_part 0;
  expected_cols ← imul3 total_C H W;
  tdY ← obj dY;
  _ ← st_throw_if (negb (t_rows tdY =? N) || negb (t_cols tdY =? expected_cols))
        (lit "concat_nchw_channels_backward: dY shape mismatch (expected N x total_C*H*W)");
  let HW := u64 (u64 H * u64 W) in
  dyp ← T.host_f32 dY;
  nchw_split (combine parts C_per_part) dyp N H W HW expected_cols 0.

(** ** gather_rows.cpp *)

Definition check_idx (t : Tensor) (op : str) : M unit :=
  _ ← fail_if (negb (dtype_eqb (t_dtype t) INT32)) op (lit "Idx must be INT32");
  fail_if (negb (t_cols t =? 1)) op (lit "Idx must be shaped (M, 1)").

Definition gather_rows (X Idx Y : positive) : M unit :=
  let op := lit "gather_rows" in
  tX ← obj X;
  _ ← check_fp32 tX op (lit "X");
  tI ← obj Idx;
  _ ← check_idx tI op;
  let M_ := t_rows tI in
  let C := t_cols tX in
  _ ← ensure rt Y M_ C FP32;
  if (M_ =? 0) || (C =? 0) then mret tt
  else
    Xp ← T.host_f32 X;
    tI ← obj Idx;
    let Ip := t_data tI in
    Yp ← T.host_f32_mut Y;
    for_ M_ (fun m =>
      r ← read_i32 (fptr Ip m);
      copy_words (fptr Yp (m * C)) (fptr Xp (r * C)) C).

(** [float] addition: the bits of [a + b]. *)
Context (fadd : Z -> Z -> Z).

Definition scatter_rows_add (dY Idx : positive) (R : Z) (dX : positive) : M unit :=
  let op := lit "scatter_rows_add" in
  tdY ← obj dY;
  _ ← check_fp32 tdY op (lit "dY");
  tI ← obj Idx;
  _ ← check_idx tI op;
  _ ← fail_if (R <? 0) op (lit "R must be >= 0");
  let M_ := t_rows tI in
  _ ← fail_if (negb (t_rows tdY =? M_)) op (lit "dY.rows must equal Idx.rows");
  let C := t_cols tdY in
  _ ← ensure rt dX R C FP32;
  if (R =? 0) || (C =? 0) then mret tt
  else
    dYp ← T.host_f32 dY;
    tI ← obj Idx;
    let Ip := t_data tI in
    dXp ← T.host_f32_mut dX;
    _ ← for_ (R * C) (fun i => write_word (fptr dXp i) 0);
    for_ M_ (fun m =>
      r ← read_i32 (fptr Ip m);
      let src := fptr dYp (m * C) in
      let dst := fptr dXp (r * C) in
      for_ C (fun c => g ← read_word (fptr src c); add_to fadd (fptr dst c) g)).

Definition scatter_rows (Y Idx X : positive) : M unit :=
  let op := lit "scatter_rows" in
  tY ← obj Y;
  _ ← check_fp32 tY op (lit "Y");
  tI ← obj Idx;
  _ ← check_idx tI op;
  let M_ := t_rows tI in
  _ ← fail_if (negb (t_rows tY =? M_)) op (lit "Y.rows must equal Idx.rows");
  tX ← obj X;
  _ ← fail_if (negb (dtype_eqb (t_dtype tX) FP32)) op (lit "X must be FP32");
  _ ← fail_if (negb (t_cols tX =? t_cols tY)) op (lit "X.cols must equal Y.cols");
  let C := t_cols tY in
  if (M_ =? 0) || (C =? 0) then mret tt
  else
    Yp ← T.host_f32 Y;
    tI ← obj Idx;
    let Ip := t_data tI in
    Xp ← T.host_f32_mut X;
    for_ M_ (fun m =>
      r ← read_i32 (fptr Ip m);
      copy_words (fptr Xp (r * C)) (fptr Yp (m * C)) C).

(** ** embedding.cpp *)

Definition embedding_lookup_forward (table : positive) (d_idx : ptr) (B : Z) (out : positive) : M unit :=
  t ← obj table;
  _ ← st_throw_if (negb (dtype_eqb (t_dtype t) FP32))
        (lit "brotensor: embedding_lookup_forward: CPU backend requires FP32 table (quantized tables must be dequantized first)");
  let D := t_cols t in
  _ ← ensure rt out B D FP32;
  total ← int_of (B * D);
  if total =? 0 then mret tt
  else
    tp ← T.host_f32 table;
    op ← T.host_f32_mut out;
    for_ B (fun b =>
      row ← read_i32 (fptr d_idx b);
      let src := fptr tp (u64 (u64 row * u64 D)) in
      let dst := fptr op (u64 (u64 b * u64 D)) in
      for_ D (fun j => v ← read_word (fptr src j); write_word (fptr dst j) v)).

Definition embedding_lookup_backward (dOut : positive) (d_idx : ptr) (B : Z) (dTable : positive) : M unit :=
  t ← obj dTable;
  let D := t_cols t in
  total ← int_of (B * D);
  if total =? 0 then mret tt
  else
    dop ← T.host_f32 dOut;
    dtp ← T.host_f32_mut dTable;
    for_ B (fun b =>
      row ← read_i32 (fptr d_idx b);
      let src := fptr dop (u64 (u64 b * u64 D)) in
      let dst := fptr dtp (u64 (u64 row * u64 D)) in
      for_ D (fun j => g ← read_word (fptr src j); add_to fadd (fptr dst j) g)).

(** ** [kv_cache_append] *)

Definition kv_cache_append (K_new V_new : positive) (cur_len : Z) (K_cache V_cache : positive) : M unit :=
  let op := lit "kv_cache_append" in
  tK ← obj K_new; _ ← check_fp32_plain tK op (lit "K_new");
  tV ← obj V_new; _ ← check_fp32_plain tV op (lit "V_new");
  tKc ← obj K_cache; _ ← check_fp32_plain tKc op (lit "K_cache");
  tVc ← obj V_cache; _ ← check_fp32_plain tVc op (lit "V_cache");
  _ ← st_throw_if (negb (t_cols tK =? t_cols tV) || negb (t_cols tK =? t_cols tKc) || negb (t_cols tKc =? t_cols tVc))
        (lit "kv_cache_append: column mismatch");
  _ ← st_throw_if (negb (t_rows tK =? t_rows tV)) (lit "kv_cache_append: K_new/V_new row mismatch");
  _ ← st_throw_if (negb (t_rows tKc =? t_rows tVc)) (lit "kv_cache_append: K_cache/V_cache row mismatch");
  let L_new := t_rows tK in
  let L_max := t_rows tKc in
  let D := t_cols tK in
  let over := lit "kv_cache_append: cur_len + L_new exceeds cache capacity" in
  _ ← (if cur_len <? 0 then st_throw over
       else e ← int_of (cur_len + L_new); st_throw_if (e >? L_max) over);
  if (L_new =? 0) || (D =? 0) then mret tt
  else
    let n := L_new * D in
    let dst_off := cur_len * D in
    Kc ← T.host_f32_mut K_cache; Kn ← T.host_f32 K_new;
    _ ← copy_words (fptr Kc dst_off) Kn n;
    Vc ← T.host_f32_mut V_cache; Vn ← T.host_f32 V_new;
    copy_words (fptr Vc dst_off) Vn n.
End Ops.
End Rows.
