(* ===== verification/CpuRowsSpec.v ===== *)
(** * What the row kernels compute *)
From S2P Require Import Prelude Dtype Device Heap Runtime Tensor TensorSpec CpuBuf CpuExample CpuMove CpuMoveSpec CpuRows.
Import Cpu Move Rows.

Section Spec.
Context (rt : runtime) (Hlaw : forall t s, rt_slots rt t = Some s -> LawfulAlloc t (slot_alloc s)).
Context (F : gset positive).

Lemma operand_source w X t dt n b : operand w X t dt n -> apart (t_data t) b ->
  source (w_heap w) b (t_data t) n (words (w_heap w) (t_data t)).
Proof. intros (_ & _ & _ & H) Ha Hn. split; [by apply H|done]. Qed.

Lemma check_idx_ok t op w : t_dtype t = INT32 -> t_cols t = 1 -> check_idx t op w = (Ret tt, w).
Proof.
  intros Hd Hc. unfold check_idx. rewrite (st_bind_ret _ _ _ tt w) by (apply fail_if_false; by rewrite Hd).
  apply fail_if_false. by rewrite Hc.
Qed.

(** ** gather_rows and scatter_rows *)
Section Gather.
Context (w : world) (X Idx : positive) (tX tI : Tensor) (R M C : Z).
Context (I : inv rt F w) (HR : dim R) (HM : dim M) (HC : dim C).
Context (HX : operand w X tX FP32 (R * C)) (HXs : t_rows tX = R /\ t_cols tX = C).
Context (HI : operand w Idx tI INT32 M) (HIs : t_rows tI = M /\ t_cols tI = 1).
Let x := words (w_heap w) (t_data tX).
Let idx (m : Z) := i32 (words (w_heap w) (t_data tI) m).
Context (Hidx : forall m, 0 <= m < M -> 0 <= idx m < R).

Lemma gather_rows_runs Y tY : X <> Y -> Idx <> Y -> beside tX tY -> beside tI tY -> w_objs w !! Y = Some tY -> output tY ->
  outcome rt F w Y tY M C FP32
    (fun y => forall m c, 0 <= m < M -> 0 <= c < C -> y (m * C + c) = x (idx m * C + c))
    (gather_rows rt X Idx Y w).
Proof.
  intros Hne Hne' Hbes Hbes' HY Hout. pose proof HX as (HtX & Hdt & Hcpu & _). pose proof HI as (HtI & HdI & _).
  destruct HXs as [HXr HXc], HIs as [HIr HIc]. unfold dim in *. unfold gather_rows.
  rewrite (st_bind_ret _ _ _ tX w) by by apply obj_eq.
  rewrite (st_bind_ret _ _ _ tt w) by by apply check_fp32_ok.
  rewrite (st_bind_ret _ _ _ tI w) by by apply obj_eq.
  rewrite (st_bind_ret _ _ _ tt w) by by apply check_idx_ok.
  rewrite HXc, HIr. apply (kernel_spec rt Hlaw F w Y tY M C FP32); try done.
  - intros Hz. split; [intros; nia|]. intros w'. destruct (Z.eqb_spec M 0); [done|]. destruct (Z.eqb_spec C 0); [done|]. nia.
  - intros Hpos w' t' b L Hobjs Hp Hdt' Hcpu' Hu Hb HL d Hd.
    destruct (operand_after w w' X tX FP32 (R * C) Y tY t' b HX Hne Hbes Hobjs Hu Hb) as (Ht1 & Hx).
    destruct (operand_after w w' Idx tI INT32 M Y tY t' b HI Hne' Hbes' Hobjs Hu Hb) as (Ht2 & Hi).
    eexists. destruct (sets_value (w_heap w') (w_objs w') b d L (M * C)
      (for_ M (fun m => r ← read_i32 (fptr (t_data tI) m); copy_words (fptr (Some (b, 0)) (m * C)) (fptr (t_data tX) (r * C)) C))
      (fun k v => exists m, 0 <= m < M /\ exists c, 0 <= c < C /\ k = m * C + c /\ v = x (idx m * C + c))) as (ups & Hr & Hf).
    + loop m Hm. eapply sets_read_i32; [done|done|]. fold (idx m). pose proof (Hidx m Hm).
      apply (sets_copy _ _ _ _ _ _ Hd HL _ (R * C)); [done|nia..].
    + intros k v v' (m & Hm & c & Hc & -> & ->) (m' & Hm' & c' & Hc' & E & ->). by apply radix_inj in E as [-> ->].
    + exists ups. split; [|split; [exact Hr|]].
      * destruct (Z.eqb_spec M 0); [nia|]. destruct (Z.eqb_spec C 0); [nia|]. cbn [orb].
        rewrite (st_bind_ret _ _ _ (t_data tX) w') by by apply host_f32_ok.
        rewrite (st_bind_ret _ _ _ tI w') by by apply obj_eq.
        rewrite (st_bind_ret _ _ _ (t_data t') w'); [by rewrite Hp|].
        apply host_f32_ok; [by rewrite Hobjs, lookup_insert, decide_True|done..].
      * intros f _ m c Hm Hc. apply Hf. exists m. split; [done|]. by exists c.
  - intros f g Hfg Hf m c Hm Hc. rewrite <- Hfg by by apply radix_bound. by apply Hf.
Qed.
End Gather.

(** The rows that name [r], in order. *)
Definition naming (idx : Z -> Z) (M r : Z) : list Z := filter (fun m => idx m = r) (seqZ 0 M).

Lemma hits_row_each idx M C (ups : Z -> updates) (g : Z -> Z -> Z) r c : 0 <= c < C ->
  (forall m, hits (r * C + c) (ups m) = if decide (idx m = r) then [g m] else []) ->
  hits (r * C + c) (seqZ 0 M ≫= ups) = g <$> naming idx M r.
Proof. intros Hc H. rewrite hits_bind. unfold naming. rewrite <- bind_filter. apply bind_ext. intros m _. apply H. Qed.

(** A row of words set by a copy, and by a loop over the columns. *)
Lemma hits_copy q j C r c f : 0 <= c < C -> hits (r * C + c) (row_updates (q * C) (j * C) C f) = if decide (q = r) then [fun _ => f (j * C + c)] else [].
Proof.
  intros Hc. destruct (decide (q = r)) as [->|Hne].
  - assert (E : row_updates (r * C) (j * C) C f = seqZ 0 C ≫= fun i => [(r * C + i, fun _ : Z => f (j * C + i))]).
    { unfold row_updates. generalize (seqZ 0 C). intros l. induction l as [|a l IH]; [done|]. cbn. by rewrite IH. }
    rewrite E, hits_bind, (bind_only _ _ c); [by rewrite hits_single, decide_True|apply NoDup_seqZ|apply elem_of_seqZ; lia|].
    intros i _ Hi. rewrite hits_single, decide_False; [done|lia].
  - apply hits_none. intros g (i & [= E _] & Hi%elem_of_seqZ)%list_elem_of_fmap. apply Hne.
    symmetry. apply (radix_inj r q c i C); lia.
Qed.

Lemma hits_add q j C r c (h : Z -> Z -> Z) : 0 <= c < C ->
  hits (r * C + c) (seqZ 0 C ≫= fun i => [(q * C + i, h (j * C + i))]) = if decide (q = r) then [h (j * C + c)] else [].
Proof.
  intros Hc. rewrite hits_bind. destruct (decide (q = r)) as [->|Hne].
  - rewrite (bind_only _ _ c); [by rewrite hits_single, decide_True|apply NoDup_seqZ|apply elem_of_seqZ; lia|].
    intros i _ Hi. rewrite hits_single, decide_False; [done|lia].
  - apply bind_none. intros i Hi%elem_of_seqZ. rewrite hits_single, decide_False; [done|]. intros E. apply Hne.
    symmetry. apply (radix_inj r q c i C); lia.
Qed.

Section Scatter.
Context (w : world) (Y Idx : positive) (tY tI : Tensor) (R M C : Z).
Context (I : inv rt F w) (HR : dim R) (HM : dim M) (HC : dim C).
Context (HY : operand w Y tY FP32 (M * C)) (HYs : t_rows tY = M /\ t_cols tY = C).
Context (HI : operand w Idx tI INT32 M) (HIs : t_rows tI = M /\ t_cols tI = 1).
Let y := words (w_heap w) (t_data tY).
Let idx (m : Z) := i32 (words (w_heap w) (t_data tI) m).
Context (Hidx : forall m, 0 <= m < M -> 0 <= idx m < R).

Lemma scatter_rows_runs X tX : X <> Y -> X <> Idx -> beside tY tX -> beside tI tX ->
  w_objs w !! X = Some tX -> t_owns tX = true -> t_device tX = Dev.CPU0 -> t_dtype tX = FP32 -> t_rows tX = R -> t_cols tX = C ->
  exists h, scatter_rows Y Idx X w = (Ret tt, with_heap w h) /\ inv rt F (with_heap w h) /\ untouched tX (w_heap w) h /\
    forall r c, 0 <= r < R -> 0 <= c < C ->
      words h (t_data tX) (r * C + c) =
        foldl (fun _ m => y (m * C + c)) (words (w_heap w) (t_data tX) (r * C + c)) (naming idx M r).
Proof.
  intros Hne Hne' Hbes Hbes' HtX Hown HcpuX HdX HXr HXc. pose proof HY as (HtY & Hdt & Hcpu & _). pose proof HI as (HtI & HdI & _).
  destruct HYs as [HYr HYc], HIs as [HIr HIc]. unfold dim in *. unfold scatter_rows.
  rewrite (st_bind_ret _ _ _ tY w) by by apply obj_eq.
  rewrite (st_bind_ret _ _ _ tt w) by by apply check_fp32_ok.
  rewrite (st_bind_ret _ _ _ tI w) by by apply obj_eq.
  rewrite (st_bind_ret _ _ _ tt w) by by apply check_idx_ok.
  rewrite (st_bind_ret _ _ _ tt w) by (apply fail_if_false; by rewrite HYr, HIr, Z.eqb_refl).
  rewrite (st_bind_ret _ _ _ tX w) by by apply obj_eq.
  rewrite (st_bind_ret _ _ _ tt w) by (apply fail_if_false; by rewrite HdX).
  rewrite (st_bind_ret _ _ _ tt w) by (apply fail_if_false; by rewrite HXc, HYc, Z.eqb_refl).
  rewrite HIr, HYc.
  assert (Hsize : 4 * (R * C) <= size_of tX).
  { pose proof (size_words tX R C FP32 ltac:(done) HR HC) as E. rewrite <- HXr, <- HXc, <- HdX, set_shape_id in E. rewrite HXr, HXc in E. lia. }
  destruct (Z.eqb_spec M 0) as [EM|EM]; [|destruct (Z.eqb_spec C 0) as [EC|EC]]; cbn [orb].
  1, 2: exists (w_heap w); rewrite with_heap_id; repeat (split; [done|]); intros r c Hr Hc;
    [unfold naming; by rewrite EM || lia].
  destruct (inplace_spec rt F w X tX (R * C)
    (Yp ← T.host_f32 Y; tI0 ← obj Idx; Xp ← T.host_f32_mut X;
     for_ M (fun m => r ← read_i32 (fptr (t_data tI0) m); copy_words (fptr Xp (r * C)) (fptr Yp (m * C)) C))
    (fun old new => forall r c, 0 <= r < R -> 0 <= c < C ->
      new (r * C + c) = foldl (fun _ m => y (m * C + c)) (old (r * C + c)) (naming idx M r)))
    as (h & E & I2 & Hu & _ & Hg); try done.
  - intros b d L Hp Hb Hd HL. exists (seqZ 0 M ≫= fun m => row_updates (idx m * C) (m * C) C y). split.
    + apply (runs_host _ _ _ _ _ _ _ Y tY); [done..|]. apply (runs_obj _ _ _ _ _ _ Idx tI); [done|].
      apply (runs_host _ _ _ _ _ _ _ X tX); [done..|]. rewrite Hp.
      apply runs_for; [done..|]. intros m Hm.
      eapply runs_read_i32; [eapply operand_source; [done|by apply Hbes']|done|]. fold (idx m). pose proof (Hidx m Hm).
      apply (runs_copy _ _ _ _ _ _ Hd HL _ (M * C)); [eapply operand_source; [done|by apply Hbes]|nia..].
    + intros f _ r c Hr Hc. rewrite apply_hits, (hits_row_each idx M C _ (fun m _ => y (m * C + c))); [by rewrite foldl_fmap|done|].
      intros m. by apply hits_copy.
  - intros f g g' Hg Hf r c Hr Hc. rewrite <- Hg by by apply radix_bound. by apply Hf.
  - exists h. done.
Qed.
End Scatter.
Lemma foldl_same {A B} (f : B -> A) (a : A) (l : list B) : (forall x, x ∈ l -> f x = a) -> foldl (fun _ x => f x) a l = a.
Proof. induction l as [|x l IH]; intros H; [done|]. cbn. rewrite H by left. apply IH. intros y Hy. apply H. by right. Qed.

(** An operand that is not the output after a kernel. *)
Lemma table_kept w w' X t dt n Y tY t' : operand w X t dt n -> X <> Y -> beside t tY ->
  w_objs w' = <[Y := t']> (w_objs w) -> untouched tY (w_heap w) (w_heap w') ->
  operand w' X t dt n /\ (0 < n -> forall i, words (w_heap w') (t_data t) i = words (w_heap w) (t_data t) i).
Proof.
  intros (Ht & Hdt & Hcpu & Hw) Hne Hbes Hobjs Hu.
  assert (Hsame : 0 < n -> host_words (w_heap w') (t_data t) n /\ forall i, words (w_heap w') (t_data t) i = words (w_heap w) (t_data t) i).
  { intros Hn0. destruct (Hw Hn0) as (sb & off & blk & Ep & Hsb & Hty & Ho & Hn).
    assert (Hsb' : w_heap w' !! sb = Some blk).
    { rewrite Hu; [done|by eexists|]. intros Hown. apply (Hbes sb Hown). by rewrite Ep. }
    split; [by exists sb, off, blk|]. intros i. unfold words. rewrite Ep. cbn. by rewrite Hsb, Hsb'. }
  split; [split; [by rewrite Hobjs, lookup_insert_ne|]; split; [done|split; [done|]]; intros Hn; by apply Hsame|].
  intros Hn. by apply Hsame.
Qed.

(** Gathering rows by an index tensor and scattering them back to the same
    indices leaves the source as it was, bit for bit: also with repeated
    indices, negative zeros and NaNs. Neither call has undefined behaviour as
    long as the indices are rows of the source. *)
Theorem gather_scatter_identity w X Idx Y tX tI tY R M C :
  inv rt F w -> dim R -> dim M -> dim C ->
  operand w X tX FP32 (R * C) -> t_owns tX = true -> t_rows tX = R -> t_cols tX = C ->
  operand w Idx tI INT32 M -> t_rows tI = M -> t_cols tI = 1 -> beside tI tX ->
  (forall m, 0 <= m < M -> 0 <= i32 (words (w_heap w) (t_data tI) m) < R) ->
  w_objs w !! Y = Some tY -> output tY -> X <> Y -> Idx <> Y -> X <> Idx -> beside tX tY -> beside tI tY ->
  safely rt F (_ ← gather_rows rt X Idx Y; scatter_rows Y Idx X)
    (fun w2 => inv rt F w2 /\ forall i, 0 <= i < R * C -> words (w_heap w2) (t_data tX) i = words (w_heap w) (t_data tX) i) w.
Proof.
  intros I HR HM HC HX Hown HXr HXc HI HIr HIc HIX Hidx HY Hout Hne Hne' Hne2 Hbes Hbes'.
  pose proof (gather_rows_runs w X Idx tX tI R M C I HR HM HC HX (conj HXr HXc) HI (conj HIr HIc) Hidx Y tY Hne Hne' Hbes Hbes' HY Hout) as H1.
  unfold safely. destruct (gather_rows rt X Idx Y w) as [[[]|e|] w1] eqn:Eg; [|rewrite (st_bind_throw _ _ _ _ _ Eg); apply H1|done].
  rewrite (st_bind_ret _ _ _ _ _ Eg).
  pose proof H1 as (t1 & Hobjs & I1 & Hu & Hout1 & Hr1 & Hc1 & Hd1 & Hw1 & Hb1 & Hg).
  destruct (table_kept w w1 X tX FP32 (R * C) Y tY t1 HX Hne Hbes Hobjs Hu) as [HX1 HXw].
  destruct (table_kept w w1 Idx tI INT32 M Y tY t1 HI Hne' Hbes' Hobjs Hu) as [HI1 HIw].
  pose proof HX as (_ & HdX & HcpuX & _).
  assert (HY1 : w_objs w1 !! Y = Some t1) by by rewrite Hobjs, lookup_insert, decide_True.
  assert (Hbes1 : beside t1 tX).
  { intros b Hb Hab. destruct Hout1 as (_ & _ & [Ho|[Hn _]]); [|by rewrite Hn in Hab].
    apply Hne. symmetry. apply (wf_uniq _ _ _ _ (proj1 I1) Y X t1 tX b); try done; [apply HX1|]. unfold owned_block. by rewrite Ho. }
  assert (HopY : operand w1 Y t1 FP32 (M * C)) by (split; [done|split; [done|split; [apply Hout1|done]]]).
  destruct (scatter_rows_runs w1 Y Idx t1 tI R M C I1 HR HM HC HopY (conj Hr1 Hc1) HI1 (conj HIr HIc)) with (X := X) (tX := tX)
    as (h & E & I2 & _ & Hh); try done.
  { intros m Hm. unfold dim in *. rewrite HIw by lia. by apply Hidx. }
  { apply HX1. }
  rewrite E. split; [done|]. intros i Hi.
  destruct (radix_decode i R C) as (r & c & Hr & Hc & ->); [apply HC|done|]. rewrite Hh by done.
  unfold dim in *. rewrite HXw by nia.
  assert (Hall : forall m, m ∈ naming (fun m => i32 (words (w_heap w1) (t_data tI) m)) M r ->
    words (w_heap w1) (t_data t1) (m * C + c) = words (w_heap w) (t_data tX) (r * C + c)).
  { intros m [Hm Hin%elem_of_seqZ]%list_elem_of_filter. rewrite HIw in Hm by lia. rewrite Hg by lia. by rewrite Hm. }
  by apply foldl_same.
Qed.

(** ** scatter_rows_add *)
Section ScatterAdd.
Context (fadd : Z -> Z -> Z) (Hadd : forall a b, is_word a -> is_word b -> is_word (fadd a b)).

(** C29: [scatter_rows_add] is the adjoint of [gather_rows]: row [r] of [dX] is
    the sum, added to zero in the order of the index tensor, of the rows of
    [dY] whose index is [r]; a row nobody names is zero. Repeated indices
    accumulate and nothing is lost. *)
Theorem scatter_rows_add_sums w dY Idx dX tdY tI tdX R M C :
  inv rt F w -> dim R -> dim M -> dim C ->
  operand w dY tdY FP32 (M * C) -> t_rows tdY = M -> t_cols tdY = C ->
  operand w Idx tI INT32 M -> t_rows tI = M -> t_cols tI = 1 ->
  (forall m, 0 <= m < M -> 0 <= i32 (words (w_heap w) (t_data tI) m) < R) ->
  dY <> dX -> Idx <> dX -> beside tdY tdX -> beside tI tdX -> w_objs w !! dX = Some tdX -> output tdX ->
  let dy := words (w_heap w) (t_data tdY) in
  let idx m := i32 (words (w_heap w) (t_data tI) m) in
  outcome rt F w dX tdX R C FP32
    (fun dx => forall r c, 0 <= r < R -> 0 <= c < C ->
       dx (r * C + c) = foldl (fun a m => fadd a (dy (m * C + c))) 0 (naming idx M r))
    (scatter_rows_add rt fadd dY Idx R dX w).
Proof.
  intros I HR HM HC HX HXr HXc HI HIr HIc Hidx Hne Hne' Hbes Hbes' HY Hout dy idx.
  pose proof HX as (HtX & Hdt & Hcpu & _). pose proof HI as (HtI & HdI & _). unfold dim in *. unfold scatter_rows_add.
  rewrite (st_bind_ret _ _ _ tdY w) by by apply obj_eq.
  rewrite (st_bind_ret _ _ _ tt w) by by apply check_fp32_ok.
  rewrite (st_bind_ret _ _ _ tI w) by by apply obj_eq.
  rewrite (st_bind_ret _ _ _ tt w) by by apply check_idx_ok.
  rewrite (st_bind_ret _ _ _ tt w) by (apply fail_if_false; lia).
  rewrite (st_bind_ret _ _ _ tt w) by (apply fail_if_false; by rewrite HXr, HIr, Z.eqb_refl).
  rewrite HXc, HIr. apply (kernel_spec rt Hlaw F w dX tdX R C FP32); try done.
  - intros Hz. split; [intros; nia|]. intros w'. destruct (Z.eqb_spec R 0); [done|]. destruct (Z.eqb_spec C 0); [done|]. nia.
  - intros Hpos w' t' b L Hobjs Hp Hdt' Hcpu' Hu Hb HL d Hd.
    destruct (operand_after w w' dY tdY FP32 (M * C) dX tdX t' b HX Hne Hbes Hobjs Hu Hb) as (Ht1 & Hx).
    destruct (operand_after w w' Idx tI INT32 M dX tdX t' b HI Hne' Hbes' Hobjs Hu Hb) as (Ht2 & Hi).
    destruct (Z.eqb_spec R 0); [nia|]. destruct (Z.eqb_spec C 0); [nia|]. cbn [orb].
    assert (Hz : sets (w_heap w') (w_objs w') b d L (R * C) (for_ (R * C) (fun i => write_word (fptr (Some (b, 0)) i) 0))
      (fun k v => exists i, 0 <= i < R * C /\ k = i /\ v = 0)) by (loop i Hii; by apply sets_write).
    destruct (sets_value _ _ _ _ _ _ _ _ Hz) as (zs & Hzs & Hz0).
    { by intros k v v' (i & Hii & -> & ->) (i' & Hi' & -> & ->). }
    eexists. exists (zs ++ (seqZ 0 M ≫= fun m => seqZ 0 C ≫= fun c => [(idx m * C + c, fun a => fadd a (dy (m * C + c)))])).
    split; [reflexivity|]. split.
    + apply (runs_host _ _ _ _ _ _ _ dY tdY); [done..|]. apply (runs_obj _ _ _ _ _ _ Idx tI); [done|].
      apply (runs_host _ _ _ _ _ _ _ dX t'); [by rewrite Hobjs, lookup_insert, decide_True|done..|]. rewrite Hp.
      apply runs_bind; [done|]. apply runs_for; [done..|]. intros m Hm. eapply runs_read_i32; [done|done|]. fold (idx m).
      pose proof (Hidx m Hm). fold (idx m) in *. apply runs_for; [done..|]. intros c Hc. rewrite !fptr_fptr.
      pose proof (radix_bound m M c C Hm Hc). pose proof (radix_bound (idx m) R c C ltac:(done) Hc).
      eapply runs_read; [done|lia|]. apply runs_modify; [done..|lia|]. intros a Ha. apply Hadd; [done|]. eapply source_word; [done|lia].
    + intros f _ r c Hr Hc. rewrite apply_app, apply_hits. rewrite (proj1 (Hz0 f) _ 0).
      2:{ exists (r * C + c). split; [by apply radix_bound|done]. }
      rewrite (hits_row_each idx M C _ (fun m a => fadd a (dy (m * C + c)))); [by rewrite foldl_fmap|done|].
      intros m. by apply (hits_add (idx m) m C r c (fun k a => fadd a (dy k))).
  - intros f g Hfg Hf r c Hr Hc. rewrite <- Hfg by by apply radix_bound. by apply Hf.
Qed.
End ScatterAdd.

(** ** kv_cache_append *)

(** Words [k .. k + m) come from [f], the others are as before. *)
Definition rows_set (k m : Z) (f old new : Z -> Z) (n : Z) : Prop :=
  forall i, 0 <= i < n -> new i = if (k <=? i) && (i <? k + m) then f (i - k) else old i.

Lemma words_same h h' p b off i : p = Some (b, off) -> h' !! b = h !! b -> words h' p i = words h p i.
Proof. intros -> E. unfold words. cbn. by rewrite E. Qed.

(** One of the two copies. *)
Lemma append_one w S C tS tC m k n : inv rt F w -> operand w S tS FP32 m -> S <> C -> beside tS tC ->
  w_objs w !! C = Some tC -> t_owns tC = true -> t_device tC = Dev.CPU0 -> t_dtype tC = FP32 -> 4 * n <= size_of tC ->
  0 < m -> 0 <= k -> k + m <= n ->
  exists h, (Cp ← T.host_f32_mut C; Sp ← T.host_f32 S; copy_words (fptr Cp k) Sp m) w = (Ret tt, with_heap w h) /\
    inv rt F (with_heap w h) /\ untouched tC (w_heap w) h /\
    rows_set k m (words (w_heap w) (t_data tS)) (words (w_heap w) (t_data tC)) (words h (t_data tC)) n.
Proof.
  intros I HS Hne Hbes HC Ho Hcpu Hdt Hsz Hm Hk Hkm. pose proof HS as (HtS & HdS & HcpuS & _).
  destruct (inplace_spec rt F w C tC n (Cp ← T.host_f32_mut C; Sp ← T.host_f32 S; copy_words (fptr Cp k) Sp m)
    (fun old new => rows_set k m (words (w_heap w) (t_data tS)) old new n)) as (h & E & I2 & Hu & _ & Hg); try done.
  - intros b d L Hp Hb Hd HL. exists (row_updates k 0 m (words (w_heap w) (t_data tS))). split.
    + apply (runs_host _ _ _ _ _ _ _ C tC); [done..|]. apply (runs_host _ _ _ _ _ _ _ S tS); [done..|]. rewrite Hp.
      replace (copy_words (fptr (Some (b, 0)) k) (t_data tS) m) with (copy_words (fptr (Some (b, 0)) k) (fptr (t_data tS) 0) m) by by rewrite fptr_0.
      apply (runs_copy _ _ _ _ _ _ Hd HL _ m); [eapply operand_source; [done|by apply Hbes]|lia..].
    + intros f _ i Hi. by rewrite apply_row.
  - intros f g g' Hg Hf i Hi. rewrite <- Hg by done. by apply Hf.
  - by exists h.
Qed.

(** [kv_cache_append] with room for the new rows writes exactly rows
    [cur_len .. cur_len + L_new) of both caches, from [K_new] and [V_new], and
    leaves every other row, every other tensor and the allocator alone; without
    room it throws before it writes anything. *)
Theorem kv_cache_append_writes_slice w Kn Vn Kc Vc tKn tVn tKc tVc cur L Lmax D :
  inv rt F w -> is_int cur -> dim L -> dim Lmax -> dim D ->
  operand w Kn tKn FP32 (L * D) -> t_rows tKn = L -> t_cols tKn = D ->
  operand w Vn tVn FP32 (L * D) -> t_rows tVn = L -> t_cols tVn = D ->
  w_objs w !! Kc = Some tKc -> t_owns tKc = true -> t_device tKc = Dev.CPU0 -> t_dtype tKc = FP32 -> t_rows tKc = Lmax -> t_cols tKc = D ->
  w_objs w !! Vc = Some tVc -> t_owns tVc = true -> t_device tVc = Dev.CPU0 -> t_dtype tVc = FP32 -> t_rows tVc = Lmax -> t_cols tVc = D ->
  Kc <> Vc -> Kn <> Kc -> Vn <> Kc -> Vn <> Vc -> beside tKn tKc -> beside tVn tKc -> beside tVn tVc ->
  cur + L <= INT_MAX ->
  if (0 <=? cur) && (cur + L <=? Lmax) then
    exists h, kv_cache_append Kn Vn cur Kc Vc w = (Ret tt, with_heap w h) /\ inv rt F (with_heap w h) /\
      rows_set (cur * D) (L * D) (words (w_heap w) (t_data tKn)) (words (w_heap w) (t_data tKc)) (words h (t_data tKc)) (Lmax * D) /\
      rows_set (cur * D) (L * D) (words (w_heap w) (t_data tVn)) (words (w_heap w) (t_data tVc)) (words h (t_data tVc)) (Lmax * D) /\
      forall b, is_Some (w_heap w !! b) -> owned_block tKc <> Some b -> owned_block tVc <> Some b -> h !! b = w_heap w !! b
  else exists e, kv_cache_append Kn Vn cur Kc Vc w = (Throw e, w).
Proof.
  intros I Hcur HL HLm HD HKn HKr HKc HVn HVr HVc HtKc HoK HcK HdK HrK HkK HtVc HoV HcV HdV HrV HkV Hne H1 H2 H3 Hb1 Hb2 Hb3 Hint.
  pose proof HKn as (HtKn & HdKn & _). pose proof HVn as (HtVn & HdVn & _). unfold kv_cache_append.
  rewrite (st_bind_ret _ _ _ tKn w) by by apply obj_eq. rewrite (st_bind_ret _ _ _ tt w) by (unfold check_fp32_plain; by rewrite HdKn).
  rewrite (st_bind_ret _ _ _ tVn w) by by apply obj_eq. rewrite (st_bind_ret _ _ _ tt w) by (unfold check_fp32_plain; by rewrite HdVn).
  rewrite (st_bind_ret _ _ _ tKc w) by by apply obj_eq. rewrite (st_bind_ret _ _ _ tt w) by (unfold check_fp32_plain; by rewrite HdK).
  rewrite (st_bind_ret _ _ _ tVc w) by by apply obj_eq. rewrite (st_bind_ret _ _ _ tt w) by (unfold check_fp32_plain; by rewrite HdV).
  rewrite HKr, HKc, HVr, HVc, HrK, HkK, HrV, HkV. unfold dim in *.
  do 3 (rewrite (st_bind_ret _ _ _ tt w) by (apply st_throw_if_false; by rewrite !Z.eqb_refl)).
  destruct (Z.leb_spec 0 cur) as [Hc0|Hc0]; cbn [andb].
  2:{ rewrite (proj2 (Z.ltb_lt _ _)) by lia. eexists. by apply st_bind_throw. }
  rewrite (proj2 (Z.ltb_ge cur 0)) by lia.
  assert (Ei : int_of (cur + L) w = (Ret (cur + L), w)) by (apply int_of_dim; split; lia).
  destruct (Z.leb_spec (cur + L) Lmax) as [Hfit|Hfit].
  2:{ eexists. apply st_bind_throw. rewrite (st_bind_ret _ _ _ _ _ Ei). rewrite Z.gtb_ltb, (proj2 (Z.ltb_lt _ _)) by lia. done. }
  rewrite (st_bind_ret _ _ _ tt w).
  2:{ rewrite (st_bind_ret _ _ _ _ _ Ei). apply st_throw_if_false. rewrite Z.gtb_ltb. apply Z.ltb_ge. lia. }
  assert (Hsize : forall t, t_rows t = Lmax -> t_cols t = D -> t_dtype t = FP32 -> 4 * (Lmax * D) <= size_of t).
  { intros t Hr Hc Hd. pose proof (size_words t Lmax D FP32 ltac:(done) HLm HD) as E.
    rewrite <- Hr, <- Hc, <- Hd, set_shape_id in E. rewrite Hr, Hc in E. lia. }
  destruct ((L =? 0) || (D =? 0)) eqn:Estop.
  { exists (w_heap w). rewrite with_heap_id. split; [done|]. split; [done|].
    assert (Hz : L * D = 0) by (apply orb_true_iff in Estop as [E|E]; apply Z.eqb_eq in E; subst; lia). rewrite Hz.
    split; [|split; [|done]]; intros i Hi; case_match; bool_facts; done || lia. }
  bool_facts. assert (0 < L * D) by (apply Z.mul_pos_pos; lia). assert (cur * D + L * D <= Lmax * D) by nia.
  destruct (append_one w Kn Kc tKn tKc (L * D) (cur * D) (Lmax * D) I HKn H1 Hb1 HtKc HoK HcK HdK) as (h1 & E1 & I1 & Hu1 & Hs1);
    [by apply Hsize|lia..|].
  assert (Huv : forall b, owned_block tVc = Some b -> owned_block tKc <> Some b).
  { intros b Hv Hk. apply Hne. by apply (wf_uniq _ _ _ _ (proj1 I) Kc Vc tKc tVc b). }
  assert (HVn1 : operand (with_heap w h1) Vn tVn FP32 (L * D) /\
    (0 < L * D -> forall i, words h1 (t_data tVn) i = words (w_heap w) (t_data tVn) i)).
  { apply (table_kept w (with_heap w h1) Vn tVn FP32 (L * D) Kc tKc tKc); try done. cbn. by rewrite insert_id. }
  destruct HVn1 as [HVn1 HVw].
  destruct (append_one (with_heap w h1) Vn Vc tVn tVc (L * D) (cur * D) (Lmax * D) I1 HVn1 H3 Hb3 HtVc HoV HcV HdV) as (h2 & E2 & I2 & Hu2 & Hs2);
    [by apply Hsize|lia..|].
  exists h2. split.
  { unfold mbind, st_bind in *. destruct (T.host_f32_mut Kc w) as [[p|e|] w1]; try done.
    destruct (T.host_f32 Kn w1) as [[q|e|] w2]; try done. rewrite E1. done. }
  assert (HszK : 4 * (Lmax * D) <= size_of tKc) by by apply Hsize.
  assert (HszV : 4 * (Lmax * D) <= size_of tVc) by by apply Hsize.
  destruct (owned_at rt F w Kc tKc (Lmax * D) I HtKc HoK) as (bK & blkK & EpK & HbK & HlK & _); [by apply (owned_words rt F w Kc)|].
  destruct (owned_at rt F w Vc tVc (Lmax * D) I HtVc HoV) as (bV & blkV & EpV & HbV & HlV & _); [by apply (owned_words rt F w Vc)|].
  assert (HsV : h1 !! bV = w_heap w !! bV) by (apply Hu1; [by eexists|by apply Huv]).
  assert (HbKV : bK <> bV) by (intros ->; by apply (Huv bV)).
  assert (HsK : h2 !! bK = h1 !! bK).
  { destruct (wf_heap rt _ _ _ (proj1 I1) bK) as [_ Hl]. apply Hu2; [|congruence]. apply Hl. right. by exists Kc, tKc. }
  split; [done|]. split; [|split].
  - intros i Hi. rewrite <- Hs1 by done. by apply (words_same _ _ _ bK 0).
  - intros i Hi. rewrite Hs2 by done. case_match eqn:Ei'; bool_facts; [apply HVw; lia|]. by apply (words_same _ _ _ bV 0).
  - intros b Hb Hk Hv. rewrite <- (Hu1 b Hb Hk). apply Hu2; [|done]. cbn. by rewrite (Hu1 b Hb Hk).
Qed.

(** ** concat_batched_rows *)
Section Concat.
Context (w : world) (I : inv rt F w) (out : positive) (tO : Tensor) (HO : w_objs w !! out = Some tO) (Hout : output tO).
Context (B : Z) (HB : dim B).

(** A part: null, or a host FP32 tensor of [B] rows beside the output. *)
Definition part_ok (p : option positive) : Prop :=
  match p with
  | None => True
  | Some id => exists t, operand w id t FP32 (B * t_cols t) /\ t_rows t = B /\ dim (t_cols t) /\ id <> out /\ beside t tO
  end.

(** The parts' tensors with the columns they start at. *)
Fixpoint laid (parts : list (option positive)) (off : Z) : list (Tensor * Z) :=
  match parts with
  | [] => []
  | None :: r => laid r off
  | Some id :: r => match w_objs w !! id with Some t => (t, off) :: laid r (off + t_cols t) | None => [] end
  end.

Definition total_cols (l : list (Tensor * Z)) : Z := foldr (fun u a => t_cols u.1 + a) 0 l.

Lemma laid_total_cons t o l : total_cols ((t, o) :: l) = t_cols t + total_cols l.
Proof. done. Qed.

Lemma total_laid parts off off' : total_cols (laid parts off) = total_cols (laid parts off').
Proof.
  revert off off'. induction parts as [|[id|] r IH]; intros off off'; cbn; [done| |apply IH].
  destruct (w_objs w !! id); [|done]. cbn. by rewrite (IH _ (off' + t_cols t)).
Qed.

Lemma laid_total_nonneg parts off : Forall part_ok parts -> 0 <= total_cols (laid parts off).
Proof.
  revert off. induction parts as [|[id|] r IH]; intros off H; apply Forall_cons in H as [Hp H] || done; [|by apply IH].
  destruct Hp as (t & (Ht & _) & _ & Hd & _). cbn. rewrite Ht. cbn. pose proof (IH (off + t_cols t) H) as Hi. unfold dim, total_cols in *. lia.
Qed.

Lemma concat_sizes_ok parts B0 acc : Forall part_ok parts -> (B0 = 0 \/ B0 = B) -> 0 <= acc ->
  acc + total_cols (laid parts 0) <= INT_MAX ->
  exists B1, concat_sizes parts B0 acc w = (Ret (B1, acc + total_cols (laid parts 0)), w) /\
    (B1 = B0 /\ laid parts 0 = [] \/ B1 = B).
Proof.
  revert B0 acc. induction parts as [|[id|] r IH]; intros B0 acc H HB0 Hacc Hmax.
  - exists B0. cbn in *. rewrite Z.add_0_r. split; [done|by left].
  - apply Forall_cons in H as [(t & (Ht & _) & Hr & Hd & _) H]. cbn [concat_sizes laid] in *. rewrite Ht in *. rewrite laid_total_cons in *.
    rewrite (total_laid r (0 + t_cols t) 0) in Hmax. rewrite (total_laid r (0 + t_cols t) 0).
    pose proof (laid_total_nonneg r 0 H). unfold dim in Hd. rewrite (st_bind_ret _ _ _ t w) by by apply obj_eq.
    rewrite (st_bind_ret _ _ _ _ w (int_of_dim (acc + t_cols t) w ltac:(split; lia))).
    destruct (IH (if B0 =? 0 then t_rows t else B0) (acc + t_cols t) H) as (B1 & E & HB1); [|lia..|].
    { right. destruct (Z.eqb_spec B0 0); [done|]. by destruct HB0. }
    exists B1. rewrite E. split; [by rewrite Z.add_assoc|]. right. destruct HB1 as [[-> _]|]; [|done].
    destruct (Z.eqb_spec B0 0); [done|]. by destruct HB0.
  - apply Forall_cons in H as [_ H]. by apply IH.
Qed.

(** The columns of each part of the output. *)
Definition part_set (l : list (Tensor * Z)) (total k v : Z) : Prop :=
  exists t off, (t, off) ∈ l /\ exists b, 0 <= b < B /\ exists j, 0 <= j < t_cols t /\
    k = b * total + off + j /\ v = words (w_heap w) (t_data t) (b * t_cols t + j).

Lemma concat_copy_sets w' t' bl d L total parts off : Forall part_ok parts -> 0 <= off -> off + total_cols (laid parts off) <= total ->
  w_objs w' = <[out := t']> (w_objs w) -> untouched tO (w_heap w) (w_heap w') ->
  owned_block tO = Some bl \/ w_heap w !! bl = None -> dev_type d = CPU -> 4 * (B * total) <= L ->
  sets (w_heap w') (w_objs w') bl d L (B * total) (concat_copy parts (Some (bl, 0)) B total off) (part_set (laid parts off) total).
Proof.
  intros Hparts Hoff Htot Hobjs Hu Hb Hd HL. revert off Hoff Htot.
  induction parts as [|[id|] r IH]; intros off Hoff Htot.
  - eapply sets_eq; [apply sets_ret|]. intros k v. split; [done|]. intros (t & o & Hin & _). by apply elem_of_nil in Hin.
  - apply Forall_cons in Hparts as [(t & Hop & Hr & Hdim & Hne & Hbes) Hparts].
    pose proof Hop as (Ht & HdtF & HcpuF & _). cbn [concat_copy laid]. cbn [laid] in Htot. rewrite Ht in *. rewrite laid_total_cons in Htot.
    destruct (operand_after w w' id t FP32 _ out tO t' bl Hop Hne Hbes Hobjs Hu Hb) as (Ht1 & Hx).
    pose proof (laid_total_nonneg r (off + t_cols t) Hparts). unfold dim in *. apply (sets_obj _ _ _ _ _ _ id t); [done|].
    destruct (Z.eqb_spec (t_cols t) 0) as [E|E].
    { eapply sets_eq; [apply IH; [done|lia|]|].
      - rewrite <- (Z.add_0_r off) at 2. rewrite <- E at 1. lia.
      - rewrite E, Z.add_0_r. intros k v. split; intros (u & o & Hin & b & Hbb & j & Hj & H'); exists u, o.
        + split; [by right|]. exists b. split; [done|]. by exists j.
        + apply elem_of_cons in Hin as [[= -> ->]|Hin]; [lia|]. split; [done|]. exists b. split; [done|]. by exists j. }
    apply (sets_host _ _ _ _ _ _ _ id t); [done..|].
    eapply sets_eq; [apply sets_bind; [|apply IH; [done|lia..]]|].
    + loop b Hbb. loop j Hj. rewrite !fptr_fptr. pose proof (radix_bound b B j (t_cols t) Hbb Hj).
      pose proof (radix_bound b B (off + j) total Hbb ltac:(lia)).
      eapply sets_read; [done|lia|]. apply sets_write; [done..|lia|eapply source_word; [done|lia]].
    + intros k v. split.
      * intros [(b & Hbb & j & Hj & -> & ->)|(u & o & Hin & H')]; [exists t, off|exists u, o; split; [by right|done]].
        split; [left|]. exists b. split; [done|]. exists j. done.
      * intros (u & o & [[= -> ->]|Hin]%elem_of_cons & b & Hbb & j & Hj & H'); [left|right].
        -- exists b. split; [done|]. by exists j.
        -- exists u, o. split; [done|]. exists b. split; [done|]. by exists j.
  - apply Forall_cons in Hparts as [_ Hparts]. by apply IH.
Qed.

(** The parts' columns do not overlap. *)
Lemma laid_range parts off t o : Forall part_ok parts -> (t, o) ∈ laid parts off -> 0 <= t_cols t /\ off <= o /\ o + t_cols t <= off + total_cols (laid parts off).
Proof.
  revert off. induction parts as [|[id|] r IH]; intros off H Hin; [by apply elem_of_nil in Hin| |].
  - apply Forall_cons in H as [(u & (Hu & _) & _ & Hd & _) H]. cbn [laid] in *. rewrite Hu in *. rewrite laid_total_cons.
    pose proof (laid_total_nonneg r (off + t_cols u) H). unfold dim in Hd.
    apply elem_of_cons in Hin as [[= -> ->]|Hin]; [lia|]. destruct (IH _ H Hin) as (? & ? & ?). lia.
  - apply Forall_cons in H as [_ H]. by apply IH.
Qed.

Lemma laid_apart parts off t o t' o' j j' : Forall part_ok parts -> (t, o) ∈ laid parts off -> (t', o') ∈ laid parts off ->
  0 <= j < t_cols t -> 0 <= j' < t_cols t' -> o + j = o' + j' -> t = t' /\ j = j'.
Proof.
  revert off. induction parts as [|[id|] r IH]; intros off H Hin Hin' Hj Hj' E; [by apply elem_of_nil in Hin| |].
  - apply Forall_cons in H as [(u & (Hu & _) & _ & Hd & _) H]. cbn [laid] in *. rewrite Hu in *.
    apply elem_of_cons in Hin as [[= -> ->]|Hin]; apply elem_of_cons in Hin' as [[= -> ->]|Hin'].
    + split; [done|lia].
    + destruct (laid_range r _ _ _ H Hin') as (_ & ? & _). lia.
    + destruct (laid_range r _ _ _ H Hin) as (_ & ? & _). lia.
    + by apply (IH (off + t_cols u)).
  - apply Forall_cons in H as [_ H]. by apply (IH off).
Qed.

(** [concat_batched_rows] puts the parts side by side: with parts of the
    same [B] rows (null parts are skipped), row [b] of the result is the
    concatenation of the parts' rows [b], and nothing else is in it. *)
Theorem concat_batched_rows_joins parts : Forall part_ok parts -> parts <> [] -> laid parts 0 <> [] ->
  total_cols (laid parts 0) <= INT_MAX ->
  let total := total_cols (laid parts 0) in
  outcome rt F w out tO B total FP32
    (fun y => forall t off b j, (t, off) ∈ laid parts 0 -> 0 <= b < B -> 0 <= j < t_cols t ->
       y (b * total + (off + j)) = words (w_heap w) (t_data t) (b * t_cols t + j))
    (concat_batched_rows rt parts out w).
Proof.
  intros Hparts Hnil Hlaid Hmax total. destruct parts as [|p0 r0]; [done|]. unfold concat_batched_rows.
  destruct (concat_sizes_ok (p0 :: r0) 0 0 Hparts (or_introl eq_refl) ltac:(lia) ltac:(lia)) as (B1 & E & HB1).
  rewrite (st_bind_ret _ _ _ _ _ E). assert (B1 = B) as -> by (destruct HB1 as [[_ ?]|]; done). rewrite Z.add_0_l. fold total.
  set (parts := p0 :: r0) in *. pose proof (laid_total_nonneg parts 0 Hparts) as Hnn. unfold dim in HB.
  assert (Hfun : forall k v v', part_set (laid parts 0) total k v -> part_set (laid parts 0) total k v' -> v = v').
  { intros k v v' (t & o & Hin & b & Hb & j & Hj & -> & ->) (t' & o' & Hin' & b' & Hb' & j' & Hj' & E' & ->).
    destruct (laid_range parts 0 t o Hparts Hin) as (? & ? & ?). destruct (laid_range parts 0 t' o' Hparts Hin') as (? & ? & ?).
    destruct (radix_inj b b' (o + j) (o' + j') total) as [-> Eo]; try lia.
    by destruct (laid_apart parts 0 t o t' o' j j' Hparts Hin Hin' Hj Hj' Eo) as [-> ->]. }
  apply (kernel_spec rt Hlaw F w out tO B total FP32); try done.
  - intros Hz. split.
    + intros f t o b j Hin Hb Hj. destruct (laid_range parts 0 t o Hparts Hin) as (? & ? & ?). nia.
    + intros w'. destruct (Z.eqb_spec B 0); [done|]. destruct (Z.eqb_spec total 0); [done|]. nia.
  - intros Hpos w' t' b L Hobjs Hp Hdt' Hcpu' Hu Hb HL d Hd.
    destruct (Z.eqb_spec B 0); [nia|]. destruct (Z.eqb_spec total 0); [nia|]. cbn [orb].
    pose proof (concat_copy_sets w' t' b d L total parts 0 Hparts ltac:(lia) ltac:(fold total; lia) Hobjs Hu Hb Hd HL) as Hs.
    destruct (sets_value _ _ _ _ _ _ _ _ Hs Hfun) as (ups & Hr & Hf). eexists. exists ups. split; [reflexivity|]. split.
    + apply (runs_host _ _ _ _ _ _ _ out t'); [by rewrite Hobjs, lookup_insert, decide_True|done..|]. by rewrite Hp.
    + intros f _ t o b' j Hin Hb' Hj. apply Hf. exists t, o. split; [done|]. exists b'. split; [done|]. exists j. split; [done|]. split; [lia|done].
  - intros f g Hfg Hf t o b j Hin Hb Hj. destruct (laid_range parts 0 t o Hparts Hin) as (? & ? & ?).
    rewrite <- Hfg by (apply radix_bound; lia). by apply Hf.
Qed.
End Concat.
End Spec.

(** ** At concrete tensors *)

(** Four rows of two, an index tensor that names the last row twice, and three
    gradient rows; a cache of three rows to append two to. *)
Definition table : gmap positive (option Arrays.arr) :=
  {[ 1%positive := Arrays.f32 4 2 (seqZ 10 8); 2%positive := Arrays.i32s 3 1 [3; 0; 3]; 3%positive := Arrays.f32 3 2 (seqZ 50 6);
     4%positive := None; 5%positive := Arrays.f32 3 2 (seqZ 70 6); 6%positive := Arrays.f32 4 2 (seqZ 80 8) ]}.
Definition table_world : world := Arrays.world_of table.
Definition t1 : Tensor := Arrays.tensor_of 1 (Arrays.f32 4 2 (seqZ 10 8)).
Definition t2 : Tensor := Arrays.tensor_of 2 (Arrays.i32s 3 1 [3; 0; 3]).
Definition t3 : Tensor := Arrays.tensor_of 3 (Arrays.f32 3 2 (seqZ 50 6)).
Definition t5 : Tensor := Arrays.tensor_of 5 (Arrays.f32 3 2 (seqZ 70 6)).
Definition t6 : Tensor := Arrays.tensor_of 6 (Arrays.f32 4 2 (seqZ 80 8)).

Lemma table_fits : map_Forall (fun _ a => Arrays.fits a = true) table.
Proof. apply (bool_decide_eq_true_1 _). by vm_compute. Qed.

Lemma table_operand id a dt n : table !! id = Some (Some a) -> Arrays.a_dtype a = dt -> n <= zlen (Arrays.a_words a) ->
  operand table_world id (Arrays.tensor_of id (Some a)) dt n.
Proof. apply Arrays.operand_of. Qed.

Lemma table_obj id a : table !! id = Some a -> w_objs table_world !! id = Some (Arrays.tensor_of id a).
Proof. intros H. apply Arrays.obj_of. by exists a. Qed.

Lemma table_idx m : 0 <= m < 3 -> 0 <= i32 (words (w_heap table_world) (t_data t2) m) < 4.
Proof.
  intros Hm. assert (H : forallb (fun m => let v := i32 (words (w_heap table_world) (t_data t2) m) in (0 <=? v) && (v <? 4)) (seqZ 0 3) = true)
    by (vm_compute; reflexivity).
  rewrite forallb_forall in H. specialize (H m). cbv beta zeta in H.
  assert (Hin : In m (seqZ 0 3)) by (apply list_elem_of_In, elem_of_seqZ; lia). specialize (H Hin). bool_facts. by split.
Qed.

(** The side conditions of a call on [table_world]. *)
Ltac at_table :=
  first [ apply Arrays.blank_output | apply Arrays.world_inv, table_fits | apply table_idx | by apply table_operand | by apply table_obj
        | by apply Arrays.beside_of | done | by_value ].

Lemma gather_scatter_identity_witness :
  let m := _ ← gather_rows Arrays.rt 1 2 4; scatter_rows 4 2 1 in
  (m table_world).1 = Ret tt /\
  safely Arrays.rt ∅ m (fun w2 => inv Arrays.rt ∅ w2 /\
    forall i, 0 <= i < 4 * 2 -> words (w_heap w2) (t_data t1) i = words (w_heap table_world) (t_data t1) i) table_world.
Proof.
  split; [vm_compute; reflexivity|].
  apply (gather_scatter_identity Arrays.rt Arrays.arrays_lawful ∅ table_world 1 2 4 t1 t2 Tensor_default 4 3 2);
    at_table.
Defined.

Lemma scatter_rows_add_sums_witness :
  let m := scatter_rows_add Arrays.rt Arrays.add32 3 2 4 4 in
  let dy := words (w_heap table_world) (t_data t3) in
  let idx m := i32 (words (w_heap table_world) (t_data t2) m) in
  (m table_world).1 = Ret tt /\
  outcome Arrays.rt ∅ table_world 4 Tensor_default 4 2 FP32
    (fun dx => forall r c, 0 <= r < 4 -> 0 <= c < 2 ->
       dx (r * 2 + c) = foldl (fun a m => Arrays.add32 a (dy (m * 2 + c))) 0 (naming idx 3 r)) (m table_world).
Proof.
  split; [vm_compute; reflexivity|].
  apply (scatter_rows_add_sums Arrays.rt Arrays.arrays_lawful ∅ Arrays.add32 (fun _ _ => Arrays.add32_word _ _) table_world 3 2 4 t3 t2 Tensor_default 4 3 2);
    at_table.
Defined.

(** Rows 1 to 3 of the cache [6] from [3]; [1] is the other cache. *)
Lemma kv_cache_append_writes_slice_witness :
  exists h, kv_cache_append 3 5 1 6 1 table_world = (Ret tt, with_heap table_world h) /\ inv Arrays.rt ∅ (with_heap table_world h) /\
    rows_set (1 * 2) (3 * 2) (words (w_heap table_world) (t_data t3)) (words (w_heap table_world) (t_data t6)) (words h (t_data t6)) (4 * 2) /\
    rows_set (1 * 2) (3 * 2) (words (w_heap table_world) (t_data t5)) (words (w_heap table_world) (t_data t1)) (words h (t_data t1)) (4 * 2) /\
    forall b, is_Some (w_heap table_world !! b) -> owned_block t6 <> Some b -> owned_block t1 <> Some b -> h !! b = w_heap table_world !! b.
Proof.
  pose proof (kv_cache_append_writes_slice Arrays.rt ∅ table_world 3 5 6 1 t3 t5 t6 t1 1 3 4 2) as H.
  assert (E : ((0 <=? 1) && (1 + 3 <=? 4))%bool = true) by done. rewrite E in H. apply H; at_table.
Defined.

Lemma concat_batched_rows_joins_witness :
  let parts := [Some 3%positive; None; Some 5%positive] in
  let total := total_cols (laid table_world parts 0) in
  (concat_batched_rows Arrays.rt parts 4 table_world).1 = Ret tt /\ total = 4 /\
  outcome Arrays.rt ∅ table_world 4 Tensor_default 3 total FP32
    (fun y => forall t off b j, (t, off) ∈ laid table_world parts 0 -> 0 <= b < 3 -> 0 <= j < t_cols t ->
       y (b * total + (off + j)) = words (w_heap table_world) (t_data t) (b * t_cols t + j))
    (concat_batched_rows Arrays.rt parts 4 table_world).
Proof.
  intros parts total. split; [vm_compute; reflexivity|]. split; [vm_compute; reflexivity|].
  apply (concat_batched_rows_joins Arrays.rt Arrays.arrays_lawful ∅ table_world (Arrays.world_inv _ table_fits) 4 Tensor_default
    (table_obj 4 None eq_refl) Arrays.blank_output 3 ltac:(by_value) parts); [|done|by vm_compute|vm_compute; congruence].
  repeat constructor; [exists t3|exists t5]; (split; [by apply table_operand|split; [done|split; [by_value|done]]]).
Defined.
