(* ===== verification/CpuTopK.v ===== *)
(** * Per-row top-k

    src/cpu/top_k.cpp: for every row of [X] the [k] largest values in
    descending order and their columns, ties going to the smaller column. Small
    [k] runs a streaming selection that keeps its working set in the output row
    itself; large [k] sorts the columns with [std::partial_sort]. The first
    part is IEEE-754's order on the bits of a [float]. *)
From S2P Require Import Prelude Dtype Device Heap Runtime Tensor CpuBuf CpuMove.
Import Cpu Move.

(** ** Comparisons of [float]s, on their bits *)
Module F32.

Definition is_nan (x : Z) : bool := Z.land x 0x7FFFFFFF >? 0x7F800000.

(** The place of a float that is not a NaN on the number line: both zeros are
    at [0]. *)
Definition key (x : Z) : Z :=
  let m := Z.land x 0x7FFFFFFF in if Z.testbit x 31 then - m else m.

(** [a == b] and [a > b]: false when one is a NaN. *)
Definition eqb (a b : Z) : bool := negb (is_nan a) && negb (is_nan b) && (key a =? key b).
Definition gtb (a b : Z) : bool := negb (is_nan a) && negb (is_nan b) && (key b <? key a).
End F32.

Module TopK.

(** [bool prefers(float a, int idx_a, float b, int idx_b)]. *)
Definition prefers (a idx_a b idx_b : Z) : bool :=
  if negb (F32.eqb a b) then F32.gtb a b else idx_a <? idx_b.

(** A loop with a local variable. *)
Fixpoint fold_m {A B} (l : list B) (a : A) (f : A -> B -> M A) : M A :=
  match l with
  | [] => mret a
  | b :: r => a' ← f a b; fold_m r a' f
  end.

(** [*p = v] through an [int32_t*]. *)
Definition write_i32 (p : ptr) (v : Z) : M unit := write_word p (u32 v).

(** [std::partial_sort(l.begin(), l.begin() + k, l.end(), lt)]: the [k]
    first elements. *)
Fixpoint insert_by {A} (lt : A -> A -> bool) (x : A) (l : list A) : list A :=
  match l with
  | [] => [x]
  | y :: r => if lt y x then y :: insert_by lt x r else x :: l
  end.
Definition partial_sort {A} (lt : A -> A -> bool) (k : nat) (l : list A) : list A := take k (foldr (insert_by lt) [] l).

Section Row.
Context (k C : Z) (row out_v out_i : ptr).

(** The loops "for (int j = 1; j < k; ++j) if (prefers(...)) weakest = j;". *)
Definition find_weakest : M Z :=
  fold_m (seqZ 1 (k - 1)) 0 (fun weakest j =>
    wv ← read_word (fptr out_v weakest);
    wi ← read_i32 (fptr out_i weakest);
    v ← read_word (fptr out_v j);
    i ← read_i32 (fptr out_i j);
    mret (if prefers wv wi v i then j else weakest)).

(** Step 1. *)
Definition seed : M unit :=
  for_ k (fun j =>
    v ← read_word (fptr row j);
    _ ← write_word (fptr out_v j) v;
    write_i32 (fptr out_i j) j).

(** Step 2. *)
Definition scan (weakest : Z) : M Z :=
  fold_m (seqZ k (C - k)) weakest (fun weakest c =>
    v ← read_word (fptr row c);
    wv ← read_word (fptr out_v weakest);
    wi ← read_i32 (fptr out_i weakest);
    if prefers v c wv wi then
      _ ← write_word (fptr out_v weakest) v;
      _ ← write_i32 (fptr out_i weakest) c;
      find_weakest
    else mret weakest).

(** Step 3: the [while] loop from [j] down, and the [for] loop around it. *)
Fixpoint shift (j : nat) (v idx : Z) : M Z :=
  match j with
  | O => mret 0
  | S j' =>
      pv ← read_word (fptr out_v (Z.of_nat j'));
      pi ← read_i32 (fptr out_i (Z.of_nat j'));
      if prefers v idx pv pi then
        a ← read_word (fptr out_v (Z.of_nat j'));
        _ ← write_word (fptr out_v (Z.of_nat j)) a;
        b ← read_i32 (fptr out_i (Z.of_nat j'));
        _ ← write_i32 (fptr out_i (Z.of_nat j)) b;
        shift j' v idx
      else mret (Z.of_nat j)
  end.

Definition insertion_sort : M unit :=
  each (seqZ 1 (k - 1)) (fun i =>
    v ← read_word (fptr out_v i);
    idx ← read_i32 (fptr out_i i);
    j ← shift (Z.to_nat i) v idx;
    _ ← write_word (fptr out_v j) v;
    write_i32 (fptr out_i j) idx).

Definition streaming : M unit :=
  _ ← seed;
  weakest ← find_weakest;
  _ ← scan weakest;
  insertion_sort.

(** The large-[k] path. A NaN in the row breaks the comparator's contract (no
    strict weak order), which leaves [std::partial_sort] undefined. *)
Definition sorting : M unit :=
  vals ← fold_m (seqZ 0 C) [] (fun vs c => v ← read_word (fptr row c); mret (vs ++ [v]));
  if existsb F32.is_nan vals then st_undef
  else
    let at_ c := nth (Z.to_nat c) vals 0 in
    let order := partial_sort (fun a b => prefers (at_ a) a (at_ b) b) (Z.to_nat k) (seqZ 0 C) in
    for_ k (fun j =>
      let o := nth (Z.to_nat j) order 0 in
      _ ← write_i32 (fptr out_i j) o;
      v ← read_word (fptr row o);
      write_word (fptr out_v j) v).
End Row.

Definition kSortThreshold : Z := 64.

Definition top_k_rows (rt : runtime) (X : positive) (k : Z) (Vals Idx : positive) : M unit :=
  let op := lit "top_k_rows" in
  tX ← obj X;
  _ ← check_fp32 tX op (lit "X");
  let R := t_rows tX in
  let C := t_cols tX in
  _ ← fail_if (k <? 1) op (lit "k must be >= 1");
  _ ← fail_if (k >? C) op (lit "k must be <= C (per-row length)");
  _ ← ensure rt Vals R k FP32;
  _ ← ensure rt Idx R k INT32;
  if (R =? 0) || (k =? 0) then mret tt
  else
    Xp ← T.host_f32 X;
    Vp ← T.host_f32_mut Vals;
    tI ← obj Idx;
    let Ip := t_data tI in
    for_ R (fun r =>
      let row := fptr Xp (r * C) in
      let out_v := fptr Vp (r * k) in
      let out_i := fptr Ip (r * k) in
      if k >? kSortThreshold then sorting k C row out_v out_i else streaming k C row out_v out_i).
End TopK.
