(* ===== verification/CpuTopKSpec.v ===== *)
(** * Top-k: selection and order

    The row algorithms of CpuTopK.v against the order they promise. A working
    set is a list of columns; the first part is about such lists, the second
    shows that the code keeps one in its two output buffers, and the last that
    a call leaves the [k] first columns of every row. *)
From Stdlib Require Import Sorting.Sorted.
From stdpp Require Import sorting.
From S2P Require Import Prelude Dtype Device Heap Runtime Tensor TensorSpec CpuBuf CpuExample CpuMove CpuMoveSpec CpuTopK.
Import Cpu Move TopK.

(** ** The order of a row *)
Section Order.
Context (x : Z -> Z) (C : Z) (Hnan : forall c, 0 <= c < C -> F32.is_nan (x c) = false).

(** Column [a] comes before column [b]. *)
Definition before (a b : Z) : bool := prefers (x a) a (x b) b.

Definition col (c : Z) : Prop := 0 <= c < C.

Lemma before_spec a b : col a -> col b ->
  before a b = true <-> F32.key (x b) < F32.key (x a) \/ F32.key (x a) = F32.key (x b) /\ a < b.
Proof.
  intros Ha Hb. unfold before, prefers, F32.eqb, F32.gtb. rewrite !Hnan by done. cbn [negb andb].
  destruct (Z.eqb_spec (F32.key (x a)) (F32.key (x b))); cbn [negb]; rewrite Z.ltb_lt; lia.
Qed.

Lemma before_irrefl a : col a -> before a a = false.
Proof. intros Ha. destruct (before a a) eqn:E; [|done]. apply before_spec in E; [lia|done..]. Qed.

Lemma before_trans a b c : col a -> col b -> col c -> before a b = true -> before b c = true -> before a c = true.
Proof. intros Ha Hb Hc H1%before_spec H2%before_spec; try done. apply before_spec; [done..|]. lia. Qed.

Lemma before_total a b : col a -> col b -> a <> b -> before a b = false -> before b a = true.
Proof.
  intros Ha Hb Hne H. apply before_spec; [done..|]. destruct (Z.lt_trichotomy (F32.key (x a)) (F32.key (x b))) as [|[E|]]; [by left|..].
  - right. split; [done|]. destruct (Z_lt_le_dec a b); [|lia]. exfalso.
    assert (before a b = true) by (apply before_spec; [done..|]; by right). congruence.
  - exfalso. assert (before a b = true) by (apply before_spec; [done..|]; by left). congruence.
Qed.

Lemma before_asym a b : col a -> col b -> before a b = true -> before b a = false.
Proof.
  intros Ha Hb H. destruct (before b a) eqn:E; [|done]. pose proof (before_trans a b a Ha Hb Ha H E).
  pose proof (before_irrefl a Ha). congruence.
Qed.

(** ** Working sets *)

(** Columns of the first [n], none twice, and every column left out comes
    after all of them. *)
Record top_of (n : Z) (ws : list Z) : Prop := {
  to_nodup : NoDup ws;
  to_col : forall c, c ∈ ws -> 0 <= c < n;
  to_best : forall c d, 0 <= c < n -> c ∉ ws -> d ∈ ws -> before d c = true
}.

Definition ascending (l : list Z) : Prop := StronglySorted (fun a b => before a b = true) l.

(** The answer for a row: the first columns, in order. It is unique. *)
Definition top_row (k : Z) (ws : list Z) : Prop := zlen ws = k /\ top_of C ws /\ ascending ws.

Lemma ascending_unique l l' : (forall c, c ∈ l -> col c) -> ascending l -> ascending l' -> l ≡ₚ l' -> l = l'.
Proof.
  revert l'. induction l as [|a l IH]; intros l' Hl Hs Hs' Hp; [by apply Permutation_nil in Hp|].
  destruct l' as [|b l']; [by apply Permutation_sym, Permutation_nil in Hp|].
  apply StronglySorted_inv in Hs as [Hs Ha]. apply StronglySorted_inv in Hs' as [Hs' Hb].
  assert (Hl' : forall c, c ∈ b :: l' -> col c) by (intros c Hc; apply Hl; by rewrite Hp).
  assert (a = b) as ->.
  { destruct (decide (a = b)) as [|Hne]; [done|]. exfalso.
    assert (Hin : a ∈ b :: l') by (rewrite <- Hp; left). apply elem_of_cons in Hin as [|Hin]; [done|].
    assert (Hin' : b ∈ a :: l) by (rewrite Hp; left). apply elem_of_cons in Hin' as [|Hin']; [done|].
    rewrite Forall_forall in Ha, Hb.
    pose proof (Ha _ Hin') as H1. pose proof (Hb _ Hin) as H2. rewrite (before_asym a b) in H2; [done| | |done].
    - apply Hl. left.
    - apply Hl'. left. }
  f_equal. apply IH; [intros c Hc; apply Hl; by right|done..|]. by apply Permutation_cons_inv in Hp.
Qed.

Lemma top_row_unique k ws ws' : top_row k ws -> top_row k ws' -> ws = ws'.
Proof.
  intros (Hl & Ht & Ha) (Hl' & Ht' & Ha'). apply ascending_unique; try done; [apply (to_col _ _ Ht)|].
  assert (Hsub : forall l l', zlen l = zlen l' -> top_of C l -> top_of C l' -> forall c, c ∈ l -> c ∈ l').
  { intros l l' Hz H1 H2 c Hc. destruct (decide (c ∈ l')) as [|Hno]; [done|]. exfalso.
    assert (Hex : exists d, d ∈ l' /\ d ∉ l).
    { destruct (decide (Forall (fun d => d ∈ l) l')) as [Hall|Hnall].
      - exfalso. assert (Hs : (length (c :: l') <= length l)%nat).
        { apply List.NoDup_incl_length; [apply NoDup_ListNoDup, NoDup_cons; split; [done|apply H2]|].
          intros d [->|Hd]; apply list_elem_of_In; [done|]. rewrite Forall_forall in Hall. by apply Hall, list_elem_of_In. }
        unfold zlen in Hz. cbn in Hs. lia.
      - apply not_Forall_Exists in Hnall; [|apply _]. apply Exists_exists in Hnall as (d & Hd & Hn). by exists d. }
    destruct Hex as (d & Hd & Hdn). pose proof (to_best _ _ H1 d c (to_col _ _ H2 d Hd) Hdn Hc) as B1.
    pose proof (to_best _ _ H2 c d (to_col _ _ H1 c Hc) Hno Hd) as B2.
    rewrite (before_asym c d) in B2; [done|by apply (to_col _ _ H1)|by apply (to_col _ _ H2)|done]. }
  apply NoDup_Permutation; [apply Ht|apply Ht'|]. intros c. split; apply Hsub; try done; lia.
Qed.

(** The first columns. *)
Lemma top_seed k : 0 <= k -> top_of k (seqZ 0 k).
Proof.
  intros Hk. split; [apply NoDup_seqZ| |].
  - intros c Hc%elem_of_seqZ. lia.
  - intros c d Hc Hno. exfalso. apply Hno, elem_of_seqZ. lia.
Qed.

(** [j] is the place of the column every other one of the set comes before. *)
Definition weakest_at (ws : list Z) (j : nat) : Prop :=
  exists e, ws !! j = Some e /\ forall d, d ∈ ws -> d <> e -> before d e = true.

(** One step of the scan, either way. *)
Lemma top_skip n ws j e : col n -> top_of n ws -> weakest_at ws j -> ws !! j = Some e -> before n e = false -> top_of (n + 1) ws.
Proof.
  intros Hn Ht (e' & He' & Hw) He Hb. rewrite He in He'. injection He' as <-.
  assert (Hin : e ∈ ws) by by eapply list_elem_of_lookup_2. pose proof (to_col _ _ Ht e Hin) as Hec. unfold col in *. split.
  - apply Ht.
  - intros c Hc. pose proof (to_col _ _ Ht c Hc). lia.
  - intros c d Hc Hno Hd. destruct (decide (c = n)) as [->|Hne]; [|apply (to_best _ _ Ht); [lia|done..]].
    assert (Hen : before e n = true) by (apply before_total; [unfold col; lia..|done]).
    destruct (decide (d = e)) as [->|Hde]; [done|]. pose proof (to_col _ _ Ht d Hd).
    apply (before_trans d e n); [unfold col; lia..|by apply Hw|done].
Qed.

Lemma top_replace n ws j e : col n -> top_of n ws -> weakest_at ws j -> ws !! j = Some e -> before n e = true ->
  top_of (n + 1) (<[j := n]> ws).
Proof.
  intros Hn Ht (e' & He' & Hw) He Hb. rewrite He in He'. injection He' as <-.
  assert (Hin : e ∈ ws) by by eapply list_elem_of_lookup_2. pose proof (to_col _ _ Ht e Hin) as Hec. unfold col in *.
  assert (Hsplit : exists l r, ws = l ++ e :: r /\ <[j := n]> ws = l ++ n :: r).
  { exists (take j ws), (drop (S j) ws). split; [by rewrite (take_drop_middle _ _ _ He)|].
    apply insert_take_drop. by apply lookup_lt_Some in He. }
  destruct Hsplit as (l & r & -> & ->). pose proof (to_nodup _ _ Ht) as Hnd.
  assert (Hmem : forall d, d ∈ l ++ n :: r <-> d = n \/ (d ∈ l ++ e :: r /\ d <> e)).
  { intros d. rewrite !elem_of_app, !elem_of_cons. apply NoDup_app in Hnd as (_ & Hdis & Hr). apply NoDup_cons in Hr as [He' _].
    assert (d ∈ l -> d <> e) by (intros Hd ->; apply (Hdis e Hd); left). assert (d ∈ r -> d <> e) by by intros Hd ->.
    split; [intros [?|[?|?]]; [right|left|right]; auto|intros [?|[[?|[?|?]] ?]]; auto; done]. }
  assert (Hfresh : n ∉ l ++ e :: r) by (intros Hc; pose proof (to_col _ _ Ht n Hc); lia).
  split.
  - rewrite NoDup_app, NoDup_cons in *. destruct Hnd as (Hl & Hdis & He' & Hr). rewrite elem_of_app, elem_of_cons in Hfresh.
    repeat split; [done| |by intros ?; apply Hfresh; auto|done].
    intros d Hd [->|Hd']%elem_of_cons; [apply Hfresh; auto|]. apply (Hdis d Hd). by right.
  - intros c [->|[Hc _]]%Hmem; [lia|]. pose proof (to_col _ _ Ht c Hc). lia.
  - intros c d Hc Hno Hd. rewrite Hmem in Hno.
    assert (Hce : forall d, d = n \/ d ∈ l ++ e :: r /\ d <> e -> before d e = true) by (intros d' [->|[? ?]]; [done|by apply Hw]).
    apply Hmem in Hd. assert (Hdc : 0 <= d < C) by (destruct Hd as [->|[Hd _]]; [lia|]; pose proof (to_col _ _ Ht d Hd); lia).
    destruct (decide (c = e)) as [->|Hne]; [by apply Hce|].
    assert (Hcn : c <> n) by (intros ->; apply Hno; by left).
    assert (Hcno : c ∉ l ++ e :: r) by (intros Hc'; apply Hno; by right). assert (Hc' : 0 <= c < n) by lia.
    pose proof (to_best _ _ Ht c e Hc' Hcno Hin) as Hec'.
    apply (before_trans d e c); [unfold col; lia..|by apply Hce|done].
Qed.
(** *** Sorting the columns *)

Lemma insert_by_perm lt (a : Z) l : insert_by lt a l ≡ₚ a :: l.
Proof.
  induction l as [|b l IH]; [done|]. cbn [insert_by]. destruct (lt b a); [|done]. rewrite IH. apply Permutation_swap.
Qed.

Lemma sort_by_perm lt (l : list Z) : foldr (insert_by lt) [] l ≡ₚ l.
Proof. induction l as [|a l IH]; [done|]. cbn [foldr]. by rewrite insert_by_perm, IH. Qed.

Section Sort.
Context (lt : Z -> Z -> bool) (Hlt : forall a b, col a -> col b -> lt a b = before a b).

Lemma insert_by_sorted a l : col a -> (forall c, c ∈ l -> col c) -> a ∉ l -> ascending l -> ascending (insert_by lt a l).
Proof.
  intros Ha Hl Hno Hs. induction l as [|b l IH]; [constructor; constructor|]. cbn [insert_by].
  apply not_elem_of_cons in Hno as [Hab Hno]. assert (Hb : col b) by (apply Hl; left).
  assert (Hl' : forall c, c ∈ l -> col c) by (intros c Hc; apply Hl; by right).
  rewrite Hlt by done. destruct (before b a) eqn:E.
  - apply StronglySorted_inv in Hs as [Hs Hf]. rewrite Forall_forall in Hf. constructor; [by apply IH|].
    apply Forall_forall. intros c Hc. rewrite insert_by_perm in Hc. apply elem_of_cons in Hc as [->|Hc]; [done|by apply Hf].
  - assert (Hba : before a b = true) by (by apply before_total; congruence || done). constructor; [done|].
    apply StronglySorted_inv in Hs as [_ Hf]. rewrite Forall_forall in Hf. apply Forall_forall. intros c [->|Hc]%elem_of_cons; [done|].
    apply (before_trans a b c); auto.
Qed.

Lemma sort_by_sorted l : NoDup l -> (forall c, c ∈ l -> col c) -> ascending (foldr (insert_by lt) [] l).
Proof.
  induction l as [|a l IH]; intros Hnd Hl; [constructor|]. cbn [foldr]. apply NoDup_cons in Hnd as [Hno Hnd].
  assert (Hl' : forall c, c ∈ l -> col c) by (intros c Hc; apply Hl; by right).
  apply insert_by_sorted; [apply Hl; left| | |by apply IH]; [intros c|]; rewrite sort_by_perm; [apply Hl'|done].
Qed.

Lemma partial_sort_top k : 0 <= k <= C -> top_row k (partial_sort lt (Z.to_nat k) (seqZ 0 C)).
Proof.
  intros Hk. unfold partial_sort. set (s := foldr (insert_by lt) [] (seqZ 0 C)).
  assert (Hp : s ≡ₚ seqZ 0 C) by apply sort_by_perm.
  assert (Hs : ascending s) by (apply sort_by_sorted; [apply NoDup_seqZ|intros c Hc%elem_of_seqZ; unfold col; lia]).
  assert (Hnd : NoDup s) by (rewrite Hp; apply NoDup_seqZ).
  assert (Hlen : length s = Z.to_nat C) by (by rewrite Hp, length_seqZ).
  rewrite <- (take_drop (Z.to_nat k) s) in Hs, Hnd. apply StronglySorted_app in Hs as (Hx & Hs & _).
  split; [unfold zlen; rewrite length_take; lia|]. split; [|done]. split.
  - by apply NoDup_app in Hnd as [? _].
  - intros c Hc%elem_of_take. destruct Hc as (i & Hi & _). apply list_elem_of_lookup_2 in Hi. rewrite Hp in Hi. apply elem_of_seqZ in Hi. lia.
  - intros c d Hc Hno Hd. apply Hx; [done|]. assert (Hin : c ∈ s) by (rewrite Hp; apply elem_of_seqZ; lia).
    rewrite <- (take_drop (Z.to_nat k) s) in Hin. apply elem_of_app in Hin as [|]; done.
Qed.
End Sort.
End Order.

(** ** Two output buffers *)

Lemma destruct_snoc {A} (l : list A) : l = [] \/ exists l' a, l = l' ++ [a].
Proof. induction l using rev_ind; [by left|right; by eexists _, _]. Qed.

Definition upd (f : Z -> Z) (k v : Z) : Z -> Z := fun i => if i =? k then v else f i.

Lemma i32_u32 c : 0 <= c <= INT_MAX -> i32 (u32 c) = c.
Proof.
  unfold i32, to_signed, u32, INT_MAX. intros H. rewrite (Z.mod_small c) by lia. rewrite Z.mod_small by lia.
  by rewrite (proj2 (Z.ltb_lt _ _)) by lia.
Qed.

Section Two.
Context (h0 : heap) (o0 : gmap positive Tensor) (bv bi : positive) (dv di : Device) (Lv Li n : Z).
Context (Hne : bv <> bi) (Hdv : dev_type dv = CPU) (Hdi : dev_type di = CPU) (HLv : 4 * n <= Lv) (HLi : 4 * n <= Li).

(** The buffers hold the words [V] and [I]. *)
Definition two (w : world) (V I : Z -> Z) : Prop :=
  exists bsv bsi, w_heap w = <[bi := mkBlock di bsi]> (<[bv := mkBlock dv bsv]> h0) /\ zlen bsv = Lv /\ zlen bsi = Li /\
    w_objs w = o0 /\ (forall i, 0 <= i < n -> wd bsv i = V i) /\ (forall i, 0 <= i < n -> wd bsi i = I i).

Definition wp2 {A} (m : M A) (V I : Z -> Z) (Q : A -> (Z -> Z) -> (Z -> Z) -> Prop) : Prop :=
  forall w, two w V I -> exists a V' I' h, m w = (Ret a, with_heap w h) /\ two (with_heap w h) V' I' /\ Q a V' I'.

Lemma wp2_ret {A} (a : A) V I (Q : A -> (Z -> Z) -> (Z -> Z) -> Prop) : Q a V I -> wp2 (mret a) V I Q.
Proof. intros H w Hw. exists a, V, I, (w_heap w). by rewrite with_heap_id. Qed.

Lemma wp2_bind {A B} (m : M A) (f : A -> M B) V I Q : wp2 m V I (fun a V' I' => wp2 (f a) V' I' Q) -> wp2 (m ≫= f) V I Q.
Proof.
  intros H w Hw. destruct (H w Hw) as (a & V1 & I1 & h1 & E1 & Hw1 & H1).
  destruct (H1 _ Hw1) as (c & V2 & I2 & h2 & E2 & Hw2 & H2). exists c, V2, I2, h2.
  rewrite (st_bind_ret _ _ _ _ _ E1), E2. split; [by destruct w|]. by destruct w.
Qed.

Lemma wp2_mono {A} (m : M A) V I (Q Q' : A -> (Z -> Z) -> (Z -> Z) -> Prop) :
  wp2 m V I Q -> (forall a V I, Q a V I -> Q' a V I) -> wp2 m V I Q'.
Proof.
  intros H HQ w Hw. destruct (H w Hw) as (a & V1 & I1 & h1 & E1 & Hw1 & H1). exists a, V1, I1, h1. auto.
Qed.

(** Either buffer alone, for the lemmas on one output. *)
Lemma two_v w V I : two w V I -> exists hi bsv, at_bytes hi o0 bv dv Lv w bsv /\ (forall i, 0 <= i < n -> wd bsv i = V i) /\
  (forall b, b <> bi -> hi !! b = h0 !! b) /\
  forall bs' h, h = <[bv := mkBlock dv bs']> hi -> zlen bs' = Lv -> forall V', (forall i, 0 <= i < n -> wd bs' i = V' i) -> two (with_heap w h) V' I.
Proof.
  intros (bsv & bsi & Hh & Hv & Hi & Ho & HV & HI). exists (<[bi := mkBlock di bsi]> h0), bsv. split; [|split; [done|split]].
  - split; [|done]. by rewrite Hh, insert_insert_ne.
  - intros b Hb. by rewrite lookup_insert_ne.
  - intros bs' h -> Hz V' HV'. exists bs', bsi. cbn. rewrite insert_insert_ne by done. done.
Qed.

Lemma two_i w V I : two w V I -> exists hv bsi, at_bytes hv o0 bi di Li w bsi /\ (forall i, 0 <= i < n -> wd bsi i = I i) /\
  (forall b, b <> bv -> hv !! b = h0 !! b) /\
  forall bs' h, h = <[bi := mkBlock di bs']> hv -> zlen bs' = Li -> forall I', (forall i, 0 <= i < n -> wd bs' i = I' i) -> two (with_heap w h) V I'.
Proof.
  intros (bsv & bsi & Hh & Hv & Hi & Ho & HV & HI). exists (<[bv := mkBlock dv bsv]> h0), bsi. split; [|split; [done|split]].
  - by split.
  - intros b Hb. by rewrite lookup_insert_ne.
  - intros bs' h -> Hz I' HI'. by exists bsv, bs'.
Qed.

Lemma wp2_read_v k V I Q : 0 <= k < n -> Q (V k) V I -> wp2 (read_word (fptr (Some (bv, 0)) k)) V I Q.
Proof.
  intros Hk HQ w Hw. destruct (two_v w V I Hw) as (hi & bsv & Hat & HV & _). exists (V k), V, I, (w_heap w).
  rewrite (read_own hi o0 bv dv Lv n Hdv HLv w bsv k Hat Hk), with_heap_id, HV by done. done.
Qed.

Lemma wp2_read_i k V I Q : 0 <= k < n -> Q (i32 (I k)) V I -> wp2 (read_i32 (fptr (Some (bi, 0)) k)) V I Q.
Proof.
  intros Hk HQ w Hw. destruct (two_i w V I Hw) as (hv & bsi & Hat & HI & _). exists (i32 (I k)), V, I, (w_heap w).
  unfold read_i32. rewrite (st_bind_ret _ _ _ _ _ (read_own hv o0 bi di Li n Hdi HLi w bsi k Hat Hk)).
  rewrite with_heap_id, HI by done. done.
Qed.

Lemma wp2_read_src p len x k V I Q : source h0 bv p len x -> source h0 bi p len x -> 0 <= k < len -> Q (x k) V I ->
  wp2 (read_word (fptr p k)) V I Q.
Proof.
  intros Hpv Hpi Hk HQ w Hw. destruct (two_v w V I Hw) as (hi & bsv & Hat & _ & Hh & _). exists (x k), V, I, (w_heap w).
  assert (Hs : source hi bv p len x).
  { intros Hlen. destruct (Hpv Hlen) as ((sb & off & blk & -> & Hsb & Hty & Ho & Hn) & Ha & Hx).
    destruct (Hpi Hlen) as (_ & Hai & _). assert (Hsame : hi !! sb = h0 !! sb) by (apply Hh; intros ->; by apply Hai).
    split; [exists sb, off, blk; by rewrite Hsame|]. split; [done|]. intros i. rewrite <- Hx. unfold words. cbn. by rewrite Hsame. }
  rewrite (read_source hi o0 bv dv Lv w bsv p len x k Hat Hs Hk), with_heap_id. done.
Qed.

Lemma wp2_write_v k v V I Q : 0 <= k < n -> is_word v -> Q tt (upd V k v) I -> wp2 (write_word (fptr (Some (bv, 0)) k) v) V I Q.
Proof.
  intros Hk Hv HQ w Hw. destruct (two_v w V I Hw) as (hi & bsv & Hat & HV & _ & Hback).
  destruct (runs_write hi o0 bv dv Lv n Hdv HLv k v Hk Hv w bsv Hat) as (bs' & E & Hz & Hi). exists tt, (upd V k v), I. eexists.
  split; [exact E|]. split; [|done]. apply (Hback bs' _ eq_refl Hz). intros i Hii. rewrite Hi by done. cbn. unfold upd. by rewrite HV.
Qed.

Lemma wp2_write_i k v V I Q : 0 <= k < n -> Q tt V (upd I k (u32 v)) -> wp2 (write_i32 (fptr (Some (bi, 0)) k) v) V I Q.
Proof.
  intros Hk HQ w Hw. destruct (two_i w V I Hw) as (hv & bsi & Hat & HI & _ & Hback).
  destruct (runs_write hv o0 bi di Li n Hdi HLi k (u32 v) Hk (u32_range v) w bsi Hat) as (bs' & E & Hz & Hi). exists tt, V, (upd I k (u32 v)). eexists.
  split; [exact E|]. split; [|done]. apply (Hback bs' _ eq_refl Hz). intros i Hii. rewrite Hi by done. cbn. unfold upd. by rewrite HI.
Qed.

(** Loops, by an invariant. *)
Lemma wp2_fold {A} lo cnt (a : A) f (Inv : Z -> A -> (Z -> Z) -> (Z -> Z) -> Prop) V I : 0 <= cnt -> Inv lo a V I ->
  (forall i a V I, lo <= i < lo + cnt -> Inv i a V I -> wp2 (f a i) V I (Inv (i + 1))) ->
  wp2 (fold_m (seqZ lo cnt) a f) V I (Inv (lo + cnt)).
Proof.
  intros Hc. assert (Hm : cnt = Z.of_nat (Z.to_nat cnt)) by lia. rewrite Hm. generalize (Z.to_nat cnt). intros m.
  clear cnt Hc Hm. revert lo a V I.
  induction m as [|m IH]; intros lo a V I H0 Hstep.
  - rewrite Z.add_0_r. by apply wp2_ret.
  - rewrite seqZ_cons by lia. cbn [fold_m]. apply wp2_bind.
    eapply wp2_mono; [apply (Hstep lo); [lia|done]|]. intros a' V' I' H'. cbv beta.
    replace (Z.pred (Z.of_nat (S m))) with (Z.of_nat m) by lia.
    eapply wp2_mono; [apply (IH (Z.succ lo)); [by rewrite <- Z.add_1_r|]|].
    + intros i a2 V2 I2 Hi. apply Hstep. lia.
    + intros a2 V2 I2. by replace (Z.succ lo + Z.of_nat m) with (lo + Z.of_nat (S m)) by lia.
Qed.

Lemma wp2_each lo cnt f (Inv : Z -> (Z -> Z) -> (Z -> Z) -> Prop) V I : 0 <= cnt -> Inv lo V I ->
  (forall i V I, lo <= i < lo + cnt -> Inv i V I -> wp2 (f i) V I (fun _ => Inv (i + 1))) ->
  wp2 (each (seqZ lo cnt) f) V I (fun _ => Inv (lo + cnt)).
Proof.
  intros Hc H0 Hstep.
  assert (Eq : forall l w, each l f w = fold_m l tt (fun _ i => f i) w).
  { induction l as [|i l IH]; intros w; [done|]. cbn. unfold mbind, st_bind. destruct (f i w) as [[[]|e|] w']; [apply IH|done..]. }
  intros w Hw. rewrite Eq. apply (wp2_fold lo cnt tt (fun _ i => f i) (fun i _ => Inv i) V I Hc H0); [|done].
  intros i _ V1 I1 Hi H1. eapply wp2_mono; [by apply Hstep|done].
Qed.

(** ** One row *)
Section Row.
Context (px : ptr) (len : Z) (xx : Z -> Z) (ro o k C : Z).
Context (Hsv : source h0 bv px len xx) (Hsi : source h0 bi px len xx).
Context (Hro : 0 <= ro) (HroC : ro + C <= len) (Hk : 1 <= k <= C) (HC : C <= INT_MAX) (Ho : 0 <= o) (Hok : o + k <= n).
Let x (c : Z) : Z := xx (ro + c).
Context (Hnan : forall c, 0 <= c < C -> F32.is_nan (x c) = false).
Context (V0 I0 : Z -> Z).
Let row := fptr px ro.
Let out_v := fptr (Some (bv, 0)) o.
Let out_i := fptr (Some (bi, 0)) o.

(** The row's part of the buffers is as before the row's work elsewhere. *)
Definition elsewhere (V I : Z -> Z) : Prop := forall i, 0 <= i < n -> ~ (o <= i < o + k) -> V i = V0 i /\ I i = I0 i.

(** The buffers hold the working set [ws]. *)
Definition rows (V I : Z -> Z) (ws : list Z) : Prop :=
  zlen ws = k /\ (forall j c, ws !! j = Some c -> V (o + Z.of_nat j) = x c /\ i32 (I (o + Z.of_nat j)) = c) /\ elsewhere V I.

Lemma elsewhere_upd V I j v v' : elsewhere V I -> 0 <= j < k -> elsewhere (upd V (o + j) v) (upd I (o + j) v').
Proof.
  intros H Hj i Hi Hno. unfold upd. destruct (Z.eqb_spec i (o + j)); [lia|]. by apply H.
Qed.

Lemma rows_put V I ws j c : rows V I ws -> 0 <= j < k -> col C c ->
  rows (upd V (o + j) (x c)) (upd I (o + j) (u32 c)) (<[Z.to_nat j := c]> ws).
Proof.
  intros (Hl & Hw & He) Hj Hc. unfold col in Hc. split; [unfold zlen in *; by rewrite length_insert|]. split; [|by apply elsewhere_upd].
  intros i d. rewrite list_lookup_insert_Some. unfold upd. intros [(<- & <- & _)|[Hne' Hi]].
  - rewrite Z2Nat.id, Z.eqb_refl by lia. split; [done|]. apply i32_u32. lia.
  - destruct (Z.eqb_spec (o + Z.of_nat i) (o + j)); [exfalso; apply Hne'; lia|]. by apply Hw.
Qed.

Lemma x_word c : col C c -> is_word (x c).
Proof. intros Hc. unfold col in Hc. apply (source_word _ _ _ _ xx (ro + c) Hsv). lia. Qed.

Lemma wp_x c V I Q : col C c -> Q (x c) V I -> wp2 (read_word (fptr row c)) V I Q.
Proof. intros Hc HQ. unfold col in Hc. unfold row. rewrite fptr_fptr. apply (wp2_read_src px len xx); [done|done|lia|done]. Qed.
Lemma wp_v j V I Q : 0 <= j < k -> Q (V (o + j)) V I -> wp2 (read_word (fptr out_v j)) V I Q.
Proof. intros Hj HQ. unfold out_v. rewrite fptr_fptr. apply wp2_read_v; [lia|done]. Qed.
Lemma wp_i j V I Q : 0 <= j < k -> Q (i32 (I (o + j))) V I -> wp2 (read_i32 (fptr out_i j)) V I Q.
Proof. intros Hj HQ. unfold out_i. rewrite fptr_fptr. apply wp2_read_i; [lia|done]. Qed.
Lemma wp_set_v j v V I Q : 0 <= j < k -> is_word v -> Q tt (upd V (o + j) v) I -> wp2 (write_word (fptr out_v j) v) V I Q.
Proof. intros Hj Hv HQ. unfold out_v. rewrite fptr_fptr. apply wp2_write_v; [lia|done..]. Qed.
Lemma wp_set_i j v V I Q : 0 <= j < k -> Q tt V (upd I (o + j) (u32 v)) -> wp2 (write_i32 (fptr out_i j) v) V I Q.
Proof. intros Hj HQ. unfold out_i. rewrite fptr_fptr. apply wp2_write_i; [lia|done]. Qed.

(** *** Step 1 *)
Lemma seed_ok V I : elsewhere V I -> wp2 (seed k row out_v out_i) V I (fun _ V' I' => rows V' I' (seqZ 0 k)).
Proof.
  intros He. eapply wp2_mono.
  - apply (wp2_each 0 k _ (fun m V I => (forall j, 0 <= j < m -> V (o + j) = x j /\ i32 (I (o + j)) = j) /\ elsewhere V I)); [lia|split; [lia|done]|].
    intros m V1 I1 Hm (Hp & He1). apply wp2_bind, wp_x; [unfold col; lia|]. apply wp2_bind, wp_set_v; [lia|apply x_word; unfold col; lia|].
    apply wp_set_i; [lia|]. split; [|apply elsewhere_upd; [done|lia]].
    intros j Hj. unfold upd. destruct (Z.eqb_spec (o + j) (o + m)).
    + replace j with m by lia. split; [done|]. apply i32_u32. lia.
    + apply Hp. lia.
  - cbv beta. intros _ V1 I1 (Hp & He1). split; [unfold zlen; rewrite length_seqZ; lia|]. split; [|done].
    intros j c [-> Hj]%lookup_seqZ. rewrite Z.add_0_l in *. apply Hp. lia.
Qed.

(** *** The weakest entry *)
Definition weakest_of (ws : list Z) (i a : Z) : Prop :=
  0 <= a < i /\ exists e, ws !! Z.to_nat a = Some e /\ forall j d, Z.of_nat j < i -> ws !! j = Some d -> d <> e -> before x d e = true.

Lemma find_weakest_ok V I ws : rows V I ws -> (forall c, c ∈ ws -> col C c) ->
  wp2 (find_weakest k out_v out_i) V I (fun a V' I' => V' = V /\ I' = I /\ 0 <= a < k /\ weakest_at x ws (Z.to_nat a)).
Proof.
  intros (Hl & Hw & _) Hcol. unfold zlen in Hl.
  assert (Hent : forall j, 0 <= j < k -> exists c, ws !! Z.to_nat j = Some c /\ V (o + j) = x c /\ i32 (I (o + j)) = c /\ col C c).
  { intros j Hj. destruct (lookup_lt_is_Some_2 ws (Z.to_nat j)) as [c Hc]; [lia|]. exists c. split; [done|].
    destruct (Hw _ _ Hc) as [H1 H2]. rewrite Z2Nat.id in H1, H2 by lia. repeat split; try done. all: eapply Hcol, list_elem_of_lookup_2, Hc. }
  eapply wp2_mono.
  - apply (wp2_fold 1 (k - 1) 0 _ (fun i a V' I' => V' = V /\ I' = I /\ weakest_of ws i a)); [lia| |].
    + split; [done|]. split; [done|]. split; [lia|]. destruct (Hent 0 ltac:(lia)) as (e & He & _). exists e. split; [done|].
      intros j d Hj Hd Hne'. replace j with 0%nat in Hd by lia. change (Z.to_nat 0) with 0%nat in He. congruence.
    + intros i a V' I' Hi (-> & -> & Ha & e & He & Hbest).
      destruct (Hent a ltac:(lia)) as (e' & He' & Hva & Hia & Hce). rewrite He in He'. injection He' as <-.
      destruct (Hent i ltac:(lia)) as (d & Hd & Hvi & Hii & Hcd).
      apply wp2_bind, wp_v; [lia|]. apply wp2_bind, wp_i; [lia|]. apply wp2_bind, wp_v; [lia|]. apply wp2_bind, wp_i; [lia|].
      apply wp2_ret. rewrite Hva, Hia, Hvi, Hii. fold (before x e d). do 2 (split; [done|]).
      destruct (before x e d) eqn:Hb.
      * split; [lia|]. exists d. split; [done|]. intros j f Hj Hf Hfd. destruct (decide (Z.of_nat j < i)).
        -- destruct (decide (f = e)) as [->|Hfe]; [done|]. assert (col C f) by (eapply Hcol, list_elem_of_lookup_2, Hf).
           apply (before_trans x C Hnan f e d); try done. by apply (Hbest j).
        -- replace j with (Z.to_nat i) in Hf by lia. congruence.
      * split; [lia|]. exists e. split; [done|]. intros j f Hj Hf Hfe. destruct (decide (Z.of_nat j < i)); [by apply (Hbest j)|].
        replace j with (Z.to_nat i) in Hf by lia. rewrite Hd in Hf. injection Hf as <-. apply (before_total x C Hnan e d); done || congruence.
  - cbv beta. intros a V' I' (-> & -> & Ha & e & He & Hbest). replace (1 + (k - 1)) with k in * by lia.
    do 2 (split; [done|]). split; [done|]. exists e. split; [done|]. intros d [j Hj]%list_elem_of_lookup_1 Hde.
    apply (Hbest j); [|done..]. apply lookup_lt_Some in Hj. lia.
Qed.

(** *** Step 2 *)
Lemma scan_ok V I ws a : rows V I ws -> top_of x k ws -> 0 <= a < k -> weakest_at x ws (Z.to_nat a) ->
  wp2 (scan k C row out_v out_i a) V I (fun _ V' I' => exists ws', rows V' I' ws' /\ top_of x C ws').
Proof.
  intros Hr Ht Ha Hwk. eapply wp2_mono.
  - apply (wp2_fold k (C - k) a _ (fun c a V I => exists ws, rows V I ws /\ top_of x c ws /\ 0 <= a < k /\ weakest_at x ws (Z.to_nat a)));
      [lia|by exists ws|].
    intros c a1 V1 I1 Hc (ws1 & Hr1 & Ht1 & Ha1 & e & He & Hbest). assert (Hcc : col C c) by (unfold col; lia).
    destruct (proj1 (proj2 Hr1) _ _ He) as [Hve Hie]. rewrite Z2Nat.id in Hve, Hie by lia.
    apply wp2_bind, wp_x; [done|]. apply wp2_bind, wp_v; [lia|]. apply wp2_bind, wp_i; [lia|]. rewrite Hve, Hie.
    fold (before x c e). destruct (before x c e) eqn:Hb.
    + apply wp2_bind, wp_set_v; [lia|by apply x_word|]. apply wp2_bind, wp_set_i; [lia|].
      pose proof (rows_put V1 I1 ws1 a1 c Hr1 Ha1 Hcc) as Hr2.
      assert (Ht2 : top_of x (c + 1) (<[Z.to_nat a1 := c]> ws1)) by (apply (top_replace x C Hnan c ws1 (Z.to_nat a1) e); try done; by exists e).
      eapply wp2_mono; [apply (find_weakest_ok _ _ _ Hr2)|].
      * intros d Hd. pose proof (to_col _ _ _ Ht2 d Hd). unfold col. lia.
      * intros a2 V2 I2 (-> & -> & Ha2 & Hw2). by eexists.
    + apply wp2_ret. exists ws1. split; [done|]. split; [|split; [done|by exists e]].
      apply (top_skip x C Hnan c ws1 (Z.to_nat a1) e); try done. by exists e.
  - cbv beta. intros a1 V1 I1 (ws1 & Hr1 & Ht1 & _). exists ws1. split; [done|]. by replace (k + (C - k)) with C in Ht1 by lia.
Qed.

(** *** Step 3 *)

Lemma rows_at V I l c r : rows V I (l ++ c :: r) -> V (o + zlen l) = x c /\ i32 (I (o + zlen l)) = c /\ 0 <= zlen l < k.
Proof.
  intros (Hl & Hw & _). destruct (Hw (length l) c) as [H1 H2]; [by apply list_lookup_middle|]. split; [done|]. split; [done|].
  rewrite zlen_app, zlen_cons in Hl. pose proof (zlen_nonneg l). pose proof (zlen_nonneg r). lia.
Qed.

Lemma rows_put_at V I l c d r : rows V I (l ++ c :: r) -> col C d ->
  rows (upd V (o + zlen l) (x d)) (upd I (o + zlen l) (u32 d)) (l ++ d :: r).
Proof.
  intros Hr Hd. pose proof (rows_at V I l c r Hr) as (_ & _ & Hj). pose proof (rows_put V I _ _ d Hr Hj Hd) as H.
  unfold zlen in *. rewrite Nat2Z.id in H. by rewrite insert_app_r_alt, Nat.sub_diag in H by lia.
Qed.

(** The [while] loop makes a hole for [e] in the sorted prefix [a]. *)
Lemma shift_ok e a h b V I : col C e -> (forall c, c ∈ a -> col C c) -> rows V I (a ++ h :: b) ->
  wp2 (shift out_v out_i (length a) (x e) e) V I (fun j V' I' => exists a1 a2 h', a = a1 ++ a2 /\ j = zlen a1 /\
    rows V' I' (a1 ++ h' :: a2 ++ b) /\ (forall y, y ∈ a2 -> before x e y = true) /\
    (forall y a', a1 = a' ++ [y] -> before x e y = false)).
Proof.
  intros He. revert h b V I. induction a as [|y a IH] using rev_ind; intros h b V I Ha Hr.
  { apply wp2_ret. exists [], [], h. split; [done|]. split; [done|]. split; [done|]. split; [by intros y Hy%elem_of_nil|].
    intros y a' E. symmetry in E. by apply app_eq_nil in E as [_ ?]. }
  rewrite length_app. cbn [length]. rewrite Nat.add_1_r. cbn [shift]. fold (zlen a).
  replace (Z.of_nat (S (length a))) with (zlen (a ++ [y])) by (unfold zlen; rewrite length_app; cbn; lia).
  assert (Hcy : col C y) by (apply Ha, elem_of_app; right; left).
  assert (Hr' : rows V I (a ++ y :: h :: b)) by by rewrite <- (assoc_L (++) a [y]) in Hr.
  destruct (rows_at V I a y (h :: b) Hr') as (Hv & Hi & Hj). destruct (rows_at V I (a ++ [y]) h b Hr) as (_ & _ & Hj').
  apply wp2_bind, wp_v; [done|]. apply wp2_bind, wp_i; [done|]. rewrite Hv, Hi. fold (before x e y).
  destruct (before x e y) eqn:Hb.
  - apply wp2_bind, wp_v; [done|]. rewrite Hv. apply wp2_bind, wp_set_v; [done|by apply x_word|].
    apply wp2_bind, wp_i; [done|]. rewrite Hi. apply wp2_bind, wp_set_i; [done|].
    pose proof (rows_put_at V I (a ++ [y]) h y b Hr Hcy) as Hr2. rewrite <- (assoc_L (++) a [y]) in Hr2.
    eapply wp2_mono; [apply (IH y (y :: b)); [intros c Hc; apply Ha, elem_of_app; by left|exact Hr2]|].
    intros j V2 I2 (a1 & a2 & h' & -> & -> & Hr3 & H2 & H1). exists a1, (a2 ++ [y]), h'.
    rewrite <- !(assoc_L (++)). split; [done|]. split; [done|]. split; [done|]. split; [|done].
    intros z [Hz|Hz]%elem_of_app; [by apply H2|]. apply list_elem_of_singleton in Hz as ->. done.
  - apply wp2_ret. exists (a ++ [y]), [], h. rewrite app_nil_r. split; [done|]. split; [done|]. split; [done|].
    split; [by intros z Hz%elem_of_nil|]. intros z a' E. by apply app_inj_tail in E as [_ <-].
Qed.

Lemma top_perm n0 ws ws' : ws ≡ₚ ws' -> top_of x n0 ws -> top_of x n0 ws'.
Proof.
  intros Hp [H1 H2 H3]. split; [by rewrite <- Hp|..].
  - intros c Hc. apply H2. by rewrite Hp.
  - intros c d Hc Hno Hd. apply H3; [done|by rewrite Hp|by rewrite Hp].
Qed.

Lemma insertion_sort_ok V I ws : rows V I ws -> top_of x C ws ->
  wp2 (insertion_sort k out_v out_i) V I (fun _ V' I' => exists ws', rows V' I' ws' /\ top_row x C k ws').
Proof.
  intros Hr Ht. eapply wp2_mono.
  - apply (wp2_each 1 (k - 1) _ (fun i V I => exists a b, zlen a = i /\ rows V I (a ++ b) /\ top_of x C (a ++ b) /\ ascending x a)); [lia| |].
    + destruct ws as [|c ws]; [destruct Hr as [Hl _]; change (0 = k) in Hl; lia|]. exists [c], ws. split; [done|]. split; [done|]. split; [done|].
      constructor; constructor.
    + intros i V1 I1 Hi (a & b & Hla & Hr1 & Ht1 & Hs). destruct b as [|e b].
      { destruct Hr1 as [Hl _]. rewrite app_nil_r in Hl. lia. }
      destruct (rows_at V1 I1 a e b Hr1) as (Hv & Hie & Hj). rewrite Hla in *.
      assert (Hcol : forall c, c ∈ a ++ e :: b -> col C c) by (intros c Hc; apply (to_col _ _ _ Ht1 c Hc)).
      assert (He : col C e) by (apply Hcol, elem_of_app; right; left).
      assert (Hca : forall c, c ∈ a -> col C c) by (intros c Hc; apply Hcol, elem_of_app; by left).
      apply wp2_bind, wp_v; [done|]. apply wp2_bind, wp_i; [done|]. rewrite Hv, Hie. apply wp2_bind.
      replace (Z.to_nat i) with (length a) by (unfold zlen in Hla; lia).
      eapply wp2_mono; [apply (shift_ok e a e b V1 I1 He Hca Hr1)|]. intros j V2 I2 (a1 & a2 & h & -> & -> & Hr2 & H2 & H1).
      pose proof (rows_put_at V2 I2 a1 h e (a2 ++ b) Hr2 He) as Hr3. destruct (rows_at V2 I2 a1 h (a2 ++ b) Hr2) as (_ & _ & Hj2).
      apply wp2_bind, wp_set_v; [done|by apply x_word|]. apply wp_set_i; [done|]. exists (a1 ++ e :: a2), b.
      split; [rewrite zlen_app, zlen_cons; rewrite zlen_app in Hla; lia|].
      rewrite <- (assoc_L (++) a1). split; [done|]. split.
      * eapply top_perm; [|exact Ht1]. rewrite <- (assoc_L (++) a1 a2). apply Permutation_app_head. cbn. symmetry. apply Permutation_middle.
      * pose proof (to_nodup _ _ _ Ht1) as Hnd.
        assert (Hfresh : e ∉ a1 ++ a2).
        { apply NoDup_app in Hnd as (_ & Hdis & _). intros Hin. apply (Hdis e Hin). left. }
        apply StronglySorted_app in Hs as (Hx & Hs1 & Hs2).
        assert (H1e : forall y, y ∈ a1 -> before x y e = true).
        { intros y Hy. destruct (destruct_snoc a1) as [->|(a1' & z & ->)]; [by apply elem_of_nil in Hy|].
          assert (Hz : before x z e = true).
          { assert (Hcz : col C z) by (apply Hca, elem_of_app; left; apply elem_of_app; right; left).
            apply (before_total x C Hnan e z He Hcz); [|by apply (H1 z a1')].
            intros ->. apply Hfresh, elem_of_app. left. apply elem_of_app. right. left. }
          apply elem_of_app in Hy as [Hy|Hy]; [|by apply list_elem_of_singleton in Hy as ->].
          apply StronglySorted_app in Hs1 as (Hyz & _ & _).
          apply (before_trans x C Hnan y z e); [apply Hca; rewrite !elem_of_app; auto|apply Hca; rewrite !elem_of_app; left; right; left|done| |done].
          apply Hyz; [done|left]. }
        apply StronglySorted_app. split; [|split; [done|]].
        -- intros y z Hy [->|Hz]%elem_of_cons; [by apply H1e|by apply Hx].
        -- constructor; [done|]. apply Forall_forall. intros y Hy. by apply H2.
  - cbv beta. replace (1 + (k - 1)) with k by lia. intros _ V1 I1 (a & b & Hla & Hr1 & Ht1 & Hs).
    assert (b = []) as ->.
    { destruct Hr1 as [Hl _]. rewrite zlen_app in Hl. destruct b; [done|]. rewrite zlen_cons in Hl. pose proof (zlen_nonneg b). lia. }
    rewrite app_nil_r in *. exists a. split; [done|]. split; [apply Hr1|]. by split.
Qed.

(** The streaming path leaves the row's first columns. *)
Lemma streaming_ok V I : elsewhere V I ->
  wp2 (streaming k C row out_v out_i) V I (fun _ V' I' => exists ws, rows V' I' ws /\ top_row x C k ws).
Proof.
  intros He. apply wp2_bind. eapply wp2_mono; [by apply seed_ok|]. cbv beta; intros u V1 I1 H1. apply wp2_bind.
  assert (Hc : forall c, c ∈ seqZ 0 k -> col C c) by (intros c Hc%elem_of_seqZ; unfold col; lia).
  eapply wp2_mono; [by apply (find_weakest_ok _ _ _ H1)|]. intros a V2 I2 (-> & -> & Ha & Hw). cbv beta. apply wp2_bind.
  eapply wp2_mono; [apply (scan_ok _ _ _ a H1); [apply top_seed; lia|done..]|].
  intros _ V3 I3 (ws & H3 & Ht). cbv beta. by apply (insertion_sort_ok V3 I3 ws).
Qed.
(** *** The other path *)
Lemma vals_ok V I l : (forall c, c ∈ l -> col C c) -> forall vs,
  wp2 (fold_m l vs (fun vs c => v ← read_word (fptr row c); mret (vs ++ [v]))) V I (fun r V' I' => V' = V /\ I' = I /\ r = vs ++ map x l).
Proof.
  induction l as [|c l IH]; intros Hl vs; [apply wp2_ret; by rewrite app_nil_r|]. cbn [fold_m]. apply wp2_bind, wp2_bind, wp_x; [apply Hl; left|].
  apply wp2_ret. eapply wp2_mono; [apply IH; intros d Hd; apply Hl; by right|]. cbv beta. intros r V' I' (-> & -> & ->).
  by rewrite <- (assoc_L (++)).
Qed.

Lemma nth_map_col c : col C c -> nth (Z.to_nat c) (map x (seqZ 0 C)) 0 = x c.
Proof.
  intros Hc. unfold col in Hc. apply nth_lookup_Some. change (map x (seqZ 0 C)) with (x <$> seqZ 0 C).
  rewrite list_lookup_fmap, lookup_seqZ_lt by lia. cbn. f_equal. f_equal. lia.
Qed.

Lemma sorting_ok V I : elsewhere V I ->
  wp2 (sorting k C row out_v out_i) V I (fun _ V' I' => exists ws, rows V' I' ws /\ top_row x C k ws).
Proof.
  intros He. apply wp2_bind. eapply wp2_mono; [apply (vals_ok V I (seqZ 0 C)); intros c Hc%elem_of_seqZ; unfold col; lia|].
  cbv beta. intros r V1 I1 (-> & -> & ->). cbn [app].
  replace (existsb F32.is_nan (map x (seqZ 0 C))) with false.
  2: { symmetry. apply not_true_is_false. intros (v & Hv & Hn)%existsb_exists. apply in_map_iff in Hv as (c & <- & Hc).
       apply list_elem_of_In, elem_of_seqZ in Hc. rewrite Hnan in Hn; [done|lia]. }
  cbv zeta. set (order := partial_sort _ _ _).
  assert (Hord : top_row x C k order).
  { apply (partial_sort_top x C Hnan); [|lia]. intros a b Ha Hb. by rewrite !nth_map_col. }
  clearbody order. pose proof Hord as (Hl & Ht & _). eapply wp2_mono.
  - apply (wp2_each 0 k _ (fun m V I => (forall j c, Z.of_nat j < m -> order !! j = Some c -> V (o + Z.of_nat j) = x c /\ i32 (I (o + Z.of_nat j)) = c) /\ elsewhere V I));
      [lia|split; [lia|done]|].
    intros m V1 I1 Hm (Hp & He1). destruct (lookup_lt_is_Some_2 order (Z.to_nat m)) as [c Hc]; [unfold zlen in Hl; lia|].
    rewrite (nth_lookup_Some _ _ _ _ Hc). assert (Hcc : col C c) by (apply (to_col _ _ _ Ht); by eapply list_elem_of_lookup_2).
    apply wp2_bind, wp_set_i; [lia|]. apply wp2_bind, wp_x; [done|]. apply wp_set_v; [lia|by apply x_word|].
    split; [|apply elsewhere_upd; [done|lia]]. intros j d Hj Hd. unfold upd. destruct (Z.eqb_spec (o + Z.of_nat j) (o + m)).
    + replace j with (Z.to_nat m) in Hd by lia. rewrite Hc in Hd. injection Hd as <-. split; [done|]. apply i32_u32. unfold col in Hcc. lia.
    + apply Hp; [lia|done].
  - cbv beta. intros _ V1 I1 (Hp & He1). exists order. split; [|done]. split; [done|]. split; [|done].
    intros j c Hc. apply Hp; [|done]. apply lookup_lt_Some in Hc. unfold zlen in Hl. lia.
Qed.

(** The two algorithms for a row are interchangeable: started on the same
    buffers, the streaming selection in the output row and the partial sort of
    the columns both return, and leave the same values and the same columns
    (and the rest of both buffers as it was). *)
Theorem streaming_sorting_agree V I w : elsewhere V I -> two w V I ->
  exists h1 V1 I1 h2 V2 I2,
    streaming k C (fptr px ro) (fptr (Some (bv, 0)) o) (fptr (Some (bi, 0)) o) w = (Ret tt, with_heap w h1) /\ two (with_heap w h1) V1 I1 /\
    sorting k C (fptr px ro) (fptr (Some (bv, 0)) o) (fptr (Some (bi, 0)) o) w = (Ret tt, with_heap w h2) /\ two (with_heap w h2) V2 I2 /\
    forall i, 0 <= i < n -> V1 i = V2 i /\ i32 (I1 i) = i32 (I2 i).
Proof.
  intros He Hw. destruct (streaming_ok V I He w Hw) as ([] & V1 & I1 & h1 & E1 & Hw1 & ws1 & (Hl1 & Hp1 & He1) & Ht1).
  destruct (sorting_ok V I He w Hw) as ([] & V2 & I2 & h2 & E2 & Hw2 & ws2 & (Hl2 & Hp2 & He2) & Ht2).
  exists h1, V1, I1, h2, V2, I2. do 4 (split; [done|]). pose proof (top_row_unique x C Hnan k ws1 ws2 Ht1 Ht2) as <-.
  intros i Hi. destruct (decide (o <= i < o + k)) as [Hin|Hout].
  - destruct (lookup_lt_is_Some_2 ws1 (Z.to_nat (i - o))) as [c Hc]; [unfold zlen in Hl1; lia|].
    destruct (Hp1 _ _ Hc) as [A1 B1]. destruct (Hp2 _ _ Hc) as [A2 B2]. rewrite Z2Nat.id in * by lia.
    replace (o + (i - o)) with i in * by lia. split; congruence.
  - destruct (He1 i Hi Hout) as [-> ->]. by destruct (He2 i Hi Hout) as [-> ->].
Qed.
End Row.
(** *** Every row *)
Section Rows.
Context (px : ptr) (xx : Z -> Z) (R k C : Z).
Context (Hsv : source h0 bv px (R * C) xx) (Hsi : source h0 bi px (R * C) xx).
Context (HR : 0 <= R) (Hk : 1 <= k <= C) (HC : C <= INT_MAX) (Hn : n = R * k).
Context (Hnan : forall i, 0 <= i < R * C -> F32.is_nan (xx i) = false).

(** Row [r] of the outputs is row [r]'s answer. *)
Definition row_done (V I : Z -> Z) (r : Z) : Prop :=
  exists ws, top_row (fun c => xx (r * C + c)) C k ws /\
    forall j c, ws !! j = Some c -> V (r * k + Z.of_nat j) = xx (r * C + c) /\ i32 (I (r * k + Z.of_nat j)) = c.

Lemma all_rows_ok V I : wp2 (for_ R (fun r =>
      if k >? kSortThreshold then sorting k C (fptr px (r * C)) (fptr (Some (bv, 0)) (r * k)) (fptr (Some (bi, 0)) (r * k))
      else streaming k C (fptr px (r * C)) (fptr (Some (bv, 0)) (r * k)) (fptr (Some (bi, 0)) (r * k)))) V I
  (fun _ V' I' => forall r, 0 <= r < R -> row_done V' I' r).
Proof.
  eapply wp2_mono; [apply (wp2_each 0 R _ (fun m V I => forall r, 0 <= r < m -> row_done V I r)); [lia|lia|]|done].
  intros m V1 I1 Hm IH.
  assert (Hgo : forall path, path = sorting \/ path = streaming ->
    wp2 (path k C (fptr px (m * C)) (fptr (Some (bv, 0)) (m * k)) (fptr (Some (bi, 0)) (m * k))) V1 I1
      (fun _ V' I' => exists ws, rows xx (m * C) (m * k) k V1 I1 V' I' ws /\ top_row (fun c => xx (m * C + c)) C k ws)).
  { assert (elsewhere (m * k) k V1 I1 V1 I1) by (intros i Hi Hno; done). intros path [-> | ->].
    - apply (sorting_ok px (R * C)); try done; try nia. intros c Hc. apply Hnan. nia.
    - apply (streaming_ok px (R * C)); try done; try nia. intros c Hc. apply Hnan. nia. }
  assert (Hpost : forall V' I', (exists ws, rows xx (m * C) (m * k) k V1 I1 V' I' ws /\ top_row (fun c => xx (m * C + c)) C k ws) ->
    forall r, 0 <= r < m + 1 -> row_done V' I' r).
  { intros V' I' (ws & (Hl & Hw & He) & Ht) r Hr. destruct (Z.eq_dec r m) as [->|Hrm]; [by exists ws|].
    destruct (IH r ltac:(lia)) as (ws1 & Ht1 & Hw1). exists ws1. split; [done|]. intros j c Hj.
    assert (Hjk : 0 <= Z.of_nat j < k) by (apply lookup_lt_Some in Hj; destruct Ht1 as [Hl1 _]; unfold zlen in Hl1; lia).
    destruct (He (r * k + Z.of_nat j)) as [-> ->]; [nia|nia|by apply Hw1]. }
  destruct (k >? kSortThreshold); (eapply wp2_mono; [apply Hgo; auto|intros u V' I'; apply Hpost]).
Qed.
End Rows.
End Two.



(** ** The operation *)
Section Spec.
Context (rt : runtime) (Hlaw : forall t s, rt_slots rt t = Some s -> LawfulAlloc t (slot_alloc s)).
Context (F : gset positive).
Context (w : world) (X Vals Idx : positive) (tX tV tI : Tensor) (R C k : Z).
Let x := words (w_heap w) (t_data tX).

(** What the caller provides. *)
Record top_k_call : Prop := {
  tk_inv : inv rt F w;
  tk_x : operand w X tX FP32 (R * C);
  tk_shape : t_rows tX = R /\ t_cols tX = C;
  tk_dims : dim R /\ dim C;
  tk_vals : w_objs w !! Vals = Some tV /\ output tV /\ beside tX tV;
  tk_idx : w_objs w !! Idx = Some tI /\ output tI /\ beside tX tI;
  tk_apart : X <> Vals /\ X <> Idx /\ Vals <> Idx
}.

(** Two outputs that are ready, in turn. *)
Lemma source_kept w1 t1 : operand w X tX FP32 (R * C) -> X <> Vals -> beside tX tV ->
  w_objs w1 = <[Vals := t1]> (w_objs w) -> untouched tV (w_heap w) (w_heap w1) ->
  operand w1 X tX FP32 (R * C) /\ (0 < R * C -> forall i, words (w_heap w1) (t_data tX) i = x i).
Proof.
  intros HX Hne Hb Ho Hu. assert (Hfresh : exists b, w_heap w !! b = None).
  { exists (fresh (dom (w_heap w))). apply not_elem_of_dom, is_fresh. }
  destruct Hfresh as [b Hf]. destruct (operand_after w w1 X tX FP32 (R * C) Vals tV t1 b HX Hne Hb Ho Hu (or_intror Hf)) as [H1 H2].
  destruct HX as (_ & Hd & Hc & _). split; [do 3 (split; [done|])|]; intros Hpos; destruct (H2 Hpos) as (? & _ & Hw); [done|]. intros i. apply Hw.
Qed.

(** The loops, once both outputs are ready. *)
Lemma loops_ok w2 (I2 : inv rt F w2) t1 t2 bv bi kv ki : bv <> bi -> t_data t1 = Some (bv, 0) -> t_data t2 = Some (bi, 0) ->
  w_heap w2 !! bv = Some kv -> w_heap w2 !! bi = Some ki -> dev_type (blk_dev kv) = CPU -> dev_type (blk_dev ki) = CPU ->
  4 * (R * k) <= zlen (blk_bytes kv) -> 4 * (R * k) <= zlen (blk_bytes ki) ->
  source (w_heap w2) bv (t_data tX) (R * C) x -> source (w_heap w2) bi (t_data tX) (R * C) x ->
  0 <= R -> 1 <= k <= C -> C <= INT_MAX -> (forall i, 0 <= i < R * C -> F32.is_nan (x i) = false) ->
  exists h, for_ R (fun r =>
      if k >? kSortThreshold then sorting k C (fptr (t_data tX) (r * C)) (fptr (t_data t1) (r * k)) (fptr (t_data t2) (r * k))
      else streaming k C (fptr (t_data tX) (r * C)) (fptr (t_data t1) (r * k)) (fptr (t_data t2) (r * k))) w2 = (Ret tt, with_heap w2 h) /\
    inv rt F (with_heap w2 h) /\ (forall b, b <> bv -> b <> bi -> h !! b = w_heap w2 !! b) /\
    forall r, 0 <= r < R -> row_done x k C (words h (t_data t1)) (words h (t_data t2)) r.
Proof.
  intros Hne Epv Epi Hkv Hki Htv Hti Hzv Hzi Hsv Hsi HR Hk HC Hnan. rewrite Epv, Epi.
  assert (Htwo : two (w_heap w2) (w_objs w2) bv bi (blk_dev kv) (blk_dev ki) (zlen (blk_bytes kv)) (zlen (blk_bytes ki)) (R * k) w2
            (wd (blk_bytes kv)) (wd (blk_bytes ki))).
  { exists (blk_bytes kv), (blk_bytes ki). split; [|done]. rewrite (insert_id (w_heap w2) bv) by (rewrite Hkv; by destruct kv).
    symmetry. apply insert_id. rewrite Hki. by destruct ki. }
  destruct (all_rows_ok (w_heap w2) (w_objs w2) bv bi (blk_dev kv) (blk_dev ki) (zlen (blk_bytes kv)) (zlen (blk_bytes ki)) (R * k)
              Hne Htv Hti Hzv Hzi (t_data tX) x R k C Hsv Hsi HR Hk HC eq_refl Hnan _ _ w2 Htwo)
    as ([] & V' & I' & h & E & (bsv & bsi & Hh & Hzv' & Hzi' & _ & HwV' & HwI') & Hrows).
  exists h. cbn in Hh. split; [done|]. rewrite Hh. split.
  { split; [|apply I2]. cbn. apply (wf_write rt F _ _) with (blk := ki); [|by rewrite lookup_insert_ne|done].
    by apply (wf_write rt F _ _ (proj1 I2) bv kv). }
  split; [intros b Hv Hi; by rewrite !lookup_insert_ne|].
  intros r Hr0. destruct (Hrows r Hr0) as (ws & Ht & Hw). exists ws. split; [done|]. intros j c Hj.
  assert (Hjk : 0 <= Z.of_nat j < k) by (apply lookup_lt_Some in Hj; destruct Ht as [Hl1 _]; unfold zlen in Hl1; lia).
  rewrite (words_wd _ bv (mkBlock (blk_dev kv) bsv) (R * k)); [|by rewrite lookup_insert_ne, lookup_insert, decide_True|cbn; lia|nia].
  rewrite (words_wd _ bi (mkBlock (blk_dev ki) bsi) (R * k)); [|by rewrite lookup_insert, decide_True|cbn; lia|nia].
  cbn [blk_bytes]. rewrite HwV', HwI' by nia. by apply Hw.
Qed.

(** Both outputs resized: the objects and blocks of a state in which the loops
    can run. *)
Record outputs_ready (w2 : world) (t1 t2 : Tensor) : Prop := {
  or_inv : inv rt F w2;
  or_objs : w_objs w2 = <[Idx := t2]> (<[Vals := t1]> (w_objs w));
  or_keep : forall b, is_Some (w_heap w !! b) -> owned_block tV <> Some b -> owned_block tI <> Some b -> w_heap w2 !! b = w_heap w !! b;
  or_vals : output t1 /\ t_rows t1 = R /\ t_cols t1 = k /\ t_dtype t1 = FP32;
  or_idx : output t2 /\ t_rows t2 = R /\ t_cols t2 = k /\ t_dtype t2 = INT32;
  or_words : 0 < R * k -> host_words (w_heap w2) (t_data t1) (R * k) /\ host_words (w_heap w2) (t_data t2) (R * k);
  or_x : operand w2 X tX FP32 (R * C);
  or_read : 0 < R * k -> forall t b, (t = t1 \/ t = t2) -> owned_block t = Some b ->
    source (w_heap w2) b (t_data tX) (R * C) x /\
    (is_Some (w_heap w !! b) -> owned_block tV = Some b \/ owned_block tI = Some b)
}.

Lemma ensured_ready w1 w2 : top_k_call -> 1 <= k <= C ->
  ensure rt Vals R k FP32 w = (Ret tt, w1) -> ensure rt Idx R k INT32 w1 = (Ret tt, w2) -> exists t1 t2, outputs_ready w2 t1 t2.
Proof.
  intros [I HX (Hr & Hc) (HR & HC) (HV & HoV & HbV) (HI & HoI & HbI) (HXV & HXI & HVI)] Hk E1 E2. unfold dim in HR, HC.
  assert (HkM : 0 <= k <= INT_MAX) by lia.
  pose proof (ensure_spec rt Hlaw F w Vals tV R k FP32 I HV HoV (conj eq_refl eq_refl) HR HkM) as H1. unfold outcome in H1. rewrite E1 in H1.
  destruct H1 as (t1 & Ho1 & I1 & Hu1 & Hout1 & Hr1 & Hc1 & Hd1 & Hw1 & Hb1 & _).
  assert (HI1 : w_objs w1 !! Idx = Some tI) by by rewrite Ho1, lookup_insert_ne.
  pose proof (ensure_spec rt Hlaw F w1 Idx tI R k INT32 I1 HI1 HoI (conj eq_refl eq_refl) HR HkM) as H2. unfold outcome in H2. rewrite E2 in H2.
  destruct H2 as (t2 & Ho2 & I2 & Hu2 & Hout2 & Hr2 & Hc2 & Hd2 & Hw2 & Hb2 & _).
  destruct (source_kept w1 t1 HX HXV HbV Ho1 Hu1) as [HX1 Hx1]. exists t1, t2.
  assert (Hfresh : exists b, w_heap w1 !! b = None) by (exists (fresh (dom (w_heap w1))); apply not_elem_of_dom, is_fresh).
  destruct Hfresh as [b0 Hb0].
  split; [done|by rewrite Ho2, Ho1| |done|done| | |].
  - intros b Hb Hv Hi. rewrite Hu2; [by apply Hu1|by rewrite Hu1|done].
  - intros Hpos. split; [|by apply Hw2]. apply (owned_words rt F w2 Vals t1); try done.
    + by rewrite Ho2, lookup_insert_ne, Ho1, lookup_insert, decide_True by done.
    + destruct Hout1 as (_ & _ & [Ho|[Hn _]]); [done|]. destruct (Hw1 Hpos) as (b & off & blk & Ep & _). by rewrite Hn in Ep.
    + apply Hout1.
    + rewrite <- (set_shape_id t1), Hr1, Hc1, Hd1, size_words; done || lia.
  - pose proof (operand_after w1 w2 X tX FP32 (R * C) Idx tI t2 b0 HX1 HXI HbI Ho2 Hu2 (or_intror Hb0)) as [HtX2 Hs].
    destruct HX1 as (_ & Hd & Hcpu & _). split; [done|]. split; [done|]. split; [done|]. intros HposX. by destruct (Hs HposX).
  - intros Hpos t b Ht Hb. assert (HposX : 0 < R * C) by nia.
    assert (Hsrc : forall b', owned_block tI = Some b' \/ w_heap w1 !! b' = None -> source (w_heap w2) b' (t_data tX) (R * C) x).
    { intros b' Hb' _. destruct (operand_after w1 w2 X tX FP32 (R * C) Idx tI t2 b' HX1 HXI HbI Ho2 Hu2 Hb') as [_ Hs].
      destruct (Hs HposX) as (? & ? & Hw). split; [done|]. split; [done|]. intros i. rewrite Hw. by apply Hx1. }
    destruct Ht as [-> | ->].
    + split; [|intros Hsome; destruct (Hb1 b Hb) as [?|Hn]; [by left|]; rewrite Hn in Hsome; by destruct Hsome].
      intros _. destruct (Hsrc b0 (or_intror Hb0) HposX) as (? & _ & ?).
      destruct (operand_after w w1 X tX FP32 (R * C) Vals tV t1 b HX HXV HbV Ho1 Hu1 (Hb1 b Hb)) as [_ Hs]. by destruct (Hs HposX) as (_ & ? & _).
    + split; [by apply Hsrc, Hb2|]. intros Hsome. destruct (Hb2 b Hb) as [?|Hn]; [by right|]. left.
      destruct (decide (owned_block tV = Some b)) as [?|Hne]; [done|]. rewrite Hu1 in Hn by done. rewrite Hn in Hsome. by destruct Hsome.
Qed.

(** The loops leave the rows done. *)
Lemma ready_rows w2 t1 t2 : top_k_call -> 1 <= k <= C -> (forall i, 0 <= i < R * C -> F32.is_nan (x i) = false) -> 0 < R ->
  outputs_ready w2 t1 t2 ->
  exists h, for_ R (fun r =>
      if k >? kSortThreshold then sorting k C (fptr (t_data tX) (r * C)) (fptr (t_data t1) (r * k)) (fptr (t_data t2) (r * k))
      else streaming k C (fptr (t_data tX) (r * C)) (fptr (t_data t1) (r * k)) (fptr (t_data t2) (r * k))) w2 = (Ret tt, with_heap w2 h) /\
    inv rt F (with_heap w2 h) /\
    (forall b, is_Some (w_heap w !! b) -> owned_block tV <> Some b -> owned_block tI <> Some b -> h !! b = w_heap w !! b) /\
    forall r, 0 <= r < R -> row_done x k C (words h (t_data t1)) (words h (t_data t2)) r.
Proof.
  intros [_ _ _ (HR & HC) _ _ (_ & _ & HVI)] Hk Hnan HR0 [I2 Ho Hkeep (Hout1 & _) (Hout2 & _) Hwd _ Hread]. unfold dim in HR, HC.
  assert (Hpos : 0 < R * k) by nia. destruct (Hwd Hpos) as [Hw1 Hw2].
  assert (Hown : forall t, output t -> host_words (w_heap w2) (t_data t) (R * k) -> t_owns t = true).
  { intros t (_ & _ & [?|[Hn _]]) (b & off & blk & Ep & _); [done|by rewrite Hn in Ep]. }
  assert (Ht1 : w_objs w2 !! Vals = Some t1) by by rewrite Ho, lookup_insert_ne, lookup_insert, decide_True.
  assert (Ht2 : w_objs w2 !! Idx = Some t2) by by rewrite Ho, lookup_insert, decide_True.
  destruct (owned_at rt F w2 Vals t1 (R * k) I2 Ht1 (Hown _ Hout1 Hw1) Hw1) as (bv & kv & Epv & Hobv & Hkv & Htv & Hzv).
  destruct (owned_at rt F w2 Idx t2 (R * k) I2 Ht2 (Hown _ Hout2 Hw2) Hw2) as (bi & ki & Epi & Hobi & Hki & Hti & Hzi).
  assert (Hne : bv <> bi) by (intros ->; apply HVI; by apply (wf_uniq _ _ _ _ (proj1 I2) Vals Idx t1 t2 bi)).
  destruct (Hread Hpos t1 bv (or_introl eq_refl) Hobv) as [Hsv Hfv]. destruct (Hread Hpos t2 bi (or_intror eq_refl) Hobi) as [Hsi Hfi].
  destruct (loops_ok w2 I2 t1 t2 bv bi kv ki Hne Epv Epi Hkv Hki Htv Hti Hzv Hzi Hsv Hsi (Z.lt_le_incl _ _ HR0) Hk (proj2 HC) Hnan) as (h & E & I3 & Hh & Hrows).
  exists h. split; [done|]. split; [done|]. split; [|done]. intros b Hb Hv Hi. rewrite Hh; [by apply Hkeep|..]; intros ->.
  - by destruct (Hfv Hb).
  - by destruct (Hfi Hb).
Qed.

(** C15: [top_k_rows] selects and orders. With [1 <= k <= C] and no NaN in [X]
    it leaves, for every row, the [k] first of its columns under the order
    "larger value first, then smaller column" (in that order, none twice, and
    every column left out comes after all of them) in [Idx], and their values
    in [Vals]; both the streaming path and the sorting path. It has no
    undefined behaviour, throws only when memory runs out, and changes no
    other object and no other block. *)
Theorem top_k_rows_selects : top_k_call -> 1 <= k <= C -> (forall i, 0 <= i < R * C -> F32.is_nan (x i) = false) ->
  safely rt F (top_k_rows rt X k Vals Idx) (fun w' => inv rt F w' /\
    (forall b, is_Some (w_heap w !! b) -> owned_block tV <> Some b -> owned_block tI <> Some b -> w_heap w' !! b = w_heap w !! b) /\
    exists tV' tI', w_objs w' = <[Idx := tI']> (<[Vals := tV']> (w_objs w)) /\
      t_rows tV' = R /\ t_cols tV' = k /\ t_dtype tV' = FP32 /\ t_rows tI' = R /\ t_cols tI' = k /\ t_dtype tI' = INT32 /\
      forall r, 0 <= r < R -> row_done x k C (words (w_heap w') (t_data tV')) (words (w_heap w') (t_data tI')) r) w.
Proof.
  intros Hcall Hk Hnan. pose proof Hcall as [I HX (Hr & Hc) (HR & HC) (HV & HoV & HbV) (HI & HoI & HbI) (HXV & HXI & HVI)]. unfold dim in HR, HC.
  pose proof HX as (HtX & HdX & HcX & _). unfold safely, top_k_rows.
  rewrite (st_bind_ret _ _ _ tX w) by by apply obj_eq. rewrite (st_bind_ret _ _ _ tt w) by by apply check_fp32_ok. cbv zeta.
  rewrite Hr, Hc. do 2 rewrite (st_bind_ret _ _ _ tt w) by (apply fail_if_false; rewrite ?Z.gtb_ltb; apply Z.ltb_ge; lia).
  assert (HkM : 0 <= k <= INT_MAX) by lia.
  pose proof (ensure_spec rt Hlaw F w Vals tV R k FP32 I HV HoV (conj eq_refl eq_refl) HR HkM) as H1. unfold outcome in H1.
  destruct (ensure rt Vals R k FP32 w) as [[[]|e|] w1] eqn:E1; [|rewrite (st_bind_throw _ _ _ _ _ E1); apply H1|done].
  rewrite (st_bind_ret _ _ _ _ _ E1). destruct H1 as (t1' & Ho1 & I1 & _).
  assert (HI1 : w_objs w1 !! Idx = Some tI) by by rewrite Ho1, lookup_insert_ne.
  pose proof (ensure_spec rt Hlaw F w1 Idx tI R k INT32 I1 HI1 HoI (conj eq_refl eq_refl) HR HkM) as H2. unfold outcome in H2.
  destruct (ensure rt Idx R k INT32 w1) as [[[]|e|] w2] eqn:E2; [|rewrite (st_bind_throw _ _ _ _ _ E2); apply H2|done].
  rewrite (st_bind_ret _ _ _ _ _ E2). clear t1' Ho1 I1 HI1 H2.
  destruct (ensured_ready w1 w2 Hcall Hk E1 E2) as (t1 & t2 & Hready).
  pose proof Hready as [I2 Ho Hkeep (Hout1 & Hr1 & Hc1 & Hd1) (Hout2 & Hr2 & Hc2 & Hd2) _ (HtX2 & _) _].
  destruct (Z.eq_dec R 0) as [HR0|HR0].
  { rewrite HR0. cbn [Z.eqb orb]. split; [done|]. split; [done|]. exists t1, t2. rewrite <- HR0. split; [done|]. do 6 (split; [done|]). lia. }
  replace ((R =? 0) || (k =? 0)) with false by (symmetry; apply orb_false_intro; apply Z.eqb_neq; lia).
  rewrite (st_bind_ret _ _ _ (t_data tX) w2) by by apply host_f32_ok.
  rewrite (st_bind_ret _ _ _ (t_data t1) w2).
  2:{ apply host_f32_ok with (t := t1); [|done|by apply Hout1]. by rewrite Ho, lookup_insert_ne, lookup_insert, decide_True. }
  rewrite (st_bind_ret _ _ _ t2 w2) by (apply obj_eq; by rewrite Ho, lookup_insert, decide_True). cbv zeta.
  destruct (ready_rows w2 t1 t2 Hcall Hk Hnan ltac:(lia) Hready) as (h & E & I3 & Hh & Hrows).
  rewrite E. split; [done|]. split; [done|]. exists t1, t2. by repeat (split; [done|]).
Qed.
End Spec.

(** ** At concrete tensors *)

(** Two rows of four floats: [2, 1, 2, 3] and [-1, 0, -0, -2]; the outputs have
    been used before, for [2] by [2] results. *)
Definition scores : list Z := [0x40000000; 0x3F800000; 0x40000000; 0x40400000; 0xBF800000; 0; 0x80000000; 0xC0000000].
Definition ranking : gmap positive (option Arrays.arr) :=
  {[ 1%positive := Arrays.f32 2 4 scores; 2%positive := Arrays.f32 2 2 (seqZ 0 4); 3%positive := Arrays.i32s 2 2 (seqZ 0 4); 4%positive := None ]}.
Definition ranking_world : world := Arrays.world_of ranking.
Definition tX : Tensor := Arrays.tensor_of 1 (Arrays.f32 2 4 scores).
Definition tV : Tensor := Arrays.tensor_of 2 (Arrays.f32 2 2 (seqZ 0 4)).
Definition tI : Tensor := Arrays.tensor_of 3 (Arrays.i32s 2 2 (seqZ 0 4)).

Lemma ranking_fits : map_Forall (fun _ a => Arrays.fits a = true) ranking.
Proof. apply (bool_decide_eq_true_1 _). by vm_compute. Qed.

Lemma ranking_no_nan i : 0 <= i < 2 * 4 -> F32.is_nan (words (w_heap ranking_world) (t_data tX) i) = false.
Proof.
  intros Hi. assert (H : forallb (fun i => negb (F32.is_nan (words (w_heap ranking_world) (t_data tX) i))) (seqZ 0 8) = true)
    by (vm_compute; reflexivity).
  rewrite forallb_forall in H. apply negb_true_iff, H, list_elem_of_In, elem_of_seqZ. lia.
Qed.

Lemma ranking_x : operand ranking_world 1 tX FP32 (2 * 4).
Proof. by apply Arrays.operand_of. Qed.

Lemma top_k_rows_selects_witness :
  let m := top_k_rows Arrays.rt 1 2 2 3 in
  (m ranking_world).1 = Ret tt /\
  safely Arrays.rt ∅ m (fun w' => inv Arrays.rt ∅ w' /\
    (forall b, is_Some (w_heap ranking_world !! b) -> owned_block tV <> Some b -> owned_block tI <> Some b -> w_heap w' !! b = w_heap ranking_world !! b) /\
    exists tV' tI', w_objs w' = <[3%positive := tI']> (<[2%positive := tV']> (w_objs ranking_world)) /\
      t_rows tV' = 2 /\ t_cols tV' = 2 /\ t_dtype tV' = FP32 /\ t_rows tI' = 2 /\ t_cols tI' = 2 /\ t_dtype tI' = INT32 /\
      forall r, 0 <= r < 2 -> row_done (words (w_heap ranking_world) (t_data tX)) 2 4 (words (w_heap w') (t_data tV')) (words (w_heap w') (t_data tI')) r)
    ranking_world.
Proof.
  split; [vm_compute; reflexivity|].
  apply (top_k_rows_selects Arrays.rt Arrays.arrays_lawful ∅ ranking_world 1 2 3 tX tV tI 2 4 2); [|by_value|apply ranking_no_nan].
  split; [apply Arrays.world_inv, ranking_fits|apply ranking_x|done|by_value| | |done].
  - split; [apply Arrays.obj_of; by eexists|]. split; [split; [done|split; [done|by left]]|by apply Arrays.beside_of].
  - split; [apply Arrays.obj_of; by eexists|]. split; [split; [done|split; [done|by left]]|by apply Arrays.beside_of].
Defined.

Lemma streaming_sorting_agree_witness :
  let h := w_heap ranking_world in
  let row := fptr (t_data tX) 4 in
  let out_v := fptr (t_data tV) 2 in
  let out_i := fptr (t_data tI) 2 in
  let two := two h (w_objs ranking_world) 2 3 Dev.CPU0 Dev.CPU0 16 16 4 in
  exists h1 V1 I1 h2 V2 I2,
    streaming 2 4 row out_v out_i ranking_world = (Ret tt, with_heap ranking_world h1) /\ two (with_heap ranking_world h1) V1 I1 /\
    sorting 2 4 row out_v out_i ranking_world = (Ret tt, with_heap ranking_world h2) /\ two (with_heap ranking_world h2) V2 I2 /\
    forall i, 0 <= i < 4 -> V1 i = V2 i /\ i32 (I1 i) = i32 (I2 i).
Proof.
  set (bs := concat (map (le_bytes 4) (seqZ 0 4))).
  assert (Hs : forall b, b = 2%positive \/ b = 3%positive -> source (w_heap ranking_world) b (t_data tX) 8 (words (w_heap ranking_world) (t_data tX))).
  { intros b Hb _. split; [by apply ranking_x|]. split; [|done]. by destruct Hb as [-> | ->]. }
  apply (streaming_sorting_agree (w_heap ranking_world) (w_objs ranking_world) 2 3 Dev.CPU0 Dev.CPU0 16 16 4 ltac:(done) eq_refl eq_refl
    ltac:(done) ltac:(done) (t_data tX) 8 _ 4 2 2 4 (Hs _ ltac:(by left)) (Hs _ ltac:(by right)) ltac:(done) ltac:(done) ltac:(done) ltac:(done) ltac:(done) ltac:(done))
    with (V0 := wd bs) (I0 := wd bs) (V := wd bs) (I := wd bs).
  - intros c Hc. apply ranking_no_nan. lia.
  - intros i _ _. done.
  - exists bs, bs. split; [|done].
    rewrite (insert_id (w_heap ranking_world) 2%positive) by exact (Arrays.block_at ranking 2 (Arrays.mkArr 2 2 FP32 (seqZ 0 4)) eq_refl).
    symmetry. apply insert_id. exact (Arrays.block_at ranking 3 (Arrays.mkArr 2 2 INT32 (seqZ 0 4)) eq_refl).
Defined.
