(* ===== verification/ThreadPool.v ===== *)
(** * The CPU thread pool

    src/cpu/thread_pool.cpp: a fixed set of worker threads that [parallel_for]
    hands the indices of a loop to. The model is a machine of threads: one
    [step] is one access to an object other threads may access (an atomic
    operation, a plain read or write of [fn_] or [n_]) or one move inside a
    callback. Atomic operations are taken in one order all threads agree on;
    that the plain accesses are then ordered too is a theorem of
    ThreadPoolSpec.v. [std::atomic::wait] is its definition: compare and
    block, until a notification lets the thread compare again. *)
From S2P Require Import Prelude.

Section Pool.

(** What a callback does that can be seen from outside: any type. *)
Context {A : Type}.

(** ** Programs

    Code that runs on a thread: actions and calls of [parallel_for], whose
    callback is again code. The application makes [parallel_for] calls and
    calls of [shutdown]. *)
Inductive prog : Type :=
| Stop
| Do (a : A) (k : prog)
| Par (n : Z) (fn : Z -> prog) (k : prog).

Inductive command : Type := Call (p : prog) | Shutdown.

(** Code in progress: what is left of a body, and the sequential loop
    "for (i = 0; i < n; ++i) fn(i);" of [run]. *)
Inductive frame : Type :=
| Run (p : prog)
| Loop (i n : Z) (fn : Z -> prog).

(** How [run] does a call: [t_active] is the flag of the thread, [idle] says
    that there are no workers. *)
Inductive mode : Type := Nothing | Inline | Pooled.
Definition run_mode (t_active idle : bool) (n : Z) : mode :=
  if n =? 0 then Nothing
  else if t_active || idle || (n =? 1) then Inline
  else Pooled.

(** One move of code: it ends, goes on (perhaps with an action), or hands a
    job to the pool. *)
Inductive move : Type :=
| MDone
| MStep (a : option A) (s : list frame)
| MPool (n : Z) (fn : Z -> prog) (s : list frame).
Definition code_step (t_active idle : bool) (s : list frame) : move :=
  match s with
  | [] => MDone
  | Run Stop :: r => MStep None r
  | Run (Do a k) :: r => MStep (Some a) (Run k :: r)
  | Run (Par n fn k) :: r =>
      match run_mode t_active idle n with
      | Nothing => MStep None (Run k :: r)
      | Inline => MStep None (Loop 0 n fn :: Run k :: r)
      | Pooled => MPool n fn (Run k :: r)
      end
  | Loop i n fn :: r => if i <? n then MStep None (Run (fn i) :: Loop (i + 1) n fn :: r) else MStep None r
  end.

(** ** State *)

(** The members of [ThreadPool]; [p_size] is [workers_.size()]. *)
Record ThreadPool : Type := mkPool {
  fn_ : option (Z -> prog);
  n_ : Z;
  cursor_ : Z;
  outstanding_ : Z;
  generation_ : Z;
  shutdown_ : bool;
  p_size : Z
}.

(** Where a worker is in [worker_loop]. *)
Inductive wpc : Type :=
| WWait                            (* generation_.wait(seen): about to compare *)
| WBlocked                         (* asleep in it *)
| WLoad                            (* seen = generation_.load() *)
| WCheck                           (* if (shutdown_.load()) return; then t_active = true *)
| WClaim                           (* i = cursor_.fetch_add(1) *)
| WTest (i : Z)                    (* if (i >= n_) break; then t_active = false *)
| WCall (i : Z)                    (* ... *fn_ ... *)
| WIn (i : Z) (s : list frame)     (* inside the callback *)
| WDone                            (* outstanding_.fetch_sub(1) *)
| WNotify                          (* outstanding_.notify_all() *)
| WExit.
Record worker : Type := mkWorker { w_pc : wpc; w_seen : Z; w_active : bool }.

(** Where the calling thread is: in its own code, in [run], in [shutdown]. *)
Inductive cpc : Type :=
| CCode
| CSetFn (n : Z) (fn : Z -> prog)        (* fn_ = &fn *)
| CSetN (n : Z) (fn : Z -> prog)         (* n_ = n *)
| CSetCursor (n : Z) (fn : Z -> prog)    (* cursor_.store(0) *)
| CSetOut (n : Z) (fn : Z -> prog)       (* outstanding_.store(workers_.size()) *)
| CBump (n : Z) (fn : Z -> prog)         (* generation_.fetch_add(1) *)
| CNotify (n : Z) (fn : Z -> prog)       (* generation_.notify_all(); t_active = true *)
| CClaim (n : Z) (fn : Z -> prog)
| CTest (n : Z) (fn : Z -> prog) (i : Z)
| CIn (n : Z) (fn : Z -> prog) (i : Z) (s : list frame)
| CLoad (n : Z) (fn : Z -> prog)         (* rem = outstanding_.load() *)
| CWait (n : Z) (fn : Z -> prog) (rem : Z)     (* outstanding_.wait(rem): about to compare *)
| CBlocked (n : Z) (fn : Z -> prog) (rem : Z)
| SStore                                 (* shutdown_.store(true) *)
| SBump
| SNotify
| SJoin (j : Z)                          (* workers_[j].join() *)
| SClear
| CHalt.
Record caller : Type := mkCaller { c_pc : cpc; c_active : bool; c_cont : list frame; c_cmds : list command }.

(** [s_log]: the actions so far. [s_fault]: a thread whose [t_active] is set
    has started a job. *)
Record state : Type := mkState { s_pool : ThreadPool; s_ws : list worker; s_caller : caller; s_log : list A; s_fault : bool }.

(** ** Steps *)

Definition set_generation (p : ThreadPool) (g : Z) : ThreadPool :=
  mkPool (fn_ p) (n_ p) (cursor_ p) (outstanding_ p) g (shutdown_ p) (p_size p).
Definition set_cursor (p : ThreadPool) (c : Z) : ThreadPool :=
  mkPool (fn_ p) (n_ p) c (outstanding_ p) (generation_ p) (shutdown_ p) (p_size p).
Definition set_outstanding (p : ThreadPool) (o : Z) : ThreadPool :=
  mkPool (fn_ p) (n_ p) (cursor_ p) o (generation_ p) (shutdown_ p) (p_size p).
Definition set_fn (p : ThreadPool) (f : option (Z -> prog)) : ThreadPool :=
  mkPool f (n_ p) (cursor_ p) (outstanding_ p) (generation_ p) (shutdown_ p) (p_size p).
Definition set_n (p : ThreadPool) (n : Z) : ThreadPool :=
  mkPool (fn_ p) n (cursor_ p) (outstanding_ p) (generation_ p) (shutdown_ p) (p_size p).
Definition set_shutdown (p : ThreadPool) : ThreadPool :=
  mkPool (fn_ p) (n_ p) (cursor_ p) (outstanding_ p) (generation_ p) true (p_size p).
Definition set_size (p : ThreadPool) (z : Z) : ThreadPool :=
  mkPool (fn_ p) (n_ p) (cursor_ p) (outstanding_ p) (generation_ p) (shutdown_ p) z.

(** [generation_.notify_all()]: every sleeper compares again. *)
Definition wake (w : worker) : worker :=
  match w_pc w with WBlocked => mkWorker WWait (w_seen w) (w_active w) | _ => w end.

(** [outstanding_.notify_all()]. *)
Definition wake_caller (c : caller) : caller :=
  match c_pc c with CBlocked n fn rem => mkCaller (CWait n fn rem) (c_active c) (c_cont c) (c_cmds c) | _ => c end.

Definition emit (a : option A) (l : list A) : list A := match a with Some a => l ++ [a] | None => l end.

(** A step of worker [w], with the new pool, worker, caller, action and
    fault. *)
Definition wstep (p : ThreadPool) (c : caller) (w : worker) : option (ThreadPool * worker * caller * option A * bool) :=
  let at_ pc := mkWorker pc (w_seen w) (w_active w) in
  match w_pc w with
  | WWait => Some (p, at_ (if generation_ p =? w_seen w then WBlocked else WLoad), c, None, false)
  | WBlocked => None
  | WLoad => Some (p, mkWorker WCheck (generation_ p) (w_active w), c, None, false)
  | WCheck => Some (p, if shutdown_ p then at_ WExit else mkWorker WClaim (w_seen w) true, c, None, false)
  | WClaim => Some (set_cursor p (u64 (cursor_ p + 1)), at_ (WTest (cursor_ p)), c, None, false)
  | WTest i => Some (p, if i >=? n_ p then mkWorker WDone (w_seen w) false else at_ (WCall i), c, None, false)
  | WCall i => match fn_ p with Some fn => Some (p, at_ (WIn i [Run (fn i)]), c, None, false) | None => None end
  | WIn i s =>
      match code_step (w_active w) (p_size p =? 0) s with
      | MDone => Some (p, at_ WClaim, c, None, false)
      | MStep a s' => Some (p, at_ (WIn i s'), c, a, false)
      | MPool _ _ _ => Some (p, w, c, None, true)
      end
  | WDone => Some (set_outstanding p (i32 (outstanding_ p - 1)), at_ (if outstanding_ p =? 1 then WNotify else WWait), c, None, false)
  | WNotify => Some (p, at_ WWait, wake_caller c, None, false)
  | WExit => None
  end.

(** A step of the calling thread. *)
Definition cstep (p : ThreadPool) (ws : list worker) (c : caller) : option (ThreadPool * list worker * caller * option A * bool) :=
  let at_ pc := mkCaller pc (c_active c) (c_cont c) (c_cmds c) in
  match c_pc c with
  | CCode =>
      match code_step (c_active c) (p_size p =? 0) (c_cont c) with
      | MDone =>
          match c_cmds c with
          | [] => Some (p, ws, at_ CHalt, None, false)
          | Call q :: r => Some (p, ws, mkCaller CCode (c_active c) [Run q] r, None, false)
          | Shutdown :: r => Some (p, ws, mkCaller SStore (c_active c) [] r, None, false)
          end
      | MStep a s => Some (p, ws, mkCaller CCode (c_active c) s (c_cmds c), a, false)
      | MPool n fn s => Some (p, ws, mkCaller (CSetFn n fn) (c_active c) s (c_cmds c), None, c_active c)
      end
  | CSetFn n fn => Some (set_fn p (Some fn), ws, at_ (CSetN n fn), None, false)
  | CSetN n fn => Some (set_n p n, ws, at_ (CSetCursor n fn), None, false)
  | CSetCursor n fn => Some (set_cursor p 0, ws, at_ (CSetOut n fn), None, false)
  | CSetOut n fn => Some (set_outstanding p (i32 (p_size p)), ws, at_ (CBump n fn), None, false)
  | CBump n fn => Some (set_generation p (i32 (generation_ p + 1)), ws, at_ (CNotify n fn), None, false)
  | CNotify n fn => Some (p, wake <$> ws, mkCaller (CClaim n fn) true (c_cont c) (c_cmds c), None, false)
  | CClaim n fn => Some (set_cursor p (u64 (cursor_ p + 1)), ws, at_ (CTest n fn (cursor_ p)), None, false)
  | CTest n fn i =>
      Some (p, ws, if i >=? n_ p then mkCaller (CLoad n fn) false (c_cont c) (c_cmds c) else at_ (CIn n fn i [Run (fn i)]), None, false)
  | CIn n fn i s =>
      match code_step (c_active c) (p_size p =? 0) s with
      | MDone => Some (p, ws, at_ (CClaim n fn), None, false)
      | MStep a s' => Some (p, ws, at_ (CIn n fn i s'), a, false)
      | MPool _ _ _ => Some (p, ws, c, None, true)
      end
  | CLoad n fn => Some (p, ws, at_ (if outstanding_ p =? 0 then CCode else CWait n fn (outstanding_ p)), None, false)
  | CWait n fn rem => Some (p, ws, at_ (if outstanding_ p =? rem then CBlocked n fn rem else CLoad n fn), None, false)
  | CBlocked _ _ _ => None
  | SStore => Some (set_shutdown p, ws, at_ SBump, None, false)
  | SBump => Some (set_generation p (i32 (generation_ p + 1)), ws, at_ SNotify, None, false)
  | SNotify => Some (p, wake <$> ws, at_ (SJoin 0), None, false)
  | SJoin j =>
      if j >=? p_size p then Some (p, ws, at_ SClear, None, false)
      else match w_pc <$> (ws !! Z.to_nat j) with Some WExit => Some (p, ws, at_ (SJoin (j + 1)), None, false) | _ => None end
  | SClear => Some (set_size p 0, ws, at_ CCode, None, false)
  | CHalt => None
  end.

(** One step of the machine, by any thread that can. *)
Inductive step (s : state) : state -> Prop :=
| step_caller p ws c a e : cstep (s_pool s) (s_ws s) (s_caller s) = Some (p, ws, c, a, e) ->
    step s (mkState p ws c (emit a (s_log s)) (s_fault s || e))
| step_worker j w p w' c a e : s_ws s !! j = Some w -> wstep (s_pool s) (s_caller s) w = Some (p, w', c, a, e) ->
    step s (mkState p (<[j := w']> (s_ws s)) c (emit a (s_log s)) (s_fault s || e)).

(** [ThreadPool()] on a host with [hw] logical cores. *)
Definition num_workers (hw : Z) : Z := let hw := if hw =? 0 then 1 else hw in if hw >? 1 then hw - 1 else 0.

(** The workers' first instruction is the wait with [seen = 0]. *)
Definition start (hw : Z) (cmds : list command) : state :=
  mkState (mkPool None 0 0 0 0 false (num_workers hw)) (replicate (Z.to_nat (num_workers hw)) (mkWorker WWait 0 false))
    (mkCaller CCode false [] cmds) [] false.

(** The plain (not atomic) members the next step of a thread touches:
    [true] for a write. *)
Inductive member : Type := MFn | MN.
Definition waccess (w : worker) : option (member * bool) :=
  match w_pc w with WTest _ => Some (MN, false) | WCall _ => Some (MFn, false) | _ => None end.
Definition caccess (c : caller) : option (member * bool) :=
  match c_pc c with
  | CSetFn _ _ => Some (MFn, true)
  | CSetN _ _ => Some (MN, true)
  | CTest _ _ _ => Some (MN, false)
  | _ => None
  end.
End Pool.

Arguments prog : clear implicits.
Arguments command : clear implicits.
Arguments frame : clear implicits.
Arguments state : clear implicits.
Arguments ThreadPool : clear implicits.
Arguments worker : clear implicits.
Arguments caller : clear implicits.
Arguments wpc : clear implicits.
Arguments cpc : clear implicits.
Arguments move : clear implicits.
