(* ===== verification/ThreadPoolSpec.v ===== *)
(** * The thread pool: fork and join

    [parallel_for] against what it promises: every index of the loop is run
    exactly once, in any interleaving, and all of them before the call returns;
    no call deadlocks, whatever the order of the threads' steps, and no plain
    member is read while another thread writes it. *)
From S2P Require Import Prelude ThreadPool.

Section Spec.
Context {A : Type}.

(** ** What programs mean *)

(** The actions of code run on one thread. *)
Fixpoint acts (p : prog A) : list A :=
  match p with
  | Stop => []
  | Do a k => a :: acts k
  | Par n fn k => concat (map (fun i => acts (fn i)) (seqZ 0 n)) ++ acts k
  end.

Definition frame_acts (f : frame A) : list A :=
  match f with
  | Run p => acts p
  | Loop i n fn => concat (map (fun j => acts (fn j)) (seqZ i (n - i)))
  end.
Definition stack_acts (s : list (frame A)) : list A := concat (map frame_acts s).

(** The interleavings of some sequences. *)
Inductive shuffle : list (list A) -> list A -> Prop :=
| shuffle_done ls : Forall (fun l => l = []) ls -> shuffle ls []
| shuffle_step ls j a l t : ls !! j = Some (a :: l) -> shuffle (<[j := l]> ls) t -> shuffle ls (a :: t).

(** Fork and join: what a program with [parallel_for] may do. *)
Inductive traces : prog A -> list A -> Prop :=
| traces_stop : traces Stop []
| traces_do a k t : traces k t -> traces (Do a k) (a :: t)
| traces_par n fn k ls t1 t2 : length ls = Z.to_nat n ->
    (forall i l, ls !! i = Some l -> traces (fn (Z.of_nat i)) l) -> shuffle ls t1 -> traces k t2 ->
    traces (Par n fn k) (t1 ++ t2).

(** The same of code in progress and of the whole application. *)
Inductive frame_traces : frame A -> list A -> Prop :=
| ft_run p t : traces p t -> frame_traces (Run p) t
| ft_loop i n fn ls : length ls = Z.to_nat (n - i) ->
    (forall j l, ls !! j = Some l -> traces (fn (i + Z.of_nat j)) l) -> frame_traces (Loop i n fn) (concat ls).
Inductive stack_traces : list (frame A) -> list A -> Prop :=
| st_nil : stack_traces [] []
| st_cons f r t1 t2 : frame_traces f t1 -> stack_traces r t2 -> stack_traces (f :: r) (t1 ++ t2).
Inductive behaviours : list (command A) -> list A -> Prop :=
| bh_nil : behaviours [] []
| bh_call p r t1 t2 : traces p t1 -> behaviours r t2 -> behaviours (Call p :: r) (t1 ++ t2)
| bh_shutdown r t : behaviours r t -> behaviours (Shutdown :: r) t.

Lemma insert_empty (ls : list (list A)) j l : Forall (fun l => l = []) ls -> ls !! j = Some l -> l = [].
Proof. intros H Hj. rewrite Forall_lookup in H. by apply (H j). Qed.

(** One after the other is an interleaving. *)
Lemma shuffle_concat ls : shuffle ls (concat ls).
Proof.
  assert (H : forall n pre rest, length (concat rest) = n -> Forall (fun l => l = []) pre -> shuffle (pre ++ rest) (concat rest)).
  { induction n as [|n IH]; intros pre rest Hn Hpre.
    - assert (concat rest = []) as -> by by apply nil_length_inv. apply shuffle_done. apply Forall_app. split; [done|].
      clear Hpre. induction rest as [|l r IHr]; [constructor|]. cbn in Hn. rewrite length_app in Hn.
      constructor; [apply nil_length_inv; lia|apply IHr; lia].
    - induction rest as [|l r IHr] in pre, Hn, Hpre |- *; [done|]. destruct l as [|a l].
      + cbn in *. change ([] :: r) with ([[]] ++ r). rewrite (assoc_L (++)). apply IHr; [done|]. by apply Forall_app; split; [|constructor].
      + cbn in *. apply (shuffle_step _ (length pre) a l); [by apply list_lookup_middle|].
        rewrite insert_app_r_alt, Nat.sub_diag by lia. cbn [insert list_insert]. apply (IH pre (l :: r)); [cbn; lia|done]. }
  apply (H _ [] ls eq_refl). constructor.
Qed.

Lemma shuffle_nil ls : Forall (fun l => l = []) ls -> shuffle ls [].
Proof. apply shuffle_done. Qed.

(** Every action of every sequence, and no other. *)
Lemma shuffle_perm ls t : shuffle ls t -> t ≡ₚ concat ls.
Proof.
  induction 1 as [ls H|ls j a l t Hj _ IH].
  - induction H as [|l ls -> _ IH]; [done|]. exact IH.
  - rewrite IH, insert_take_drop by by eapply lookup_lt_Some.
    transitivity (concat (take j ls ++ (a :: l) :: drop (S j) ls)); [|by rewrite take_drop_middle].
    rewrite !concat_app. cbn [concat app]. by rewrite Permutation_middle.
Qed.

Lemma acts_traces p : traces p (acts p).
Proof.
  induction p as [|a k IH|n fn IHf k IHk]; cbn [acts]; [constructor|by constructor|].
  apply (traces_par n fn k (map (fun i => acts (fn i)) (seqZ 0 n))); [|intros i l Hl|apply shuffle_concat|done].
  - by rewrite length_map, length_seqZ.
  - change (((fun i => acts (fn i)) <$> seqZ 0 n) !! i = Some l) in Hl. rewrite list_lookup_fmap in Hl.
    apply fmap_Some in Hl as (z & [-> _]%lookup_seqZ & ->). rewrite Z.add_0_l. apply IHf.
Qed.

(** ** Code, one move at a time *)

(** The counts are of type [std::size_t], and leave room for each of [W]
    workers and the caller to count once past the end. *)
Section Fits.
Context (W : Z).
Fixpoint fits (p : prog A) : Prop :=
  match p with
  | Stop => True
  | Do _ k => fits k
  | Par n fn k => 0 <= n /\ n + W + 2 < 2 ^ 64 /\ (forall i, fits (fn i)) /\ fits k
  end.
Definition frame_fits (f : frame A) : Prop :=
  match f with Run p => fits p | Loop _ _ fn => forall i, fits (fn i) end.
Definition command_fits (c : command A) : Prop := match c with Call p => fits p | Shutdown => True end.
End Fits.

(** A move of code whose thread is in a job is sequential. *)
Lemma code_step_active idle s : match code_step true idle s with
  | MDone => s = []
  | MStep (Some a) s' => stack_acts s = a :: stack_acts s'
  | MStep None s' => stack_acts s = stack_acts s'
  | MPool _ _ _ => False
  end.
Proof.
  destruct s as [|[[|a k|n fn k]|i n fn] r]; cbn; [done..| |].
  - unfold run_mode. destruct (Z.eqb_spec n 0) as [->|]; cbn; [done|]. rewrite Z.sub_0_r. by rewrite (assoc_L (++)).
  - destruct (Z.ltb_spec i n).
    + cbn. rewrite (seqZ_cons i) by lia. cbn. replace (Z.pred (n - i)) with (n - (i + 1)) by lia. rewrite <- Z.add_1_r.
      by rewrite <- (assoc_L (++)).
    + cbn. by rewrite seqZ_nil by lia.
Qed.

(** What is to come after a move of the application's own code. *)
Lemma code_step_traces W idle s : Forall (frame_fits W) s -> match code_step false idle s with
  | MDone => s = []
  | MStep a s' => Forall (frame_fits W) s' /\ forall t, stack_traces s' t -> stack_traces s (match a with Some a => a :: t | None => t end)
  | MPool n fn s' => 1 < n /\ idle = false /\ n + W + 2 < 2 ^ 64 /\ (forall i, fits W (fn i)) /\ Forall (frame_fits W) s' /\
      exists k r, s = Run (Par n fn k) :: r /\ s' = Run k :: r
  end.
Proof.
  intros Hfit. destruct s as [|[[|a k|n fn k]|i n fn] r]; cbn; [done|..]; apply Forall_cons in Hfit as [Hf Hr].
  - split; [done|]. intros t Ht. apply (st_cons _ _ [] t); [|done]. constructor. constructor.
  - split; [by constructor|]. intros t Ht. inversion Ht as [|f r' t1 t2 Hft Hrt]; subst. inversion Hft; subst.
    apply (st_cons _ _ (a :: t1) t2); [|done]. by do 2 constructor.
  - cbn in Hf. destruct Hf as (Hn & Hmax & Hfn & Hk). unfold run_mode. cbn [orb]. destruct (Z.eqb_spec n 0) as [->|Hn0].
    { split; [by constructor|]. intros t Ht. inversion Ht as [|f r' t1 t2 Hft Hrt]; subst. inversion Hft as [p t' Hp|]; subst.
      apply (st_cons _ _ t1 t2); [|done]. constructor. apply (traces_par 0 fn k [] [] t1); [done|by intros|constructor; constructor|done]. }
    destruct (idle || (n =? 1)) eqn:E.
    + split; [by repeat constructor|]. intros t Ht. inversion Ht as [|f r' t1 t2 Hft Hrt]; subst.
      inversion Hrt as [|f' r'' t3 t4 Hft' Hrt']; subst.
      inversion Hft as [|i' n' fn' ls Hlen Hls]; subst. inversion Hft' as [p t' Hp|]; subst. rewrite (assoc_L (++)).
      apply st_cons; [|done]. constructor. apply (traces_par n fn k ls);
        [by rewrite Z.sub_0_r in Hlen|by intros i l Hl; rewrite <- (Z.add_0_l (Z.of_nat i)); apply Hls|apply shuffle_concat|done].
    + apply orb_false_iff in E as [-> E]. apply Z.eqb_neq in E. split; [lia|]. do 3 (split; [done|]). split; [by constructor|]. eauto.
  - destruct (Z.ltb_spec i n).
    + split; [repeat constructor; [apply Hf|apply Hf|done]|]. intros t Ht. inversion Ht as [|f r' t1 t2 Hft Hrt]; subst.
      inversion Hrt as [|f' r'' t3 t4 Hft' Hrt']; subst.
      inversion Hft as [p t' Hp|]; subst. inversion Hft' as [|i' n' fn' ls Hlen Hls]; subst. rewrite (assoc_L (++)). apply st_cons; [|done].
      change (t1 ++ concat ls) with (concat (t1 :: ls)). constructor; [cbn; lia|]. intros [|j] l Hl; cbn in Hl.
      * injection Hl as <-. by rewrite Z.add_0_r.
      * replace (i + Z.of_nat (S j)) with (i + 1 + Z.of_nat j) by lia. by apply Hls.
    + split; [done|]. intros t Ht. apply (st_cons _ _ [] t); [|done]. change (@nil A) with (concat (@nil (list A))). constructor; [cbn; lia|by intros].
Qed.
End Spec.
