(* ===== verification/ThreadPoolInv.v ===== *)
(** * The thread pool: the invariant

    Who holds which index of the current job, which workers have yet to see
    the generation, what the atomic counters count; and that every step keeps
    it. *)
From S2P Require Import Prelude ThreadPool ThreadPoolSpec.

(** ** Sums over the workers *)
Section Total.
Context {B : Type} (f : B -> Z).

Definition total (l : list B) : Z := foldr (fun x z => f x + z) 0 l.

Lemma count_cons x l : total (x :: l) = f x + total l.
Proof. done. Qed.

Lemma total_insert l j x y : l !! j = Some x -> total (<[j := y]> l) = total l - f x + f y.
Proof.
  revert j. induction l as [|z l IH]; intros [|j] Hj; try done.
  - injection Hj as ->. change (<[0%nat := y]> (x :: l)) with (y :: l). rewrite !count_cons. lia.
  - change (<[S j := y]> (z :: l)) with (z :: <[j := y]> l). rewrite !count_cons, (IH j Hj). lia.
Qed.

Lemma count_nonneg l : (forall x, 0 <= f x) -> 0 <= total l.
Proof. intros H. induction l as [|x l IH]; [done|]. rewrite count_cons. pose proof (H x). lia. Qed.

Lemma total_le l c : (forall x, f x <= c) -> total l <= c * zlen l.
Proof.
  intros H. induction l as [|x l IH]; [unfold zlen; cbn; lia|]. rewrite zlen_cons, count_cons. pose proof (H x). lia.
Qed.

Lemma total_exists l : 0 < total l -> exists j x, l !! j = Some x /\ 0 < f x.
Proof.
  induction l as [|x l IH]; [done|]. rewrite count_cons. intros H. destruct (Z_lt_le_dec 0 (f x)); [by exists 0%nat, x|].
  destruct IH as (j & y & Hj & Hy); [lia|]. by exists (S j), y.
Qed.

Lemma total_at l j x : (forall x, 0 <= f x) -> l !! j = Some x -> f x <= total l.
Proof.
  intros H. revert j. induction l as [|y l IH]; intros [|j] Hj; try done; rewrite count_cons.
  - injection Hj as ->. pose proof (count_nonneg l H). lia.
  - pose proof (IH j Hj). pose proof (H y). lia.
Qed.
End Total.

Lemma total_fmap {B C} (f : C -> Z) (g : B -> C) l : total f (g <$> l) = total (fun x => f (g x)) l.
Proof. induction l as [|x l IH]; [done|]. rewrite fmap_cons, !count_cons. by rewrite IH. Qed.

Lemma total_mono {B} (f g : B -> Z) l c : (forall x, x ∈ l -> f x <= g x + c) -> total f l <= total g l + c * zlen l.
Proof.
  induction l as [|x l IH]; intros H; [unfold zlen; cbn; lia|]. rewrite zlen_cons, !count_cons. pose proof (H x ltac:(left)).
  assert (total f l <= total g l + c * zlen l) by (apply IH; intros y Hy; apply H; by right). lia.
Qed.

Lemma total_const {B} (f : B -> Z) l c : (forall x, x ∈ l -> f x = c) -> total f l = c * zlen l.
Proof.
  induction l as [|x l IH]; intros H; [unfold zlen; cbn; lia|]. rewrite zlen_cons, count_cons, (H x) by left.
  rewrite IH; [lia|]. intros y Hy. apply H. by right.
Qed.

Lemma total_ext {B} (f g : B -> Z) l : (forall x, x ∈ l -> f x = g x) -> total f l = total g l.
Proof.
  induction l as [|x l IH]; intros H; [done|]. rewrite !count_cons, (H x) by left. f_equal. apply IH. intros y Hy. apply H. by right.
Qed.

Section Inv.
Context {A : Type}.

(** ** The current job

    [rem] is what is left of every index; [H] says which thread holds which
    index, and what it has still to do of it. *)
Record job (fn : Z -> prog A) (n cursor : Z) (H : option nat -> option (Z * list A)) (rem : list (list A)) : Prop := {
  j_len : zlen rem = n;
  j_todo : forall i, cursor <= i < n -> rem !! Z.to_nat i = Some (acts (fn i));
  j_held : forall t i l, H t = Some (i, l) -> 0 <= i < n /\ i < cursor /\ rem !! Z.to_nat i = Some l;
  j_uniq : forall t t' i l l', H t = Some (i, l) -> H t' = Some (i, l') -> t = t';
  j_rest : forall i, 0 <= i < n -> i < cursor -> (exists t l, H t = Some (i, l)) \/ rem !! Z.to_nat i = Some []
}.

(** [H'] is [H] but for thread [t]. *)
Definition but (t : option nat) (H H' : option nat -> option (Z * list A)) : Prop := forall t', t' <> t -> H' t' = H t'.

Section Job.
Context (fn : Z -> prog A) (n cursor : Z) (H H' : option nat -> option (Z * list A)) (rem : list (list A)) (t : option nat).
Context (Hc : 0 <= cursor) (J : job fn n cursor H rem) (Hb : but t H H').

Lemma job_same : H' t = H t -> job fn n cursor H' rem.
Proof.
  intros E. assert (HH : forall t', H' t' = H t') by (intros t'; destruct (decide (t' = t)) as [->|]; [done|by apply Hb]).
  destruct J as [J1 J2 J3 J4 J5]. split; try done.
  - intros t' i l. rewrite HH. apply J3.
  - intros t1 t2 i l l'. rewrite !HH. apply J4.
  - intros i Hi Hic. destruct (J5 i Hi Hic) as [(t' & l & E')|]; [left|by right]. exists t', l. by rewrite HH.
Qed.

Lemma job_claim : cursor < n -> H t = None -> H' t = Some (cursor, acts (fn cursor)) -> job fn n (cursor + 1) H' rem.
Proof.
  intros Hlt E E'. destruct J as [J1 J2 J3 J4 J5]. split; [done|..].
  - intros i Hi. apply J2. lia.
  - intros t' i l. destruct (decide (t' = t)) as [->|Hne].
    + rewrite E'. intros [= <- <-]. split; [lia|]. split; [lia|]. apply J2. lia.
    + rewrite (Hb t' Hne). intros H1. destruct (J3 _ _ _ H1) as (? & ? & ?). split; [done|]. split; [lia|done].
  - intros t1 t2 i l l'. destruct (decide (t1 = t)) as [->|H1]; destruct (decide (t2 = t)) as [->|H2]; [done|..].
    + rewrite E', (Hb t2 H2). intros [= <- <-] Hh. destruct (J3 _ _ _ Hh) as (_ & ? & _). lia.
    + rewrite E', (Hb t1 H1). intros Hh [= <- <-]. destruct (J3 _ _ _ Hh) as (_ & ? & _). lia.
    + rewrite (Hb t1 H1), (Hb t2 H2). apply J4.
  - intros i Hi Hic. destruct (decide (i = cursor)) as [->|Hne]; [left; by exists t, (acts (fn cursor))|].
    destruct (J5 i Hi ltac:(lia)) as [(t' & l & Et)|]; [left|by right]. exists t', l. rewrite Hb; [done|]. intros ->. congruence.
Qed.

Lemma job_over : n <= cursor -> H' t = H t -> job fn n (cursor + 1) H' rem.
Proof.
  intros Hle E. destruct (job_same E) as [J1 J2 J3 J4 J5]. split; try done.
  - intros i Hi. lia.
  - intros t' i l Ht. destruct (J3 _ _ _ Ht) as (? & ? & ?). split; [done|]. split; [lia|done].
  - intros i Hi _. apply J5; lia.
Qed.

Lemma job_act i a l : H t = Some (i, a :: l) -> H' t = Some (i, l) ->
  job fn n cursor H' (<[Z.to_nat i := l]> rem) /\ forall r, shuffle (<[Z.to_nat i := l]> rem) r -> shuffle rem (a :: r).
Proof.
  intros E E'. destruct J as [J1 J2 J3 J4 J5]. destruct (J3 _ _ _ E) as (Hi & Hic & Hrem). split.
  - split.
    + unfold zlen in *. by rewrite length_insert.
    + intros j Hj. rewrite list_lookup_insert_ne by lia. by apply J2.
    + intros t' j l'. destruct (decide (t' = t)) as [->|Hne].
      * rewrite E'. intros [= <- <-]. split; [done|]. split; [done|]. apply list_lookup_insert_eq. unfold zlen in J1. lia.
      * rewrite (Hb t' Hne). intros Ht'. destruct (J3 _ _ _ Ht') as (? & ? & ?). split; [done|]. split; [done|].
        rewrite list_lookup_insert_ne; [done|]. intros Hij. apply Hne. apply (J4 t' t j l' (a :: l)); [done|]. by replace j with i by lia.
    + intros t1 t2 j l1 l2 H1 H2. assert (G : forall t l, H' t = Some (j, l) -> exists l', H t = Some (j, l')).
      { intros t' l'. destruct (decide (t' = t)) as [->|Hne]; [rewrite E'; intros [= <- <-]; by eexists|rewrite (Hb t' Hne); by eexists]. }
      destruct (G _ _ H1) as [l1' H1']. destruct (G _ _ H2) as [l2' H2']. by apply (J4 t1 t2 j l1' l2').
    + intros j Hj Hjc. destruct (J5 j Hj Hjc) as [(t' & l' & Et)|Er].
      * left. destruct (decide (t' = t)) as [->|Hne]; [exists t, l; congruence|]. exists t', l'. by rewrite Hb.
      * right. rewrite list_lookup_insert_ne; [done|]. intros Hij. replace i with j in Hrem by lia. congruence.
  - intros r Hr. by apply (shuffle_step rem (Z.to_nat i) a l).
Qed.

Lemma job_finish i : H t = Some (i, []) -> H' t = None -> job fn n cursor H' rem.
Proof.
  intros E E'. destruct J as [J1 J2 J3 J4 J5]. destruct (J3 _ _ _ E) as (Hi & Hic & Hrem).
  assert (G : forall t' x, H' t' = Some x -> H t' = Some x).
  { intros t' x. destruct (decide (t' = t)) as [->|Hne]; [by rewrite E'|by rewrite (Hb t' Hne)]. }
  split; try done.
  - intros t' j l Ht. by apply (J3 t'), G.
  - intros t1 t2 j l l' H1 H2. by apply (J4 t1 t2 j l l'); apply G.
  - intros j Hj Hjc. destruct (J5 j Hj Hjc) as [(t' & l' & Et)|Er]; [|by right].
    destruct (decide (t' = t)) as [->|Hne]; [|left; exists t', l'; by rewrite Hb]. right. rewrite E in Et. injection Et as <- <-. done.
Qed.
End Job.

(** All indices have been run when the cursor is past the end and no thread
    holds one. *)
Lemma job_done fn n cursor H rem : job fn n cursor H rem -> n <= cursor -> (forall t, H t = None) -> Forall (fun l => l = []) rem.
Proof.
  intros [J1 _ _ _ J5] Hc Hn. apply Forall_lookup. intros i l Hi. pose proof (lookup_lt_Some _ _ _ Hi).
  destruct (J5 (Z.of_nat i)) as [(t & l' & E)|E]; [unfold zlen in J1; lia|unfold zlen in J1; lia|by rewrite Hn in E|].
  rewrite Nat2Z.id in E. congruence.
Qed.

(** A fresh job. *)
Lemma job_start fn n H : 0 <= n -> (forall t, H t = None) -> job fn n 0 H (map (fun i => acts (fn i)) (seqZ 0 n)).
Proof.
  intros Hn HN. split.
  - unfold zlen. rewrite length_map, length_seqZ. lia.
  - intros i Hi. change (((fun i => acts (fn i)) <$> seqZ 0 n) !! Z.to_nat i = Some (acts (fn i))).
    rewrite list_lookup_fmap, lookup_seqZ_lt by lia. cbn. f_equal. f_equal. f_equal. lia.
  - intros t i l. by rewrite HN.
  - intros t t' i l l'. by rewrite HN.
  - lia.
Qed.

(** ** The threads *)

(** A worker that waits for the next generation after [g]. *)
Definition parked (g : Z) (w : worker A) : Prop :=
  w_seen w = g /\ w_active w = false /\ match w_pc w with WWait | WBlocked | WNotify => True | _ => False end.
Definition exited (w : worker A) : Prop := w_pc w = WExit.

(** A worker during the job of generation [g]: it may still be on its way to
    it from [g0]. Only before the caller's notification can it be asleep on
    [g0] ([nb]). *)
Definition wok (g g0 : Z) (nb : bool) (w : worker A) : Prop :=
  match w_pc w with
  | WWait | WNotify => (w_seen w = g \/ w_seen w = g0) /\ w_active w = false
  | WBlocked => (w_seen w = g \/ nb = true /\ w_seen w = g0) /\ w_active w = false
  | WLoad => w_active w = false
  | WCheck | WDone => w_seen w = g /\ w_active w = false
  | WClaim | WTest _ | WCall _ | WIn _ _ => w_seen w = g /\ w_active w = true
  | WExit => False
  end.

(** A worker on its way out, the last generation being [g]. *)
Definition sok (g g0 : Z) (nb : bool) (w : worker A) : Prop :=
  match w_pc w with
  | WWait | WNotify => w_seen w = g0
  | WBlocked => nb = true /\ w_seen w = g0
  | WLoad | WCheck | WExit => True
  | _ => False
  end.

(** 1 while a worker has not yet counted itself off the job. *)
Definition pend (g : Z) (w : worker A) : Z :=
  match w_pc w with WWait | WBlocked | WNotify => if w_seen w =? g then 0 else 1 | WExit => 0 | _ => 1 end.

(** 1 once a thread has claimed an index past the end. *)
Definition over (g n : Z) (w : worker A) : Z :=
  match w_pc w with
  | WTest i => if i <? n then 0 else 1
  | WDone => 1
  | WWait | WBlocked | WNotify => if w_seen w =? g then 1 else 0
  | _ => 0
  end.
Definition cover (n : Z) (c : caller A) : Z :=
  match c_pc c with
  | CTest _ _ i => if i <? n then 0 else 1
  | CLoad _ _ | CWait _ _ _ | CBlocked _ _ _ => 1
  | _ => 0
  end.

(** The index a thread holds. *)
Definition whold (n : Z) (fn : Z -> prog A) (w : worker A) : option (Z * list A) :=
  match w_pc w with
  | WTest i => if i <? n then Some (i, acts (fn i)) else None
  | WCall i => Some (i, acts (fn i))
  | WIn i s => Some (i, stack_acts s)
  | _ => None
  end.
Definition chold (n : Z) (fn : Z -> prog A) (c : caller A) : option (Z * list A) :=
  match c_pc c with
  | CTest _ _ i => if i <? n then Some (i, acts (fn i)) else None
  | CIn _ _ i s => Some (i, stack_acts s)
  | _ => None
  end.
Definition hold (n : Z) (fn : Z -> prog A) (ws : list (worker A)) (c : caller A) (t : option nat) : option (Z * list A) :=
  match t with None => chold n fn c | Some j => ws !! j ≫= whold n fn end.

Lemma pend_range g w : 0 <= pend g w <= 1.
Proof. unfold pend. destruct (w_pc w); try destruct (_ =? _); lia. Qed.
Lemma over_range g n w : 0 <= over g n w <= 1.
Proof. unfold over. destruct (w_pc w); try destruct (_ =? _); try destruct (_ <? _); lia. Qed.
Lemma cover_range n c : 0 <= cover n c <= 1.
Proof. unfold cover. destruct (c_pc c); try destruct (_ <? _); lia. Qed.

Section Machine.
Context (W : Z) (HW : W <= INT_MAX) (cmds0 : list (command A)).

(** What may still come completes the log to a behaviour of the application. *)
Definition logged (rem : list (list A)) (cont : list (frame A)) (cmds : list (command A)) (log : list A) : Prop :=
  forall r t u, shuffle rem r -> stack_traces cont t -> behaviours cmds u -> behaviours cmds0 (log ++ r ++ t ++ u).

(** No job: every worker waits, or all have gone. *)
Definition quiet (p : ThreadPool A) (ws : list (worker A)) : Prop :=
  Forall (parked (generation_ p)) ws /\ p_size p = zlen ws \/ Forall exited ws /\ p_size p = 0.
Definition idle (p : ThreadPool A) (ws : list (worker A)) : Prop :=
  quiet p ws /\ (shutdown_ p = true -> Forall exited ws /\ p_size p = 0).

(** A job that [run] is setting up. *)
Record ready (n : Z) (fn : Z -> prog A) (p : ThreadPool A) (ws : list (worker A)) : Prop := {
  rd_n : 1 < n /\ n + W + 2 < 2 ^ 64;
  rd_live : shutdown_ p = false;
  rd_ws : Forall (parked (generation_ p)) ws;
  rd_size : p_size p = zlen ws
}.

(** A job in progress. *)
Record running (n : Z) (fn : Z -> prog A) (nb : bool) (p : ThreadPool A) (ws : list (worker A)) (c : caller A) (log : list A) : Prop := {
  r_n : 1 < n /\ n + W + 2 < 2 ^ 64;
  r_live : shutdown_ p = false;
  r_fn : fn_ p = Some fn;
  r_nn : n_ p = n;
  r_size : p_size p = zlen ws;
  r_ws : exists g0, g0 <> generation_ p /\ forall j w, ws !! j = Some w -> wok (generation_ p) g0 nb w;
  r_out : outstanding_ p = total (pend (generation_ p)) ws;
  r_cur : 0 <= cursor_ p <= n + total (over (generation_ p) n) ws + cover n c;
  r_end : 0 < total (over (generation_ p) n) ws + cover n c -> n <= cursor_ p;
  r_job : exists rem, job fn n (cursor_ p) (hold n fn ws c) rem /\ logged rem (c_cont c) (c_cmds c) log
}.

(** The workers leave. *)
Record stopping (nb : bool) (p : ThreadPool A) (ws : list (worker A)) : Prop := {
  sp_live : shutdown_ p = true;
  sp_ws : exists g0, g0 <> generation_ p /\ Forall (sok (generation_ p) g0 nb) ws;
  sp_size : p_size p = zlen ws \/ Forall exited ws /\ p_size p = 0
}.

Definition jobs (n : Z) (fn : Z -> prog A) : list (list A) := map (fun i => acts (fn i)) (seqZ 0 n).

Definition phase (p : ThreadPool A) (ws : list (worker A)) (c : caller A) (log : list A) : Prop :=
  let lg rem := logged rem (c_cont c) (c_cmds c) log in
  match c_pc c with
  | CCode => c_active c = false /\ idle p ws /\ lg []
  | CSetFn n fn => c_active c = false /\ ready n fn p ws /\ lg (jobs n fn)
  | CSetN n fn => c_active c = false /\ ready n fn p ws /\ lg (jobs n fn) /\ fn_ p = Some fn
  | CSetCursor n fn => c_active c = false /\ ready n fn p ws /\ lg (jobs n fn) /\ fn_ p = Some fn /\ n_ p = n
  | CSetOut n fn => c_active c = false /\ ready n fn p ws /\ lg (jobs n fn) /\ fn_ p = Some fn /\ n_ p = n /\ cursor_ p = 0
  | CBump n fn => c_active c = false /\ ready n fn p ws /\ lg (jobs n fn) /\ fn_ p = Some fn /\ n_ p = n /\ cursor_ p = 0 /\ outstanding_ p = W
  | CNotify n fn => c_active c = false /\ running n fn true p ws c log
  | CClaim n fn | CTest n fn _ | CIn n fn _ _ => c_active c = true /\ running n fn false p ws c log
  | CLoad n fn => c_active c = false /\ running n fn false p ws c log
  | CWait n fn rem => c_active c = false /\ running n fn false p ws c log /\ 0 < rem /\ outstanding_ p <= rem
  | CBlocked n fn rem => c_active c = false /\ running n fn false p ws c log /\ 0 < rem /\ outstanding_ p <= rem /\
      (outstanding_ p = 0 -> exists j w, ws !! j = Some w /\ w_pc w = WNotify /\ w_seen w = generation_ p)
  | SStore => c_active c = false /\ quiet p ws /\ lg [] /\ c_cont c = []
  | SBump => c_active c = false /\ quiet p ws /\ lg [] /\ c_cont c = [] /\ shutdown_ p = true
  | SNotify => c_active c = false /\ stopping true p ws /\ lg [] /\ c_cont c = []
  | SJoin j => c_active c = false /\ stopping false p ws /\ lg [] /\ c_cont c = [] /\ 0 <= j /\
      forall i w, (i < Z.to_nat j)%nat -> ws !! i = Some w -> exited w
  | SClear => c_active c = false /\ lg [] /\ c_cont c = [] /\ Forall exited ws /\ shutdown_ p = true
  | CHalt => lg [] /\ c_cont c = [] /\ c_cmds c = [] /\ idle p ws
  end.

Definition Inv (s : state A) : Prop :=
  s_fault s = false /\ zlen (s_ws s) = W /\ Forall (frame_fits W) (c_cont (s_caller s)) /\
  Forall (command_fits W) (c_cmds (s_caller s)) /\ phase (s_pool s) (s_ws s) (s_caller s) (s_log s).

(** ** Steps of the workers *)

Lemma logged_act rem rem' cont cmds log a : logged rem cont cmds log ->
  (forall r, shuffle rem' r -> shuffle rem (a :: r)) -> logged rem' cont cmds (log ++ [a]).
Proof. intros H Hs r t u Hr Ht Hu. rewrite <- (assoc_L (++)). apply (H (a :: r)); [by apply Hs|done..]. Qed.

Section Worker.
Context (n : Z) (fn : Z -> prog A) (nb : bool) (p p' : ThreadPool A) (ws : list (worker A)) (c c' : caller A) (log log' : list A).
Context (j : nat) (w w' : worker A) (Hr : running n fn nb p ws c log) (Hj : ws !! j = Some w).
Context (Hc : chold n fn c' = chold n fn c).

Lemma hold_but : but (Some j) (hold n fn ws c) (hold n fn (<[j := w']> ws) c').
Proof. intros [i|] Hne; cbn; [|done]. by rewrite list_lookup_insert_ne by congruence. Qed.
Lemma hold_old : hold n fn ws c (Some j) = whold n fn w.
Proof. cbn. by rewrite Hj. Qed.
Lemma hold_new : hold n fn (<[j := w']> ws) c' (Some j) = whold n fn w'.
Proof. cbn. by rewrite list_lookup_insert_eq by by eapply lookup_lt_Some. Qed.

Lemma running_update :
  shutdown_ p' = shutdown_ p /\ fn_ p' = fn_ p /\ n_ p' = n_ p /\ p_size p' = p_size p /\ generation_ p' = generation_ p ->
  c_cont c' = c_cont c /\ c_cmds c' = c_cmds c /\ cover n c' = cover n c ->
  (forall g0, g0 <> generation_ p -> wok (generation_ p) g0 nb w -> wok (generation_ p) g0 nb w') ->
  outstanding_ p' = outstanding_ p - pend (generation_ p) w + pend (generation_ p) w' ->
  cursor_ p <= cursor_ p' -> cursor_ p' + over (generation_ p) n w <= cursor_ p + over (generation_ p) n w' \/ cursor_ p' <= n ->
  (over (generation_ p) n w < over (generation_ p) n w' -> n <= cursor_ p') ->
  (forall rem, job fn n (cursor_ p) (hold n fn ws c) rem -> logged rem (c_cont c) (c_cmds c) log ->
     exists rem', job fn n (cursor_ p') (hold n fn (<[j := w']> ws) c') rem' /\ logged rem' (c_cont c) (c_cmds c) log') ->
  running n fn nb p' (<[j := w']> ws) c' log'.
Proof.
  destruct Hr as [H1 H2 H3 H4 H5 (g0 & Hg & H6) H7 H8 H9 (rem & H10 & H11)].
  intros (E1 & E2 & E3 & E4 & E5) (E6 & E7 & E8) Hw Ho Hcur Hup Hend Hjob.
  pose proof (total_insert (over (generation_ p) n) ws j w w' Hj) as Ev. pose proof (total_insert (pend (generation_ p)) ws j w w' Hj) as Ep.
  pose proof (count_nonneg (over (generation_ p) n) (<[j := w']> ws) (fun w => proj1 (over_range _ _ w))) as Hnn.
  pose proof (cover_range n c) as Hcv.
  split; rewrite ?E1, ?E2, ?E3, ?E4, ?E5, ?E6, ?E7, ?E8; try done.
  - by rewrite H5; unfold zlen; rewrite length_insert.
  - exists g0. split; [done|]. intros i v. rewrite list_lookup_insert_Some. intros [(<- & <- & _)|[_ Hi]]; [|by apply (H6 i)].
    apply Hw; [done|]. by apply (H6 j).
  - lia.
  - lia.
  - destruct (Z_lt_le_dec (over (generation_ p) n w) (over (generation_ p) n w')); [intros _; by apply Hend|lia].
  - by apply (Hjob rem).
Qed.
End Worker.

Lemma wake_caller_same n fn (c : caller A) : chold n fn (wake_caller c) = chold n fn c /\ cover n (wake_caller c) = cover n c /\
  c_cont (wake_caller c) = c_cont c /\ c_cmds (wake_caller c) = c_cmds c /\ c_active (wake_caller c) = c_active c.
Proof. unfold wake_caller. destruct c as [pc a s q]. by destruct pc. Qed.

Lemma running_bounds n fn nb p ws c log j w : running n fn nb p ws c log -> zlen ws = W -> ws !! j = Some w ->
  over (generation_ p) n w = 0 -> 0 <= cursor_ p /\ u64 (cursor_ p + 1) = cursor_ p + 1.
Proof.
  intros [H1 _ _ _ _ _ _ H8 _ _] Hws Hj Hov. split; [lia|].
  pose proof (total_le (over (generation_ p) n) ws 1 (fun w => proj2 (over_range _ _ w))) as Hle. pose proof (cover_range n c).
  unfold u64. apply Z.mod_small. lia.
Qed.

(** The cases of a worker whose place [E] is known. *)
Ltac worker_cases E :=
  unfold wok, pend, over, whold; rewrite ?E; cbn [w_pc w_seen w_active];
  repeat (match goal with |- context [?a =? ?b] => destruct (Z.eqb_spec a b) | |- context [?a <? ?b] => destruct (Z.ltb_spec a b) end; cbn [w_pc w_seen w_active]);
  try done; try lia; try (intros; split; auto; done).

Lemma running_wstep n fn nb p ws c log j w p' w' c' a e : running n fn nb p ws c log -> zlen ws = W -> ws !! j = Some w ->
  wstep p c w = Some (p', w', c', a, e) ->
  e = false /\ running n fn nb p' (<[j := w']> ws) c' (emit a log) /\ generation_ p' = generation_ p /\
    (w_pc w <> WNotify /\ c' = c \/ w_pc w = WNotify /\ c' = wake_caller c) /\
    (outstanding_ p' = outstanding_ p \/ outstanding_ p' = outstanding_ p - 1 /\ (outstanding_ p' = 0 -> w_pc w' = WNotify /\ w_seen w' = generation_ p)).
Proof.
  intros Hr Hws Hj E. pose proof Hr as [H1 H2 H3 H4 H5 (g0 & Hg & H6) H7 H8 H9 (rem & H10 & H11)]. specialize (H6 j w Hj).
  assert (Hsame : forall c1, chold n fn c1 = chold n fn c -> whold n fn w' = whold n fn w -> forall rem,
    job fn n (cursor_ p) (hold n fn ws c) rem -> logged rem (c_cont c) (c_cmds c) log ->
    exists rem', job fn n (cursor_ p) (hold n fn (<[j := w']> ws) c1) rem' /\ logged rem' (c_cont c) (c_cmds c) log).
  { intros c1 Hc1 Hw rem1 J L. exists rem1. split; [|done]. apply (job_same _ _ _ _ _ _ (Some j) J (hold_but n fn ws c c1 j w' Hc1)).
    rewrite (hold_new n fn ws c1 j w w' Hj), (hold_old n fn ws c j w Hj). done. }
  unfold wstep in E. unfold wok in H6.
  destruct (w_pc w) as [| | | | |i|i|i s| | |] eqn:Epc; try done.
  - (* WWait *)
    injection E as <- <- <- <- <-. split; [done|]. split; [|split; [done|split; [by left|by left]]]. destruct H6 as [Hs Ha].
    apply (running_update n fn nb p p ws c c log log j w); try done; try solve [worker_cases Epc].
    apply Hsame; [done|]. worker_cases Epc.
  - (* WLoad *)
    injection E as <- <- <- <- <-. split; [done|]. split; [|split; [done|split; [by left|by left]]].
    apply (running_update n fn nb p p ws c c log log j w); try done; try solve [worker_cases Epc].
    apply Hsame; [done|]. worker_cases Epc.
  - (* WCheck *)
    rewrite H2 in E. injection E as <- <- <- <- <-. split; [done|]. split; [|split; [done|split; [by left|by left]]]. destruct H6 as [Hs Ha].
    apply (running_update n fn nb p p ws c c log log j w); try done; try solve [worker_cases Epc].
    apply Hsame; [done|]. worker_cases Epc.
  - (* WClaim *)
    injection E as <- <- <- <- <-. split; [done|]. split; [|split; [done|split; [by left|by left]]]. destruct H6 as [Hs Ha].
    destruct (running_bounds n fn nb p ws c log j w Hr Hws Hj) as [Hcur Hu]; [by worker_cases Epc|].
    apply (running_update n fn nb p _ ws c c log log j w); try done; cbn [set_cursor cursor_ outstanding_]; rewrite ?Hu; try solve [worker_cases Epc].
    intros rem1 J L. exists rem1. split; [|done]. pose proof (hold_but n fn ws c c j (mkWorker (WTest (cursor_ p)) (w_seen w) (w_active w)) eq_refl) as Hb.
    pose proof (hold_old n fn ws c j w Hj) as Eo. pose proof (hold_new n fn ws c j w (mkWorker (WTest (cursor_ p)) (w_seen w) (w_active w)) Hj) as En.
    unfold whold in Eo, En. rewrite Epc in Eo. cbn [w_pc] in En. destruct (Z.ltb_spec (cursor_ p) n).
    + by apply (job_claim fn n (cursor_ p) _ _ rem1 (Some j) Hcur J Hb).
    + apply (job_over fn n (cursor_ p) _ _ rem1 (Some j) J Hb); [done|congruence].
  - (* WTest *)
    rewrite H4 in E. destruct H6 as [Hs Ha]. rewrite Z.geb_leb in E.
    injection E as <- <- <- <- <-. split; [done|]. split; [|split; [done|split; [by left|by left]]].
    apply (running_update n fn nb p p ws c c log log j w); try done; try (destruct (Z.leb_spec n i)); try solve [worker_cases Epc].
    + apply Hsame; [done|]. unfold whold. rewrite Epc. cbn. by rewrite (proj2 (Z.ltb_ge _ _)).
    + apply Hsame; [done|]. unfold whold. rewrite Epc. cbn. by rewrite (proj2 (Z.ltb_lt _ _)).
  - (* WCall *)
    rewrite H3 in E. destruct H6 as [Hs Ha].
    injection E as <- <- <- <- <-. split; [done|]. split; [|split; [done|split; [by left|by left]]].
    apply (running_update n fn nb p p ws c c log log j w); try done; try solve [worker_cases Epc].
    apply Hsame; [done|]. unfold whold. rewrite Epc. cbn. by rewrite app_nil_r.
  - (* WIn *)
    destruct H6 as [Hs Ha]. rewrite Ha in E. pose proof (code_step_active (p_size p =? 0) s) as Hcode.
    pose proof (hold_old n fn ws c j w Hj) as Eo. unfold whold in Eo. rewrite Epc in Eo.
    destruct (code_step true (p_size p =? 0) s) as [|a1 s1|n1 fn1 s1]; [..|done];
      injection E as <- <- <- <- <-; (split; [done|]); (split; [|split; [done|split; [by left|by left]]]);
      eapply (running_update n fn nb p p ws c c log _ j w); try done; try solve [worker_cases Epc].
    + intros rem1 J L. exists rem1. split; [|done]. subst s.
      apply (job_finish fn n (cursor_ p) _ _ rem1 (Some j) J (hold_but n fn ws c c j _ eq_refl) i Eo). by rewrite (hold_new n fn ws c j w).
    + intros rem1 J L. set (w1 := mkWorker (WIn i s1) (w_seen w) true).
      pose proof (hold_but n fn ws c c j w1 eq_refl) as Hb. pose proof (hold_new n fn ws c j w w1 Hj) as En. cbn in En.
      destruct a1 as [a1|]; cbn [emit].
      * rewrite Hcode in Eo. destruct (job_act fn n (cursor_ p) _ _ rem1 (Some j) J Hb i a1 (stack_acts s1) Eo En) as [J' Hs'].
        eexists. split; [exact J'|]. by apply (logged_act rem1).
      * exists rem1. split; [|done]. apply (job_same fn n (cursor_ p) _ _ rem1 (Some j) J Hb). rewrite Eo, Hcode. exact En.
  - (* WDone *)
    destruct H6 as [Hs Ha]. pose proof (pend_range (generation_ p) w) as Hp.
    assert (Hout : 1 <= outstanding_ p <= W).
    { rewrite H7. pose proof (total_at (pend (generation_ p)) ws j w (fun w => proj1 (pend_range _ w)) Hj) as Hat. unfold pend in Hat at 1. rewrite Epc in Hat.
      pose proof (total_le (pend (generation_ p)) ws 1 (fun w => proj2 (pend_range _ w))). lia. }
    assert (Hi32 : i32 (outstanding_ p - 1) = outstanding_ p - 1).
    { unfold i32, to_signed. unfold INT_MAX in HW. rewrite Z.mod_small by lia. by rewrite (proj2 (Z.ltb_lt _ _)) by lia. }
    injection E as <- <- <- <- <-. split; [done|]. split; [|split; [done|split; [by left|]]].
    + apply (running_update n fn nb p _ ws c c log log j w); try done; cbn [set_outstanding cursor_ outstanding_]; rewrite ?Hi32; try solve [worker_cases Epc].
      apply Hsame; [done|]. worker_cases Epc.
    + right. cbn [set_outstanding outstanding_]. rewrite Hi32. split; [done|]. intros H0. cbn. rewrite (proj2 (Z.eqb_eq _ _)) by lia. done.
  - (* WNotify *)
    destruct (wake_caller_same n fn c) as (C1 & C2 & C3 & C4 & _).
    injection E as <- <- <- <- <-. split; [done|]. split; [|split; [done|split; [by right|by left]]].
    apply (running_update n fn nb p p ws c (wake_caller c) log log j w); try done; try solve [worker_cases Epc].
    apply Hsame; [done|]. worker_cases Epc.
Qed.

Lemma parked_wstep p c w p' w' c' a e : parked (generation_ p) w -> wake_caller c = c -> wstep p c w = Some (p', w', c', a, e) ->
  p' = p /\ c' = c /\ a = None /\ e = false /\ parked (generation_ p) w'.
Proof.
  intros (Hs & Ha & Hpc) Hc E. unfold wstep in E. destruct (w_pc w) eqn:Epc; try done; injection E as <- <- <- <- <-.
  - do 4 (split; [done|]). split; [done|]. split; [done|]. cbn. by rewrite (proj2 (Z.eqb_eq _ _)).
  - do 4 (split; [done|]). by split.
Qed.

Lemma exited_wstep p c w : exited w -> wstep p c w = None.
Proof. intros E. unfold exited in E. unfold wstep. by rewrite E. Qed.

Lemma sok_wstep g0 nb p c w p' w' c' a e : shutdown_ p = true -> sok (generation_ p) g0 nb w -> g0 <> generation_ p -> wake_caller c = c ->
  wstep p c w = Some (p', w', c', a, e) ->
  p' = p /\ c' = c /\ a = None /\ e = false /\ sok (generation_ p) g0 nb w'.
Proof.
  intros Hsd Hw Hg Hc E. unfold wstep in E. unfold sok in *. destruct (w_pc w) eqn:Epc; try done.
  - injection E as <- <- <- <- <-. do 4 (split; [done|]). cbn. by rewrite (proj2 (Z.eqb_neq _ _)) by congruence.
  - by injection E as <- <- <- <- <-.
  - rewrite Hsd in E. by injection E as <- <- <- <- <-.
  - injection E as <- <- <- <- <-. by do 4 (split; [done|]).
Qed.

(** A step of a worker while there is no job. *)
Lemma quiet_wstep p ws c j w p' w' c' a e : quiet p ws -> ws !! j = Some w -> wake_caller c = c -> wstep p c w = Some (p', w', c', a, e) ->
  p' = p /\ c' = c /\ a = None /\ e = false /\ quiet p (<[j := w']> ws) /\ (Forall exited ws -> False) /\
  (Forall (parked (generation_ p)) ws -> Forall (parked (generation_ p)) (<[j := w']> ws)).
Proof.
  intros [[Hp Hs]|[He Hs]] Hj Hc E.
  - pose proof Hp as Hp'. rewrite Forall_lookup in Hp'. specialize (Hp' j w Hj).
    destruct (parked_wstep p c w p' w' c' a e Hp' Hc E) as (-> & -> & -> & -> & Hw').
    assert (Hq : Forall (parked (generation_ p)) (<[j := w']> ws)) by by apply Forall_insert.
    do 4 (split; [done|]). split; [left; split; [done|unfold zlen in *; by rewrite length_insert]|]. split; [|done].
    rewrite Forall_lookup. intros H. specialize (H j w Hj). destruct Hp' as (_ & _ & Hpc). unfold exited in H. by rewrite H in Hpc.
  - rewrite Forall_lookup in He. specialize (He j w Hj). by rewrite (exited_wstep p c w He) in E.
Qed.

Lemma bump_ne g : i32 (g + 1) <> g.
Proof.
  unfold i32, to_signed. intros H. pose proof (Z.mod_pos_bound (g + 1) (2 ^ 32) ltac:(lia)). pose proof (Z.div_mod (g + 1) (2 ^ 32) ltac:(lia)).
  destruct (_ <? _); lia.
Qed.

Lemma worker_inv s j w p w' c a e : Inv s -> s_ws s !! j = Some w -> wstep (s_pool s) (s_caller s) w = Some (p, w', c, a, e) ->
  Inv (mkState p (<[j := w']> (s_ws s)) c (emit a (s_log s)) (s_fault s || e)).
Proof.
  destruct s as [p0 ws c0 log flt]. cbn. intros (Hf & Hws & Hcf & Hqf & Hph) Hj E. unfold Inv. cbn in *. subst flt. cbn [orb].
  assert (Hlen : zlen (<[j := w']> ws) = W) by (unfold zlen in *; by rewrite length_insert).
  assert (Hq : quiet p0 ws -> wake_caller c0 = c0 -> p = p0 /\ c = c0 /\ a = None /\ e = false /\ quiet p0 (<[j := w']> ws) /\ (Forall exited ws -> False) /\
    (Forall (parked (generation_ p0)) ws -> Forall (parked (generation_ p0)) (<[j := w']> ws))).
  { intros H1 H2. by apply (quiet_wstep p0 ws c0 j w). }
  assert (Hid : idle p0 ws -> wake_caller c0 = c0 -> p = p0 /\ c = c0 /\ a = None /\ e = false /\ idle p0 (<[j := w']> ws)).
  { intros [H1 H2] H3. destruct (Hq H1 H3) as (-> & -> & -> & -> & Hq' & Hno & _). do 4 (split; [done|]). split; [done|]. intros Hsd.
    destruct (H2 Hsd) as [Hex _]. done. }
  assert (Hrd : forall n fn, ready n fn p0 ws -> wake_caller c0 = c0 -> p = p0 /\ c = c0 /\ a = None /\ e = false /\ ready n fn p0 (<[j := w']> ws)).
  { intros n fn [R1 R2 R3 R4] H3. destruct (Hq (or_introl (conj R3 R4)) H3) as (-> & -> & -> & -> & _ & _ & Hq').
    do 4 (split; [done|]). split; [done|done|by apply Hq'|unfold zlen in *; by rewrite length_insert]. }
  assert (Hst : forall nb, stopping nb p0 ws -> wake_caller c0 = c0 -> p = p0 /\ c = c0 /\ a = None /\ e = false /\ stopping nb p0 (<[j := w']> ws)).
  { intros nb [S1 (g0 & Hg & S2) S3] H3. pose proof S2 as S2'. rewrite Forall_lookup in S2'.
    destruct (sok_wstep g0 nb p0 c0 w p w' c a e S1 (S2' j w Hj) Hg H3 E) as (-> & -> & -> & -> & Hw').
    do 4 (split; [done|]). split; [done|exists g0; split; [done|by apply Forall_insert]|].
    destruct S3 as [S3|[S3 _]]; [left; unfold zlen in *; by rewrite length_insert|].
    rewrite Forall_lookup in S3. specialize (S3 j w Hj). by rewrite (exited_wstep p0 c0 w S3) in E. }
  assert (Hru : forall n fn nb, running n fn nb p0 ws c0 log -> e = false /\ running n fn nb p (<[j := w']> ws) c (emit a log) /\ generation_ p = generation_ p0 /\
    (w_pc w <> WNotify /\ c = c0 \/ w_pc w = WNotify /\ c = wake_caller c0) /\
    (outstanding_ p = outstanding_ p0 \/ outstanding_ p = outstanding_ p0 - 1 /\ (outstanding_ p = 0 -> w_pc w' = WNotify /\ w_seen w' = generation_ p0))).
  { intros n fn nb H. by apply (running_wstep n fn nb p0 ws c0 log j w p w' c a e). }
  unfold phase in Hph. destruct c0 as [pc ac cont cmds]. cbn [c_pc c_active c_cont c_cmds] in *.
  assert (Hru' : forall n fn nb, wake_caller (mkCaller pc ac cont cmds) = mkCaller pc ac cont cmds -> running n fn nb p0 ws (mkCaller pc ac cont cmds) log ->
    e = false /\ c = mkCaller pc ac cont cmds /\ running n fn nb p (<[j := w']> ws) (mkCaller pc ac cont cmds) (emit a log) /\ outstanding_ p <= outstanding_ p0).
  { intros n fn nb Hc H. destruct (Hru n fn nb H) as (-> & H1 & _ & H2 & H3). assert (c = mkCaller pc ac cont cmds) as -> by (destruct H2 as [[_ ->]|[_ ->]]; done).
    do 3 (split; [done|]). lia. }
  destruct pc; try solve
    [ destruct Hph as (H1 & H2 & H3); (destruct (Hid H2 eq_refl) as (-> & -> & -> & -> & H2') || destruct (Hrd _ _ H2 eq_refl) as (-> & -> & -> & -> & H2')
        || destruct (Hq H2 eq_refl) as (-> & -> & -> & -> & H2' & _) || destruct (Hst _ H2 eq_refl) as (-> & -> & -> & -> & H2')); by do 4 (split; [done|])
    | destruct Hph as (H1 & H2); destruct (Hru' _ _ _ eq_refl H2) as (-> & -> & H2' & _); by do 4 (split; [done|]) ].
  - destruct Hph as (H1 & H2 & H3 & H4). destruct (Hru' _ _ _ eq_refl H2) as (-> & -> & H2' & Ho). do 4 (split; [done|]). do 3 (split; [done|]). lia.
  - (* CBlocked *)
    destruct Hph as (H1 & H2 & H3 & H4 & H5). destruct (Hru _ _ _ H2) as (-> & H2' & Hg & [[Hne ->]|[Hn ->]] & Ho).
    + do 4 (split; [done|]). do 3 (split; [done|]). split; [cbn; lia|]. intros Hz. rewrite Hg. destruct Ho as [Ho|[_ Ho]].
      * destruct (H5 ltac:(congruence)) as (j0 & w0 & Hj0 & Hw0). exists j0, w0. rewrite list_lookup_insert_ne; [done|]. intros ->.
        rewrite Hj in Hj0. injection Hj0 as ->. by destruct Hw0.
      * exists j, w'. rewrite list_lookup_insert_eq by by eapply lookup_lt_Some. by specialize (Ho Hz).
    + do 4 (split; [done|]). cbn. do 3 (split; [done|]). lia.
  - destruct Hph as (H1 & H2 & H3 & H4 & H5 & H6). destruct (Hst _ H2 eq_refl) as (-> & -> & -> & -> & H2').
    do 4 (split; [done|]). do 5 (split; [done|]). cbn. intros i v Hi. rewrite list_lookup_insert_Some. intros [(<- & _ & _)|[_ Hv]]; [|by apply (H6 i)].
    pose proof (H6 j w Hi Hj) as Hx. by rewrite (exited_wstep p0 _ w Hx) in E.
  - destruct Hph as (H1 & H2 & H3 & H4 & H5). rewrite Forall_lookup in H4. by rewrite (exited_wstep p0 _ w (H4 j w Hj)) in E.
  - destruct Hph as (H1 & H2 & H3 & H4). destruct (Hid H4 eq_refl) as (-> & -> & -> & -> & H2'). by do 4 (split; [done|]).
Qed.

(** ** Steps of the caller *)

Lemma logged_mono rem cont cont' cmds cmds' log log' :
  logged rem cont cmds log ->
  (forall r t u, shuffle rem r -> stack_traces cont' t -> behaviours cmds' u ->
     exists t0 u0, stack_traces cont t0 /\ behaviours cmds u0 /\ log' ++ r ++ t ++ u = log ++ r ++ t0 ++ u0) ->
  logged rem cont' cmds' log'.
Proof. intros H Hs r t u Hr Ht Hu. destruct (Hs r t u Hr Ht Hu) as (t0 & u0 & Ht0 & Hu0 & ->). by apply H. Qed.

Lemma shuffle_none r : shuffle (@nil (list A)) r -> r = [].
Proof. intros H. inversion H as [|ls j a l t Hj _]; subst; [done|]. by rewrite lookup_nil in Hj. Qed.

(** A move of the application's own code. *)
Lemma logged_code a s s' cmds log : logged [] s cmds log ->
  (forall t, stack_traces s' t -> stack_traces s (match a with Some a => a :: t | None => t end)) -> logged [] s' cmds (emit a log).
Proof.
  intros H Hs. apply (logged_mono [] s s' cmds cmds log _ H). intros r t u ->%shuffle_none Ht Hu. eexists _, u. split; [by apply Hs|]. split; [done|].
  destruct a; cbn; [by rewrite <- (assoc_L (++))|done].
Qed.

(** A job joins the code that follows it. *)
Lemma logged_fork n fn k r cmds log : logged [] (Run (Par n fn k) :: r) cmds log -> logged (jobs n fn) (Run k :: r) cmds log.
Proof.
  intros H q t u Hq Ht Hu. inversion Ht as [|f r' t1 t2 Hf Hr]; subst. inversion Hf as [p t' Hp|]; subst.
  specialize (H [] ((q ++ t1) ++ t2) u (shuffle_done [] ltac:(constructor))). cbn [app] in H. rewrite <- !(assoc_L (++)) in *. apply H; [|done].
  rewrite (assoc_L (++)). apply st_cons; [|done]. constructor. apply (traces_par n fn k (jobs n fn)); [| |done|done].
  - unfold jobs. by rewrite length_map, length_seqZ.
  - intros i l Hl. change (((fun i => acts (fn i)) <$> seqZ 0 n) !! i = Some l) in Hl. rewrite list_lookup_fmap in Hl.
    apply fmap_Some in Hl as (z & [-> _]%lookup_seqZ & ->). rewrite Z.add_0_l. apply acts_traces.
Qed.

Lemma logged_join rem cont cmds log : logged rem cont cmds log -> Forall (fun l => l = []) rem -> logged [] cont cmds log.
Proof. intros H Hrem r t u ->%shuffle_none. apply (H []). by apply shuffle_done. Qed.

Lemma parked_old g g' w : parked g w -> g <> g' -> pend g' w = 1 /\ (forall n, over g' n w = 0) /\ wok g' g true w /\ forall n fn, whold n fn w = None.
Proof.
  intros (Hs & Ha & Hpc) Hg. unfold pend, over, wok, whold. destruct (w_pc w); try done; rewrite Hs, (proj2 (Z.eqb_neq _ _)) by congruence; auto 10.
Qed.

(** The generation advances: the job starts. *)
Lemma running_start n fn p ws cont cmds log : ready n fn p ws -> zlen ws = W -> fn_ p = Some fn -> n_ p = n -> cursor_ p = 0 -> outstanding_ p = W ->
  logged (jobs n fn) cont cmds log ->
  running n fn true (set_generation p (i32 (generation_ p + 1))) ws (mkCaller (CNotify n fn) false cont cmds) log.
Proof.
  intros [R1 R2 R3 R4] Hws H1 H2 H3 H4 HL. pose proof (bump_ne (generation_ p)) as Hg. set (g' := i32 (generation_ p + 1)) in *.
  rewrite Forall_forall in R3. assert (Hold : forall w, w ∈ ws -> pend g' w = 1 /\ (forall n, over g' n w = 0) /\ wok g' (generation_ p) true w /\ forall n fn, whold n fn w = None).
  { intros w Hw. apply parked_old; [by apply R3|congruence]. }
  assert (Hpend : total (pend g') ws = W) by (rewrite (total_const _ _ 1); [lia|intros w Hw; apply (Hold w Hw)]).
  assert (Hover : total (over g' n) ws = 0) by (rewrite (total_const _ _ 0); [lia|intros w Hw; apply (Hold w Hw)]).
  split; cbn [set_generation shutdown_ fn_ n_ p_size generation_ outstanding_ cursor_]; try done.
  - exists (generation_ p). split; [congruence|]. intros j w Hj. apply Hold. by eapply list_elem_of_lookup_2.
  - by rewrite Hpend.
  - rewrite Hover. cbn. lia.
  - rewrite Hover. cbn. lia.
  - exists (jobs n fn). split; [|done]. rewrite H3. apply job_start; [lia|]. intros [j|]; cbn; [|done].
    destruct (ws !! j) as [w|] eqn:Hj; [|done]. cbn. apply Hold. by eapply list_elem_of_lookup_2.
Qed.

Lemma wake_same g n fn w : pend g (wake w) = pend g w /\ over g n (wake w) = over g n w /\ whold n fn (wake w) = whold n fn w.
Proof. unfold wake, pend, over, whold. by destruct w as [[] ? ?]. Qed.

(** The caller's notification. *)
Lemma running_notify n fn p ws cont cmds log : running n fn true p ws (mkCaller (CNotify n fn) false cont cmds) log ->
  running n fn false p (wake <$> ws) (mkCaller (CClaim n fn) true cont cmds) log.
Proof.
  intros [H1 H2 H3 H4 H5 (g0 & Hg & H6) H7 H8 H9 (rem & H10 & H11)].
  assert (Ho : total (over (generation_ p) n) (wake <$> ws) = total (over (generation_ p) n) ws).
  { rewrite total_fmap. apply total_ext. intros w _. by apply (wake_same _ _ fn). }
  split; try done.
  - unfold zlen in *. by rewrite length_fmap.
  - exists g0. split; [done|]. intros j w. rewrite list_lookup_fmap. destruct (ws !! j) as [w1|] eqn:Hj; [|done]. intros [= <-].
    specialize (H6 j w1 Hj). unfold wok, wake in *. destruct (w_pc w1) eqn:Epc; cbn; rewrite ?Epc; try done.
    destruct H6 as [[?|[_ ?]] ?]; split; auto.
  - rewrite H7, total_fmap. apply total_ext. intros w _. symmetry. by apply (wake_same _ 0 fn).
  - by rewrite Ho.
  - by rewrite Ho.
  - exists rem. split; [|done]. apply (job_same fn n (cursor_ p) _ _ rem None H10); [|done]. intros [j|] _; cbn; [|done].
    rewrite list_lookup_fmap. destruct (ws !! j) as [w|]; [|done]. by apply (wake_same 0).
Qed.

Lemma caller_but n fn ws c c' : but None (hold n fn ws c) (hold n fn ws c').
Proof. by intros [j|]. Qed.

(** A step of the caller inside the job. *)
Lemma running_cupdate n fn p p' ws c c' log log' : running n fn false p ws c log ->
  shutdown_ p' = shutdown_ p /\ fn_ p' = fn_ p /\ n_ p' = n_ p /\ p_size p' = p_size p /\ generation_ p' = generation_ p /\ outstanding_ p' = outstanding_ p ->
  c_cont c' = c_cont c /\ c_cmds c' = c_cmds c ->
  cursor_ p <= cursor_ p' -> cursor_ p' + cover n c <= cursor_ p + cover n c' \/ cursor_ p' <= n ->
  (cover n c < cover n c' -> n <= cursor_ p') ->
  (forall rem, job fn n (cursor_ p) (hold n fn ws c) rem -> logged rem (c_cont c) (c_cmds c) log ->
     exists rem', job fn n (cursor_ p') (hold n fn ws c') rem' /\ logged rem' (c_cont c) (c_cmds c) log') ->
  running n fn false p' ws c' log'.
Proof.
  intros [H1 H2 H3 H4 H5 (g0 & Hg & H6) H7 H8 H9 (rem & H10 & H11)] (E1 & E2 & E3 & E4 & E5 & E6) (E7 & E8) Hcur Hup Hend Hjob.
  pose proof (count_nonneg (over (generation_ p) n) ws (fun w => proj1 (over_range _ _ w))) as Hnn. pose proof (cover_range n c'). pose proof (cover_range n c).
  split; rewrite ?E1, ?E2, ?E3, ?E4, ?E5, ?E6, ?E7, ?E8; try done.
  - by exists g0.
  - lia.
  - destruct (Z_lt_le_dec (cover n c) (cover n c')); [intros _; by apply Hend|lia].
  - by apply (Hjob rem).
Qed.

Lemma running_claim n fn p ws cont cmds log : zlen ws = W -> running n fn false p ws (mkCaller (CClaim n fn) true cont cmds) log ->
  running n fn false (set_cursor p (u64 (cursor_ p + 1))) ws (mkCaller (CTest n fn (cursor_ p)) true cont cmds) log.
Proof.
  intros Hws Hr. pose proof Hr as [H1 _ _ _ _ _ _ H8 _ _].
  assert (Hu : u64 (cursor_ p + 1) = cursor_ p + 1).
  { pose proof (total_le (over (generation_ p) n) ws 1 (fun w => proj2 (over_range _ _ w))). unfold cover in H8. cbn in H8. unfold u64. apply Z.mod_small. lia. }
  apply (running_cupdate n fn p _ ws _ _ log log Hr); try done; cbn [set_cursor cursor_]; rewrite ?Hu; try lia.
  - unfold cover. cbn. destruct (Z.ltb_spec (cursor_ p) n); lia.
  - unfold cover. cbn. destruct (Z.ltb_spec (cursor_ p) n); lia.
  - intros rem J L. exists rem. split; [|done]. cbn [c_cont c_cmds] in *.
    destruct (Z.ltb_spec (cursor_ p) n) as [Hlt|Hge].
    + apply (job_claim fn n (cursor_ p) _ _ rem None ltac:(lia) J (caller_but n fn ws _ _)); [done|done|]. cbn. by rewrite (proj2 (Z.ltb_lt _ _)).
    + apply (job_over fn n (cursor_ p) _ _ rem None J (caller_but n fn ws _ _)); [done|]. cbn. by rewrite (proj2 (Z.ltb_ge _ _)).
Qed.

Lemma running_test n fn p ws cont cmds log i : running n fn false p ws (mkCaller (CTest n fn i) true cont cmds) log ->
  running n fn false p ws (if i >=? n then mkCaller (CLoad n fn) false cont cmds else mkCaller (CIn n fn i [Run (fn i)]) true cont cmds) log.
Proof.
  intros Hr. rewrite Z.geb_leb. pose proof (r_end _ _ _ _ _ _ _ Hr) as He. unfold cover in He. cbn in He.
  pose proof (count_nonneg (over (generation_ p) n) ws (fun w => proj1 (over_range _ _ w))) as Hnn.
  apply (running_cupdate n fn p p ws _ _ log log Hr); try done; destruct (Z.leb_spec n i); try done.
  - left. unfold cover. cbn. rewrite (proj2 (Z.ltb_ge _ _)) by done. lia.
  - left. unfold cover. cbn. rewrite (proj2 (Z.ltb_lt _ _)) by done. lia.
  - unfold cover. cbn. rewrite (proj2 (Z.ltb_ge _ _)) by done. lia.
  - unfold cover. cbn. rewrite (proj2 (Z.ltb_lt _ _)) by done. lia.
  - intros rem J L. exists rem. split; [|done]. apply (job_same fn n _ _ _ rem None J (caller_but n fn ws _ _)). cbn. by rewrite (proj2 (Z.ltb_ge _ _)).
  - intros rem J L. exists rem. split; [|done]. apply (job_same fn n _ _ _ rem None J (caller_but n fn ws _ _)). cbn. rewrite (proj2 (Z.ltb_lt _ _)) by done. by rewrite app_nil_r.
Qed.

Lemma running_in n fn p ws cont cmds log i s idl : running n fn false p ws (mkCaller (CIn n fn i s) true cont cmds) log ->
  match code_step true idl s with
  | MDone => running n fn false p ws (mkCaller (CClaim n fn) true cont cmds) log
  | MStep a s' => running n fn false p ws (mkCaller (CIn n fn i s') true cont cmds) (emit a log)
  | MPool _ _ _ => False
  end.
Proof.
  intros Hr. pose proof (code_step_active idl s) as Hcode. destruct (code_step true idl s) as [|a s'|]; [..|done].
  - subst s. apply (running_cupdate n fn p p ws _ _ log log Hr); try done; [by left|].
    intros rem J L. exists rem. split; [|done]. by apply (job_finish fn n _ _ _ rem None J (caller_but n fn ws _ _) i).
  - apply (running_cupdate n fn p p ws _ _ log (emit a log) Hr); try done; [by left|]. intros rem J L. destruct a as [a|]; cbn [emit].
    + destruct (job_act fn n _ _ _ rem None J (caller_but n fn ws _ (mkCaller (CIn n fn i s') true cont cmds)) i a (stack_acts s')) as [J' Hs'];
        [cbn; by rewrite Hcode|done|]. eexists. split; [exact J'|]. by apply (logged_act rem).
    + exists rem. split; [|done]. apply (job_same fn n _ _ _ rem None J (caller_but n fn ws _ _)). cbn. by rewrite Hcode.
Qed.

Lemma settled g g0 w : wok g g0 false w -> pend g w = 0 -> parked g w /\ forall n fn, whold n fn w = None.
Proof.
  unfold wok, pend, parked, whold. destruct (w_pc w); try done; destruct (Z.eqb_spec (w_seen w) g); try done; intros [? ?] _; done.
Qed.

(** The caller has seen [outstanding_ == 0]: every index has been run, and
    every worker waits. *)
Lemma running_over n fn p ws cont cmds log : running n fn false p ws (mkCaller (CLoad n fn) false cont cmds) log -> outstanding_ p = 0 ->
  idle p ws /\ logged [] cont cmds log.
Proof.
  intros [H1 H2 H3 H4 H5 (g0 & Hg & H6) H7 H8 H9 (rem & H10 & H11)] Ho.
  assert (Hpark : forall w j, ws !! j = Some w -> parked (generation_ p) w /\ forall n fn, whold n fn w = None).
  { intros w j Hj. apply (settled _ g0); [by apply (H6 j)|]. pose proof (total_at (pend (generation_ p)) ws j w (fun w => proj1 (pend_range _ w)) Hj).
    pose proof (pend_range (generation_ p) w). lia. }
  split.
  - split; [left; split; [|done]|congruence]. apply Forall_lookup. intros j w Hj. by apply (Hpark w j).
  - apply (logged_join rem); [done|]. apply (job_done fn n (cursor_ p) _ rem H10).
    + apply H9. cbn. pose proof (count_nonneg (over (generation_ p) n) ws (fun w => proj1 (over_range _ _ w))). lia.
    + intros [j|]; cbn; [|done]. destruct (ws !! j) as [w|] eqn:Hj; [|done]. cbn. by apply (Hpark w j).
Qed.

Lemma i32_count z : 0 <= z <= INT_MAX -> i32 z = z.
Proof. unfold i32, to_signed, INT_MAX. intros H. rewrite Z.mod_small by lia. by rewrite (proj2 (Z.ltb_lt _ _)) by lia. Qed.

Lemma stopping_wake p ws : stopping true p ws -> stopping false p (wake <$> ws).
Proof.
  intros [S1 (g0 & Hg & S2) S3]. split; [done| |].
  - exists g0. split; [done|]. apply Forall_fmap, (Forall_impl _ _ _ S2). intros w. unfold sok, wake. cbn.
    destruct (w_pc w) eqn:E; cbn; rewrite ?E; try done. by intros [_ ?].
  - unfold zlen in *. rewrite length_fmap. destruct S3 as [?|[S3 ?]]; [by left|right]. split; [|done]. apply Forall_fmap, (Forall_impl _ _ _ S3).
    intros w. unfold exited, wake. cbn. intros E. by rewrite E.
Qed.

Lemma stopping_start p ws : quiet p ws -> shutdown_ p = true -> stopping true (set_generation p (i32 (generation_ p + 1))) ws.
Proof.
  intros Hq Hs. split; [done| |].
  - exists (generation_ p). split; [cbn; pose proof (bump_ne (generation_ p)); congruence|]. destruct Hq as [[H _]|[H _]]; apply (Forall_impl _ _ _ H).
    + intros w (Hseen & _ & Hpc). unfold sok. destruct (w_pc w); try done.
    + intros w E. unfold sok. unfold exited in E. by rewrite E.
  - destruct Hq as [[_ H]|[H1 H2]]; [by left|by right].
Qed.

(** A move of the application's own code, or of [main] between its calls. *)
Lemma code_inv p ws cont cmds log p' ws' c' a e : zlen ws = W -> Forall (frame_fits W) cont -> Forall (command_fits W) cmds ->
  idle p ws -> logged [] cont cmds log -> cstep p ws (mkCaller CCode false cont cmds) = Some (p', ws', c', a, e) ->
  Inv (mkState p' ws' c' (emit a log) e).
Proof.
  intros Hws Hcf Hqf Hid HL E. unfold cstep in E. cbn [c_pc c_active c_cont c_cmds] in E.
  pose proof (code_step_traces W (p_size p =? 0) cont Hcf) as Hcode. destruct (code_step false (p_size p =? 0) cont) as [|a1 s1|n fn s1].
  - subst cont. destruct cmds as [|[q|] r]; injection E as <- <- <- <- <-.
    + by do 4 (split; [done|]).
    + apply Forall_cons in Hqf as [Hq Hr]. split; [done|]. split; [done|]. split; [by repeat constructor|]. split; [done|]. cbn. split; [done|]. split; [done|].
      apply (logged_mono [] [] _ _ _ log _ HL). intros q' t u ->%shuffle_none Ht Hu.
      inversion Ht as [|f r' t1 t2 Hf Hr']; subst. inversion Hr'; subst. inversion Hf as [q' t' Hp|]; subst.
      exists [], (t1 ++ u). split; [constructor|]. split; [by constructor|]. by rewrite app_nil_r.
    + apply Forall_cons in Hqf as [_ Hr]. do 4 (split; [done|]). cbn. split; [done|]. split; [apply Hid|]. split; [|done].
      apply (logged_mono [] [] _ _ _ log _ HL). intros q' t u ->%shuffle_none Ht Hu. exists t, u. split; [done|]. split; [by constructor|done].
  - injection E as <- <- <- <- <-. destruct Hcode as [Hf Hs]. do 4 (split; [done|]). cbn. split; [done|]. split; [done|]. by apply (logged_code a1 cont).
  - injection E as <- <- <- <- <-. destruct Hcode as (Hn & Hidle & Hmax & _ & Hf & k & r & -> & ->). apply Z.eqb_neq in Hidle.
    destruct Hid as [Hq Hsd]. assert (Hlive : shutdown_ p = false) by (destruct (shutdown_ p); [by destruct (Hsd eq_refl)|done]).
    destruct Hq as [[Hq Hsz]|[_ ?]]; [|done]. do 4 (split; [done|]). cbn. split; [done|]. split; [by split|by apply logged_fork].
Qed.

Lemma caller_inv s p ws c a e : Inv s -> cstep (s_pool s) (s_ws s) (s_caller s) = Some (p, ws, c, a, e) ->
  Inv (mkState p ws c (emit a (s_log s)) (s_fault s || e)).
Proof.
  destruct s as [p0 ws0 [pc ac cont cmds] log flt]. intros (Hf & Hws & Hcf & Hqf & Hph) E. cbn in Hf, Hws, Hcf, Hqf, E |- *. subst flt. cbn [orb].
  unfold phase in Hph. cbn [s_pool s_ws s_caller s_log c_pc c_active c_cont c_cmds] in Hph.
  assert (Hgoal : forall p1 ws1 pc1 ac1 log1, zlen ws1 = W -> phase p1 ws1 (mkCaller pc1 ac1 cont cmds) log1 -> Inv (mkState p1 ws1 (mkCaller pc1 ac1 cont cmds) log1 false)).
  { intros. by do 4 (split; [done|]). }
  assert (Hwake : zlen (wake <$> ws0) = W) by (unfold zlen in *; by rewrite length_fmap).
  destruct pc; unfold cstep in E; cbn [c_pc c_active c_cont c_cmds] in E.
  - destruct Hph as (-> & Hid & HL). by apply (code_inv p0 ws0 cont cmds log).
  - injection E as <- <- <- <- <-. destruct Hph as (-> & [R1 R2 R3 R4] & HL). by apply Hgoal.
  - injection E as <- <- <- <- <-. destruct Hph as (-> & [R1 R2 R3 R4] & HL & H1). by apply Hgoal.
  - injection E as <- <- <- <- <-. destruct Hph as (-> & [R1 R2 R3 R4] & HL & H1 & H2). by apply Hgoal.
  - injection E as <- <- <- <- <-. destruct Hph as (-> & [R1 R2 R3 R4] & HL & H1 & H2 & H3). apply Hgoal; [done|].
    do 6 (split; [done|]). cbn. rewrite R4, Hws. apply i32_count. pose proof (zlen_nonneg ws0). lia.
  - injection E as <- <- <- <- <-. destruct Hph as (-> & HR & HL & H1 & H2 & H3 & H4). apply Hgoal; [done|]. split; [done|]. by apply running_start.
  - injection E as <- <- <- <- <-. destruct Hph as (-> & Hr). apply Hgoal; [done|]. split; [done|]. by apply running_notify.
  - injection E as <- <- <- <- <-. destruct Hph as (-> & Hr). apply Hgoal; [done|]. split; [done|]. by apply running_claim.
  - destruct Hph as (-> & Hr). pose proof (running_test _ _ _ _ _ _ _ _ Hr) as Hr'. rewrite (r_nn _ _ _ _ _ _ _ Hr) in E.
    destruct (i >=? n); injection E as <- <- <- <- <-; (apply Hgoal; [done|]); by split.
  - destruct Hph as (-> & Hr). pose proof (running_in _ _ _ _ _ _ _ _ _ (p_size p0 =? 0) Hr) as Hr'.
    destruct (code_step true (p_size p0 =? 0) s) as [|a1 s1|]; [..|done]; injection E as <- <- <- <- <-; (apply Hgoal; [done|]); by split.
  - destruct Hph as (-> & Hr). destruct (Z.eqb_spec (outstanding_ p0) 0) as [Ho|Ho]; injection E as <- <- <- <- <-; (apply Hgoal; [done|]).
    + destruct (running_over _ _ _ _ _ _ _ Hr Ho) as [Hid HL]. by split.
    + split; [done|]. split; [by destruct Hr|]. split; [|done]. pose proof (r_out _ _ _ _ _ _ _ Hr).
      pose proof (count_nonneg (pend (generation_ p0)) ws0 (fun w => proj1 (pend_range _ w))). lia.
  - destruct Hph as (-> & Hr & Hrem & Hle). destruct (Z.eqb_spec (outstanding_ p0) rem) as [Ho|Ho]; injection E as <- <- <- <- <-; (apply Hgoal; [done|]).
    + split; [done|]. split; [by destruct Hr|]. split; [done|]. split; [lia|]. lia.
    + split; [done|]. by destruct Hr.
  - done.
  - injection E as <- <- <- <- <-. destruct Hph as (-> & Hq & HL & ->). by apply Hgoal.
  - injection E as <- <- <- <- <-. destruct Hph as (-> & Hq & HL & -> & Hs). apply Hgoal; [done|]. split; [done|]. split; [by apply stopping_start|done].
  - injection E as <- <- <- <- <-. destruct Hph as (-> & Hs & HL & ->). apply Hgoal; [done|]. split; [done|]. split; [by apply stopping_wake|].
    do 2 (split; [done|]). split; [done|]. intros i w Hi. lia.
  - destruct Hph as (-> & Hs & HL & -> & Hj & Hex). rewrite Z.geb_leb in E. destruct (Z.leb_spec (p_size p0) j) as [Hle|Hlt].
    + injection E as <- <- <- <- <-. apply Hgoal; [done|]. do 3 (split; [done|]). split; [|by destruct Hs].
      destruct (sp_size _ _ _ Hs) as [Hsz|[H _]]; [|done]. apply Forall_lookup. intros i w Hi. apply (Hex i w); [|done].
      apply lookup_lt_Some in Hi. unfold zlen in Hsz. lia.
    + destruct (ws0 !! Z.to_nat j) as [w|] eqn:Hw; [|done]. cbn in E. destruct (w_pc w) eqn:Epc; try done. injection E as <- <- <- <- <-.
      apply Hgoal; [done|]. do 4 (split; [done|]). split; [lia|]. intros i v Hi Hv. destruct (decide (i = Z.to_nat j)) as [->|]; [congruence|].
      apply (Hex i v); [lia|done].
  - injection E as <- <- <- <- <-. destruct Hph as (-> & HL & -> & Hex & Hs). apply Hgoal; [done|]. split; [done|]. split; [|done].
    split; [by right|done].
  - done.
Qed.
End Machine.
End Inv.
