(* ===== verification/ThreadPoolProps.v ===== *)
(** * The thread pool: what every run of the machine satisfies

    Fork and join with termination for every order of the threads' steps, no
    race on the plain members, nested calls stay on their thread, [shutdown]
    leaves no worker. *)
From S2P Require Import Prelude ThreadPool ThreadPoolSpec ThreadPoolInv.

Section Props.
Context {A : Type}.

(** Every run from [s] comes to a state where [P] holds, whatever thread moves
    next: the steps cannot go on for ever, and cannot get stuck, before. *)
Inductive inevitable (P : state A -> Prop) (s : state A) : Prop :=
| inev_now : P s -> inevitable P s
| inev_later : (exists s', step s s') -> (forall s', step s s' -> inevitable P s') -> inevitable P s.

Section Machine.
Context (hw : Z) (cmds : list (command A)).
Let W := num_workers hw.
Context (Hhw : 0 <= hw <= INT_MAX) (Hfit : Forall (command_fits W) cmds).

Lemma W_range : 0 <= W <= INT_MAX.
Proof. unfold W, num_workers. destruct (Z.eqb_spec hw 0); cbn; [unfold INT_MAX; lia|]. destruct (Z.gtb_spec hw 1); lia. Qed.

Lemma pool_start_ok : Inv W cmds (start hw cmds).
Proof.
  pose proof W_range as [HW _]. split; [done|]. split; [cbn; unfold zlen; rewrite length_replicate; fold W; lia|]. split; [constructor|].
  split; [done|]. cbn. split; [done|]. split.
  - split; [|done]. left. split; [|cbn; unfold zlen; rewrite length_replicate; fold W; lia].
    apply Forall_replicate. by split.
  - intros r t u ->%shuffle_none Ht Hu. inversion Ht; subst. exact Hu.
Qed.

Lemma pool_step_ok s s' : Inv W cmds s -> step s s' -> Inv W cmds s'.
Proof.
  intros H [p ws c a e E|j w p w' c a e Hj E]; [by apply (caller_inv W (proj2 W_range))|by apply (worker_inv W (proj2 W_range)) with (w := w)].
Qed.

Lemma pool_reach_ok s : rtc step (start hw cmds) s -> Inv W cmds s.
Proof. intros H. assert (G : forall s0, Inv W cmds s0 -> rtc step s0 s -> Inv W cmds s); [|by apply (G (start hw cmds) pool_start_ok)].
  intros s0 H0 Hr. revert H0. induction Hr as [|s1 s2 s3 H1 _ IH]; [done|]. intros H0. by apply IH, (pool_step_ok s1).
Qed.

(** ** Progress *)

Lemma wok_steps (p : ThreadPool A) (c : caller A) g0 (w : worker A) : wok (generation_ p) g0 false w -> generation_ p <> g0 -> fn_ p <> None -> pend (generation_ p) w = 1 -> exists x, wstep p c w = Some x.
Proof.
  unfold wok, pend, wstep. intros Hw Hg Hf Hp. destruct (w_pc w) as [| | | | |i|i|i s| | |]; try done; try (eexists; reflexivity).
  - destruct Hw as [[Hs|[? _]] _]; [|done]. by rewrite (proj2 (Z.eqb_eq _ _) Hs) in Hp.
  - destruct (fn_ p); [eexists; reflexivity|done].
  - destruct (code_step (w_active w) (p_size p =? 0) s); eexists; reflexivity.
Qed.

Lemma worker_steps (s : state A) j w x : s_ws s !! j = Some w -> wstep (s_pool s) (s_caller s) w = Some x -> exists s', step s s'.
Proof. destruct x as [[[[p w'] c] a] e]. intros Hj E. eexists. by eapply step_worker. Qed.

Lemma progress s : Inv W cmds s -> c_pc (s_caller s) <> CHalt -> exists s', step s s'.
Proof.
  destruct s as [p ws [pc ac cont q] log flt]. intros (_ & _ & _ & _ & Hph) Hh. cbn in Hh.
  assert (Hc : forall x, cstep p ws (mkCaller pc ac cont q) = Some x -> exists s', step (mkState p ws (mkCaller pc ac cont q) log flt) s').
  { intros [[[[p' ws'] c'] a] e] E. eexists. by eapply step_caller. }
  unfold cstep in Hc. cbn [c_pc c_active c_cont c_cmds] in Hc. unfold phase in Hph. cbn [s_pool s_ws s_caller s_log c_pc c_active c_cont c_cmds] in Hph.
  destruct pc; try done; try (by eapply Hc).
  - destruct (code_step ac (p_size p =? 0) cont); [destruct q as [|[] ?]|..]; by eapply Hc.
  - destruct (code_step ac (p_size p =? 0) s); by eapply Hc.
  - (* CBlocked *)
    destruct Hph as (_ & Hr & _ & _ & Hz). destruct Hr as [_ _ H3 _ _ (g0 & Hg & H6) H7 _ _ _].
    destruct (Z.eq_dec (outstanding_ p) 0) as [E|E].
    + destruct (Hz E) as (j & w & Hj & Hpc & _). eapply (worker_steps (mkState p ws _ log flt) j w); [done|]. unfold wstep. cbn. by rewrite Hpc.
    + pose proof (count_nonneg (pend (generation_ p)) ws (fun w => proj1 (pend_range _ w))).
      destruct (total_exists (pend (generation_ p)) ws ltac:(lia)) as (j & w & Hj & Hw). pose proof (pend_range (generation_ p) w).
      destruct (wok_steps p (mkCaller (CBlocked n fn rem) ac cont q) g0 w (H6 j w Hj)) as [x Hx]; [congruence|by rewrite H3|lia|].
      by eapply (worker_steps (mkState p ws _ log flt) j w).
  - (* SJoin *)
    destruct Hph as (_ & [S1 (g0 & Hg & S2) S3] & _ & _ & Hj0 & _). rewrite Z.geb_leb in Hc. destruct (Z.leb_spec (p_size p) j); [by eapply Hc|].
    destruct S3 as [S3|[_ S3]]; [|lia]. destruct (lookup_lt_is_Some_2 ws (Z.to_nat j)) as [w Hw]; [unfold zlen in S3; lia|].
    rewrite Hw in Hc. cbn in Hc. rewrite Forall_lookup in S2. specialize (S2 _ _ Hw). unfold sok in S2.
    assert (Hx : w_pc w = WExit \/ exists x, wstep p (mkCaller (SJoin j) ac cont q) w = Some x).
    { unfold wstep. destruct (w_pc w); try done; try (by left); try (right; eexists; reflexivity). by destruct S2. }
    destruct Hx as [Hx|[x Hx]]; [rewrite Hx in Hc; by eapply Hc|]. by eapply (worker_steps (mkState p ws _ log flt) (Z.to_nat j) w).
Qed.

(** ** A measure every step decreases *)

Fixpoint psize (p : prog A) : Z :=
  match p with
  | Stop => 1
  | Do _ k => 1 + psize k
  | Par n fn k => total (fun i => psize (fn i) + 5) (seqZ 0 n) + (11 + 14 * W) + psize k
  end.
Definition jsize (fn : Z -> prog A) (lo n : Z) : Z := total (fun i => psize (fn i) + 5) (seqZ lo (n - lo)).
Definition fsize (f : frame A) : Z := match f with Run p => psize p | Loop i n fn => 1 + jsize fn i n end.
Definition csize (c : command A) : Z := match c with Call p => 2 + psize p | Shutdown => 9 + 12 * W end.

Lemma psize_nonneg p : 0 <= psize p.
Proof.
  pose proof W_range as [HW _]. induction p as [|a k IH|n fn IHf k IHk]; cbn [psize]; [lia..|].
  assert (0 <= total (fun i => psize (fn i) + 5) (seqZ 0 n)) by (apply count_nonneg; intros i; pose proof (IHf i); lia). lia.
Qed.

Lemma jsize_nonneg fn lo n : 0 <= jsize fn lo n.
Proof. apply count_nonneg. intros i. pose proof (psize_nonneg (fn i)). lia. Qed.

Lemma fsize_nonneg f : 0 <= fsize f.
Proof. destruct f; cbn; [apply psize_nonneg|]. pose proof (jsize_nonneg fn i n). lia. Qed.

Lemma csize_nonneg c : 0 <= csize c.
Proof. pose proof W_range as [HW _]. destruct c as [p|]; cbn; [pose proof (psize_nonneg p)|]; lia. Qed.

Lemma jsize_next fn lo n : lo < n -> jsize fn lo n = psize (fn lo) + 5 + jsize fn (lo + 1) n.
Proof.
  intros H. unfold jsize. rewrite (seqZ_cons lo) by lia. rewrite count_cons. rewrite <- Z.add_1_r. by replace (Z.pred (n - lo)) with (n - (lo + 1)) by lia.
Qed.

Lemma jsize_end fn lo n : n <= lo -> jsize fn lo n = 0.
Proof. intros H. unfold jsize. by rewrite seqZ_nil by lia. Qed.

Definition ssize (s : list (frame A)) : Z := total fsize s.

Lemma ssize_nonneg s : 0 <= ssize s.
Proof. apply count_nonneg, fsize_nonneg. Qed.

Lemma code_step_size act idl s : match code_step act idl s with
  | MDone => True
  | MStep _ s' => ssize s' < ssize s
  | MPool n fn s' => ssize s = jsize fn 0 n + (11 + 14 * W) + ssize s'
  end.
Proof.
  pose proof W_range as [HW _]. unfold ssize. destruct s as [|[[|a k|n fn k]|i n fn] r]; [done|..]; cbn [code_step]; rewrite ?count_cons; cbn [fsize psize]; try lia.
  - pose proof (jsize_nonneg fn 0 n) as Hj. unfold jsize in *. rewrite Z.sub_0_r in *. destruct (run_mode act idl n); rewrite ?count_cons; cbn [fsize].
    + lia.
    + unfold jsize. rewrite Z.sub_0_r. lia.
    + rewrite Z.sub_0_r. lia.
  - destruct (Z.ltb_spec i n) as [H|H]; rewrite ?count_cons; cbn [fsize].
    + rewrite (jsize_next fn i n H). lia.
    + pose proof (jsize_nonneg fn i n). lia.
Qed.

(** What a worker can still do before it sleeps. *)
Definition wsize (p : ThreadPool A) (w : worker A) : Z :=
  let new := negb (w_seen w =? generation_ p) in
  match w_pc w with
  | WWait => if new then 9 else 1
  | WBlocked => if new then 9 else 0
  | WNotify => if new then 12 else 3
  | WLoad => 8
  | WCheck => 7
  | WClaim => 6
  | WTest i => if i >=? n_ p then 5 else 9 + match fn_ p with Some fn => psize (fn i) | None => 0 end
  | WCall i => 8 + match fn_ p with Some fn => psize (fn i) | None => 0 end
  | WIn i s => 7 + ssize s
  | WDone => 4
  | WExit => 0
  end.

(** The caller, and what is left of the job. *)
Definition callsize (p : ThreadPool A) (c : caller A) : Z :=
  let rest := 1 + ssize (c_cont c) + total csize (c_cmds c) in
  let out := 4 * outstanding_ p in
  match c_pc c with
  | CCode => rest
  | CSetFn n fn => rest + 10 + 14 * W + jsize fn 0 n
  | CSetN n fn => rest + 9 + 14 * W + jsize fn 0 n
  | CSetCursor n fn => rest + 8 + 14 * W + jsize fn 0 n
  | CSetOut n fn => rest + 7 + 14 * W + jsize fn 0 n
  | CBump n fn => rest + 6 + 14 * W + jsize fn 0 n
  | CNotify n fn => rest + 5 + out + W + jsize fn (cursor_ p) n
  | CClaim n fn => rest + 4 + out + jsize fn (cursor_ p) n
  | CTest n fn i => rest + out + jsize fn (cursor_ p) n + (if i >=? n then 3 else 6 + psize (fn i))
  | CIn n fn i s => rest + 5 + ssize s + out + jsize fn (cursor_ p) n
  | CLoad n fn => rest + 2 + out + jsize fn (cursor_ p) n
  | CWait n fn rem => rest + (if outstanding_ p =? rem then 1 else 3) + out + jsize fn (cursor_ p) n
  | CBlocked n fn rem => rest + (if outstanding_ p =? rem then 0 else 4) + out + jsize fn (cursor_ p) n
  | SStore => rest + 7 + 12 * W
  | SBump => rest + 6 + 12 * W
  | SNotify => rest + 5 + 3 * W
  | SJoin j => rest + 3 + Z.max 0 (p_size p - j)
  | SClear => rest + 1
  | CHalt => rest - 1
  end.

Definition measure (s : state A) : Z := callsize (s_pool s) (s_caller s) + total (wsize (s_pool s)) (s_ws s).

Lemma wsize_nonneg p w : 0 <= wsize p w.
Proof.
  unfold wsize. destruct (w_pc w); try destruct (negb _); try lia.
  - destruct (_ >=? _); [lia|]. destruct (fn_ p); [|lia]. pose proof (psize_nonneg (p0 i)). lia.
  - destruct (fn_ p); [|lia]. pose proof (psize_nonneg (p0 i)). lia.
  - pose proof (ssize_nonneg s). lia.
Qed.

Lemma measure_nonneg s : Inv W cmds s -> 0 <= measure s.
Proof.
  destruct s as [p ws [pc ac cont q] log flt]. intros (_ & _ & _ & _ & Hph). unfold measure. cbn [s_pool s_caller s_ws].
  pose proof (count_nonneg (wsize p) ws (wsize_nonneg p)) as Hw. pose proof W_range as [HW _]. pose proof (ssize_nonneg cont) as Hs.
  pose proof (count_nonneg csize q csize_nonneg) as Hq. unfold phase in Hph. cbn [s_pool s_ws s_caller s_log c_pc c_active c_cont c_cmds] in Hph.
  assert (Hrun : forall n fn nb c, running W cmds n fn nb p ws c log -> 0 <= outstanding_ p).
  { intros n fn nb c Hr. rewrite (r_out _ _ _ _ _ _ _ _ _ Hr). apply count_nonneg. intros w. apply pend_range. }
  assert (Hout : match pc with CNotify _ _ | CClaim _ _ | CTest _ _ _ | CIn _ _ _ _ | CLoad _ _ | CWait _ _ _ | CBlocked _ _ _ => 0 <= outstanding_ p | _ => True end).
  { destruct pc; try done; destruct Hph as (_ & Hr); first [exact (Hrun _ _ _ _ Hr) | exact (Hrun _ _ _ _ (proj1 Hr))]. }
  unfold callsize. cbn [c_pc c_cont c_cmds].
  destruct pc; try pose proof (jsize_nonneg fn 0 n); try pose proof (jsize_nonneg fn (cursor_ p) n); try lia.
  - destruct (_ >=? _); [lia|]. pose proof (psize_nonneg (fn i)). lia.
  - pose proof (ssize_nonneg s). lia.
  - destruct (_ =? _); lia.
  - destruct (_ =? _); lia.
Qed.

(** A worker in the middle of a job: the caller is in [run]. *)
Definition job_of (c : caller A) : option (Z * (Z -> prog A)) :=
  match c_pc c with
  | CNotify n fn | CClaim n fn | CTest n fn _ | CIn n fn _ _ | CLoad n fn | CWait n fn _ | CBlocked n fn _ => Some (n, fn)
  | _ => None
  end.

Definition busy (w : worker A) : Prop :=
  match w_pc w with WClaim | WTest _ | WCall _ | WIn _ _ | WDone => True | _ => False end.

Lemma busy_running p ws c log flt j w : Inv W cmds (mkState p ws c log flt) -> ws !! j = Some w -> busy w ->
  exists n fn nb, job_of c = Some (n, fn) /\ running W cmds n fn nb p ws c log /\
    match c_pc c with CWait _ _ rem | CBlocked _ _ rem => outstanding_ p <= rem | _ => True end.
Proof.
  intros (_ & _ & _ & _ & Hph) Hj Hw. unfold phase, job_of in *. cbn [s_pool s_ws s_caller s_log] in Hph.
  assert (Hpark : forall g, Forall (parked g) ws -> False).
  { intros g H. rewrite Forall_lookup in H. destruct (H j w Hj) as (_ & _ & Hpc). unfold busy in Hw. by destruct (w_pc w). }
  assert (Hexit : Forall exited ws -> False).
  { intros H. rewrite Forall_lookup in H. specialize (H j w Hj). unfold exited in H. unfold busy in Hw. by destruct (w_pc w). }
  assert (Hquiet : quiet p ws -> False) by (intros [[H _]|[H _]]; [by eapply Hpark|by apply Hexit]).
  assert (Hready : forall n fn, ready W n fn p ws -> False) by (intros n fn [_ _ H _]; by eapply Hpark).
  assert (Hstop : forall nb, stopping nb p ws -> False).
  { intros nb [_ (g0 & _ & H) _]. rewrite Forall_lookup in H. specialize (H j w Hj). unfold sok in H. unfold busy in Hw. by destruct (w_pc w). }
  destruct (c_pc c); try solve
    [ exfalso; destruct Hph as (_ & H & _); first [exact (Hquiet H) | exact (Hready _ _ H) | exact (Hstop _ H) | exact (Hquiet (proj1 H))]
    | destruct Hph as (_ & Hr); eexists _, _, _; split; [reflexivity|]; split; [exact Hr|done]
    | destruct Hph as (_ & Hr & _ & Hle); eexists _, _, _; split; [reflexivity|]; split; [exact Hr|exact Hle || exact (proj1 Hle)] ].
  - destruct Hph as (_ & _ & _ & H & _). by destruct (Hexit H).
  - destruct Hph as (_ & _ & _ & H). by destruct (Hquiet (proj1 H)).
Qed.

(** Of the pool, a worker's measure depends on the generation and the job. *)
Lemma total_wsize p p' ws : n_ p' = n_ p -> fn_ p' = fn_ p -> generation_ p' = generation_ p -> total (wsize p') ws = total (wsize p) ws.
Proof. intros E1 E2 E3. apply total_ext. intros w _. unfold wsize. by rewrite E1, E2, E3. Qed.

Lemma callsize_cursor p c n fn : job_of c = Some (n, fn) -> forall z, callsize (set_cursor p z) c = callsize p c - jsize fn (cursor_ p) n + jsize fn z n.
Proof. unfold job_of, callsize. intros E z. destruct (c_pc c); try done; injection E as -> ->; cbn [set_cursor cursor_ outstanding_]; lia. Qed.

Lemma callsize_wake p c : callsize p (wake_caller c) <= callsize p c + 1.
Proof. unfold wake_caller, callsize. destruct c as [pc ac cont q]. destruct pc; cbn; try lia. destruct (_ =? _); lia. Qed.

Lemma worker_decreases p ws c log flt j w p' w' c' a e : Inv W cmds (mkState p ws c log flt) -> ws !! j = Some w ->
  wstep p c w = Some (p', w', c', a, e) -> e = false ->
  callsize p' c' + total (wsize p') (<[j := w']> ws) < callsize p c + total (wsize p) ws.
Proof.
  intros HI Hj E He. pose proof (total_insert (wsize p) ws j w w' Hj) as Ht.
  assert (Hkeep : p' = p -> c' = c -> wsize p w' < wsize p w -> callsize p' c' + total (wsize p') (<[j := w']> ws) < callsize p c + total (wsize p) ws).
  { intros -> ->. lia. }
  unfold wstep in E. destruct (w_pc w) as [| | | | |i|i|i s| | |] eqn:Epc; try done.
  - injection E as <- <- <- <- <-. apply Hkeep; try done. unfold wsize. rewrite Epc. cbn. rewrite (Z.eqb_sym (w_seen w)). destruct (generation_ p =? w_seen w) eqn:Eg; cbn; rewrite ?(Z.eqb_sym (w_seen w)), ?Eg; cbn; lia.
  - injection E as <- <- <- <- <-. apply Hkeep; try done. unfold wsize. rewrite Epc. cbn. lia.
  - injection E as <- <- <- <- <-. apply Hkeep; try done. unfold wsize. rewrite Epc. destruct (shutdown_ p); cbn; lia.
  - (* WClaim *)
    injection E as <- <- <- <- <-. destruct (busy_running p ws c log flt j w HI Hj ltac:(by unfold busy; rewrite Epc)) as (n & fn & nb & Hjob & Hr & _).
    destruct HI as (_ & Hws & _). destruct (running_bounds _ _ n fn nb p ws c log j w Hr Hws Hj) as [_ Hu]; [by unfold over; rewrite Epc|].
    rewrite Hu, (callsize_cursor p c n fn Hjob), (total_wsize p) by done. rewrite Ht. unfold wsize. rewrite Epc. cbn [w_pc].
    rewrite (r_fn _ _ _ _ _ _ _ _ _ Hr), (r_nn _ _ _ _ _ _ _ _ _ Hr), Z.geb_leb. destruct (Z.leb_spec n (cursor_ p)).
    + rewrite !jsize_end by lia. lia.
    + rewrite (jsize_next fn (cursor_ p) n) by done. lia.
  - injection E as <- <- <- <- <-. apply Hkeep; try done. unfold wsize. rewrite Epc. destruct (i >=? n_ p); cbn; lia.
  - destruct (fn_ p) as [fn|] eqn:Ef; [|done]. injection E as <- <- <- <- <-. apply Hkeep; try done. unfold wsize. rewrite Epc, Ef. cbn. lia.
  - pose proof (code_step_size (w_active w) (p_size p =? 0) s) as Hs. destruct (code_step (w_active w) (p_size p =? 0) s) as [|a1 s1|];
      injection E as <- <- <- <- <-; [..|done]; (apply Hkeep; [done..|]); unfold wsize; rewrite Epc; cbn.
    + pose proof (ssize_nonneg s). lia.
    + lia.
  - (* WDone *)
    injection E as <- <- <- <- <-. destruct (busy_running p ws c log flt j w HI Hj ltac:(by unfold busy; rewrite Epc)) as (n & fn & nb & Hjob & Hr & Hrem).
    destruct HI as (_ & Hws & _). cbn in Hws. pose proof W_range as HW.
    assert (Hout : 1 <= outstanding_ p <= W).
    { rewrite (r_out _ _ _ _ _ _ _ _ _ Hr). pose proof (total_at (pend (generation_ p)) ws j w (fun w => proj1 (pend_range _ w)) Hj) as Hat. unfold pend in Hat at 1. rewrite Epc in Hat.
      pose proof (total_le (pend (generation_ p)) ws 1 (fun w => proj2 (pend_range _ w))). lia. }
    rewrite i32_count by lia. rewrite (total_wsize p) by done. rewrite Ht.
    destruct (r_ws _ _ _ _ _ _ _ _ _ Hr) as (g0 & _ & Hok). specialize (Hok j w Hj). unfold wok in Hok. rewrite Epc in Hok. destruct Hok as [Hseen _].
    assert (Hw' : wsize p (mkWorker (if outstanding_ p =? 1 then WNotify else WWait) (w_seen w) (w_active w)) <= 3).
    { unfold wsize. cbn. rewrite Hseen, Z.eqb_refl. destruct (_ =? _); cbn; lia. }
    assert (Ew : wsize p w = 4) by (unfold wsize; by rewrite Epc).
    assert (Hc : callsize (set_outstanding p (outstanding_ p - 1)) c <= callsize p c).
    { unfold callsize, job_of in *. destruct (c_pc c); try done; cbn [set_outstanding outstanding_ cursor_]; try lia.
      - destruct (Z.eqb_spec (outstanding_ p) rem); destruct (Z.eqb_spec (outstanding_ p - 1) rem); lia.
      - destruct (Z.eqb_spec (outstanding_ p) rem); destruct (Z.eqb_spec (outstanding_ p - 1) rem); lia. }
    lia.
  - injection E as <- <- <- <- <-. pose proof (callsize_wake p c). rewrite Ht. unfold wsize. rewrite Epc. cbn. destruct (negb _); lia.
Qed.

Lemma wsize_parked p p' w : parked (generation_ p) w -> (generation_ p' = generation_ p -> wsize p' w = wsize p w) /\ wsize p' w <= wsize p w + 9.
Proof.
  intros (Hs & _ & Hpc). unfold wsize. rewrite Hs, Z.eqb_refl. cbn [negb]. split.
  - intros ->. rewrite Z.eqb_refl. by destruct (w_pc w).
  - destruct (w_pc w); try done; destruct (negb _); lia.
Qed.

Lemma wsize_quiet p p' ws : quiet p ws -> total (wsize p') ws <= total (wsize p) ws + 9 * zlen ws.
Proof.
  intros Hq. apply total_mono. intros w Hw. destruct Hq as [[H _]|[H _]]; rewrite Forall_forall in H; specialize (H w Hw).
  - by apply wsize_parked.
  - unfold wsize. unfold exited in H. rewrite H. lia.
Qed.

Lemma wsize_wake p ws : total (wsize p) (wake <$> ws) <= total (wsize p) ws + 1 * zlen ws.
Proof.
  rewrite total_fmap. apply total_mono. intros w _. unfold wsize, wake. destruct (w_pc w) eqn:E; cbn; rewrite ?E; try lia. destruct (negb _); lia.
Qed.

Lemma wsize_ready n fn p p' ws : ready W n fn p ws -> generation_ p' = generation_ p -> total (wsize p') ws = total (wsize p) ws.
Proof. intros [_ _ H _] Hg. apply total_ext. intros w Hw. rewrite Forall_forall in H. by apply wsize_parked; [apply H|]. Qed.

Lemma caller_decreases p ws pc ac cont q log flt p' ws' c' a e : Inv W cmds (mkState p ws (mkCaller pc ac cont q) log flt) ->
  cstep p ws (mkCaller pc ac cont q) = Some (p', ws', c', a, e) -> e = false ->
  callsize p' c' + total (wsize p') ws' < callsize p (mkCaller pc ac cont q) + total (wsize p) ws.
Proof.
  intros (_ & Hws & _ & _ & Hph) E He. cbn in Hws. pose proof W_range as [HW _].
  pose proof (ssize_nonneg cont) as Hsn. pose proof (count_nonneg csize q csize_nonneg) as Hqn.
  unfold phase in Hph. cbn [s_pool s_ws s_caller s_log c_pc c_active c_cont c_cmds] in Hph.
  unfold cstep in E. cbn [c_pc c_active c_cont c_cmds] in E.
  destruct pc.
  - pose proof (code_step_size ac (p_size p =? 0) cont) as Hs. destruct (code_step ac (p_size p =? 0) cont) as [|a1 s1|n fn s1].
    + destruct q as [|[q1|] r]; injection E as <- <- <- <- <-; unfold callsize; cbn [c_pc c_cont c_cmds]; rewrite ?count_cons; cbn [csize];
        unfold ssize; rewrite ?count_cons; cbn [fsize]; try lia; change (total fsize cont) with (ssize cont); change (total fsize []) with 0; lia.
    + injection E as <- <- <- <- <-. unfold callsize. cbn [c_pc c_cont c_cmds]. lia.
    + injection E as <- <- <- <- <-. unfold callsize. cbn [c_pc c_cont c_cmds]. lia.
  - injection E as <- <- <- <- <-. destruct Hph as (_ & Hr & _). rewrite (wsize_ready _ _ _ (set_fn p (Some fn)) ws Hr) by done. unfold callsize. cbn. lia.
  - injection E as <- <- <- <- <-. destruct Hph as (_ & Hr & _). rewrite (wsize_ready _ _ _ (set_n p n) ws Hr) by done. unfold callsize. cbn. lia.
  - injection E as <- <- <- <- <-. rewrite (total_wsize p) by done. unfold callsize. cbn. lia.
  - injection E as <- <- <- <- <-. rewrite (total_wsize p) by done. unfold callsize. cbn. lia.
  - injection E as <- <- <- <- <-. destruct Hph as (_ & [_ _ Hp Hsz] & _ & _ & _ & H3 & H4).
    pose proof (wsize_quiet p (set_generation p (i32 (generation_ p + 1))) ws (or_introl (conj Hp Hsz))). unfold callsize. cbn. rewrite H3, H4. lia.
  - injection E as <- <- <- <- <-. pose proof (wsize_wake p ws). unfold callsize. cbn [c_pc c_cont c_cmds]. lia.
  - injection E as <- <- <- <- <-. destruct Hph as (-> & Hr). pose proof (running_claim _ _ n fn p ws cont q log Hws Hr) as _.
    pose proof (r_cur _ _ _ _ _ _ _ _ _ Hr) as Hcur. pose proof (r_n _ _ _ _ _ _ _ _ _ Hr) as Hn. cbn in Hcur.
    pose proof (total_le (over (generation_ p) n) ws 1 (fun w => proj2 (over_range _ _ w))).
    assert (Hu : u64 (cursor_ p + 1) = cursor_ p + 1) by (unfold u64; apply Z.mod_small; lia).
    rewrite (total_wsize p) by done. rewrite Hu. unfold callsize. cbn [c_pc c_cont c_cmds set_cursor cursor_ outstanding_]. rewrite Z.geb_leb.
    destruct (Z.leb_spec n (cursor_ p)); [rewrite !jsize_end by lia; lia|]. rewrite (jsize_next fn (cursor_ p) n) by done. lia.
  - injection E as <- <- <- <- <-. destruct Hph as (_ & Hr). rewrite (r_nn _ _ _ _ _ _ _ _ _ Hr). unfold callsize. destruct (i >=? n) eqn:Ei; cbn [c_pc c_cont c_cmds]; rewrite ?Ei.
    + lia.
    + unfold ssize at 2. rewrite count_cons. cbn [fsize]. change (total fsize []) with 0. lia.
  - pose proof (code_step_size ac (p_size p =? 0) s) as Hs. pose proof (ssize_nonneg s).
    destruct (code_step ac (p_size p =? 0) s); injection E as <- <- <- <- <-; [..|done]; unfold callsize; cbn [c_pc c_cont c_cmds]; lia.
  - injection E as <- <- <- <- <-. destruct Hph as (_ & Hr). pose proof (jsize_nonneg fn (cursor_ p) n).
    unfold callsize. destruct (Z.eqb_spec (outstanding_ p) 0) as [Ho|Ho]; cbn [c_pc c_cont c_cmds]; rewrite ?Z.eqb_refl; lia.
  - injection E as <- <- <- <- <-. unfold callsize. destruct (outstanding_ p =? rem) eqn:Ho; cbn [c_pc c_cont c_cmds]; rewrite ?Ho; lia.
  - done.
  - injection E as <- <- <- <- <-. rewrite (total_wsize p) by done. unfold callsize. cbn. lia.
  - injection E as <- <- <- <- <-. destruct Hph as (_ & Hq & _). pose proof (wsize_quiet p (set_generation p (i32 (generation_ p + 1))) ws Hq).
    unfold callsize. cbn. lia.
  - injection E as <- <- <- <- <-. destruct Hph as (_ & [_ _ Hsz] & _). pose proof (wsize_wake p ws). unfold callsize. cbn [c_pc c_cont c_cmds].
    assert (p_size p <= W) by (destruct Hsz as [->|[_ ->]]; lia). lia.
  - rewrite Z.geb_leb in E. destruct (Z.leb_spec (p_size p) j).
    + injection E as <- <- <- <- <-. unfold callsize. cbn. lia.
    + destruct (w_pc <$> ws !! Z.to_nat j) as [[]|]; try done. injection E as <- <- <- <- <-. unfold callsize. cbn. lia.
  - injection E as <- <- <- <- <-. rewrite (total_wsize p) by done. unfold callsize. cbn. lia.
  - done.
Qed.

Lemma step_decreases s s' : Inv W cmds s -> step s s' -> measure s' < measure s.
Proof.
  intros HI Hs. assert (Hf' : s_fault s' = false) by apply (pool_step_ok s s' HI Hs). assert (Hf : s_fault s = false) by apply HI.
  destruct s as [p ws [pc ac cont q] log flt], Hs as [p' ws' c' a e E|j w p' w' c' a e Hj E]; cbn in *; subst flt; cbn in Hf'; unfold measure; cbn [s_pool s_caller s_ws].
  - by apply (caller_decreases p ws pc ac cont q log false p' ws' c' a e).
  - by apply (worker_decreases p ws _ log false j w p' w' c' a e).
Qed.

Lemma halted_dec s : {c_pc (s_caller s) = CHalt} + {c_pc (s_caller s) <> @CHalt A}.
Proof. destruct (c_pc (s_caller s)); first [left; reflexivity|right; discriminate]. Qed.

Lemma halt_inevitable s : Inv W cmds s -> inevitable (fun s => c_pc (s_caller s) = CHalt /\ Inv W cmds s) s.
Proof.
  intros HI. assert (Hm : exists m : nat, measure s <= Z.of_nat m) by (exists (Z.to_nat (measure s)); lia). destruct Hm as [m Hm].
  revert s HI Hm. induction m as [|m IH]; intros s HI Hm; (destruct (halted_dec s) as [Hh|Hh]; [by apply inev_now|]);
    (apply inev_later; [by apply progress|]); intros s' Hs; pose proof (pool_step_ok s s' HI Hs) as HI'; pose proof (step_decreases s s' HI Hs);
    pose proof (measure_nonneg s' HI').
  - lia.
  - apply IH; [done|lia].
Qed.

Lemma inevitable_mono (P Q : state A -> Prop) s : (forall s, P s -> Q s) -> inevitable P s -> inevitable Q s.
Proof. intros H. induction 1 as [s Hs|s He _ IH]; [by apply inev_now, H|by apply inev_later]. Qed.

Lemma halt_behaviour s : Inv W cmds s -> c_pc (s_caller s) = CHalt -> behaviours cmds (s_log s).
Proof.
  intros (_ & _ & _ & _ & Hph) Hh. unfold phase in Hph. rewrite Hh in Hph. destruct Hph as (HL & Hc & Hq & _). rewrite Hc, Hq in HL.
  specialize (HL [] [] [] (shuffle_done [] ltac:(constructor)) ltac:(constructor) ltac:(constructor)). by rewrite !app_nil_r in HL.
Qed.

(** C8: every run of the thread pool comes to its end, and then it was a
    fork-join run. On a host with [hw] cores, whatever order the threads'
    steps take, the application's [parallel_for] and [shutdown] calls cannot
    deadlock (no wake-up is lost, no worker is waited for in vain) and cannot
    go on for ever; and the actions done are, call by call, an interleaving of
    the callbacks of all the indices, every one of them before what follows the
    call. *)
Theorem parallel_for_inevitable : inevitable (fun s => c_pc (s_caller s) = CHalt /\ behaviours cmds (s_log s)) (start hw cmds).
Proof. apply (inevitable_mono (fun s => c_pc (s_caller s) = CHalt /\ Inv W cmds s)); [intros s [Hh HI]; split; [done|by apply halt_behaviour]|apply halt_inevitable, pool_start_ok]. Qed.

(** ** Safety *)

(** The plain member thread [t] touches next ([None] is the caller). *)
Definition access (s : state A) (t : option nat) : option (member * bool) :=
  match t with None => caccess (s_caller s) | Some j => s_ws s !! j ≫= waccess end.
Definition race (s : state A) : Prop := exists t t' m b, t <> t' /\ access s t = Some (m, true) /\ access s t' = Some (m, b).

(** C9: at every moment of every run: no two threads are about to touch [fn_]
    or [n_] with one of them writing; a worker that reads [fn_] or runs a
    callback does so while the caller is in the [run] call whose function that
    is (so the function object is alive); a thread inside a job never starts
    another one (nested calls run where they are made); the claims have not
    wrapped around; and after [shutdown] no worker is left. *)
Theorem thread_pool_safe s : rtc step (start hw cmds) s ->
  ~ race s /\ s_fault s = false /\
  (forall j w, s_ws s !! j = Some w -> match w_pc w with WTest _ | WCall _ | WIn _ _ => True | _ => False end ->
     exists n fn, job_of (s_caller s) = Some (n, fn) /\ fn_ (s_pool s) = Some fn /\ n_ (s_pool s) = n /\ cursor_ (s_pool s) < 2 ^ 64 - 1) /\
  (shutdown_ (s_pool s) = true -> c_pc (s_caller s) = CCode \/ c_pc (s_caller s) = CHalt -> Forall exited (s_ws s)).
Proof.
  intros Hr%pool_reach_ok. destruct s as [p ws c log flt]. cbn.
  assert (Hbusy : forall j w, ws !! j = Some w -> busy w -> exists n fn nb, job_of c = Some (n, fn) /\ running W cmds n fn nb p ws c log).
  { intros j w Hj Hw. destruct (busy_running p ws c log flt j w Hr Hj Hw) as (n & fn & nb & ? & ? & _). by exists n, fn, nb. }
  split; [|split; [by apply Hr|split]].
  - intros (t & t' & m & b & Hne & Ht & Ht'). destruct t as [j|]; cbn in Ht.
    { destruct (ws !! j) as [w|]; [|done]. cbn in Ht. unfold waccess in Ht. by destruct (w_pc w). }
    destruct t' as [j|]; [|done]. cbn in Ht'. destruct (ws !! j) as [w|] eqn:Hj; [|done]. cbn in Ht'.
    destruct (Hbusy j w Hj) as (n & fn & nb & Hjob & _); [unfold waccess in Ht'; unfold busy; by destruct (w_pc w)|].
    unfold job_of, caccess in *. by destruct (c_pc c).
  - intros j w Hj Hw. destruct (Hbusy j w Hj) as (n & fn & nb & Hjob & Hrun); [unfold busy; by destruct (w_pc w)|].
    exists n, fn. split; [done|]. split; [by apply Hrun|]. split; [by apply Hrun|].
    pose proof (r_cur _ _ _ _ _ _ _ _ _ Hrun). pose proof (r_n _ _ _ _ _ _ _ _ _ Hrun). pose proof (cover_range n c).
    pose proof (total_le (over (generation_ p) n) ws 1 (fun w => proj2 (over_range _ _ w))). destruct Hr as (_ & Hws & _). cbn in Hws. lia.
  - intros Hs Hpc. destruct Hr as (_ & _ & _ & _ & Hph). unfold phase in Hph. cbn in Hph.
    destruct Hpc as [E|E]; rewrite E in Hph; [destruct Hph as (_ & [_ H] & _)|destruct Hph as (_ & _ & _ & [_ H])]; by apply H.
Qed.

(** ** Every index once *)

Lemma concat_perm (ls ls' : list (list A)) : length ls = length ls' -> (forall i l l', ls !! i = Some l -> ls' !! i = Some l' -> l ≡ₚ l') -> concat ls ≡ₚ concat ls'.
Proof.
  revert ls'. induction ls as [|l ls IH]; intros [|l' ls'] Hlen H; try done. cbn. rewrite (H 0%nat l l') by done.
  rewrite (IH ls'); [done|by injection Hlen|intros i; apply (H (S i))].
Qed.

Lemma traces_perm (p : prog A) t : traces p t -> t ≡ₚ acts p.
Proof.
  revert t. induction p as [|a k IH|n fn IHf k IHk]; intros t Ht; inversion Ht as [|a' k' t' Hk|n' fn' k' ls t1 t2 Hlen Hls Hsh Hk]; subst; cbn [acts].
  - done.
  - by rewrite (IH t').
  - rewrite (IHk t2 Hk), (shuffle_perm _ _ Hsh). apply Permutation_app_tail, concat_perm; [by rewrite length_map, length_seqZ|].
    intros i l l' Hl Hl'. change (((fun i => acts (fn i)) <$> seqZ 0 n) !! i = Some l') in Hl'. rewrite list_lookup_fmap in Hl'.
    apply fmap_Some in Hl' as (z & [-> _]%lookup_seqZ & ->). rewrite Z.add_0_l. by apply IHf, Hls.
Qed.

Definition command_acts (c : command A) : list A := match c with Call p => acts p | Shutdown => [] end.

(** C28: a pool does what the sequential loops do, once each: when the
    application has ended, the actions done, in some order, are exactly those
    of running every [parallel_for] as "for (i = 0; i < n; ++i) fn(i);". *)
Theorem parallel_for_each_once s : rtc step (start hw cmds) s -> c_pc (s_caller s) = CHalt -> s_log s ≡ₚ concat (map command_acts cmds).
Proof.
  intros HI%pool_reach_ok Hh. pose proof (halt_behaviour s HI Hh) as Hb. clear HI Hh. generalize dependent (s_log s). intros l Hb. clear Hfit.
  induction Hb as [|p r t1 t2 Hp _ IH|r t _ IH]; cbn; [done|by rewrite IH, (traces_perm p t1 Hp)|done].
Qed.
End Machine.
End Props.

(** ** At concrete programs *)

(** Three cores: a nested loop, and one call after [shutdown]. *)
Definition example : list (command Z) :=
  [Call (Par 3 (fun i => Do i (Par 2 (fun j => Do (10 * i + j) Stop) Stop)) (Do 99 Stop)); Shutdown; Call (Par 2 (fun i => Do i Stop) Stop)].

Lemma example_fits : Forall (command_fits (num_workers 3)) example.
Proof. repeat constructor; done. Qed.

Lemma parallel_for_inevitable_witness :
  inevitable (fun s => c_pc (s_caller s) = CHalt /\ behaviours example (s_log s)) (start 3 example).
Proof. apply (parallel_for_inevitable 3 example); [by split|apply example_fits]. Defined.

(** A run with the threads in turn, those that are blocked left out. *)
Definition move_of (s : state Z) (t : nat) : option (state Z) :=
  match t with
  | O => match cstep (s_pool s) (s_ws s) (s_caller s) with
         | Some (p, ws, c, a, e) => Some (mkState p ws c (emit a (s_log s)) (s_fault s || e))
         | None => None
         end
  | S j => match s_ws s !! j with
           | Some w => match wstep (s_pool s) (s_caller s) w with
                       | Some (p, w', c, a, e) => Some (mkState p (<[j := w']> (s_ws s)) c (emit a (s_log s)) (s_fault s || e))
                       | None => None
                       end
           | None => None
           end
  end.
Fixpoint go (turns : list nat) (s : state Z) : state Z :=
  match turns with [] => s | t :: r => go r (default s (move_of s t)) end.

Lemma go_runs turns s : rtc step s (go turns s).
Proof.
  revert s. induction turns as [|t r IH]; intros s; [done|]. cbn [go]. destruct (move_of s t) as [s'|] eqn:E; [|apply IH].
  apply (rtc_l _ _ s'); [|apply IH]. unfold move_of in E. destruct t as [|j].
  - destruct (cstep _ _ _) as [[[[[p ws] c] a] e]|] eqn:Ec; [|done]. injection E as <-. by apply step_caller.
  - destruct (s_ws s !! j) as [w|] eqn:Hj; [|done]. destruct (wstep _ _ w) as [[[[[p w'] c] a] e]|] eqn:Ew; [|done].
    injection E as <-. by eapply step_worker.
Qed.

Definition in_turn (n : nat) : list nat := concat (replicate n [0; 1; 2; 2; 1]%nat).

Lemma thread_pool_safe_witness :
  let s := go (in_turn 12) (start 3 example) in
  (exists j w, s_ws s !! j = Some w /\ busy w) /\ ~ race s /\ s_fault s = false.
Proof.
  intros s. split; [exists 0%nat; eexists; split; [vm_compute; reflexivity|exact I]|].
  destruct (thread_pool_safe 3 example ltac:(by split) example_fits s (go_runs _ _)) as (H1 & H2 & _). by split.
Defined.

Lemma parallel_for_each_once_witness :
  let s := go (in_turn 100) (start 3 example) in
  c_pc (s_caller s) = CHalt /\ s_log s ≡ₚ [0; 0; 1; 1; 10; 11; 2; 20; 21; 99; 0; 1].
Proof.
  intros s. assert (Hh : c_pc (s_caller s) = CHalt) by (vm_compute; reflexivity). split; [done|].
  exact (parallel_for_each_once 3 example ltac:(by split) example_fits s (go_runs _ _) Hh).
Defined.
