(* ===== verification/Float32.v ===== *)
(** * Binary32 arithmetic on bit patterns

    The scalars of a trace are the bit patterns of the source's [float]s. What
    the source computes with them (a reciprocal, comparisons, a sign change) is
    IEEE 754 arithmetic, rounded to nearest even: the arithmetic of the
    specification floats of the Standard Library at precision 24. A not-a-number
    has one pattern here, the default one: its payload is not modelled. *)
From Stdlib Require Import Floats.SpecFloat.
From S2P Require Import Prelude.

Definition F32_PREC : Z := 24.
Definition F32_EMAX : Z := 128.

Definition f32_sign (b : Z) : bool := Z.testbit b 31.
Definition f32_exponent (b : Z) : Z := Z.land (Z.shiftr b 23) 0xFF.
Definition f32_mantissa (b : Z) : Z := Z.land b 0x7FFFFF.

Definition f32_decode (b : Z) : spec_float :=
  let s := f32_sign b in
  let e := f32_exponent b in
  let m := f32_mantissa b in
  if e =? 0xFF then (if m =? 0 then S754_infinity s else S754_nan)
  else if e =? 0 then match m with Zpos p => S754_finite s p (-149) | _ => S754_zero s end
  else match m + 0x800000 with Zpos p => S754_finite s p (e - 150) | _ => S754_zero s end.

Definition f32_pack (s : bool) (e m : Z) : Z :=
  Z.lor (if s then 0x80000000 else 0) (Z.lor (Z.shiftl e 23) m).

Definition f32_encode (x : spec_float) : Z :=
  match x with
  | S754_nan => 0x7FC00000
  | S754_infinity s => f32_pack s 0xFF 0
  | S754_zero s => f32_pack s 0 0
  | S754_finite s p e =>
      if Zpos p <? 0x800000 then f32_pack s 0 (Zpos p) else f32_pack s (e + 150) (Zpos p - 0x800000)
  end.

Definition f32_bin (op : Z -> Z -> spec_float -> spec_float -> spec_float) (a b : Z) : Z :=
  f32_encode (op F32_PREC F32_EMAX (f32_decode a) (f32_decode b)).

Definition f32_add : Z -> Z -> Z := f32_bin SFadd.
Definition f32_sub : Z -> Z -> Z := f32_bin SFsub.
Definition f32_mul : Z -> Z -> Z := f32_bin SFmul.
Definition f32_div : Z -> Z -> Z := f32_bin SFdiv.

Definition f32_eqb (a b : Z) : bool := SFeqb (f32_decode a) (f32_decode b).
Definition f32_ltb (a b : Z) : bool := SFltb (f32_decode a) (f32_decode b).
Definition f32_fabs (a : Z) : Z := Z.land a 0x7FFFFFFF.
Definition f32_neg (a : Z) : Z := Z.lxor a 0x80000000.

(** [fmax] and [fmin]: the other operand when one is not a number. *)
Definition f32_isnan (a : Z) : bool := match f32_decode a with S754_nan => true | _ => false end.
Definition f32_max (a b : Z) : Z :=
  if f32_isnan a then b else if f32_isnan b then a else if f32_ltb a b then b else a.
Definition f32_min (a b : Z) : Z :=
  if f32_isnan a then b else if f32_isnan b then a else if f32_ltb b a then b else a.

Definition f32_finite (b : Z) : bool :=
  match f32_decode b with S754_nan | S754_infinity _ => false | _ => true end.

Example f32_decode_encode_one : f32_encode (f32_decode 0x3F800000) = 0x3F800000.
Proof. reflexivity. Qed.
Example f32_ninth : f32_div 0x3F800000 0x41100000 = 0x3DE38E39.
Proof. reflexivity. Qed.
Example f32_three_gelu : f32_mul 0x40400000 0x3D372713 = 0x3E095D4E.
Proof. reflexivity. Qed.
Example f32_subnormal : f32_div 0x00000001 0x3F800000 = 0x00000001.
Proof. reflexivity. Qed.
Example f32_overflow : f32_div 0x7F000000 0x00800000 = 0x7F800000.
Proof. reflexivity. Qed.
