(* ===== verification/Autodiff.v ===== *)
(** * Differentiation and lowering of traces

    src/jit/trace_autodiff.cpp over the graphs of TraceDag.v: the lowering
    [canonicalize_trace_dag_for_codegen] of the operations no emitter has a form
    for, and [TraceDAG::backward], which appends to a copy of the graph the
    nodes of its reverse-mode derivative and prunes what they do not need. A
    function that appends nodes is a computation over the graph it appends to;
    [std::vector::operator[]] out of range is undefined, [at] throws. *)
From S2P Require Import Prelude Dtype Device Heap Tensor TraceDag Float32.

Definition kSafeEps : Z := 0x2B8CBCCC.
Definition kGeluK0 : Z := 0x3F4C422A.
Definition kGeluK1 : Z := 0x3D372713.

Record ShapeMeta : Type := mkMeta { m_dev : Device; m_dt : Dtype; m_rows : Z; m_cols : Z }.

(** The loop over the nodes: it stops at the first FP32 node. *)
Fixpoint meta_scan (m : ShapeMeta) (ns : list TraceNode) : ShapeMeta :=
  match ns with
  | [] => m
  | n :: ns =>
      let m := mkMeta (n_device n) (n_dtype n) (m_rows m) (m_cols m) in
      if dtype_eqb (n_dtype n) FP32 then m else meta_scan m ns
  end.

Definition dominant_meta (d : TraceDAG) : ShapeMeta :=
  let '(r, c) := dominant_shape d in
  meta_scan (mkMeta Dev.CPU0 FP32 (if r >? 0 then r else 1) (if c >? 0 then c else 1)) (nodes_ d).

Definition out_of_range : str := lit "std::out_of_range".

(** [map.at(i)] *)
Definition map_at {S} (mp : gmap Z Z) (i : Z) : st S Z :=
  match mp !! i with Some v => mret v | None => st_throw out_of_range end.
Fixpoint map_all {S} (mp : gmap Z Z) (ids : list Z) : st S (list Z) :=
  match ids with
  | [] => mret []
  | i :: ids => v ← map_at mp i; vs ← map_all mp ids; mret (v :: vs)
  end.
(** [v[k]] of a [std::vector<int>] *)
Definition elem {S} (v : list Z) (k : nat) : st S Z :=
  match v !! k with Some x => mret x | None => st_undef end.
(** [dag.node(id)] *)
Definition node {S} (d : TraceDAG) (id : Z) : st S TraceNode :=
  match node_at (nodes_ d) id with Some n => mret n | None => st_throw out_of_range end.

(** [dag.add_node(op, ins, s, nullptr, m.dev, m.dt, m.rows, m.cols, s2)] *)
Definition emit2 (m : ShapeMeta) (op : TraceOpKind) (ins : list Z) (s s2 : Z) : st TraceDAG Z :=
  add_node op ins s nullptr (m_dev m) (m_dt m) (m_rows m) (m_cols m) s2.
Definition emit (m : ShapeMeta) (op : TraceOpKind) (ins : list Z) (s : Z) : st TraceDAG Z :=
  emit2 m op ins s 0.

Definition emit_const (anchor val : Z) (m : ShapeMeta) : st TraceDAG Z :=
  zero ← emit m TraceOpKind.MulScalar [anchor] 0;
  if f32_eqb val 0 then mret zero else emit m TraceOpKind.AddScalar [zero] val.

Definition emit_neg (x : Z) (m : ShapeMeta) : st TraceDAG Z := emit m TraceOpKind.ScalarSub [x] 0.

Definition emit_abs (x : Z) (m : ShapeMeta) : st TraceDAG Z :=
  pos ← emit m TraceOpKind.ReLU [x] 0;
  neg ← emit_neg x m;
  neg_part ← emit m TraceOpKind.ReLU [neg] 0;
  emit m TraceOpKind.Add [pos; neg_part] 0.

Definition emit_pos_denom (nonneg_x eps : Z) (m : ShapeMeta) : st TraceDAG Z :=
  rx ← emit m TraceOpKind.ReLU [nonneg_x] 0;
  emit m TraceOpKind.AddScalar [rx] eps.

(** The denominator is one [emit_pos_denom] made. *)
Definition guarded (d : TraceDAG) (dn : TraceNode) : st TraceDAG bool :=
  if TraceOpKind.eqb (n_op dn) TraceOpKind.AddScalar && f32_ltb 0 (n_scalar dn) then
    match n_inputs dn with
    | [] => mret false
    | i :: _ => r ← node d i; mret (TraceOpKind.eqb (n_op r) TraceOpKind.ReLU)
    end
  else mret false.

Definition emit_safe_div_signed (anchor num den : Z) (m : ShapeMeta) : st TraceDAG Z :=
  d ← st_get;
  dn ← node d den;
  '(safe : bool) ← guarded d dn;
  if safe then emit m TraceOpKind.Div [num; den] 0
  else
    pos_d ← emit m TraceOpKind.ReLU [den] 0;
    neg ← emit_neg den m;
    neg_d ← emit m TraceOpKind.ReLU [neg] 0;
    abs_d ← emit m TraceOpKind.Add [pos_d; neg_d] 0;
    safe_den ← emit_pos_denom abs_d kSafeEps m;
    c_zero ← emit_const anchor 0 m;
    c_pos1 ← emit_const anchor 0x3F800000 m;
    c_neg1 ← emit_const anchor 0xBF800000 m;
    neg_branch ← emit m TraceOpKind.Where [neg_d; c_neg1; c_zero] 0;
    sign_d ← emit m TraceOpKind.Where [pos_d; c_pos1; neg_branch] 0;
    signed_num ← emit m TraceOpKind.Mul [num; sign_d] 0;
    emit m TraceOpKind.Div [signed_num; safe_den] 0.

(** [for (int i = 0; i < k; ++i) x = f(x);] *)
Fixpoint iterate {S} (k : nat) (f : Z -> st S Z) (x : Z) : st S Z :=
  match k with
  | O => mret x
  | S k => x ← f x; iterate k f x
  end.

Definition emit_lowered_exp (x : Z) (m : ShapeMeta) : st TraceDAG Z :=
  xc ← emit2 m TraceOpKind.Clamp [x] 0xC2B00000 0x42B00000;
  u ← emit m TraceOpKind.MulScalar [xc] 0x3D000000;
  t ← emit m TraceOpKind.Tanh [u] 0;
  num ← emit m TraceOpKind.AddScalar [t] 0x3F800000;
  one_m_t ← emit m TraceOpKind.ScalarSub [t] 0x3F800000;
  den ← emit_pos_denom one_m_t kSafeEps m;
  e ← emit m TraceOpKind.Div [num; den] 0;
  iterate 4 (fun e => emit m TraceOpKind.Mul [e; e] 0) e.

(** One Newton-Raphson step. *)
Definition newton_step (xs : Z) (m : ShapeMeta) (y : Z) : st TraceDAG Z :=
  den ← emit_pos_denom y kSafeEps m;
  q ← emit m TraceOpKind.Div [xs; den] 0;
  sum ← emit m TraceOpKind.Add [y; q] 0;
  emit m TraceOpKind.MulScalar [sum] 0x3F000000.

Definition emit_lowered_sqrt (anchor x : Z) (m : ShapeMeta) : st TraceDAG Z :=
  rx ← emit m TraceOpKind.ReLU [x] 0;
  xs ← emit_pos_denom rx kSafeEps m;
  over16 ← emit m TraceOpKind.SubScalar [xs] 0x41800000;
  gt16 ← emit m TraceOpKind.ReLU [over16] 0;
  eighth ← emit m TraceOpKind.MulScalar [xs] 0x3E000000;
  guess_hi ← emit m TraceOpKind.AddScalar [eighth] 0x40000000;
  half ← emit m TraceOpKind.MulScalar [xs] 0x3F000000;
  guess_lo ← emit m TraceOpKind.AddScalar [half] 0x3F000000;
  y ← emit m TraceOpKind.Where [gt16; guess_hi; guess_lo] 0;
  y ← iterate 7 (newton_step xs m) y;
  zero ← emit_const anchor 0 m;
  emit m TraceOpKind.Where [rx; y; zero] 0.

Definition emit_lowered_rsqrt (anchor x : Z) (m : ShapeMeta) : st TraceDAG Z :=
  rx ← emit m TraceOpKind.ReLU [x] 0;
  p ← emit_pos_denom rx kSafeEps m;
  s ← emit_lowered_sqrt anchor p m;
  one ← emit_const anchor 0x3F800000 m;
  den ← emit_pos_denom s kSafeEps m;
  emit m TraceOpKind.Div [one; den] 0.

(** One step [p = p * u2 + c] of the series. *)
Definition horner (u2 : Z) (m : ShapeMeta) (p c : Z) : st TraceDAG Z :=
  pu ← emit m TraceOpKind.Mul [p; u2] 0;
  emit m TraceOpKind.AddScalar [pu] c.

Definition emit_lowered_log (anchor x : Z) (m : ShapeMeta) : st TraceDAG Z :=
  rx ← emit m TraceOpKind.ReLU [x] 0;
  p0 ← emit_pos_denom rx kSafeEps m;
  r1 ← emit_lowered_sqrt anchor p0 m;
  r2 ← emit_lowered_sqrt anchor r1 m;
  r3 ← emit_lowered_sqrt anchor r2 m;
  r_m1 ← emit m TraceOpKind.SubScalar [r3] 0x3F800000;
  r_p1 ← emit_pos_denom r3 0x3F800000 m;
  u ← emit m TraceOpKind.Div [r_m1; r_p1] 0;
  u2 ← emit m TraceOpKind.Mul [u; u] 0;
  p9 ← emit m TraceOpKind.MulScalar [u2] 0x3DE38E39;
  p ← emit m TraceOpKind.AddScalar [p9] 0x3E124925;
  p ← horner u2 m p 0x3E4CCCCD;
  p ← horner u2 m p 0x3EAAAAAB;
  p ← horner u2 m p 0x3F800000;
  up ← emit m TraceOpKind.Mul [u; p] 0;
  emit m TraceOpKind.MulScalar [up] 0x41800000.

(** The scalar of a [DivScalar], kept away from zero, and its reciprocal. *)
Definition safe_scalar (s : Z) : Z :=
  if f32_ltb (f32_fabs s) kSafeEps then (if f32_ltb s 0 then f32_neg kSafeEps else kSafeEps) else s.
Definition safe_recip (s : Z) : Z := f32_div 0x3F800000 (safe_scalar s).

(** ** Lowering *)

Definition needs_lowering (op : TraceOpKind) : bool :=
  match op with
  | TraceOpKind.Const | TraceOpKind.Neg | TraceOpKind.Abs | TraceOpKind.Exp | TraceOpKind.Log
  | TraceOpKind.Sqrt | TraceOpKind.Rsqrt | TraceOpKind.Div | TraceOpKind.DivScalar
  | TraceOpKind.ScalarDiv | TraceOpKind.FMA | TraceOpKind.Modulate | TraceOpKind.GELU => true
  | _ => false
  end.

Definition node_meta (n : TraceNode) : ShapeMeta := mkMeta (n_device n) (n_dtype n) (n_rows n) (n_cols n).

Definition lower_gelu (x : Z) (m : ShapeMeta) : st TraceDAG Z :=
  x2 ← emit m TraceOpKind.Mul [x; x] 0;
  x3 ← emit m TraceOpKind.Mul [x2; x] 0;
  kx3 ← emit m TraceOpKind.MulScalar [x3] kGeluK1;
  inner ← emit m TraceOpKind.Add [x; kx3] 0;
  u ← emit m TraceOpKind.MulScalar [inner] kGeluK0;
  t ← emit m TraceOpKind.Tanh [u] 0;
  one_p_t ← emit m TraceOpKind.AddScalar [t] 0x3F800000;
  half_x ← emit m TraceOpKind.MulScalar [x] 0x3F000000;
  emit m TraceOpKind.Mul [half_x; one_p_t] 0.

Definition lower_default (n : TraceNode) (ins : list Z) (remap : gmap Z Z) : st TraceDAG Z :=
  if n_inplace n then
    target ← map_at remap (n_target n);
    arg ← (if (1 <? length (n_inputs n))%nat then elem ins 1 else mret (-1));
    add_inplace_node (n_op n) target arg (n_buffer n) (n_scalar n) (n_scalar2 n)
  else emit2 (node_meta n) (n_op n) ins (n_scalar n) (n_scalar2 n).

(** The [switch] of the lowering, on operands already renamed. *)
Definition lower_op (anchor : Z) (n : TraceNode) (ins : list Z) (remap : gmap Z Z) : st TraceDAG Z :=
  let m := node_meta n in
  let anchor_or i := if anchor >=? 0 then anchor else i in
  match n_op n with
  | TraceOpKind.Input =>
      add_node TraceOpKind.Input [] 0 (n_buffer n) (n_device n) (n_dtype n) (n_rows n) (n_cols n) 0
  | TraceOpKind.Const => emit_const (anchor_or 0) (n_scalar n) m
  | TraceOpKind.Neg => x ← elem ins 0; emit_neg x m
  | TraceOpKind.Abs => x ← elem ins 0; emit_abs x m
  | TraceOpKind.Exp => x ← elem ins 0; emit_lowered_exp x m
  | TraceOpKind.Sqrt => x ← elem ins 0; emit_lowered_sqrt (anchor_or x) x m
  | TraceOpKind.Rsqrt => x ← elem ins 0; emit_lowered_rsqrt (anchor_or x) x m
  | TraceOpKind.Log => x ← elem ins 0; emit_lowered_log (anchor_or x) x m
  | TraceOpKind.Div => x ← elem ins 0; y ← elem ins 1; emit_safe_div_signed (anchor_or x) x y m
  | TraceOpKind.DivScalar => x ← elem ins 0; emit m TraceOpKind.MulScalar [x] (safe_recip (n_scalar n))
  | TraceOpKind.ScalarDiv =>
      x ← elem ins 0;
      s_node ← emit_const (anchor_or x) (n_scalar n) m;
      emit_safe_div_signed (anchor_or x) s_node x m
  | TraceOpKind.FMA =>
      a ← elem ins 0; b ← elem ins 1;
      ab ← emit m TraceOpKind.Mul [a; b] 0;
      c ← elem ins 2;
      emit m TraceOpKind.Add [ab; c] 0
  | TraceOpKind.Modulate =>
      scale ← elem ins 1;
      sp1 ← emit m TraceOpKind.AddScalar [scale] 0x3F800000;
      x ← elem ins 0;
      x_sp1 ← emit m TraceOpKind.Mul [x; sp1] 0;
      shift ← elem ins 2;
      emit m TraceOpKind.Add [x_sp1; shift] 0
  | TraceOpKind.GELU => x ← elem ins 0; lower_gelu x m
  | _ => lower_default n ins remap
  end.

(** [created.buffer = n.buffer; created.is_live_at_end = n.is_live_at_end;] *)
Definition dress (new_id : Z) (n : TraceNode) : st TraceDAG unit :=
  st_mod (fun d => mkDAG (alter (fun c => set_live (n_live n) (set_buffer (n_buffer n) c)) (Z.to_nat new_id) (nodes_ d))
                         (input_ptr_to_slot_ d)).

Fixpoint lower_nodes (ns : list TraceNode) (remap : gmap Z Z) (anchor : Z) : st TraceDAG (gmap Z Z) :=
  match ns with
  | [] => mret remap
  | n :: ns =>
      ins ← map_all remap (n_inputs n);
      new_id ← lower_op anchor n ins remap;
      let anchor := if TraceOpKind.eqb (n_op n) TraceOpKind.Input && (anchor <? 0) then new_id else anchor in
      _ ← dress new_id n;
      lower_nodes ns (<[n_id n := new_id]> remap) anchor
  end.

(** The outputs of every node, computed again. *)
Definition relink (d : TraceDAG) : TraceDAG :=
  let cleared := map (set_outputs []) (nodes_ d) in
  mkDAG (foldl push_uses cleared cleared) (input_ptr_to_slot_ d).

Definition canonicalize_trace_dag_for_codegen (d : TraceDAG) : res TraceDAG :=
  if existsb (fun n => needs_lowering (n_op n)) (nodes_ d) then
    match lower_nodes (nodes_ d) ∅ (-1) empty_dag with
    | (Ret _, out) => Ret (relink out)
    | (Throw e, _) => Throw e
    | (Undef, _) => Undef
    end
  else Ret d.

(** ** Reverse-mode differentiation *)

(** Step 1: the primal inputs, and where they are. *)
Fixpoint copy_inputs (ns : list TraceNode) (f2b : gmap Z Z) : st TraceDAG (gmap Z Z * list Z) :=
  match ns with
  | [] => mret (f2b, [])
  | n :: ns =>
      if TraceOpKind.eqb (n_op n) TraceOpKind.Input then
        bid ← add_node TraceOpKind.Input [] 0 (n_buffer n) (n_device n) FP32 (n_rows n) (n_cols n) 0;
        '(f2b, ids) ← copy_inputs ns (<[n_id n := bid]> f2b);
        mret (f2b, n_id n :: ids)
      else copy_inputs ns f2b
  end.

(** Step 3: the forward nodes, replayed. *)
Fixpoint replay (ns : list TraceNode) (f2b : gmap Z Z) : st TraceDAG (gmap Z Z) :=
  match ns with
  | [] => mret f2b
  | n :: ns =>
      if TraceOpKind.eqb (n_op n) TraceOpKind.Input then replay ns f2b
      else
        ins ← map_all f2b (n_inputs n);
        bid ← add_node (n_op n) ins (n_scalar n) nullptr (n_device n) FP32 (n_rows n) (n_cols n) (n_scalar2 n);
        replay ns (<[n_id n := bid]> f2b)
  end.

(** Step 4: the adjoints of the outputs. *)
Definition seed_adjoints (ns : list TraceNode) (grad_out : Z) : gmap Z Z :=
  let live := filter (fun n => n_live n = true) ns in
  match live, last ns with
  | [], Some n => {[ n_id n := grad_out ]}
  | _, _ => foldl (fun adj n => <[n_id n := grad_out]> adj) ∅ live
  end.

Section Sweep.
(** The metadata of [add_op], the slots of the forward nodes, the anchor. *)
Context (m : ShapeMeta) (f2b : gmap Z Z) (anchor : Z).

Definition m32 : ShapeMeta := mkMeta (m_dev m) FP32 (m_rows m) (m_cols m).
Definition add_op (op : TraceOpKind) (ins : list Z) (s : Z) : st TraceDAG Z := emit m32 op ins s.

Definition accum_grad (adj : gmap Z Z) (fwd_id contrib : Z) : st TraceDAG (gmap Z Z) :=
  match adj !! fwd_id with
  | None => mret (<[fwd_id := contrib]> adj)
  | Some g => s ← add_op TraceOpKind.Add [g; contrib] 0; mret (<[fwd_id := s]> adj)
  end.

(** [n.inputs[k]], and its slot in the backward graph. *)
Definition in_id (n : TraceNode) (k : nat) : st TraceDAG Z := elem (n_inputs n) k.
Definition in_slot (n : TraceNode) (k : nat) : st TraceDAG Z := i ← in_id n k; map_at f2b i.

Definition zero_const : st TraceDAG Z := emit_const anchor 0 m.

Definition accum_in (adj : gmap Z Z) (n : TraceNode) (k : nat) (contrib : Z) : st TraceDAG (gmap Z Z) :=
  i ← in_id n k; accum_grad adj i contrib.

Definition unsupported (n : TraceNode) : str := lit "TraceDAG::backward: unsupported op " ++ op_kind_name (n_op n).

Definition vjp_div (n : TraceNode) (dy : Z) (adj : gmap Z Z) : st TraceDAG (gmap Z Z) :=
  a ← in_slot n 0; b ← in_slot n 1;
  da ← add_op TraceOpKind.Div [dy; b] 0;
  b2 ← add_op TraceOpKind.Mul [b; b] 0;
  b2_safe ← emit_pos_denom b2 kSafeEps m;
  dy_a ← add_op TraceOpKind.Mul [dy; a] 0;
  ndy_a ← add_op TraceOpKind.ScalarSub [dy_a] 0;
  db ← add_op TraceOpKind.Div [ndy_a; b2_safe] 0;
  adj ← accum_in adj n 0 da;
  accum_in adj n 1 db.

Definition vjp_gelu (n : TraceNode) (dy : Z) (adj : gmap Z Z) : st TraceDAG (gmap Z Z) :=
  a ← in_slot n 0;
  a2 ← add_op TraceOpKind.Mul [a; a] 0;
  a3 ← add_op TraceOpKind.Mul [a2; a] 0;
  k1a3 ← add_op TraceOpKind.MulScalar [a3] kGeluK1;
  inner ← add_op TraceOpKind.Add [a; k1a3] 0;
  u ← add_op TraceOpKind.MulScalar [inner] kGeluK0;
  t ← add_op TraceOpKind.Tanh [u] 0;
  one_p_t ← add_op TraceOpKind.AddScalar [t] 0x3F800000;
  left ← add_op TraceOpKind.MulScalar [one_p_t] 0x3F000000;
  t2 ← add_op TraceOpKind.Mul [t; t] 0;
  sech2 ← add_op TraceOpKind.ScalarSub [t2] 0x3F800000;
  k3a2 ← add_op TraceOpKind.MulScalar [a2] (f32_mul 0x40400000 kGeluK1);
  one_p ← add_op TraceOpKind.AddScalar [k3a2] 0x3F800000;
  du ← add_op TraceOpKind.MulScalar [one_p] kGeluK0;
  half_a ← add_op TraceOpKind.MulScalar [a] 0x3F000000;
  sd ← add_op TraceOpKind.Mul [sech2; du] 0;
  right ← add_op TraceOpKind.Mul [half_a; sd] 0;
  dgelu ← add_op TraceOpKind.Add [left; right] 0;
  c ← add_op TraceOpKind.Mul [dy; dgelu] 0;
  accum_in adj n 0 c.

Definition vjp_silu (n : TraceNode) (dy : Z) (adj : gmap Z Z) : st TraceDAG (gmap Z Z) :=
  a ← in_slot n 0;
  sig ← add_op TraceOpKind.Sigmoid [a] 0;
  one_m_sig ← add_op TraceOpKind.ScalarSub [sig] 0x3F800000;
  a_oms ← add_op TraceOpKind.Mul [a; one_m_sig] 0;
  factor ← add_op TraceOpKind.AddScalar [a_oms] 0x3F800000;
  dsilu ← add_op TraceOpKind.Mul [sig; factor] 0;
  c ← add_op TraceOpKind.Mul [dy; dsilu] 0;
  accum_in adj n 0 c.

Definition vjp_abs (n : TraceNode) (dy : Z) (adj : gmap Z Z) : st TraceDAG (gmap Z Z) :=
  a ← in_slot n 0;
  pos ← add_op TraceOpKind.ReLU [a] 0;
  na ← add_op TraceOpKind.ScalarSub [a] 0;
  neg_part ← add_op TraceOpKind.ReLU [na] 0;
  ndy ← add_op TraceOpKind.ScalarSub [dy] 0;
  zero ← zero_const;
  neg_sel ← add_op TraceOpKind.Where [neg_part; ndy; zero] 0;
  c ← add_op TraceOpKind.Where [pos; dy; neg_sel] 0;
  accum_in adj n 0 c.

Definition vjp_clamp (n : TraceNode) (dy : Z) (adj : gmap Z Z) : st TraceDAG (gmap Z Z) :=
  a ← in_slot n 0;
  over ← add_op TraceOpKind.SubScalar [a] (n_scalar n);
  gt_lo ← add_op TraceOpKind.ReLU [over] 0;
  under ← add_op TraceOpKind.ScalarSub [a] (n_scalar2 n);
  lt_hi ← add_op TraceOpKind.ReLU [under] 0;
  inside ← add_op TraceOpKind.Mul [gt_lo; lt_hi] 0;
  zero ← zero_const;
  c ← add_op TraceOpKind.Where [inside; dy; zero] 0;
  accum_in adj n 0 c.

Definition vjp_log (n : TraceNode) (dy : Z) (adj : gmap Z Z) : st TraceDAG (gmap Z Z) :=
  a ← in_slot n 0;
  ra ← add_op TraceOpKind.ReLU [a] 0;
  as_ ← emit_pos_denom ra kSafeEps m;
  q ← add_op TraceOpKind.Div [dy; as_] 0;
  zero ← zero_const;
  c ← add_op TraceOpKind.Where [ra; q; zero] 0;
  accum_in adj n 0 c.

Definition vjp_sqrt (n : TraceNode) (dy : Z) (adj : gmap Z Z) : st TraceDAG (gmap Z Z) :=
  a ← in_slot n 0;
  ra ← add_op TraceOpKind.ReLU [a] 0;
  as_ ← emit_pos_denom ra kSafeEps m;
  sa ← add_op TraceOpKind.Sqrt [as_] 0;
  sa_safe ← emit_pos_denom sa kSafeEps m;
  dq ← add_op TraceOpKind.Div [dy; sa_safe] 0;
  q ← add_op TraceOpKind.MulScalar [dq] 0x3F000000;
  zero ← zero_const;
  c ← add_op TraceOpKind.Where [ra; q; zero] 0;
  accum_in adj n 0 c.

Definition vjp_rsqrt (n : TraceNode) (dy : Z) (adj : gmap Z Z) : st TraceDAG (gmap Z Z) :=
  a ← in_slot n 0;
  ra ← add_op TraceOpKind.ReLU [a] 0;
  as_ ← emit_pos_denom ra kSafeEps m;
  r ← add_op TraceOpKind.Rsqrt [as_] 0;
  r2 ← add_op TraceOpKind.Mul [r; r] 0;
  r3 ← add_op TraceOpKind.Mul [r2; r] 0;
  dyr3 ← add_op TraceOpKind.Mul [dy; r3] 0;
  dr ← add_op TraceOpKind.MulScalar [dyr3] 0xBF000000;
  zero ← zero_const;
  c ← add_op TraceOpKind.Where [ra; dr; zero] 0;
  accum_in adj n 0 c.

(** The contributions of a product [a * b] to its factors. *)
Definition vjp_mul (n : TraceNode) (dy : Z) (adj : gmap Z Z) : st TraceDAG (gmap Z Z) :=
  a ← in_slot n 0; b ← in_slot n 1;
  ca ← add_op TraceOpKind.Mul [dy; b] 0;
  adj ← accum_in adj n 0 ca;
  cb ← add_op TraceOpKind.Mul [dy; a] 0;
  accum_in adj n 1 cb.

(** Step 5, the [switch]: the contributions of node [n], whose adjoint is in
    slot [dy], to the adjoints of its operands. *)
Definition vjp (n : TraceNode) (dy : Z) (adj : gmap Z Z) : st TraceDAG (gmap Z Z) :=
  match n_op n with
  | TraceOpKind.Input | TraceOpKind.Const => mret adj
  | TraceOpKind.Copy | TraceOpKind.Cast | TraceOpKind.AddScalar | TraceOpKind.SubScalar => accum_in adj n 0 dy
  | TraceOpKind.Add => adj ← accum_in adj n 0 dy; accum_in adj n 1 dy
  | TraceOpKind.Sub =>
      adj ← accum_in adj n 0 dy;
      ndy ← add_op TraceOpKind.ScalarSub [dy] 0;
      accum_in adj n 1 ndy
  | TraceOpKind.ScalarSub | TraceOpKind.Neg =>
      ndy ← add_op TraceOpKind.ScalarSub [dy] 0;
      accum_in adj n 0 ndy
  | TraceOpKind.Mul => vjp_mul n dy adj
  | TraceOpKind.MulScalar => c ← add_op TraceOpKind.MulScalar [dy] (n_scalar n); accum_in adj n 0 c
  | TraceOpKind.DivScalar => c ← add_op TraceOpKind.MulScalar [dy] (safe_recip (n_scalar n)); accum_in adj n 0 c
  | TraceOpKind.Div => vjp_div n dy adj
  | TraceOpKind.ScalarDiv =>
      a ← in_slot n 0;
      a2 ← add_op TraceOpKind.Mul [a; a] 0;
      a2_safe ← emit_pos_denom a2 kSafeEps m;
      num ← add_op TraceOpKind.MulScalar [dy] (f32_neg (n_scalar n));
      c ← add_op TraceOpKind.Div [num; a2_safe] 0;
      accum_in adj n 0 c
  | TraceOpKind.FMA => adj ← vjp_mul n dy adj; accum_in adj n 2 dy
  | TraceOpKind.Modulate =>
      x ← in_slot n 0; scale ← in_slot n 1;
      sp1 ← add_op TraceOpKind.AddScalar [scale] 0x3F800000;
      cx ← add_op TraceOpKind.Mul [dy; sp1] 0;
      adj ← accum_in adj n 0 cx;
      cs ← add_op TraceOpKind.Mul [dy; x] 0;
      adj ← accum_in adj n 1 cs;
      accum_in adj n 2 dy
  | TraceOpKind.ReLU =>
      a ← in_slot n 0;
      ra ← add_op TraceOpKind.ReLU [a] 0;
      zero ← zero_const;
      c ← add_op TraceOpKind.Where [ra; dy; zero] 0;
      accum_in adj n 0 c
  | TraceOpKind.Abs => vjp_abs n dy adj
  | TraceOpKind.Clamp => vjp_clamp n dy adj
  | TraceOpKind.Where =>
      c ← in_slot n 0;
      zero ← zero_const;
      ca ← add_op TraceOpKind.Where [c; dy; zero] 0;
      adj ← accum_in adj n 1 ca;
      cb ← add_op TraceOpKind.Where [c; zero; dy] 0;
      accum_in adj n 2 cb
  | TraceOpKind.Sigmoid =>
      sig ← map_at f2b (n_id n);
      one_m_sig ← add_op TraceOpKind.ScalarSub [sig] 0x3F800000;
      dsig ← add_op TraceOpKind.Mul [sig; one_m_sig] 0;
      c ← add_op TraceOpKind.Mul [dy; dsig] 0;
      accum_in adj n 0 c
  | TraceOpKind.Tanh =>
      th ← map_at f2b (n_id n);
      th2 ← add_op TraceOpKind.Mul [th; th] 0;
      dtanh ← add_op TraceOpKind.ScalarSub [th2] 0x3F800000;
      c ← add_op TraceOpKind.Mul [dy; dtanh] 0;
      accum_in adj n 0 c
  | TraceOpKind.SiLU => vjp_silu n dy adj
  | TraceOpKind.GELU => vjp_gelu n dy adj
  | TraceOpKind.Exp =>
      a ← in_slot n 0;
      ac ← emit2 m32 TraceOpKind.Clamp [a] 0xC2B00000 0x42B00000;
      ea ← add_op TraceOpKind.Exp [ac] 0;
      c ← add_op TraceOpKind.Mul [dy; ea] 0;
      accum_in adj n 0 c
  | TraceOpKind.Log => vjp_log n dy adj
  | TraceOpKind.Sqrt => vjp_sqrt n dy adj
  | TraceOpKind.Rsqrt => vjp_rsqrt n dy adj
  | TraceOpKind.RMSNorm | TraceOpKind.LayerNorm => st_throw (unsupported n)
  end.

(** Step 5, the loop: the nodes from the last to the first. *)
Fixpoint sweep (rev_ns : list TraceNode) (adj : gmap Z Z) : st TraceDAG (gmap Z Z) :=
  match rev_ns with
  | [] => mret adj
  | n :: ns =>
      adj ← (match adj !! n_id n with None => mret adj | Some dy => vjp n dy adj end);
      sweep ns adj
  end.

(** Step 6: the gradients asked for, copied out. *)
Definition emit_output (adj : gmap Z Z) (fwd_in : Z) : st TraceDAG Z :=
  g ← (match adj !! fwd_in with Some g => mret g | None => zero_const end);
  add_op TraceOpKind.Copy [g] 0.

Fixpoint emit_outputs (adj : gmap Z Z) (ids : list Z) : st TraceDAG (list Z) :=
  match ids with
  | [] => mret []
  | i :: ids => s ← emit_output adj i; ss ← emit_outputs adj ids; mret (s :: ss)
  end.
End Sweep.

(** [keep[i]] *)
Definition kept (keep : list bool) (i : Z) : option bool := if i <? 0 then None else keep !! Z.to_nat i.

(** Step 7: the worklist, a stack. *)
Fixpoint mark_kept (fuel : nat) (d : TraceDAG) (stack : list Z) (keep : list bool) : res (list bool) :=
  match stack with
  | [] => Ret keep
  | cur :: stack =>
      match fuel with
      | O => Undef
      | S fuel =>
          if cur <? 0 then mark_kept fuel d stack keep
          else
            match kept keep cur with
            | None => Undef
            | Some true => mark_kept fuel d stack keep
            | Some false =>
                match node_at (nodes_ d) cur with
                | None => Throw out_of_range
                | Some n =>
                    let keep := <[Z.to_nat cur := true]> keep in
                    let push stack i :=
                      match kept keep i with
                      | Some true => Ret stack
                      | Some false => Ret (i :: stack)
                      | None => Undef
                      end in
                    stack ← foldl (fun r i => s ← r; push s i) (Ret stack) (n_inputs n);
                    mark_kept fuel d stack keep
                end
            end
      end
  end.

(** Every node's operands are pushed at most once. *)
Definition mark_fuel (d : TraceDAG) (stack : list Z) : nat :=
  (length stack + sum_list (map (fun n => length (n_inputs n)) (nodes_ d)))%nat.

Fixpoint prune_nodes (ns : list TraceNode) (keep : list bool) (prune_map : gmap Z Z) : st TraceDAG (gmap Z Z) :=
  match ns with
  | [] => mret prune_map
  | n :: ns =>
      match kept keep (n_id n) with
      | None => st_undef
      | Some false => prune_nodes ns keep prune_map
      | Some true =>
          ins ← map_all prune_map (n_inputs n);
          id ← add_node (n_op n) ins (n_scalar n) (n_buffer n) (n_device n) (n_dtype n) (n_rows n) (n_cols n) (n_scalar2 n);
          prune_nodes ns keep (<[n_id n := id]> prune_map)
      end
  end.

Definition mark_live_at (id : Z) (d : TraceDAG) : TraceDAG :=
  mkDAG (alter (set_live true) (Z.to_nat id) (nodes_ d)) (input_ptr_to_slot_ d).

(** The pruned graph, its links and its outputs. *)
Definition prune (d : TraceDAG) (out_slots : list Z) : res TraceDAG :=
  let keep0 := map (fun n => TraceOpKind.eqb (n_op n) TraceOpKind.Input) (nodes_ d) in
  keep ← mark_kept (mark_fuel d out_slots) d (rev out_slots) keep0;
  match prune_nodes (nodes_ d) keep ∅ empty_dag with
  | (Ret prune_map, pruned) =>
      let clean := mkDAG (map (set_live false) (nodes_ pruned)) (input_ptr_to_slot_ pruned) in
      foldl (fun r os => d ← r; match prune_map !! os with
                                | Some id => Ret (mark_live_at id d)
                                | None => Throw out_of_range
                                end) (Ret (relink clean)) out_slots
  | (Throw e, _) => Throw e
  | (Undef, _) => Undef
  end.

Definition empty_graph : str := lit "TraceDAG::backward: cannot differentiate an empty TraceDAG".
Definition no_inputs : str := lit "TraceDAG::backward: forward TraceDAG has no Input nodes".
Definition bad_target : str := lit "TraceDAG::backward: target_input_idx out of range".

(** Steps 1 to 6: the slots of the gradients asked for. *)
Definition backward_nodes (d : TraceDAG) (target : Z) : st TraceDAG (list Z) :=
  let m := dominant_meta d in
  '(f2b, primal) ← copy_inputs (nodes_ d) ∅;
  match primal with
  | [] => st_throw no_inputs
  | first :: _ =>
      if target >=? i32 (zlen primal) then st_throw bad_target
      else
        grad_out ← add_node TraceOpKind.Input [] 0 nullptr (m_dev m) FP32 (m_rows m) (m_cols m) 0;
        anchor ← map_at f2b first;
        f2b ← replay (nodes_ d) f2b;
        adj ← sweep m f2b anchor (rev (nodes_ d)) (seed_adjoints (nodes_ d) grad_out);
        if target >=? 0 then i ← elem primal (Z.to_nat target); s ← emit_output m anchor adj i; mret [s]
        else emit_outputs m anchor adj primal
  end.

Definition backward (d : TraceDAG) (target : Z) : res TraceDAG :=
  match nodes_ d with
  | [] => Throw empty_graph
  | _ =>
      match backward_nodes d target empty_dag with
      | (Ret out_slots, bwd) => prune bwd out_slots
      | (Throw e, _) => Throw e
      | (Undef, _) => Undef
      end
  end.
