(* ===== verification/TraceMeaning.v ===== *)
(** * What a trace computes

    The meaning of a graph in the real numbers, lane by lane: the value of
    every node, given the values of the inputs in their order. It is the
    mathematical function a trace stands for, with no rounding: a cast is the
    identity, and the scalars are the numbers their bit patterns denote. The
    operations are those the eager replay of src/jit/trace_eager.cpp and the
    lane forms of the emitters compute; a row normalisation is not a function of
    one lane, and has no value here. *)
From Stdlib Require Import Reals Lra Floats.SpecFloat.
From S2P Require Import Prelude Dtype Device Heap Tensor TraceDag TraceSpec Float32.

Definition f32_real (b : Z) : R :=
  match f32_decode b with
  | S754_finite s p e => ((if s then -1 else 1) * IZR (Zpos p) * powerRZ 2 e)%R
  | _ => 0%R
  end.

Lemma f32_real_finite b s p e : f32_decode b = S754_finite s p e ->
  f32_real b = ((if s then -1 else 1) * IZR (Zpos p) * powerRZ 2 e)%R.
Proof. intros H. unfold f32_real. by rewrite H. Qed.

(** Evaluate the number a literal pattern denotes. *)
Ltac f32_eval :=
  unfold f32_real;
  match goal with |- context [f32_decode ?b] =>
    let x := eval vm_compute in (f32_decode b) in
    replace (f32_decode b) with x by (vm_compute; reflexivity)
  end;
  cbv beta iota; try change (powerRZ 2 0) with 1%R;
  try (unfold powerRZ; match goal with |- context [pow 2 ?n] => let k := eval vm_compute in n in change n with k end; cbn [pow]);
  try lra; try (field_simplify; lra).

Lemma real_0 : f32_real 0 = 0%R.
Proof. reflexivity. Qed.
Lemma real_one : f32_real 0x3F800000 = 1%R.
Proof. f32_eval. Qed.
Lemma real_m1 : f32_real 0xBF800000 = (-1)%R.
Proof. f32_eval. Qed.
Lemma real_half : f32_real 0x3F000000 = (/ 2)%R.
Proof. f32_eval. Qed.
Lemma real_mhalf : f32_real 0xBF000000 = (- / 2)%R.
Proof. f32_eval. Qed.

Definition relu (x : R) : R := Rmax x 0.
Definition sigmoid (x : R) : R := (/ (1 + exp (- x)))%R.
(** The multiple of the cube that GELU adds, and the slope under the tangent. *)
Definition gelu (k0 k1 x : R) : R := (x * / 2 * (1 + tanh (k0 * (x + k1 * (x * x * x)))))%R.
(** [where(c, a, b)] *)
Definition select (c a b : R) : R := if Req_EM_T c 0 then b else a.

Definition GELU_K0 : R := f32_real 0x3F4C422A.
Definition GELU_K1 : R := f32_real 0x3D372713.

(** The operation [op] with its scalars [s] and [s2], on its operands. *)
Definition rop (op : TraceOpKind) (s s2 : R) (args : list R) : R :=
  let x := nth 0 args 0%R in
  let y := nth 1 args 0%R in
  let z := nth 2 args 0%R in
  match op with
  | TraceOpKind.Add => x + y
  | TraceOpKind.Sub => x - y
  | TraceOpKind.Mul => x * y
  | TraceOpKind.Div => x / y
  | TraceOpKind.AddScalar => x + s
  | TraceOpKind.SubScalar => x - s
  | TraceOpKind.MulScalar => x * s
  | TraceOpKind.DivScalar => x / s
  | TraceOpKind.ScalarSub => s - x
  | TraceOpKind.ScalarDiv => s / x
  | TraceOpKind.FMA => x * y + z
  | TraceOpKind.Modulate => x * (1 + y) + z
  | TraceOpKind.ReLU => relu x
  | TraceOpKind.Clamp => Rmin (Rmax x s) s2
  | TraceOpKind.Where => select x y z
  | TraceOpKind.Sigmoid => sigmoid x
  | TraceOpKind.SiLU => x * sigmoid x
  | TraceOpKind.Tanh => tanh x
  | TraceOpKind.GELU => gelu GELU_K0 GELU_K1 x
  | TraceOpKind.Copy | TraceOpKind.Cast => x
  | TraceOpKind.Const => s
  | TraceOpKind.Neg => - x
  | TraceOpKind.Exp => exp x
  | TraceOpKind.Log => ln x
  | TraceOpKind.Sqrt => sqrt x
  | TraceOpKind.Rsqrt => / sqrt x
  | TraceOpKind.Abs => Rabs x
  | TraceOpKind.Input | TraceOpKind.RMSNorm | TraceOpKind.LayerNorm => 0
  end%R.

Definition is_input (n : TraceNode) : bool := TraceOpKind.eqb (n_op n) TraceOpKind.Input.

Definition val_at (vs : list R) (i : Z) : R := default 0%R (vs !! Z.to_nat i).

Definition node_val (vs : list R) (n : TraceNode) : R :=
  rop (n_op n) (f32_real (n_scalar n)) (f32_real (n_scalar2 n)) (map (val_at vs) (n_inputs n)).

(** The number of inputs, which are numbered in order. *)
Definition inputs_in (ns : list TraceNode) : nat := length (filter (fun n => is_input n = true) ns).

Lemma inputs_in_app ns ms : inputs_in (ns ++ ms) = (inputs_in ns + inputs_in ms)%nat.
Proof. unfold inputs_in. by rewrite filter_app, length_app. Qed.

(** ** Scanning a graph

    A quantity of every node, each from those of the nodes before it. *)
Section Scan.
Context {X : Type} (f : list TraceNode -> list X -> TraceNode -> X).

Fixpoint scan_rev (rev_ns : list TraceNode) : list X :=
  match rev_ns with
  | [] => []
  | n :: ns => let xs := scan_rev ns in xs ++ [f (rev ns) xs n]
  end.
Definition scan (ns : list TraceNode) : list X := scan_rev (rev ns).

Lemma scan_snoc ns n : scan (ns ++ [n]) = scan ns ++ [f ns (scan ns) n].
Proof.
  unfold scan. rewrite rev_app_distr. change (rev [n] ++ rev ns) with (n :: rev ns).
  cbn [scan_rev]. by rewrite rev_involutive.
Qed.

Lemma length_scan ns : length (scan ns) = length ns.
Proof.
  induction ns as [|n ns IH] using rev_ind; [done|].
  rewrite scan_snoc, !length_app, IH. done.
Qed.

Lemma scan_app ns ms : exists xs, scan (ns ++ ms) = scan ns ++ xs.
Proof.
  induction ms as [|n ms [vs IH]] using rev_ind; [exists []; by rewrite !app_nil_r|].
  rewrite app_assoc, scan_snoc, IH, <- app_assoc. by eexists.
Qed.

Lemma scan_lookup ns i n : ns !! i = Some n -> scan ns !! i = Some (f (take i ns) (scan (take i ns)) n).
Proof.
  intros Hi. pose proof (lookup_lt_Some _ _ _ Hi) as Hlt.
  assert (E : scan ns = scan ((take i ns ++ [n]) ++ drop (S i) ns)).
  { rewrite <- app_assoc. change ([n] ++ drop (S i) ns) with (n :: drop (S i) ns). by rewrite (take_drop_middle ns i n Hi). }
  rewrite E. destruct (scan_app (take i ns ++ [n]) (drop (S i) ns)) as [vs ->].
  rewrite scan_snoc, lookup_app_l; [|rewrite length_app, length_scan, length_take; cbn; lia].
  rewrite lookup_app_r by (rewrite length_scan, length_take; lia).
  by rewrite length_scan, length_take, Nat.min_l, Nat.sub_diag by lia.
Qed.

Lemma scan_take ns i j : (j < i)%nat -> scan (take i ns) !! j = scan ns !! j.
Proof.
  intros Hj. destruct (ns !! j) as [n|] eqn:E.
  - assert (E' : take i ns !! j = Some n) by (by rewrite lookup_take_lt).
    rewrite (scan_lookup _ _ _ E), (scan_lookup _ _ _ E'), take_take. by rewrite Nat.min_l by lia.
  - rewrite !lookup_ge_None_2; [done|rewrite length_scan|rewrite length_scan, length_take];
      apply lookup_ge_None in E; lia.
Qed.
End Scan.

(** The values of the nodes. *)
Definition eval_node (env : nat -> R) (pre : list TraceNode) (vs : list R) (n : TraceNode) : R :=
  if is_input n then env (inputs_in pre) else node_val vs n.
Definition evals (env : nat -> R) : list TraceNode -> list R := scan (eval_node env).

(** The value of node [i] of a graph. *)
Definition value (env : nat -> R) (d : TraceDAG) (i : Z) : R := val_at (evals env (nodes_ d)) i.

Lemma length_evals env ns : length (evals env ns) = length ns.
Proof. apply length_scan. Qed.
Lemma evals_app env ns ms : exists vs, evals env (ns ++ ms) = evals env ns ++ vs.
Proof. apply scan_app. Qed.
Lemma evals_snoc env ns n : evals env (ns ++ [n]) = evals env ns ++ [eval_node env ns (evals env ns) n].
Proof. apply scan_snoc. Qed.
(** A node's value is that of its operation on the values before it. *)
Lemma evals_lookup env ns i n : ns !! i = Some n ->
  evals env ns !! i = Some (eval_node env (take i ns) (evals env (take i ns)) n).
Proof. apply scan_lookup. Qed.

(** Node [i] of the graph has the value [v]. *)
Definition has (env : nat -> R) (d : TraceDAG) (i : Z) (v : R) : Prop :=
  0 <= i /\ evals env (nodes_ d) !! Z.to_nat i = Some v.

(** The graph grew. *)
Definition ext (d d' : TraceDAG) : Prop := exists ms, nodes_ d' = nodes_ d ++ ms.

Lemma ext_refl d : ext d d.
Proof. exists []. by rewrite app_nil_r. Qed.
Lemma ext_trans d d' d'' : ext d d' -> ext d' d'' -> ext d d''.
Proof. intros [ms H] [ms' H']. exists (ms ++ ms'). by rewrite H', H, app_assoc. Qed.

Lemma has_ext env d d' i v : has env d i v -> ext d d' -> has env d' i v.
Proof.
  intros [H0 H] [ms E]. split; [done|]. rewrite E.
  destruct (evals_app env (nodes_ d) ms) as [vs ->]. by apply lookup_app_l_Some.
Qed.

Lemma has_value env d i v : has env d i v -> value env d i = v.
Proof. intros [_ H]. unfold value, val_at. by rewrite H. Qed.

Lemma has_range env d i v : has env d i v -> 0 <= i < zlen (nodes_ d).
Proof.
  intros [H0 H]. apply lookup_lt_Some in H. rewrite length_evals in H. unfold zlen. lia.
Qed.

Lemma has_fun env d i v w : has env d i v -> has env d i w -> v = w.
Proof. intros [_ H] [_ H']. congruence. Qed.

Lemma in_range_has env d i : 0 <= i < zlen (nodes_ d) -> has env d i (value env d i).
Proof.
  intros H. split; [lia|]. unfold value, val_at.
  destruct (lookup_lt_is_Some_2 (evals env (nodes_ d)) (Z.to_nat i)) as [v ->];
    [rewrite length_evals; unfold zlen in H; lia|done].
Qed.

Lemma has_snoc env d d' n : nodes_ d' = nodes_ d ++ [n] ->
  has env d' (zlen (nodes_ d)) (eval_node env (nodes_ d) (evals env (nodes_ d)) n).
Proof.
  intros E. split; [unfold zlen; lia|]. rewrite E, evals_snoc. unfold zlen. rewrite Nat2Z.id.
  rewrite lookup_app_r by (by rewrite length_evals). by rewrite length_evals, Nat.sub_diag.
Qed.

Lemma has_args env d ins vs : Forall2 (has env d) ins vs -> map (val_at (evals env (nodes_ d))) ins = vs.
Proof. induction 1 as [|i v ins vs H _ IH]; [done|]. cbn. rewrite IH. f_equal. by apply has_value. Qed.

Lemma prefix_value env ns i j : 0 <= j < Z.of_nat i -> val_at (evals env (take i ns)) j = val_at (evals env ns) j.
Proof. intros Hj. unfold val_at, evals. by rewrite scan_take by lia. Qed.

(** The value of a node of a well-formed graph, from the values of its operands. *)
Lemma value_eq env d i n : wf_nodes (nodes_ d) -> nodes_ d !! i = Some n ->
  value env d (Z.of_nat i) = if is_input n then env (inputs_in (take i (nodes_ d)))
    else rop (n_op n) (f32_real (n_scalar n)) (f32_real (n_scalar2 n)) (map (value env d) (n_inputs n)).
Proof.
  intros W Hi. unfold value at 1, val_at. rewrite Nat2Z.id, (evals_lookup _ _ _ _ Hi). cbn [default from_option].
  unfold Datatypes.id, eval_node, node_val. destruct (is_input n); [done|]. f_equal. apply map_ext_in. intros j Hj.
  apply prefix_value. destruct (W _ _ Hi) as [_ Hin]. rewrite Forall_forall in Hin. apply Hin. by apply list_elem_of_In.
Qed.
