(* ===== verification/AutodiffEmit.v ===== *)
(** * Reasoning about emitted nodes

    A function of src/jit/trace_autodiff.cpp appends nodes to a graph. [runs k m
    d Phi] says that it does so on the graph [d] and returns: it appends at most
    [k] nodes, keeps the graph well formed, and its result satisfies [Phi]. The
    rules below follow the code step by step, with the facts [has] about the
    values of slots carried along as the graph grows. *)
From Stdlib Require Import Reals Lra.
From S2P Require Import Prelude Dtype Device Heap Tensor TraceDag TraceSpec Float32 Autodiff TraceMeaning.

(** The operands an operation reads. *)
Definition op_arity (op : TraceOpKind) : nat :=
  match op with
  | TraceOpKind.Input | TraceOpKind.Const => 0
  | TraceOpKind.Add | TraceOpKind.Sub | TraceOpKind.Mul | TraceOpKind.Div => 2
  | TraceOpKind.FMA | TraceOpKind.Where | TraceOpKind.Modulate => 3
  | _ => 1
  end.

(** Slot [i] holds the sum of a rectified value and a positive constant. *)
Definition guard (ns : list TraceNode) (i : Z) : Prop :=
  exists n r k ks, node_at ns i = Some n /\ n_op n = TraceOpKind.AddScalar /\ f32_ltb 0 (n_scalar n) = true /\
    n_inputs n = k :: ks /\ node_at ns k = Some r /\ n_op r = TraceOpKind.ReLU.

(** An operation the emitters have a form for, its divisions guarded. *)
Definition lowered (ns : list TraceNode) (op : TraceOpKind) (ins : list Z) : Prop :=
  needs_lowering op = true -> op = TraceOpKind.Div /\ exists j, ins !! 1%nat = Some j /\ guard ns j.

(** Node [n], after the nodes [pre]. *)
Record sound (low : bool) (pre : list TraceNode) (n : TraceNode) : Prop := mkSound {
  so_id : n_id n = zlen pre;
  so_in : Forall (fun s => 0 <= s < zlen pre) (n_inputs n);
  so_arity : (op_arity (n_op n) <= length (n_inputs n))%nat;
  so_leaf : n_op n = TraceOpKind.Input -> n_inputs n = [];
  so_low : low = true -> lowered pre (n_op n) (n_inputs n)
}.

Definition all_sound (low : bool) (ns : list TraceNode) : Prop :=
  forall i n, ns !! i = Some n -> sound low (take i ns) n.
Definition good (low : bool) (d : TraceDAG) : Prop := all_sound low (nodes_ d).

Lemma node_at_app ns ms i n : node_at ns i = Some n -> node_at (ns ++ ms) i = Some n.
Proof. unfold node_at. destruct (i <? 0); [done|]. intros H. by apply lookup_app_l_Some. Qed.

Lemma node_at_last ns n : node_at (ns ++ [n]) (zlen ns) = Some n.
Proof.
  unfold node_at. pose proof (zlen_nonneg ns). destruct (Z.ltb_spec (zlen ns) 0); [lia|].
  unfold zlen. rewrite Nat2Z.id, lookup_app_r, Nat.sub_diag by lia. done.
Qed.

Lemma node_at_ext d d' i n : node_at (nodes_ d) i = Some n -> ext d d' -> node_at (nodes_ d') i = Some n.
Proof. intros H [ms E]. rewrite E. by apply node_at_app. Qed.

Lemma guard_app ns ms i : guard ns i -> guard (ns ++ ms) i.
Proof.
  intros (n & r & k & ks & H1 & H2 & H3 & H4 & H5 & H6).
  exists n, r, k, ks. split_and!; eauto using node_at_app.
Qed.

Definition guards (d : TraceDAG) (i : Z) : Prop := guard (nodes_ d) i.

Lemma guards_ext d d' i : guards d i -> ext d d' -> guards d' i.
Proof. intros H [ms E]. unfold guards. rewrite E. by apply guard_app. Qed.

Lemma all_sound_snoc low ns n : all_sound low ns -> sound low ns n -> all_sound low (ns ++ [n]).
Proof.
  intros H Hn i m [Hi|[Hl Hi]]%lookup_app_Some.
  - pose proof (lookup_lt_Some _ _ _ Hi). rewrite take_app_le by lia. by apply H.
  - apply list_lookup_singleton_Some in Hi as [Hi <-].
    assert (i = length ns) as -> by lia. by rewrite take_app_length.
Qed.

Lemma good_wf low d : good low d -> wf_nodes (nodes_ d).
Proof.
  intros H i n Hi. destruct (H i n Hi) as [Hid Hin _ _ _]. pose proof (lookup_lt_Some _ _ _ Hi).
  assert (E : zlen (take i (nodes_ d)) = Z.of_nat i) by (unfold zlen; rewrite length_take; lia).
  rewrite E in *. done.
Qed.

Lemma good_empty low : good low empty_dag.
Proof. intros i n Hi. cbn in Hi. by rewrite lookup_nil in Hi. Qed.

Section Runs.
Context (low : bool) (env : nat -> R).

Definition runs {A} (k : Z) (m : st TraceDAG A) (d : TraceDAG) (Phi : A -> TraceDAG -> Prop) : Prop :=
  good low d -> zlen (nodes_ d) + k <= INT_MAX ->
  exists a d', m d = (Ret a, d') /\ ext d d' /\ zlen (nodes_ d') <= zlen (nodes_ d) + k /\ good low d' /\ Phi a d'.

Lemma runs_done {A} k (a : A) d (Phi : A -> TraceDAG -> Prop) : 0 <= k -> Phi a d -> runs k (mret a) d Phi.
Proof. intros Hk H Hg Hr. exists a, d. split_and!; [done|apply ext_refl|lia|done..]. Qed.

Lemma runs_seq {A B} k1 k (m : st TraceDAG A) (f : A -> st TraceDAG B) d Phi :
  0 <= k1 <= k -> runs k1 m d (fun a d1 => ext d d1 -> runs (k - k1) (f a) d1 Phi) -> runs k (m ≫= f) d Phi.
Proof.
  intros Hk H Hg Hr. destruct (H Hg ltac:(lia)) as (a & d1 & E1 & X1 & L1 & G1 & P1).
  destruct (P1 X1 G1 ltac:(lia)) as (b & d2 & E2 & X2 & L2 & G2 & P2).
  exists b, d2. unfold mbind, st_bind. rewrite E1. split_and!; eauto using ext_trans. lia.
Qed.

Lemma runs_mono {A} k1 k (m : st TraceDAG A) d (Phi Psi : A -> TraceDAG -> Prop) :
  k1 <= k -> runs k1 m d Phi -> (forall a d', ext d d' -> Phi a d' -> Psi a d') -> runs k m d Psi.
Proof.
  intros Hk H HP Hg Hr. destruct (H Hg ltac:(lia)) as (a & d1 & E1 & X1 & L1 & G1 & P1).
  exists a, d1. split_and!; eauto. lia.
Qed.

Lemma runs_skip {A B} k (m : st TraceDAG A) (f : A -> st TraceDAG B) a d Phi :
  m d = (Ret a, d) -> runs k (f a) d Phi -> runs k (m ≫= f) d Phi.
Proof.
  intros E H Hg Hr. destruct (H Hg Hr) as (b & d2 & E2 & R). exists b, d2.
  unfold mbind, st_bind. by rewrite E.
Qed.

(** Appending one node. *)
Lemma runs_node k n d (m : st TraceDAG Z) (Phi : Z -> TraceDAG -> Prop) :
  m d = (Ret (i32 (zlen (nodes_ d))), push_node n d) -> 1 <= k ->
  (zlen (nodes_ d) + 1 <= INT_MAX -> sound low (nodes_ d) n) ->
  (forall d', nodes_ d' = nodes_ d ++ [n] -> ext d d' -> Phi (zlen (nodes_ d)) d') -> runs k m d Phi.
Proof.
  intros E Hk Hn HP Hg Hr. pose proof (zlen_nonneg (nodes_ d)).
  rewrite i32_small in E by (unfold INT_MAX in *; lia).
  assert (Hp : nodes_ (push_node n d) = nodes_ d ++ [n]) by done.
  assert (X : ext d (push_node n d)) by (by exists [n]).
  eexists _, _. split_and!; [exact E|done| | |by apply HP].
  - rewrite Hp, zlen_app. unfold zlen at 2. cbn. lia.
  - unfold good. rewrite Hp. apply all_sound_snoc; [done|apply Hn; lia].
Qed.

Lemma has_in_range d ins vs : Forall2 (has env d) ins vs -> Forall (fun s => 0 <= s < zlen (nodes_ d)) ins.
Proof. induction 1; constructor; eauto using has_range. Qed.

(** An operation on slots whose values are known. *)
Lemma runs_emit k m op ins s s2 d vs (Phi : Z -> TraceDAG -> Prop) :
  Forall2 (has env d) ins vs -> 1 <= k -> op <> TraceOpKind.Input -> (op_arity op <= length ins)%nat ->
  (low = true -> lowered (nodes_ d) op ins) ->
  (forall i d', ext d d' -> has env d' i (rop op (f32_real s) (f32_real s2) vs) ->
     node_at (nodes_ d') i = Some (mkNode i op ins [] s s2 nullptr (m_dev m) (m_dt m) (m_rows m) (m_cols m) false (-1) false) -> Phi i d') ->
  runs k (emit2 m op ins s s2) d Phi.
Proof.
  intros Hv Hk Hop Har Hlow HP Hg Hr. pose proof (zlen_nonneg (nodes_ d)) as H0.
  assert (Hi : i32 (zlen (nodes_ d)) = zlen (nodes_ d)) by (apply i32_small; unfold INT_MAX in *; lia).
  revert Hg Hr. eapply runs_node; [done|done| |].
  - intros _. rewrite Hi. constructor; cbn; [done|by eapply has_in_range|done|done|done].
  - intros d' E X. rewrite Hi in E. apply HP; [done| |by rewrite E; apply node_at_last].
    pose proof (has_snoc env d d' _ E) as H. unfold eval_node, is_input, TraceOpKind.eqb in H. cbn [n_op] in H.
    rewrite bool_decide_eq_false_2 in H by done. unfold node_val in H. cbn [n_op n_scalar n_scalar2 n_inputs] in H.
    by rewrite (has_args env d ins vs Hv) in H.
Qed.
End Runs.

(** Carry the facts about the old graph to the new one. *)
Ltac carry X :=
  match type of X with
  | ext ?d ?d' =>
      repeat match goal with
      | H : has _ d _ _ |- _ => apply (fun H => has_ext _ _ _ _ _ H X) in H
      | H : guards d _ |- _ => apply (fun H => guards_ext _ _ _ H X) in H
      | H : ext _ d |- _ => apply (fun H => ext_trans _ _ _ H X) in H
      end;
      clear X
  end.

Ltac slots := repeat first [apply Forall2_cons; split; [eassumption|] | apply Forall2_nil; exact I | apply Forall2_nil].

(** The first statement of a sequence, which appends at most [k] nodes. *)
Ltac bind_step k :=
  lazymatch goal with
  | |- runs _ _ (mbind _ _) _ _ => eapply (runs_seq _ k); [lia|]
  | |- runs _ _ (_ ≫= _) _ _ => eapply (runs_seq _ k); [lia|]
  | _ => idtac
  end.

(** One emission, then the rest. *)
Ltac emit_step :=
  bind_step 1;
  eapply runs_emit; [slots|lia|discriminate|cbn; lia
    |first [solve [intros [=]] | solve [intros _ [=]] | idtac]
    |let i := fresh "i" in let d' := fresh "d" in let X := fresh "X" in let H := fresh "V" in
     intros i d' X H _; cbn [rop nth] in H; try (intros _); carry X].

(** ** The shared pieces *)

Lemma eqb_zero_real v : f32_eqb v 0 = true -> f32_real v = 0%R.
Proof.
  unfold f32_eqb, f32_real. change (f32_decode 0) with (SpecFloat.S754_zero false).
  destruct (f32_decode v) as [s|s| |s p e]; try done; destruct s; done.
Qed.

Section Pieces.
Context (low : bool) (env : nat -> R).
Implicit Types (m : ShapeMeta) (d : TraceDAG).

Abbreviation has := (has env).
Abbreviation runs := (runs low).

Lemma runs_const k m anchor val a d (Phi : Z -> TraceDAG -> Prop) : has d anchor a -> 2 <= k ->
  (forall i d', ext d d' -> has d' i (f32_real val) -> Phi i d') -> runs k (emit_const anchor val m) d Phi.
Proof.
  intros Ha Hk HP. pose proof (ext_refl d) as X0. unfold emit_const, emit. emit_step.
  assert (Hz : (a * f32_real 0 = 0)%R) by (rewrite real_0; lra). rewrite Hz in V.
  destruct (f32_eqb val 0) eqn:E.
  - apply runs_done; [lia|]. apply HP; [done|]. by rewrite (eqb_zero_real _ E).
  - emit_step. apply HP; [done|]. replace (f32_real val) with (0 + f32_real val)%R by lra. done.
Qed.

Lemma runs_neg k m x v d (Phi : Z -> TraceDAG -> Prop) : has d x v -> 1 <= k ->
  (forall i d', ext d d' -> has d' i (- v)%R -> Phi i d') -> runs k (emit_neg x m) d Phi.
Proof.
  intros Ha Hk HP. pose proof (ext_refl d) as X0. unfold emit_neg, emit. emit_step. apply HP; [done|].
  rewrite real_0 in V. by replace (- v)%R with (0 - v)%R by lra.
Qed.

Lemma runs_pos_denom k m x eps v d (Phi : Z -> TraceDAG -> Prop) : has d x v -> 2 <= k -> f32_ltb 0 eps = true ->
  (forall i d', ext d d' -> has d' i (relu v + f32_real eps)%R -> guards d' i -> Phi i d') ->
  runs k (emit_pos_denom x eps m) d Phi.
Proof.
  intros Ha Hk He HP. pose proof (ext_refl d) as X0. unfold emit_pos_denom, emit.
  eapply (runs_seq _ 1); [lia|]. eapply runs_emit; [slots|lia|discriminate|done|intros _ [=]|].
  intros i d1 X V E1 _. cbn [rop nth] in V. carry X.
  eapply runs_emit; [slots|lia|discriminate|done|intros _ [=]|].
  intros j d2 X W E2. cbn [rop nth] in W. pose proof (node_at_ext _ _ _ _ E1 X) as E3. carry X.
  apply HP; [done|done|]. eexists _, _, i, []. split_and!; [exact E2|done|done|done|exact E3|done].
Qed.
End Pieces.
