(* ===== verification/AutodiffPlain.v ===== *)
(** * Which nodes the lowering appends

    The lowering of src/jit/trace_autodiff.cpp appends, for a node that is not an
    input, plain nodes, neither inputs nor live, and then the node that stands
    for it. Both are closed under sequencing, so that they are shown for every
    function by following its text. *)
From S2P Require Import Prelude Dtype Device Heap Tensor TraceDag Float32 Autodiff.

Definition plain (n : TraceNode) : Prop := n_live n = false /\ n_op n <> TraceOpKind.Input.

(** What [m] appends is plain, whatever it returns. *)
Definition quiet {A} (m : st TraceDAG A) : Prop :=
  forall d, exists ms, nodes_ (m d).2 = nodes_ d ++ ms /\ Forall plain ms.

Create HintDb quiet discriminated.

Lemma quiet_still {A} (m : st TraceDAG A) : (forall d, (m d).2 = d) -> quiet m.
Proof. intros H d. exists []. rewrite H, app_nil_r. by split. Qed.
Lemma quiet_ret {A} (a : A) : quiet (mret a).
Proof. by apply quiet_still. Qed.
Lemma quiet_throw {A} e : quiet (st_throw e : st TraceDAG A).
Proof. by apply quiet_still. Qed.
Lemma quiet_get : quiet (st_get : st TraceDAG TraceDAG).
Proof. by apply quiet_still. Qed.
Lemma quiet_map_at mp i : quiet (map_at mp i).
Proof. apply quiet_still. intros d. unfold map_at. by destruct (mp !! i). Qed.
Lemma quiet_elem v k : quiet (elem v k).
Proof. apply quiet_still. intros d. unfold elem. by destruct (v !! k). Qed.
Lemma quiet_node d0 i : quiet (node d0 i).
Proof. apply quiet_still. intros d. unfold node. by destruct (node_at _ i). Qed.

Lemma quiet_bind {A B} (m : st TraceDAG A) (f : A -> st TraceDAG B) : quiet m -> (forall a, quiet (f a)) -> quiet (m ≫= f).
Proof.
  intros Hm Hf d. destruct (Hm d) as (ms & E & P). unfold mbind, st_bind. destruct (m d) as [[a|e|] d1]; cbn [snd] in *.
  - destruct (Hf a d1) as (ms' & E' & P'). exists (ms ++ ms'). rewrite E', E, app_assoc. split; [done|by apply Forall_app].
  - by exists ms.
  - by exists ms.
Qed.

Lemma quiet_emit2 m op ins s s2 : op <> TraceOpKind.Input -> quiet (emit2 m op ins s s2).
Proof. intros Hop d. eexists [_]. split; [done|]. by repeat constructor. Qed.
Lemma quiet_emit m op ins s : op <> TraceOpKind.Input -> quiet (emit m op ins s).
Proof. apply quiet_emit2. Qed.
Lemma quiet_add_op m op ins s : op <> TraceOpKind.Input -> quiet (add_op m op ins s).
Proof. apply quiet_emit2. Qed.

#[export] Hint Resolve quiet_ret quiet_throw quiet_get quiet_map_at quiet_elem quiet_node quiet_emit quiet_emit2 quiet_add_op : quiet.
#[export] Hint Extern 1 (_ <> TraceOpKind.Input) => discriminate : quiet.

(** Follow the text of a function. *)
Ltac hush := repeat lazymatch goal with
  | |- quiet (mbind _ _) => apply quiet_bind
  | |- quiet (_ ≫= _) => apply quiet_bind
  | |- quiet (emit _ _ _ _) => apply quiet_emit; discriminate
  | |- quiet (emit2 _ _ _ _ _) => apply quiet_emit2; discriminate
  | |- quiet (add_op _ _ _ _) => apply quiet_add_op; discriminate
  | |- quiet (if ?b then _ else _) => destruct b
  | |- quiet (match ?x with _ => _ end) => destruct x
  | |- forall _, _ => intro
  | |- quiet _ => solve [auto 1 with quiet nocore]
  end.

Lemma quiet_iterate k f x : (forall x, quiet (f x)) -> quiet (iterate k f x).
Proof. intros Hf. revert x. induction k as [|k IH]; intros x; cbn; hush. Qed.

Lemma quiet_const anchor val m : quiet (emit_const anchor val m).
Proof. unfold emit_const. hush. Qed.
Lemma quiet_neg x m : quiet (emit_neg x m).
Proof. unfold emit_neg. hush. Qed.
Lemma quiet_pos_denom x e m : quiet (emit_pos_denom x e m).
Proof. unfold emit_pos_denom. hush. Qed.
#[export] Hint Resolve quiet_const quiet_neg quiet_pos_denom : quiet.

Lemma quiet_abs x m : quiet (emit_abs x m).
Proof. unfold emit_abs. hush. Qed.
Lemma quiet_guarded d n : quiet (guarded d n).
Proof. unfold guarded. hush. Qed.
#[export] Hint Resolve quiet_abs quiet_guarded : quiet.
Lemma quiet_safe_div anchor num den m : quiet (emit_safe_div_signed anchor num den m).
Proof. unfold emit_safe_div_signed. hush. Qed.
Lemma quiet_exp x m : quiet (emit_lowered_exp x m).
Proof. unfold emit_lowered_exp. hush. apply quiet_iterate. hush. Qed.
Lemma quiet_newtons k xs m y : quiet (iterate k (newton_step xs m) y).
Proof. apply quiet_iterate. intros. unfold newton_step. hush. Qed.
#[export] Hint Resolve quiet_newtons : quiet.
Lemma quiet_sqrt anchor x m : quiet (emit_lowered_sqrt anchor x m).
Proof. unfold emit_lowered_sqrt. hush. Qed.
#[export] Hint Resolve quiet_safe_div quiet_exp quiet_sqrt : quiet.
Lemma quiet_rsqrt anchor x m : quiet (emit_lowered_rsqrt anchor x m).
Proof. unfold emit_lowered_rsqrt. hush. Qed.
Lemma quiet_horner u2 m p c : quiet (horner u2 m p c).
Proof. unfold horner. hush. Qed.
#[export] Hint Resolve quiet_horner : quiet.
Lemma quiet_log anchor x m : quiet (emit_lowered_log anchor x m).
Proof. unfold emit_lowered_log. hush. Qed.
Lemma quiet_gelu x m : quiet (lower_gelu x m).
Proof. unfold lower_gelu. hush. Qed.
#[export] Hint Resolve quiet_rsqrt quiet_log quiet_gelu : quiet.

(** ** The node a result is in

    A lowering returns the last node it appends, which satisfies [Q]. *)
Definition appends (Q : TraceNode -> Prop) (m : st TraceDAG Z) : Prop :=
  forall d a d', m d = (Ret a, d') -> exists ms n, nodes_ d' = nodes_ d ++ ms ++ [n] /\ Forall plain ms /\ Q n /\
    a = i32 (zlen (nodes_ d ++ ms)).

(** The last node is no input, and has the shape, the type and the device [m]. *)
Definition ends (m : ShapeMeta) (n : TraceNode) : Prop := n_op n <> TraceOpKind.Input /\ node_meta n = m.

Lemma appends_bind {A} Q (m : st TraceDAG A) f : quiet m -> (forall a, appends Q (f a)) -> appends Q (m ≫= f).
Proof.
  intros Hm Hf d b d' E. unfold mbind, st_bind in E. destruct (Hm d) as (ms & E1 & P1).
  destruct (m d) as [[a|e|] d1]; try done. cbn [snd] in E1.
  destruct (Hf a d1 b d' E) as (ms' & n & E2 & P2 & Hq & Hb). exists (ms ++ ms'), n.
  rewrite E2, E1, Hb, E1, !app_assoc. split_and!; [done|by apply Forall_app|done|done].
Qed.

Lemma appends_done Q m : appends Q m -> appends Q (m ≫= mret).
Proof.
  intros Hm d a d' E. apply Hm. unfold mbind, st_bind in E. by destruct (m d) as [[b|e|] d1].
Qed.

Lemma appends_emit2 m op ins s s2 : op <> TraceOpKind.Input -> appends (ends m) (emit2 m op ins s s2).
Proof.
  intros Hop d a d' E. injection E as <- <-. eexists [], _. rewrite app_nil_r. split_and!; [done|constructor| |done].
  split; [done|]. by destruct m.
Qed.
Lemma appends_emit m op ins s : op <> TraceOpKind.Input -> appends (ends m) (emit m op ins s).
Proof. apply appends_emit2. Qed.
Lemma appends_undef Q : appends Q st_undef.
Proof. done. Qed.

Lemma appends_iterate Q k f x : (forall x, quiet (f x)) -> (forall x, appends Q (f x)) -> appends Q (iterate (S k) f x).
Proof.
  intros Hq Hf. revert x. induction k as [|k IH]; intros x; [apply appends_done, Hf|].
  change (appends Q (f x ≫= iterate (S k) f)). by apply appends_bind.
Qed.

(** Follow the text of a function to its last node. *)
Ltac last_node := repeat lazymatch goal with
  | |- appends _ (mbind _ _) => apply appends_bind; [hush|intro]
  | |- appends _ (_ ≫= _) => apply appends_bind; [hush|intro]
  | |- appends _ (emit _ _ _ _) => apply appends_emit; discriminate
  | |- appends _ (emit2 _ _ _ _ _) => apply appends_emit2; discriminate
  | |- appends _ (if ?b then _ else _) => destruct b
  end.

Lemma appends_const anchor val m : appends (ends m) (emit_const anchor val m).
Proof.
  unfold emit_const. destruct (f32_eqb val 0); [|last_node]. apply appends_done. by apply appends_emit.
Qed.
Lemma appends_neg x m : appends (ends m) (emit_neg x m).
Proof. by apply appends_emit. Qed.
Lemma appends_abs x m : appends (ends m) (emit_abs x m).
Proof. unfold emit_abs. last_node. Qed.
Lemma appends_safe_div anchor num den m : appends (ends m) (emit_safe_div_signed anchor num den m).
Proof. unfold emit_safe_div_signed. last_node. Qed.
Lemma appends_exp x m : appends (ends m) (emit_lowered_exp x m).
Proof. unfold emit_lowered_exp. last_node. apply appends_iterate; intros; [hush|last_node]. Qed.
Lemma appends_sqrt anchor x m : appends (ends m) (emit_lowered_sqrt anchor x m).
Proof. unfold emit_lowered_sqrt. last_node. Qed.
Lemma appends_rsqrt anchor x m : appends (ends m) (emit_lowered_rsqrt anchor x m).
Proof. unfold emit_lowered_rsqrt. last_node. Qed.
Lemma appends_log anchor x m : appends (ends m) (emit_lowered_log anchor x m).
Proof. unfold emit_lowered_log. last_node. Qed.
Lemma appends_gelu x m : appends (ends m) (lower_gelu x m).
Proof. unfold lower_gelu. last_node. Qed.

#[export] Hint Resolve appends_const appends_neg appends_abs appends_safe_div appends_exp appends_sqrt appends_rsqrt appends_log
  appends_gelu : quiet.

(** The node the lowering of [n] ends with. *)
Definition stands_for (n c : TraceNode) : Prop :=
  n_op c <> TraceOpKind.Input /\ (n_inplace n = false -> node_meta c = node_meta n).

Lemma appends_weaken (P Q : TraceNode -> Prop) m : (forall n, P n -> Q n) -> appends P m -> appends Q m.
Proof. intros H Hm d a d' E. destruct (Hm d a d' E) as (ms & n & ? & ? & ? & ?). exists ms, n. eauto. Qed.

Lemma appends_inplace op t j buf s s2 : op <> TraceOpKind.Input ->
  appends (fun c => n_op c <> TraceOpKind.Input) (add_inplace_node op t j buf s s2).
Proof.
  intros Hop d a d' E. unfold add_inplace_node in E. destruct (node_at (nodes_ d) t); [|done]. injection E as <- <-.
  eexists [], _. rewrite app_nil_r. split_and!; [done|constructor|done|done].
Qed.

Lemma appends_lower anchor n ins remap : n_op n <> TraceOpKind.Input -> appends (stands_for n) (lower_op anchor n ins remap).
Proof.
  intros Hop. assert (H : n_inplace n = false \/ needs_lowering (n_op n) = true -> appends (ends (node_meta n)) (lower_op anchor n ins remap)).
  { intros Hc. unfold lower_op. cbv zeta. destruct (n_op n) eqn:Eo; try done; last_node;
      first [solve [auto 1 with quiet nocore]
        |unfold lower_default; destruct Hc as [->|?]; [rewrite Eo; by apply appends_emit2|done]]. }
  destruct (needs_lowering (n_op n)) eqn:El.
  { eapply appends_weaken; [|by apply H; right]. intros c [? ?]. by split. }
  destruct (n_inplace n) eqn:E.
  - eapply (appends_weaken (fun c => n_op c <> TraceOpKind.Input)); [intros c Hc; split; [done|by rewrite E]|].
    assert (lower_op anchor n ins remap = lower_default n ins remap) as -> by (unfold lower_op; by destruct (n_op n)).
    unfold lower_default. rewrite E. apply appends_bind; [hush|intros t]. apply appends_bind; [hush|intros j]. by apply appends_inplace.
  - eapply appends_weaken; [|by apply H; left]. intros c [? ?]. by split.
Qed.
