(* ===== verification/AutodiffSweep.v ===== *)
(** * The reverse sweep

    What the [switch] of [TraceDAG::backward] adds to the adjoints, in the real
    numbers: for every operation the slopes of its operands, as the emitted
    code computes them ([slopes]), and that the sweep accumulates, for every
    node, the adjoint times the slope. *)
From Stdlib Require Import Reals Lra.
From S2P Require Import Prelude Dtype Device Heap Tensor TraceDag TraceSpec Float32 Autodiff TraceMeaning AutodiffEmit.

Definition EPS : R := f32_real kSafeEps.

(** The slopes of node [n]: the position of an operand and the factor by which
    the emitted code multiplies the node's adjoint. *)
Definition slopes (n : TraceNode) (args : list R) : list (nat * R) :=
  let x := nth 0 args 0%R in
  let y := nth 1 args 0%R in
  let s := f32_real (n_scalar n) in
  let s2 := f32_real (n_scalar2 n) in
  match n_op n with
  | TraceOpKind.Copy | TraceOpKind.Cast | TraceOpKind.AddScalar | TraceOpKind.SubScalar => [(0%nat, 1)]
  | TraceOpKind.Add => [(0%nat, 1); (1%nat, 1)]
  | TraceOpKind.Sub => [(0%nat, 1); (1%nat, -1)]
  | TraceOpKind.ScalarSub | TraceOpKind.Neg => [(0%nat, -1)]
  | TraceOpKind.Mul => [(0%nat, y); (1%nat, x)]
  | TraceOpKind.MulScalar => [(0%nat, s)]
  | TraceOpKind.DivScalar => [(0%nat, f32_real (safe_recip (n_scalar n)))]
  | TraceOpKind.Div => [(0%nat, / y); (1%nat, - x / (relu (y * y) + EPS))]
  | TraceOpKind.ScalarDiv => [(0%nat, f32_real (f32_neg (n_scalar n)) / (relu (x * x) + EPS))]
  | TraceOpKind.FMA => [(0%nat, y); (1%nat, x); (2%nat, 1)]
  | TraceOpKind.Modulate => [(0%nat, y + 1); (1%nat, x); (2%nat, 1)]
  | TraceOpKind.ReLU => [(0%nat, select (relu x) 1 0)]
  | TraceOpKind.Abs => [(0%nat, select (relu x) 1 (select (relu (- x)) (-1) 0))]
  | TraceOpKind.Clamp => [(0%nat, select (relu (x - s) * relu (s2 - x)) 1 0)]
  | TraceOpKind.Where => [(1%nat, select x 1 0); (2%nat, select x 0 1)]
  | TraceOpKind.Sigmoid => [(0%nat, sigmoid x * (1 - sigmoid x))]
  | TraceOpKind.Tanh => [(0%nat, 1 - tanh x * tanh x)]
  | TraceOpKind.SiLU => [(0%nat, sigmoid x * (x * (1 - sigmoid x) + 1))]
  | TraceOpKind.GELU =>
      let t := tanh ((x + x * x * x * GELU_K1) * GELU_K0) in
      [(0%nat, (t + 1) * / 2 +
               x * / 2 * ((1 - t * t) * ((x * x * f32_real (f32_mul 0x40400000 kGeluK1) + 1) * GELU_K0)))]
  | TraceOpKind.Exp => [(0%nat, exp (Rmin (Rmax x (f32_real 0xC2B00000)) (f32_real 0x42B00000)))]
  | TraceOpKind.Log => [(0%nat, select (relu x) (/ (relu (relu x) + EPS)) 0)]
  | TraceOpKind.Sqrt => [(0%nat, select (relu x) (/ (relu (sqrt (relu (relu x) + EPS)) + EPS) * / 2) 0)]
  | TraceOpKind.Rsqrt =>
      let r := (/ sqrt (relu (relu x) + EPS))%R in [(0%nat, select (relu x) (r * r * r * (- / 2)) 0)]
  | TraceOpKind.Input | TraceOpKind.Const | TraceOpKind.RMSNorm | TraceOpKind.LayerNorm => []
  end%R.

(** The operations [backward] differentiates. *)
Definition differentiable (op : TraceOpKind) : bool :=
  match op with TraceOpKind.RMSNorm | TraceOpKind.LayerNorm => false | _ => true end.

(** ** Adjoints *)

Definition upd (A : Z -> R) (i : Z) (x : R) : Z -> R := fun j => if j =? i then x else A j.
Definition in_at (n : TraceNode) (p : nat) : Z := nth p (n_inputs n) 0.
(** The values of the operands an operation may read. *)
Definition operands (V : Z -> R) (n : TraceNode) : list R := [V (in_at n 0); V (in_at n 1); V (in_at n 2)].
Definition bump (n : TraceNode) (A : Z -> R) (p : nat) (x : R) : Z -> R := upd A (in_at n p) (A (in_at n p) + x)%R.
Definition push (n : TraceNode) (g : R) (A : Z -> R) (ws : list (nat * R)) : Z -> R :=
  foldl (fun A pw => bump n A pw.1 (g * pw.2)%R) A ws.

(** The slots [adj] hold the adjoints [A]. *)
Definition adj_ok (env : nat -> R) (d : TraceDAG) (adj : gmap Z Z) (A : Z -> R) : Prop :=
  forall i, match adj !! i with Some s => has env d s (A i) | None => A i = 0%R end.
(** The slots [f2b] hold the values [V] of the forward graph's [N] nodes. *)
Definition slots_ok (env : nat -> R) (d : TraceDAG) (f2b : gmap Z Z) (N : Z) (V : Z -> R) : Prop :=
  forall i, 0 <= i < N -> exists s, f2b !! i = Some s /\ has env d s (V i).

Lemma adj_ok_ext env d d' adj A : adj_ok env d adj A -> ext d d' -> adj_ok env d' adj A.
Proof. intros H X i. specialize (H i). destruct (adj !! i); [by eapply has_ext|done]. Qed.
Lemma slots_ok_ext env d d' f2b N V : slots_ok env d f2b N V -> ext d d' -> slots_ok env d' f2b N V.
Proof. intros H X i Hi. destruct (H i Hi) as (s & E & Hs). exists s. split; [done|]. by eapply has_ext. Qed.

Ltac carry X ::=
  match type of X with
  | ext ?d ?d' =>
      repeat match goal with
      | H : has _ d _ _ |- _ => apply (fun H => has_ext _ _ _ _ _ H X) in H
      | H : guards d _ |- _ => apply (fun H => guards_ext _ _ _ H X) in H
      | H : adj_ok _ d _ _ |- _ => apply (fun H => adj_ok_ext _ _ _ _ _ H X) in H
      | H : slots_ok _ d _ _ _ |- _ => apply (fun H => slots_ok_ext _ _ _ _ _ _ H X) in H
      | H : ext _ d |- _ => apply (fun H => ext_trans _ _ _ H X) in H
      end;
      clear X
  end.

(** The steps of the shared pieces. *)
Ltac piece k L :=
  bind_step k;
  eapply L; [eassumption|lia|..];
  try (let i := fresh "i" in let d' := fresh "d" in let X := fresh "X" in let H := fresh "V" in
       intros i d' X H; try (intros _); carry X).
Ltac const_step := piece 2 runs_const.
Ltac guard_step :=
  bind_step 2;
  eapply runs_pos_denom; [eassumption|lia|reflexivity|];
  let i := fresh "i" in let d' := fresh "d" in let X := fresh "X" in let H := fresh "V" in let G := fresh "G" in
  intros i d' X H G; try (intros _); carry X.

Section Sweep.
Context (m : ShapeMeta) (env : nat -> R) (f2b : gmap Z Z) (anchor : Z) (N : Z) (V : Z -> R) (an : R).

Abbreviation has := (has env).
Abbreviation runs := (runs false).
Abbreviation accum_grad := (accum_grad m).
Abbreviation accum_in := (accum_in m).

Lemma runs_accum k adj A i c g w d (Phi : gmap Z Z -> TraceDAG -> Prop) :
  adj_ok env d adj A -> has d c (g * w)%R -> 1 <= k ->
  (forall adj' d', ext d d' -> adj_ok env d' adj' (upd A i (A i + g * w)%R) -> Phi adj' d') ->
  runs k (accum_grad adj i c) d Phi.
Proof.
  intros HA Hc Hk HP. pose proof (ext_refl d) as X0. unfold Autodiff.accum_grad. pose proof (HA i) as Hi.
  destruct (adj !! i) as [s|] eqn:E.
  - unfold add_op, emit. emit_step. apply runs_done; [lia|]. apply HP; [done|].
    intros j. unfold upd. destruct (Z.eqb_spec j i) as [->|Hj]; [by rewrite lookup_insert_eq|].
    rewrite lookup_insert_ne by done. apply HA.
  - apply runs_done; [lia|]. apply HP; [done|]. intros j. unfold upd. destruct (Z.eqb_spec j i) as [->|Hj].
    + rewrite lookup_insert_eq, Hi. by rewrite Rplus_0_l.
    + rewrite lookup_insert_ne by done. apply HA.
Qed.

Context (n : TraceNode) (Hin : Forall (fun s => 0 <= s < N) (n_inputs n)).

Lemma input_lookup p : (p < length (n_inputs n))%nat -> n_inputs n !! p = Some (in_at n p).
Proof. intros Hp. unfold in_at. destruct (nth_lookup_or_length (n_inputs n) p 0) as [E|E]; [done|lia]. Qed.

Lemma input_range p : (p < length (n_inputs n))%nat -> 0 <= in_at n p < N.
Proof. intros Hp. rewrite Forall_lookup in Hin. by eapply Hin, input_lookup. Qed.

Lemma runs_in_slot {A} k p (f : Z -> st TraceDAG A) d (Phi : A -> TraceDAG -> Prop) :
  (p < length (n_inputs n))%nat -> slots_ok env d f2b N V ->
  (forall s, has d s (V (in_at n p)) -> runs k (f s) d Phi) -> runs k (in_slot f2b n p ≫= f) d Phi.
Proof.
  intros Hp Hs HP. destruct (Hs _ (input_range p Hp)) as (s & E & Hv).
  eapply runs_skip; [|by apply HP]. unfold in_slot, in_id, elem, mbind, st_bind.
  rewrite (input_lookup p Hp). cbn. unfold map_at. by rewrite E.
Qed.

(** A contribution to operand [p]. *)
Lemma runs_accum_in k adj A p c g v w d (Phi : gmap Z Z -> TraceDAG -> Prop) : (p < length (n_inputs n))%nat ->
  adj_ok env d adj A -> has d c v -> v = (g * w)%R -> 1 <= k ->
  (forall adj' d', ext d d' -> adj_ok env d' adj' (bump n A p (g * w)%R) -> Phi adj' d') ->
  runs k (accum_in adj n p c) d Phi.
Proof.
  intros Hp HA Hc -> Hk HP. unfold Autodiff.accum_in. eapply runs_skip.
  - unfold in_id, elem. by rewrite (input_lookup p Hp).
  - by eapply runs_accum.
Qed.
End Sweep.

(** Equations between slopes. *)
Ltac slope_eq :=
  change GELU_K0 with (f32_real kGeluK0); change GELU_K1 with (f32_real kGeluK1);
  rewrite ?real_0, ?real_one, ?real_half, ?real_mhalf, ?Rminus_0_l; unfold EPS, Rdiv, select;
  repeat match goal with |- context [Req_EM_T ?x ?y] => destruct (Req_EM_T x y) end; try ring.

Ltac slot_step :=
  eapply runs_in_slot; [eassumption|lia|eassumption|]; let s := fresh "s" in let H := fresh "U" in intros s H.
Ltac accum_step p :=
  bind_step 1;
  match goal with HP : context [push _ ?g0 _ ?ws] |- _ =>
    match ws with context [(p, ?w0)] => eapply runs_accum_in with (g := g0) (w := w0) end end; [lia|eassumption|eassumption|slope_eq|lia|];
  let X := fresh "X" in let HA := fresh "HA" in
  intros ? ? X HA; try (intros _);
  match goal with H0 : adj_ok _ ?d _ _, X : ext ?d _ |- _ => clear H0 end; carry X.

(** The facts of a case: the node's operation and its slopes. *)
Ltac vjp_case :=
  match goal with E : n_op ?n = _, HP : context [slopes ?n _], Ha : (op_arity _ <= _)%nat |- _ =>
    let Hl := fresh "Hl" in pose proof Ha as Hl; unfold slopes in HP; rewrite E in HP, Hl;
    cbn [op_arity] in Hl; cbn [nth operands] in HP
  end.
Ltac vjp_done := match goal with HP : forall adj' d', ext _ d' -> _ -> ?Phi adj' d' |- _ => apply HP; [done|]; assumption end.

Section Vjp.
Context (m : ShapeMeta) (env : nat -> R) (f2b : gmap Z Z) (anchor : Z) (N : Z) (V : Z -> R) (an : R).
Context (n : TraceNode) (Hin : Forall (fun s => 0 <= s < N) (n_inputs n)).
Context (Har : (op_arity (n_op n) <= length (n_inputs n))%nat).

Abbreviation has := (has env).
Abbreviation runs := (runs false).

(** What a case of the [switch] does. *)
Definition vjp_runs (code : Z -> gmap Z Z -> st TraceDAG (gmap Z Z)) : Prop :=
  forall k d dy g adj A (Phi : gmap Z Z -> TraceDAG -> Prop), slots_ok env d f2b N V -> has d anchor an -> has d dy g ->
  adj_ok env d adj A -> 24 <= k ->
  (forall adj' d', ext d d' -> adj_ok env d' adj' (push n g A (slopes n (operands V n))) -> Phi adj' d') ->
  runs k (code dy adj) d Phi.

(** The two factors of a product. *)
Lemma vjp_mul_runs k d dy g adj A (Phi : gmap Z Z -> TraceDAG -> Prop) : (2 <= length (n_inputs n))%nat ->
  slots_ok env d f2b N V -> has d dy g -> adj_ok env d adj A -> 4 <= k ->
  (forall adj' d', ext d d' -> adj_ok env d' adj' (push n g A [(0%nat, V (in_at n 1)); (1%nat, V (in_at n 0))]) -> Phi adj' d') ->
  runs k (vjp_mul m f2b n dy adj) d Phi.
Proof.
  intros Hl Hs Hdy HA Hk HP. pose proof (ext_refl d) as X0.
  unfold vjp_mul, add_op, emit. slot_step. slot_step. emit_step. accum_step 0%nat. emit_step. accum_step 1%nat. vjp_done.
Qed.

Ltac vjp_start := intros E k d dy g adj A Phi Hs Han Hdy HA Hk HP; pose proof (ext_refl d) as X0; vjp_case.

Lemma vjp_div_runs : n_op n = TraceOpKind.Div -> vjp_runs (vjp_div m f2b n).
Proof.
  vjp_start. unfold vjp_div, add_op, emit. slot_step. slot_step. emit_step. emit_step. guard_step. emit_step. emit_step.
  emit_step. accum_step 0%nat. accum_step 1%nat. vjp_done.
Qed.

Lemma vjp_gelu_runs : n_op n = TraceOpKind.GELU -> vjp_runs (vjp_gelu m f2b n).
Proof.
  vjp_start. unfold vjp_gelu, add_op, emit. slot_step. do 18 emit_step. accum_step 0%nat. vjp_done.
Qed.

Lemma vjp_silu_runs : n_op n = TraceOpKind.SiLU -> vjp_runs (vjp_silu m f2b n).
Proof. vjp_start. unfold vjp_silu, add_op, emit. slot_step. do 6 emit_step. accum_step 0%nat. vjp_done. Qed.

Lemma vjp_abs_runs : n_op n = TraceOpKind.Abs -> vjp_runs (vjp_abs m f2b anchor n).
Proof.
  vjp_start. unfold vjp_abs, add_op, emit, zero_const. slot_step. do 4 emit_step. const_step. do 2 emit_step.
  accum_step 0%nat. vjp_done.
Qed.

Lemma vjp_clamp_runs : n_op n = TraceOpKind.Clamp -> vjp_runs (vjp_clamp m f2b anchor n).
Proof.
  vjp_start. unfold vjp_clamp, add_op, emit, zero_const. slot_step. do 5 emit_step. const_step. emit_step.
  accum_step 0%nat. vjp_done.
Qed.

Lemma vjp_log_runs : n_op n = TraceOpKind.Log -> vjp_runs (vjp_log m f2b anchor n).
Proof.
  vjp_start. unfold vjp_log, add_op, emit, zero_const. slot_step. emit_step. guard_step. emit_step. const_step. emit_step.
  accum_step 0%nat. vjp_done.
Qed.

Lemma vjp_sqrt_runs : n_op n = TraceOpKind.Sqrt -> vjp_runs (vjp_sqrt m f2b anchor n).
Proof.
  vjp_start. unfold vjp_sqrt, add_op, emit, zero_const. slot_step. emit_step. guard_step. emit_step. guard_step.
  do 2 emit_step. const_step. emit_step. accum_step 0%nat. vjp_done.
Qed.

Lemma vjp_rsqrt_runs : n_op n = TraceOpKind.Rsqrt -> vjp_runs (vjp_rsqrt m f2b anchor n).
Proof.
  vjp_start. unfold vjp_rsqrt, add_op, emit, zero_const. slot_step. emit_step. guard_step. do 5 emit_step. const_step.
  emit_step. accum_step 0%nat. vjp_done.
Qed.

(** The slot that holds a node's own value, for the operations that use it. *)
Lemma runs_own {A} k (f : Z -> st TraceDAG A) d (Phi : A -> TraceDAG -> Prop) : 0 <= n_id n < N ->
  slots_ok env d f2b N V -> (forall s, has d s (V (n_id n)) -> runs k (f s) d Phi) ->
  runs k (map_at f2b (n_id n) ≫= f) d Phi.
Proof.
  intros Hr Hs HP. destruct (Hs _ Hr) as (s & E & Hv). eapply runs_skip; [|by apply HP].
  unfold map_at. by rewrite E.
Qed.

Ltac own_step := eapply runs_own; [assumption|eassumption|]; let s := fresh "s" in let H := fresh "U" in intros s H.

(** The [switch]: every operand of the node is given the adjoint times its slope. *)
Theorem vjp_correct : differentiable (n_op n) = true -> 0 <= n_id n < N ->
  (is_input n = false -> V (n_id n) = rop (n_op n) (f32_real (n_scalar n)) (f32_real (n_scalar2 n)) (operands V n)) ->
  vjp_runs (vjp m f2b anchor n).
Proof.
  intros Hd Hid Hown. assert (exists o, n_op n = o) as [o E] by eauto. rewrite E in Hd, Hown.
  destruct o; try discriminate Hd.
  all: lazymatch type of E with
  | _ = TraceOpKind.Div => intros k d dy g adj A Phi; unfold vjp; rewrite E; by apply vjp_div_runs
  | _ = TraceOpKind.GELU => intros k d dy g adj A Phi; unfold vjp; rewrite E; by apply vjp_gelu_runs
  | _ = TraceOpKind.SiLU => intros k d dy g adj A Phi; unfold vjp; rewrite E; by apply vjp_silu_runs
  | _ = TraceOpKind.Abs => intros k d dy g adj A Phi; unfold vjp; rewrite E; by apply vjp_abs_runs
  | _ = TraceOpKind.Clamp => intros k d dy g adj A Phi; unfold vjp; rewrite E; by apply vjp_clamp_runs
  | _ = TraceOpKind.Log => intros k d dy g adj A Phi; unfold vjp; rewrite E; by apply vjp_log_runs
  | _ = TraceOpKind.Sqrt => intros k d dy g adj A Phi; unfold vjp; rewrite E; by apply vjp_sqrt_runs
  | _ = TraceOpKind.Rsqrt => intros k d dy g adj A Phi; unfold vjp; rewrite E; by apply vjp_rsqrt_runs
  | _ => idtac
  end.
  all: intros k d dy g adj A Phi Hs Han Hdy HA Hk HP; pose proof (ext_refl d) as X0; vjp_case; unfold vjp; rewrite E; unfold add_op, emit.
  all: try (specialize (Hown ltac:(unfold is_input, TraceOpKind.eqb; rewrite E; by apply bool_decide_eq_false_2));
            cbn [rop operands nth] in Hown).
  all: lazymatch type of E with
  | _ = TraceOpKind.Input => apply runs_done; [lia|]; vjp_done
  | _ = TraceOpKind.Const => apply runs_done; [lia|]; vjp_done
  | _ = TraceOpKind.Add => accum_step 0%nat; accum_step 1%nat; vjp_done
  | _ = TraceOpKind.Sub => accum_step 0%nat; emit_step; accum_step 1%nat; vjp_done
  | _ = TraceOpKind.Mul => eapply vjp_mul_runs; eauto; lia
  | _ = TraceOpKind.MulScalar => emit_step; accum_step 0%nat; vjp_done
  | _ = TraceOpKind.DivScalar => emit_step; accum_step 0%nat; vjp_done
  | _ = TraceOpKind.ScalarSub => emit_step; accum_step 0%nat; vjp_done
  | _ = TraceOpKind.Neg => emit_step; accum_step 0%nat; vjp_done
  | _ = TraceOpKind.ScalarDiv => slot_step; emit_step; guard_step; do 2 emit_step; accum_step 0%nat; vjp_done
  | _ = TraceOpKind.Modulate =>
      slot_step; slot_step; do 2 emit_step; accum_step 0%nat; emit_step; accum_step 1%nat; accum_step 2%nat; vjp_done
  | _ = TraceOpKind.ReLU => unfold zero_const; slot_step; emit_step; const_step; emit_step; accum_step 0%nat; vjp_done
  | _ = TraceOpKind.Where =>
      unfold zero_const; slot_step; const_step; emit_step; accum_step 1%nat; emit_step; accum_step 2%nat; vjp_done
  | _ = TraceOpKind.Sigmoid => own_step; rewrite Hown in *; do 3 emit_step; accum_step 0%nat; vjp_done
  | _ = TraceOpKind.Tanh => own_step; rewrite Hown in *; do 3 emit_step; accum_step 0%nat; vjp_done
  | _ = TraceOpKind.Exp => slot_step; do 3 emit_step; accum_step 0%nat; vjp_done
  | _ = TraceOpKind.FMA =>
      eapply (runs_seq _ 4); [lia|]; eapply vjp_mul_runs; [lia|eassumption..|lia|];
      intros adj' d' X HA' _; clear HA; carry X; accum_step 2%nat; vjp_done
  | _ => accum_step 0%nat; vjp_done
  end.
Qed.
End Vjp.

(** An operation reads no operand past its arity. *)
Lemma rop_operands V n s s2 : (op_arity (n_op n) <= length (n_inputs n))%nat ->
  rop (n_op n) s s2 (map V (n_inputs n)) = rop (n_op n) s s2 (operands V n).
Proof.
  unfold operands, in_at. destruct (n_inputs n) as [|i [|j [|k ks]]]; destruct (n_op n); cbn; intros H; try lia; done.
Qed.
