(* ===== verification/AutodiffAdjoint.v ===== *)
(** * Forward and reverse accumulation agree

    The tangent of every node of a graph in the direction of one input, with
    the slopes of AutodiffSweep.v, accumulates from the inputs on. The sweep of
    [backward] accumulates from the outputs back. The sum of adjoint times
    tangent over the nodes not yet swept and the inputs does not change while it
    does so, whence the adjoint of an input is the tangent of the outputs. *)
From Stdlib Require Import Reals Lra.
From S2P Require Import Prelude Dtype Device Heap Tensor TraceDag TraceSpec Float32 Autodiff TraceMeaning AutodiffEmit AutodiffSweep.

(** [sum of f i for i < n] *)
Fixpoint rsum (f : nat -> R) (n : nat) : R :=
  match n with O => 0%R | S n => (rsum f n + f n)%R end.

Lemma rsum_ext f g n : (forall i, (i < n)%nat -> f i = g i) -> rsum f n = rsum g n.
Proof. induction n as [|n IH]; intros H; [done|]. cbn. rewrite IH, H by (try intros; try apply H; lia). done. Qed.

Lemma rsum_scale c f n : rsum (fun i => c * f i)%R n = (c * rsum f n)%R.
Proof. induction n as [|n IH]; cbn; [lra|]. rewrite IH. lra. Qed.

Lemma rsum_zero f n : (forall i, (i < n)%nat -> f i = 0%R) -> rsum f n = 0%R.
Proof.
  intros H. rewrite (rsum_ext _ (fun _ => 0 * 0)%R), rsum_scale; [lra|]. intros i Hi. rewrite H by done. lra.
Qed.

(** Only one term is not zero. *)
Lemma rsum_single f n k : (k < n)%nat -> (forall i, (i < n)%nat -> i <> k -> f i = 0%R) -> rsum f n = f k.
Proof.
  induction n as [|n IH]; intros Hk H; [lia|]. cbn. destruct (decide (k = n)) as [->|Hne].
  - rewrite rsum_zero; [lra|]. intros i Hi. apply H; lia.
  - rewrite IH, (H n) by (try intros; try apply H; lia). lra.
Qed.

(** One term changes. *)
Lemma rsum_change f g n k : (k < n)%nat -> (forall i, (i < n)%nat -> i <> k -> f i = g i) ->
  rsum f n = (rsum g n + (f k - g k))%R.
Proof.
  induction n as [|n IH]; intros Hk H; [lia|]. cbn. destruct (decide (k = n)) as [->|Hne].
  - rewrite (rsum_ext f g) by (intros; apply H; lia). lra.
  - rewrite IH, (H n) by (try intros; try apply H; lia). lra.
Qed.

(** ** Tangents *)

Definition wdot (n : TraceNode) (T : Z -> R) (ws : list (nat * R)) : R :=
  foldr (fun pw acc => pw.2 * T (in_at n pw.1) + acc)%R 0%R ws.

(** The forward accumulation, in the direction of the [k]-th input, of the
    factors [ws] of every node's operands. *)
Definition acc_node (ws : TraceNode -> list R -> list (nat * R)) (env : nat -> R) (k : nat)
    (pre : list TraceNode) (ts : list R) (n : TraceNode) : R :=
  if is_input n then (if (inputs_in pre =? k)%nat then 1 else 0)%R
  else wdot n (val_at ts) (ws n (operands (val_at (evals env pre)) n)).
Definition accumulated (ws : TraceNode -> list R -> list (nat * R)) (env : nat -> R) (k : nat) (d : TraceDAG) (i : Z) : R :=
  val_at (scan (acc_node ws env k) (nodes_ d)) i.

(** The tangent of node [i] in the direction of the [k]-th input. *)
Definition tangent : (nat -> R) -> nat -> TraceDAG -> Z -> R := accumulated slopes.

(** The factors are those of the operands the operation has, and are functions
    of them. *)
Record local_factors (ws : TraceNode -> list R -> list (nat * R)) : Prop := mkLocal {
  lf_arity : forall n args, Forall (fun pw => (pw.1 < op_arity (n_op n))%nat) (ws n args);
  lf_ext : forall n (U W : Z -> R), (forall p, (p < op_arity (n_op n))%nat -> U (in_at n p) = W (in_at n p)) ->
    ws n (operands U n) = ws n (operands W n)
}.

Lemma slopes_arity n args : Forall (fun pw => (pw.1 < op_arity (n_op n))%nat) (slopes n args).
Proof. unfold slopes. destruct (n_op n); repeat constructor. Qed.

(** A graph [backward] differentiates. *)
Record gradable (d : TraceDAG) : Prop := mkGradable {
  gr_wf : wf_nodes (nodes_ d);
  gr_arity : forall i n, nodes_ d !! i = Some n -> (op_arity (n_op n) <= length (n_inputs n))%nat;
  gr_ops : forall i n, nodes_ d !! i = Some n -> differentiable (n_op n) = true
}.

Section Graph.
Context (env : nat -> R) (d : TraceDAG) (Hd : gradable d).

Abbreviation ns := (nodes_ d).
Abbreviation V := (value env d).

Lemma node_id i n : ns !! i = Some n -> n_id n = Z.of_nat i.
Proof. intros H. by destruct (gr_wf d Hd i n H). Qed.

Lemma node_ins i n : ns !! i = Some n -> Forall (fun s => 0 <= s < Z.of_nat i) (n_inputs n).
Proof. intros H. by destruct (gr_wf d Hd i n H). Qed.

Lemma operand_range i n p : ns !! i = Some n -> (p < op_arity (n_op n))%nat -> 0 <= in_at n p < Z.of_nat i.
Proof.
  intros H Hp. pose proof (gr_arity d Hd i n H). eapply (input_range (Z.of_nat i)); [by apply node_ins|lia].
Qed.

Lemma prefix_accumulated ws k i j : 0 <= j < Z.of_nat i ->
  val_at (scan (acc_node ws env k) (take i ns)) j = accumulated ws env k d j.
Proof. intros Hj. unfold accumulated, val_at. by rewrite scan_take by lia. Qed.

(** The value of a node. *)
Lemma value_input i n : ns !! i = Some n -> is_input n = true -> V (Z.of_nat i) = env (inputs_in (take i ns)).
Proof. intros Hi Hn. rewrite (value_eq _ _ _ _ (gr_wf d Hd) Hi). by rewrite Hn. Qed.

Lemma value_op i n : ns !! i = Some n -> is_input n = false ->
  V (Z.of_nat i) = rop (n_op n) (f32_real (n_scalar n)) (f32_real (n_scalar2 n)) (map V (n_inputs n)).
Proof. intros Hi Hn. rewrite (value_eq _ _ _ _ (gr_wf d Hd) Hi). by rewrite Hn. Qed.

Lemma value_operands i n : ns !! i = Some n -> is_input n = false ->
  V (Z.of_nat i) = rop (n_op n) (f32_real (n_scalar n)) (f32_real (n_scalar2 n)) (operands V n).
Proof. intros Hi Hn. rewrite (value_op _ _ Hi Hn). apply rop_operands. by eapply gr_arity. Qed.

Lemma accumulated_input ws k i n : ns !! i = Some n -> is_input n = true ->
  accumulated ws env k d (Z.of_nat i) = (if (inputs_in (take i ns) =? k)%nat then 1 else 0)%R.
Proof.
  intros Hi Hn. unfold accumulated, val_at. rewrite Nat2Z.id, (scan_lookup _ _ _ _ Hi). unfold acc_node. by rewrite Hn.
Qed.

Lemma wdot_ext n (S T : Z -> R) ws : Forall (fun pw => S (in_at n pw.1) = T (in_at n pw.1)) ws -> wdot n S ws = wdot n T ws.
Proof. unfold wdot. induction 1 as [|pw ws H _ IH]; [done|]. cbn. by rewrite H, IH. Qed.

Lemma accumulated_op ws k i n : local_factors ws -> ns !! i = Some n -> is_input n = false ->
  accumulated ws env k d (Z.of_nat i) = wdot n (accumulated ws env k d) (ws n (operands V n)).
Proof.
  intros [Har Hext] Hi Hn. unfold accumulated at 1, val_at. rewrite Nat2Z.id, (scan_lookup _ _ _ _ Hi).
  cbn [default from_option]; unfold Datatypes.id. unfold acc_node at 1. rewrite Hn.
  rewrite (Hext n _ V); [|intros p Hp; apply prefix_value; by eapply operand_range].
  apply wdot_ext. eapply Forall_impl; [apply Har|]. intros pw Hp.
  apply prefix_accumulated. by eapply operand_range.
Qed.

Lemma slopes_ext n (U W : Z -> R) : (forall p, (p < op_arity (n_op n))%nat -> U (in_at n p) = W (in_at n p)) ->
  slopes n (operands U n) = slopes n (operands W n).
Proof.
  unfold slopes, operands. intros H.
  destruct (n_op n); cbn [op_arity] in H; cbn [nth]; rewrite ?(H 0%nat), ?(H 1%nat), ?(H 2%nat) by lia; done.
Qed.

Lemma slopes_local : local_factors slopes.
Proof. constructor; [apply slopes_arity|apply slopes_ext]. Qed.

Lemma tangent_input k i n : ns !! i = Some n -> is_input n = true ->
  tangent env k d (Z.of_nat i) = (if (inputs_in (take i ns) =? k)%nat then 1 else 0)%R.
Proof. apply accumulated_input. Qed.

Lemma tangent_op k i n : ns !! i = Some n -> is_input n = false ->
  tangent env k d (Z.of_nat i) = wdot n (tangent env k d) (slopes n (operands V n)).
Proof. apply accumulated_op, slopes_local. Qed.

(** ** The invariant of the sweep *)
Definition weight (k : nat) (idx i : nat) : R :=
  if (i <? idx)%nat || match ns !! i with Some n => is_input n | None => false end
  then tangent env k d (Z.of_nat i) else 0%R.

(** The adjoints not yet swept, and those of the inputs, times the tangents. *)
Definition pending (k idx : nat) (A : Z -> R) : R := rsum (fun i => weight k idx i * A (Z.of_nat i))%R (length ns).

Lemma pending_upd k idx A i x : (i < idx)%nat -> (i < length ns)%nat ->
  pending k idx (upd A (Z.of_nat i) (A (Z.of_nat i) + x)%R) = (pending k idx A + x * tangent env k d (Z.of_nat i))%R.
Proof.
  intros Hi Hl. unfold pending.
  rewrite (rsum_change _ (fun j => weight k idx j * A (Z.of_nat j))%R _ i Hl).
  - unfold upd at 1. rewrite Z.eqb_refl. unfold weight. destruct (Nat.ltb_spec i idx); [|lia]. cbn. lra.
  - intros j Hj Hne. unfold upd. destruct (Z.eqb_spec (Z.of_nat j) (Z.of_nat i)); [lia|done].
Qed.

Lemma pending_push k idx n g ws : (idx <= length ns)%nat -> Forall (fun pw => 0 <= in_at n pw.1 < Z.of_nat idx) ws ->
  forall A, pending k idx (push n g A ws) = (pending k idx A + g * wdot n (tangent env k d) ws)%R.
Proof.
  intros Hl H. induction H as [|pw ws Hp _ IH]; intros A; [cbn; lra|].
  change (push n g A (pw :: ws)) with (push n g (bump n A pw.1 (g * pw.2)%R) ws).
  change (wdot n (tangent env k d) (pw :: ws)) with (pw.2 * tangent env k d (in_at n pw.1) + wdot n (tangent env k d) ws)%R.
  rewrite IH. unfold bump. replace (in_at n pw.1) with (Z.of_nat (Z.to_nat (in_at n pw.1))) at 1 2 by lia.
  rewrite pending_upd by lia. rewrite Z2Nat.id by lia. lra.
Qed.

(** Sweeping one node moves its adjoint to its operands. *)
Lemma pending_step k i n A : ns !! i = Some n ->
  pending k i (push n (A (Z.of_nat i)) A (slopes n (operands V n))) = pending k (S i) A.
Proof.
  intros Hi. pose proof (lookup_lt_Some _ _ _ Hi). rewrite pending_push; [|lia|].
  2:{ eapply Forall_impl; [apply slopes_arity|]. intros pw Hp. by eapply operand_range. }
  unfold pending at 2. rewrite (rsum_change _ (fun j => weight k i j * A (Z.of_nat j))%R _ i) by
    (try done; intros j Hj Hne; unfold weight; destruct (Nat.ltb_spec j (S i)), (Nat.ltb_spec j i); try lia; done).
  assert (W : weight k (S i) i = tangent env k d (Z.of_nat i)).
  { unfold weight. destruct (Nat.ltb_spec i (S i)); [done|lia]. }
  assert (W' : weight k i i = if is_input n then tangent env k d (Z.of_nat i) else 0%R).
  { unfold weight. rewrite Hi. destruct (Nat.ltb_spec i i); [lia|done]. }
  rewrite W, W'. fold (pending k i A). destruct (is_input n) eqn:E.
  - unfold slopes. unfold is_input, TraceOpKind.eqb in E. apply bool_decide_eq_true in E. rewrite E. cbn [wdot foldr]. lra.
  - rewrite (tangent_op k i n Hi E). lra.
Qed.

(** A node without an adjoint. *)
Lemma pending_skip k i n A : ns !! i = Some n -> A (Z.of_nat i) = 0%R -> pending k i A = pending k (S i) A.
Proof.
  intros Hi HA. apply rsum_ext. intros j Hj. unfold weight.
  destruct (decide (j = i)) as [->|Hne]; [rewrite HA; lra|].
  destruct (Nat.ltb_spec j i), (Nat.ltb_spec j (S i)); try lia; done.
Qed.
End Graph.
