(* ===== verification/AutodiffBackward.v ===== *)
(** * The nodes of the backward graph

    Steps 1 to 6 of [TraceDAG::backward]: the inputs copied, the forward nodes
    replayed, the outputs seeded, the sweep, the gradients copied out. Every
    gradient slot holds the upstream gradient times the tangent of the outputs
    in the direction of its input. *)
From Stdlib Require Import Reals Lra Sorting.Sorted.
From S2P Require Import Prelude Dtype Device Heap Tensor TraceDag TraceSpec Float32 Autodiff TraceMeaning AutodiffEmit AutodiffSweep AutodiffAdjoint.

(** The ids of the inputs of a graph, in order. *)
Definition input_ids (ns : list TraceNode) : list Z := map n_id (filter (fun n => is_input n = true) ns).

(** The nodes the upstream gradient is given to. *)
Definition outputs (d : TraceDAG) : list Z :=
  match map n_id (filter (fun n => n_live n = true) (nodes_ d)), last (nodes_ d) with
  | [], Some n => [n_id n]
  | ids, _ => ids
  end.

(** The inputs of the backward graph: those of the forward graph, and the
    upstream gradient. *)
Definition backward_env (d : TraceDAG) (env : nat -> R) (dy : R) (j : nat) : R :=
  if (j <? inputs_in (nodes_ d))%nat then env j else dy.

Section Back.
Context (env : nat -> R) (dy : R) (d : TraceDAG) (Hd : gradable d).

Abbreviation ns := (nodes_ d).
Abbreviation N := (zlen ns).
Abbreviation V := (value env d).
Abbreviation benv := (backward_env d env dy).
Abbreviation runs := (runs false).

Lemma runs_sweep m f2b anchor an idx : (idx <= length ns)%nat -> forall kk adj A g,
  24 * Z.of_nat idx <= kk -> slots_ok benv g f2b N V -> has benv g anchor an -> adj_ok benv g adj A ->
  runs kk (sweep m f2b anchor (rev (take idx ns)) adj) g
    (fun adj' g' => exists A', has benv g' anchor an /\ adj_ok benv g' adj' A' /\
       forall k, pending env d k 0 A' = pending env d k idx A).
Proof.
  induction idx as [|idx IH]; intros Hl kk adj A g Hk Hs Han HA.
  { rewrite take_0. apply runs_done; [lia|]. by exists A. }
  destruct (lookup_lt_is_Some_2 ns idx ltac:(lia)) as [n Hn].
  rewrite (take_S_r _ _ _ Hn), rev_app_distr. cbn [rev app sweep].
  rewrite (node_id d Hd _ _ Hn). pose proof (HA (Z.of_nat idx)) as HAi.
  destruct (adj !! Z.of_nat idx) as [s|].
  - eapply (runs_seq _ 24); [lia|].
    eapply (vjp_correct m benv f2b anchor N V an n); try eassumption; try lia.
    + eapply Forall_impl; [by apply (node_ins d Hd _ _ Hn)|]. cbn. unfold zlen. lia.
    + by eapply gr_arity.
    + by eapply gr_ops.
    + rewrite (node_id d Hd _ _ Hn). unfold zlen. lia.
    + intros Hi. rewrite (node_id d Hd _ _ Hn). by apply value_operands.
    + intros adj' g' X HA' _. clear HA. carry X.
      eapply runs_mono; [reflexivity|apply IH; [lia|lia|exact Hs|exact Han|exact HA']|].
      intros adj2 g2 _ (A2 & Ha2 & HA2 & Hp). exists A2. split_and!; [done|done|].
      intros k. rewrite Hp. by apply pending_step.
  - eapply runs_skip; [done|]. eapply runs_mono; [reflexivity|apply IH; [lia|lia|exact Hs|exact Han|exact HA]|].
    intros adj2 g2 _ (A2 & Ha2 & HA2 & Hp). exists A2. split_and!; [done|done|].
    intros k. rewrite Hp. by eapply pending_skip.
Qed.

(** ** The inputs *)

Lemma runs_input k buf dev r c g (Phi : Z -> TraceDAG -> Prop) : 1 <= k ->
  (forall i g', ext g g' -> has benv g' i (benv (inputs_in (nodes_ g))) ->
     inputs_in (nodes_ g') = S (inputs_in (nodes_ g)) -> Phi i g') ->
  runs k (add_node TraceOpKind.Input [] 0 buf dev FP32 r c 0) g Phi.
Proof.
  intros Hk HP Hg Hr. pose proof (zlen_nonneg (nodes_ g)) as H0.
  assert (Hi : i32 (zlen (nodes_ g)) = zlen (nodes_ g)) by (apply i32_small; unfold INT_MAX in *; lia).
  revert Hg Hr. eapply runs_node; [done|done| |].
  - intros _. rewrite Hi. constructor; cbn; [done|constructor|lia|done|done].
  - intros g' E X. rewrite Hi in E. apply HP; [done|by apply (has_snoc benv g g' _ E)|].
    rewrite E, inputs_in_app. unfold inputs_in at 2. rewrite filter_cons_True by done. cbn. lia.
Qed.

(** The inputs among the first [i] nodes have their slots. *)
Definition copied (g : TraceDAG) (f2b : gmap Z Z) (i : nat) : Prop :=
  forall j n, (j < i)%nat -> ns !! j = Some n -> is_input n = true ->
    exists s, f2b !! Z.of_nat j = Some s /\ has benv g s (V (Z.of_nat j)).

Lemma copied_ext g g' f2b i : copied g f2b i -> ext g g' -> copied g' f2b i.
Proof. intros H X j n Hj Hn Hi. destruct (H j n Hj Hn Hi) as (s & E & Hs). exists s. split; [done|]. by eapply has_ext. Qed.

Lemma inputs_before i n : ns !! i = Some n -> is_input n = true -> (inputs_in (take i ns) < inputs_in ns)%nat.
Proof.
  intros Hi Hn. rewrite <- (take_drop_middle ns i n Hi) at 2. rewrite inputs_in_app.
  change (n :: drop (S i) ns) with ([n] ++ drop (S i) ns). rewrite inputs_in_app.
  unfold inputs_in at 3. rewrite filter_cons_True by done. cbn. lia.
Qed.

Lemma runs_copy_inputs i : (i <= length ns)%nat -> forall kk f2b g,
  Z.of_nat (length ns - i) <= kk -> copied g f2b i -> inputs_in (nodes_ g) = inputs_in (take i ns) ->
  runs kk (copy_inputs (drop i ns) f2b) g
    (fun r g' => r.2 = input_ids (drop i ns) /\ copied g' r.1 (length ns) /\ inputs_in (nodes_ g') = inputs_in ns).
Proof.
  intros Hi. remember (length ns - i)%nat as k eqn:Ek. revert i Hi Ek.
  induction k as [|k IH]; intros i Hi Ek kk f2b g Hk Hc Hin.
  { rewrite drop_ge by lia. apply runs_done; [lia|]. cbn. assert (i = length ns) as -> by lia.
    rewrite firstn_all in Hin. done. }
  destruct (lookup_lt_is_Some_2 ns i ltac:(lia)) as [n Hn].
  rewrite (drop_S _ _ _ Hn). cbn [copy_inputs]. fold (is_input n).
  assert (HS : inputs_in (take (S i) ns) = (inputs_in (take i ns) + if is_input n then 1 else 0)%nat).
  { rewrite (take_S_r _ _ _ Hn), inputs_in_app. unfold inputs_in at 2. destruct (is_input n) eqn:E;
      [by rewrite filter_cons_True|by rewrite filter_cons_False by (by rewrite E)]. }
  unfold input_ids. destruct (is_input n) eqn:E.
  - rewrite filter_cons_True by done. cbn [map].
    eapply (runs_seq _ 1); [lia|]. apply runs_input; [lia|]. intros s g1 X Hs Hin1 _.
    eapply (runs_seq _ (kk - 1)); [lia|].
    eapply runs_mono; [reflexivity|apply (IH (S i) ltac:(lia) ltac:(lia)); [lia| |]|].
    + intros j n' Hj Hn' Hi'. rewrite (node_id d Hd _ _ Hn). destruct (decide (j = i)) as [->|Hne].
      * exists s. rewrite lookup_insert_eq. split; [done|]. assert (n' = n) as -> by congruence.
        rewrite (value_input env d Hd _ _ Hn E). pose proof (inputs_before _ _ Hn E).
        rewrite Hin in Hs. unfold backward_env in Hs at 2. destruct (Nat.ltb_spec (inputs_in (take i ns)) (inputs_in ns)); [done|lia].
      * rewrite lookup_insert_ne by lia. eapply copied_ext; [exact Hc|done|lia|done|done].
    + rewrite Hin1, HS. lia.
    + intros [f2b' ids] g2 _ (Hids & Hc2 & Hin2) _. cbn in Hids, Hc2. subst ids.
      apply runs_done; [lia|]. done.
  - rewrite filter_cons_False by (by rewrite E). apply (IH (S i)); [lia|lia|lia| |lia].
    intros j n' Hj Hn' Hi'. apply (Hc j n'); [|done..]. destruct (decide (j = i)) as [->|]; [congruence|lia].
Qed.

(** ** The forward nodes *)

Definition replayed (g : TraceDAG) (f2b : gmap Z Z) (i : nat) : Prop :=
  forall j n, ns !! j = Some n -> (j < i)%nat \/ is_input n = true ->
    exists s, f2b !! Z.of_nat j = Some s /\ has benv g s (V (Z.of_nat j)).

Lemma replayed_ext g g' f2b i : replayed g f2b i -> ext g g' -> replayed g' f2b i.
Proof. intros H X j n Hn Hi. destruct (H j n Hn Hi) as (s & E & Hs). exists s. split; [done|]. by eapply has_ext. Qed.

Lemma map_all_ok {S} g f2b (s0 : S) ids : Forall (fun i => exists s, f2b !! i = Some s /\ has benv g s (V i)) ids ->
  exists ss, map_all f2b ids s0 = (Ret ss, s0) /\ Forall2 (has benv g) ss (map V ids).
Proof.
  induction 1 as [|i ids (s & E & Hs) _ (ss & Ess & Hss)]; [by exists []|].
  exists (s :: ss). split; [|by constructor]. cbn. unfold map_at, mbind, st_bind. rewrite E. cbn. by rewrite Ess.
Qed.

Lemma runs_replay i : (i <= length ns)%nat -> forall kk f2b g,
  Z.of_nat (length ns - i) <= kk -> replayed g f2b i ->
  runs kk (replay (drop i ns) f2b) g (fun f2b' g' => replayed g' f2b' (length ns)).
Proof.
  intros Hi. remember (length ns - i)%nat as k eqn:Ek. revert i Hi Ek.
  induction k as [|k IH]; intros i Hi Ek kk f2b g Hk Hc.
  { rewrite drop_ge by lia. apply runs_done; [lia|]. by assert (i = length ns) as -> by lia. }
  destruct (lookup_lt_is_Some_2 ns i ltac:(lia)) as [n Hn].
  rewrite (drop_S _ _ _ Hn). cbn [replay]. fold (is_input n). destruct (is_input n) eqn:E.
  - apply (IH (S i)); [lia|lia|lia|]. intros j n' Hn' Hj. apply (Hc j n' Hn').
    destruct (decide (j = i)) as [->|]; [right; congruence|]. destruct Hj; [left; lia|by right].
  - destruct (map_all_ok g f2b g (n_inputs n)) as (ss & Ess & Hss).
    { eapply Forall_impl; [by apply (node_ins d Hd _ _ Hn)|]. intros j Hj. cbn in Hj.
      destruct (lookup_lt_is_Some_2 ns (Z.to_nat j)) as [nj Hnj]; [pose proof (lookup_lt_Some _ _ _ Hn); lia|].
      replace j with (Z.of_nat (Z.to_nat j)) by lia. apply (Hc _ _ Hnj). left. lia. }
    eapply runs_skip; [exact Ess|]. eapply (runs_seq _ 1); [lia|].
    change (add_node (n_op n) ss (n_scalar n) nullptr (n_device n) FP32 (n_rows n) (n_cols n) (n_scalar2 n))
      with (emit2 (mkMeta (n_device n) FP32 (n_rows n) (n_cols n)) (n_op n) ss (n_scalar n) (n_scalar2 n)).
    eapply runs_emit; [exact Hss|lia| | |intros [=]|].
    { intros Hop. unfold is_input, TraceOpKind.eqb in E. by rewrite Hop in E. }
    { apply Forall2_length in Hss. rewrite length_map in Hss. rewrite Hss. by eapply gr_arity. }
    intros s g' X Hs _ _. rewrite <- (value_op env d Hd _ _ Hn E) in Hs.
    apply (IH (S i)); [lia|lia|lia|]. intros j n' Hn' Hj. rewrite (node_id d Hd _ _ Hn).
    destruct (decide (j = i)) as [->|Hne]; [rewrite lookup_insert_eq; by exists s|].
    rewrite lookup_insert_ne by lia. eapply replayed_ext; [exact Hc|done|done|]. destruct Hj; [left; lia|by right].
Qed.

(** ** Seeds and gradients *)

Lemma seed_lookup g : forall live i, 
  foldl (fun adj n => <[n_id n := g]> adj) (∅ : gmap Z Z) live !! i = if decide (i ∈ map n_id live) then Some g else None.
Proof.
  induction live as [|n live IH] using rev_ind; intros i.
  { cbn [foldl map]. by rewrite lookup_empty, decide_False by (apply not_elem_of_nil). }
  rewrite foldl_snoc, map_app. cbn [map]. destruct (decide (n_id n = i)) as [<-|Hne].
  - rewrite lookup_insert_eq, decide_True; [done|]. apply elem_of_app. right. by apply list_elem_of_singleton.
  - rewrite lookup_insert_ne, IH by done. apply decide_ext. rewrite elem_of_app, list_elem_of_singleton.
    split; [by left|intros [?|?]; [done|by subst]].
Qed.

Definition seeds (i : Z) : R := if decide (i ∈ outputs d) then dy else 0%R.

Lemma seeds_good g s : has benv g s dy -> adj_ok benv g (seed_adjoints ns s) seeds.
Proof.
  intros Hs i. unfold seed_adjoints, seeds, outputs.
  destruct (filter (fun n => n_live n = true) ns) as [|n live] eqn:E.
  - cbn [map]. destruct (last ns) as [n|].
    + destruct (decide (n_id n = i)) as [<-|Hne].
      * rewrite lookup_singleton_eq, decide_True; [done|]. by apply list_elem_of_singleton.
      * rewrite lookup_singleton_ne by done. by rewrite decide_False by (by rewrite list_elem_of_singleton).
    + cbn [foldl]. by rewrite lookup_empty, decide_False by (apply not_elem_of_nil).
  - rewrite seed_lookup. change (match map n_id (n :: live) with [] => _ | _ => _ end) with (map n_id (n :: live)).
    by destruct (decide _).
Qed.

(** One gradient, copied out into a fresh slot. *)
Lemma runs_output m anchor an adj A i k g (Phi : Z -> TraceDAG -> Prop) :
  has benv g anchor an -> adj_ok benv g adj A -> 3 <= k ->
  (forall s g', ext g g' -> zlen (nodes_ g) <= s -> has benv g' s (A i) -> zlen (nodes_ g') = s + 1 ->
     (exists n, node_at (nodes_ g') s = Some n /\ n_op n = TraceOpKind.Copy) -> Phi s g') ->
  runs k (emit_output m anchor adj i) g Phi.
Proof.
  intros Han HA Hk HP. unfold emit_output.
  assert (Copied : forall k v c g1, 1 <= k -> ext g g1 -> has benv g1 c v -> v = A i -> runs k (add_op m TraceOpKind.Copy [c] 0) g1 Phi).
  { intros k' v c g1 Hk' X1 Hc -> Hg Hr. pose proof (zlen_nonneg (nodes_ g1)) as H0.
    assert (Hi : i32 (zlen (nodes_ g1)) = zlen (nodes_ g1)) by (apply i32_small; unfold INT_MAX in *; lia).
    revert Hg Hr. eapply runs_node; [done|done| |].
    - intros _. rewrite Hi. constructor; cbn; [done|by repeat constructor; eapply has_range|lia|done|done].
    - intros g' E X. apply HP; [by eapply ext_trans| | | |].
      + destruct X1 as [ms ->]. rewrite zlen_app. pose proof (zlen_nonneg ms). lia.
      + pose proof (has_snoc benv g1 g' _ E) as H. unfold eval_node, node_val in H. cbn [n_inputs] in H.
        rewrite (has_args benv g1 [c] [A i]) in H by (constructor; [exact Hc|constructor]). exact H.
      + rewrite E, zlen_app. done.
      + eexists. split; [rewrite E; apply node_at_last|done]. }
  pose proof (HA i) as Hi. pose proof (ext_refl g) as X0. destruct (adj !! i) as [s|].
  - eapply runs_skip; [done|]. eapply Copied; [lia|done|exact Hi|done].
  - unfold zero_const. eapply (runs_seq _ 2); [lia|]. eapply runs_const; [exact Han|lia|].
    intros z g1 X Hz _. eapply Copied; [lia|done|exact Hz|]. by rewrite real_0, Hi.
Qed.

(** The slots a run adds: increasing, copies, with these values. *)
Record out_slots_ok (g : TraceDAG) (ss : list Z) (vs : list R) : Prop := mkOutSlots {
  os_vals : Forall2 (has benv g) ss vs;
  os_sorted : StronglySorted Z.lt ss;
  os_copy : Forall (fun s => exists n, node_at (nodes_ g) s = Some n /\ n_op n = TraceOpKind.Copy) ss
}.

Lemma runs_outputs m anchor an adj A ids : forall k g, has benv g anchor an -> adj_ok benv g adj A ->
  3 * zlen ids <= k ->
  runs k (emit_outputs m anchor adj ids) g
    (fun ss g' => out_slots_ok g' ss (map A ids) /\ Forall (Z.le (zlen (nodes_ g))) ss).
Proof.
  induction ids as [|i ids IH]; intros k g Han HA Hk.
  { apply runs_done; [done|]. repeat constructor. }
  rewrite zlen_cons in Hk. pose proof (zlen_nonneg ids). cbn [emit_outputs].
  eapply (runs_seq _ 3); [lia|]. eapply runs_output; [exact Han|exact HA|lia|].
  intros s g1 X Hlo Hs Hz (n & Hn & Hop) _. carry X.
  eapply (runs_seq _ (k - 3)); [lia|]. eapply runs_mono; [reflexivity|apply IH; [exact Han|exact HA|lia]|].
  intros ss g2 X ([Hv Hso Hc] & Hge) _. apply runs_done; [lia|]. rewrite Hz in Hge.
  split; [constructor|]; cbn [map].
  - constructor; [by eapply has_ext|done].
  - constructor; [done|]. eapply Forall_impl; [exact Hge|]. intros. lia.
  - constructor; [|done]. exists n. split; [by eapply node_at_ext|done].
  - constructor; [done|]. eapply Forall_impl; [exact Hge|]. intros. lia.
Qed.
End Back.

(** ** The sum of the tangents of the outputs *)

Definition total (T : Z -> R) (l : list Z) : R := foldr (fun i acc => T i + acc)%R 0%R l.

Lemma rsum_members (T : Z -> R) c n : forall l, NoDup l -> Forall (fun i => 0 <= i < Z.of_nat n) l ->
  rsum (fun i => T (Z.of_nat i) * (if decide (Z.of_nat i ∈ l) then c else 0))%R n = (c * total T l)%R.
Proof.
  induction l as [|o l IH]; intros Hnd Hr.
  { cbn. rewrite rsum_zero; [lra|]. intros i _. rewrite decide_False by apply not_elem_of_nil. lra. }
  apply NoDup_cons in Hnd as [Ho Hnd]. apply Forall_cons in Hr as [Hro Hr].
  rewrite (rsum_change _ (fun i => T (Z.of_nat i) * (if decide (Z.of_nat i ∈ l) then c else 0))%R _ (Z.to_nat o)); [|lia|].
  - rewrite IH by done. rewrite Z2Nat.id by lia. rewrite decide_True by (by left). rewrite decide_False by done. change (total T (o :: l)) with (T o + total T l)%R. lra.
  - intros i Hi Hne. f_equal. apply decide_ext. rewrite elem_of_cons. split; [intros [Heq|?]; [lia|done]|by right].
Qed.

Lemma filter_ordinal {A} (P : A -> Prop) `{!forall x, Decision (P x)} (l : list A) k x : filter P l !! k = Some x ->
  exists i, l !! i = Some x /\ P x /\ length (filter P (take i l)) = k.
Proof.
  revert k. induction l as [|y l IH]; intros k Hk; [done|].
  destruct (decide (P y)) as [Hy|Hy].
  - rewrite filter_cons_True in Hk by done. destruct k as [|k].
    + injection Hk as ->. by exists 0%nat.
    + destruct (IH k Hk) as (i & Hi & Hx & Hki). exists (S i). split_and!; [done|done|]. cbn [take].
      rewrite filter_cons_True by done. cbn. by rewrite Hki.
  - rewrite filter_cons_False in Hk by done. destruct (IH k Hk) as (i & Hi & Hx & Hki). exists (S i). split_and!; [done|done|].
    cbn [take]. by rewrite filter_cons_False.
Qed.

Section Assembly.
Context (env : nat -> R) (dy : R) (d : TraceDAG) (Hd : gradable d).

Abbreviation ns := (nodes_ d).
Abbreviation benv := (backward_env d env dy).

Lemma outputs_range : NoDup (outputs d) /\ Forall (fun i => 0 <= i < Z.of_nat (length ns)) (outputs d).
Proof.
  assert (Hids : map n_id ns = map Z.of_nat (seq 0 (length ns))).
  { apply list_eq. intros i. rewrite !list_lookup_fmap. destruct (ns !! i) as [n|] eqn:E.
    - rewrite lookup_seq_lt by (by eapply lookup_lt_Some). cbn. f_equal. by apply (node_id d Hd).
    - by rewrite lookup_seq_ge by (by apply lookup_ge_None). }
  assert (Hr : forall n, n ∈ ns -> 0 <= n_id n < Z.of_nat (length ns)).
  { intros n (i & Hi)%list_elem_of_lookup. rewrite (node_id d Hd _ _ Hi). apply lookup_lt_Some in Hi. lia. }
  assert (Hl : NoDup (map n_id (filter (fun n => n_live n = true) ns)) /\ Forall (fun i => 0 <= i < Z.of_nat (length ns)) (map n_id (filter (fun n => n_live n = true) ns))).
  { split.
    - apply NoDup_fmap_2_strong.
      + intros n1 n2 [_ (i & Hi)%list_elem_of_lookup]%list_elem_of_filter [_ (j & Hj)%list_elem_of_lookup]%list_elem_of_filter He.
        rewrite (node_id d Hd _ _ Hi), (node_id d Hd _ _ Hj) in He. assert (i = j) as -> by lia. congruence.
      + apply NoDup_filter, (NoDup_fmap_1 n_id). change (NoDup (map n_id ns)). rewrite Hids.
        apply NoDup_fmap; [intros ???; lia|apply NoDup_seq].
    - apply Forall_map, Forall_forall. intros n Hn. apply list_elem_of_filter in Hn as [_ Hn]. by apply Hr. }
  unfold outputs. destruct (map n_id (filter (fun n => n_live n = true) ns)) as [|i ids]; [|done].
  destruct (last ns) as [n|] eqn:E; [|done]. split; [apply NoDup_singleton|].
  constructor; [|done]. apply Hr. rewrite last_lookup in E. by eapply list_elem_of_lookup_2.
Qed.

(** The adjoint of the [k]-th input, after the sweep. *)
Lemma input_adjoint k i A : input_ids ns !! k = Some i ->
  (forall k, pending env d k 0 A = pending env d k (length ns) (seeds dy d)) ->
  A i = (dy * total (tangent env k d) (outputs d))%R.
Proof.
  intros Hk Hp. unfold input_ids in Hk. rewrite list_lookup_fmap in Hk.
  destruct (filter (fun n => is_input n = true) ns !! k) as [n|] eqn:E; [|done]. injection Hk as <-.
  apply filter_ordinal in E as (j & Hj & Hn & Hjk). fold (inputs_in (take j ns)) in Hjk.
  pose proof (lookup_lt_Some _ _ _ Hj) as Hlt. rewrite (node_id d Hd _ _ Hj). specialize (Hp k).
  unfold pending in Hp. rewrite (rsum_single _ _ j) in Hp; [|done|].
  - unfold weight at 1 in Hp. rewrite Hj, Hn in Hp. rewrite orb_true_r in Hp.
    rewrite (tangent_input env d k j n Hj Hn), Hjk, Nat.eqb_refl, Rmult_1_l in Hp. rewrite Hp.
    destruct outputs_range as [Hnd Hr]. rewrite <- (rsum_members _ _ (length ns)) by done.
    apply rsum_ext. intros i Hi. unfold weight. destruct (Nat.ltb_spec i (length ns)); [done|lia].
  - intros i Hi Hne. unfold weight. destruct (ns !! i) as [ni|] eqn:Ei; [|cbn; lra]. cbn [Nat.ltb Nat.leb orb].
    destruct (is_input ni) eqn:Eni; [|lra]. rewrite (tangent_input env d k i ni Ei Eni).
    destruct (Nat.eqb_spec (inputs_in (take i ns)) k) as [Heq|]; [|lra]. exfalso. subst k.
    assert (Hmono : forall a b m, (a < b)%nat -> ns !! a = Some m -> is_input m = true ->
      (inputs_in (take a ns) < inputs_in (take b ns))%nat).
    { intros a b m' Hab Ha Hm. assert (E : take b ns = take (S a) ns ++ take (b - S a) (drop (S a) ns)).
      { rewrite take_take_drop. f_equal. lia. }
      rewrite E, (take_S_r _ _ _ Ha), !inputs_in_app. unfold inputs_in at 3. rewrite filter_cons_True by done. cbn. lia. }
    destruct (Nat.lt_trichotomy i j) as [?|[?|?]]; [|lia|];
      [pose proof (Hmono i j ni ltac:(lia) Ei Eni)|pose proof (Hmono j i n ltac:(lia) Hj Hn)]; lia.
Qed.

(** The inputs a call asks the gradients of. *)
Definition wanted (target : Z) : list Z :=
  if target >=? 0 then match input_ids ns !! Z.to_nat target with Some i => [i] | None => [] end else input_ids ns.

(** The gradients of the wanted inputs are in the slots returned. *)
Definition gradients (A : Z -> R) : Prop :=
  forall k i, input_ids ns !! k = Some i -> A i = (dy * total (tangent env k d) (outputs d))%R.

Lemma length_input_ids : zlen (input_ids ns) <= zlen ns.
Proof. unfold zlen, input_ids. rewrite length_map. pose proof (length_filter (fun n => is_input n = true) ns). lia. Qed.

Lemma first_copied first ids : input_ids ns = first :: ids ->
  exists j n, ns !! j = Some n /\ is_input n = true /\ first = Z.of_nat j.
Proof.
  intros H. assert (Hf : first ∈ input_ids ns) by (rewrite H; by left).
  unfold input_ids in Hf. apply list_elem_of_fmap in Hf as (n & -> & [Hn (j & Hj)%list_elem_of_lookup]%list_elem_of_filter).
  exists j, n. split_and!; [done|done|]. by apply (node_id d Hd).
Qed.

Lemma runs_backward_nodes target : input_ids ns <> [] -> zlen ns <= INT_MAX -> target < zlen (input_ids ns) ->
  runs false (30 * zlen ns + 1) (backward_nodes d target) empty_dag
    (fun ss g => exists A, out_slots_ok env dy d g ss (map A (wanted target)) /\ gradients A).
Proof.
  intros Hne Hfit Ht. unfold backward_nodes. pose proof length_input_ids as Hli. pose proof (zlen_nonneg ns) as H0.
  eapply (runs_seq _ (zlen ns)); [lia|].
  eapply runs_mono; [reflexivity|apply (runs_copy_inputs env dy d Hd 0); [lia|unfold zlen; lia|intros j n Hj; lia|done]|].
  intros [f2b primal] g _ (Hids & Hc & Hin) _. cbn [fst snd] in *. rewrite drop_0 in Hids.
  destruct primal as [|first ids]; [by rewrite <- Hids in Hne|].
  rewrite Hids. rewrite i32_small by (pose proof (zlen_nonneg (input_ids ns)); lia).
  destruct (Z.geb_spec target (zlen (input_ids ns))); [lia|].
  destruct (first_copied first ids (eq_sym Hids)) as (j & n & Hj & Hn & ->).
  destruct (Hc j n (lookup_lt_Some _ _ _ Hj) Hj Hn) as (an & Ean & Han).
  eapply (runs_seq _ 1); [lia|]. apply (runs_input env dy d); [lia|]. intros s g1 X Hs _ _.
  rewrite Hin in Hs. unfold backward_env in Hs at 2. rewrite Nat.ltb_irrefl in Hs.
  eapply runs_skip; [unfold map_at; by rewrite Ean|].
  assert (Hr : replayed env dy d g f2b 0).
  { intros j' n' Hj' [|Hi']; [lia|]. by apply (Hc j' n' (lookup_lt_Some _ _ _ Hj')). }
  apply (fun H => replayed_ext _ _ _ _ _ _ _ H X) in Hr. carry X.
  eapply (runs_seq _ (zlen ns)); [lia|].
  eapply runs_mono; [reflexivity|apply (runs_replay env dy d Hd 0); [lia|unfold zlen; lia|exact Hr]|].
  intros f2b' g2 X Hr2 _. carry X.
  eapply (runs_seq _ (24 * zlen ns)); [lia|].
  pose proof (fun m f2b anchor an => runs_sweep env dy d Hd m f2b anchor an (length ns) (le_n _)) as Hsw.
  rewrite firstn_all in Hsw.
  eapply runs_mono; [reflexivity|eapply Hsw; [unfold zlen; lia| |exact Han|by apply (seeds_good env dy d)]|].
  { intros i Hi. destruct (lookup_lt_is_Some_2 ns (Z.to_nat i)) as [ni Hni]; [unfold zlen in Hi; lia|].
    replace i with (Z.of_nat (Z.to_nat i)) by lia. apply (Hr2 _ ni Hni). left. by eapply lookup_lt_Some. }
  intros adj g3 _ (A & Han3 & HA & Hp) _.
  assert (HG : gradients A) by (intros k i Hi; by apply input_adjoint).
  unfold wanted. destruct (Z.geb_spec target 0) as [Hpos|Hneg].
  - destruct (lookup_lt_is_Some_2 (input_ids ns) (Z.to_nat target)) as [i Hi]; [unfold zlen in *; lia|].
    eapply runs_skip; [unfold elem; by rewrite Hi|]. rewrite Hi.
    eapply (runs_seq _ 3); [lia|]. eapply runs_output; [exact Han3|exact HA|lia|].
    intros s' g4 X _ Hs' _ Hcp _. apply runs_done; [lia|]. exists A. split; [|done].
    constructor; [constructor; [exact Hs'|constructor]|by repeat constructor|constructor; [exact Hcp|constructor]].
  - eapply runs_mono; [|eapply (runs_outputs env dy d); [exact Han3|exact HA|reflexivity]|].
    + lia.
    + intros ss g4 _ [Hss _]. by exists A.
Qed.
End Assembly.
