(* ===== verification/AutodiffPrune.v ===== *)
(** * Pruning

    Step 7 of [TraceDAG::backward]: the worklist ends, it keeps the inputs and
    exactly what the gradients need, and the pruned graph gives every kept node
    the value it had. *)
From Stdlib Require Import Reals Sorting.Sorted.
From stdpp Require Import sorting.
From S2P Require Import Prelude Dtype Device Heap Tensor TraceDag TraceSpec Float32 Autodiff TraceMeaning AutodiffEmit.

(** ** Nodes that compute the same *)
Definition same_core (n n' : TraceNode) : Prop :=
  n_id n' = n_id n /\ n_op n' = n_op n /\ n_inputs n' = n_inputs n /\ n_scalar n' = n_scalar n /\ n_scalar2 n' = n_scalar2 n.

Lemma inputs_in_core ns ns' : Forall2 same_core ns ns' -> inputs_in ns' = inputs_in ns.
Proof.
  unfold inputs_in, is_input. induction 1 as [|n n' ns ns' (_ & Ho & _) _ IH]; [done|].
  destruct (decide (TraceOpKind.eqb (n_op n) TraceOpKind.Input = true)) as [E|E].
  - rewrite !filter_cons_True by (by rewrite ?Ho). cbn. by rewrite IH.
  - rewrite !filter_cons_False by (by rewrite ?Ho). done.
Qed.

Lemma evals_core env ns ns' : Forall2 same_core ns ns' -> evals env ns' = evals env ns.
Proof.
  revert ns'. induction ns as [|n ns IH] using rev_ind; intros ns' H; [by apply Forall2_nil_inv_l in H as ->|].
  apply Forall2_app_inv_l in H as (ms & ms' & H & Hn & ->).
  apply Forall2_cons_inv_l in Hn as (n' & ? & (_ & Ho & Hi & Hs & Hs2) & Hnil & ->).
  apply Forall2_nil_inv_l in Hnil as ->. rewrite !evals_snoc, (IH _ H). f_equal. f_equal.
  unfold eval_node, is_input, node_val. by rewrite Ho, Hi, Hs, Hs2, (inputs_in_core _ _ H).
Qed.

Lemma node_at_core ns ns' i n : Forall2 same_core ns ns' -> node_at ns i = Some n ->
  exists n', node_at ns' i = Some n' /\ same_core n n'.
Proof.
  unfold node_at. destruct (i <? 0); [done|]. intros H Hn.
  destruct (Forall2_lookup_l _ _ _ _ _ H Hn) as (n' & ? & ?). eauto.
Qed.

Lemma guard_core ns ns' i : Forall2 same_core ns ns' -> guard ns i -> guard ns' i.
Proof.
  intros H (n & r & k & ks & H1 & H2 & H3 & H4 & H5 & H6).
  destruct (node_at_core _ _ _ _ H H1) as (n' & ? & _ & E1 & E2 & E3 & _).
  destruct (node_at_core _ _ _ _ H H5) as (r' & ? & _ & E4 & _).
  exists n', r', k, ks. split_and!; congruence.
Qed.

Lemma all_sound_core low ns ns' : Forall2 same_core ns ns' -> all_sound low ns -> all_sound low ns'.
Proof.
  intros H Hs i n' Hi. destruct (Forall2_lookup_r _ _ _ _ _ H Hi) as (n & Hn & (E0 & E1 & E2 & _)).
  pose proof (Forall2_take _ _ _ i H) as Ht. assert (Hz : zlen (take i ns') = zlen (take i ns)).
  { unfold zlen. by rewrite (Forall2_length _ _ _ Ht). }
  destruct (Hs i n Hn) as [Hid Hin Har Hleaf Hlow]. constructor; rewrite ?Hz, ?E0, ?E1, ?E2; try done.
  intros Hl Hop. destruct (Hlow Hl Hop) as (? & j & ? & ?). split; [done|]. exists j. split; [done|]. by eapply guard_core.
Qed.

Lemma has_core env d d' i v : Forall2 same_core (nodes_ d) (nodes_ d') -> has env d i v -> has env d' i v.
Proof. intros H [H0 Hi]. split; [done|]. by rewrite (evals_core _ _ _ H). Qed.

Lemma core_refl ns : Forall2 same_core ns ns.
Proof. induction ns; constructor; [by repeat split|done]. Qed.

Lemma core_trans ns ns' ns'' : Forall2 same_core ns ns' -> Forall2 same_core ns' ns'' -> Forall2 same_core ns ns''.
Proof.
  intros H. revert ns''. induction H as [|n n' ns ns' (?&?&?&?&?) _ IH]; intros ns'' H'.
  - by apply Forall2_nil_inv_l in H' as ->.
  - apply Forall2_cons_inv_l in H' as (n'' & ms & (?&?&?&?&?) & ? & ->). constructor; [|by apply IH].
    unfold same_core. split_and!; congruence.
Qed.

Lemma core_map (f : TraceNode -> TraceNode) ns : (forall n, same_core n (f n)) -> Forall2 same_core ns (map f ns).
Proof. intros H. induction ns; constructor; done. Qed.

Lemma core_alter (f : TraceNode -> TraceNode) i ns : (forall n, same_core n (f n)) -> Forall2 same_core ns (alter f i ns).
Proof.
  intros H. apply Forall2_same_length_lookup. split; [by rewrite length_alter|].
  intros j n n' Hn Hn'. destruct (decide (i = j)) as [->|Hne].
  - rewrite list_lookup_alter_eq, Hn in Hn'. by injection Hn' as <-.
  - rewrite list_lookup_alter_ne in Hn' by done. assert (n' = n) as -> by congruence. by repeat split.
Qed.

(** A relation to a node that does not see its outputs. *)
Lemma alter_rel (R : TraceNode -> TraceNode -> Prop) (f : TraceNode -> TraceNode) i ns ms : (forall n n', R n n' -> R n (f n')) ->
  Forall2 R ns ms -> Forall2 R ns (alter f i ms).
Proof.
  intros Hf H. revert i. induction H as [|n n' ns ms Hn Hns IH]; intros i; [constructor|].
  destruct i as [|i]; cbn; constructor; [by apply Hf|done|done|apply IH].
Qed.

Lemma push_rel (R : TraceNode -> TraceNode -> Prop) ns ns' : (forall o n n', R n n' -> R n (set_outputs o n')) ->
  forall ms, Forall2 R ns ms -> Forall2 R ns (foldl push_uses ms ns').
Proof.
  intros HR. induction ns' as [|n ns' IH]; intros ms H; [done|]. cbn. apply IH. unfold push_uses.
  generalize (n_inputs n). intros ids. revert ms H. induction ids as [|i ids IH2]; intros ms H; [done|]. cbn. apply IH2.
  unfold push_use. destruct (_ && _)%bool; [|done]. apply alter_rel; [intros; by apply HR|done].
Qed.

Lemma core_push ns ns' ms : Forall2 same_core ns ms -> Forall2 same_core ns (foldl push_uses ms ns').
Proof. apply push_rel. by intros o n n' (? & ? & ? & ? & ?). Qed.

(** [relink] changes the outputs only. *)
Lemma relink_outputs d : Forall2 (fun n n' => exists o, n' = set_outputs o n) (nodes_ d) (nodes_ (relink d)).
Proof.
  unfold relink. cbn [nodes_]. apply push_rel; [intros o n n' (o' & ->); by exists o|].
  induction (nodes_ d) as [|n ns IH]; constructor; [by exists []|done].
Qed.

Lemma core_relink d : Forall2 same_core (nodes_ d) (nodes_ (relink d)).
Proof. unfold relink. cbn [nodes_]. apply core_push, core_map. by repeat split. Qed.

(** ** The worklist *)

(** What the gradients need. *)
Inductive needed (d : TraceDAG) (ss : list Z) : Z -> Prop :=
  | needed_out s : s ∈ ss -> needed d ss s
  | needed_in i n j : needed d ss i -> node_at (nodes_ d) i = Some n -> j ∈ n_inputs n -> needed d ss j.

Section Mark.
Context (d : TraceDAG) (Hd : good false d) (ss : list Z) (Hss : Forall (fun s => 0 <= s < zlen (nodes_ d)) ss).

Abbreviation ns := (nodes_ d).

Definition in_graph (i : Z) : Prop := 0 <= i < zlen ns.
Definition is_kept (keep : list bool) (i : Z) : Prop := kept keep i = Some true.

(** The operands of the nodes still to be kept. *)
Fixpoint open_inputs (ms : list TraceNode) (keep : list bool) : nat :=
  match ms, keep with
  | n :: ms, b :: keep => ((if b then 0 else length (n_inputs n)) + open_inputs ms keep)%nat
  | _, _ => 0%nat
  end.

Lemma open_insert ms keep i n : keep !! i = Some false -> ms !! i = Some n -> 
  (open_inputs ms (<[i := true]> keep) + length (n_inputs n) = open_inputs ms keep)%nat.
Proof.
  revert keep i. induction ms as [|m ms IH]; intros keep i Hk Hn; [done|].
  destruct keep as [|b keep]; [done|]. destruct i as [|i].
  - injection Hk as ->. injection Hn as ->. change (<[0%nat:=true]> (false :: keep)) with (true :: keep). cbn. lia.
  - cbn in Hk, Hn. change (<[S i:=true]> (b :: keep)) with (b :: <[i:=true]> keep). cbn. pose proof (IH _ _ Hk Hn). lia.
Qed.

Record marking (keep : list bool) (stack : list Z) : Prop := mkMarking {
  mk_len : length keep = length ns;
  mk_stack : Forall in_graph stack;
  mk_need : Forall (needed d ss) stack;
  mk_inputs : forall i n, node_at ns i = Some n -> n_op n = TraceOpKind.Input -> is_kept keep i;
  mk_only : forall i n, node_at ns i = Some n -> is_kept keep i -> n_op n = TraceOpKind.Input \/ needed d ss i;
  mk_outs : forall s, s ∈ ss -> is_kept keep s \/ s ∈ stack;
  mk_closed : forall i n j, node_at ns i = Some n -> is_kept keep i -> j ∈ n_inputs n -> is_kept keep j \/ j ∈ stack
}.

Lemma kept_total keep i : length keep = length ns -> in_graph i -> exists b, kept keep i = Some b.
Proof.
  intros Hl [H0 H1]. unfold kept. destruct (Z.ltb_spec i 0); [lia|].
  apply lookup_lt_is_Some_2. rewrite Hl. unfold zlen in H1. lia.
Qed.

Lemma kept_insert keep i j b : in_graph i -> length keep = length ns ->
  kept (<[Z.to_nat i := b]> keep) j = if decide (j = i) then Some b else kept keep j.
Proof.
  intros [H0 H1] Hl. unfold kept. destruct (decide (j = i)) as [->|Hne].
  - destruct (Z.ltb_spec i 0); [lia|]. apply list_lookup_insert_eq. rewrite Hl. unfold zlen in H1. lia.
  - destruct (Z.ltb_spec j 0); [done|]. apply list_lookup_insert_ne. lia.
Qed.

(** The operands that are pushed. *)
Lemma push_all keep ids : length keep = length ns -> Forall in_graph ids -> forall stack,
  exists added, foldl (fun r i => s ← r; match kept keep i with Some true => Ret s | Some false => Ret (i :: s) | None => Undef end)
      (Ret stack) ids = Ret (added ++ stack) /\
    (length added <= length ids)%nat /\ (forall j, j ∈ added -> j ∈ ids) /\ (forall j, j ∈ ids -> is_kept keep j \/ j ∈ added).
Proof.
  intros Hl H. induction H as [|i ids Hi _ IH]; intros stack.
  { exists []. split_and!; [done|done|done|]. by intros j []%not_elem_of_nil. }
  destruct (kept_total keep i Hl Hi) as [b Eb]. cbn [foldl]. unfold mbind, res_bind at 2. rewrite Eb. destruct b.
  - destruct (IH stack) as (added & E & Hlen & Hin & Hall). exists added. split_and!; [exact E|cbn; lia| |].
    + intros j Hj. right. by apply Hin.
    + intros j [->|Hj]%elem_of_cons; [by left|by apply Hall].
  - destruct (IH (i :: stack)) as (added & E & Hlen & Hin & Hall). exists (added ++ [i]). split_and!.
    + rewrite <- app_assoc. exact E.
    + rewrite length_app. cbn. lia.
    + intros j [Hj|Hj%list_elem_of_singleton]%elem_of_app; [right; by apply Hin|subst; by left].
    + intros j [->|Hj]%elem_of_cons; [right; apply elem_of_app; right; by left|].
      destruct (Hall j Hj); [by left|right; apply elem_of_app; by left].
Qed.

Lemma node_of i : in_graph i -> exists n, node_at ns i = Some n /\ Forall in_graph (n_inputs n).
Proof.
  intros [H0 H1]. unfold node_at. destruct (Z.ltb_spec i 0); [lia|].
  destruct (lookup_lt_is_Some_2 ns (Z.to_nat i)) as [n Hn]; [unfold zlen in H1; lia|].
  exists n. split; [done|]. destruct (good_wf _ _ Hd _ _ Hn) as [_ Hin].
  apply Forall_forall. intros j Hj. rewrite Forall_forall in Hin. specialize (Hin j Hj). unfold in_graph. lia.
Qed.

(** The worklist ends with everything needed, and nothing else, kept. *)
Lemma mark_kept_ok fuel : forall stack keep, marking keep stack ->
  (length stack + open_inputs ns keep <= fuel)%nat ->
  exists keep', mark_kept fuel d stack keep = Ret keep' /\ marking keep' [].
Proof.
  induction fuel as [|fuel IH]; intros stack keep Hm Hf.
  { destruct stack; [|cbn in Hf; lia]. by exists keep. }
  destruct stack as [|cur stack]; [by exists keep|]. cbn [mark_kept].
  destruct Hm as [Hlen [Hc Hst]%Forall_cons [Nc Nst]%Forall_cons Hinp Honly Hout Hclo]. pose proof Hc as [H0 H1].
  destruct (Z.ltb_spec cur 0); [lia|]. destruct (kept_total keep cur Hlen Hc) as [b Eb]. rewrite Eb.
  destruct b.
  { apply IH; [|cbn in Hf; lia]. constructor; try done.
    - intros s Hs. destruct (Hout s Hs) as [?|[->|?]%elem_of_cons]; [by left|by left|by right].
    - intros i n j Hi Hk Hj. destruct (Hclo i n j Hi Hk Hj) as [?|[->|?]%elem_of_cons]; [by left|by left|by right]. }
  destruct (node_of cur Hc) as (n & Hn & Hins). rewrite Hn.
  set (keep' := <[Z.to_nat cur := true]> keep).
  assert (Hlen' : length keep' = length ns) by (unfold keep'; by rewrite length_insert).
  assert (Hk' : forall j, kept keep' j = if decide (j = cur) then Some true else kept keep j)
    by (intros j; by apply kept_insert).
  assert (Hmono : forall j, is_kept keep j -> is_kept keep' j) by (intros j; unfold is_kept; rewrite Hk'; by destruct (decide _)).
  destruct (push_all keep' (n_inputs n) Hlen' Hins stack) as (added & E & Hla & Hain & Hall).
  rewrite E. apply IH.
  - constructor; [done| | |by eauto| | |].
    + apply Forall_app. split; [|done]. apply Forall_forall. intros j Hj. rewrite Forall_forall in Hins. by apply Hins, Hain.
    + apply Forall_app. split; [|done]. apply Forall_forall. intros j Hj. eapply needed_in; [exact Nc|exact Hn|by apply Hain].
    + intros i m Hi Hk. unfold is_kept in Hk. rewrite Hk' in Hk. destruct (decide (i = cur)) as [->|]; [by right|by apply (Honly i m)].
    + intros s Hs. destruct (Hout s Hs) as [?|[->|?]%elem_of_cons]; [left; by apply Hmono| |right; apply elem_of_app; by right].
      left. unfold is_kept. rewrite Hk'. by rewrite decide_True.
    + intros i m j Hi Hk Hj. unfold is_kept in Hk. rewrite Hk' in Hk. destruct (decide (i = cur)) as [->|Hne].
      * assert (m = n) as -> by congruence. destruct (Hall j Hj); [by left|right; apply elem_of_app; by left].
      * destruct (Hclo i m j Hi Hk Hj) as [?|[->|?]%elem_of_cons]; [left; by apply Hmono| |right; apply elem_of_app; by right].
        left. unfold is_kept. rewrite Hk'. by rewrite decide_True.
  - assert (Hn' : ns !! Z.to_nat cur = Some n) by (unfold node_at in Hn; by destruct (cur <? 0)).
    assert (Hf' : keep !! Z.to_nat cur = Some false) by (unfold kept in Eb; by destruct (cur <? 0)).
    pose proof (open_insert ns keep _ _ Hf' Hn') as Ho. fold keep' in Ho. rewrite length_app. cbn in Hf. lia.
Qed.

Definition keep0 : list bool := map (fun n => TraceOpKind.eqb (n_op n) TraceOpKind.Input) ns.

Lemma keep0_at i n : node_at ns i = Some n -> kept keep0 i = Some (TraceOpKind.eqb (n_op n) TraceOpKind.Input).
Proof. unfold node_at, kept. destruct (i <? 0); [done|]. intros H. unfold keep0. by rewrite list_lookup_fmap, H. Qed.

Lemma marking_start : marking keep0 (rev ss).
Proof.
  constructor.
  - unfold keep0. by rewrite length_map.
  - by apply Forall_rev.
  - apply Forall_rev, Forall_forall. intros s Hs. by apply needed_out.
  - intros i n Hn Hop. unfold is_kept. rewrite (keep0_at _ _ Hn), Hop. done.
  - intros i n Hn Hk. unfold is_kept in Hk. rewrite (keep0_at _ _ Hn) in Hk. left. injection Hk as Hk.
    unfold TraceOpKind.eqb in Hk. by apply bool_decide_eq_true in Hk.
  - intros s Hs. right. apply list_elem_of_In, in_rev; rewrite rev_involutive. by apply list_elem_of_In.
  - intros i n j Hn Hk Hj. unfold is_kept in Hk. rewrite (keep0_at _ _ Hn) in Hk. injection Hk as Hk.
    unfold TraceOpKind.eqb in Hk. apply bool_decide_eq_true in Hk.
    unfold node_at in Hn. destruct (i <? 0); [done|]. destruct (Hd _ _ Hn) as [_ _ _ Hleaf _].
    rewrite (Hleaf Hk) in Hj. by apply not_elem_of_nil in Hj.
Qed.
End Mark.

(** ** The copy of the kept nodes *)
Section Copy.
Context (d : TraceDAG) (Hd : good false d) (Hfit : zlen (nodes_ d) <= INT_MAX).
Context (ss : list Z) (keep : list bool) (Hm : marking d ss keep []).

Abbreviation ns := (nodes_ d).

(** The first [i] nodes are copied. *)
Record copied_upto (i : nat) (pm : gmap Z Z) (p : TraceDAG) : Prop := mkCopied {
  cu_good : good false p;
  cu_len : zlen (nodes_ p) <= Z.of_nat i;
  cu_map : forall j n, (j < i)%nat -> ns !! j = Some n -> is_kept keep (Z.of_nat j) ->
    exists s n', pm !! Z.of_nat j = Some s /\ node_at (nodes_ p) s = Some n' /\ n_op n' = n_op n /\
      Forall2 (fun t j => pm !! j = Some t) (n_inputs n') (n_inputs n) /\
      forall env, has env p s (value env d (Z.of_nat j));
  cu_dom : forall j s, pm !! j = Some s -> 0 <= j < Z.of_nat i /\ 0 <= s < zlen (nodes_ p);
  cu_kept : forall j s, pm !! j = Some s -> is_kept keep j;
  cu_mono : forall j j' s s', pm !! j = Some s -> pm !! j' = Some s' -> j < j' -> s < s';
  cu_inputs : inputs_in (nodes_ p) = inputs_in (take i ns);
  cu_need : forall t n, node_at (nodes_ p) t = Some n -> exists j, pm !! j = Some t /\ is_kept keep j
}.

Lemma map_all_copied {S} i n pm p (s0 : S) : copied_upto i pm p -> ns !! i = Some n -> is_kept keep (Z.of_nat i) ->
  exists ts, map_all pm (n_inputs n) s0 = (Ret ts, s0) /\
    Forall2 (fun t j => pm !! j = Some t /\ forall env, has env p t (value env d j)) ts (n_inputs n).
Proof.
  intros Hc Hn Hk. destruct (good_wf _ _ Hd _ _ Hn) as [_ Hin].
  assert (Hn' : node_at ns (Z.of_nat i) = Some n) by (unfold node_at; destruct (Z.ltb_spec (Z.of_nat i) 0); [lia|by rewrite Nat2Z.id]).
  assert (Hall : Forall (fun j => 0 <= j < Z.of_nat i /\ is_kept keep j) (n_inputs n)).
  { apply Forall_forall. intros j Hj. rewrite Forall_forall in Hin. split; [by apply Hin|].
    destruct (mk_closed _ _ _ _ Hm _ _ j Hn' Hk Hj) as [?|[]%not_elem_of_nil]; done. }
  clear Hin Hn' Hk. induction Hall as [|j js [Hr Hk] _ (ts & E & Hts)]; [by exists []|].
  destruct (lookup_lt_is_Some_2 ns (Z.to_nat j)) as [nj Hnj]; [pose proof (lookup_lt_Some _ _ _ Hn); lia|].
  destruct (cu_map _ _ _ Hc (Z.to_nat j) nj ltac:(lia) Hnj) as (t & n' & Et & _ & _ & _ & Hv); [by rewrite Z2Nat.id by lia|].
  rewrite Z2Nat.id in Et, Hv by lia. exists (t :: ts). split; [|by constructor].
  cbn. unfold map_at, mbind, st_bind. rewrite Et. cbn. by rewrite E.
Qed.

Lemma in_range_at i (n : TraceNode) : ns !! i = Some n -> in_graph d (Z.of_nat i).
Proof. intros H. apply lookup_lt_Some in H. unfold in_graph, zlen. lia. Qed.

(** One kept node. *)
Lemma copy_step i n pm p : copied_upto i pm p -> ns !! i = Some n -> is_kept keep (Z.of_nat i) ->
  exists ts p', map_all pm (n_inputs n) p = (Ret ts, p) /\
    add_node (n_op n) ts (n_scalar n) (n_buffer n) (n_device n) (n_dtype n) (n_rows n) (n_cols n) (n_scalar2 n) p =
      (Ret (zlen (nodes_ p)), p') /\
    copied_upto (S i) (<[Z.of_nat i := zlen (nodes_ p)]> pm) p'.
Proof.
  intros Hc Hn Hk. destruct (map_all_copied i n pm p p Hc Hn Hk) as (ts & Ets & Hts). exists ts. eexists. split; [exact Ets|].
  pose proof (lookup_lt_Some _ _ _ Hn) as Hlt. pose proof (zlen_nonneg (nodes_ p)) as H0. pose proof (cu_len _ _ _ Hc) as Hlen.
  unfold add_node. rewrite i32_small by (unfold zlen in *; lia). split; [done|].
  destruct (Hd _ _ Hn) as [_ _ Har Hleaf _].
  set (n' := mkNode (zlen (nodes_ p)) (n_op n) ts [] (n_scalar n) (n_scalar2 n) (n_buffer n) (n_device n) (n_dtype n)
               (n_rows n) (n_cols n) false (-1) false).
  assert (X : ext p (push_node n' p)) by (by exists [n']).
  assert (Hval : forall env, has env (push_node n' p) (zlen (nodes_ p)) (value env d (Z.of_nat i))).
  { intros env. pose proof (has_snoc env p (push_node n' p) n' eq_refl) as H.
    rewrite (value_eq env d i n (good_wf _ _ Hd) Hn). unfold eval_node, node_val in H.
    change (is_input n') with (is_input n) in H. rewrite (cu_inputs _ _ _ Hc) in H.
    destruct (is_input n); [exact H|]. cbn [n_inputs n' n_op n_scalar n_scalar2] in H.
    rewrite (has_args env p ts (map (value env d) (n_inputs n))) in H; [exact H|].
    apply Forall2_fmap_r. eapply Forall2_impl; [exact Hts|]. intros t j [_ Ht]. apply Ht. }
  assert (Hmap : forall j s, <[Z.of_nat i := zlen (nodes_ p)]> pm !! j = Some s ->
    (j = Z.of_nat i /\ s = zlen (nodes_ p)) \/ (pm !! j = Some s /\ 0 <= j < Z.of_nat i /\ 0 <= s < zlen (nodes_ p))).
  { intros j s. destruct (decide (j = Z.of_nat i)) as [->|Hne].
    - rewrite lookup_insert_eq. intros [= <-]. by left.
    - rewrite lookup_insert_ne by done. intros H. right. split; [done|]. by apply (cu_dom _ _ _ Hc). }
  assert (Hkeep : forall ts js, Forall2 (fun t j => pm !! j = Some t) ts js ->
    Forall2 (fun t j => <[Z.of_nat i := zlen (nodes_ p)]> pm !! j = Some t) ts js).
  { intros ts' js H. eapply Forall2_impl; [exact H|]. intros t j Ht. destruct (cu_dom _ _ _ Hc _ _ Ht).
    by rewrite lookup_insert_ne by lia. }
  assert (Hlen' : zlen (nodes_ (push_node n' p)) = zlen (nodes_ p) + 1) by (cbn [push_node nodes_]; by rewrite zlen_app).
  constructor.
  - unfold good. cbn [push_node nodes_]. apply all_sound_snoc; [apply (cu_good _ _ _ Hc)|]. constructor; cbn.
    + done.
    + apply Forall_forall. intros t Ht. apply list_elem_of_lookup in Ht as (x & Hx).
      destruct (Forall2_lookup_l _ _ _ _ _ Hts Hx) as (j & _ & _ & Hv). by apply (has_range (fun _ => 0%R) _ _ _ (Hv _)).
    + by rewrite (Forall2_length _ _ _ Hts).
    + intros Hop. rewrite (Hleaf Hop) in Hts. by apply Forall2_nil_inv_r in Hts.
    + done.
  - rewrite Hlen'. lia.
  - intros j m Hj Hnj Hkj. destruct (decide (j = i)) as [->|Hne].
    + exists (zlen (nodes_ p)), n'. rewrite lookup_insert_eq. split_and!; [done| | | |done].
      * cbn [push_node nodes_]. apply node_at_last.
      * cbn. congruence.
      * assert (m = n) as -> by congruence. apply Hkeep. eapply Forall2_impl; [exact Hts|]. by intros ?? [? _].
    + destruct (cu_map _ _ _ Hc j m ltac:(lia) Hnj Hkj) as (s & m' & Es & Em & Eo & Ei & Hv).
      exists s, m'. rewrite lookup_insert_ne by lia. split_and!; [done|by eapply node_at_ext|done|by apply Hkeep|].
      intros env. by eapply has_ext.
  - intros j s [[-> ->]|(_ & ? & ?)]%Hmap; rewrite Hlen'; lia.
  - intros j s [[-> ->]|(? & _ & _)]%Hmap; [done|by eapply cu_kept].
  - intros j j' s s' [[-> ->]|(Ha1 & ? & ?)]%Hmap [[-> ->]|(Ha2 & ? & ?)]%Hmap Hjj; try lia.
    by apply (cu_mono _ _ _ Hc j j').
  - cbn [push_node nodes_]. rewrite (take_S_r _ _ _ Hn), !inputs_in_app, (cu_inputs _ _ _ Hc). f_equal.
    unfold inputs_in. change (is_input n') with (is_input n).
    destruct (decide (is_input n = true)); [by rewrite !filter_cons_True|by rewrite !filter_cons_False].
  - intros t m Ht. destruct (decide (t = zlen (nodes_ p))) as [->|Hne].
    + exists (Z.of_nat i). by rewrite lookup_insert_eq.
    + destruct (cu_need _ _ _ Hc t m) as (j & Hj & Hkj).
      { unfold node_at in *. cbn [push_node nodes_] in Ht. destruct (Z.ltb_spec t 0); [done|].
        rewrite lookup_app_l in Ht; [done|]. apply lookup_lt_Some in Ht. rewrite length_app in Ht. cbn in Ht. unfold zlen in *. lia. }
      exists j. destruct (cu_dom _ _ _ Hc _ _ Hj). rewrite lookup_insert_ne by lia. done.
Qed.

Lemma prune_nodes_ok i : (i <= length ns)%nat -> forall pm p, copied_upto i pm p ->
  exists pm' p', prune_nodes (drop i ns) keep pm p = (Ret pm', p') /\ copied_upto (length ns) pm' p'.
Proof.
  intros Hi. remember (length ns - i)%nat as k eqn:Ek. revert i Hi Ek.
  induction k as [|k IH]; intros i Hi Ek pm p Hc.
  { rewrite drop_ge by lia. exists pm, p. split; [done|]. by assert (i = length ns) as <- by lia. }
  destruct (lookup_lt_is_Some_2 ns i ltac:(lia)) as [n Hn].
  rewrite (drop_S _ _ _ Hn). cbn [prune_nodes]. destruct (good_wf _ _ Hd _ _ Hn) as [-> _].
  destruct (kept_total d keep _ (mk_len _ _ _ _ Hm) (in_range_at _ _ Hn)) as [b Eb]. rewrite Eb. destruct b.
  - destruct (copy_step i n pm p Hc Hn Eb) as (ts & p' & E1 & E2 & Hc'). unfold mbind, st_bind. rewrite E1, E2.
    apply (IH (S i)); [lia|lia|done].
  - apply (IH (S i)); [lia|lia|]. destruct Hc as [Hg Hl Hmp Hdom Hkp Hmono Hin Hneed]. constructor; try done.
    + lia.
    + intros j m Hj Hnj Hkj. apply Hmp; [|done..]. destruct (decide (j = i)) as [->|]; [|lia].
      unfold is_kept in Hkj. congruence.
    + intros j s H. destruct (Hdom j s H). lia.
    + rewrite (take_S_r _ _ _ Hn), inputs_in_app, Hin. unfold inputs_in at 3.
      destruct (is_input n) eqn:En; [|by rewrite filter_cons_False by (by rewrite En); cbn; lia].
      exfalso. assert (Hx : is_kept keep (Z.of_nat i)).
      { apply (mk_inputs _ _ _ _ Hm _ n); [unfold node_at; destruct (Z.ltb_spec (Z.of_nat i) 0); [lia|by rewrite Nat2Z.id]|].
        unfold is_input, TraceOpKind.eqb in En. by apply bool_decide_eq_true in En. }
      unfold is_kept in Hx. congruence.
Qed.
End Copy.

(** ** The outputs *)

Definition live_ids (d : TraceDAG) : list Z := map n_id (filter (fun n => n_live n = true) (nodes_ d)).

(** Marking leaves the rest of a node alone. *)
Lemma core_mark i d : Forall2 same_core (nodes_ d) (nodes_ (mark_live_at i d)).
Proof. cbn. apply core_alter. by repeat split. Qed.

Lemma core_marks ts : forall d, Forall2 same_core (nodes_ d) (nodes_ (foldl (fun d t => mark_live_at t d) d ts)).
Proof.
  induction ts as [|t ts IH]; intros d; [apply core_refl|]. cbn [foldl]. eapply core_trans; [apply core_mark|apply IH].
Qed.

Lemma live_marks ts : forall d i n, Forall (fun t => 0 <= t) ts -> 
  nodes_ (foldl (fun d t => mark_live_at t d) d ts) !! i = Some n ->
  exists n0, nodes_ d !! i = Some n0 /\ n_live n = (n_live n0 || bool_decide (Z.of_nat i ∈ ts)).
Proof.
  induction ts as [|t ts IH]; intros d i n Ht Hn; cbn [foldl] in Hn.
  { exists n. split; [done|]. rewrite bool_decide_eq_false_2 by apply not_elem_of_nil. by rewrite orb_false_r. }
  apply Forall_cons in Ht as [Ht0 Ht]. destruct (IH _ _ _ Ht Hn) as (n1 & Hn1 & E). cbn [mark_live_at nodes_] in Hn1.
  destruct (decide (Z.to_nat t = i)) as [<-|Hne].
  - rewrite list_lookup_alter_eq in Hn1. destruct (nodes_ d !! Z.to_nat t) as [n0|]; [|done]. injection Hn1 as <-.
    exists n0. split; [done|]. rewrite E. cbn. rewrite (bool_decide_eq_true_2 (_ ∈ t :: ts)); [by rewrite orb_true_r|].
    rewrite Z2Nat.id by done. by left.
  - rewrite list_lookup_alter_ne in Hn1 by done. exists n1. split; [done|]. rewrite E. f_equal. apply bool_decide_ext.
    rewrite elem_of_cons. split; [by right|intros [?|?]; [lia|done]].
Qed.

Lemma live_push ns' : forall ms i n, Forall (fun n => n_live n = false) ms -> foldl push_uses ms ns' !! i = Some n -> n_live n = false.
Proof.
  induction ns' as [|m ns' IH]; intros ms i n Hf Hn; [rewrite Forall_lookup in Hf; by eapply Hf|].
  cbn in Hn. eapply IH; [|exact Hn]. unfold push_uses. generalize (n_inputs m). intros ids. clear Hn IH.
  revert ms Hf. induction ids as [|j ids IH2]; intros ms Hf; [done|]. cbn. apply IH2. unfold push_use.
  destruct (_ && _)%bool; [|done]. apply Forall_lookup. intros k x Hk. destruct (decide (Z.to_nat j = k)) as [<-|Hne].
  - rewrite list_lookup_alter_eq in Hk. destruct (ms !! Z.to_nat j) as [y|] eqn:E; [|done]. injection Hk as <-. cbn.
    rewrite Forall_lookup in Hf. by eapply Hf.
  - rewrite list_lookup_alter_ne in Hk by done. rewrite Forall_lookup in Hf. by eapply Hf.
Qed.

(** The live nodes, in order, of a graph whose nodes are at their ids. *)
Lemma live_sorted ns : wf_nodes ns -> StronglySorted Z.lt (map n_id (filter (fun n => n_live n = true) ns)).
Proof.
  induction ns as [|n ns IH] using rev_ind; intros W; [constructor|].
  assert (W' : wf_nodes ns) by (intros i m Hi; apply W; by apply lookup_app_l_Some).
  destruct (W (length ns) n) as [Hid _]; [by rewrite lookup_app_r, Nat.sub_diag by lia|].
  rewrite filter_app, map_app. apply StronglySorted_app. split_and!; [|by apply IH|].
  - intros x y Hx Hy. apply list_elem_of_fmap in Hx as (m & -> & [_ (j & Hj)%list_elem_of_lookup]%list_elem_of_filter).
    apply list_elem_of_fmap in Hy as (m' & -> & [_ ->%list_elem_of_singleton]%list_elem_of_filter).
    destruct (W' _ _ Hj) as [-> _]. rewrite Hid. apply lookup_lt_Some in Hj. lia.
  - destruct (decide (n_live n = true)); [rewrite filter_cons_True by done|rewrite filter_cons_False by done];
      repeat constructor.
Qed.

Lemma sorted_unique (l l' : list Z) : StronglySorted Z.lt l -> StronglySorted Z.lt l' -> (forall x, x ∈ l <-> x ∈ l') -> l = l'.
Proof.
  intros H H' Hx. apply (StronglySorted_unique_strong Z.lt); [intros; lia|done|done|].
  assert (Hnd : forall l : list Z, StronglySorted Z.lt l -> NoDup l).
  { clear. induction 1 as [|x l _ IH Hall]; [apply NoDup_nil_2|]. apply NoDup_cons. split; [|done].
    intros Hx. rewrite Forall_forall in Hall. specialize (Hall _ Hx). lia. }
  apply NoDup_Permutation; auto.
Qed.

Lemma dead_clean ns : Forall (fun n => n_live n = false) (map (set_outputs []) (map (set_live false) ns)).
Proof. rewrite !Forall_map. by apply Forall_true. Qed.

(** The nodes whose flag is set for their membership in an increasing list. *)
Lemma live_ids_of p ts : good false p -> Forall (fun t => 0 <= t < zlen (nodes_ p)) ts -> StronglySorted Z.lt ts ->
  (forall i n, nodes_ p !! i = Some n -> n_live n = bool_decide (Z.of_nat i ∈ ts)) -> live_ids p = ts.
Proof.
  intros Hg Hr Hso Hl. apply good_wf in Hg. apply sorted_unique; [by apply live_sorted|done|].
  intros t. unfold live_ids. rewrite list_elem_of_fmap. split.
  - intros (n & Ht & Hn). apply list_elem_of_filter in Hn as [Hn Hi]. apply list_elem_of_lookup in Hi as (i & Hi).
    destruct (Hg _ _ Hi) as [Hid _]. rewrite (Hl _ _ Hi) in Hn. apply bool_decide_eq_true in Hn. congruence.
  - intros Ht. rewrite Forall_forall in Hr. specialize (Hr _ Ht).
    destruct (lookup_lt_is_Some_2 (nodes_ p) (Z.to_nat t)) as [n Hn]; [unfold zlen in Hr; lia|].
    destruct (Hg _ _ Hn) as [Hid _]. exists n. split; [lia|]. apply list_elem_of_filter.
    split; [|by eapply list_elem_of_lookup_2]. rewrite (Hl _ _ Hn), Z2Nat.id by lia. by apply bool_decide_eq_true.
Qed.

(** An increasing map keeps an increasing list increasing. *)
Lemma sorted_image (pm : gmap Z Z) ts ss : StronglySorted Z.lt ss -> Forall2 (fun t s => pm !! s = Some t) ts ss ->
  (forall j j' s s', pm !! j = Some s -> pm !! j' = Some s' -> j < j' -> s < s') -> StronglySorted Z.lt ts.
Proof.
  intros Hso Hts Hmono. revert ts Hts. induction Hso as [|s ss _ IH Hall]; intros ts Hts.
  - apply Forall2_nil_inv_r in Hts as ->. constructor.
  - apply Forall2_cons_inv_r in Hts as (t & ts' & Ht & Hts & ->). constructor; [by apply IH|].
    apply Forall_forall. intros t' Ht'. apply list_elem_of_lookup in Ht' as (x & Hx).
    destruct (Forall2_lookup_l _ _ _ _ _ Hts Hx) as (s' & Hs' & Ht'). eapply Hmono; [exact Ht|exact Ht'|].
    rewrite Forall_forall in Hall. apply Hall. by eapply list_elem_of_lookup_2.
Qed.

(** The slots of gradients in the pruned graph. *)
Lemma images d keep pm q ss : copied_upto d keep (length (nodes_ d)) pm q ->
  Forall (fun s => 0 <= s < zlen (nodes_ d)) ss -> (forall s, s ∈ ss -> is_kept keep s) ->
  exists ts, Forall2 (fun t s => pm !! s = Some t) ts ss.
Proof.
  intros Hc Hss. induction Hss as [|s ss Hs _ IH]; intros Ho; [by exists []|].
  destruct IH as (ts & Hts); [intros s' Hs'; apply Ho; by right|].
  destruct (lookup_lt_is_Some_2 (nodes_ d) (Z.to_nat s)) as [n Hn]; [unfold zlen in Hs; lia|].
  destruct (cu_map _ _ _ _ _ Hc (Z.to_nat s) n (lookup_lt_Some _ _ _ Hn) Hn) as (t & _ & Et & _).
  { rewrite Z2Nat.id by lia. apply Ho. by left. }
  rewrite Z2Nat.id in Et by lia. exists (t :: ts). by constructor.
Qed.

Lemma mark_all (pm : gmap Z Z) ts ss : Forall2 (fun t s => pm !! s = Some t) ts ss -> forall g,
  foldl (fun r os => d ← r; match pm !! os with Some id => Ret (mark_live_at id d) | None => Throw out_of_range end) (Ret g) ss =
  Ret (foldl (fun d t => mark_live_at t d) g ts).
Proof.
  induction 1 as [|t s ts ss Ht _ IH]; intros g; [done|]. cbn [foldl]. unfold mbind, res_bind at 2. rewrite Ht. apply IH.
Qed.

(** A copied node and its copy. *)
Lemma image_node d keep pm q j t : copied_upto d keep (length (nodes_ d)) pm q -> pm !! j = Some t ->
  exists n n', node_at (nodes_ d) j = Some n /\ node_at (nodes_ q) t = Some n' /\ n_op n' = n_op n /\
    Forall2 (fun t j => pm !! j = Some t) (n_inputs n') (n_inputs n) /\ forall env, has env q t (value env d j).
Proof.
  intros Hc Hj. destruct (cu_dom _ _ _ _ _ Hc _ _ Hj) as [Hr Ht]. pose proof (cu_kept _ _ _ _ _ Hc _ _ Hj) as Hk.
  destruct (lookup_lt_is_Some_2 (nodes_ d) (Z.to_nat j)) as [n Hn]; [lia|].
  assert (Hn' : node_at (nodes_ d) j = Some n) by (unfold node_at; destruct (Z.ltb_spec j 0); [lia|done]).
  destruct (cu_map _ _ _ _ _ Hc _ _ (lookup_lt_Some _ _ _ Hn) Hn) as (t' & n' & Et & En & Eo & Ei & Ev).
  { by rewrite Z2Nat.id by lia. }
  rewrite Z2Nat.id in Et, Ev by lia. assert (t' = t) as -> by congruence. by exists n, n'.
Qed.

Lemma core_sym ns ns' : Forall2 same_core ns ns' -> Forall2 same_core ns' ns.
Proof.
  intros H. apply Forall2_flip. eapply Forall2_impl; [exact H|]. intros n n' (?&?&?&?&?). unfold flip, same_core.
  split_and!; congruence.
Qed.

(** What was needed is still needed. *)
Lemma needed_image d keep pm q p ss ts j t : copied_upto d keep (length (nodes_ d)) pm q -> marking d ss keep [] ->
  Forall2 same_core (nodes_ q) (nodes_ p) -> Forall2 (fun t s => pm !! s = Some t) ts ss ->
  needed d ss j -> pm !! j = Some t -> needed p ts t.
Proof.
  intros Hc Hm Hcore Hts Hn. revert t. induction Hn as [s Hs|i n j Hi IH Hn Hj]; intros t Ht.
  - apply needed_out. apply list_elem_of_lookup in Hs as (x & Hx).
    destruct (Forall2_lookup_r _ _ _ _ _ Hts Hx) as (t' & Ht' & E). assert (t' = t) as <- by congruence.
    by eapply list_elem_of_lookup_2.
  - assert (Hk : is_kept keep i).
    { clear IH Ht Hj Hn. induction Hi as [s Hs|k n' i _ IH Hk Hj].
      - by destruct (mk_outs _ _ _ _ Hm s Hs) as [?|[]%not_elem_of_nil].
      - by destruct (mk_closed _ _ _ _ Hm k n' i Hk IH Hj) as [?|[]%not_elem_of_nil]. }
    assert (Hin : exists ti, pm !! i = Some ti).
    { unfold node_at in Hn. destruct (Z.ltb_spec i 0); [done|].
      destruct (cu_map _ _ _ _ _ Hc _ _ (lookup_lt_Some _ _ _ Hn) Hn) as (ti & _ & E & _); [by rewrite Z2Nat.id by lia|].
      rewrite Z2Nat.id in E by lia. by exists ti. }
    destruct Hin as (ti & Eti). destruct (image_node d keep pm q i ti Hc Eti) as (m & n' & Hm' & Hn' & _ & Hins & _).
    assert (m = n) as -> by congruence. destruct (node_at_core _ _ _ _ Hcore Hn') as (n2 & Hn2 & _ & _ & Ein & _).
    eapply needed_in; [apply IH; exact Eti|exact Hn2|]. rewrite Ein.
    apply list_elem_of_lookup in Hj as (x & Hx). destruct (Forall2_lookup_r _ _ _ _ _ Hins Hx) as (t' & Ht' & E).
    assert (t' = t) as <- by congruence. by eapply list_elem_of_lookup_2.
Qed.

(** Pruning returns a well-formed graph whose live nodes are the gradients asked
    for, in order, with the values they had, and whose other nodes are inputs
    or needed for them. *)
Theorem prune_correct d ss : good false d -> zlen (nodes_ d) <= INT_MAX ->
  Forall (fun s => 0 <= s < zlen (nodes_ d)) ss -> StronglySorted Z.lt ss ->
  exists p, prune d ss = Ret p /\ good false p /\ inputs_in (nodes_ p) = inputs_in (nodes_ d) /\
    (forall env, Forall2 (fun t s => value env p t = value env d s) (live_ids p) ss) /\
    (forall t n, node_at (nodes_ p) t = Some n -> n_op n <> TraceOpKind.Input -> needed p (live_ids p) t) /\
    (forall t n, t ∈ live_ids p -> node_at (nodes_ p) t = Some n ->
       exists s m, s ∈ ss /\ node_at (nodes_ d) s = Some m /\ n_op n = n_op m).
Proof.
  intros Hg Hfit Hss Hso.
  destruct (mark_kept_ok d Hg ss (mark_fuel d ss) (rev ss) (keep0 d) (marking_start d Hg ss Hss)) as (keep & Ek & Hm).
  { unfold mark_fuel. rewrite length_rev. apply Nat.add_le_mono_l. unfold keep0.
    generalize (nodes_ d). intros ns. induction ns as [|n ns IH]; [done|]. cbn. destruct (TraceOpKind.eqb _ _); lia. }
  destruct (prune_nodes_ok d Hg Hfit ss keep Hm 0 ltac:(lia) ∅ empty_dag) as (pm & q & Eq & Hc).
  { constructor; [apply good_empty|done|intros j n Hj; lia| | | |done|].
    - intros j s H. by rewrite lookup_empty in H.
    - intros j s H. by rewrite lookup_empty in H.
    - intros j j' s s' H. by rewrite lookup_empty in H.
    - intros t n Hn. unfold node_at in Hn. cbn in Hn. by destruct (t <? 0). }
  rewrite drop_0 in Eq.
  set (clean := mkDAG (map (set_live false) (nodes_ q)) (input_ptr_to_slot_ q)).
  destruct (images d keep pm q ss Hc Hss) as (ts & Hts).
  { intros s Hs. by destruct (mk_outs _ _ _ _ Hm s Hs) as [?|[]%not_elem_of_nil]. }
  set (p := foldl (fun d t => mark_live_at t d) (relink clean) ts).
  assert (Hp : prune d ss = Ret p).
  { unfold prune. fold (keep0 d). unfold mbind, res_bind at 1. rewrite Ek. rewrite Eq. by apply mark_all. }
  assert (Hcore : Forall2 same_core (nodes_ q) (nodes_ p)).
  { eapply core_trans; [|apply core_marks]. eapply core_trans; [|apply core_relink].
    unfold clean. cbn [nodes_]. apply core_map. by repeat split. }
  assert (Hgp : good false p) by (eapply all_sound_core; [exact Hcore|exact (cu_good _ _ _ _ _ Hc)]).
  assert (Hts0 : Forall (fun t => 0 <= t < zlen (nodes_ q)) ts).
  { apply Forall_forall. intros t (x & Hx)%list_elem_of_lookup. destruct (Forall2_lookup_l _ _ _ _ _ Hts Hx) as (s & _ & Hs).
    by destruct (cu_dom _ _ _ _ _ Hc _ _ Hs). }
  assert (Hlv : forall i n, nodes_ p !! i = Some n -> n_live n = bool_decide (Z.of_nat i ∈ ts)).
  { intros i n Hi. unfold p in Hi. apply live_marks in Hi as (n0 & Hn0 & ->).
    - cbn [relink nodes_] in Hn0. rewrite (live_push _ _ _ _ (dead_clean (nodes_ q)) Hn0). done.
    - eapply Forall_impl; [exact Hts0|]. intros x Hx. apply Hx. }
  clearbody p. exists p. split; [done|].
  assert (Hlive : live_ids p = ts).
  { apply live_ids_of; [done| |by eapply sorted_image; [exact Hso|exact Hts|exact (cu_mono _ _ _ _ _ Hc)]|done].
    unfold zlen. rewrite <- (Forall2_length _ _ _ Hcore). exact Hts0. }
  rewrite Hlive. split_and!; [done|by rewrite (inputs_in_core _ _ Hcore), (cu_inputs _ _ _ _ _ Hc), firstn_all| | |].
  - intros env. eapply Forall2_impl; [exact Hts|]. intros t s Ht.
    destruct (image_node d keep pm q s t Hc Ht) as (n & n' & _ & _ & _ & _ & Hv).
    apply has_value. eapply has_core; [exact Hcore|apply Hv].
  - intros t n Hn Hop. destruct (node_at_core _ _ _ _ (core_sym _ _ Hcore) Hn) as (n0 & Hn0 & _ & Ho & _).
    destruct (cu_need _ _ _ _ _ Hc t n0 Hn0) as (j & Hj & Hk).
    destruct (image_node d keep pm q j t Hc Hj) as (m & n' & Hmj & Hn' & Eo & _).
    destruct (mk_only _ _ _ _ Hm j m Hmj Hk) as [?|Hneed]; [congruence|].
    by eapply needed_image.
  - intros t n Ht Hn. apply list_elem_of_lookup in Ht as (x & Hx).
    destruct (Forall2_lookup_l _ _ _ _ _ Hts Hx) as (s & Hs & Est).
    destruct (image_node d keep pm q s t Hc Est) as (m & n' & Hmj & Hn' & Eo & _).
    destruct (node_at_core _ _ _ _ Hcore Hn') as (n0 & Hn0 & _ & Ho & _). exists s, m.
    split_and!; [by eapply list_elem_of_lookup_2|done|congruence].
Qed.
