(* ===== verification/AutodiffGrad.v ===== *)
(** * The backward graph computes the gradient

    The properties of [TraceDAG::backward] (src/jit/trace_autodiff.cpp): it
    returns, for every graph of operations it supports, a well-formed graph with
    one live node per gradient asked for; each holds the upstream gradient times
    the reverse-mode accumulation of the emitted slopes, and where those slopes
    are derivatives, the upstream gradient times the derivative. *)
From Stdlib Require Import Reals Lra Sorting.Sorted.
From S2P Require Import Prelude Dtype Device Heap Tensor TraceDag TraceSpec Float32 Autodiff TraceMeaning AutodiffEmit AutodiffSweep AutodiffAdjoint AutodiffBackward AutodiffPrune.
Abbreviation D := derivable_pt_lim.

(** ** Derivatives of the operations *)

Section Derivatives.
#[local] Open Scope R_scope.

Lemma D_eq f x l l' : D f x l -> l = l' -> D f x l'.
Proof. by intros H <-. Qed.
Lemma D_const c x : D (fun _ => c) x 0.
Proof. apply derivable_pt_lim_const. Qed.
Lemma D_id x : D (fun t => t) x 1.
Proof. apply derivable_pt_lim_id. Qed.
Lemma D_plus f g x l m : D f x l -> D g x m -> D (fun t => f t + g t) x (l + m).
Proof. apply derivable_pt_lim_plus. Qed.
Lemma D_minus f g x l m : D f x l -> D g x m -> D (fun t => f t - g t) x (l - m).
Proof. apply derivable_pt_lim_minus. Qed.
Lemma D_opp f x l : D f x l -> D (fun t => - f t) x (- l).
Proof. apply derivable_pt_lim_opp. Qed.
Lemma D_mult f g x l m : D f x l -> D g x m -> D (fun t => f t * g t) x (l * g x + f x * m).
Proof. apply derivable_pt_lim_mult. Qed.
Lemma D_comp f g x l m : D f x l -> D g (f x) m -> D (fun t => g (f t)) x (m * l).
Proof. apply derivable_pt_lim_comp. Qed.
Lemma D_div f g x l m : D f x l -> D g x m -> g x <> 0 -> D (fun t => f t / g t) x ((l * g x - m * f x) / (g x)²).
Proof. apply derivable_pt_lim_div. Qed.
Lemma D_inv g x m : D g x m -> g x <> 0 -> D (fun t => / g t) x (- m / (g x)²).
Proof.
  intros Hg Hx. apply (derivable_pt_lim_ext (fun t => 1 / g t)); [intros; unfold Rdiv; ring|].
  eapply D_eq; [by apply (D_div (fun _ => 1) g x 0 m (D_const 1 x) Hg)|]. unfold Rdiv. ring.
Qed.

Lemma cosh_pos x : 0 < cosh x.
Proof. unfold cosh. pose proof (exp_pos x). pose proof (exp_pos (- x)). lra. Qed.

Lemma D_exp x : D exp x (exp x).
Proof. apply derivable_pt_lim_exp. Qed.

Lemma D_tanh x : D tanh x (1 - tanh x * tanh x).
Proof.
  pose proof (cosh_pos x) as Hc. unfold tanh at 1.
  eapply D_eq; [apply (D_div sinh cosh); [apply derivable_pt_lim_sinh|apply derivable_pt_lim_cosh|lra]|].
  unfold tanh, Rsqr. field. lra.
Qed.

Lemma D_sigmoid x : D sigmoid x (sigmoid x * (1 - sigmoid x)).
Proof.
  pose proof (exp_pos (- x)). eapply D_eq.
  - apply (D_inv (fun t => 1 + exp (- t)) x (0 + exp (- x) * (-1))); [|lra].
    apply D_plus; [apply D_const|]. apply (D_comp (fun t => - t) exp); [|apply D_exp].
    eapply D_eq; [apply D_opp, D_id|lra].
  - unfold sigmoid, Rsqr. field. lra.
Qed.

(** Two functions that agree near a point have the same derivative there. *)
Lemma D_near f g x l e : 0 < e -> (forall z, Rabs (z - x) < e -> f z = g z) -> D f x l -> D g x l.
Proof.
  intros He H. apply (derivable_pt_lim_locally_ext f g x (x - e) (x + e)); [lra|].
  intros z Hz. apply H, Rabs_def1; lra.
Qed.

Lemma relu_pos x : 0 <= x -> relu x = x.
Proof. intros. by apply Rmax_left. Qed.
Lemma relu_neg x : x <= 0 -> relu x = 0.
Proof. intros. by apply Rmax_right. Qed.
Lemma select_nz c a b : c <> 0 -> select c a b = a.
Proof. unfold select. by destruct (Req_EM_T c 0). Qed.
Lemma select_z a b : select 0 a b = b.
Proof. unfold select. by destruct (Req_EM_T 0 0). Qed.

Lemma D_relu x : x <> 0 -> D relu x (select (relu x) 1 0).
Proof.
  intros Hx. destruct (Rlt_le_dec x 0) as [Hn|Hp].
  - rewrite (relu_neg x) by lra. rewrite select_z. apply (D_near (fun _ => 0) relu x 0 (- x)); [lra| |apply D_const].
    intros z Hz. apply Rabs_def2 in Hz. rewrite relu_neg; lra.
  - rewrite (relu_pos x), select_nz by lra. apply (D_near (fun t => t) relu x 1 x); [lra| |apply D_id].
    intros z Hz. apply Rabs_def2 in Hz. rewrite relu_pos; lra.
Qed.

Lemma D_abs x : x <> 0 -> D Rabs x (select (relu x) 1 (select (relu (- x)) (-1) 0)).
Proof.
  intros Hx. destruct (Rlt_le_dec x 0) as [Hn|Hp].
  - rewrite (relu_neg x), select_z, (relu_pos (- x)), select_nz by lra. by apply Rabs_derive_2.
  - rewrite (relu_pos x), select_nz by lra. apply Rabs_derive_1. lra.
Qed.

Lemma clamp_slope x lo hi : relu (x - lo) * relu (hi - x) <> 0 <-> lo < x < hi.
Proof.
  unfold relu, Rmax. split.
  - intros H. destruct (Rle_dec (x - lo) 0), (Rle_dec (hi - x) 0); try lra; exfalso; apply H; ring.
  - intros H. destruct (Rle_dec (x - lo) 0), (Rle_dec (hi - x) 0); try lra. apply Rmult_integral_contrapositive. lra.
Qed.

Lemma D_clamp x lo hi : lo < hi -> x <> lo -> x <> hi ->
  D (fun t => Rmin (Rmax t lo) hi) x (select (relu (x - lo) * relu (hi - x)) 1 0).
Proof.
  intros Hlh Hl Hh. destruct (Rlt_le_dec x lo) as [H1|H1]; [|destruct (Rlt_le_dec hi x) as [H2|H2]].
  - assert (relu (x - lo) * relu (hi - x) = 0) as -> by (rewrite (relu_neg (x - lo)) by lra; ring). rewrite select_z.
    apply (D_near (fun _ => lo) _ x 0 (lo - x)); [lra| |apply D_const].
    intros z Hz. apply Rabs_def2 in Hz. rewrite Rmax_right, Rmin_left; lra.
  - assert (relu (x - lo) * relu (hi - x) = 0) as -> by (rewrite (relu_neg (hi - x)) by lra; ring). rewrite select_z.
    apply (D_near (fun _ => hi) _ x 0 (x - hi)); [lra| |apply D_const].
    intros z Hz. apply Rabs_def2 in Hz. rewrite Rmax_left, Rmin_right; lra.
  - rewrite select_nz by (apply clamp_slope; lra).
    apply (D_near (fun t => t) _ x 1 (Rmin (x - lo) (hi - x))); [apply Rmin_glb_lt; lra| |apply D_id].
    intros z Hz. pose proof (Rmin_l (x - lo) (hi - x)). pose proof (Rmin_r (x - lo) (hi - x)).
    apply Rabs_def2 in Hz. rewrite Rmax_left, Rmin_left; lra.
Qed.

(** A differentiable function that is not zero at a point is not zero near it. *)
Lemma nonzero_near f x l : D f x l -> f x <> 0 -> exists e, 0 < e /\ forall z, Rabs (z - x) < e -> f z <> 0.
Proof.
  intros Hf Hx. assert (C : continuity_pt f x) by (apply derivable_continuous_pt; by exists l).
  destruct (C (Rabs (f x)) (Rabs_pos_lt _ Hx)) as (e & He & H). exists e. split; [done|].
  intros z Hz Hfz. destruct (Req_dec x z) as [<-|Hne]; [done|].
  assert (H' := H z (conj (conj I Hne) Hz)). cbn in H'. unfold Rdist in H'. rewrite Hfz in H'.
  replace (0 - f x) with (- f x) in H' by ring. rewrite Rabs_Ropp in H'. lra.
Qed.

(** ** One node *)

(** The two terms of the derivative of GELU: the second is this factor times
    that of the cubic under the [tanh]. *)
Definition gelu_arg (x : R) : R := tanh ((x + x * x * x * GELU_K1) * GELU_K0).
Definition gelu_step (x : R) : R := (gelu_arg x + 1) * / 2.
Definition gelu_bend (x : R) : R := x * / 2 * ((1 - gelu_arg x * gelu_arg x) * GELU_K0).

(** The function [f] is zero near [x]. *)
Definition zero_near (f : R -> R) (x : R) : Prop := exists e, 0 < e /\ forall z, Rabs (z - x) < e -> f z = 0.

(** The function of node [n] is differentiable at [x], its operands being the
    differentiable functions [F]. *)
Definition smooth_op (n : TraceNode) (F : nat -> R -> R) (x : R) : Prop :=
  let s := f32_real (n_scalar n) in
  let s2 := f32_real (n_scalar2 n) in
  match n_op n with
  | TraceOpKind.DivScalar => s <> 0
  | TraceOpKind.Div => F 1%nat x <> 0
  | TraceOpKind.ScalarDiv | TraceOpKind.ReLU | TraceOpKind.Abs => F 0%nat x <> 0
  | TraceOpKind.Clamp => s < s2 /\ F 0%nat x <> s /\ F 0%nat x <> s2
  | TraceOpKind.Where => F 0%nat x <> 0 \/ zero_near (F 0%nat) x
  | TraceOpKind.Log | TraceOpKind.Sqrt | TraceOpKind.Rsqrt => 0 < F 0%nat x
  | _ => True
  end.

(** The partial derivatives of an operation in its operands. *)
Definition partials (n : TraceNode) (args : list R) : list (nat * R) :=
  let x := nth 0 args 0 in
  let y := nth 1 args 0 in
  let s := f32_real (n_scalar n) in
  let s2 := f32_real (n_scalar2 n) in
  match n_op n with
  | TraceOpKind.Copy | TraceOpKind.Cast | TraceOpKind.AddScalar | TraceOpKind.SubScalar => [(0%nat, 1)]
  | TraceOpKind.Add => [(0%nat, 1); (1%nat, 1)]
  | TraceOpKind.Sub => [(0%nat, 1); (1%nat, -1)]
  | TraceOpKind.ScalarSub | TraceOpKind.Neg => [(0%nat, -1)]
  | TraceOpKind.Mul => [(0%nat, y); (1%nat, x)]
  | TraceOpKind.MulScalar => [(0%nat, s)]
  | TraceOpKind.DivScalar => [(0%nat, / s)]
  | TraceOpKind.Div => [(0%nat, / y); (1%nat, - x / (y * y))]
  | TraceOpKind.ScalarDiv => [(0%nat, - s / (x * x))]
  | TraceOpKind.FMA => [(0%nat, y); (1%nat, x); (2%nat, 1)]
  | TraceOpKind.Modulate => [(0%nat, 1 + y); (1%nat, x); (2%nat, 1)]
  | TraceOpKind.ReLU => [(0%nat, if Rlt_dec 0 x then 1 else 0)]
  | TraceOpKind.Abs => [(0%nat, if Rlt_dec 0 x then 1 else -1)]
  | TraceOpKind.Clamp => [(0%nat, if Rlt_dec s x then if Rlt_dec x s2 then 1 else 0 else 0)]
  | TraceOpKind.Where => [(1%nat, select x 1 0); (2%nat, select x 0 1)]
  | TraceOpKind.Sigmoid => [(0%nat, sigmoid x * (1 - sigmoid x))]
  | TraceOpKind.Tanh => [(0%nat, 1 - tanh x * tanh x)]
  | TraceOpKind.SiLU => [(0%nat, sigmoid x + x * (sigmoid x * (1 - sigmoid x)))]
  | TraceOpKind.GELU => [(0%nat, gelu_step x + gelu_bend x * (1 + 3 * GELU_K1 * (x * x)))]
  | TraceOpKind.Exp => [(0%nat, exp x)]
  | TraceOpKind.Log => [(0%nat, / x)]
  | TraceOpKind.Sqrt => [(0%nat, / (2 * sqrt x))]
  | TraceOpKind.Rsqrt => [(0%nat, - / (2 * (x * sqrt x)))]
  | TraceOpKind.Input | TraceOpKind.Const | TraceOpKind.RMSNorm | TraceOpKind.LayerNorm => []
  end.

(** Their sizes; of the two terms of the derivative of GELU, which may cancel,
    each by itself. *)
Definition magnitudes (n : TraceNode) (args : list R) : list (nat * R) :=
  let x := nth 0 args 0 in
  match n_op n with
  | TraceOpKind.GELU => [(0%nat, Rabs (gelu_step x) + Rabs (gelu_bend x * (1 + 3 * GELU_K1 * (x * x))))]
  | _ => map (fun pw => (pw.1, Rabs pw.2)) (partials n args)
  end.

(** How far, relative to its size, the emitted slope may be from the partial
    derivative: only where the emitted code keeps a denominator away from zero,
    clamps the argument of an exponential, or rounds a constant. *)
Definition slope_err (n : TraceNode) (args : list R) : R :=
  let x := nth 0 args 0 in
  let y := nth 1 args 0 in
  match n_op n with
  | TraceOpKind.DivScalar => Rabs (f32_real (safe_recip (n_scalar n)) * f32_real (n_scalar n) - 1)
  | TraceOpKind.Div => EPS / (y * y)
  | TraceOpKind.ScalarDiv => EPS / (x * x)
  | TraceOpKind.GELU => / 2 ^ 23
  | TraceOpKind.Exp => if Rlt_dec 88 x then 1 else if Rlt_dec x (-88) then exp (-88 - x) else 0
  | TraceOpKind.Log => EPS / x
  | TraceOpKind.Sqrt => EPS / (2 * x) + EPS / sqrt x
  | TraceOpKind.Rsqrt => 2 * EPS / x
  | _ => 0
  end.

Lemma D_gelu k0 k1 x : let t := tanh (k0 * (x + k1 * (x * x * x))) in
  D (gelu k0 k1) x (/ 2 * (1 + t) + x * / 2 * ((1 - t * t) * (k0 * (1 + 3 * k1 * (x * x))))).
Proof.
  intros t. unfold gelu. eapply D_eq.
  - apply (D_mult (fun y => y * / 2) (fun y => 1 + tanh (k0 * (y + k1 * (y * y * y))))).
    + apply (D_mult (fun y => y) (fun _ => / 2)); [apply D_id|apply D_const].
    + apply (D_plus (fun _ => 1) (fun y => tanh (k0 * (y + k1 * (y * y * y))))); [apply D_const|].
      apply (D_comp (fun y => k0 * (y + k1 * (y * y * y))) tanh); [|apply D_tanh].
      apply (D_mult (fun _ => k0) (fun y => y + k1 * (y * y * y))); [apply D_const|].
      apply (D_plus (fun y => y) (fun y => k1 * (y * y * y))); [apply D_id|].
      apply (D_mult (fun _ => k1) (fun y => y * y * y)); [apply D_const|].
      apply (D_mult (fun y => y * y) (fun y => y)); [|apply D_id].
      apply (D_mult (fun y => y) (fun y => y)); apply D_id.
  - fold t. cbn beta. ring.
Qed.

Lemma D_of_slope f g x l m : D f x l -> D g (f x) m -> D (fun t => g (f t)) x (m * l + 0).
Proof. intros Hf Hg. eapply D_eq; [by apply (D_comp f g x l m)|ring]. Qed.

Lemma D_relu_step x : x <> 0 -> D relu x (if Rlt_dec 0 x then 1 else 0).
Proof.
  intros Hx. eapply D_eq; [by apply D_relu|]. destruct (Rlt_dec 0 x).
  - rewrite relu_pos, select_nz; lra.
  - rewrite relu_neg, select_z; lra.
Qed.

Lemma D_abs_step x : x <> 0 -> D Rabs x (if Rlt_dec 0 x then 1 else -1).
Proof.
  intros Hx. eapply D_eq; [by apply D_abs|]. destruct (Rlt_dec 0 x).
  - rewrite (relu_pos x), select_nz; lra.
  - rewrite (relu_neg x), select_z, relu_pos, select_nz; lra.
Qed.

Lemma clamp_step x lo hi : select (relu (x - lo) * relu (hi - x)) 1 0 =
  (if Rlt_dec lo x then if Rlt_dec x hi then 1 else 0 else 0).
Proof.
  destruct (Rlt_dec lo x); [destruct (Rlt_dec x hi)|].
  - apply select_nz, clamp_slope. lra.
  - rewrite (relu_neg (hi - x)) by lra. rewrite Rmult_0_r. apply select_z.
  - rewrite (relu_neg (x - lo)) by lra. rewrite Rmult_0_l. apply select_z.
Qed.

Lemma D_gelu_terms x : D (gelu GELU_K0 GELU_K1) x (gelu_step x + gelu_bend x * (1 + 3 * GELU_K1 * (x * x))).
Proof.
  eapply D_eq; [apply D_gelu|]. unfold gelu_step, gelu_bend, gelu_arg.
  replace ((x + x * x * x * GELU_K1) * GELU_K0) with (GELU_K0 * (x + GELU_K1 * (x * x * x))) by ring. ring.
Qed.

Lemma D_sqrt x : 0 < x -> D sqrt x (/ (2 * sqrt x)).
Proof. intros Hx. by apply derivable_pt_lim_sqrt. Qed.

Lemma D_rsqrt x : 0 < x -> D (fun y => / sqrt y) x (- / (2 * (x * sqrt x))).
Proof.
  intros Hx. pose proof (sqrt_lt_R0 _ Hx) as Hs. eapply D_eq; [apply D_inv; [by apply D_sqrt|lra]|].
  rewrite Rsqr_sqrt by lra. field. lra.
Qed.

Lemma op_derivative n (F : nat -> R -> R) x (T : nat -> R) :
  (forall p, (p < op_arity (n_op n))%nat -> D (F p) x (T p)) -> differentiable (n_op n) = true -> is_input n = false ->
  smooth_op n F x ->
  D (fun t => rop (n_op n) (f32_real (n_scalar n)) (f32_real (n_scalar2 n)) [F 0%nat t; F 1%nat t; F 2%nat t]) x
    (foldr (fun pw acc => pw.2 * T pw.1 + acc) 0 (partials n [F 0%nat x; F 1%nat x; F 2%nat x])).
Proof.
  intros HD Hdiff Hin Hs. unfold smooth_op in Hs. unfold partials, rop. cbn [nth].
  set (s := f32_real (n_scalar n)) in *. set (s2 := f32_real (n_scalar2 n)) in *.
  destruct (n_op n) eqn:E; try discriminate Hdiff; cbn [op_arity foldr fst snd] in *;
    try (pose proof (HD 0%nat ltac:(lia)) as H0); try (pose proof (HD 1%nat ltac:(lia)) as H1);
    try (pose proof (HD 2%nat ltac:(lia)) as H2).
  all: lazymatch type of E with
  | _ = TraceOpKind.Input => unfold is_input, TraceOpKind.eqb in Hin; by rewrite E in Hin
  | _ = TraceOpKind.Add => eapply D_eq; [by apply D_plus|cbv beta; ring]
  | _ = TraceOpKind.Sub => eapply D_eq; [by apply D_minus|cbv beta; ring]
  | _ = TraceOpKind.Mul => eapply D_eq; [by apply D_mult|cbv beta; ring]
  | _ = TraceOpKind.AddScalar => eapply D_eq; [apply D_plus; [exact H0|apply D_const]|cbv beta; ring]
  | _ = TraceOpKind.SubScalar => eapply D_eq; [apply D_minus; [exact H0|apply D_const]|cbv beta; ring]
  | _ = TraceOpKind.MulScalar => eapply D_eq; [apply D_mult; [exact H0|apply D_const]|cbv beta; ring]
  | _ = TraceOpKind.DivScalar => eapply D_eq; [apply (D_mult (F 0%nat) (fun _ => / s)); [exact H0|apply D_const]|cbv beta; ring]
  | _ = TraceOpKind.ScalarSub => eapply D_eq; [apply D_minus; [apply D_const|exact H0]|cbv beta; ring]
  | _ = TraceOpKind.Neg => eapply D_eq; [apply D_opp; exact H0|cbv beta; ring]
  | _ = TraceOpKind.FMA => eapply D_eq; [apply D_plus; [apply D_mult; [exact H0|exact H1]|exact H2]|cbv beta; ring]
  | _ = TraceOpKind.Modulate =>
      eapply D_eq; [apply D_plus; [apply D_mult; [exact H0|apply D_plus; [apply D_const|exact H1]]|exact H2]|cbv beta; ring]
  | _ = TraceOpKind.Copy => eapply D_eq; [exact H0|cbv beta; ring]
  | _ = TraceOpKind.Cast => eapply D_eq; [exact H0|cbv beta; ring]
  | _ = TraceOpKind.Const => apply D_const
  | _ = TraceOpKind.SiLU =>
      eapply D_eq; [apply D_mult; [exact H0|apply (D_comp (F 0%nat) sigmoid); [exact H0|apply D_sigmoid]]|cbv beta; ring]
  | _ = TraceOpKind.Div => eapply D_eq; [by apply D_div|unfold Rsqr; field; exact Hs]
  | _ = TraceOpKind.Where =>
      destruct Hs as [Hc|(e & He & Hz)];
        [destruct (nonzero_near _ _ _ H0 Hc) as (e & He & Hnz); rewrite !select_nz by done; eapply D_eq;
           [apply (D_near (F 1%nat) _ x (T 1%nat) e He); [intros z Hz; by rewrite select_nz by (by apply Hnz)|exact H1]|ring]
        |assert (Hx : F 0%nat x = 0) by (apply Hz; replace (x - x) with 0 by ring; by rewrite Rabs_R0);
         rewrite Hx, !select_z; eapply D_eq;
           [apply (D_near (F 2%nat) _ x (T 2%nat) e He); [intros z Hzz; by rewrite (Hz z Hzz), select_z|exact H2]|ring]]
  | _ = TraceOpKind.Tanh => apply (D_of_slope (F 0%nat) tanh); [exact H0|apply D_tanh]
  | _ = TraceOpKind.Sigmoid => apply (D_of_slope (F 0%nat) sigmoid); [exact H0|apply D_sigmoid]
  | _ = TraceOpKind.ReLU => apply (D_of_slope (F 0%nat) relu); [exact H0|by apply D_relu_step]
  | _ = TraceOpKind.Abs => apply (D_of_slope (F 0%nat) Rabs); [exact H0|by apply D_abs_step]
  | _ = TraceOpKind.Clamp =>
      apply (D_of_slope (F 0%nat) (fun t => Rmin (Rmax t s) s2)); [exact H0|rewrite <- clamp_step; apply D_clamp; tauto]
  | _ = TraceOpKind.Exp => apply (D_of_slope (F 0%nat) exp); [exact H0|apply D_exp]
  | _ = TraceOpKind.GELU => apply (D_of_slope (F 0%nat) (gelu GELU_K0 GELU_K1)); [exact H0|apply D_gelu_terms]
  | _ = TraceOpKind.Log => apply (D_of_slope (F 0%nat) ln); [exact H0|by apply derivable_pt_lim_ln]
  | _ = TraceOpKind.Sqrt => apply (D_of_slope (F 0%nat) sqrt); [exact H0|by apply D_sqrt]
  | _ = TraceOpKind.Rsqrt => apply (D_of_slope (F 0%nat) (fun y => / sqrt y)); [exact H0|by apply D_rsqrt]
  | _ = TraceOpKind.ScalarDiv =>
      apply (D_of_slope (F 0%nat) (fun y => s / y)); [exact H0|]; eapply D_eq;
        [apply (D_div (fun _ => s) (fun y => y)); [apply D_const|apply D_id|exact Hs]|unfold Rsqr; field; exact Hs]
  end.
Qed.

(** ** The emitted slopes *)

Lemma EPS_bounds : 0 < EPS <= / 10 ^ 12.
Proof. unfold EPS. split; f32_eval. Qed.
Lemma real_88 : f32_real 0x42B00000 = 88.
Proof. f32_eval. Qed.
Lemma real_m88 : f32_real 0xC2B00000 = -88.
Proof. f32_eval. Qed.

Lemma real_neg b : f32_real (f32_neg b) = - f32_real b.
Proof.
  unfold f32_real, f32_decode, f32_neg.
  assert (f32_sign (Z.lxor b 0x80000000) = negb (f32_sign b)) as ->.
  { unfold f32_sign. rewrite Z.lxor_spec. change (Z.testbit 0x80000000%Z 31%Z) with true. apply xorb_true_r. }
  assert (f32_exponent (Z.lxor b 0x80000000) = f32_exponent b) as ->.
  { unfold f32_exponent. rewrite Z.shiftr_lxor. apply Z.bits_inj'. intros i Hi. rewrite !Z.land_spec, Z.lxor_spec.
    change (Z.shiftr 0x80000000 23) with (2 ^ 8)%Z. change 0xFF%Z with (Z.ones 8).
    rewrite Z.pow2_bits_eqb, Z.testbit_ones_nonneg by lia. destruct (Z.eqb_spec 8 i), (Z.ltb_spec i 8); try lia;
      by rewrite ?andb_false_r, ?xorb_false_r. }
  assert (f32_mantissa (Z.lxor b 0x80000000) = f32_mantissa b) as ->.
  { unfold f32_mantissa. apply Z.bits_inj'. intros i Hi. rewrite !Z.land_spec, Z.lxor_spec.
    change 0x80000000%Z with (2 ^ 31)%Z. change 0x7FFFFF%Z with (Z.ones 23).
    rewrite Z.pow2_bits_eqb, Z.testbit_ones_nonneg by lia. destruct (Z.eqb_spec 31 i), (Z.ltb_spec i 23); try lia;
      by rewrite ?andb_false_r, ?xorb_false_r. }
  set (m := f32_mantissa b). set (e := f32_exponent b). destruct (e =? 0xFF)%Z; [destruct (m =? 0)%Z; by rewrite Ropp_0|].
  destruct (e =? 0)%Z; [destruct m|destruct (m + 0x800000)%Z]; rewrite ?Ropp_0; try done; destruct (f32_sign b); cbn [negb]; ring.
Qed.

(** The slope [w] is within the error [e], relative to the size [m], of [p]. *)
Definition slope_close (e : R) (w p m : nat * R) : Prop :=
  w.1 = p.1 /\ m.1 = p.1 /\ Rabs (w.2 - p.2) <= e * m.2 /\ Rabs p.2 <= m.2.

Lemma close_exact i x y : x = y -> slope_close 0 (i, x) (i, y) (i, Rabs y).
Proof. intros ->. unfold slope_close. cbn. split_and!; [done|done| |lra]. rewrite Rminus_diag, Rabs_R0. lra. Qed.

(** [w = p * q] with [q] near 1 *)
Lemma close_ratio e i p q : Rabs (q - 1) <= e -> slope_close e (i, p * q) (i, p) (i, Rabs p).
Proof.
  intros Hq. unfold slope_close. cbn. split_and!; [done|done| |lra]. replace (p * q - p) with ((q - 1) * p) by ring.
  rewrite Rabs_mult. pose proof (Rabs_pos p). nra.
Qed.

Lemma close_denominator e i p w y : 0 < y -> 0 <= e -> w * (y + e) = p * y -> slope_close (e / y) (i, w) (i, p) (i, Rabs p).
Proof.
  intros Hy He Hw. replace w with (p * (y / (y + e))).
  - apply close_ratio. replace (y / (y + e) - 1) with (- (e / (y + e))) by (field; lra).
    rewrite Rabs_Ropp, Rabs_right.
    + apply Rmult_le_compat_l; [done|]. apply Rinv_le_contravar; lra.
    + apply Rle_ge, Rmult_le_pos; [done|]. left. apply Rinv_0_lt_compat. lra.
  - apply (Rmult_eq_reg_r (y + e)); [|lra]. rewrite Hw. field. lra.
Qed.

Lemma sqrt_slope_close x : 0 < x ->
  slope_close (EPS / (2 * x) + EPS / sqrt x) (0%nat, / (sqrt (x + EPS) + EPS) * / 2) (0%nat, / (2 * sqrt x)) (0%nat, Rabs (/ (2 * sqrt x))).
Proof.
  intros Hx. pose proof EPS_bounds as [He _]. pose proof (sqrt_lt_R0 _ Hx) as Hs.
  pose proof (sqrt_sqrt x ltac:(lra)) as Hq. set (a := sqrt x) in *.
  assert (Hb : 0 < sqrt (x + EPS)) by (apply sqrt_lt_R0; lra). pose proof (sqrt_sqrt (x + EPS) ltac:(lra)) as Hq'.
  set (b := sqrt (x + EPS)) in *.
  assert (Hab : a <= b) by (apply sqrt_le_1; lra).
  assert (Hd : (b - a) * (2 * a) <= EPS) by nra.
  replace (/ (b + EPS) * / 2) with (/ (2 * a) * (a / (b + EPS))) by (field; lra).
  apply close_ratio. replace (a / (b + EPS) - 1) with (- ((b - a + EPS) / (b + EPS))) by (field; lra).
  assert (Hp : 0 <= (b - a + EPS) / (b + EPS)) by (apply Rmult_le_pos; [lra|]; left; apply Rinv_0_lt_compat; lra).
  rewrite Rabs_Ropp, Rabs_right by lra.
  apply Rle_trans with ((b - a + EPS) / a).
  - apply Rmult_le_compat_l; [lra|]. apply Rinv_le_contravar; lra.
  - replace ((b - a + EPS) / a) with ((b - a) * (2 * a) / (2 * x) + EPS / a) by (rewrite <- Hq; field; lra).
    apply Rplus_le_compat_r, Rmult_le_compat_r; [left; apply Rinv_0_lt_compat; lra|done].
Qed.

Lemma rsqrt_slope_close x : 0 < x -> let r := / sqrt (x + EPS) in
  slope_close (2 * EPS / x) (0%nat, r * r * r * (- / 2)) (0%nat, - / (2 * (x * sqrt x))) (0%nat, Rabs (- / (2 * (x * sqrt x)))).
Proof.
  intros Hx r. pose proof EPS_bounds as [He _]. pose proof (sqrt_lt_R0 _ Hx) as Hs.
  pose proof (sqrt_sqrt x ltac:(lra)) as Hq.
  assert (Hb : 0 < sqrt (x + EPS)) by (apply sqrt_lt_R0; lra). pose proof (sqrt_sqrt (x + EPS) ltac:(lra)) as Hq'.
  assert (Hab : sqrt x <= sqrt (x + EPS)) by (apply sqrt_le_1; lra). unfold r.
  set (a := sqrt x) in *. set (b := sqrt (x + EPS)) in *.
  replace (/ b * / b * / b * - / 2) with (- / (2 * (x * a)) * ((a / b) * (a / b) * (a / b))) by (rewrite <- Hq; field; lra).
  apply close_ratio. set (q := a / b).
  assert (Hq0 : 0 < q) by (apply Rdiv_lt_0_compat; lra).
  assert (Hq1 : q <= 1) by (unfold q; apply (Rmult_le_reg_r b); [done|]; unfold Rdiv; rewrite Rmult_assoc, Rinv_l; lra).
  assert (Hqq : q * q = x / (x + EPS)) by (replace (q * q) with (a * a / (b * b)) by (unfold q; field; lra); by rewrite Hq, Hq').
  assert (Hlow : 1 - EPS / x <= q * q).
  { rewrite Hqq. apply (Rmult_le_reg_r (x * (x + EPS))); [nra|].
    replace ((1 - EPS / x) * (x * (x + EPS))) with (x * x - EPS * EPS) by (field; lra).
    replace (x / (x + EPS) * (x * (x + EPS))) with (x * x) by (field; lra). nra. }
  assert (He0 : 0 < EPS / x) by (by apply Rdiv_lt_0_compat).
  replace (2 * EPS / x) with (2 * (EPS / x)) by (field; lra). apply Rabs_le. nra.
Qed.

Lemma gelu_constant : Rabs (f32_real (f32_mul 0x40400000 kGeluK1) - 3 * GELU_K1) <= / 2 ^ 23 * (3 * GELU_K1) /\ 0 < GELU_K1.
Proof.
  replace (f32_mul 0x40400000 kGeluK1) with 0x3E095D4E%Z by reflexivity. unfold GELU_K1.
  assert (f32_real 0x3E095D4E = 9002318 / 2 ^ 26) as -> by f32_eval.
  assert (f32_real 0x3D372713 = 12003091 / 2 ^ 28) as -> by f32_eval.
  split; [apply Rabs_le|]; lra.
Qed.

Lemma gelu_slope_close x : slope_close (/ 2 ^ 23)
  (0%nat, gelu_step x + gelu_bend x * (1 + f32_real (f32_mul 0x40400000 kGeluK1) * (x * x)))
  (0%nat, gelu_step x + gelu_bend x * (1 + 3 * GELU_K1 * (x * x)))
  (0%nat, Rabs (gelu_step x) + Rabs (gelu_bend x * (1 + 3 * GELU_K1 * (x * x)))).
Proof.
  destruct gelu_constant as [Hc Hk]. set (c := f32_real _) in *. set (b := gelu_bend x). set (k := 3 * GELU_K1) in *.
  assert (0 < k) by (unfold k; lra). pose proof (Rle_0_sqr x) as Hx. unfold Rsqr in Hx.
  unfold slope_close. cbn [fst snd]. split_and!; [done|done| |apply Rabs_triang].
  replace (gelu_step x + b * (1 + c * (x * x)) - (gelu_step x + b * (1 + k * (x * x)))) with (b * ((c - k) * (x * x))) by ring.
  rewrite !(Rabs_mult b), (Rabs_mult (c - k)), (Rabs_right (x * x)), (Rabs_right (1 + k * (x * x))) by nra.
  pose proof (Rabs_pos b). pose proof (Rabs_pos (gelu_step x)).
  assert (Rabs (c - k) * (x * x) <= / 2 ^ 23 * (1 + k * (x * x))).
  { apply Rle_trans with (/ 2 ^ 23 * k * (x * x)); [by apply Rmult_le_compat_r|]. lra. }
  apply Rle_trans with (Rabs b * (/ 2 ^ 23 * (1 + k * (x * x)))); [by apply Rmult_le_compat_l|]. lra.
Qed.

Lemma exp_slope_close x :
  slope_close (if Rlt_dec 88 x then 1 else if Rlt_dec x (-88) then exp (-88 - x) else 0)
    (0%nat, exp (Rmin (Rmax x (f32_real 0xC2B00000)) (f32_real 0x42B00000))) (0%nat, exp x) (0%nat, Rabs (exp x)).
Proof.
  rewrite real_88, real_m88. pose proof (exp_pos x). unfold slope_close. cbn [fst snd]. rewrite (Rabs_right (exp x)) by lra.
  split_and!; [done|done| |lra]. destruct (Rlt_dec 88 x); [|destruct (Rlt_dec x (-88))].
  - rewrite Rmax_left, Rmin_right by lra. pose proof (exp_increasing 88 x ltac:(lra)). pose proof (exp_pos 88). apply Rabs_le. lra.
  - rewrite Rmax_right, Rmin_left by lra. pose proof (exp_increasing x (-88) ltac:(lra)).
    rewrite <- exp_plus. replace (-88 - x + x) with (-88) by lra. apply Rabs_le. lra.
  - rewrite Rmax_left, Rmin_left by lra. rewrite Rminus_diag, Rabs_R0. lra.
Qed.

Lemma close_weaken e e' w p m : e <= e' -> slope_close e w p m -> slope_close e' w p m.
Proof.
  intros He (H1 & H2 & H3 & H4). split_and!; [done|done| |done]. pose proof (Rabs_pos p.2). nra.
Qed.

(** The emitted slopes of an operation are its partial derivatives, within the
    error. *)
Lemma slopes_accurate n (F : nat -> R -> R) x : smooth_op n F x ->
  let args := [F 0%nat x; F 1%nat x; F 2%nat x] in
  Forall3 (slope_close (slope_err n args)) (slopes n args) (partials n args) (magnitudes n args).
Proof.
  intros Hs args. unfold smooth_op in Hs. unfold slopes, magnitudes, partials, slope_err, args. cbn [nth].
  set (a := F 0%nat x) in *. set (b := F 1%nat x) in *. set (s := f32_real (n_scalar n)) in *.
  pose proof EPS_bounds as [He _].
  destruct (n_op n); cbn [map fst snd]; repeat first [apply Forall3_cons|apply Forall3_nil]; try (by apply close_exact); try (apply close_exact; ring).
  - apply (close_weaken 0); [|by apply close_exact]. by apply Rlt_le, Rdiv_lt_0_compat, Rlt_0_sqr.
  - pose proof (Rlt_0_sqr b Hs : 0 < b * b). rewrite relu_pos by lra. apply close_denominator; [done|lra|]. field. split; lra.
  - replace (f32_real (safe_recip (n_scalar n))) with (/ s * (f32_real (safe_recip (n_scalar n)) * s)) at 2 by (field; exact Hs).
    apply close_ratio. lra.
  - pose proof (Rlt_0_sqr a Hs : 0 < a * a). rewrite relu_pos by lra. rewrite real_neg. fold s.
    apply close_denominator; [done|lra|]. field. split; lra.
  - replace (_ * / 2 + _) with (gelu_step a + gelu_bend a * (1 + f32_real (f32_mul 0x40400000 kGeluK1) * (a * a))); [apply gelu_slope_close|].
    unfold gelu_step, gelu_bend, gelu_arg. ring.
  - apply close_exact. destruct (Rlt_dec 0 a); [rewrite relu_pos, select_nz|rewrite relu_neg, select_z]; lra.
  - apply close_exact, clamp_step.
  - apply exp_slope_close.
  - rewrite select_nz by (rewrite relu_pos; lra). rewrite !(relu_pos a) by (rewrite ?relu_pos; lra).
    apply close_denominator; [done|lra|]. field. lra.
  - rewrite select_nz by (rewrite relu_pos; lra). rewrite !(relu_pos a) by (rewrite ?relu_pos; lra).
    rewrite (relu_pos (sqrt _)) by apply sqrt_pos. by apply sqrt_slope_close.
  - rewrite select_nz by (rewrite relu_pos; lra). rewrite !(relu_pos a) by (rewrite ?relu_pos; lra).
    by apply rsqrt_slope_close.
  - apply close_exact. destruct (Rlt_dec 0 a).
    + rewrite relu_pos, select_nz; lra.
    + rewrite (relu_neg a), select_z, relu_pos, select_nz; lra.
Qed.

End Derivatives.

(** ** The gradient of a graph *)

(** The environment with input [k] replaced. *)
Definition set_input (env : nat -> R) (k : nat) (t : R) (j : nat) : R := if (j =? k)%nat then t else env j.

Lemma evals_env_ext e e' ns : (forall j, e j = e' j) -> evals e ns = evals e' ns.
Proof.
  intros H. induction ns as [|n ns IH] using rev_ind; [done|]. rewrite !evals_snoc, IH. unfold eval_node. by rewrite H.
Qed.

Lemma value_set_same env k d i : value (set_input env k (env k)) d i = value env d i.
Proof.
  unfold value. rewrite (evals_env_ext _ env); [done|]. intros j. unfold set_input.
  by destruct (Nat.eqb_spec j k) as [->|].
Qed.

(** Every operation of [d] is differentiable where input [k] varies around
    [env]. *)
Definition smooth (env : nat -> R) (k : nat) (d : TraceDAG) : Prop :=
  forall i n, nodes_ d !! i = Some n -> is_input n = false ->
    smooth_op n (fun p t => value (set_input env k t) d (in_at n p)) (env k).

(** The forward accumulation of the partial derivatives, and that of their
    sizes. *)
Definition derivative : (nat -> R) -> nat -> TraceDAG -> Z -> R := accumulated partials.
Definition reach : (nat -> R) -> nat -> TraceDAG -> Z -> R := accumulated magnitudes.

Lemma partials_local : local_factors partials.
Proof.
  constructor.
  - intros n args. unfold partials. destruct (n_op n); repeat constructor.
  - intros n U W H. unfold partials, operands. destruct (n_op n); cbn [op_arity] in H; cbn [nth];
      rewrite ?(H 0%nat), ?(H 1%nat), ?(H 2%nat) by lia; done.
Qed.

Lemma magnitudes_local : local_factors magnitudes.
Proof.
  constructor.
  - intros n args. unfold magnitudes, partials. destruct (n_op n); repeat constructor.
  - intros n U W H. unfold magnitudes. rewrite (lf_ext _ partials_local n U W H). destruct (n_op n); try done.
    cbn [op_arity] in H. unfold operands. cbn [nth]. by rewrite (H 0%nat) by lia.
Qed.

Section Gradient.
Context (d : TraceDAG) (Hd : gradable d).

(** The accumulated partial derivatives are the derivatives of the values. *)
Lemma derivative_correct env k : smooth env k d -> forall i, (i < length (nodes_ d))%nat ->
  D (fun t => value (set_input env k t) d (Z.of_nat i)) (env k) (derivative env k d (Z.of_nat i)).
Proof.
  intros Hs i. induction (lt_wf i) as [i _ IH]. intros Hi. unfold derivative.
  destruct (lookup_lt_is_Some_2 _ _ Hi) as [n Hn]. destruct (is_input n) eqn:E.
  - rewrite (accumulated_input env d partials k i n Hn E).
    apply (derivable_pt_lim_ext (fun t => set_input env k t (inputs_in (take i (nodes_ d))))).
    { intros t. by rewrite (value_input _ d Hd i n Hn E). }
    unfold set_input. destruct (Nat.eqb _ k); [apply D_id|apply D_const].
  - set (F p t := value (set_input env k t) d (in_at n p)).
    apply (derivable_pt_lim_ext (fun t => rop (n_op n) (f32_real (n_scalar n)) (f32_real (n_scalar2 n)) [F 0%nat t; F 1%nat t; F 2%nat t])).
    { intros t. by rewrite (value_operands _ d Hd i n Hn E). }
    eapply D_eq.
    + apply (op_derivative n F (env k) (fun p => derivative env k d (in_at n p))); [|by eapply gr_ops|done|by apply (Hs i)].
      intros p Hp. destruct (operand_range d Hd i n p Hn Hp) as [H0 H1]. unfold F.
      replace (in_at n p) with (Z.of_nat (Z.to_nat (in_at n p))) by lia. apply IH; lia.
    + rewrite (accumulated_op env d Hd partials k i n partials_local Hn E). unfold F. by rewrite !value_set_same.
Qed.

Local Open Scope R_scope.

(** The accumulated error of the slopes: [c] for the operands, [e] for the
    operation. *)
Lemma wdot_close n e c (S T U : Z -> R) ws ps ms : 0 <= e -> 0 <= c -> Forall3 (slope_close e) ws ps ms ->
  Forall (fun pw => Rabs (S (in_at n pw.1) - T (in_at n pw.1)) <= c * U (in_at n pw.1) /\
                    Rabs (T (in_at n pw.1)) <= U (in_at n pw.1)) ps ->
  Rabs (wdot n S ws - wdot n T ps) <= ((1 + e) * (1 + c) - 1) * wdot n U ms /\ Rabs (wdot n T ps) <= wdot n U ms.
Proof.
  intros He Hc H. induction H as [|[i w] [i' p] [i'' m] ws ps ms (E1 & E2 & Hw & Hp) _ IH]; intros HF.
  - cbn. rewrite Rminus_diag, Rabs_R0. lra.
  - apply Forall_cons in HF as [[HS HT] HF]. destruct (IH HF) as [IH1 IH2]. cbn [fst snd] in *. subst i i''.
    cbn [wdot foldr fst snd]. change (foldr _ 0 ws) with (wdot n S ws). change (foldr _ 0 ps) with (wdot n T ps).
    change (foldr _ 0 ms) with (wdot n U ms). set (s := S (in_at n i')) in *. set (t := T (in_at n i')) in *.
    set (u := U (in_at n i')) in *. pose proof (Rabs_pos t). pose proof (Rabs_pos p). pose proof (Rabs_pos (w - p)).
    assert (Hs : Rabs s <= (1 + c) * u).
    { replace s with (s - t + t) by ring. pose proof (Rabs_triang (s - t) t). nra. }
    assert (Hb1 : Rabs (w * s - p * t) <= ((1 + e) * (1 + c) - 1) * (m * u)).
    { replace (w * s - p * t) with ((w - p) * s + p * (s - t)) by ring. eapply Rle_trans; [apply Rabs_triang|].
      rewrite !Rabs_mult. pose proof (Rmult_le_compat _ _ _ _ (Rabs_pos _) (Rabs_pos s) Hw Hs).
      pose proof (Rmult_le_compat _ _ _ _ (Rabs_pos p) (Rabs_pos _) Hp HS). lra. }
    assert (Hb2 : Rabs (p * t) <= m * u) by (rewrite Rabs_mult; apply Rmult_le_compat; done).
    split.
    + replace (w * s + wdot n S ws - (p * t + wdot n T ps)) with (w * s - p * t + (wdot n S ws - wdot n T ps)) by ring.
      eapply Rle_trans; [apply Rabs_triang|]. lra.
    + eapply Rle_trans; [apply Rabs_triang|]. lra.
Qed.

Lemma growth_le e i j : 0 <= e -> (i <= j)%nat -> 0 <= (1 + e) ^ i - 1 <= (1 + e) ^ j - 1.
Proof.
  intros He Hij. pose proof (Rle_pow (1 + e) 0 i ltac:(lra) ltac:(lia)). pose proof (Rle_pow (1 + e) i j ltac:(lra) Hij).
  cbn [pow] in *. lra.
Qed.

(** The emitted slopes accumulate to the derivative, within the error. *)
Lemma tangent_close env k e : smooth env k d -> 0 <= e ->
  (forall j n, nodes_ d !! j = Some n -> slope_err n (operands (value env d) n) <= e) ->
  forall i, (i < length (nodes_ d))%nat ->
    Rabs (tangent env k d (Z.of_nat i) - derivative env k d (Z.of_nat i)) <= ((1 + e) ^ Datatypes.S i - 1) * reach env k d (Z.of_nat i) /\
    Rabs (derivative env k d (Z.of_nat i)) <= reach env k d (Z.of_nat i).
Proof.
  intros Hs He Herr i. induction (lt_wf i) as [i _ IH]. intros Hi. unfold derivative, reach.
  destruct (lookup_lt_is_Some_2 _ _ Hi) as [n Hn]. destruct (is_input n) eqn:E.
  - rewrite (tangent_input env d k i n Hn E), !(accumulated_input env d _ k i n Hn E).
    pose proof (growth_le e 0 (Datatypes.S i) He ltac:(lia)) as Hg. cbn [pow] in Hg.
    rewrite Rminus_diag, Rabs_R0. destruct (Nat.eqb _ k); rewrite ?Rabs_R1, ?Rabs_R0; cbn [pow] in *; lra.
  - rewrite (tangent_op env d Hd k i n Hn E), (accumulated_op env d Hd partials k i n partials_local Hn E),
      (accumulated_op env d Hd magnitudes k i n magnitudes_local Hn E).
    replace ((1 + e) ^ Datatypes.S i - 1) with ((1 + e) * (1 + ((1 + e) ^ i - 1)) - 1) by (cbn [pow]; ring).
    pose proof (growth_le e 0 i He ltac:(lia)) as Hg. cbn [pow] in Hg.
    apply wdot_close; [done|lra| |].
    + eapply Forall3_impl; [|intros w p m Hc; eapply close_weaken; [by apply (Herr i n)|exact Hc]].
      pose proof (slopes_accurate n _ _ (Hs i n Hn E)) as Ha. cbn beta zeta in Ha. by rewrite !value_set_same in Ha.
    + eapply Forall_impl; [apply (lf_arity _ partials_local)|]. intros pw Hp. cbn beta.
      destruct (operand_range d Hd i n pw.1 Hn Hp) as [H0 H1].
      destruct (IH (Z.to_nat (in_at n pw.1)) ltac:(lia) ltac:(lia)) as [HT HD]. rewrite Z2Nat.id in HT, HD by lia.
      split; [|done]. eapply Rle_trans; [exact HT|]. apply Rmult_le_compat_r; [pose proof (Rabs_pos (derivative env k d (in_at n pw.1))); unfold reach in *; lra|].
      apply growth_le; [done|lia].
Qed.

Lemma total_close (S T U : Z -> R) c l : Forall (fun i => Rabs (S i - T i) <= c * U i) l ->
  Rabs (total S l - total T l) <= c * total U l.
Proof.
  induction 1 as [|i l H _ IH].
  - unfold total. cbn [foldr]. rewrite Rminus_diag, Rabs_R0. lra.
  - change (total S (i :: l)) with (S i + total S l). change (total T (i :: l)) with (T i + total T l).
    change (total U (i :: l)) with (U i + total U l).
    replace (S i + total S l - (T i + total T l)) with (S i - T i + (total S l - total T l)) by ring.
    eapply Rle_trans; [apply Rabs_triang|]. lra.
Qed.

Lemma total_derivative (f : R -> Z -> R) (T : Z -> R) x l : Forall (fun i => D (fun t => f t i) x (T i)) l ->
  D (fun t => total (f t) l) x (total T l).
Proof.
  induction 1 as [|i l Hi _ IH]; [exact (D_const 0%R x)|]. apply (D_plus (fun t => f t i) (fun t => total (f t) l)); done.
Qed.

(** What the traced function sums to: its live nodes. *)
Definition loss (env : nat -> R) : R := total (value env d) (outputs d).

Lemma loss_derivative env k : smooth env k d ->
  D (fun t => loss (set_input env k t)) (env k) (total (derivative env k d) (outputs d)).
Proof.
  intros Hs. apply total_derivative. destruct (outputs_range d Hd) as [_ Hr]. eapply Forall_impl; [exact Hr|].
  intros i Hi. cbn in Hi. replace i with (Z.of_nat (Z.to_nat i)) by lia. apply derivative_correct; [done|lia].
Qed.

Lemma gradient_close env k e : smooth env k d -> 0 <= e ->
  (forall j n, nodes_ d !! j = Some n -> slope_err n (operands (value env d) n) <= e) ->
  Rabs (total (tangent env k d) (outputs d) - total (derivative env k d) (outputs d)) <=
    ((1 + e) ^ length (nodes_ d) - 1) * total (reach env k d) (outputs d).
Proof.
  intros Hs He Herr. apply total_close. destruct (outputs_range d Hd) as [_ Hr]. eapply Forall_impl; [exact Hr|].
  intros i Hi. cbn in Hi. destruct (tangent_close env k e Hs He Herr (Z.to_nat i) ltac:(lia)) as [H1 H2].
  rewrite Z2Nat.id in H1, H2 by lia. eapply Rle_trans; [exact H1|].
  apply Rmult_le_compat_r; [pose proof (Rabs_pos (derivative env k d i)); lra|]. apply growth_le; [done|lia].
Qed.
End Gradient.

Lemma Forall2_in {A B} (P Q : A -> B -> Prop) l k : (forall a b, b ∈ k -> P a b -> Q a b) -> Forall2 P l k -> Forall2 Q l k.
Proof.
  intros H HP. induction HP as [|a b l k Hab _ IH]; constructor; [apply H; [by left|done]|].
  apply IH. intros a' b' Hb. apply H. by right.
Qed.

Lemma Forall2_compose {A B C} (P : A -> B -> Prop) (Q : B -> C -> Prop) (S : A -> C -> Prop) l m k :
  (forall a b c, P a b -> Q b c -> S a c) -> Forall2 P l m -> Forall2 Q m k -> Forall2 S l k.
Proof.
  intros H HP. revert k. induction HP as [|a b l m Hab _ IH]; intros k HQ.
  - by apply Forall2_nil_inv_l in HQ as ->.
  - apply Forall2_cons_inv_l in HQ as (c & k' & Hbc & HQ & ->). constructor; [by eapply H|by apply IH].
Qed.

Lemma wanted_lookup d target i : i ∈ wanted d target -> exists k, input_ids (nodes_ d) !! k = Some i.
Proof.
  unfold wanted. destruct (target >=? 0); [|by apply list_elem_of_lookup].
  destruct (input_ids (nodes_ d) !! Z.to_nat target) as [j|] eqn:E; [|by intros []%not_elem_of_nil].
  intros ->%list_elem_of_singleton. by eexists.
Qed.

(** The graph [backward] builds, before it is pruned, and what pruning makes of it. *)
Lemma backward_runs d target : gradable d -> input_ids (nodes_ d) <> [] -> target < zlen (input_ids (nodes_ d)) ->
  30 * zlen (nodes_ d) + 1 <= INT_MAX ->
  exists ss g p, backward_nodes d target empty_dag = (Ret ss, g) /\ prune g ss = Ret p /\ backward d target = Ret p /\
    good false g /\ good false p /\
    (forall t n, node_at (nodes_ p) t = Some n -> n_op n <> TraceOpKind.Input -> needed p (live_ids p) t) /\
    (forall t n, t ∈ live_ids p -> node_at (nodes_ p) t = Some n -> n_op n = TraceOpKind.Copy) /\
    forall env dy, exists A, gradients env dy d A /\
      Forall2 (fun t i => value (backward_env d env dy) p t = A i) (live_ids p) (wanted d target).
Proof.
  intros Hd Hne Ht Hfit. pose proof (zlen_nonneg (nodes_ d)) as H0.
  assert (Hrun : forall env dy, exists ss g, backward_nodes d target empty_dag = (Ret ss, g) /\ zlen (nodes_ g) <= INT_MAX /\
    good false g /\ exists A, out_slots_ok env dy d g ss (map A (wanted d target)) /\ gradients env dy d A).
  { intros env dy. destruct (runs_backward_nodes env dy d Hd target Hne ltac:(lia) Ht (good_empty false)) as (ss & g & E & _ & Hl & Hg & HA).
    - change (zlen (nodes_ empty_dag)) with 0. lia.
    - exists ss, g. split_and!; [done| |done|done]. change (zlen (nodes_ empty_dag)) with 0 in Hl. lia. }
  destruct (Hrun (fun _ => 0%R) 0%R) as (ss & g & E & Hl & Hg & A0 & Hos & _).
  assert (Hr : Forall (fun s => 0 <= s < zlen (nodes_ g)) ss).
  { apply Forall_forall. intros s Hs. apply list_elem_of_lookup in Hs as (x & Hx).
    destruct (Forall2_lookup_l _ _ _ _ _ (os_vals _ _ _ _ _ _ Hos) Hx) as (v & _ & Hv). by eapply has_range. }
  destruct (prune_correct g ss Hg Hl Hr (os_sorted _ _ _ _ _ _ Hos)) as (p & Ep & Hgp & _ & Hval & Hneed & Hcopy).
  exists ss, g, p. split_and!; [done|done| |done|done|done| |].
  - unfold backward. destruct (nodes_ d) eqn:En; [done|]. by rewrite E.
  - intros t n Hin Hn. destruct (Hcopy t n Hin Hn) as (s & m & Hs & Hm & ->).
    pose proof (os_copy _ _ _ _ _ _ Hos) as Hc. rewrite Forall_forall in Hc. destruct (Hc s Hs) as (m' & Hm' & Hop). congruence.
  - intros env dy. destruct (Hrun env dy) as (ss' & g' & E' & _ & _ & A & Hos' & HA).
    rewrite E in E'. injection E' as <- <-. exists A. split; [done|].
    pose proof (os_vals _ _ _ _ _ _ Hos') as Hv. apply (proj1 (Forall2_fmap_r A _ _ _)) in Hv.
    eapply Forall2_compose; [|exact (Hval (backward_env d env dy))|exact Hv].
    intros t s i Hts Hs. cbn in Hs. rewrite Hts. by apply has_value.
Qed.

(** C4: [TraceDAG::backward] on every traced graph of supported operations
    returns: a well-formed graph in which every node that is not an input is
    needed for a gradient, whose live nodes are copies, one for each input whose
    gradient was asked for, in order. Bound to the inputs' values and the
    upstream gradient [dy], the copy for input [k] holds [dy] times the sum over
    the outputs of the forward accumulation of the emitted slopes from input
    [k]: reverse and forward mode agree, for every operation and shared
    operand. *)
Theorem backward_correct d target : gradable d -> input_ids (nodes_ d) <> [] -> target < zlen (input_ids (nodes_ d)) ->
  30 * zlen (nodes_ d) + 1 <= INT_MAX ->
  exists p, backward d target = Ret p /\ good false p /\
    (forall t n, node_at (nodes_ p) t = Some n -> n_op n <> TraceOpKind.Input -> needed p (live_ids p) t) /\
    (forall t n, t ∈ live_ids p -> node_at (nodes_ p) t = Some n -> n_op n = TraceOpKind.Copy) /\
    forall env dy, Forall2 (fun t i => exists k, input_ids (nodes_ d) !! k = Some i /\
        value (backward_env d env dy) p t = (dy * total (tangent env k d) (outputs d))%R)
      (live_ids p) (wanted d target).
Proof.
  intros Hd Hne Ht Hfit. destruct (backward_runs d target Hd Hne Ht Hfit) as (ss & g & p & _ & _ & Eb & _ & Hgp & Hneed & Hcp & Hv).
  exists p. split_and!; [done|done|done|done|]. intros env dy. destruct (Hv env dy) as (A & HA & Hvals).
  eapply Forall2_in; [|exact Hvals]. intros t i Hi Hti.
  destruct (wanted_lookup d target i Hi) as (k & Hk). exists k. split; [done|]. rewrite Hti. by apply HA.
Qed.

(** C3: The backward graph computes the gradient. Where every operation of the
    traced graph is differentiable, the copy for input [k] holds the upstream
    gradient [dy] times the derivative, with respect to input [k], of what the
    traced graph computes: exactly if no slope errs, and if every slope errs by
    at most [e] relative to the partial derivative's size, within
    [(1 + e) ^ nodes - 1] of the accumulated sizes. *)
Theorem backward_gradient d target env dy : gradable d -> input_ids (nodes_ d) <> [] ->
  target < zlen (input_ids (nodes_ d)) -> 30 * zlen (nodes_ d) + 1 <= INT_MAX ->
  (forall k i, input_ids (nodes_ d) !! k = Some i -> i ∈ wanted d target -> smooth env k d) ->
  exists p, backward d target = Ret p /\
    Forall2 (fun t i => exists k slope, input_ids (nodes_ d) !! k = Some i /\
        D (fun x => loss d (set_input env k x)) (env k) slope /\
        forall e, (0 <= e)%R -> (forall j n, nodes_ d !! j = Some n -> (slope_err n (operands (value env d) n) <= e)%R) ->
          (Rabs (value (backward_env d env dy) p t - dy * slope) <=
             Rabs dy * (((1 + e) ^ length (nodes_ d) - 1) * total (reach env k d) (outputs d)))%R)
      (live_ids p) (wanted d target).
Proof.
  intros Hd Hne Ht Hfit Hs. destruct (backward_runs d target Hd Hne Ht Hfit) as (ss & g & p & _ & _ & Eb & _ & _ & _ & _ & Hv).
  exists p. split; [done|]. destruct (Hv env dy) as (A & HA & Hvals).
  eapply Forall2_in; [|exact Hvals]. intros t i Hi Hti. destruct (wanted_lookup d target i Hi) as (k & Hk).
  exists k, (total (derivative env k d) (outputs d)). split_and!; [done| |].
  - apply loss_derivative; [done|]. by eapply Hs.
  - intros e He Herr. rewrite Hti, (HA k i Hk). rewrite <- Rmult_minus_distr_l, Rabs_mult.
    apply Rmult_le_compat_l; [apply Rabs_pos|]. apply gradient_close; [done|by eapply Hs|done|done].
Qed.

(** ** An example

    [ln(a * b) + a], at [a = 1], [b = 2]. *)
Module GradEx.
Definition nd (id : Z) (op : TraceOpKind) (ins : list Z) (live : bool) : TraceNode :=
  mkNode id op ins [] 0 0 nullptr Dev.CPU0 FP32 2 3 false (-1) live.
Definition graph : TraceDAG :=
  mkDAG [nd 0 TraceOpKind.Input [] false; nd 1 TraceOpKind.Input [] false; nd 2 TraceOpKind.Mul [0; 1] false;
         nd 3 TraceOpKind.Log [2] false; nd 4 TraceOpKind.Add [3; 0] true] ∅.
Definition point (j : nat) : R := INR (S j).

Lemma graph_nodes (P : nat -> TraceNode -> Prop) :
  P 0%nat (nd 0 TraceOpKind.Input [] false) -> P 1%nat (nd 1 TraceOpKind.Input [] false) ->
  P 2%nat (nd 2 TraceOpKind.Mul [0; 1] false) -> P 3%nat (nd 3 TraceOpKind.Log [2] false) ->
  P 4%nat (nd 4 TraceOpKind.Add [3; 0] true) ->
  forall i n, nodes_ graph !! i = Some n -> P i n.
Proof. intros H0 H1 H2 H3 H4 i n Hi. do 5 (destruct i as [|i]; [by injection Hi as <-|]). done. Qed.

Lemma graph_gradable : gradable graph.
Proof.
  constructor.
  - refine (graph_nodes (fun i n => n_id n = Z.of_nat i /\ Forall (fun s => 0 <= s < Z.of_nat i) (n_inputs n)) _ _ _ _ _);
      (split; [done|]); repeat constructor; done.
  - refine (graph_nodes (fun i n => (op_arity (n_op n) <= length (n_inputs n))%nat) _ _ _ _ _); cbn; lia.
  - by refine (graph_nodes (fun i n => differentiable (n_op n) = true) _ _ _ _ _).
Qed.

Lemma graph_product env : value env graph 2 = (env 0%nat * env 1%nat)%R.
Proof.
  change 2 with (Z.of_nat 2). rewrite (value_operands env graph graph_gradable 2 _ eq_refl eq_refl).
  unfold operands. change (in_at _ 0) with (Z.of_nat 0). change (in_at _ 1) with (Z.of_nat 1).
  rewrite (value_input env graph graph_gradable 0 _ eq_refl eq_refl), (value_input env graph graph_gradable 1 _ eq_refl eq_refl).
  reflexivity.
Qed.

Lemma graph_smooth k : smooth point k graph.
Proof.
  refine (graph_nodes (fun i n => is_input n = false -> smooth_op n (fun p t => value (set_input point k t) graph (in_at n p))
    (point k)) _ _ _ _ _); try done.
  intros _. cbn. change (in_at _ 0) with 2. rewrite value_set_same, graph_product. unfold point. cbn. lra.
Qed.

Lemma graph_slopes j n : nodes_ graph !! j = Some n -> (slope_err n (operands (value point graph) n) <= / 10 ^ 12)%R.
Proof.
  revert j n. pose proof EPS_bounds as [He Hb].
  refine (graph_nodes (fun i n => (slope_err n (operands (value point graph) n) <= / 10 ^ 12)%R) _ _ _ _ _); cbn; try lra.
  change (in_at _ 0) with 2. rewrite graph_product. unfold point. cbn. cbn in Hb. lra.
Qed.
End GradEx.

Lemma backward_correct_witness : exists p, backward GradEx.graph (-1) = Ret p /\ length (live_ids p) = 2%nat /\
  Forall2 (fun t i => exists k, input_ids (nodes_ GradEx.graph) !! k = Some i /\
      value (backward_env GradEx.graph GradEx.point 1) p t =
        (1 * total (tangent GradEx.point k GradEx.graph) (outputs GradEx.graph))%R) (live_ids p) [0; 1].
Proof.
  destruct (backward_correct GradEx.graph (-1) GradEx.graph_gradable ltac:(discriminate) ltac:(reflexivity) ltac:(vm_compute; discriminate))
    as (p & E & _ & _ & _ & Hv).
  exists p. split; [exact E|]. specialize (Hv GradEx.point 1%R). split; [|exact Hv].
  by rewrite (Forall2_length _ _ _ Hv).
Defined.

Lemma backward_gradient_witness : exists p, backward GradEx.graph 1 = Ret p /\
  Forall2 (fun t i => exists k slope, input_ids (nodes_ GradEx.graph) !! k = Some i /\
      D (fun x => loss GradEx.graph (set_input GradEx.point k x)) (GradEx.point k) slope /\
      (Rabs (value (backward_env GradEx.graph GradEx.point 1) p t - 1 * slope) <=
         Rabs 1 * (((1 + / 10 ^ 12) ^ 5 - 1) * total (reach GradEx.point k GradEx.graph) (outputs GradEx.graph)))%R)
    (live_ids p) [1].
Proof.
  destruct (backward_gradient GradEx.graph 1 GradEx.point 1%R GradEx.graph_gradable ltac:(discriminate) ltac:(reflexivity) ltac:(vm_compute; discriminate)
    (fun k i _ _ => GradEx.graph_smooth k)) as (p & E & H).
  exists p. split; [exact E|]. eapply Forall2_impl; [exact H|]. intros t i (k & slope & Hk & HD & Hc). exists k, slope.
  split_and!; [done|done|]. apply Hc; [|exact GradEx.graph_slopes].
  pose proof (pow_lt 10 12 ltac:(lra)) as Hp. left. by apply Rinv_0_lt_compat.
Defined.
