(* ===== verification/AutodiffLower.v ===== *)
(** * What the lowered operations compute

    The meaning, in the real numbers, of the node sequences the lowering of
    src/jit/trace_autodiff.cpp emits for the operations no emitter has a form
    for: [lop], with the safe division and the series the code has. *)
From Stdlib Require Import Reals Lra.
From S2P Require Import Prelude Dtype Device Heap Tensor TraceDag TraceSpec Float32 Autodiff TraceMeaning AutodiffEmit AutodiffSweep.

(** [num / den] with a denominator kept away from zero. *)
Definition sign_of (y : R) : R := select (relu y) 1 (select (relu (- y)) (-1) 0).
Definition safe_div (x y : R) : R := (x * sign_of y / (relu (relu y + relu (- y)) + EPS))%R.

Definition exp_base (x : R) : R :=
  let t := tanh (Rmin (Rmax x (f32_real 0xC2B00000)) (f32_real 0x42B00000) * f32_real 0x3D000000) in
  ((t + 1) / (relu (1 - t) + EPS))%R.
(** [y] squared four times *)
Definition low_exp (x : R) : R := (exp_base x ^ 16)%R.

Definition newton (xs y : R) : R := ((y + xs / (relu y + EPS)) * / 2)%R.
Definition guess (xs : R) : R := select (relu (xs - f32_real 0x41800000)) (xs * f32_real 0x3E000000 + f32_real 0x40000000) (xs * / 2 + / 2).
Definition low_sqrt (x : R) : R :=
  let xs := (relu (relu x) + EPS)%R in select (relu x) (Nat.iter 7 (newton xs) (guess xs)) 0.
Definition low_rsqrt (x : R) : R := (1 / (relu (low_sqrt (relu (relu x) + EPS)) + EPS))%R.

Definition series (u2 : R) : R :=
  (((((u2 * f32_real 0x3DE38E39 + f32_real 0x3E124925) * u2 + f32_real 0x3E4CCCCD) * u2 + f32_real 0x3EAAAAAB) * u2) + 1)%R.
Definition low_log (x : R) : R :=
  let r := low_sqrt (low_sqrt (low_sqrt (relu (relu x) + EPS))) in
  let u := ((r - 1) / (relu r + 1))%R in
  (u * series (u * u) * f32_real 0x41800000)%R.

(** The lowered form of node [n], its denominator known to be positive where
    [pos]. *)
Definition lop (pos : bool) (n : TraceNode) (args : list R) : R :=
  let x := nth 0 args 0%R in
  let y := nth 1 args 0%R in
  let s := f32_real (n_scalar n) in
  match n_op n with
  | TraceOpKind.Div => if pos then (x / y)%R else safe_div x y
  | TraceOpKind.ScalarDiv => if pos then (s / x)%R else safe_div s x
  | TraceOpKind.DivScalar => (x * f32_real (safe_recip (n_scalar n)))%R
  | TraceOpKind.Exp => low_exp x
  | TraceOpKind.Sqrt => low_sqrt x
  | TraceOpKind.Rsqrt => low_rsqrt x
  | TraceOpKind.Log => low_log x
  | _ => rop (n_op n) s (f32_real (n_scalar2 n)) args
  end.

(** The denominator of a division. *)
Definition denominator (n : TraceNode) (args : list R) : R :=
  match n_op n with TraceOpKind.Div => nth 1 args 0%R | _ => nth 0 args 0%R end.

(** A rectified value plus a positive constant: what a guarded denominator is. *)
Definition rectified (y : R) : Prop := exists r c, f32_ltb 0 c = true /\ y = (relu r + f32_real c)%R.

Section Pieces.
Context (low : bool) (env : nat -> R).
Implicit Types (m : ShapeMeta) (d : TraceDAG).

Abbreviation has := (has env).
Abbreviation runs := (runs low).

Lemma runs_abs k m x v d (Phi : Z -> TraceDAG -> Prop) : has d x v -> 4 <= k ->
  (forall i d', ext d d' -> has d' i (Rabs v) -> Phi i d') -> runs k (emit_abs x m) d Phi.
Proof.
  intros Hx Hk HP. pose proof (ext_refl d) as X0. unfold emit_abs, emit.
  emit_step. piece 1 runs_neg. do 2 emit_step. apply HP; [done|].
  replace (Rabs v) with (relu v + relu (- v))%R; [done|].
  unfold relu, Rmax, Rabs. destruct (Rle_dec v 0), (Rle_dec (- v) 0), (Rcase_abs v); lra.
Qed.

Lemma runs_gelu k m x v d (Phi : Z -> TraceDAG -> Prop) : has d x v -> 9 <= k ->
  (forall i d', ext d d' -> has d' i (gelu GELU_K0 GELU_K1 v) -> Phi i d') -> runs k (lower_gelu x m) d Phi.
Proof.
  intros Hx Hk HP. pose proof (ext_refl d) as X0. unfold lower_gelu, emit. do 9 emit_step. apply HP; [done|].
  match goal with H : TraceMeaning.has _ _ ?i _ |- TraceMeaning.has _ _ ?i _ => revert H end.
  rewrite real_half, real_one. fold GELU_K0 GELU_K1. intros H. unfold gelu.
  replace (v * / 2 * (1 + tanh (GELU_K0 * (v + GELU_K1 * (v * v * v)))))%R
    with (v * / 2 * (tanh ((v + v * v * v * GELU_K1) * GELU_K0) + 1))%R; [done|].
  replace (GELU_K0 * (v + GELU_K1 * (v * v * v)))%R with ((v + v * v * v * GELU_K1) * GELU_K0)%R by ring. ring.
Qed.

Lemma runs_exp k m x v d (Phi : Z -> TraceDAG -> Prop) : has d x v -> 12 <= k ->
  (forall i d', ext d d' -> has d' i (low_exp v) -> Phi i d') -> runs k (emit_lowered_exp x m) d Phi.
Proof.
  intros Hx Hk HP. pose proof (ext_refl d) as X0. unfold emit_lowered_exp, emit. do 5 emit_step. guard_step.
  emit_step; [intros _ _; split; [done|]; eexists; split; [reflexivity|eassumption]|].
  cbn [iterate]. do 4 emit_step. apply runs_done; [lia|]. apply HP; [done|].
  match goal with H : TraceMeaning.has _ _ ?i _ |- TraceMeaning.has _ _ ?i _ => revert H end.
  rewrite real_one. fold EPS. intros H. unfold low_exp, exp_base. 
  eapply eq_ind; [exact H|]. ring.
Qed.

Lemma runs_newtons j : forall k m xs y X Y d (Phi : Z -> TraceDAG -> Prop), has d xs X -> has d y Y -> 5 * Z.of_nat j <= k ->
  (forall i d', ext d d' -> has d' i (Nat.iter j (newton X) Y) -> Phi i d') -> runs k (iterate j (newton_step xs m) y) d Phi.
Proof.
  induction j as [|j IH]; intros k m xs y X Y d Phi Hx Hy Hk HP; [apply runs_done; [lia|]; apply HP; [apply ext_refl|done]|].
  cbn [iterate]. pose proof (ext_refl d) as X0. eapply (runs_seq _ 5); [lia|].
  unfold newton_step, emit. guard_step.
  emit_step; [intros _ _; split; [done|]; eexists; split; [reflexivity|eassumption]|].
  do 2 emit_step. rewrite real_half in *. fold EPS in *.
  eapply IH; [eassumption|eassumption|lia|]. intros i' d' X' Hi. apply HP; [by eapply ext_trans|].
  by rewrite Nat.iter_succ_r.
Qed.

Lemma runs_sqrt k m anchor x a v d (Phi : Z -> TraceDAG -> Prop) : has d anchor a -> has d x v -> 48 <= k ->
  (forall i d', ext d d' -> has d' i (low_sqrt v) -> Phi i d') -> runs k (emit_lowered_sqrt anchor x m) d Phi.
Proof.
  intros Ha Hx Hk HP. pose proof (ext_refl d) as X0. unfold emit_lowered_sqrt, emit.
  emit_step. guard_step. do 7 emit_step. rewrite real_half in *. fold EPS in *.
  eapply (runs_seq _ 35); [lia|]. eapply runs_newtons; [eassumption|eassumption|lia|].
  let X := fresh "X" in intros y d' X Hy _; carry X. const_step. emit_step. apply HP; [done|].
  match goal with H : TraceMeaning.has _ _ ?i _ |- TraceMeaning.has _ _ ?i _ => revert H end. by rewrite real_0.
Qed.

Lemma runs_rsqrt k m anchor x a v d (Phi : Z -> TraceDAG -> Prop) : has d anchor a -> has d x v -> 56 <= k ->
  (forall i d', ext d d' -> has d' i (low_rsqrt v) -> Phi i d') -> runs k (emit_lowered_rsqrt anchor x m) d Phi.
Proof.
  intros Ha Hx Hk HP. pose proof (ext_refl d) as X0. unfold emit_lowered_rsqrt, emit.
  emit_step. guard_step. eapply (runs_seq _ 48); [lia|]. eapply runs_sqrt; [exact Ha|eassumption|lia|].
  let X := fresh "X" in intros y d' X Hy _; carry X. const_step. guard_step.
  emit_step; [intros _; split; [done|]; eexists; split; [reflexivity|eassumption]|]. apply HP; [done|].
  match goal with H : TraceMeaning.has _ _ ?i _ |- TraceMeaning.has _ _ ?i _ => revert H end. by rewrite real_one.
Qed.

Lemma runs_horner k m u2 p c vu vp d (Phi : Z -> TraceDAG -> Prop) : has d u2 vu -> has d p vp -> 2 <= k ->
  (forall i d', ext d d' -> has d' i (vp * vu + f32_real c)%R -> Phi i d') -> runs k (horner u2 m p c) d Phi.
Proof.
  intros Hu Hp Hk HP. pose proof (ext_refl d) as X0. unfold horner, emit. do 2 emit_step. by apply HP.
Qed.

Lemma runs_log k m anchor x a v d (Phi : Z -> TraceDAG -> Prop) : has d anchor a -> has d x v -> 163 <= k ->
  (forall i d', ext d d' -> has d' i (low_log v) -> Phi i d') -> runs k (emit_lowered_log anchor x m) d Phi.
Proof.
  intros Ha Hx Hk HP. pose proof (ext_refl d) as X0. unfold emit_lowered_log, emit.
  emit_step. guard_step.
  do 3 (eapply (runs_seq _ 48); [lia|]; eapply runs_sqrt; [exact Ha|eassumption|lia|];
    let X := fresh "X" in intros ? ? X ? _; carry X).
  emit_step. guard_step.
  emit_step; [intros _ _; split; [done|]; eexists; split; [reflexivity|eassumption]|].
  do 3 emit_step.
  do 3 (eapply (runs_seq _ 2); [lia|]; eapply runs_horner; [eassumption|eassumption|lia|];
    let X := fresh "X" in intros ? ? X ? _; carry X).
  do 2 emit_step. apply HP; [done|].
  match goal with H : TraceMeaning.has _ _ ?i _ |- TraceMeaning.has _ _ ?i _ => revert H end. by rewrite !real_one.
Qed.

(** ** The safe division *)

Lemma runs_good {A} k (m : st TraceDAG A) d Phi : (good low d -> runs k m d Phi) -> runs k m d Phi.
Proof. intros H Hg. by apply H. Qed.

Lemma op_value d i n : good low d -> node_at (nodes_ d) i = Some n -> is_input n = false ->
  value env d i = rop (n_op n) (f32_real (n_scalar n)) (f32_real (n_scalar2 n)) (map (value env d) (n_inputs n)).
Proof.
  unfold node_at. destruct (Z.ltb_spec i 0); [done|]. intros Hg Hn Hi.
  pose proof (value_eq env d _ n (good_wf _ _ Hg) Hn) as E. rewrite Z2Nat.id in E by done. by rewrite E, Hi.
Qed.

Lemma sr_relu d i n : good low d -> node_at (nodes_ d) i = Some n -> n_op n = TraceOpKind.ReLU -> exists v, value env d i = relu v.
Proof.
  intros Hg Hn Ho. rewrite (op_value d i n Hg Hn), Ho by (unfold is_input; by rewrite Ho). by eexists.
Qed.

Lemma has_node d i v : has d i v -> exists n, node_at (nodes_ d) i = Some n.
Proof.
  intros Hi. pose proof (has_range _ _ _ _ Hi) as [H0 H1]. unfold node_at. destruct (Z.ltb_spec i 0); [lia|].
  apply lookup_lt_is_Some_2. unfold zlen in H1. lia.
Qed.

Lemma input_node d i n k : good low d -> node_at (nodes_ d) i = Some n -> k ∈ n_inputs n -> exists r, node_at (nodes_ d) k = Some r.
Proof.
  unfold node_at at 1. destruct (i <? 0); [done|]. intros Hg Hn Hk. pose proof (lookup_lt_Some _ _ _ Hn).
  destruct (Hg _ _ Hn) as [_ Hin _ _ _]. rewrite Forall_forall in Hin. specialize (Hin k Hk).
  unfold zlen in Hin. rewrite length_take in Hin. unfold node_at. destruct (Z.ltb_spec k 0); [lia|]. apply lookup_lt_is_Some_2. lia.
Qed.

Lemma guards_rectified d i y : good low d -> guards d i -> has d i y -> rectified y.
Proof.
  intros Hg (n & r & k & ks & Hn & Hop & Hs & Hin & Hr & Hor) Hy.
  rewrite <- (has_value _ _ _ _ Hy), (op_value d i n Hg Hn), Hop, Hin by (unfold is_input; by rewrite Hop). cbn [map rop nth].
  destruct (sr_relu d k r Hg Hr Hor) as (v & ->). by exists v, (n_scalar n).
Qed.

Lemma guarded_returns d i n : good low d -> node_at (nodes_ d) i = Some n ->
  exists b, guarded d n d = (Ret b, d) /\ (b = true -> guards d i).
Proof.
  intros Hg Hn. unfold guarded. destruct (TraceOpKind.eqb (n_op n) TraceOpKind.AddScalar) eqn:Ho; [|by exists false].
  destruct (f32_ltb 0 (n_scalar n)) eqn:Hs; [|by exists false]. cbn [andb].
  destruct (n_inputs n) as [|k ks] eqn:Hin; [by exists false|].
  destruct (input_node d i n k Hg Hn ltac:(rewrite Hin; by left)) as (r & Hr).
  exists (TraceOpKind.eqb (n_op r) TraceOpKind.ReLU). split; [unfold node, mbind, st_bind; by rewrite Hr|].
  unfold TraceOpKind.eqb in *. intros E%bool_decide_eq_true. apply bool_decide_eq_true in Ho.
  exists n, r, k, ks. by split_and!.
Qed.

Lemma runs_safe_div k m anchor num den a x y d (Phi : Z -> TraceDAG -> Prop) :
  has d anchor a -> has d num x -> has d den y -> 16 <= k ->
  (forall i d' (pos : bool), ext d d' -> has d' i (if pos then (x / y)%R else safe_div x y) -> (pos = true -> rectified y) -> Phi i d') ->
  runs k (emit_safe_div_signed anchor num den m) d Phi.
Proof.
  intros Ha Hx Hy Hk HP. pose proof (ext_refl d) as X0. apply runs_good. intros Hg.
  destruct (has_node d den y Hy) as (dn & Hdn). destruct (guarded_returns d den dn Hg Hdn) as (b & Hb & Hbg).
  unfold emit_safe_div_signed, emit. eapply runs_skip; [reflexivity|].
  eapply runs_skip; [by unfold node; rewrite Hdn|]. eapply runs_skip; [exact Hb|]. destruct b.
  - specialize (Hbg eq_refl). pose proof (guards_rectified _ _ _ Hg Hbg Hy) as Hrect.
    emit_step; [intros _ _; split; [done|]; eexists; split; [reflexivity|eassumption]|]. by apply (HP _ _ true).
  - emit_step. piece 1 runs_neg. do 2 emit_step. guard_step. do 3 const_step. do 3 emit_step.
    emit_step; [intros _ _; split; [done|]; eexists; split; [reflexivity|eassumption]|]. apply (HP _ _ false); [done| |done].
    match goal with H : TraceMeaning.has _ _ ?i _ |- TraceMeaning.has _ _ ?i _ => revert H end.
    by rewrite real_0, real_one, real_m1.
Qed.
End Pieces.
