(* ===== verification/AutodiffCanon.v ===== *)
(** * The lowering computes what it lowers

    [canonicalize_trace_dag_for_codegen] (src/jit/trace_autodiff.cpp) on every
    traced graph: it returns a graph of operations the emitters have a form for,
    every division guarded, whose nodes compute the lowered forms of
    AutodiffLower.v, and which keeps the inputs, the buffers, the shapes and the
    live nodes. *)
From Stdlib Require Import Reals Lra.
From S2P Require Import Prelude Dtype Device Heap Tensor TraceDag TraceSpec Float32 Autodiff TraceMeaning AutodiffEmit AutodiffPlain AutodiffSweep AutodiffPrune AutodiffLower.

(** A graph the tracer records: an in-place node reads its target first, and a
    constant comes after an input. *)
Record traced (d : TraceDAG) : Prop := mkTraced {
  tr_wf : wf_nodes (nodes_ d);
  tr_arity : forall i n, nodes_ d !! i = Some n -> (op_arity (n_op n) <= length (n_inputs n))%nat;
  tr_leaf : forall i n, nodes_ d !! i = Some n -> n_op n = TraceOpKind.Input -> n_inputs n = [];
  tr_inplace : forall i n, nodes_ d !! i = Some n -> n_inplace n = true ->
    n_inputs n = [n_target n] \/ exists j, n_inputs n = [n_target n; j];
  tr_const : forall i n, nodes_ d !! i = Some n -> n_op n = TraceOpKind.Const -> inputs_in (take i (nodes_ d)) <> 0%nat
}.

(** ** One node *)

Section LowerOp.
Context (env : nat -> R).
Abbreviation has := (has env).
Abbreviation runs := (runs true).
Implicit Types (n : TraceNode) (d : TraceDAG).

(** What the lowering of [n] leaves in its slot. *)
Definition lowered_to n (args : list R) (i : Z) (d' : TraceDAG) : Prop :=
  exists pos : bool, has d' i (lop pos n args) /\ (pos = true -> rectified (denominator n args)).

(** An operation the switch passes on. *)
Definition passed (op : TraceOpKind) : bool := negb (needs_lowering op) && negb (TraceOpKind.eqb op TraceOpKind.Input).

Lemma lop_passed n pos args : passed (n_op n) = true ->
  lop pos n args = rop (n_op n) (f32_real (n_scalar n)) (f32_real (n_scalar2 n)) args.
Proof. unfold lop, passed. by destruct (n_op n). Qed.

Lemma lower_op_passed anchor n ins remap : passed (n_op n) = true -> lower_op anchor n ins remap = lower_default n ins remap.
Proof. unfold lower_op, passed. by destruct (n_op n). Qed.

Lemma runs_inplace k op t args tail ins buf s s2 d (Phi : Z -> TraceDAG -> Prop) :
  ins = t :: tail -> (length tail <= 1)%nat -> Forall2 (has d) ins args -> 1 <= k -> passed op = true -> (op_arity op <= length ins)%nat ->
  (forall i d', ext d d' -> has d' i (rop op (f32_real s) (f32_real s2) args) -> Phi i d') ->
  runs k (add_inplace_node op t (default (-1) (head tail)) buf s s2) d Phi.
Proof.
  intros -> Ht Hv Hk Hop Har HP Hg Hr. pose proof (zlen_nonneg (nodes_ d)) as H0.
  assert (Hi : i32 (zlen (nodes_ d)) = zlen (nodes_ d)) by (apply i32_small; unfold INT_MAX in *; lia).
  pose proof (has_in_range _ _ _ _ Hv) as Hin.
  destruct (Forall2_cons_inv_l _ _ _ _ Hv) as (v & vs & Hvt & _ & _).
  destruct (has_node env d t v Hvt) as (tn & Htn).
  assert (Hins : (if default (-1) (head tail) >=? 0 then [t; default (-1) (head tail)] else [t]) = t :: tail).
  { destruct tail as [|j [|? ?]]; cbn in *; [done| |lia]. inversion_clear Hin as [|? ? _ Hj]. inversion_clear Hj as [|? ? Hj' _].
    destruct (Z.geb_spec j 0); [done|lia]. }
  revert Hg Hr. eapply runs_node; [unfold add_inplace_node; rewrite Htn, Hins; reflexivity|done| |].
  - intros _. rewrite Hi. constructor; cbn [n_id n_inputs n_op]; [done|exact Hin|done| |].
    + intros ->. done.
    + intros _ Hl. unfold passed in Hop. by rewrite Hl in Hop.
  - intros d' E X. rewrite Hi in E. apply HP; [done|].
    pose proof (has_snoc env d d' _ E) as H. unfold eval_node, is_input in H. cbn [n_op] in H.
    assert (TraceOpKind.eqb op TraceOpKind.Input = false) as Hne.
    { unfold passed in Hop. destruct (TraceOpKind.eqb op TraceOpKind.Input); [|done]. by rewrite andb_false_r in Hop. }
    rewrite Hne in H. unfold node_val in H. cbn [n_op n_scalar n_scalar2 n_inputs] in H.
    by rewrite (has_args env d _ _ Hv) in H.
Qed.

(** The operands of [n], renamed by [remap] to [ins] with values [args], and
    the anchor. *)
Record ready n (remap : gmap Z Z) (ins : list Z) (args : list R) (anchor : Z) d : Prop := mkReady {
  rd_vals : Forall2 (has d) ins args;
  rd_len : length ins = length (n_inputs n);
  rd_arity : (op_arity (n_op n) <= length ins)%nat;
  rd_inplace : n_inplace n = true -> exists t tail, ins = t :: tail /\ remap !! n_target n = Some t /\ (length tail <= 1)%nat;
  rd_anchor : 0 <= anchor -> exists a, has d anchor a;
  rd_const : n_op n = TraceOpKind.Const -> 0 <= anchor
}.

Lemma runs_default k n remap ins args anchor d : ready n remap ins args anchor d -> passed (n_op n) = true -> 1 <= k ->
  runs k (lower_default n ins remap) d (fun i d' => lowered_to n args i d').
Proof.
  intros [Hv Hl Har Hin _ _] Hop Hk. unfold lower_default. assert (Hlow : forall i d',
    has d' i (rop (n_op n) (f32_real (n_scalar n)) (f32_real (n_scalar2 n)) args) -> lowered_to n args i d').
  { intros i d' H. exists false. by rewrite lop_passed. }
  destruct (n_inplace n) eqn:E.
  - destruct (Hin eq_refl) as (t & tail & -> & Ht & Hlen). eapply runs_skip; [by unfold map_at; rewrite Ht|].
    apply (runs_skip _ _ _ _ (default (-1) (head tail))).
    { rewrite <- Hl. destruct tail as [|j tail]; reflexivity. }
    eapply runs_inplace; [reflexivity|done|done|done|done|done|]. intros i d' _ H. by apply Hlow.
  - eapply runs_emit; [exact Hv|done| |done| |].
    + intros Eo. by rewrite Eo in Hop.
    + intros _ Hn. unfold passed in Hop. by rewrite Hn in Hop.
    + intros i d' _ H _. by apply Hlow.
Qed.

Lemma has_anchor_or n remap ins args anchor d x v : ready n remap ins args anchor d -> has d x v ->
  exists a, has d (if anchor >=? 0 then anchor else x) a.
Proof. intros Hr Hx. destruct (Z.geb_spec anchor 0); [by apply (rd_anchor _ _ _ _ _ _ Hr)|by eexists]. Qed.

(** The slots and values of the operands, one by one. *)
Ltac operands_of Hv :=
  repeat match type of Hv with
  | Forall2 _ ?l _ => is_var l; destruct l as [|? l]; [cbn in *; lia|];
      let H := fresh "W" in apply Forall2_cons_inv_l in Hv as (? & ? & H & Hv & ->)
  end.

Ltac anchored Hr H := destruct (has_anchor_or _ _ _ _ _ _ _ _ Hr H) as (? & ?).
Ltac take_elem := eapply runs_skip; [reflexivity|].
Ltac finish := intros; exists false; split; [|done]; eassumption.

Lemma runs_lower_op n remap ins args anchor d : ready n remap ins args anchor d -> n_op n <> TraceOpKind.Input ->
  runs 163 (lower_op anchor n ins remap) d (fun i d' => lowered_to n args i d').
Proof.
  intros Hr Hop. destruct (passed (n_op n)) eqn:Hp.
  { rewrite lower_op_passed by done. by eapply runs_default; [| |lia]. }
  pose proof (rd_vals _ _ _ _ _ _ Hr) as Hv. pose proof (rd_arity _ _ _ _ _ _ Hr) as Har.
  unfold lower_op, lowered_to, lop, denominator, emit in *. destruct (n_op n) eqn:Eo; try done; clear Hp Hop; cbn [op_arity] in Har.
  - (* Div *) operands_of Hv. do 2 take_elem. anchored Hr W.
    eapply runs_safe_div; [eassumption..|lia|]. intros ? ? pos _ ? ?. by exists pos.
  - (* DivScalar *) operands_of Hv. take_elem. emit_step. finish.
  - (* ScalarDiv *) operands_of Hv. take_elem. anchored Hr W. clear Hr. const_step.
    eapply runs_safe_div; [eassumption..|lia|]. intros ? ? pos _ ? ?. by exists pos.
  - (* FMA *) operands_of Hv. do 2 take_elem. emit_step. take_elem. emit_step. finish.
  - (* GELU *) operands_of Hv. take_elem. eapply runs_gelu; [eassumption|lia|]. finish.
  - (* Modulate *) operands_of Hv. take_elem. emit_step. take_elem. emit_step. take_elem. emit_step. rewrite real_one in *.
    match goal with H : TraceMeaning.has _ _ ?i (?x * (?y + 1) + ?z)%R |- _ =>
      replace (x * (y + 1) + z)%R with (x * (1 + y) + z)%R in H by ring end. finish.
  - (* Const *) destruct (rd_anchor _ _ _ _ _ _ Hr (rd_const _ _ _ _ _ _ Hr Eo)) as (a & Ha).
    pose proof (rd_const _ _ _ _ _ _ Hr Eo). destruct (Z.geb_spec anchor 0); [|lia].
    piece 2 runs_const. finish.
  - (* Neg *) operands_of Hv. take_elem. piece 1 runs_neg. finish.
  - (* Exp *) operands_of Hv. take_elem. eapply runs_exp; [eassumption|lia|]. finish.
  - (* Log *) operands_of Hv. take_elem. anchored Hr W. eapply runs_log; [eassumption..|lia|]. finish.
  - (* Sqrt *) operands_of Hv. take_elem. anchored Hr W. eapply runs_sqrt; [eassumption..|lia|]. finish.
  - (* Rsqrt *) operands_of Hv. take_elem. anchored Hr W. eapply runs_rsqrt; [eassumption..|lia|]. finish.
  - (* Abs *) operands_of Hv. take_elem. eapply runs_abs; [eassumption|lia|]. finish.
Qed.
End LowerOp.

(** ** The loop *)

Definition slot (remap : gmap Z Z) (i : Z) : Z := default 0 (remap !! i).

(** The node in slot [s] stands for [n]. *)
Definition stands (d : TraceDAG) (s : Z) (n : TraceNode) : Prop :=
  exists c, node_at (nodes_ d) s = Some c /\ n_buffer c = n_buffer n /\ n_live c = n_live n /\ is_input c = is_input n /\
    (n_inplace n = false -> node_meta c = node_meta n).

(** The value [v] of the lowered node [n], after the nodes [pre] with values [vs]. *)
Definition low_value (env : nat -> R) (pre : list TraceNode) (vs : list R) (n : TraceNode) (v : R) : Prop :=
  if is_input n then v = env (inputs_in pre)
  else exists pos : bool, v = lop pos n (map (val_at vs) (n_inputs n)) /\
    (pos = true -> rectified (denominator n (map (val_at vs) (n_inputs n)))).

(** The nodes [pre] are lowered to [d], with values [vs]. *)
Record lowering (env : nat -> R) (pre : list TraceNode) (remap : gmap Z Z) (anchor : Z) (d : TraceDAG) (vs : list R) : Prop := mkLowering {
  lw_len : length vs = length pre;
  lw_map : forall i, is_Some (remap !! i) <-> 0 <= i < zlen pre;
  lw_has : forall i v, vs !! i = Some v -> has env d (slot remap (Z.of_nat i)) v;
  lw_vals : forall i n v, pre !! i = Some n -> vs !! i = Some v -> low_value env (take i pre) vs n v;
  lw_inputs : inputs_in (nodes_ d) = inputs_in pre;
  lw_live : live_ids d = map (slot remap) (live_ids (mkDAG pre ∅));
  lw_stands : forall i n, pre !! i = Some n -> stands d (slot remap (Z.of_nat i)) n;
  lw_anchor : 0 <= anchor -> exists a, has env d anchor a;
  lw_first : inputs_in pre <> 0%nat -> 0 <= anchor
}.

Lemma slot_insert remap i j s : slot (<[i:=s]> remap) j = if decide (i = j) then s else slot remap j.
Proof. unfold slot. destruct (decide (i = j)) as [->|H]; [by rewrite lookup_insert_eq|by rewrite lookup_insert_ne]. Qed.

Lemma low_value_app env pre vs ws n v : Forall (fun j => 0 <= j < zlen vs) (n_inputs n) ->
  low_value env pre vs n v -> low_value env pre (vs ++ ws) n v.
Proof.
  intros Hin. assert (E : map (val_at (vs ++ ws)) (n_inputs n) = map (val_at vs) (n_inputs n)).
  { apply map_ext_in. intros j Hj%list_elem_of_In. rewrite Forall_forall in Hin. specialize (Hin j Hj).
    unfold val_at. rewrite lookup_app_l; [done|]. unfold zlen in Hin. lia. }
  unfold low_value. by rewrite E.
Qed.

Lemma live_app ns ms M M' : live_ids (mkDAG (ns ++ ms) M) = live_ids (mkDAG ns M') ++ live_ids (mkDAG ms M').
Proof. unfold live_ids. cbn [nodes_]. by rewrite filter_app, map_app. Qed.

Lemma live_plain ms M : Forall plain ms -> live_ids (mkDAG ms M) = [].
Proof.
  intros H. unfold live_ids. cbn [nodes_]. induction H as [|n ms [Hn _] _ IH]; [done|].
  rewrite filter_cons_False by (by rewrite Hn). exact IH.
Qed.

Lemma inputs_plain ms : Forall plain ms -> inputs_in ms = 0%nat.
Proof.
  unfold inputs_in, is_input, TraceOpKind.eqb. induction 1 as [|n ms [_ Hn] _ IH]; [done|].
  rewrite filter_cons_False by (by rewrite bool_decide_eq_true). exact IH.
Qed.

Lemma inputs_one c n : is_input c = is_input n -> inputs_in [c] = inputs_in [n].
Proof.
  intros H. unfold inputs_in. destruct (decide (is_input n = true)).
  - by rewrite !filter_cons_True by congruence.
  - by rewrite !filter_cons_False by congruence.
Qed.

Lemma live_one c n M : n_live c = n_live n -> live_ids (mkDAG [c] M) = if n_live n then [n_id c] else [].
Proof.
  intros H. unfold live_ids. cbn [nodes_]. rewrite <- H. destruct (n_live c) eqn:E.
  - by rewrite filter_cons_True.
  - by rewrite filter_cons_False by (by rewrite E).
Qed.

Lemma live_in d i : i ∈ live_ids d -> exists n, n_id n = i /\ n ∈ nodes_ d.
Proof. intros (n & -> & [_ H]%list_elem_of_filter)%list_elem_of_fmap. by exists n. Qed.

(** The next node [n] is lowered to the nodes [ms] and [c]. *)
Record lowered_step (env : nat -> R) (pre : list TraceNode) (vs : list R) (n : TraceNode) (v : R) (d : TraceDAG)
    (ms : list TraceNode) (c : TraceNode) (d' : TraceDAG) : Prop := mkLoweredStep {
  ls_nodes : nodes_ d' = nodes_ d ++ ms ++ [c];
  ls_plain : Forall plain ms;
  ls_id : n_id c = zlen (nodes_ d ++ ms);
  ls_buffer : n_buffer c = n_buffer n;
  ls_live : n_live c = n_live n;
  ls_input : is_input c = is_input n;
  ls_meta : n_inplace n = false -> node_meta c = node_meta n;
  ls_has : has env d' (n_id c) v;
  ls_value : low_value env pre vs n v
}.

Lemma stands_ext d d' s n : stands d s n -> ext d d' -> stands d' s n.
Proof. intros (c & Hc & H) X. exists c. split; [by eapply node_at_ext|done]. Qed.

Lemma lowering_next env pre remap anchor d vs n v ms c d' : lowering env pre remap anchor d vs ->
  wf_nodes (pre ++ [n]) -> lowered_step env pre vs n v d ms c d' ->
  lowering env (pre ++ [n]) (<[n_id n := n_id c]> remap)
    (if TraceOpKind.eqb (n_op n) TraceOpKind.Input && (anchor <? 0) then n_id c else anchor) d' (vs ++ [v]).
Proof.
  intros [Llen Lmap Lhas Lvals Linp Llive Lst Lanc Lfst] W [Snodes Spl Sid Sbuf Slive Sin Smeta Shas Sval].
  assert (X : ext d d') by (exists (ms ++ [c]); done).
  assert (Hid : n_id n = zlen pre) by (destruct (W (length pre) n) as [-> _]; [by rewrite lookup_app_r, Nat.sub_diag by lia|done]).
  assert (Hold : forall i, (i < length pre)%nat -> slot (<[n_id n:=n_id c]> remap) (Z.of_nat i) = slot remap (Z.of_nat i)).
  { intros i Hi. rewrite slot_insert, Hid. unfold zlen. case_decide; [lia|done]. }
  assert (Hnew : slot (<[n_id n:=n_id c]> remap) (Z.of_nat (length pre)) = n_id c).
  { rewrite slot_insert, Hid. unfold zlen. by rewrite decide_True. }
  assert (Hins : forall i m, (pre ++ [n]) !! i = Some m -> (i <= length vs)%nat -> Forall (fun j => 0 <= j < zlen vs) (n_inputs m)).
  { intros i m Hm Hi. destruct (W i m Hm) as [_ H]. eapply Forall_impl; [exact H|]. intros j Hj. unfold zlen. cbn in Hj. lia. }
  constructor.
  - rewrite !length_app, Llen. done.
  - intros i. rewrite zlen_app, Hid. change (zlen [n]) with 1. pose proof (zlen_nonneg pre). destruct (decide (zlen pre = i)) as [<-|Hne].
    + rewrite lookup_insert_eq. split; [lia|by eexists].
    + rewrite lookup_insert_ne by done. rewrite Lmap. lia.
  - intros i w [Hi|[Hl Hi]]%lookup_app_Some.
    + rewrite Hold by (apply lookup_lt_Some in Hi; lia). eapply has_ext; [by apply Lhas|done].
    + apply list_lookup_singleton_Some in Hi as [Hi <-]. replace i with (length pre) by lia. by rewrite Hnew.
  - intros i m w Hm Hw. pose proof (lookup_lt_Some _ _ _ Hm) as Hlt. rewrite length_app in Hlt. cbn in Hlt.
    apply low_value_app; [apply (Hins i m); [done|lia]|].
    apply lookup_app_Some in Hm as [Hm|[Hl Hm]].
    + pose proof (lookup_lt_Some _ _ _ Hm). rewrite take_app_le by lia. apply (Lvals i); [done|].
      by rewrite lookup_app_l in Hw by lia.
    + apply list_lookup_singleton_Some in Hm as [Hm <-]. assert (i = length pre) as -> by lia.
      rewrite take_app_length. rewrite lookup_app_r, Llen, Nat.sub_diag in Hw by lia. by injection Hw as <-.
  - rewrite Snodes, !inputs_in_app, (inputs_plain _ Spl), Linp. by rewrite (inputs_one c n Sin).
  - destruct d' as [ns' M']. cbn [nodes_] in Snodes. rewrite Snodes, (live_app (nodes_ d) _ _ ∅), (live_app ms _ _ ∅), (live_plain _ ∅ Spl).
    rewrite (live_app pre _ _ ∅), map_app, (live_one c n ∅ Slive).
    replace (live_ids (mkDAG (nodes_ d) ∅)) with (live_ids d) by done. rewrite Llive. f_equal.
    + apply map_ext_in. intros j (m & <- & (k & Hk)%list_elem_of_lookup)%list_elem_of_In%live_in.
      destruct (W k m) as [-> _]; [by apply lookup_app_l_Some|]. symmetry. apply Hold. by eapply lookup_lt_Some.
    + rewrite (live_one n n ∅ eq_refl). destruct (n_live n); [|done]. cbn [map]. by rewrite slot_insert, decide_True.
  - intros i m [Hm|[Hl Hm]]%lookup_app_Some.
    + rewrite Hold by (by eapply lookup_lt_Some). eapply stands_ext; [by apply Lst|done].
    + apply list_lookup_singleton_Some in Hm as [Hm <-]. replace i with (length pre) by lia. rewrite Hnew.
      exists c. split_and!; [|done..]. rewrite Snodes, app_assoc, Sid. apply node_at_last.
  - intros Ha. destruct (_ && _)%bool; [by eexists|]. destruct (Lanc Ha) as (a & H). exists a. by eapply has_ext.
  - rewrite inputs_in_app. intros Hne. pose proof (zlen_nonneg (nodes_ d ++ ms)) as H0.
    destruct (TraceOpKind.eqb (n_op n) TraceOpKind.Input) eqn:En; cbn [andb].
    + destruct (Z.ltb_spec anchor 0); lia.
    + apply Lfst. intros Hz. apply Hne. rewrite Hz. unfold inputs_in, is_input. by rewrite filter_cons_False by (by rewrite En).
Qed.

(** ** One turn of the loop *)

Definition dressed (n c : TraceNode) : TraceNode := set_live (n_live n) (set_buffer (n_buffer n) c).

Lemma alter_last {A} (f : A -> A) l x : alter f (length l) (l ++ [x]) = l ++ [f x].
Proof. induction l as [|y l IH]; [done|]. cbn. by f_equal. Qed.

Lemma dress_step env pre vs n v d d1 ms c0 s : nodes_ d1 = nodes_ d ++ ms ++ [c0] -> s = zlen (nodes_ d ++ ms) -> good true d1 ->
  Forall plain ms -> is_input c0 = is_input n -> (n_inplace n = false -> node_meta c0 = node_meta n) ->
  has env d1 s v -> low_value env pre vs n v ->
  exists d2 c, dress s n d1 = (Ret tt, d2) /\ zlen (nodes_ d2) = zlen (nodes_ d1) /\ good true d2 /\ n_id c = s /\
    lowered_step env pre vs n v d ms c d2.
Proof.
  intros E Hs Hg Hpl Hin Hmeta Hh Hv.
  assert (Hc : n_id c0 = s).
  { destruct (Hg (length (nodes_ d ++ ms)) c0) as [Hid _ _ _ _].
    - rewrite E, app_assoc, lookup_app_r, Nat.sub_diag by lia. done.
    - rewrite Hid, Hs. unfold zlen. rewrite length_take, E. rewrite !length_app. cbn. lia. }
  set (d2 := mkDAG (alter (dressed n) (Z.to_nat s) (nodes_ d1)) (input_ptr_to_slot_ d1)).
  assert (En : nodes_ d2 = nodes_ d ++ ms ++ [dressed n c0]).
  { unfold d2. cbn [nodes_]. rewrite E, Hs. unfold zlen. by rewrite Nat2Z.id, app_assoc, alter_last, <- app_assoc. }
  assert (Hcore : Forall2 same_core (nodes_ d1) (nodes_ d2)) by (apply core_alter; by repeat split).
  exists d2, (dressed n c0). split_and!; [done| | |done|].
  - unfold zlen. by rewrite (Forall2_length _ _ _ Hcore).
  - unfold good. by eapply all_sound_core.
  - constructor; try done; cbn [n_id]; [by rewrite <- Hs|]. change (n_id (dressed n c0)) with (n_id c0). rewrite Hc. by eapply has_core.
Qed.

Lemma map_all_slots {S} remap l (d : S) : Forall (fun i => is_Some (remap !! i)) l ->
  map_all remap l d = (Ret (map (slot remap) l), d).
Proof.
  induction 1 as [|i l [s Hs] _ IH]; [done|]. assert (Es : slot remap i = s) by (unfold slot; by rewrite Hs).
  assert (E : map_at remap i d = (Ret s, d)) by (unfold map_at; by rewrite Hs).
  cbn [map_all map]. unfold mbind, st_bind. rewrite E, IH, Es. done.
Qed.

(** What the tracer guarantees of node [n], after the nodes [pre]. *)
Record traced_node (pre : list TraceNode) (n : TraceNode) : Prop := mkTracedNode {
  tn_wf : wf_nodes (pre ++ [n]);
  tn_arity : (op_arity (n_op n) <= length (n_inputs n))%nat;
  tn_inplace : n_inplace n = true -> n_inputs n = [n_target n] \/ exists j, n_inputs n = [n_target n; j];
  tn_const : n_op n = TraceOpKind.Const -> inputs_in pre <> 0%nat
}.

Section Step.
Context (env : nat -> R) (pre : list TraceNode) (remap : gmap Z Z) (anchor : Z) (d : TraceDAG) (vs : list R) (n : TraceNode).
Hypothesis (L : lowering env pre remap anchor d vs) (T : traced_node pre n).

Lemma operand_below i : i ∈ n_inputs n -> 0 <= i < zlen pre.
Proof.
  destruct (tn_wf _ _ T (length pre) n) as [_ Hin]; [by rewrite lookup_app_r, Nat.sub_diag by lia|].
  rewrite Forall_forall in Hin. apply Hin.
Qed.

Lemma operands_ready : ready env n remap (map (slot remap) (n_inputs n)) (map (val_at vs) (n_inputs n)) anchor d.
Proof.
  constructor.
  - apply Forall2_fmap_l, Forall2_fmap_r, Forall_Forall2_diag, Forall_forall. intros i Hi. destruct (operand_below i Hi) as [H0 H1].
    destruct (lookup_lt_is_Some_2 vs (Z.to_nat i)) as [v Hv]; [rewrite (lw_len _ _ _ _ _ _ L); unfold zlen in H1; lia|].
    pose proof (lw_has _ _ _ _ _ _ L _ _ Hv) as H. rewrite Z2Nat.id in H by done. change (has env d (slot remap i) (val_at vs i)). replace (val_at vs i) with v; [done|]. unfold val_at. by rewrite Hv.
  - by rewrite length_map.
  - rewrite length_map. apply (tn_arity _ _ T).
  - intros Hi. assert (Ht : n_target n ∈ n_inputs n) by (destruct (tn_inplace _ _ T Hi) as [->|(j & ->)]; by left).
    apply operand_below, (lw_map _ _ _ _ _ _ L) in Ht as [t Ht].
    assert (Es : slot remap (n_target n) = t) by (unfold slot; by rewrite Ht).
    destruct (tn_inplace _ _ T Hi) as [->|(j & ->)]; eexists t, _; cbn [map]; rewrite Es; split_and!; [done|done|cbn; lia|done|done|cbn; lia].
  - apply (lw_anchor _ _ _ _ _ _ L).
  - intros Hc. by apply (lw_first _ _ _ _ _ _ L), (tn_const _ _ T).
Qed.

Lemma lower_turn : good true d -> zlen (nodes_ d) + 163 <= INT_MAX ->
  exists s d1 d2 v ms c, map_all remap (n_inputs n) d = (Ret (map (slot remap) (n_inputs n)), d) /\
    lower_op anchor n (map (slot remap) (n_inputs n)) remap d = (Ret s, d1) /\ dress s n d1 = (Ret tt, d2) /\ n_id c = s /\
    zlen (nodes_ d2) <= zlen (nodes_ d) + 163 /\ good true d2 /\ lowered_step env pre vs n v d ms c d2.
Proof.
  intros Hg Hr. pose proof (zlen_nonneg (nodes_ d)) as H0.
  assert (Hm : map_all remap (n_inputs n) d = (Ret (map (slot remap) (n_inputs n)), d)).
  { apply map_all_slots, Forall_forall. intros i Hi. by apply (lw_map _ _ _ _ _ _ L), operand_below. }
  destruct (decide (n_op n = TraceOpKind.Input)) as [Ei|Ei].
  - assert (Hrun : runs true 1 (lower_op anchor n (map (slot remap) (n_inputs n)) remap) d
      (fun s d1 => s = zlen (nodes_ d) /\ exists c0, nodes_ d1 = nodes_ d ++ [] ++ [c0] /\ is_input c0 = true /\ node_meta c0 = node_meta n)).
    { unfold lower_op. rewrite Ei. eapply runs_node; [done|lia| |].
      - intros _. constructor; cbn; [apply i32_small; unfold INT_MAX in *; lia|done|lia|done|done].
      - intros d1 E _. split; [done|]. eexists. split_and!; [exact E|done|done]. }
    destruct (Hrun Hg ltac:(lia)) as (s & d1 & E1 & X1 & L1 & G1 & Hs & c0 & En & Hc & Hmeta).
    destruct (dress_step env pre vs n (env (inputs_in pre)) d d1 [] c0 s) as (d2 & c & Ed & El & G2 & Hid & Hst); try done.
    + by rewrite app_nil_r.
    + unfold is_input in *. by rewrite Hc, Ei.
    + rewrite Hs. pose proof (has_snoc env d d1 c0 En) as H. unfold eval_node in H. rewrite Hc in H.
      by rewrite (lw_inputs _ _ _ _ _ _ L) in H.
    + unfold low_value, is_input. by rewrite Ei.
    + exists s, d1, d2, (env (inputs_in pre)), [], c. split_and!; [done|done|done|done|lia|done|done].
  - destruct (runs_lower_op env n remap _ _ anchor d operands_ready Ei Hg Hr) as (s & d1 & E1 & X1 & L1 & G1 & pos & Hh & Hpos).
    destruct (appends_lower anchor n _ remap Ei d s d1 E1) as (ms & c0 & En & Hpl & (Hc & Hmeta) & Hs).
    assert (Hz : zlen (nodes_ d ++ ms) <= INT_MAX) by (rewrite En, app_assoc, zlen_app in L1; unfold zlen at 2 in L1; cbn in L1; lia).
    pose proof (zlen_nonneg (nodes_ d ++ ms)). rewrite i32_small in Hs by (unfold INT_MAX in *; lia).
    destruct (dress_step env pre vs n (lop pos n (map (val_at vs) (n_inputs n))) d d1 ms c0 s En Hs G1 Hpl) as (d2 & c & Ed & El & G2 & Hid & Hst); [|done|exact Hh| |].
    + unfold is_input, TraceOpKind.eqb. by rewrite !bool_decide_eq_false_2.
    + unfold low_value, is_input, TraceOpKind.eqb. rewrite bool_decide_eq_false_2 by done. by exists pos.
    + eexists s, d1, d2, _, ms, c. split_and!; [done|done|done|done|lia|done|exact Hst].
Qed.
End Step.

(** ** The whole loop *)

Lemma lower_all env ns : forall pre remap anchor d vs, lowering env pre remap anchor d vs -> good true d ->
  (forall i n, ns !! i = Some n -> traced_node (pre ++ take i ns) n) -> zlen (nodes_ d) + 163 * zlen ns <= INT_MAX ->
  exists remap' anchor' d' vs', lower_nodes ns remap anchor d = (Ret remap', d') /\ good true d' /\
    lowering env (pre ++ ns) remap' anchor' d' vs'.
Proof.
  induction ns as [|n ns IH]; intros pre remap anchor d vs L Hg Ht Hr.
  { exists remap, anchor, d, vs. by rewrite app_nil_r. }
  assert (Hn : traced_node pre n) by (rewrite <- (app_nil_r pre); by apply (Ht 0%nat)).
  assert (Hz : zlen (n :: ns) = 1 + zlen ns) by (unfold zlen; cbn [length]; lia). pose proof (zlen_nonneg ns).
  destruct (lower_turn env pre remap anchor d vs n L Hn Hg ltac:(lia)) as (s & d1 & d2 & v & ms & c & Em & El & Ed & Hid & Hl & Hg2 & Hst).
  pose proof (lowering_next _ _ _ _ _ _ _ _ _ _ _ L (tn_wf _ _ Hn) Hst) as L2. rewrite Hid in L2.
  destruct (IH _ _ _ _ _ L2 Hg2) as (remap' & anchor' & d' & vs' & E & Hg' & L').
  - intros i m Hm. rewrite <- app_assoc. by apply (Ht (S i)).
  - lia.
  - exists remap', anchor', d', vs'. rewrite <- app_assoc in L'. split_and!; [|done|done].
    cbn [lower_nodes]. unfold mbind, st_bind. by rewrite Em, El, Ed, E.
Qed.

Lemma lowering_start env : lowering env [] ∅ (-1) empty_dag [].
Proof.
  constructor; try done.
  - intros i. rewrite lookup_empty. split; [by intros [? ?]|]. change (zlen (@nil TraceNode)) with 0. lia.
Qed.

Lemma traced_nodes d : traced d -> forall i n, nodes_ d !! i = Some n -> traced_node (take i (nodes_ d)) n.
Proof.
  intros [Hwf Har Hleaf Hin Hc] i n Hn. constructor.
  - intros j m Hm. assert (Hj : nodes_ d !! j = Some m); [|by apply Hwf].
    rewrite <- (take_drop_middle _ _ _ Hn), cons_middle, app_assoc. by apply lookup_app_l_Some.
  - by eapply Har.
  - by eapply Hin.
  - by eapply Hc.
Qed.

(** What [out] keeps of the graph [d], its node [i] in slot [f i]. *)
Record keeps (d out : TraceDAG) (f : Z -> Z) : Prop := mkKeeps {
  ke_inputs : inputs_in (nodes_ out) = inputs_in (nodes_ d);
  ke_live : live_ids out = map f (live_ids d);
  ke_stands : forall i n, nodes_ d !! i = Some n -> stands out (f (Z.of_nat i)) n
}.

(** [out] computes the lowered forms of [d]. *)
Definition computes (env : nat -> R) (d out : TraceDAG) (f : Z -> Z) : Prop :=
  forall i n, nodes_ d !! i = Some n ->
    if is_input n then value env out (f (Z.of_nat i)) = env (inputs_in (take i (nodes_ d)))
    else let args := map (fun j => value env out (f j)) (n_inputs n) in
      exists pos : bool, value env out (f (Z.of_nat i)) = lop pos n args /\ (pos = true -> rectified (denominator n args)).

Lemma lowering_keeps env d remap anchor out vs : lowering env (nodes_ d) remap anchor out vs -> keeps d (relink out) (slot remap).
Proof.
  intros L. pose proof (relink_outputs out) as Hr. constructor.
  - rewrite (inputs_in_core _ _ (core_relink out)). apply (lw_inputs _ _ _ _ _ _ L).
  - transitivity (live_ids out); [|apply (lw_live _ _ _ _ _ _ L)]. unfold live_ids.
    induction Hr as [|n n' ns ns' (o & ->) _ IH]; [done|].
    destruct (n_live n) eqn:E; [rewrite !filter_cons_True by done|rewrite !filter_cons_False by (cbn; by rewrite E); done].
    cbn. by rewrite IH.
  - intros i n Hn. destruct (lw_stands _ _ _ _ _ _ L _ _ Hn) as (c & Hc & Hk). unfold node_at in Hc.
    destruct (Z.ltb_spec (slot remap (Z.of_nat i)) 0); [done|]. destruct (Forall2_lookup_l _ _ _ _ _ Hr Hc) as (c' & Hc' & o & ->).
    exists (set_outputs o c). split; [|exact Hk]. unfold node_at.
    destruct (Z.ltb_spec (slot remap (Z.of_nat i)) 0); [lia|done].
Qed.

Lemma lowering_computes env d remap anchor out vs : wf_nodes (nodes_ d) -> lowering env (nodes_ d) remap anchor out vs ->
  computes env d (relink out) (slot remap).
Proof.
  intros W L i n Hn. assert (Hval : forall j, (j < length (nodes_ d))%nat ->
    exists v, vs !! j = Some v /\ value env (relink out) (slot remap (Z.of_nat j)) = v).
  { intros j Hj. rewrite <- (lw_len _ _ _ _ _ _ L) in Hj. destruct (lookup_lt_is_Some_2 _ _ Hj) as [v Hv]. exists v. split; [done|].
    apply has_value. eapply has_core; [apply core_relink|]. by apply (lw_has _ _ _ _ _ _ L). }
  pose proof (lookup_lt_Some _ _ _ Hn) as Hi. destruct (Hval i Hi) as (v & Hv & ->).
  pose proof (lw_vals _ _ _ _ _ _ L _ _ _ Hn Hv) as H. unfold low_value in H.
  assert (Hargs : map (fun j => value env (relink out) (slot remap j)) (n_inputs n) = map (val_at vs) (n_inputs n)).
  { apply map_ext_in. intros j Hj%list_elem_of_In. destruct (W i n Hn) as [_ Hin]. rewrite Forall_forall in Hin. specialize (Hin j Hj).
    destruct (Hval (Z.to_nat j) ltac:(lia)) as (w & Hw & E). rewrite Z2Nat.id in E by lia. unfold val_at. by rewrite Hw, E. }
  cbv zeta. rewrite Hargs. exact H.
Qed.

(** The nodes of a graph that needs no lowering stay where they are. *)
Definition same_slot (i : Z) : Z := i.

Lemma lowering_idle d : traced d -> existsb (fun n => needs_lowering (n_op n)) (nodes_ d) = false ->
  good true d /\ keeps d d same_slot /\ forall env, computes env d d same_slot.
Proof.
  intros [Hwf Har Hleaf Hin Hc] E. assert (Hno : forall i n, nodes_ d !! i = Some n -> needs_lowering (n_op n) = false).
  { intros i n Hn. apply not_true_is_false. intros Hx. rewrite <- not_true_iff_false in E. apply E, existsb_exists.
    exists n. split; [|done]. apply list_elem_of_In. by eapply list_elem_of_lookup_2. }
  split_and!.
  - intros i n Hn. destruct (Hwf i n Hn) as [Hid Hr]. pose proof (lookup_lt_Some _ _ _ Hn).
    assert (Hz : zlen (take i (nodes_ d)) = Z.of_nat i) by (unfold zlen; rewrite length_take; lia).
    constructor; rewrite ?Hz; eauto. intros _ Hx. by rewrite (Hno i n Hn) in Hx.
  - constructor; [done|by rewrite map_id|]. intros i n Hn. exists n. split_and!; try done.
    unfold node_at, same_slot. destruct (Z.ltb_spec (Z.of_nat i) 0); [lia|]. by rewrite Nat2Z.id.
  - intros env i n Hn. pose proof (value_eq env d i n Hwf Hn) as Hv. unfold same_slot. rewrite Hv.
    destruct (is_input n) eqn:Ei; [done|]. exists false. split; [|done]. rewrite lop_passed; [done|].
    unfold passed. rewrite (Hno i n Hn). unfold is_input in Ei. by rewrite Ei.
Qed.

Lemma canonicalize_lowers d : traced d -> 163 * zlen (nodes_ d) <= INT_MAX ->
  exists out f, canonicalize_trace_dag_for_codegen d = Ret out /\ good true out /\ keeps d out f /\
    forall env, computes env d out f.
Proof.
  intros Hd Hr. unfold canonicalize_trace_dag_for_codegen. destruct (existsb _ (nodes_ d)) eqn:E.
  - assert (Hrun : forall env, exists remap anchor out vs, lower_nodes (nodes_ d) ∅ (-1) empty_dag = (Ret remap, out) /\
      good true out /\ lowering env (nodes_ d) remap anchor out vs).
    { intros env. apply (lower_all env (nodes_ d) [] ∅ (-1) empty_dag [] (lowering_start env) (good_empty true));
        [by apply traced_nodes|done]. }
    destruct (Hrun (fun _ => 0%R)) as (remap & anchor & out & vs & El & Hg & L). exists (relink out), (slot remap).
    rewrite El. split_and!; [done| |by eapply lowering_keeps|].
    + unfold good. eapply all_sound_core; [apply core_relink|exact Hg].
    + intros env. destruct (Hrun env) as (remap' & anchor' & out' & vs' & El' & _ & L'). rewrite El in El'. injection El' as <- <-.
      eapply lowering_computes; [apply (tr_wf _ Hd)|exact L'].
  - destruct (lowering_idle d Hd E) as (Hg & Hk & Hc). by exists d, same_slot.
Qed.
