(* ===== verification/AutodiffAccuracy.v ===== *)
(** * How close the lowered operations are

    The properties of [canonicalize_trace_dag_for_codegen]
    (src/jit/trace_autodiff.cpp): the form and the values of the lowered graph,
    and how far the emitted division, exponential and square root are from the
    functions they stand for, in the real numbers. *)
From Stdlib Require Import Reals Lra.
From S2P Require Import Prelude Dtype Device Heap Tensor TraceDag TraceSpec Float32 Autodiff TraceMeaning AutodiffEmit AutodiffSweep AutodiffPrune AutodiffGrad AutodiffLower AutodiffCanon.

#[local] Open Scope R_scope.

(** ** The constants *)

Lemma real_16 : f32_real 0x41800000 = 16.
Proof. f32_eval. Qed.
Lemma real_8th : f32_real 0x3E000000 = / 8.
Proof. f32_eval. Qed.
Lemma real_2 : f32_real 0x40000000 = 2.
Proof. f32_eval. Qed.
Lemma real_32nd : f32_real 0x3D000000 = / 32.
Proof. f32_eval. Qed.

(** ** Operations lowered without error *)

Definition exact_node (n : TraceNode) : Prop :=
  match n_op n with
  | TraceOpKind.Exp | TraceOpKind.Log | TraceOpKind.Sqrt | TraceOpKind.Rsqrt | TraceOpKind.Div | TraceOpKind.ScalarDiv => False
  | TraceOpKind.DivScalar => f32_real (safe_recip (n_scalar n)) = / f32_real (n_scalar n)
  | _ => True
  end.

Lemma lop_exact n pos args : exact_node n -> lop pos n args = rop (n_op n) (f32_real (n_scalar n)) (f32_real (n_scalar2 n)) args.
Proof. unfold exact_node, lop. destruct (n_op n); try done. cbn [rop]. intros ->. done. Qed.

Lemma computes_exact env d out f : wf_nodes (nodes_ d) -> computes env d out f ->
  (forall i n, nodes_ d !! i = Some n -> exact_node n) ->
  forall i, (i < length (nodes_ d))%nat -> value env out (f (Z.of_nat i)) = value env d (Z.of_nat i).
Proof.
  intros W H Hex i. induction (lt_wf i) as [i _ IH]. intros Hi. destruct (lookup_lt_is_Some_2 _ _ Hi) as [n Hn].
  specialize (H i n Hn). rewrite (value_eq env d i n W Hn). destruct (is_input n); [done|].
  destruct H as (pos & -> & _). rewrite lop_exact by (by eapply Hex). f_equal.
  apply map_ext_in. intros j Hj%list_elem_of_In. destruct (W i n Hn) as [_ Hin]. rewrite Forall_forall in Hin. specialize (Hin j Hj).
  pose proof (IH (Z.to_nat j) ltac:(lia) ltac:(lia)) as E. by rewrite Z2Nat.id in E by lia.
Qed.

(** ** The division *)

Lemma safe_div_eq x y : y <> 0 -> safe_div x y = x / y * (Rabs y / (Rabs y + EPS)).
Proof.
  intros Hy. pose proof EPS_bounds. unfold safe_div, sign_of. destruct (Rtotal_order y 0) as [Hn|[?|Hp]]; [|done|].
  - rewrite (relu_neg y), (relu_pos (- y)), select_z, select_nz, (relu_pos (0 + - y)), Rabs_left by lra. field. lra.
  - rewrite (relu_pos y), (relu_neg (- y)), select_nz, (relu_pos (y + 0)), Rabs_right by lra. field. lra.
Qed.

Lemma safe_div_zero x : safe_div x 0 = 0.
Proof.
  pose proof EPS_bounds. unfold safe_div, sign_of. rewrite Ropp_0, !(relu_pos 0), !select_z, (relu_pos (0 + 0)) by lra. field. lra.
Qed.

(** ** The exponential *)

Lemma bernoulli x k : 0 <= x <= 1 -> 1 - INR k * x <= (1 - x) ^ k.
Proof.
  intros Hx. induction k as [|k IH]; [cbn; lra|]. rewrite S_INR. cbn [pow].
  assert (0 <= (1 - x) ^ k) by (apply pow_le; lra).
  destruct (Rle_dec 0 (1 - INR k * x)) as [H0|H0]; [|nra].
  pose proof (pos_INR k). nra.
Qed.

Lemma tanh_exp u : tanh u = 1 - 2 / (exp (2 * u) + 1) /\ tanh u = 2 * exp (2 * u) / (exp (2 * u) + 1) - 1.
Proof.
  pose proof (exp_pos u). assert (E : exp (2 * u) = exp u * exp u) by (rewrite <- exp_plus; f_equal; lra).
  unfold tanh, sinh, cosh. rewrite E, exp_Ropp. split; field; nra.
Qed.

Lemma exp_base_eq x : -88 <= x <= 88 ->
  exp_base x = exp (x / 16) * (1 - EPS / (2 / (exp (x / 16) + 1) + EPS)).
Proof.
  intros Hx. pose proof EPS_bounds. pose proof (exp_pos (x / 16)). unfold exp_base.
  rewrite real_88, real_m88, real_32nd, Rmax_left, Rmin_left by (rewrite ?Rmax_left; lra).
  destruct (tanh_exp (x * / 32)) as [E1 E2]. replace (2 * (x * / 32)) with (x / 16) in * by lra.
  assert (0 < 2 / (exp (x / 16) + 1)) by (apply Rdiv_lt_0_compat; lra).
  rewrite relu_pos by lra. rewrite E2 at 1. rewrite E1. field. split; [|nra]. lra.
Qed.

Lemma pow_exp y k : exp y ^ k = exp (INR k * y).
Proof. induction k as [|k IH]; [cbn; by rewrite Rmult_0_l, exp_0|]. rewrite S_INR. cbn [pow]. rewrite IH, <- exp_plus. f_equal. lra. Qed.

Lemma exp_sixteenth x : x <= 88 -> exp (x / 16) <= 729.
Proof.
  intros Hx. apply Rle_trans with (exp 6). { destruct (Req_dec (x / 16) 6) as [->|]; [lra|]. left. apply exp_increasing. lra. }
  replace 6 with (INR 6 * 1) by (cbn [INR]; lra). rewrite <- pow_exp.
  replace 729 with (3 ^ 6) by (cbn [pow]; lra). apply pow_incr. split; [left; apply exp_pos|apply exp_le_3].
Qed.

Lemma INR_16 : INR 16 = 16.
Proof. by rewrite INR_IZR_INZ. Qed.

Lemma low_exp_close x : -88 <= x <= 88 -> exp x * (1 - / 10 ^ 8) <= low_exp x <= exp x.
Proof.
  intros Hx. pose proof EPS_bounds as [H0 H1]. pose proof (exp_pos (x / 16)) as He. pose proof (exp_sixteenth x ltac:(lra)) as H729.
  unfold low_exp. rewrite exp_base_eq, Rpow_mult_distr, pow_exp by done.
  rewrite INR_16. replace (16 * (x / 16)) with x by lra.
  set (e := EPS / (2 / (exp (x / 16) + 1) + EPS)).
  assert (Hd : / 365 <= 2 / (exp (x / 16) + 1)) by (apply Rmult_le_reg_r with (exp (x / 16) + 1); [lra|]; field_simplify; lra).
  assert (He0 : 0 <= e) by (apply Rlt_le, Rdiv_lt_0_compat; lra).
  assert (He1 : e <= 365 * / 10 ^ 12).
  { apply Rmult_le_reg_r with (2 / (exp (x / 16) + 1) + EPS); [lra|]. unfold e, Rdiv at 1. rewrite Rmult_assoc, Rinv_l by lra. nra. }
  pose proof (bernoulli e 16 ltac:(split; [done|]; cbn in *; lra)) as Hb. 
  assert (Hb' : 1 - / 10 ^ 8 <= (1 - e) ^ 16).
  { eapply Rle_trans; [|exact Hb]. rewrite INR_16. cbn in *. lra. }
  assert (Hu : (1 - e) ^ 16 <= 1) by (rewrite <- (pow1 16); apply pow_incr; cbn in *; lra).
  pose proof (exp_pos x). nra.
Qed.

(** Any other argument counts as the nearer end of the range. *)
Lemma low_exp_clamped x : let c := Rmin (Rmax x (-88)) 88 in exp c * (1 - / 10 ^ 8) <= low_exp x <= exp c.
Proof.
  set (c := Rmin (Rmax x (-88)) 88). assert (Hc : -88 <= c <= 88).
  { unfold c. split; [apply Rmin_glb; [apply Rmax_r|lra]|apply Rmin_r]. }
  assert (low_exp x = low_exp c) as ->; [|by apply low_exp_close].
  unfold low_exp, exp_base. rewrite real_88, real_m88. fold c. by rewrite Rmax_left, Rmin_left by lra.
Qed.

(** ** The square root *)

Lemma low_sqrt_pos x : 0 < x -> low_sqrt x = Nat.iter 7 (newton (x + EPS)) (guess (x + EPS)).
Proof. intros Hx. unfold low_sqrt. rewrite (relu_pos x), (relu_pos x), select_nz by lra. done. Qed.

Lemma guess_eq xs : guess xs = if Rle_dec xs 16 then xs / 2 + / 2 else xs / 8 + 2.
Proof.
  unfold guess. rewrite real_16, real_8th, real_2. destruct (Rle_dec xs 16).
  - rewrite relu_neg, select_z by lra. lra.
  - rewrite relu_pos, select_nz by lra. lra.
Qed.

(** A step at most halves what it starts from. *)
Lemma newton_half xs y : 0 <= xs -> 0 <= y -> y / 2 <= newton xs y.
Proof.
  intros Hx Hy. pose proof EPS_bounds. unfold newton. rewrite relu_pos by done.
  assert (0 <= xs / (y + EPS)) by (apply Rmult_le_pos; [done|]; left; apply Rinv_0_lt_compat; lra). lra.
Qed.

Lemma newton_halves xs k y : 0 <= xs -> 0 <= y -> y / 2 ^ k <= Nat.iter k (newton xs) y.
Proof.
  intros Hx Hy. assert (H2 : forall k, 0 < 2 ^ k) by (intros; apply pow_lt; lra).
  induction k as [|k IH]; [cbn; lra|]. change (Nat.iter (S k) (newton xs) y) with (newton xs (Nat.iter k (newton xs) y)).
  assert (H0 : 0 <= y / 2 ^ k) by (apply Rmult_le_pos; [done|]; left; by apply Rinv_0_lt_compat).
  pose proof (newton_half xs (Nat.iter k (newton xs) y) Hx ltac:(lra)). replace (y / 2 ^ S k) with (y / 2 ^ k / 2); [lra|].
  specialize (H2 k). cbn [pow]. field. lra.
Qed.

Lemma low_sqrt_floor x : 0 < x -> / 256 <= low_sqrt x /\ x / 1024 <= low_sqrt x.
Proof.
  intros Hx. pose proof EPS_bounds. rewrite low_sqrt_pos by done.
  assert (Hg : / 2 <= guess (x + EPS) /\ x / 8 <= guess (x + EPS)) by (rewrite guess_eq; destruct (Rle_dec _ _); lra).
  pose proof (newton_halves (x + EPS) 7 (guess (x + EPS)) ltac:(lra) ltac:(lra)) as Hn. cbn [pow] in Hn. lra.
Qed.

(** The relative error [e] of an iterate, which the constant in the denominator
    takes below zero by no more than [SLIP]. *)
Definition SLIP : R := / 10 ^ 11.
Definition near (r e : R) (b : R) : Prop := - SLIP <= e <= b.

Lemma newton_near r e b b' : / 16 <= r -> near r e b -> b * b <= 2 * (1 + b) * b' -> SLIP * SLIP <= b' ->
  exists e', newton (r * r) ((1 + e) * r) = (1 + e') * r /\ near r e' b'.
Proof.
  unfold near, SLIP. intros Hr [Hl Hu] Hb Hs. pose proof EPS_bounds as [H0 H1].
  assert (Hy : 0 < (1 + e) * r) by (apply Rmult_lt_0_compat; lra). unfold newton. rewrite relu_pos by lra.
  set (q := EPS / (2 * (1 + e) * ((1 + e) * r + EPS))).
  exists (e * e / (2 * (1 + e)) - q). split; [unfold q; field; split; lra|].
  assert (Hq : 0 <= q <= / 10 ^ 11).
  { assert (Hden : / 10 < 2 * (1 + e) * ((1 + e) * r + EPS)) by nra. split.
    - apply Rlt_le, Rdiv_lt_0_compat; lra.
    - unfold q. apply Rle_trans with (EPS / / 10); [|unfold Rdiv; rewrite Rinv_inv; lra].
      apply Rmult_le_compat_l; [lra|]. apply Rinv_le_contravar; lra. }
  assert (Hsq : 0 <= e * e / (2 * (1 + e)) <= b').
  { split; [apply Rmult_le_pos; [nra|left; apply Rinv_0_lt_compat; lra]|].
    apply Rmult_le_reg_r with (2 * (1 + e)); [lra|]. unfold Rdiv. rewrite Rmult_assoc, Rinv_l, Rmult_1_r by lra.
    destruct (Rle_dec 0 e) as [He|He]; [|nra]. 
    assert (0 <= (b - e) * (e * b + e + b)) by (apply Rmult_le_pos; nra). 
    apply Rmult_le_reg_r with (1 + b); [lra|]. nra. }
  lra.
Qed.

Lemma newton_next k r y0 b b' : / 16 <= r -> b * b <= 2 * (1 + b) * b' -> SLIP * SLIP <= b' ->
  (exists e, Nat.iter k (newton (r * r)) y0 = (1 + e) * r /\ near r e b) ->
  exists e, Nat.iter (S k) (newton (r * r)) y0 = (1 + e) * r /\ near r e b'.
Proof. intros Hr Hb Hs (e & E & Hn). change (Nat.iter (S k) ?f y0) with (f (Nat.iter k f y0)). rewrite E. by eapply newton_near. Qed.

Lemma guess_near r : / 16 <= r <= 64 + / 10 ^ 4 -> exists e, guess (r * r) = (1 + e) * r /\ near r e (704 / 100).
Proof.
  intros Hr. exists (guess (r * r) / r - 1). split; [field; lra|]. unfold near, SLIP.
  assert (H : r <= guess (r * r) <= 804 / 100 * r).
  { rewrite guess_eq. destruct (Rle_dec (r * r) 16) as [Hc|Hc].
    - assert (r <= 4) by nra. split; [pose proof (Rle_0_sqr (r - 1)) as Hs; unfold Rsqr in Hs; lra|nra].
    - assert (4 <= r) by nra. split; [pose proof (Rle_0_sqr (r - 4)) as Hs; unfold Rsqr in Hs; lra|nra]. }
  split.
  - apply Rmult_le_reg_r with r; [lra|]. unfold Rdiv. rewrite Rmult_minus_distr_r, Rmult_assoc, Rinv_l by lra. nra.
  - apply Rmult_le_reg_r with r; [lra|]. unfold Rdiv. rewrite Rmult_minus_distr_r, Rmult_assoc, Rinv_l by lra. lra.
Qed.

Lemma newton_seven r : / 16 <= r <= 64 + / 10 ^ 4 ->
  exists e, Nat.iter 7 (newton (r * r)) (guess (r * r)) = (1 + e) * r /\ near r e (/ 10 ^ 13).
Proof.
  intros Hr. destruct Hr as [Hl Hu].
  apply (newton_next 6 r _ (25 / 10 ^ 8)); [done|cbn [pow]; lra|unfold SLIP; cbn [pow]; lra|].
  apply (newton_next 5 r _ (7 / 10 ^ 4)); [done|cbn [pow]; lra|unfold SLIP; cbn [pow]; lra|].
  apply (newton_next 4 r _ (38 / 10 ^ 3)); [done|cbn [pow]; lra|unfold SLIP; cbn [pow]; lra|].
  apply (newton_next 3 r _ (316 / 10 ^ 3)); [done|cbn [pow]; lra|unfold SLIP; cbn [pow]; lra|].
  apply (newton_next 2 r _ (117 / 100)); [done|cbn [pow]; lra|unfold SLIP; cbn [pow]; lra|].
  apply (newton_next 1 r _ (309 / 100)); [done|cbn [pow]; lra|unfold SLIP; cbn [pow]; lra|].
  apply (newton_next 0 r _ (704 / 100)); [done|cbn [pow]; lra|unfold SLIP; cbn [pow]; lra|].
  apply guess_near. lra.
Qed.

Lemma sqrt_shift x e : 0 < x -> 0 <= e -> sqrt x <= sqrt (x + e) <= sqrt x * (1 + e / (2 * x)).
Proof.
  intros Hx He. split; [apply sqrt_le_1_alt; lra|]. pose proof (sqrt_lt_R0 x Hx) as Hs.
  assert (0 <= e / (2 * x)) by (apply Rmult_le_pos; [done|left; apply Rinv_0_lt_compat; lra]).
  rewrite <- (sqrt_square (sqrt x * (1 + e / (2 * x)))) by (apply Rmult_le_pos; lra). apply sqrt_le_1_alt.
  replace (sqrt x * (1 + e / (2 * x)) * (sqrt x * (1 + e / (2 * x)))) with (sqrt x * sqrt x * ((1 + e / (2 * x)) * (1 + e / (2 * x)))) by ring.
  rewrite sqrt_sqrt by lra. replace (x + e) with (x * (1 + 2 * (e / (2 * x)))) by (field; lra).
  apply Rmult_le_compat_l; [lra|]. nra.
Qed.

Lemma low_sqrt_close x : / 256 <= x <= 4096 -> Rabs (low_sqrt x - sqrt x) <= / 10 ^ 9 * sqrt x.
Proof.
  intros Hx. pose proof EPS_bounds as [H0 H1]. rewrite low_sqrt_pos by lra.
  pose proof (sqrt_shift x EPS ltac:(lra) ltac:(lra)) as [Hl Hu]. pose proof (sqrt_lt_R0 x ltac:(lra)) as Hs.
  set (r := sqrt (x + EPS)) in *. assert (Hr : r * r = x + EPS) by (apply sqrt_sqrt; lra).
  assert (Hlo : / 16 <= sqrt x). { apply Rsqr_incr_0_var; [|lra]. rewrite Rsqr_sqrt by lra. unfold Rsqr. lra. }
  assert (Hhi : r <= 64 + / 10 ^ 4) by (apply Rsqr_incr_0_var; [unfold Rsqr; rewrite Hr; lra|lra]).
  destruct (newton_seven r) as (e & E & [He1 He2]); [lra|]. rewrite <- Hr, E. unfold SLIP in He1.
  assert (Hd : EPS / (2 * x) <= 128 / 10 ^ 12).
  { unfold Rdiv. apply Rle_trans with (EPS * 128); [|lra]. apply Rmult_le_compat_l; [lra|].
    replace 128 with (/ / 128) by lra. apply Rinv_le_contravar; lra. }
  assert (Hr2 : r <= sqrt x * (1 + 128 / 10 ^ 12)).
  { eapply Rle_trans; [exact Hu|]. apply Rmult_le_compat_l; lra. }
  assert (- / 10 ^ 11 * r <= e * r <= / 10 ^ 13 * r) by (split; apply Rmult_le_compat_r; lra).
  apply Rabs_le. lra.
Qed.

(** ** The reciprocal square root *)

Lemma abs_bounds a b : Rabs a <= b -> - b <= a <= b.
Proof. unfold Rabs. destruct (Rcase_abs a); lra. Qed.

Lemma relative_inv a b s : 0 < s -> 0 <= b <= / 2 -> Rabs (a - s) <= b * s -> Rabs (/ a - / s) <= 2 * b * / s.
Proof.
  intros Hs Hb H. apply abs_bounds in H. assert (Ha : s / 2 <= a) by nra.
  replace (/ a - / s) with ((s - a) * (/ a * / s)) by (field; lra).
  assert (0 < / s) by (by apply Rinv_0_lt_compat). assert (Hi : 0 < / a <= 2 * / s).
  { split; [apply Rinv_0_lt_compat; lra|]. replace (2 * / s) with (/ (s / 2)) by (field; lra). apply Rinv_le_contravar; lra. }
  rewrite Rabs_mult, (Rabs_right (_ * _)) by nra. assert (Rabs (s - a) <= b * s) by (apply Rabs_le; lra).
  apply Rle_trans with (b * s * (2 * / s * / s)); [|right; field; lra].
  apply Rmult_le_compat; [apply Rabs_pos|nra|done|nra].
Qed.

Lemma low_rsqrt_close x : / 256 <= x <= 4000 -> Rabs (low_rsqrt x - / sqrt x) <= / 10 ^ 8 * / sqrt x.
Proof.
  intros Hx. pose proof EPS_bounds as [H0 H1]. unfold low_rsqrt. rewrite !(relu_pos x) by (rewrite ?(relu_pos x); lra).
  pose proof (low_sqrt_close (x + EPS) ltac:(lra)) as Hc. apply abs_bounds in Hc.
  pose proof (sqrt_shift x EPS ltac:(lra) ltac:(lra)) as [Hl Hu]. pose proof (sqrt_lt_R0 x ltac:(lra)) as Hs.
  assert (Hlo : / 16 <= sqrt x). { apply Rsqr_incr_0_var; [|lra]. rewrite Rsqr_sqrt by lra. unfold Rsqr. lra. }
  assert (Hd : EPS / (2 * x) <= 128 / 10 ^ 12).
  { unfold Rdiv. apply Rle_trans with (EPS * 128); [|lra]. apply Rmult_le_compat_l; [lra|].
    replace 128 with (/ / 128) by lra. apply Rinv_le_contravar; lra. }
  assert (Hr2 : sqrt (x + EPS) <= sqrt x * (1 + 128 / 10 ^ 12)) by (eapply Rle_trans; [exact Hu|]; apply Rmult_le_compat_l; lra).
  set (s := low_sqrt (x + EPS)) in *. unfold Rdiv. rewrite Rmult_1_l, relu_pos by lra.
  eapply Rle_trans; [apply (relative_inv _ (/ 10 ^ 9 * 2)); [done|lra|]|apply Rmult_le_compat_r; [left; by apply Rinv_0_lt_compat|lra]].
  apply Rabs_le. lra.
Qed.

(** ** The logarithm

    [ln x = 16 * atanh u] at [u = (r - 1) / (r + 1)], [r] the eighth root of [x]. *)

(** The first five terms of [atanh u]. *)
Definition atanh5 (u : R) : R := u + u ^ 3 / 3 + u ^ 5 / 5 + u ^ 7 / 7 + u ^ 9 / 9.
Definition atanh_rest (u : R) : R := ln (1 + u) - ln (1 - u) - 2 * atanh5 u.

Lemma D_pow n u : D (fun t => t ^ n) u (INR n * u ^ pred n).
Proof. apply derivable_pt_lim_pow. Qed.

Lemma D_atanh5 u : D atanh5 u (1 + u ^ 2 + u ^ 4 + u ^ 6 + u ^ 8).
Proof.
  unfold atanh5. eapply D_eq.
  - repeat apply D_plus; [apply D_id| | | |]; unfold Rdiv; (eapply D_mult; [apply D_pow|apply D_const]).
  - cbn [INR pred pow]. field.
Qed.

Lemma D_atanh_rest u : Rabs u < 1 -> D atanh_rest u (2 * u ^ 10 / (1 - u ^ 2)).
Proof.
  intros Hu. apply Rabs_def2 in Hu. unfold atanh_rest. eapply D_eq.
  - apply D_minus; [apply D_minus|].
    + apply (D_comp (fun t => 1 + t) ln); [apply D_plus; [apply D_const|apply D_id]|apply derivable_pt_lim_ln; lra].
    + apply (D_comp (fun t => 1 - t) ln); [apply D_minus; [apply D_const|apply D_id]|apply derivable_pt_lim_ln; lra].
    + apply (D_mult (fun _ => 2)); [apply D_const|apply D_atanh5].
  - field. repeat split; nra.
Qed.

Lemma atanh_rest_bound u b : Rabs u <= b -> b < 1 -> Rabs (atanh_rest u) <= 2 * b ^ 11 / (1 - b ^ 2).
Proof.
  intros Hu Hb. destruct (MVT_abs atanh_rest (fun c => 2 * c ^ 10 / (1 - c ^ 2)) 0 u) as (c & E & Hc).
  { intros c Hc. apply D_atanh_rest. apply Rle_lt_trans with (Rabs u); [|lra].
    unfold Rmin, Rmax in Hc. destruct (Rle_dec 0 u); unfold Rabs; destruct (Rcase_abs c), (Rcase_abs u); lra. }
  assert (Hcb : Rabs c <= b).
  { apply Rle_trans with (Rabs u); [|done]. unfold Rmin, Rmax in Hc. destruct (Rle_dec 0 u); unfold Rabs; destruct (Rcase_abs c), (Rcase_abs u); lra. }
  assert (E0 : atanh_rest 0 = 0) by (unfold atanh_rest, atanh5; rewrite Rplus_0_r, Rminus_0_r, ln_1; cbn [pow]; lra).
  rewrite E0, !Rminus_0_r in E. rewrite E. pose proof (Rabs_pos c) as H0. pose proof (Rabs_pos u).
  assert (H10 : c ^ 10 <= b ^ 10).
  { replace (c ^ 10) with (Rabs c ^ 10); [by apply pow_incr|]. rewrite RPow_abs. apply Rabs_right.
    replace (c ^ 10) with ((c ^ 5) ^ 2) by ring. apply Rle_ge, pow2_ge_0. }
  assert (Hc0 : 0 <= c ^ 10) by (replace (c ^ 10) with ((c ^ 5) ^ 2) by ring; apply pow2_ge_0).
  assert (H2 : c ^ 2 <= b ^ 2) by (rewrite <- (pow2_abs c); by apply pow_incr).
  assert (Hb2 : b ^ 2 < 1) by (cbn [pow]; nra).
  assert (Hq : 0 <= 2 * c ^ 10 / (1 - c ^ 2) <= 2 * b ^ 10 / (1 - b ^ 2)).
  { split; [apply Rmult_le_pos; [lra|left; apply Rinv_0_lt_compat; lra]|].
    apply Rmult_le_compat; [lra|left; apply Rinv_0_lt_compat; lra|lra|apply Rinv_le_contravar; lra]. }
  rewrite (Rabs_right (2 * _ / _)) by lra.
  replace (2 * b ^ 11 / (1 - b ^ 2)) with (2 * b ^ 10 / (1 - b ^ 2) * b) by (field; lra).
  apply Rmult_le_compat; [lra|done|lra|done].
Qed.

(** The series with its rounded constants. *)
Lemma series_close u : Rabs u <= / 2 -> Rabs (u * series (u * u) - atanh5 u) <= / 10 ^ 8.
Proof.
  intros Hu. unfold series.
  assert (f32_real 0x3DE38E39 = 14913081 / 2 ^ 27) as -> by f32_eval.
  assert (f32_real 0x3E124925 = 9586981 / 2 ^ 26) as -> by f32_eval.
  assert (f32_real 0x3E4CCCCD = 13421773 / 2 ^ 26) as -> by f32_eval.
  assert (f32_real 0x3EAAAAAB = 11184811 / 2 ^ 25) as -> by f32_eval.
  set (v := u * u). assert (Hv : 0 <= v <= / 4) by (apply abs_bounds in Hu; unfold v; nra).
  set (q := ((14913081 / 2 ^ 27 - / 9) * v + (9586981 / 2 ^ 26 - / 7)) * v * v * v +
            ((13421773 / 2 ^ 26 - / 5) * v + (11184811 / 2 ^ 25 - / 3)) * v).
  replace (_ - atanh5 u) with (u * q) by (unfold q, atanh5, v; field).
  rewrite Rabs_mult. replace (/ 10 ^ 8) with (/ 2 * (2 / 10 ^ 8)) by lra.
  apply Rmult_le_compat; [apply Rabs_pos|apply Rabs_pos|done|].
  assert (0 <= v * v <= / 4) by nra. assert (0 <= v * v * v <= / 4) by nra. assert (0 <= v * v * v * v <= / 4) by nra.
  apply Rabs_le. unfold q. lra.
Qed.

(** A factor close to 1. *)
Lemma ln_factor e : Rabs e <= / 10 ^ 8 -> Rabs (ln (1 + e)) <= 2 * Rabs e.
Proof.
  intros He. pose proof (abs_bounds _ _ He) as Hb.
  assert (Hup : forall t, - / 2 < t -> ln (1 + t) <= t).
  { intros t Ht. rewrite <- (ln_exp t) at 2. destruct (Req_dec t 0) as [->|Hne]; [rewrite Rplus_0_r, exp_0; lra|].
    left. apply ln_increasing; [lra|]. by apply exp_ineq1. }
  assert (Hlow : - (ln (1 + e)) <= 2 * Rabs e).
  { rewrite <- ln_Rinv by lra. replace (/ (1 + e)) with (1 + (- e / (1 + e))) by (field; lra).
    assert (Hq : Rabs (- e / (1 + e)) <= 2 * Rabs e).
    { unfold Rdiv. rewrite Rabs_mult, Rabs_Ropp. rewrite (Rmult_comm 2). apply Rmult_le_compat_l; [apply Rabs_pos|].
      rewrite Rabs_right by (left; apply Rinv_0_lt_compat; lra). replace 2 with (/ / 2) by lra. apply Rinv_le_contravar; lra. }
    pose proof (abs_bounds _ _ Hq). eapply Rle_trans; [apply Hup; lra|]. lra. }
  specialize (Hup e ltac:(lra)). pose proof (Rle_abs e). pose proof (Rabs_pos e). apply Rabs_le. lra.
Qed.

Lemma ln_half x : 0 < x -> ln (sqrt x) = ln x / 2.
Proof.
  intros Hx. pose proof (sqrt_lt_R0 x Hx). rewrite <- (sqrt_sqrt x) at 2 by lra. rewrite ln_mult by done. lra.
Qed.

(** One square root of the three. *)
Lemma low_sqrt_ln x a b : 0 < a -> a * a <= x <= b * b -> 0 < b -> / 256 <= x <= 4096 ->
  a * (1 - / 10 ^ 9) <= low_sqrt x <= b * (1 + / 10 ^ 9) /\ Rabs (ln (low_sqrt x) - ln x / 2) <= 2 * / 10 ^ 9.
Proof.
  intros Ha [Hl Hu] Hb Hx. pose proof (low_sqrt_close x Hx) as Hc. pose proof (abs_bounds _ _ Hc) as Hc'.
  pose proof (sqrt_lt_R0 x ltac:(lra)) as Hs.
  assert (Hsa : a <= sqrt x) by (apply Rsqr_incr_0_var; [rewrite Rsqr_sqrt by lra; exact Hl|lra]).
  assert (Hsb : sqrt x <= b) by (apply Rsqr_incr_0_var; [rewrite Rsqr_sqrt by lra; exact Hu|lra]).
  split; [lra|]. set (e := (low_sqrt x - sqrt x) / sqrt x).
  assert (He : Rabs e <= / 10 ^ 9).
  { unfold e, Rdiv. rewrite Rabs_mult, (Rabs_right (/ _)) by (left; by apply Rinv_0_lt_compat).
    apply (Rmult_le_reg_r (sqrt x)); [done|]. rewrite Rmult_assoc, Rinv_l; lra. }
  assert (E : low_sqrt x = sqrt x * (1 + e)) by (unfold e; field; lra). pose proof (abs_bounds _ _ He).
  rewrite E, ln_mult, ln_half by lra. replace (ln x / 2 + ln (1 + e) - ln x / 2) with (ln (1 + e)) by ring.
  pose proof (ln_factor e ltac:(lra)). lra.
Qed.

(** The three roots. *)
Lemma eighth_root p a b : / 2 <= a -> 0 < b <= 3 -> a ^ 8 <= p <= b ^ 8 -> / 256 <= p <= 4096 ->
  let r := low_sqrt (low_sqrt (low_sqrt p)) in
  a * (1 - 2 / 10 ^ 9) <= r <= b * (1 + 3 / 10 ^ 9) /\ Rabs (8 * ln r - ln p) <= 3 / 10 ^ 8.
Proof.
  intros Ha Hb Hp Hx. cbv zeta. set (k := 1 - / 10 ^ 9). set (h := 1 + / 10 ^ 9).
  assert (Hk : 1 - 2 / 10 ^ 9 <= k * k /\ k <= 1 /\ k * k <= k) by (unfold k; lra).
  assert (Hh : h * h <= 1 + 3 / 10 ^ 9 /\ 1 <= h /\ h <= h * h) by (unfold h; lra).
  destruct Hk as (Hk2 & Hk1 & Hkk), Hh as (Hh2 & Hh1 & Hhh).
  assert (Ha2 : / 4 <= a * a) by nra. assert (Hb2 : b * b <= 9) by nra.
  assert (Ha4 : / 16 <= a * a * (a * a)) by nra. assert (Hb4 : b * b * (b * b) <= 81) by nra.
  assert (0 < b * b) by nra. assert (0 < b * b * (b * b)) by nra.
  destruct (low_sqrt_ln p (a * a * (a * a)) (b * b * (b * b))) as [[L1 U1] E1]; [lra|cbn [pow] in Hp; lra|lra|done|].
  fold k in L1. fold h in U1. set (r1 := low_sqrt p) in *.
  destruct (low_sqrt_ln r1 (a * a * k) (b * b * h)) as [[L2 U2] E2]; [nra| |nra|unfold k, h in *; split; nra|].
  { split; [replace (a * a * k * (a * a * k)) with (a * a * (a * a) * (k * k)) by ring; nra|].
    replace (b * b * h * (b * b * h)) with (b * b * (b * b) * (h * h)) by ring. nra. }
  fold k in L2. fold h in U2. set (r2 := low_sqrt r1) in *.
  destruct (low_sqrt_ln r2 (a * k) (b * h)) as [[L3 U3] E3]; [unfold k; nra| |unfold h; nra|unfold k, h in *; split; nra|].
  { split; [replace (a * k * (a * k)) with (a * a * k * k) by ring; done|].
    replace (b * h * (b * h)) with (b * b * h * h) by ring. done. }
  fold k in L3. fold h in U3. apply abs_bounds in E1, E2, E3. split.
  - split; [eapply Rle_trans; [|exact L3]; nra|eapply Rle_trans; [exact U3|]; nra].
  - apply Rabs_le. lra.
Qed.

(** The logarithm, where [(r - 1) / (r + 1)] is at most [c] for the eighth roots
    [r] between [a] and [b]. *)
Lemma low_log_between x a b c : / 2 <= a -> 0 < b <= 3 -> / 256 <= x <= 4095 -> a ^ 8 <= x -> x + / 10 ^ 12 <= b ^ 8 ->
  1 - a * (1 - 2 / 10 ^ 9) <= c * (a * (1 - 2 / 10 ^ 9) + 1) -> b * (1 + 3 / 10 ^ 9) - 1 <= c * (b * (1 + 3 / 10 ^ 9) + 1) ->
  0 <= c <= / 2 -> Rabs (low_log x - ln x) <= 16 * c ^ 11 / (1 - c ^ 2) + 3 / 10 ^ 7.
Proof.
  intros Ha Hb Hx Hax Hbx Hca Hcb Hc. pose proof EPS_bounds as [H0 H1].
  unfold low_log. rewrite !(relu_pos x) by (rewrite ?(relu_pos x); lra).
  destruct (eighth_root (x + EPS) a b Ha Hb ltac:(lra) ltac:(lra)) as [Hr Hln]. cbv zeta in Hr, Hln.
  set (r := low_sqrt _) in *. assert (Hr0 : / 4 <= r) by lra. rewrite relu_pos by lra. set (u := (r - 1) / (r + 1)).
  assert (Hu : Rabs u <= c).
  { assert (Eu : u * (r + 1) = r - 1) by (unfold u; field; lra).
    apply Rabs_le. split; apply (Rmult_le_reg_r (r + 1)); try lra; rewrite Eu; nra. }
  pose proof (atanh_rest_bound u c Hu ltac:(lra)) as Hrest. pose proof (series_close u ltac:(lra)) as Hs.
  assert (El : ln (1 + u) - ln (1 - u) = ln r).
  { replace (1 + u) with (r * (1 - u)) by (unfold u; field; lra).
    assert (0 < 1 - u) by (apply abs_bounds in Hu; lra). rewrite ln_mult by lra. lra. }
  unfold atanh_rest in Hrest. rewrite El in Hrest.
  assert (Hp : Rabs (ln (x + EPS) - ln x) <= / 10 ^ 9).
  { replace (x + EPS) with (x * (1 + EPS / x)) by (field; lra).
    assert (He : 0 <= EPS / x <= 256 / 10 ^ 12).
    { split; [apply Rmult_le_pos; [lra|left; apply Rinv_0_lt_compat; lra]|]. apply (Rmult_le_reg_r x); [lra|].
      unfold Rdiv at 1. rewrite Rmult_assoc, Rinv_l; lra. }
    rewrite ln_mult by lra. replace (ln x + ln (1 + EPS / x) - ln x) with (ln (1 + EPS / x)) by ring.
    eapply Rle_trans; [apply ln_factor|]; rewrite Rabs_right; lra. }
  rewrite real_16. apply abs_bounds in Hrest, Hs, Hp, Hln.
  replace (16 * c ^ 11 / (1 - c ^ 2)) with (8 * (2 * c ^ 11 / (1 - c ^ 2))) by (unfold Rdiv; ring).
  apply Rabs_le. lra.
Qed.

Lemma low_log_near x : / 16 <= x <= 16 -> Rabs (low_log x - ln x) <= / 10 ^ 6.
Proof.
  intros Hx. eapply Rle_trans; [apply (low_log_between x (7071 / 10000) (14143 / 10000) (172 / 1000)); try lra|lra].
Qed.

Lemma low_log_far x : / 256 <= x <= 4095 -> Rabs (low_log x - ln x) <= / 100.
Proof.
  intros Hx. eapply Rle_trans; [apply (low_log_between x (/ 2) (28285 / 10000) (478 / 1000)); try lra|lra].
Qed.

(** ** The properties of the lowering *)

(** [v] is the operation of [n] on [args], within the error of its lowered form. *)
Definition close_to (n : TraceNode) (args : list R) (v : R) : Prop :=
  let x := nth 0 args 0 in
  let quotient num den := (den <> 0 -> Rabs (v - num / den) <= Rabs (num / den) * (EPS / Rabs den)) /\ (den = 0 -> v = 0 \/ rectified den) in
  match n_op n with
  | TraceOpKind.Div => quotient x (nth 1 args 0)
  | TraceOpKind.ScalarDiv => quotient (f32_real (n_scalar n)) x
  | TraceOpKind.DivScalar => v = x * f32_real (safe_recip (n_scalar n))
  | TraceOpKind.Exp => let c := Rmin (Rmax x (-88)) 88 in exp c * (1 - / 10 ^ 8) <= v <= exp c
  | TraceOpKind.Sqrt => (/ 256 <= x <= 4096 -> Rabs (v - sqrt x) <= / 10 ^ 9 * sqrt x) /\ (x <= 0 -> v = 0)
  | TraceOpKind.Rsqrt => / 256 <= x <= 4000 -> Rabs (v - / sqrt x) <= / 10 ^ 8 * / sqrt x
  | TraceOpKind.Log => (/ 16 <= x <= 16 -> Rabs (v - ln x) <= / 10 ^ 6) /\ (/ 256 <= x <= 4095 -> Rabs (v - ln x) <= / 100)
  | _ => v = rop (n_op n) (f32_real (n_scalar n)) (f32_real (n_scalar2 n)) args
  end.

Lemma quotient_close (pos : bool) x y : (pos = true -> rectified y) ->
  let v := if pos then x / y else safe_div x y in
  (y <> 0 -> Rabs (v - x / y) <= Rabs (x / y) * (EPS / Rabs y)) /\ (y = 0 -> v = 0 \/ rectified y).
Proof.
  intros Hp. pose proof EPS_bounds. cbv zeta. split.
  - intros Hy. pose proof (Rabs_pos_lt y Hy) as Hay. destruct pos.
    + replace (x / y - x / y) with 0 by lra. rewrite Rabs_R0. apply Rmult_le_pos; [apply Rabs_pos|].
      apply Rmult_le_pos; [lra|left; by apply Rinv_0_lt_compat].
    + rewrite safe_div_eq by done. replace (x / y * (Rabs y / (Rabs y + EPS)) - x / y) with (x / y * - (EPS / (Rabs y + EPS))).
      2: { replace (Rabs y / (Rabs y + EPS)) with (1 - EPS / (Rabs y + EPS)) by (field; lra). ring. }
      rewrite Rabs_mult. apply Rmult_le_compat_l; [apply Rabs_pos|]. rewrite Rabs_Ropp, Rabs_right.
      * apply Rmult_le_compat_l; [lra|]. apply Rinv_le_contravar; lra.
      * apply Rle_ge, Rlt_le, Rdiv_lt_0_compat; lra.
  - intros ->. destruct pos; [right; by apply Hp|left; apply safe_div_zero].
Qed.

Lemma lop_close pos n args : (pos = true -> rectified (denominator n args)) -> close_to n args (lop pos n args).
Proof.
  unfold close_to, lop, denominator. intros Hp. destruct (n_op n); try done.
  - by apply quotient_close.
  - by apply quotient_close.
  - apply low_exp_clamped.
  - split; [apply low_log_near|apply low_log_far].
  - split; [apply low_sqrt_close|]. intros Hx. unfold low_sqrt. by rewrite relu_neg, select_z.
  - apply low_rsqrt_close.
Qed.

(** C6: The lowering of every traced graph returns: a well-formed graph in
    which every operation has an emitted form and every division's denominator
    is a rectified value plus a positive constant. It has the same number of
    inputs and the live nodes of the graph in the same order, and the node that
    stands for each node has its buffer and liveness, and, unless that is in
    place, its shape, type and device. *)
Theorem canonicalize_form d : traced d -> (163 * zlen (nodes_ d) <= INT_MAX)%Z ->
  exists out f, canonicalize_trace_dag_for_codegen d = Ret out /\ good true out /\ keeps d out f.
Proof. intros Hd Hr. destruct (canonicalize_lowers d Hd Hr) as (out & f & ? & ? & ? & _). by exists out, f. Qed.


(** C38: The lowered square root of a positive number is at least [1/256] and at
    least a [1024]th of it, so that it is far from the root of small and of large
    numbers. *)
Theorem lowered_sqrt_floor d : traced d -> (163 * zlen (nodes_ d) <= INT_MAX)%Z ->
  exists out f, canonicalize_trace_dag_for_codegen d = Ret out /\
    forall env i n, nodes_ d !! i = Some n -> n_op n = TraceOpKind.Sqrt ->
      let x := value env out (f (in_at n 0)) in
      0 < x -> / 256 <= value env out (f (Z.of_nat i)) /\ x / 1024 <= value env out (f (Z.of_nat i)).
Proof.
  intros Hd Hr. destruct (canonicalize_lowers d Hd Hr) as (out & f & E & _ & _ & Hc). exists out, f. split; [done|].
  intros env i n Hn Ho x Hx. specialize (Hc env i n Hn). pose proof (tr_arity _ Hd i n Hn) as Har.
  unfold is_input in Hc. rewrite Ho in Hc. destruct Hc as (pos & -> & _). unfold lop. rewrite Ho in *. cbn [op_arity] in Har.
  unfold in_at in x. destruct (n_inputs n) as [|j js]; [cbn in Har; lia|]. by apply low_sqrt_floor.
Qed.

(** ** An example

    [gelu(sqrt(a / b)) * 0.5] *)
Module LowEx.
Definition nd (id : Z) (op : TraceOpKind) (ins : list Z) (s : Z) (live : bool) : TraceNode :=
  mkNode id op ins [] s 0 nullptr Dev.CPU0 FP32 2 3 false (-1) live.
Definition graph : TraceDAG :=
  mkDAG [nd 0 TraceOpKind.Input [] 0 false; nd 1 TraceOpKind.Input [] 0 false; nd 2 TraceOpKind.Div [0; 1]%Z 0 false;
         nd 3 TraceOpKind.Sqrt [2]%Z 0 false; nd 4 TraceOpKind.GELU [3]%Z 0 false; nd 5 TraceOpKind.MulScalar [4]%Z 0x3F000000 true] ∅.

Lemma graph_traced : traced graph.
Proof.
  constructor; intros k n Hk;
    (do 6 (destruct k as [|k]; [injection Hk as <-; cbn; solve [done|lia|split; [done|]; repeat constructor; done]|])); done.
Qed.
End LowEx.

Lemma canonicalize_form_witness : exists out f, canonicalize_trace_dag_for_codegen LowEx.graph = Ret out /\ good true out /\ keeps LowEx.graph out f.
Proof. apply (canonicalize_form LowEx.graph LowEx.graph_traced). vm_compute. discriminate. Defined.


Lemma lowered_sqrt_floor_witness : exists out f, canonicalize_trace_dag_for_codegen LowEx.graph = Ret out /\
  forall env, 0 < value env out (f 2%Z) -> / 256 <= value env out (f 3%Z).
Proof.
  destruct (lowered_sqrt_floor LowEx.graph LowEx.graph_traced) as (out & f & E & H); [vm_compute; discriminate|].
  exists out, f. split; [exact E|]. intros env Hx. exact (proj1 (H env 3%nat _ eq_refl eq_refl Hx)).
Defined.
