(* ===== verification/DiskCache.v ===== *)
(** * The kernel cache on disk

    src/jit/kernel_disk_cache.cpp: entries of compiled kernels, each a file with
    a header and a checksum named for a hash of its key, and the serialised form
    of a SPIR-V kernel. The files are a map from paths to bytes; what the
    operating system answers a call ([write_os], [read_os]) is an argument of it.
    Bytes are those of a little-endian host. *)
From S2P Require Import Prelude.

Definition kBtkcMagic : Z := 0x434B5442.
Definition kBtkcVersion : Z := 1.
Definition kBrassAbiStamp : str := lit "brass_aot_v1_btkc1".

Record BtkcHeader : Type := mkHeader {
  magic : Z; version : Z; backend_kind : Z; reserved : Z; payload_size : Z; payload_fnv1a64 : Z
}.

Inductive BackendKind : Type := CpuNative | VulkanSpirv | CudaPtx | VulkanSpirvMeta.
Definition kind_value (k : BackendKind) : Z :=
  match k with CpuNative => 1 | VulkanSpirv => 2 | CudaPtx => 3 | VulkanSpirvMeta => 4 end.

(** ** Hashes and keys *)

Definition fnv_offset : Z := 14695981039346656037.
Definition fnv_prime : Z := 1099511628211.

Fixpoint fnv1a_64 (bytes : list byte) (h : Z) : Z :=
  match bytes with
  | [] => h
  | b :: r => fnv1a_64 r (u64 (Z.lxor h (bz b) * fnv_prime))
  end.

(** [mix] of one string into the two lanes. *)
Fixpoint mix_bytes (s : str) (h : Z * Z) : Z * Z :=
  match s with
  | [] => h
  | c :: r =>
      let h1 := u64 (Z.lxor h.1 (bz c) * fnv_prime) in
      let h2 := u64 (Z.lxor h.2 (Z.lxor (bz c) (Z.shiftr h1 32)) * 0x100000001B3) in
      mix_bytes r (h1, h2)
  end.
Definition mix (s : str) (h : Z * Z) : Z * Z :=
  let h := mix_bytes s h in
  (u64 (Z.lxor h.1 0xFF * fnv_prime), u64 (Z.lxor h.2 0xFF * 0x100000001B3)).
Definition fnv1a_128 (s1 s2 s3 : str) : Z * Z := mix s3 (mix s2 (mix s1 (fnv_offset, 0x6C62272E07BB0142))).

(** [std::hex << std::setfill('0') << std::setw(16)] of a 64-bit number *)
Definition hex_digit (d : Z) : byte := zb (if d <? 10 then 48 + d else 87 + d).
Fixpoint hex_pad (n : nat) (z : Z) : str :=
  match n with O => [] | S n => hex_pad n (z / 16) ++ [hex_digit (z mod 16)] end.

Definition compute_key (backend_tag signature : str) : str :=
  let '(h1, h2) := fnv1a_128 backend_tag signature kBrassAbiStamp in hex_pad 16 h1 ++ hex_pad 16 h2.

(** ** The environment and the cache *)

Record environ : Type := mkEnviron {
  e_disable : option str;  (* BRO_ML_CACHE_DISABLE *)
  e_dir : option str;      (* BRO_ML_CACHE_DIR *)
  e_xdg : option str;      (* XDG_CACHE_HOME *)
  e_home : option str;     (* HOME *)
  e_tmp : option str;      (* temp_directory_path *)
  e_pid : Z;
  e_tid : Z                (* the hash of the thread's id *)
}.

Record KernelDiskCache : Type := mkCache {
  files : gmap str (list byte);
  temp_seq : Z;
  override_dir_ : str;
  hits_ : Z; misses_ : Z; writes_ : Z; corruptions_ : Z;
  loaded_libs_ : list Z;
  fallback_engines_ : list Z
}.

Definition set_files (f : gmap str (list byte)) (c : KernelDiskCache) : KernelDiskCache :=
  mkCache f (temp_seq c) (override_dir_ c) (hits_ c) (misses_ c) (writes_ c) (corruptions_ c) (loaded_libs_ c) (fallback_engines_ c).
Definition set_seq (n : Z) (c : KernelDiskCache) : KernelDiskCache :=
  mkCache (files c) n (override_dir_ c) (hits_ c) (misses_ c) (writes_ c) (corruptions_ c) (loaded_libs_ c) (fallback_engines_ c).
(** [fetch_add] on the counters *)
Definition count (h m w x : Z) (c : KernelDiskCache) : KernelDiskCache :=
  mkCache (files c) (temp_seq c) (override_dir_ c) (u64 (hits_ c + h)) (u64 (misses_ c + m)) (u64 (writes_ c + w))
    (u64 (corruptions_ c + x)) (loaded_libs_ c) (fallback_engines_ c).

Definition is_enabled (e : environ) : bool :=
  match e_disable e with
  | Some d => negb (str_eqb d (lit "1") || str_eqb d (lit "true"))
  | None => true
  end.

(** [p / q] of a relative [q] *)
Definition path_join (p q : str) : str :=
  match last p with
  | None => q
  | Some b => if b =b x2f then p ++ q else p ++ [x2f] ++ q
  end.

Definition non_empty (s : option str) : option str := match s with Some [] => None | s => s end.

Definition cache_dir (e : environ) (c : KernelDiskCache) : str :=
  match override_dir_ c with
  | _ :: _ => override_dir_ c
  | [] =>
      match non_empty (e_dir e), non_empty (e_xdg e), non_empty (e_home e) with
      | Some d, _, _ => d
      | None, Some x, _ => path_join (path_join x (lit "brotensor")) (lit "kernels")
      | None, None, Some h => path_join (path_join (path_join h (lit ".cache")) (lit "brotensor")) (lit "kernels")
      | None, None, None => path_join (default (lit "/tmp") (non_empty (e_tmp e))) (lit "brotensor_kernel_cache")
      end
  end.

Definition set_cache_dir (dir : str) (c : KernelDiskCache) : KernelDiskCache :=
  mkCache (files c) (temp_seq c) dir (hits_ c) (misses_ c) (writes_ c) (corruptions_ c) (loaded_libs_ c) (fallback_engines_ c).
Definition clear_cache_dir_override (c : KernelDiskCache) : KernelDiskCache := set_cache_dir [] c.

Definition entry_path_for_key (e : environ) (c : KernelDiskCache) (key_hex : str) : str :=
  path_join (cache_dir e c) (key_hex ++ lit ".btkc").

(** ** Writing *)

(** What the operating system answers: whether the directory is there, the
    temporary file opens, the stream is good after the flush (and what the file
    holds otherwise), the rename and the removal succeed. *)
Record write_os : Type := mkWriteOs {
  wo_mkdir : bool; wo_open : bool; wo_good : bool; wo_partial : list byte; wo_rename : bool; wo_remove : bool
}.

(** The hexadecimal digits of a number, with no padding. *)
Fixpoint hex_digits (fuel : nat) (n : Z) (acc : str) : str :=
  match fuel with
  | O => acc
  | S f => let acc := hex_digit (n mod 16) :: acc in if n <? 16 then acc else hex_digits f (n / 16) acc
  end.
Definition to_hex (n : Z) : str := hex_digits 16 n [].

Definition next_temp_seq : st KernelDiskCache Z := fun c => (Ret (temp_seq c), set_seq (u64 (temp_seq c + 1)) c).

Definition tmp_suffix (e : environ) (seq : Z) : str :=
  lit ".tmp." ++ to_string (e_pid e) ++ lit "." ++ to_hex (e_tid e) ++ lit "." ++ to_string seq.
Definition unique_tmp_suffix (e : environ) : st KernelDiskCache str := seq ← next_temp_seq; mret (tmp_suffix e seq).

(** [std::filesystem::remove] *)
Definition remove_file (ok : bool) (path : str) (c : KernelDiskCache) : KernelDiskCache :=
  if ok then set_files (delete path (files c)) c else c.

Definition write_file_atomic (e : environ) (o : write_os) (target_path : str) (data : list byte) : st KernelDiskCache bool :=
  if negb (wo_mkdir o) then mret false
  else
    suffix ← unique_tmp_suffix e;
    let tmp_path := target_path ++ suffix in
    if negb (wo_open o) then mret false
    else
      _ ← st_mod (fun c => set_files (<[tmp_path := if wo_good o then data else wo_partial o]> (files c)) c);
      if negb (wo_good o) then _ ← st_mod (remove_file (wo_remove o) tmp_path); mret false
      else if negb (wo_rename o) then _ ← st_mod (remove_file (wo_remove o) tmp_path); mret false
      else _ ← st_mod (fun c => set_files (<[target_path := data]> (delete tmp_path (files c))) c); mret true.

(** The bytes of the header in memory. *)
Definition header_bytes (h : BtkcHeader) : list byte :=
  le_bytes 4 (magic h) ++ le_bytes 4 (version h) ++ le_bytes 4 (backend_kind h) ++ le_bytes 4 (reserved h) ++
  le_bytes 8 (payload_size h) ++ le_bytes 8 (payload_fnv1a64 h).

Definition entry_bytes (kind : BackendKind) (data : list byte) : list byte :=
  header_bytes (mkHeader kBtkcMagic kBtkcVersion (kind_value kind) 0 (u64 (zlen data)) (fnv1a_64 data fnv_offset)) ++ data.

Definition store_raw (e : environ) (o : write_os) (kind : BackendKind) (backend_tag signature : str) (data : list byte)
  : st KernelDiskCache bool :=
  if negb (is_enabled e) then mret false
  else
    path ← st_gets (fun c => entry_path_for_key e c (compute_key backend_tag signature));
    ok ← write_file_atomic e o path (entry_bytes kind data);
    if negb ok then mret false else _ ← st_mod (count 0 0 1 0); mret true.

(** ** Reading *)

(** What the operating system answers: whether looking for the file fails, it
    opens, the reads of the header and of the payload and a removal succeed. *)
Record read_os : Type := mkReadOs { ro_error : bool; ro_open : bool; ro_header : bool; ro_payload : bool; ro_remove : bool }.

Definition read_header (bs : list byte) : BtkcHeader :=
  let at_ off n := le_int (slice off n bs) in
  mkHeader (at_ 0 4) (at_ 4 4) (at_ 8 4) (at_ 12 4) (at_ 16 8) (at_ 24 8).

Definition miss : st KernelDiskCache (option (list byte)) := _ ← st_mod (count 0 1 0 0); mret None.
(** A file that is not an entry is removed. *)
Definition corrupt (r : read_os) (path : str) : st KernelDiskCache (option (list byte)) :=
  _ ← st_mod (remove_file (ro_remove r) path); _ ← st_mod (count 0 1 0 1); mret None.

Definition load_raw (e : environ) (r : read_os) (kind : BackendKind) (backend_tag signature : str)
  : st KernelDiskCache (option (list byte)) :=
  if negb (is_enabled e) then miss
  else
    path ← st_gets (fun c => entry_path_for_key e c (compute_key backend_tag signature));
    file ← st_gets (fun c => files c !! path);
    match file with
    | None => miss
    | Some content =>
        if ro_error r then miss
        else if negb (ro_open r) then miss
        else
          let total_size := zlen content in
          if total_size <? 32 then corrupt r path
          else if negb (ro_header r) then corrupt r path
          else
            let hdr := read_header content in
            if negb (magic hdr =? kBtkcMagic) || negb (version hdr =? kBtkcVersion) ||
               negb (backend_kind hdr =? kind_value kind) || negb (payload_size hdr =? u64 (total_size - 32)) then corrupt r path
            else
              let out_bytes := slice 32 (payload_size hdr) content in
              if (payload_size hdr >? 0) && negb (ro_payload r) then corrupt r path
              else if negb (fnv1a_64 out_bytes fnv_offset =? payload_fnv1a64 hdr) then corrupt r path
              else _ ← st_mod (count 1 0 0 0); mret (Some out_bytes)
    end.

(** An entry that was read, and is not what it should be: it is removed and the
    hit is taken back. *)
Definition reject {A} (e : environ) (r : read_os) (backend_tag signature : str) : st KernelDiskCache (option A) :=
  path ← st_gets (fun c => entry_path_for_key e c (compute_key backend_tag signature));
  _ ← st_mod (remove_file (ro_remove r) path); _ ← st_mod (count (-1) 1 0 1); mret None.

(** ** SPIR-V words and PTX text *)

Definition kSpirvMagic : Z := 0x07230203.

Definition word_bytes (words : list Z) : list byte := concat (map (le_bytes 4) words).
(** [memcpy] into a vector of words *)
Fixpoint words_of (bytes : list byte) : list Z :=
  match bytes with
  | a :: b :: c :: d :: r => le_int [a; b; c; d] :: words_of r
  | _ => []
  end.

Definition store_spirv (e : environ) (o : write_os) (signature : str) (words : list Z) : st KernelDiskCache bool :=
  match words with
  | [] => mret false
  | _ => store_raw e o VulkanSpirv (lit "spirv") signature (word_bytes words)
  end.

Definition load_spirv (e : environ) (r : read_os) (signature : str) : st KernelDiskCache (option (list Z)) :=
  loaded ← load_raw e r VulkanSpirv (lit "spirv") signature;
  match loaded with
  | None => mret None
  | Some bytes =>
      if negb (zlen bytes mod 4 =? 0) || (zlen bytes <? 20) then reject e r (lit "spirv") signature
      else
        let out_words := words_of bytes in
        match out_words with
        | w :: _ => if negb (w =? kSpirvMagic) then reject e r (lit "spirv") signature else mret (Some out_words)
        | [] => st_undef
        end
  end.

Fixpoint starts_with (needle s : str) : bool :=
  match needle, s with
  | [], _ => true
  | a :: needle, b :: s => (a =b b) && starts_with needle s
  | _ :: _, [] => false
  end.
(** [s.find(needle) != npos] *)
Fixpoint contains (needle s : str) : bool :=
  starts_with needle s || match s with [] => false | _ :: s => contains needle s end.

Definition store_ptx (e : environ) (o : write_os) (signature ptx : str) : st KernelDiskCache bool :=
  match ptx with
  | [] => mret false
  | _ => store_raw e o CudaPtx (lit "ptx") signature ptx
  end.

Definition load_ptx (e : environ) (r : read_os) (signature : str) : st KernelDiskCache (option str) :=
  loaded ← load_raw e r CudaPtx (lit "ptx") signature;
  match loaded with
  | None => mret None
  | Some out_ptx =>
      if negb (contains (lit ".version") out_ptx) && negb (contains (lit ".entry") out_ptx) then reject e r (lit "ptx") signature
      else mret (Some out_ptx)
  end.

(** ** Serialised SPIR-V kernels *)

(** The fields of the external library's kernel that the cache keeps; a type of
    a parameter is given by its kind. *)
Record KernelParam : Type := mkParam { p_kind : Z; p_offset : Z; p_size : Z }.
Record SpirvKernel : Type := mkSpirv {
  entry : str; push_constant_bytes : Z; shared_bytes : Z; local_size : Z * Z * Z; local_size_spec_constants : bool;
  params : list KernelParam; capabilities : list str; extensions : list str; words : list Z
}.

Definition write_u32 (v : Z) : list byte :=
  [zb (u8 (Z.land v 0xFF)); zb (u8 (Z.land (Z.shiftr v 8) 0xFF)); zb (u8 (Z.land (Z.shiftr v 16) 0xFF)); zb (u8 (Z.land (Z.shiftr v 24) 0xFF))].
Definition write_str (s : str) : list byte := write_u32 (u32 (zlen s)) ++ s.
Definition write_param (p : KernelParam) : list byte := write_u32 (p_kind p) ++ write_u32 (p_offset p) ++ write_u32 (p_size p).

Definition serialize (k : SpirvKernel) : list byte :=
  let '(x, y, z) := local_size k in
  write_str (entry k) ++ write_u32 (push_constant_bytes k) ++ write_u32 (shared_bytes k) ++
  write_u32 x ++ write_u32 y ++ write_u32 z ++ write_u32 (if local_size_spec_constants k then 1 else 0) ++
  write_u32 (u32 (zlen (params k))) ++ concat (map write_param (params k)) ++
  write_u32 (u32 (zlen (capabilities k))) ++ concat (map write_str (capabilities k)) ++
  write_u32 (u32 (zlen (extensions k))) ++ concat (map write_str (extensions k)) ++
  write_u32 (u32 (zlen (words k))) ++ concat (map write_u32 (words k)).

(** What is read, and what is left. *)
Definition reader (A : Type) : Type := list byte -> res (option (A * list byte)).

#[global] Instance reader_ret : MRet reader := fun A a cur => Ret (Some (a, cur)).
#[global] Instance reader_bind : MBind reader := fun A B f m cur =>
  match m cur with
  | Ret (Some (a, cur)) => f a cur
  | Ret None => Ret None
  | Throw e => Throw e
  | Undef => Undef
  end.

Definition read_u32 : reader Z := fun cur =>
  match cur with
  | a :: b :: c :: d :: r =>
      Ret (Some (Z.lor (Z.lor (Z.lor (bz a) (Z.shiftl (bz b) 8)) (Z.shiftl (bz c) 16)) (Z.shiftl (bz d) 24), r))
  | _ => Ret None
  end.
Definition read_bytes (len : Z) : reader str := fun cur =>
  if zlen cur <? len then Ret None else Ret (Some (slice 0 len cur, drop (Z.to_nat len) cur)).
Definition read_str : reader str := len ← read_u32; read_bytes len.
Definition read_fail {A} : reader A := fun _ => Ret None.

Fixpoint read_all {A} (m : reader A) (n : nat) : reader (list A) :=
  match n with O => mret [] | S n => a ← m; r ← read_all m n; mret (a :: r) end.

Definition bad_alloc : str := lit "std::bad_alloc".

Section Memory.
(** Whether a vector can be given that many elements. *)
Context (room : Z -> bool).

(** [v.resize(n)], then its elements. *)
Definition read_vector {A} (m : reader A) (n : Z) : reader (list A) := fun cur =>
  if room n then read_all m (Z.to_nat n) cur else Throw bad_alloc.

Definition read_param : reader KernelParam := k ← read_u32; o ← read_u32; s ← read_u32; mret (mkParam k o s).

Definition read_kernel : reader SpirvKernel :=
  name ← read_str; push ← read_u32; shared ← read_u32;
  x ← read_u32; y ← read_u32; z ← read_u32; spec_flag ← read_u32; num_params ← read_u32;
  ps ← read_vector read_param num_params;
  num_caps ← read_u32; caps ← read_vector read_str num_caps;
  num_exts ← read_u32; exts ← read_vector read_str num_exts;
  num_words ← read_u32;
  if num_words <? 5 then read_fail
  else ws ← read_vector read_u32 num_words;
       mret (mkSpirv name push shared (x, y, z) (negb (spec_flag =? 0)) ps caps exts ws).

(** [!ok || cur != end || k.words.empty() || k.words[0] != ...] *)
Definition complete (parsed : option (SpirvKernel * list byte)) : option SpirvKernel :=
  match parsed with
  | Some (k, []) => match words k with w :: _ => if w =? kSpirvMagic then Some k else None | [] => None end
  | _ => None
  end.

Definition store_spirv_kernel (e : environ) (o : write_os) (signature : str) (k : SpirvKernel) : st KernelDiskCache bool :=
  match words k with
  | [] => mret false
  | _ => store_raw e o VulkanSpirvMeta (lit "spirv_meta") signature (serialize k)
  end.

Definition load_spirv_kernel (e : environ) (r : read_os) (signature : str) : st KernelDiskCache (option SpirvKernel) :=
  loaded ← load_raw e r VulkanSpirvMeta (lit "spirv_meta") signature;
  match loaded with
  | None => mret None
  | Some buf =>
      parsed ← st_lift (read_kernel buf);
      match complete parsed with
      | None => reject e r (lit "spirv_meta") signature
      | Some k => mret (Some k)
      end
  end.
End Memory.

(** ** Native kernels

    What the external library does is a parameter: the library a shared object's
    image is opened as, if it can be, and the address of a symbol in it; the image
    the module is linked to, none if it has external symbols and empty if linking
    fails; the entry of the compilation in memory and its engine. *)
Section Native.
Context (backend_tag extension : str) (open_lib : list byte -> option Z) (get_symbol : Z -> str -> option Z)
  (link : option (list byte)) (jit : option (Z * Z)).

Definition push_lib (lib : Z) (c : KernelDiskCache) : KernelDiskCache :=
  mkCache (files c) (temp_seq c) (override_dir_ c) (hits_ c) (misses_ c) (writes_ c) (corruptions_ c) (loaded_libs_ c ++ [lib]) (fallback_engines_ c).
Definition push_engine (en : Z) (c : KernelDiskCache) : KernelDiskCache :=
  mkCache (files c) (temp_seq c) (override_dir_ c) (hits_ c) (misses_ c) (writes_ c) (corruptions_ c) (loaded_libs_ c) (fallback_engines_ c ++ [en]).

Definition load_shared_lib_bytes (e : environ) (o : write_os) (key entry_name : str) (image_bytes : list byte) : st KernelDiskCache (option Z) :=
  match image_bytes with
  | [] => mret None
  | _ =>
      rt_dir ← st_gets (fun c => path_join (cache_dir e c) (lit ".rt"));
      seq ← next_temp_seq;
      let so_path := path_join rt_dir (key ++ lit "_" ++ to_string (e_pid e) ++ lit "_" ++ to_string seq ++ extension) in
      ok ← write_file_atomic e o so_path image_bytes;
      if negb ok then mret None
      else
        match open_lib image_bytes with
        | None => _ ← st_mod (remove_file (wo_remove o) so_path); mret None
        | Some lib =>
            match get_symbol lib entry_name with
            | None => _ ← st_mod (remove_file (wo_remove o) so_path); mret None
            | Some sym => _ ← st_mod (remove_file (wo_remove o) so_path); _ ← st_mod (push_lib lib); mret (Some sym)
            end
        end
  end.

Definition compile_or_load_cpu_kernel (e : environ) (r : read_os) (o : write_os) (signature entry_name : str)
  : st KernelDiskCache (option Z) :=
  let key := compute_key backend_tag signature in
  loaded ← load_raw e r CpuNative backend_tag signature;
  cached ← (match loaded with
            | None => mret None
            | Some bytes =>
                sym ← load_shared_lib_bytes e o key entry_name bytes;
                match sym with Some s => mret (Some s) | None => reject e r backend_tag signature end
            end);
  match cached with
  | Some fn_ptr => mret (Some fn_ptr)
  | None =>
      fresh ← (match link with
               | Some (b :: image) =>
                   _ ← store_raw e o CpuNative backend_tag signature (b :: image);
                   load_shared_lib_bytes e o key entry_name (b :: image)
               | _ => mret None
               end);
      match fresh with
      | Some fn_ptr => mret (Some fn_ptr)
      | None =>
          match jit with
          | None => mret None
          | Some (engine, fn_ptr) => _ ← st_mod (push_engine engine); mret (Some fn_ptr)
          end
      end
  end.
End Native.

(** ** Statistics *)

Definition stats (c : KernelDiskCache) : Z * Z * Z * Z := (hits_ c, misses_ c, writes_ c, corruptions_ c).
Definition reset_stats (c : KernelDiskCache) : KernelDiskCache :=
  mkCache (files c) (temp_seq c) (override_dir_ c) 0 0 0 0 (loaded_libs_ c) (fallback_engines_ c).
Definition clear_loaded_libraries (c : KernelDiskCache) : KernelDiskCache :=
  mkCache (files c) (temp_seq c) (override_dir_ c) (hits_ c) (misses_ c) (writes_ c) (corruptions_ c) [] [].
