(* ===== verification/DiskCacheSpec.v ===== *)
(** * The kernel cache: what is stored is what is loaded

    The properties of src/jit/kernel_disk_cache.cpp on one thread: checksums,
    what an operation leaves alone, serialised SPIR-V kernels parsed back; what
    is stored through any of the cache's calls is what is loaded, through any
    calls on other keys; no changed byte reaches a caller; a native kernel is
    compiled once. *)
From S2P Require Import Prelude DiskCache.

(** ** The checksum *)

(** The inverse of the prime modulo [2^64]. *)
Definition fnv_inverse : Z := 0xCE965057AFF6957B.

Lemma fnv_inverse_ok : u64 (fnv_prime * fnv_inverse) = 1.
Proof. vm_compute. reflexivity. Qed.

Lemma fnv_step_inj h h' b b' : 0 <= h <= UINT64_MAX -> 0 <= h' <= UINT64_MAX ->
  u64 (Z.lxor h (bz b) * fnv_prime) = u64 (Z.lxor h' (bz b') * fnv_prime) -> Z.lxor h (bz b) = Z.lxor h' (bz b').
Proof.
  intros Hh Hh' E. assert (Hx : forall h b, 0 <= h <= UINT64_MAX -> 0 <= Z.lxor h (bz b) <= UINT64_MAX).
  { clear. intros h b Hh. pose proof (bz_range b). unfold UINT64_MAX in *. assert (0 <= Z.lxor h (bz b)) by (apply Z.lxor_nonneg; lia).
    split; [done|]. destruct (Z.eq_dec (Z.lxor h (bz b)) 0) as [->|Hne]; [lia|].
    assert (Z.lxor h (bz b) < 2 ^ 64); [|lia]. apply Z.log2_lt_pow2; [lia|].
    eapply Z.le_lt_trans; [apply Z.log2_lxor; lia|]. apply Z.max_lub_lt.
    - destruct (Z.eq_dec h 0) as [->|]; [done|]. apply Z.log2_lt_pow2; lia.
    - destruct (Z.eq_dec (bz b) 0) as [->|]; [done|]. apply Z.log2_lt_pow2; lia. }
  assert (Hm : forall x, 0 <= x <= UINT64_MAX -> u64 (u64 (x * fnv_prime) * fnv_inverse) = x).
  { clear. intros x Hx. unfold u64 in *. rewrite Zmult_mod_idemp_l, <- Z.mul_assoc, <- Zmult_mod_idemp_r.
    pose proof fnv_inverse_ok as E. unfold u64 in E. rewrite E, Z.mul_1_r. apply (u64_id x Hx). }
  rewrite <- (Hm _ (Hx h b Hh)), <- (Hm _ (Hx h' b' Hh')). by rewrite E.
Qed.

Lemma fnv_range bs h : 0 <= h <= UINT64_MAX -> 0 <= fnv1a_64 bs h <= UINT64_MAX.
Proof. revert h. induction bs as [|b bs IH]; intros h Hh; [done|]. apply IH, u64_range. Qed.

(** Different states stay different. *)
Lemma fnv_state_inj bs : forall h h', 0 <= h <= UINT64_MAX -> 0 <= h' <= UINT64_MAX -> fnv1a_64 bs h = fnv1a_64 bs h' -> h = h'.
Proof.
  induction bs as [|b bs IH]; intros h h' Hh Hh' E; [done|]. cbn in E. apply IH in E; [|apply u64_range..].
  apply fnv_step_inj in E; [|done..]. apply (f_equal (fun x => Z.lxor x (bz b))) in E.
  by rewrite !Z.lxor_assoc, !Z.lxor_nilpotent, !Z.lxor_0_r in E.
Qed.

Lemma fnv_app bs bs' h : fnv1a_64 (bs ++ bs') h = fnv1a_64 bs' (fnv1a_64 bs h).
Proof. revert h. induction bs as [|b bs IH]; intros h; [done|]. apply IH. Qed.

(** One changed byte changes the checksum. *)
Lemma fnv_one_byte bs i b b' h : 0 <= h <= UINT64_MAX -> bs !! i = Some b' -> fnv1a_64 (<[i:=b]> bs) h = fnv1a_64 bs h -> b = b'.
Proof.
  intros Hh Hi E. pose proof (lookup_lt_Some _ _ _ Hi) as Hlt.
  rewrite insert_take_drop in E by done. rewrite <- (take_drop_middle bs i b' Hi) in E at 3. rewrite !fnv_app in E. cbn [fnv1a_64] in E.
  pose proof (fnv_range (take i bs) h Hh) as Hr. apply fnv_state_inj in E; [|apply u64_range..].
  apply fnv_step_inj in E; [|done..]. apply (f_equal (Z.lxor (fnv1a_64 (take i bs) h))) in E.
  rewrite <- !Z.lxor_assoc, !Z.lxor_nilpotent, !Z.lxor_0_l in E. by apply bz_inj.
Qed.

(** ** Entries *)

Lemma length_header h : length (header_bytes h) = 32%nat.
Proof. unfold header_bytes. by rewrite !length_app, !length_le_bytes. Qed.

Lemma zlen_entry kind data : zlen (entry_bytes kind data) = 32 + zlen data.
Proof. unfold entry_bytes. rewrite zlen_app. unfold zlen at 1. by rewrite length_header. Qed.

Record header_ok (h : BtkcHeader) : Prop := mkHeaderOk {
  ho_magic : 0 <= magic h < 2 ^ 32; ho_version : 0 <= version h < 2 ^ 32; ho_kind : 0 <= backend_kind h < 2 ^ 32;
  ho_reserved : 0 <= reserved h < 2 ^ 32; ho_size : 0 <= payload_size h <= UINT64_MAX; ho_sum : 0 <= payload_fnv1a64 h <= UINT64_MAX
}.

Lemma read_header_bytes h rest : header_ok h -> read_header (header_bytes h ++ rest) = h.
Proof.
  intros [H1 H2 H3 H4 H5 H6]. unfold UINT64_MAX in *. unfold read_header, header_bytes. rewrite <- !app_assoc.
  change (slice 0 4 _) with (le_bytes 4 (magic h)). change (slice 4 4 _) with (le_bytes 4 (version h)).
  change (slice 8 4 _) with (le_bytes 4 (backend_kind h)). change (slice 12 4 _) with (le_bytes 4 (reserved h)).
  change (slice 16 8 _) with (le_bytes 8 (payload_size h)). change (slice 24 8 _) with (le_bytes 8 (payload_fnv1a64 h)).
  rewrite !le_int_bytes by (cbn; lia). by destruct h.
Qed.

Definition entry_header (kind : BackendKind) (data : list byte) : BtkcHeader :=
  mkHeader kBtkcMagic kBtkcVersion (kind_value kind) 0 (u64 (zlen data)) (fnv1a_64 data fnv_offset).

Lemma entry_header_ok kind data : header_ok (entry_header kind data).
Proof.
  constructor; cbn; try (unfold kBtkcMagic, kBtkcVersion; lia); try apply u64_range; [by destruct kind|].
  apply fnv_range. by unfold fnv_offset, UINT64_MAX.
Qed.

(** What a file's content is read as. *)
Definition verify (kind : BackendKind) (content : list byte) : option (list byte) :=
  let hdr := read_header content in
  let out := slice 32 (payload_size hdr) content in
  if zlen content <? 32 then None
  else if negb (magic hdr =? kBtkcMagic) || negb (version hdr =? kBtkcVersion) || negb (backend_kind hdr =? kind_value kind) ||
          negb (payload_size hdr =? u64 (zlen content - 32)) then None
  else if fnv1a_64 out fnv_offset =? payload_fnv1a64 hdr then Some out else None.

Lemma verify_some kind content out : verify kind content = Some out ->
  32 <= zlen content /\ payload_size (read_header content) = u64 (zlen content - 32) /\
  out = slice 32 (u64 (zlen content - 32)) content /\ fnv1a_64 out fnv_offset = payload_fnv1a64 (read_header content).
Proof.
  unfold verify. destruct (Z.ltb_spec (zlen content) 32); [done|]. destruct (_ || _ || _ || _)%bool eqn:E; [done|].
  apply orb_false_elim in E as [_ E]. apply negb_false_iff, Z.eqb_eq in E.
  destruct (Z.eqb_spec (fnv1a_64 (slice 32 (payload_size (read_header content)) content) fnv_offset) (payload_fnv1a64 (read_header content))) as [Es|]; [|done].
  intros [= <-]. rewrite <- E. split_and!; [lia|done|done|done].
Qed.

Definition fits (data : list byte) : Prop := 32 + zlen data <= UINT64_MAX.

Lemma verify_entry kind data : fits data -> verify kind (entry_bytes kind data) = Some data.
Proof.
  intros Hf. pose proof (zlen_nonneg data). unfold fits in Hf. unfold verify, entry_bytes. fold (entry_header kind data).
  rewrite read_header_bytes by apply entry_header_ok. change (header_bytes (entry_header kind data) ++ data) with (entry_bytes kind data).
  rewrite zlen_entry. destruct (Z.ltb_spec (32 + zlen data) 32); [lia|]. cbn [magic version backend_kind payload_size payload_fnv1a64 entry_header].
  replace (32 + zlen data - 32) with (zlen data) by lia. rewrite !Z.eqb_refl. cbn [negb orb]. rewrite u64_id by lia.
  assert (E : slice 32 (zlen data) (entry_bytes kind data) = data).
  { unfold entry_bytes. rewrite slice_app_r by (unfold zlen; rewrite length_header; lia).
    unfold zlen at 1. rewrite length_header. apply slice_all. }
  by rewrite E, Z.eqb_refl.
Qed.

(** No one changed byte makes an entry that holds something else. *)
Lemma verify_one_byte kind data i b out : fits data ->
  verify kind (<[i:=b]> (entry_bytes kind data)) = Some out -> out = data.
Proof.
  intros Hf Hv. pose proof (zlen_nonneg data). unfold fits in Hf. apply verify_some in Hv as (_ & _ & Eo & Es).
  assert (Hz : zlen (<[i:=b]> (entry_bytes kind data)) - 32 = zlen data).
  { pose proof (zlen_entry kind data) as E. unfold zlen in *. rewrite length_insert. lia. }
  rewrite Hz, u64_id in Eo by lia. destruct (decide (i < 32)%nat) as [Hi|Hi].
  - rewrite Eo. unfold entry_bytes. rewrite insert_app_l by (rewrite length_header; lia).
    rewrite slice_app_r by (unfold zlen; rewrite length_insert, length_header; lia).
    unfold zlen at 1. rewrite length_insert, length_header. apply slice_all.
  - assert (Ee : <[i:=b]> (entry_bytes kind data) = header_bytes (entry_header kind data) ++ <[(i - 32)%nat:=b]> data).
    { unfold entry_bytes. by rewrite insert_app_r_alt, length_header by (rewrite length_header; lia). }
    rewrite Ee in Eo, Es. rewrite read_header_bytes in Es by apply entry_header_ok. cbn [payload_fnv1a64 entry_header] in Es.
    assert (E1 : out = <[(i - 32)%nat:=b]> data).
    { rewrite Eo, slice_app_r by (unfold zlen; rewrite length_header; lia). unfold zlen at 1. rewrite length_header.
      transitivity (slice 0 (zlen (<[(i - 32)%nat:=b]> data)) (<[(i - 32)%nat:=b]> data)); [|apply slice_all].
      f_equal. unfold zlen. by rewrite length_insert. }
    rewrite E1 in Es |- *. destruct (data !! (i - 32)%nat) as [b'|] eqn:El; [|by apply list_insert_ge, lookup_ge_None].
    apply fnv_one_byte with (b' := b') in Es as ->; [by apply list_insert_id|by unfold fnv_offset, UINT64_MAX|done].
Qed.

(** ** Reading an entry *)

(** No call of the operating system fails. *)
Definition reads_fine (r : read_os) : Prop := ro_error r = false /\ ro_open r = true /\ ro_header r = true /\ ro_payload r = true.
Definition writes_fine (o : write_os) : Prop := wo_mkdir o = true /\ wo_open o = true /\ wo_good o = true /\ wo_rename o = true.

Definition entry_path (e : environ) (c : KernelDiskCache) (tag sig : str) : str := entry_path_for_key e c (compute_key tag sig).

Lemma load_raw_verify e r kind tag sig c : is_enabled e = true -> reads_fine r ->
  load_raw e r kind tag sig c =
    match files c !! entry_path e c tag sig with
    | None => (Ret None, count 0 1 0 0 c)
    | Some content =>
        match verify kind content with
        | None => (Ret None, count 0 1 0 1 (remove_file (ro_remove r) (entry_path e c tag sig) c))
        | Some out => (Ret (Some out), count 1 0 0 0 c)
        end
    end.
Proof.
  intros He (R1 & R2 & R3 & R4). unfold load_raw, verify, entry_path. rewrite He. unfold mbind, st_bind, st_gets. cbn [negb].
  destruct (files c !! _) as [content|]; [|done]. rewrite R1, R2, R3, R4. cbn [negb]. rewrite andb_false_r.
  destruct (zlen content <? 32); [done|]. destruct (_ || _)%bool; [done|]. by destruct (fnv1a_64 _ _ =? _).
Qed.

(** A load of either outcome leaves the files as they are, or without the entry. *)
Lemma load_raw_files e r kind tag sig c : exists b, files (load_raw e r kind tag sig c).2 =
  if (b : bool) then delete (entry_path e c tag sig) (files c) else files c.
Proof.
  assert (Hc : forall path, exists b : bool, files (corrupt r path c).2 = if b then delete path (files c) else files c).
  { intros path. exists (ro_remove r). unfold corrupt, remove_file, mbind, st_bind, st_mod, count. by destruct (ro_remove r). }
  unfold load_raw, entry_path. destruct (is_enabled e); [|by exists false]. unfold mbind, st_bind, st_gets. cbn [negb].
  destruct (files c !! _) as [content|]; [|by exists false]. destruct (ro_error r); [by exists false|].
  destruct (ro_open r); [|by exists false]. cbn [negb]. 
  repeat match goal with |- context [if ?b then corrupt _ _ else _] => destruct b; [apply Hc|] end. by exists false.
Qed.

(** ** Paths *)

Lemma hex_pad_length n z : length (hex_pad n z) = n.
Proof. revert z. induction n as [|n IH]; intros z; [done|]. cbn. rewrite length_app, IH. cbn. lia. Qed.

Lemma path_join_inj p q q' : path_join p q = path_join p q' -> q = q'.
Proof. unfold path_join. destruct (last p); [|done]. destruct (_ =b _); intros H; simplify_list_eq; done. Qed.

Lemma path_join_suffix p q s : path_join p (q ++ s) = path_join p q ++ s.
Proof. unfold path_join. destruct (last p); [|done]. destruct (_ =b _); by rewrite <- ?app_assoc. Qed.

(** Two entries of one directory are two files. *)
Lemma entry_path_inj e c tag sig tag' sig' : entry_path e c tag sig = entry_path e c tag' sig' -> compute_key tag sig = compute_key tag' sig'.
Proof. intros H%path_join_inj%app_inv_tail. done. Qed.

Lemma digits_last fuel n acc x : last (dec_digits fuel n (x :: acc)) = last (x :: acc).
Proof.
  revert n x acc. induction fuel as [|f IH]; intros n x acc; [done|]. cbn [dec_digits]. destruct (n <? 10); [done|].
  rewrite IH. done.
Qed.

(** A temporary file ends with a digit, so it is no entry. *)
Lemma tmp_last e seq : 0 <= seq -> exists d, last (tmp_suffix e seq) = Some (digit d) /\ 0 <= d < 10.
Proof.
  intros Hs. unfold tmp_suffix. rewrite !last_app. assert (H : exists d, last (to_string seq) = Some (digit d) /\ 0 <= d < 10).
  { unfold to_string, to_dec. destruct (Z.ltb_spec seq 0); [lia|]. exists (seq mod 10). split; [|apply Z.mod_pos_bound; lia].
    cbn [dec_digits]. destruct (Z.ltb_spec seq 10); [by rewrite Z.mod_small by lia|]. by rewrite digits_last. }
  destruct H as (d & -> & Hd). by exists d.
Qed.

Lemma tmp_not_entry p q e seq : 0 <= seq -> p ++ tmp_suffix e seq <> q ++ lit ".btkc".
Proof.
  intros Hs H. apply (f_equal last) in H. destruct (tmp_last e seq Hs) as (d & Hd & Hr). rewrite !last_app, Hd in H.
  cbn in H. injection H as H. apply (f_equal bz) in H. unfold digit in H. rewrite bz_zb in H by lia. cbn in H. lia.
Qed.

(** ** What an operation leaves alone *)

Section Leaves.
Context (e : environ) (key : str).

Lemma entry_path_dir c c' k : override_dir_ c' = override_dir_ c -> entry_path_for_key e c' k = entry_path_for_key e c k.
Proof. intros H. unfold entry_path_for_key, cache_dir. by rewrite H. Qed.

(** In the state [c], [m] leaves the directory and the entry of [key] alone. *)
Definition leaves_at (c : KernelDiskCache) {A} (m : st KernelDiskCache A) : Prop :=
  let c' := (m c).2 in
  0 <= temp_seq c' /\ override_dir_ c' = override_dir_ c /\
  files c' !! entry_path_for_key e c key = files c !! entry_path_for_key e c key.
Definition leaves {A} (m : st KernelDiskCache A) : Prop := forall c, 0 <= temp_seq c -> leaves_at c m.

Lemma leaves_at_bind c {A B} (m : st KernelDiskCache A) (f : A -> st KernelDiskCache B) : leaves_at c m ->
  (forall a c1, 0 <= temp_seq c1 -> override_dir_ c1 = override_dir_ c -> leaves_at c1 (f a)) -> leaves_at c (m ≫= f).
Proof.
  intros (H1 & H2 & H3) Hf. unfold leaves_at, mbind, st_bind. destruct (m c) as [[a|x|] c1]; cbn [snd] in *; [|by split_and!..].
  destruct (Hf a c1 H1 H2) as (K1 & K2 & K3). split_and!; [done|congruence|].
  rewrite !(entry_path_dir c c1 key H2) in K3. congruence.
Qed.

Lemma leaves_bind {A B} (m : st KernelDiskCache A) (f : A -> st KernelDiskCache B) : leaves m -> (forall a, leaves (f a)) -> leaves (m ≫= f).
Proof. intros Hm Hf c Hc. apply leaves_at_bind; [by apply Hm|]. intros a c1 H1 _. by apply Hf. Qed.

(** What does not touch files. *)
Lemma leaves_files {A} (m : st KernelDiskCache A) :
  (forall c, files (m c).2 = files c /\ override_dir_ (m c).2 = override_dir_ c /\ (0 <= temp_seq c -> 0 <= temp_seq (m c).2)) -> leaves m.
Proof. intros H c Hc. destruct (H c) as (H1 & H2 & H3). unfold leaves_at. split_and!; [auto|done|by rewrite H1]. Qed.

Lemma leaves_ret {A} (a : A) : leaves (mret a).
Proof. by apply leaves_files. Qed.
Lemma leaves_undef {A} : leaves (st_undef : st _ A).
Proof. by apply leaves_files. Qed.
Lemma leaves_lift {A} (r : res A) : leaves (st_lift r).
Proof. by apply leaves_files. Qed.
Lemma leaves_count h m w x : leaves (st_mod (count h m w x)).
Proof. by apply leaves_files. Qed.
Lemma leaves_lib l : leaves (st_mod (push_lib l)).
Proof. by apply leaves_files. Qed.
Lemma leaves_engine l : leaves (st_mod (push_engine l)).
Proof. by apply leaves_files. Qed.
Lemma leaves_seq : leaves next_temp_seq.
Proof. apply leaves_files. intros c. split_and!; [done|done|]. intros _. cbn. apply u64_range. Qed.

(** Writing and removing other paths. *)
Lemma leaves_write c e' o target data : 0 <= temp_seq c -> target <> entry_path_for_key e c key ->
  leaves_at c (write_file_atomic e' o target data).
Proof.
  intros Hc Ht. unfold leaves_at, write_file_atomic. destruct (wo_mkdir o); [|by split_and!]. cbn [negb].
  unfold unique_tmp_suffix, next_temp_seq, mbind, st_bind. cbn [mret st_ret]. set (tmp := target ++ tmp_suffix e' (temp_seq c)).
  assert (Hn : tmp <> entry_path_for_key e c key).
  { unfold tmp, entry_path_for_key. rewrite path_join_suffix. by apply tmp_not_entry. }
  destruct (wo_open o); [|cbn; by split_and!; [apply u64_range|..]]. cbn [negb]. unfold st_mod, remove_file.
  destruct (wo_good o), (wo_rename o), (wo_remove o); cbn; (split_and!; [apply u64_range|done|]);
    by rewrite ?lookup_delete_ne, ?lookup_insert_ne, ?lookup_delete_ne, ?lookup_insert_ne by done.
Qed.

Lemma leaves_remove c ok path : 0 <= temp_seq c -> path <> entry_path_for_key e c key -> leaves_at c (st_mod (remove_file ok path)).
Proof.
  intros Hc Ht. unfold leaves_at, st_mod, remove_file. destruct ok; cbn; split_and!; [done..| |done|done|done]. by rewrite lookup_delete_ne.
Qed.
End Leaves.

#[export] Hint Resolve leaves_ret leaves_undef leaves_lift leaves_count leaves_lib leaves_engine leaves_seq : core.

Section OtherKeys.
Context (e e' : environ) (Hdirs : forall c, cache_dir e' c = cache_dir e c) (key : str).

Abbreviation leaves := (leaves e key).
Abbreviation leaves_at := (leaves_at e key).

Lemma other_path c k : k <> key -> entry_path_for_key e' c k <> entry_path_for_key e c key.
Proof. unfold entry_path_for_key. rewrite Hdirs. intros Hk H%path_join_inj%app_inv_tail. done. Qed.

(** A path read off the state before what uses it. *)
Lemma leaves_gets {A} (f : KernelDiskCache -> str) (k : str -> st KernelDiskCache A) :
  (forall c, 0 <= temp_seq c -> leaves_at c (k (f c))) -> leaves (st_gets f ≫= k).
Proof. intros H c Hc. exact (H c Hc). Qed.

Lemma leaves_store o kind tag sig data : compute_key tag sig <> key -> leaves (store_raw e' o kind tag sig data).
Proof.
  intros Hk. unfold store_raw. destruct (is_enabled e'); [|by apply leaves_ret]. cbn [negb].
  apply leaves_gets. intros c Hc. apply leaves_at_bind; [apply leaves_write; [done|by apply other_path]|].
  intros ok c1 Hc1 _. destruct ok; cbn [negb]; [apply leaves_bind; [apply leaves_count|intros; apply leaves_ret|done]|by apply leaves_ret].
Qed.

Lemma leaves_load r kind tag sig : compute_key tag sig <> key -> leaves (load_raw e' r kind tag sig).
Proof.
  intros Hk c Hc. destruct (load_raw_files e' r kind tag sig c) as (b & Hf). unfold DiskCacheSpec.leaves_at. rewrite Hf.
  assert (Hrest : 0 <= temp_seq (load_raw e' r kind tag sig c).2 /\ override_dir_ (load_raw e' r kind tag sig c).2 = override_dir_ c).
  { unfold load_raw, miss, corrupt, remove_file, mbind, st_bind, st_gets, st_mod. 
    repeat match goal with |- context [if ?b then _ else _] => destruct b | |- context [match ?x with Some _ => _ | None => _ end] => destruct x end; done. }
  destruct Hrest as [H1 H2]. split_and!; [done|done|]. destruct b; [|done]. by rewrite lookup_delete_ne by (by apply other_path).
Qed.

Lemma leaves_reject {A} r tag sig : compute_key tag sig <> key -> leaves (reject e' r tag sig : st _ (option A)).
Proof.
  intros Hk. unfold reject. apply leaves_gets. intros c Hc. apply leaves_at_bind; [apply leaves_remove; [done|by apply other_path]|].
  intros _ c1 Hc1 _. apply leaves_bind; [apply leaves_count|intros; apply leaves_ret|done].
Qed.

(** The directory of loaded objects is apart from the entries. *)
Lemma rt_not_entry c f : path_join (path_join (cache_dir e' c) (lit ".rt")) f <> entry_path_for_key e c key \/ x2e ∈ take 1 key.
Proof.
  unfold entry_path_for_key. rewrite <- Hdirs. set (p := cache_dir e' c).
  assert (E : path_join (path_join p (lit ".rt")) f = path_join p (lit ".rt/" ++ f)).
  { unfold path_join at 1. assert (last (path_join p (lit ".rt")) = Some x74) as ->.
    { unfold path_join. destruct (last p); [|done]. destruct (_ =b _); by rewrite ?last_app. }
    change (x74 =b x2f) with false. cbv iota. change (lit ".rt/" ++ f) with (lit ".rt" ++ ([x2f] ++ f)). by rewrite path_join_suffix. }
  rewrite E. destruct key as [|b k]; [left; intros H%path_join_inj; done|].
  destruct (decide (b = x2e)) as [->|Hb]; [right; by left|]. left. intros H%path_join_inj. by injection H.
Qed.

(** Loading an image touches no entry at all. *)
Lemma leaves_shared_lib ext open_lib get o key' entry image : x2e ∉ key ->
  leaves (load_shared_lib_bytes ext open_lib get e' o key' entry image).
Proof.
  intros Hdot. destruct image as [|b image]; [apply leaves_ret|]. unfold load_shared_lib_bytes. apply leaves_gets. intros c Hc.
  apply leaves_at_bind; [by apply leaves_seq|]. intros seq c1 Hc1 Hd.
  set (f := key' ++ _).
  assert (Hrt : path_join (path_join (cache_dir e' c) (lit ".rt")) f <> entry_path_for_key e c1 key).
  { rewrite (entry_path_dir e c c1 key Hd). destruct (rt_not_entry c f) as [H|H]; [done|].
    exfalso. apply Hdot. rewrite <- (take_drop 1 key). apply elem_of_app. by left. }
  apply leaves_at_bind; [by apply leaves_write|]. intros ok c2 Hc2 Hd2. destruct ok; cbn [negb]; [|by apply leaves_ret].
  assert (Hrm : forall ok, leaves_at c2 (st_mod (remove_file ok (path_join (path_join (cache_dir e' c) (lit ".rt")) f)))).
  { intros ok. apply leaves_remove; [done|by rewrite (entry_path_dir e c1 c2 key Hd2)]. }
  destruct (open_lib (b :: image)) as [lib|]; [destruct (get lib entry) as [sym|]|];
    (apply leaves_at_bind; [apply Hrm|intros _ c3 Hc3 _]); [|by apply leaves_ret..].
  apply leaves_bind; [apply leaves_lib|intros; apply leaves_ret|done].
Qed.

Lemma leaves_native tag ext open_lib get link jit r o sig entry : compute_key tag sig <> key -> x2e ∉ key ->
  leaves (compile_or_load_cpu_kernel tag ext open_lib get link jit e' r o sig entry).
Proof.
  intros Hk Hdot.
  unfold compile_or_load_cpu_kernel. apply leaves_bind; [by apply leaves_load|]. intros loaded.
  apply leaves_bind.
  { destruct loaded; [|apply leaves_ret]. apply leaves_bind; [by apply leaves_shared_lib|]. intros sym. destruct sym; [apply leaves_ret|by apply leaves_reject]. }
  intros cached. destruct cached; [apply leaves_ret|]. apply leaves_bind.
  { destruct link as [[|b image]|]; [apply leaves_ret| |apply leaves_ret]. apply leaves_bind; [by apply leaves_store|]. intros _. by apply leaves_shared_lib. }
  intros fresh. destruct fresh; [apply leaves_ret|]. destruct jit as [[en fn]|]; [|apply leaves_ret].
  apply leaves_bind; [apply leaves_engine|intros; apply leaves_ret].
Qed.
End OtherKeys.

(** ** The operations *)

Lemma hex_no_dot n z : x2e ∉ hex_pad n z.
Proof.
  revert z. induction n as [|n IH]; intros z; [apply not_elem_of_nil|]. cbn [hex_pad]. rewrite elem_of_app, list_elem_of_singleton.
  intros [H|H]; [by eapply IH|]. apply (f_equal bz) in H. unfold hex_digit in H. pose proof (Z.mod_pos_bound z 16 ltac:(lia)).
  destruct (Z.ltb_spec (z mod 16) 10); rewrite bz_zb in H by lia; cbn in H; lia.
Qed.

Lemma key_no_dot tag sig : x2e ∉ compute_key tag sig.
Proof. unfold compute_key. destruct (fnv1a_128 _ _ _). rewrite elem_of_app. intros [H|H]; by eapply hex_no_dot. Qed.

(** A call of the cache, by a thread of some process with the same directories. *)
Inductive cache_op : Type :=
| OStore (o : write_os) (kind : BackendKind) (tag sig : str) (data : list byte)
| OLoad (r : read_os) (kind : BackendKind) (tag sig : str)
| OStoreSpirv (o : write_os) (sig : str) (ws : list Z)
| OLoadSpirv (r : read_os) (sig : str)
| OStorePtx (o : write_os) (sig ptx : str)
| OLoadPtx (r : read_os) (sig : str)
| OStoreKernel (o : write_os) (sig : str) (k : SpirvKernel)
| OLoadKernel (room : Z -> bool) (r : read_os) (sig : str)
| ONative (tag ext : str) (open_lib : list byte -> option Z) (get_symbol : Z -> str -> option Z) (link : option (list byte)) (jit : option (Z * Z))
    (r : read_os) (o : write_os) (sig entry_name : str).

Definition op_key (op : cache_op) : str :=
  match op with
  | OStore _ _ tag sig _ | OLoad _ _ tag sig => compute_key tag sig
  | OStoreSpirv _ sig _ | OLoadSpirv _ sig => compute_key (lit "spirv") sig
  | OStorePtx _ sig _ | OLoadPtx _ sig => compute_key (lit "ptx") sig
  | OStoreKernel _ sig _ | OLoadKernel _ _ sig => compute_key (lit "spirv_meta") sig
  | ONative tag _ _ _ _ _ _ _ sig _ => compute_key tag sig
  end.

Definition ignore {A} (m : st KernelDiskCache A) : st KernelDiskCache unit := fun c => (Ret tt, (m c).2).

Definition exec (e : environ) (op : cache_op) : st KernelDiskCache unit :=
  match op with
  | OStore o kind tag sig data => ignore (store_raw e o kind tag sig data)
  | OLoad r kind tag sig => ignore (load_raw e r kind tag sig)
  | OStoreSpirv o sig ws => ignore (store_spirv e o sig ws)
  | OLoadSpirv r sig => ignore (load_spirv e r sig)
  | OStorePtx o sig ptx => ignore (store_ptx e o sig ptx)
  | OLoadPtx r sig => ignore (load_ptx e r sig)
  | OStoreKernel o sig k => ignore (store_spirv_kernel e o sig k)
  | OLoadKernel room r sig => ignore (load_spirv_kernel room e r sig)
  | ONative tag ext open_lib get link jit r o sig entry => ignore (compile_or_load_cpu_kernel tag ext open_lib get link jit e r o sig entry)
  end.

Fixpoint exec_all (ops : list (environ * cache_op)) (c : KernelDiskCache) : KernelDiskCache :=
  match ops with
  | [] => c
  | (e, op) :: ops => exec_all ops (exec e op c).2
  end.

Lemma leaves_exec e e' key op : (forall c, cache_dir e' c = cache_dir e c) -> op_key op <> key -> x2e ∉ key -> leaves e key (exec e' op).
Proof.
  intros Hd Hk Hdot c Hc. unfold leaves_at, exec. destruct op; cbn [op_key ignore snd] in *.
  - by apply leaves_store.
  - by apply leaves_load.
  - unfold store_spirv. destruct ws; [by apply leaves_ret|by apply leaves_store].
  - unfold load_spirv. apply leaves_bind; [by apply leaves_load| |done]. intros [bytes|]; [|apply leaves_ret].
    destruct (_ || _)%bool; [by apply leaves_reject|]. destruct (words_of bytes); [apply leaves_undef|].
    destruct (negb _); [by apply leaves_reject|apply leaves_ret].
  - unfold store_ptx. destruct ptx; [by apply leaves_ret|by apply leaves_store].
  - unfold load_ptx. apply leaves_bind; [by apply leaves_load| |done]. intros [bytes|]; [|apply leaves_ret].
    destruct (_ && _)%bool; [by apply leaves_reject|apply leaves_ret].
  - unfold store_spirv_kernel. destruct (words k); [by apply leaves_ret|by apply leaves_store].
  - unfold load_spirv_kernel. apply leaves_bind; [by apply leaves_load| |done]. intros [bytes|]; [|apply leaves_ret].
    apply leaves_bind; [apply leaves_lift|]. intros parsed. destruct (complete parsed); [apply leaves_ret|by apply leaves_reject].
  - by apply leaves_native.
Qed.

Lemma leaves_all e key ops : Forall (fun eo => (forall c, cache_dir eo.1 c = cache_dir e c) /\ op_key eo.2 <> key) ops -> x2e ∉ key ->
  forall c, 0 <= temp_seq c -> 0 <= temp_seq (exec_all ops c) /\ override_dir_ (exec_all ops c) = override_dir_ c /\
    files (exec_all ops c) !! entry_path_for_key e c key = files c !! entry_path_for_key e c key.
Proof.
  intros H Hdot. induction H as [|[e' op] ops [Hd Hk] _ IH]; intros c Hc; [by split_and!|]. cbn [exec_all].
  destruct (leaves_exec e e' key op Hd Hk Hdot c Hc) as (H1 & H2 & H3). destruct (IH _ H1) as (K1 & K2 & K3).
  split_and!; [done|congruence|]. rewrite (entry_path_dir e c _ key H2) in K3. congruence.
Qed.

(** ** Storing *)

Lemma write_stores e o target data c : 0 <= temp_seq c -> exists b c', write_file_atomic e o target data c = (Ret b, c') /\
  0 <= temp_seq c' /\ override_dir_ c' = override_dir_ c /\ files c' !! target = (if b then Some data else files c !! target) /\
  (writes_fine o -> b = true).
Proof.
  intros Hc. unfold write_file_atomic, writes_fine. destruct (wo_mkdir o); [|by eexists false, _; split_and!; [..|intros []]]. cbn [negb].
  unfold unique_tmp_suffix, next_temp_seq, mbind, st_bind. cbn [mret st_ret]. set (tmp := target ++ tmp_suffix e (temp_seq c)).
  assert (Hn : tmp <> target).
  { unfold tmp. intros H. rewrite <- (app_nil_r target) in H at 2. by apply app_inv_head in H. }
  destruct (wo_open o); [|eexists false, _; split_and!; [done|apply u64_range|done|done|intros (_ & ? & _); done]]. cbn [negb]. unfold st_mod, remove_file.
  destruct (wo_good o), (wo_rename o), (wo_remove o); cbn; eexists _, _; (split_and!; [done|apply u64_range|done| |try done; by intros (_ & _ & ? & ?)]);
    cbn; by rewrite ?lookup_insert_eq, ?lookup_delete_ne, ?lookup_insert_ne by done.
Qed.

Lemma store_stores e o kind tag sig data c : is_enabled e = true -> 0 <= temp_seq c ->
  exists b c', store_raw e o kind tag sig data c = (Ret b, c') /\ 0 <= temp_seq c' /\ override_dir_ c' = override_dir_ c /\
    files c' !! entry_path e c tag sig = (if b then Some (entry_bytes kind data) else files c !! entry_path e c tag sig) /\ (writes_fine o -> b = true).
Proof.
  intros He Hc. unfold store_raw. rewrite He. cbn [negb].
  destruct (write_stores e o (entry_path e c tag sig) (entry_bytes kind data) c Hc) as (b & c' & E & H1 & H2 & H3 & H4).
  unfold mbind, st_bind, st_gets. fold (entry_path e c tag sig). rewrite E. destruct b; cbn [negb]; [|by eexists false, _].
  eexists true, _. by split_and!.
Qed.

(** What was stored is loaded. *)
Lemma stored_loads e o kind tag sig data ops c c1 r : is_enabled e = true -> fits data -> 0 <= temp_seq c ->
  store_raw e o kind tag sig data c = (Ret true, c1) ->
  Forall (fun eo => (forall c, cache_dir eo.1 c = cache_dir e c) /\ op_key eo.2 <> compute_key tag sig) ops -> reads_fine r ->
  load_raw e r kind tag sig (exec_all ops c1) = (Ret (Some data), count 1 0 0 0 (exec_all ops c1)).
Proof.
  intros He Hf Hc Es Hops Hr. destruct (store_stores e o kind tag sig data c He Hc) as (b & c' & E & H1 & H2 & H3 & _).
  rewrite Es in E. injection E as <- <-. destruct (leaves_all e _ ops Hops (key_no_dot tag sig) c1 H1) as (K1 & K2 & K3).
  rewrite load_raw_verify by done. unfold entry_path in *.
  rewrite (entry_path_dir e c1 (exec_all ops c1)), K3, (entry_path_dir e c c1), H3 by congruence. by rewrite verify_entry.
Qed.

(** ** Parsing *)

(** [m] reads [x] off the bytes [bs], whatever follows. *)
Definition reads {A} (m : reader A) (bs : list byte) (x : A) : Prop := forall rest, m (bs ++ rest) = Ret (Some (x, rest)).

Lemma takes_bind {A B} (m : reader A) (f : A -> reader B) bs bs' x y : reads m bs x -> reads (f x) bs' y -> reads (m ≫= f) (bs ++ bs') y.
Proof. intros Hm Hf rest. unfold mbind, reader_bind. rewrite <- app_assoc, Hm. apply Hf. Qed.

Lemma takes_map {A B} (m : reader A) (f : A -> B) bs x : reads m bs x -> reads (m ≫= fun a => mret (f a)) bs (f x).
Proof. intros Hm rest. unfold mbind, reader_bind. by rewrite Hm. Qed.

Lemma byte_of v k : 0 <= k -> bz (zb (u8 (Z.land (Z.shiftr v k) 0xFF))) = (v / 2 ^ k) mod 256.
Proof.
  intros Hk. rewrite bz_zb_mod. change 0xFF with (2 ^ 8 - 1). rewrite land_mask, Z.shiftr_div_pow2 by lia. unfold u8.
  change (2 ^ 8) with 256. by rewrite !Z.mod_mod by lia.
Qed.

Lemma takes_u32 v : 0 <= v < 2 ^ 32 -> reads read_u32 (write_u32 v) v.
Proof.
  intros Hv rest. cbn [write_u32 app read_u32]. rewrite <- (Z.shiftr_0_r v) at 1. rewrite !byte_of, !Z.shiftl_mul_pow2 by lia.
  change (2 ^ 0) with 1. rewrite Z.div_1_r. pose proof (Z.mod_pos_bound v 256 ltac:(lia)).
  pose proof (Z.mod_pos_bound (v / 2 ^ 8) 256 ltac:(lia)). pose proof (Z.mod_pos_bound (v / 2 ^ 16) 256 ltac:(lia)).
  pose proof (Z.mod_pos_bound (v / 2 ^ 24) 256 ltac:(lia)).
  rewrite (Z.lor_comm (v mod 256)), lor_low, (Z.lor_comm _ (_ * 2 ^ 16)), lor_low, (Z.lor_comm _ (_ * 2 ^ 24)), lor_low by lia.
  do 3 f_equal. change (2 ^ 8) with 256 in *. change (2 ^ 16) with 65536 in *. change (2 ^ 24) with 16777216 in *.
  Z.div_mod_to_equations. lia.
Qed.

Definition is_u32 (v : Z) : Prop := 0 <= v < 2 ^ 32.

Lemma takes_str s : is_u32 (zlen s) -> reads read_str (write_str s) s.
Proof.
  intros Hs. unfold read_str, write_str. rewrite (u32_id _ Hs). eapply takes_bind; [by apply takes_u32|]. intros rest. unfold read_bytes.
  rewrite zlen_app. pose proof (zlen_nonneg rest). destruct (Z.ltb_spec (zlen s + zlen rest) (zlen s)); [lia|].
  rewrite slice_app_first. unfold zlen. by rewrite Nat2Z.id, drop_app_length.
Qed.

Definition param_ok (p : KernelParam) : Prop := is_u32 (p_kind p) /\ is_u32 (p_offset p) /\ is_u32 (p_size p).

Lemma reads_param p : param_ok p -> reads read_param (write_param p) p.
Proof.
  intros (H1 & H2 & H3). unfold read_param, write_param. eapply takes_bind; [by apply takes_u32|]. eapply takes_bind; [by apply takes_u32|].
  destruct p as [k o s]. cbn in *. apply (takes_map read_u32 (mkParam k o)). by apply takes_u32.
Qed.

Lemma reads_all {A} (m : reader A) (w : A -> list byte) xs : Forall (fun x => reads m (w x) x) xs ->
  reads (read_all m (length xs)) (concat (map w xs)) xs.
Proof.
  induction 1 as [|x xs Hx _ IH]; [done|]. cbn. eapply takes_bind; [exact Hx|]. by apply (takes_map (read_all m (length xs)) (cons x)).
Qed.

Section Room.
Context (room : Z -> bool).

Lemma reads_vector {A} (m : reader A) (w : A -> list byte) xs : room (zlen xs) = true -> Forall (fun x => reads m (w x) x) xs ->
  reads (read_vector room m (zlen xs)) (concat (map w xs)) xs.
Proof. intros Hr Hx rest. unfold read_vector. rewrite Hr. unfold zlen. rewrite Nat2Z.id. by apply reads_all. Qed.

(** A kernel whose fields and counts fit 32 bits and memory. *)
Record kernel_ok (k : SpirvKernel) : Prop := mkKernelOk {
  ko_entry : is_u32 (zlen (entry k));
  ko_sizes : is_u32 (push_constant_bytes k) /\ is_u32 (shared_bytes k) /\ is_u32 (local_size k).1.1 /\ is_u32 (local_size k).1.2 /\ is_u32 (local_size k).2;
  ko_params : Forall param_ok (params k);
  ko_caps : Forall (fun s => is_u32 (zlen s)) (capabilities k);
  ko_exts : Forall (fun s => is_u32 (zlen s)) (extensions k);
  ko_words : Forall is_u32 (words k);
  ko_counts : is_u32 (zlen (params k)) /\ is_u32 (zlen (capabilities k)) /\ is_u32 (zlen (extensions k)) /\ is_u32 (zlen (words k));
  ko_room : room (zlen (params k)) = true /\ room (zlen (capabilities k)) = true /\ room (zlen (extensions k)) = true /\ room (zlen (words k)) = true;
  ko_spirv : 5 <= zlen (words k) /\ head (words k) = Some kSpirvMagic
}.

Lemma reads_kernel k : kernel_ok k -> reads (read_kernel room) (serialize k) k.
Proof.
  intros [He (S1 & S2 & S3 & S4 & S5) Hp Hc Hx Hw (C1 & C2 & C3 & C4) (R1 & R2 & R3 & R4) [Hm _]].
  destruct k as [en pc sb [[x y] z] spec ps caps exts ws]. cbn [entry push_constant_bytes shared_bytes local_size local_size_spec_constants params
    capabilities extensions words fst snd] in *. unfold read_kernel, serialize. cbn [local_size entry push_constant_bytes shared_bytes
    local_size_spec_constants params capabilities extensions words]. rewrite !u32_id by done.
  assert (Hspec : is_u32 (if spec then 1 else 0)) by (unfold is_u32; destruct spec; lia).
  eapply takes_bind; [by apply takes_str|]. do 7 (eapply takes_bind; [by apply takes_u32|]).
  eapply takes_bind; [apply reads_vector; [done|]; eapply Forall_impl; [exact Hp|apply reads_param]|].
  eapply takes_bind; [by apply takes_u32|].
  eapply takes_bind; [apply reads_vector; [done|]; eapply Forall_impl; [exact Hc|apply takes_str]|].
  eapply takes_bind; [by apply takes_u32|].
  eapply takes_bind; [apply reads_vector; [done|]; eapply Forall_impl; [exact Hx|apply takes_str]|].
  eapply takes_bind; [by apply takes_u32|]. destruct (Z.ltb_spec (zlen ws) 5); [lia|].
  assert (E : negb ((if spec then 1 else 0) =? 0) = spec) by (by destruct spec). rewrite E.
  apply (takes_map (read_vector room read_u32 (zlen ws)) (mkSpirv en pc sb (x, y, z) spec ps caps exts)).
  apply reads_vector; [done|]. eapply Forall_impl; [exact Hw|apply takes_u32].
Qed.

Lemma parse_serialize k : kernel_ok k -> exists parsed, read_kernel room (serialize k) = Ret parsed /\ complete parsed = Some k.
Proof.
  intros Hk. pose proof (reads_kernel k Hk []) as H. rewrite app_nil_r in H. eexists. split; [exact H|].
  destruct (ko_spirv _ Hk) as [_ Hh]. cbn. destruct (words k) as [|w ws]; [done|]. injection Hh as ->. by rewrite Z.eqb_refl.
Qed.
End Room.

(** ** SPIR-V words *)

Lemma words_of_bytes ws : Forall is_u32 ws -> words_of (word_bytes ws) = ws.
Proof.
  induction 1 as [|w ws Hw _ IH]; [done|]. unfold word_bytes in *. cbn [map concat].
  transitivity (le_int (le_bytes 4 w) :: words_of (concat (map (le_bytes 4) ws))); [done|]. rewrite IH, le_int_bytes; [done|exact Hw].
Qed.

Lemma zlen_words ws : zlen (word_bytes ws) = 4 * zlen ws.
Proof.
  induction ws as [|w ws IH]; [done|]. unfold word_bytes in *. cbn [map concat]. rewrite zlen_app, IH, zlen_le_bytes, zlen_cons. lia.
Qed.

(** ** Loading an image *)

Lemma shared_lib_loads ext open_lib get e o key entry image lib sym c : writes_fine o -> image <> [] ->
  open_lib image = Some lib -> get lib entry = Some sym -> 0 <= temp_seq c ->
  exists c', load_shared_lib_bytes ext open_lib get e o key entry image c = (Ret (Some sym), c').
Proof.
  intros Ho Hne Hd Hg Hc. unfold load_shared_lib_bytes. destruct image as [|b image]; [done|]. unfold mbind at 1, st_bind at 1, st_gets.
  unfold mbind at 1, st_bind at 1, next_temp_seq.
  match goal with |- context [write_file_atomic e o ?p (b :: image)] => set (path := p) end.
  destruct (write_stores e o path (b :: image) (set_seq (u64 (temp_seq c + 1)) c)) as (ok & c' & E & _ & _ & _ & Hok); [apply u64_range|].
  specialize (Hok Ho) as ->. unfold mbind at 1, st_bind at 1. rewrite E. cbn [negb]. unfold mbind, st_bind, st_mod. rewrite Hd, Hg. by eexists.
Qed.

(** ** The properties *)

(** Calls on other keys than [key], by threads that see the directories of [e]. *)
Definition elsewhere (e : environ) (key : str) (ops : list (environ * cache_op)) : Prop :=
  Forall (fun eo => (forall c, cache_dir eo.1 c = cache_dir e c) /\ op_key eo.2 <> key) ops.

Lemma round_trip e o kind tag sig data ops r c : is_enabled e = true -> 0 <= temp_seq c -> reads_fine r -> writes_fine o -> fits data ->
  elsewhere e (compute_key tag sig) ops ->
  let c' := exec_all ops (store_raw e o kind tag sig data c).2 in
  load_raw e r kind tag sig c' = (Ret (Some data), count 1 0 0 0 c').
Proof.
  intros He Hc Hr Ho Hf Hops. destruct (store_stores e o kind tag sig data c He Hc) as (b & c1 & E & _ & _ & _ & Hb).
  specialize (Hb Ho) as ->. rewrite E. by eapply stored_loads.
Qed.

(** C22: What is stored is loaded: bytes, SPIR-V words, PTX text and whole SPIR-V
    kernels, through any sequence of the cache's calls on other keys, by any
    threads and processes with the same directories, whatever fails in those. *)
Theorem stored_is_loaded e o r ops c : is_enabled e = true -> 0 <= temp_seq c -> reads_fine r -> writes_fine o ->
  (forall kind tag sig data, fits data -> elsewhere e (compute_key tag sig) ops ->
     (load_raw e r kind tag sig (exec_all ops (store_raw e o kind tag sig data c).2)).1 = Ret (Some data)) /\
  (forall sig ws, Forall is_u32 ws -> 5 <= zlen ws -> 32 + 4 * zlen ws <= UINT64_MAX -> head ws = Some kSpirvMagic ->
     elsewhere e (compute_key (lit "spirv") sig) ops ->
     (load_spirv e r sig (exec_all ops (store_spirv e o sig ws c).2)).1 = Ret (Some ws)) /\
  (forall sig ptx, fits ptx -> contains (lit ".version") ptx = true \/ contains (lit ".entry") ptx = true ->
     elsewhere e (compute_key (lit "ptx") sig) ops ->
     (load_ptx e r sig (exec_all ops (store_ptx e o sig ptx c).2)).1 = Ret (Some ptx)) /\
  (forall room sig k, kernel_ok room k -> fits (serialize k) -> elsewhere e (compute_key (lit "spirv_meta") sig) ops ->
     (load_spirv_kernel room e r sig (exec_all ops (store_spirv_kernel e o sig k c).2)).1 = Ret (Some k)).
Proof.
  intros He Hc Hr Ho. split_and!.
  - intros kind tag sig data Hf Hops. by rewrite (round_trip e o kind tag sig data ops r c).
  - intros sig ws Hw Hl Hf Hh Hops. assert (Hne : store_spirv e o sig ws = store_raw e o VulkanSpirv (lit "spirv") sig (word_bytes ws)) by (by destruct ws).
    rewrite Hne. unfold load_spirv, mbind, st_bind.
    rewrite (round_trip e o VulkanSpirv (lit "spirv") sig) by (done || unfold fits; rewrite zlen_words; lia).
    rewrite zlen_words, words_of_bytes by done. replace (4 * zlen ws mod 4) with 0 by (rewrite Z.mul_comm, Z.mod_mul; lia).
    destruct (Z.ltb_spec (4 * zlen ws) 20); [lia|]. destruct ws as [|w ws]; [done|]. by injection Hh as ->.
  - intros sig ptx Hf Hm Hops. assert (Hne : store_ptx e o sig ptx = store_raw e o CudaPtx (lit "ptx") sig ptx).
    { destruct ptx; [|done]. by destruct Hm. }
    rewrite Hne. unfold load_ptx, mbind, st_bind. rewrite (round_trip e o CudaPtx (lit "ptx") sig) by done.
    destruct Hm as [-> | ->]; by rewrite ?andb_false_r.
  - intros room sig k Hk Hf Hops. destruct (parse_serialize room k Hk) as (parsed & Ep & Ec).
    assert (Hne : store_spirv_kernel e o sig k = store_raw e o VulkanSpirvMeta (lit "spirv_meta") sig (serialize k)).
    { unfold store_spirv_kernel. destruct (ko_spirv _ _ Hk) as [Hz _]. by destruct (words k). }
    rewrite Hne. unfold load_spirv_kernel, mbind, st_bind. rewrite (round_trip e o VulkanSpirvMeta (lit "spirv_meta") sig) by done.
    unfold st_lift. by rewrite Ep, Ec.
Qed.

(** C24: No changed byte reaches a caller. If one byte of an entry's file is
    replaced, a load that the system lets read it returns the stored bytes and
    counts a hit (where the byte is one the format does not use, or was not
    changed), or returns nothing, removes the file, and counts a corruption and
    a miss. *)
Theorem one_byte_never_read e r kind tag sig data i b c : is_enabled e = true -> reads_fine r -> fits data ->
  files c !! entry_path e c tag sig = Some (<[i:=b]> (entry_bytes kind data)) ->
  load_raw e r kind tag sig c = (Ret (Some data), count 1 0 0 0 c) \/
  load_raw e r kind tag sig c = (Ret None, count 0 1 0 1 (remove_file (ro_remove r) (entry_path e c tag sig) c)).
Proof.
  intros He Hr Hf Hc. rewrite load_raw_verify, Hc by done. destruct (verify kind _) as [out|] eqn:E; [left|by right].
  by rewrite (verify_one_byte _ _ _ _ _ Hf E).
Qed.

(** A call for the native kernel of [tag] and [sig] that can use its image: it can
    be opened and has the entry asked for. *)
Definition can_use (tag sig : str) (image : list byte) (eo : environ * cache_op) : Prop :=
  match eo.2 with
  | ONative tag' _ open_lib get _ _ r o sig' entry =>
      tag' = tag /\ sig' = sig /\ is_enabled eo.1 = true /\ reads_fine r /\ writes_fine o /\
      exists lib sym, open_lib image = Some lib /\ get lib entry = Some sym
  | _ => False
  end.

(** The entry of [tag] and [sig] holds the image [image]. *)
Definition has_image (e : environ) (tag sig : str) (image : list byte) (c : KernelDiskCache) : Prop :=
  0 <= temp_seq c /\ files c !! entry_path e c tag sig = Some (entry_bytes CpuNative image).

(** A hit on a cached image returns its symbol and keeps the entry. *)
Lemma native_hit e e' tag ext open_lib get link jit r o sig entry image lib sym c : (forall c, cache_dir e' c = cache_dir e c) ->
  is_enabled e' = true -> reads_fine r -> writes_fine o -> fits image -> image <> [] ->
  open_lib image = Some lib -> get lib entry = Some sym -> has_image e tag sig image c ->
  exists c', compile_or_load_cpu_kernel tag ext open_lib get link jit e' r o sig entry c = (Ret (Some sym), c') /\
    has_image e tag sig image c' /\ override_dir_ c' = override_dir_ c.
Proof.
  intros Hdir He Hr Ho Hf Hne Hd Hg [Hc Hfile]. set (key := compute_key tag sig). pose proof (key_no_dot tag sig) as Hdot.
  assert (Hp : entry_path e' c tag sig = entry_path e c tag sig) by (unfold entry_path, entry_path_for_key; by rewrite Hdir).
  assert (Hc1 : 0 <= temp_seq (count 1 0 0 0 c)) by exact Hc.
  destruct (shared_lib_loads ext open_lib get e' o key entry image lib sym (count 1 0 0 0 c) Ho Hne Hd Hg Hc1) as (c' & El).
  destruct (leaves_shared_lib e e' Hdir key ext open_lib get o key entry image Hdot (count 1 0 0 0 c) Hc1) as (K1 & K2 & K3).
  rewrite El in K1, K2, K3. cbn [snd] in *. exists c'. split; [|split; [split; [done|]|done]].
  - unfold compile_or_load_cpu_kernel, mbind, st_bind. rewrite load_raw_verify, Hp, Hfile, verify_entry by done. cbv iota. fold key.
    by rewrite El.
  - rewrite <- Hfile. unfold entry_path in *. fold key. rewrite (entry_path_dir e (count 1 0 0 0 c) c' key K2). exact K3.
Qed.

Lemma image_kept e tag sig image ops : fits image -> image <> [] ->
  Forall (fun eo => (forall c, cache_dir eo.1 c = cache_dir e c) /\ (op_key eo.2 <> compute_key tag sig \/ can_use tag sig image eo)) ops ->
  forall c, has_image e tag sig image c -> has_image e tag sig image (exec_all ops c).
Proof.
  intros Hf Hne. induction 1 as [|[e' op] ops [Hd Hk] _ IH]; intros c Hc; [done|]. cbn [exec_all]. apply IH. cbn [fst snd] in *.
  destruct Hk as [Hk|Hk].
  - destruct Hc as [H0 Hfile]. destruct (leaves_exec e e' _ op Hd Hk (key_no_dot tag sig) c H0) as (H1 & H2 & H3).
    split; [done|]. unfold entry_path in *. rewrite (entry_path_dir e c _ _ H2). congruence.
  - unfold can_use in Hk. destruct op; try done. cbn [fst snd] in Hk. destruct Hk as (-> & -> & He & Hr & Ho & lib & sym & Ho1 & Hg).
    destruct (native_hit e e' tag ext open_lib get_symbol link jit r o sig entry_name image lib sym c) as (c' & E & Hi & _); try done.
    cbn [exec ignore snd]. by rewrite E.
Qed.

(** C26: A native kernel is compiled once. Where the module links to an image that
    can be loaded and has the entry asked for, and the file system lets it be
    written, the first call, for which there is nothing cached, returns that
    entry's address. Every later call for the same signature that can open the
    image and finds the entry name it asks for there returns the address found,
    whatever compiling would yield then: after any calls on other keys, and any
    calls for this signature of that kind. (A call for the same signature with an
    entry name the image does not have: [other_entry_evicts].) *)
Theorem compiled_once tag ext open_lib get image lib sym jit e r o sig entry c : is_enabled e = true -> reads_fine r -> writes_fine o ->
  0 <= temp_seq c -> fits image -> image <> [] -> open_lib image = Some lib -> get lib entry = Some sym ->
  files c !! entry_path e c tag sig = None ->
  exists c1, compile_or_load_cpu_kernel tag ext open_lib get (Some image) jit e r o sig entry c = (Ret (Some sym), c1) /\
    forall ops open_lib' get' lib' sym' link' jit' r' o' entry',
      Forall (fun eo => (forall c, cache_dir eo.1 c = cache_dir e c) /\ (op_key eo.2 <> compute_key tag sig \/ can_use tag sig image eo)) ops ->
      reads_fine r' -> writes_fine o' -> open_lib' image = Some lib' -> get' lib' entry' = Some sym' ->
      (compile_or_load_cpu_kernel tag ext open_lib' get' link' jit' e r' o' sig entry' (exec_all ops c1)).1 = Ret (Some sym').
Proof.
  intros He Hr Ho Hc Hf Hne Hd Hg Hnone. set (key := compute_key tag sig). pose proof (key_no_dot tag sig) as Hdot.
  destruct (store_stores e o CpuNative tag sig image (count 0 1 0 0 c) He Hc) as (b & c2 & Es & H1 & H2 & H3 & Hb). specialize (Hb Ho) as ->.
  destruct (shared_lib_loads ext open_lib get e o key entry image lib sym c2 Ho Hne Hd Hg H1) as (c3 & El).
  destruct (leaves_shared_lib e e (fun _ => eq_refl) key ext open_lib get o key entry image Hdot c2 H1) as (K1 & K2 & K3).
  rewrite El in K1, K2, K3. cbn [snd] in *. exists c3. split.
  - unfold compile_or_load_cpu_kernel, mbind, st_bind. rewrite load_raw_verify, Hnone by done. destruct image as [|x image]; [done|].
    cbn [mret st_ret]. fold key. by rewrite Es, El.
  - intros ops open_lib' get' lib' sym' link' jit' r' o' entry' Hops Hr' Ho' Hd' Hg'.
    assert (Hi : has_image e tag sig image c3).
    { split; [done|]. unfold entry_path in *. fold key in H3 |- *. rewrite (entry_path_dir e c2 c3 key K2), K3, (entry_path_dir e _ c2 key H2). exact H3. }
    destruct (native_hit e e tag ext open_lib' get' link' jit' r' o' sig entry' image lib' sym' (exec_all ops c3)) as (c4 & -> & _); try done.
    by apply image_kept.
Qed.

Lemma shared_lib_fails ext open_lib get e o key entry image lib c : image <> [] -> 0 <= temp_seq c ->
  open_lib image = Some lib -> get lib entry = None ->
  exists c', load_shared_lib_bytes ext open_lib get e o key entry image c = (Ret None, c') /\ corruptions_ c' = corruptions_ c.
Proof.
  intros Hne Hc Hd Hg. unfold load_shared_lib_bytes. destruct image as [|b image]; [done|]. unfold mbind at 1, st_bind at 1, st_gets.
  unfold mbind at 1, st_bind at 1, next_temp_seq. unfold write_file_atomic, unique_tmp_suffix, next_temp_seq, mbind, st_bind, st_mod.
  destruct (wo_mkdir o); [|by eexists]. destruct (wo_open o); [|by eexists]. cbn [negb mret st_ret].
  destruct (wo_good o), (wo_rename o), (wo_remove o); cbn [negb]; rewrite ?Hd, ?Hg; by eexists.
Qed.

(** The key of a native kernel has no entry name: a call for the same signature
    under a name the cached image does not have takes the entry for a corrupt one,
    removes it, and compiles again. *)
Theorem other_entry_evicts tag ext open_lib get image lib jit e r o sig entry c : is_enabled e = true -> reads_fine r -> ro_remove r = true ->
  0 <= temp_seq c -> fits image -> image <> [] -> open_lib image = Some lib -> get lib entry = None ->
  files c !! entry_path e c tag sig = Some (entry_bytes CpuNative image) ->
  let '(res, c') := compile_or_load_cpu_kernel tag ext open_lib get None jit e r o sig entry c in
  res = Ret (snd <$> jit) /\ files c' !! entry_path e c tag sig = None /\ corruptions_ c' = u64 (u64 (corruptions_ c + 0) + 1).
Proof.
  intros He Hr Hrm Hc Hf Hne Hd Hg Hfile. set (key := compute_key tag sig). pose proof (key_no_dot tag sig) as Hdot.
  assert (Hc1 : 0 <= temp_seq (count 1 0 0 0 c)) by exact Hc.
  destruct (shared_lib_fails ext open_lib get e o key entry image lib (count 1 0 0 0 c) Hne Hc1 Hd Hg) as (c' & El & Hx).
  destruct (leaves_shared_lib e e (fun _ => eq_refl) key ext open_lib get o key entry image Hdot (count 1 0 0 0 c) Hc1) as (K1 & K2 & K3).
  rewrite El in K1, K2, K3. cbn [snd] in *.
  unfold compile_or_load_cpu_kernel, mbind, st_bind. rewrite load_raw_verify, Hfile, verify_entry by done. cbv iota. fold key. rewrite El.
  unfold reject, mbind, st_bind, st_gets, st_mod. fold key. rewrite Hrm. cbn [remove_file mret st_ret].
  assert (Hp : entry_path_for_key e c' key = entry_path e c tag sig) by exact (entry_path_dir e (count 1 0 0 0 c) c' key K2).
  rewrite Hp. destruct jit as [[en fn]|]; cbn; rewrite lookup_delete_eq, Hx; done.
Qed.

(** ** An example *)
Module CacheEx.
Definition env : environ := mkEnviron None (Some (lit "/var/cache")) None None None 7 0x9f.
Definition os_r : read_os := mkReadOs false true true true true.
Definition os_w : write_os := mkWriteOs true true true [] true true.
Definition start : KernelDiskCache := mkCache ∅ 1 [] 0 0 0 0 [] [].
Definition kernel : SpirvKernel :=
  mkSpirv (lit "main") 16 0 (64, 1, 1) true [mkParam 3 0 8; mkParam 2 8 4] [lit "Shader"] [] [kSpirvMagic; 0x00010500; 0; 10; 0].
Definition room (n : Z) : bool := n <? 1000.
Definition others : list (environ * cache_op) :=
  [(env, OStore os_w CpuNative (lit "cpu_x64") (lit "k") (lit "image")); (env, OLoadPtx os_r (lit "other"))].

Lemma kernel_fine : kernel_ok room kernel.
Proof. constructor; cbn; unfold is_u32, param_ok, is_u32; repeat constructor; done. Qed.

Lemma others_elsewhere : elsewhere env (compute_key (lit "spirv_meta") (lit "add")) others.
Proof. repeat constructor; by vm_compute. Qed.
End CacheEx.

Lemma stored_is_loaded_witness :
  (load_spirv_kernel CacheEx.room CacheEx.env CacheEx.os_r (lit "add")
     (exec_all CacheEx.others (store_spirv_kernel CacheEx.env CacheEx.os_w (lit "add") CacheEx.kernel CacheEx.start).2)).1 = Ret (Some CacheEx.kernel).
Proof.
  destruct (stored_is_loaded CacheEx.env CacheEx.os_w CacheEx.os_r CacheEx.others CacheEx.start
    eq_refl ltac:(done) ltac:(by split_and!) ltac:(by split_and!)) as (_ & _ & _ & H).
  apply H; [exact CacheEx.kernel_fine|vm_compute; discriminate|exact CacheEx.others_elsewhere].
Defined.

Lemma one_byte_never_read_witness :
  let damaged := set_files {[ entry_path CacheEx.env CacheEx.start (lit "ptx") (lit "k") := <[40%nat:=x00]> (entry_bytes CudaPtx (lit ".version 8")) ]} CacheEx.start in
  load_raw CacheEx.env CacheEx.os_r CudaPtx (lit "ptx") (lit "k") damaged = (Ret (Some (lit ".version 8")), count 1 0 0 0 damaged) \/
  load_raw CacheEx.env CacheEx.os_r CudaPtx (lit "ptx") (lit "k") damaged =
    (Ret None, count 0 1 0 1 (remove_file true (entry_path CacheEx.env damaged (lit "ptx") (lit "k")) damaged)).
Proof.
  apply (one_byte_never_read CacheEx.env CacheEx.os_r CudaPtx (lit "ptx") (lit "k") (lit ".version 8") 40 x00);
    [reflexivity|by split_and!|vm_compute; discriminate|by vm_compute].
Defined.

(** A library has the entries [f] and [g], at addresses after its own. *)
Definition symbols (base : Z) (lib : Z) (name : str) : option Z :=
  if str_eqb name (lit "f") then Some (base + lib) else if str_eqb name (lit "g") then Some (base + lib + 1) else None.

Lemma compiled_once_witness :
  exists c1, compile_or_load_cpu_kernel (lit "cpu_x64") (lit ".so") (fun _ => Some 5) (symbols 100) (Some (lit "image")) None
      CacheEx.env CacheEx.os_r CacheEx.os_w (lit "sig") (lit "f") CacheEx.start = (Ret (Some 105), c1) /\
    let again := ONative (lit "cpu_x64") (lit ".so") (fun _ => Some 6) (symbols 200) None None CacheEx.os_r CacheEx.os_w (lit "sig") (lit "f") in
    (compile_or_load_cpu_kernel (lit "cpu_x64") (lit ".so") (fun _ => Some 7) (symbols 300) (Some (lit "other")) None
      CacheEx.env CacheEx.os_r CacheEx.os_w (lit "sig") (lit "g") (exec_all [(CacheEx.env, again)] c1)).1 = Ret (Some 308).
Proof.
  destruct (compiled_once (lit "cpu_x64") (lit ".so") (fun _ => Some 5) (symbols 100) (lit "image") 5 105 None CacheEx.env CacheEx.os_r CacheEx.os_w
    (lit "sig") (lit "f") CacheEx.start
    eq_refl ltac:(by split_and!) ltac:(by split_and!) ltac:(done) ltac:(vm_compute; discriminate) ltac:(discriminate) eq_refl eq_refl ltac:(reflexivity))
    as (c1 & E & H).
  exists c1. split; [exact E|]. intros again. apply (H [(CacheEx.env, again)] _ _ 7 308); [|by split_and!|by split_and!|reflexivity|reflexivity].
  apply Forall_singleton. split; [done|right]. cbn. do 3 (split; [reflexivity|]). do 2 (split; [by split_and!|]). by exists 6, 206.
Defined.
