(* ===== verification/DiskCacheAtomic.v ===== *)
(** * The kernel cache under concurrent writers

    Writers of src/jit/kernel_disk_cache.cpp in any number of threads and
    processes, as interleaved steps on the files: opening a temporary file,
    writing it in pieces, renaming it over the entry, failing and removing it;
    stopping anywhere is a crash. [write_file_atomic] is such a writer that runs
    alone ([write_refines]), and entries are whole in every reachable state. *)
From S2P Require Import Prelude DiskCache DiskCacheSpec.

Inductive wpc : Type := Idle | Writing (k : nat) | Gone.

Record writer : Type := mkWriter { w_env : environ; w_seq : Z; w_target : str; w_data : list byte; w_pc : wpc }.

Definition w_tmp (w : writer) : str := w_target w ++ tmp_suffix (w_env w) (w_seq w).
Definition at_pc (w : writer) (pc : wpc) : writer := mkWriter (w_env w) (w_seq w) (w_target w) (w_data w) pc.

Abbreviation fs := (gmap str (list byte)).

Inductive wstep (f : fs) (w : writer) : fs -> writer -> Prop :=
| w_open : w_pc w = Idle -> wstep f w (<[w_tmp w := []]> f) (at_pc w (Writing 0))
| w_write k j : w_pc w = Writing k -> (k < j <= length (w_data w))%nat -> wstep f w (<[w_tmp w := take j (w_data w)]> f) (at_pc w (Writing j))
| w_rename content : w_pc w = Writing (length (w_data w)) -> f !! w_tmp w = Some content ->
    wstep f w (<[w_target w := content]> (delete (w_tmp w) f)) (at_pc w Gone)
| w_give_up : wstep f w f (at_pc w Gone)
| w_remove k : w_pc w = Writing k -> wstep f w (delete (w_tmp w) f) (at_pc w Gone).

(** The files, and the writers; readers remove entries. *)
Record system : Type := mkSystem { s_files : fs; s_writers : list writer }.

Definition is_entry (p : str) : Prop := exists q, p = q ++ lit ".btkc".

Inductive sys_step (s : system) : system -> Prop :=
| sys_writer i w f' w' : s_writers s !! i = Some w -> wstep (s_files s) w f' w' -> sys_step s (mkSystem f' (<[i := w']> (s_writers s)))
| sys_remove p : is_entry p -> sys_step s (mkSystem (delete p (s_files s)) (s_writers s)).

(** ** Names of temporary files *)

Lemma split_last_dot (a b x y : str) : x2e ∉ x -> x2e ∉ y -> a ++ x2e :: x = b ++ x2e :: y -> a = b /\ x = y.
Proof.
  revert b. induction a as [|c a IH]; intros [|d b] Hx Hy H; cbn in H.
  - injection H as ->. done.
  - injection H as <- ->. exfalso. apply Hx. rewrite elem_of_app. right. by left.
  - injection H as -> <-. exfalso. apply Hy. rewrite elem_of_app. right. by left.
  - injection H as -> H. destruct (IH b Hx Hy H) as [-> ->]. done.
Qed.

Lemma digit_no_dot d : 0 <= d < 10 -> digit d <> x2e.
Proof. intros Hd H. apply (f_equal bz) in H. unfold digit in H. rewrite bz_zb in H by lia. cbn in H. lia. Qed.

Lemma dec_no_dot fuel n acc : 0 <= n -> x2e ∉ acc -> x2e ∉ dec_digits fuel n acc.
Proof.
  revert n acc. induction fuel as [|f IH]; intros n acc Hn Ha; [done|]. cbn [dec_digits]. destruct (Z.ltb_spec n 10).
  - intros [H'|H']%elem_of_cons; [by eapply (digit_no_dot n)|done].
  - apply IH; [apply Z.div_pos; lia|]. intros [H'|H']%elem_of_cons; [|done]. eapply (digit_no_dot (n mod 10)); [apply Z.mod_pos_bound; lia|done].
Qed.

Lemma to_string_no_dot n : 0 <= n -> x2e ∉ to_string n.
Proof. intros Hn. unfold to_string, to_dec. destruct (Z.ltb_spec n 0); [lia|]. apply dec_no_dot; [done|apply not_elem_of_nil]. Qed.

Lemma hex_digits_no_dot fuel n acc : x2e ∉ acc -> x2e ∉ hex_digits fuel n acc.
Proof.
  revert n acc. induction fuel as [|f IH]; intros n acc Ha; [done|]. cbn [hex_digits].
  assert (Hc : x2e ∉ hex_digit (n mod 16) :: acc).
  { intros [H|H]%elem_of_cons; [|done]. apply (hex_no_dot 1 n). cbn. by apply list_elem_of_singleton. }
  destruct (n <? 16); [done|by apply IH].
Qed.

Lemma to_string_inj m n : 0 <= m -> 0 <= n -> to_string m = to_string n -> m = n.
Proof.
  intros Hm Hn. unfold to_string. destruct (Z.ltb_spec m 0), (Z.ltb_spec n 0); try lia. intros E.
  destruct (to_dec_spec m Hm) as (_ & _ & Em). destruct (to_dec_spec n Hn) as (_ & _ & En). congruence.
Qed.

Lemma tmp_inj t t' e e' q q' : 0 <= q -> 0 <= q' -> 0 <= e_pid e -> 0 <= e_pid e' ->
  t ++ tmp_suffix e q = t' ++ tmp_suffix e' q' -> e_pid e = e_pid e' /\ q = q'.
Proof.
  intros Hq Hq' Hp Hp' H. unfold tmp_suffix in H.
  replace (t ++ lit ".tmp." ++ to_string (e_pid e) ++ lit "." ++ to_hex (e_tid e) ++ lit "." ++ to_string q)
    with ((((t ++ lit ".tmp") ++ x2e :: to_string (e_pid e)) ++ x2e :: to_hex (e_tid e)) ++ x2e :: to_string q) in H
    by (by rewrite <- !app_assoc).
  replace (t' ++ lit ".tmp." ++ to_string (e_pid e') ++ lit "." ++ to_hex (e_tid e') ++ lit "." ++ to_string q')
    with ((((t' ++ lit ".tmp") ++ x2e :: to_string (e_pid e')) ++ x2e :: to_hex (e_tid e')) ++ x2e :: to_string q') in H
    by (by rewrite <- !app_assoc).
  apply split_last_dot in H as [H Eq]; [|by apply to_string_no_dot..].
  apply split_last_dot in H as [H _]; [|apply hex_digits_no_dot, not_elem_of_nil..].
  apply split_last_dot in H as [_ Ep]; [|by apply to_string_no_dot..].
  split; by apply to_string_inj.
Qed.

(** ** Entries are whole *)

(** The writers of a system: each targets an entry, and no two share process
    and number. *)
Record writers_ok (ws : list writer) : Prop := mkWritersOk {
  wk_entry : Forall (fun w => is_entry (w_target w)) ws;
  wk_nonneg : Forall (fun w => 0 <= w_seq w /\ 0 <= e_pid (w_env w)) ws;
  wk_unique : forall i j w w', ws !! i = Some w -> ws !! j = Some w' -> i <> j -> e_pid (w_env w) = e_pid (w_env w') -> w_seq w <> w_seq w'
}.

Lemma tmp_entry_ne w p : 0 <= w_seq w -> is_entry p -> w_tmp w <> p.
Proof. intros Hs (q & ->). by apply tmp_not_entry. Qed.

Lemma tmp_unique ws i j w w' : writers_ok ws -> ws !! i = Some w -> ws !! j = Some w' -> i <> j -> w_tmp w <> w_tmp w'.
Proof.
  intros [_ Hn Hu] Hi Hj Hne H. rewrite Forall_lookup in Hn. destruct (Hn _ _ Hi), (Hn _ _ Hj).
  apply tmp_inj in H as [Hp Hq]; [|done..]. by apply (Hu i j w w').
Qed.

(** Two writers that differ in their progress only. *)
Definition same_writer (w w' : writer) : Prop := w_env w' = w_env w /\ w_seq w' = w_seq w /\ w_target w' = w_target w /\ w_data w' = w_data w.

Lemma same_tmp w w' : same_writer w w' -> w_tmp w' = w_tmp w.
Proof. intros (E1 & E2 & E3 & _). unfold w_tmp. by rewrite E1, E2, E3. Qed.

Lemma at_pc_same w pc : same_writer w (at_pc w pc).
Proof. by repeat split. Qed.

(** Every entry holds the data of a writer for it or what it held; a writer's
    temporary file holds what it has written. *)
Record whole (f0 : fs) (ws : list writer) (s : system) : Prop := mkWhole {
  wh_same : Forall2 same_writer ws (s_writers s);
  wh_entry : forall p content, is_entry p -> s_files s !! p = Some content ->
    f0 !! p = Some content \/ exists w, w ∈ ws /\ w_target w = p /\ w_data w = content;
  wh_tmp : forall i w k content, s_writers s !! i = Some w -> w_pc w = Writing k -> s_files s !! w_tmp w = Some content ->
    content = take k (w_data w)
}.

Section Whole.
Context (f0 : fs) (ws : list writer) (Hws : writers_ok ws) (Hidle : Forall (fun w => w_pc w = Idle) ws).

Lemma whole_start : whole f0 ws (mkSystem f0 ws).
Proof.
  constructor; cbn.
  - clear. induction ws; constructor; [by repeat split|done].
  - intros p content _ H. by left.
  - intros i w k content Hi Hk _. rewrite Forall_lookup in Hidle. rewrite (Hidle _ _ Hi) in Hk. done.
Qed.

(** The facts about writer [i] of a state. *)
Lemma writer_of s i w : whole f0 ws s -> s_writers s !! i = Some w ->
  exists w0, ws !! i = Some w0 /\ same_writer w0 w /\ is_entry (w_target w) /\ 0 <= w_seq w /\
    (forall j w', s_writers s !! j = Some w' -> i <> j -> w_tmp w <> w_tmp w').
Proof.
  intros [Hs _ _] Hi. destruct (Forall2_lookup_r _ _ _ _ _ Hs Hi) as (w0 & H0 & Hsame). exists w0.
  pose proof Hsame as (E1 & E2 & E3 & E4). destruct Hws as [He Hn _]. rewrite Forall_lookup in He, Hn.
  split_and!; [done|done|rewrite E3; by eapply He|rewrite E2; by apply (Hn _ _ H0)|].
  intros j w' Hj Hne. destruct (Forall2_lookup_r _ _ _ _ _ Hs Hj) as (w1 & H1 & Hsame').
  rewrite (same_tmp _ _ Hsame), (same_tmp _ _ Hsame'). by eapply tmp_unique.
Qed.

(** Writer [i] moves, and changes its temporary file only. *)
Lemma whole_tmp s i w f' pc : whole f0 ws s -> s_writers s !! i = Some w ->
  (forall p, p <> w_tmp w -> f' !! p = s_files s !! p) ->
  (forall k content, pc = Writing k -> f' !! w_tmp w = Some content -> content = take k (w_data w)) ->
  whole f0 ws (mkSystem f' (<[i := at_pc w pc]> (s_writers s))).
Proof.
  intros Hw Hi Hf Ht. destruct (writer_of s i w Hw Hi) as (w0 & H0 & Hsame & He & Hq & Hu). destruct Hw as [Hs Hent Htmp].
  constructor; cbn [s_files s_writers].
  - rewrite <- (list_insert_id ws i w0 H0). by apply Forall2_insert.
  - intros p content Hp Hc. apply Hent; [done|]. rewrite <- Hf; [done|]. intros ->. by eapply tmp_entry_ne.
  - intros j w' k content Hj Hk Hc. destruct (decide (i = j)) as [<-|Hne].
    + rewrite list_lookup_insert_eq in Hj by (by eapply lookup_lt_Some). injection Hj as <-. by eapply Ht.
    + rewrite list_lookup_insert_ne in Hj by done. eapply Htmp; [exact Hj|exact Hk|]. rewrite <- Hf; [done|]. intros E. by eapply Hu.
Qed.

Lemma whole_step s s' : whole f0 ws s -> sys_step s s' -> whole f0 ws s'.
Proof.
  intros Hw Hstep. destruct Hstep as [i w f' w' Hi Hst|p Hp].
  - destruct Hst as [Hpc|k j Hpc Hj|content Hpc Hc| |k Hpc].
    + apply whole_tmp; [done|done|intros p Hp; by rewrite lookup_insert_ne|]. intros k content [= <-]. rewrite lookup_insert_eq. by intros [= <-].
    + apply whole_tmp; [done|done|intros p Hp; by rewrite lookup_insert_ne|]. intros k' content [= <-]. rewrite lookup_insert_eq. by intros [= <-].
    + destruct (writer_of s i w Hw Hi) as (w0 & H0 & Hsame & He & Hq & Hu). destruct Hw as [Hs Hent Htmp].
      pose proof (Htmp i w _ _ Hi Hpc Hc) as ->. rewrite firstn_all. constructor; cbn [s_files s_writers].
      * rewrite <- (list_insert_id ws i w0 H0). by apply Forall2_insert.
      * intros p content Hp. destruct (decide (w_target w = p)) as [<-|Hne].
        { rewrite lookup_insert_eq. intros [= <-]. right. exists w0. destruct Hsame as (_ & _ & E3 & E4).
          split_and!; [by eapply list_elem_of_lookup_2|done|done]. }
        rewrite lookup_insert_ne, lookup_delete_ne by (done || by apply tmp_entry_ne). by apply Hent.
      * intros j w' k content Hj Hk. destruct (decide (i = j)) as [<-|Hne].
        { rewrite list_lookup_insert_eq in Hj by (by eapply lookup_lt_Some). by injection Hj as <-. }
        rewrite list_lookup_insert_ne in Hj by done. 
        assert (w_target w <> w_tmp w') by (intros E; destruct (writer_of s j w') as (? & _ & _ & _ & Hq' & _); [by constructor|done|]; by apply (tmp_entry_ne w' (w_target w))).
        rewrite lookup_insert_ne, lookup_delete_ne by (done || by eapply Hu). by apply (Htmp j).
    + apply whole_tmp; [done|done|done|]. done.
    + apply whole_tmp; [done|done|intros p Hp; by rewrite lookup_delete_ne|]. done.
  - destruct Hw as [Hs Hent Htmp]. constructor; cbn; [done| |].
    + intros q content Hq [_ H]%lookup_delete_Some. by apply Hent.
    + intros i w k content Hi Hk [_ H]%lookup_delete_Some. by eapply Htmp.
Qed.

Lemma whole_reachable s s' : whole f0 ws s -> rtc sys_step s s' -> whole f0 ws s'.
Proof. intros Hw H. induction H as [|s1 s2 s3 Hst _ IH]; [done|]. apply IH. by eapply whole_step. Qed.
End Whole.

(** ** The properties *)

(** One step of a writer that runs alone. *)
Definition alone (x y : fs * writer) : Prop := wstep x.1 x.2 y.1 y.2.

Lemma alone_step f w f' w' : wstep f w f' w' -> alone (f, w) (f', w').
Proof. done. Qed.

Lemma alone_writes f w j : w_pc w = Idle -> (j <= length (w_data w))%nat ->
  rtc alone (f, w) (<[w_tmp w := take j (w_data w)]> f, at_pc w (Writing j)).
Proof.
  intros Hpc Hj. eapply rtc_l; [by apply alone_step, w_open|]. destruct (decide (j = 0%nat)) as [->|Hne]; [done|].
  eapply rtc_l; [apply alone_step|done]. pose proof (w_write (<[w_tmp w:=[]]> f) (at_pc w (Writing 0)) 0 j eq_refl ltac:(cbn; lia)) as H.
  change (w_tmp (at_pc w (Writing 0))) with (w_tmp w) in H. rewrite insert_insert_eq in H. exact H.
Qed.

Lemma write_succeeds e o target data c ok c' : write_file_atomic e o target data c = (Ret ok, c') ->
  ok = wo_mkdir o && wo_open o && wo_good o && wo_rename o.
Proof.
  unfold write_file_atomic, mbind, st_bind, unique_tmp_suffix, next_temp_seq, st_mod.
  by destruct (wo_mkdir o), (wo_open o), (wo_good o), (wo_rename o); intros [= <- _].
Qed.

(** C25: [write_file_atomic] is a writer that runs alone. Provided what a failed
    write leaves in the temporary file is a part of the data from its start, then
    whatever else the operating system answers, the files it leaves are those after
    steps of the writer with its number, which has ended. It returns true exactly
    if the directory, the open, the write and the rename all succeeded; if it
    returns true the target holds the data, and if false the target is as it was. *)
Theorem write_refines e o target data c : 0 <= temp_seq c -> prefix (wo_partial o) data ->
  exists ok c' w', write_file_atomic e o target data c = (Ret ok, c') /\
    ok = wo_mkdir o && wo_open o && wo_good o && wo_rename o /\
    rtc alone (files c, mkWriter e (temp_seq c) target data Idle) (files c', w') /\ w_pc w' = Gone /\
    files c' !! target = (if ok then Some data else files c !! target).
Proof.
  intros Hc [rest Hpre]. set (w := mkWriter e (temp_seq c) target data Idle).
  destruct (write_stores e o target data c Hc) as (ok & c' & E & _ & _ & Ht & _). exists ok, c'.
  assert (Hok : ok = wo_mkdir o && wo_open o && wo_good o && wo_rename o) by by eapply write_succeeds.
  assert (Hgo : exists w', rtc alone (files c, w) (files c', w') /\ w_pc w' = Gone); [|destruct Hgo as (w' & ? & ?); by exists w'].
  clear Hok.
  exists (at_pc w Gone). split; [|done]. clear Ht. revert E. unfold write_file_atomic.
  destruct (wo_mkdir o); [|intros [= <- <-]; apply rtc_once, alone_step, w_give_up]. cbn [negb].
  unfold unique_tmp_suffix, next_temp_seq, mbind, st_bind. cbn [mret st_ret].
  destruct (wo_open o); [|intros [= <- <-]; apply rtc_once, alone_step, w_give_up]. cbn [negb]. unfold st_mod.
  set (part := if wo_good o then data else wo_partial o).
  assert (Hpart : part = take (length part) data).
  { unfold part. destruct (wo_good o); [by rewrite firstn_all|]. rewrite Hpre. by rewrite take_app_length. }
  assert (Hw : rtc alone (files c, w) (<[w_tmp w := part]> (files c), at_pc w (Writing (length part)))).
  { rewrite Hpart at 1. apply alone_writes; [done|]. cbn. rewrite Hpart, length_take. lia. }
  assert (Hfail : forall c1, files c1 = <[w_tmp w := part]> (files c) ->
    rtc alone (files c, w) (files (remove_file (wo_remove o) (w_tmp w) c1), at_pc w Gone)).
  { intros c1 E1. eapply rtc_r; [exact Hw|]. unfold remove_file. destruct (wo_remove o); cbn; rewrite E1; apply alone_step;
      [by apply (w_remove _ (at_pc w (Writing (length part))) (length part))|apply (w_give_up _ (at_pc w (Writing (length part))))]. }
  destruct (wo_good o) eqn:Eg; cbn [negb]; [|intros [= <- <-]; by apply Hfail].
  destruct (wo_rename o); cbn [negb]; [|intros [= <- <-]; by apply Hfail]. intros [= <- <-]. cbn [set_files set_seq files].
  eapply rtc_r; [exact Hw|]. apply alone_step, (w_rename _ (at_pc w (Writing (length part))) data); [done|]. cbn. by rewrite lookup_insert_eq.
Qed.

(** C23: A reader never sees a torn entry. Any number of threads and processes
    store entries of a key, each under a name of its own, in any interleaving of
    their steps, some stopped in the middle, while others remove entries; at
    every moment a load of the key, which had no entry before, misses without
    finding a corruption or returns exactly what one of them stored. *)
Theorem never_torn c e r kind tag sig ws s : writers_ok ws -> Forall (fun w => w_pc w = Idle) ws ->
  files c !! entry_path e c tag sig = None ->
  (forall w, w ∈ ws -> w_target w = entry_path e c tag sig -> exists data, fits data /\ w_data w = entry_bytes kind data) ->
  rtc sys_step (mkSystem (files c) ws) s -> is_enabled e = true -> reads_fine r ->
  let c' := set_files (s_files s) c in
  load_raw e r kind tag sig c' = (Ret None, count 0 1 0 0 c') \/
  exists w data, w ∈ ws /\ w_target w = entry_path e c tag sig /\ w_data w = entry_bytes kind data /\
    load_raw e r kind tag sig c' = (Ret (Some data), count 1 0 0 0 c').
Proof.
  intros Hws Hidle Hnone Hdata Hrun He Hr c'. pose proof (whole_reachable _ ws Hws _ _ (whole_start _ ws Hidle) Hrun) as [_ Hent _].
  rewrite load_raw_verify by done. assert (Hp : entry_path e c' tag sig = entry_path e c tag sig) by (by apply entry_path_dir). rewrite Hp.
  cbn [c' set_files files]. destruct (s_files s !! entry_path e c tag sig) as [content|] eqn:Es; [right|by left].
  destruct (Hent (entry_path e c tag sig) content) as [H|(w & Hw & Ht & Hd)]; [|done|congruence|].
  { exists (path_join (cache_dir e c) (compute_key tag sig)). unfold entry_path, entry_path_for_key. by rewrite path_join_suffix. }
  destruct (Hdata w Hw Ht) as (data & Hf & Ed). exists w, data. split_and!; [done|done|done|].
  rewrite <- Hd, Ed, verify_entry by done. done.
Qed.

(** ** An example

    Two threads store the same key; one has stopped after its first bytes. *)
Module TornEx.
Definition env : environ := mkEnviron None (Some (lit "/var/cache")) None None None 7 0x9f.
Definition start : KernelDiskCache := mkCache ∅ 3 [] 0 0 0 0 [] [].
Definition path : str := entry_path env start (lit "ptx") (lit "k").
Definition bytes : list byte := entry_bytes CudaPtx (lit ".version 8").
Definition w1 : writer := mkWriter env 1 path bytes Idle.
Definition w2 : writer := mkWriter env 2 path bytes Idle.
Definition files1 : gmap str (list byte) := <[w_tmp w1 := take 3 bytes]> (<[w_tmp w1 := []]> ∅).
Definition stopped : system := mkSystem files1 [at_pc w1 (Writing 3); w2].

Lemma path_entry : is_entry path.
Proof. exists (path_join (lit "/var/cache") (compute_key (lit "ptx") (lit "k"))). by vm_compute. Qed.

Lemma both_ok : writers_ok [w1; w2].
Proof.
  constructor.
  - repeat constructor; exact path_entry.
  - repeat constructor; done.
  - intros i j w w' Hi Hj Hne _. destruct i as [|[|i]], j as [|[|j]]; try done; by injection Hi as <-; injection Hj as <-.
Qed.

Lemma run : rtc sys_step (mkSystem ∅ [w1; w2]) stopped.
Proof.
  apply (rtc_l _ _ (mkSystem (<[w_tmp w1 := []]> ∅) [at_pc w1 (Writing 0); w2])).
  - exact (sys_writer (mkSystem ∅ [w1; w2]) 0 w1 _ _ eq_refl (w_open ∅ w1 eq_refl)).
  - apply rtc_once. refine (sys_writer (mkSystem _ [at_pc w1 (Writing 0); w2]) 0 _ _ _ eq_refl (w_write _ (at_pc w1 (Writing 0)) 0 3 eq_refl _)).
    vm_compute. lia.
Qed.

Definition os_r : read_os := mkReadOs false true true true true.
(** A write that stops with half the data in the temporary file. *)
Definition os_w : write_os := mkWriteOs true true false (take 20 bytes) true false.
End TornEx.

Lemma write_refines_witness : exists c' w', write_file_atomic TornEx.env TornEx.os_w TornEx.path TornEx.bytes TornEx.start = (Ret false, c') /\
  rtc alone (files TornEx.start, mkWriter TornEx.env 3 TornEx.path TornEx.bytes Idle) (files c', w') /\ w_pc w' = Gone /\
  files c' !! TornEx.path = files TornEx.start !! TornEx.path.
Proof.
  destruct (write_refines TornEx.env TornEx.os_w TornEx.path TornEx.bytes TornEx.start) as (ok & c' & w' & E & Hok & Hr & Hg & Ht);
    [done|exists (drop 20 TornEx.bytes); symmetry; apply take_drop|].
  cbn in Hok. subst ok. exists c', w'. exact (conj E (conj Hr (conj Hg Ht))).
Defined.

Lemma never_torn_witness : let c' := set_files (s_files TornEx.stopped) TornEx.start in
  load_raw TornEx.env TornEx.os_r CudaPtx (lit "ptx") (lit "k") c' = (Ret None, count 0 1 0 0 c') \/
  exists w data, w ∈ [TornEx.w1; TornEx.w2] /\ w_target w = TornEx.path /\ w_data w = entry_bytes CudaPtx data /\
    load_raw TornEx.env TornEx.os_r CudaPtx (lit "ptx") (lit "k") c' = (Ret (Some data), count 1 0 0 0 c').
Proof.
  apply (never_torn TornEx.start TornEx.env TornEx.os_r CudaPtx (lit "ptx") (lit "k") [TornEx.w1; TornEx.w2] TornEx.stopped);
    [exact TornEx.both_ok|by repeat constructor|by vm_compute| |exact TornEx.run|reflexivity|by split_and!].
  intros w Hw _. exists (lit ".version 8"). split; [vm_compute; discriminate|].
  by apply elem_of_cons in Hw as [->|Hw%list_elem_of_singleton]; [|subst w].
Defined.
